(* ===== verification/_CoqProject ===== *)
-Q . S2P
Prelude.v
KArray.v
Libc.v
Printf.v
Ram.v
Kheap.v
KheapSpec.v
DumbVm.v
DumbVmSpec.v
Bitmap.v
Queue.v
KernTests.v
Sched.v
SchedInv.v
Synch.v
CatLock.v
CatLockSpec.v
CatSem.v
PidManager.v
Lamebus.v
Console.v
Trap.v
Uio.v
Random.v
SortProg.v
Tty.v
LoadElf.v
LoadElfSpec.v
Device.v
Lhd.v
SfsDisk.v
Vnode.v
SfsIo.v
SfsFile.v
SfsTrunc.v
SfsDir.v
SfsVnode.v
ExecSfs.v
SfsFs.v
Mksfs.v
Vfs.v
Menu.v
VfsSpec.v
VfsDev.v
VfsRefs.v
VfsNames.v
RunProgram.v
Emu.v
EmuSpec.v
EmuVfs.v
EmuSystem.v
EmuRun.v
MenuVfs.v
