(* ===== verification/Prelude.v ===== *)
(** * The OS/161 kernel

    A model of the OS/161 teaching kernel, with its pid manager and its
    synchronisation exercises, of the parts of its C library that the kernel
    is built on, and of the program that makes its file systems.  Paths below
    are under src/src/.

    ** The program and its parts

    At the bottom are the data structures of kern/lib (resizable arrays,
    queues, bitmaps) and lib/libc (memory and string functions, formatted
    output).  Memory comes from ram.c, which hands out physical pages; the
    kernel heap (kheap.c) cuts pages into blocks, and dumbvm.c makes address
    spaces of them and answers page faults.  thread.c and scheduler.c switch
    between threads; synch.c builds semaphores, locks and condition variables
    on sleeping and waking; pid_manager.c keeps the processes, and
    syscall_delegation.c is the system calls on top of it.  uio.c and
    copyinout.c move data between the kernel and user memory.  The disk
    driver lhd.c offers the block device on which the simple file system (SFS,
    kern/fs/sfs) keeps its files.  The VFS layer (kern/fs/vfs) translates
    paths, keeps the table of devices and mounted file systems, and counts
    the references to vnodes; device.c makes vnodes of devices, and emu.c
    those of the files of the machine that runs the emulator.  console.c and
    lser.c print and read characters, kgets.c edits a line of them, and menu.c
    runs the commands of the line.  runprogram.c and loadelf.c start a user
    program from a file; trap.c, interrupt.c and syscall.c take its
    exceptions, interrupts and system calls, and lamebus.c finds the devices
    and passes their interrupts on.  sbin/mksfs makes an empty SFS.  In
    kern/asst1 cats and mice share two dishes, with a lock and condition
    variables (catlock.c) and with semaphores (catsem.c).  kern/test has tests
    of the containers, and testbin/sort is a user program that sorts random
    numbers.

    ** How the code is translated

    Pure functions are functions; functions that change state take the state
    and give it back; a function that can panic or stray gives [res], below.
    A machine integer is a Z with its wrap-around written out ([u8], [u16],
    [u32], [i32]).  Pointers are Z or indices, NULL is 0 or [None].  Answers
    of [kmalloc] are arguments of the model where a theorem is about every
    combination of answers.  Loops are structural recursion over the number of
    rounds or the list they walk, or have fuel; where there is fuel the
    theorems give the outcome [Ok], so the fuel is enough: the number of bytes
    or blocks plus one for loops over memory, the number of page references
    plus one for the lists of the heap, the number of pids for the search for
    a free one.  Threads are interleaved where the code can switch: a thread
    that is switched out keeps the point it continues from ([context] in
    Sched.v, [pc] in Synch.v, CatLock.v and CatSem.v, [user] in Console.v),
    and interrupts arrive as lists of handlers or, in Console.v, as events
    between the steps of the threads.  In CatLock.v and CatSem.v a schedule is the list
    of the threads that take the next step, and what runs under a lock is one
    step.

    ** The files

    - Prelude.v: outcomes of C code, machine integers, error codes, lists.
    - KArray.v (kern/lib/array.c), Queue.v (queue.c), Bitmap.v (bitmap.c):
      the operations, and that they refine a list, a FIFO and a set of bits
      with first-fit allocation.
    - KernTests.v (kern/test/arraytest.c, bitmaptest.c, queuetest.c): the
      tests of the three pass, whatever random() gives, unless a container
      gets no memory.
    - Libc.v (lib/libc: memcpy, memmove, bzero, string functions, atoi,
      strtok_r) and Printf.v (__printf.c, snprintf.c): overlapping copies are
      exact, strtok_r gives the words, snprintf writes what fits and no more,
      and atoi reads back what "%d" has printed.
    - Ram.v (ram.c, the page allocator of dumbvm.c and the class
      [PageAlloc]), Kheap.v (kheap.c) and KheapSpec.v: the heap over any page
      allocator that keeps the laws [PageLaws] refines an ideal allocator,
      and fails only when it has to.
    - DumbVm.v (dumbvm.c, TLB access) and DumbVmSpec.v: faults, copies, and
      that processes of two segments do not see each other's memory.
    - Sched.v (thread.c, scheduler.c) with the class [SchedEnv] for what
      the thread system calls, SchedInv.v: no thread is lost or duplicated,
      preallocation makes sleeping safe, waking is exact, yielding rotates
      the run queue.
    - Synch.v (synch.c): mutual exclusion, counting, and no lost wakeups over
      every interleaving of clients.
    - CatLock.v (catlock.c) and CatLockSpec.v: under every schedule cats and
      mice are kept apart, and under every fair one all of them eat; CatSem.v
      (catsem.c): dishes are not shared, and its races.
    - PidManager.v (pid_manager.c, syscall_delegation.c): consistency of the
      table, outcomes of adding a process, and that a parent gets the status,
      for processes other than pid 1, whose blocks are freed with dangling
      pointers left behind.
    - Uio.v (uio.c, copyinout.c): exact transfers, and faults as errors.
    - Lamebus.v (lamebus.c, lamebus_mips.c, the _att.c files): each driver
      gets a device of its own; an interrupt calls exactly the handlers of the
      slots that signal, and counts those without a handler.
    - Console.v (console.c, lser.c, con_lser.c) over the class [SerialHw]:
      under every interleaving of threads and interrupts characters are
      printed once and in order, and slow typing is read in order.  Tty.v
      (kgets.c and the console device) over the class [Terminal]: the line
      that is typed, and what is seen of it; the driver of Console.v keeps the
      laws of this class.
    - Random.v (random.c, pseudorand.c): generators in their state arrays are
      independent, and the random device gives the bytes of its generator.
      SortProg.v (testbin/sort/sort.c): the program sorts, and passes.
    - Trap.v (trap.c, interrupt.c, syscall.c): page faults that are resolved
      or caught by copyin, those that panic, system calls, and the way into
      user mode.
    - LoadElf.v (loadelf.c) over the class [ExecFile], and LoadElfSpec.v: an
      executable is in memory exactly, and which files are refused with which
      error.  ExecSfs.v: files of SFS are such
      executables.  RunProgram.v (runprogram.c): starting a program through
      the VFS, over any world with the class [VopRead].
    - Device.v (dev.h, the class of block devices), Lhd.v (lhd.c): the driver
      gives the promises of [ReliableDev] over hardware that keeps
      [DiskLaws].
    - SfsDisk.v (kern/sfs.h): on-disk structures and their round trips.
      SfsIo.v (sfs_io.c and block mapping and I/O of sfs_vnode.c),
      SfsFile.v: reads and writes of files at any offset, isolation of files.
      SfsTrunc.v: truncation, which keeps what is before the new end and frees
      exactly what the file gives up.  SfsDir.v: directories are finite maps.
      SfsVnode.v: one vnode per inode, reclaiming, and the operations of the
      two function tables.  SfsFs.v (sfs_fs.c): mount, sync and unmount.
      Mksfs.v (sbin/mksfs): what mksfs writes mounts, and is empty.
    - Vnode.v (vnode.c): counts and the dispatch class [VnodeOps].  Vfs.v
      (vfslist.c, vfslookup.c, vfspath.c, vfscwd.c) over the dispatch class
      [VfsOps]; VfsSpec.v: the laws [VfsLaws] of file systems and drivers
      and what each operation does to the references; VfsDev.v (device.c,
      devnull.c): device vnodes, which keep the laws; VfsRefs.v: over every
      sequence of calls the counts are exactly the references there are, and
      those that failed vfs_adddev calls have lost; VfsNames.v: the syntax of paths,
      and finding devices.
    - Emu.v (emu.c) over the class [EmuHw]; EmuSpec.v: the laws [EmuLaws] of
      the device, whose operations may fail, the class [EmuReads] of devices
      whose reads of regular files do not, and what each operation does to the
      table of vnodes and the open handles; EmuVfs.v: devices and this file system together keep
      [VfsLaws]; EmuSystem.v: from boot on no vnode and no handle leaks;
      EmuRun.v: written bytes are read back, or the error is the one the
      device reports; the class [VopRead] holds with [EmuReads]; and a
      concrete device is booted, used, and a program run from it.
    - Menu.v (menu.c) over the class [MenuEnv]: the commands of a line and
      their words.  MenuVfs.v: this class over the VFS and shutdown() of
      main.c, with the threads that are started for programs; whatever is
      typed, and whenever these threads run and exit, references balance.

    ** What is assumed

    Hardware (the disk behind its registers, the TLB) and what is behind a
    dispatch table are classes with their laws, and an instance shows that
    the laws can hold.  Of the emulator device it is assumed that closing a
    handle does not fail more than ten times in a row; otherwise emu_close()
    gives up and the vnode stays with one reference.  Each file says which
    state a theorem quantifies over.
    Theorems named for a defect show a behaviour that the code's comments
    exclude.

    ** What is not modelled

    Context switches at the level of registers, exception entry and other
    assembly; the drivers of the clock, the screen and the other devices,
    which are register accesses; the boot sequence, which calls the functions
    of the parts in order; what kprintf() prints for the user of the menu; the
    test workloads whose outcome depends on the schedule, and the other user
    programs, which need system calls that the source does not dispatch; lock
    contention inside the VFS and the emulator file system, which are modelled
    for one thread.  sys_fork is not dispatched by the source. *)
From stdpp Require Import base numbers list option gmap.

(** ** Outcomes of C code

    A C function that runs to completion gives [Ok]; one that reaches
    [panic()] or a failed [assert()] gives [Panic]; one that dereferences a
    null, dangling or out-of-range pointer gives [Undef]; [Fuel] is the
    outcome of a loop whose iteration bound was too small, or of a wait that
    nothing ends, and the theorems show that it does not occur. *)

Inductive res (A : Type) : Type :=
| Ok (a : A)
| Panic
| Undef
| Fuel.
Arguments Ok {A} a.
Arguments Panic {A}.
Arguments Undef {A}.
Arguments Fuel {A}.

Global Instance res_ret : MRet res := fun A a => Ok a.
Global Instance res_bind : MBind res := fun A B f m =>
  match m with
  | Ok a => f a
  | Panic => Panic
  | Undef => Undef
  | Fuel => Fuel
  end.

(** [assert(x)] of kern/include/lib.h. *)
Definition assert (b : bool) : res unit := if b then Ok tt else Panic.

(** The execution neither touched invalid memory nor ran out of fuel. *)
Definition safe {A} (r : res A) : Prop :=
  match r with Undef | Fuel => False | _ => True end.

Definition ok_with {A} (r : res A) (P : A -> Prop) : Prop :=
  exists a, r = Ok a /\ P a.

Lemma bind_Ok {A B} (a : A) (f : A -> res B) : (Ok a ≫= f) = f a.
Proof. reflexivity. Qed.

Lemma bind_Ok_inv {A B} (m : res A) (f : A -> res B) b :
  (m ≫= f) = Ok b -> exists a, m = Ok a /\ f a = Ok b.
Proof. destruct m; simpl; try discriminate. eauto. Qed.

Lemma assert_Ok_inv b u : assert b = Ok u -> b = true.
Proof. destruct b; [done | discriminate]. Qed.

Lemma assert_true b : b = true -> assert b = Ok tt.
Proof. by intros ->. Qed.

(** ** Machine integers: MIPS is ILP32 *)

Local Open Scope Z_scope.

Definition u8 (z : Z) : Z := z `mod` 256.
Definition u16 (z : Z) : Z := z `mod` 65536.
Definition u32 (z : Z) : Z := z `mod` 4294967296.
Definition i32 (z : Z) : Z := (z + 2147483648) `mod` 4294967296 - 2147483648.

Lemma u8_small z : 0 <= z < 256 -> u8 z = z.
Proof. apply Z.mod_small. Qed.
Lemma u16_small z : 0 <= z < 65536 -> u16 z = z.
Proof. apply Z.mod_small. Qed.
Lemma u32_small z : 0 <= z < 4294967296 -> u32 z = z.
Proof. apply Z.mod_small. Qed.
Lemma i32_small z : -2147483648 <= z < 2147483648 -> i32 z = z.
Proof. intros. unfold i32. rewrite Z.mod_small; lia. Qed.
Lemma u32_range z : 0 <= u32 z < 4294967296.
Proof. apply Z.mod_pos_bound. lia. Qed.
Lemma u8_range z : 0 <= u8 z < 256.
Proof. apply Z.mod_pos_bound. lia. Qed.
Lemma u16_range z : 0 <= u16 z < 65536.
Proof. apply Z.mod_pos_bound. lia. Qed.
Lemma i32_range z : -2147483648 <= i32 z < 2147483648.
Proof.
  unfold i32. pose proof (Z.mod_pos_bound (z + 2147483648) 4294967296). lia.
Qed.

(** Removes the wrap-around of every machine operation whose operand is
    provably in range. *)
Ltac nowrap :=
  repeat match goal with
  | |- context [u32 ?z] => rewrite (u32_small z) by lia
  | |- context [i32 ?z] => rewrite (i32_small z) by lia
  | |- context [u16 ?z] => rewrite (u16_small z) by lia
  | |- context [u8 ?z] => rewrite (u8_small z) by lia
  end.

(** ** Error codes of kern/include/kern/errno.h *)

Definition EINVAL : Z := 1.
Definition EFAULT : Z := 2.
Definition ENAMETOOLONG : Z := 3.
Definition ENOMEM : Z := 4.
Definition EIO : Z := 5.
Definition ENOENT : Z := 6.
Definition ENOTDIR : Z := 7.
Definition EISDIR : Z := 8.
Definition EEXIST : Z := 9.
Definition EXDEV : Z := 10.
Definition EAGAIN : Z := 11.
Definition ESPIPE : Z := 12.
Definition EUNIMP : Z := 13.
Definition ENXIO : Z := 14.
Definition ENODEV : Z := 15.
Definition EBUSY : Z := 16.
Definition EIOCTL : Z := 17.
Definition ENOTEMPTY : Z := 18.
Definition ERANGE : Z := 19.
Definition ENOSPC : Z := 20.
Definition ENFILE : Z := 22.
Definition ENOSYS : Z := 23.
Definition ENOEXEC : Z := 24.

(** ** C arrays held as lists, indexed by machine integers *)

Section cells.
Context {A : Type}.
Implicit Types (l : list A) (i : Z) (x : A).

Definition load l i : res A :=
  if i <? 0 then Undef
  else match l !! Z.to_nat i with Some x => Ok x | None => Undef end.

Definition store l i x : res (list A) :=
  if (0 <=? i) && (i <? Z.of_nat (length l)) then Ok (<[Z.to_nat i := x]> l)
  else Undef.

Lemma load_Ok l i x : 0 <= i -> l !! Z.to_nat i = Some x -> load l i = Ok x.
Proof. intros Hi H. unfold load. rewrite H. by destruct (Z.ltb_spec i 0); [lia|]. Qed.

Lemma load_Ok_inv l i x :
  load l i = Ok x -> 0 <= i < Z.of_nat (length l) /\ l !! Z.to_nat i = Some x.
Proof.
  unfold load. destruct (Z.ltb_spec i 0); [discriminate|].
  destruct (l !! Z.to_nat i) eqn:E; [|discriminate]. intros [= ->].
  apply lookup_lt_Some in E as ?. split; [lia | done].
Qed.

Lemma load_in_range l i :
  0 <= i < Z.of_nat (length l) -> exists x, load l i = Ok x /\ l !! Z.to_nat i = Some x.
Proof.
  intros [? ?]. destruct (lookup_lt_is_Some_2 l (Z.to_nat i)) as [x Hx]; [lia|].
  exists x. split; [by apply load_Ok | done].
Qed.

Lemma load_out l i : ~ (0 <= i < Z.of_nat (length l)) -> load l i = Undef.
Proof.
  intros H. unfold load. destruct (Z.ltb_spec i 0); [done|].
  by rewrite lookup_ge_None_2 by lia.
Qed.

Lemma store_in_range l i x :
  0 <= i < Z.of_nat (length l) -> store l i x = Ok (<[Z.to_nat i := x]> l).
Proof.
  intros ?. unfold store.
  by destruct (Z.leb_spec 0 i), (Z.ltb_spec i (Z.of_nat (length l))); try lia.
Qed.

Lemma store_Ok_inv l i x l' :
  store l i x = Ok l' ->
  0 <= i < Z.of_nat (length l) /\ l' = <[Z.to_nat i := x]> l.
Proof.
  unfold store. destruct (Z.leb_spec 0 i), (Z.ltb_spec i (Z.of_nat (length l)));
    simpl; try discriminate. intros [= <-]. split; [lia | done].
Qed.

Lemma load_insert l i j x : 0 <= i < Z.of_nat (length l) ->
  load (<[Z.to_nat i := x]> l) j = if j =? i then Ok x else load l j.
Proof.
  intros Hi. destruct (Z.eqb_spec j i) as [->|Hne].
  { apply load_Ok; [lia|]. apply list_lookup_insert_eq. lia. }
  unfold load. destruct (Z.ltb_spec j 0); [done|]. by rewrite list_lookup_insert_ne by lia.
Qed.

(** [memmove] of [n] cells inside one buffer. *)
Definition move_cells l (dst src n : Z) : res (list A) :=
  if (0 <=? dst) && (0 <=? src) && (0 <=? n)
     && (dst + n <=? Z.of_nat (length l)) && (src + n <=? Z.of_nat (length l))
  then Ok (take (Z.to_nat dst) l
             ++ take (Z.to_nat n) (drop (Z.to_nat src) l)
             ++ drop (Z.to_nat (dst + n)) l)
  else Undef.
End cells.

(** Bytes [k ..] of [buf] are replaced by [l]. *)
Definition splice (buf : list Z) (k : nat) (l : list Z) : list Z :=
  take k buf ++ l ++ drop (k + length l) buf.

Lemma splice_nil (f : list Z) k : splice f k [] = f.
Proof. unfold splice. simpl. rewrite Nat.add_0_r. apply take_drop. Qed.

Lemma length_splice (f d : list Z) k : (k + length d <= length f)%nat -> length (splice f k d) = length f.
Proof. intros H. unfold splice. rewrite !length_app, length_take, length_drop. lia. Qed.

(** Cell by cell. *)
Lemma lookup_splice (f d : list Z) k i : (k + length d <= length f)%nat ->
  splice f k d !! i = if decide (k <= i < k + length d)%nat then d !! (i - k)%nat else f !! i.
Proof.
  intros H. unfold splice. assert (length (take k f) = k) as Hk by (rewrite length_take; lia).
  case_decide as Hi.
  - rewrite lookup_app_r, Hk, lookup_app_l by lia. done.
  - destruct (decide (i < k)%nat) as [Hlt|Hge].
    + by rewrite lookup_app_l, lookup_take_lt by lia.
    + rewrite lookup_app_r, Hk, lookup_app_r, lookup_drop by lia. f_equal. lia.
Qed.

Lemma splice_splice (f d1 d2 : list Z) k :
  (k <= length f)%nat ->
  splice (splice f k d1) (k + length d1) d2 = splice f k (d1 ++ d2).
Proof.
  intros Hk. unfold splice. set (c := drop (k + length d1) f).
  assert (length (take k f ++ d1) = (k + length d1)%nat) as Hl by (rewrite length_app, length_take; lia).
  rewrite (app_assoc (take k f) d1 c), <- Hl, take_app_length, drop_app_add. unfold c.
  rewrite drop_drop, length_app, <- !app_assoc. do 4 f_equal. lia.
Qed.

Lemma splice_read (f d : list Z) k :
  (k <= length f)%nat -> take (length d) (drop k (splice f k d)) = d.
Proof.
  intros Hk. unfold splice. rewrite drop_app_length' by (rewrite length_take; lia).
  by rewrite take_app_length.
Qed.

(** The string at the start of a buffer: the characters before the first 0. *)
Fixpoint cstring (l : list Z) : list Z :=
  match l with
  | [] => []
  | c :: l => if c =? 0 then [] else c :: cstring l
  end.

(** ** Automation *)

(** [lia] with the quotients and remainders of the goal and context. *)
Ltac dlia := solve [Z.to_euclidean_division_equations; lia].

(** Case analysis on the boolean comparisons of the goal and hypotheses. *)
Ltac zbool :=
  repeat match goal with
  | |- context [?a <? ?b] => destruct (Z.ltb_spec a b)
  | |- context [?a <=? ?b] => destruct (Z.leb_spec a b)
  | |- context [?a =? ?b] => destruct (Z.eqb_spec a b)
  | |- context [?a >? ?b] => rewrite (Z.gtb_ltb a b)
  | |- context [?a >=? ?b] => rewrite (Z.geb_leb a b)
  end; simpl; try lia; try done.

(** Passes the first [assert] of a computation, proving its condition. *)
Ltac pass_assert :=
  match goal with
  | |- context [assert ?b ≫= ?f] =>
      rewrite (assert_true b) by (zbool; done); rewrite bind_Ok
  end.

(** Decomposes a successful monadic computation into its successful steps. *)
Ltac inv_ok :=
  repeat match goal with
  | H : Ok _ = Ok _ |- _ => injection H as H; subst
  | H : Panic = Ok _ |- _ => discriminate H
  | H : Undef = Ok _ |- _ => discriminate H
  | H : Fuel = Ok _ |- _ => discriminate H
  | H : (_ ≫= _) = Ok _ |- _ =>
      let a := fresh "r" in let E := fresh "E" in
      apply bind_Ok_inv in H as (a & E & H); simpl in H
  | H : assert _ = Ok _ |- _ => apply assert_Ok_inv in H
  | H : mret _ = Ok _ |- _ => injection H as H; subst
  | H : (_, _) = (_, _) |- _ => injection H as ? ?; subst
  | p : (_ * _)%type |- _ => destruct p; simpl in *
  end.

(** ** Sums over a list *)

Section tsum.
Context {A : Type}.
Implicit Types (f : A -> Z) (l : list A).

Definition tsum (f : A -> Z) (l : list A) : Z := foldr (fun th n => f th + n) 0 l.

Lemma tsum_app f l1 l2 : tsum f (l1 ++ l2) = tsum f l1 + tsum f l2.
Proof. induction l1 as [|th l1 IH]; [done|]. unfold tsum in *. cbn [foldr app]. rewrite IH. lia. Qed.

Lemma tsum_alter f g l : forall i th, l !! i = Some th -> tsum f (alter g i l) = tsum f l - f th + f (g th).
Proof.
  induction l as [|th' l IH]; intros i th Hi; [done|]. unfold tsum in *. destruct i as [|i]; cbn in *; [injection Hi as ->; lia|]. rewrite (IH i th Hi). lia.
Qed.

Lemma tsum_insert f l i th th' : l !! i = Some th -> tsum f (<[i := th']> l) = tsum f l - f th + f th'.
Proof.
  revert i. induction l as [|x l IH]; intros i Hi; [done|]. destruct i as [|i].
  - injection Hi as ->. cbn. lia.
  - change (f x + tsum f (<[i := th']> l) = f x + tsum f l - f th + f th'). rewrite (IH i Hi). lia.
Qed.

Lemma tsum_map f g l : (forall th, th ∈ l -> f (g th) = f th) -> tsum f (g <$> l) = tsum f l.
Proof.
  intros H. induction l as [|th l IH]; [done|]. unfold tsum in *. cbn [foldr fmap list_fmap]. rewrite H by left. f_equal. apply IH. intros th' Hin. apply H. by right.
Qed.

Lemma tsum_map_le f g l c : (forall th, f (g th) <= f th + c) -> tsum f (g <$> l) <= tsum f l + c * Z.of_nat (length l).
Proof. intros H. induction l as [|th l IH]; [cbn; lia|]. unfold tsum in *. cbn [foldr fmap list_fmap length]. specialize (H th). lia. Qed.

Lemma tsum_mono f f' l : (forall th, th ∈ l -> f th <= f' th) -> tsum f l <= tsum f' l.
Proof.
  intros H. induction l as [|th l IH]; [done|]. unfold tsum in *. cbn [foldr]. pose proof (H th ltac:(left)).
  assert (forall th', th' ∈ l -> f th' <= f' th') as H' by (intros; apply H; by right). specialize (IH H'). lia.
Qed.

Lemma tsum_zero f l : (forall th, th ∈ l -> f th = 0) -> tsum f l = 0.
Proof.
  intros H. induction l as [|th l IH]; [done|]. unfold tsum in *. cbn [foldr]. rewrite H, IH by (left || (intros; apply H; by right)). done.
Qed.

Lemma tsum_nonneg f l : (forall th, 0 <= f th) -> 0 <= tsum f l.
Proof. intros H. induction l as [|th l IH]; [done|]. unfold tsum in *. cbn [foldr]. specialize (H th). lia. Qed.

Lemma tsum_elem f l th : (forall th, 0 <= f th) -> th ∈ l -> f th <= tsum f l.
Proof.
  intros H Hin. induction Hin as [th l|th th' l Hin IH]; unfold tsum in *; cbn [foldr].
  - pose proof (tsum_nonneg f l H). unfold tsum in *. lia.
  - specialize (H th'). lia.
Qed.

Lemma tsum_plus f f' l : tsum (fun th => f th + f' th) l = tsum f l + tsum f' l.
Proof. induction l as [|th l IH]; [done|]. unfold tsum in *. cbn [foldr]. lia. Qed.

Lemma tsum_pos f l : (forall th, 0 <= f th) -> 0 < tsum f l -> exists t th, l !! t = Some th /\ 0 < f th.
Proof.
  intros H Hp. induction l as [|th l IH]; [done|]. unfold tsum in *. cbn [foldr] in Hp. destruct (Z.lt_decidable 0 (f th)) as [Hth|Hth].
  - by exists 0%nat, th.
  - destruct IH as (t & th' & Ht & ?); [specialize (H th); lia|]. by exists (S t), th'.
Qed.

(** A sum of at most one per element that reaches the length of the list. *)
Lemma tsum_full f l : (forall th, f th <= 1) -> Z.of_nat (length l) <= tsum f l -> forall th, th ∈ l -> f th = 1.
Proof.
  intros H. induction l as [|th l IH]; intros Hs th' Hin; [by apply not_elem_of_nil in Hin|]. unfold tsum in *. cbn [foldr length] in Hs.
  assert (tsum f l <= Z.of_nat (length l)) as Hle.
  { clear -H. induction l as [|th l IH]; [done|]. unfold tsum in *. cbn [foldr length]. specialize (H th). lia. }
  unfold tsum in Hle. pose proof (H th). apply elem_of_cons in Hin as [->|Hin]; [lia|]. apply IH; [lia|done].
Qed.

Lemma tsum_two f l i j x y : (forall th, 0 <= f th) -> i <> j -> l !! i = Some x -> l !! j = Some y -> f x + f y <= tsum f l.
Proof.
  intros Hf. revert i j. induction l as [|th l IH]; intros i j Hne Hx Hy; [done|]. pose proof (Hf th). unfold tsum in *. cbn [foldr].
  destruct i as [|i], j as [|j]; cbn in *; try done.
  - injection Hx as ->. pose proof (tsum_elem f l y Hf ltac:(by eapply list_elem_of_lookup_2)). unfold tsum in *. lia.
  - injection Hy as ->. pose proof (tsum_elem f l x Hf ltac:(by eapply list_elem_of_lookup_2)). unfold tsum in *. lia.
  - specialize (IH i j ltac:(congruence) Hx Hy). lia.
Qed.
End tsum.

Create HintDb kern.
#[export] Hint Resolve load_Ok assert_true : kern.
Create Rewrite HintDb kern_rw.
#[export] Hint Rewrite @bind_Ok : kern_rw.
