(* ===== verification/KArray.v ===== *)
(** * kern/lib/array.c: resizable arrays of pointers

    [array] is the C structure: [arr_num] cells in use out of [arr_max], and
    the buffer [arr_v] ([None] is NULL).  A cell is [None] until something is
    stored in it.  The boolean [ok] of the operations that call [kmalloc] is
    its answer.  The abstract view of an array is the list of its cells. *)
From stdpp Require Import base numbers list option.
From S2P Require Import Prelude.
Local Open Scope Z_scope.

Section array.
Context {A : Type}.

Record array : Type := mk_array {
  arr_num : Z;
  arr_max : Z;
  arr_v : option (list (option A));
}.

Definition array_create (ok : bool) : option array :=
  if ok then Some (mk_array 0 0 None) else None.

Definition array_getnum (a : array) : Z := arr_num a.

(** Dereference of the buffer pointer. *)
Definition arr_buf (a : array) : res (list (option A)) :=
  match arr_v a with Some b => Ok b | None => Undef end.

Definition array_getguy (a : array) (index : Z) : res (option A) :=
  _ ← assert (arr_num a <=? arr_max a);
  _ ← assert ((index >=? 0) && (index <? arr_num a));
  v ← arr_buf a;
  load v index.

(** [while (nguys > newmax) newmax = (newmax+1)*2;] *)
Fixpoint grow_max (fuel : nat) (nguys newmax : Z) : res Z :=
  match fuel with
  | O => Fuel
  | S fuel =>
      if nguys >? newmax then grow_max fuel nguys (i32 ((newmax + 1) * 2))
      else Ok newmax
  end.

(** [for (i=0; i<a->num; i++) newv[i] = a->v[i];] *)
Fixpoint copy_cells (n : nat) (i : Z) (newv oldv : list (option A))
    : res (list (option A)) :=
  match n with
  | O => Ok newv
  | S n =>
      x ← load oldv i;
      newv ← store newv i x;
      copy_cells n (i + 1) newv oldv
  end.

Definition array_preallocate (ok : bool) (a : array) (nguys : Z) : res (Z * array) :=
  _ ← assert ((arr_num a >=? 0) && (arr_num a <=? arr_max a));
  newmax ← grow_max 40 nguys (arr_max a);
  if negb ok then Ok (ENOMEM, a)
  else
    (* kmalloc(newmax * sizeof(void * )) *)
    let newv := replicate (Z.to_nat (u32 (newmax * 4) / 4)) None in
    newv ← (if 0 <? arr_num a
            then (oldv ← arr_buf a; copy_cells (Z.to_nat (arr_num a)) 0 newv oldv)
            else Ok newv);
    Ok (0, mk_array (arr_num a) newmax (Some newv)).

Definition array_setsize (ok : bool) (a : array) (nguys : Z) : res (Z * array) :=
  _ ← assert ((arr_num a >=? 0) && (arr_num a <=? arr_max a));
  if nguys >? arr_max a then
    '(result, a) ← array_preallocate ok a nguys;
    if result =? 0 then Ok (0, mk_array nguys (arr_max a) (arr_v a))
    else Ok (result, a)
  else if (nguys =? 0) && (arr_max a >? 16) then
    _ ← assert (bool_decide (is_Some (arr_v a)));
    Ok (0, mk_array nguys 0 None)
  else Ok (0, mk_array nguys (arr_max a) (arr_v a)).

Definition array_setguy (a : array) (index : Z) (ptr : A) : res array :=
  _ ← assert (arr_num a <=? arr_max a);
  _ ← assert ((index >=? 0) && (index <? arr_num a));
  v ← arr_buf a;
  v ← store v index (Some ptr);
  Ok (mk_array (arr_num a) (arr_max a) (Some v)).

Definition array_add (ok : bool) (a : array) (guy : A) : res (Z * array) :=
  let ix := arr_num a in
  '(result, a) ← array_setsize ok a (i32 (ix + 1));
  if result =? 0 then
    v ← arr_buf a;
    v ← store v ix (Some guy);
    Ok (0, mk_array (arr_num a) (arr_max a) (Some v))
  else Ok (result, a).

Definition array_remove (a : array) (index : Z) : res array :=
  _ ← assert (arr_num a <=? arr_max a);
  _ ← assert ((index >=? 0) && (index <? arr_num a));
  let nmove := arr_num a - (index + 1) in
  v ← arr_buf a;
  v ← move_cells v index (index + 1) nmove;
  Ok (mk_array (arr_num a - 1) (arr_max a) (Some v)).

(** ** Invariant and abstract view *)

Definition arr_cells (a : array) : list (option A) := default [] (arr_v a).

(** Largest capacity whose byte size fits a [size_t] and whose growth step
    fits an [int]. *)
Definition arr_limit : Z := 536870911.

Definition arr_wf (a : array) : Prop :=
  0 <= arr_num a <= arr_max a /\ arr_max a < 1073741824 /\
  Z.of_nat (length (arr_cells a)) = arr_max a.

Definition arr_list (a : array) : list (option A) :=
  take (Z.to_nat (arr_num a)) (arr_cells a).
End array.
Arguments array A : clear implicits.

Section facts.
Context {A : Type}.
Implicit Types (a : array A).

Lemma arr_list_length a : arr_wf a -> Z.of_nat (length (arr_list a)) = arr_num a.
Proof. intros (?&?&?). unfold arr_list. rewrite length_take. lia. Qed.

Lemma arr_buf_pos a : arr_wf a -> 0 < arr_max a -> arr_buf a = Ok (arr_cells a).
Proof.
  intros (_&_&Hl) Hpos. unfold arr_buf, arr_cells in *.
  destruct (arr_v a); [done | simpl in Hl; lia].
Qed.

Lemma grow_max_spec fuel nguys newmax :
  0 <= newmax -> nguys <= arr_limit -> newmax < 1073741824 ->
  2 ^ 30 <= 2 ^ Z.of_nat fuel * (newmax + 1) ->
  exists m, grow_max (S fuel) nguys newmax = Ok m /\
    newmax <= m < 1073741824 /\ nguys <= m /\ (nguys <= newmax -> m = newmax).
Proof.
  unfold arr_limit.
  revert newmax; induction fuel as [|fuel IH]; intros newmax Hn Hg Hb Hf.
  - simpl in *. zbool. exists newmax. repeat split; lia.
  - remember (S fuel) as f eqn:Ef. cbn [grow_max]. subst f.
    rewrite Z.gtb_ltb. destruct (Z.ltb_spec newmax nguys).
    + rewrite i32_small by lia.
      destruct (IH ((newmax + 1) * 2)) as (m & -> & ?); [lia..| |].
      { rewrite Nat2Z.inj_succ, Z.pow_succ_r in Hf by lia. nia. }
      exists m. repeat split; lia.
    + exists newmax. repeat split; lia.
Qed.

Lemma copy_cells_spec n k (newv oldv : list (option A)) :
  (k + n <= length oldv)%nat -> (k + n <= length newv)%nat ->
  copy_cells n (Z.of_nat k) newv oldv =
    Ok (take k newv ++ take n (drop k oldv) ++ drop (k + n) newv).
Proof.
  revert k newv; induction n as [|n IH]; intros k newv Ho Hn; cbn [copy_cells].
  - rewrite Nat.add_0_r, take_0. simpl. by rewrite take_drop.
  - destruct (load_in_range oldv (Z.of_nat k)) as (x & -> & Hx); [lia|].
    rewrite Nat2Z.id in Hx. rewrite bind_Ok, store_in_range, bind_Ok by lia.
    replace (Z.of_nat k + 1) with (Z.of_nat (S k)) by lia.
    rewrite IH by (rewrite ?length_insert; lia). rewrite Nat2Z.id.
    rewrite (drop_S oldv x k) by done. cbn [take]. simpl.
    rewrite (take_S_r _ _ x) by (apply list_lookup_insert_eq; lia).
    rewrite take_insert_ge, drop_insert_lt by lia. rewrite <- app_assoc. simpl.
    by rewrite Nat.add_succ_r.
Qed.

Lemma array_preallocate_spec ok a nguys :
  arr_wf a -> nguys <= arr_limit ->
  (ok = false /\ array_preallocate ok a nguys = Ok (ENOMEM, a)) \/
  (exists a', array_preallocate ok a nguys = Ok (0, a') /\ arr_wf a' /\
     arr_list a' = arr_list a /\ arr_num a' = arr_num a /\
     arr_max a <= arr_max a' /\ nguys <= arr_max a').
Proof.
  intros Hwf Hg. pose proof Hwf as (Hnum & Hmax & Hlen).
  unfold array_preallocate. pass_assert.
  destruct (grow_max_spec 39 nguys (arr_max a)) as (m & -> & Hm & Hgm & _);
    [lia..| nia |].
  rewrite bind_Ok. destruct ok; [|by left]. right. simpl negb. cbn iota.
  rewrite u32_small by lia. rewrite Z.div_mul by lia.
  set (newv := replicate (Z.to_nat m) None).
  assert (Hnv : length newv = Z.to_nat m) by apply length_replicate.
  destruct (Z.ltb_spec 0 (arr_num a)).
  - rewrite arr_buf_pos by (done || lia). rewrite bind_Ok.
    pose proof (copy_cells_spec (Z.to_nat (arr_num a)) 0 newv (arr_cells a)) as Hc.
    change (Z.of_nat 0) with 0 in Hc. rewrite Hc by lia.
    clear Hc. rewrite drop_0, take_0, bind_Ok, app_nil_l.
    eexists; split; [reflexivity|].
    unfold arr_wf, arr_list, arr_cells; simpl. repeat split; try lia.
    + rewrite length_app, length_take, length_drop. fold (arr_cells a). lia.
    + fold (arr_cells a). rewrite take_app_le, take_take by (rewrite length_take; lia).
      f_equal. lia.
  - eexists; split; [reflexivity|].
    unfold arr_wf, arr_list, arr_cells; simpl. rewrite Hnv. repeat split; try lia.
    replace (arr_num a) with 0 by lia. by rewrite !take_0.
Qed.

Lemma array_setsize_within ok a n :
  arr_wf a -> 0 <= n <= arr_max a -> (n = 0 -> arr_max a <= 16) ->
  array_setsize ok a n = Ok (0, mk_array n (arr_max a) (arr_v a)).
Proof.
  intros (?&?&?) ? ?. unfold array_setsize. pass_assert. rewrite Z.gtb_ltb. destruct (Z.ltb_spec (arr_max a) n); [lia|].
  rewrite Z.gtb_ltb. zbool.
Qed.

(** Shrinking a large array to zero gives its buffer back: the capacity
    reserved by [array_preallocate] does not survive. *)
Lemma array_setsize_zero_large ok a :
  arr_wf a -> 16 < arr_max a ->
  array_setsize ok a 0 = Ok (0, mk_array 0 0 None).
Proof.
  intros Hwf ?. pose proof Hwf as (?&?&Hl). unfold array_setsize.
  pass_assert. rewrite Z.gtb_ltb.
  destruct (Z.ltb_spec (arr_max a) 0); [lia|]. rewrite Z.gtb_ltb.
  destruct (Z.ltb_spec 16 (arr_max a)); [|lia]. simpl.
  unfold arr_cells in Hl. destruct (arr_v a); [|simpl in Hl; lia].
  rewrite bool_decide_true by (by eexists). reflexivity.
Qed.

Lemma arr_wf_resize a n :
  arr_wf a -> 0 <= n <= arr_max a -> arr_wf (mk_array n (arr_max a) (arr_v a)).
Proof. unfold arr_wf, arr_cells; simpl. intuition lia. Qed.

(** An array with a spare cell never needs memory to grow by one. *)
Lemma array_add_room ok a x :
  arr_wf a -> arr_num a < arr_max a ->
  exists a', array_add ok a x = Ok (0, a') /\ arr_wf a' /\
    arr_list a' = arr_list a ++ [Some x] /\
    arr_num a' = arr_num a + 1 /\ arr_max a' = arr_max a.
Proof.
  intros Hwf Hroom. pose proof Hwf as (Hn&Hm&Hl). unfold array_add.
  rewrite i32_small by lia. rewrite array_setsize_within by (done || lia).
  rewrite bind_Ok. simpl. unfold arr_buf; simpl. unfold arr_cells in Hl.
  destruct (arr_v a) as [b|] eqn:Ev; simpl in Hl; [|lia]. rewrite bind_Ok.
  rewrite store_in_range by lia. rewrite bind_Ok. eexists; split; [reflexivity|].
  unfold arr_wf, arr_list, arr_cells; rewrite Ev; simpl.
  rewrite length_insert. repeat split; try lia.
  replace (Z.to_nat (arr_num a + 1)) with (S (Z.to_nat (arr_num a))) by lia.
  rewrite (take_S_r _ _ (Some x)) by (apply list_lookup_insert_eq; lia).
  by rewrite take_insert_ge by lia.
Qed.

Lemma array_add_spec ok a x :
  arr_wf a -> arr_num a < arr_limit ->
  (ok = false /\ arr_num a = arr_max a /\ array_add ok a x = Ok (ENOMEM, a)) \/
  (exists a', array_add ok a x = Ok (0, a') /\ arr_wf a' /\
     arr_list a' = arr_list a ++ [Some x] /\ arr_num a' = arr_num a + 1).
Proof.
  intros Hwf Hlim. pose proof Hwf as (Hn&Hm&Hl).
  destruct (decide (arr_num a < arr_max a)) as [Hroom|Hfull].
  { right. destruct (array_add_room ok a x) as (a' & ? & ? & ? & ? & ?); eauto 8. }
  unfold arr_limit in *. unfold array_add. rewrite i32_small by lia.
  unfold array_setsize. pass_assert. rewrite Z.gtb_ltb.
  destruct (Z.ltb_spec (arr_max a) (arr_num a + 1)); [|lia].
  destruct (array_preallocate_spec ok a (arr_num a + 1))
    as [[-> ->]|(a' & -> & Hwf' & Hlist & Hnum & _ & Hcap)];
    [done | unfold arr_limit; lia | left; split; [done|]; split; [lia|done] |].
  right. rewrite bind_Ok. simpl.
  pose proof Hwf' as (?&?&Hl'). unfold arr_buf; simpl. unfold arr_cells in Hl'.
  destruct (arr_v a') as [b|] eqn:Ev; simpl in Hl'; [|lia]. rewrite bind_Ok.
  rewrite store_in_range by lia. rewrite bind_Ok. eexists; split; [reflexivity|].
  rewrite <- Hlist. unfold arr_wf, arr_list, arr_cells; rewrite Ev; simpl.
  rewrite length_insert. repeat split; try lia.
  replace (Z.to_nat (arr_num a + 1)) with (S (Z.to_nat (arr_num a))) by lia.
  rewrite (take_S_r _ _ (Some x)) by (apply list_lookup_insert_eq; lia).
  rewrite take_insert_ge by lia. by rewrite Hnum.
Qed.

Lemma array_getguy_spec a i :
  arr_wf a -> 0 <= i < arr_num a ->
  exists x, array_getguy a i = Ok x /\ arr_list a !! Z.to_nat i = Some x.
Proof.
  intros Hwf Hi. pose proof Hwf as (?&?&?). unfold array_getguy.
  do 2 pass_assert.
  rewrite arr_buf_pos by (done || lia). rewrite bind_Ok.
  destruct (load_in_range (arr_cells a) i) as (x & -> & Hx); [lia|].
  exists x. split; [done|]. unfold arr_list. by rewrite lookup_take_lt by lia.
Qed.

Lemma array_setguy_spec a i x :
  arr_wf a -> 0 <= i < arr_num a ->
  exists a', array_setguy a i x = Ok a' /\ arr_wf a' /\
    arr_list a' = <[Z.to_nat i := Some x]> (arr_list a) /\
    arr_num a' = arr_num a /\ arr_max a' = arr_max a.
Proof.
  intros Hwf Hi. pose proof Hwf as (?&?&?). unfold array_setguy.
  do 2 pass_assert.
  rewrite arr_buf_pos by (done || lia). rewrite bind_Ok.
  rewrite store_in_range by lia. rewrite bind_Ok. eexists; split; [reflexivity|].
  unfold arr_wf, arr_list. set (c := arr_cells a) in *. unfold arr_cells; simpl.
  rewrite length_insert. repeat split; try lia. by rewrite take_insert_lt by lia.
Qed.

Lemma array_remove_spec a i :
  arr_wf a -> 0 <= i < arr_num a ->
  exists a', array_remove a i = Ok a' /\ arr_wf a' /\
    arr_list a' = delete (Z.to_nat i) (arr_list a) /\
    arr_num a' = arr_num a - 1 /\ arr_max a' = arr_max a.
Proof.
  intros Hwf Hi. pose proof Hwf as (?&?&?). unfold array_remove.
  do 2 pass_assert.
  rewrite arr_buf_pos by (done || lia). rewrite bind_Ok. unfold move_cells.
  match goal with |- context [if ?b then _ else _] => replace b with true by zbool end.
  rewrite bind_Ok. eexists; split; [reflexivity|].
  unfold arr_wf, arr_list. set (c := arr_cells a) in *. unfold arr_cells; simpl.
  rewrite !length_app, !length_take, !length_drop. repeat split; try lia.
  rewrite delete_take_drop, app_assoc, take_app_le
    by (rewrite length_app, !length_take, length_drop; lia).
  rewrite take_app_ge by (rewrite length_take; lia).
  rewrite length_take, !take_take, take_drop_commute. f_equal; f_equal; try lia.
  f_equal. lia.
Qed.
End facts.

(** ** Specification: an array is a list of cells

    [arr_op] are the operations of array.h on an existing array; [arr_step]
    runs the C code.  [arr_spec l op r l'] is what array.h promises: [r] is
    the answer and [l'] the list afterwards. *)

Section spec.
Context {A : Type}.

Inductive arr_op : Type :=
| OpGetnum
| OpGet (index : Z)
| OpSet (index : Z) (ptr : A)
| OpAdd (guy : A)
| OpRemove (index : Z)
| OpPreallocate (nguys : Z)
| OpSetsize (nguys : Z).

Inductive arr_ans : Type :=
| AnsInt (n : Z)
| AnsPtr (p : option A)
| AnsVoid.

Definition arr_step (ok : bool) (a : array A) (op : arr_op) : res (arr_ans * array A) :=
  match op with
  | OpGetnum => Ok (AnsInt (array_getnum a), a)
  | OpGet i => x ← array_getguy a i; Ok (AnsPtr x, a)
  | OpSet i p => a ← array_setguy a i p; Ok (AnsVoid, a)
  | OpAdd p => '(e, a) ← array_add ok a p; Ok (AnsInt e, a)
  | OpRemove i => a ← array_remove a i; Ok (AnsVoid, a)
  | OpPreallocate n => '(e, a) ← array_preallocate ok a n; Ok (AnsInt e, a)
  | OpSetsize n => '(e, a) ← array_setsize ok a n; Ok (AnsInt e, a)
  end.

Definition in_list (l : list (option A)) (i : Z) : Prop :=
  0 <= i < Z.of_nat (length l).

Inductive arr_spec (ok : bool) (l : list (option A))
  : arr_op -> res (arr_ans * list (option A)) -> Prop :=
| spec_getnum :
    arr_spec ok l OpGetnum (Ok (AnsInt (Z.of_nat (length l)), l))
| spec_get i x :
    0 <= i -> l !! Z.to_nat i = Some x -> arr_spec ok l (OpGet i) (Ok (AnsPtr x, l))
| spec_get_out i : ~ in_list l i -> arr_spec ok l (OpGet i) Panic
| spec_set i p :
    in_list l i ->
    arr_spec ok l (OpSet i p) (Ok (AnsVoid, <[Z.to_nat i := Some p]> l))
| spec_set_out i p : ~ in_list l i -> arr_spec ok l (OpSet i p) Panic
| spec_add p : arr_spec ok l (OpAdd p) (Ok (AnsInt 0, l ++ [Some p]))
| spec_add_nomem p :
    ok = false -> arr_spec ok l (OpAdd p) (Ok (AnsInt ENOMEM, l))
| spec_remove i :
    in_list l i ->
    arr_spec ok l (OpRemove i) (Ok (AnsVoid, delete (Z.to_nat i) l))
| spec_remove_out i : ~ in_list l i -> arr_spec ok l (OpRemove i) Panic
| spec_preallocate n : arr_spec ok l (OpPreallocate n) (Ok (AnsInt 0, l))
| spec_preallocate_nomem n :
    ok = false -> arr_spec ok l (OpPreallocate n) (Ok (AnsInt ENOMEM, l))
| spec_setsize n l' :
    Z.of_nat (length l') = n ->
    take (Nat.min (length l) (length l')) l' = take (Nat.min (length l) (length l')) l ->
    arr_spec ok l (OpSetsize n) (Ok (AnsInt 0, l'))
| spec_setsize_nomem n :
    ok = false -> Z.of_nat (length l) < n ->
    arr_spec ok l (OpSetsize n) (Ok (AnsInt ENOMEM, l)).

(** Arguments for which the capacity arithmetic of array.c does not overflow. *)
Definition arr_op_fits (a : array A) (op : arr_op) : Prop :=
  match op with
  | OpAdd _ => arr_num a < arr_limit
  | OpPreallocate n | OpSetsize n => 0 <= n <= arr_limit
  | _ => True
  end.

(** The concrete outcome [r] shows the abstract outcome [s]. *)
Definition arr_shows (r : res (arr_ans * array A)) (s : res (arr_ans * list (option A)))
  : Prop :=
  match r, s with
  | Ok (x, a), Ok (y, l) => x = y /\ arr_wf a /\ arr_list a = l
  | Panic, Panic => True
  | _, _ => False
  end.

Lemma in_list_iff (a : array A) i : arr_wf a -> in_list (arr_list a) i <-> 0 <= i < arr_num a.
Proof. intros H. unfold in_list. by rewrite arr_list_length. Qed.

Lemma array_index_panic (a : array A) i :
  arr_wf a -> ~ in_list (arr_list a) i ->
  array_getguy a i = Panic /\ (forall x, array_setguy a i x = Panic) /\
  array_remove a i = Panic.
Proof.
  intros Hwf Hi. rewrite in_list_iff in Hi by done. destruct Hwf as (?&?&?).
  unfold array_getguy, array_setguy, array_remove.
  destruct (Z.leb_spec (arr_num a) (arr_max a)); [|lia]. cbn.
  destruct (Z.geb_spec i 0), (Z.ltb_spec i (arr_num a)); try lia; done.
Qed.

Lemma array_setsize_spec ok (a : array A) n :
  arr_wf a -> 0 <= n <= arr_limit ->
  (ok = false /\ arr_max a < n /\ array_setsize ok a n = Ok (ENOMEM, a)) \/
  (exists a', array_setsize ok a n = Ok (0, a') /\ arr_wf a' /\ arr_num a' = n /\
     take (Nat.min (length (arr_list a)) (length (arr_list a'))) (arr_list a') =
     take (Nat.min (length (arr_list a)) (length (arr_list a'))) (arr_list a)).
Proof.
  intros Hwf Hn. pose proof Hwf as (?&?&?).
  destruct (decide (arr_max a < n)) as [Hgrow|Hfit].
  - unfold array_setsize. pass_assert. rewrite Z.gtb_ltb.
    destruct (Z.ltb_spec (arr_max a) n); [|lia].
    destruct (array_preallocate_spec ok a n)
      as [[-> ->]|(a' & -> & Hwf' & Hlist & Hnum & _ & Hcap)]; [done|lia|by left|].
    right. rewrite bind_Ok. eexists; split; [reflexivity|].
    pose proof (arr_wf_resize a' n Hwf' ltac:(lia)) as Hwf''.
    split; [done|]. split; [done|]. rewrite <- Hlist.
    unfold arr_list; simpl. change (arr_cells _) with (arr_cells a').
    destruct Hwf' as (?&?&?). rewrite !take_take, !length_take. f_equal. lia.
  - right. destruct (decide (n = 0 /\ 16 < arr_max a)) as [[-> ?]|Hsmall].
    + rewrite array_setsize_zero_large by done. eexists; split; [reflexivity|].
      unfold arr_wf, arr_list, arr_cells; simpl. rewrite Nat.min_0_r, !take_0.
      repeat split; lia.
    + rewrite array_setsize_within by (done || lia). eexists; split; [reflexivity|].
      split; [by apply arr_wf_resize; [|lia]|]. split; [done|].
      unfold arr_list; simpl. change (arr_cells _) with (arr_cells a).
      rewrite !take_take, !length_take. f_equal. lia.
Qed.

(** C22. array.c implements lists of cells: on every well-formed array, every
    operation, whatever [kmalloc] answers, gives exactly an outcome its
    specification allows on the list the array represents, and leaves a
    well-formed array that represents the specified list.  An index outside
    the array panics, only an operation that has to grow the buffer fails,
    with ENOMEM and the array unchanged, and no operation reads or writes
    outside its buffer. *)
Theorem array_refines_list (ok : bool) (a : array A) (op : arr_op) :
  arr_wf a -> arr_op_fits a op ->
  exists s, arr_spec ok (arr_list a) op s /\ arr_shows (arr_step ok a op) s.
Proof.
  intros Hwf Hfit. destruct op as [|i|i p|p|i|n|n]; simpl in Hfit |- *;
    try (destruct (decide (0 <= i < arr_num a)) as [Hi|Hi];
      [pose proof (proj2 (in_list_iff a i Hwf) Hi)
      |rewrite <- in_list_iff in Hi by done]).
  - eexists; split; [constructor|]. simpl. by rewrite arr_list_length.
  - destruct (array_getguy_spec a i Hwf Hi) as (x & -> & Hx).
    eexists; split; [apply spec_get; [lia | done]|]. done.
  - rewrite (proj1 (array_index_panic a i Hwf Hi)).
    by eexists; split; [apply spec_get_out|].
  - destruct (array_setguy_spec a i p Hwf Hi) as (a' & -> & ? & ? & _).
    by eexists; split; [apply spec_set|].
  - rewrite (proj1 (proj2 (array_index_panic a i Hwf Hi))).
    by eexists; split; [apply spec_set_out|].
  - destruct (array_add_spec ok a p Hwf Hfit) as [(-> & _ & ->)|(a' & -> & ? & ? & _)].
    + by eexists; split; [by apply spec_add_nomem|].
    + by eexists; split; [apply spec_add|].
  - destruct (array_remove_spec a i Hwf Hi) as (a' & -> & ? & ? & _).
    by eexists; split; [apply spec_remove|].
  - rewrite (proj2 (proj2 (array_index_panic a i Hwf Hi))).
    by eexists; split; [apply spec_remove_out|].
  - destruct (array_preallocate_spec ok a n Hwf) as [[-> ->]|(a' & -> & ? & ? & _)];
      [lia| |].
    + by eexists; split; [by apply spec_preallocate_nomem|].
    + by eexists; split; [apply spec_preallocate|].
  - destruct (array_setsize_spec ok a n Hwf Hfit) as [(-> & Hlt & ->)|(a' & -> & Hwf' & Hn & Ht)].
    + eexists; split; [apply spec_setsize_nomem; [done|]|done].
      rewrite arr_list_length by done. destruct Hwf as (?&?&?). lia.
    + eexists; split; [apply spec_setsize; [|exact Ht]|done].
      by rewrite arr_list_length.
Qed.
End spec.

(** A freshly created array, grown by one element. *)
Lemma array_refines_list_witness :
  exists s, arr_spec true (arr_list (mk_array 0 0 None)) (OpAdd 7) s /\
    arr_shows (arr_step true (mk_array 0 0 None) (OpAdd 7)) s.
Proof.
  apply (array_refines_list true (mk_array 0 0 None) (OpAdd 7)).
  - unfold arr_wf; simpl; lia.
  - unfold arr_op_fits, arr_limit; simpl; lia.
Defined.

Example array_run_example :
  ('(_, a) ← array_add true (mk_array 0 0 None) 10;
   '(_, a) ← array_add true a 20;
   '(_, a) ← array_add true a 30;
   a ← array_remove a 1;
   Ok (arr_list a, arr_max a)) = Ok ([Some 10; Some 30], 6).
Proof. vm_compute. reflexivity. Qed.

(** ** Arrays of pointers none of which is uninitialised *)

Section holds.
Context {A : Type}.
Implicit Types (a : array A) (t : A).

(** An array that holds exactly the pointers [l]. *)
Definition holds (a : array A) (l : list A) : Prop :=
  arr_wf a /\ arr_list a = Some <$> l.

Lemma holds_num a l : holds a l -> arr_num a = Z.of_nat (length l).
Proof.
  intros [Hwf Hl]. by rewrite <- (arr_list_length a Hwf), Hl, length_fmap.
Qed.

Lemma holds_get a (pre : list A) t post :
  holds a (pre ++ t :: post) -> array_getguy a (Z.of_nat (length pre)) = Ok (Some t).
Proof.
  intros H. pose proof (holds_num _ _ H) as Hn. destruct H as [Hwf Hl].
  rewrite length_app in Hn; simpl in Hn.
  destruct (array_getguy_spec a (Z.of_nat (length pre)) Hwf) as (x & -> & Hx); [lia|].
  rewrite Nat2Z.id, Hl, list_lookup_fmap, list_lookup_middle in Hx by done.
  by simplify_eq/=.
Qed.

Lemma holds_remove a (pre : list A) t post :
  holds a (pre ++ t :: post) ->
  exists a', array_remove a (Z.of_nat (length pre)) = Ok a' /\ holds a' (pre ++ post) /\
    arr_max a' = arr_max a.
Proof.
  intros H. pose proof (holds_num _ _ H) as Hn. destruct H as [Hwf Hl].
  rewrite length_app in Hn; simpl in Hn.
  destruct (array_remove_spec a (Z.of_nat (length pre)) Hwf) as (a' & -> & Hwf' & Hl' & _ & Hm);
    [lia|].
  exists a'. split; [done|]. split; [|done]. split; [done|].
  rewrite Hl', Nat2Z.id, Hl, fmap_app, fmap_cons.
  rewrite <- (length_fmap Some pre), delete_middle. by rewrite fmap_app.
Qed.

Lemma holds_add ok a l t :
  holds a l -> Z.of_nat (length l) < arr_limit ->
  (exists a', array_add ok a t = Ok (0, a') /\ holds a' (l ++ [t])) \/
  (ok = false /\ array_add ok a t = Ok (ENOMEM, a)).
Proof.
  intros H Hlim. pose proof (holds_num _ _ H) as Hn. destruct H as [Hwf Hl].
  destruct (array_add_spec ok a t Hwf) as [(? & _ & ->)|(a' & -> & Hwf' & Hl' & _)];
    [lia|by right|].
  left. exists a'. split; [done|]. split; [done|]. by rewrite Hl', Hl, fmap_app.
Qed.

Lemma holds_add_room ok a l t :
  holds a l -> Z.of_nat (length l) < arr_max a ->
  exists a', array_add ok a t = Ok (0, a') /\ holds a' (l ++ [t]) /\ arr_max a' = arr_max a.
Proof.
  intros H Hroom. pose proof (holds_num _ _ H) as Hn. destruct H as [Hwf Hl].
  destruct (array_add_room ok a t Hwf) as (a' & -> & Hwf' & Hl' & _ & Hm); [lia|].
  exists a'. split; [done|]. split; [|done]. split; [done|]. by rewrite Hl', Hl, fmap_app.
Qed.

Lemma holds_preallocate ok a l n :
  holds a l -> n <= arr_limit ->
  (exists a', array_preallocate ok a n = Ok (0, a') /\ holds a' l /\
     arr_max a <= arr_max a' /\ n <= arr_max a') \/
  (ok = false /\ array_preallocate ok a n = Ok (ENOMEM, a)).
Proof.
  intros [Hwf Hl] Hn.
  destruct (array_preallocate_spec ok a n Hwf Hn)
    as [[? ->]|(a' & -> & Hwf' & Hl' & _ & ? & ?)]; [by right|].
  left. exists a'. split; [done|]. split; [|done]. split; [done|]. by rewrite Hl'.
Qed.

Lemma holds_clear ok a l :
  holds a l -> exists a', array_setsize ok a 0 = Ok (0, a') /\ holds a' [].
Proof.
  intros [Hwf Hl]. unfold holds.
  destruct (array_setsize_spec ok a 0 Hwf) as [(_ & ? & _)|(a' & -> & Hwf' & Hn & _)].
  - unfold arr_limit. lia.
  - destruct Hwf as (?&?&?). lia.
  - exists a'. split; [done|]. split; [done|]. apply length_zero_iff_nil.
    pose proof (arr_list_length a' Hwf'). lia.
Qed.

Lemma holds_elem a l t : holds a l -> Some t ∈ arr_list a <-> t ∈ l.
Proof. intros [_ ->]. rewrite list_elem_of_fmap. naive_solver. Qed.

Lemma array_create_holds ok a : array_create ok = Some a -> holds a [].
Proof. destruct ok; [|done]. intros [= <-]. by split; [split|]. Qed.

End holds.
