(* ===== verification/Libc.v ===== *)
(** * lib/libc: blocks of memory and strings

    The functions libc shares with the kernel.  The functions on blocks work
    on a memory that is a list of bytes, indexed by address; the functions on
    strings on buffers of characters that contain a terminating 0, a [char *]
    being an index into its buffer.  A read or write outside is [Undef].
    Objects are smaller than the address space, so that the counters of the
    loops do not wrap; [char] is signed, which only [strcmp] can tell. *)
From stdpp Require Import base numbers list option.
From S2P Require Import Prelude.
Local Open Scope Z_scope.

(** ** Blocks *)

(** An access to [w] bytes: [w] is 1 for [char], 4 for [long]. *)
Definition load_unit (w : nat) (M : list Z) (a : Z) : res (list Z) :=
  if (0 <=? a) && (a + Z.of_nat w <=? Z.of_nat (length M)) then Ok (take w (drop (Z.to_nat a) M)) else Undef.
Definition store_unit (M : list Z) (a : Z) (x : list Z) : res (list Z) :=
  if (0 <=? a) && (a + Z.of_nat (length x) <=? Z.of_nat (length M)) then Ok (splice M (Z.to_nat a) x) else Undef.

(** [d\[i\] = s\[i\]] *)
Definition copy_unit (w : nat) (M : list Z) (dst src i : Z) : res (list Z) :=
  x ← load_unit w M (src + i * Z.of_nat w);
  store_unit M (dst + i * Z.of_nat w) x.

(** [for (i=...; i<n; i++) d\[i\] = s\[i\];] with [n] steps left. *)
Fixpoint copy_up (w n : nat) (i : Z) (M : list Z) (dst src : Z) : res (list Z) :=
  match n with
  | O => Ok M
  | S n =>
      M ← copy_unit w M dst src i;
      copy_up w n (i + 1) M dst src
  end.

(** [for (i=n; i>0; i--) d\[i-1\] = s\[i-1\];] *)
Fixpoint copy_down (w n : nat) (M : list Z) (dst src : Z) : res (list Z) :=
  match n with
  | O => Ok M
  | S n =>
      M ← copy_unit w M dst src (Z.of_nat n);
      copy_down w n M dst src
  end.

Definition words_aligned (dst src len : Z) : bool :=
  (dst `mod` 4 =? 0) && (src `mod` 4 =? 0) && (len `mod` 4 =? 0).

Definition memcpy (M : list Z) (dst src len : Z) : res (list Z) :=
  if words_aligned dst src len then copy_up 4 (Z.to_nat (len / 4)) 0 M dst src
  else copy_up 1 (Z.to_nat len) 0 M dst src.

Definition memmove (M : list Z) (dst src len : Z) : res (list Z) :=
  if dst <? src then memcpy M dst src len
  else if words_aligned dst src len then copy_down 4 (Z.to_nat (len / 4)) M dst src
  else copy_down 1 (Z.to_nat len) M dst src.

(** [for (i=...; i<n; i++) p\[i\] = x;] *)
Fixpoint fill_up (x : list Z) (n : nat) (i : Z) (M : list Z) (p : Z) : res (list Z) :=
  match n with
  | O => Ok M
  | S n =>
      M ← store_unit M (p + i * Z.of_nat (length x)) x;
      fill_up x n (i + 1) M p
  end.

Definition bzero (M : list Z) (block len : Z) : res (list Z) :=
  if (block `mod` 4 =? 0) && (len `mod` 4 =? 0) then fill_up [0; 0; 0; 0] (Z.to_nat (len / 4)) 0 M block
  else fill_up [0] (Z.to_nat len) 0 M block.

Definition memset (M : list Z) (ptr ch len : Z) : res (list Z) :=
  fill_up [u8 ch] (Z.to_nat len) 0 M ptr.

(** ** Strings *)

(** The value of a byte as a [char]. *)
Definition schar (b : Z) : Z := if b <? 128 then b else b - 256.

Fixpoint strlen_loop (fuel : nat) (s : list Z) (ret : Z) : res Z :=
  match fuel with
  | O => Fuel
  | S fuel =>
      c ← load s ret;
      if c =? 0 then Ok ret else strlen_loop fuel s (ret + 1)
  end.

(** The string at index [p] of the buffer [s]. *)
Definition strlen (s : list Z) (p : Z) : res Z :=
  n ← strlen_loop (S (length s)) s p;
  Ok (n - p).

Fixpoint strcpy_loop (fuel : nat) (dest : list Z) (d : Z) (src : list Z) (i : Z) : res (list Z) :=
  match fuel with
  | O => Fuel
  | S fuel =>
      c ← load src i;
      if c =? 0 then store dest (d + i) 0
      else
        dest ← store dest (d + i) c;
        strcpy_loop fuel dest d src (i + 1)
  end.

(** Copies the string [src] to index [d] of [dest]. *)
Definition strcpy (dest : list Z) (d : Z) (src : list Z) : res (list Z) :=
  strcpy_loop (S (length src)) dest d src 0.

Definition strcat (dest : list Z) (src : list Z) : res (list Z) :=
  offset ← strlen dest 0;
  strcpy dest offset src.

Fixpoint strcmp_loop (fuel : nat) (a b : list Z) (i : Z) : res Z :=
  match fuel with
  | O => Fuel
  | S fuel =>
      x ← load a i;
      if x =? 0 then Ok i
      else
        y ← load b i;
        if x =? y then strcmp_loop fuel a b (i + 1) else Ok i
  end.

Definition strcmp (a b : list Z) : res Z :=
  i ← strcmp_loop (S (length a)) a b 0;
  x ← load a i;
  y ← load b i;
  Ok (if schar x >? schar y then 1 else if x =? y then 0 else -1).

Fixpoint strchr_loop (fuel : nat) (s : list Z) (p ch : Z) : res (option Z) :=
  match fuel with
  | O => Fuel
  | S fuel =>
      c ← load s p;
      if c =? 0 then Ok (if c =? ch then Some p else None)
      else if c =? ch then Ok (Some p)
      else strchr_loop fuel s (p + 1) ch
  end.

Definition strchr (s : list Z) (p ch : Z) : res (option Z) := strchr_loop (S (length s)) s p ch.

(** The loop of [strrchr], at [i]. *)
Fixpoint strrchr_loop (i : nat) (s : list Z) (ch : Z) : res (option Z) :=
  match i with
  | O => Ok None
  | S i =>
      c ← load s (Z.of_nat i);
      if c =? ch then Ok (Some (Z.of_nat i)) else strrchr_loop i s ch
  end.

Definition strrchr (s : list Z) (ch : Z) : res (option Z) :=
  n ← strlen s 0;
  strrchr_loop (Z.to_nat (n + 1)) s ch.

(** [while ( *p && strchr(seps, *p)) p++;] when [in_seps], otherwise
    [while ( *p && !strchr(seps, *p)) p++;] *)
Fixpoint skip_loop (fuel : nat) (in_seps : bool) (s seps : list Z) (p : Z) : res Z :=
  match fuel with
  | O => Fuel
  | S fuel =>
      c ← load s p;
      if c =? 0 then Ok p
      else
        found ← strchr seps 0 c;
        if eqb in_seps (bool_decide (is_Some found)) then skip_loop fuel in_seps s seps (p + 1) else Ok p
  end.

(** [s] is the buffer that [string] and [*context] point into; gives the
    word, [*context] and the buffer. *)
Definition strtok_r (s : list Z) (string : option Z) (seps : list Z) (context : option Z)
    : res (option Z * option Z * list Z) :=
  let context := match string with Some p => Some p | None => context end in
  match context with
  | None => Ok (None, None, s)
  | Some head =>
      head ← skip_loop (S (length s)) true s seps head;
      c ← load s head;
      if c =? 0 then Ok (None, None, s)
      else
        tail ← skip_loop (S (length s)) false s seps head;
        c ← load s tail;
        if c =? 0 then Ok (Some head, None, s)
        else
          s ← store s tail 0;
          Ok (Some head, Some (tail + 1), s)
  end.

(** ** Numbers *)

(** "0123456789" *)
Definition digits10 : list Z := [48; 49; 50; 51; 52; 53; 54; 55; 56; 57; 0].

(** Skips blanks (32) and tabs (9). *)
Fixpoint atoi_space (fuel : nat) (s : list Z) (p : Z) : res Z :=
  match fuel with
  | O => Fuel
  | S fuel =>
      c ← load s p;
      if (c =? 32) || (c =? 9) then atoi_space fuel s (p + 1) else Ok p
  end.

Fixpoint atoi_loop (fuel : nat) (s : list Z) (p val : Z) : res Z :=
  match fuel with
  | O => Fuel
  | S fuel =>
      c ← load s p;
      if c =? 0 then Ok val
      else
        found ← strchr digits10 0 c;
        match found with
        | None => Ok val
        | Some digit => atoi_loop fuel s (p + 1) (u32 (u32 (val * 10) + digit))
        end
  end.

Definition atoi (s : list Z) : res Z :=
  p ← atoi_space (S (length s)) s 0;
  c ← load s p;
  let '(neg, p) := if c =? 45 then (true, p + 1) else (false, p) in
  val ← atoi_loop (S (length s)) s p 0;
  Ok (i32 (if neg : bool then u32 (- val) else val)).

(** ** Copying blocks *)

Definition slice (M : list Z) (a n : nat) : list Z := take n (drop a M).

Lemma length_slice M a n : (a + n <= length M)%nat -> length (slice M a n) = n.
Proof. intros H. unfold slice. rewrite length_take, length_drop. lia. Qed.

Lemma lookup_slice M a n i : slice M a n !! i = if decide (i < n)%nat then M !! (a + i)%nat else None.
Proof.
  unfold slice. case_decide as Hi; [by rewrite lookup_take_lt, lookup_drop|]. apply lookup_take_ge. lia.
Qed.

Lemma copy_unit_Ok w M dst src i :
  0 <= dst -> 0 <= src -> 0 <= i ->
  dst + (i + 1) * Z.of_nat w <= Z.of_nat (length M) -> src + (i + 1) * Z.of_nat w <= Z.of_nat (length M) ->
  copy_unit w M dst src i =
    Ok (splice M (Z.to_nat (dst + i * Z.of_nat w)) (slice M (Z.to_nat (src + i * Z.of_nat w)) w)).
Proof.
  intros Hd Hs Hi Hld Hls. unfold copy_unit, load_unit, store_unit.
  destruct (Z.leb_spec 0 (src + i * Z.of_nat w)); [|lia].
  destruct (Z.leb_spec (src + i * Z.of_nat w + Z.of_nat w) (Z.of_nat (length M))); [|lia]. cbn [andb]. rewrite bind_Ok.
  fold (slice M (Z.to_nat (src + i * Z.of_nat w)) w). rewrite length_slice by lia.
  destruct (Z.leb_spec 0 (dst + i * Z.of_nat w)); [|lia].
  by destruct (Z.leb_spec (dst + i * Z.of_nat w + Z.of_nat w) (Z.of_nat (length M))); [|lia].
Qed.

(** Two memories that agree cell by cell are equal. *)
Lemma splice_eq M N a x : length N = length M -> (a + length x <= length M)%nat ->
  (forall i, (i < length M)%nat -> N !! i = if decide (a <= i < a + length x)%nat then x !! (i - a)%nat else M !! i) ->
  N = splice M a x.
Proof.
  intros Hl Ha Hc. apply list_eq. intros i. rewrite lookup_splice by done.
  destruct (decide (i < length M)%nat) as [Hi|Hi]; [by apply Hc|].
  rewrite (lookup_ge_None_2 N) by lia. case_decide; [lia|]. by rewrite lookup_ge_None_2 by lia.
Qed.

(** Cells outside a spliced block are unchanged. *)
Lemma slice_splice_out M a x c w :
  (a + length x <= length M)%nat -> (c + w <= a \/ a + length x <= c)%nat ->
  slice (splice M a x) c w = slice M c w.
Proof.
  intros Ha Hout. apply list_eq. intros i. rewrite !lookup_slice. case_decide; [|done].
  rewrite lookup_splice by done. case_decide; [lia|done].
Qed.

(** Extending a copied block at its end, and at its front. *)
Lemma splice_extend M d s k w :
  (d + k + w <= length M)%nat -> (s + k + w <= length M)%nat ->
  splice (splice M d (slice M s k)) (d + k) (slice M (s + k) w) = splice M d (slice M s (k + w)).
Proof.
  intros Hd Hs. pose proof (length_slice M s k ltac:(lia)) as L1. pose proof (length_slice M (s + k) w ltac:(lia)) as L2.
  pose proof (length_slice M s (k + w) ltac:(lia)) as L3.
  assert (length (splice M d (slice M s k)) = length M) as L4 by (apply length_splice; lia).
  apply list_eq. intros i. rewrite !lookup_splice, !lookup_slice by lia. rewrite L1, L2, L3.
  repeat case_decide; try lia; try done; f_equal; lia.
Qed.

Lemma splice_extend_front M d s k w :
  (d + w + k <= length M)%nat -> (s + w + k <= length M)%nat ->
  splice (splice M (d + w) (slice M (s + w) k)) d (slice M s w) = splice M d (slice M s (w + k)).
Proof.
  intros Hd Hs. pose proof (length_slice M (s + w) k ltac:(lia)) as L1. pose proof (length_slice M s w ltac:(lia)) as L2.
  pose proof (length_slice M s (w + k) ltac:(lia)) as L3.
  assert (length (splice M (d + w) (slice M (s + w) k)) = length M) as L4 by (apply length_splice; lia).
  apply list_eq. intros i. rewrite !lookup_splice, !lookup_slice by lia. rewrite L1, L2, L3.
  repeat case_decide; try lia; try done; f_equal; lia.
Qed.

Section copy.
Variables (w : nat) (M : list Z) (d s : nat).

Lemma copy_up_spec n : forall i,
  (d + (i + n) * w <= length M)%nat -> (s + (i + n) * w <= length M)%nat ->
  (d <= s \/ s + (i + n) * w <= d)%nat ->
  copy_up w n (Z.of_nat i) (splice M d (slice M s (i * w))) (Z.of_nat d) (Z.of_nat s) =
    Ok (splice M d (slice M s ((i + n) * w))).
Proof.
  induction n as [|n IH]; intros i Hd Hs Hdir; cbn [copy_up]; [by rewrite Nat.add_0_r|].
  assert ((i + S n) * w = i * w + w + n * w)%nat as Ew by lia. rewrite Ew in *.
  assert (length (slice M s (i * w)) = i * w)%nat as L1 by (apply length_slice; lia).
  assert (length (splice M d (slice M s (i * w))) = length M) as L2 by (apply length_splice; lia).
  rewrite copy_unit_Ok, bind_Ok by (rewrite ?L2; lia).
  replace (Z.to_nat (Z.of_nat d + Z.of_nat i * Z.of_nat w)) with (d + i * w)%nat by lia.
  replace (Z.to_nat (Z.of_nat s + Z.of_nat i * Z.of_nat w)) with (s + i * w)%nat by lia.
  rewrite slice_splice_out, splice_extend by (rewrite ?L1; lia).
  replace (Z.of_nat i + 1) with (Z.of_nat (S i)) by lia. replace (i * w + w)%nat with (S i * w)%nat by lia.
  rewrite IH by lia. do 3 f_equal. lia.
Qed.

Lemma copy_down_spec n : forall k,
  (d + n * w + k <= length M)%nat -> (s + n * w + k <= length M)%nat -> (s <= d)%nat ->
  copy_down w n (splice M (d + n * w) (slice M (s + n * w) k)) (Z.of_nat d) (Z.of_nat s) =
    Ok (splice M d (slice M s (n * w + k))).
Proof.
  induction n as [|n IH]; intros k Hd Hs Hdir; cbn [copy_down]; [by rewrite !Nat.add_0_r|].
  assert (S n * w = n * w + w)%nat as Ew by lia. rewrite Ew in *. rewrite !Nat.add_assoc in *.
  assert (length (slice M (s + n * w + w) k) = k) as L1 by (apply length_slice; lia).
  assert (length (splice M (d + n * w + w) (slice M (s + n * w + w) k)) = length M) as L2 by (apply length_splice; lia).
  rewrite copy_unit_Ok, bind_Ok by (rewrite ?L2; lia).
  replace (Z.to_nat (Z.of_nat d + Z.of_nat n * Z.of_nat w)) with (d + n * w)%nat by lia.
  replace (Z.to_nat (Z.of_nat s + Z.of_nat n * Z.of_nat w)) with (s + n * w)%nat by lia.
  rewrite slice_splice_out, splice_extend_front by (rewrite ?L1; lia).
  rewrite IH by lia. do 3 f_equal. lia.
Qed.
End copy.

Lemma words_aligned_len dst src len : 0 <= len -> words_aligned dst src len = true ->
  (Z.to_nat (len / 4) * 4)%nat = Z.to_nat len.
Proof.
  unfold words_aligned. intros Hl H. apply andb_true_iff in H as [_ H]. apply Z.eqb_eq in H.
  Z.to_euclidean_division_equations. lia.
Qed.

Lemma memcpy_spec M dst src len :
  0 <= dst -> 0 <= src -> 0 <= len -> dst + len <= Z.of_nat (length M) -> src + len <= Z.of_nat (length M) ->
  dst <= src \/ src + len <= dst ->
  memcpy M dst src len = Ok (splice M (Z.to_nat dst) (slice M (Z.to_nat src) (Z.to_nat len))).
Proof.
  intros Hd Hs Hl Hdl Hsl Hdir. destruct (Z_of_nat_complete dst Hd) as [d ->], (Z_of_nat_complete src Hs) as [a ->].
  rewrite !Nat2Z.id. unfold memcpy. destruct (words_aligned _ _ len) eqn:E.
  - pose proof (words_aligned_len _ _ _ Hl E) as Ew.
    pose proof (copy_up_spec 4 M d a (Z.to_nat (len / 4)) 0) as Hc.
    rewrite Nat.add_0_l, Ew, splice_nil in Hc. apply Hc; lia.
  - pose proof (copy_up_spec 1 M d a (Z.to_nat len) 0) as Hc.
    rewrite Nat.add_0_l, Nat.mul_1_r, splice_nil in Hc. apply Hc; lia.
Qed.

Lemma memmove_spec M dst src len :
  0 <= dst -> 0 <= src -> 0 <= len -> dst + len <= Z.of_nat (length M) -> src + len <= Z.of_nat (length M) ->
  memmove M dst src len = Ok (splice M (Z.to_nat dst) (slice M (Z.to_nat src) (Z.to_nat len))).
Proof.
  intros Hd Hs Hl Hdl Hsl. unfold memmove. destruct (Z.ltb_spec dst src); [apply memcpy_spec; lia|].
  destruct (Z_of_nat_complete dst Hd) as [d ->], (Z_of_nat_complete src Hs) as [a ->]. rewrite !Nat2Z.id.
  destruct (words_aligned _ _ len) eqn:E.
  - pose proof (words_aligned_len _ _ _ Hl E) as Ew.
    pose proof (copy_down_spec 4 M d a (Z.to_nat (len / 4)) 0) as Hc.
    rewrite !Nat.add_0_r, Ew, splice_nil in Hc. apply Hc; lia.
  - pose proof (copy_down_spec 1 M d a (Z.to_nat len) 0) as Hc.
    rewrite !Nat.add_0_r, Nat.mul_1_r, splice_nil in Hc. apply Hc; lia.
Qed.

(** [memmove] copies exactly, whatever the overlap.  For a destination and
    a source that lie in memory it succeeds, and the memory afterwards is the
    memory before with the bytes of the destination replaced by the bytes
    that the source held before; word by word or byte by byte, upwards or
    downwards, it is the same function.  [memcpy] does the same when the
    source does not start below the destination inside it. *)
Theorem memmove_exact (M : list Z) (dst src len : Z) :
  0 <= dst -> 0 <= src -> 0 <= len -> dst + len <= Z.of_nat (length M) -> src + len <= Z.of_nat (length M) ->
  memmove M dst src len = Ok (splice M (Z.to_nat dst) (slice M (Z.to_nat src) (Z.to_nat len))) /\
  (dst <= src \/ src + len <= dst -> memcpy M dst src len = memmove M dst src len).
Proof.
  intros Hd Hs Hl Hdl Hsl. split; [by apply memmove_spec|]. intros Hdir. by rewrite memcpy_spec, memmove_spec.
Qed.

Lemma memmove_exact_witness :
  memmove [1; 2; 3; 4; 5; 6; 7; 8; 9] 3 1 5 = Ok [1; 2; 3; 2; 3; 4; 5; 6; 9].
Proof.
  destruct (memmove_exact [1; 2; 3; 4; 5; 6; 7; 8; 9] 3 1 5) as [-> _]; [simpl; lia..|reflexivity].
Defined.

(** ** Strings *)

(** Index [p] of the buffer [s] is the start of the string [l]. *)
Definition str_at (s : list Z) (p : Z) (l : list Z) : Prop :=
  0 <= p /\ (0 ∉ l) /\ exists rest, drop (Z.to_nat p) s = l ++ 0 :: rest.

Lemma str_at_nil s p : str_at s p [] -> load s p = Ok 0.
Proof.
  intros (Hp & _ & rest & E). apply load_Ok; [done|]. rewrite <- (Nat.add_0_r (Z.to_nat p)), <- lookup_drop, E. done.
Qed.

Lemma str_at_cons s p c l : str_at s p (c :: l) -> load s p = Ok c /\ c <> 0 /\ str_at s (p + 1) l.
Proof.
  intros (Hp & H0 & rest & E). apply not_elem_of_cons in H0 as [Hc H0]. split; [|split; [done|]].
  - apply load_Ok; [done|]. rewrite <- (Nat.add_0_r (Z.to_nat p)), <- lookup_drop, E. done.
  - split; [lia|]. split; [done|]. exists rest. replace (Z.to_nat (p + 1)) with (Z.to_nat p + 1)%nat by lia.
    by rewrite <- drop_drop, E.
Qed.

Lemma str_at_length s p l : str_at s p l -> (Z.to_nat p + length l < length s)%nat.
Proof.
  intros (_ & _ & rest & E). apply (f_equal length) in E. rewrite length_drop, length_app in E. simpl in E. lia.
Qed.

Lemma str_at_start l rest : (0 ∉ l) -> str_at (l ++ 0 :: rest) 0 l.
Proof. intros H0. split; [done|]. split; [done|]. by exists rest. Qed.

Lemma strlen_loop_spec s l : forall p fuel, str_at s p l -> (length l < fuel)%nat ->
  strlen_loop fuel s p = Ok (p + Z.of_nat (length l)).
Proof.
  induction l as [|c l IH]; intros p [|fuel] Hs Hf; simpl in Hf; try lia; cbn [strlen_loop].
  - rewrite (str_at_nil _ _ Hs), bind_Ok. cbn [Z.eqb]. f_equal. simpl. lia.
  - apply str_at_cons in Hs as (-> & Hc & Hs). rewrite bind_Ok. destruct (Z.eqb_spec c 0); [done|].
    rewrite (IH (p + 1) fuel) by (done || lia). f_equal. simpl. lia.
Qed.

Lemma strlen_spec s p l : str_at s p l -> strlen s p = Ok (Z.of_nat (length l)).
Proof.
  intros Hs. unfold strlen. pose proof (str_at_length _ _ _ Hs).
  rewrite (strlen_loop_spec s l) by (done || lia). rewrite bind_Ok. f_equal. lia.
Qed.

Lemma store_splice (M : list Z) a x : 0 <= a < Z.of_nat (length M) -> store M a x = Ok (splice M (Z.to_nat a) [x]).
Proof.
  intros Ha. rewrite store_in_range by done. f_equal. rewrite insert_take_drop by lia. unfold splice. simpl.
  do 2 f_equal. f_equal. lia.
Qed.

Lemma splice_snoc (M x y : list Z) d : (d + length x + length y <= length M)%nat ->
  splice (splice M d x) (d + length x) y = splice M d (x ++ y).
Proof.
  intros Hd. assert (length (splice M d x) = length M) as L1 by (apply length_splice; lia).
  apply list_eq. intros i. rewrite !lookup_splice by (rewrite ?length_app; lia). rewrite length_app.
  repeat case_decide; try lia; try done.
  - rewrite lookup_app_r by lia. f_equal. lia.
  - rewrite lookup_app_l by lia. done.
Qed.

Lemma strcpy_loop_spec dest d src l : forall done_ i fuel,
  i = Z.of_nat (length done_) -> str_at src i l -> (length l < fuel)%nat -> 0 <= d ->
  d + i + Z.of_nat (length l) < Z.of_nat (length dest) ->
  strcpy_loop fuel (splice dest (Z.to_nat d) done_) d src i =
    Ok (splice dest (Z.to_nat d) (done_ ++ l ++ [0])).
Proof.
  induction l as [|c l IH]; intros done_ i [|fuel] Hi Hs Hf Hd Hlen; simpl in Hf, Hlen; try lia; cbn [strcpy_loop];
    assert (length (splice dest (Z.to_nat d) done_) = length dest) as L1 by (apply length_splice; lia).
  - rewrite (str_at_nil _ _ Hs), bind_Ok. cbn [Z.eqb]. rewrite store_splice by (rewrite L1; lia).
    replace (Z.to_nat (d + i)) with (Z.to_nat d + length done_)%nat by lia. by rewrite splice_snoc by (simpl; lia).
  - apply str_at_cons in Hs as (-> & Hc & Hs). rewrite bind_Ok. destruct (Z.eqb_spec c 0); [done|].
    rewrite store_splice, bind_Ok by (rewrite L1; lia).
    replace (Z.to_nat (d + i)) with (Z.to_nat d + length done_)%nat by lia. rewrite splice_snoc by (simpl; lia).
    rewrite (IH (done_ ++ [c])); [by rewrite <- app_assoc|rewrite length_app; simpl; lia|done|lia|done|lia].
Qed.

Lemma strcpy_spec dest d src l :
  str_at src 0 l -> 0 <= d -> d + Z.of_nat (length l) < Z.of_nat (length dest) ->
  strcpy dest d src = Ok (splice dest (Z.to_nat d) (l ++ [0])).
Proof.
  intros Hs Hd Hlen. unfold strcpy. pose proof (str_at_length _ _ _ Hs).
  rewrite <- (splice_nil dest (Z.to_nat d)) at 1. rewrite (strcpy_loop_spec dest d src l []); (done || lia).
Qed.

Lemma strcat_spec dest rest src l l' :
  dest = l ++ 0 :: rest -> (0 ∉ l) -> str_at src 0 l' -> (length l + length l' < length dest)%nat ->
  strcat dest src = Ok (splice dest (length l) (l' ++ [0])).
Proof.
  intros E H0 Hs Hlen. unfold strcat. subst dest. rewrite (strlen_spec _ _ l) by (by apply str_at_start).
  rewrite bind_Ok, (strcpy_spec _ _ _ l') by (done || lia). by rewrite Nat2Z.id.
Qed.

(** The order of strings: the first characters that differ decide. *)
Fixpoint str_compare (l l' : list Z) : Z :=
  match l, l' with
  | [], [] => 0
  | [], y :: _ => if 0 >? schar y then 1 else -1
  | x :: _, [] => if schar x >? 0 then 1 else -1
  | x :: l, y :: l' => if x =? y then str_compare l l' else if schar x >? schar y then 1 else -1
  end.

Lemma str_compare_eq l l' : str_compare l l' = 0 <-> l = l'.
Proof.
  revert l'. induction l as [|x l IH]; intros [|y l']; simpl; try by destruct (_ >? _).
  - done.
  - destruct (Z.eqb_spec x y) as [->|Hne]; [rewrite IH; split; congruence|].
    destruct (_ >? _); split; congruence.
Qed.

Lemma strcmp_loop_spec a b la : forall lb i fuel,
  str_at a i la -> str_at b i lb -> (length la < fuel)%nat ->
  (j ← strcmp_loop fuel a b i; x ← load a j; y ← load b j;
   Ok (if schar x >? schar y then 1 else if x =? y then 0 else -1)) = Ok (str_compare la lb).
Proof.
  induction la as [|x la IH]; intros lb i [|fuel] Ha Hb Hf; simpl in Hf; try lia; cbn [strcmp_loop].
  - rewrite (str_at_nil _ _ Ha), bind_Ok. cbn [Z.eqb]. rewrite bind_Ok, (str_at_nil _ _ Ha), bind_Ok.
    destruct lb as [|y lb]; [by rewrite (str_at_nil _ _ Hb), bind_Ok|].
    apply str_at_cons in Hb as (-> & Hy & _). rewrite bind_Ok. cbn [str_compare].
    destruct (Z.eqb_spec 0 y); [congruence|].
    change (schar 0) with 0. by destruct (0 >? schar y).
  - apply str_at_cons in Ha as (Hx & Hx0 & Ha). rewrite Hx, bind_Ok. destruct (Z.eqb_spec x 0); [done|].
    destruct lb as [|y lb].
    + rewrite (str_at_nil _ _ Hb), bind_Ok. destruct (Z.eqb_spec x 0); [done|].
      rewrite bind_Ok, Hx, bind_Ok, (str_at_nil _ _ Hb), bind_Ok. destruct (Z.eqb_spec x 0); [done|].
      cbn [str_compare]. change (schar 0) with 0. by destruct (schar x >? 0).
    + apply str_at_cons in Hb as (Hy & Hy0 & Hb). rewrite Hy, bind_Ok. cbn [str_compare].
      destruct (Z.eqb_spec x y) as [->|Hne].
      * by apply IH; [done|done|lia].
      * rewrite bind_Ok, Hx, bind_Ok, Hy, bind_Ok. destruct (Z.eqb_spec x y); [done|]. by destruct (_ >? _).
Qed.

Lemma strcmp_spec a b la lb : str_at a 0 la -> str_at b 0 lb -> strcmp a b = Ok (str_compare la lb).
Proof.
  intros Ha Hb. unfold strcmp. apply strcmp_loop_spec; [done|done|]. pose proof (str_at_length _ _ _ Ha). lia.
Qed.

(** The first occurrence of [ch] in the string, the final 0 included. *)
Fixpoint first_char (l : list Z) (ch : Z) : option nat :=
  match l with
  | [] => if 0 =? ch then Some O else None
  | c :: l => if c =? ch then Some O else S <$> first_char l ch
  end.

Lemma strchr_loop_spec s l ch : forall p fuel, str_at s p l -> (length l < fuel)%nat ->
  strchr_loop fuel s p ch = Ok ((fun i => p + Z.of_nat i) <$> first_char l ch).
Proof.
  induction l as [|c l IH]; intros p [|fuel] Hs Hf; simpl in Hf; try lia; cbn [strchr_loop first_char].
  - rewrite (str_at_nil _ _ Hs), bind_Ok, Z.eqb_refl. destruct (0 =? ch); simpl; [do 2 f_equal; lia|done].
  - apply str_at_cons in Hs as (-> & Hc & Hs). rewrite bind_Ok. destruct (Z.eqb_spec c 0); [done|].
    destruct (c =? ch); simpl; [do 2 f_equal; lia|]. rewrite IH by (done || lia). f_equal.
    destruct (first_char l ch); simpl; [f_equal; lia|done].
Qed.

Lemma strchr_spec s p l ch : str_at s p l ->
  strchr s p ch = Ok ((fun i => p + Z.of_nat i) <$> first_char l ch).
Proof. intros Hs. apply strchr_loop_spec; [done|]. pose proof (str_at_length _ _ _ Hs). lia. Qed.

Lemma first_char_Some l ch : ch <> 0 -> is_Some (first_char l ch) <-> ch ∈ l.
Proof.
  intros Hch. induction l as [|c l IH]; cbn [first_char].
  - destruct (Z.eqb_spec 0 ch); [congruence|]. split; [intros [x Hx]; discriminate Hx|]. intros H. by apply not_elem_of_nil in H.
  - rewrite elem_of_cons. destruct (Z.eqb_spec c ch) as [->|Hne]; [split; [intros _; by left|intros _; by eexists]|].
    rewrite fmap_is_Some, IH. split; [by right|]. intros [?|?]; [congruence|done].
Qed.

(** ** Splitting into words *)

Lemma cstring_at s p l : str_at s p l -> cstring (drop (Z.to_nat p) s) = l.
Proof.
  intros (_ & H0 & rest & ->). induction l as [|c l IH]; [done|]. apply not_elem_of_cons in H0 as [Hc H0]. simpl.
  destruct (Z.eqb_spec c 0); [congruence|]. by rewrite IH.
Qed.

(** The words of [l] between separators; [cur] is the beginning of the first
    one. *)
Fixpoint words_from (seps cur l : list Z) : list (list Z) :=
  match l with
  | [] => if decide (cur = []) then [] else [cur]
  | c :: l =>
      if decide (c ∈ seps) then (if decide (cur = []) then [] else [cur]) ++ words_from seps [] l
      else words_from seps (cur ++ [c]) l
  end.
Definition words (seps l : list Z) : list (list Z) := words_from seps [] l.

(** The calls of [strtok_r] that split a string: the first with the string,
    the others with NULL. *)
Fixpoint strtok_all (calls : nat) (s : list Z) (string : option Z) (seps : list Z) (context : option Z)
    : res (list (list Z)) :=
  match calls with
  | O => Fuel
  | S calls =>
      '(word, context, s) ← strtok_r s string seps context;
      match word with
      | None => Ok []
      | Some p =>
          rest ← strtok_all calls s None seps context;
          Ok (cstring (drop (Z.to_nat p) s) :: rest)
      end
  end.

Lemma words_nonempty seps l : Forall (fun w => w <> []) (words seps l).
Proof.
  enough (forall cur, Forall (fun w => w <> []) (words_from seps cur l)) as Hc by apply Hc.
  induction l as [|c l IH]; intros cur; cbn [words_from]; [by case_decide; repeat constructor|].
  case_decide; [|apply IH]. apply Forall_app. split; [by case_decide; repeat constructor|apply IH].
Qed.

Lemma words_skip seps a b : Forall (.∈ seps) a -> words seps (a ++ b) = words seps b.
Proof.
  induction a as [|c a IH]; intros Ha; [done|]. apply Forall_cons_1 in Ha as [Hc Ha]. unfold words in *. simpl.
  rewrite decide_True by done. by apply IH.
Qed.

Lemma words_from_word seps w : forall cur rest, Forall (.∉ seps) w -> cur ++ w <> [] ->
  match rest with [] => True | c :: _ => c ∈ seps end ->
  words_from seps cur (w ++ rest) = (cur ++ w) :: words seps (tail rest).
Proof.
  induction w as [|c w IH]; intros cur rest Hw Hne Hr; simpl.
  - rewrite app_nil_r in *. destruct rest as [|c rest]; simpl; [by rewrite decide_False|].
    by rewrite decide_True, decide_False.
  - apply Forall_cons_1 in Hw as [Hc Hw]. rewrite decide_False by done. rewrite (IH (cur ++ [c])); [|done| |done].
    + by rewrite <- app_assoc.
    + rewrite <- app_assoc. intros E. by apply app_eq_nil in E as [_ ?].
Qed.

Lemma skip_loop_spec s seps ls b : str_at seps 0 ls -> forall l p fuel,
  str_at s p l -> (length l < fuel)%nat ->
  exists x y, l = x ++ y /\ Forall (fun c => bool_decide (c ∈ ls) = b) x /\
    match y with [] => True | c :: _ => bool_decide (c ∈ ls) <> b end /\
    skip_loop fuel b s seps p = Ok (p + Z.of_nat (length x)) /\ str_at s (p + Z.of_nat (length x)) y.
Proof.
  intros Hseps. induction l as [|c l IH]; intros p [|fuel] Hs Hf; simpl in Hf; try lia; cbn [skip_loop].
  - exists [], []. simpl. rewrite Z.add_0_r, (str_at_nil _ _ Hs), bind_Ok. by split_and!.
  - pose proof Hs as Hs0. apply str_at_cons in Hs0 as (-> & Hc & Hs1). rewrite bind_Ok. destruct (Z.eqb_spec c 0); [done|].
    rewrite (strchr_spec seps 0 ls c Hseps), bind_Ok.
    assert (bool_decide (is_Some ((fun i => 0 + Z.of_nat i) <$> first_char ls c)) = bool_decide (c ∈ ls)) as ->.
    { apply bool_decide_ext. rewrite fmap_is_Some. by apply first_char_Some. }
    destruct (eqb b (bool_decide (c ∈ ls))) eqn:Eb.
    + apply eqb_prop in Eb. destruct (IH (p + 1) fuel Hs1 ltac:(lia)) as (x & y & -> & Hx & Hy & -> & Hsy).
      exists (c :: x), y. replace (p + Z.of_nat (length (c :: x))) with (p + 1 + Z.of_nat (length x)) by (simpl; lia).
      split; [done|]. split; [by constructor|]. done.
    + apply eqb_false_iff in Eb. exists [], (c :: l). simpl. rewrite Z.add_0_r. by split_and!.
Qed.

(** Ending a word: the string before the 0 that is stored, and what follows. *)
Lemma str_at_split s p w c rest : str_at s p (w ++ c :: rest) ->
  let s' := <[Z.to_nat (p + Z.of_nat (length w)) := 0]> s in
  store s (p + Z.of_nat (length w)) 0 = Ok s' /\ length s' = length s /\
  str_at s' p w /\ str_at s' (p + Z.of_nat (length w) + 1) rest.
Proof.
  intros Hs s'. pose proof (str_at_length _ _ _ Hs) as Hl. rewrite length_app in Hl. simpl in Hl.
  destruct Hs as (Hp & H0 & tl & E). apply not_elem_of_app in H0 as [H1 H2]. apply not_elem_of_cons in H2 as [_ H2].
  rewrite store_in_range by lia. split; [done|]. split; [apply length_insert|].
  assert (drop (Z.to_nat p) s' = w ++ 0 :: rest ++ 0 :: tl) as E'.
  { unfold s'. replace (Z.to_nat (p + Z.of_nat (length w))) with (Z.to_nat p + length w)%nat by lia.
    rewrite drop_insert_ge by lia. replace (Z.to_nat p + length w - Z.to_nat p)%nat with (length w) by lia.
    rewrite E, <- app_assoc. rewrite <- (Nat.add_0_r (length w)) at 1. by rewrite insert_app_r. }
  split.
  - split; [done|]. split; [done|]. by exists (rest ++ 0 :: tl).
  - split; [lia|]. split; [done|]. exists tl.
    replace (Z.to_nat (p + Z.of_nat (length w) + 1)) with (Z.to_nat p + (length w + 1))%nat by lia.
    rewrite <- drop_drop, E', <- drop_drop, drop_app_length. done.
Qed.

Lemma strtok_r_spec s p seps ls l string context :
  str_at seps 0 ls -> str_at s p l ->
  match string with Some q => q = p | None => context = Some p end ->
  (words ls l = [] /\ strtok_r s string seps context = Ok (None, None, s)) \/
  (exists head w, l <> [] /\ words ls l = [w] /\ strtok_r s string seps context = Ok (Some head, None, s) /\ str_at s head w /\
     p <= head /\ head + Z.of_nat (length w) = p + Z.of_nat (length l)) \/
  (exists head tail w rest s', words ls l = w :: words ls rest /\ (length rest < length l)%nat /\
     strtok_r s string seps context = Ok (Some head, Some tail, s') /\ str_at s' head w /\ str_at s' tail rest /\
     p <= head /\ tail = head + Z.of_nat (length w) + 1 /\ tail + Z.of_nat (length rest) = p + Z.of_nat (length l) /\
     s' = <[Z.to_nat (head + Z.of_nat (length w)) := 0]> s).
Proof.
  intros Hseps Hs Hctx. unfold strtok_r.
  assert (match string with Some q => Some q | None => context end = Some p) as ->
    by (by destruct string; subst). pose proof (str_at_length _ _ _ Hs).
  destruct (skip_loop_spec s seps ls true Hseps l p (S (length s)) Hs) as (x & y & -> & Hx & Hy & -> & Hsy); [lia|].
  rewrite bind_Ok. rewrite words_skip by
    (apply Forall_forall; intros ? Hin; rewrite Forall_forall in Hx; by eapply bool_decide_eq_true, Hx).
  destruct y as [|c y]; [rewrite (str_at_nil _ _ Hsy), bind_Ok; by left|].
  pose proof Hsy as Hsy0. apply str_at_cons in Hsy0 as (-> & Hc & _). rewrite bind_Ok. destruct (Z.eqb_spec c 0); [done|].
  right. pose proof (str_at_length _ _ _ Hsy).
  destruct (skip_loop_spec s seps ls false Hseps _ _ (S (length s)) Hsy) as (w & z & E & Hw & Hz & -> & Hsz); [lia|].
  assert (w <> []) as Hne.
  { intros ->. simpl in E. subst z. apply Hz. apply not_true_is_false. exact Hy. }
  assert (words ls (c :: y) = w :: words ls (tail z)) as ->.
  { rewrite E. unfold words at 1. apply (words_from_word ls w []); [|done|].
    - apply Forall_forall. intros ? Hin. rewrite Forall_forall in Hw. by eapply bool_decide_eq_false, Hw.
    - destruct z as [|d z]; [done|]. apply not_false_iff_true in Hz. by apply bool_decide_eq_true in Hz. }
  rewrite bind_Ok. destruct z as [|d z].
  - left. rewrite (str_at_nil _ _ Hsz), bind_Ok. cbn [Z.eqb]. exists (p + Z.of_nat (length x)), w.
    rewrite app_nil_r in E. split; [by destruct x|]. split; [done|]. split; [done|]. rewrite <- E. split; [done|].
    rewrite length_app. lia.
  - right. apply str_at_cons in Hsz as (-> & Hd & _). rewrite bind_Ok. destruct (Z.eqb_spec d 0); [done|].
    rewrite E in Hsy. destruct (str_at_split _ _ _ _ _ Hsy) as (-> & _ & Hw' & Hz'). rewrite bind_Ok.
    do 4 eexists. eexists. split; [reflexivity|]. split; [rewrite E, !length_app; simpl; lia|].
    split; [reflexivity|]. split; [exact Hw'|]. split; [exact Hz'|]. rewrite length_app, E, length_app. simpl. repeat split; lia.
Qed.

Lemma strtok_all_spec seps ls : str_at seps 0 ls -> forall n l s p string context,
  (length l < n)%nat -> str_at s p l ->
  match string with Some q => q = p | None => context = Some p end ->
  strtok_all n s string seps context = Ok (words ls l).
Proof.
  intros Hseps. induction n as [|n IH]; intros l s p string context Hn Hs Hctx; [lia|]. cbn [strtok_all].
  destruct (strtok_r_spec s p seps ls l string context Hseps Hs Hctx)
    as [[-> ->]|[(h & w & Hne & -> & -> & Hw & _)|(h & t & w & rest & s' & -> & Hl & -> & Hw & Hr & _)]]; rewrite bind_Ok;
    [done| |].
  - destruct n as [|n]; [destruct l; [done|simpl in Hn; lia]|]. cbn. by rewrite (cstring_at _ _ _ Hw).
  - rewrite (IH rest s' t) by (done || lia). rewrite bind_Ok. by rewrite (cstring_at _ _ _ Hw).
Qed.

(** [strtok_r] splits a string into its words.  Calling it first with a
    string and then with NULL until it answers NULL ends after at most one
    call more than the string has characters, without leaving the buffer,
    and gives the words of the string in order: the maximal pieces without a
    separator. *)
Theorem strtok_words l rest seps seprest :
  (0 ∉ l) -> (0 ∉ seps) ->
  strtok_all (S (length l)) (l ++ 0 :: rest) (Some 0) (seps ++ 0 :: seprest) None = Ok (words seps l).
Proof.
  intros Hl Hs. apply (strtok_all_spec _ seps) with (p := 0); [by apply str_at_start|lia|by apply str_at_start|done].
Qed.

Lemma strtok_words_witness :
  strtok_all 8 ([32; 97; 98; 32; 32; 99; 32] ++ [0]) (Some 0) ([32; 9] ++ [0]) None = Ok [[97; 98]; [99]].
Proof.
  transitivity (Ok (words [32; 9] [32; 97; 98; 32; 32; 99; 32])); [|reflexivity].
  apply (strtok_words [32; 97; 98; 32; 32; 99; 32] [] [32; 9] []).
  - apply (bool_decide_unpack _). reflexivity.
  - apply (bool_decide_unpack _). reflexivity.
Defined.
