(* ===== verification/Printf.v ===== *)
(** * lib/libc/__printf.c and lib/libc/snprintf.c

    Formatted output.  A character is sent to a callback with a string and a
    length; the state of the callback is a parameter [C].  The arguments of
    a call are a list: numbers, and strings that may be NULL.  A string here
    is the list of its characters, without the terminating 0. *)
From stdpp Require Import base numbers list option.
From S2P Require Import Prelude Libc.
Local Open Scope Z_scope.

(** [USE_LONGLONG] is off: [INTTYPE] is [long], 32 bits. *)
Definition NUMBER_BUF_SIZE : Z := (4 * 8) / 3 + 2.

Inductive intsize : Type := INTSZ | LONGSZ.

(** What [va_arg] finds next. *)
Inductive arg : Type :=
| ArgInt (n : Z)
| ArgStr (s : option (list Z)).

Section printf.
Context {C : Type} (sendfunc : C -> list Z -> res C).

Record PF : Type := mk_PF {
  clientdata : C;
  ap : list arg;
  charcount : Z;
  in_pct : bool;
  pf_size : intsize;
  pf_num : Z;
  pf_sign : Z;
  spacing : Z;
  rightspc : bool;
  fillchar : Z;
  pf_base : Z;
  baseprefix : bool;
  altformat : bool;
}.

Implicit Types (pf : PF).

(** [txt] has the length that is passed along with it. *)
Definition __pf_print pf (txt : list Z) : res PF :=
  c ← sendfunc (clientdata pf) txt;
  Ok (mk_PF c (ap pf) (i32 (charcount pf + Z.of_nat (length txt))) (in_pct pf) (pf_size pf) (pf_num pf)
        (pf_sign pf) (spacing pf) (rightspc pf) (fillchar pf) (pf_base pf) (baseprefix pf) (altformat pf)).

Definition __pf_endfield pf : PF :=
  mk_PF (clientdata pf) (ap pf) (charcount pf) false INTSZ 0 0 0 false 32 0 false false.

Definition set_in_pct pf : PF :=
  mk_PF (clientdata pf) (ap pf) (charcount pf) true (pf_size pf) (pf_num pf) (pf_sign pf) (spacing pf)
    (rightspc pf) (fillchar pf) (pf_base pf) (baseprefix pf) (altformat pf).
Definition set_altformat pf : PF :=
  mk_PF (clientdata pf) (ap pf) (charcount pf) (in_pct pf) (pf_size pf) (pf_num pf) (pf_sign pf) (spacing pf)
    (rightspc pf) (fillchar pf) (pf_base pf) (baseprefix pf) true.
Definition set_rightspc pf : PF :=
  mk_PF (clientdata pf) (ap pf) (charcount pf) (in_pct pf) (pf_size pf) (pf_num pf) (pf_sign pf) (spacing pf)
    true (fillchar pf) (pf_base pf) (baseprefix pf) (altformat pf).
Definition set_longsz pf : PF :=
  mk_PF (clientdata pf) (ap pf) (charcount pf) (in_pct pf) LONGSZ (pf_num pf) (pf_sign pf) (spacing pf)
    (rightspc pf) (fillchar pf) (pf_base pf) (baseprefix pf) (altformat pf).
Definition set_spacing (n : Z) pf : PF :=
  mk_PF (clientdata pf) (ap pf) (charcount pf) (in_pct pf) (pf_size pf) (pf_num pf) (pf_sign pf) n
    (rightspc pf) (fillchar pf) (pf_base pf) (baseprefix pf) (altformat pf).
Definition set_fillchar (ch : Z) pf : PF :=
  mk_PF (clientdata pf) (ap pf) (charcount pf) (in_pct pf) (pf_size pf) (pf_num pf) (pf_sign pf) (spacing pf)
    (rightspc pf) ch (pf_base pf) (baseprefix pf) (altformat pf).
Definition set_num (n sign : Z) pf : PF :=
  mk_PF (clientdata pf) (ap pf) (charcount pf) (in_pct pf) (pf_size pf) n sign (spacing pf)
    (rightspc pf) (fillchar pf) (pf_base pf) (baseprefix pf) (altformat pf).
Definition set_base (b : Z) (prefix : bool) pf : PF :=
  mk_PF (clientdata pf) (ap pf) (charcount pf) (in_pct pf) (pf_size pf) (pf_num pf) (pf_sign pf) (spacing pf)
    (rightspc pf) (fillchar pf) b prefix (altformat pf).

(** [va_arg]; a missing argument, or one of another kind, is undefined. *)
Definition va_int pf : res (Z * PF) :=
  match ap pf with
  | ArgInt n :: l =>
      Ok (n, mk_PF (clientdata pf) l (charcount pf) (in_pct pf) (pf_size pf) (pf_num pf) (pf_sign pf) (spacing pf)
               (rightspc pf) (fillchar pf) (pf_base pf) (baseprefix pf) (altformat pf))
  | _ => Undef
  end.
Definition va_str pf : res (option (list Z) * PF) :=
  match ap pf with
  | ArgStr s :: l =>
      Ok (s, mk_PF (clientdata pf) l (charcount pf) (in_pct pf) (pf_size pf) (pf_num pf) (pf_sign pf) (spacing pf)
               (rightspc pf) (fillchar pf) (pf_base pf) (baseprefix pf) (altformat pf))
  | _ => Undef
  end.

(** '#' 35, '-' 45, 'l' 108, 'q' 113, '0' 48, '9' 57 *)
Definition __pf_modifier pf (ch : Z) : res PF :=
  if ch =? 35 then Ok (set_altformat pf)
  else if ch =? 45 then Ok (set_rightspc pf)
  else if ch =? 108 then Ok (match pf_size pf with LONGSZ => pf | INTSZ => set_longsz pf end)
  else if ch =? 113 then Ok (set_longsz pf)
  else if ch =? 48 then
    Ok (if spacing pf >? 0 then set_spacing (i32 (spacing pf * 10)) pf else set_fillchar 48 pf)
  else
    _ ← assert ((ch >? 48) && (ch <=? 57));
    Ok (set_spacing (i32 (i32 (spacing pf * 10) + (ch - 48))) pf).

(** 'p' 112, 'd' 100; [int] and [long] are the same size. *)
Definition __pf_getnum pf (ch : Z) : res PF :=
  '(n, pf) ← va_int pf;
  if ch =? 112 then Ok (set_num (u32 n) (pf_sign pf) pf)
  else if ch =? 100 then
    let signednum := i32 n in
    Ok (if signednum <? 0 then set_num (u32 (- signednum)) (-1) pf else set_num (u32 signednum) (pf_sign pf) pf)
  else Ok (set_num (u32 n) (pf_sign pf) pf).

(** 'd' 100, 'u' 117, 'x' 120, 'p' 112, 'o' 111 *)
Definition __pf_setbase pf (ch : Z) : PF :=
  let base := if (ch =? 100) || (ch =? 117) then 10
              else if (ch =? 120) || (ch =? 112) then 16
              else if ch =? 111 then 8 else pf_base pf in
  set_base base (if altformat pf || (ch =? 112) then true else baseprefix pf) pf.

Fixpoint fill_loop (n : nat) (f : Z) pf : res PF :=
  match n with
  | O => Ok pf
  | S n =>
      pf ← __pf_print pf [f];
      fill_loop n f pf
  end.
Definition __pf_fill pf (spc : Z) : res PF := fill_loop (Z.to_nat spc) (u8 (fillchar pf)) pf.

Definition __pf_printstuff pf (prefix prefix2 stuff : list Z) : res PF :=
  let len := Z.of_nat (length prefix) + Z.of_nat (length prefix2) + Z.of_nat (length stuff) in
  let spc := if spacing pf >? len then spacing pf - len else 0 in
  pf ← (if (spc >? 0) && negb (rightspc pf) && negb (fillchar pf =? 48) then __pf_fill pf spc else Ok pf);
  pf ← __pf_print pf prefix;
  pf ← __pf_print pf prefix2;
  pf ← (if (spc >? 0) && negb (rightspc pf) && (fillchar pf =? 48) then __pf_fill pf spc else Ok pf);
  pf ← __pf_print pf stuff;
  if (spc >? 0) && rightspc pf then __pf_fill pf spc else Ok pf.

(** "0123456789abcdef" *)
Definition digits16 : list Z := [48; 49; 50; 51; 52; 53; 54; 55; 56; 57; 97; 98; 99; 100; 101; 102; 0].

(** The loop of [__pf_printnum], which fills [buf] from the right; gives the
    buffer and [x].  Every round stores a digit in a different cell, so that
    as many rounds as there are cells are enough. *)
Fixpoint num_loop (rounds : nat) (buf : list Z) (x xnum base : Z) : res (list Z * Z) :=
  match rounds with
  | O => Fuel
  | S rounds =>
      c ← load digits16 (xnum `mod` base);
      buf ← store buf x c;
      let x := x - 1 in
      let xnum := xnum / base in
      if xnum >? 0 then num_loop rounds buf x xnum base else Ok (buf, x)
  end.

(** [buf] is what is on the stack. *)
Definition __pf_printnum (buf : list Z) pf : res PF :=
  let x := NUMBER_BUF_SIZE - 1 in
  buf ← store buf x 0;
  let x := x - 1 in
  '(buf, x) ← num_loop (Z.to_nat NUMBER_BUF_SIZE) buf x (pf_num pf) (pf_base pf);
  let x := x + 1 in
  let bprefix := if baseprefix pf && (pf_base pf =? 16) then [48; 120]
                 else if baseprefix pf && (pf_base pf =? 8) then [48] else [] in
  let sprefix := if negb (pf_sign pf =? 0) then [45] else [] in
  __pf_printstuff pf sprefix bprefix (cstring (drop (Z.to_nat x) buf)).

(** "#-ql0123456789" and "doupx" *)
Definition modifiers : list Z := [35; 45; 113; 108; 48; 49; 50; 51; 52; 53; 54; 55; 56; 57; 0].
Definition inttypes : list Z := [100; 111; 117; 112; 120; 0].

(** '%' 37, 's' 115, 'c' 99; "(null)" *)
Definition __pf_send (buf : list Z) pf (ch : Z) : res PF :=
  _ ← assert (negb (ch =? 0));
  if negb (in_pct pf) && negb (ch =? 37) then __pf_print pf [ch]
  else if negb (in_pct pf) then Ok (set_in_pct pf)
  else
    modifier ← strchr modifiers 0 ch;
    if bool_decide (is_Some modifier) then __pf_modifier pf ch
    else
      type ← strchr inttypes 0 ch;
      if bool_decide (is_Some type) then
        pf ← __pf_getnum pf ch;
        pf ← __pf_printnum buf (__pf_setbase pf ch);
        Ok (__pf_endfield pf)
      else if ch =? 115 then
        '(str, pf) ← va_str pf;
        pf ← __pf_printstuff pf [] [] (default [40; 110; 117; 108; 108; 41] str);
        Ok (__pf_endfield pf)
      else
        '(x, pf) ← (if ch =? 99 then '(c, pf) ← va_int pf; Ok (u8 c, pf) else Ok (ch, pf));
        pf ← __pf_printstuff pf [] [] (cstring [x; 0]);
        Ok (__pf_endfield pf).

(** The loop of [__vprintf] over the characters of the format. *)
Fixpoint send_loop (buf : list Z) pf (format : list Z) : res PF :=
  match format with
  | [] => Ok pf
  | ch :: format =>
      pf ← __pf_send buf pf ch;
      send_loop buf pf format
  end.

Definition __vprintf (buf : list Z) (c : C) (format : list Z) (args : list arg) : res (Z * C) :=
  let pf := __pf_endfield (mk_PF c args 0 false INTSZ 0 0 0 false 32 0 false false) in
  pf ← send_loop buf pf format;
  Ok (charcount pf, clientdata pf).
End printf.
Arguments PF C : clear implicits.

(** ** snprintf.c *)

Record SNP : Type := mk_SNP { snp_buf : list Z; snp_buflen : Z; snp_bufpos : Z }.

Fixpoint __snprintf_send (snp : SNP) (data : list Z) : res SNP :=
  match data with
  | [] => Ok snp
  | c :: data =>
      if snp_bufpos snp <? snp_buflen snp then
        buf ← store (snp_buf snp) (snp_bufpos snp) c;
        __snprintf_send (mk_SNP buf (snp_buflen snp) (snp_bufpos snp + 1)) data
      else __snprintf_send snp data
  end.

(** The number of characters and the buffer. *)
Definition vsnprintf (stack : list Z) (buf : list Z) (len : Z) (fmt : list Z) (args : list arg) : res (Z * list Z) :=
  let snp := mk_SNP buf (if len =? 0 then 0 else len - 1) 0 in
  '(chars, snp) ← __vprintf __snprintf_send stack snp fmt args;
  if len >? 0 then
    buf ← store (snp_buf snp) (snp_bufpos snp) 0;
    Ok (chars, buf)
  else Ok (chars, snp_buf snp).

Definition snprintf (stack : list Z) (buf : list Z) (len : Z) (fmt : list Z) (args : list arg) : res (Z * list Z) :=
  vsnprintf stack buf len fmt args.

(** "%d|%5u|%-4x|%s" of -7, 42, 255 and "ab" *)
Example snprintf_example :
  snprintf (replicate 12 7) (replicate 30 9) 30
    [37; 100; 124; 37; 53; 117; 124; 37; 45; 52; 120; 124; 37; 115] [ArgInt (-7); ArgInt 42; ArgInt 255; ArgStr (Some [97; 98])]
  = Ok (16, [45; 55; 124; 32; 32; 32; 52; 50; 124; 102; 102; 32; 32; 124; 97; 98; 0] ++ replicate 13 9).
Proof. vm_compute. reflexivity. Qed.

(** ** Numbers *)

(** The value of a digit character, and of a numeral. *)
Definition digit_val (c : Z) : Z := if c <=? 57 then c - 48 else c - 87.
Definition is_digit (base c : Z) : Prop := c <> 0 /\ 0 <= digit_val c < base.
Definition value (base : Z) (ds : list Z) : Z := foldl (fun v c => v * base + digit_val c) 0 ds.

Lemma value_snoc base ds c : value base (ds ++ [c]) = value base ds * base + digit_val c.
Proof. unfold value. by rewrite foldl_app. Qed.

Lemma digit_char v base : 0 <= v < base -> base <= 16 ->
  exists c, load digits16 v = Ok c /\ digit_val c = v /\ is_digit base c /\ (v < 10 -> c = 48 + v).
Proof.
  intros Hv Hb.
  assert (exists c, digits16 !! Z.to_nat v = Some c /\ digit_val c = v /\ c <> 0 /\ (v < 10 -> c = 48 + v)) as (c & Hc & Ev & H0 & Hd).
  { assert (Forall (fun k => exists c, digits16 !! k = Some c /\ digit_val c = Z.of_nat k /\ c <> 0 /\
                      (Z.of_nat k < 10 -> c = 48 + Z.of_nat k)) (seq 0 16)) as Hall.
    { repeat (constructor; [eexists; split; [reflexivity|split; [reflexivity|split; [discriminate|]]]; simpl; lia|]).
      constructor. }
    rewrite Forall_forall in Hall. destruct (Hall (Z.to_nat v)) as (c & ? & ? & ? & ?); [apply in_seq; lia|].
    exists c. split; [done|]. split; [lia|]. split; [done|]. lia. }
  exists c. split; [by apply load_Ok; [lia|]|]. split; [done|]. split; [|done]. split; [done|lia].
Qed.

Lemma splice_cons_front (M x y : list Z) d : (d + length y + length x <= length M)%nat ->
  splice (splice M (d + length y) x) d y = splice M d (y ++ x).
Proof.
  intros Hd. assert (length (splice M (d + length y) x) = length M) as L1 by (apply length_splice; lia).
  apply list_eq. intros i. rewrite !lookup_splice by (rewrite ?length_app; lia). rewrite length_app.
  repeat case_decide; try lia; try done.
  - by rewrite lookup_app_l by lia.
  - rewrite lookup_app_r by lia. f_equal. lia.
Qed.

(** The digits of [n], written so that the last one is in cell [x]. *)
Lemma num_loop_spec base rounds : 2 <= base <= 16 -> forall k buf x n,
  0 <= n < base ^ Z.of_nat k -> (0 < k <= rounds)%nat -> Z.of_nat k <= x + 1 -> x < Z.of_nat (length buf) ->
  exists ds, value base ds = n /\ Forall (is_digit base) ds /\ (0 < length ds <= k)%nat /\
    (base = 10 -> Forall (fun c => 48 <= c <= 57) ds) /\
    num_loop rounds buf x n base =
      Ok (splice buf (Z.to_nat (x + 1 - Z.of_nat (length ds))) ds, x - Z.of_nat (length ds)).
Proof.
  intros Hb. induction rounds as [|rounds IH]; intros k buf x n Hn Hk Hx Hl; [lia|]. cbn [num_loop].
  destruct (digit_char (n `mod` base) base) as (c & -> & Hv & Hc & Hd10); [apply Z.mod_pos_bound; lia|lia|].
  rewrite bind_Ok, store_splice, bind_Ok by lia. cbv zeta. rewrite Z.gtb_ltb.
  assert (base = 10 -> 48 <= c <= 57) as Hc10.
  { intros ->. pose proof (Z.mod_pos_bound n 10 ltac:(lia)). rewrite Hd10 by lia. lia. }
  destruct (Z.ltb_spec 0 (n / base)) as [Hpos|Hzero].
  - assert (exists j, k = S j) as [j ->] by (exists (pred k); lia).
    assert (0 < j)%nat as Hj.
    { destruct j; [|lia]. change (Z.of_nat 1) with 1 in Hn. rewrite Z.pow_1_r in Hn. rewrite Z.div_small in Hpos; lia. }
    destruct (IH j (splice buf (Z.to_nat x) [c]) (x - 1) (n / base)) as (ds & Hval & Hds & Hlen & H10 & ->).
    + rewrite Nat2Z.inj_succ, Z.pow_succ_r in Hn by lia. split; [dlia|]. apply Z.div_lt_upper_bound; lia.
    + lia.
    + lia.
    + rewrite length_splice by (simpl; lia). lia.
    + exists (ds ++ [c]). rewrite value_snoc, Hval, Hv, length_app. simpl length. split; [|split; [|split; [lia|split]]].
      * pose proof (Z.div_mod n base ltac:(lia)). lia.
      * apply Forall_app. split; [done|]. by constructor.
      * intros E. apply Forall_app. split; [by apply H10|]. constructor; [by apply Hc10|constructor].
      * f_equal. f_equal; [|lia].
        replace (Z.to_nat x) with (Z.to_nat (x - 1 + 1 - Z.of_nat (length ds)) + length ds)%nat by lia.
        rewrite splice_cons_front by (simpl; lia). f_equal. lia.
  - exists [c]. unfold value. simpl. rewrite Hv. split; [|split; [by constructor|split; [lia|split]]].
    + assert (n / base = 0) as E by (pose proof (Z.div_pos n base); lia).
      pose proof (Z.div_mod n base ltac:(lia)). lia.
    + intros E. constructor; [by apply Hc10|constructor].
    + f_equal. f_equal. f_equal. lia.
Qed.

Lemma cstring_nonzero l rest : Forall (fun c => c <> 0) l -> cstring (l ++ 0 :: rest) = l.
Proof.
  induction l as [|c l IH]; intros Hl; [done|]. apply Forall_cons_1 in Hl as [Hc Hl]. simpl.
  destruct (Z.eqb_spec c 0); [done|]. by rewrite IH.
Qed.

(** The text of a number: its prefixes and its digits; the buffer of
    [NUMBER_BUF_SIZE] characters is large enough. *)
Lemma printnum_text {C} (send : C -> list Z -> res C) stack (pf : PF C) :
  length stack = 12%nat -> (pf_base pf = 8 \/ pf_base pf = 10 \/ pf_base pf = 16) -> 0 <= pf_num pf < 4294967296 ->
  exists ds, value (pf_base pf) ds = pf_num pf /\ Forall (is_digit (pf_base pf)) ds /\
    (0 < length ds <= 11)%nat /\ (pf_base pf = 10 -> Forall (fun c => 48 <= c <= 57) ds) /\
    __pf_printnum send stack pf =
      __pf_printstuff send pf (if negb (pf_sign pf =? 0) then [45] else [])
        (if baseprefix pf && (pf_base pf =? 16) then [48; 120]
         else if baseprefix pf && (pf_base pf =? 8) then [48] else []) ds.
Proof.
  intros Hl Hb Hn. unfold __pf_printnum. change (NUMBER_BUF_SIZE - 1) with 11.
  change (Z.to_nat NUMBER_BUF_SIZE) with 12%nat. rewrite store_splice, bind_Ok by lia. cbv zeta.
  destruct (num_loop_spec (pf_base pf) 12 ltac:(lia) 11 (splice stack (Z.to_nat 11) [0]) (11 - 1) (pf_num pf))
    as (ds & Hv & Hds & Hlen & H10 & ->).
  - split; [lia|]. destruct Hb as [->|[->| ->]]; simpl; lia.
  - lia.
  - simpl; lia.
  - rewrite length_splice by (simpl; lia). lia.
  - exists ds. do 4 (split; [done|]). rewrite bind_Ok. f_equal.
    replace (Z.to_nat 11) with (Z.to_nat (11 - 1 + 1 - Z.of_nat (length ds)) + length ds)%nat by lia.
    rewrite splice_cons_front by (simpl; lia).
    replace (Z.to_nat (11 - 1 - Z.of_nat (length ds) + 1)) with (11 - length ds)%nat by lia.
    replace (Z.to_nat (11 - 1 + 1 - Z.of_nat (length ds))) with (11 - length ds)%nat by lia.
    unfold splice. rewrite drop_app_length' by (rewrite length_take; lia). rewrite <- app_assoc.
    apply cstring_nonzero. eapply Forall_impl; [|exact Hds]. by intros c [? _].
Qed.

(** ** What is printed does not depend on the callback *)

(** The callback that keeps everything. *)
Definition collect (out txt : list Z) : res (list Z) := Ok (out ++ txt).

Definition with_client {C1 C2} (c : C2) (pf : PF C1) : PF C2 :=
  mk_PF c (ap pf) (charcount pf) (in_pct pf) (pf_size pf) (pf_num pf) (pf_sign pf) (spacing pf)
    (rightspc pf) (fillchar pf) (pf_base pf) (baseprefix pf) (altformat pf).

Section sim.
Context {C : Type} (send : C -> list Z -> res C) (R : list Z -> C -> Prop).
Hypothesis send_R : forall out c txt, R out c -> exists c', send c txt = Ok c' /\ R (out ++ txt) c'.

(** The callback [send] succeeds when [collect] does, in related states. *)
Definition sim (r1 : res (PF (list Z))) (r2 : res (PF C)) : Prop :=
  forall pf, r1 = Ok pf -> exists c, r2 = Ok (with_client c pf) /\ R (clientdata pf) c.

Lemma sim_ret pf c : R (clientdata pf) c -> sim (Ok pf) (Ok (with_client c pf)).
Proof. intros HR pf' [= <-]. by exists c. Qed.

Lemma sim_bind r1 r2 k1 k2 :
  sim r1 r2 -> (forall pf c, R (clientdata pf) c -> sim (k1 pf) (k2 (with_client c pf))) ->
  sim (r1 ≫= k1) (r2 ≫= k2).
Proof.
  intros Hr Hk pf E. apply bind_Ok_inv in E as (pf1 & E1 & E). destruct (Hr pf1 E1) as (c & -> & HR).
  rewrite bind_Ok. by apply (Hk pf1 c).
Qed.

Lemma sim_print pf c txt : R (clientdata pf) c -> sim (__pf_print collect pf txt) (__pf_print send (with_client c pf) txt).
Proof.
  intros HR pf' E. destruct (send_R _ c txt HR) as (c' & Ec & HR'). unfold __pf_print, collect in *.
  rewrite bind_Ok in E. injection E as <-. cbn [with_client clientdata]. rewrite Ec, bind_Ok. by exists c'.
Qed.

Lemma sim_if (b : bool) r1 r2 r1' r2' :
  sim r1 r2 -> sim r1' r2' -> sim (if b then r1 else r1') (if b then r2 else r2').
Proof. by destruct b. Qed.

Lemma sim_fill n f : forall pf c, R (clientdata pf) c ->
  sim (fill_loop collect n f pf) (fill_loop send n f (with_client c pf)).
Proof.
  induction n as [|n IH]; intros pf c HR; cbn [fill_loop]; [by apply sim_ret|].
  apply sim_bind; [by apply sim_print|]. intros pf1 c1 HR1. by apply IH.
Qed.

Lemma sim_printstuff pf c p1 p2 s : R (clientdata pf) c ->
  sim (__pf_printstuff collect pf p1 p2 s) (__pf_printstuff send (with_client c pf) p1 p2 s).
Proof.
  intros HR. unfold __pf_printstuff, __pf_fill. cbv zeta. cbn [with_client spacing rightspc fillchar].
  apply sim_bind; [apply sim_if; [by apply sim_fill|by apply sim_ret]|]. intros pf1 c1 HR1.
  apply sim_bind; [by apply sim_print|]. intros pf2 c2 HR2.
  apply sim_bind; [by apply sim_print|]. intros pf3 c3 HR3.
  apply sim_bind; [apply sim_if; [by apply sim_fill|by apply sim_ret]|]. intros pf4 c4 HR4.
  apply sim_bind; [by apply sim_print|]. intros pf5 c5 HR5.
  apply sim_if; [by apply sim_fill|by apply sim_ret].
Qed.

Lemma sim_pure {A} (m : res A) k1 k2 : (forall a, sim (k1 a) (k2 a)) -> sim (m ≫= k1) (m ≫= k2).
Proof. intros Hk. destruct m; [by apply Hk|done..]. Qed.

Lemma sim_printnum stack pf c : R (clientdata pf) c ->
  sim (__pf_printnum collect stack pf) (__pf_printnum send stack (with_client c pf)).
Proof.
  intros HR. unfold __pf_printnum. cbv zeta. cbn [with_client pf_num pf_base pf_sign baseprefix].
  apply sim_pure. intros buf. apply sim_pure. intros [buf' x]. by apply sim_printstuff.
Qed.

(** Fetching an argument does not involve the callback. *)
Lemma sim_va_int {k1 : Z * PF (list Z) -> res (PF (list Z))} {k2 : Z * PF C -> res (PF C)} pf c :
  R (clientdata pf) c ->
  (forall n pf' , R (clientdata pf') c -> sim (k1 (n, pf')) (k2 (n, with_client c pf'))) ->
  sim (va_int pf ≫= k1) (va_int (with_client c pf) ≫= k2).
Proof.
  intros HR Hk. unfold va_int. cbn [with_client ap]. destruct (ap pf) as [|[n|s] l]; [done| |done].
  rewrite !bind_Ok. by apply (Hk n (mk_PF (clientdata pf) l _ _ _ _ _ _ _ _ _ _ _)).
Qed.

Lemma sim_send stack pf c ch : R (clientdata pf) c ->
  sim (__pf_send collect stack pf ch) (__pf_send send stack (with_client c pf) ch).
Proof.
  intros HR. unfold __pf_send. apply sim_pure. intros _. cbn [with_client in_pct].
  apply sim_if; [by apply sim_print|]. apply sim_if; [by apply (sim_ret (set_in_pct pf) c)|].
  apply sim_pure. intros md. apply sim_if.
  { unfold __pf_modifier. cbn [with_client pf_size spacing].
    apply sim_if; [by apply (sim_ret (set_altformat pf) c)|].
    apply sim_if; [by apply (sim_ret (set_rightspc pf) c)|].
    apply sim_if; [destruct (pf_size pf); [by apply (sim_ret (set_longsz pf) c)|by apply sim_ret]|].
    apply sim_if; [by apply (sim_ret (set_longsz pf) c)|].
    apply sim_if; [destruct (spacing pf >? 0); [by apply (sim_ret (set_spacing _ pf) c)|by apply (sim_ret (set_fillchar _ pf) c)]|].
    apply sim_pure. intros _. by apply (sim_ret (set_spacing _ pf) c). }
  apply sim_pure. intros ty. apply sim_if.
  { apply sim_bind with (r2 := __pf_getnum (with_client c pf) ch).
    - apply sim_va_int; [done|]. intros n pf' HR'. apply sim_if; [by apply (sim_ret (set_num _ _ pf') c)|].
      apply sim_if; [|by apply (sim_ret (set_num _ _ pf') c)].
      cbv zeta. destruct (i32 n <? 0); by apply (sim_ret (set_num _ _ pf') c).
    - intros pf1 c1 HR1. apply sim_bind; [by apply (sim_printnum stack (__pf_setbase pf1 ch))|].
      intros pf2 c2 HR2. by apply (sim_ret (__pf_endfield pf2)). }
  apply sim_if.
  { unfold va_str. cbn [with_client ap]. destruct (ap pf) as [|[n|s] l]; [done..|]. rewrite !bind_Ok.
    apply sim_bind; [by apply (sim_printstuff (mk_PF (clientdata pf) l _ _ _ _ _ _ _ _ _ _ _))|].
    intros pf2 c2 HR2. by apply (sim_ret (__pf_endfield pf2)). }
  destruct (ch =? 99).
  - unfold va_int. cbn [with_client ap]. destruct (ap pf) as [|[n|s] l]; [done| |done]. rewrite !bind_Ok.
    apply sim_bind; [by apply (sim_printstuff (mk_PF (clientdata pf) l _ _ _ _ _ _ _ _ _ _ _))|].
    intros pf2 c2 HR2. by apply (sim_ret (__pf_endfield pf2)).
  - rewrite !bind_Ok. apply sim_bind; [by apply sim_printstuff|].
    intros pf2 c2 HR2. by apply (sim_ret (__pf_endfield pf2)).
Qed.

Lemma sim_loop stack fmt : forall pf c, R (clientdata pf) c ->
  sim (send_loop collect stack pf fmt) (send_loop send stack (with_client c pf) fmt).
Proof.
  induction fmt as [|ch fmt IH]; intros pf c HR; cbn [send_loop]; [by apply sim_ret|].
  apply sim_bind; [by apply sim_send|]. intros pf1 c1 HR1. by apply IH.
Qed.

Lemma vprintf_sim stack c fmt args n out : R [] c ->
  __vprintf collect stack [] fmt args = Ok (n, out) ->
  exists c', __vprintf send stack c fmt args = Ok (n, c') /\ R out c'.
Proof.
  intros HR E. unfold __vprintf in *. cbv zeta in *. apply bind_Ok_inv in E as (pf & E & Ep). injection Ep as <- <-.
  destruct (sim_loop stack fmt (__pf_endfield (mk_PF [] args 0 false INTSZ 0 0 0 false 32 0 false false)) c HR pf E)
    as (c' & E' & HR').
  exists c'. split; [|done].
  change (__pf_endfield (mk_PF c args 0 false INTSZ 0 0 0 false 32 0 false false)) with
    (with_client c (__pf_endfield (mk_PF ([] : list Z) args 0 false INTSZ 0 0 0 false 32 0 false false))).
  by rewrite E', bind_Ok.
Qed.
End sim.

(** ** Fields *)

(** The state after [txt] has been printed. *)
Definition emit (txt : list Z) (pf : PF (list Z)) : PF (list Z) :=
  mk_PF (clientdata pf ++ txt) (ap pf) (i32 (charcount pf + Z.of_nat (length txt))) (in_pct pf) (pf_size pf)
    (pf_num pf) (pf_sign pf) (spacing pf) (rightspc pf) (fillchar pf) (pf_base pf) (baseprefix pf) (altformat pf).

Lemma i32_add a b : i32 (i32 a + b) = i32 (a + b).
Proof.
  unfold i32. f_equal. replace ((a + 2147483648) `mod` 4294967296 - 2147483648 + b + 2147483648)
    with ((a + 2147483648) `mod` 4294967296 + b) by lia.
  rewrite Zplus_mod_idemp_l. f_equal. lia.
Qed.

Lemma i32_i32 a : i32 (i32 a) = i32 a.
Proof. apply i32_small, i32_range. Qed.

Lemma emit_emit t1 t2 pf : emit t2 (emit t1 pf) = emit (t1 ++ t2) pf.
Proof.
  unfold emit; simpl. rewrite i32_add, length_app, <- app_assoc. f_equal. f_equal. lia.
Qed.

Lemma pf_print_emit pf txt : __pf_print collect pf txt = Ok (emit txt pf).
Proof. done. Qed.

Lemma fill_emit f : forall n pf, charcount pf = i32 (charcount pf) ->
  fill_loop collect n f pf = Ok (emit (replicate n f) pf).
Proof.
  induction n as [|n IH]; intros pf Hc; cbn [fill_loop].
  - unfold emit. simpl. rewrite app_nil_r, Z.add_0_r, <- Hc. by destruct pf.
  - rewrite pf_print_emit, bind_Ok, IH, emit_emit by (simpl; by rewrite i32_i32).
    done.
Qed.

(** A field: the prefixes and the text, padded to the width on one side. *)
Definition field_text (pf : PF (list Z)) (p1 p2 s : list Z) : list Z :=
  let pad := replicate (Z.to_nat (spacing pf - Z.of_nat (length (p1 ++ p2 ++ s)))) (u8 (fillchar pf)) in
  if rightspc pf then p1 ++ p2 ++ s ++ pad
  else if fillchar pf =? 48 then p1 ++ p2 ++ pad ++ s
  else pad ++ p1 ++ p2 ++ s.

Lemma emit_nil pf : charcount pf = i32 (charcount pf) -> emit [] pf = pf.
Proof. intros Hc. unfold emit. simpl. rewrite app_nil_r, Z.add_0_r, <- Hc. by destruct pf. Qed.

Lemma emit_counted txt pf : charcount (emit txt pf) = i32 (charcount (emit txt pf)).
Proof. simpl. by rewrite i32_i32. Qed.

Lemma printstuff_emit pf p1 p2 s : charcount pf = i32 (charcount pf) ->
  __pf_printstuff collect pf p1 p2 s = Ok (emit (field_text pf p1 p2 s) pf).
Proof.
  intros Hc. rewrite <- (emit_nil pf Hc) at 1. unfold __pf_printstuff, field_text, __pf_fill. cbv zeta.
  change (spacing (emit [] pf)) with (spacing pf).
  replace (Z.of_nat (length p1) + Z.of_nat (length p2) + Z.of_nat (length s))
    with (Z.of_nat (length (p1 ++ p2 ++ s))) by (rewrite !length_app; lia).
  set (len := Z.of_nat (length (p1 ++ p2 ++ s))). rewrite !Z.gtb_ltb.
  assert (forall f : Z, replicate (Z.to_nat (spacing pf - len)) f =
            if 0 <? (if len <? spacing pf then spacing pf - len else 0)
            then replicate (Z.to_nat (if len <? spacing pf then spacing pf - len else 0)) f else []) as Hpad.
  { intros f. destruct (Z.ltb_spec len (spacing pf)) as [Hlt|Hge].
    - destruct (Z.ltb_spec 0 (spacing pf - len)); [done|lia].
    - rewrite Z.ltb_irrefl. by replace (Z.to_nat (spacing pf - len)) with O by lia. }
  rewrite (Hpad (u8 (fillchar pf))). set (spc := if len <? spacing pf then spacing pf - len else 0).
  assert (forall t txt, __pf_print collect (emit t pf) txt = Ok (emit (t ++ txt) pf)) as Hp
    by (intros; rewrite pf_print_emit; by rewrite emit_emit).
  assert (forall t n f, fill_loop collect n f (emit t pf) = Ok (emit (t ++ replicate n f) pf)) as Hfill
    by (intros; rewrite fill_emit by apply emit_counted; by rewrite emit_emit).
  assert (forall t, rightspc (emit t pf) = rightspc pf /\ fillchar (emit t pf) = fillchar pf) as Hsame by done.
  rewrite Hfill, (proj1 (Hsame [])), (proj2 (Hsame [])).
  destruct (0 <? spc), (rightspc pf) eqn:Er, (fillchar pf =? 48) eqn:Ef; cbn [andb negb];
    repeat first [rewrite bind_Ok | rewrite Hp | rewrite Hfill | rewrite (proj1 (Hsame _)) | rewrite (proj2 (Hsame _))
                 | rewrite Er | rewrite Ef | progress (cbn [andb negb])];
    do 2 f_equal; by rewrite <- ?app_assoc, ?app_nil_r.
Qed.

(** ** Formats and their arguments *)

Inductive kind : Type := KInt | KStr.

Definition has_kind (k : kind) (a : arg) : Prop :=
  match k, a with KInt, ArgInt _ | KStr, ArgStr _ => True | _, _ => False end.

Definition is_modifier (ch : Z) : bool := bool_decide (ch ∈ [35; 45; 113; 108; 48; 49; 50; 51; 52; 53; 54; 55; 56; 57]).
Definition is_inttype (ch : Z) : bool := bool_decide (ch ∈ [100; 111; 117; 112; 120]).

(** The arguments that the rest of a format wants; [pct] says whether it
    starts inside a conversion. *)
Fixpoint wants (pct : bool) (fmt : list Z) : list kind :=
  match fmt with
  | [] => []
  | ch :: fmt =>
      if negb pct then wants (ch =? 37) fmt
      else if is_modifier ch then wants true fmt
      else if is_inttype ch then KInt :: wants false fmt
      else if ch =? 115 then KStr :: wants false fmt
      else if ch =? 99 then KInt :: wants false fmt
      else wants false fmt
  end.

(** The first arguments are of the kinds wanted. *)
Definition args_fit (ks : list kind) (args : list arg) : Prop :=
  exists extra rest, args = rest ++ extra /\ Forall2 has_kind ks rest.

Lemma args_fit_cons k ks args : args_fit (k :: ks) args ->
  exists a args', args = a :: args' /\ has_kind k a /\ args_fit ks args'.
Proof.
  intros (extra & rest & -> & H). apply Forall2_cons_inv_l in H as (a & rest' & Ha & H & ->).
  exists a, (rest' ++ extra). split; [done|]. split; [done|]. by exists extra, rest'.
Qed.

Lemma strchr_member s l ch : str_at s 0 l -> ch <> 0 ->
  exists r, strchr s 0 ch = Ok r /\ bool_decide (is_Some r) = bool_decide (ch ∈ l).
Proof.
  intros Hs Hch. rewrite (strchr_spec s 0 l ch Hs). eexists. split; [done|]. apply bool_decide_ext.
  rewrite fmap_is_Some. by apply first_char_Some.
Qed.

Lemma modifiers_str : str_at modifiers 0 [35; 45; 113; 108; 48; 49; 50; 51; 52; 53; 54; 55; 56; 57].
Proof. split; [done|]. split; [apply (bool_decide_unpack _); reflexivity|]. by exists []. Qed.
Lemma inttypes_str : str_at inttypes 0 [100; 111; 117; 112; 120].
Proof. split; [done|]. split; [apply (bool_decide_unpack _); reflexivity|]. by exists []. Qed.

(** The count is the number of characters printed. *)
Definition counted (pf : PF (list Z)) : Prop := charcount pf = i32 (Z.of_nat (length (clientdata pf))).

Lemma counted_i32 pf : counted pf -> charcount pf = i32 (charcount pf).
Proof. intros ->. by rewrite i32_i32. Qed.

Lemma counted_emit txt pf : counted pf -> counted (emit txt pf).
Proof. unfold counted. simpl. intros ->. rewrite i32_add, length_app. f_equal. lia. Qed.

Lemma modifier_total (pf : PF (list Z)) ch : is_modifier ch = true ->
  exists pf', __pf_modifier pf ch = Ok pf' /\ clientdata pf' = clientdata pf /\ charcount pf' = charcount pf /\
    ap pf' = ap pf /\ in_pct pf' = in_pct pf.
Proof.
  intros Hm. unfold __pf_modifier.
  destruct (Z.eqb_spec ch 35); [by eexists|]. destruct (Z.eqb_spec ch 45); [by eexists|].
  destruct (Z.eqb_spec ch 108); [destruct (pf_size pf); by eexists|]. destruct (Z.eqb_spec ch 113); [by eexists|].
  destruct (Z.eqb_spec ch 48); [destruct (spacing pf >? 0); by eexists|].
  apply bool_decide_eq_true in Hm. rewrite (assert_true _); [rewrite bind_Ok; by eexists|].
  repeat (apply elem_of_cons in Hm as [->|Hm]; [done|]). by apply not_elem_of_nil in Hm.
Qed.

(** Printing a field and ending it. *)
Lemma endfield_total pf p1 p2 s fmt : counted pf -> args_fit (wants false fmt) (ap pf) ->
  exists pf', (pf ← __pf_printstuff collect pf p1 p2 s; Ok (__pf_endfield pf)) = Ok pf' /\ counted pf' /\
    args_fit (wants (in_pct pf') fmt) (ap pf').
Proof.
  intros Hc Ha. rewrite printstuff_emit, bind_Ok by (by apply counted_i32). eexists. split; [reflexivity|].
  split; [by apply (counted_emit _ pf)|done].
Qed.

Definition set_ap (args : list arg) (pf : PF (list Z)) : PF (list Z) :=
  mk_PF (clientdata pf) args (charcount pf) (in_pct pf) (pf_size pf) (pf_num pf) (pf_sign pf) (spacing pf)
    (rightspc pf) (fillchar pf) (pf_base pf) (baseprefix pf) (altformat pf).

Lemma getnum_total pf ch n args : ap pf = ArgInt n :: args ->
  exists z sg, 0 <= z < 4294967296 /\ __pf_getnum pf ch = Ok (set_num z sg (set_ap args pf)).
Proof.
  intros Hap. unfold __pf_getnum, va_int. rewrite Hap, bind_Ok.
  destruct (ch =? 112); [|destruct (ch =? 100); [cbv zeta; destruct (i32 n <? 0)|]];
    do 2 eexists; (split; [|reflexivity]); apply u32_range.
Qed.

Lemma number_total stack pf ch fmt n args : length stack = 12%nat -> is_inttype ch = true ->
  counted pf -> ap pf = ArgInt n :: args -> args_fit (wants false fmt) args ->
  exists pf', (pf ← __pf_getnum pf ch; pf ← __pf_printnum collect stack (__pf_setbase pf ch); Ok (__pf_endfield pf)) =
      Ok pf' /\ counted pf' /\ args_fit (wants (in_pct pf') fmt) (ap pf').
Proof.
  intros Hst Hty Hc Hap Ha. destruct (getnum_total pf ch n args Hap) as (z & sg & Hz & ->).
  set (pf1 := set_ap args pf).
  rewrite bind_Ok. destruct (printnum_text collect stack (__pf_setbase (set_num z sg pf1) ch)) as (ds & _ & _ & _ & _ & ->).
  - done.
  - unfold __pf_setbase. cbn [set_base pf_base]. unfold is_inttype in Hty. apply bool_decide_eq_true in Hty.
    repeat (apply elem_of_cons in Hty as [->|Hty]; [simpl; lia|]). by apply not_elem_of_nil in Hty.
  - done.
  - by apply endfield_total.
Qed.

Lemma send_total stack pf ch fmt : length stack = 12%nat -> ch <> 0 -> counted pf ->
  args_fit (wants (in_pct pf) (ch :: fmt)) (ap pf) ->
  exists pf', __pf_send collect stack pf ch = Ok pf' /\ counted pf' /\ args_fit (wants (in_pct pf') fmt) (ap pf').
Proof.
  intros Hst Hch Hc Ha. unfold __pf_send. rewrite assert_true, bind_Ok by (by apply negb_true_iff, Z.eqb_neq).
  cbn [wants] in Ha. destruct (in_pct pf) eqn:Ep; cbn [negb andb] in *.
  2:{ destruct (Z.eqb_spec ch 37) as [->|Hne]; cbn [negb].
      - eexists. split; [reflexivity|]. by split.
      - eexists. split; [apply pf_print_emit|]. split; [by apply counted_emit|]. simpl. by rewrite Ep. }
  destruct (strchr_member _ _ ch modifiers_str Hch) as (r & -> & Er). rewrite bind_Ok, Er.
  fold (is_modifier ch). destruct (is_modifier ch) eqn:Em.
  { destruct (modifier_total pf ch Em) as (pf' & -> & E1 & E2 & E3 & E4). exists pf'. split; [done|].
    unfold counted. by rewrite E1, E2, E3, E4, Ep. }
  destruct (strchr_member _ _ ch inttypes_str Hch) as (r' & -> & Er'). rewrite bind_Ok, Er'.
  fold (is_inttype ch). destruct (is_inttype ch) eqn:Ei.
  { apply args_fit_cons in Ha as ([n|] & args & Hap & Hk & Ha); [|done]. by eapply number_total. }
  destruct (Z.eqb_spec ch 115) as [->|Hs].
  { apply args_fit_cons in Ha as ([|s] & args & Hap & Hk & Ha); [done|]. unfold va_str. rewrite Hap, bind_Ok.
    by apply endfield_total. }
  destruct (Z.eqb_spec ch 99) as [->|Hcc].
  - apply args_fit_cons in Ha as ([n|] & args & Hap & Hk & Ha); [|done]. unfold va_int. rewrite Hap, !bind_Ok.
    by apply endfield_total.
  - rewrite bind_Ok. by apply endfield_total.
Qed.

Lemma loop_total stack : length stack = 12%nat -> forall fmt pf, (0 ∉ fmt) -> counted pf ->
  args_fit (wants (in_pct pf) fmt) (ap pf) ->
  exists pf', send_loop collect stack pf fmt = Ok pf' /\ counted pf'.
Proof.
  intros Hst. induction fmt as [|ch fmt IH]; intros pf H0 Hc Ha; cbn [send_loop]; [by exists pf|].
  apply not_elem_of_cons in H0 as [Hch H0].
  destruct (send_total stack pf ch fmt Hst ltac:(congruence) Hc Ha) as (pf1 & -> & Hc1 & Ha1). rewrite bind_Ok.
  by apply IH.
Qed.

Lemma vprintf_total stack fmt args : length stack = 12%nat -> (0 ∉ fmt) -> args_fit (wants false fmt) args ->
  exists out, __vprintf collect stack [] fmt args = Ok (i32 (Z.of_nat (length out)), out).
Proof.
  intros Hst H0 Ha. unfold __vprintf. cbv zeta.
  destruct (loop_total stack Hst fmt (__pf_endfield (mk_PF [] args 0 false INTSZ 0 0 0 false 32 0 false false)) H0)
    as (pf & -> & Hc); [done|done|].
  rewrite bind_Ok. exists (clientdata pf). by rewrite Hc.
Qed.

(** ** snprintf *)

Section snp.
Variables (buf : list Z) (lim : Z).
Hypothesis lim_fits : 0 <= lim <= Z.of_nat (length buf).

(** The buffer after [out] has been sent: as much of it as there is room for. *)
Definition snp_holds (out : list Z) (snp : SNP) : Prop :=
  snp = mk_SNP (splice buf 0 (take (Z.to_nat lim) out)) lim (Z.min lim (Z.of_nat (length out))).

Lemma snprintf_send_holds txt : forall out snp, snp_holds out snp ->
  exists snp', __snprintf_send snp txt = Ok snp' /\ snp_holds (out ++ txt) snp'.
Proof.
  induction txt as [|c txt IH]; intros out snp ->; cbn [__snprintf_send snp_bufpos snp_buflen snp_buf].
  { eexists. split; [done|]. by rewrite app_nil_r. }
  replace (out ++ c :: txt) with ((out ++ [c]) ++ txt) by (by rewrite <- app_assoc).
  assert (length (take (Z.to_nat lim) out) = Z.to_nat (Z.min lim (Z.of_nat (length out)))) as Hl
    by (rewrite length_take; lia).
  destruct (Z.ltb_spec (Z.min lim (Z.of_nat (length out))) lim) as [Hlt|Hge].
  - rewrite take_ge in Hl |- * by lia.
    rewrite store_splice, bind_Ok by (rewrite length_splice by lia; lia). rewrite <- Hl.
    change (length out) with (0 + length out)%nat at 1. rewrite splice_snoc by (simpl; lia). apply IH. unfold snp_holds.
    rewrite take_ge, length_app by (rewrite length_app; simpl; lia). f_equal. simpl. lia.
  - apply IH. unfold snp_holds. rewrite take_app_le, length_app by lia. f_equal. simpl. lia.
Qed.
End snp.

(** What [snprintf] stores. *)
Lemma snprintf_spec stack buf len fmt args :
  length stack = 12%nat -> 0 <= len <= Z.of_nat (length buf) -> (0 ∉ fmt) -> args_fit (wants false fmt) args ->
  exists out, __vprintf collect stack [] fmt args = Ok (i32 (Z.of_nat (length out)), out) /\
    snprintf stack buf len fmt args =
      Ok (i32 (Z.of_nat (length out)),
          if len =? 0 then buf else splice buf 0 (take (Z.to_nat (len - 1)) out ++ [0])).
Proof.
  intros Hst Hlen H0 Ha. destruct (vprintf_total stack fmt args Hst H0 Ha) as (out & E). exists out. split; [done|].
  unfold snprintf, vsnprintf. cbv zeta. set (lim := if len =? 0 then 0 else len - 1).
  assert (0 <= lim <= Z.of_nat (length buf)) as Hlim by (unfold lim; destruct (Z.eqb_spec len 0); lia).
  destruct (vprintf_sim __snprintf_send (snp_holds buf lim) (fun out snp txt => snprintf_send_holds buf lim Hlim txt out snp)
              stack (mk_SNP buf lim 0) fmt args (i32 (Z.of_nat (length out))) out) as (snp & -> & ->); [|exact E|].
  { unfold snp_holds. rewrite take_nil, splice_nil. f_equal. simpl. lia. }
  rewrite bind_Ok. cbn [snp_buf snp_bufpos]. rewrite Z.gtb_ltb. subst lim.
  destruct (Z.eqb_spec len 0) as [->|Hne].
  - rewrite Z.ltb_irrefl. change (take (Z.to_nat 0) out) with (@nil Z). by rewrite splice_nil.
  - destruct (Z.ltb_spec 0 len); [|lia].
    assert (length (take (Z.to_nat (len - 1)) out) = Z.to_nat (Z.min (len - 1) (Z.of_nat (length out)))) as Hl
      by (rewrite length_take; lia).
    rewrite store_splice, bind_Ok by (rewrite length_splice by lia; lia). rewrite <- Hl.
    set (t := take _ out) in *. change (length t) with (0 + length t)%nat. by rewrite splice_snoc by (simpl; lia).
Qed.

(** C33. [snprintf] stays inside its buffer and stores what is printed.  For a
    format and arguments of the kinds it asks for, printing succeeds, the
    buffer for numbers included; [snprintf] stores the beginning of the text
    that printing produces, as many characters as [len] leaves room for, and
    a 0 after them; it leaves the rest of the buffer alone, and returns the
    length of the whole text. *)
Theorem snprintf_exact stack buf len fmt args :
  length stack = 12%nat -> 0 <= len <= Z.of_nat (length buf) -> (0 ∉ fmt) -> args_fit (wants false fmt) args ->
  exists out, __vprintf collect stack [] fmt args = Ok (i32 (Z.of_nat (length out)), out) /\
    snprintf stack buf len fmt args =
      Ok (i32 (Z.of_nat (length out)),
          if len =? 0 then buf else splice buf 0 (take (Z.to_nat (len - 1)) out ++ [0])).
Proof. apply snprintf_spec. Qed.

(** "%5d" into a buffer of four characters. *)
Lemma snprintf_exact_witness :
  exists out, __vprintf collect (replicate 12 0) [] [37; 53; 100] [ArgInt 42] = Ok (i32 (Z.of_nat (length out)), out) /\
    snprintf (replicate 12 0) (replicate 9 1) 4 [37; 53; 100] [ArgInt 42] =
      Ok (i32 (Z.of_nat (length out)), splice (replicate 9 1) 0 (take 3 out ++ [0])).
Proof.
  apply (snprintf_exact (replicate 12 0) (replicate 9 1) 4 [37; 53; 100] [ArgInt 42]).
  - reflexivity.
  - simpl. lia.
  - apply (bool_decide_unpack _). reflexivity.
  - exists [], [ArgInt 42]. split; [reflexivity|]. repeat constructor.
Defined.

(** ** Decimal numbers and back *)

Lemma decimal_text stack n : length stack = 12%nat -> -2147483648 <= n < 2147483648 ->
  exists ds, value 10 ds = Z.abs n /\ (0 < length ds <= 11)%nat /\ Forall (fun c => 48 <= c <= 57) ds /\
    exists k, __vprintf collect stack [] [37; 100] [ArgInt n] = Ok (k, (if n <? 0 then [45] else []) ++ ds).
Proof.
  intros Hst Hn. unfold __vprintf. cbv zeta. cbn [send_loop].
  set (pf0 := __pf_endfield _).
  change (__pf_send collect stack pf0 37) with (Ok (set_in_pct pf0)). rewrite bind_Ok.
  assert (exists z sg, z = Z.abs n /\ sg = (if n <? 0 then -1 else 0) /\
    __pf_send collect stack (set_in_pct pf0) 100 =
      (pf ← __pf_printnum collect stack (__pf_setbase (set_num z sg (set_ap [] (set_in_pct pf0))) 100); Ok (__pf_endfield pf)))
    as (z & sg & Ez & Esg & ->).
  { unfold __pf_send. change (strchr modifiers 0 100) with (@Ok (option Z) None).
    change (strchr inttypes 0 100) with (Ok (Some 0)). cbn [assert Z.eqb negb andb set_in_pct in_pct].
    rewrite !bind_Ok. cbn -[__pf_printnum i32 u32 __pf_setbase]. rewrite (i32_small n) by lia.
    destruct (Z.ltb_spec n 0).
    - exists (u32 (- n)), (-1). split; [rewrite u32_small; lia|]. by split.
    - exists (u32 n), 0. split; [rewrite u32_small; lia|]. by split. }
  destruct (printnum_text collect stack (__pf_setbase (set_num z sg (set_ap [] (set_in_pct pf0))) 100))
    as (ds & Hv & _ & Hl & Hd & ->); [done|by right; left|simpl; lia|].
  exists ds. simpl in Hv. rewrite Hv. split; [done|]. split; [done|]. split; [by apply Hd|].
  rewrite printstuff_emit, bind_Ok by done. rewrite bind_Ok. eexists. f_equal. f_equal.
  unfold field_text. cbn [clientdata emit __pf_endfield __pf_setbase set_base set_num set_ap set_in_pct spacing rightspc
    fillchar pf0 pf_sign baseprefix pf_base andb altformat orb Z.eqb Pos.eqb]. rewrite Esg.
  replace (Z.to_nat _) with O by lia. simpl. by destruct (n <? 0).
Qed.

Lemma strchr_digit c : 48 <= c <= 57 -> strchr digits10 0 c = Ok (Some (c - 48)).
Proof.
  intros Hc. assert (exists k, In k (seq 0 10) /\ c = 48 + Z.of_nat k) as (k & Hk & ->).
  { exists (Z.to_nat (c - 48)). split; [apply in_seq; lia|lia]. }
  repeat (destruct Hk as [<-|Hk]; [reflexivity|]). destruct Hk.
Qed.

Lemma u32_step v d : u32 (u32 (u32 v * 10) + d) = u32 (v * 10 + d).
Proof. unfold u32. rewrite Zplus_mod_idemp_l, <- (Zplus_mod_idemp_l (v `mod` _ * 10)), Zmult_mod_idemp_l, Zplus_mod_idemp_l. done. Qed.

Lemma atoi_loop_spec s ds : forall p val fuel, str_at s p ds -> Forall (fun c => 48 <= c <= 57) ds ->
  (length ds < fuel)%nat ->
  atoi_loop fuel s p (u32 val) = Ok (u32 (foldl (fun v c => v * 10 + digit_val c) val ds)).
Proof.
  induction ds as [|c ds IH]; intros p val [|fuel] Hs Hd Hf; simpl in Hf; try lia; cbn [atoi_loop].
  - by rewrite (str_at_nil _ _ Hs), bind_Ok.
  - apply str_at_cons in Hs as (-> & Hc & Hs). apply Forall_cons_1 in Hd as [Hc' Hd]. rewrite bind_Ok.
    destruct (Z.eqb_spec c 0); [done|]. rewrite strchr_digit, bind_Ok, u32_step by done.
    rewrite IH by (done || lia). do 2 f_equal. cbn [foldl]. f_equal. unfold digit_val.
    destruct (Z.leb_spec c 57); lia.
Qed.

Lemma str_at_app s p a b : str_at s p (a ++ b) -> str_at s (p + Z.of_nat (length a)) b.
Proof.
  revert p. induction a as [|c a IH]; intros p Hs; [by rewrite Z.add_0_r|].
  apply str_at_cons in Hs as (_ & _ & Hs). apply IH in Hs. simpl length. by replace (p + Z.of_nat (S (length a))) with (p + 1 + Z.of_nat (length a)) by lia.
Qed.

Lemma atoi_spec s n ds : -2147483648 <= n < 2147483648 ->
  value 10 ds = Z.abs n -> ds <> [] -> Forall (fun c => 48 <= c <= 57) ds ->
  str_at s 0 ((if n <? 0 then [45] else []) ++ ds) -> atoi s = Ok n.
Proof.
  intros Hn Hv Hne Hd Hs. pose proof (str_at_length _ _ _ Hs) as Hl. rewrite length_app in Hl.
  destruct ds as [|d ds]; [done|]. pose proof Hd as Hd0. apply Forall_cons_1 in Hd0 as [Hd0 _].
  assert (exists c, load s 0 = Ok c /\ c = (if n <? 0 then 45 else d)) as (c & Hc & Ec).
  { destruct (n <? 0); simpl in Hs; apply str_at_cons in Hs as (Hc & _); by eexists. }
  unfold atoi. cbn [atoi_space]. rewrite Hc, !bind_Ok.
  destruct (Z.eqb_spec c 32) as [->|_]; [destruct (n <? 0); lia|].
  destruct (Z.eqb_spec c 9) as [->|_]; [destruct (n <? 0); lia|]. cbn [orb]. rewrite bind_Ok, Hc, bind_Ok.
  assert (forall p, str_at s p (d :: ds) -> (Z.to_nat p + S (length ds) < length s)%nat ->
            atoi_loop (S (length s)) s p 0 = Ok (Z.abs n)) as Hloop.
  { intros p Hp Hlp. change 0 with (u32 0) at 1. rewrite (atoi_loop_spec s (d :: ds)) by (done || simpl; lia).
    unfold value in Hv. rewrite Hv. by rewrite u32_small by lia. }
  destruct (Z.ltb_spec n 0) as [Hneg|Hpos]; subst c.
  - cbn [Z.eqb Pos.eqb]. apply (str_at_app s 0 [45]) in Hs. simpl in Hs, Hl. rewrite Hloop, bind_Ok by (done || simpl; lia).
    f_equal. unfold u32, i32. Z.to_euclidean_division_equations. lia.
  - destruct (Z.eqb_spec d 45); [lia|]. simpl in Hs, Hl. rewrite Hloop, bind_Ok by (done || simpl; lia).
    f_equal. rewrite i32_small; lia.
Qed.

(** Numbers survive being printed and parsed.  Printing any [int] with
    [snprintf] and "%d" into a buffer of at least 13 characters and reading
    the result with [atoi] gives the number back, the most negative one
    included. *)
Theorem printf_atoi_roundtrip stack buf n :
  length stack = 12%nat -> (13 <= length buf)%nat -> -2147483648 <= n < 2147483648 ->
  exists k buf', snprintf stack buf (Z.of_nat (length buf)) [37; 100] [ArgInt n] = Ok (k, buf') /\
    atoi buf' = Ok n.
Proof.
  intros Hst Hb Hn. destruct (decimal_text stack n Hst Hn) as (ds & Hv & Hl & Hd & k & E).
  set (out := (if n <? 0 then [45] else []) ++ ds) in *.
  assert (length out <= 12)%nat as Hlo by (unfold out; rewrite length_app; destruct (n <? 0); simpl; lia).
  set (lim := Z.of_nat (length buf) - 1).
  assert (0 <= lim <= Z.of_nat (length buf)) as Hlim by (unfold lim; lia).
  unfold snprintf, vsnprintf. cbv zeta. destruct (Z.eqb_spec (Z.of_nat (length buf)) 0); [lia|]. fold lim.
  destruct (vprintf_sim __snprintf_send (snp_holds buf lim) (fun out snp txt => snprintf_send_holds buf lim Hlim txt out snp)
              stack (mk_SNP buf lim 0) [37; 100] [ArgInt n] k out) as (snp & -> & ->); [|exact E|].
  { unfold snp_holds. rewrite take_nil, splice_nil. f_equal. simpl. lia. }
  rewrite bind_Ok. cbn [snp_buf snp_bufpos]. rewrite Z.gtb_ltb. destruct (Z.ltb_spec 0 (Z.of_nat (length buf))); [|lia].
  rewrite take_ge by lia. rewrite Z.min_r by lia.
  rewrite store_splice, bind_Ok by (rewrite length_splice by lia; lia). do 2 eexists. split; [reflexivity|].
  rewrite Nat2Z.id. change (length out) with (0 + length out)%nat. rewrite splice_snoc by (simpl; lia).
  apply (atoi_spec _ n ds); [done|done|by intros ->; simpl in Hl; lia|done|]. fold out.
  unfold splice. rewrite take_0, app_nil_l, <- app_assoc. apply str_at_start. unfold out.
  intros [Hin|Hin]%elem_of_app.
  - destruct (n <? 0); [apply list_elem_of_singleton in Hin; lia|by apply not_elem_of_nil in Hin].
  - rewrite Forall_forall in Hd. apply list_elem_of_In in Hin. specialize (Hd 0 Hin). simpl in Hd. lia.
Qed.

Lemma printf_atoi_roundtrip_witness :
  exists k buf', snprintf (replicate 12 0) (replicate 13 7) 13 [37; 100] [ArgInt (-2147483648)] = Ok (k, buf') /\
    atoi buf' = Ok (-2147483648).
Proof.
  apply (printf_atoi_roundtrip (replicate 12 0) (replicate 13 7) (-2147483648)); [reflexivity|simpl; lia|lia].
Defined.
