(* ===== verification/Ram.v ===== *)
(** * kern/arch/mips/mips/ram.c and the page allocator of dumbvm.c

    Physical memory before there is a virtual memory system, the kernel pages
    [kmalloc] gets from it, and the promise of a page allocator to its
    clients.  MIPS memory is direct-mapped for the kernel at [MIPS_KSEG0]. *)
From stdpp Require Import base numbers list option gmap.
From S2P Require Import Prelude.
Local Open Scope Z_scope.

Definition PAGE_SIZE : Z := 4096.
Definition PAGE_FRAME : Z := 0xfffff000.
Definition MIPS_KSEG0 : Z := 0x80000000.
Definition PADDR_TO_KVADDR (paddr : Z) : Z := u32 (paddr + MIPS_KSEG0).

(** [x & PAGE_FRAME] clears the offset in the page, [x & ~PAGE_FRAME] keeps it. *)
Lemma land_frame a : 0 <= a < 2 ^ 32 -> Z.land a PAGE_FRAME = a - a `mod` PAGE_SIZE.
Proof.
  intros Ha. replace (a - a `mod` PAGE_SIZE) with (Z.shiftl (Z.shiftr a 12) 12).
  2:{ rewrite Z.shiftl_mul_pow2, Z.shiftr_div_pow2 by lia. unfold PAGE_SIZE. change (2 ^ 12) with 4096. dlia. }
  rewrite <- Z.ldiff_ones_r by lia. apply Z.bits_inj'. intros i Hi.
  rewrite Z.land_spec, Z.ldiff_spec. change PAGE_FRAME with (Z.shiftl (Z.ones 20) 12). rewrite Z.shiftl_spec by done.
  destruct (decide (i < 12)) as [H12|H12].
  { rewrite (Z.testbit_neg_r _ (i - 12)), (Z.ones_spec_low 12) by lia. simpl. by rewrite !andb_false_r. }
  rewrite (Z.ones_spec_high 12) by lia. destruct (decide (i < 32)) as [H32|H32].
  { by rewrite Z.ones_spec_low by lia. }
  rewrite Z.ones_spec_high by lia. rewrite Z.bits_above_log2; [done|lia|].
  destruct (decide (a = 0)) as [->|]; [simpl; lia|]. apply Z.log2_lt_pow2; [lia|].
  apply Z.lt_le_trans with (2 ^ 32); [lia|]. apply Z.pow_le_mono_r; lia.
Qed.

Lemma land_offset a : Z.land a 4095 = a `mod` PAGE_SIZE.
Proof. exact (Z.land_ones a 12 ltac:(done)). Qed.

Lemma lor_offset a b : a `mod` PAGE_SIZE = 0 -> 0 <= b < PAGE_SIZE -> Z.lor a b = a + b.
Proof.
  intros Ha Hb. assert (Z.land a b = 0) as Hd.
  { apply Z.bits_inj_0. intros i. rewrite Z.land_spec. destruct (decide (i < 12)) as [Hi|Hi].
    - replace a with (Z.shiftl (a / PAGE_SIZE) 12).
      2:{ rewrite Z.shiftl_mul_pow2 by lia. unfold PAGE_SIZE in *. change (2 ^ 12) with 4096. dlia. }
      destruct (decide (0 <= i)); [|by rewrite Z.testbit_neg_r by lia].
      by rewrite Z.shiftl_spec_low by lia.
    - rewrite (Z.bits_above_log2 b); [by rewrite andb_false_r|lia|].
      destruct (decide (b = 0)) as [->|]; [simpl; lia|]. apply Z.log2_lt_pow2; [lia|].
      apply Z.lt_le_trans with (2 ^ 12); [done || (unfold PAGE_SIZE in Hb; lia)|]. apply Z.pow_le_mono_r; lia. }
  by rewrite <- Z.lxor_lor, <- Z.add_nocarry_lxor.
Qed.

(** ** ram.c *)

Record ram : Type := mk_ram { firstpaddr : Z; lastpaddr : Z }.

(** The size the bus controller reports, and the first address after the
    kernel, which start.S saved. *)
Definition ram_bootstrap (mips_ramsize firstfree : Z) : ram :=
  let ramsize := if mips_ramsize >? 508 * 1024 * 1024 then 508 * 1024 * 1024 else mips_ramsize in
  mk_ram (u32 (firstfree - MIPS_KSEG0)) ramsize.

Definition ram_stealmem (r : ram) (npages : Z) : ram * Z :=
  let size := u32 (npages * PAGE_SIZE) in
  if u32 (firstpaddr r + size) >? lastpaddr r then (r, 0)
  else (mk_ram (u32 (firstpaddr r + size)) (lastpaddr r), firstpaddr r).

Definition ram_getsize (r : ram) : ram * (Z * Z) := (mk_ram 0 0, (firstpaddr r, lastpaddr r)).

(** ** dumbvm.c *)

(** With interrupts off, which one processor needs no model of. *)
Definition getppages (r : ram) (npages : Z) : ram * Z := ram_stealmem r npages.

Definition alloc_kpages (r : ram) (npages : Z) : ram * Z :=
  let '(r, pa) := getppages r (u32 npages) in
  if pa =? 0 then (r, 0) else (r, PADDR_TO_KVADDR pa).

Definition free_kpages (r : ram) (addr : Z) : ram := r.

(** ** What a page allocator promises *)

Definition disjoint_range (a n b m : Z) : Prop := a + n <= b \/ b + m <= a.

(** Operations on kernel pages. *)
Class PageAlloc (P : Type) := {
  kpages_alloc : P -> Z -> P * Z;
  kpages_free : P -> Z -> P;
}.

(** [held s L] says that [L] is a set of regions, by address and number of
    pages, that the clients hold.  An allocation fails and changes nothing of
    that, or adds a region that is page-aligned, inside the memory [kmem],
    and apart from every region held. *)
Class PageLaws (P : Type) `{PageAlloc P} (kmem : Z -> Prop) := {
  held : P -> gmap Z Z -> Prop;
  held_alloc s L n s' a :
    held s L -> 0 < n <= 524288 -> kpages_alloc s n = (s', a) ->
    (a = 0 /\ held s' L) \/
    (0 < a /\ a `mod` PAGE_SIZE = 0 /\ a + n * PAGE_SIZE < 2 ^ 32 /\
     (forall x, a <= x < a + n * PAGE_SIZE -> kmem x) /\
     (forall b m, L !! b = Some m -> disjoint_range a (n * PAGE_SIZE) b (m * PAGE_SIZE)) /\
     held s' (<[a := n]> L));
  held_free s L a n : held s L -> L !! a = Some n -> held (kpages_free s a) (delete a L);
}.

Global Instance dumbvm_pages : PageAlloc ram := {
  kpages_alloc := alloc_kpages;
  kpages_free := free_kpages;
}.

(** The regions handed out are below [firstpaddr]; dumbvm never takes one
    back, so it keeps its promise whatever the clients give up. *)
Definition ram_ok (r : ram) : Prop :=
  0 < firstpaddr r <= lastpaddr r /\ lastpaddr r <= 508 * 1024 * 1024 /\ firstpaddr r `mod` PAGE_SIZE = 0.

Definition ram_held (last : Z) (r : ram) (L : gmap Z Z) : Prop :=
  ram_ok r /\ lastpaddr r = last /\
  forall b m, L !! b = Some m -> 0 <= m /\ b + m * PAGE_SIZE <= MIPS_KSEG0 + firstpaddr r.

Definition kseg0_mem (last x : Z) : Prop := MIPS_KSEG0 <= x < MIPS_KSEG0 + last.

Lemma ram_bootstrap_ok mips_ramsize firstfree :
  MIPS_KSEG0 < firstfree <= MIPS_KSEG0 + mips_ramsize -> firstfree <= MIPS_KSEG0 + 508 * 1024 * 1024 ->
  firstfree `mod` PAGE_SIZE = 0 -> ram_ok (ram_bootstrap mips_ramsize firstfree).
Proof.
  unfold ram_ok, ram_bootstrap, MIPS_KSEG0, PAGE_SIZE. intros Hf Hm Ha. cbn [firstpaddr lastpaddr].
  rewrite u32_small by lia. rewrite Z.gtb_ltb. destruct (Z.ltb_spec (508 * 1024 * 1024) mips_ramsize); repeat split; try lia; dlia.
Qed.

(** Up to 2 GB the addition of [ram_stealmem] does not wrap. *)
Lemma ram_stealmem_spec r n : ram_ok r -> 0 <= n <= 524288 ->
  ram_stealmem r n =
    if firstpaddr r + n * PAGE_SIZE >? lastpaddr r then (r, 0)
    else (mk_ram (firstpaddr r + n * PAGE_SIZE) (lastpaddr r), firstpaddr r).
Proof. unfold ram_ok, ram_stealmem, PAGE_SIZE. intros (Hf & Hl & Ha) Hn. by nowrap. Qed.

Lemma ram_held_alloc last r L n r' a :
  ram_held last r L -> 0 < n <= 524288 -> alloc_kpages r n = (r', a) ->
  (a = 0 /\ ram_held last r' L) \/
  (0 < a /\ a `mod` PAGE_SIZE = 0 /\ a + n * PAGE_SIZE < 2 ^ 32 /\
   (forall x, a <= x < a + n * PAGE_SIZE -> kseg0_mem last x) /\
   (forall b m, L !! b = Some m -> disjoint_range a (n * PAGE_SIZE) b (m * PAGE_SIZE)) /\
   ram_held last r' (<[a := n]> L)).
Proof.
  intros (Hok & <- & HL) Hn E. pose proof Hok as (Hf & Hl & Ha). unfold alloc_kpages, getppages in E.
  rewrite u32_small, ram_stealmem_spec in E by (done || lia). rewrite Z.gtb_ltb in E. unfold PAGE_SIZE in *.
  destruct (Z.ltb_spec (lastpaddr r) (firstpaddr r + n * 4096)).
  { rewrite Z.eqb_refl in E. injection E as <- <-. left. done. }
  destruct (Z.eqb_spec (firstpaddr r) 0); [lia|]. injection E as <- <-. right.
  unfold PADDR_TO_KVADDR, kseg0_mem, disjoint_range, ram_held, ram_ok, MIPS_KSEG0, PAGE_SIZE in *. nowrap. cbn [firstpaddr lastpaddr].
  split; [lia|]. split; [dlia|]. split; [lia|]. split; [lia|]. split; [intros b m Hb; destruct (HL b m Hb); lia|].
  split; [repeat split; lia || dlia|]. split; [done|].
  intros b m [[<- <-]|[_ Hb]]%lookup_insert_Some; [lia|]. apply HL in Hb. lia.
Qed.

Lemma ram_held_free last r L a n : ram_held last r L -> L !! a = Some n -> ram_held last (free_kpages r a) (delete a L).
Proof. intros (Hok & Hl & HL) _. split; [done|]. split; [done|]. intros b m [_ Hb]%lookup_delete_Some. by apply HL. Qed.

Global Instance dumbvm_page_laws (last : Z) : PageLaws ram (kseg0_mem last) := {
  held := ram_held last;
  held_alloc := ram_held_alloc last;
  held_free := ram_held_free last;
}.
