(* ===== verification/Kheap.v ===== *)
(** * kern/lib/kheap.c: kmalloc and kfree

    Requests of less than half a page come from pages cut into blocks of one
    of eight sizes.  The free blocks of a page are linked through their first
    words, and the pages are described by 256 [pageref] structures, linked
    into one list of all pages and one per size.  Larger requests are whole
    pages of the page allocator, which is a parameter.

    A [struct pageref *] is the index of the structure in [pagerefs], [None]
    for NULL.  Memory is a map from the addresses of aligned words; an access
    outside of it is [Undef].  The heap runs with interrupts off. *)
From stdpp Require Import base numbers list option gmap.
From S2P Require Import Prelude Ram.
Local Open Scope Z_scope.

Definition NSIZES : Z := 8.
Definition sizes : list Z := [16; 32; 64; 128; 256; 512; 1024; 2048].
Definition LARGEST_SUBPAGE_SIZE : Z := 2048.

Record pageref : Type := mk_pageref {
  next_samesize : option Z;
  next_all : option Z;
  pageaddr_and_blocktype : Z;
  freelist_offset : Z;
  nfree : Z;
}.

Definition INVALID_OFFSET : Z := 0xffff.
Definition PR_PAGEADDR (pr : pageref) : Z := Z.land (pageaddr_and_blocktype pr) PAGE_FRAME.
Definition PR_BLOCKTYPE (pr : pageref) : Z := Z.land (pageaddr_and_blocktype pr) (u32 (Z.lnot PAGE_FRAME)).
Definition MKPAB (pa blk : Z) : Z := Z.lor (Z.land pa PAGE_FRAME) (Z.land blk (u32 (Z.lnot PAGE_FRAME))).

Definition NPAGEREFS : Z := PAGE_SIZE / 16.
Definition INUSE_WORDS : Z := NPAGEREFS / 32.

(** The static variables of the file, memory and the page allocator. *)
Record kheap (P : Type) : Type := mk_kheap {
  pagerefs : list pageref;
  pagerefs_inuse : list Z;
  sizebases : list (option Z);
  allbase : option Z;
  words : gmap Z Z;
  pages : P;
}.
Arguments mk_kheap {P}.
Arguments pagerefs {P}.
Arguments pagerefs_inuse {P}.
Arguments sizebases {P}.
Arguments allbase {P}.
Arguments words {P}.
Arguments pages {P}.

Definition set_link_samesize (p : option Z) (r : pageref) : pageref :=
  mk_pageref p (next_all r) (pageaddr_and_blocktype r) (freelist_offset r) (nfree r).
Definition set_link_all (p : option Z) (r : pageref) : pageref :=
  mk_pageref (next_samesize r) p (pageaddr_and_blocktype r) (freelist_offset r) (nfree r).
Definition set_pab (pab : Z) (r : pageref) : pageref :=
  mk_pageref (next_samesize r) (next_all r) pab (freelist_offset r) (nfree r).
Definition set_offset (o : Z) (r : pageref) : pageref :=
  mk_pageref (next_samesize r) (next_all r) (pageaddr_and_blocktype r) o (nfree r).
Definition set_nfree (n : Z) (r : pageref) : pageref :=
  mk_pageref (next_samesize r) (next_all r) (pageaddr_and_blocktype r) (freelist_offset r) n.

Section kheap.
Context {P : Type} `{PageAlloc P}.
Implicit Types h : kheap P.

Definition set_pagerefs (v : list pageref) h : kheap P :=
  mk_kheap v (pagerefs_inuse h) (sizebases h) (allbase h) (words h) (pages h).
Definition set_inuse (v : list Z) h : kheap P :=
  mk_kheap (pagerefs h) v (sizebases h) (allbase h) (words h) (pages h).
Definition set_sizebases (v : list (option Z)) h : kheap P :=
  mk_kheap (pagerefs h) (pagerefs_inuse h) v (allbase h) (words h) (pages h).
Definition set_allbase (v : option Z) h : kheap P :=
  mk_kheap (pagerefs h) (pagerefs_inuse h) (sizebases h) v (words h) (pages h).
Definition set_words (v : gmap Z Z) h : kheap P :=
  mk_kheap (pagerefs h) (pagerefs_inuse h) (sizebases h) (allbase h) v (pages h).
Definition set_pages (v : P) h : kheap P :=
  mk_kheap (pagerefs h) (pagerefs_inuse h) (sizebases h) (allbase h) (words h) v.

(** Reads and writes of a word. *)
Definition peek h (a : Z) : res Z :=
  match words h !! a with Some v => Ok v | None => Undef end.
Definition poke h (a v : Z) : res (kheap P) :=
  match words h !! a with Some _ => Ok (set_words (<[a := v]> (words h)) h) | None => Undef end.

(** [pr->field = ...] *)
Definition modify h (pr : Z) (f : pageref -> pageref) : res (kheap P) :=
  r ← load (pagerefs h) pr;
  prs ← store (pagerefs h) pr (f r);
  Ok (set_pagerefs prs h).

Fixpoint fill_loop (rounds : nat) h (ptr i : Z) : res (kheap P) :=
  match rounds with
  | O => Ok h
  | S rounds =>
      h ← poke h (u32 (ptr + 4 * i)) 0xdeadbeef;
      fill_loop rounds h ptr (i + 1)
  end.

Definition fill_deadbeef h (vptr len : Z) : res (kheap P) := fill_loop (Z.to_nat (len / 4)) h vptr 0.

(** ** The table of pagerefs *)

(** The inner loop: the first clear bit of a word, and the word with it set.
    [k] leaves the word after 32 rounds. *)
Fixpoint find_bit (fuel : nat) (w k j : Z) : res (Z * Z) :=
  match fuel with
  | O => Fuel
  | S fuel =>
      if k =? 0 then Panic
      else if Z.land w k =? 0 then Ok (j, Z.lor w k)
      else find_bit fuel w (u32 (Z.shiftl k 1)) (j + 1)
  end.

Fixpoint inuse_loop (rounds : nat) h (i : Z) : res (kheap P * option Z) :=
  match rounds with
  | O => Ok (h, None)
  | S rounds =>
      w ← load (pagerefs_inuse h) i;
      if w =? 0xffffffff then inuse_loop rounds h (i + 1)
      else
        '(j, w) ← find_bit 33 w 1 0;
        ws ← store (pagerefs_inuse h) i w;
        Ok (set_inuse ws h, Some (i * 32 + j))
  end.

Definition allocpageref h : res (kheap P * option Z) := inuse_loop (Z.to_nat INUSE_WORDS) h 0.

Definition freepageref h (p : Z) : res (kheap P) :=
  let j := p in
  _ ← assert (j <? NPAGEREFS);
  let i := j / 32 in
  let k := u32 (Z.shiftl 1 (j `mod` 32)) in
  w ← load (pagerefs_inuse h) i;
  _ ← assert (negb (Z.land w k =? 0));
  ws ← store (pagerefs_inuse h) i (Z.land w (u32 (Z.lnot k)));
  Ok (set_inuse ws h).

(** ** Lists of pages *)

(** A [struct pageref **]: the address of the head of a list or of a link. *)
Inductive guy : Type :=
| SizeBase (blktype : Z)
| AllBase
| NextSame (pr : Z)
| NextAll (pr : Z).

Definition deref h (g : guy) : res (option Z) :=
  match g with
  | SizeBase b => load (sizebases h) b
  | AllBase => Ok (allbase h)
  | NextSame i => r ← load (pagerefs h) i; Ok (next_samesize r)
  | NextAll i => r ← load (pagerefs h) i; Ok (next_all r)
  end.

Definition assign h (g : guy) (p : option Z) : res (kheap P) :=
  match g with
  | SizeBase b => v ← store (sizebases h) b p; Ok (set_sizebases v h)
  | AllBase => Ok (set_allbase p h)
  | NextSame i => modify h i (set_link_samesize p)
  | NextAll i => modify h i (set_link_all p)
  end.

(** The loop of [remove_lists]: unlinks [pr] where it is found. *)
Fixpoint remove_loop (fuel : nat) (next : Z -> guy) h (g : guy) (pr : Z) : res (kheap P) :=
  match fuel with
  | O => Fuel
  | S fuel =>
      p ← deref h g;
      match p with
      | None => Ok h
      | Some i =>
          if i =? pr then q ← deref h (next pr); assign h g q
          else remove_loop fuel next h (next i) pr
      end
  end.

(** A list visits each pageref once. *)
Definition list_fuel : nat := S (Z.to_nat NPAGEREFS).

Definition remove_lists h (pr blktype : Z) : res (kheap P) :=
  _ ← assert ((blktype >=? 0) && (blktype <? NSIZES));
  h ← remove_loop list_fuel NextSame h (SizeBase blktype) pr;
  remove_loop list_fuel NextAll h AllBase pr.

Fixpoint blocktype_loop (l : list Z) (i sz : Z) : res Z :=
  match l with
  | [] => Panic
  | s :: l => if sz <=? s then Ok i else blocktype_loop l (i + 1) sz
  end.

Definition blocktype (sz : Z) : res Z := blocktype_loop sizes 0 sz.

(** ** Blocks smaller than a page *)

(** The loop over the pages of one size: the first with a free block. *)
Fixpoint find_page (fuel : nat) h (pr : option Z) (blktype : Z) : res (option Z) :=
  match fuel with
  | O => Fuel
  | S fuel =>
      match pr with
      | None => Ok None
      | Some i =>
          r ← load (pagerefs h) i;
          _ ← assert (PR_BLOCKTYPE r =? blktype);
          if nfree r >? 0 then Ok (Some i) else find_page fuel h (next_samesize r) blktype
      end
  end.

(** From the label [doalloc]: takes the first free block of the page. *)
Definition doalloc h (pr : Z) : res (kheap P * Z) :=
  r ← load (pagerefs h) pr;
  _ ← assert (freelist_offset r <? PAGE_SIZE);
  let prpage := PR_PAGEADDR r in
  let fla := u32 (prpage + freelist_offset r) in
  let retptr := fla in
  fl ← peek h fla;
  let r := set_nfree (u16 (nfree r - 1)) r in
  if negb (fl =? 0) then
    _ ← assert (nfree r >? 0);
    _ ← assert (u32 (fl - prpage) <? PAGE_SIZE);
    prs ← store (pagerefs h) pr (set_offset (u16 (u32 (fl - prpage))) r);
    Ok (set_pagerefs prs h, retptr)
  else
    _ ← assert (nfree r =? 0);
    prs ← store (pagerefs h) pr (set_offset INVALID_OFFSET r);
    Ok (set_pagerefs prs h, retptr).

(** The loop that links the blocks of a fresh page, with the last block. *)
Fixpoint format_loop (rounds : nat) h (fla size i fl : Z) : res (kheap P * Z) :=
  match rounds with
  | O => Ok (h, fl)
  | S rounds =>
      let fl := u32 (fla + i * size) in
      let next := u32 (fla + (i - 1) * size) in
      h ← poke h fl next;
      _ ← assert (negb (fl =? next));
      format_loop rounds h fla size (i + 1) fl
  end.

(** A fresh page of the given block type, at the front of both lists. *)
Definition newpage h (pr prpage blktype : Z) : res (kheap P) :=
  size ← load sizes blktype;
  let n := u16 (PAGE_SIZE / size) in
  h ← modify h pr (fun r => set_nfree n (set_pab (MKPAB prpage blktype) r));
  let fla := prpage in
  h ← poke h fla 0;
  '(h, fl) ← format_loop (Z.to_nat (n - 1)) h fla size 1 fla;
  let offset := u16 (u32 (fl - prpage)) in
  h ← modify h pr (set_offset offset);
  _ ← assert (offset =? u32 ((n - 1) * size));
  b ← load (sizebases h) blktype;
  h ← modify h pr (set_link_samesize b);
  bs ← store (sizebases h) blktype (Some pr);
  let h := set_sizebases bs h in
  h ← modify h pr (set_link_all (allbase h));
  Ok (set_allbase (Some pr) h).

Definition subpage_kmalloc h (sz : Z) : res (kheap P * Z) :=
  blktype ← blocktype sz;
  b ← load (sizebases h) blktype;
  found ← find_page list_fuel h b blktype;
  match found with
  | Some pr => doalloc h pr
  | None =>
      '(h, p) ← allocpageref h;
      match p with
      | None => Ok (h, 0)
      | Some pr =>
          let '(s, prpage) := kpages_alloc (pages h) 1 in
          let h := set_pages s h in
          if prpage =? 0 then h ← freepageref h pr; Ok (h, 0)
          else
            h ← newpage h pr prpage blktype;
            doalloc h pr
      end
  end.

(** The loop over all pages: the one the address is on. *)
Fixpoint page_of (fuel : nat) h (pr : option Z) (ptraddr : Z) : res (option Z) :=
  match fuel with
  | O => Fuel
  | S fuel =>
      match pr with
      | None => Ok None
      | Some i =>
          r ← load (pagerefs h) i;
          let prpage := PR_PAGEADDR r in
          let blktype := PR_BLOCKTYPE r in
          _ ← assert ((blktype >=? 0) && (blktype <? NSIZES));
          if (ptraddr >=? prpage) && (ptraddr <? u32 (prpage + PAGE_SIZE)) then Ok (Some i)
          else page_of fuel h (next_all r) ptraddr
      end
  end.

Definition subpage_kfree h (ptr : Z) : res (kheap P * Z) :=
  p ← page_of list_fuel h (allbase h) ptr;
  match p with
  | None => Ok (h, -1)
  | Some pr =>
      r ← load (pagerefs h) pr;
      let prpage := PR_PAGEADDR r in
      let blktype := PR_BLOCKTYPE r in
      size ← load sizes blktype;
      let offset := u32 (ptr - prpage) in
      if (offset >=? PAGE_SIZE) || negb (offset `mod` size =? 0) then Panic
      else
        h ← fill_deadbeef h ptr size;
        let fla := u32 (prpage + offset) in
        h ← (if freelist_offset r =? INVALID_OFFSET then poke h fla 0
             else poke h fla (u32 (prpage + freelist_offset r)));
        let n := u16 (nfree r + 1) in
        h ← modify h pr (fun r => set_nfree n (set_offset (u16 offset) r));
        _ ← assert (n <=? PAGE_SIZE / size);
        if n =? PAGE_SIZE / size then
          h ← remove_lists h pr blktype;
          h ← freepageref (set_pages (kpages_free (pages h) prpage) h) pr;
          Ok (h, 0)
        else Ok (h, 0)
  end.

(** ** The entry points *)

Definition kmalloc h (sz : Z) : res (kheap P * Z) :=
  if sz >=? LARGEST_SUBPAGE_SIZE then
    let npages := u32 (sz + PAGE_SIZE - 1) / PAGE_SIZE in
    let '(s, address) := kpages_alloc (pages h) (i32 npages) in
    let h := set_pages s h in
    if address =? 0 then Ok (h, 0) else Ok (h, address)
  else subpage_kmalloc h sz.

Definition kfree h (ptr : Z) : res (kheap P) :=
  if ptr =? 0 then Ok h
  else
    '(h, r) ← subpage_kfree h ptr;
    if negb (r =? 0) then
      _ ← assert (ptr `mod` PAGE_SIZE =? 0);
      Ok (set_pages (kpages_free (pages h) ptr) h)
    else Ok h.
End kheap.

(** The static variables at boot are zero. *)
Definition kheap_boot {P : Type} (m : gmap Z Z) (s : P) : kheap P :=
  mk_kheap (replicate (Z.to_nat NPAGEREFS) (mk_pageref None None 0 0 0))
    (replicate (Z.to_nat INUSE_WORDS) 0) (replicate (Z.to_nat NSIZES) None) None m s.
