(* ===== verification/KheapSpec.v ===== *)
(** * The kernel heap is an allocator

    The invariant of the structures of kheap.c, what each of its functions
    does to them, and the refinement of an abstract allocator. *)
From stdpp Require Import base numbers list option gmap.
From S2P Require Import Prelude Ram Kheap.
Local Open Scope Z_scope.

(** ** The table of pagerefs in use *)

Definition bit (ws : list Z) (j : Z) : bool :=
  match ws !! Z.to_nat (j / 32) with Some w => Z.testbit w (j `mod` 32) | None => false end.

Definition inuse_ok (ws : list Z) : Prop := length ws = 8%nat /\ Forall (fun w => 0 <= w < 2 ^ 32) ws.

Lemma testbit_u32 x k : Z.testbit (u32 x) k = (k <? 32) && Z.testbit x k.
Proof. unfold u32. change 4294967296 with (2 ^ 32). by apply Z.testbit_mod_pow2. Qed.

Lemma land_pow2 w j : 0 <= j -> (Z.land w (2 ^ j) =? 0) = negb (Z.testbit w j).
Proof.
  intros Hj. destruct (Z.testbit w j) eqn:E; simpl.
  - apply Z.eqb_neq. intros H0. apply (f_equal (fun z => Z.testbit z j)) in H0.
    by rewrite Z.land_spec, E, Z.pow2_bits_true, Z.bits_0 in H0 by lia.
  - apply Z.eqb_eq, Z.bits_inj'. intros k Hk. rewrite Z.land_spec, Z.bits_0, Z.pow2_bits_eqb by lia.
    destruct (Z.eqb_spec j k) as [->|]; [by rewrite E|]. apply andb_false_r.
Qed.

Lemma word_eq w w' : 0 <= w < 2 ^ 32 -> 0 <= w' < 2 ^ 32 ->
  (forall k, 0 <= k < 32 -> Z.testbit w k = Z.testbit w' k) -> w = w'.
Proof.
  intros Hw Hw' Heq. rewrite <- (u32_small w), <- (u32_small w') by done. apply Z.bits_inj'. intros k Hk.
  rewrite !testbit_u32. destruct (Z.ltb_spec k 32); simpl; [apply Heq; lia|done].
Qed.

(** A word whose bits are a word's, or set below 32, is a word. *)
Lemma word_range w : 0 <= w -> (forall k, 32 <= k -> Z.testbit w k = false) -> w < 2 ^ 32.
Proof.
  intros Hw Hk. destruct (decide (w < 2 ^ 32)) as [|Hge]; [done|]. exfalso.
  assert (32 <= Z.log2 w) as Hl by (apply Z.log2_le_pow2; lia).
  specialize (Hk _ Hl). rewrite Z.bit_log2 in Hk by lia. done.
Qed.

Lemma find_bit_spec w : 0 <= w < 2 ^ 32 -> w <> 0xffffffff -> forall n fuel j,
  j + Z.of_nat n = 32 -> 0 <= j -> (n < fuel)%nat -> (forall k, 0 <= k < j -> Z.testbit w k = true) ->
  exists i, find_bit fuel w (u32 (2 ^ j)) j = Ok (i, Z.lor w (2 ^ i)) /\ 0 <= i < 32 /\ Z.testbit w i = false.
Proof.
  intros Hw Hne n. induction n as [|n IH]; intros fuel j Hj H0 Hf Hset.
  - exfalso. apply Hne, word_eq; [done|done|]. intros k Hk. rewrite Hset by lia.
    by rewrite (Z.ones_spec_low 32) by lia.
  - destruct fuel as [|fuel]; [lia|]. cbn [find_bit].
    assert (0 < 2 ^ j < 2 ^ 32) as Hp by (split; [lia|apply Z.pow_lt_mono_r; lia]).
    rewrite (u32_small (2 ^ j)) by (change 4294967296 with (2 ^ 32); lia).
    destruct (Z.eqb_spec (2 ^ j) 0); [lia|]. rewrite land_pow2 by done.
    destruct (Z.testbit w j) eqn:E; cbn [negb]; [|by exists j; repeat split; lia || done].
    rewrite Z.shiftl_mul_pow2, <- Z.pow_add_r by lia. apply IH; try lia.
    intros k Hk. destruct (decide (k = j)) as [->|]; [done|apply Hset; lia].
Qed.

(** [ws'] is [ws] with bit [j] given the value [v]. *)
Definition bit_update (ws ws' : list Z) (j : Z) (v : bool) : Prop :=
  inuse_ok ws' /\ forall k, 0 <= k < 256 -> bit ws' k = if k =? j then v else bit ws k.

Lemma bit_store ws j w w' v :
  inuse_ok ws -> 0 <= j < 256 -> ws !! Z.to_nat (j / 32) = Some w -> 0 <= w' < 2 ^ 32 ->
  (forall k, 0 <= k < 32 -> Z.testbit w' k = if k =? j `mod` 32 then v else Z.testbit w k) ->
  store ws (j / 32) w' = Ok (<[Z.to_nat (j / 32) := w']> ws) /\ bit_update ws (<[Z.to_nat (j / 32) := w']> ws) j v.
Proof.
  intros [Hl Hok] Hj Hw Hw' Hb. split; [apply store_in_range; rewrite Hl; dlia|]. split.
  { split; [by rewrite length_insert|by apply Forall_insert]. }
  intros k Hk. unfold bit. destruct (decide (k / 32 = j / 32)) as [E|E].
  - rewrite E, list_lookup_insert_eq, Hw by (rewrite Hl; dlia). rewrite Hb by dlia.
    destruct (Z.eqb_spec (k `mod` 32) (j `mod` 32)), (Z.eqb_spec k j); dlia || done.
  - rewrite list_lookup_insert_ne by dlia. destruct (Z.eqb_spec k j) as [->|]; done.
Qed.

Section specs.
Context {P : Type} `{PageAlloc P}.
Implicit Types h : kheap P.

Lemma inuse_loop_spec h : inuse_ok (pagerefs_inuse h) -> forall n i, 0 <= i -> i + Z.of_nat n = 8 ->
  (forall k w, (k < Z.to_nat i)%nat -> pagerefs_inuse h !! k = Some w -> w = 0xffffffff) ->
  (inuse_loop n h i = Ok (h, None) /\ Forall (eq 0xffffffff) (pagerefs_inuse h)) \/
  exists j ws, inuse_loop n h i = Ok (set_inuse ws h, Some j) /\ 0 <= j < 256 /\
    bit (pagerefs_inuse h) j = false /\ bit_update (pagerefs_inuse h) ws j true.
Proof.
  intros Hok. pose proof Hok as [Hl Hw]. induction n as [|n IH]; intros i Hi Hn Hfull; cbn [inuse_loop].
  { left. split; [done|]. apply Forall_lookup_2. intros k w Hk. symmetry. apply (Hfull k w); [|done].
    apply lookup_lt_Some in Hk. lia. }
  destruct (load_in_range (pagerefs_inuse h) i) as (w & -> & Hlk); [rewrite Hl; lia|]. rewrite bind_Ok.
  assert (0 <= w < 2 ^ 32) as Hwr by (rewrite Forall_lookup in Hw; by apply (Hw (Z.to_nat i))).
  destruct (Z.eqb_spec w 0xffffffff) as [->|Hne].
  { apply IH; [lia|lia|]. intros k v Hk Hv. destruct (decide (k = Z.to_nat i)) as [->|]; [congruence|].
    apply (Hfull k v); [lia|done]. }
  right. destruct (find_bit_spec w Hwr Hne 32 33 0) as (j & E & Hj & Hb); [lia|lia|lia|intros; lia|]. change (u32 (2 ^ 0)) with 1 in E.
  rewrite E, bind_Ok.
  assert ((i * 32 + j) / 32 = i) as Ed by dlia. assert ((i * 32 + j) `mod` 32 = j) as Em by dlia.
  destruct (bit_store (pagerefs_inuse h) (i * 32 + j) w (Z.lor w (2 ^ j)) true) as [E1 E2]; rewrite ?Ed, ?Em; try done.
  { lia. }
  { assert (0 <= Z.lor w (2 ^ j)) by (apply Z.lor_nonneg; split; [lia|apply Z.pow_nonneg; lia]). split; [done|].
    apply word_range; [done|]. intros k Hk. rewrite Z.lor_spec, Z.pow2_bits_eqb by lia.
    destruct (Z.eqb_spec j k); [lia|]. rewrite <- (u32_small w), testbit_u32 by done.
    by destruct (Z.ltb_spec k 32); [lia|]. }
  { intros k Hk. rewrite Z.lor_spec, Z.pow2_bits_eqb by lia. rewrite (Z.eqb_sym j k).
    destruct (Z.eqb_spec k j); by rewrite ?orb_true_r, ?orb_false_r. }
  rewrite Ed in E1, E2. rewrite E1, bind_Ok. exists (i * 32 + j), (<[Z.to_nat i := Z.lor w (2 ^ j)]> (pagerefs_inuse h)).
  split; [done|]. split; [lia|]. split; [|done]. unfold bit. by rewrite Ed, Em, Hlk.
Qed.

Lemma allocpageref_spec h : inuse_ok (pagerefs_inuse h) ->
  (allocpageref h = Ok (h, None) /\ Forall (eq 0xffffffff) (pagerefs_inuse h)) \/
  exists j ws, allocpageref h = Ok (set_inuse ws h, Some j) /\ 0 <= j < 256 /\
    bit (pagerefs_inuse h) j = false /\ bit_update (pagerefs_inuse h) ws j true.
Proof. intros Hok. apply (inuse_loop_spec h Hok 8 0); [lia..|]. intros k w Hk. simpl in Hk. lia. Qed.

Lemma freepageref_spec h j : inuse_ok (pagerefs_inuse h) -> 0 <= j < 256 -> bit (pagerefs_inuse h) j = true ->
  exists ws, freepageref h j = Ok (set_inuse ws h) /\ bit_update (pagerefs_inuse h) ws j false.
Proof.
  intros Hok Hj Hb. pose proof Hok as [Hl Hw]. unfold freepageref. cbv zeta. change NPAGEREFS with 256. pass_assert.
  destruct (load_in_range (pagerefs_inuse h) (j / 32)) as (w & -> & Hlk); [rewrite Hl; dlia|]. rewrite bind_Ok.
  unfold bit in Hb. rewrite Hlk in Hb. rewrite Z.shiftl_1_l.
  assert (0 <= j `mod` 32 < 32) as Hm by dlia.
  assert (0 < 2 ^ (j `mod` 32) < 2 ^ 32) as Hp by (split; [lia|apply Z.pow_lt_mono_r; lia]).
  rewrite (u32_small (2 ^ _)) by (change 4294967296 with (2 ^ 32); lia). rewrite land_pow2, Hb by lia. cbn [negb assert].
  rewrite bind_Ok. assert (0 <= w < 2 ^ 32) as Hwr by (rewrite Forall_lookup in Hw; by apply (Hw _ _ Hlk)).
  set (w' := Z.land w (u32 (Z.lnot (2 ^ (j `mod` 32))))).
  assert (forall k, 0 <= k -> Z.testbit w' k = Z.testbit w k && (k <? 32) && negb (k =? j `mod` 32)) as Hbits.
  { intros k Hk. unfold w'. rewrite Z.land_spec, testbit_u32, Z.lnot_spec, Z.pow2_bits_eqb by lia.
    by rewrite (Z.eqb_sym k), andb_assoc. }
  destruct (bit_store (pagerefs_inuse h) j w w' false) as [E1 E2]; try done.
  { assert (0 <= w') by (apply Z.land_nonneg; lia). split; [done|]. apply word_range; [done|].
    intros k Hk. rewrite Hbits by lia. destruct (Z.ltb_spec k 32); [lia|]. by rewrite andb_false_r. }
  { intros k Hk. rewrite Hbits by lia. destruct (Z.ltb_spec k 32); [|lia]. rewrite andb_true_r.
    destruct (Z.eqb_spec k (j `mod` 32)); by rewrite ?andb_false_r, ?andb_true_r. }
  rewrite E1, bind_Ok. by eexists.
Qed.

(** ** Lists of pages *)

(** From [g] on, the links visit the pagerefs [l]. *)
Fixpoint lchain (next : Z -> guy) h (g : guy) (l : list Z) : Prop :=
  match l with
  | [] => deref h g = Ok None
  | i :: l => deref h g = Ok (Some i) /\ lchain next h (next i) l
  end.

Lemma lchain_ext next h h' g l :
  deref h' g = deref h g -> (forall i, i ∈ l -> deref h' (next i) = deref h (next i)) ->
  lchain next h g l -> lchain next h' g l.
Proof.
  revert g. induction l as [|i l IH]; intros g Hg Hl; simpl; [congruence|]. intros [E Hc].
  split; [congruence|]. apply IH; [apply Hl; left|intros j Hj; apply Hl; by right|done].
Qed.

(** The same list from another link. *)
Lemma lchain_move next h h' g g' l :
  deref h' g' = deref h g -> (forall i, i ∈ l -> deref h' (next i) = deref h (next i)) ->
  lchain next h g l -> lchain next h' g' l.
Proof.
  intros Hg Hl. destruct l as [|i l]; simpl; [congruence|]. intros [E Hc]. split; [congruence|].
  apply (lchain_ext _ h); [apply Hl; left|intros j Hj; apply Hl; by right|done].
Qed.

Lemma lchain_next next h g l : lchain next h g l -> forall i, i ∈ l -> exists q, deref h (next i) = Ok q.
Proof.
  revert g. induction l as [|j l IH]; intros g Hc i Hi; [by apply not_elem_of_nil in Hi|].
  destruct Hc as [_ Hc]. apply elem_of_cons in Hi as [->|Hi]; [|by eapply IH].
  destruct l as [|k l]; [by exists None|]. exists (Some k). apply Hc.
Qed.

(** What [remove_lists] does not change: everything but links. *)
Definition same_but_links h h' : Prop :=
  pagerefs_inuse h' = pagerefs_inuse h /\ words h' = words h /\ pages h' = pages h /\
  length (sizebases h') = length (sizebases h) /\ length (pagerefs h') = length (pagerefs h) /\
  forall i r, pagerefs h !! i = Some r -> exists p q, pagerefs h' !! i = Some (set_link_samesize p (set_link_all q r)).

Lemma set_links_same (r : pageref) : set_link_samesize (next_samesize r) (set_link_all (next_all r) r) = r.
Proof. by destruct r. Qed.

Lemma same_but_links_refl h : same_but_links h h.
Proof.
  do 5 (split; [done|]). intros i r E. exists (next_samesize r), (next_all r). by rewrite set_links_same.
Qed.

Lemma same_but_links_trans h1 h2 h3 : same_but_links h1 h2 -> same_but_links h2 h3 -> same_but_links h1 h3.
Proof.
  intros (A1 & A2 & A3 & A4 & A5 & A6) (B1 & B2 & B3 & B4 & B5 & B6). do 5 (split; [congruence|]).
  intros i r E. destruct (A6 i r E) as (p & q & E2). destruct (B6 i _ E2) as (p' & q' & E3). exists p', q'. done.
Qed.

Lemma modify_spec h i f r : 0 <= i -> pagerefs h !! Z.to_nat i = Some r ->
  modify h i f = Ok (set_pagerefs (<[Z.to_nat i := f r]> (pagerefs h)) h).
Proof.
  intros Hi E. unfold modify. apply lookup_lt_Some in E as Hl. by rewrite (load_Ok _ _ r), bind_Ok, store_in_range, bind_Ok by (done || lia).
Qed.

(** A change of one link changes only that link. *)
Lemma same_but_links_modify h i r p q : pagerefs h !! i = Some r ->
  same_but_links h (set_pagerefs (<[i := set_link_samesize p (set_link_all q r)]> (pagerefs h)) h).
Proof.
  intros E. do 4 (split; [done|]). split; [cbn; by rewrite length_insert|]. intros k r' Hk. cbn.
  destruct (decide (k = i)) as [->|].
  - rewrite E in Hk. injection Hk as <-. exists p, q. apply lookup_lt_Some in E. by rewrite list_lookup_insert_eq.
  - rewrite list_lookup_insert_ne by done. exists (next_samesize r'), (next_all r'). by rewrite set_links_same.
Qed.

Lemma assign_spec h g p v : deref h g = Ok v ->
  exists h', assign h g p = Ok h' /\ deref h' g = Ok p /\ (forall g', g' <> g -> deref h' g' = deref h g') /\
    same_but_links h h'.
Proof.
  intros E. destruct g as [b| |i|i]; cbn [deref assign] in *.
  - apply load_Ok_inv in E as [Hb E]. rewrite store_in_range, bind_Ok by done. eexists. split; [done|]. cbn [deref set_sizebases sizebases].
    rewrite load_insert, Z.eqb_refl by done. split; [done|]. split.
    + intros [b'| |i|i] Hne; cbn; try done. rewrite load_insert by done. destruct (Z.eqb_spec b' b); [congruence|done].
    + pose proof (same_but_links_refl h) as (? & ? & ? & ? & ? & ?). do 3 (split; [done|]).
      split; [cbn; by rewrite length_insert|done].
  - eexists. split; [done|]. split; [done|]. split; [by intros [b'| |i|i] Hne|]. by pose proof (same_but_links_refl h).
  - apply bind_Ok_inv in E as (r & E & [= <-]). apply load_Ok_inv in E as [Hi E].
    rewrite (modify_spec _ _ _ r) by (done || lia). eexists. split; [done|]. cbn [deref set_pagerefs pagerefs].
    rewrite load_insert, Z.eqb_refl by done. split; [done|]. split.
    + intros [b'| |j|j] Hne; cbn; try done; rewrite load_insert by done; destruct (Z.eqb_spec j i) as [->|]; try done.
      by rewrite (load_Ok _ _ r) by (done || lia).
    + pose proof (same_but_links_modify h (Z.to_nat i) r p (next_all r) E) as Hs. by destruct r.
  - apply bind_Ok_inv in E as (r & E & [= <-]). apply load_Ok_inv in E as [Hi E].
    rewrite (modify_spec _ _ _ r) by (done || lia). eexists. split; [done|]. cbn [deref set_pagerefs pagerefs].
    rewrite load_insert, Z.eqb_refl by done. split; [done|]. split.
    + intros [b'| |j|j] Hne; cbn; try done; rewrite load_insert by done; destruct (Z.eqb_spec j i) as [->|]; try done.
      by rewrite (load_Ok _ _ r) by (done || lia).
    + pose proof (same_but_links_modify h (Z.to_nat i) r (next_samesize r) p E) as Hs. by destruct r.
Qed.

Lemma remove_loop_spec next pr l2 : (forall i j, next i = next j -> i = j) -> forall l1 fuel h g,
  lchain next h g (l1 ++ pr :: l2) -> NoDup (l1 ++ pr :: l2) -> (forall i, i ∈ l1 ++ pr :: l2 -> g <> next i) ->
  (length l1 < fuel)%nat ->
  exists h', remove_loop fuel next h g pr = Ok h' /\ lchain next h' g (l1 ++ l2) /\ same_but_links h h' /\
    forall g', g' <> g -> (forall i, i ∈ l1 -> g' <> next i) -> deref h' g' = deref h g'.
Proof.
  intros Hinj. induction l1 as [|i l1 IH]; intros [|fuel] h g Hc Hnd Hg Hf; simpl in Hf; try lia; simpl app in *;
    destruct Hc as [E Hc]; cbn [remove_loop]; rewrite E, bind_Ok; apply NoDup_cons in Hnd as [Hni Hnd].
  - rewrite Z.eqb_refl. assert (exists q, deref h (next pr) = Ok q) as [q Eq].
    { destruct l2 as [|k l2]; [by exists None|]. exists (Some k). apply Hc. }
    rewrite Eq, bind_Ok. destruct (assign_spec h g q (Some pr) E) as (h' & Ea & Eg & Ho & Hs).
    exists h'. split; [done|]. split; [|split; [done|]; intros g' Hg' _; by apply Ho].
    assert (forall i, i ∈ l2 -> deref h' (next i) = deref h (next i)) as Hl.
    { intros i Hi. apply Ho, not_eq_sym, Hg. by right. }
    apply (lchain_move _ h _ (next pr)); [congruence|done|done].
  - destruct (Z.eqb_spec i pr) as [->|Hne]; [exfalso; apply Hni, elem_of_app; right; left|].
    destruct (IH fuel h (next i) Hc Hnd) as (h' & Er & Hc' & Hs & Ho); [|lia|].
    { intros k Hk Hke. apply Hinj in Hke as ->. done. }
    exists h'. split; [done|]. split; [|split; [done|]].
    + split; [|done]. rewrite Ho; [done|apply Hg; left|]. intros k Hk. apply Hg. right. apply elem_of_app. by left.
    + intros g' Hg' Hl. apply Ho; [apply Hl; left|]. intros k Hk. apply Hl. by right.
Qed.

(** ** The invariant *)

(** The ghost state of a page: its address, its block type, and the addresses
    of its free blocks in the order of its list. *)
Record page : Type := mk_page { pg_addr : Z; pg_type : Z; pg_free : list Z }.

Definition bsize (b : Z) : Z := 16 * 2 ^ b.
Definition per_page (b : Z) : Z := PAGE_SIZE / bsize b.

(** The address of one of the blocks of the page. *)
Definition on_grid (g : page) (a : Z) : Prop :=
  exists k, 0 <= k < per_page (pg_type g) /\ a = pg_addr g + bsize (pg_type g) * k.

Fixpoint fchain (m : gmap Z Z) (p : Z) (l : list Z) : Prop :=
  match l with
  | [] => p = 0
  | a :: l => p = a /\ exists v, m !! a = Some v /\ fchain m v l
  end.

Definition page_addr_ok (g : page) : Prop :=
  0 <= pg_type g < 8 /\ 0 < pg_addr g /\ pg_addr g `mod` PAGE_SIZE = 0 /\ pg_addr g + PAGE_SIZE < 2 ^ 32.

Definition page_ok (m : gmap Z Z) (r : pageref) (g : page) : Prop :=
  page_addr_ok g /\ pageaddr_and_blocktype r = pg_addr g + pg_type g /\
  NoDup (pg_free g) /\ (forall a, a ∈ pg_free g -> on_grid g a) /\
  nfree r = Z.of_nat (length (pg_free g)) /\
  freelist_offset r = match pg_free g with [] => INVALID_OFFSET | a :: _ => a - pg_addr g end /\
  fchain m (hd 0 (pg_free g)) (pg_free g).

Definition ptype (pgs : gmap Z page) (i : Z) : Z :=
  match pgs !! i with Some g => pg_type g | None => -1 end.

Context (kmem : Z -> Prop) `{!PageLaws P kmem}.

(** [al] lists the pagerefs in use and [pgs] says what they describe; [big]
    holds the large blocks, and [L] every region held of the page allocator,
    by the heap or by others. *)
Record heap_wf h (al : list Z) (pgs : gmap Z page) (big L : gmap Z Z) : Prop := {
  hw_refs : length (pagerefs h) = 256%nat;
  hw_inuse : inuse_ok (pagerefs_inuse h);
  hw_bases : length (sizebases h) = 8%nat;
  hw_nodup : NoDup al;
  hw_index i : i ∈ al -> 0 <= i < 256;
  hw_dom i : i ∈ al <-> is_Some (pgs !! i);
  hw_bits i : 0 <= i < 256 -> bit (pagerefs_inuse h) i = bool_decide (i ∈ al);
  hw_all : lchain NextAll h AllBase al;
  hw_size b : 0 <= b < 8 -> lchain NextSame h (SizeBase b) (filter (fun i => ptype pgs i = b) al);
  hw_page i g : pgs !! i = Some g -> exists r, pagerefs h !! Z.to_nat i = Some r /\ page_ok (words h) r g;
  hw_own i g : pgs !! i = Some g -> L !! pg_addr g = Some 1 /\ big !! pg_addr g = None;
  hw_inj i j g g' : pgs !! i = Some g -> pgs !! j = Some g' -> pg_addr g = pg_addr g' -> i = j;
  hw_big a n : big !! a = Some n -> L !! a = Some n;
  hw_held : held (pages h) L;
  hw_region a n : L !! a = Some n -> 0 < a /\ 0 < n /\ a `mod` PAGE_SIZE = 0 /\ a + n * PAGE_SIZE < 2 ^ 32 /\
    forall x, a <= x < a + n * PAGE_SIZE -> kmem x;
  hw_disj a n b m : L !! a = Some n -> L !! b = Some m -> a <> b -> disjoint_range a (n * PAGE_SIZE) b (m * PAGE_SIZE);
  hw_mem x : kmem x -> x `mod` 4 = 0 -> is_Some (words h !! x);
}.
Global Arguments hw_refs {h al pgs big L}.
Global Arguments hw_inuse {h al pgs big L}.
Global Arguments hw_bases {h al pgs big L}.
Global Arguments hw_nodup {h al pgs big L}.
Global Arguments hw_index {h al pgs big L}.
Global Arguments hw_dom {h al pgs big L}.
Global Arguments hw_bits {h al pgs big L}.
Global Arguments hw_all {h al pgs big L}.
Global Arguments hw_size {h al pgs big L}.
Global Arguments hw_page {h al pgs big L}.
Global Arguments hw_own {h al pgs big L}.
Global Arguments hw_inj {h al pgs big L}.
Global Arguments hw_big {h al pgs big L}.
Global Arguments hw_held {h al pgs big L}.
Global Arguments hw_region {h al pgs big L}.
Global Arguments hw_disj {h al pgs big L}.
Global Arguments hw_mem {h al pgs big L}.

(** The blocks that are allocated. *)
Definition block (pgs : gmap Z page) (big : gmap Z Z) (a n : Z) : Prop :=
  (exists i g, pgs !! i = Some g /\ n = bsize (pg_type g) /\ on_grid g a /\ a ∉ pg_free g) \/
  (exists k, big !! a = Some k /\ n = k * PAGE_SIZE).

(** ** Sizes and addresses *)

Lemma bsize_cases b : 0 <= b < 8 ->
  exists k, bsize b = 16 * k /\ bsize b * per_page b = 4096 /\ 0 < k <= 128 /\ 2 <= per_page b <= 256 /\ load sizes b = Ok (bsize b).
Proof.
  intros Hb. assert (b = 0 \/ b = 1 \/ b = 2 \/ b = 3 \/ b = 4 \/ b = 5 \/ b = 6 \/ b = 7) as Hc by lia.
  exists (2 ^ b). repeat (destruct Hc as [->|Hc]; [repeat split; vm_compute; congruence|]). subst b.
  repeat split; vm_compute; congruence.
Qed.

Lemma pr_pageaddr m r g : page_ok m r g -> PR_PAGEADDR r = pg_addr g.
Proof.
  intros ((Hb & Ha & Hm & Ht) & E & _). unfold PR_PAGEADDR, PAGE_SIZE in *. rewrite E, land_frame by lia. unfold PAGE_SIZE. dlia.
Qed.

Lemma pr_blocktype m r g : page_ok m r g -> PR_BLOCKTYPE r = pg_type g.
Proof.
  intros ((Hb & Ha & Hm & Ht) & E & _). unfold PR_BLOCKTYPE, PAGE_SIZE in *. rewrite E.
  change (u32 (Z.lnot PAGE_FRAME)) with 4095. rewrite land_offset. unfold PAGE_SIZE. dlia.
Qed.

Lemma mkpab pa b : 0 < pa -> pa + PAGE_SIZE < 2 ^ 32 -> pa `mod` PAGE_SIZE = 0 -> 0 <= b < 8 -> MKPAB pa b = pa + b.
Proof.
  intros Hp Ht Hm Hb. unfold MKPAB, PAGE_SIZE in *. rewrite land_frame by lia. change (u32 (Z.lnot PAGE_FRAME)) with 4095.
  rewrite land_offset, lor_offset; unfold PAGE_SIZE; dlia.
Qed.

(** A block of a page is inside of it and aligned. *)
Lemma on_grid_range g a : page_addr_ok g -> on_grid g a ->
  pg_addr g <= a /\ a + bsize (pg_type g) <= pg_addr g + PAGE_SIZE /\ a `mod` 16 = 0.
Proof.
  intros (Hb & Ha & Hm & Ht) (k & Hk & ->). destruct (bsize_cases _ Hb) as (c & Ec & Em & Hc & Hp & _).
  unfold PAGE_SIZE in *. split; [nia|]. split; [nia|]. rewrite Ec.
  replace (pg_addr g + 16 * c * k) with (pg_addr g + c * k * 16) by ring. rewrite Z.mod_add by lia. dlia.
Qed.

(** Two blocks of a page are the same or apart. *)
Lemma on_grid_disjoint g a b : page_addr_ok g -> on_grid g a -> on_grid g b -> a <> b ->
  disjoint_range a (bsize (pg_type g)) b (bsize (pg_type g)).
Proof.
  intros (Hb & _) (k & Hk & ->) (j & Hj & ->) Hne. destruct (bsize_cases _ Hb) as (c & Ec & _ & Hc & _ & _).
  unfold disjoint_range. assert (k <> j) as Hkj by congruence. destruct (decide (k < j)); [left|right]; nia.
Qed.

(** At most as many blocks as fit. *)
Definition grid (g : page) : list Z := (fun k => pg_addr g + bsize (pg_type g) * k) <$> seqZ 0 (per_page (pg_type g)).

Lemma elem_of_grid g a : a ∈ grid g <-> on_grid g a.
Proof.
  unfold grid, on_grid. rewrite list_elem_of_fmap. split.
  - intros (k & -> & Hk%elem_of_seqZ). exists k. split; [lia|done].
  - intros (k & Hk & ->). exists k. split; [done|]. apply elem_of_seqZ. lia.
Qed.

Lemma free_count g l : NoDup l -> (forall a, a ∈ l -> on_grid g a) -> 0 <= pg_type g < 8 ->
  Z.of_nat (length l) <= per_page (pg_type g).
Proof.
  intros Hnd Hl Hb. destruct (bsize_cases _ Hb) as (_ & _ & _ & _ & Hp & _).
  assert (length l <= length (grid g))%nat as Hle.
  { apply NoDup_incl_length; [by apply NoDup_ListNoDup|]. intros a Ha. apply list_elem_of_In, elem_of_grid, Hl, list_elem_of_In, Ha. }
  unfold grid in Hle. rewrite length_fmap, length_seqZ in Hle. lia.
Qed.

Lemma index_count (l : list Z) n : NoDup l -> (forall i, i ∈ l -> 0 <= i < n) -> 0 <= n -> (length l <= Z.to_nat n)%nat.
Proof.
  intros Hnd Hl Hn. rewrite <- (length_seqZ 0 n). apply NoDup_incl_length; [by apply NoDup_ListNoDup|].
  intros i Hi. apply list_elem_of_In, elem_of_seqZ. apply list_elem_of_In, Hl in Hi. lia.
Qed.

(** ** Changes of one page *)

Lemma fchain_ext m m' p l : (forall a, a ∈ l -> m' !! a = m !! a) -> fchain m p l -> fchain m' p l.
Proof.
  revert p. induction l as [|a l IH]; intros p Hm; simpl; [done|]. intros [-> (v & Hv & Hc)]. split; [done|].
  exists v. split; [by rewrite Hm by left|]. apply IH; [|done]. intros b Hb. apply Hm. by right.
Qed.

Lemma page_ok_ext m m' r r' g : page_ok m r g -> (forall a, a ∈ pg_free g -> m' !! a = m !! a) ->
  pageaddr_and_blocktype r' = pageaddr_and_blocktype r -> freelist_offset r' = freelist_offset r -> nfree r' = nfree r ->
  page_ok m' r' g.
Proof.
  intros (A1 & A2 & A3 & A4 & A5 & A6 & A7) Hm E1 E2 E3. unfold page_ok. rewrite E1, E2, E3.
  repeat (split; [done|]). by eapply fchain_ext.
Qed.

(** Changing the data of a pageref and memory changes no link. *)
Lemma deref_data h m i r r' g : pagerefs h !! i = Some r ->
  next_samesize r' = next_samesize r -> next_all r' = next_all r ->
  deref (set_words m (set_pagerefs (<[i := r']> (pagerefs h)) h)) g = deref h g.
Proof.
  intros E Es Ea. apply lookup_lt_Some in E as Hl.
  destruct g as [b| |j|j]; cbn; try done;
    (replace i with (Z.to_nat (Z.of_nat i)) by lia; rewrite load_insert by lia;
     destruct (Z.eqb_spec j (Z.of_nat i)) as [->|]; [|done];
     rewrite (load_Ok (pagerefs h) _ r) by (rewrite ?Nat2Z.id; done || lia); cbn; by rewrite ?Es, ?Ea).
Qed.

Lemma ptype_insert pgs i g g' j : pgs !! i = Some g -> pg_type g' = pg_type g -> ptype (<[i := g']> pgs) j = ptype pgs j.
Proof.
  intros E Et. unfold ptype. destruct (decide (j = i)) as [->|]; [by rewrite lookup_insert_eq, E|].
  by rewrite lookup_insert_ne by done.
Qed.

Lemma filter_ptype pgs pgs' b (l : list Z) : (forall i, i ∈ l -> ptype pgs' i = ptype pgs i) ->
  filter (fun i => ptype pgs' i = b) l = filter (fun i => ptype pgs i = b) l.
Proof.
  intros Hl. induction l as [|i l IH]; [done|]. rewrite !filter_cons, Hl, IH by (left || (intros; apply Hl; by right)). done.
Qed.

Lemma heap_wf_page h al pgs big L i g g' r r' m :
  heap_wf h al pgs big L -> pgs !! i = Some g -> pagerefs h !! Z.to_nat i = Some r ->
  page_ok m r' g' -> pg_addr g' = pg_addr g -> pg_type g' = pg_type g ->
  next_samesize r' = next_samesize r -> next_all r' = next_all r ->
  (forall j g'' a, j <> i -> pgs !! j = Some g'' -> a ∈ pg_free g'' -> m !! a = words h !! a) ->
  (forall x, is_Some (words h !! x) -> is_Some (m !! x)) ->
  heap_wf (set_words m (set_pagerefs (<[Z.to_nat i := r']> (pagerefs h)) h)) al (<[i := g']> pgs) big L.
Proof.
  intros Hwf Eg Er Hok Ha Ht Hs Hn Hm Hd. pose proof (fun g => deref_data h m _ r r' g Er Hs Hn) as Hdr'. pose proof (hw_index Hwf) as Hix.
  assert (i ∈ al) as Hi by (apply (hw_dom Hwf); by eexists).
  split; cbn [pagerefs set_pagerefs set_words pagerefs_inuse sizebases allbase words pages]; try apply Hwf.
  - rewrite length_insert. apply Hwf.
  - intros j. rewrite (hw_dom Hwf). destruct (decide (j = i)) as [->|];
      [rewrite lookup_insert_eq, Eg; split; by eexists|by rewrite lookup_insert_ne].
  - apply (lchain_ext _ h); [by apply Hdr'|intros; by apply Hdr'|apply Hwf].
  - intros b Hb. rewrite (filter_ptype pgs) by (intros; by eapply ptype_insert).
    apply (lchain_ext _ h); [by apply Hdr'|intros; by apply Hdr'|by apply Hwf].
  - intros j g'' Hj. destruct (decide (j = i)) as [->|Hne].
    + rewrite lookup_insert_eq in Hj. injection Hj as <-. exists r'. split; [|done]. apply list_lookup_insert_eq.
      by apply lookup_lt_Some in Er.
    + rewrite lookup_insert_ne in Hj by done. destruct (hw_page Hwf j g'' Hj) as (r2 & E2 & Hok2).
      assert (j ∈ al) as Hjal by (apply (hw_dom Hwf); by eexists).
      exists r2. rewrite list_lookup_insert_ne by (apply Hix in Hjal, Hi; lia). split; [done|].
      eapply page_ok_ext; try done. intros a Haf. by apply (Hm j g'').
  - intros j g'' [[<- <-]|[_ Hj]]%lookup_insert_Some; [rewrite Ha|]; by eapply (hw_own Hwf).
  - intros j k g1 g2 [[<- <-]|[_ Hj]]%lookup_insert_Some [[<- <-]|[_ Hk]]%lookup_insert_Some; rewrite ?Ha; intros E;
      [done|by eapply (hw_inj Hwf)..].
  - intros x Hx Hx4. apply Hd. by apply (hw_mem Hwf).
Qed.

(** [doalloc] takes the first free block off the list of its page. *)
Lemma doalloc_spec h al pgs big L i g a fl :
  heap_wf h al pgs big L -> pgs !! i = Some g -> pg_free g = a :: fl ->
  exists h', doalloc h i = Ok (h', a) /\ words h' = words h /\
    heap_wf h' al (<[i := mk_page (pg_addr g) (pg_type g) fl]> pgs) big L.
Proof.
  intros Hwf Eg Ef. destruct (hw_page Hwf i g Eg) as (r & Er & Hok).
  assert (0 <= i) as Hi by (apply (hw_index Hwf), (hw_dom Hwf); by eexists).
  pose proof (pr_pageaddr _ _ _ Hok) as Epa. pose proof Hok as (Hga & Epab & Hnd & Hgr & Enf & Eo & Hc).
  pose proof Hga as (Hb & Hp & Hpm & Hpt). pose proof (free_count g (pg_free g) Hnd Hgr Hb) as Hcnt.
  destruct (bsize_cases _ Hb) as (c & Ec & Em & Hcr & Hpp & _). rewrite Ef in *. simpl in Enf, Hcnt.
  destruct (on_grid_range g a Hga (Hgr a ltac:(left))) as (R1 & R2 & R3).
  cbn [fchain hd] in Hc. destruct Hc as (_ & v & Hv & Hc). unfold PAGE_SIZE in *.
  unfold doalloc. rewrite (load_Ok _ _ r), bind_Ok by done. rewrite Eo, Epa. unfold PAGE_SIZE. pass_assert. cbv zeta.
  replace (u32 (pg_addr g + (a - pg_addr g))) with a by (rewrite u32_small; lia).
  unfold peek. rewrite Hv, bind_Ok. cbn [nfree set_nfree]. rewrite Enf, (u16_small (Z.of_nat (S (length fl)) - 1)) by lia.
  assert (forall o, page_ok (words h) (set_offset o (set_nfree (Z.of_nat (S (length fl)) - 1) r)) (mk_page (pg_addr g) (pg_type g) fl) ->
    heap_wf (set_pagerefs (<[Z.to_nat i := set_offset o (set_nfree (Z.of_nat (S (length fl)) - 1) r)]> (pagerefs h)) h) al
      (<[i := mk_page (pg_addr g) (pg_type g) fl]> pgs) big L) as Hnew.
  { intros o Ho. pose proof (heap_wf_page h al pgs big L i g _ r _ (words h) Hwf Eg Er Ho) as Hw. destruct h. by apply Hw. }
  assert (forall o, o = match fl with [] => INVALID_OFFSET | b :: _ => b - pg_addr g end ->
    page_ok (words h) (set_offset o (set_nfree (Z.of_nat (S (length fl)) - 1) r)) (mk_page (pg_addr g) (pg_type g) fl)) as Hpok.
  { intros o ->. apply NoDup_cons in Hnd as [_ Hnd]. split; [done|]. split; [done|]. split; [done|].
    split; [intros x Hx; apply (Hgr x); by right|]. split; [cbn; lia|]. split; [done|]. cbn. destruct fl; [done|].
    destruct Hc as [-> Hc]. by split. }
  pose proof (lookup_lt_Some _ _ _ Er) as Hlt. destruct fl as [|b fl]; cbn [fchain] in Hc.
  - subst v. cbn [negb Z.eqb]. simpl length. pass_assert. rewrite store_in_range, bind_Ok by lia.
    eexists. split; [done|]. split; [done|]. apply Hnew. by apply Hpok.
  - destruct Hc as [-> Hc]. destruct (on_grid_range g b Hga (Hgr b ltac:(right; left))) as (S1 & S2 & S3).
    destruct (Z.eqb_spec b 0); [lia|]. cbn [negb]. simpl length. pass_assert. unfold PAGE_SIZE in *.
    rewrite (u32_small (b - pg_addr g)) by lia. pass_assert. rewrite store_in_range, bind_Ok by lia.
    eexists. split; [done|]. split; [done|]. apply Hnew. apply Hpok. rewrite u16_small; lia.
Qed.

(** [find_page] finds a page with a free block if there is one. *)
Lemma find_page_spec h al pgs big L b : heap_wf h al pgs big L -> forall l fuel g,
  lchain NextSame h g l -> (forall i, i ∈ l -> exists g, pgs !! i = Some g /\ pg_type g = b) -> (length l < fuel)%nat ->
  exists p, deref h g = Ok p /\ exists q, find_page fuel h p b = Ok q /\
    match q with
    | Some i => exists g a fl, pgs !! i = Some g /\ pg_type g = b /\ pg_free g = a :: fl
    | None => forall i g, i ∈ l -> pgs !! i = Some g -> pg_free g = []
    end.
Proof.
  intros Hwf. induction l as [|i l IH]; intros [|fuel] gg Hc Hl Hf; simpl in Hf; try lia.
  - exists None. split; [done|]. exists None. split; [done|]. intros i g Hi. by apply not_elem_of_nil in Hi.
  - destruct Hc as [E Hc]. exists (Some i). split; [done|]. cbn [find_page].
    destruct (Hl i ltac:(left)) as (g & Eg & Et). destruct (hw_page Hwf i g Eg) as (r & Er & Hok).
    assert (0 <= i) as Hi by (apply (hw_index Hwf), (hw_dom Hwf); by eexists).
    rewrite (load_Ok _ _ r), bind_Ok by done. rewrite (pr_blocktype _ _ _ Hok), Et, Z.eqb_refl. cbn [assert]. rewrite bind_Ok.
    pose proof Hok as (_ & _ & _ & _ & Enf & _). rewrite Enf, Z.gtb_ltb.
    destruct (pg_free g) as [|a fl] eqn:Ef; simpl length.
    + cbn [Z.ltb]. destruct (IH fuel (NextSame i) Hc) as (p & Ep & q & Eq & Hq); [intros j Hj; apply Hl; by right|lia|].
      cbn [deref] in Ep. rewrite (load_Ok _ _ r), bind_Ok in Ep by done. injection Ep as ->.
      change (0 <? Z.of_nat 0) with false. exists q. split; [done|]. destruct q; [done|].
      intros j g' [->|Hj]%elem_of_cons Hg'; [congruence|by apply (Hq j)].
    + destruct (Z.ltb_spec 0 (Z.of_nat (S (length fl)))); [|lia]. exists (Some i). split; [done|]. by exists g, a, fl.
Qed.

(** ** A fresh page *)

(** The first [k] blocks, the last one first. *)
Fixpoint grid_down (a size : Z) (k : nat) : list Z :=
  match k with O => [] | S k => (a + size * Z.of_nat k) :: grid_down a size k end.

Lemma elem_of_grid_down a size k x : x ∈ grid_down a size k <-> exists j, (j < k)%nat /\ x = a + size * Z.of_nat j.
Proof.
  induction k as [|k IH]; simpl.
  - split; [by intros ?%not_elem_of_nil|intros (j & Hj & _); lia].
  - rewrite elem_of_cons, IH. split.
    + intros [->|(j & Hj & ->)]; [exists k|exists j]; split; lia || done.
    + intros (j & Hj & ->). destruct (decide (j = k)) as [->|]; [by left|]. right. exists j. split; [lia|done].
Qed.

Lemma NoDup_grid_down a size k : 0 < size -> NoDup (grid_down a size k).
Proof.
  intros Hs. induction k as [|k IH]; simpl; constructor; [|done]. intros (j & Hj & E)%elem_of_grid_down. nia.
Qed.

Lemma length_grid_down a size k : length (grid_down a size k) = k.
Proof. induction k; simpl; lia. Qed.

Lemma poke_spec h a v : is_Some (words h !! a) -> poke h a v = Ok (set_words (<[a := v]> (words h)) h).
Proof. intros [w E]. unfold poke. by rewrite E. Qed.

(** [m'] differs from [m] inside the [n] bytes at [a] only. *)
Definition changes_only (m m' : gmap Z Z) (a n : Z) : Prop :=
  (forall x, ~ (a <= x < a + n) -> m' !! x = m !! x) /\ (forall x, is_Some (m !! x) -> is_Some (m' !! x)).

Lemma changes_only_refl m a n : changes_only m m a n.
Proof. done. Qed.

Lemma changes_only_trans m1 m2 m3 a n : changes_only m1 m2 a n -> changes_only m2 m3 a n -> changes_only m1 m3 a n.
Proof. intros [A1 A2] [B1 B2]. split; [|by eauto]. intros x Hx. by rewrite B1, A1. Qed.

Lemma changes_only_insert m x v a n : a <= x < a + n -> changes_only m (<[x := v]> m) a n.
Proof.
  intros Hx. split; intros y Hy; [by rewrite lookup_insert_ne by (intros ->; done)|].
  destruct (decide (y = x)) as [->|]; [by rewrite lookup_insert_eq|by rewrite lookup_insert_ne].
Qed.

Lemma changes_only_weaken m m' a n b k : changes_only m m' a n -> b <= a -> a + n <= b + k -> changes_only m m' b k.
Proof. intros [A1 A2] Hb Hk. split; [|done]. intros x Hx. apply A1. lia. Qed.

Lemma format_loop_spec a size N : 0 < a -> 16 <= size -> size * Z.of_nat N = PAGE_SIZE -> a + PAGE_SIZE < 2 ^ 32 ->
  forall rounds h i, (0 < i)%nat -> (i + rounds = N)%nat ->
  (forall k, (k < N)%nat -> is_Some (words h !! (a + size * Z.of_nat k))) ->
  fchain (words h) (a + size * Z.of_nat (i - 1)) (grid_down a size i) ->
  exists m, format_loop rounds h a size (Z.of_nat i) (a + size * Z.of_nat (i - 1)) =
      Ok (set_words m h, a + size * Z.of_nat (N - 1)) /\
    fchain m (a + size * Z.of_nat (N - 1)) (grid_down a size N) /\ changes_only (words h) m a PAGE_SIZE.
Proof.
  unfold PAGE_SIZE. intros Ha Hs HN Ht. induction rounds as [|rounds IH]; intros h i Hi Hr Hm Hc; cbn [format_loop].
  { exists (words h). replace i with N in * by lia. split; [by destruct h|]. split; [done|apply changes_only_refl]. }
  cbv zeta.
  assert (0 <= size * Z.of_nat i) by nia. assert (size * Z.of_nat i + size <= 4096) by nia.
  assert (Z.of_nat (i - 1) = Z.of_nat i - 1) as Ei by lia. rewrite Ei in *.
  rewrite (Z.mul_comm (Z.of_nat i)), (Z.mul_comm (Z.of_nat i - 1)). rewrite (u32_small (a + size * Z.of_nat i)) by lia.
  rewrite (u32_small (a + size * (Z.of_nat i - 1))) by nia. rewrite poke_spec, bind_Ok by (apply Hm; lia).
  destruct (Z.eqb_spec (a + size * Z.of_nat i) (a + size * (Z.of_nat i - 1))); [nia|]. cbn [negb assert]. rewrite bind_Ok.
  set (h2 := set_words _ h). replace (Z.of_nat i + 1) with (Z.of_nat (S i)) by lia.
  destruct (IH h2 (S i)) as (m & E & Hc2 & Hch); [lia|lia|..].
  - intros k Hk. cbn. apply (changes_only_insert (words h) _ (a + size * (Z.of_nat i - 1)) a 4096); [lia|by apply Hm].
  - cbn [grid_down fchain]. replace (S i - 1)%nat with i by lia. split; [done|]. eexists. cbn.
    rewrite lookup_insert_eq. split; [done|]. eapply fchain_ext; [|exact Hc].
    intros x (j & Hj & ->)%elem_of_grid_down. apply lookup_insert_ne. nia.
  - replace (S i - 1)%nat with i in E by lia. rewrite E. exists m. split; [by destruct h|]. split; [done|].
    eapply changes_only_trans; [|exact Hch]. apply changes_only_insert. lia.
Qed.

(** The page with all its blocks free, as [newpage] leaves it. *)
Definition fresh_page (a b : Z) : page := mk_page a b (grid_down a (bsize b) (Z.to_nat (per_page b))).

Definition with_page h (i a b : Z) (sb : option Z) (m : gmap Z Z) : kheap P :=
  mk_kheap (<[Z.to_nat i := mk_pageref sb (allbase h) (a + b) (bsize b * (per_page b - 1)) (per_page b)]> (pagerefs h))
    (pagerefs_inuse h) (<[Z.to_nat b := Some i]> (sizebases h)) (Some i) m (pages h).

Lemma newpage_spec h i a b sb :
  0 <= i < Z.of_nat (length (pagerefs h)) -> 0 <= b < 8 -> sizebases h !! Z.to_nat b = Some sb ->
  page_addr_ok (fresh_page a b) ->
  (forall x, a <= x < a + PAGE_SIZE -> x `mod` 4 = 0 -> is_Some (words h !! x)) ->
  exists m, newpage h i a b = Ok (with_page h i a b sb m) /\ changes_only (words h) m a PAGE_SIZE /\
    fchain m (a + bsize b * (per_page b - 1)) (pg_free (fresh_page a b)).
Proof.
  intros Hi Hb Esb (_ & Ha & Ham & Hat) Hm. cbn [pg_addr fresh_page] in *.
  destruct (bsize_cases b Hb) as (c & Ec & Em & Hc & Hp & Es). destruct (load_in_range (pagerefs h) i Hi) as (r & _ & Er).
  assert (forall k, (k < Z.to_nat (per_page b))%nat -> is_Some (words h !! (a + bsize b * Z.of_nat k))) as Hg.
  { intros k Hk. apply Hm; [unfold PAGE_SIZE; nia|]. rewrite Ec.
    replace (a + 16 * c * Z.of_nat k) with (a + 4 * c * Z.of_nat k * 4) by ring. rewrite Z.mod_add by lia. unfold PAGE_SIZE in Ham. dlia. }
  unfold newpage. rewrite Es, bind_Ok. cbv zeta. fold (per_page b). rewrite (u16_small (per_page b)) by lia.
  rewrite (modify_spec _ _ _ r), bind_Ok by (done || lia). rewrite mkpab by done.
  set (h1 := set_pagerefs _ h). assert (is_Some (words h1 !! a)) as Ha0.
  { specialize (Hg 0%nat ltac:(lia)). by rewrite Z.mul_0_r, Z.add_0_r in Hg. }
  rewrite poke_spec, bind_Ok by done. set (h2 := set_words _ h1).
  destruct (format_loop_spec a (bsize b) (Z.to_nat (per_page b)) Ha ltac:(lia) ltac:(unfold PAGE_SIZE; lia) Hat
              (Z.to_nat (per_page b - 1)) h2 1) as (m & E & Hc2 & Hch); [lia|lia| | |].
  { intros k Hk. apply (changes_only_insert (words h) a 0 a 4096); [lia|by apply Hg]. }
  { simpl. rewrite Z.mul_0_r, Z.add_0_r. split; [done|]. exists 0. by rewrite lookup_insert_eq. }
  change (Z.of_nat 1) with 1 in E. change (Z.of_nat (1 - 1)) with 0 in E. rewrite Z.mul_0_r, Z.add_0_r in E. rewrite E, bind_Ok.
  replace (Z.of_nat (Z.to_nat (per_page b) - 1)) with (per_page b - 1) in * by lia.
  replace (a + bsize b * (per_page b - 1) - a) with (bsize b * (per_page b - 1)) by ring.
  assert (0 <= bsize b * (per_page b - 1) < 4096) as Ho by nia. rewrite (u32_small (bsize b * _)), u16_small by lia.
  pose proof (lookup_lt_Some _ _ _ Er) as Hlt.
  erewrite modify_spec by (lia || (cbn; by apply list_lookup_insert_eq)). rewrite bind_Ok.
  rewrite (Z.mul_comm (per_page b - 1)), u32_small, Z.eqb_refl by lia. cbn [assert]. rewrite bind_Ok. cbn -[Z.to_nat per_page bsize].
  pose proof (lookup_lt_Some _ _ _ Esb) as Hlb. rewrite (load_Ok _ _ sb), bind_Ok by (done || lia).
  erewrite modify_spec by (lia || (cbn; apply list_lookup_insert_eq; by rewrite length_insert)). rewrite bind_Ok.
  cbn -[Z.to_nat per_page bsize]. rewrite store_in_range, bind_Ok by lia.
  erewrite modify_spec by (lia || (cbn; apply list_lookup_insert_eq; by rewrite !length_insert)). rewrite bind_Ok.
  cbn -[Z.to_nat per_page bsize]. rewrite !list_insert_insert_eq. exists m. split; [done|]. split; [|done].
  eapply changes_only_trans; [|exact Hch]. apply changes_only_insert. unfold PAGE_SIZE. lia.
Qed.

Lemma fresh_page_ok m a b r : page_addr_ok (fresh_page a b) ->
  pageaddr_and_blocktype r = a + b -> nfree r = per_page b -> freelist_offset r = bsize b * (per_page b - 1) ->
  fchain m (a + bsize b * (per_page b - 1)) (pg_free (fresh_page a b)) -> page_ok m r (fresh_page a b).
Proof.
  intros Hga E1 E2 E3 Hc. pose proof Hga as (Hb & _). cbn in Hb. destruct (bsize_cases b Hb) as (c & Ec & Em & Hcr & Hp & _).
  split; [done|]. split; [done|]. cbn [pg_free fresh_page]. split; [apply NoDup_grid_down; lia|]. split.
  { intros x (j & Hj & ->)%elem_of_grid_down. exists (Z.of_nat j). cbn. split; [lia|done]. }
  rewrite length_grid_down. split; [lia|]. cbn [fresh_page pg_free] in Hc.
  destruct (Z.to_nat (per_page b)) as [|k] eqn:Ek; [lia|]. cbn [grid_down hd pg_addr fresh_page].
  split; [rewrite E3; replace (per_page b - 1) with (Z.of_nat k) by lia; lia|].
  replace (per_page b - 1) with (Z.of_nat k) in Hc by lia. exact Hc.
Qed.

(** The links after [newpage]: the page is first in both lists. *)
Lemma deref_with_page h i a b sb m g :
  0 <= i < Z.of_nat (length (pagerefs h)) -> 0 <= b < Z.of_nat (length (sizebases h)) ->
  deref (with_page h i a b sb m) g =
    match g with
    | SizeBase b' => if b' =? b then Ok (Some i) else deref h g
    | AllBase => Ok (Some i)
    | NextSame j => if j =? i then Ok sb else deref h g
    | NextAll j => if j =? i then Ok (allbase h) else deref h g
    end.
Proof.
  intros Hi Hb. destruct g as [b'| |j|j]; cbn -[load]; try done; rewrite load_insert by done; try done; by case_match.
Qed.

(** A page of the heap is inside one of its regions. *)
Lemma free_in_region h al pgs big L i g x : heap_wf h al pgs big L -> pgs !! i = Some g -> on_grid g x ->
  L !! pg_addr g = Some 1 /\ pg_addr g <= x /\ x + bsize (pg_type g) <= pg_addr g + PAGE_SIZE /\ x `mod` 16 = 0.
Proof.
  intros Hwf Eg Hx. destruct (hw_page Hwf i g Eg) as (r & _ & Hga & _).
  destruct (hw_own Hwf i g Eg) as [HL _]. split; [done|]. by apply on_grid_range.
Qed.

(** The lists of pages by size after [newpage]. *)
Lemma newpage_lists h h1 al pgs big L i a b sb m b' :
  heap_wf h al pgs big L -> i ∉ al -> 0 <= b' < 8 -> deref h (SizeBase b) = Ok sb ->
  (forall g, deref (with_page h1 i a b sb m) g =
    match g with
    | SizeBase b' => if b' =? b then Ok (Some i) else deref h g
    | AllBase => Ok (Some i)
    | NextSame j => if j =? i then Ok sb else deref h g
    | NextAll j => if j =? i then Ok (allbase h) else deref h g
    end) ->
  lchain NextSame (with_page h1 i a b sb m) (SizeBase b') (filter (fun j => ptype (<[i := fresh_page a b]> pgs) j = b') (i :: al)).
Proof.
  intros Hwf Hni Hb' Lsb Hdr.
  rewrite filter_cons. rewrite (filter_ptype pgs) by (intros j Hj; unfold ptype; by rewrite lookup_insert_ne by congruence).
  assert (ptype (<[i := fresh_page a b]> pgs) i = b) as Ept by (unfold ptype; by rewrite lookup_insert_eq).
  assert (lchain NextSame (with_page h1 i a b sb m) (if decide (b = b') then NextSame i else SizeBase b')
            (filter (fun j => ptype pgs j = b') al)) as Hc'.
  { pose proof (hw_size Hwf b' Hb') as Hs. set (l := filter _ al) in *.
    assert (forall j, j ∈ l -> deref (with_page h1 i a b sb m) (NextSame j) = deref h (NextSame j)) as Hn.
    { intros j Hj. rewrite Hdr. apply list_elem_of_filter in Hj as [_ Hj]. destruct (Z.eqb_spec j i); [congruence|done]. }
    apply (lchain_move _ h _ (SizeBase b')); [|done|done]. case_decide as Hbb; rewrite Hdr.
    - subst b'. by rewrite Z.eqb_refl.
    - destruct (Z.eqb_spec b' b); [congruence|done]. }
  case_decide as Hbb; [rewrite decide_True by (by rewrite Ept)|by rewrite decide_False by (by rewrite Ept)].
  split; [|done]. by rewrite Hdr, Hbb, Z.eqb_refl.
Qed.

(** What is written to fresh memory does not touch the pages of the heap. *)
Lemma page_ok_outside h al pgs big L j g r m a :
  heap_wf h al pgs big L -> pgs !! j = Some g -> page_ok (words h) r g -> changes_only (words h) m a PAGE_SIZE ->
  (forall c n, L !! c = Some n -> disjoint_range a PAGE_SIZE c (n * PAGE_SIZE)) -> page_ok m r g.
Proof.
  intros Hwf Hj Hpok Hch Hd. eapply page_ok_ext; try done. intros x Hx. apply (proj1 Hch). pose proof Hpok as (Hgj & _ & _ & Hgr & _).
  destruct (free_in_region _ _ _ _ _ _ _ _ Hwf Hj (Hgr x Hx)) as (HL & X1 & X2 & _).
  destruct (bsize_cases _ (proj1 Hgj)) as (c & Ec & _ & Hcr & _). destruct (Hd _ _ HL); unfold PAGE_SIZE in *; lia.
Qed.

Lemma heap_wf_newpage h al pgs big L i ws s a b :
  heap_wf h al pgs big L -> 0 <= i < 256 -> bit (pagerefs_inuse h) i = false -> bit_update (pagerefs_inuse h) ws i true ->
  kpages_alloc (pages h) 1 = (s, a) -> a <> 0 -> 0 <= b < 8 ->
  exists h', newpage (set_pages s (set_inuse ws h)) i a b = Ok h' /\ changes_only (words h) (words h') a PAGE_SIZE /\
    L !! a = None /\ (forall c n, L !! c = Some n -> disjoint_range a PAGE_SIZE c (n * PAGE_SIZE)) /\
    heap_wf h' (i :: al) (<[i := fresh_page a b]> pgs) big (<[a := 1]> L).
Proof.
  intros Hwf Hi Hbit [Hok Hup] Ek Ha0 Hb.
  destruct (held_alloc _ _ 1 _ _ (hw_held Hwf) ltac:(lia) Ek) as [[? _]|(Ha & Ham & Hat & Hkm & Hd & Hheld)]; [done|].
  rewrite Z.mul_1_l in *. set (h1 := set_pages s (set_inuse ws h)).
  assert (i ∉ al) as Hni. { rewrite (hw_bits Hwf i Hi) in Hbit. by apply bool_decide_eq_false in Hbit. }
  assert (pgs !! i = None) as Epi. { apply eq_None_not_Some. by rewrite <- (hw_dom Hwf i). }
  assert (L !! a = None) as ELa.
  { apply eq_None_not_Some. intros [n En]. destruct (hw_region Hwf a n En) as (_ & Hn & _).
    destruct (Hd a n En); unfold PAGE_SIZE in *; lia. }
  pose proof (hw_refs Hwf) as Hl. pose proof (hw_bases Hwf) as Hlb.
  destruct (load_in_range (sizebases h) b) as (sb & Lsb & Esb); [lia|].
  assert (page_addr_ok (fresh_page a b)) as Hga by done.
  destruct (newpage_spec h1 i a b sb) as (m & E & Hch & Hc); [cbn; lia|done|done|done| |].
  { intros x Hx Hx4. apply (hw_mem Hwf); [by apply Hkm|done]. }
  pose proof (fun g => deref_with_page h1 i a b sb m g ltac:(cbn; lia) ltac:(cbn; lia)) as Hdr.
  exists (with_page h1 i a b sb m). do 2 (split; [done|]). split; [done|]. split; [done|]. split; cbn [with_page pagerefs pagerefs_inuse sizebases words pages h1 set_pages set_inuse].
  - rewrite length_insert. apply Hwf.
  - done.
  - rewrite length_insert. apply Hwf.
  - constructor; [done|apply Hwf].
  - intros j [->|Hj]%elem_of_cons; [done|by apply (hw_index Hwf)].
  - intros j. rewrite elem_of_cons, (hw_dom Hwf). destruct (decide (j = i)) as [->|Hne].
    + rewrite lookup_insert_eq. split; [by eexists|by left].
    + rewrite lookup_insert_ne by done. split; [by intros [->|?]|by right].
  - intros j Hj. rewrite Hup by done. destruct (Z.eqb_spec j i) as [->|Hne].
    + symmetry. apply bool_decide_eq_true. left.
    + rewrite (hw_bits Hwf) by done. apply bool_decide_ext. rewrite elem_of_cons. split; [by right|by intros [->|?]].
  - split; [by rewrite Hdr|]. apply (lchain_move _ h _ AllBase); [by rewrite Hdr, Z.eqb_refl| |apply Hwf].
    intros j Hj. rewrite Hdr. destruct (Z.eqb_spec j i); [congruence|done].
  - intros b' Hb'. by eapply newpage_lists.
  - intros j g [[<- <-]|[Hne Hj]]%lookup_insert_Some.
    + eexists. split; [apply list_lookup_insert_eq; lia|]. by apply fresh_page_ok.
    + destruct (hw_page Hwf j g Hj) as (r & Er & Hpok). exists r.
      assert (0 <= j) by (apply (hw_index Hwf), (hw_dom Hwf); by eexists).
      rewrite list_lookup_insert_ne by lia. split; [done|]. by eapply page_ok_outside.
  - intros j g [[<- <-]|[Hne Hj]]%lookup_insert_Some; cbn [fresh_page pg_addr].
    + rewrite lookup_insert_eq. split; [done|]. destruct (big !! a) eqn:Eb; [|done]. apply (hw_big Hwf) in Eb. congruence.
    + destruct (hw_own Hwf j g Hj) as [HL HB]. split; [|done]. rewrite lookup_insert_ne; [done|]. congruence.
  - intros j k g g' [[<- <-]|[Hne Hj]]%lookup_insert_Some [[<- <-]|[Hne' Hk]]%lookup_insert_Some; cbn [fresh_page pg_addr]; intros E'.
    + done.
    + apply (hw_own Hwf) in Hk as [Hk _]. congruence.
    + apply (hw_own Hwf) in Hj as [Hj _]. congruence.
    + by apply (hw_inj Hwf _ _ _ _ Hj Hk).
  - intros c n Hc0. apply (hw_big Hwf) in Hc0. rewrite lookup_insert_ne; [done|congruence].
  - exact Hheld.
  - intros c n [[<- <-]|[Hne Hc0]]%lookup_insert_Some; [|by apply (hw_region Hwf)]. rewrite Z.mul_1_l. repeat split; done || lia.
  - intros c n d n' [[<- <-]|[Hne Hc0]]%lookup_insert_Some [[<- <-]|[Hne' Hd0]]%lookup_insert_Some Hcd; rewrite ?Z.mul_1_l.
    + done.
    + by apply Hd.
    + apply Hd in Hc0. unfold disjoint_range in *. lia.
    + by apply (hw_disj Hwf).
  - intros x Hx Hx4. apply (proj2 Hch). by apply (hw_mem Hwf).
Qed.

(** ** Changes of the table and of the page allocator *)

Lemma heap_wf_table h al pgs big L ws s :
  heap_wf h al pgs big L -> inuse_ok ws -> (forall i, 0 <= i < 256 -> bit ws i = bit (pagerefs_inuse h) i) -> held s L ->
  heap_wf (set_pages s (set_inuse ws h)) al pgs big L.
Proof.
  intros Hwf Hok Hb Hs. split; try apply Hwf; try done.
  - intros i Hi. rewrite <- (hw_bits Hwf i Hi). by apply Hb.
  - apply (lchain_ext _ h); [done|done|apply Hwf].
  - intros b Hb'. apply (lchain_ext _ h); [done|done|by apply Hwf].
Qed.

(** A large block is a region of its own. *)
Lemma heap_wf_big h al pgs big L s a n :
  heap_wf h al pgs big L -> kpages_alloc (pages h) n = (s, a) -> 0 < n <= 524288 -> a <> 0 ->
  heap_wf (set_pages s h) al pgs (<[a := n]> big) (<[a := n]> L) /\ L !! a = None /\ 0 < a.
Proof.
  intros Hwf Ek Hn Ha0.
  destruct (held_alloc _ _ n _ _ (hw_held Hwf) Hn Ek) as [[? _]|(Ha & Ham & Hat & Hkm & Hd & Hheld)]; [done|].
  assert (L !! a = None) as ELa.
  { apply eq_None_not_Some. intros [k Ek2]. destruct (hw_region Hwf a k Ek2) as (_ & Hk & _).
    destruct (Hd a k Ek2); unfold PAGE_SIZE in *; lia. }
  split; [|done]. split; try apply Hwf; try done.
  - apply (lchain_ext _ h); [done|done|apply Hwf].
  - intros b Hb. apply (lchain_ext _ h); [done|done|by apply Hwf].
  - intros i g Hi. destruct (hw_own Hwf i g Hi) as [HL HB]. rewrite !lookup_insert_ne by congruence. done.
  - intros c k [[<- <-]|[Hne Hc]]%lookup_insert_Some; [by rewrite lookup_insert_eq|].
    rewrite lookup_insert_ne by done. by apply (hw_big Hwf).
  - intros c k [[<- <-]|[Hne Hc]]%lookup_insert_Some; [|by apply (hw_region Hwf)]. repeat split; done || lia.
  - intros c k d k' [[<- <-]|[Hne Hc0]]%lookup_insert_Some [[<- <-]|[Hne' Hd0]]%lookup_insert_Some Hcd.
    + done.
    + by apply Hd.
    + apply Hd in Hc0. unfold disjoint_range in *. lia.
    + by apply (hw_disj Hwf).
Qed.

(** ** Blocks *)

(** A block lies in one region. *)
Lemma block_region h al pgs big L a n : heap_wf h al pgs big L -> block pgs big a n ->
  0 < n /\ a `mod` 16 = 0 /\ exists b k, L !! b = Some k /\ b <= a /\ a + n <= b + k * PAGE_SIZE.
Proof.
  intros Hwf [(i & g & Eg & -> & Hg & _)|(k & Ek & ->)].
  - destruct (free_in_region _ _ _ _ _ _ _ _ Hwf Eg Hg) as (HL & H1 & H2 & H3).
    destruct (hw_page Hwf i g Eg) as (r & _ & (Hb & _) & _). destruct (bsize_cases _ Hb) as (c & Ec & _ & Hc & _).
    split; [lia|]. split; [done|]. exists (pg_addr g), 1. split; [done|]. lia.
  - apply (hw_big Hwf) in Ek. destruct (hw_region Hwf a k Ek) as (Ha & Hk & Hm & _).
    unfold PAGE_SIZE in *. split; [lia|]. split; [dlia|]. exists a, k. split; [done|]. lia.
Qed.

Lemma block_pos h al pgs big L a n : heap_wf h al pgs big L -> block pgs big a n -> 0 < a /\ 0 < n /\ a + n < 2 ^ 32.
Proof.
  intros Hwf Hb. destruct (block_region _ _ _ _ _ _ _ Hwf Hb) as (Hn & _ & b & k & HL & H1 & H2).
  destruct (hw_region Hwf b k HL) as (? & ? & ? & ? & ?). lia.
Qed.

(** Blocks that touch are the same. *)
Lemma block_disjoint h al pgs big L a n b m : heap_wf h al pgs big L -> block pgs big a n -> block pgs big b m ->
  a = b /\ n = m \/ disjoint_range a n b m.
Proof.
  intros Hwf Ha Hb.
  assert (forall c k, L !! c = Some k -> 0 < c /\ 0 < k) as Hreg by (intros c k Hc; apply (hw_region Hwf) in Hc; lia).
  assert (forall x n y m cx cy kx ky, L !! cx = Some kx -> L !! cy = Some ky -> cx <> cy -> cx <= x -> x + n <= cx + kx * PAGE_SIZE ->
            cy <= y -> y + m <= cy + ky * PAGE_SIZE -> disjoint_range x n y m) as Hsep.
  { intros x n' y m' cx cy kx ky Hx Hy Hne. intros. destruct (hw_disj Hwf cx kx cy ky Hx Hy Hne); unfold disjoint_range; lia. }
  destruct Ha as [(i & g & Eg & -> & Hga & _)|(k & Ek & ->)], Hb as [(j & g' & Eg' & -> & Hgb & _)|(k' & Ek' & ->)].
  - destruct (decide (i = j)) as [->|Hij].
    + rewrite Eg in Eg'. injection Eg' as <-. destruct (decide (a = b)) as [->|]; [by left|]. right.
      destruct (hw_page Hwf j g Eg) as (r & _ & Hok & _). by apply on_grid_disjoint.
    + right. destruct (free_in_region _ _ _ _ _ _ _ _ Hwf Eg Hga) as (HL & ? & ? & _).
      destruct (free_in_region _ _ _ _ _ _ _ _ Hwf Eg' Hgb) as (HL' & ? & ? & _).
      apply (Hsep _ _ _ _ (pg_addr g) (pg_addr g') 1 1); try (done || lia).
      intros E. by apply Hij, (hw_inj Hwf i j g g').
  - right. destruct (free_in_region _ _ _ _ _ _ _ _ Hwf Eg Hga) as (HL & ? & ? & _). destruct (hw_own Hwf i g Eg) as [_ HB].
    apply (Hsep _ _ _ _ (pg_addr g) b 1 k'); try (done || lia); [by apply (hw_big Hwf)|congruence].
  - right. destruct (free_in_region _ _ _ _ _ _ _ _ Hwf Eg' Hgb) as (HL & ? & ? & _). destruct (hw_own Hwf j g' Eg') as [_ HB].
    apply (Hsep _ _ _ _ a (pg_addr g') k 1); try (done || lia); [by apply (hw_big Hwf)|congruence].
  - destruct (decide (a = b)) as [->|Hab]; [left; split; [done|congruence]|]. right.
    apply (hw_big Hwf) in Ek, Ek'. by apply (hw_disj Hwf).
Qed.

(** Taking a free block allocates it. *)
Lemma block_take pgs big i g a fl x n : pgs !! i = Some g -> pg_free g = a :: fl -> NoDup (pg_free g) ->
  (forall y, y ∈ pg_free g -> on_grid g y) ->
  (block (<[i := mk_page (pg_addr g) (pg_type g) fl]> pgs) big x n <->
   block pgs big x n \/ x = a /\ n = bsize (pg_type g)).
Proof.
  intros Eg Ef Hnd Hgr. rewrite Ef in *. split.
  - intros [(j & g' & [[<- <-]|[Hne Hj]]%lookup_insert_Some & -> & Hx & Hf)|Hb]; [|left; left; by exists j, g'|left; by right].
    cbn in *. destruct (decide (x = a)) as [->|Hxa]; [by right|]. left. left. exists i, g. rewrite Ef.
    do 3 (split; [done|]). by intros [->|?]%elem_of_cons.
  - intros [[(j & g' & Hj & -> & Hx & Hf)|Hb]|[-> ->]]; [|by right|].
    + left. destruct (decide (j = i)) as [->|].
      * rewrite Eg in Hj. injection Hj as <-. eexists i, _. rewrite lookup_insert_eq. do 3 (split; [done|]).
        intros Hin. apply Hf. rewrite Ef. by right.
      * exists j, g'. by rewrite lookup_insert_ne.
    + left. eexists i, _. rewrite lookup_insert_eq. do 2 (split; [done|]). split; [apply (Hgr a); left|].
      by apply NoDup_cons in Hnd as [? _].
Qed.

(** A fresh page has no allocated block. *)
Lemma block_fresh pgs big i a b x n : pgs !! i = None ->
  (block (<[i := fresh_page a b]> pgs) big x n <-> block pgs big x n).
Proof.
  intros Ei. split.
  - intros [(j & g' & [[<- <-]|[Hne Hj]]%lookup_insert_Some & -> & Hx & Hf)|Hb]; [|left; by exists j, g'|by right].
    exfalso. apply Hf. destruct Hx as (k & Hk & ->). apply elem_of_grid_down. exists (Z.to_nat k). cbn in *. split; [lia|].
    by rewrite Z2Nat.id by lia.
  - intros [(j & g' & Hj & -> & Hx & Hf)|Hb]; [|by right]. left. exists j, g'. rewrite lookup_insert_ne by congruence. done.
Qed.

(** A free block is not an allocated one. *)
Lemma free_not_block h al pgs big L i g a n : heap_wf h al pgs big L -> pgs !! i = Some g -> a ∈ pg_free g ->
  ~ block pgs big a n.
Proof.
  intros Hwf Eg Ha Hb. destruct (hw_page Hwf i g Eg) as (r & _ & Hga & _ & _ & Hgr & _).
  destruct (free_in_region _ _ _ _ _ _ _ _ Hwf Eg (Hgr a Ha)) as (HL & H1 & H2 & _).
  destruct (bsize_cases _ (proj1 Hga)) as (c & Ec & _ & Hc & _).
  assert (forall b k, L !! b = Some k -> b <= a < b + k * PAGE_SIZE -> b = pg_addr g) as Huniq.
  { intros b k Hk Hr. destruct (decide (b = pg_addr g)) as [|Hne]; [done|].
    destruct (hw_disj Hwf _ _ _ _ Hk HL Hne); lia. }
  destruct Hb as [(j & g' & Eg' & -> & Hg' & Hf)|(k & Ek & _)].
  - destruct (free_in_region _ _ _ _ _ _ _ _ Hwf Eg' Hg') as (HL' & H3 & H4 & _).
    destruct (hw_page Hwf j g' Eg') as (r' & _ & Hga' & _). destruct (bsize_cases _ (proj1 Hga')) as (c' & Ec' & _ & Hc' & _).
    assert (i = j) as ->; [|congruence]. apply (hw_inj Hwf i j g g'); try done. symmetry. apply (Huniq _ _ HL'). lia.
  - apply (hw_big Hwf) in Ek as HLk. destruct (hw_region Hwf a k HLk) as (_ & Hk & _).
    assert (a = pg_addr g) as -> by (apply (Huniq _ _ HLk); unfold PAGE_SIZE; lia).
    destruct (hw_own Hwf i g Eg) as [_ HB]. congruence.
Qed.

Lemma blocktype_spec sz : sz <= 2048 -> exists b, blocktype sz = Ok b /\ 0 <= b < 8 /\ sz <= bsize b.
Proof.
  intros Hsz. unfold blocktype, sizes. cbn [blocktype_loop].
  repeat (match goal with |- context [sz <=? ?s] => destruct (Z.leb_spec sz s) end;
          [eexists; split; [reflexivity|]; split; [lia|]; vm_compute Z.mul; vm_compute bsize; lia|]). lia.
Qed.

(** ** The abstract view: the blocks allocated, by address and size *)

Definition heap_rep h (B : gmap Z Z) : Prop :=
  exists al pgs big L, heap_wf h al pgs big L /\ forall a n, B !! a = Some n <-> block pgs big a n.

Definition in_blocks (B : gmap Z Z) (x : Z) : Prop := exists a n, B !! a = Some n /\ a <= x < a + n.

(** Why an allocation can fail: the page allocator has no page, or all the
    pagerefs are in use. *)
Definition no_memory h (sz : Z) : Prop :=
  snd (kpages_alloc (pages h) (if sz >=? LARGEST_SUBPAGE_SIZE then (sz + PAGE_SIZE - 1) / PAGE_SIZE else 1)) = 0 \/
  (sz < LARGEST_SUBPAGE_SIZE /\ Forall (eq 0xffffffff) (pagerefs_inuse h)).

(** A successful allocation: a new aligned block of at least [sz] bytes, apart
    from all others, whose words are as they were. *)
Definition fresh_block h (B : gmap Z Z) (sz : Z) h' (p : Z) : Prop :=
  exists n, sz <= n /\ 0 < p /\ p `mod` 16 = 0 /\ p + n < 2 ^ 32 /\
    (forall a m, B !! a = Some m -> disjoint_range p n a m) /\
    heap_rep h' (<[p := n]> B) /\ forall x, in_blocks B x -> words h' !! x = words h !! x.

Lemma fresh_block_intro h al pgs big L B sz h' al' pgs' big' L' p n :
  heap_wf h al pgs big L -> (forall a n, B !! a = Some n <-> block pgs big a n) ->
  heap_wf h' al' pgs' big' L' -> (forall x m, block pgs' big' x m <-> block pgs big x m \/ x = p /\ m = n) ->
  (forall m, ~ block pgs big p m) -> sz <= n -> (forall x, in_blocks B x -> words h' !! x = words h !! x) ->
  fresh_block h B sz h' p.
Proof.
  intros Hwf HB Hwf' Hb' Hfresh Hsz Hw. assert (block pgs' big' p n) as Hp by (apply Hb'; by right).
  destruct (block_pos _ _ _ _ _ _ _ Hwf' Hp) as (Hp0 & _ & Hpn). destruct (block_region _ _ _ _ _ _ _ Hwf' Hp) as (_ & Hpm & _).
  exists n. do 4 (split; [done|]). split; [|split; [|done]].
  - intros a m Ha%HB. destruct (block_disjoint _ _ _ _ _ p n a m Hwf' Hp) as [[-> ->]|]; [apply Hb'; by left| |done].
    by apply Hfresh in Ha.
  - exists al', pgs', big', L'. split; [done|]. intros a m. rewrite Hb', <- HB, lookup_insert_Some. split.
    + intros [[<- <-]|[_ Ha]]; [by right|by left].
    + intros [Ha|[-> ->]]; [|by left]. right. split; [|done]. intros ->. by apply HB, Hfresh in Ha.
Qed.

Lemma subpage_kmalloc_spec h B sz : heap_rep h B -> 0 <= sz < 2048 ->
  exists h' p, subpage_kmalloc h sz = Ok (h', p) /\
    ((p = 0 /\ heap_rep h' B /\ words h' = words h /\ no_memory h sz) \/ fresh_block h B sz h' p).
Proof.
  intros (al & pgs & big & L & Hwf & HB) Hsz. destruct (blocktype_spec sz) as (b & Eb & Hb & Hszb); [lia|].
  unfold subpage_kmalloc. rewrite Eb, bind_Ok.
  assert (length (filter (fun i => ptype pgs i = b) al) < list_fuel)%nat as Hfuel.
  { unfold list_fuel. change NPAGEREFS with 256. pose proof (length_filter (fun i => ptype pgs i = b) al).
    pose proof (index_count al 256 (hw_nodup Hwf) (hw_index Hwf)). lia. }
  destruct (find_page_spec _ _ _ _ _ b Hwf _ list_fuel _ (hw_size Hwf b Hb)) as (sb & Esb & q & Eq & Hq); [|done|].
  { intros i [Ht Hi]%list_elem_of_filter. apply (hw_dom Hwf) in Hi as [g Eg]. exists g. split; [done|].
    unfold ptype in Ht. by rewrite Eg in Ht. }
  cbn [deref] in Esb. rewrite Esb, bind_Ok, Eq, bind_Ok. destruct q as [i|].
  - destruct Hq as (g & a & fl & Eg & Et & Ef). destruct (hw_page Hwf i g Eg) as (r & _ & _ & _ & Hnd & Hgr & _).
    destruct (doalloc_spec _ _ _ _ _ _ _ _ _ Hwf Eg Ef) as (h' & -> & Ew & Hwf'). exists h', a. split; [done|]. right.
    eapply (fresh_block_intro h); [done|done|done| |intros m; eapply free_not_block; try done; rewrite Ef; left| |by rewrite Ew].
    + intros x m. by rewrite block_take.
    + by rewrite Et.
  - destruct (allocpageref_spec h (hw_inuse Hwf)) as [[-> Hfull]|(i & ws & -> & Hi & Hbit & Hup)]; rewrite bind_Ok.
    { exists h, 0. split; [done|]. left. split; [done|]. split; [by exists al, pgs, big, L|]. split; [done|]. right. split; [unfold LARGEST_SUBPAGE_SIZE; lia|done]. }
    cbn [pages set_inuse]. destruct (kpages_alloc (pages h) 1) as [s a] eqn:Ek. destruct (Z.eqb_spec a 0) as [->|Ha].
    + destruct (freepageref_spec (set_pages s (set_inuse ws h)) i) as (ws' & -> & Hok' & Hup'); [apply Hup|done|..].
      { cbn. rewrite (proj2 Hup) by done. by rewrite Z.eqb_refl. }
      rewrite bind_Ok. eexists _, 0. split; [done|]. left. split; [done|]. split; [|split; [done|]].
      * exists al, pgs, big, L. split; [|done]. apply (heap_wf_table h _ _ _ _ ws' s); [done|done| |].
        { intros j Hj. rewrite Hup' by done. cbn. destruct (Z.eqb_spec j i) as [->|]; [done|].
          rewrite (proj2 Hup) by done. by destruct (Z.eqb_spec j i). }
        destruct (held_alloc _ _ 1 _ _ (hw_held Hwf) ltac:(lia) Ek) as [[_ ?]|(? & _)]; [done|lia].
      * left. rewrite Z.geb_leb. unfold LARGEST_SUBPAGE_SIZE. destruct (Z.leb_spec 2048 sz); [lia|]. by rewrite Ek.
    + destruct (heap_wf_newpage _ _ _ _ _ i ws s a b Hwf Hi Hbit Hup Ek Ha Hb) as (h' & -> & Hch & _ & Hd & Hwf'). rewrite bind_Ok.
      assert (pgs !! i = None) as Epi.
      { apply eq_None_not_Some. rewrite <- (hw_dom Hwf i). rewrite (hw_bits Hwf i Hi) in Hbit. by apply bool_decide_eq_false in Hbit. }
      assert (exists x fl, pg_free (fresh_page a b) = x :: fl) as (x & fl & Ef).
      { destruct (bsize_cases b Hb) as (_ & _ & _ & _ & Hp & _). cbn. destruct (Z.to_nat (per_page b)) eqn:E; [lia|]. by do 2 eexists. }
      pose proof (lookup_insert_eq pgs i (fresh_page a b)) as Eg.
      destruct (hw_page Hwf' i _ Eg) as (r & _ & _ & _ & Hnd & Hgr & _).
      destruct (doalloc_spec _ _ _ _ _ _ _ _ _ Hwf' Eg Ef) as (h2 & -> & Ew & Hwf2). exists h2, x. split; [done|]. right.
      eapply (fresh_block_intro h); [done|done|done| | |exact Hszb|].
      * intros y m. rewrite block_take by done. by rewrite block_fresh.
      * intros m Hm. apply (free_not_block _ _ _ _ _ _ _ x m Hwf' Eg); [rewrite Ef; left|]. by apply block_fresh.
      * intros y (c & k & Hc%HB & Hy). rewrite Ew. apply (proj1 Hch).
        destruct (block_region _ _ _ _ _ _ _ Hwf Hc) as (_ & _ & d & j & HL & H1 & H2). destruct (Hd d j HL); unfold PAGE_SIZE in *; lia.
Qed.

Lemma kmalloc_spec h B sz : heap_rep h B -> 0 <= sz <= 2 ^ 31 ->
  exists h' p, kmalloc h sz = Ok (h', p) /\
    ((p = 0 /\ heap_rep h' B /\ words h' = words h /\ no_memory h sz) \/ fresh_block h B sz h' p).
Proof.
  intros Hrep Hsz. unfold kmalloc. rewrite Z.geb_leb. unfold LARGEST_SUBPAGE_SIZE.
  destruct (Z.leb_spec 2048 sz); [|apply subpage_kmalloc_spec; [done|lia]].
  destruct Hrep as (al & pgs & big & L & Hwf & HB). cbv zeta. unfold PAGE_SIZE. rewrite u32_small by lia.
  set (n := (sz + 4096 - 1) / 4096). assert (0 < n <= 524288 /\ sz <= n * 4096) as [Hn Hszn] by (unfold n; dlia).
  rewrite i32_small by lia. destruct (kpages_alloc (pages h) n) as [s a] eqn:Ek. destruct (Z.eqb_spec a 0) as [->|Ha].
  - eexists _, 0. split; [done|]. left. split; [done|]. split; [|split; [done|]].
    + exists al, pgs, big, L. split; [|done]. apply (heap_wf_table h _ _ _ _ (pagerefs_inuse h) s); [done|apply Hwf|done|].
      destruct (held_alloc _ _ n _ _ (hw_held Hwf) Hn Ek) as [[_ ?]|(? & _)]; [done|lia].
    + left. rewrite Z.geb_leb. unfold LARGEST_SUBPAGE_SIZE. destruct (Z.leb_spec 2048 sz); [|lia].
      unfold PAGE_SIZE. fold n. by rewrite Ek.
  - destruct (heap_wf_big _ _ _ _ _ _ _ _ Hwf Ek Hn Ha) as (Hwf' & HLa & Ha0). eexists _, a. split; [done|]. right.
    eapply (fresh_block_intro h); [done|done|exact Hwf'| | |exact Hszn|done].
    + intros x m. unfold block. split.
      * intros [Hp|(k & [[<- <-]|[_ Hk]]%lookup_insert_Some & ->)]; [left; by left|by right|left; right; by exists k].
      * intros [[Hp|(k & Hk & ->)]|[-> ->]]; [by left| |].
        -- right. exists k. rewrite lookup_insert_ne; [done|]. apply (hw_big Hwf) in Hk. congruence.
        -- right. exists n. by rewrite lookup_insert_eq.
    + intros m Hm. destruct (block_region _ _ _ _ _ _ _ Hwf Hm) as (Hm0 & _ & d & j & HL & H1 & H2).
      destruct (held_alloc _ _ n _ _ (hw_held Hwf) Hn Ek) as [[? _]|(_ & _ & _ & _ & Hd & _)]; [done|].
      destruct (Hd d j HL); unfold PAGE_SIZE in *; lia.
Qed.

(** ** Freeing *)

Definition on_page (g : page) (x : Z) : Prop := pg_addr g <= x < pg_addr g + PAGE_SIZE.

Lemma page_of_spec h al pgs big L x : heap_wf h al pgs big L -> forall l fuel gg,
  lchain NextAll h gg l -> (forall i, i ∈ l -> i ∈ al) -> (length l < fuel)%nat ->
  exists p, deref h gg = Ok p /\ exists q, page_of fuel h p x = Ok q /\
    match q with
    | Some i => exists g, pgs !! i = Some g /\ on_page g x
    | None => forall i g, i ∈ l -> pgs !! i = Some g -> ~ on_page g x
    end.
Proof.
  intros Hwf. induction l as [|i l IH]; intros [|fuel] gg Hc Hl Hf; simpl in Hf; try lia.
  - exists None. split; [done|]. exists None. split; [done|]. intros i g Hi. by apply not_elem_of_nil in Hi.
  - destruct Hc as [E Hc]. exists (Some i). split; [done|]. cbn [page_of].
    assert (i ∈ al) as Hi by (apply Hl; left). pose proof Hi as [g Eg]%(hw_dom Hwf). apply (hw_index Hwf) in Hi.
    destruct (hw_page Hwf i g Eg) as (r & Er & Hok). pose proof Hok as ((Hb & Ha & _ & Ht) & _).
    rewrite (load_Ok _ _ r), bind_Ok by (done || lia). rewrite (pr_blocktype _ _ _ Hok), (pr_pageaddr _ _ _ Hok).
    change NSIZES with 8. pass_assert. unfold PAGE_SIZE in *. rewrite u32_small by lia.
    destruct (Z.geb_spec x (pg_addr g)), (Z.ltb_spec x (pg_addr g + 4096)); cbn [andb];
      try (exists (Some i); split; [done|]; exists g; split; [done|]; unfold on_page, PAGE_SIZE; lia).
    all: destruct (IH fuel (NextAll i) Hc) as (p & Ep & q & Eq & Hq); [intros j Hj; apply Hl; by right|lia|];
      cbn [deref] in Ep; rewrite (load_Ok _ _ r), bind_Ok in Ep by (done || lia); injection Ep as ->;
      exists q; split; [done|]; destruct q; [done|]; intros j g' [->|Hj]%elem_of_cons Hg'; [|by apply (Hq j)];
      unfold on_page, PAGE_SIZE; rewrite Eg in Hg'; injection Hg' as <-; lia.
Qed.

(** An address is on one page at most, and on none if it is in a large block. *)
Lemma on_page_unique h al pgs big L i g x b k : heap_wf h al pgs big L -> pgs !! i = Some g -> on_page g x ->
  L !! b = Some k -> b <= x < b + k * PAGE_SIZE -> b = pg_addr g.
Proof.
  intros Hwf Eg Hx Hk Hr. destruct (decide (b = pg_addr g)) as [|Hne]; [done|].
  destruct (hw_own Hwf i g Eg) as [HL _]. unfold on_page in Hx. destruct (hw_disj Hwf _ _ _ _ Hk HL Hne); lia.
Qed.

Lemma fill_loop_spec ptr len : 0 < ptr -> ptr + len < 2 ^ 32 -> forall rounds h i,
  0 <= i -> 4 * (i + Z.of_nat rounds) <= len -> (forall k, 0 <= k -> 4 * k + 4 <= len -> is_Some (words h !! (ptr + 4 * k))) ->
  exists m, fill_loop rounds h ptr i = Ok (set_words m h) /\ changes_only (words h) m ptr len.
Proof.
  intros Hp Hl. induction rounds as [|rounds IH]; intros h i Hi Hr Hm; cbn [fill_loop].
  { exists (words h). split; [by destruct h|apply changes_only_refl]. }
  rewrite u32_small by lia. rewrite poke_spec, bind_Ok by (apply Hm; lia).
  assert (changes_only (words h) (<[ptr + 4 * i := 3735928559]> (words h)) ptr len) as Hch by (apply changes_only_insert; lia).
  destruct (IH (set_words (<[ptr + 4 * i := 3735928559]> (words h)) h) (i + 1)) as (m & -> & Hch2); [lia|lia| |].
  { intros k Hk Hk2. apply Hch. by apply Hm. }
  exists m. split; [by destruct h|]. by eapply changes_only_trans.
Qed.

(** The words of a block are in memory. *)
Lemma block_words h al pgs big L a n x : heap_wf h al pgs big L -> block pgs big a n -> a <= x < a + n -> x `mod` 4 = 0 ->
  is_Some (words h !! x).
Proof.
  intros Hwf Hb Hx Hx4. destruct (block_region _ _ _ _ _ _ _ Hwf Hb) as (_ & _ & c & k & HL & H1 & H2).
  destruct (hw_region Hwf c k HL) as (_ & _ & _ & _ & Hk). apply (hw_mem Hwf); [apply Hk; lia|done].
Qed.

Lemma remove_lists_spec h i b l1 l2 f1 f2 : 0 <= b < 8 ->
  lchain NextAll h AllBase (l1 ++ i :: l2) -> NoDup (l1 ++ i :: l2) -> (length l1 < list_fuel)%nat ->
  lchain NextSame h (SizeBase b) (f1 ++ i :: f2) -> NoDup (f1 ++ i :: f2) -> (length f1 < list_fuel)%nat ->
  exists h', remove_lists h i b = Ok h' /\ same_but_links h h' /\
    lchain NextAll h' AllBase (l1 ++ l2) /\ lchain NextSame h' (SizeBase b) (f1 ++ f2) /\
    forall b' l, b' <> b -> lchain NextSame h (SizeBase b') l -> (forall j, j ∈ l -> j ∉ f1) -> lchain NextSame h' (SizeBase b') l.
Proof.
  intros Hb Hca Hna Hla Hcs Hns Hls. unfold remove_lists. change NSIZES with 8. pass_assert.
  destruct (remove_loop_spec NextSame i f2 ltac:(congruence) f1 list_fuel h _ Hcs Hns) as (h1 & -> & Hc1 & Hs1 & Ho1); [done|done|].
  rewrite bind_Ok. assert (lchain NextAll h1 AllBase (l1 ++ i :: l2)) as Hca1 by (apply (lchain_ext _ h); [by apply Ho1|intros; by apply Ho1|done]).
  destruct (remove_loop_spec NextAll i l2 ltac:(congruence) l1 list_fuel h1 _ Hca1 Hna) as (h2 & -> & Hc2 & Hs2 & Ho2); [done|done|].
  exists h2. split; [done|]. split; [by eapply same_but_links_trans|]. split; [done|]. split.
  - apply (lchain_ext _ h1); [by apply Ho2|intros; by apply Ho2|done].
  - intros b' l Hbb Hl Hj. apply (lchain_ext _ h); [| |done].
    + rewrite Ho2, Ho1; congruence || done.
    + intros j Hin. rewrite Ho2, Ho1; try done. intros k Hk [= ->]. by apply (Hj k).
Qed.

(** Giving a page back. *)
Lemma heap_wf_release h al pgs big L i g : heap_wf h al pgs big L -> pgs !! i = Some g ->
  exists h1 h' al', remove_lists h i (pg_type g) = Ok h1 /\
    freepageref (set_pages (kpages_free (pages h1) (pg_addr g)) h1) i = Ok h' /\ words h' = words h /\
    heap_wf h' al' (delete i pgs) big (delete (pg_addr g) L).
Proof.
  intros Hwf Eg. assert (i ∈ al) as Hi by (apply (hw_dom Hwf); by eexists).
  pose proof (hw_index Hwf i Hi) as Hir. pose proof (hw_nodup Hwf) as Hnd.
  destruct (hw_page Hwf i g Eg) as (r & Er & (Hb & _) & _). destruct (hw_own Hwf i g Eg) as [HL HB].
  apply list_elem_of_split in Hi as (l1 & l2 & ->). pose proof (index_count _ 256 Hnd (hw_index Hwf) ltac:(lia)) as Hlen.
  rewrite length_app in Hlen. simpl in Hlen.
  pose proof (hw_size Hwf (pg_type g) Hb) as Hs. rewrite filter_app, filter_cons_True in Hs by (unfold ptype; by rewrite Eg).
  pose proof (NoDup_filter (fun j => ptype pgs j = pg_type g) _ Hnd) as Hnf. rewrite filter_app, filter_cons_True in Hnf by (unfold ptype; by rewrite Eg).
  pose proof (length_filter (fun j => ptype pgs j = pg_type g) l1) as Hlf.
  destruct (remove_lists_spec h i (pg_type g) l1 l2 _ _ Hb (hw_all Hwf) Hnd ltac:(change list_fuel with 257%nat; lia) Hs Hnf
              ltac:(change list_fuel with 257%nat; lia)) as (h1 & E1 & (S1 & S2 & S3 & S4 & S5 & S6) & Ha1 & Hs1 & Ho1).
  destruct (freepageref_spec (set_pages (kpages_free (pages h1) (pg_addr g)) h1) i) as (ws & E2 & Hok & Hup).
  { cbn. rewrite S1. apply Hwf. } { done. }
  { cbn. rewrite S1, (hw_bits Hwf i Hir). apply bool_decide_eq_true, elem_of_app. right. left. }
  assert (i ∉ l1 ++ l2) as Hni. { apply NoDup_app in Hnd as (_ & Hd & Hnd). apply NoDup_cons in Hnd as [? _].
    intros [Hj|Hj]%elem_of_app; [|done]. apply (Hd i Hj). left. }
  assert (forall j, j ∈ l1 ++ l2 <-> j <> i /\ j ∈ l1 ++ i :: l2) as Hmem.
  { intros j. rewrite !elem_of_app, elem_of_cons. split; [|tauto]. intros Hj. split; [|tauto]. intros ->. apply Hni, elem_of_app. tauto. }
  exists h1, (set_inuse ws (set_pages (kpages_free (pages h1) (pg_addr g)) h1)), (l1 ++ l2).
  split; [done|]. split; [done|]. split; [done|]. cbn [pagerefs_inuse set_pages] in Hup. rewrite S1 in Hup.
  split; cbn [pagerefs pagerefs_inuse sizebases words pages set_inuse set_pages]; rewrite ?S2, ?S3, ?S4, ?S5; try apply Hwf; try done.
  - apply NoDup_app in Hnd as (? & Hd & Hnd). apply NoDup_cons in Hnd as [? ?]. apply NoDup_app. split; [done|]. split; [|done].
    intros j Hj Hj2. apply (Hd j Hj). by right.
  - intros j [_ Hj]%Hmem. by apply (hw_index Hwf).
  - intros j. rewrite Hmem, (hw_dom Hwf), lookup_delete_is_Some. split; intros [? ?]; split; done.
  - intros j Hj. rewrite Hup by done. destruct (Z.eqb_spec j i) as [->|Hne]; [symmetry; by apply bool_decide_eq_false|].
    rewrite (hw_bits Hwf) by done. apply bool_decide_ext. rewrite Hmem. tauto.
  - by apply (lchain_ext _ h1).
  - intros b Hb'. rewrite (filter_ptype pgs) by (intros j [? _]%Hmem; unfold ptype; by rewrite lookup_delete_ne by done).
    apply (lchain_ext _ h1); [done|done|]. rewrite filter_app. destruct (decide (b = pg_type g)) as [->|Hne]; [done|].
    apply Ho1; [done| |].
    + pose proof (hw_size Hwf b Hb') as Hsb. rewrite filter_app, filter_cons_False in Hsb; [done|].
      unfold ptype. rewrite Eg. congruence.
    + intros j Hj [Hj2 _]%list_elem_of_filter. apply Hne. rewrite <- filter_app in Hj. apply list_elem_of_filter in Hj as [Hj _]. congruence.
  - intros j g' [Hne Hj]%lookup_delete_Some. destruct (hw_page Hwf j g' Hj) as (r' & Er' & Hok').
    destruct (S6 _ _ Er') as (p & q & E'). eexists. split; [exact E'|]. by eapply page_ok_ext.
  - intros j g' [Hne Hj]%lookup_delete_Some. destruct (hw_own Hwf j g' Hj) as [? ?]. split; [|done].
    rewrite lookup_delete_ne; [done|]. intros E. by apply Hne, (hw_inj Hwf i j g g').
  - intros j k g1 g2 [_ Hj]%lookup_delete_Some [_ Hk]%lookup_delete_Some. by apply (hw_inj Hwf).
  - intros c n Hc. rewrite lookup_delete_ne; [by apply (hw_big Hwf)|]. congruence.
  - apply (held_free _ _ _ 1); [apply Hwf|done].
  - intros c n [_ Hc]%lookup_delete_Some. by apply (hw_region Hwf).
  - intros c n d m [_ Hc]%lookup_delete_Some [_ Hd]%lookup_delete_Some. by apply (hw_disj Hwf).
Qed.

(** A free block is outside of the allocated ones. *)
Lemma free_outside_block h al pgs big L i g y a n : heap_wf h al pgs big L -> pgs !! i = Some g -> y ∈ pg_free g ->
  block pgs big a n -> ~ (a <= y < a + n).
Proof.
  intros Hwf Eg Hy Hb Hin. assert (y <> a) as Hya by (intros ->; by apply (free_not_block _ _ _ _ _ _ _ _ n Hwf Eg Hy)).
  destruct (hw_page Hwf i g Eg) as (r & _ & Hga & _ & _ & Hgr & _). destruct (bsize_cases _ (proj1 Hga)) as (c & Ec & _ & Hc & _).
  destruct (free_in_region _ _ _ _ _ _ _ _ Hwf Eg (Hgr y Hy)) as (_ & R1 & R2 & _).
  assert (on_page g y) as Hon by (unfold on_page; lia). destruct Hb as [(j & g' & Eg' & -> & Ha & _)|(k & Ek & ->)].
  - destruct (free_in_region _ _ _ _ _ _ _ _ Hwf Eg' Ha) as (HL' & Q1 & Q2 & _).
    assert (pg_addr g' = pg_addr g) as Ead by (apply (on_page_unique _ _ _ _ _ i g y _ 1 Hwf Eg); done || lia).
    assert (j = i) as -> by (by apply (hw_inj Hwf j i g' g)). rewrite Eg in Eg'. injection Eg' as <-.
    destruct (on_grid_disjoint g a y Hga Ha (Hgr y Hy) ltac:(congruence)); lia.
  - apply (hw_big Hwf) in Ek as HL. destruct (hw_own Hwf i g Eg) as [_ HB].
    assert (a = pg_addr g) as Ead by (by apply (on_page_unique _ _ _ _ _ i g y _ k Hwf Eg)). congruence.
Qed.

(** Putting a block on the list of its page: what [subpage_kfree] does before
    it looks whether the page is free. *)
Lemma put_block h al pgs big L i g r a m :
  heap_wf h al pgs big L -> pgs !! i = Some g -> pagerefs h !! Z.to_nat i = Some r -> on_grid g a -> a ∉ pg_free g ->
  changes_only (words h) m a (bsize (pg_type g)) -> is_Some (m !! a) ->
  heap_wf (set_words (<[a := hd 0 (pg_free g)]> m)
             (set_pagerefs (<[Z.to_nat i := set_nfree (nfree r + 1) (set_offset (a - pg_addr g) r)]> (pagerefs h)) h))
    al (<[i := mk_page (pg_addr g) (pg_type g) (a :: pg_free g)]> pgs) big L.
Proof.
  intros Hwf Eg Er Ha Hna Hch Hma. destruct (hw_page Hwf i g Eg) as (r' & Er' & Hok).
  rewrite Er in Er'. injection Er' as <-. pose proof Hok as (Hga & Epab & Hnd & Hgr & Enf & Eo & Hc).
  destruct (free_in_region _ _ _ _ _ _ _ _ Hwf Eg Ha) as (HL & R1 & R2 & _). destruct (bsize_cases _ (proj1 Hga)) as (c & Ec & _ & Hcr & _).
  assert (block pgs big a (bsize (pg_type g))) as Hblk by (left; by exists i, g).
  assert (forall j g' x, pgs !! j = Some g' -> x ∈ pg_free g' -> <[a := hd 0 (pg_free g)]> m !! x = words h !! x) as Hout.
  { intros j g' x Hj Hx. pose proof (free_outside_block _ _ _ _ _ _ _ x a _ Hwf Hj Hx Hblk) as Hout.
    rewrite lookup_insert_ne by lia. by apply (proj1 Hch). }
  apply (heap_wf_page h al pgs big L i g _ r); try done.
  - split; [done|]. split; [done|]. split; [by constructor|]. split; [intros x [->|Hx]%elem_of_cons; [done|by apply (Hgr x)]|].
    split; [cbn; lia|]. split; [done|]. cbn. split; [done|]. exists (hd 0 (pg_free g)). rewrite lookup_insert_eq. split; [done|].
    eapply fchain_ext; [|exact Hc]. intros x Hx. by apply (Hout i g).
  - intros j g' x _ Hj Hx. by apply (Hout j g').
  - intros x Hx. apply (changes_only_insert m a _ a 1); [lia|]. by apply Hch.
Qed.

(** The blocks after a block is put back. *)
Lemma block_put h al pgs big L i g a x n :
  heap_wf h al (<[i := mk_page (pg_addr g) (pg_type g) (a :: pg_free g)]> pgs) big L -> pgs !! i = Some g ->
  (block (<[i := mk_page (pg_addr g) (pg_type g) (a :: pg_free g)]> pgs) big x n <-> x <> a /\ block pgs big x n).
Proof.
  intros Hwf Eg. split.
  - intros Hb. split.
    + intros ->. by apply (free_not_block _ _ _ _ _ i _ a n Hwf (lookup_insert_eq _ _ _)); [left|].
    + destruct Hb as [(j & g' & [[<- <-]|[Hne Hj]]%lookup_insert_Some & -> & Hx & Hf)|Hb]; [|left; by exists j, g'|by right].
      left. exists i, g. cbn in *. do 3 (split; [done|]). intros Hin. apply Hf. by right.
  - intros [Hxa [(j & g' & Hj & -> & Hx & Hf)|Hb]]; [|by right]. left. destruct (decide (j = i)) as [->|].
    + rewrite Eg in Hj. injection Hj as <-. eexists i, _. rewrite lookup_insert_eq. do 3 (split; [done|]). cbn.
      by intros [->|?]%elem_of_cons.
    + exists j, g'. by rewrite lookup_insert_ne.
Qed.

(** A page with all its blocks free holds none. *)
Lemma block_release pgs big i g x n : pgs !! i = Some g -> (forall a, on_grid g a -> a ∈ pg_free g) ->
  (block (delete i pgs) big x n <-> block pgs big x n).
Proof.
  intros Eg Hall. split.
  - intros [(j & g' & [_ Hj]%lookup_delete_Some & Hr)|Hb]; [left; by exists j, g'|by right].
  - intros [(j & g' & Hj & -> & Hx & Hf)|Hb]; [|by right]. left. exists j, g'. rewrite lookup_delete_ne; [done|].
    intros ->. rewrite Eg in Hj. injection Hj as <-. by apply Hf, Hall.
Qed.

Lemma all_free g : NoDup (pg_free g) -> (forall a, a ∈ pg_free g -> on_grid g a) ->
  Z.of_nat (length (pg_free g)) = per_page (pg_type g) -> forall a, on_grid g a -> a ∈ pg_free g.
Proof.
  intros Hnd Hgr Hl a Ha. apply list_elem_of_In. apply (NoDup_length_incl (l := pg_free g) (l' := grid g)).
  - by apply NoDup_ListNoDup.
  - unfold grid. rewrite length_fmap, length_seqZ. lia.
  - intros x Hx. apply list_elem_of_In, elem_of_grid, Hgr, list_elem_of_In, Hx.
  - by apply list_elem_of_In, elem_of_grid.
Qed.

Lemma delete_rep (B : gmap Z Z) pgs big pgs' big' a : (forall x n, B !! x = Some n <-> block pgs big x n) ->
  (forall x n, block pgs' big' x n <-> x <> a /\ block pgs big x n) -> forall x n, delete a B !! x = Some n <-> block pgs' big' x n.
Proof. intros HB Hb x n. rewrite lookup_delete_Some, HB, Hb. split; intros [? ?]; split; congruence || done. Qed.

(** The words of the other blocks are outside of a freed block. *)
Lemma outside_freed h al pgs big L B a n x : heap_wf h al pgs big L -> (forall x n, B !! x = Some n <-> block pgs big x n) ->
  block pgs big a n -> in_blocks (delete a B) x -> ~ (a <= x < a + n).
Proof.
  intros Hwf HB Ha (b & m & [Hne Hb%HB]%lookup_delete_Some & Hx) Hin.
  destruct (block_disjoint _ _ _ _ _ _ _ _ _ Hwf Ha Hb) as [[? _]|[?|?]]; [congruence|lia|lia].
Qed.

(** The page of a block is found. *)
Lemma page_of_block h al pgs big L i g a : heap_wf h al pgs big L -> pgs !! i = Some g -> on_grid g a ->
  page_of list_fuel h (allbase h) a = Ok (Some i).
Proof.
  intros Hwf Eg Ha. destruct (free_in_region _ _ _ _ _ _ _ _ Hwf Eg Ha) as (HL & R1 & R2 & R3).
  destruct (hw_page Hwf i g Eg) as (r & Er & (Hb & _) & _). destruct (bsize_cases _ Hb) as (c & Ec & _ & Hcr & _).
  pose proof (index_count _ 256 (hw_nodup Hwf) (hw_index Hwf) ltac:(lia)) as Hlen.
  destruct (page_of_spec _ _ _ _ _ a Hwf al list_fuel AllBase (hw_all Hwf)) as (p & [= <-] & q & Eq & Hq);
    [done|change list_fuel with 257%nat; lia|]. rewrite Eq. do 2 f_equal. destruct q as [j|].
  - destruct Hq as (g' & Eg' & Hon). f_equal. apply (hw_inj Hwf j i g' g); try done. unfold PAGE_SIZE in *.
    symmetry. apply (on_page_unique _ _ _ _ _ j g' a _ 1 Hwf Eg'); try done. unfold PAGE_SIZE. lia.
  - exfalso. apply (Hq i g); [apply (hw_dom Hwf); by eexists|done|]. unfold on_page, PAGE_SIZE in *. lia.
Qed.

(** A freed block is linked to the first free block of its page. *)
Lemma free_link_spec h r g a : page_ok (words h) r g -> forall m, is_Some (m !! a) ->
  (if freelist_offset r =? INVALID_OFFSET then poke (set_words m h) a 0
   else poke (set_words m h) a (u32 (pg_addr g + freelist_offset r))) = Ok (set_words (<[a := hd 0 (pg_free g)]> m) h).
Proof.
  intros (Hga & _ & _ & Hgr & _ & Eo & _) m Hma. rewrite Eo. destruct (pg_free g) as [|b fl]; cbn [hd]; [by rewrite Z.eqb_refl, poke_spec|].
  destruct (on_grid_range g b Hga (Hgr b ltac:(left))) as (Q1 & Q2 & _). pose proof Hga as (Hb & Hp & _ & Hpt).
  destruct (bsize_cases _ Hb) as (c & Ec & _ & Hcr & _). unfold INVALID_OFFSET, PAGE_SIZE in *.
  destruct (Z.eqb_spec (b - pg_addr g) 65535); [lia|]. replace (pg_addr g + (b - pg_addr g)) with b by ring.
  rewrite u32_small by lia. by rewrite poke_spec.
Qed.

Lemma subpage_kfree_small h al pgs big L i g a :
  heap_wf h al pgs big L -> pgs !! i = Some g -> on_grid g a -> a ∉ pg_free g ->
  exists h' al' pgs' L', subpage_kfree h a = Ok (h', 0) /\ heap_wf h' al' pgs' big L' /\
    (forall x n, block pgs' big x n <-> x <> a /\ block pgs big x n) /\ changes_only (words h) (words h') a (bsize (pg_type g)).
Proof.
  intros Hwf Eg Ha Hna. assert (block pgs big a (bsize (pg_type g))) as Hblk by (left; by exists i, g).
  destruct (hw_page Hwf i g Eg) as (r & Er & Hok). pose proof Hok as (Hga & _ & Hnd & Hgr & Enf & Eo & Hc).
  destruct (free_in_region _ _ _ _ _ _ _ _ Hwf Eg Ha) as (HL & R1 & R2 & R3). pose proof Hga as (Hb & Hp & Hpm & Hpt).
  destruct (bsize_cases _ Hb) as (c & Ec & Em & Hcr & Hpp & Esz).
  assert (0 <= i) as Hi0 by (apply (hw_index Hwf), (hw_dom Hwf); by eexists).
  unfold subpage_kfree. rewrite (page_of_block _ _ _ _ _ _ _ _ Hwf Eg Ha), bind_Ok. rewrite (load_Ok _ _ r), bind_Ok by done.
  rewrite (pr_pageaddr _ _ _ Hok), (pr_blocktype _ _ _ Hok), Esz, bind_Ok. cbv zeta. unfold PAGE_SIZE in *.
  rewrite (u32_small (a - pg_addr g)) by lia. rewrite Z.geb_leb. destruct (Z.leb_spec 4096 (a - pg_addr g)); [lia|].
  assert ((a - pg_addr g) `mod` bsize (pg_type g) = 0) as ->.
  { destruct Ha as (k & Hk & ->). replace (pg_addr g + _ - pg_addr g) with (k * bsize (pg_type g)) by ring. apply Z.mod_mul. lia. }
  cbn [orb negb Z.eqb]. unfold fill_deadbeef.
  destruct (fill_loop_spec a (bsize (pg_type g)) ltac:(lia) ltac:(lia) (Z.to_nat (bsize (pg_type g) / 4)) h 0) as (m & -> & Hch);
    [lia|rewrite Ec; dlia| |].
  { intros k Hk Hk2. apply (block_words _ _ _ _ _ _ _ _ Hwf Hblk); [lia|]. dlia. }
  rewrite bind_Ok. replace (pg_addr g + (a - pg_addr g)) with a by ring. rewrite (u32_small a) by lia.
  assert (is_Some (m !! a)) as Hma by (apply Hch, (block_words _ _ _ _ _ _ _ _ Hwf Hblk); [lia|dlia]).
  rewrite (free_link_spec h r g a Hok m Hma).
  rewrite bind_Ok. pose proof (free_count g (a :: pg_free g) ltac:(by constructor) ltac:(intros x [->|Hx]%elem_of_cons; [done|by apply Hgr]) Hb) as Hcnt.
  simpl length in Hcnt. rewrite (modify_spec _ _ _ r), bind_Ok by done. rewrite (u16_small (nfree r + 1)), (u16_small (a - pg_addr g)) by lia.
  change (4096 / bsize (pg_type g)) with (per_page (pg_type g)). pass_assert.
  pose proof (put_block _ _ _ _ _ _ _ _ _ _ Hwf Eg Er Ha Hna Hch Hma) as Hwf'.
  match goal with |- context [set_pagerefs ?v (set_words ?w h)] => change (set_pagerefs v (set_words w h)) with (set_words w (set_pagerefs v h)) end.
  cbn [pagerefs set_words].
  set (g' := mk_page (pg_addr g) (pg_type g) (a :: pg_free g)) in *.
  assert (changes_only (words h) (<[a := hd 0 (pg_free g)]> m) a (bsize (pg_type g))) as Hch'.
  { eapply changes_only_trans; [exact Hch|]. apply changes_only_insert. lia. }
  pose proof (fun x n => block_put _ _ _ _ _ i g a x n Hwf' Eg) as Hblocks. fold g' in Hblocks.
  pose proof (lookup_insert_eq pgs i g') as Eg'.
  destruct (Z.eqb_spec (nfree r + 1) (per_page (pg_type g))) as [Efull|].
  - destruct (heap_wf_release _ _ _ _ _ _ _ Hwf' Eg') as (h1 & h2 & al' & E1 & E2 & Ew & Hwf2). cbn [pg_type pg_addr g'] in E1, E2.
    rewrite E1, bind_Ok, E2, bind_Ok. eexists _, _, _, _. split; [done|]. split; [exact Hwf2|]. split; [|by rewrite Ew].
    intros x n. rewrite <- Hblocks. apply block_release with g'; [done|]. apply all_free.
    + by constructor.
    + intros y [->|Hy]%elem_of_cons; [done|by apply (Hgr y)].
    + cbn. lia.
  - eexists _, _, _, _. split; [done|]. split; [exact Hwf'|]. by split.
Qed.

Lemma heap_wf_free_big h al pgs big L a k : heap_wf h al pgs big L -> big !! a = Some k ->
  heap_wf (set_pages (kpages_free (pages h) a) h) al pgs (delete a big) (delete a L).
Proof.
  intros Hwf Ek. pose proof (hw_big Hwf a k Ek) as HL. split; try apply Hwf.
  - apply (lchain_ext _ h); [done|done|apply Hwf].
  - intros b Hb. apply (lchain_ext _ h); [done|done|by apply Hwf].
  - intros i g Eg. destruct (hw_own Hwf i g Eg) as [? ?]. rewrite !lookup_delete_ne by congruence. done.
  - intros c n [Hne Hc]%lookup_delete_Some. rewrite lookup_delete_ne by done. by apply (hw_big Hwf).
  - apply (held_free _ _ _ k); [apply Hwf|done].
  - intros c n [_ Hc]%lookup_delete_Some. by apply (hw_region Hwf).
  - intros c n d m [_ Hc]%lookup_delete_Some [_ Hd]%lookup_delete_Some. by apply (hw_disj Hwf).
Qed.

Lemma kfree_spec h B a n : heap_rep h B -> B !! a = Some n ->
  exists h', kfree h a = Ok h' /\ heap_rep h' (delete a B) /\ forall x, in_blocks (delete a B) x -> words h' !! x = words h !! x.
Proof.
  intros (al & pgs & big & L & Hwf & HB) HBa. pose proof HBa as Hblk%HB. destruct (block_pos _ _ _ _ _ _ _ Hwf Hblk) as (Ha & _ & _).
  unfold kfree. destruct (Z.eqb_spec a 0); [lia|].
  pose proof (fun x => outside_freed _ _ _ _ _ _ a n x Hwf HB Hblk) as Hout.
  destruct Hblk as [(i & g & Eg & -> & Hg & Hf)|(k & Ek & ->)].
  - destruct (subpage_kfree_small _ _ _ _ _ _ _ _ Hwf Eg Hg Hf) as (h' & al' & pgs' & L' & -> & Hwf' & Hb & Hch). rewrite bind_Ok.
    exists h'. split; [done|]. split; [|intros x Hx; by apply (proj1 Hch), Hout].
    exists al', pgs', big, L'. split; [done|]. by apply (delete_rep B pgs big).
  - apply (hw_big Hwf) in Ek as HL. destruct (hw_region Hwf a k HL) as (_ & Hk & Ham & _).
    pose proof (index_count _ 256 (hw_nodup Hwf) (hw_index Hwf) ltac:(lia)) as Hlen.
    destruct (page_of_spec _ _ _ _ _ a Hwf al list_fuel AllBase (hw_all Hwf)) as (p & [= <-] & q & Eq & Hq);
      [done|change list_fuel with 257%nat; lia|].
    assert (q = None) as ->.
    { destruct q as [j|]; [|done]. exfalso. destruct Hq as (g & Eg & Hon). destruct (hw_own Hwf j g Eg) as [_ HBn].
      assert (a = pg_addr g) by (apply (on_page_unique _ _ _ _ _ j g a _ k Hwf Eg); try done; unfold PAGE_SIZE; lia). congruence. }
    unfold subpage_kfree. rewrite Eq, !bind_Ok. cbn [negb Z.eqb]. rewrite Ham, Z.eqb_refl. cbn [assert]. rewrite bind_Ok.
    eexists. split; [done|]. split; [|done]. exists al, pgs, (delete a big), (delete a L). split.
    + by apply (heap_wf_free_big _ _ _ _ _ _ k).
    + apply (delete_rep B pgs big); [done|]. intros x n. split.
      * intros Hb. split.
        -- intros ->. destruct Hb as [(j & g & Eg & -> & Hg & Hf)|(k' & [? _]%lookup_delete_Some & _)]; [|done].
           destruct (block_disjoint _ _ _ _ _ a (k * PAGE_SIZE) a (bsize (pg_type g)) Hwf) as [[_ E]|[?|?]];
             [right; by exists k|left; by exists j, g| |unfold PAGE_SIZE in *; lia|].
           ++ destruct (hw_page Hwf j g Eg) as (r & _ & Hga & _). destruct (bsize_cases _ (proj1 Hga)) as (c & Ec & _ & Hc & _). unfold PAGE_SIZE in E. lia.
           ++ destruct (hw_page Hwf j g Eg) as (r & _ & Hga & _). destruct (bsize_cases _ (proj1 Hga)) as (c & Ec & _ & Hc & _). lia.
        -- destruct Hb as [Hb|(k' & [_ ?]%lookup_delete_Some & ->)]; [by left|right; by exists k'].
      * intros [Hne [Hb|(k' & Hk' & ->)]]; [by left|]. right. exists k'. by rewrite lookup_delete_ne by done.
Qed.

(** At boot there is no block. *)
Lemma kheap_boot_rep (m : gmap Z Z) s : held s ∅ -> (forall x, kmem x -> x `mod` 4 = 0 -> is_Some (m !! x)) ->
  heap_rep (kheap_boot m s) ∅.
Proof.
  intros Hs Hm. exists [], ∅, ∅, ∅. split.
  - split; try done.
    + split; [done|]. by repeat constructor.
    + constructor.
    + intros i Hi. by apply not_elem_of_nil in Hi.
    + intros i. rewrite lookup_empty. split; [by intros ?%not_elem_of_nil|by intros [? ?]].
    + intros i Hi. rewrite bool_decide_false by apply not_elem_of_nil. unfold bit.
      change (pagerefs_inuse (kheap_boot m s)) with (replicate (Z.to_nat INUSE_WORDS) 0).
      rewrite lookup_replicate_2 by (change (Z.to_nat INUSE_WORDS) with 8%nat; dlia). apply Z.bits_0.
    + intros b Hb. cbn -[load]. apply load_Ok; [lia|]. apply lookup_replicate_2. change (Z.to_nat NSIZES) with 8%nat. lia.
  - intros a n. rewrite lookup_empty. split; [done|]. intros [(i & g & Hi & _)|(k & Hk & _)]; by rewrite lookup_empty in *.
Qed.

(** The client may write its blocks. *)
Lemma heap_wf_write h al pgs big L a n x v : heap_wf h al pgs big L -> block pgs big a n -> a <= x < a + n ->
  heap_wf (set_words (<[x := v]> (words h)) h) al pgs big L.
Proof.
  intros Hwf Hb Hx. split; try apply Hwf.
  - apply (lchain_ext _ h); [done|done|apply Hwf].
  - intros b Hb'. apply (lchain_ext _ h); [done|done|by apply Hwf].
  - intros i g Eg. destruct (hw_page Hwf i g Eg) as (r & Er & Hok). exists r. split; [done|].
    eapply page_ok_ext; try done. intros y Hy. cbn. apply lookup_insert_ne.
    pose proof (free_outside_block _ _ _ _ _ _ _ _ _ _ Hwf Eg Hy Hb). lia.
  - intros y Hy Hy4. apply (changes_only_insert _ x v x 1); [lia|]. by apply (hw_mem Hwf).
Qed.

(** ** The refinement *)

(** What a client does with a heap. *)
Inductive hop : Type :=
| HMalloc (sz : Z)
| HFree (p : Z)
| HRead (a : Z)
| HWrite (a v : Z).

Definition run_hop h (op : hop) : res (kheap P * Z) :=
  match op with
  | HMalloc sz => kmalloc h sz
  | HFree p => h ← kfree h p; Ok (h, 0)
  | HRead a => v ← peek h a; Ok (h, v)
  | HWrite a v => h ← poke h a v; Ok (h, 0)
  end.

(** The abstract heap: the blocks allocated and the words in them. *)
Record aheap : Type := mk_aheap { blocks : gmap Z Z; contents : gmap Z Z }.

(** A client frees what it allocated and accesses its own words. *)
Definition legal (A : aheap) (op : hop) : Prop :=
  match op with
  | HMalloc sz => 0 <= sz <= 2 ^ 31
  | HFree p => p = 0 \/ is_Some (blocks A !! p)
  | HRead a | HWrite a _ => in_blocks (blocks A) a /\ a `mod` 4 = 0
  end.

Inductive abs_step (A : aheap) : hop -> Z -> aheap -> Prop :=
| abs_null sz : abs_step A (HMalloc sz) 0 A
| abs_malloc sz p n c : sz <= n -> 0 < p -> p `mod` 16 = 0 -> p + n < 2 ^ 32 ->
    (forall a m, blocks A !! a = Some m -> disjoint_range p n a m) ->
    (forall x, in_blocks (blocks A) x -> c !! x = contents A !! x) ->
    abs_step A (HMalloc sz) p (mk_aheap (<[p := n]> (blocks A)) c)
| abs_free_null : abs_step A (HFree 0) 0 A
| abs_free p n c : blocks A !! p = Some n ->
    (forall x, in_blocks (delete p (blocks A)) x -> c !! x = contents A !! x) ->
    abs_step A (HFree p) 0 (mk_aheap (delete p (blocks A)) c)
| abs_read a v : contents A !! a = Some v -> abs_step A (HRead a) v A
| abs_write a v : abs_step A (HWrite a v) 0 (mk_aheap (blocks A) (<[a := v]> (contents A))).

Definition rel h (A : aheap) : Prop :=
  heap_rep h (blocks A) /\ forall x, in_blocks (blocks A) x -> contents A !! x = words h !! x.

Lemma in_blocks_delete B p x : in_blocks (delete p B) x -> in_blocks B x.
Proof. intros (a & n & [_ Ha]%lookup_delete_Some & Hx). by exists a, n. Qed.

Lemma rel_words h B x : heap_rep h B -> in_blocks B x -> x `mod` 4 = 0 -> is_Some (words h !! x).
Proof.
  intros (al & pgs & big & L & Hwf & HB) (a & n & Ha%HB & Hx) Hx4. by apply (block_words _ _ _ _ _ _ _ _ Hwf Ha).
Qed.

Lemma rel_write h B x v : heap_rep h B -> in_blocks B x -> heap_rep (set_words (<[x := v]> (words h)) h) B.
Proof.
  intros (al & pgs & big & L & Hwf & HB) (a & n & Ha%HB & Hx). exists al, pgs, big, L. split; [|done]. by eapply heap_wf_write.
Qed.

Lemma run_hop_sim h A op : rel h A -> legal A op ->
  exists h' v A', run_hop h op = Ok (h', v) /\ abs_step A op v A' /\ rel h' A'.
Proof.
  intros [Hrep Hc] Hl. destruct op as [sz|p|a|a v]; cbn [run_hop legal] in *.
  - destruct (kmalloc_spec h _ sz Hrep Hl) as (h' & p & -> & [(-> & Hrep' & Ew & _)|(n & Hn & Hp & Hpm & Hpn & Hd & Hrep' & Hw)]).
    + exists h', 0, A. split; [done|]. split; [constructor|]. split; [done|]. by rewrite Ew.
    + exists h', p, (mk_aheap (<[p := n]> (blocks A)) (words h')). split; [done|]. split; [|by split].
      constructor; try done. intros x Hx. rewrite Hw by done. by rewrite Hc.
  - destruct Hl as [->|[n Hn]].
    + exists h, 0, A. split; [done|]. split; [constructor|done].
    + destruct (kfree_spec h _ p n Hrep Hn) as (h' & -> & Hrep' & Hw). rewrite bind_Ok.
      exists h', 0, (mk_aheap (delete p (blocks A)) (words h')). split; [done|]. split; [|by split].
      apply abs_free with n; [done|]. intros x Hx. rewrite Hw by done. symmetry. apply Hc. by apply in_blocks_delete in Hx.
  - destruct Hl as [Ha Ha4]. destruct (rel_words _ _ _ Hrep Ha Ha4) as [v Ev]. unfold peek. rewrite Ev, bind_Ok.
    exists h, v, A. split; [done|]. split; [|done]. constructor. by rewrite Hc.
  - destruct Hl as [Ha Ha4]. rewrite poke_spec, bind_Ok by (by eapply rel_words).
    eexists _, 0, _. split; [done|]. split; [constructor|]. split; [by apply rel_write|]. cbn. intros x Hx.
    destruct (decide (x = a)) as [->|]; [by rewrite !lookup_insert_eq|]. rewrite !lookup_insert_ne by done. by apply Hc.
Qed.

(** A client is a function from the results so far to its next operation. *)
Definition client : Type := list Z -> option hop.

Fixpoint run (n : nat) (cl : client) h (hist : list Z) : res (kheap P * list Z) :=
  match n with
  | O => Ok (h, hist)
  | S n =>
      match cl hist with
      | None => Ok (h, hist)
      | Some op => '(h, v) ← run_hop h op; run n cl h (hist ++ [v])
      end
  end.

(** The histories of a client of the abstract heap. *)
Inductive abs_hist (cl : client) : list Z -> aheap -> Prop :=
| abs_start c : abs_hist cl [] (mk_aheap ∅ c)
| abs_next hist A op v A' : abs_hist cl hist A -> cl hist = Some op -> abs_step A op v A' -> abs_hist cl (hist ++ [v]) A'.

(** A client that is legal whatever the abstract heap answers. *)
Definition good_client (cl : client) : Prop :=
  forall hist A op, abs_hist cl hist A -> cl hist = Some op -> legal A op.

Lemma run_sim cl : good_client cl -> forall n h hist A, rel h A -> abs_hist cl hist A ->
  exists h' hist' A', run n cl h hist = Ok (h', hist') /\ abs_hist cl hist' A' /\ rel h' A'.
Proof.
  intros Hg. induction n as [|n IH]; intros h hist A Hr Ha; cbn [run]; [by exists h, hist, A|].
  destruct (cl hist) as [op|] eqn:E; [|by exists h, hist, A].
  destruct (run_hop_sim h A op Hr (Hg _ _ _ Ha E)) as (h' & v & A' & -> & Hs & Hr'). rewrite bind_Ok.
  apply (IH _ _ A'); [done|]. by econstructor.
Qed.

(** C5. The kernel heap implements an allocator.  Whatever a client does with
    the heap from boot on, allocating, reading and writing its blocks and
    freeing them, as long as it would be legal with an ideal allocator, no
    operation panics, touches memory outside of the heap's pages or loops,
    and the results are results of the ideal allocator: a new block is
    aligned, at least as large as asked for and apart from every block in
    use, and a block holds what was last written to it until it is freed.
    This is for every page allocator that keeps its regions apart. *)
Theorem kheap_refines_allocator (cl : client) (m : gmap Z Z) (s : P) (n : nat) :
  good_client cl -> held s ∅ -> (forall x, kmem x -> x `mod` 4 = 0 -> is_Some (m !! x)) ->
  exists h hist A, run n cl (kheap_boot m s) [] = Ok (h, hist) /\ abs_hist cl hist A /\
    forall x, in_blocks (blocks A) x -> words h !! x = contents A !! x.
Proof.
  intros Hg Hs Hm. destruct (run_sim cl Hg n (kheap_boot m s) [] (mk_aheap ∅ m)) as (h & hist & A & E & Ha & _ & Hc).
  - split; [by apply kheap_boot_rep|done].
  - constructor.
  - exists h, hist, A. split; [done|]. split; [done|]. intros x Hx. by rewrite Hc.
Qed.

(** [kmalloc] fails only for lack of memory.  On a heap in any reachable
    state, a request of up to 2 GB for which the page allocator has the pages
    (one page for a small request) gets a block, unless it is a small request
    and all 256 pagerefs are in use. *)
Theorem kmalloc_succeeds h B sz : heap_rep h B -> 0 <= sz <= 2 ^ 31 ->
  snd (kpages_alloc (pages h) (if sz >=? LARGEST_SUBPAGE_SIZE then (sz + PAGE_SIZE - 1) / PAGE_SIZE else 1)) <> 0 ->
  (sz < LARGEST_SUBPAGE_SIZE -> ~ Forall (eq 0xffffffff) (pagerefs_inuse h)) ->
  exists h' p n, kmalloc h sz = Ok (h', p) /\ sz <= n /\ p <> 0 /\ B !! p = None /\ heap_rep h' (<[p := n]> B).
Proof.
  intros Hrep Hsz Hk Hf. destruct (kmalloc_spec h B sz Hrep Hsz) as (h' & p & E & [(_ & _ & _ & [?|[? ?]])|Hfr]); [done|by apply Hf in H0|].
  destruct Hfr as (n & Hn & Hp & _ & _ & Hd & Hrep' & _). exists h', p, n. do 2 (split; [done|]). split; [lia|]. split; [|done].
  apply eq_None_not_Some. intros [k Hk']. destruct Hrep as (al & pgs & big & L & Hwf & HB).
  destruct (block_pos _ _ _ _ _ _ _ Hwf (proj1 (HB _ _) Hk')) as (_ & Hk0 & _).
  destruct Hrep' as (al' & pgs' & big' & L' & Hwf' & HB'). pose proof (lookup_insert_eq B p n) as Ei.
  destruct (block_pos _ _ _ _ _ _ _ Hwf' (proj1 (HB' _ _) Ei)) as (_ & Hn0 & _). destruct (Hd p k Hk'); lia.
Qed.
End specs.

(** ** Over dumbvm's pages *)

(** A machine with [n] words of memory. *)
Definition ram_words (n : Z) : gmap Z Z := list_to_map ((fun i => (MIPS_KSEG0 + 4 * i, 0)) <$> seqZ 0 n).

Lemma ram_words_mapped n x : kseg0_mem (4 * n) x -> x `mod` 4 = 0 -> is_Some (ram_words n !! x).
Proof.
  unfold kseg0_mem, MIPS_KSEG0. intros Hx Hx4. apply not_eq_None_Some. intros E%not_elem_of_list_to_map. apply E.
  rewrite <- list_fmap_compose. apply list_elem_of_fmap. exists ((x - MIPS_KSEG0) / 4). unfold MIPS_KSEG0.
  split; [cbn; unfold MIPS_KSEG0; dlia|]. apply elem_of_seqZ. dlia.
Qed.

(** Allocates, writes a word, reads it back and frees. *)
Definition one_block : client := fun hist =>
  match hist with
  | [] => Some (HMalloc 100)
  | [p] => if p =? 0 then None else Some (HWrite p 42)
  | [p; _] => Some (HRead p)
  | [p; _; _] => Some (HFree p)
  | _ => None
  end.

(** The histories of [one_block], by their length. *)
Lemma one_block_hist hist A : abs_hist one_block hist A ->
  match hist with
  | [] | [_] | [_; _] | [_; _; _] => forall p l, hist = p :: l -> p <> 0 -> exists n, blocks A !! p = Some n /\ 100 <= n /\ p `mod` 16 = 0
  | _ => True
  end.
Proof.
  induction 1 as [c|hist A op v A' Ha IH Eop Hs]; [by intros p l [=]|].
  destruct hist as [|p [|q [|r [|t hist]]]]; cbn in Eop; simpl app.
  - injection Eop as <-. inversion Hs; subst; intros p0 l [= <- <-] Hp; [done|]. exists n. cbn. by rewrite lookup_insert_eq.
  - destruct (Z.eqb_spec p 0) as [|Hp]; [done|]. injection Eop as <-. inversion Hs; subst. intros p0 l [= <- <-] _. cbn. by apply (IH p []).
  - injection Eop as <-. inversion Hs; subst. intros p0 l [= <- <-] Hp. by apply (IH p [q]).
  - done.
  - done.
Qed.

Lemma one_block_good : good_client one_block.
Proof.
  intros hist A op Ha Eop. pose proof (one_block_hist _ _ Ha) as Hh.
  assert (forall p l, hist = p :: l -> p = 0 -> l = []) as Hz.
  { intros p l -> ->. clear Hh Eop. remember (0 :: l) as hist eqn:E. revert l E.
    induction Ha as [c|hist A op' v A' Ha IH Eop Hs]; intros l E; [done|].
    destruct hist as [|p hist]; [by injection E as _ <-|]. simpl in E. injection E as -> E. specialize (IH _ eq_refl). subst hist. done. }
  destruct hist as [|p [|q [|r [|t hist]]]]; cbn in Eop; try done.
  - injection Eop as <-. cbn. lia.
  - destruct (Z.eqb_spec p 0) as [|Hp]; [done|]. injection Eop as <-. destruct (Hh p [] eq_refl Hp) as (n & En & Hn & Hm).
    split; [exists p, n; split; [done|lia]|dlia].
  - injection Eop as <-. destruct (decide (p = 0)) as [->|Hp]; [by specialize (Hz 0 [q] eq_refl eq_refl)|].
    destruct (Hh p [q] eq_refl Hp) as (n & En & Hn & Hm). split; [exists p, n; split; [done|lia]|dlia].
  - injection Eop as <-. destruct (decide (p = 0)) as [->|Hp]; [by left|].
    destruct (Hh p [q; r] eq_refl Hp) as (n & En & _). right. by exists n.
Qed.

Lemma small_ram_held : held (P := ram) (kmem := kseg0_mem 8192) (mk_ram 4096 8192) ∅.
Proof. split; [unfold ram_ok, PAGE_SIZE; cbn; repeat split; lia|]. split; [done|]. intros b m. by rewrite lookup_empty. Qed.

Lemma kheap_refines_allocator_witness : exists h hist A,
  run 4 one_block (kheap_boot (ram_words 2048) (mk_ram 4096 8192)) [] = Ok (h, hist) /\ abs_hist one_block hist A /\
  forall x, in_blocks (blocks A) x -> words h !! x = contents A !! x.
Proof.
  apply (kheap_refines_allocator (P := ram) (kseg0_mem 8192)).
  - exact one_block_good.
  - exact small_ram_held.
  - exact (ram_words_mapped 2048).
Defined.

Lemma kmalloc_succeeds_witness : exists h' p n,
  kmalloc (kheap_boot (ram_words 2048) (mk_ram 4096 8192)) 100 = Ok (h', p) /\ 100 <= n /\ p <> 0 /\
  (∅ : gmap Z Z) !! p = None /\ heap_rep (kseg0_mem 8192) h' (<[p := n]> ∅).
Proof.
  apply (kmalloc_succeeds (P := ram) (kseg0_mem 8192) (kheap_boot (ram_words 2048) (mk_ram 4096 8192)) ∅ 100).
  - apply kheap_boot_rep; [exact small_ram_held|exact (ram_words_mapped 2048)].
  - lia.
  - vm_compute. discriminate.
  - intros _ Hf. apply (Forall_inv (l := replicate 7 0)) in Hf. discriminate Hf.
Defined.

(** The sum of [ram_stealmem] wraps: a request of almost 4 GB succeeds, and
    moves the start of free memory backwards, so that the next allocation
    overlaps memory handed out before. *)
Theorem huge_kmalloc_overlaps :
  exists h1 h2 h3 p q, let h0 := kheap_boot (ram_words 2048) (mk_ram 4096 0x100000) in
    kmalloc h0 8192 = Ok (h1, p) /\ kmalloc h1 0xfffff000 = Ok (h2, 0x80003000) /\
    kmalloc h2 4096 = Ok (h3, q) /\ p < q < p + 8192.
Proof. do 5 eexists. cbv zeta. split; [reflexivity|]. split; [reflexivity|]. split; [reflexivity|]. vm_compute. split; reflexivity. Qed.

(** Sizes in the last page of the address space wrap around to no page. *)
Theorem kmalloc_wraps_to_nothing :
  exists h1 h2 p q, let h0 := kheap_boot (ram_words 2048) (mk_ram 4096 8192) in
    kmalloc h0 0xfffffff0 = Ok (h1, p) /\ p <> 0 /\ kmalloc h1 4096 = Ok (h2, q) /\ q = p.
Proof. do 4 eexists. cbv zeta. split; [reflexivity|]. split; [vm_compute; discriminate|]. split; [reflexivity|]. reflexivity. Qed.
