(* ===== verification/DumbVm.v ===== *)
(** * kern/arch/mips/mips/dumbvm.c: address spaces and page faults

    An address space has two regions and a stack, each in one piece of
    physical memory that is never given back.  Faults put a translation into
    the first unused entry of the TLB, and switching to an address space
    clears it.

    The TLB is a list of pairs of its two words, read and written by index
    like the [tlbr] and [tlbwi] instructions do.  Physical memory is a list of
    bytes; the kernel sees it at [MIPS_KSEG0], where a copy from [a] to [b]
    has the alignment and the direction it has from 0, so that copies work on
    physical addresses.  [curspl] is the interrupt priority level. *)
From stdpp Require Import base numbers list option gmap.
From S2P Require Import Prelude Libc Ram.
Local Open Scope Z_scope.

Definition USERSTACK : Z := MIPS_KSEG0.
Definition DUMBVM_STACKPAGES : Z := 12.
Definition VM_FAULT_READ : Z := 0.
Definition VM_FAULT_WRITE : Z := 1.
Definition VM_FAULT_READONLY : Z := 2.
Definition NUM_TLB : Z := 64.
Definition TLBLO_DIRTY : Z := 0x400.
Definition TLBLO_VALID : Z := 0x200.
Definition TLBHI_INVALID (entryno : Z) : Z := u32 (Z.shiftl (0x80000 + entryno) 12).
Definition TLBLO_INVALID : Z := 0.
Definition SPL_HIGH : Z := 15.

Record addrspace : Type := mk_as {
  as_vbase1 : Z; as_pbase1 : Z; as_npages1 : Z;
  as_vbase2 : Z; as_pbase2 : Z; as_npages2 : Z;
  as_stackpbase : Z;
}.

Record machine : Type := mk_machine {
  m_ram : ram;
  m_mem : list Z;
  m_tlb : list (Z * Z);
  curspl : Z;
}.

Definition set_ram (r : ram) (m : machine) : machine := mk_machine r (m_mem m) (m_tlb m) (curspl m).
Definition set_mem (v : list Z) (m : machine) : machine := mk_machine (m_ram m) v (m_tlb m) (curspl m).
Definition set_tlb (v : list (Z * Z)) (m : machine) : machine := mk_machine (m_ram m) (m_mem m) v (curspl m).
Definition set_spl (v : Z) (m : machine) : machine := mk_machine (m_ram m) (m_mem m) (m_tlb m) v.

Definition splhigh (m : machine) : machine * Z := (set_spl SPL_HIGH m, curspl m).
Definition splx (spl : Z) (m : machine) : machine := set_spl spl m.

Definition TLB_Read (m : machine) (index : Z) : res (Z * Z) := load (m_tlb m) index.
Definition TLB_Write (m : machine) (ehi elo index : Z) : res machine :=
  tlb ← store (m_tlb m) index (ehi, elo);
  Ok (set_tlb tlb m).

(** ** Faults *)

(** [for (i=0; i<NUM_TLB; i++)]: the entry is written to the first slot that
    is not valid. *)
Fixpoint tlb_loop (rounds : nat) (m : machine) (i faultaddress paddr spl : Z) : res (machine * Z) :=
  match rounds with
  | O => Ok (splx spl m, EFAULT)
  | S rounds =>
      '(ehi, elo) ← TLB_Read m i;
      if negb (Z.land elo TLBLO_VALID =? 0) then tlb_loop rounds m (i + 1) faultaddress paddr spl
      else
        m ← TLB_Write m faultaddress (Z.lor (Z.lor paddr TLBLO_DIRTY) TLBLO_VALID) i;
        Ok (splx spl m, 0)
  end.

(** [t_vmspace] is the address space of the current thread. *)
Definition vm_fault (t_vmspace : option addrspace) (m : machine) (faulttype faultaddress : Z) : res (machine * Z) :=
  let '(m, spl) := splhigh m in
  let faultaddress := Z.land faultaddress PAGE_FRAME in
  if faulttype =? VM_FAULT_READONLY then Panic
  else if negb ((faulttype =? VM_FAULT_READ) || (faulttype =? VM_FAULT_WRITE)) then Ok (splx spl m, EINVAL)
  else
    match t_vmspace with
    | None => Ok (m, EFAULT)
    | Some a =>
        _ ← assert (negb (as_vbase1 a =? 0));
        _ ← assert (negb (as_pbase1 a =? 0));
        _ ← assert (negb (as_npages1 a =? 0));
        _ ← assert (negb (as_vbase2 a =? 0));
        _ ← assert (negb (as_pbase2 a =? 0));
        _ ← assert (negb (as_npages2 a =? 0));
        _ ← assert (negb (as_stackpbase a =? 0));
        _ ← assert (Z.land (as_vbase1 a) PAGE_FRAME =? as_vbase1 a);
        _ ← assert (Z.land (as_pbase1 a) PAGE_FRAME =? as_pbase1 a);
        _ ← assert (Z.land (as_vbase2 a) PAGE_FRAME =? as_vbase2 a);
        _ ← assert (Z.land (as_pbase2 a) PAGE_FRAME =? as_pbase2 a);
        _ ← assert (Z.land (as_stackpbase a) PAGE_FRAME =? as_stackpbase a);
        let vbase1 := as_vbase1 a in
        let vtop1 := u32 (vbase1 + as_npages1 a * PAGE_SIZE) in
        let vbase2 := as_vbase2 a in
        let vtop2 := u32 (vbase2 + as_npages2 a * PAGE_SIZE) in
        let stackbase := USERSTACK - DUMBVM_STACKPAGES * PAGE_SIZE in
        let stacktop := USERSTACK in
        let found :=
          if (faultaddress >=? vbase1) && (faultaddress <? vtop1) then Some (u32 (faultaddress - vbase1 + as_pbase1 a))
          else if (faultaddress >=? vbase2) && (faultaddress <? vtop2) then Some (u32 (faultaddress - vbase2 + as_pbase2 a))
          else if (faultaddress >=? stackbase) && (faultaddress <? stacktop) then
            Some (u32 (faultaddress - stackbase + as_stackpbase a))
          else None in
        match found with
        | None => Ok (splx spl m, EFAULT)
        | Some paddr =>
            _ ← assert (Z.land paddr PAGE_FRAME =? paddr);
            tlb_loop (Z.to_nat NUM_TLB) m 0 faultaddress paddr spl
        end
    end.

(** ** Address spaces *)

(** [ok] says whether [kmalloc] succeeds. *)
Definition as_create (ok : bool) : option addrspace :=
  if ok then Some (mk_as 0 0 0 0 0 0 0) else None.

Fixpoint activate_loop (rounds : nat) (m : machine) (i : Z) : res machine :=
  match rounds with
  | O => Ok m
  | S rounds =>
      m ← TLB_Write m (TLBHI_INVALID i) TLBLO_INVALID i;
      activate_loop rounds m (i + 1)
  end.

Definition as_activate (m : machine) : res machine :=
  let '(m, spl) := splhigh m in
  m ← activate_loop (Z.to_nat NUM_TLB) m 0;
  Ok (splx spl m).

Definition as_define_region (a : addrspace) (vaddr sz : Z) : addrspace * Z :=
  let sz := u32 (sz + Z.land vaddr (u32 (Z.lnot PAGE_FRAME))) in
  let vaddr := Z.land vaddr PAGE_FRAME in
  let sz := Z.land (u32 (sz + PAGE_SIZE - 1)) PAGE_FRAME in
  let npages := sz / PAGE_SIZE in
  if as_vbase1 a =? 0 then
    (mk_as vaddr (as_pbase1 a) npages (as_vbase2 a) (as_pbase2 a) (as_npages2 a) (as_stackpbase a), 0)
  else if as_vbase2 a =? 0 then
    (mk_as (as_vbase1 a) (as_pbase1 a) (as_npages1 a) vaddr (as_pbase2 a) npages (as_stackpbase a), 0)
  else (a, EUNIMP).

Definition set_pbase1 (p : Z) (a : addrspace) : addrspace :=
  mk_as (as_vbase1 a) p (as_npages1 a) (as_vbase2 a) (as_pbase2 a) (as_npages2 a) (as_stackpbase a).
Definition set_pbase2 (p : Z) (a : addrspace) : addrspace :=
  mk_as (as_vbase1 a) (as_pbase1 a) (as_npages1 a) (as_vbase2 a) p (as_npages2 a) (as_stackpbase a).
Definition set_stackpbase (p : Z) (a : addrspace) : addrspace :=
  mk_as (as_vbase1 a) (as_pbase1 a) (as_npages1 a) (as_vbase2 a) (as_pbase2 a) (as_npages2 a) p.

Definition as_prepare_load (m : machine) (a : addrspace) : res (machine * addrspace * Z) :=
  _ ← assert (as_pbase1 a =? 0);
  _ ← assert (as_pbase2 a =? 0);
  _ ← assert (as_stackpbase a =? 0);
  let '(r, p) := getppages (m_ram m) (as_npages1 a) in
  let m := set_ram r m in
  let a := set_pbase1 p a in
  if as_pbase1 a =? 0 then Ok (m, a, ENOMEM)
  else
    let '(r, p) := getppages (m_ram m) (as_npages2 a) in
    let m := set_ram r m in
    let a := set_pbase2 p a in
    if as_pbase2 a =? 0 then Ok (m, a, ENOMEM)
    else
      let '(r, p) := getppages (m_ram m) DUMBVM_STACKPAGES in
      let m := set_ram r m in
      let a := set_stackpbase p a in
      if as_stackpbase a =? 0 then Ok (m, a, ENOMEM) else Ok (m, a, 0).

Definition as_complete_load (a : addrspace) : Z := 0.

Definition as_define_stack (a : addrspace) : res (Z * Z) :=
  _ ← assert (negb (as_stackpbase a =? 0));
  Ok (USERSTACK, 0).

(** [memmove] between kernel addresses of physical memory. *)
Definition kmemmove (mem : list Z) (dst src len : Z) : res (list Z) :=
  memmove mem (PADDR_TO_KVADDR dst - MIPS_KSEG0) (PADDR_TO_KVADDR src - MIPS_KSEG0) len.

Definition as_copy (ok : bool) (m : machine) (old : addrspace) : res (machine * option addrspace * Z) :=
  match as_create ok with
  | None => Ok (m, None, ENOMEM)
  | Some new =>
      let new := mk_as (as_vbase1 old) (as_pbase1 new) (as_npages1 old)
                       (as_vbase2 old) (as_pbase2 new) (as_npages2 old) (as_stackpbase new) in
      '(m, new, err) ← as_prepare_load m new;
      if negb (err =? 0) then Ok (m, None, ENOMEM)
      else
        _ ← assert (negb (as_pbase1 new =? 0));
        _ ← assert (negb (as_pbase2 new =? 0));
        _ ← assert (negb (as_stackpbase new =? 0));
        mem ← kmemmove (m_mem m) (as_pbase1 new) (as_pbase1 old) (u32 (as_npages1 old * PAGE_SIZE));
        mem ← kmemmove mem (as_pbase2 new) (as_pbase2 old) (u32 (as_npages2 old * PAGE_SIZE));
        mem ← kmemmove mem (as_stackpbase new) (as_stackpbase old) (DUMBVM_STACKPAGES * PAGE_SIZE);
        Ok (set_mem mem m, Some new, 0)
  end.
