(* ===== verification/DumbVmSpec.v ===== *)
(** * Address spaces are private memories

    The translation an address space stands for, what the page fault handler
    and the TLB make of it, the exactness of copies, and the isolation of
    processes from one another. *)
From stdpp Require Import base numbers list option gmap.
From S2P Require Import Prelude Libc Ram DumbVm.
Local Open Scope Z_scope.

(** ** The translation of an address space *)

(** A region: its first address, its pages and its place in memory. *)
Record region : Type := mk_region { rg_v : Z; rg_n : Z; rg_p : Z }.

Definition rg_len (g : region) : Z := rg_n g * PAGE_SIZE.

Definition regions (a : addrspace) : list region :=
  [mk_region (as_vbase1 a) (as_npages1 a) (as_pbase1 a); mk_region (as_vbase2 a) (as_npages2 a) (as_pbase2 a);
   mk_region (USERSTACK - DUMBVM_STACKPAGES * PAGE_SIZE) DUMBVM_STACKPAGES (as_stackpbase a)].

Fixpoint trans (l : list region) (v : Z) : option Z :=
  match l with
  | [] => None
  | g :: l => if (rg_v g <=? v) && (v <? rg_v g + rg_len g) then Some (rg_p g + (v - rg_v g)) else trans l v
  end.

Definition translate (a : addrspace) (v : Z) : option Z := trans (regions a) v.

(** The region is made of whole pages of user space and of memory below [last]. *)
Definition region_ok (last : Z) (g : region) : Prop :=
  0 < rg_v g /\ rg_v g `mod` PAGE_SIZE = 0 /\ 0 < rg_n g /\ rg_v g + rg_len g <= USERSTACK /\
  0 < rg_p g /\ rg_p g `mod` PAGE_SIZE = 0 /\ rg_p g + rg_len g <= last.

Definition as_ok (last : Z) (a : addrspace) : Prop := Forall (region_ok last) (regions a).

Definition owns (a : addrspace) (p : Z) : Prop := Exists (fun g => rg_p g <= p < rg_p g + rg_len g) (regions a).

Lemma trans_range l v p : trans l v = Some p -> Exists (fun g => rg_v g <= v < rg_v g + rg_len g /\ p = rg_p g + (v - rg_v g)) l.
Proof.
  induction l as [|g l IH]; cbn; [done|]. destruct (Z.leb_spec (rg_v g) v), (Z.ltb_spec v (rg_v g + rg_len g)); cbn [andb];
    try (intros Hp; right; by apply IH). intros [= <-]. left. lia.
Qed.

Lemma translate_owns a v p : translate a v = Some p -> owns a p.
Proof. intros Ht%trans_range. eapply Exists_impl; [exact Ht|]. intros g [Hv ->]. lia. Qed.

Lemma owns_range last a p : as_ok last a -> owns a p -> 0 < p < last.
Proof. unfold as_ok, owns, region_ok. intros Ha (g & Hg & Hp)%Exists_exists. rewrite Forall_forall in Ha. apply Ha in Hg. lia. Qed.

(** The offset in the page passes through. *)
Lemma trans_page last l v w : Forall (region_ok last) l -> 0 <= v -> 0 <= w -> v / PAGE_SIZE = w / PAGE_SIZE ->
  trans l w = (fun p => p - v `mod` PAGE_SIZE + w `mod` PAGE_SIZE) <$> trans l v.
Proof.
  unfold region_ok, PAGE_SIZE. intros Hl Hv Hw Hp. induction Hl as [|g l Hg Hl IH]; cbn; [done|].
  unfold rg_len, PAGE_SIZE in *. assert (exists k, rg_v g = 4096 * k) as [k Ek] by (exists (rg_v g / 4096); dlia).
  rewrite Ek in *. destruct (Z.leb_spec (4096 * k) v), (Z.leb_spec (4096 * k) w); try dlia; cbn [andb]; [|done].
  destruct (Z.ltb_spec v (4096 * k + rg_n g * 4096)), (Z.ltb_spec w (4096 * k + rg_n g * 4096)); try dlia; [|done].
  cbn. f_equal. dlia.
Qed.

(** Aligned addresses translate to aligned addresses. *)
Lemma trans_aligned last l v p : Forall (region_ok last) l -> v `mod` PAGE_SIZE = 0 -> trans l v = Some p ->
  p `mod` PAGE_SIZE = 0 /\ 0 < p < last.
Proof.
  unfold region_ok. intros Hl Hv (g & Hg & Hr & ->)%trans_range%Exists_exists. rewrite Forall_forall in Hl. apply Hl in Hg.
  unfold PAGE_SIZE in *. split; [dlia|]. lia.
Qed.

(** ** The TLB *)

Definition valid (elo : Z) : bool := negb (Z.land elo TLBLO_VALID =? 0).

(** The translation of one entry: an address on its page, to its frame. *)
Definition entry_trans (e : Z * Z) (v : Z) : option Z :=
  if valid (snd e) && (Z.land (fst e) PAGE_FRAME =? Z.land v PAGE_FRAME)
  then Some (Z.land (snd e) PAGE_FRAME + v `mod` PAGE_SIZE) else None.

(** What the processor finds for an address. *)
Fixpoint tlb_lookup (tlb : list (Z * Z)) (v : Z) : option Z :=
  match tlb with
  | [] => None
  | e :: tlb => match entry_trans e v with Some p => Some p | None => tlb_lookup tlb v end
  end.

Definition sound (a : addrspace) (e : Z * Z) : Prop :=
  forall v p, 0 <= v < USERSTACK -> entry_trans e v = Some p -> translate a v = Some p.

Lemma tlb_lookup_sound a tlb v p : Forall (sound a) tlb -> 0 <= v < USERSTACK -> tlb_lookup tlb v = Some p -> translate a v = Some p.
Proof.
  intros Hs Hv. induction Hs as [|e tlb He Hs IH]; cbn; [done|]. destruct (entry_trans e v) eqn:E; [|done].
  intros [= <-]. by apply He.
Qed.

Lemma tlb_lookup_elem tlb e v p : e ∈ tlb -> entry_trans e v = Some p -> exists q, tlb_lookup tlb v = Some q.
Proof.
  intros He E. induction tlb as [|e' tlb IH]; [by apply not_elem_of_nil in He|]. cbn.
  destruct (entry_trans e' v) eqn:E'; [by eexists|]. apply elem_of_cons in He as [->|He]; [congruence|by apply IH].
Qed.

(** The low word [vm_fault] writes. *)
Lemma new_elo p : p `mod` PAGE_SIZE = 0 -> 0 < p -> p < 508 * 1024 * 1024 ->
  Z.lor (Z.lor p TLBLO_DIRTY) TLBLO_VALID = p + 0x600 /\ valid (p + 0x600) = true /\ Z.land (p + 0x600) PAGE_FRAME = p.
Proof.
  intros Hp H0 Hl. assert (Z.lor (Z.lor p TLBLO_DIRTY) TLBLO_VALID = p + 0x600) as E.
  { rewrite <- Z.lor_assoc. change (Z.lor TLBLO_DIRTY TLBLO_VALID) with 0x600. by apply lor_offset. }
  split; [done|]. split.
  - unfold valid. rewrite <- E, Z.land_lor_distr_l, Z.land_diag. destruct (Z.eqb_spec (Z.lor (Z.land (Z.lor p TLBLO_DIRTY) TLBLO_VALID) TLBLO_VALID) 0) as [E0|]; [|done].
    apply Z.lor_eq_0_iff in E0 as [_ E0]. discriminate E0.
  - rewrite land_frame by lia. unfold PAGE_SIZE in *. dlia.
Qed.

Lemma entry_trans_new v w p : 0 <= v < 2 ^ 32 -> 0 <= w < 2 ^ 32 -> p `mod` PAGE_SIZE = 0 -> 0 < p -> p < 508 * 1024 * 1024 ->
  entry_trans (Z.land v PAGE_FRAME, Z.lor (Z.lor p TLBLO_DIRTY) TLBLO_VALID) w =
    if v / PAGE_SIZE =? w / PAGE_SIZE then Some (p + w `mod` PAGE_SIZE) else None.
Proof.
  intros Hv Hw Hp H0 Hl. destruct (new_elo p Hp H0 Hl) as (-> & Hval & Hf). unfold entry_trans. cbn [fst snd].
  rewrite Hval, Hf. rewrite <- Z.land_assoc, Z.land_diag, !land_frame by lia. unfold PAGE_SIZE. cbn [andb].
  destruct (Z.eqb_spec (v - v `mod` 4096) (w - w `mod` 4096)), (Z.eqb_spec (v / 4096) (w / 4096)); try done; dlia.
Qed.

(** The search for a slot. *)
Lemma tlb_loop_spec m fa p spl : length (m_tlb m) = 64%nat -> forall n i, 0 <= i -> i + Z.of_nat n = 64 ->
  (forall k e, (k < Z.to_nat i)%nat -> m_tlb m !! k = Some e -> valid (snd e) = true) ->
  (tlb_loop n m i fa p spl = Ok (splx spl m, EFAULT) /\ Forall (fun e => valid (snd e) = true) (m_tlb m)) \/
  exists k e, m_tlb m !! k = Some e /\ valid (snd e) = false /\
    (forall j e, (j < k)%nat -> m_tlb m !! j = Some e -> valid (snd e) = true) /\
    tlb_loop n m i fa p spl =
      Ok (splx spl (set_tlb (<[k := (fa, Z.lor (Z.lor p TLBLO_DIRTY) TLBLO_VALID)]> (m_tlb m)) m), 0).
Proof.
  intros Hl. induction n as [|n IH]; intros i Hi Hn Hval; cbn [tlb_loop].
  { left. split; [done|]. apply Forall_lookup_2. intros k e Hk. apply (Hval k e); [|done]. apply lookup_lt_Some in Hk. lia. }
  unfold TLB_Read, TLB_Write. destruct (load_in_range (m_tlb m) i) as ([ehi elo] & -> & E); [lia|]. rewrite bind_Ok.
  fold (valid elo). destruct (valid elo) eqn:Ev.
  - apply IH; [lia|lia|]. intros k e Hk He. destruct (decide (k = Z.to_nat i)) as [->|]; [by rewrite E in He; injection He as <-|].
    apply (Hval k e); [lia|done].
  - right. exists (Z.to_nat i), (ehi, elo). do 2 (split; [done|]). split; [done|]. by rewrite store_in_range, !bind_Ok by lia.
Qed.

(** ** The fault handler *)

(** The test of [vm_fault] on the page of an address is the test on the address. *)
Lemma region_test last g v top : region_ok last g -> 0 <= v < USERSTACK -> top = rg_v g + rg_len g ->
  (Z.land v PAGE_FRAME >=? rg_v g) && (Z.land v PAGE_FRAME <? top) = (rg_v g <=? v) && (v <? rg_v g + rg_len g).
Proof.
  unfold region_ok, rg_len, USERSTACK, MIPS_KSEG0. intros (Hv0 & Hm & Hn & _) Hv ->. rewrite land_frame by lia. unfold PAGE_SIZE in *.
  assert (exists k, rg_v g = 4096 * k) as [k Ek] by (exists (rg_v g / 4096); dlia). rewrite Ek, Z.geb_leb in *.
  destruct (Z.leb_spec (4096 * k) (v - v `mod` 4096)), (Z.leb_spec (4096 * k) v); dlia.
Qed.

Lemma region_paddr last g v : region_ok last g -> last <= 508 * 1024 * 1024 -> 0 <= v < USERSTACK ->
  rg_v g <= v < rg_v g + rg_len g ->
  u32 (Z.land v PAGE_FRAME - rg_v g + rg_p g) = rg_p g + (v - rg_v g) - v `mod` PAGE_SIZE.
Proof.
  unfold region_ok, rg_len, USERSTACK, MIPS_KSEG0. intros (Hv0 & Hm & Hn & _ & Hp & Hpm & Hpl) Hl Hv Hr. rewrite land_frame by lia.
  unfold PAGE_SIZE in *. rewrite u32_small by dlia. dlia.
Qed.

Section fault.
Variables (last : Z) (a : addrspace) (m : machine) (v : Z).
Hypotheses (Hok : as_ok last a) (Hlast : last <= 508 * 1024 * 1024) (Hv : 0 <= v < USERSTACK).

Lemma as_regions_ok : region_ok last (mk_region (as_vbase1 a) (as_npages1 a) (as_pbase1 a)) /\
  region_ok last (mk_region (as_vbase2 a) (as_npages2 a) (as_pbase2 a)) /\
  region_ok last (mk_region (USERSTACK - DUMBVM_STACKPAGES * PAGE_SIZE) DUMBVM_STACKPAGES (as_stackpbase a)).
Proof. by apply Forall_cons_1 in Hok as [H1 [H2 [H3 _]%Forall_cons_1]%Forall_cons_1]. Qed.

(** The choice among the regions is the translation of the page. *)
Lemma fault_found :
  (if (Z.land v PAGE_FRAME >=? as_vbase1 a) && (Z.land v PAGE_FRAME <? u32 (as_vbase1 a + as_npages1 a * PAGE_SIZE))
   then Some (u32 (Z.land v PAGE_FRAME - as_vbase1 a + as_pbase1 a))
   else if (Z.land v PAGE_FRAME >=? as_vbase2 a) && (Z.land v PAGE_FRAME <? u32 (as_vbase2 a + as_npages2 a * PAGE_SIZE))
   then Some (u32 (Z.land v PAGE_FRAME - as_vbase2 a + as_pbase2 a))
   else if (Z.land v PAGE_FRAME >=? USERSTACK - DUMBVM_STACKPAGES * PAGE_SIZE) && (Z.land v PAGE_FRAME <? USERSTACK)
   then Some (u32 (Z.land v PAGE_FRAME - (USERSTACK - DUMBVM_STACKPAGES * PAGE_SIZE) + as_stackpbase a))
   else None) = (fun p => p - v `mod` PAGE_SIZE) <$> translate a v.
Proof.
  destruct as_regions_ok as (R1 & R2 & R3).
  pose proof (region_test last _ v (u32 (as_vbase1 a + as_npages1 a * PAGE_SIZE)) R1 Hv) as T1.
  pose proof (region_test last _ v (u32 (as_vbase2 a + as_npages2 a * PAGE_SIZE)) R2 Hv) as T2.
  pose proof (region_test last _ v USERSTACK R3 Hv) as T3. cbn [rg_v] in T1, T2, T3.
  pose proof (region_paddr last _ v R1 Hlast Hv) as P1. pose proof (region_paddr last _ v R2 Hlast Hv) as P2.
  pose proof (region_paddr last _ v R3 Hlast Hv) as P3. cbn [rg_v rg_p] in P1, P2, P3.
  rewrite T1, T2, T3; [|done| |]; [|unfold region_ok, rg_len, USERSTACK, MIPS_KSEG0, PAGE_SIZE in *; cbn [rg_v rg_n rg_p] in *; apply u32_small; lia..].
  unfold translate, regions. cbn [trans rg_v rg_p].
  repeat match goal with |- context [if (?x <=? v) && (v <? ?y) then _ else _] =>
    destruct (Z.leb_spec x v), (Z.ltb_spec v y); cbn [andb] end; cbn [fmap option_fmap option_map];
    try done; rewrite ?P1, ?P2, ?P3 by done; done.
Qed.

Lemma vm_fault_spec ft : ft = VM_FAULT_READ \/ ft = VM_FAULT_WRITE -> length (m_tlb m) = 64%nat ->
  (vm_fault (Some a) m ft v = Ok (m, EFAULT) /\ (translate a v = None \/ Forall (fun e => valid (snd e) = true) (m_tlb m))) \/
  exists p k e, translate a v = Some p /\ m_tlb m !! k = Some e /\ valid (snd e) = false /\
    vm_fault (Some a) m ft v =
      Ok (set_tlb (<[k := (Z.land v PAGE_FRAME, Z.lor (Z.lor (p - v `mod` PAGE_SIZE) TLBLO_DIRTY) TLBLO_VALID)]> (m_tlb m)) m, 0).
Proof.
  intros Hft Hl. destruct as_regions_ok as (R1 & R2 & R3). unfold vm_fault. cbn [splhigh].
  assert ((ft =? VM_FAULT_READONLY) = false /\ negb ((ft =? VM_FAULT_READ) || (ft =? VM_FAULT_WRITE)) = false) as [-> ->]
    by (destruct Hft as [->| ->]; done).
  assert (forall x, 0 <= x < 2 ^ 32 -> x `mod` PAGE_SIZE = 0 -> Z.land x PAGE_FRAME = x) as Hal by (intros x Hx Hm; rewrite land_frame by done; lia).
  unfold region_ok, rg_len, USERSTACK, MIPS_KSEG0, PAGE_SIZE in R1, R2, R3. cbn [rg_v rg_n rg_p] in R1, R2, R3.
  rewrite (Hal (as_vbase1 a)), (Hal (as_vbase2 a)), (Hal (as_pbase1 a)), (Hal (as_pbase2 a)), (Hal (as_stackpbase a)) by (unfold PAGE_SIZE; lia).
  do 12 pass_assert. cbv zeta. rewrite fault_found.
  destruct (translate a v) as [p|] eqn:Et; cbn [fmap option_fmap option_map].
  2:{ left. split; [by destruct m|by left]. }
  assert (translate a (v - v `mod` PAGE_SIZE) = Some (p - v `mod` PAGE_SIZE)) as Etp.
  { unfold translate in *. rewrite (trans_page last _ v); [rewrite Et; cbn; f_equal; unfold PAGE_SIZE; dlia|done|lia|unfold PAGE_SIZE; dlia|unfold PAGE_SIZE; dlia]. }
  apply (trans_aligned last) in Etp as [Hpm Hpr]; [|done|unfold PAGE_SIZE; dlia].
  rewrite (Hal (p - v `mod` PAGE_SIZE)) by lia. rewrite Z.eqb_refl. cbn [assert]. rewrite bind_Ok.
  change (Z.to_nat NUM_TLB) with 64%nat.
  destruct (tlb_loop_spec (set_spl SPL_HIGH m) (Z.land v PAGE_FRAME) (p - v `mod` PAGE_SIZE) (curspl m) Hl 64 0) as [[-> Hval]|(k & e & Ek & Hk & _ & ->)].
  - lia.
  - lia.
  - intros k e Hk. simpl in Hk. lia.
  - left. split; [by destruct m|by right].
  - right. exists p, k, e. do 3 (split; [done|]). by destruct m.
Qed.
End fault.

(** A fresh entry is sound, and so is the TLB with it. *)
Lemma new_entry_sound last a v p : as_ok last a -> last <= 508 * 1024 * 1024 -> 0 <= v < USERSTACK -> translate a v = Some p ->
  let e := (Z.land v PAGE_FRAME, Z.lor (Z.lor (p - v `mod` PAGE_SIZE) TLBLO_DIRTY) TLBLO_VALID) in
  sound a e /\ entry_trans e v = Some p.
Proof.
  intros Hok Hl Hv Et e. assert (USERSTACK < 2 ^ 32) as Hus by done.
  assert (translate a (v - v `mod` PAGE_SIZE) = Some (p - v `mod` PAGE_SIZE)) as Etp.
  { unfold translate in *. rewrite (trans_page last _ v); [rewrite Et; cbn; f_equal; unfold PAGE_SIZE; dlia|done|lia|unfold PAGE_SIZE; dlia|unfold PAGE_SIZE; dlia]. }
  apply (trans_aligned last) in Etp as [Hpm Hpr]; [|done|unfold PAGE_SIZE; dlia].
  assert (forall w, 0 <= w < USERSTACK -> entry_trans e w = if v / PAGE_SIZE =? w / PAGE_SIZE then Some (p - v `mod` PAGE_SIZE + w `mod` PAGE_SIZE) else None) as He.
  { intros w Hw. apply entry_trans_new; done || lia. }
  split.
  - intros w q Hw. rewrite He by done. destruct (Z.eqb_spec (v / PAGE_SIZE) (w / PAGE_SIZE)); [|done]. intros [= <-].
    unfold translate in *. rewrite (trans_page last _ v), Et by (done || lia). done.
  - rewrite He, Z.eqb_refl by done. f_equal. lia.
Qed.

(** What an entry translates is found. *)
Lemma tlb_find a tlb e w q q' : Forall (sound a) tlb -> e ∈ tlb -> 0 <= w < USERSTACK -> entry_trans e w = Some q' -> translate a w = Some q ->
  tlb_lookup tlb w = Some q.
Proof.
  intros Hs Hin Hw He Hq. destruct (tlb_lookup_elem _ _ _ _ Hin He) as [q2 E2]. rewrite E2.
  by rewrite <- (tlb_lookup_sound a _ w q2 Hs Hw E2).
Qed.

Lemma tlb_lookup_entry tlb w q : tlb_lookup tlb w = Some q -> exists e, e ∈ tlb /\ entry_trans e w = Some q.
Proof.
  induction tlb as [|e0 l IH]; cbn; [done|]. destruct (entry_trans e0 w) eqn:E0.
  - intros [= <-]. exists e0. split; [left|done].
  - intros Hq. destruct (IH Hq) as (e & ? & ?). exists e. split; [by right|done].
Qed.

(** Replacing an invalid entry keeps what is translated. *)
Lemma tlb_insert_keeps a tlb k e en w q : Forall (sound a) tlb -> Forall (sound a) (<[k := en]> tlb) -> tlb !! k = Some e -> valid (snd e) = false ->
  0 <= w < USERSTACK -> tlb_lookup tlb w = Some q -> tlb_lookup (<[k := en]> tlb) w = Some q.
Proof.
  intros Hs Hs' Ek Hk Hw Hq. pose proof (tlb_lookup_sound a _ w q Hs Hw Hq) as Htq. destruct (tlb_lookup_entry _ _ _ Hq) as (e' & Hin & He').
  apply (tlb_find a _ e' w q q); try done. apply list_elem_of_lookup in Hin as [j Hj].
  assert (j <> k) as Hne. { intros ->. rewrite Ek in Hj. injection Hj as <-. unfold entry_trans in He'. by rewrite Hk in He'. }
  apply list_elem_of_lookup. exists j. by rewrite list_lookup_insert_ne.
Qed.

Lemma vm_fault_result last a m ft v :
  as_ok last a -> last <= 508 * 1024 * 1024 -> 0 <= v < USERSTACK -> ft = VM_FAULT_READ \/ ft = VM_FAULT_WRITE ->
  length (m_tlb m) = 64%nat -> Forall (sound a) (m_tlb m) ->
  exists tlb e, vm_fault (Some a) m ft v = Ok (set_tlb tlb m, e) /\
    length tlb = 64%nat /\ Forall (sound a) tlb /\
    (e = 0 /\ (exists p, translate a v = Some p /\ tlb_lookup tlb v = Some p) \/
     e = EFAULT /\ tlb = m_tlb m /\ (translate a v = None \/ Forall (fun e => valid (snd e) = true) tlb)) /\
    forall w q, 0 <= w < USERSTACK -> tlb_lookup (m_tlb m) w = Some q -> tlb_lookup tlb w = Some q.
Proof.
  intros Hok Hlast Hv Hft Hl Hs.
  destruct (vm_fault_spec last a m v Hok Hlast Hv ft Hft Hl) as [[-> Hwhy]|(p & k & e & Et & Ek & Hk & ->)].
  { exists (m_tlb m), EFAULT. split; [by destruct m|]. do 2 (split; [done|]). split; [by right|done]. }
  destruct (new_entry_sound last a v p Hok Hlast Hv Et) as [Hse Hte]. set (en := (_, _)) in *.
  apply lookup_lt_Some in Ek as Hlt. exists (<[k := en]> (m_tlb m)), 0. split; [done|]. rewrite length_insert. split; [done|].
  assert (Forall (sound a) (<[k := en]> (m_tlb m))) as Hs' by (by apply Forall_insert). split; [done|].
  split.
  - left. split; [done|]. exists p. split; [done|]. apply (tlb_find a _ en v p p); try done. eapply list_elem_of_lookup_2, list_lookup_insert_eq. done.
  - intros w q Hw Hq. by apply (tlb_insert_keeps a _ k e).
Qed.

(** Page faults make the TLB a part of the address space.  For a fault on
    a user address in an address space that is set up, with a TLB whose
    entries agree with it: the handler does not panic, changes nothing but
    the TLB, and leaves entries that agree with the address space.  If it
    returns 0 the processor now translates the address, and to the byte the
    address space has there; it returns an error exactly when the address is
    in no region or the TLB is full.  What was translated before still is. *)
Theorem vm_fault_exact last a m ft v :
  as_ok last a -> last <= 508 * 1024 * 1024 -> 0 <= v < USERSTACK -> ft = VM_FAULT_READ \/ ft = VM_FAULT_WRITE ->
  length (m_tlb m) = 64%nat -> Forall (sound a) (m_tlb m) ->
  exists tlb e, vm_fault (Some a) m ft v = Ok (set_tlb tlb m, e) /\
    length tlb = 64%nat /\ Forall (sound a) tlb /\
    (e = 0 /\ (exists p, translate a v = Some p /\ tlb_lookup tlb v = Some p) \/
     e = EFAULT /\ tlb = m_tlb m /\ (translate a v = None \/ Forall (fun e => valid (snd e) = true) tlb)) /\
    forall w q, 0 <= w < USERSTACK -> tlb_lookup (m_tlb m) w = Some q -> tlb_lookup tlb w = Some q.
Proof. apply vm_fault_result. Qed.

(** ** Switching *)

Lemma activate_loop_spec : forall n m i, 0 <= i -> i + Z.of_nat n = Z.of_nat (length (m_tlb m)) ->
  (forall k e, (k < Z.to_nat i)%nat -> m_tlb m !! k = Some e -> valid (snd e) = false) ->
  exists tlb, activate_loop n m i = Ok (set_tlb tlb m) /\ length tlb = length (m_tlb m) /\ Forall (fun e => valid (snd e) = false) tlb.
Proof.
  induction n as [|n IH]; intros m i Hi Hn Hinv; cbn [activate_loop].
  { exists (m_tlb m). split; [by destruct m|]. split; [done|]. apply Forall_lookup_2. intros k e Hk. apply (Hinv k e); [|done].
    apply lookup_lt_Some in Hk. lia. }
  unfold TLB_Write. rewrite store_in_range, !bind_Ok by lia.
  destruct (IH (set_tlb (<[Z.to_nat i := (TLBHI_INVALID i, TLBLO_INVALID)]> (m_tlb m)) m) (i + 1)) as (tlb & -> & Hl & Hf).
  - lia.
  - cbn. rewrite length_insert. lia.
  - cbn. intros k e Hk He. destruct (decide (k = Z.to_nat i)) as [->|].
    + rewrite list_lookup_insert_eq in He by lia. by injection He as <-.
    + rewrite list_lookup_insert_ne in He by done. apply (Hinv k e); [lia|done].
  - exists tlb. split; [done|]. cbn in Hl. by rewrite length_insert in Hl.
Qed.

Lemma as_activate_spec m : length (m_tlb m) = 64%nat ->
  exists tlb, as_activate m = Ok (set_tlb tlb m) /\ length tlb = 64%nat /\ Forall (fun e => valid (snd e) = false) tlb.
Proof.
  intros Hl. unfold as_activate. cbn [splhigh].
  destruct (activate_loop_spec 64 (set_spl SPL_HIGH m) 0) as (tlb & E & Hl' & Hf); [lia|cbn; lia|intros k e Hk; simpl in Hk; lia|].
  change (Z.to_nat NUM_TLB) with 64%nat. rewrite E, bind_Ok. exists tlb. split; [by destruct m|]. cbn in Hl'. split; [congruence|done].
Qed.

Lemma invalid_sound a tlb : Forall (fun e => valid (snd e) = false) tlb -> Forall (sound a) tlb.
Proof. intros H. eapply Forall_impl; [exact H|]. intros e He v p _. unfold entry_trans. by rewrite He. Qed.

(** ** Loading and copying *)

(** The part of an address space that its executable determines. *)
Definition layout_ok (a : addrspace) : Prop :=
  as_pbase1 a = 0 /\ as_pbase2 a = 0 /\ as_stackpbase a = 0 /\
  0 < as_vbase1 a /\ as_vbase1 a `mod` PAGE_SIZE = 0 /\ 0 < as_npages1 a /\ as_vbase1 a + as_npages1 a * PAGE_SIZE <= USERSTACK /\
  0 < as_vbase2 a /\ as_vbase2 a `mod` PAGE_SIZE = 0 /\ 0 < as_npages2 a /\ as_vbase2 a + as_npages2 a * PAGE_SIZE <= USERSTACK.

Definition as_pages (a : addrspace) : Z := as_npages1 a + as_npages2 a + DUMBVM_STACKPAGES.

(** The address space with its three pieces of memory one after the other. *)
Definition place (p : Z) (a : addrspace) : addrspace :=
  mk_as (as_vbase1 a) p (as_npages1 a) (as_vbase2 a) (p + as_npages1 a * PAGE_SIZE) (as_npages2 a)
    (p + (as_npages1 a + as_npages2 a) * PAGE_SIZE).

Lemma as_prepare_load_spec m a : ram_ok (m_ram m) -> layout_ok a ->
  exists r b e, as_prepare_load m a = Ok (set_ram r m, b, e) /\ ram_ok r /\ lastpaddr r = lastpaddr (m_ram m) /\
    firstpaddr (m_ram m) <= firstpaddr r /\
    if firstpaddr (m_ram m) + as_pages a * PAGE_SIZE <=? lastpaddr (m_ram m)
    then e = 0 /\ b = place (firstpaddr (m_ram m)) a /\ firstpaddr r = firstpaddr (m_ram m) + as_pages a * PAGE_SIZE
    else e = ENOMEM.
Proof.
  intros Hr (E1 & E2 & E3 & Hv1 & Hm1 & Hn1 & Ht1 & Hv2 & Hm2 & Hn2 & Ht2). destruct m as [r0 mem tlb spl]. cbn [m_ram] in *.
  unfold USERSTACK, MIPS_KSEG0, PAGE_SIZE, as_pages, DUMBVM_STACKPAGES in *.
  assert (forall r n, ram_ok r -> 0 <= n <= 524288 -> firstpaddr r + n * 4096 <= lastpaddr r -> ram_ok (mk_ram (firstpaddr r + n * 4096) (lastpaddr r))) as Hstep.
  { unfold ram_ok, PAGE_SIZE. intros r n (Ha & Hb & Hc) Hn Hf. cbn. repeat split; lia || dlia. }
  unfold as_prepare_load. rewrite E1, E2, E3. cbn [Z.eqb assert]. rewrite !bind_Ok. cbn [m_ram]. unfold getppages.
  pose proof Hr as (Hf0 & _). rewrite ram_stealmem_spec by (done || lia). rewrite Z.gtb_ltb. unfold PAGE_SIZE.
  destruct (Z.ltb_spec (lastpaddr r0) (firstpaddr r0 + as_npages1 a * 4096)); cbn [as_pbase1 set_pbase1].
  { destruct (Z.leb_spec (firstpaddr r0 + (as_npages1 a + as_npages2 a + 12) * 4096) (lastpaddr r0)); [lia|].
    do 3 eexists. split; [done|]. repeat split; apply Hr || done. }
  destruct (Z.eqb_spec (firstpaddr r0) 0); [lia|]. cbn [m_ram set_ram as_npages2 set_pbase1].
  pose proof (Hstep r0 (as_npages1 a) Hr ltac:(lia) ltac:(lia)) as Hr1. set (r1 := mk_ram _ _) in *.
  rewrite ram_stealmem_spec by (done || lia). rewrite Z.gtb_ltb. unfold PAGE_SIZE.
  destruct (Z.ltb_spec (lastpaddr r1) (firstpaddr r1 + as_npages2 a * 4096)); cbn [as_pbase2 set_pbase2].
  { cbn in *. destruct (Z.leb_spec (firstpaddr r0 + (as_npages1 a + as_npages2 a + 12) * 4096) (lastpaddr r0)); [lia|].
    exists r1. do 2 eexists. split; [done|]. cbn. repeat split; apply Hr1 || done || lia. }
  destruct (Z.eqb_spec (firstpaddr r1) 0); [cbn in *; lia|]. cbn [m_ram set_ram].
  pose proof (Hstep r1 (as_npages2 a) Hr1 ltac:(lia) ltac:(lia)) as Hr2. set (r2 := mk_ram _ (lastpaddr r1)) in *.
  rewrite ram_stealmem_spec by (done || (unfold DUMBVM_STACKPAGES; lia)). rewrite Z.gtb_ltb. unfold PAGE_SIZE, DUMBVM_STACKPAGES.
  destruct (Z.ltb_spec (lastpaddr r2) (firstpaddr r2 + 12 * 4096)); cbn [as_stackpbase set_stackpbase].
  { cbn in *. destruct (Z.leb_spec (firstpaddr r0 + (as_npages1 a + as_npages2 a + 12) * 4096) (lastpaddr r0)); [lia|].
    exists r2. do 2 eexists. split; [done|]. cbn. repeat split; apply Hr2 || done || lia. }
  destruct (Z.eqb_spec (firstpaddr r2) 0); [cbn in *; lia|].
  pose proof (Hstep r2 12 Hr2 ltac:(lia) ltac:(lia)) as Hr3. cbn in *.
  destruct (Z.leb_spec (firstpaddr r0 + (as_npages1 a + as_npages2 a + 12) * 4096) (lastpaddr r0)); [|lia].
  do 3 eexists. split; [done|]. cbn. repeat split; try apply Hr3; try lia.
  unfold place, PAGE_SIZE, set_stackpbase, set_pbase2, set_pbase1. cbn. f_equal; lia.
Qed.

Lemma place_ok p a last : layout_ok a -> 0 < p -> p `mod` PAGE_SIZE = 0 -> p + as_pages a * PAGE_SIZE <= last -> as_ok last (place p a).
Proof.
  unfold layout_ok, as_pages, DUMBVM_STACKPAGES, as_ok, regions, region_ok, rg_len, place, USERSTACK, MIPS_KSEG0, PAGE_SIZE.
  intros (_ & _ & _ & ?) Hp Hm Hl. repeat constructor; cbn [rg_v rg_n rg_p as_vbase1 as_npages1 as_pbase1 as_vbase2 as_npages2 as_pbase2 as_stackpbase];
    unfold DUMBVM_STACKPAGES, PAGE_SIZE, USERSTACK, MIPS_KSEG0; lia || dlia.
Qed.

Lemma place_owns p a q : layout_ok a -> owns (place p a) q <-> p <= q < p + as_pages a * PAGE_SIZE.
Proof.
  unfold layout_ok, owns, regions, rg_len, place, as_pages, DUMBVM_STACKPAGES, PAGE_SIZE. intros (_ & _ & _ & ? & ? & ? & ? & ? & ? & ? & ?).
  rewrite !Exists_cons, Exists_nil. cbn. lia.
Qed.

(** What a process sees at an address. *)
Definition view (a : addrspace) (mem : list Z) (v : Z) : option Z := p ← translate a v; mem !! Z.to_nat p.

Lemma kmemmove_spec mem dst src len :
  0 <= dst -> 0 <= src -> 0 <= len -> dst + len <= 508 * 1024 * 1024 -> src + len <= 508 * 1024 * 1024 ->
  dst + len <= Z.of_nat (length mem) -> src + len <= Z.of_nat (length mem) ->
  exists mem', kmemmove mem dst src len = Ok mem' /\ length mem' = length mem /\
    forall q, 0 <= q -> mem' !! Z.to_nat q =
      if (dst <=? q) && (q <? dst + len) then mem !! Z.to_nat (src + (q - dst)) else mem !! Z.to_nat q.
Proof.
  intros Hd Hs Hl Hdl Hsl Hdm Hsm. unfold kmemmove, PADDR_TO_KVADDR, MIPS_KSEG0. rewrite !u32_small by lia.
  replace (dst + 2147483648 - 2147483648) with dst by ring. replace (src + 2147483648 - 2147483648) with src by ring.
  rewrite memmove_spec by done. eexists. split; [done|].
  assert (length (slice mem (Z.to_nat src) (Z.to_nat len)) = Z.to_nat len) as Hls by (apply length_slice; lia).
  split; [apply length_splice; lia|]. intros q Hq. rewrite lookup_splice by lia. rewrite Hls, lookup_slice.
  destruct (Z.leb_spec dst q), (Z.ltb_spec q (dst + len)); cbn [andb]; repeat case_decide; try lia; try done. f_equal. lia.
Qed.

(** Regions at the same addresses with the same bytes give the same view. *)
Definition same_bytes (mem mem' : list Z) (g g' : region) : Prop :=
  rg_v g' = rg_v g /\ rg_n g' = rg_n g /\
  forall k, 0 <= k < rg_len g -> mem' !! Z.to_nat (rg_p g' + k) = mem !! Z.to_nat (rg_p g + k).

Lemma same_view mem mem' l l' v : Forall2 (same_bytes mem mem') l l' ->
  (trans l' v ≫= fun p => mem' !! Z.to_nat p) = (trans l v ≫= fun p => mem !! Z.to_nat p).
Proof.
  induction 1 as [|g g' l l' (Ev & En & Hb) Hl IH]; cbn [trans]; [done|]. unfold rg_len in *. rewrite Ev, En.
  destruct (Z.leb_spec (rg_v g) v), (Z.ltb_spec v (rg_v g + rg_n g * PAGE_SIZE)); cbn [andb]; try exact IH.
  apply Hb. lia.
Qed.

Lemma view_unchanged last a mem mem' v : as_ok last a ->
  (forall q, 0 <= q < last -> mem' !! Z.to_nat q = mem !! Z.to_nat q) -> view a mem' v = view a mem v.
Proof.
  intros Ha Hq. unfold view. destruct (translate a v) as [p|] eqn:E; [|done]. cbn. apply Hq.
  pose proof (owns_range last a p Ha (translate_owns a v p E)). lia.
Qed.

Definition as_layout (a : addrspace) : addrspace := mk_as (as_vbase1 a) 0 (as_npages1 a) (as_vbase2 a) 0 (as_npages2 a) 0.

Lemma as_layout_ok last a : as_ok last a -> layout_ok (as_layout a).
Proof.
  intros Ha. destruct (as_regions_ok last a Ha) as (R1 & R2 & _). unfold region_ok, rg_len in *. cbn in *.
  unfold layout_ok. cbn. repeat split; lia.
Qed.

(** Looks up a byte in memory after a copy that [M] describes. *)
Ltac look M :=
  rewrite M by lia;
  match goal with |- context [(?x <=? ?y) && (?u <? ?w)] => destruct (Z.leb_spec x y), (Z.ltb_spec u w); try lia; cbn [andb] end.

Lemma as_copy_spec m old : ram_ok (m_ram m) -> lastpaddr (m_ram m) <= Z.of_nat (length (m_mem m)) -> as_ok (firstpaddr (m_ram m)) old ->
  exists r mem new e, as_copy true m old = Ok (set_mem mem (set_ram r m), new, e) /\ ram_ok r /\ lastpaddr r = lastpaddr (m_ram m) /\
    firstpaddr (m_ram m) <= firstpaddr r /\ length mem = length (m_mem m) /\
    (forall q, 0 <= q < firstpaddr (m_ram m) -> mem !! Z.to_nat q = m_mem m !! Z.to_nat q) /\
    if firstpaddr (m_ram m) + as_pages old * PAGE_SIZE <=? lastpaddr (m_ram m)
    then e = 0 /\ new = Some (place (firstpaddr (m_ram m)) (as_layout old)) /\
      firstpaddr r = firstpaddr (m_ram m) + as_pages old * PAGE_SIZE /\
      Forall2 (same_bytes (m_mem m) mem) (regions old) (regions (place (firstpaddr (m_ram m)) (as_layout old)))
    else e = ENOMEM /\ new = None /\ mem = m_mem m.
Proof.
  intros Hr Hm Ha. pose proof (as_layout_ok _ _ Ha) as Hlay. unfold as_copy. cbn [as_create as_pbase1 as_pbase2 as_stackpbase]. fold (as_layout old).
  destruct (as_prepare_load_spec m (as_layout old) Hr Hlay) as (r & b & e & -> & Hr' & El & Hf & Hcase). rewrite bind_Ok.
  change (as_pages (as_layout old)) with (as_pages old) in Hcase.
  destruct (Z.leb_spec (firstpaddr (m_ram m) + as_pages old * PAGE_SIZE) (lastpaddr (m_ram m))) as [Hfit|Hno].
  2:{ subst e. cbn [negb Z.eqb ENOMEM]. exists r, (m_mem m), None, ENOMEM. split; [by destruct m|]. repeat split; done || apply Hr'. }
  destruct Hcase as (-> & -> & Ef). cbn [negb Z.eqb]. set (p := firstpaddr (m_ram m)) in *.
  destruct (as_regions_ok p old Ha) as (R1 & R2 & R3). destruct Hr as (Hp & Hlm & Hpm). fold p in Hp, Hpm.
  unfold region_ok, rg_len, as_pages, DUMBVM_STACKPAGES, PAGE_SIZE, USERSTACK, MIPS_KSEG0 in *. cbn [rg_v rg_n rg_p] in R1, R2, R3.
  unfold place. cbn [as_vbase1 as_npages1 as_pbase1 as_vbase2 as_npages2 as_pbase2 as_stackpbase as_layout]. unfold PAGE_SIZE.
  do 3 pass_assert. cbn [m_mem set_ram]. rewrite !u32_small by lia.
  destruct (kmemmove_spec (m_mem m) p (as_pbase1 old) (as_npages1 old * 4096)) as (mem1 & -> & L1 & M1); [lia..|]. rewrite bind_Ok.
  destruct (kmemmove_spec mem1 (p + as_npages1 old * 4096) (as_pbase2 old) (as_npages2 old * 4096)) as (mem2 & -> & L2 & M2); [lia..|]. rewrite bind_Ok.
  destruct (kmemmove_spec mem2 (p + (as_npages1 old + as_npages2 old) * 4096) (as_stackpbase old) (12 * 4096)) as (mem3 & -> & L3 & M3); [lia..|]. rewrite bind_Ok.
  exists r, mem3, (Some (mk_as (as_vbase1 old) p (as_npages1 old) (as_vbase2 old) (p + as_npages1 old * 4096) (as_npages2 old) (p + (as_npages1 old + as_npages2 old) * 4096))), 0.
  split; [done|]. split; [done|]. split; [done|]. split; [done|]. split; [congruence|].
  assert (forall q, 0 <= q < p -> mem1 !! Z.to_nat q = m_mem m !! Z.to_nat q) as N1 by (intros q Hq; look M1; done).
  assert (forall q, 0 <= q < p -> mem2 !! Z.to_nat q = m_mem m !! Z.to_nat q) as N2 by (intros q Hq; look M2; by apply N1).
  split; [intros q Hq; look M3; by apply N2|]. split; [done|]. split; [done|]. split; [done|].
  unfold regions. cbn [as_vbase1 as_npages1 as_pbase1 as_vbase2 as_npages2 as_pbase2 as_stackpbase].
  constructor; [|constructor; [|constructor; [|constructor]]]; (split; [done|]; split; [done|]); unfold rg_len, PAGE_SIZE, DUMBVM_STACKPAGES; cbn [rg_n rg_p]; intros k Hk.
  - look M3. look M2. look M1; f_equal; lia.
  - look M3; look M2; rewrite N1 by lia; f_equal; lia.
  - look M3; rewrite N2 by lia; f_equal; lia.
Qed.

(** Copying an address space makes an exact and private copy.  If the
    memory for it is there, [as_copy] succeeds, the new address space shows
    at every address what the old one shows, the old one still shows what it
    did, and the two share no memory; otherwise it returns [ENOMEM] and
    changes no memory. *)
Theorem as_copy_exact m old : ram_ok (m_ram m) -> lastpaddr (m_ram m) <= Z.of_nat (length (m_mem m)) -> as_ok (firstpaddr (m_ram m)) old ->
  exists m' new e, as_copy true m old = Ok (m', new, e) /\
    if firstpaddr (m_ram m) + as_pages old * PAGE_SIZE <=? lastpaddr (m_ram m)
    then e = 0 /\ exists b, new = Some b /\
      (forall v, view b (m_mem m') v = view old (m_mem m) v) /\
      (forall v, view old (m_mem m') v = view old (m_mem m) v) /\
      (forall q, owns b q -> owns old q -> False)
    else e = ENOMEM /\ new = None /\ m_mem m' = m_mem m.
Proof.
  intros Hr Hm Ha. destruct (as_copy_spec m old Hr Hm Ha) as (r & mem & new & e & E & _ & _ & _ & _ & Hq & Hcase).
  exists (set_mem mem (set_ram r m)), new, e. split; [done|].
  destruct (_ <=? _); [|done]. destruct Hcase as (-> & -> & _ & Hsame). split; [done|]. eexists. split; [done|]. split; [|split].
  - intros v. by apply same_view.
  - intros v. by apply (view_unchanged (firstpaddr (m_ram m))).
  - intros q Hb%(place_owns _ _ _ (as_layout_ok _ _ Ha)) Ho%(owns_range _ _ _ Ha). lia.
Qed.

(** ** Processes *)

(** The machine, the address spaces of the processes, and the running one. *)
Record system : Type := mk_system { s_m : machine; s_procs : gmap Z addrspace; s_cur : option Z }.

(** [EvSpawn] makes an address space for an executable with two segments,
    [EvFork] copies one, [EvFault] is a page fault of the running process and
    [EvStore] a store of a byte by it. *)
Inductive event : Type :=
| EvSpawn (i v1 sz1 v2 sz2 : Z)
| EvFork (ok : bool) (i j : Z)
| EvSwitch (i : Z)
| EvFault (ft v : Z)
| EvStore (v b : Z)
| EvExit.

Definition exec (s : system) (ev : event) : res system :=
  match ev with
  | EvSpawn i v1 sz1 v2 sz2 =>
      match s_procs s !! i, as_create true with
      | None, Some a =>
          let '(a, _) := as_define_region a v1 sz1 in
          let '(a, _) := as_define_region a v2 sz2 in
          '(m, a, err) ← as_prepare_load (s_m s) a;
          Ok (mk_system m (if err =? 0 then <[i := a]> (s_procs s) else s_procs s) (s_cur s))
      | _, _ => Ok s
      end
  | EvFork ok i j =>
      match s_procs s !! i, s_procs s !! j with
      | Some a, None =>
          '(m, new, err) ← as_copy ok (s_m s) a;
          Ok (mk_system m (match new with Some b => <[j := b]> (s_procs s) | None => s_procs s end) (s_cur s))
      | _, _ => Ok s
      end
  | EvSwitch i =>
      match s_procs s !! i with
      | Some _ => m ← as_activate (s_m s); Ok (mk_system m (s_procs s) (Some i))
      | None => Ok s
      end
  | EvFault ft v =>
      '(m, err) ← vm_fault (i ← s_cur s; s_procs s !! i) (s_m s) ft v;
      Ok (mk_system m (s_procs s) (s_cur s))
  | EvStore v b =>
      match s_cur s, tlb_lookup (m_tlb (s_m s)) v with
      | Some _, Some p => mem ← store (m_mem (s_m s)) p b; Ok (mk_system (set_mem mem (s_m s)) (s_procs s) (s_cur s))
      | _, _ => Ok s
      end
  | EvExit =>
      match s_cur s with
      | Some i => Ok (mk_system (s_m s) (delete i (s_procs s)) None)
      | None => Ok s
      end
  end.

Fixpoint execs (s : system) (evs : list event) : res system :=
  match evs with [] => Ok s | ev :: evs => s ← exec s ev; execs s evs end.

(** A segment is in user space and not on its first page; faults and stores of
    processes are at user addresses. *)
Definition segment_ok (v sz : Z) : Prop := PAGE_SIZE <= v /\ 0 < sz /\ v + sz <= USERSTACK.

Definition ev_ok (ev : event) : Prop :=
  match ev with
  | EvSpawn _ v1 sz1 v2 sz2 => segment_ok v1 sz1 /\ segment_ok v2 sz2
  | EvFault ft v => (ft = VM_FAULT_READ \/ ft = VM_FAULT_WRITE) /\ 0 <= v < USERSTACK
  | EvStore v _ => 0 <= v < USERSTACK
  | _ => True
  end.

Record sys_inv (s : system) : Prop := {
  si_ram : ram_ok (m_ram (s_m s));
  si_mem : lastpaddr (m_ram (s_m s)) <= Z.of_nat (length (m_mem (s_m s)));
  si_tlb : length (m_tlb (s_m s)) = 64%nat;
  si_as i a : s_procs s !! i = Some a -> as_ok (firstpaddr (m_ram (s_m s))) a;
  si_apart i j a b q : s_procs s !! i = Some a -> s_procs s !! j = Some b -> i <> j -> owns a q -> owns b q -> False;
  si_cur i : s_cur s = Some i -> exists a, s_procs s !! i = Some a /\ Forall (sound a) (m_tlb (s_m s));
}.

(** The segment with its page rounding. *)
Lemma as_define_region_first v sz : segment_ok v sz ->
  exists w n, as_define_region (mk_as 0 0 0 0 0 0 0) v sz = (mk_as w 0 n 0 0 0 0, 0) /\
    0 < w /\ w `mod` PAGE_SIZE = 0 /\ 0 < n /\ w + n * PAGE_SIZE <= USERSTACK /\ w <= v /\ v + sz <= w + n * PAGE_SIZE.
Proof.
  unfold segment_ok, USERSTACK, MIPS_KSEG0, PAGE_SIZE. intros (Hv & Hs & Hl). unfold as_define_region. cbn [as_vbase1 Z.eqb].
  change (u32 (Z.lnot PAGE_FRAME)) with 4095. rewrite land_offset, (land_frame v) by lia. unfold PAGE_SIZE.
  rewrite (u32_small (sz + _)) by dlia. rewrite u32_small by dlia. rewrite land_frame by dlia. unfold PAGE_SIZE.
  do 2 eexists. split; [done|]. dlia.
Qed.

Lemma as_define_region_second v sz w n : 0 < w -> segment_ok v sz ->
  exists w2 n2, as_define_region (mk_as w 0 n 0 0 0 0) v sz = (mk_as w 0 n w2 0 n2 0, 0) /\
    0 < w2 /\ w2 `mod` PAGE_SIZE = 0 /\ 0 < n2 /\ w2 + n2 * PAGE_SIZE <= USERSTACK.
Proof.
  intros Hw Hseg. destruct (as_define_region_first v sz Hseg) as (w2 & n2 & E & H). unfold as_define_region in *.
  cbn [as_vbase1 as_vbase2 as_pbase1 as_npages1 as_pbase2 as_npages2 as_stackpbase Z.eqb] in *. injection E as Ew En.
  destruct (Z.eqb_spec w 0); [lia|]. exists w2, n2. split; [by rewrite Ew, En|]. tauto.
Qed.

Lemma as_ok_mono last last' a : last <= last' -> as_ok last a -> as_ok last' a.
Proof. intros Hl Ha. eapply Forall_impl; [exact Ha|]. unfold region_ok. intros g Hg. intuition lia. Qed.

(** The machine gives away memory above [firstpaddr] and may write there. *)
Definition grown (m m' : machine) : Prop :=
  ram_ok (m_ram m') /\ lastpaddr (m_ram m') = lastpaddr (m_ram m) /\ firstpaddr (m_ram m) <= firstpaddr (m_ram m') /\
  length (m_mem m') = length (m_mem m) /\ m_tlb m' = m_tlb m /\
  forall q, 0 <= q < firstpaddr (m_ram m) -> m_mem m' !! Z.to_nat q = m_mem m !! Z.to_nat q.

Lemma sys_inv_grown s m : sys_inv s -> grown (s_m s) m -> sys_inv (mk_system m (s_procs s) (s_cur s)).
Proof.
  intros Hinv (Hr & El & Hf & Hlen & Et & Hq). split; cbn; try done.
  - rewrite El, Hlen. apply Hinv.
  - rewrite Et. apply Hinv.
  - intros i a Ha. eapply as_ok_mono; [exact Hf|]. by apply (si_as _ Hinv i).
  - apply (si_apart _ Hinv).
  - intros i Hi. rewrite Et. by apply (si_cur _ Hinv).
Qed.

(** A new process on fresh memory. *)
Lemma sys_inv_add s m i a : sys_inv s -> grown (s_m s) m -> s_procs s !! i = None -> layout_ok a ->
  firstpaddr (m_ram m) = firstpaddr (m_ram (s_m s)) + as_pages a * PAGE_SIZE ->
  sys_inv (mk_system m (<[i := place (firstpaddr (m_ram (s_m s))) a]> (s_procs s)) (s_cur s)).
Proof.
  intros Hinv Hg Hi Hl Ef. pose proof (sys_inv_grown s m Hinv Hg) as Hinv'. pose proof (si_ram _ Hinv) as (Hp & _ & Hpm).
  assert (forall j b q, s_procs s !! j = Some b -> owns b q -> owns (place (firstpaddr (m_ram (s_m s))) a) q -> False) as Hap.
  { intros j b q Hj Hb%(owns_range (firstpaddr (m_ram (s_m s)))) Hq%place_owns; [lia|done|by apply (si_as _ Hinv j)]. }
  split; cbn; try apply Hinv'.
  - intros j b [[<- <-]|[_ Hj]]%lookup_insert_Some; [|by apply (si_as _ Hinv' j)]. apply place_ok; try done; lia.
  - intros j k b c q [[<- <-]|[_ Hj]]%lookup_insert_Some [[<- <-]|[_ Hk]]%lookup_insert_Some Hne Hb Hc; [done| | |].
    + by apply (Hap k c q).
    + by apply (Hap j b q).
    + by apply (si_apart _ Hinv j k b c q).
  - intros j Hj. destruct (si_cur _ Hinv' j Hj) as (b & Eb & Hs). cbn in *. exists b. split; [|done].
    rewrite lookup_insert_ne; [done|]. congruence.
Qed.

(** What an event does to the rest of the system: the running process stays or
    is the one switched to, and processes that do not run keep what they see. *)
Definition keeps (s : system) (ev : event) (s' : system) : Prop :=
  sys_inv s' /\
  (s_cur s' = s_cur s \/ s_cur s' = None \/ exists i, ev = EvSwitch i /\ s_cur s' = Some i) /\
  forall j a, s_procs s !! j = Some a -> s_cur s <> Some j ->
    s_procs s' !! j = Some a /\ forall v, view a (m_mem (s_m s')) v = view a (m_mem (s_m s)) v.

Lemma keeps_refl s ev : sys_inv s -> keeps s ev s.
Proof. intros Hinv. split; [done|]. split; [by left|done]. Qed.

Lemma keeps_grown s ev m procs : sys_inv s -> grown (s_m s) m -> sys_inv (mk_system m procs (s_cur s)) ->
  (forall j a, s_procs s !! j = Some a -> procs !! j = Some a) -> keeps s ev (mk_system m procs (s_cur s)).
Proof.
  intros Hinv (_ & _ & _ & _ & _ & Hq) Hinv' Hp. split; [done|]. split; [by left|]. intros j a Ha _. split; [by apply Hp|].
  intros v. by apply (view_unchanged _ _ _ _ v (si_as _ Hinv j a Ha)).
Qed.

Lemma lookup_insert_keep (procs : gmap Z addrspace) i b j a : procs !! i = None -> procs !! j = Some a -> <[i := b]> procs !! j = Some a.
Proof. intros Hi Hj. rewrite lookup_insert_ne; [done|congruence]. Qed.

Lemma exec_spawn s i v1 sz1 v2 sz2 : sys_inv s -> ev_ok (EvSpawn i v1 sz1 v2 sz2) ->
  exists s', exec s (EvSpawn i v1 sz1 v2 sz2) = Ok s' /\ keeps s (EvSpawn i v1 sz1 v2 sz2) s'.
Proof.
  intros Hinv [Hs1 Hs2]. cbn [exec as_create]. destruct (s_procs s !! i) eqn:Ei; [by exists s; split; [|apply keeps_refl]|].
  destruct (as_define_region_first v1 sz1 Hs1) as (w1 & n1 & -> & W1 & A1 & N1 & T1 & _).
  destruct (as_define_region_second v2 sz2 w1 n1 W1 Hs2) as (w2 & n2 & -> & W2 & A2 & N2 & T2). set (a := mk_as _ _ _ _ _ _ _).
  assert (layout_ok a) as Hl by done.
  destruct (as_prepare_load_spec (s_m s) a (si_ram _ Hinv) Hl) as (r & b & e & -> & Hr & El & Hf & Hcase). rewrite bind_Ok.
  eexists. split; [done|]. assert (grown (s_m s) (set_ram r (s_m s))) as Hg by done.
  destruct (_ <=? _).
  - destruct Hcase as (-> & -> & Ef). cbn [Z.eqb]. apply keeps_grown; [done|done|by apply sys_inv_add|].
    intros j c Hj. by apply lookup_insert_keep.
  - subst e. cbn [Z.eqb ENOMEM]. apply keeps_grown; [done|done|by apply sys_inv_grown|done].
Qed.

Lemma exec_fork s ok i j : sys_inv s -> exists s', exec s (EvFork ok i j) = Ok s' /\ keeps s (EvFork ok i j) s'.
Proof.
  intros Hinv. cbn [exec]. destruct (s_procs s !! i) as [a|] eqn:Ei; [|by exists s; split; [|apply keeps_refl]].
  destruct (s_procs s !! j) eqn:Ej; [by exists s; split; [|apply keeps_refl]|]. destruct ok.
  2:{ cbn. exists s. split; [by destruct s|by apply keeps_refl]. }
  pose proof (si_as _ Hinv i a Ei) as Ha.
  destruct (as_copy_spec (s_m s) a (si_ram _ Hinv) (si_mem _ Hinv) Ha) as (r & mem & new & e & -> & Hr & El & Hf & Hlen & Hq & Hcase).
  rewrite bind_Ok. eexists. split; [done|]. assert (grown (s_m s) (set_mem mem (set_ram r (s_m s)))) as Hg by done.
  destruct (_ <=? _).
  - destruct Hcase as (-> & -> & Ef & _). apply keeps_grown; [done|done| |intros k c Hk; by apply lookup_insert_keep].
    apply sys_inv_add; try done. by apply (as_layout_ok _ _ Ha).
  - destruct Hcase as (-> & -> & ->). apply keeps_grown; [done|done|by apply sys_inv_grown|done].
Qed.

Lemma exec_switch s i : sys_inv s -> exists s', exec s (EvSwitch i) = Ok s' /\ keeps s (EvSwitch i) s'.
Proof.
  intros Hinv. cbn [exec]. destruct (s_procs s !! i) as [a|] eqn:Ei; [|by exists s; split; [|apply keeps_refl]].
  destruct (as_activate_spec (s_m s) (si_tlb _ Hinv)) as (tlb & -> & Hl & Hf). rewrite bind_Ok. eexists. split; [done|].
  split; [|split; [right; right; by exists i|done]]. split; cbn; try apply Hinv; try done.
  intros k [= <-]. exists a. split; [done|]. by apply invalid_sound.
Qed.

Lemma exec_fault s ft v : sys_inv s -> ev_ok (EvFault ft v) -> exists s', exec s (EvFault ft v) = Ok s' /\ keeps s (EvFault ft v) s'.
Proof.
  intros Hinv [Hft Hv]. cbn [exec]. destruct (si_ram _ Hinv) as (Hp & Hl & _). destruct (s_cur s) as [i|] eqn:Ec; cbn [mbind option_bind].
  - destruct (si_cur _ Hinv i Ec) as (a & Ea & Hs). rewrite Ea.
    assert (exists tlb e, vm_fault (Some a) (s_m s) ft v = Ok (set_tlb tlb (s_m s), e) /\ length tlb = 64%nat /\ Forall (sound a) tlb)
      as (tlb & e & -> & Hlt & Hst).
    { destruct (vm_fault_spec (firstpaddr (m_ram (s_m s))) a (s_m s) v (si_as _ Hinv i a Ea) ltac:(lia) Hv ft Hft (si_tlb _ Hinv))
        as [[-> _]|(p & k & e & Et & Ek & _ & ->)].
      - exists (m_tlb (s_m s)), EFAULT. split; [by destruct (s_m s)|]. split; [apply Hinv|done].
      - destruct (new_entry_sound _ a v p (si_as _ Hinv i a Ea) ltac:(lia) Hv Et) as [Hse _]. do 2 eexists. split; [done|].
        rewrite length_insert. split; [apply Hinv|by apply Forall_insert]. }
    rewrite bind_Ok. eexists. split; [done|]. split; [|split; [left; by rewrite Ec|done]].
    split; cbn; try apply Hinv; try done. intros k [= <-]. by exists a.
  - assert (vm_fault None (s_m s) ft v = Ok (set_spl SPL_HIGH (s_m s), EFAULT)) as -> by (destruct Hft as [->| ->]; done).
    rewrite bind_Ok. eexists. split; [done|]. split; [|split; [left; by rewrite Ec|done]]. split; cbn; try apply Hinv; done.
Qed.

Lemma exec_store s v b : sys_inv s -> ev_ok (EvStore v b) -> exists s', exec s (EvStore v b) = Ok s' /\ keeps s (EvStore v b) s'.
Proof.
  intros Hinv Hv. cbn [exec ev_ok] in *. destruct (s_cur s) as [i|] eqn:Ec; [|by exists s; split; [|apply keeps_refl]].
  destruct (tlb_lookup (m_tlb (s_m s)) v) as [p|] eqn:Ep; [|by exists s; split; [|apply keeps_refl]].
  destruct (si_cur _ Hinv i Ec) as (a & Ea & Hs). pose proof (translate_owns a v p (tlb_lookup_sound _ _ _ _ Hs Hv Ep)) as Ho.
  pose proof (owns_range _ a p (si_as _ Hinv i a Ea) Ho) as Hr. pose proof (si_mem _ Hinv) as Hm. destruct (si_ram _ Hinv) as (Hf & _).
  rewrite store_in_range, bind_Ok by lia. eexists. split; [done|]. split; [|split; [left; by rewrite Ec|]].
  - split; cbn; try apply Hinv; try done; [by rewrite length_insert|intros k [= <-]; by exists a].
  - intros j c Hj Hne. split; [done|]. intros w. unfold view. cbn [m_mem s_m set_mem]. destruct (translate c w) as [q|] eqn:Eq; [|done]. cbn.
    apply list_lookup_insert_ne. apply translate_owns in Eq. pose proof (owns_range _ c q (si_as _ Hinv j c Hj) Eq) as Hq.
    intros E. assert (q = p) as -> by lia. apply (si_apart _ Hinv i j a c p); try done. congruence.
Qed.

Lemma exec_exit s : sys_inv s -> exists s', exec s EvExit = Ok s' /\ keeps s EvExit s'.
Proof.
  intros Hinv. cbn [exec]. destruct (s_cur s) as [i|] eqn:Ec; [|by exists s; split; [|apply keeps_refl]].
  eexists. split; [done|]. split; [|split; [right; by left|]].
  - split; cbn; try apply Hinv; try done.
    + intros j a [_ Hj]%lookup_delete_Some. by apply (si_as _ Hinv j).
    + intros j k a b q [_ Hj]%lookup_delete_Some [_ Hk]%lookup_delete_Some. by apply (si_apart _ Hinv).
  - intros j a Hj Hne. cbn. split; [|done]. rewrite lookup_delete_ne; [done|congruence].
Qed.

Lemma exec_spec s ev : sys_inv s -> ev_ok ev -> exists s', exec s ev = Ok s' /\ keeps s ev s'.
Proof.
  intros Hinv Hev. destruct ev; [by apply exec_spawn|by apply exec_fork|by apply exec_switch|by apply exec_fault|by apply exec_store|by apply exec_exit].
Qed.

Lemma execs_inv evs : forall s, sys_inv s -> Forall ev_ok evs -> exists s', execs s evs = Ok s' /\ sys_inv s'.
Proof.
  induction evs as [|ev evs IH]; intros s Hinv Hev; cbn [execs]; [by exists s|]. apply Forall_cons_1 in Hev as [H1 H2].
  destruct (exec_spec s ev Hinv H1) as (s1 & -> & Hk & _). rewrite bind_Ok. by apply IH.
Qed.

Lemma execs_keep evs : forall s j a, sys_inv s -> Forall ev_ok evs -> s_procs s !! j = Some a -> s_cur s <> Some j ->
  EvSwitch j ∉ evs ->
  exists s', execs s evs = Ok s' /\ s_procs s' !! j = Some a /\ forall v, view a (m_mem (s_m s')) v = view a (m_mem (s_m s)) v.
Proof.
  induction evs as [|ev evs IH]; intros s j a Hinv Hev Hj Hc Hns; cbn [execs]; [by exists s|]. apply Forall_cons_1 in Hev as [H1 H2].
  apply not_elem_of_cons in Hns as [Hn1 Hn2]. destruct (exec_spec s ev Hinv H1) as (s1 & -> & Hinv1 & Hcur & Hk). rewrite bind_Ok.
  destruct (Hk j a Hj Hc) as [Hj1 Hv1]. destruct (IH s1 j a Hinv1 H2 Hj1) as (s2 & E2 & Hj2 & Hv2); [|done|].
  - destruct Hcur as [->|[->|(i & -> & ->)]]; [done|done|]. intros [= ->]. done.
  - exists s2. split; [done|]. split; [done|]. intros v. by rewrite Hv2, Hv1.
Qed.

(** The system after boot: nothing runs, and the TLB and memory hold anything. *)
Definition sys_boot (r : ram) (mem : list Z) (tlb : list (Z * Z)) (spl : Z) : system := mk_system (mk_machine r mem tlb spl) ∅ None.

(** C7. Processes are isolated.  From boot on, whatever processes are started
    from two non-empty segments in user space above its first page, forked and
    switched to, and whatever faults and stores at user addresses the running
    ones make, no operation panics or leaves memory; and as long as a process
    does not run, what it sees at each of its addresses does not change.
    Programs with other segments are those of [one_segment_panics]. *)
Theorem process_isolation r mem tlb spl evs1 evs2 :
  ram_ok r -> lastpaddr r <= Z.of_nat (length mem) -> length tlb = 64%nat -> Forall ev_ok evs1 -> Forall ev_ok evs2 ->
  exists s1 s2, execs (sys_boot r mem tlb spl) evs1 = Ok s1 /\ execs s1 evs2 = Ok s2 /\
    forall j a, s_procs s1 !! j = Some a -> s_cur s1 <> Some j -> EvSwitch j ∉ evs2 ->
      s_procs s2 !! j = Some a /\ forall v, view a (m_mem (s_m s2)) v = view a (m_mem (s_m s1)) v.
Proof.
  intros Hr Hm Ht H1 H2. assert (sys_inv (sys_boot r mem tlb spl)) as H0 by (split; cbn; try done; intros *; by rewrite lookup_empty).
  destruct (execs_inv evs1 _ H0 H1) as (s1 & E1 & Hinv1). destruct (execs_inv evs2 _ Hinv1 H2) as (s2 & E2 & _).
  exists s1, s2. split; [done|]. split; [done|]. intros j a Hj Hc Hns.
  destruct (execs_keep evs2 s1 j a Hinv1 H2 Hj Hc Hns) as (s2' & E2' & Hk). rewrite E2 in E2'. injection E2' as <-. done.
Qed.

(** A machine of 64 pages. *)
Definition small_ram : ram := mk_ram 4096 (64 * 4096).
Definition small_mem : list Z := replicate (Z.to_nat (64 * 4096)) 0.
Definition no_tlb : list (Z * Z) := replicate 64 (0, 0).

Lemma small_ram_ok : ram_ok small_ram.
Proof. unfold ram_ok, small_ram, PAGE_SIZE. cbn. repeat split; lia. Qed.

Lemma small_mem_length : lastpaddr small_ram <= Z.of_nat (length small_mem).
Proof. unfold small_mem. rewrite length_replicate, Z2Nat.id by lia. done. Qed.

Definition small_as : addrspace := place 4096 (mk_as 0x400000 0 2 0x500000 0 1 0).

Lemma small_as_ok : as_ok (16 * 4096) small_as.
Proof. apply place_ok; [|lia|done|by vm_compute]. unfold layout_ok, USERSTACK, MIPS_KSEG0, PAGE_SIZE. cbn. repeat split; lia. Qed.

Lemma vm_fault_exact_witness :
  exists tlb e, vm_fault (Some small_as) (mk_machine small_ram [] no_tlb 0) VM_FAULT_WRITE 0x401234 = Ok (set_tlb tlb (mk_machine small_ram [] no_tlb 0), e) /\
    e = 0 /\ tlb_lookup tlb 0x401234 = Some 0x2234.
Proof.
  destruct (vm_fault_exact (16 * 4096) small_as (mk_machine small_ram [] no_tlb 0) VM_FAULT_WRITE 0x401234)
    as (tlb & e & E & _ & _ & [[-> (p & Ep & El)]|(_ & -> & [?|Hf])] & _).
  - exact small_as_ok.
  - lia.
  - unfold USERSTACK, MIPS_KSEG0. lia.
  - by right.
  - reflexivity.
  - apply invalid_sound. apply Forall_replicate. reflexivity.
  - exists tlb, 0. split; [exact E|]. split; [reflexivity|]. rewrite El. exact (eq_sym Ep).
  - discriminate.
  - exfalso. apply Forall_inv in Hf. discriminate Hf.
Defined.

Lemma as_copy_exact_witness : exists m' new e, as_copy true (mk_machine (mk_ram (16 * 4096) (64 * 4096)) small_mem no_tlb 0) small_as = Ok (m', new, e) /\ e = 0.
Proof.
  destruct (as_copy_exact (mk_machine (mk_ram (16 * 4096) (64 * 4096)) small_mem no_tlb 0) small_as) as (m' & new & e & E & He & _).
  - unfold ram_ok, PAGE_SIZE. cbn. repeat split; lia.
  - exact small_mem_length.
  - exact small_as_ok.
  - exists m', new, e. split; [exact E|exact He].
Defined.

(** Two processes: the second runs and stores while the first does not. *)
Lemma process_isolation_witness :
  exists s1 s2, execs (sys_boot small_ram small_mem no_tlb 0) [EvSpawn 1 0x400000 5000 0x500000 100; EvFork true 1 2] = Ok s1 /\
    execs s1 [EvSwitch 2; EvFault VM_FAULT_WRITE 0x400010; EvStore 0x400010 7] = Ok s2 /\
    forall j a, s_procs s1 !! j = Some a -> s_cur s1 <> Some j ->
      EvSwitch j ∉ [EvSwitch 2; EvFault VM_FAULT_WRITE 0x400010; EvStore 0x400010 7] ->
      s_procs s2 !! j = Some a /\ forall v, view a (m_mem (s_m s2)) v = view a (m_mem (s_m s1)) v.
Proof.
  apply process_isolation.
  - exact small_ram_ok.
  - exact small_mem_length.
  - reflexivity.
  - repeat constructor; unfold PAGE_SIZE, USERSTACK, MIPS_KSEG0; lia.
  - repeat constructor; unfold VM_FAULT_WRITE, VM_FAULT_READ, USERSTACK, MIPS_KSEG0; lia.
Defined.

(** An executable with a single segment makes the handler panic at its first
    fault: the second region of its address space is not set up. *)
Theorem one_segment_panics : exists m a, 
  as_prepare_load (mk_machine small_ram [] no_tlb 0) (fst (as_define_region (mk_as 0 0 0 0 0 0 0) 0x400000 100)) = Ok (m, a, 0) /\
  vm_fault (Some a) m VM_FAULT_READ 0x400000 = Panic.
Proof. do 2 eexists. split; reflexivity. Qed.

(** A fault of a thread without address space leaves interrupts off. *)
Theorem fault_without_as_keeps_interrupts_off m v :
  vm_fault None m VM_FAULT_READ v = Ok (set_spl SPL_HIGH m, EFAULT).
Proof. reflexivity. Qed.
