(* ===== verification/Bitmap.v ===== *)
(** * kern/lib/bitmap.c: arrays of bits

    A bitmap is [bm_nbits] bits stored in the bytes [bm_v], bit [i] being bit
    [i mod 8] of byte [i / 8].  The abstract view is the predicate
    [bm_bit b i].  The SFS free-block map is such a bitmap. *)
From stdpp Require Import base numbers list option.
From S2P Require Import Prelude.
Local Open Scope Z_scope.

Definition BITS_PER_WORD : Z := 8.
Definition WORD_ALLBITS : Z := 255.

Record bitmap : Type := mk_bitmap {
  bm_nbits : Z;
  bm_v : list Z;
}.

(** DIVROUNDUP of kern/include/lib.h, on [u_int32_t]. *)
Definition DIVROUNDUP (a b : Z) : Z := u32 (u32 (a + b) - 1) / b.

(** [for (j=overbits; j<BITS_PER_WORD; j++) b->v[ix] |= ((WORD_TYPE)1 << j);] *)
Fixpoint mark_over (n : nat) (j ix : Z) (v : list Z) : res (list Z) :=
  match n with
  | O => Ok v
  | S n =>
      w ← load v ix;
      v ← store v ix (u8 (Z.lor w (Z.shiftl 1 j)));
      mark_over n (j + 1) ix v
  end.

(** [ok1] and [ok2] are the answers of the two calls of [kmalloc]. *)
Definition bitmap_create (ok1 ok2 : bool) (nbits : Z) : res (option bitmap) :=
  let words := DIVROUNDUP nbits BITS_PER_WORD in
  if negb ok1 then Ok None
  else if negb ok2 then Ok None
  else
    let v := replicate (Z.to_nat words) 0 in
    if nbits / BITS_PER_WORD <? words then
      let ix := u32 (words - 1) in
      let overbits := u32 (nbits - u32 (ix * BITS_PER_WORD)) in
      _ ← assert (nbits / BITS_PER_WORD =? u32 (words - 1));
      _ ← assert ((overbits >? 0) && (overbits <? BITS_PER_WORD));
      v ← mark_over (Z.to_nat (BITS_PER_WORD - overbits)) overbits ix v;
      Ok (Some (mk_bitmap nbits v))
    else Ok (Some (mk_bitmap nbits v)).

Definition bitmap_getdata (b : bitmap) : list Z := bm_v b.

(** The inner loop of [bitmap_alloc], from [offset] with [n] offsets left. *)
Fixpoint alloc_word (n : nat) (offset : Z) (b : bitmap) (ix : Z) : res (Z * Z * bitmap) :=
  match n with
  | O => Panic (* assert(0) *)
  | S n =>
      let mask := u8 (Z.shiftl 1 offset) in
      w ← load (bm_v b) ix;
      if Z.land w mask =? 0 then
        v ← store (bm_v b) ix (u8 (Z.lor w mask));
        let index := u32 (u32 (ix * BITS_PER_WORD) + offset) in
        _ ← assert (index <? bm_nbits b);
        Ok (0, index, mk_bitmap (bm_nbits b) v)
      else alloc_word n (offset + 1) b ix
  end.

(** The outer loop of [bitmap_alloc], with [n] words left. *)
Fixpoint alloc_from (n : nat) (ix : Z) (b : bitmap) (index : Z) : res (Z * Z * bitmap) :=
  match n with
  | O => Ok (ENOSPC, index, b)
  | S n =>
      w ← load (bm_v b) ix;
      if w =? WORD_ALLBITS then alloc_from n (ix + 1) b index
      else alloc_word (Z.to_nat BITS_PER_WORD) 0 b ix
  end.

(** Returns the error code, the contents of [*index] and the bitmap. *)
Definition bitmap_alloc (b : bitmap) (index : Z) : res (Z * Z * bitmap) :=
  alloc_from (Z.to_nat (DIVROUNDUP (bm_nbits b) BITS_PER_WORD)) 0 b index.

Definition bitmap_translate (bitno : Z) : Z * Z :=
  (bitno / BITS_PER_WORD, u8 (Z.shiftl 1 (bitno `mod` BITS_PER_WORD))).

Definition bitmap_mark (b : bitmap) (index : Z) : res bitmap :=
  _ ← assert (index <? bm_nbits b);
  let '(ix, mask) := bitmap_translate index in
  w ← load (bm_v b) ix;
  _ ← assert (Z.land w mask =? 0);
  v ← store (bm_v b) ix (u8 (Z.lor w mask));
  Ok (mk_bitmap (bm_nbits b) v).

Definition bitmap_unmark (b : bitmap) (index : Z) : res bitmap :=
  _ ← assert (index <? bm_nbits b);
  let '(ix, mask) := bitmap_translate index in
  w ← load (bm_v b) ix;
  _ ← assert (negb (Z.land w mask =? 0));
  v ← store (bm_v b) ix (u8 (Z.land w (Z.lnot mask)));
  Ok (mk_bitmap (bm_nbits b) v).

Definition bitmap_isset (b : bitmap) (index : Z) : res Z :=
  let '(ix, mask) := bitmap_translate index in
  w ← load (bm_v b) ix;
  Ok (Z.land w mask).

(** ** Invariant and abstract view *)

Definition bm_words (nbits : Z) : Z := (nbits + 7) / 8.

(** Bit [i] of the stored data, in range or not. *)
Definition bm_bit (b : bitmap) (i : Z) : bool :=
  match bm_v b !! Z.to_nat (i / 8) with
  | Some w => Z.testbit w (i `mod` 8)
  | None => false
  end.

(** The bytes are bytes, there are just enough of them, and the leftover
    bits of the last byte are in use, so [bitmap_alloc] never hands them out. *)
Definition bm_wf (b : bitmap) : Prop :=
  0 <= bm_nbits b <= 4294967288 /\
  Z.of_nat (length (bm_v b)) = bm_words (bm_nbits b) /\
  Forall (fun w => 0 <= w < 256) (bm_v b) /\
  forall i, bm_nbits b <= i < bm_words (bm_nbits b) * 8 -> bm_bit b i = true.

(** ** Bits of bytes *)

Lemma testbit_u8 x k : Z.testbit (u8 x) k = (k <? 8) && Z.testbit x k.
Proof. unfold u8. change 256 with (2 ^ 8). by apply Z.testbit_mod_pow2. Qed.

Lemma testbit_mask off k :
  0 <= off < 8 -> 0 <= k -> Z.testbit (u8 (Z.shiftl 1 off)) k = (k =? off).
Proof.
  intros. rewrite testbit_u8, Z.shiftl_1_l, Z.pow2_bits_eqb by lia.
  zbool; destruct (Z.eqb_spec off k); lia || done.
Qed.

Lemma land_mask w off :
  0 <= off < 8 -> (Z.land w (u8 (Z.shiftl 1 off)) =? 0) = negb (Z.testbit w off).
Proof.
  intros H. destruct (Z.testbit w off) eqn:E; simpl.
  - apply Z.eqb_neq. intros H0. apply (f_equal (fun z => Z.testbit z off)) in H0.
    rewrite Z.land_spec, E, testbit_mask, Z.bits_0, Z.eqb_refl in H0 by lia. done.
  - apply Z.eqb_eq. apply Z.bits_inj'. intros k Hk.
    rewrite Z.land_spec, testbit_mask, Z.bits_0 by lia.
    destruct (Z.eqb_spec k off) as [->|]; [by rewrite E | by rewrite andb_false_r].
Qed.

Lemma byte_eq w w' :
  0 <= w < 256 -> 0 <= w' < 256 ->
  (forall k, 0 <= k < 8 -> Z.testbit w k = Z.testbit w' k) -> w = w'.
Proof.
  intros H H' Heq. rewrite <- (u8_small w), <- (u8_small w') by done.
  apply Z.bits_inj'. intros k Hk. rewrite !testbit_u8.
  destruct (Z.ltb_spec k 8); simpl; [apply Heq; lia | done].
Qed.

(** A byte other than 0xff has a clear bit. *)
Lemma byte_clear_bit w :
  0 <= w < 256 -> w <> 255 -> exists k, 0 <= k < 8 /\ Z.testbit w k = false.
Proof.
  intros Hw Hne. destruct (forallb (fun k => Z.testbit w k) [0;1;2;3;4;5;6;7]) eqn:E.
  - exfalso. apply Hne. apply byte_eq; [done|lia|]. intros k Hk.
    rewrite forallb_forall in E. rewrite E.
    + assert (k = 0 \/ k = 1 \/ k = 2 \/ k = 3 \/ k = 4 \/ k = 5 \/ k = 6 \/ k = 7) as Hc
        by lia. by destruct Hc as [->|[->|[->|[->|[->|[->|[->| ->]]]]]]].
    + simpl. lia.
  - apply not_true_iff_false in E. rewrite forallb_forall in E.
    destruct (existsb (fun k => negb (Z.testbit w k)) [0;1;2;3;4;5;6;7]) eqn:E2.
    + apply existsb_exists in E2 as (k & Hin & Hk). exists k.
      split; [simpl in Hin; lia | by destruct (Z.testbit w k)].
    + exfalso. apply E. intros k Hin. apply not_true_iff_false in E2.
      destruct (Z.testbit w k) eqn:Ek; [done|]. exfalso. apply E2.
      apply existsb_exists. exists k. by rewrite Ek.
Qed.

(** ** Bits of bitmaps *)

Lemma bm_bit_load b i w :
  load (bm_v b) (i / 8) = Ok w -> bm_bit b i = Z.testbit w (i `mod` 8).
Proof. intros (_ & H)%load_Ok_inv. unfold bm_bit. by rewrite H. Qed.

Lemma bm_bit_store b ix w j :
  0 <= ix < Z.of_nat (length (bm_v b)) -> 0 <= j ->
  bm_bit (mk_bitmap (bm_nbits b) (<[Z.to_nat ix := w]> (bm_v b))) j =
    if j / 8 =? ix then Z.testbit w (j `mod` 8) else bm_bit b j.
Proof.
  intros Hix Hj. unfold bm_bit; simpl.
  assert (0 <= j / 8) by (apply Z.div_pos; lia).
  destruct (Z.eqb_spec (j / 8) ix) as [->|].
  - by rewrite list_lookup_insert_eq by lia.
  - by rewrite list_lookup_insert_ne by lia.
Qed.

(** [b'] is [b] with bit [i] set to [val]. *)
Definition bm_update (b b' : bitmap) (i : Z) (val : bool) : Prop :=
  bm_nbits b' = bm_nbits b /\
  forall j, 0 <= j -> bm_bit b' j = if j =? i then val else bm_bit b j.

Lemma bm_words_bound n i : 0 <= n -> 0 <= i < n -> 0 <= i / 8 < bm_words n.
Proof. intros. unfold bm_words. dlia. Qed.

Lemma bm_index j i : 0 <= j -> 0 <= i -> j / 8 = i / 8 -> j `mod` 8 = i `mod` 8 -> j = i.
Proof. intros. dlia. Qed.

(** Replacing one byte by a byte that differs from it in bit [i] only. *)
Lemma bm_store_update b i w w' val :
  bm_wf b -> 0 <= i < bm_nbits b -> load (bm_v b) (i / 8) = Ok w ->
  0 <= w' < 256 ->
  (forall k, 0 <= k < 8 ->
     Z.testbit w' k = if k =? i `mod` 8 then val else Z.testbit w k) ->
  exists b', store (bm_v b) (i / 8) w' = Ok (bm_v b') /\ bm_nbits b' = bm_nbits b /\
    bm_wf b' /\ bm_update b b' i val.
Proof.
  intros (Hn & Hlen & Hbytes & Hover) Hi Hload Hw' Hbits.
  pose proof (bm_words_bound (bm_nbits b) i ltac:(lia) Hi) as Hix.
  apply load_Ok_inv in Hload as (Hrange & Hload).
  exists (mk_bitmap (bm_nbits b) (<[Z.to_nat (i / 8) := w']> (bm_v b))).
  rewrite store_in_range by lia.
  assert (Hup : bm_update b (mk_bitmap (bm_nbits b) (<[Z.to_nat (i / 8) := w']> (bm_v b))) i val).
  { split; [done|]. intros j Hj. rewrite bm_bit_store by lia.
    destruct (Z.eqb_spec (j / 8) (i / 8)) as [Hd|Hd].
    - rewrite Hbits by dlia. unfold bm_bit. rewrite Hd, Hload.
      destruct (Z.eqb_spec (j `mod` 8) (i `mod` 8)), (Z.eqb_spec j i); subst; done || dlia.
    - destruct (Z.eqb_spec j i) as [->|]; [done|done]. }
  split; [done|]. split; [done|]. split; [|done].
  split; [done|]. split; [simpl; by rewrite length_insert|].
  split; [by apply Forall_insert|].
  intros j Hj. destruct Hup as [_ Hup]. rewrite Hup by (simpl in Hj; lia).
  simpl in Hj. destruct (Z.eqb_spec j i); [lia | by apply Hover].
Qed.

Lemma bm_load b i : bm_wf b -> 0 <= i < bm_nbits b ->
  exists w, load (bm_v b) (i / 8) = Ok w /\ 0 <= w < 256 /\
    bm_bit b i = Z.testbit w (i `mod` 8).
Proof.
  intros (Hn & Hlen & Hbytes & _) Hi.
  pose proof (bm_words_bound (bm_nbits b) i ltac:(lia) Hi).
  destruct (load_in_range (bm_v b) (i / 8)) as (w & Hl & Hw); [lia|].
  exists w. split; [done|]. split; [|by apply bm_bit_load].
  by eapply Forall_lookup_1 in Hbytes.
Qed.

Lemma bitmap_mark_spec b i :
  bm_wf b -> 0 <= i < bm_nbits b -> bm_bit b i = false ->
  exists b', bitmap_mark b i = Ok b' /\ bm_wf b' /\ bm_update b b' i true.
Proof.
  intros Hwf Hi Hclear. unfold bitmap_mark, bitmap_translate, BITS_PER_WORD. pass_assert.
  destruct (bm_load b i Hwf Hi) as (w & Hl & Hw & Hbit). rewrite Hl, bind_Ok.
  rewrite land_mask, <- Hbit, Hclear by dlia. cbn [assert negb]. rewrite bind_Ok.
  destruct (bm_store_update b i w (u8 (Z.lor w (u8 (Z.shiftl 1 (i `mod` 8))))) true)
    as (b' & -> & Hn & ? & ?); auto using u8_range.
  { intros k Hk. rewrite testbit_u8, Z.lor_spec, testbit_mask by dlia.
    destruct (Z.ltb_spec k 8); [|lia].
    by destruct (k =? i `mod` 8); rewrite ?orb_true_r, ?orb_false_r. }
  rewrite bind_Ok, <- Hn. by destruct b'; eauto.
Qed.

Lemma bitmap_unmark_spec b i :
  bm_wf b -> 0 <= i < bm_nbits b -> bm_bit b i = true ->
  exists b', bitmap_unmark b i = Ok b' /\ bm_wf b' /\ bm_update b b' i false.
Proof.
  intros Hwf Hi Hset. unfold bitmap_unmark, bitmap_translate, BITS_PER_WORD. pass_assert.
  destruct (bm_load b i Hwf Hi) as (w & Hl & Hw & Hbit). rewrite Hl, bind_Ok.
  rewrite land_mask, <- Hbit, Hset by dlia. cbn [assert negb]. rewrite bind_Ok.
  destruct (bm_store_update b i w
    (u8 (Z.land w (Z.lnot (u8 (Z.shiftl 1 (i `mod` 8)))))) false)
    as (b' & -> & Hn & ? & ?); auto using u8_range.
  { intros k Hk. rewrite testbit_u8, Z.land_spec, Z.lnot_spec, testbit_mask by dlia.
    destruct (Z.ltb_spec k 8); [|lia].
    by destruct (k =? i `mod` 8); rewrite ?andb_false_r, ?andb_true_r. }
  rewrite bind_Ok, <- Hn. by destruct b'; eauto.
Qed.

Lemma bitmap_isset_spec b i :
  bm_wf b -> 0 <= i < bm_nbits b ->
  exists z, bitmap_isset b i = Ok z /\ (z =? 0) = negb (bm_bit b i).
Proof.
  intros Hwf Hi. unfold bitmap_isset, bitmap_translate, BITS_PER_WORD.
  destruct (bm_load b i Hwf Hi) as (w & -> & Hw & ->). rewrite bind_Ok.
  eexists; split; [done|]. by apply land_mask, Z.mod_pos_bound.
Qed.

(** ** Allocation *)

Lemma alloc_word_spec n off b ix w :
  bm_wf b -> 0 <= ix < bm_words (bm_nbits b) -> load (bm_v b) ix = Ok w ->
  0 <= off -> off + Z.of_nat n = 8 ->
  (forall k, 0 <= k < off -> Z.testbit w k = true) ->
  (exists k, off <= k < 8 /\ Z.testbit w k = false) ->
  exists k b', alloc_word n off b ix = Ok (0, ix * 8 + k, b') /\ 0 <= k < 8 /\
    Z.testbit w k = false /\ (forall j, 0 <= j < k -> Z.testbit w j = true) /\
    ix * 8 + k < bm_nbits b /\ bm_wf b' /\ bm_update b b' (ix * 8 + k) true.
Proof.
  intros Hwf Hix Hw. revert off. induction n as [|n IH]; intros off Ho Hn Hlow [k0 [Hk0 Hc]].
  { lia. }
  cbn [alloc_word]. rewrite Hw, bind_Ok, land_mask by lia.
  destruct (Z.testbit w off) eqn:Eoff; cbn [negb].
  - apply IH; [lia|lia| |].
    + intros k Hk. destruct (decide (k = off)) as [->|]; [done|]. apply Hlow. lia.
    + exists k0. split; [|done]. destruct (decide (k0 = off)) as [->|]; [congruence|lia].
  - assert (Hdiv : (ix * 8 + off) / 8 = ix) by dlia.
    assert (Hmod : (ix * 8 + off) `mod` 8 = off) by dlia.
    assert (Hlt : ix * 8 + off < bm_nbits b).
    { destruct (decide (ix * 8 + off < bm_nbits b)) as [|Hge]; [done|exfalso].
      destruct Hwf as (? & ? & ? & Hover). specialize (Hover (ix * 8 + off)).
      rewrite (bm_bit_load b _ w) in Hover by (by rewrite Hdiv).
      rewrite Hmod, Eoff in Hover. discriminate Hover. lia. }
    destruct (bm_store_update b (ix * 8 + off) w
      (u8 (Z.lor w (u8 (Z.shiftl 1 off)))) true) as (b' & Hst & Hnb & Hwf' & Hup);
      [done|lia|by rewrite Hdiv|apply u8_range| |].
    { intros k Hk. rewrite Hmod, testbit_u8, Z.lor_spec, testbit_mask by lia.
      destruct (Z.ltb_spec k 8); [|lia].
      by destruct (k =? off); rewrite ?orb_true_r, ?orb_false_r. }
    rewrite Hdiv in Hst. rewrite Hst, bind_Ok. unfold BITS_PER_WORD.
    destruct Hwf as (Hrange & _). rewrite (u32_small (ix * 8)), (u32_small (_ + _)) by lia. pass_assert.
    exists off, b'. split; [by rewrite <- Hnb; destruct b'|]. split; [lia|].
    by split_and!.
Qed.

(** [i] is the lowest clear bit of [b]. *)
Definition bm_first_clear (b : bitmap) (i : Z) : Prop :=
  0 <= i < bm_nbits b /\ bm_bit b i = false /\
  forall j, 0 <= j < i -> bm_bit b j = true.

Lemma alloc_from_spec n ix b index :
  bm_wf b -> 0 <= ix -> ix + Z.of_nat n = bm_words (bm_nbits b) ->
  (forall j, 0 <= j < ix * 8 -> bm_bit b j = true) ->
  (alloc_from n ix b index = Ok (ENOSPC, index, b) /\
     forall j, 0 <= j < bm_nbits b -> bm_bit b j = true) \/
  (exists i b', alloc_from n ix b index = Ok (0, i, b') /\
     bm_first_clear b i /\ bm_wf b' /\ bm_update b b' i true).
Proof.
  intros Hwf. revert ix. induction n as [|n IH]; intros ix Hix Hn Hlow.
  - left. split; [done|]. intros j Hj. apply Hlow. unfold bm_words in Hn. dlia.
  - cbn [alloc_from]. pose proof Hwf as (_ & Hlen & Hbytes & _).
    destruct (load_in_range (bm_v b) ix) as (w & Hl & Hlk); [lia|].
    rewrite Hl, bind_Ok. unfold WORD_ALLBITS.
    assert (Hbit : forall k, 0 <= k < 8 -> bm_bit b (ix * 8 + k) = Z.testbit w k).
    { intros k Hk. replace k with ((ix * 8 + k) `mod` 8) at 2 by dlia.
      apply bm_bit_load. by replace ((ix * 8 + k) / 8) with ix by dlia. }
    destruct (Z.eqb_spec w 255) as [->|Hne].
    + apply IH; [lia|lia|]. intros j Hj.
      destruct (decide (j < ix * 8)) as [|Hge]; [apply Hlow; lia|].
      replace j with (ix * 8 + (j - ix * 8)) by lia. rewrite Hbit by lia.
      assert (j - ix * 8 = 0 \/ j - ix * 8 = 1 \/ j - ix * 8 = 2 \/ j - ix * 8 = 3 \/
        j - ix * 8 = 4 \/ j - ix * 8 = 5 \/ j - ix * 8 = 6 \/ j - ix * 8 = 7) as Hc by lia.
      by destruct Hc as [->|[->|[->|[->|[->|[->|[->| ->]]]]]]].
    + right. destruct (byte_clear_bit w) as (k0 & Hk0 & Hc0);
        [by eapply Forall_lookup_1 in Hbytes|done|].
      destruct (alloc_word_spec (Z.to_nat BITS_PER_WORD) 0 b ix w)
        as (k & b' & -> & Hk & Hclear & Hbelow & Hlt & Hwf' & Hup);
        [done|lia|done|done|done|lia|by exists k0|].
      exists (ix * 8 + k), b'. split; [done|]. split; [|done].
      split; [lia|]. split; [by rewrite Hbit|]. intros j Hj.
      destruct (decide (j < ix * 8)) as [|Hge]; [apply Hlow; lia|].
      replace j with (ix * 8 + (j - ix * 8)) by lia. rewrite Hbit by lia. apply Hbelow. lia.
Qed.

Lemma DIVROUNDUP_words n : 0 <= n <= 4294967288 -> DIVROUNDUP n BITS_PER_WORD = bm_words n.
Proof.
  intros. unfold DIVROUNDUP, bm_words, BITS_PER_WORD. f_equal.
  destruct (decide (n = 4294967288)) as [->|]; [done|]. nowrap. lia.
Qed.

Lemma bitmap_alloc_spec b index :
  bm_wf b ->
  (bitmap_alloc b index = Ok (ENOSPC, index, b) /\
     forall j, 0 <= j < bm_nbits b -> bm_bit b j = true) \/
  (exists i b', bitmap_alloc b index = Ok (0, i, b') /\
     bm_first_clear b i /\ bm_wf b' /\ bm_update b b' i true).
Proof.
  intros Hwf. pose proof Hwf as (Hn & _). unfold bitmap_alloc.
  rewrite DIVROUNDUP_words by done.
  assert (0 <= bm_words (bm_nbits b)) by (unfold bm_words; dlia).
  apply alloc_from_spec; [done|done|lia|]. intros; lia.
Qed.

(** [bitmap_alloc] is first fit: on a well-formed bitmap it never panics
    nor leaves the data; it fails, with ENOSPC and nothing changed, exactly
    when every bit below [nbits] is in use, and otherwise hands back the
    lowest clear bit, which is below [nbits], and sets that bit only. *)
Theorem bitmap_alloc_first_fit (b : bitmap) (index : Z) :
  bm_wf b ->
  (bitmap_alloc b index = Ok (ENOSPC, index, b) /\
     forall j, 0 <= j < bm_nbits b -> bm_bit b j = true) \/
  (exists i b', bitmap_alloc b index = Ok (0, i, b') /\
     bm_first_clear b i /\ bm_wf b' /\ bm_update b b' i true).
Proof. apply bitmap_alloc_spec. Qed.

(** ** Creation *)

Lemma mark_over_spec n j ix v w :
  0 <= ix -> v !! Z.to_nat ix = Some w -> 0 <= w < 256 -> 0 <= j -> j + Z.of_nat n = 8 ->
  exists w', mark_over n j ix v = Ok (<[Z.to_nat ix := w']> v) /\ 0 <= w' < 256 /\
    forall k, 0 <= k < 8 -> Z.testbit w' k = (j <=? k) || Z.testbit w k.
Proof.
  intros Hix. revert j v w. induction n as [|n IH]; intros j v w Hv Hw Hj Hn; cbn [mark_over].
  - exists w. rewrite list_insert_id by done. split; [done|]. split; [done|].
    intros k Hk. zbool.
  - rewrite (load_Ok v ix w), bind_Ok by done. apply lookup_lt_Some in Hv as Hlt.
    rewrite store_in_range, bind_Ok by lia.
    destruct (IH (j + 1) (<[Z.to_nat ix := u8 (Z.lor w (1 ≪ j))]> v) (u8 (Z.lor w (1 ≪ j))))
      as (w' & -> & Hw' & Hbits);
      [by apply list_lookup_insert_eq|apply u8_range|lia|lia|].
    exists w'. rewrite list_insert_insert_eq. split; [done|]. split; [done|].
    intros k Hk. rewrite Hbits, testbit_u8, Z.lor_spec by lia.
    change (Z.shiftl 1 j) with (1 ≪ j). rewrite Z.shiftl_1_l, Z.pow2_bits_eqb by lia.
    destruct (Z.ltb_spec k 8); [|lia]. zbool; by rewrite ?orb_true_r, ?orb_false_r.
Qed.

Lemma replicate_bytes n : Forall (fun w => 0 <= w < 256) (replicate n 0).
Proof. apply Forall_replicate. lia. Qed.

Lemma bitmap_create_spec (nbits : Z) :
  0 <= nbits <= 4294967288 ->
  exists b, bitmap_create true true nbits = Ok (Some b) /\ bm_wf b /\
    bm_nbits b = nbits /\ (forall i, 0 <= i < nbits -> bm_bit b i = false) /\
    (forall i, nbits <= i < bm_words nbits * 8 -> bm_bit b i = true).
Proof.
  intros Hn. unfold bitmap_create. rewrite DIVROUNDUP_words by done. cbn [negb].
  unfold BITS_PER_WORD. assert (Hwd : 0 <= bm_words nbits) by (unfold bm_words; dlia).
  set (v0 := replicate (Z.to_nat (bm_words nbits)) 0).
  assert (Hlen0 : Z.of_nat (length v0) = bm_words nbits)
    by (unfold v0; rewrite length_replicate; lia).
  assert (Hv0 : forall k, 0 <= k < bm_words nbits -> v0 !! Z.to_nat k = Some 0)
    by (intros; apply lookup_replicate_2; lia).
  destruct (Z.ltb_spec (nbits / 8) (bm_words nbits)) as [Hlt|Hge].
  - assert (Hw1 : bm_words nbits - 1 = nbits / 8) by (unfold bm_words in *; dlia).
    assert (Hover : 0 < nbits - nbits / 8 * 8 < 8) by (unfold bm_words in *; dlia).
    rewrite Hw1. rewrite !(u32_small (nbits / 8)) by dlia.
    rewrite (u32_small (nbits / 8 * 8)), (u32_small (nbits - _)) by dlia.
    do 2 pass_assert. set (o := nbits - nbits / 8 * 8) in *.
    destruct (mark_over_spec (Z.to_nat (8 - o)) o (nbits / 8) v0 0)
      as (w & -> & Hw & Hbits); [dlia|apply Hv0; dlia|lia|lia|lia|].
    rewrite bind_Ok. eexists; split; [done|].
    set (b := mk_bitmap nbits _).
    assert (Hbit : forall i, 0 <= i < bm_words nbits * 8 -> bm_bit b i = (nbits <=? i)).
    { intros i Hi. unfold b.
      change nbits with (bm_nbits (mk_bitmap nbits v0)) at 1.
      change v0 with (bm_v (mk_bitmap nbits v0)) at 1.
      rewrite bm_bit_store by (simpl; dlia).
      destruct (Z.eqb_spec (i / 8) (nbits / 8)) as [He|He].
      - rewrite Hbits, Z.bits_0, orb_false_r by dlia. unfold o. zbool; dlia.
      - unfold bm_bit; simpl. rewrite Hv0, Z.bits_0 by dlia. zbool; dlia. }
    split; [|split; [done|split; intros i Hi; rewrite Hbit by dlia; zbool]].
    split; [done|]. split; [unfold b; simpl; by rewrite length_insert|].
    split; [apply Forall_insert; [apply replicate_bytes|done]|].
    intros i Hi. simpl in Hi. rewrite Hbit by lia. zbool.
  - eexists; split; [done|].
    split; [|split; [done|split]].
    + split; [done|]. split; [done|]. split; [apply replicate_bytes|].
      intros i Hi. simpl in Hi. unfold bm_words in *. dlia.
    + intros i Hi. unfold bm_bit; simpl. rewrite Hv0 by (unfold bm_words in *; dlia).
      apply Z.bits_0.
    + intros i Hi. unfold bm_words in *. dlia.
Qed.

(** [bitmap_create] makes a well-formed bitmap in which every bit below
    [nbits] is clear and the leftover bits of the last byte are in use. *)
Theorem bitmap_create_empty (nbits : Z) :
  0 <= nbits <= 4294967288 ->
  exists b, bitmap_create true true nbits = Ok (Some b) /\ bm_wf b /\
    bm_nbits b = nbits /\ (forall i, 0 <= i < nbits -> bm_bit b i = false) /\
    (forall i, nbits <= i < bm_words nbits * 8 -> bm_bit b i = true).
Proof. apply bitmap_create_spec. Qed.

(** ** Extensionality and round trips *)

(** A well-formed bitmap is determined by its bits. *)
Lemma bm_ext b b' :
  bm_wf b -> bm_wf b' -> bm_nbits b = bm_nbits b' ->
  (forall j, 0 <= j < bm_nbits b -> bm_bit b j = bm_bit b' j) -> b = b'.
Proof.
  intros (Hn & Hlen & Hby & Hov) (Hn' & Hlen' & Hby' & Hov') Heq Hbits.
  destruct b as [n v], b' as [n' v']; simpl in *. subst n'. f_equal.
  apply list_eq_same_length with (length v); [lia | lia |].
  intros i x y Hi Hx Hy.
  eapply Forall_lookup_1 in Hby; [|done]. eapply Forall_lookup_1 in Hby'; [|done].
  apply byte_eq; [done|done|]. intros k Hk.
  assert (Hd : (Z.of_nat i * 8 + k) / 8 = Z.of_nat i) by dlia.
  assert (Hm : (Z.of_nat i * 8 + k) `mod` 8 = k) by dlia.
  assert (Hb : bm_bit (mk_bitmap n v) (Z.of_nat i * 8 + k) =
               bm_bit (mk_bitmap n v') (Z.of_nat i * 8 + k)).
  { destruct (decide (Z.of_nat i * 8 + k < n)); [apply Hbits; lia|].
    rewrite Hov, Hov' by (unfold bm_words in *; lia). done. }
  unfold bm_bit in Hb; simpl in Hb.
  by rewrite Hd, Hm, Nat2Z.id, Hx, Hy in Hb.
Qed.

(** Freeing an allocated bit is the inverse of allocating it: when
    [bitmap_alloc] hands back [i], [bitmap_unmark] of [i] gives back exactly
    the bitmap [bitmap_alloc] was called on, and marking [i] in that bitmap
    gives the allocated one. *)
Theorem bitmap_alloc_unmark (b : bitmap) (index i : Z) (b' : bitmap) :
  bm_wf b -> bitmap_alloc b index = Ok (0, i, b') ->
  bitmap_unmark b' i = Ok b /\ bitmap_mark b i = Ok b'.
Proof.
  intros Hwf Ha. pose proof Hwf as (Hn & _).
  destruct (alloc_from_spec (Z.to_nat (bm_words (bm_nbits b))) 0 b index Hwf)
    as [[Hf _]|(k & b1 & Hf & (Hk & Hc & _) & Hwf1 & Hup)];
    [lia | rewrite Z2Nat.id by (unfold bm_words; dlia); lia | intros; lia | ..];
    unfold bitmap_alloc in Ha; rewrite DIVROUNDUP_words, Hf in Ha by done;
    simplify_eq.
  pose proof Hup as [Hnb Hbits].
  destruct (bitmap_unmark_spec b' i) as (b2 & -> & Hwf2 & Hnb2 & Hbits2);
    [done | lia | rewrite Hbits, Z.eqb_refl by lia; done |].
  destruct (bitmap_mark_spec b i) as (b3 & -> & Hwf3 & Hnb3 & Hbits3); [done..|].
  split; f_equal.
  - apply bm_ext; [done..| congruence |]. intros j Hj. rewrite Hbits2, Hbits by lia.
    destruct (Z.eqb_spec j i) as [->|]; [by rewrite Hc|done].
  - apply bm_ext; [done..| congruence |]. intros j Hj. by rewrite Hbits3, Hbits by lia.
Qed.

(** ** Witnesses *)

Definition bm10 : bitmap := mk_bitmap 10 [255; 252].

Lemma bm10_wf : bm_wf bm10.
Proof.
  unfold bm_wf; simpl. repeat split; try lia.
  - repeat constructor; lia.
  - intros i Hi. unfold bm_words in Hi. simpl in Hi.
    assert (i = 10 \/ i = 11 \/ i = 12 \/ i = 13 \/ i = 14 \/ i = 15) as Hc by dlia.
    by destruct Hc as [->|[->|[->|[->|[->| ->]]]]].
Qed.

Lemma bitmap_alloc_first_fit_witness :
  (bitmap_alloc bm10 0 = Ok (ENOSPC, 0, bm10) /\
     forall j, 0 <= j < bm_nbits bm10 -> bm_bit bm10 j = true) \/
  (exists i b', bitmap_alloc bm10 0 = Ok (0, i, b') /\
     bm_first_clear bm10 i /\ bm_wf b' /\ bm_update bm10 b' i true).
Proof. exact (bitmap_alloc_first_fit bm10 0 bm10_wf). Defined.

Lemma bitmap_create_empty_witness :
  exists b, bitmap_create true true 10 = Ok (Some b) /\ bm_wf b /\
    bm_nbits b = 10 /\ (forall i, 0 <= i < 10 -> bm_bit b i = false) /\
    (forall i, 10 <= i < bm_words 10 * 8 -> bm_bit b i = true).
Proof. apply (bitmap_create_empty 10). lia. Defined.

Lemma bitmap_alloc_unmark_witness :
  bitmap_unmark (mk_bitmap 10 [255; 253]) 8 = Ok bm10 /\
  bitmap_mark bm10 8 = Ok (mk_bitmap 10 [255; 253]).
Proof.
  apply (bitmap_alloc_unmark bm10 0 8 (mk_bitmap 10 [255; 253]) bm10_wf).
  vm_compute. reflexivity.
Defined.
