(* ===== verification/Queue.v ===== *)
(** * kern/lib/queue.c: queues of pointers in a ring buffer

    [queue] is the C structure.  One cell of the ring is always unused, so a
    queue of size [n] holds at most [n-1] pointers before [q_addtail] calls
    [q_grow].  The abstract view is [q_rep q l]: [q] holds the list [l], head
    first. *)
From stdpp Require Import base numbers list option.
From S2P Require Import Prelude.
Local Open Scope Z_scope.

Section queue.
Context {A : Type}.

Record queue : Type := mk_queue {
  q_size : Z;
  q_nextwrite : Z;
  q_nextread : Z;
  q_data : list (option A);
}.

Definition q_create (ok1 ok2 : bool) (size : Z) : option queue :=
  if negb ok1 then None
  else if negb ok2 then None
  else Some (mk_queue size 0 0 (replicate (Z.to_nat (u32 (size * 4) / 4)) None)).

Definition q_empty (q : queue) : bool := q_nextwrite q =? q_nextread q.

(** [while (nsize < targetsize) { nsize *= 2; assert(nsize > 0); }] *)
Fixpoint grow_size (fuel : nat) (nsize targetsize : Z) : res Z :=
  match fuel with
  | O => Fuel
  | S fuel =>
      if nsize <? targetsize then
        let nsize := i32 (nsize * 2) in
        _ ← assert (nsize >? 0);
        grow_size fuel nsize targetsize
      else Ok nsize
  end.

(** [for (i=onr; i!=onw; i = (i+1)%osize) q_addtail(q, olddata[i]);] *)
Fixpoint refill (fuel : nat) (addtail : queue -> option A -> res (Z * queue))
    (q : queue) (olddata : list (option A)) (i onw osize : Z) : res queue :=
  match fuel with
  | O => Fuel
  | S fuel =>
      if i =? onw then Ok q
      else
        x ← load olddata i;
        '(result, q) ← addtail q x;
        _ ← assert (result =? 0);
        refill fuel addtail q olddata (Z.rem (i + 1) osize) onw osize
  end.

(** [q_grow], given the [q_addtail] it calls and the answer of [kmalloc]. *)
Definition q_grow_with (addtail : queue -> option A -> res (Z * queue))
    (ok : bool) (q : queue) (targetsize : Z) : res (Z * queue) :=
  nsize ← grow_size 40 (q_size q) targetsize;
  if negb ok then Ok (ENOMEM, q)
  else
    let q' := mk_queue nsize 0 0 (replicate (Z.to_nat (u32 (nsize * 4) / 4)) None) in
    q' ← refill (S (Z.to_nat (q_size q))) addtail q' (q_data q)
           (q_nextread q) (q_nextwrite q) (q_size q);
    Ok (0, q').

(** [q_addtail] and [q_grow] call each other; [depth] bounds the nesting and
    [ok d] is the answer of [kmalloc] at nesting [d]. *)
Fixpoint q_addtail_depth (depth : nat) (ok : nat -> bool) (q : queue) (ptr : option A)
    : res (Z * queue) :=
  match depth with
  | O => Fuel
  | S depth =>
      _ ← assert (q_size q >? 0);
      let nextnext := Z.rem (i32 (q_nextwrite q + 1)) (q_size q) in
      let put q nextnext :=
        d ← store (q_data q) (q_nextwrite q) ptr;
        Ok (0, mk_queue (q_size q) nextnext (q_nextread q) d) in
      if nextnext =? q_nextread q then
        '(result, q) ← q_grow_with (q_addtail_depth depth ok) (ok depth) q
                         (i32 (q_size q + 1));
        if negb (result =? 0) then Ok (result, q)
        else put q (Z.rem (i32 (q_nextwrite q + 1)) (q_size q))
      else put q nextnext
  end.

Definition q_addtail (ok : nat -> bool) (q : queue) (ptr : A) : res (Z * queue) :=
  q_addtail_depth 2 ok q (Some ptr).

Definition q_grow (ok : nat -> bool) (q : queue) (targetsize : Z) : res (Z * queue) :=
  q_grow_with (q_addtail_depth 1 ok) (ok 1%nat) q targetsize.

Definition q_preallocate (ok : nat -> bool) (q : queue) (size : Z) : res (Z * queue) :=
  _ ← assert (q_size q >? 0);
  if size >? q_size q then q_grow ok q size else Ok (0, q).

Definition q_remhead (q : queue) : res (option A * queue) :=
  _ ← assert (q_size q >? 0);
  _ ← assert (negb (q_empty q));
  ret ← load (q_data q) (q_nextread q);
  Ok (ret, mk_queue (q_size q) (q_nextwrite q)
             (Z.rem (i32 (q_nextread q + 1)) (q_size q)) (q_data q)).

Definition q_destroy (q : queue) : res unit := assert (q_empty q).

Definition q_getstart (q : queue) : Z := q_nextread q.
Definition q_getend (q : queue) : Z := q_nextwrite q.
Definition q_getsize (q : queue) : Z := q_size q.
Definition q_getguy (q : queue) (index : Z) : res (option A) :=
  _ ← assert ((index >=? 0) && (index <? q_size q));
  load (q_data q) index.

(** ** Invariant and abstract view *)

Definition q_limit : Z := 268435456.

Definition q_wf (q : queue) : Prop :=
  0 < q_size q <= q_limit /\
  0 <= q_nextread q < q_size q /\ 0 <= q_nextwrite q < q_size q /\
  Z.of_nat (length (q_data q)) = q_size q.

Definition q_len (q : queue) : Z := (q_nextwrite q - q_nextread q) `mod` q_size q.

Definition q_rep (q : queue) (l : list A) : Prop :=
  q_wf q /\ Z.of_nat (length l) = q_len q /\
  forall k x, l !! k = Some x ->
    q_data q !! Z.to_nat ((q_nextread q + Z.of_nat k) `mod` q_size q) = Some (Some x).
End queue.
Arguments queue A : clear implicits.

(** ** Ring arithmetic *)

Lemma mod_once a n : 0 <= a < 2 * n -> a `mod` n = if a <? n then a else a - n.
Proof.
  intros. destruct (Z.ltb_spec a n); [by apply Z.mod_small; lia|].
  symmetry. apply (Z.mod_unique a n 1); lia.
Qed.

Lemma mod_below a n : - n <= a < 0 -> a `mod` n = a + n.
Proof. intros. symmetry. apply (Z.mod_unique a n (-1)); lia. Qed.

Lemma rem_succ a n : 0 <= a < n -> n <= 536870912 ->
  Z.rem (i32 (a + 1)) n = if a + 1 =? n then 0 else a + 1.
Proof.
  intros. nowrap. rewrite Z.rem_mod_nonneg, mod_once by lia. zbool.
Qed.

Section facts.
Context {A : Type}.
Implicit Types (q : queue A) (l : list A).

Lemma q_len_cases q : q_wf q ->
  q_len q = if q_nextread q <=? q_nextwrite q then q_nextwrite q - q_nextread q
            else q_nextwrite q - q_nextread q + q_size q.
Proof.
  intros (?&?&?&?). unfold q_len. destruct (Z.leb_spec (q_nextread q) (q_nextwrite q)).
  - apply Z.mod_small; lia.
  - apply mod_below; lia.
Qed.

Lemma q_rep_empty q l : q_rep q l -> q_empty q = true <-> l = [].
Proof.
  intros (Hwf & Hlen & _). rewrite q_len_cases in Hlen by done.
  destruct Hwf as (?&?&?&?). unfold q_empty. rewrite Z.eqb_eq.
  rewrite <- length_zero_iff_nil. revert Hlen. zbool; split; lia.
Qed.

Lemma q_rep_room q l : q_rep q l -> Z.of_nat (length l) < q_size q.
Proof.
  intros (Hwf & Hlen & _). rewrite q_len_cases in Hlen by done.
  destruct Hwf as (?&?&?&?). revert Hlen. zbool.
Qed.

(** Storing at the write position of a queue that is not full. *)
Lemma q_put q l x :
  q_rep q l -> Z.of_nat (length l) + 1 < q_size q ->
  q_rep (mk_queue (q_size q)
           (if q_nextwrite q + 1 =? q_size q then 0 else q_nextwrite q + 1)
           (q_nextread q) (<[Z.to_nat (q_nextwrite q) := Some x]> (q_data q)))
        (l ++ [x]).
Proof.
  intros (Hwf & Hlen & Hcells) Hroom. pose proof (q_len_cases q Hwf) as Hq.
  pose proof Hwf as (Hs & Hr & Hw & Hd).
  split; [|split].
  - unfold q_wf; simpl. rewrite length_insert. zbool.
  - rewrite length_app. unfold q_len; simpl. rewrite Hq in Hlen.
    destruct (Z.eqb_spec (q_nextwrite q + 1) (q_size q));
      destruct (Z.leb_spec (q_nextread q) (q_nextwrite q));
      first [rewrite mod_below by lia; lia | rewrite Z.mod_small by lia; lia].
  - simpl. intros k y Hk. apply lookup_app_Some in Hk as [Hk|[Hk Hy]].
    + apply lookup_lt_Some in Hk as Hlt. rewrite list_lookup_insert_ne; [by apply Hcells|].
      rewrite Hq in Hlen. rewrite mod_once by lia. revert Hlen. zbool.
    + apply list_lookup_singleton_Some in Hy as [Hz <-].
      replace k with (length l) by lia.
      replace ((q_nextread q + Z.of_nat (length l)) `mod` q_size q) with (q_nextwrite q).
      * by apply list_lookup_insert_eq; lia.
      * rewrite Hlen, Hq, mod_once by (zbool). zbool.
Qed.

Lemma q_addtail_room depth ok q l x :
  q_rep q l -> Z.of_nat (length l) + 1 < q_size q ->
  exists q', q_addtail_depth (S depth) ok q (Some x) = Ok (0, q') /\
    q_rep q' (l ++ [x]) /\ q_size q' = q_size q.
Proof.
  intros Hrep Hroom. pose proof Hrep as (Hwf & Hlen & _).
  pose proof (q_len_cases q Hwf) as Hq. pose proof Hwf as (Hs & Hr & Hw & Hd).
  unfold q_limit in *. cbn [q_addtail_depth]. pass_assert. cbv zeta.
  rewrite rem_succ by lia.
  destruct (Z.eqb_spec (if q_nextwrite q + 1 =? q_size q then 0 else q_nextwrite q + 1)
              (q_nextread q)) as [Hfull|_].
  { exfalso. rewrite Hq in Hlen. revert Hfull Hlen. zbool. }
  rewrite store_in_range, bind_Ok by lia.
  eexists; split; [done|]. split; [by apply q_put|done].
Qed.

Lemma refill_spec depth ok fuel (rest : list A) : forall q done olddata i onw osize,
  q_rep q done -> Z.of_nat (length done + length rest) < q_size q ->
  0 <= i < osize -> osize <= q_limit -> Z.of_nat (length rest) < osize ->
  (length rest < fuel)%nat ->
  onw = (i + Z.of_nat (length rest)) `mod` osize ->
  (forall k x, rest !! k = Some x ->
     olddata !! Z.to_nat ((i + Z.of_nat k) `mod` osize) = Some (Some x)) ->
  exists q', refill fuel (q_addtail_depth (S depth) ok) q olddata i onw osize = Ok q' /\
    q_rep q' (done ++ rest) /\ q_size q' = q_size q.
Proof.
  unfold q_limit. revert rest. induction fuel as [|fuel IH]; [lia|].
  intros [|x rest] q done olddata i onw osize Hrep Hroom Hi Hos Hlt Hf Honw Hold.
  - cbn [refill]. simpl in Honw. rewrite Z.add_0_r, Z.mod_small in Honw by lia.
    rewrite (proj2 (Z.eqb_eq i onw)) by done. exists q. by rewrite app_nil_r.
  - cbn [refill]. cbn [length] in Hroom, Hlt, Hf, Honw. rewrite mod_once in Honw by lia.
    destruct (Z.eqb_spec i onw) as [He|_]; [exfalso; revert Honw; zbool|].
    pose proof (Hold 0%nat x eq_refl) as Hx. rewrite Z.add_0_r, Z.mod_small in Hx by lia.
    rewrite (load_Ok olddata i (Some x)), bind_Ok by (done || lia).
    destruct (q_addtail_room depth ok q done x) as (q1 & -> & Hrep1 & Hsz1); [done|lia|].
    rewrite bind_Ok. cbn [assert Z.eqb]. rewrite bind_Ok.
    rewrite Z.rem_mod_nonneg by lia.
    destruct (IH rest q1 (done ++ [x]) olddata ((i + 1) `mod` osize) onw osize)
      as (q2 & -> & Hrep2 & Hsz2).
    + done.
    + rewrite length_app. simpl. lia.
    + apply Z.mod_pos_bound. lia.
    + done.
    + lia.
    + lia.
    + rewrite Zplus_mod_idemp_l, Honw, mod_once by lia.
      replace (i + 1 + Z.of_nat (length rest)) with (i + Z.of_nat (S (length rest))) by lia.
      done.
    + intros k y Hk. rewrite Zplus_mod_idemp_l.
      replace (i + 1 + Z.of_nat k) with (i + Z.of_nat (S k)) by lia. by apply Hold.
    + exists q2. split; [done|]. split; [by rewrite <- app_assoc in Hrep2|congruence].
Qed.

Lemma grow_size_spec fuel nsize target :
  0 < nsize -> target * 2 <= q_limit -> nsize <= q_limit ->
  2 ^ 28 <= 2 ^ Z.of_nat fuel * nsize ->
  exists m, grow_size (S fuel) nsize target = Ok m /\ nsize <= m <= q_limit /\
    target <= m /\ (target <= nsize -> m = nsize) /\ (nsize < target -> m < 2 * target).
Proof.
  unfold q_limit. revert nsize. induction fuel as [|fuel IH]; intros nsize Hn Ht Hl Hf.
  - rewrite Z.pow_0_r in Hf. cbn [grow_size].
    destruct (Z.ltb_spec nsize target); [lia|]. exists nsize. split; [done|lia].
  - remember (S fuel) as f eqn:Ef. cbn [grow_size]. subst f.
    destruct (Z.ltb_spec nsize target).
    + cbv zeta. rewrite i32_small by lia. pass_assert.
      destruct (IH (nsize * 2)) as (m & -> & ? & ? & ? & ?); [lia..| |].
      { rewrite Nat2Z.inj_succ, Z.pow_succ_r in Hf by lia. nia. }
      exists m. split; [done|lia].
    + exists nsize. split; [done|lia].
Qed.

Lemma q_grow_with_spec depth ok b q l target :
  q_rep q l -> q_size q < target -> target * 2 <= q_limit ->
  (b = false /\ q_grow_with (q_addtail_depth (S depth) ok) b q target = Ok (ENOMEM, q)) \/
  (exists q', q_grow_with (q_addtail_depth (S depth) ok) b q target = Ok (0, q') /\
     q_rep q' l /\ target <= q_size q' < 2 * target).
Proof.
  intros Hrep Ht Hlim. pose proof Hrep as ((Hs & Hr & Hw & Hd) & Hlen & Hcells).
  pose proof (q_rep_room q l Hrep) as Hroom. unfold q_limit in *. unfold q_grow_with.
  destruct (grow_size_spec 39 (q_size q) target) as (m & -> & Hm & Htm & _ & Hm2);
    [lia|unfold q_limit; lia|unfold q_limit; lia| |].
  { change (Z.of_nat 39) with 39. lia. }
  rewrite bind_Ok. destruct b; [right|by left]. cbn [negb].
  unfold q_limit in *. rewrite u32_small, Z.div_mul by lia.
  destruct (refill_spec depth ok (S (Z.to_nat (q_size q))) l
    (mk_queue m 0 0 (replicate (Z.to_nat m) None)) [] (q_data q)
    (q_nextread q) (q_nextwrite q) (q_size q)) as (q' & -> & Hrep' & Hsz).
  - split; [|split].
    + unfold q_wf, q_limit; simpl. rewrite length_replicate. lia.
    + unfold q_len; simpl. by rewrite Z.mod_0_l by lia.
    + intros k x Hk. by rewrite lookup_nil in Hk.
  - simpl. lia.
  - done.
  - unfold q_limit. lia.
  - done.
  - lia.
  - rewrite Hlen. unfold q_len. rewrite Zplus_mod_idemp_r.
    rewrite Z.mod_small by lia. lia.
  - done.
  - rewrite bind_Ok. exists q'. simpl in Hsz. split; [done|]. split; [done|]. lia.
Qed.

Lemma q_addtail_spec ok q l x :
  q_rep q l -> (q_size q + 1) * 2 <= q_limit ->
  (exists q', q_addtail ok q x = Ok (0, q') /\ q_rep q' (l ++ [x]) /\
     q_size q <= q_size q' < 2 * (q_size q + 1) /\
     (Z.of_nat (length l) + 1 < q_size q -> q_size q' = q_size q)) \/
  (ok 1%nat = false /\ Z.of_nat (length l) + 1 = q_size q /\
     q_addtail ok q x = Ok (ENOMEM, q)).
Proof.
  intros Hrep Hlim. pose proof (q_rep_room q l Hrep) as Hroom.
  destruct (decide (Z.of_nat (length l) + 1 < q_size q)) as [Hlt|Hfull].
  { left. destruct (q_addtail_room 1 ok q l x Hrep Hlt) as (q' & ? & ? & ?).
    exists q'. split; [done|]. split; [done|].
    pose proof Hrep as ((? & _) & _). lia. }
  pose proof Hrep as (Hwf & Hlen & _). pose proof (q_len_cases q Hwf) as Hq.
  pose proof Hwf as (Hs & Hr & Hw & Hd). unfold q_limit in Hs, Hlim.
  unfold q_addtail. remember 1%nat as d eqn:Hd1.
  cbn [q_addtail_depth]. subst d. pass_assert. cbv zeta. rewrite rem_succ by lia.
  destruct (Z.eqb_spec (if q_nextwrite q + 1 =? q_size q then 0 else q_nextwrite q + 1)
              (q_nextread q)) as [_|Hne].
  2:{ exfalso. rewrite Hq in Hlen. revert Hne Hlen. zbool. }
  rewrite i32_small by lia.
  destruct (q_grow_with_spec 0 ok (ok 1%nat) q l (q_size q + 1))
    as [[Hok ->]|(q1 & -> & Hrep1 & Hsz1)]; [done|lia|unfold q_limit; lia| |].
  - right. rewrite bind_Ok. cbn. split; [done|]. split; [lia|done].
  - left. rewrite bind_Ok. cbn [Z.eqb negb].
    pose proof Hrep1 as ((Hs1 & Hr1 & Hw1 & Hd1) & Hlen1 & _). unfold q_limit in Hs1.
    rewrite rem_succ, store_in_range, bind_Ok by lia.
    eexists; split; [done|]. split; [apply q_put; [done|lia]|]. simpl. lia.
Qed.

Lemma q_preallocate_spec ok q l n :
  q_rep q l -> n * 2 <= q_limit ->
  (exists q', q_preallocate ok q n = Ok (0, q') /\ q_rep q' l /\
     q_size q <= q_size q' <= Z.max (q_size q) (2 * n) /\ n <= q_size q') \/
  (ok 1%nat = false /\ q_size q < n /\ q_preallocate ok q n = Ok (ENOMEM, q)).
Proof.
  intros Hrep Hlim. pose proof Hrep as ((Hs & _) & _). unfold q_preallocate.
  pass_assert. rewrite Z.gtb_ltb. destruct (Z.ltb_spec (q_size q) n).
  - unfold q_grow. destruct (q_grow_with_spec 0 ok (ok 1%nat) q l n)
      as [[? ->]|(q' & -> & ? & ?)]; [done|done|done|by right|].
    left. exists q'. split; [done|]. split; [done|]. lia.
  - left. exists q. split; [done|]. split; [done|]. lia.
Qed.

Lemma q_remhead_spec q x l :
  q_rep q (x :: l) ->
  exists q', q_remhead q = Ok (Some x, q') /\ q_rep q' l /\ q_size q' = q_size q.
Proof.
  intros Hrep. pose proof (q_rep_empty q _ Hrep) as Hne.
  pose proof Hrep as (Hwf & Hlen & Hcells). pose proof (q_len_cases q Hwf) as Hq.
  pose proof Hwf as (Hs & Hr & Hw & Hd). unfold q_limit in Hs. unfold q_remhead.
  pass_assert. destruct (q_empty q) eqn:Ee; [by pose proof (proj1 Hne eq_refl)|].
  cbn [negb assert]. rewrite bind_Ok.
  pose proof (Hcells 0%nat x eq_refl) as Hx. rewrite Z.add_0_r, Z.mod_small in Hx by lia.
  rewrite (load_Ok _ _ (Some x)), bind_Ok, rem_succ by (done || lia).
  eexists; split; [done|]. split; [|done]. rewrite Hq in Hlen. simpl in Hlen.
  unfold q_empty in Ee. apply Z.eqb_neq in Ee.
  split; [|split].
  - unfold q_wf, q_limit; simpl. zbool.
  - unfold q_len; simpl.
    destruct (Z.eqb_spec (q_nextread q + 1) (q_size q));
      destruct (Z.leb_spec (q_nextread q) (q_nextwrite q));
      first [rewrite mod_below by lia; lia | rewrite Z.mod_small by lia; lia].
  - simpl. intros k y Hk. apply lookup_lt_Some in Hk as Hlt.
    rewrite <- (Hcells (S k) y) by done. f_equal. f_equal.
    rewrite !mod_once by (revert Hlen; zbool). revert Hlen. zbool.
Qed.

Lemma q_remhead_empty q : q_rep q [] -> q_remhead q = Panic.
Proof.
  intros Hrep. pose proof Hrep as ((Hs & _) & _). unfold q_remhead. pass_assert.
  by rewrite (proj2 (q_rep_empty q [] Hrep)).
Qed.
End facts.

(** ** Specification: a queue is a first-in first-out list *)

Section spec.
Context {A : Type}.

Inductive q_op : Type :=
| QEmpty
| QAddtail (ptr : A)
| QRemhead
| QPreallocate (size : Z)
| QDestroy.

Inductive q_ans : Type :=
| QBool (b : bool)
| QInt (n : Z)
| QPtr (p : option A)
| QVoid.

Definition q_step (ok : nat -> bool) (q : queue A) (op : q_op) : res (q_ans * queue A) :=
  match op with
  | QEmpty => Ok (QBool (q_empty q), q)
  | QAddtail x => '(e, q) ← q_addtail ok q x; Ok (QInt e, q)
  | QRemhead => '(x, q) ← q_remhead q; Ok (QPtr x, q)
  | QPreallocate n => '(e, q) ← q_preallocate ok q n; Ok (QInt e, q)
  | QDestroy => _ ← q_destroy q; Ok (QVoid, q)
  end.

(** What queue.h promises.  [sz] is the size of the ring: adding needs
    memory only when [sz] cells would not be enough. *)
Inductive q_spec (ok : nat -> bool) (sz : Z) (l : list A)
  : q_op -> res (q_ans * list A) -> Prop :=
| qspec_empty : q_spec ok sz l QEmpty (Ok (QBool (bool_decide (l = [])), l))
| qspec_add x : q_spec ok sz l (QAddtail x) (Ok (QInt 0, l ++ [x]))
| qspec_add_nomem x :
    ok 1%nat = false -> Z.of_nat (length l) + 1 = sz ->
    q_spec ok sz l (QAddtail x) (Ok (QInt ENOMEM, l))
| qspec_rem x l' : l = x :: l' -> q_spec ok sz l QRemhead (Ok (QPtr (Some x), l'))
| qspec_rem_empty : l = [] -> q_spec ok sz l QRemhead Panic
| qspec_preallocate n : q_spec ok sz l (QPreallocate n) (Ok (QInt 0, l))
| qspec_preallocate_nomem n :
    ok 1%nat = false -> sz < n -> q_spec ok sz l (QPreallocate n) (Ok (QInt ENOMEM, l))
| qspec_destroy : l = [] -> q_spec ok sz l QDestroy (Ok (QVoid, l))
| qspec_destroy_busy : l <> [] -> q_spec ok sz l QDestroy Panic.

Definition q_op_fits (q : queue A) (op : q_op) : Prop :=
  match op with
  | QAddtail _ => (q_size q + 1) * 2 <= q_limit
  | QPreallocate n => n * 2 <= q_limit
  | _ => True
  end.

Definition q_shows (r : res (q_ans * queue A)) (s : res (q_ans * list A)) : Prop :=
  match r, s with
  | Ok (x, q), Ok (y, l) => x = y /\ q_rep q l
  | Panic, Panic => True
  | _, _ => False
  end.

(** C23. queue.c implements first-in first-out lists: on a queue that holds
    [l], every operation, whatever [kmalloc] answers and however the ring is
    wrapped around or has to grow, gives an outcome the specification allows
    for [l] and leaves a queue that holds the specified list.  Growing keeps
    the order; only a full ring can fail, with ENOMEM and nothing changed;
    removing from an empty queue and destroying a non-empty one panic; no
    access leaves the ring and every loop terminates. *)
Theorem queue_refines_fifo (ok : nat -> bool) (q : queue A) (l : list A) (op : q_op) :
  q_rep q l -> q_op_fits q op ->
  exists s, q_spec ok (q_size q) l op s /\ q_shows (q_step ok q op) s.
Proof.
  intros Hrep Hfit. destruct op as [|x| |n|]; simpl in Hfit |- *.
  - eexists; split; [constructor|]. split; [|done]. f_equal.
    apply eq_bool_prop_intro. rewrite bool_decide_spec, Is_true_true.
    by apply q_rep_empty.
  - destruct (q_addtail_spec ok q l x Hrep Hfit) as [(q' & -> & ? & _)|(? & ? & ->)].
    + by eexists; split; [apply qspec_add|].
    + by eexists; split; [by apply qspec_add_nomem|].
  - destruct l as [|x l].
    + rewrite q_remhead_empty by done. by eexists; split; [by apply qspec_rem_empty|].
    + destruct (q_remhead_spec q x l Hrep) as (q' & -> & ? & _).
      by eexists; split; [by apply qspec_rem|].
  - destruct (q_preallocate_spec ok q l n Hrep Hfit) as [(q' & -> & ? & _)|(? & ? & ->)].
    + by eexists; split; [apply qspec_preallocate|].
    + by eexists; split; [by apply qspec_preallocate_nomem|].
  - unfold q_destroy. pose proof (q_rep_empty q l Hrep) as He.
    destruct (q_empty q); simpl.
    + eexists; split; [by apply qspec_destroy, He|]. done.
    + eexists; split; [apply qspec_destroy_busy; intros ->|done].
      discriminate (proj2 He eq_refl).
Qed.
End spec.

(** A created queue is empty. *)
Lemma q_create_rep {A} (size : Z) :
  0 < size <= q_limit -> exists q, @q_create A true true size = Some q /\ q_rep q [] /\
    q_size q = size.
Proof.
  intros H. eexists; split; [done|]. split; [|done]. unfold q_limit in H.
  split; [|split].
  - unfold q_wf, q_limit; simpl. rewrite length_replicate.
    rewrite u32_small, Z.div_mul by lia. lia.
  - unfold q_len; simpl. by rewrite Z.mod_0_l by lia.
  - intros k x Hk. by rewrite lookup_nil in Hk.
Qed.

(** A wrapped-around, full ring that has to grow. *)
Definition q_wrapped : queue Z := mk_queue 3 0 1 [None; Some 5; Some 6].

Lemma queue_refines_fifo_witness :
  exists s, q_spec (fun _ => true) 3 [5; 6] (QAddtail 7) s /\
    q_shows (q_step (fun _ => true) q_wrapped (QAddtail 7)) s.
Proof.
  apply (queue_refines_fifo (fun _ => true) q_wrapped [5; 6] (QAddtail 7)).
  - split; [|split]; [unfold q_wf, q_limit; simpl; lia | done |].
    intros [|[|k]] x Hk; simpl in Hk; [by simplify_eq..|by rewrite lookup_nil in Hk].
  - unfold q_op_fits, q_limit; simpl; lia.
Defined.

Example queue_run_example :
  ('(_, q) ← q_addtail (fun _ => true) q_wrapped 7;
   '(a, q) ← q_remhead q;
   '(b, q) ← q_remhead q;
   '(c, q) ← q_remhead q;
   Ok (a, b, c, q_size q, q_empty q)) = Ok (Some 5, Some 6, Some 7, 6, true).
Proof. vm_compute. reflexivity. Qed.
