(* ===== verification/KernTests.v ===== *)
(** * kern/test: arraytest.c, bitmaptest.c and queuetest.c

    The tests of the kernel's containers, run on the models of array.c,
    bitmap.c and queue.c.  What random() gives is arbitrary, and so is what
    each [kmalloc] answers, [mem] by the number of the call. *)
From stdpp Require Import base numbers list option.
From S2P Require Import Prelude KArray Bitmap Queue.
Local Open Scope Z_scope.

(** [for (i=start; i<start+n; i++)] with a body that changes [s]. *)
Fixpoint for_loop {St : Type} (n : nat) (i : Z) (body : Z -> St -> res St) (s : St) : res St :=
  match n with
  | O => Ok s
  | S n => s ← body i s; for_loop n (i + 1) body s
  end.

(** ** arraytest.c *)

Definition ATESTSIZE : Z := 73.

(** A pointer into [testarray], by its index, or NULL. *)
Abbreviation ptr := (option Z).
Definition testarray : list Z := seqZ 0 ATESTSIZE.

(** What a pointer that was got from the array points to. *)
Definition deref (p : option ptr) : res Z :=
  match p with Some (Some i) => load testarray i | _ => Undef end.

(** The pointer at [i] in the array points to [x]. *)
Definition expect (i x : Z) (a : array ptr) : res (array ptr) :=
  p ← array_getguy a i;
  v ← deref p;
  _ ← assert (v =? x);
  Ok a.

(** The pointer at [i] is NULL. *)
Definition expect_null (i : Z) (a : array ptr) : res (array ptr) :=
  p ← array_getguy a i;
  match p with
  | Some p => _ ← assert (bool_decide (p = None)); Ok a
  | None => Undef
  end.

(** testa() in three parts: filling the array, picking pointers at random, and
    changing the array. *)
Definition testa_fill (mem : Z -> bool) (a : array ptr) : res (array ptr) :=
  _ ← assert (array_getnum a =? 0);
  a ← for_loop (Z.to_nat ATESTSIZE) 0 (fun i a =>
        '(r, a) ← array_add (mem i) a (Some i);
        _ ← assert (r =? 0);
        _ ← assert (array_getnum a =? i + 1);
        Ok a) a;
  _ ← assert (array_getnum a =? ATESTSIZE);
  a ← for_loop (Z.to_nat ATESTSIZE) 0 (fun i => expect i i) a;
  _ ← assert (array_getnum a =? ATESTSIZE);
  Ok a.

Definition testa_change (mem : Z -> bool) (a : array ptr) : res (array ptr) :=
  a ← for_loop (Z.to_nat ATESTSIZE) 0 (fun i a => array_setguy a i (Some (ATESTSIZE - i - 1))) a;
  a ← for_loop (Z.to_nat ATESTSIZE) 0 (fun i => expect i (ATESTSIZE - i - 1)) a;
  '(r, a) ← array_setsize (mem 73) a (ATESTSIZE / 2);
  _ ← assert (r =? 0);
  a ← for_loop (Z.to_nat (ATESTSIZE / 2)) 0 (fun i => expect i (ATESTSIZE - i - 1)) a;
  a ← array_remove a 1;
  a ← for_loop (Z.to_nat (ATESTSIZE / 2 - 1 - 1)) 1 (fun i => expect i (ATESTSIZE - i - 2)) a;
  a ← expect 0 (ATESTSIZE - 1) a;
  '(_, a) ← array_setsize (mem 74) a 2;
  a ← expect 0 (ATESTSIZE - 1) a;
  a ← expect 1 (ATESTSIZE - 3) a;
  a ← array_setguy a 1 None;
  '(_, a) ← array_setsize (mem 75) a 2;
  a ← expect 0 (ATESTSIZE - 1) a;
  a ← expect_null 1 a;
  '(_, a) ← array_setsize (mem 76) a (ATESTSIZE * 10);
  a ← expect 0 (ATESTSIZE - 1) a;
  expect_null 1 a.

Section tests.
(** What the calls of random() give; [from] have been made already. *)
Variable rnd : Z -> Z.

Definition testa_random (from : Z) (a : array ptr) : res (array ptr) :=
  a ← for_loop (Z.to_nat (ATESTSIZE * 4)) 0 (fun j => let i := rnd (from + j) mod ATESTSIZE in expect i i) a;
  _ ← assert (array_getnum a =? ATESTSIZE);
  Ok a.

Definition testa (mem : Z -> bool) (from : Z) (a : array ptr) : res (array ptr) :=
  a ← testa_fill mem a;
  a ← testa_random from a;
  testa_change mem a.

(** The array is freed at the end. *)
Definition arraytest (mem : Z -> bool) : res Z :=
  match array_create (mem 0) with
  | None => Panic
  | Some a =>
      a ← testa (fun i => mem (1 + i)) 0 a;
      '(_, a) ← array_setsize (mem 78) a 0;
      _ ← testa (fun i => mem (79 + i)) (ATESTSIZE * 4) a;
      Ok 0
  end.

(** ** bitmaptest.c *)

Definition BTESTSIZE : Z := 533.

(** [if (data[i]) assert(bitmap_isset(b, i)); else assert(bitmap_isset(b, i)==0);]
    or, with [set] false, the other way round. *)
Definition expect_bit (set : bool) (data : list Z) (i : Z) (b : bitmap) : res bitmap :=
  d ← load data i;
  s ← bitmap_isset b i;
  _ ← assert (if bool_decide (d <> 0) then bool_decide (set = negb (s =? 0)) else bool_decide (set = (s =? 0)));
  Ok b.

(** [while (bitmap_alloc(b, &x)==0)] *)
Fixpoint alloc_all (fuel : nat) (x : Z) (b : bitmap) (data : list Z) : res (bitmap * list Z) :=
  match fuel with
  | O => Fuel
  | S fuel =>
      '(r, x, b) ← bitmap_alloc b x;
      if r =? 0 then
        _ ← assert (x <? BTESTSIZE);
        s ← bitmap_isset b x;
        _ ← assert (negb (s =? 0));
        d ← load data x;
        _ ← assert (d =? 1);
        data ← store data x 0;
        alloc_all fuel x b data
      else Ok (b, data)
  end.

(** [data] and [x] are as they are found on the stack. *)
Definition bitmaptest (mem : Z -> bool) (data : list Z) (x : Z) : res Z :=
  data ← for_loop (Z.to_nat BTESTSIZE) 0 (fun i data => store data i (rnd i mod 2)) data;
  b ← bitmap_create (mem 0) (mem 1) BTESTSIZE;
  match b with
  | None => Panic
  | Some b =>
      b ← for_loop (Z.to_nat BTESTSIZE) 0 (fun i b => s ← bitmap_isset b i; _ ← assert (s =? 0); Ok b) b;
      b ← for_loop (Z.to_nat BTESTSIZE) 0 (fun i b => d ← load data i; if bool_decide (d <> 0) then bitmap_mark b i else Ok b) b;
      b ← for_loop (Z.to_nat BTESTSIZE) 0 (expect_bit true data) b;
      b ← for_loop (Z.to_nat BTESTSIZE) 0 (fun i b => d ← load data i; if bool_decide (d <> 0) then bitmap_unmark b i else bitmap_mark b i) b;
      b ← for_loop (Z.to_nat BTESTSIZE) 0 (expect_bit false data) b;
      '(b, data) ← alloc_all (S (Z.to_nat BTESTSIZE)) x b data;
      _ ← for_loop (Z.to_nat BTESTSIZE) 0 (fun i _ => s ← bitmap_isset b i; _ ← assert (negb (s =? 0)); d ← load data i; assert (d =? 0)) tt;
      Ok 0
  end.
End tests.

(** ** queuetest.c *)

(** [x] is what [kmalloc] gives for an array of [n] ints, with what is in it;
    the result is not tested.  The queue has pointers into it, by index. *)
Definition testq (mem : Z -> bool) (x : option (list Z)) (q : queue Z) (n : Z) : res (queue Z) :=
  x ← for_loop (Z.to_nat n) 0 (fun i x => match x with Some l => l ← store l i i; Ok (Some l) | None => Undef end) x;
  _ ← assert (q_empty q);
  q ← for_loop (Z.to_nat n) 0 (fun i q =>
        '(result, q) ← q_addtail (fun _ => mem i) q i;
        _ ← assert (result =? 0);
        Ok q) q;
  q ← for_loop (Z.to_nat n) 0 (fun i q =>
        '(r, q) ← q_remhead q;
        match r, x with
        | Some r, Some l => v ← load l r; _ ← assert (v =? i); Ok q
        | _, _ => Undef
        end) q;
  _ ← assert (q_empty q);
  Ok q.

(** [x6] and [x27] are the arrays of the two calls of testq(). *)
Definition queuetest (mem : Z -> bool) (x6 x27 : option (list Z)) : res Z :=
  match q_create (mem 0) (mem 1) 8 with
  | None => Panic
  | Some q =>
      q ← testq (fun i => mem (2 + i)) x6 q 6;
      q ← testq (fun i => mem (8 + i)) x27 q 27;
      _ ← q_destroy q;
      Ok 0
  end.

(** ** What a test shows

    It goes through, or one of its assertions fails because there was no
    memory. *)
Definition goes {A : Type} (mem : Z -> bool) (r : res A) (P : A -> Prop) : Prop :=
  ok_with r P \/ (r = Panic /\ exists i, mem i = false).

Lemma goes_bind {A B} mem (r : res A) (k : A -> res B) P Q : goes mem r P -> (forall x, P x -> goes mem (k x) Q) -> goes mem (x ← r; k x) Q.
Proof. intros [(x & -> & Hx)|[-> Hm]] Hk; [rewrite bind_Ok; by apply Hk|by right]. Qed.

Lemma goes_ok {A} mem (r : res A) (P : A -> Prop) : ok_with r P -> goes mem r P.
Proof. by left. Qed.

Lemma goes_shift {A} (mem : Z -> bool) k (r : res A) P : goes (fun i => mem (k + i)) r P -> goes mem r P.
Proof. intros [?|[? [i Hi]]]; [by left|right]. split; [done|by exists (k + i)]. Qed.

(** ** Loops *)

Lemma for_loop_inv {St : Type} (P : Z -> St -> Prop) (body : Z -> St -> res St) n : forall i s,
  (forall j s, i <= j < i + Z.of_nat n -> P j s -> ok_with (body j s) (P (j + 1))) -> P i s -> ok_with (for_loop n i body s) (P (i + Z.of_nat n)).
Proof.
  induction n as [|n IH]; intros i s Hb Hi; cbn [for_loop].
  - exists s. by rewrite Z.add_0_r.
  - destruct (Hb i s ltac:(lia) Hi) as (s1 & -> & H1). rewrite bind_Ok. replace (i + Z.of_nat (S n)) with (i + 1 + Z.of_nat n) by lia. apply IH; [|done].
    intros j s' Hj. apply Hb. lia.
Qed.

Lemma for_loop_goes {St : Type} mem (P : Z -> St -> Prop) (body : Z -> St -> res St) n : forall i s,
  (forall j s, i <= j < i + Z.of_nat n -> P j s -> goes mem (body j s) (P (j + 1))) -> P i s -> goes mem (for_loop n i body s) (P (i + Z.of_nat n)).
Proof.
  induction n as [|n IH]; intros i s Hb Hi; cbn [for_loop].
  - left. exists s. by rewrite Z.add_0_r.
  - eapply goes_bind; [apply (Hb i s); [lia|done]|]. intros s1 H1. replace (i + Z.of_nat (S n)) with (i + 1 + Z.of_nat n) by lia. apply IH; [|done].
    intros j s' Hj. apply Hb. lia.
Qed.

(** A body that only tests. *)
Lemma for_loop_same {St : Type} (body : Z -> St -> res St) n i s :
  (forall j, i <= j < i + Z.of_nat n -> body j s = Ok s) -> for_loop n i body s = Ok s.
Proof.
  intros Hb. destruct (for_loop_inv (fun _ s' => s' = s) body n i s) as (s' & E & ->); [|done|done].
  intros j s' Hj ->. exists s. by rewrite Hb.
Qed.

(** ** The array test *)

(** The array has at least [n] elements, the first of which are those of [f]. *)
Definition shows (a : array ptr) (n : Z) (f : Z -> ptr) : Prop :=
  arr_wf a /\ 0 <= n <= arr_num a /\ forall k, 0 <= k < n -> arr_list a !! Z.to_nat k = Some (Some (f k)).

Lemma expect_shows a n f i x : shows a n f -> 0 <= i < n -> f i = Some x -> 0 <= x < ATESTSIZE -> expect i x a = Ok a.
Proof.
  intros (Hwf & Hn & Hf) Hi Hx Hr. unfold expect. destruct (array_getguy_spec a i Hwf) as (p & -> & Hp); [lia|]. rewrite Hf, Hx in Hp by done. injection Hp as <-.
  rewrite bind_Ok. cbn [deref]. assert (load testarray x = Ok x) as ->; [|by rewrite bind_Ok, Z.eqb_refl].
  apply load_Ok; [lia|]. unfold testarray. apply lookup_seqZ. unfold ATESTSIZE in *. lia.
Qed.

Lemma expect_null_shows a n f i : shows a n f -> 0 <= i < n -> f i = None -> expect_null i a = Ok a.
Proof.
  intros (Hwf & Hn & Hf) Hi Hx. unfold expect_null. destruct (array_getguy_spec a i Hwf) as (p & -> & Hp); [lia|]. rewrite Hf, Hx in Hp by done. injection Hp as <-.
  by rewrite bind_Ok.
Qed.

(** A loop of tests. *)
Lemma expect_loop a n f (x : Z -> Z) m i : shows a n f -> 0 <= i -> i + Z.of_nat m <= n -> (forall k, i <= k < i + Z.of_nat m -> f k = Some (x k) /\ 0 <= x k < ATESTSIZE) ->
  for_loop m i (fun i => expect i (x i)) a = Ok a.
Proof. intros Hs Hi Hm Hx. apply for_loop_same. intros j Hj. destruct (Hx j Hj). apply (expect_shows a n f); [done|lia|done|done]. Qed.

Lemma setguy_shows a n f i x : shows a n f -> 0 <= i < n ->
  ok_with (array_setguy a i x) (fun a' => shows a' n (fun k => if k =? i then x else f k) /\ arr_num a' = arr_num a).
Proof.
  intros (Hwf & Hn & Hf) Hi. destruct (array_setguy_spec a i x Hwf) as (a' & E & Hwf' & El & En & _); [lia|]. exists a'. split; [done|]. split; [|done].
  split; [done|]. split; [lia|]. intros k Hk. pose proof (arr_list_length a Hwf). rewrite El. destruct (Z.eqb_spec k i) as [->|].
  - apply list_lookup_insert_eq. lia.
  - rewrite list_lookup_insert_ne by lia. by apply Hf.
Qed.

(** A smaller size needs no memory. *)
Lemma setsize_shows ok a n f m : shows a n f -> 0 <= m <= n -> ok_with (array_setsize ok a m) (fun '(r, a') => r = 0 /\ shows a' m f /\ arr_num a' = m).
Proof.
  intros (Hwf & Hn & Hf) Hm. pose proof Hwf as (? & ? & Hlen). destruct (decide (m = 0 /\ 16 < arr_max a)) as [[-> Hbig]|Hsmall].
  - rewrite array_setsize_zero_large by done. eexists. split; [done|]. split; [done|]. split; [|done]. split; [unfold arr_wf; cbn; lia|]. split; [cbn; lia|]. intros k Hk. lia.
  - rewrite array_setsize_within by (done || lia). eexists. split; [done|]. split; [done|]. split; [|done]. split; [apply arr_wf_resize; [done|lia]|]. split; [cbn; lia|].
    intros k Hk. specialize (Hf k ltac:(lia)). unfold arr_list in *. cbn. rewrite lookup_take_lt in * by lia. exact Hf.
Qed.

(** A larger size keeps what is there, and so does a failure. *)
Lemma setsize_grows ok a n f m : shows a n f -> arr_num a <= m <= arr_limit -> ok_with (array_setsize ok a m) (fun '(_, a') => shows a' n f).
Proof.
  intros Hs Hm. pose proof Hs as (Hwf & Hn & Hf). pose proof Hwf as (? & ? & Hlen).
  assert (forall b, arr_wf b -> arr_num b = arr_num a -> arr_list b = arr_list a -> m <= arr_max b -> shows (mk_array m (arr_max b) (arr_v b)) n f) as Hresize.
  { intros b Hb Enum El Hmax. pose proof Hb as (? & ? & Hlb). split; [apply arr_wf_resize; [done|lia]|]. split; [cbn; lia|]. intros k Hk.
    specialize (Hf k Hk). rewrite <-El in Hf. unfold arr_list in *. cbn. rewrite lookup_take_lt in * by lia. exact Hf. }
  destruct (decide (m = 0)) as [->|].
  { assert (n = 0) as -> by lia. destruct (setsize_shows ok a 0 f 0 Hs) as ([r a'] & E & _ & Hs' & _); [lia|]. by exists (r, a'). }
  unfold array_setsize. pass_assert. rewrite Z.gtb_ltb. destruct (Z.ltb_spec (arr_max a) m).
  - destruct (array_preallocate_spec ok a m Hwf) as [[_ ->]|(a' & -> & Hwf' & El & En & _ & Hmax)]; [lia| |]; rewrite bind_Ok; [by eexists|].
    eexists. split; [done|]. by apply Hresize.
  - destruct (Z.eqb_spec m 0); [done|]. eexists. split; [done|]. by apply Hresize.
Qed.

Lemma testa_fill_goes mem a : arr_wf a -> arr_num a = 0 -> goes mem (testa_fill mem a) (fun a' => shows a' ATESTSIZE Some /\ arr_num a' = ATESTSIZE).
Proof.
  intros Hwf Hnum. unfold testa_fill, array_getnum. rewrite Hnum. cbn [Z.eqb assert]. rewrite bind_Ok.
  eapply goes_bind; [apply (for_loop_goes mem (fun i a => shows a i Some /\ arr_num a = i))|].
  - intros i a1 Hi [(Hwf1 & _ & Hf) En]. cbv beta. destruct (array_add_spec (mem i) a1 (Some i) Hwf1) as [(Hm & _ & ->)|(a2 & -> & Hwf2 & El & En2)].
    + unfold arr_limit, ATESTSIZE in *. lia.
    + right. split; [done|by exists i].
    + rewrite bind_Ok. cbn [Z.eqb assert]. rewrite bind_Ok. unfold array_getnum. rewrite En2, En, Z.eqb_refl. cbn [assert]. rewrite bind_Ok. left. exists a2. split; [done|].
      split; [|lia]. split; [done|]. split; [lia|]. intros k Hk. pose proof (arr_list_length a1 Hwf1). rewrite El. destruct (decide (k = i)) as [->|].
      * rewrite lookup_app_r by lia. by replace (Z.to_nat i - length (arr_list a1))%nat with 0%nat by lia.
      * rewrite lookup_app_l by lia. apply Hf. lia.
  - split; [|done]. split; [done|]. split; [lia|]. intros k Hk. lia.
  - intros a1 [Hs En]. change (0 + Z.of_nat (Z.to_nat ATESTSIZE)) with ATESTSIZE in *. cbv beta. rewrite En, Z.eqb_refl. cbn [assert]. rewrite bind_Ok.
    rewrite (expect_loop a1 ATESTSIZE Some (fun i => i)), bind_Ok; [|done|done|done|]. 2:{ intros k Hk. split; [done|]. exact Hk. }
    rewrite En, Z.eqb_refl. left. by exists a1.
Qed.

(** A test of one element. *)
Lemma goes_expect {B} mem a n f i x (k : array ptr -> res B) Q : shows a n f -> 0 <= i < n -> f i = Some x -> 0 <= x < ATESTSIZE ->
  goes mem (k a) Q -> goes mem (b ← expect i x a; k b) Q.
Proof. intros Hs Hi Hx Hr Hk. by rewrite (expect_shows a n f i x), bind_Ok. Qed.

Lemma goes_setsize {B} mem ok a n f m (k : Z * array ptr -> res B) Q : shows a n f -> 0 <= m <= n ->
  (forall a', shows a' m f -> arr_num a' = m -> goes mem (k (0, a')) Q) -> goes mem (p ← array_setsize ok a m; k p) Q.
Proof. intros Hs Hm Hk. destruct (setsize_shows ok a n f m Hs Hm) as ([r a'] & -> & -> & Hs' & En). rewrite bind_Ok. by apply Hk. Qed.

(** The end of the changes: two elements are left. *)
Lemma testa_end_goes mem a f : shows a 2 f -> arr_num a = 2 -> f 0 = Some (ATESTSIZE - 1) -> f 1 = Some (ATESTSIZE - 3) ->
  goes mem (a ← expect 0 (ATESTSIZE - 1) a;
    a ← expect 1 (ATESTSIZE - 3) a;
    a ← array_setguy a 1 None;
    '(_, a) ← array_setsize (mem 75) a 2;
    a ← expect 0 (ATESTSIZE - 1) a;
    a ← expect_null 1 a;
    '(_, a) ← array_setsize (mem 76) a (ATESTSIZE * 10);
    a ← expect 0 (ATESTSIZE - 1) a;
    expect_null 1 a) (fun a => arr_wf a).
Proof.
  intros Hs En H0 H1. eapply goes_expect; [done|lia|done|done|]. eapply goes_expect; [done|lia|done|done|].
  destruct (setguy_shows a 2 f 1 None Hs) as (a1 & -> & Hs1 & En1); [lia|]. rewrite bind_Ok.
  eapply goes_setsize; [exact Hs1|lia|]. intros a2 Hs2 En2. cbv beta iota. eapply goes_expect; [exact Hs2|lia|done|done|]. rewrite (expect_null_shows a2 2 _ 1 Hs2), bind_Ok by done || lia.
  destruct (setsize_grows (mem 76) a2 2 _ (ATESTSIZE * 10) Hs2) as ([r a3] & -> & Hs3); [unfold ATESTSIZE, arr_limit; lia|]. rewrite bind_Ok.
  eapply goes_expect; [exact Hs3|lia|done|done|]. rewrite (expect_null_shows a3 2 _ 1 Hs3) by done || lia. left. exists a3. split; [done|apply Hs3].
Qed.

Lemma testa_change_goes mem a : shows a ATESTSIZE Some -> goes mem (testa_change mem a) (fun a => arr_wf a).
Proof.
  intros Hs. unfold testa_change.
  destruct (for_loop_inv (fun i a => shows a ATESTSIZE (fun k => if k <? i then Some (ATESTSIZE - k - 1) else Some k)) (fun i a => array_setguy a i (Some (ATESTSIZE - i - 1))) (Z.to_nat ATESTSIZE) 0 a)
    as (a1 & -> & Hs1).
  { intros i a1 Hi Hs1. destruct (setguy_shows a1 ATESTSIZE _ i (Some (ATESTSIZE - i - 1)) Hs1) as (a2 & E & Hs2 & _); [unfold ATESTSIZE in *; lia|]. exists a2. split; [done|].
    destruct Hs2 as (? & ? & Hf). do 2 (split; [done|]). intros k Hk. rewrite Hf by done. do 2 f_equal. destruct (Z.eqb_spec k i), (Z.ltb_spec k i), (Z.ltb_spec k (i + 1)); lia || done || (f_equal; lia). }
  { destruct Hs as (? & ? & Hf). do 2 (split; [done|]). intros k Hk. rewrite Hf by done. by destruct (Z.ltb_spec k 0); [lia|]. }
  rewrite bind_Ok. change (0 + Z.of_nat (Z.to_nat ATESTSIZE)) with ATESTSIZE in Hs1. set (f := fun k => if k <? ATESTSIZE then Some (ATESTSIZE - k - 1) else Some k) in *.
  assert (forall k, 0 <= k < ATESTSIZE -> f k = Some (ATESTSIZE - k - 1) /\ 0 <= ATESTSIZE - k - 1 < ATESTSIZE) as Hf by (intros k Hk; unfold f; destruct (Z.ltb_spec k ATESTSIZE); [split; [done|lia]|lia]).
  rewrite (expect_loop a1 ATESTSIZE f (fun i => ATESTSIZE - i - 1)), bind_Ok; [|done|done|done|exact Hf].
  eapply goes_setsize; [exact Hs1|by unfold ATESTSIZE|]. intros a2 Hs2 En2. cbv beta iota. cbn [Z.eqb assert]. rewrite bind_Ok. change (ATESTSIZE / 2) with 36 in *.
  rewrite (expect_loop a2 36 f (fun i => ATESTSIZE - i - 1)), bind_Ok; [|done|done|done|intros k Hk; apply Hf; unfold ATESTSIZE; lia].
  pose proof Hs2 as (Hwf2 & _ & Hf2). destruct (array_remove_spec a2 1 Hwf2) as (a3 & -> & Hwf3 & El & En3 & _); [lia|]. rewrite bind_Ok.
  set (h := fun k => if k <? 1 then f k else f (k + 1)). assert (shows a3 35 h) as Hs3.
  { split; [done|]. split; [lia|]. intros k Hk. rewrite El. unfold h. destruct (Z.ltb_spec k 1).
    - rewrite list_lookup_delete_lt by lia. apply Hf2. lia.
    - rewrite list_lookup_delete_ge by lia. replace (S (Z.to_nat k)) with (Z.to_nat (k + 1)) by lia. apply Hf2. lia. }
  rewrite (expect_loop a3 35 h (fun i => ATESTSIZE - i - 2)), bind_Ok; [|done|done|done|].
  2:{ intros k Hk. unfold h. destruct (Z.ltb_spec k 1); [lia|]. destruct (Hf (k + 1)) as [-> _]; [unfold ATESTSIZE; lia|]. split; [f_equal; lia|unfold ATESTSIZE; lia]. }
  eapply goes_expect; [exact Hs3|lia|done|done|]. eapply goes_setsize; [exact Hs3|lia|]. intros a4 Hs4 En4. by apply (testa_end_goes mem a4 h).
Qed.

Lemma testa_goes mem rnd from a : arr_wf a -> arr_num a = 0 -> goes mem (testa rnd mem from a) (fun a => arr_wf a).
Proof.
  intros Hwf Hn. unfold testa. eapply goes_bind; [by apply testa_fill_goes|]. intros a1 [Hs En]. cbv beta in *.
  unfold testa_random. rewrite for_loop_same, bind_Ok.
  2:{ intros j _. apply (expect_shows a1 ATESTSIZE Some); [done| |done|]; by apply Z.mod_pos_bound. }
  unfold array_getnum. rewrite En, Z.eqb_refl. cbn [assert]. rewrite !bind_Ok. by apply testa_change_goes.
Qed.

Lemma arraytest_goes mem rnd : goes mem (arraytest rnd mem) (fun r => r = 0).
Proof.
  unfold arraytest, array_create. destruct (mem 0) eqn:E0; [|right; split; [done|by exists 0]].
  eapply goes_bind; [apply (goes_shift mem 1), testa_goes; done|]. intros a Hwf. cbv beta in Hwf.
  apply (goes_setsize mem _ a 0 Some); [split; [exact Hwf|]; split; [split; [reflexivity|apply Hwf]|]; intros k Hk; lia|done|]. intros a' (Hwf' & _) En. cbv beta iota.
  eapply goes_bind; [by apply (goes_shift mem 79), testa_goes|]. intros a2 _. left. by exists 0.
Qed.

(** ** The queue test *)

Lemma fill_x n (l : list Z) : Z.of_nat (length l) = n ->
  for_loop (Z.to_nat n) 0 (fun i x => match x with Some l => l ← store l i i; Ok (Some l) | None => Undef end) (Some l) = Ok (Some (seqZ 0 n)).
Proof.
  intros Hl. destruct (for_loop_inv (fun i x => exists l', x = Some (seqZ 0 i ++ l') /\ i + Z.of_nat (length l') = n)
    (fun i x => match x with Some l => l ← store l i i; Ok (Some l) | None => Undef end) (Z.to_nat n) 0 (Some l)) as (x & -> & l' & -> & Hl').
  - intros i x Hi (l' & -> & Hl'). destruct l' as [|y l']; [cbn in *; lia|]. rewrite store_in_range by (rewrite length_app, length_seqZ; cbn in *; lia). rewrite bind_Ok.
    eexists. split; [done|]. exists l'. split; [|cbn in *; lia]. f_equal. replace (i + 1) with (Z.of_nat (S (Z.to_nat i))) by lia. rewrite seqZ_S, <-app_assoc. cbn [app].
    rewrite (insert_app_r_alt (seqZ 0 i)) by (rewrite length_seqZ; lia). rewrite length_seqZ, Nat.sub_diag. cbn. by rewrite Z2Nat.id by lia.
  - exists l. split; [done|]. lia.
  - destruct l'; [|cbn in *; lia]. by rewrite app_nil_r, Z.add_0_l, Z2Nat.id by lia.
Qed.

Lemma testq_goes mem l q n : q_rep q [] -> 0 <= n <= 1000 -> q_size q <= 10000 -> Z.of_nat (length l) = n ->
  goes mem (testq mem (Some l) q n) (fun q' => q_rep q' [] /\ q_size q' <= Z.max (q_size q) (2 * n + 4)).
Proof.
  intros Hq Hn Hsz Hl. unfold testq. rewrite (fill_x n l Hl), bind_Ok, (proj2 (q_rep_empty q [] Hq)) by done. cbn [assert]. rewrite bind_Ok.
  eapply goes_bind; [apply (for_loop_goes mem (fun i q' => q_rep q' (seqZ 0 i) /\ q_size q' <= Z.max (q_size q) (2 * n + 4)))|].
  - intros i q1 Hi [Hr Hs1]. cbv beta. destruct (q_addtail_spec (fun _ => mem i) q1 (seqZ 0 i) i Hr) as [(q2 & -> & Hr2 & Hs2 & Hsame)|(Hm & _ & ->)]; [unfold q_limit; lia| |].
    + rewrite bind_Ok. cbn [Z.eqb assert]. rewrite bind_Ok. left. exists q2. split; [done|]. split.
      * replace (i + 1) with (Z.of_nat (S (Z.to_nat i))) by lia. rewrite seqZ_S, Z2Nat.id by lia. exact Hr2.
      * rewrite length_seqZ in Hsame. pose proof (q_rep_room _ _ Hr) as Hroom. rewrite length_seqZ in Hroom. destruct (decide (Z.of_nat (Z.to_nat i) + 1 < q_size q1)) as [Hlt|]; [rewrite (Hsame Hlt); done|lia].
    + right. split; [done|by exists i].
  - split; [done|lia].
  - intros q1 [Hr Hs1]. cbv beta. rewrite Z.add_0_l, Z2Nat.id in Hr by lia.
    destruct (for_loop_inv (fun i q' => q_rep q' (seqZ i (n - i)) /\ q_size q' <= Z.max (q_size q) (2 * n + 4))
      (fun i q => '(r, q) ← q_remhead q; match r, Some (seqZ 0 n) with Some r, Some l => v ← load l r; _ ← assert (v =? i); Ok q | _, _ => Undef end) (Z.to_nat n) 0 q1) as (q2 & -> & Hr2 & Hs2).
    + intros i q2 Hi [Hr2 Hs2]. rewrite seqZ_cons in Hr2 by lia. destruct (q_remhead_spec q2 _ _ Hr2) as (q3 & -> & Hr3 & Hs3). rewrite bind_Ok.
      rewrite (load_Ok (seqZ 0 n) i i), bind_Ok, Z.eqb_refl; [|lia|apply lookup_seqZ; lia]. cbn [assert]. rewrite bind_Ok. exists q3. split; [done|]. split; [|lia].
      by replace (n - (i + 1)) with (Z.pred (n - i)) by lia.
    + by rewrite Z.sub_0_r.
    + rewrite bind_Ok. rewrite Z.add_0_l, Z2Nat.id, Z.sub_diag in Hr2 by lia. change (seqZ n 0) with ([] : list Z) in Hr2. rewrite (proj2 (q_rep_empty q2 [] Hr2)) by done.
      left. by exists q2.
Qed.

Lemma queuetest_goes mem l6 l27 : length l6 = 6%nat -> length l27 = 27%nat -> goes mem (queuetest mem (Some l6) (Some l27)) (fun r => r = 0).
Proof.
  intros H6 H27. unfold queuetest, q_create. destruct (mem 0) eqn:E0; cbn [negb]; [|right; split; [done|by exists 0]].
  destruct (mem 1) eqn:E1; cbn [negb]; [|right; split; [done|by exists 1]].
  eapply goes_bind; [apply (goes_shift mem 2), testq_goes; [|done|by vm_compute|lia]|].
  { split; [split; [by vm_compute|]; split; [by vm_compute|]; split; [by vm_compute|done]|]. split; [done|]. intros k x Hk. by rewrite lookup_nil in Hk. }
  intros q1 [Hr1 Hs1]. cbn [q_size] in Hs1. eapply goes_bind; [apply (goes_shift mem 8), testq_goes; [done|done|lia|lia]|]. intros q2 [Hr2 _].
  unfold q_destroy. rewrite (proj2 (q_rep_empty q2 [] Hr2)) by done. left. by exists 0.
Qed.

(** ** The bitmap test *)

(** The bits before [i] are those of [g], the others those of [f]. *)
Definition upto (f g : Z -> bool) (i : Z) (b : bitmap) : Prop :=
  bm_wf b /\ bm_nbits b = BTESTSIZE /\ forall k, 0 <= k < BTESTSIZE -> bm_bit b k = if k <? i then g k else f k.

Lemma upto_all f g b : upto f g (0 + Z.of_nat (Z.to_nat BTESTSIZE)) b -> forall h, upto g h 0 b.
Proof.
  intros (Hwf & Hn & Hb) h. split; [done|]. split; [done|]. intros k Hk. rewrite Hb by done.
  destruct (Z.ltb_spec k (0 + Z.of_nat (Z.to_nat BTESTSIZE))), (Z.ltb_spec k 0); lia || done.
Qed.

(** Setting bit [i] to what it has to be. *)
Lemma upto_update f g i b b' : upto f g i b -> 0 <= i < BTESTSIZE -> bm_wf b' -> bm_update b b' i (g i) -> upto f g (i + 1) b'.
Proof.
  intros (_ & Hn & Hb) Hi Hwf [Hn' Hu]. split; [done|]. split; [congruence|]. intros k Hk. rewrite Hu, Hb by lia.
  destruct (Z.eqb_spec k i) as [E|], (Z.ltb_spec k i), (Z.ltb_spec k (i + 1)); try lia; try done. by rewrite E.
Qed.

Lemma upto_keep f g i b : upto f g i b -> 0 <= i < BTESTSIZE -> f i = g i -> upto f g (i + 1) b.
Proof.
  intros (Hwf & Hn & Hb) Hi E. split; [done|]. split; [done|]. intros k Hk. rewrite Hb by lia.
  destruct (Z.ltb_spec k i), (Z.ltb_spec k (i + 1)); [done|lia| |done]. by replace k with i by lia.
Qed.

Lemma isset_upto f g b i : upto f g 0 b -> 0 <= i < BTESTSIZE -> exists s, bitmap_isset b i = Ok s /\ (s =? 0) = negb (f i).
Proof.
  intros (Hwf & Hn & Hb) Hi. destruct (bitmap_isset_spec b i Hwf ltac:(lia)) as (s & E & Es). exists s. split; [done|]. rewrite Es, Hb by done. destruct (Z.ltb_spec i 0); [lia|done].
Qed.

Section bits.
Variable data : list Z.
Hypothesis Hlen : length data = Z.to_nat BTESTSIZE.
Hypothesis Hbits : Forall (fun d => d = 0 \/ d = 1) data.

Definition data_bit (i : Z) : bool := match data !! Z.to_nat i with Some d => negb (d =? 0) | None => false end.

Lemma data_load i : 0 <= i < BTESTSIZE -> exists d, load data i = Ok d /\ (d = 0 \/ d = 1) /\ data_bit i = negb (d =? 0).
Proof.
  intros Hi. destruct (load_in_range data i) as (d & E & Hd); [lia|]. exists d. split; [done|]. split; [by eapply Forall_lookup_1 in Hbits|]. unfold data_bit. by rewrite Hd.
Qed.

Lemma expect_bits f g (set : bool) b : upto f g 0 b -> (forall i, 0 <= i < BTESTSIZE -> f i = if set then data_bit i else negb (data_bit i)) ->
  for_loop (Z.to_nat BTESTSIZE) 0 (expect_bit set data) b = Ok b.
Proof.
  intros Hb Hf. apply for_loop_same. intros i Hi. assert (0 <= i < BTESTSIZE) as Hi' by (unfold BTESTSIZE in *; lia). unfold expect_bit.
  destruct (data_load i Hi') as (d & -> & Hd & Ed). destruct (isset_upto f g b i Hb Hi') as (s & -> & Es). rewrite !bind_Ok, Es, Hf, Ed by done.
  by destruct Hd as [-> | ->], set.
Qed.

Lemma mark_bits g : forall b, upto (fun _ => false) data_bit 0 b ->
  exists b', for_loop (Z.to_nat BTESTSIZE) 0 (fun i b => d ← load data i; if bool_decide (d <> 0) then bitmap_mark b i else Ok b) b = Ok b' /\ upto data_bit g 0 b'.
Proof.
  intros b Hb. destruct (for_loop_inv (upto (fun _ => false) data_bit) (fun i b => d ← load data i; if bool_decide (d <> 0) then bitmap_mark b i else Ok b) (Z.to_nat BTESTSIZE) 0 b) as (b' & E & Hb');
    [|done|exists b'; split; [done|by eapply upto_all]].
  intros i s Hi Hs. assert (0 <= i < BTESTSIZE) as Hi' by (unfold BTESTSIZE in *; lia). destruct (data_load i Hi') as (d & -> & Hd & Ed). rewrite bind_Ok.
  pose proof Hs as (Hwf & Hn & Hk). destruct Hd as [-> | ->].
  - exists s. split; [done|]. by apply upto_keep; [| |rewrite Ed].
  - destruct (bitmap_mark_spec s i Hwf ltac:(lia)) as (s' & E & Hwf' & Hu); [rewrite Hk by done; by destruct (Z.ltb_spec i i); [lia|]|].
    exists s'. split; [done|]. eapply upto_update; [done|done|done|]. by rewrite Ed.
Qed.

Lemma flip_bits g : forall b, upto data_bit (fun i => negb (data_bit i)) 0 b ->
  exists b', for_loop (Z.to_nat BTESTSIZE) 0 (fun i b => d ← load data i; if bool_decide (d <> 0) then bitmap_unmark b i else bitmap_mark b i) b = Ok b' /\
    upto (fun i => negb (data_bit i)) g 0 b'.
Proof.
  intros b Hb. destruct (for_loop_inv (upto data_bit (fun i => negb (data_bit i))) (fun i b => d ← load data i; if bool_decide (d <> 0) then bitmap_unmark b i else bitmap_mark b i)
    (Z.to_nat BTESTSIZE) 0 b) as (b' & E & Hb'); [|done|exists b'; split; [done|by eapply upto_all]].
  intros i s Hi Hs. assert (0 <= i < BTESTSIZE) as Hi' by (unfold BTESTSIZE in *; lia). destruct (data_load i Hi') as (d & -> & Hd & Ed). rewrite bind_Ok.
  pose proof Hs as (Hwf & Hn & Hk). assert (bm_bit s i = data_bit i) as Ebit by (rewrite Hk by done; by destruct (Z.ltb_spec i i); [lia|]). rewrite Ed in Ebit. destruct Hd as [-> | ->].
  - destruct (bitmap_mark_spec s i Hwf ltac:(lia) Ebit) as (s' & E & Hwf' & Hu). exists s'. split; [done|]. eapply upto_update; [done|done|done|]. by rewrite Ed.
  - destruct (bitmap_unmark_spec s i Hwf ltac:(lia) Ebit) as (s' & E & Hwf' & Hu). exists s'. split; [done|]. eapply upto_update; [done|done|done|]. by rewrite Ed.
Qed.
End bits.

Definition ones (data : list Z) : nat := length (filter (fun d => d = 1) data).

Lemma ones_clear data i : data !! i = Some 1 -> ones data = S (ones (<[i := 0]> data)).
Proof.
  intros Hi. destruct (list_elem_of_split_length data i 1 Hi) as (d1 & d2 & -> & ->). unfold ones. rewrite insert_app_r_alt, Nat.sub_diag by lia. cbn [insert list_insert].
  rewrite !list.filter_app, !length_app, !filter_cons, (decide_True (P := 1 = 1)), (decide_False (P := 0 = 1)) by done. cbn [length]. lia.
Qed.

Lemma alloc_all_spec fuel : forall x b data, length data = Z.to_nat BTESTSIZE -> Forall (fun d => d = 0 \/ d = 1) data ->
  upto (fun i => negb (data_bit data i)) (fun _ => true) 0 b -> (ones data < fuel)%nat ->
  exists b' data', alloc_all fuel x b data = Ok (b', data') /\ upto (fun _ => true) (fun _ => true) 0 b' /\ length data' = Z.to_nat BTESTSIZE /\ Forall (fun d => d = 0) data'.
Proof.
  induction fuel as [|fuel IH]; intros x b data Hl Hd Hb Hf; [lia|]. cbn [alloc_all]. pose proof Hb as (Hwf & Hn & Hbit).
  assert (forall k, 0 <= k < BTESTSIZE -> bm_bit b k = negb (data_bit data k)) as Hbit' by (intros k Hk; rewrite Hbit by done; by destruct (Z.ltb_spec k 0); [lia|]).
  destruct (bitmap_alloc_spec b x Hwf) as [[-> Hfull]|(i & b' & -> & (Hi & Hc & _) & Hwf' & Hn' & Hu)]; rewrite bind_Ok; cbn [Z.eqb ENOSPC].
  - exists b, data. split; [done|]. rewrite Hn in Hfull. split; [split; [done|]; split; [done|]; intros k Hk; rewrite Hfull by done; by destruct (k <? 0)|]. split; [done|].
    apply Forall_lookup. intros k d Hk. pose proof (lookup_lt_Some _ _ _ Hk) as Hlt. assert (0 <= Z.of_nat k < BTESTSIZE) as Hk' by (unfold BTESTSIZE in *; lia).
    pose proof (Hbit' _ Hk') as E. rewrite Hfull in E by done. unfold data_bit in E. rewrite Nat2Z.id, Hk in E. destruct (Z.eqb_spec d 0); done.
  - rewrite Hn in Hi. destruct (Z.ltb_spec i BTESTSIZE); [|lia]. cbn [assert]. rewrite bind_Ok.
    destruct (bitmap_isset_spec b' i Hwf' ltac:(lia)) as (s & -> & Es). rewrite bind_Ok, Es, (Hu i), Z.eqb_refl by lia. cbn [negb assert]. rewrite bind_Ok.
    destruct (data_load data Hl Hd i Hi) as (d & El & Hd01 & Edb). rewrite El, bind_Ok. rewrite (Hbit' i Hi), Edb in Hc. destruct Hd01 as [-> | ->]; [done|]. cbn [Z.eqb Pos.eqb assert]. rewrite bind_Ok.
    apply load_Ok_inv in El as [Hr El]. rewrite store_in_range, bind_Ok by done. rewrite (ones_clear _ _ El) in Hf.
    apply IH; [by rewrite length_insert|by apply Forall_insert; [|left]| |lia]. split; [done|]. split; [congruence|]. intros k Hk. rewrite Hu by lia. destruct (Z.ltb_spec k 0); [lia|].
    unfold data_bit. destruct (Z.eqb_spec k i) as [->|Hne]; [by rewrite list_lookup_insert_eq by lia|]. rewrite list_lookup_insert_ne by lia. by apply Hbit'.
Qed.

Lemma ones_length data : (ones data <= length data)%nat.
Proof. unfold ones. apply length_filter. Qed.

(** Any bits can be tested. *)
Lemma bits_goes mem rnd data x : length data = Z.to_nat BTESTSIZE -> goes mem (bitmaptest rnd mem data x) (fun r => r = 0).
Proof.
  intros Hl. unfold bitmaptest.
  destruct (for_loop_inv (fun i d => length d = Z.to_nat BTESTSIZE /\ Forall (fun d => d = 0 \/ d = 1) (take (Z.to_nat i) d)) (fun i data => store data i (rnd i mod 2)) (Z.to_nat BTESTSIZE) 0 data)
    as (d & -> & Hd & Hf); [|done|].
  { intros i d Hi [Hd Hf]. rewrite store_in_range by (unfold BTESTSIZE in *; lia). eexists. split; [done|]. split; [by rewrite length_insert|].
    replace (Z.to_nat (i + 1)) with (S (Z.to_nat i)) by lia. rewrite (take_S_r _ _ (rnd i mod 2)) by (apply list_lookup_insert_eq; unfold BTESTSIZE in *; lia).
    apply Forall_app. split; [rewrite take_insert_ge by lia; done|]. constructor; [|done]. pose proof (Z.mod_pos_bound (rnd i) 2). lia. }
  rewrite bind_Ok, take_ge in * by (unfold BTESTSIZE in *; lia).
  destruct (mem 0) eqn:E0; [|right; split; [done|by exists 0]]. destruct (mem 1) eqn:E1; [|right; split; [done|by exists 1]].
  left. exists 0. split; [|done].
  destruct (bitmap_create_spec BTESTSIZE) as (b & -> & Hwf & Hn & Hclear & _); [done|]. rewrite bind_Ok.
  assert (forall g, upto (fun _ => false) g 0 b) as Hb. { intros g. split; [done|]. split; [done|]. intros k Hk. rewrite Hclear by done. by destruct (Z.ltb_spec k 0); [lia|]. }
  rewrite for_loop_same.
  2:{ intros i Hi. destruct (isset_upto _ _ _ i (Hb (fun _ => true))) as (s & -> & Es); [unfold BTESTSIZE in *; lia|]. rewrite bind_Ok, Es. done. }
  rewrite bind_Ok. destruct (mark_bits d Hd Hf (fun i => negb (data_bit d i)) b (Hb _)) as (b1 & -> & H1). rewrite bind_Ok.
  rewrite (expect_bits d Hd Hf _ _ true b1 H1), bind_Ok by done.
  destruct (flip_bits d Hd Hf (fun _ => true) b1 H1) as (b2 & -> & H2). rewrite bind_Ok, (expect_bits d Hd Hf _ _ false b2 H2), bind_Ok by done.
  destruct (alloc_all_spec (S (Z.to_nat BTESTSIZE)) x b2 d Hd Hf H2) as (b3 & d3 & -> & H3 & Hl3 & Hz); [pose proof (ones_length d); lia|]. rewrite bind_Ok.
  rewrite for_loop_same; [done|]. intros i Hi. assert (0 <= i < BTESTSIZE) as Hi' by (unfold BTESTSIZE in *; lia).
  destruct (isset_upto _ _ _ i H3 Hi') as (s & -> & Es). rewrite bind_Ok, Es. cbn [negb assert]. rewrite bind_Ok.
  destruct (load_in_range d3 i) as (v & -> & Hv); [lia|]. rewrite bind_Ok. by rewrite (Forall_lookup_1 _ _ _ _ Hz Hv).
Qed.

(** C40. The kernel's own tests of its containers pass.  Whatever random()
    gives, whatever is on the stack and in fresh memory, and whatever each
    [kmalloc] of the containers answers: arraytest(), bitmaptest() and
    queuetest() return 0, or an assertion fails after a [kmalloc] that had no
    memory.  In particular with memory no assertion fails.  The arrays that
    queuetest() itself allocates, without testing the result, are there. *)
Theorem container_tests_pass mem rnd data x l6 l27 : length data = Z.to_nat BTESTSIZE -> length l6 = 6%nat -> length l27 = 27%nat ->
  goes mem (arraytest rnd mem) (fun r => r = 0) /\ goes mem (bitmaptest rnd mem data x) (fun r => r = 0) /\
  goes mem (queuetest mem (Some l6) (Some l27)) (fun r => r = 0) /\
  ((forall i, mem i = true) -> arraytest rnd mem = Ok 0 /\ bitmaptest rnd mem data x = Ok 0 /\ queuetest mem (Some l6) (Some l27) = Ok 0).
Proof.
  intros Hl H6 H27. pose proof (arraytest_goes mem rnd) as Ha. pose proof (bits_goes mem rnd data x Hl) as Hb. pose proof (queuetest_goes mem l6 l27 H6 H27) as Hq.
  do 3 (split; [done|]). intros Hmem. assert (forall r : res Z, goes mem r (fun r => r = 0) -> r = Ok 0) as Hall.
  { intros r [(v & -> & ->)|[_ [i Hi]]]; [done|by rewrite Hmem in Hi]. }
  split; [by apply Hall|]. split; by apply Hall.
Qed.

Lemma container_tests_pass_witness :
  arraytest (fun i => i * 12345) (fun _ => true) = Ok 0 /\ bitmaptest (fun i => i * 12345) (fun _ => true) (replicate (Z.to_nat BTESTSIZE) 7) 9 = Ok 0 /\
  queuetest (fun _ => true) (Some (replicate 6 9)) (Some (replicate 27 9)) = Ok 0.
Proof.
  apply (container_tests_pass (fun _ => true) (fun i => i * 12345) (replicate (Z.to_nat BTESTSIZE) 7) 9 (replicate 6 9) (replicate 27 9)); [by rewrite length_replicate|done..].
Defined.

(** Without memory for its array queuetest() writes to address 0. *)
Theorem queuetest_null_write mem x27 : mem 0 = true -> mem 1 = true -> queuetest mem None x27 = Undef.
Proof. intros H0 H1. unfold queuetest, q_create. rewrite H0, H1. reflexivity. Qed.
