(* ===== verification/Sched.v ===== *)
(** * kern/thread/thread.c and kern/thread/scheduler.c

    The thread system: the threads, the current one, the run queue, the table
    of sleeping threads, the list of dead ones.  [ksys] gathers the globals of
    both files; threads are named by their addresses.  The other subsystems
    that thread.c calls (the pid manager, vnode reference counts, address
    spaces) are behind the interface [SchedEnv], whose instances give their
    state and operations.

    A context switch leaves one C stack and continues on another.  [mi_switch]
    is the code up to [md_switch]; what runs next, on the stack of the thread
    switched to, is [resume]: the rest of its own [mi_switch] and of the
    function that called it, or [mi_threadstart] for a thread that has never
    run.  So [thread_yield], [thread_sleep] and [thread_exit] map the state in
    which one thread calls them to the state in which another thread goes on
    with its own code.  The model ends where [thread_shutdown] begins: the
    arrays are never NULL. *)
From stdpp Require Import base numbers list option gmap.
From S2P Require Import Prelude KArray Queue.
Local Open Scope Z_scope.

(** What thread.c calls in other subsystems. *)
Class SchedEnv (E : Type) : Type := {
  (** pid_manager->inform_process_add: error code and pid *)
  env_pid_add : E -> Z -> res (Z * Z * E);
  (** pid_manager->inform_process_exit *)
  env_pid_exit : E -> Z -> Z -> res (Z * E);
  (** VOP_INCREF, VOP_DECREF *)
  env_incref : E -> Z -> res E;
  env_decref : E -> Z -> res E;
  (** as_destroy *)
  env_as_destroy : E -> Z -> res E;
}.

Inductive threadstate : Type := S_RUN | S_READY | S_SLEEP | S_ZOMB.

(** Where the saved context of a thread continues: at the start of its
    function ([md_initpcb]), or inside the [mi_switch] that [thread_yield]
    (with its local [spl]), [thread_sleep] or [thread_exit] called. *)
Inductive context : Type :=
| Ctx_start
| Ctx_yield (spl : Z)
| Ctx_sleep
| Ctx_exit.

(** [t_stack] is the bottom of the stack, where the magic number is; NULL is
    0 for [t_sleepaddr], [None] for the other pointers.  [t_pcb] is the saved
    context, as far as it decides what the thread does next. *)
Record thread : Type := mk_thread {
  t_sleepaddr : Z;
  t_stack : option (list Z);
  t_pid : Z;
  t_vmspace : option Z;
  t_cwd : option Z;
  t_pcb : context;
}.

Definition set_sleepaddr (a : Z) (t : thread) : thread :=
  mk_thread a (t_stack t) (t_pid t) (t_vmspace t) (t_cwd t) (t_pcb t).
Definition set_pcb (c : context) (t : thread) : thread :=
  mk_thread (t_sleepaddr t) (t_stack t) (t_pid t) (t_vmspace t) (t_cwd t) c.
Definition set_pid (p : Z) (t : thread) : thread :=
  mk_thread (t_sleepaddr t) (t_stack t) p (t_vmspace t) (t_cwd t) (t_pcb t).
Definition drop_vmspace (t : thread) : thread :=
  mk_thread (t_sleepaddr t) (t_stack t) (t_pid t) None (t_cwd t) (t_pcb t).
Definition drop_cwd (t : thread) : thread :=
  mk_thread (t_sleepaddr t) (t_stack t) (t_pid t) (t_vmspace t) None (t_pcb t).

Section sched.
Context {E : Type} {HE : SchedEnv E}.

Record ksys : Type := mk_ksys {
  k_threads : gmap Z thread;
  k_curthread : option Z;
  k_sleepers : array Z;
  k_zombies : array Z;
  k_numthreads : Z;
  k_runqueue : queue Z;
  k_curspl : Z;
  k_in_interrupt : Z;
  k_env : E;
}.

Definition with_threads (m : gmap Z thread) (s : ksys) : ksys :=
  mk_ksys m (k_curthread s) (k_sleepers s) (k_zombies s) (k_numthreads s)
    (k_runqueue s) (k_curspl s) (k_in_interrupt s) (k_env s).
Definition with_curthread (c : option Z) (s : ksys) : ksys :=
  mk_ksys (k_threads s) c (k_sleepers s) (k_zombies s) (k_numthreads s)
    (k_runqueue s) (k_curspl s) (k_in_interrupt s) (k_env s).
Definition with_sleepers (a : array Z) (s : ksys) : ksys :=
  mk_ksys (k_threads s) (k_curthread s) a (k_zombies s) (k_numthreads s)
    (k_runqueue s) (k_curspl s) (k_in_interrupt s) (k_env s).
Definition with_zombies (a : array Z) (s : ksys) : ksys :=
  mk_ksys (k_threads s) (k_curthread s) (k_sleepers s) a (k_numthreads s)
    (k_runqueue s) (k_curspl s) (k_in_interrupt s) (k_env s).
Definition with_numthreads (n : Z) (s : ksys) : ksys :=
  mk_ksys (k_threads s) (k_curthread s) (k_sleepers s) (k_zombies s) n
    (k_runqueue s) (k_curspl s) (k_in_interrupt s) (k_env s).
Definition with_runqueue (q : queue Z) (s : ksys) : ksys :=
  mk_ksys (k_threads s) (k_curthread s) (k_sleepers s) (k_zombies s) (k_numthreads s)
    q (k_curspl s) (k_in_interrupt s) (k_env s).
Definition with_spl (n : Z) (s : ksys) : ksys :=
  mk_ksys (k_threads s) (k_curthread s) (k_sleepers s) (k_zombies s) (k_numthreads s)
    (k_runqueue s) n (k_in_interrupt s) (k_env s).
Definition with_env (e : E) (s : ksys) : ksys :=
  mk_ksys (k_threads s) (k_curthread s) (k_sleepers s) (k_zombies s) (k_numthreads s)
    (k_runqueue s) (k_curspl s) (k_in_interrupt s) e.

(** Dereference of a thread pointer, of [curthread], of an array cell. *)
Definition get_thread (s : ksys) (t : Z) : res thread :=
  match k_threads s !! t with Some th => Ok th | None => Undef end.
Definition get_cur (s : ksys) : res Z :=
  match k_curthread s with Some t => Ok t | None => Undef end.
Definition cell (x : option Z) : res Z :=
  match x with Some t => Ok t | None => Undef end.

Definition upd_thread (t : Z) (f : thread -> thread) (s : ksys) : ksys :=
  with_threads (alter f t (k_threads s)) s.

(** ** arch/mips/mips/spl.c *)

Definition SPL_HIGH : Z := 15.

Definition splx (newspl : Z) (s : ksys) : Z * ksys := (k_curspl s, with_spl newspl s).
Definition splhigh (s : ksys) : Z * ksys := splx SPL_HIGH s.
Definition spl0 (s : ksys) : Z * ksys := splx 0 s.

(** ** scheduler.c *)

Definition scheduler_bootstrap (ok1 ok2 : bool) : res (queue Z) :=
  match q_create ok1 ok2 32 with Some q => Ok q | None => Panic end.

Definition scheduler_preallocate (ok : nat -> bool) (s : ksys) (nthreads : Z)
    : res (Z * ksys) :=
  _ ← assert (k_curspl s >? 0);
  '(e, q) ← q_preallocate ok (k_runqueue s) nthreads;
  Ok (e, with_runqueue q s).

Fixpoint scheduler_killall_loop (fuel : nat) (s : ksys) : res ksys :=
  match fuel with
  | O => Fuel
  | S fuel =>
      if q_empty (k_runqueue s) then Ok s
      else
        '(x, q) ← q_remhead (k_runqueue s);
        t ← cell x;
        _ ← get_thread s t;
        scheduler_killall_loop fuel (with_runqueue q s)
  end.

Definition scheduler_killall (s : ksys) : res ksys :=
  _ ← assert (k_curspl s >? 0);
  scheduler_killall_loop (S (Z.to_nat (q_getsize (k_runqueue s)))) s.

Definition scheduler_shutdown (s : ksys) : res ksys :=
  s ← scheduler_killall s;
  _ ← assert (k_curspl s >? 0);
  _ ← q_destroy (k_runqueue s);
  Ok s.

(** [irqs] are the interrupt handlers that run at successive passes of the
    idle loop; [Fuel] is a processor that waits for an interrupt for ever. *)
Fixpoint scheduler_idle (irqs : list (ksys -> res ksys)) (s : ksys) : res (Z * ksys) :=
  if q_empty (k_runqueue s) then
    match irqs with
    | [] => Fuel
    | irq :: irqs =>
        _ ← assert (k_curspl s >? 0);
        s ← irq s;
        scheduler_idle irqs s
    end
  else
    '(x, q) ← q_remhead (k_runqueue s);
    t ← cell x;
    Ok (t, with_runqueue q s).

Definition scheduler (irqs : list (ksys -> res ksys)) (s : ksys) : res (Z * ksys) :=
  _ ← assert (k_curspl s >? 0);
  scheduler_idle irqs s.

Definition make_runnable (ok : nat -> bool) (s : ksys) (t : Z) : res (Z * ksys) :=
  _ ← assert (k_curspl s >? 0);
  '(e, q) ← q_addtail ok (k_runqueue s) t;
  Ok (e, with_runqueue q s).

(** ** thread.c *)

Definition stack_magic : list Z := [174; 17; 218; 51].

(** [p] is the address [kmalloc] gives for the structure; [okname] its answer
    for the copy of the name. *)
Definition thread_create (p : option Z) (okname : bool) (s : ksys) : option (Z * ksys) :=
  match p with
  | None => None
  | Some t =>
      if okname
      then Some (t, with_threads (<[t := mk_thread 0 None 0 None None Ctx_start]> (k_threads s)) s)
      else None
  end.

Definition ptr_eqb (p : option Z) (t : Z) : bool := bool_decide (p = Some t).
Definition is_null {X} (p : option X) : bool :=
  match p with None => true | Some _ => false end.

Definition thread_destroy (s : ksys) (t : Z) : res ksys :=
  _ ← assert (negb (ptr_eqb (k_curthread s) t));
  th ← get_thread s t;
  _ ← assert (is_null (t_vmspace th));
  _ ← assert (is_null (t_cwd th));
  Ok (with_threads (delete t (k_threads s)) s).

Fixpoint exorcise_loop (n : nat) (i : Z) (s : ksys) : res ksys :=
  match n with
  | O => Ok s
  | S n =>
      x ← array_getguy (k_zombies s) i;
      z ← cell x;
      _ ← assert (negb (ptr_eqb (k_curthread s) z));
      s ← thread_destroy s z;
      exorcise_loop n (i + 1) s
  end.

Definition exorcise (s : ksys) : res ksys :=
  _ ← assert (k_curspl s >? 0);
  s ← exorcise_loop (Z.to_nat (array_getnum (k_zombies s))) 0 s;
  '(result, a) ← array_setsize false (k_zombies s) 0;
  _ ← assert (result =? 0);
  Ok (with_zombies a s).

Fixpoint killall_loop (n : nat) (i : Z) (s : ksys) : res unit :=
  match n with
  | O => Ok tt
  | S n =>
      x ← array_getguy (k_sleepers s) i;
      t ← cell x;
      _ ← get_thread s t;
      killall_loop n (i + 1) s
  end.

Definition thread_killall (s : ksys) : res ksys :=
  _ ← assert (k_curspl s >? 0);
  _ ← killall_loop (Z.to_nat (array_getnum (k_sleepers s))) 0 s;
  '(result, a) ← array_setsize false (k_sleepers s) 0;
  _ ← assert (result =? 0);
  Ok (with_sleepers a s).

Definition thread_panic (s : ksys) : res ksys :=
  _ ← assert (k_curspl s >? 0);
  s ← thread_killall s;
  scheduler_killall s.

(** The magic number on the bottom end of the stack. *)
Definition check_magic (th : thread) : res unit :=
  match t_stack th with
  | None => Ok tt
  | Some b => assert (bool_decide (take 4 b = stack_magic))
  end.

(** [mi_switch] up to [md_switch], which saves the context [ctx] of the
    current thread; [None] is the early return when the scheduler is already
    running. *)
Definition mi_switch (ok : nat -> bool) (irqs : list (ksys -> res ksys))
    (nextstate : threadstate) (ctx : context) (s : ksys) : res (option ksys) :=
  _ ← assert (k_curspl s >? 0);
  match k_curthread s with
  | None => Ok None
  | Some cur =>
      th ← get_thread s cur;
      _ ← check_magic th;
      let s := with_curthread None s in
      '(result, s) ←
        match nextstate with
        | S_READY => make_runnable ok s cur
        | S_SLEEP => '(e, a) ← array_add (ok 0%nat) (k_sleepers s) cur;
                     Ok (e, with_sleepers a s)
        | S_ZOMB => '(e, a) ← array_add (ok 0%nat) (k_zombies s) cur;
                    Ok (e, with_zombies a s)
        | S_RUN => Panic
        end;
      _ ← assert (result =? 0);
      '(next, s) ← scheduler irqs s;
      Ok (Some (upd_thread cur (set_pcb ctx) (with_curthread (Some next) s)))
  end.

(** What the thread switched to runs first: [mi_threadstart] up to the call
    of the thread's function, or the end of [mi_switch] and of the function
    that called it.  ([as_activate] changes only the TLB.) *)
Definition resume (s : ksys) : res ksys :=
  cur ← get_cur s;
  th ← get_thread s cur;
  match t_pcb th with
  | Ctx_start => Ok (snd (spl0 s))
  | Ctx_yield spl => s ← exorcise s; Ok (snd (splx spl s))
  | Ctx_sleep => s ← exorcise s; Ok (upd_thread cur (set_sleepaddr 0) s)
  | Ctx_exit => _ ← exorcise s; Panic
  end.

(** The clean-up in [thread_exit]: the pid manager, the address space, the
    current directory. *)
Definition exit_cleanup (cur : Z) (th : thread) (s : ksys) : res ksys :=
  '(_, e) ← env_pid_exit (k_env s) (t_pid th) 0;
  let s := with_env e s in
  s ← match t_vmspace th with
      | Some a =>
          let s := upd_thread cur drop_vmspace s in
          e ← env_as_destroy (k_env s) a; Ok (with_env e s)
      | None => Ok s
      end;
  match t_cwd th with
  | Some v =>
      e ← env_decref (k_env s) v;
      Ok (upd_thread cur drop_cwd (with_env e s))
  | None => Ok s
  end.

Definition thread_exit (ok : nat -> bool) (irqs : list (ksys -> res ksys)) (s : ksys)
    : res ksys :=
  cur ← get_cur s;
  th ← get_thread s cur;
  _ ← check_magic th;
  let s := snd (splhigh s) in
  s ← exit_cleanup cur th s;
  _ ← assert (k_numthreads s >? 0);
  let s := with_numthreads (k_numthreads s - 1) s in
  r ← mi_switch ok irqs S_ZOMB Ctx_exit s;
  match r with Some s => resume s | None => Panic end.

Definition thread_yield (ok : nat -> bool) (irqs : list (ksys -> res ksys)) (s : ksys)
    : res ksys :=
  let '(spl, s) := splhigh s in
  r ← mi_switch ok irqs S_READY (Ctx_yield spl) s;
  match r with Some s => resume s | None => Ok (snd (splx spl s)) end.

Definition thread_sleep (ok : nat -> bool) (irqs : list (ksys -> res ksys))
    (addr : Z) (s : ksys) : res ksys :=
  _ ← assert (k_in_interrupt s =? 0);
  cur ← get_cur s;
  _ ← get_thread s cur;
  r ← mi_switch ok irqs S_SLEEP Ctx_sleep (upd_thread cur (set_sleepaddr addr) s);
  match r with Some s => resume s | None => Undef end.

(** The loop shared by [thread_wakeup] ([one = false]) and
    [thread_wake_one] ([one = true], the [break] after the first). *)
Fixpoint wakeup_loop (fuel : nat) (one : bool) (ok : nat -> nat -> bool) (addr i : Z)
    (s : ksys) : res ksys :=
  match fuel with
  | O => Fuel
  | S fuel =>
      if i <? array_getnum (k_sleepers s) then
        x ← array_getguy (k_sleepers s) i;
        t ← cell x;
        th ← get_thread s t;
        if t_sleepaddr th =? addr then
          a ← array_remove (k_sleepers s) i;
          '(result, s) ← make_runnable (ok fuel) (with_sleepers a s) t;
          _ ← assert (result =? 0);
          if one then Ok s else wakeup_loop fuel one ok addr i s
        else wakeup_loop fuel one ok addr (i + 1) s
      else Ok s
  end.

Definition thread_wakeup (ok : nat -> nat -> bool) (addr : Z) (s : ksys) : res ksys :=
  _ ← assert (k_curspl s >? 0);
  wakeup_loop (S (Z.to_nat (array_getnum (k_sleepers s)))) false ok addr 0 s.

Definition thread_wake_one (ok : nat -> nat -> bool) (addr : Z) (s : ksys) : res ksys :=
  _ ← assert (k_curspl s >? 0);
  wakeup_loop (S (Z.to_nat (array_getnum (k_sleepers s)))) true ok addr 0 s.

Fixpoint hassleepers_loop (n : nat) (addr i : Z) (s : ksys) : res bool :=
  match n with
  | O => Ok false
  | S n =>
      x ← array_getguy (k_sleepers s) i;
      t ← cell x;
      th ← get_thread s t;
      if t_sleepaddr th =? addr then Ok true else hassleepers_loop n addr (i + 1) s
  end.

Definition thread_hassleepers (addr : Z) (s : ksys) : res bool :=
  _ ← assert (k_curspl s >? 0);
  hassleepers_loop (Z.to_nat (array_getnum (k_sleepers s))) addr 0 s.

(** The calls of [thread_fork] that make sure there is enough space, and the
    one that makes the new thread runnable; the first error ends them. *)
Definition fork_reserve (oks : nat -> bool) (s : ksys) (newguy : Z) : res (Z * ksys) :=
  '(result, a) ← array_preallocate (oks 2%nat) (k_sleepers s) (k_numthreads s + 1);
  let s := with_sleepers a s in
  if negb (result =? 0) then Ok (result, s)
  else
    '(result, a) ← array_preallocate (oks 3%nat) (k_zombies s) (k_numthreads s + 1);
    let s := with_zombies a s in
    if negb (result =? 0) then Ok (result, s)
    else
      '(result, s) ← scheduler_preallocate (fun d => oks (4 + d)%nat) s
                       (k_numthreads s + 1);
      if negb (result =? 0) then Ok (result, s)
      else make_runnable (fun d => oks (8 + d)%nat) s newguy.

(** The [fail:] label; [cwd] is [newguy->t_cwd]. *)
Definition fork_fail (newguy : Z) (cwd : option Z) (spl result : Z) (s : ksys)
    : res (Z * option Z * ksys) :=
  let s := snd (splx spl s) in
  e ← match cwd with
      | Some v => env_decref (k_env s) v
      | None => Ok (k_env s)
      end;
  Ok (result, None, with_threads (delete newguy (k_threads s)) (with_env e s)).

(** [p] and [oks 0], [oks 1] are the answers of [kmalloc] for the thread
    structure, its name and its stack; [oks 2 ..] those of the calls that
    preallocate and queue. *)
Definition thread_fork (p : option Z) (oks : nat -> bool) (s : ksys)
    : res (Z * option Z * ksys) :=
  match thread_create p (oks 0%nat) s with
  | None => Ok (ENOMEM, None, s)
  | Some (newguy, s1) =>
      if negb (oks 1%nat)
      then Ok (ENOMEM, None, with_threads (delete newguy (k_threads s1)) s1)
      else
        cur ← get_cur s1;
        curth ← get_thread s1 cur;
        (* inherit the current directory *)
        e ← match t_cwd curth with
            | Some v => env_incref (k_env s1) v
            | None => Ok (k_env s1)
            end;
        let s1 := with_threads
          (<[newguy := mk_thread 0 (Some stack_magic) 0 None (t_cwd curth) Ctx_start]>
             (k_threads s1)) (with_env e s1) in
        let '(spl, s1) := splhigh s1 in
        '(result, pid, e) ← env_pid_add (k_env s1) (t_pid curth);
        let s1 := upd_thread newguy (set_pid pid) (with_env e s1) in
        if negb (result =? 0) then fork_fail newguy (t_cwd curth) spl result s1
        else
          '(result, s1) ← fork_reserve oks s1 newguy;
          if negb (result =? 0) then fork_fail newguy (t_cwd curth) spl result s1
          else
            let s1 := with_numthreads (k_numthreads s1 + 1) s1 in
            Ok (0, Some newguy, snd (splx spl s1))
  end.

(** [thread_bootstrap] and [scheduler_bootstrap], which main.c calls before
    it: the first thread is running and is all there is. *)
Definition thread_bootstrap (me : option Z) (oks : nat -> bool) (e : E) : res ksys :=
  q ← scheduler_bootstrap (oks 0%nat) (oks 1%nat);
  match array_create (oks 2%nat), array_create (oks 3%nat) with
  | Some sl, Some zo =>
      match thread_create me (oks 4%nat) (mk_ksys ∅ None sl zo 0 q SPL_HIGH 0 e) with
      | None => Panic
      | Some (t, s) =>
          let s := with_numthreads 1 (with_curthread (Some t) s) in
          '(_, pid, e) ← env_pid_add (k_env s) 0;
          let s := upd_thread t (set_pid pid) (with_env e s) in
          if pid =? 0 then Panic else Ok s
      end
  | _, _ => Panic
  end.

(** hardclock.c: the timer interrupt, with the counter of ticks.  [lbolt] is
    the address that [thread_wakeup] is called on once a second. *)
Definition HZ : Z := 100.

Definition hardclock (lbolt : Z) (ok : nat -> nat -> bool) (ok' : nat -> bool)
    (irqs : list (ksys -> res ksys)) (counter : Z) (s : ksys) : res (Z * ksys) :=
  let counter := i32 (counter + 1) in
  '(counter, s) ←
    (if counter >=? HZ then s ← thread_wakeup ok lbolt s; Ok (0, s) else Ok (counter, s));
  s ← thread_yield ok' irqs s;
  Ok (counter, s).

(** ** Invariant and abstract view

    [live] are the threads that count in [numthreads], [zs] the dead ones. *)

(** Every thread has a 4096-byte stack in the 512 MB that the kernel
    addresses directly. *)
Definition max_threads : Z := 131072.

Definition thread_ok (th : thread) : Prop :=
  check_magic th = Ok tt /\ t_pcb th <> Ctx_exit.

Record acct (live zs : list Z) (m : gmap Z thread) (n : Z) : Prop := {
  ac_nodup : NoDup (live ++ zs);
  ac_dom : forall t, t ∈ live ++ zs <-> is_Some (m !! t);
  ac_num : n = Z.of_nat (length live);
  ac_max : Z.of_nat (length (live ++ zs)) <= max_threads;
  ac_live : forall t th, t ∈ live -> m !! t = Some th -> thread_ok th;
  ac_dead : forall t th, t ∈ zs -> m !! t = Some th ->
    t_vmspace th = None /\ t_cwd th = None;
}.

Definition rq_holds (q : queue Z) (l : list Z) : Prop :=
  q_rep q l /\ q_size q <= 2 * (max_threads + 2).

Definition k_live (s : ksys) (rq sl : list Z) : list Z :=
  option_list (k_curthread s) ++ rq ++ sl.

(** The kernel's threads are the current one, the ready ones [rq] in the
    order of the run queue, the sleeping ones [sl] and the dead ones [zs]. *)
Definition k_inv (s : ksys) (rq sl zs : list Z) : Prop :=
  rq_holds (k_runqueue s) rq /\ holds (k_sleepers s) sl /\ holds (k_zombies s) zs /\
  acct (k_live s rq sl) zs (k_threads s) (k_numthreads s).

(** The space that [thread_fork] reserves in [sleepers]. *)
Definition k_reserved (s : ksys) : Prop := k_numthreads s <= arr_max (k_sleepers s).

Definition sleeps_on (m : gmap Z thread) (addr t : Z) : Prop :=
  t_sleepaddr <$> m !! t = Some addr.
(** Thread [t] is asleep on [addr]. *)
Definition asleep (s : ksys) (t addr : Z) : Prop :=
  Some t ∈ arr_list (k_sleepers s) /\ sleeps_on (k_threads s) addr t.

(** Nobody has gone to sleep, and the other subsystems are as they were. *)
Definition fewer (s s' : ksys) : Prop :=
  k_env s' = k_env s /\ forall t addr, asleep s' t addr -> asleep s t addr.
Global Instance sleeps_on_dec m addr t : Decision (sleeps_on m addr t) :=
  decide (t_sleepaddr <$> m !! t = Some addr).
End sched.
Arguments ksys E : clear implicits.

Ltac perm := unfold k_live; simpl; solve_Permutation.

(** ** Accounting *)

Lemma acct_move live live' zs m n :
  acct live zs m n -> live ≡ₚ live' -> acct live' zs m n.
Proof.
  intros [] Hp. split; try done.
  - by rewrite <- Hp.
  - intros t. by rewrite <- Hp.
  - by rewrite <- Hp.
  - by rewrite <- Hp.
  - intros t th. rewrite <- Hp. eauto.
Qed.

Lemma acct_upd live zs m n t f :
  acct live zs m n ->
  (forall th, m !! t = Some th -> t ∈ live -> thread_ok th -> thread_ok (f th)) ->
  (forall th, t_vmspace (f th) = t_vmspace th /\ t_cwd (f th) = t_cwd th) ->
  acct live zs (alter f t m) n.
Proof.
  intros [] Hok Hsame. split; try done.
  - intros u. rewrite lookup_alter_is_Some. done.
  - intros u th Hu. rewrite lookup_alter_Some.
    intros [(<- & th' & H & ->)|[_ H]]; eauto.
  - intros u th Hu. rewrite lookup_alter_Some.
    intros [(<- & th' & H & ->)|[_ H]]; [|eauto].
    destruct (Hsame th') as [-> ->]. eauto.
Qed.

(** The dead are destroyed. *)
Lemma acct_exorcise live zs m n :
  acct live zs m n -> acct live [] (filter (fun p => p.1 ∉ zs) m) n.
Proof.
  intros [Hnd Hdom Hnum Hmax Hlive Hdead]. apply NoDup_app in Hnd as (Hl & Hdis & Hz).
  rewrite length_app in Hmax.
  split; rewrite ?app_nil_r; try done; try lia.
  - intros t. unfold is_Some. setoid_rewrite map_lookup_filter_Some. simpl. split.
    + intros Ht. destruct (proj1 (Hdom t)) as [th Hth]; [by apply elem_of_app; left|].
      exists th. split; [done|]. by apply Hdis.
    + intros (th & Hth & Ht). by pose proof (proj2 (Hdom t) (ex_intro _ th Hth)) as [?|?]%elem_of_app.
  - intros t th Ht [Hth _]%map_lookup_filter_Some. eauto.
  - intros t th Ht. by apply not_elem_of_nil in Ht.
Qed.

Section facts.
Context {E : Type} {HE : SchedEnv E}.
Implicit Types (s : ksys E) (rq sl zs : list Z) (t : Z).

(** ** scheduler.c *)

Lemma rq_holds_num (q : queue Z) l : rq_holds q l -> 0 < q_size q.
Proof. intros [[(? & _) _] _]. lia. Qed.

Lemma make_runnable_spec ok s rq t :
  rq_holds (k_runqueue s) rq -> 0 < k_curspl s ->
  Z.of_nat (length rq) < max_threads ->
  (exists q, make_runnable ok s t = Ok (0, with_runqueue q s) /\ rq_holds q (rq ++ [t]) /\
     q_size (k_runqueue s) <= q_size q) \/
  (ok 1%nat = false /\ Z.of_nat (length rq) + 1 = q_size (k_runqueue s) /\
     make_runnable ok s t = Ok (ENOMEM, s)).
Proof.
  intros [Hrep Hsz] Hspl Hlen. unfold make_runnable. pass_assert. unfold max_threads in *.
  destruct (q_addtail_spec ok (k_runqueue s) rq t Hrep) as
    [(q & -> & Hrep' & Hq & Hroom)|(? & ? & ->)]; [unfold q_limit; lia| |].
  - left. exists q. rewrite bind_Ok. split; [done|]. split; [|lia]. split; [done|].
    pose proof (q_rep_room _ _ Hrep). unfold max_threads.
    destruct (decide (Z.of_nat (length rq) + 1 < q_size (k_runqueue s))); lia.
  - right. rewrite bind_Ok. by destruct s.
Qed.

Lemma make_runnable_room ok s rq t :
  rq_holds (k_runqueue s) rq -> 0 < k_curspl s ->
  Z.of_nat (length rq) + 1 < q_size (k_runqueue s) ->
  exists q, make_runnable ok s t = Ok (0, with_runqueue q s) /\ rq_holds q (rq ++ [t]) /\
     q_size q = q_size (k_runqueue s).
Proof.
  intros [Hrep Hsz] Hspl Hlen. unfold make_runnable. pass_assert.
  destruct (q_addtail_room 1 ok (k_runqueue s) rq t Hrep Hlen) as (q & Hq & ? & Hs).
  unfold q_addtail. rewrite Hq, bind_Ok. exists q. unfold rq_holds. by rewrite Hs.
Qed.

(** With a thread ready, the scheduler takes the head of the run queue at
    once. *)
Lemma scheduler_ready irqs s t rq :
  rq_holds (k_runqueue s) (t :: rq) -> 0 < k_curspl s ->
  exists q, scheduler irqs s = Ok (t, with_runqueue q s) /\ rq_holds q rq /\
    q_size q = q_size (k_runqueue s).
Proof.
  intros [Hrep Hsz] Hspl. unfold scheduler. pass_assert.
  assert (q_empty (k_runqueue s) = false) as He.
  { pose proof (q_rep_empty _ _ Hrep). destruct (q_empty _); [|done]. naive_solver. }
  destruct irqs; cbn [scheduler_idle]; rewrite He;
    destruct (q_remhead_spec _ _ _ Hrep) as (q & -> & ? & Hs); rewrite bind_Ok;
    exists q; unfold rq_holds; by rewrite Hs.
Qed.

(** ** exorcise *)

Lemma exorcise_loop_spec rest : forall pre s,
  holds (k_zombies s) (pre ++ rest) -> NoDup rest ->
  (forall t, t ∈ rest -> k_curthread s <> Some t /\
     exists th, k_threads s !! t = Some th /\ t_vmspace th = None /\ t_cwd th = None) ->
  exorcise_loop (length rest) (Z.of_nat (length pre)) s =
    Ok (with_threads (filter (fun p => p.1 ∉ rest) (k_threads s)) s).
Proof.
  induction rest as [|z rest IH]; intros pre s Hz Hnd Hall; cbn [length exorcise_loop].
  - f_equal. destruct s; unfold with_threads; simpl. f_equal.
    symmetry. apply map_filter_id. intros. apply not_elem_of_nil.
  - apply NoDup_cons in Hnd as [Hzr Hnd].
    destruct (Hall z) as (Hcur & th & Hth & Hv & Hc); [by left|].
    rewrite (holds_get _ _ _ _ Hz), bind_Ok. cbn [cell]. rewrite bind_Ok.
    unfold thread_destroy, ptr_eqb, get_thread.
    rewrite bool_decide_false by done. cbn [negb assert]. rewrite !bind_Ok, Hth, bind_Ok.
    rewrite Hv, Hc. cbn [is_null assert]. rewrite !bind_Ok.
    replace (Z.of_nat (length pre) + 1) with (Z.of_nat (length (pre ++ [z])))
      by (rewrite length_app; simpl; lia).
    rewrite IH; simpl.
    + f_equal. unfold with_threads; simpl. f_equal. apply map_eq. intros t.
      apply option_eq. intros x. rewrite !map_lookup_filter_Some, lookup_delete_Some. simpl.
      set_solver.
    + by rewrite <- app_assoc.
    + done.
    + intros t Ht. destruct (Hall t) as (? & th' & ? & ?); [by right|].
      split; [done|]. exists th'. rewrite lookup_delete_ne by set_solver. done.
Qed.

Lemma exorcise_spec s rq sl zs :
  k_inv s rq sl zs -> 0 < k_curspl s ->
  exists a, exorcise s = Ok (with_zombies a (with_threads
      (filter (fun p => p.1 ∉ zs) (k_threads s)) s)) /\
    k_inv (with_zombies a (with_threads (filter (fun p => p.1 ∉ zs) (k_threads s)) s))
      rq sl [].
Proof.
  intros (Hrq & Hsl & Hzs & Hac) Hspl. unfold exorcise. pass_assert.
  unfold array_getnum. rewrite (holds_num _ _ Hzs), Nat2Z.id.
  pose proof Hac as [Hnd Hdom _ _ _ Hdead]. apply NoDup_app in Hnd as (_ & Hdis & Hndz).
  pose proof (exorcise_loop_spec zs [] s Hzs Hndz) as Hex.
  change (Z.of_nat (length (@nil Z))) with 0 in Hex. rewrite Hex.
  - rewrite bind_Ok. simpl k_zombies. destruct (holds_clear false _ _ Hzs) as (a & -> & Ha).
    rewrite bind_Ok. cbn [Z.eqb assert]. rewrite bind_Ok. exists a. split; [done|].
    split; [done|]. split; [done|]. split; [done|]. by apply acct_exorcise.
  - intros t Ht. split.
    + intros Hc. apply (Hdis t); [|done]. unfold k_live. rewrite Hc. set_solver.
    + destruct (proj1 (Hdom t)) as [th Hth]; [by apply elem_of_app; right|]. eauto.
Qed.

(** ** Context switch *)

Lemma k_inv_thread s rq sl zs t :
  k_inv s rq sl zs -> t ∈ k_live s rq sl ->
  exists th, get_thread s t = Ok th /\ k_threads s !! t = Some th /\ thread_ok th.
Proof.
  intros (_ & _ & _ & Hac) Ht. destruct Hac as [_ Hdom _ _ Hlive _].
  destruct (proj1 (Hdom t)) as [th Hth]; [by apply elem_of_app; left|].
  exists th. unfold get_thread. rewrite Hth. eauto.
Qed.

Lemma k_inv_upd s rq sl zs t f :
  k_inv s rq sl zs ->
  (forall th, thread_ok th -> thread_ok (f th)) ->
  (forall th, t_vmspace (f th) = t_vmspace th /\ t_cwd (f th) = t_cwd th) ->
  k_inv (upd_thread t f s) rq sl zs.
Proof.
  intros (? & ? & ? & Hac) Hf Hs. unfold k_inv; simpl.
  split; [done|]. split; [done|]. split; [done|]. apply acct_upd; eauto.
Qed.

Lemma sleepaddr_ok a th : thread_ok th -> thread_ok (set_sleepaddr a th).
Proof. by destruct th. Qed.
Lemma pcb_ok c th : c <> Ctx_exit -> thread_ok th -> thread_ok (set_pcb c th).
Proof. destruct th. intros ? []. by split. Qed.

(** The parts of the state a resumed thread does not touch on its way. *)
Definition same_queues s s' : Prop :=
  k_curthread s' = k_curthread s /\ k_sleepers s' = k_sleepers s /\
  k_runqueue s' = k_runqueue s /\ k_numthreads s' = k_numthreads s /\
  k_in_interrupt s' = k_in_interrupt s /\ k_env s' = k_env s.

Global Instance fewer_preorder : PreOrder (@fewer E).
Proof.
  split; [by intros s|]. intros s1 s2 s3 [He1 H1] [He2 H2].
  split; [by rewrite He2|auto].
Qed.

Lemma fewer_exorcise s a zs :
  fewer s (with_zombies a (with_threads (filter (fun p => p.1 ∉ zs) (k_threads s)) s)).
Proof.
  split; [done|]. intros t addr [Hin Hon]. split; [done|]. unfold sleeps_on in *.
  apply fmap_Some in Hon as (th & [Hth _]%map_lookup_filter_Some & ->). by rewrite Hth.
Qed.

Lemma sleeps_on_alter f m c addr t :
  (forall th, t_sleepaddr (f th) = t_sleepaddr th) ->
  sleeps_on (alter f c m) addr t <-> sleeps_on m addr t.
Proof.
  intros Hf. unfold sleeps_on. rewrite lookup_alter. case_decide; [subst|done].
  destruct (m !! t); simpl; [by rewrite Hf|done].
Qed.

(** A thread that is not asleep may change its own sleep address. *)
Lemma fewer_upd s c f sl :
  holds (k_sleepers s) sl -> c ∉ sl -> fewer s (upd_thread c f s).
Proof.
  intros Hsl Hc. split; [done|]. intros t addr [Hin Hon]. split; [done|].
  apply (holds_elem _ _ _ Hsl) in Hin. unfold sleeps_on in *. simpl in *.
  by rewrite lookup_alter_ne in Hon by (intros ->; done).
Qed.

Lemma k_inv_cur_awake s rq sl zs c :
  k_inv s rq sl zs -> k_curthread s = Some c -> c ∉ sl.
Proof.
  intros (_ & _ & _ & [Hnd _ _ _ _ _]) Hc Hin. unfold k_live in Hnd. rewrite Hc in Hnd.
  simpl in Hnd. apply NoDup_cons in Hnd as [Hn _]. apply Hn. rewrite !elem_of_app. auto.
Qed.

Lemma resume_spec s rq sl zs c :
  k_inv s rq sl zs -> k_curthread s = Some c -> 0 < k_curspl s ->
  exists s', resume s = Ok s' /\ same_queues s s' /\ fewer s s' /\
    exists zs', k_inv s' rq sl zs' /\ (zs' = zs \/ zs' = []).
Proof.
  intros Hinv Hc Hspl. unfold resume, get_cur. rewrite Hc, bind_Ok.
  destruct (k_inv_thread s rq sl zs c Hinv) as (th & -> & Hth & _ & Hpcb).
  { unfold k_live. rewrite Hc. set_solver. }
  rewrite bind_Ok. destruct (exorcise_spec s rq sl zs Hinv Hspl) as (a & Hex & Hinv').
  pose proof (fewer_exorcise s a zs) as Hfew.
  destruct (t_pcb th) as [|spl| |]; [| | |done]; rewrite ?Hex, ?bind_Ok.
  - eexists; split; [done|]. split; [done|]. split; [done|]. exists zs. by split; [|left].
  - eexists; split; [done|]. split; [done|]. split; [done|]. exists []. by split; [|right].
  - eexists; split; [done|]. split; [done|]. split.
    + etrans; [exact Hfew|]. eapply fewer_upd; [apply Hinv'|]. by eapply k_inv_cur_awake.
    + exists []. split; [|by right]. by apply k_inv_upd; [|apply sleepaddr_ok|intros []].
Qed.

(** The end of [mi_switch], once the current thread is on its list: [next] is
    taken from a run queue that is not empty, and runs. *)
Lemma switch_to_spec irqs s c ctx next rq sl zs :
  k_inv s (next :: rq) sl zs -> k_curthread s = None -> 0 < k_curspl s ->
  ctx <> Ctx_exit \/ c ∈ zs ->
  exists s1, ('(next, s) ← scheduler irqs s;
    Ok (Some (upd_thread c (set_pcb ctx) (with_curthread (Some next) s)))) = Ok (Some s1) /\
    exists s', resume s1 = Ok s' /\ k_curthread s' = Some next /\
      k_sleepers s' = k_sleepers s /\ q_size (k_runqueue s') = q_size (k_runqueue s) /\
      k_numthreads s' = k_numthreads s /\ k_in_interrupt s' = k_in_interrupt s /\
      fewer s s' /\
      exists zs', k_inv s' rq sl zs' /\ (zs' = zs \/ zs' = []).
Proof.
  intros (Hrq & Hsl & Hzs & Hac) Hnone Hspl Hctx.
  destruct (scheduler_ready irqs s next rq Hrq Hspl) as (q & -> & Hq & Hsz).
  rewrite bind_Ok. eexists; split; [done|].
  destruct (resume_spec (upd_thread c (set_pcb ctx)
    (with_curthread (Some next) (with_runqueue q s))) rq sl zs next)
    as (s' & -> & (Hc & Hsl' & Hq' & Hn & Hi & He) & Hfew & zs' & Hinv' & Hzs');
    [|done|done|].
  - split; [done|]. split; [done|]. split; [done|]. unfold k_live in *. rewrite Hnone in Hac.
    simpl in Hac |- *. apply acct_upd; [done| |by intros []].
    intros th _ Hlive Hok. apply pcb_ok; [|done]. destruct Hctx as [|Hz]; [done|].
    destruct Hac as [Hnd _ _ _ _ _]. apply NoDup_app in Hnd as (_ & Hdis & _).
    by destruct (Hdis c).
  - exists s'. simpl in *. split; [done|]. rewrite Hc, Hsl', Hq', Hn, Hi.
    split_and!; try done; [|eauto]. etrans; [|exact Hfew].
    split; [done|]. intros t addr [Hin Hon]. split; [done|].
    simpl in Hon. by rewrite sleeps_on_alter in Hon.
Qed.



(** [thread_yield] puts the caller at the end of the run queue and runs the
    head; only a full run queue can make it fail, and only without memory. *)
Lemma thread_yield_spec ok irqs s c rq sl zs :
  k_inv s rq sl zs -> k_curthread s = Some c ->
  (exists s' next rest, thread_yield ok irqs s = Ok s' /\ rq ++ [c] = next :: rest /\
     k_curthread s' = Some next /\ k_sleepers s' = k_sleepers s /\
     k_numthreads s' = k_numthreads s /\ k_in_interrupt s' = k_in_interrupt s /\
     fewer s s' /\ q_size (k_runqueue s) <= q_size (k_runqueue s') /\
     exists zs', k_inv s' rest sl zs' /\ (zs' = zs \/ zs' = [])) \/
  (ok 1%nat = false /\ Z.of_nat (length rq) + 1 = q_size (k_runqueue s) /\
     thread_yield ok irqs s = Panic).
Proof.
  intros Hinv Hc. pose proof Hinv as (Hrq & Hsl & Hzs & Hac).
  destruct (k_inv_thread s rq sl zs c Hinv) as (th & Hg & Hth & Hmag & _).
  { unfold k_live. rewrite Hc. set_solver. }
  pose proof (ac_max _ _ _ _ Hac) as Hmax.
  unfold k_live in Hmax. rewrite Hc, !length_app in Hmax. simpl in Hmax.
  unfold thread_yield, splhigh, splx, mi_switch. pass_assert.
  unfold get_thread in Hg |- *. simpl k_curthread. rewrite Hc. simpl k_threads.
  rewrite Hg, bind_Ok, Hmag, bind_Ok. simpl with_curthread.
  set (s0 := with_curthread None (with_spl SPL_HIGH s)).
  destruct (make_runnable_spec ok s0 rq c Hrq) as [(q & Hr & Hq & Hsz)|(Hok & Hfull & Hr)];
    [done|lia| |].
  - rewrite Hr, bind_Ok. cbn [Z.eqb assert]. rewrite bind_Ok. left.
    destruct (rq ++ [c]) as [|next rest] eqn:Erest; [by destruct rq|].
    destruct (switch_to_spec irqs (with_runqueue q s0) c (Ctx_yield (k_curspl s)) next rest
      sl zs) as (s1 & -> & s' & Hres & Hc' & Hsl' & Hq' & Hn & Hi & He & Hz);
      [|done|done|by left|].
    { split; [done|]. split; [done|]. split; [done|]. eapply acct_move; [exact Hac|].
      unfold k_live; simpl. rewrite Hc, app_comm_cons, <- Erest. perm. }
    exists s', next, rest. rewrite bind_Ok, Hres. simpl in Hq'. rewrite Hq'. done.
  - right. rewrite Hr, bind_Ok. done.
Qed.

(** [thread_sleep] with a thread ready: whatever [kmalloc] answers, the space
    [thread_fork] reserved is enough. *)
Lemma thread_sleep_spec ok irqs addr s c next rq sl zs :
  k_inv s (next :: rq) sl zs -> k_curthread s = Some c -> k_reserved s ->
  k_in_interrupt s = 0 -> 0 < k_curspl s ->
  exists s', thread_sleep ok irqs addr s = Ok s' /\ k_curthread s' = Some next /\
    k_numthreads s' = k_numthreads s /\ k_reserved s' /\
    exists zs', k_inv s' rq (sl ++ [c]) zs' /\ (zs' = zs \/ zs' = []).
Proof.
  intros Hinv Hc Hres Hint Hspl. pose proof Hinv as (Hrq & Hsl & Hzs & Hac).
  destruct (k_inv_thread s (next :: rq) sl zs c Hinv) as (th & Hg & Hth & Hok).
  { unfold k_live. rewrite Hc. set_solver. }
  pose proof (ac_num _ _ _ _ Hac) as Hnum. unfold k_live in Hnum.
  rewrite Hc, !length_app in Hnum. simpl in Hnum. unfold k_reserved in Hres.
  destruct (holds_add_room (ok 0%nat) _ _ c Hsl) as (a & Ha & Hsl' & Hm); [lia|].
  unfold thread_sleep. rewrite Hint. cbn [Z.eqb assert]. rewrite bind_Ok.
  unfold get_cur. rewrite Hc, bind_Ok, Hg, bind_Ok. unfold mi_switch.
  simpl k_curspl. pass_assert. simpl k_curthread. rewrite Hc.
  unfold get_thread; simpl k_threads. rewrite lookup_alter_eq, Hth. simpl.
  destruct Hok as [Hmag Hpcb]. unfold check_magic in *. simpl. rewrite Hmag, bind_Ok.
  rewrite Ha, !bind_Ok. cbn [Z.eqb assert]. rewrite bind_Ok.
  set (s0 := with_sleepers a (with_curthread None (upd_thread c (set_sleepaddr addr) s))).
  destruct (switch_to_spec irqs s0 c Ctx_sleep next rq (sl ++ [c]) zs)
    as (s1 & Hs1 & s' & Hs' & Hc' & Hsl1 & _ & Hn & _ & _ & Hz); [|done|done|by left|].
  - split; [done|]. split; [done|]. split; [done|].
    apply acct_upd; [|intros; by apply sleepaddr_ok|by intros []].
    eapply acct_move; [exact Hac|]. unfold k_live; simpl. rewrite Hc. perm.
  - simpl in Hs1. rewrite Hs1, bind_Ok. exists s'. rewrite Hs'. split_and!; try done.
    unfold k_reserved. rewrite Hsl1, Hn. simpl. by rewrite Hm.
Qed.

(** ** thread_wakeup *)

Lemma wakeup_end fuel one ok addr i s sl :
  holds (k_sleepers s) sl -> i = Z.of_nat (length sl) ->
  wakeup_loop (S fuel) one ok addr i s = Ok s.
Proof.
  intros Hsl ->. cbn [wakeup_loop]. unfold array_getnum. rewrite (holds_num _ _ Hsl).
  by rewrite Z.ltb_irrefl.
Qed.

Lemma wakeup_miss fuel one ok addr s pre t post :
  holds (k_sleepers s) (pre ++ t :: post) -> is_Some (k_threads s !! t) ->
  ~ sleeps_on (k_threads s) addr t ->
  wakeup_loop (S fuel) one ok addr (Z.of_nat (length pre)) s =
  wakeup_loop fuel one ok addr (Z.of_nat (length (pre ++ [t]))) s.
Proof.
  intros Hsl [th Hth] Hn. cbn [wakeup_loop]. unfold array_getnum.
  rewrite (holds_num _ _ Hsl), !length_app. simpl.
  replace (Z.of_nat (length pre) + 1) with (Z.of_nat (length pre + 1)) by lia.
  destruct (Z.ltb_spec (Z.of_nat (length pre)) (Z.of_nat (length pre + S (length post))));
    [|lia].
  rewrite (holds_get _ _ _ _ Hsl), bind_Ok. simpl. unfold get_thread. rewrite Hth, bind_Ok.
  destruct (Z.eqb_spec (t_sleepaddr th) addr) as [Ha|]; [|done].
  destruct Hn. unfold sleeps_on. rewrite Hth. simpl. by rewrite Ha.
Qed.

Lemma wakeup_hit fuel one ok addr s pre t post :
  holds (k_sleepers s) (pre ++ t :: post) -> sleeps_on (k_threads s) addr t ->
  exists a, holds a (pre ++ post) /\ arr_max a = arr_max (k_sleepers s) /\
    wakeup_loop (S fuel) one ok addr (Z.of_nat (length pre)) s =
    ('(result, s) ← make_runnable (ok fuel) (with_sleepers a s) t;
     _ ← assert (result =? 0);
     if one then Ok s else wakeup_loop fuel one ok addr (Z.of_nat (length pre)) s).
Proof.
  intros Hsl Hon. destruct (holds_remove _ _ _ _ Hsl) as (a & Ha & Hsl' & Hm).
  exists a. split; [done|]. split; [done|]. cbn [wakeup_loop]. unfold array_getnum.
  rewrite (holds_num _ _ Hsl), length_app. simpl.
  destruct (Z.ltb_spec (Z.of_nat (length pre)) (Z.of_nat (length pre + S (length post))));
    [|lia].
  rewrite (holds_get _ _ _ _ Hsl), bind_Ok. simpl. unfold sleeps_on in Hon.
  apply fmap_Some in Hon as (th & Hth & ->). unfold get_thread. rewrite Hth, bind_Ok.
  rewrite Z.eqb_refl, Ha. done.
Qed.

Lemma wakeup_all_spec ok addr post : forall fuel pre rq s,
  holds (k_sleepers s) (pre ++ post) -> rq_holds (k_runqueue s) rq -> 0 < k_curspl s ->
  Z.of_nat (length rq + length post) <= max_threads ->
  (forall t, t ∈ post -> is_Some (k_threads s !! t)) -> (length post < fuel)%nat ->
  (exists a q, wakeup_loop fuel false ok addr (Z.of_nat (length pre)) s =
       Ok (with_runqueue q (with_sleepers a s)) /\
     holds a (pre ++ filter (fun t => ~ sleeps_on (k_threads s) addr t) post) /\
     rq_holds q (rq ++ filter (sleeps_on (k_threads s) addr) post) /\
     arr_max a = arr_max (k_sleepers s) /\ q_size (k_runqueue s) <= q_size q) \/
  (wakeup_loop fuel false ok addr (Z.of_nat (length pre)) s = Panic /\
     (exists d, ok d 1%nat = false) /\
     q_size (k_runqueue s) <=
       Z.of_nat (length rq + length (filter (sleeps_on (k_threads s) addr) post))).
Proof.
  induction post as [|t post IH];
    intros fuel pre rq s Hsl Hrq Hspl Hmax Hdom Hfuel; (destruct fuel as [|fuel]; [lia|]).
  - left. rewrite app_nil_r in Hsl. exists (k_sleepers s), (k_runqueue s).
    rewrite (wakeup_end _ _ _ _ _ _ pre) by done. rewrite !filter_nil, !app_nil_r.
    split_and!; try done. by destruct s.
  - simpl in Hmax, Hfuel. destruct (decide (sleeps_on (k_threads s) addr t)) as [Hon|Hoff].
    + rewrite (filter_cons_True (sleeps_on _ _)), (filter_cons_False (fun _ => ~ _)) by naive_solver.
      destruct (wakeup_hit fuel false ok addr s pre t post Hsl Hon) as (a & Ha & Hm & ->).
      destruct (make_runnable_spec (ok fuel) (with_sleepers a s) rq t Hrq Hspl)
        as [(q & -> & Hq & Hsz)|(Hok & Hfull & ->)]; [lia| |].
      * rewrite bind_Ok. cbn [Z.eqb assert]. rewrite bind_Ok.
        destruct (IH fuel pre (rq ++ [t]) (with_runqueue q (with_sleepers a s)))
          as [(a' & q' & -> & ? & Hq' & Hm' & Hs')|(-> & ? & ?)]; simpl in *; try done; try lia.
        { rewrite length_app. simpl. lia. }
        { intros u Hu. apply Hdom. by right. }
        -- left. exists a', q'. rewrite <- app_assoc in Hq'. split_and!; try done; [congruence|lia].
        -- right. rewrite length_app in H0. simpl in *. split_and!; try done. lia.
      * right. rewrite bind_Ok. simpl in Hfull. split; [done|]. split; [eauto|]. simpl. lia.
    + rewrite (filter_cons_False (sleeps_on _ _)), (filter_cons_True (fun _ => ~ _)) by done.
      rewrite (wakeup_miss fuel false ok addr s pre t post) by (try done; apply Hdom; by left).
      destruct (IH fuel (pre ++ [t]) rq s) as [(a' & q' & -> & Hx & ?)|(-> & ?)];
        try done; try lia.
      { by rewrite <- app_assoc. }
      { intros u Hu. apply Hdom. by right. }
      * left. exists a', q'. rewrite <- app_assoc in Hx. done.
      * by right.
Qed.

Lemma k_inv_dom s rq sl zs t :
  k_inv s rq sl zs -> t ∈ sl -> is_Some (k_threads s !! t).
Proof.
  intros (_ & _ & _ & Hac) Ht. apply (ac_dom _ _ _ _ Hac).
  unfold k_live. rewrite !elem_of_app. auto.
Qed.

Lemma k_inv_lengths s rq sl zs :
  k_inv s rq sl zs ->
  Z.of_nat (length (option_list (k_curthread s)) + length rq + length sl) = k_numthreads s /\
  Z.of_nat (length (option_list (k_curthread s)) + length rq + length sl + length zs)
    <= max_threads.
Proof.
  intros (_ & _ & _ & [_ _ Hn Hm _ _]). unfold k_live in *.
  rewrite !length_app in *. lia.
Qed.

Lemma filter_split_perm (P : Z -> Prop) `{forall x, Decision (P x)} (l : list Z) :
  l ≡ₚ filter P l ++ filter (fun x => ~ P x) l.
Proof.
  induction l as [|x l IH]; [done|]. destruct (decide (P x)).
  - rewrite (filter_cons_True P), (filter_cons_False (fun _ => ~ _)) by naive_solver.
    simpl. by rewrite <- IH.
  - rewrite (filter_cons_False P), (filter_cons_True (fun _ => ~ _)) by done.
    rewrite <- Permutation_middle. by rewrite <- IH.
Qed.

(** [thread_wakeup] moves exactly the threads that sleep on [addr], in the
    order they went to sleep, to the end of the run queue. *)
Lemma thread_wakeup_spec ok addr s rq sl zs :
  k_inv s rq sl zs -> 0 < k_curspl s ->
  (exists a q, thread_wakeup ok addr s = Ok (with_runqueue q (with_sleepers a s)) /\
     arr_max a = arr_max (k_sleepers s) /\ q_size (k_runqueue s) <= q_size q /\
     k_inv (with_runqueue q (with_sleepers a s))
       (rq ++ filter (sleeps_on (k_threads s) addr) sl)
       (filter (fun t => ~ sleeps_on (k_threads s) addr t) sl) zs) \/
  (thread_wakeup ok addr s = Panic /\ (exists d, ok d 1%nat = false) /\
     q_size (k_runqueue s) <=
       Z.of_nat (length rq + length (filter (sleeps_on (k_threads s) addr) sl))).
Proof.
  intros Hinv Hspl. pose proof (k_inv_lengths _ _ _ _ Hinv) as [_ Hmax].
  pose proof Hinv as (Hrq & Hsl & Hzs & Hac). unfold thread_wakeup. pass_assert.
  unfold array_getnum. rewrite (holds_num _ _ Hsl), Nat2Z.id.
  pose proof (wakeup_all_spec ok addr sl (S (length sl)) [] rq s Hsl Hrq Hspl) as Hw.
  change (Z.of_nat (length (@nil Z))) with 0 in Hw.
  destruct Hw as [(a & q & -> & Ha & Hq & Hm & Hsz)|(-> & ? & ?)]; [lia|by eauto using k_inv_dom|lia| |].
  - left. exists a, q. split; [done|]. split; [done|]. split; [done|].
    split; [done|]. split; [done|]. split; [done|]. eapply acct_move; [exact Hac|].
    unfold k_live; simpl.
    rewrite (filter_split_perm (sleeps_on (k_threads s) addr) sl) at 1.
    by rewrite <- app_assoc.
  - by right.
Qed.

Lemma wakeup_one_spec ok addr post : forall fuel pre rq s,
  holds (k_sleepers s) (pre ++ post) -> rq_holds (k_runqueue s) rq -> 0 < k_curspl s ->
  Z.of_nat (length rq) < max_threads ->
  (forall t, t ∈ post -> is_Some (k_threads s !! t)) -> (length post < fuel)%nat ->
  (filter (sleeps_on (k_threads s) addr) post = [] /\
     wakeup_loop fuel true ok addr (Z.of_nat (length pre)) s = Ok s) \/
  (exists l1 t l2, post = l1 ++ t :: l2 /\ sleeps_on (k_threads s) addr t /\
     filter (sleeps_on (k_threads s) addr) l1 = [] /\
     ((exists a q, wakeup_loop fuel true ok addr (Z.of_nat (length pre)) s =
         Ok (with_runqueue q (with_sleepers a s)) /\
       holds a (pre ++ l1 ++ l2) /\ rq_holds q (rq ++ [t]) /\
       arr_max a = arr_max (k_sleepers s) /\ q_size (k_runqueue s) <= q_size q) \/
      (wakeup_loop fuel true ok addr (Z.of_nat (length pre)) s = Panic /\
         (exists d, ok d 1%nat = false) /\
         q_size (k_runqueue s) = Z.of_nat (length rq) + 1))).
Proof.
  induction post as [|t post IH];
    intros fuel pre rq s Hsl Hrq Hspl Hmax Hdom Hfuel; (destruct fuel as [|fuel]; [lia|]).
  - left. rewrite app_nil_r in Hsl. by rewrite (wakeup_end _ _ _ _ _ _ pre).
  - simpl in Hfuel. destruct (decide (sleeps_on (k_threads s) addr t)) as [Hon|Hoff].
    + right. exists [], t, post. split; [done|]. split; [done|]. split; [done|].
      destruct (wakeup_hit fuel true ok addr s pre t post Hsl Hon) as (a & Ha & Hm & ->).
      destruct (make_runnable_spec (ok fuel) (with_sleepers a s) rq t Hrq Hspl)
        as [(q & -> & Hq & Hsz)|(Hok & Hfull & ->)]; [lia| |].
      * left. rewrite bind_Ok. cbn [Z.eqb assert]. rewrite bind_Ok. eauto 8.
      * right. rewrite bind_Ok. simpl in Hfull. split; [done|]. eauto.
    + rewrite (filter_cons_False (sleeps_on _ _)) by done.
      rewrite (wakeup_miss fuel true ok addr s pre t post) by (try done; apply Hdom; by left).
      destruct (IH fuel (pre ++ [t]) rq s) as [?|(l1 & u & l2 & -> & Hu & Hl1 & Hcase)];
        try done; try lia.
      { by rewrite <- app_assoc. }
      { intros u Hu. apply Hdom. by right. }
      * by left.
      * right. exists (t :: l1), u, l2. split; [done|]. split; [done|].
        rewrite (filter_cons_False (sleeps_on _ _)) by done. split; [done|].
        destruct Hcase as [(a & q & ? & Ha & ?)|?]; [left|by right].
        exists a, q. rewrite <- app_assoc in Ha. done.
Qed.

(** [thread_wake_one] moves the thread that has slept longest on [addr], if
    there is one. *)
Lemma thread_wake_one_spec ok addr s rq sl zs :
  k_inv s rq sl zs -> 0 < k_curspl s ->
  (filter (sleeps_on (k_threads s) addr) sl = [] /\ thread_wake_one ok addr s = Ok s) \/
  (exists l1 t l2, sl = l1 ++ t :: l2 /\ sleeps_on (k_threads s) addr t /\
     filter (sleeps_on (k_threads s) addr) l1 = [] /\
     ((exists a q, thread_wake_one ok addr s = Ok (with_runqueue q (with_sleepers a s)) /\
         arr_max a = arr_max (k_sleepers s) /\
         k_inv (with_runqueue q (with_sleepers a s)) (rq ++ [t]) (l1 ++ l2) zs) \/
      (thread_wake_one ok addr s = Panic /\ (exists d, ok d 1%nat = false) /\
         q_size (k_runqueue s) = Z.of_nat (length rq) + 1))).
Proof.
  intros Hinv Hspl. pose proof (k_inv_lengths _ _ _ _ Hinv) as [_ Hmax].
  pose proof Hinv as (Hrq & Hsl & Hzs & Hac). unfold thread_wake_one. pass_assert.
  unfold array_getnum. rewrite (holds_num _ _ Hsl), Nat2Z.id.
  destruct (decide (sl = [])) as [->|Hne].
  { left. split; [done|]. by apply (wakeup_end _ _ _ _ _ _ []). }
  assert (0 < length sl)%nat by (destruct sl; [done|simpl; lia]).
  pose proof (wakeup_one_spec ok addr sl (S (length sl)) [] rq s Hsl Hrq Hspl) as Hw.
  change (Z.of_nat (length (@nil Z))) with 0 in Hw.
  destruct Hw as [?|(l1 & t & l2 & -> & Ht & Hl1 & Hcase)];
    [lia|by eauto using k_inv_dom|lia|by left|].
  right. exists l1, t, l2. split; [done|]. split; [done|]. split; [done|].
  destruct Hcase as [(a & q & -> & Ha & Hq & Hm & _)|?]; [left|by right].
  exists a, q. split; [done|]. split; [done|].
  split; [done|]. split; [done|]. split; [done|]. eapply acct_move; [exact Hac|].
  unfold k_live; simpl. perm.
Qed.
End facts.
