(* ===== verification/SchedInv.v ===== *)
(** * The thread system under interleaving

    The operations of Sched.v as the steps of a transition system: calls by
    any thread, in any order, with any answers of [kmalloc] and any interrupt
    handlers while the processor idles.  What a client of the thread system
    (synch.c) needs to know about who is asleep is a relation [J] between
    the sleepers and the state of the other subsystems; the lemmas carry any
    such relation through a context switch. *)
From stdpp Require Import base numbers list option gmap.
From S2P Require Import Prelude KArray Queue Sched.
Local Open Scope Z_scope.

Section inter.
Context {E : Type} {HE : SchedEnv E}.
Implicit Types (s : ksys E) (rq sl zs : list Z) (t : Z).

(** A client's invariant: a relation that waking threads up cannot break. *)
Class Client (J : (Z -> Z -> Prop) -> E -> Prop) : Prop :=
  client_mono : forall (A A' : Z -> Z -> Prop) e,
    (forall t a, A' t a -> A t a) -> J A e -> J A' e.

Definition keeps (J : (Z -> Z -> Prop) -> E -> Prop) (s : ksys E) : Prop :=
  J (asleep s) (k_env s).

Lemma keeps_fewer J `{!Client J} s s' : fewer s s' -> keeps J s -> keeps J s'.
Proof. intros [He Hf] H. unfold keeps. rewrite He. by eapply client_mono. Qed.

(** The client that asks for nothing. *)
Definition anything (A : Z -> Z -> Prop) (e : E) : Prop := True.
Global Instance anything_client : Client anything.
Proof. done. Qed.

(** ** Interrupts

    What an interrupt handler may do while the scheduler idles: it runs
    without a current thread and with interrupts off, and only moves threads
    between the sleepers and the run queue, keeping the client's invariant. *)
Definition irq_ok (J : (Z -> Z -> Prop) -> E -> Prop) (irq : ksys E -> res (ksys E)) : Prop :=
  forall s s' rq sl zs,
    k_inv s rq sl zs -> k_curthread s = None -> 0 < k_curspl s -> keeps J s ->
    irq s = Ok s' ->
    k_curthread s' = None /\ 0 < k_curspl s' /\ k_numthreads s' = k_numthreads s /\
    arr_max (k_sleepers s') = arr_max (k_sleepers s) /\ keeps J s' /\
    exists rq' sl', k_inv s' rq' sl' zs.

Lemma wakeup_inv ok addr s s' rq sl zs :
  k_inv s rq sl zs -> thread_wakeup ok addr s = Ok s' ->
  k_curthread s' = k_curthread s /\ k_curspl s' = k_curspl s /\
  k_numthreads s' = k_numthreads s /\ k_in_interrupt s' = k_in_interrupt s /\
  arr_max (k_sleepers s') = arr_max (k_sleepers s) /\ k_threads s' = k_threads s /\
  fewer s s' /\ (forall t, ~ asleep s' t addr) /\ exists rq' sl', k_inv s' rq' sl' zs.
Proof.
  intros Hinv H. assert (0 < k_curspl s) as Hspl.
  { unfold thread_wakeup in H. inv_ok. by apply Z.gtb_lt. }
  destruct (thread_wakeup_spec ok addr s rq sl zs Hinv Hspl)
    as [(a & q & Hw & Hm & _ & Hinv')|(Hw & _)]; rewrite Hw in H; inv_ok.
  pose proof Hinv as (_ & Hsl & _). pose proof Hinv' as (_ & Hsl' & _).
  split_and!; eauto.
  - split; [done|]. intros t b [Hin Hon]. split; [|done].
    apply (holds_elem _ _ _ Hsl') in Hin. apply (holds_elem _ _ _ Hsl).
    by apply list_elem_of_filter in Hin as [_ ?].
  - intros t [Hin Hon]. apply (holds_elem _ _ _ Hsl') in Hin.
    by apply list_elem_of_filter in Hin as [? _].
Qed.

Lemma wake_one_inv ok addr s s' rq sl zs :
  k_inv s rq sl zs -> thread_wake_one ok addr s = Ok s' ->
  k_curthread s' = k_curthread s /\ k_curspl s' = k_curspl s /\
  k_numthreads s' = k_numthreads s /\ k_in_interrupt s' = k_in_interrupt s /\
  arr_max (k_sleepers s') = arr_max (k_sleepers s) /\ k_threads s' = k_threads s /\
  fewer s s' /\ exists rq' sl', k_inv s' rq' sl' zs.
Proof.
  intros Hinv H. assert (0 < k_curspl s) as Hspl.
  { unfold thread_wake_one in H. inv_ok. by apply Z.gtb_lt. }
  destruct (thread_wake_one_spec ok addr s rq sl zs Hinv Hspl)
    as [(_ & Hw)|(l1 & t & l2 & -> & _ & _ & [(a & q & Hw & Hm & Hinv')|(Hw & _)])];
    rewrite Hw in H; inv_ok; [by split_and!; eauto|].
  pose proof Hinv as (_ & Hsl & _). pose proof Hinv' as (_ & Hsl' & _).
  split_and!; eauto. split; [done|]. intros u b [Hin Hon]. split; [|done].
  apply (holds_elem _ _ _ Hsl') in Hin. apply (holds_elem _ _ _ Hsl). set_solver.
Qed.

Lemma thread_wakeup_irq J `{!Client J} ok addr : irq_ok J (thread_wakeup ok addr).
Proof.
  intros s s' rq sl zs Hinv Hc Hspl HJ H.
  destruct (wakeup_inv ok addr s s' rq sl zs Hinv H)
    as (-> & -> & -> & _ & -> & _ & Hfew & _ & Hex).
  split_and!; try done. by eapply keeps_fewer.
Qed.

Lemma hardclock_irq J `{!Client J} lbolt ok ok' irqs counter :
  irq_ok J (fun s => '(_, s) ← hardclock lbolt ok ok' irqs counter s; Ok s).
Proof.
  intros s s' rq sl zs Hinv Hc Hspl HJ H. unfold hardclock in H. inv_ok.
  assert (exists s1 rq' sl', thread_yield ok' irqs s1 = Ok s' /\ k_inv s1 rq' sl' zs /\
    k_curthread s1 = None /\ 0 < k_curspl s1 /\ k_numthreads s1 = k_numthreads s /\
    arr_max (k_sleepers s1) = arr_max (k_sleepers s) /\ keeps J s1)
    as (s1 & rq' & sl' & Hy & Hinv' & Hc' & Hspl' & Hn & Hm & HJ').
  { destruct (_ >=? HZ); inv_ok; [|by eauto 12].
    match goal with Hw : thread_wakeup _ _ _ = _ |- _ =>
      destruct (thread_wakeup_irq J ok lbolt s _ rq sl zs Hinv Hc Hspl HJ Hw)
        as (? & ? & ? & ? & ? & ? & ? & ?) end. eauto 12. }
  unfold thread_yield, splhigh, splx, mi_switch in Hy. simpl in Hy. rewrite Hc' in Hy.
  simpl in Hy. inv_ok. destruct s1; simpl in *. split_and!; try done.
  by exists rq', sl'.
Qed.

Lemma scheduler_take_inv irqs s rq sl zs next s' :
  k_inv s rq sl zs -> k_curthread s = None -> 0 < k_curspl s ->
  q_empty (k_runqueue s) = false -> scheduler_idle irqs s = Ok (next, s') ->
  0 < k_curspl s' /\ k_numthreads s' = k_numthreads s /\
  arr_max (k_sleepers s') = arr_max (k_sleepers s) /\
  fewer s (with_curthread (Some next) s') /\
  exists rq' sl', k_inv (with_curthread (Some next) s') rq' sl' zs.
Proof.
  intros Hinv Hc Hspl He H. pose proof Hinv as (Hrq & Hsl & Hzs & Hac).
  destruct rq as [|x rq]; [by rewrite (proj2 (q_rep_empty _ _ (proj1 Hrq))) in He|].
  destruct (scheduler_ready irqs s x rq Hrq Hspl) as (q & Hs & Hq & _).
  unfold scheduler in Hs. rewrite assert_true, bind_Ok in Hs by zbool.
  rewrite Hs in H. inv_ok. split_and!; try done. exists rq, sl.
  split; [done|]. split; [done|]. split; [done|]. eapply acct_move; [exact Hac|].
  unfold k_live; simpl. rewrite Hc. perm.
Qed.

Lemma scheduler_inv J `{!Client J} irqs : Forall (irq_ok J) irqs ->
  forall s rq sl zs next s',
  k_inv s rq sl zs -> k_curthread s = None -> 0 < k_curspl s -> keeps J s ->
  scheduler_idle irqs s = Ok (next, s') ->
  0 < k_curspl s' /\ k_numthreads s' = k_numthreads s /\
  arr_max (k_sleepers s') = arr_max (k_sleepers s) /\
  keeps J (with_curthread (Some next) s') /\
  exists rq' sl', k_inv (with_curthread (Some next) s') rq' sl' zs.
Proof.
  induction irqs as [|irq irqs IH]; intros Hall s rq sl zs next s' Hinv Hc Hspl HJ H;
    (destruct (q_empty (k_runqueue s)) eqn:He; [cbn [scheduler_idle] in H; rewrite He in H
     |destruct (scheduler_take_inv _ _ _ _ _ _ _ Hinv Hc Hspl He H) as (? & ? & ? & ? & ?);
      split_and!; eauto using keeps_fewer]).
  - done.
  - inv_ok. apply Forall_cons in Hall as [Hirq Hall].
    match goal with Hi : irq s = Ok ?r |- _ =>
      destruct (Hirq s r rq sl zs Hinv Hc Hspl HJ Hi)
        as (Hc' & Hspl' & Hn & Hm & HJ' & rq' & sl' & Hinv');
      destruct (IH Hall r rq' sl' zs next s' Hinv' Hc' Hspl' HJ' H) as (? & ? & ? & ? & ?) end.
    split_and!; try done; congruence.
Qed.

(** From the point where the caller is on its list to the point where the
    next thread runs its own code. *)
Lemma switch_from_inv J `{!Client J} d irqs s c ctx rq sl zs s' :
  Forall (irq_ok J) irqs -> k_inv s rq sl zs -> k_curthread s = None -> 0 < k_curspl s ->
  ctx <> Ctx_exit \/ c ∈ zs -> keeps J s ->
  (r ← ('(next, s) ← scheduler irqs s;
        Ok (Some (upd_thread c (set_pcb ctx) (with_curthread (Some next) s))));
   match r with Some s => resume s | None => d end) = Ok s' ->
  is_Some (k_curthread s') /\ k_numthreads s' = k_numthreads s /\
  arr_max (k_sleepers s') = arr_max (k_sleepers s) /\ keeps J s' /\
  exists rq' sl' zs', k_inv s' rq' sl' zs'.
Proof.
  intros Hall Hinv Hnone Hspl Hctx HJ H. unfold scheduler in H. inv_ok.
  match goal with Hi : scheduler_idle _ _ = Ok (?r, ?k) |- _ =>
    destruct (scheduler_inv J irqs Hall s rq sl zs r k Hinv Hnone Hspl HJ Hi)
      as (Hspl' & Hn & Hm & HJ' & rq' & sl' & Hinv');
    destruct (resume_spec (upd_thread c (set_pcb ctx) (with_curthread (Some r) k))
      rq' sl' zs r) as (s1 & Hres & (Hc1 & Hs1 & _ & Hn1 & _) & Hfew & zs' & Hinv1 & _)
  end; [|done|done|].
  - destruct Hinv' as (? & ? & ? & Hac). split; [done|]. split; [done|]. split; [done|].
    simpl in *. apply acct_upd; [done| |by intros []].
    intros th _ Hlive Hok. apply pcb_ok; [|done]. destruct Hctx as [|Hz]; [done|].
    destruct Hac as [Hnd _ _ _ _ _]. apply NoDup_app in Hnd as (_ & Hdis & _).
    by destruct (Hdis c).
  - rewrite Hres in H. inv_ok. rewrite Hc1, Hs1, Hn1. simpl.
    split_and!; eauto. eapply keeps_fewer; [done|exact Hfew|].
    eapply keeps_fewer; [done| |exact HJ'].
    split; [done|]. intros t a [Hin Hon]. split; [done|]. simpl in Hon.
    by rewrite sleeps_on_alter in Hon.
Qed.

Lemma yield_inv ok irqs s c rq sl zs s' :
  k_inv s rq sl zs -> k_curthread s = Some c -> thread_yield ok irqs s = Ok s' ->
  is_Some (k_curthread s') /\ k_numthreads s' = k_numthreads s /\
  k_sleepers s' = k_sleepers s /\ fewer s s' /\
  exists rq' sl' zs', k_inv s' rq' sl' zs'.
Proof.
  intros Hinv Hc H.
  destruct (thread_yield_spec ok irqs s c rq sl zs Hinv Hc)
    as [(s1 & next & rest & Hy & _ & Hc1 & Hs & Hn & _ & ? & _ & zs' & Hinv' & _)|(_ & _ & Hy)];
    rewrite Hy in H; inv_ok.
  rewrite Hc1. split_and!; eauto.
Qed.

(** [mi_switch] of a thread whose stack is intact. *)
Lemma mi_switch_eq ok irqs nextstate ctx s c th :
  0 < k_curspl s -> k_curthread s = Some c -> k_threads s !! c = Some th ->
  check_magic th = Ok tt ->
  mi_switch ok irqs nextstate ctx s =
    ('(result, s) ←
       match nextstate with
       | S_READY => make_runnable ok (with_curthread None s) c
       | S_SLEEP => '(e, a) ← array_add (ok 0%nat) (k_sleepers s) c;
                    Ok (e, with_sleepers a (with_curthread None s))
       | S_ZOMB => '(e, a) ← array_add (ok 0%nat) (k_zombies s) c;
                   Ok (e, with_zombies a (with_curthread None s))
       | S_RUN => Panic
       end;
     _ ← assert (result =? 0);
     '(next, s) ← scheduler irqs s;
     Ok (Some (upd_thread c (set_pcb ctx) (with_curthread (Some next) s)))).
Proof.
  intros Hspl Hc Hth Hmag. unfold mi_switch. pass_assert. rewrite Hc.
  unfold get_thread. by rewrite Hth, bind_Ok, Hmag, bind_Ok.
Qed.

(** Adding the caller to [sleepers]: no memory is needed if there is space. *)
Lemma sleepers_add ok s c sl r a :
  holds (k_sleepers s) sl -> Z.of_nat (length sl) < max_threads ->
  array_add ok (k_sleepers s) c = Ok (r, a) ->
  (r = 0 \/ r = ENOMEM) /\ (r = 0 -> holds a (sl ++ [c])) /\
  (Z.of_nat (length sl) < arr_max (k_sleepers s) -> arr_max a = arr_max (k_sleepers s)).
Proof.
  intros Hsl Hmax H. unfold max_threads in Hmax.
  destruct (decide (Z.of_nat (length sl) < arr_max (k_sleepers s))) as [Hr|Hr].
  - destruct (holds_add_room ok _ _ c Hsl Hr) as (a' & Ha & ? & ?).
    rewrite H in Ha. injection Ha as -> ->. auto.
  - destruct (holds_add ok _ _ c Hsl) as [(a' & Ha & ?)|(_ & Ha)];
      [unfold arr_limit; lia| |]; rewrite H in Ha; injection Ha as -> ->;
      (split; [auto|split; [done|lia]]).
Qed.

Lemma sleep_inv J `{!Client J} ok irqs addr s c rq sl zs s' :
  Forall (irq_ok J) irqs -> k_inv s rq sl zs -> k_curthread s = Some c ->
  J (fun t a => asleep s t a \/ (t = c /\ a = addr)) (k_env s) ->
  thread_sleep ok irqs addr s = Ok s' ->
  is_Some (k_curthread s') /\ (k_reserved s -> k_reserved s') /\ keeps J s' /\
  exists rq' sl' zs', k_inv s' rq' sl' zs'.
Proof.
  intros Hall Hinv Hc HJ H. pose proof Hinv as (Hrq & Hsl & Hzs & Hac).
  destruct (k_inv_lengths _ _ _ _ Hinv) as [Hnum Hmax]. rewrite Hc in Hnum, Hmax.
  simpl in Hnum, Hmax. unfold max_threads in Hmax.
  destruct (k_inv_thread s rq sl zs c Hinv) as (th & Hg & Hth & Hmag & _).
  { unfold k_live. rewrite Hc. set_solver. }
  unfold thread_sleep in H. apply bind_Ok_inv in H as ([] & _ & H).
  unfold get_cur in H. rewrite Hc, bind_Ok, Hg, bind_Ok in H.
  set (s0 := upd_thread c (set_sleepaddr addr) s) in *.
  destruct (decide (0 < k_curspl s)) as [Hspl|Hspl].
  2:{ unfold mi_switch in H. simpl in H. destruct (Z.gtb_spec (k_curspl s) 0); [lia|done]. }
  rewrite (mi_switch_eq _ _ _ _ s0 c (set_sleepaddr addr th)) in H;
    [|done|done|by simpl; rewrite lookup_alter_eq, Hth|by destruct th].
  destruct (array_add (ok 0%nat) (k_sleepers s0) c) as [[r a]| | |] eqn:Ha; try done.
  destruct (sleepers_add (ok 0%nat) s c sl r a Hsl) as (Hr & Hsl' & Hm); [unfold max_threads; lia|done|].
  rewrite !bind_Ok in H. destruct (Z.eqb_spec r 0) as [->|]; [|done]. cbn [assert] in H.
  rewrite bind_Ok in H. specialize (Hsl' eq_refl).
  apply (switch_from_inv J _ irqs _ c Ctx_sleep rq (sl ++ [c]) zs) in H
    as (? & Hn & Hmm & HJ' & Hex); [|done| |done|done|by left|].
  - split_and!; try done. unfold k_reserved in *. simpl in *. intros Hres.
    rewrite Hn, Hmm, Hm; (done || lia).
  - split; [done|]. split; [done|]. split; [done|].
    apply acct_upd; [|intros; by apply sleepaddr_ok|by intros []].
    eapply acct_move; [exact Hac|]. unfold k_live; simpl. rewrite Hc. perm.
  - unfold keeps. eapply client_mono; [|exact HJ]. intros t x [Hin Hon]. simpl in *.
    apply (holds_elem _ _ _ Hsl') in Hin. unfold sleeps_on in Hon.
    rewrite lookup_alter in Hon. case_decide as Heq.
    + subst t. rewrite Hth in Hon. right. by simplify_eq/=.
    + left. split; [|done]. apply (holds_elem _ _ _ Hsl). set_solver.
Qed.

(** A live thread dies. *)
Lemma acct_die c live zs m n th :
  acct (c :: live) zs m n -> t_vmspace th = None -> t_cwd th = None ->
  acct live (zs ++ [c]) (<[c := th]> m) (n - 1).
Proof.
  intros [Hnd Hdom Hn Hmax Hlive Hdead] Hv Hw.
  assert (c :: live ++ zs ≡ₚ live ++ zs ++ [c]) as Hp by solve_Permutation.
  simpl in Hnd. apply NoDup_cons in Hnd as Hc.
  split.
  - by rewrite <- Hp.
  - intros t. rewrite <- Hp, lookup_insert_is_Some'. rewrite elem_of_cons.
    rewrite <- Hdom. simpl. rewrite elem_of_cons. naive_solver.
  - simpl in Hn. lia.
  - by rewrite <- Hp.
  - intros t th' Ht. rewrite lookup_insert_ne; [apply Hlive; by right|].
    intros ->. destruct Hc as [Hc _]. apply Hc, elem_of_app. by left.
  - intros t th' [Ht|Ht%list_elem_of_singleton]%elem_of_app.
    + rewrite lookup_insert_ne; [by apply Hdead|].
      intros ->. destruct Hc as [Hc _]. apply Hc, elem_of_app. by right.
    + subst t. rewrite lookup_insert_eq. intros [= <-]. done.
Qed.

Lemma alter_as_insert (m : gmap Z thread) c th f :
  m !! c = Some th -> alter f c m = <[c := f th]> m.
Proof.
  intros Hth. apply map_eq. intros t. rewrite lookup_alter, lookup_insert.
  case_decide; [subst; by rewrite Hth|done].
Qed.

Lemma exit_cleanup_inv c th s s' :
  k_threads s !! c = Some th -> exit_cleanup c th s = Ok s' ->
  exists e th', s' = with_env e (with_threads (<[c := th']> (k_threads s)) s) /\
    t_vmspace th' = None /\ t_cwd th' = None /\ check_magic th' = check_magic th.
Proof.
  intros Hth H. unfold exit_cleanup, upd_thread in H. inv_ok.
  destruct (t_vmspace th) eqn:Hv, (t_cwd th) eqn:Hw; inv_ok;
    simpl; rewrite ?(alter_as_insert _ c th _ Hth).
  - rewrite (alter_as_insert _ c (drop_vmspace th)), insert_insert_eq
      by apply lookup_insert_eq.
    by eexists _, (drop_cwd (drop_vmspace th)).
  - by eexists _, (drop_vmspace th).
  - by eexists _, (drop_cwd th).
  - eexists _, th. split; [|done]. rewrite insert_id by done. by destruct s.
Qed.

Lemma exit_inv J `{!Client J} ok irqs s c rq sl zs s' :
  Forall (irq_ok J) irqs -> k_inv s rq sl zs -> k_curthread s = Some c ->
  (forall th s1, exit_cleanup c th (with_spl SPL_HIGH s) = Ok s1 -> J (asleep s) (k_env s1)) ->
  thread_exit ok irqs s = Ok s' ->
  is_Some (k_curthread s') /\ k_numthreads s' = k_numthreads s - 1 /\
  arr_max (k_sleepers s') = arr_max (k_sleepers s) /\ keeps J s' /\
  exists rq' sl' zs', k_inv s' rq' sl' zs'.
Proof.
  intros Hall Hinv Hc HJ H. pose proof Hinv as (Hrq & Hsl & Hzs & Hac).
  destruct (k_inv_lengths _ _ _ _ Hinv) as [Hnum Hmax]. rewrite Hc in Hnum, Hmax.
  simpl in Hnum, Hmax. unfold max_threads in Hmax.
  destruct (k_inv_thread s rq sl zs c Hinv) as (th & Hg & Hth & Hmag & _).
  { unfold k_live. rewrite Hc. set_solver. }
  unfold thread_exit, get_cur in H. rewrite Hc, bind_Ok, Hg, bind_Ok, Hmag, bind_Ok in H.
  apply bind_Ok_inv in H as (s1 & Hcl & H). specialize (HJ th s1 Hcl).
  apply exit_cleanup_inv in Hcl as (e & th' & -> & Hv & Hw & Hmag'); [|done].
  apply bind_Ok_inv in H as ([] & _ & H).
  rewrite (mi_switch_eq _ _ _ _ _ c th') in H;
    [|done|done|apply lookup_insert_eq|by rewrite Hmag'].
  destruct (holds_add (ok 0%nat) (k_zombies s) zs c Hzs) as [(a & Ha & Hzs')|(_ & Ha)];
    [unfold arr_limit; lia| |]; simpl k_zombies in H; rewrite Ha, !bind_Ok in H; [|done].
  cbn [Z.eqb assert] in H. rewrite bind_Ok in H.
  apply (switch_from_inv J _ irqs _ c Ctx_exit rq sl (zs ++ [c])) in H
    as (? & Hn & Hmm & Hex); [done|done| |done|done|right; set_solver|].
  2:{ unfold keeps. eapply client_mono; [|exact HJ]. intros t a' [Hin Hon]. split; [done|].
      unfold sleeps_on in *. simpl in *. rewrite lookup_insert in Hon.
      case_decide; [subst t|done]. exfalso. apply (holds_elem _ _ _ Hsl) in Hin.
      by apply (k_inv_cur_awake _ _ _ _ _ Hinv Hc). }
  split; [done|]. split; [done|]. split; [done|].
  apply acct_die; [|done|done]. eapply acct_move; [exact Hac|].
  unfold k_live; simpl. by rewrite Hc.
Qed.

(** ** thread_fork *)

Lemma sched_preallocate_spec ok s rq n :
  rq_holds (k_runqueue s) rq -> 0 < k_curspl s -> n <= max_threads + 1 ->
  (exists q, scheduler_preallocate ok s n = Ok (0, with_runqueue q s) /\ rq_holds q rq /\
     n <= q_size q) \/
  scheduler_preallocate ok s n = Ok (ENOMEM, s).
Proof.
  intros [Hrep Hsz] Hspl Hn. unfold scheduler_preallocate. pass_assert.
  destruct (q_preallocate_spec ok (k_runqueue s) rq n Hrep)
    as [(q & -> & Hq & ? & ?)|(_ & _ & ->)];
    [unfold q_limit, max_threads in *; lia| |].
  - left. exists q. split; [done|]. split; [|done]. split; [done|]. unfold max_threads in *. lia.
  - right. rewrite bind_Ok. by destruct s.
Qed.

Lemma fork_reserve_spec oks s t rq sl zs :
  rq_holds (k_runqueue s) rq -> holds (k_sleepers s) sl -> holds (k_zombies s) zs ->
  0 < k_curspl s -> k_numthreads s <= max_threads -> Z.of_nat (length rq) < max_threads ->
  exists r a1 a2 q,
    fork_reserve oks s t = Ok (r, with_runqueue q (with_zombies a2 (with_sleepers a1 s))) /\
    holds a1 sl /\ holds a2 zs /\ arr_max (k_sleepers s) <= arr_max a1 /\
    ((r = 0 /\ rq_holds q (rq ++ [t]) /\ k_numthreads s + 1 <= arr_max a1) \/
     (r = ENOMEM /\ rq_holds q rq)).
Proof.
  intros Hrq Hsl Hzs Hspl Hn Hlen. unfold fork_reserve.
  destruct (holds_preallocate (oks 2%nat) _ _ (k_numthreads s + 1) Hsl)
    as [(a1 & -> & H1 & Hm1 & Hm1')|(_ & ->)];
    [unfold arr_limit, max_threads in *; lia| |]; rewrite bind_Ok; cbn.
  2:{ eexists _, (k_sleepers s), (k_zombies s), (k_runqueue s). split_and!; try done.
      by right. }
  destruct (holds_preallocate (oks 3%nat) _ _ (k_numthreads s + 1) Hzs)
    as [(a2 & -> & H2 & _)|(_ & ->)];
    [unfold arr_limit, max_threads in *; lia| |]; rewrite bind_Ok; cbn.
  2:{ eexists _, a1, (k_zombies s), (k_runqueue s). split_and!; try done.
      by right. }
  destruct (sched_preallocate_spec (fun d => oks (4 + d)%nat)
    (with_zombies a2 (with_sleepers a1 s)) rq (k_numthreads s + 1))
    as [(q & Hq & Hrq' & _)|Hq]; [done|done|lia| |]; simpl in Hq; rewrite Hq, bind_Ok; cbn.
  2:{ eexists _, a1, a2, (k_runqueue s). split_and!; try done. by right. }
  destruct (make_runnable_spec (fun d => oks (8 + d)%nat)
    (with_runqueue q (with_zombies a2 (with_sleepers a1 s))) rq t)
    as [(q' & Hq' & Hrq'' & _)|(_ & _ & Hq')]; [done|done|done| |]; simpl in Hq'; rewrite Hq'.
  - exists 0, a1, a2, q'. split_and!; try done. by left.
  - eexists _, a1, a2, q. split_and!; try done. by right.
Qed.

Lemma acct_new t live zs m n th :
  acct live zs m n -> m !! t = None -> thread_ok th ->
  Z.of_nat (length (live ++ zs)) < max_threads ->
  acct (t :: live) zs (<[t := th]> m) (n + 1).
Proof.
  intros [Hnd Hdom Hn Hmax Hlive Hdead] Ht Hok Hroom.
  assert (t ∉ live ++ zs) as Hnew.
  { intros Hin%Hdom. rewrite Ht in Hin. by destruct Hin. }
  split.
  - simpl. by apply NoDup_cons.
  - intros u. simpl. rewrite elem_of_cons, Hdom, lookup_insert_is_Some'. naive_solver.
  - simpl. lia.
  - simpl. lia.
  - intros u th' [->|Hu]%elem_of_cons; [by rewrite lookup_insert_eq; intros [= <-]|].
    rewrite lookup_insert_ne; [by apply Hlive|]. intros ->. apply Hnew, elem_of_app. by left.
  - intros u th' Hu. rewrite lookup_insert_ne; [by apply Hdead|].
    intros ->. apply Hnew, elem_of_app. by right.
Qed.

Lemma fork_fail_inv t cwd spl result s r nt s' :
  fork_fail t cwd spl result s = Ok (r, nt, s') ->
  exists e, r = result /\ nt = None /\
    s' = with_threads (delete t (k_threads s)) (with_env e (with_spl spl s)).
Proof. unfold fork_fail. intros H. destruct cwd; inv_ok; eauto. Qed.

(** A fork that succeeds adds one thread at the end of the run queue and
    leaves room for every thread in [sleepers]; one that fails leaves the
    threads as they were. *)
Lemma thread_fork_inv t oks s r nt s' rq sl zs :
  k_inv s rq sl zs -> k_threads s !! t = None ->
  Z.of_nat (length (k_live s rq sl ++ zs)) < max_threads ->
  thread_fork (Some t) oks s = Ok (r, nt, s') ->
  k_curthread s' = k_curthread s /\
  ((r = 0 /\ nt = Some t /\ k_inv s' (rq ++ [t]) sl zs /\ k_reserved s' /\
      k_numthreads s' = k_numthreads s + 1 /\
      forall u, u <> t -> k_threads s' !! u = k_threads s !! u) \/
   (r <> 0 /\ nt = None /\ k_inv s' rq sl zs /\ k_threads s' = k_threads s /\
      k_numthreads s' = k_numthreads s /\ (k_reserved s -> k_reserved s'))).
Proof.
  intros Hinv Hfresh Hroom H. pose proof Hinv as (Hrq & Hsl & Hzs & Hac).
  destruct (k_inv_lengths _ _ _ _ Hinv) as [Hnum Hmax].
  assert (Z.of_nat (length rq) < max_threads) as Hlrq.
  { unfold k_live in Hroom. rewrite !length_app in Hroom. lia. }
  unfold thread_fork, thread_create in H. destruct (oks 0%nat).
  2:{ inv_ok. split; [done|]. right. by split_and!. }
  destruct (oks 1%nat); simpl in H.
  2:{ inv_ok. split; [done|]. right. unfold k_inv; simpl.
      rewrite delete_insert_id by done. by split_and!. }
  apply bind_Ok_inv in H as (c & _ & H). apply bind_Ok_inv in H as (cth & _ & H).
  apply bind_Ok_inv in H as (e & _ & H).
  apply bind_Ok_inv in H as ([[result pid] e'] & _ & H).
  set (th := mk_thread 0 (Some stack_magic) 0 None (t_cwd cth) Ctx_start) in H.
  set (s1 := upd_thread t _ _) in H.
  assert (k_threads s1 = <[t := set_pid pid th]> (k_threads s)) as Hm1.
  { simpl. rewrite insert_insert_eq. rewrite (alter_as_insert _ t th) by apply lookup_insert_eq.
    by rewrite insert_insert_eq. }
  assert (k_curthread s1 = k_curthread s /\ k_sleepers s1 = k_sleepers s /\
    k_zombies s1 = k_zombies s /\ k_runqueue s1 = k_runqueue s /\
    k_numthreads s1 = k_numthreads s /\ 0 < k_curspl s1) as (Hc1 & Hs1 & Hz1 & Hq1 & Hn1 & Hspl)
    by done.
  clearbody s1. change (k_curspl _) with (k_curspl s) in H.
  unfold k_inv, k_live, k_reserved.
  destruct (Z.eqb_spec result 0) as [->|Hne]; simpl in H.
  2:{ apply fork_fail_inv in H as (e2 & -> & -> & ->). simpl.
      rewrite Hm1, delete_insert_id, Hc1, Hs1, Hz1, Hq1, Hn1 by done.
      split; [done|]. right. by split_and!. }
  destruct (fork_reserve_spec oks s1 t rq sl zs) as
    (r1 & a1 & a2 & q & Hfr & H1 & H2 & Hmax1 & Hcase);
    [by rewrite Hq1|by rewrite Hs1|by rewrite Hz1|done|lia|done|].
  rewrite Hfr, bind_Ok in H. destruct Hcase as [(-> & Hq & Hres)|(-> & Hq)]; simpl in H.
  - inv_ok. simpl. rewrite Hn1 in Hres. rewrite Hm1, Hc1, Hn1.
    split; [done|]. left. split_and!; try done.
    + eapply acct_move; [by apply (acct_new t); [exact Hac|..|by destruct th]|]. perm.
    + intros u Hu. by rewrite lookup_insert_ne.
  - apply fork_fail_inv in H as (e2 & -> & -> & ->). simpl.
    rewrite Hm1, delete_insert_id, Hc1, Hn1 by done. split; [done|]. right.
    split_and!; try done. rewrite Hs1 in Hmax1. lia.
Qed.

(** ** The thread system as a transition system *)

Definition own_thread (f : thread -> thread) : Prop :=
  forall th, t_sleepaddr (f th) = t_sleepaddr th /\ t_stack (f th) = t_stack th /\
    t_pcb (f th) = t_pcb th.

(** One step of the kernel as the thread system sees it: a call of one of its
    functions, with any answers of [kmalloc] and any interrupt handlers while
    it idles; a change of the interrupt level; a change inside another
    subsystem; a change the current thread makes to its own address space or
    directory. *)
Inductive kstep : ksys E -> ksys E -> Prop :=
| kstep_yield ok irqs s s' :
    is_Some (k_curthread s) -> thread_yield ok irqs s = Ok s' -> kstep s s'
| kstep_sleep ok irqs addr s s' :
    Forall (irq_ok anything) irqs -> thread_sleep ok irqs addr s = Ok s' -> kstep s s'
| kstep_exit ok irqs s s' :
    Forall (irq_ok anything) irqs -> thread_exit ok irqs s = Ok s' -> kstep s s'
| kstep_wakeup ok addr s s' : thread_wakeup ok addr s = Ok s' -> kstep s s'
| kstep_wake_one ok addr s s' : thread_wake_one ok addr s = Ok s' -> kstep s s'
| kstep_fork p oks s r nt s' :
    (forall t, p = Some t -> k_threads s !! t = None) ->
    Z.of_nat (size (k_threads s)) < max_threads ->
    thread_fork p oks s = Ok (r, nt, s') -> kstep s s'
| kstep_spl n s : kstep s (with_spl n s)
| kstep_env e s : kstep s (with_env e s)
| kstep_own c f s :
    k_curthread s = Some c -> own_thread f -> kstep s (upd_thread c f s).

Lemma acct_size live zs m n : acct live zs m n -> size m = length (live ++ zs).
Proof.
  intros [Hnd Hdom _ _ _ _]. rewrite <- size_dom.
  rewrite <- (size_list_to_set (C := gset Z) (live ++ zs)) by done. f_equal.
  apply set_eq. intros t. rewrite elem_of_dom, elem_of_list_to_set. by rewrite Hdom.
Qed.

Definition k_running (s : ksys E) : Prop :=
  is_Some (k_curthread s) /\ exists rq sl zs, k_inv s rq sl zs.

Lemma own_inv s c f :
  k_running s -> k_curthread s = Some c -> own_thread f -> k_running (upd_thread c f s).
Proof.
  intros (Hcur & rq & sl & zs & Hrq & Hsl & Hzs & Hac) Hc Hf. split; [done|].
  exists rq, sl, zs. split; [done|]. split; [done|]. split; [done|].
  destruct Hac as [Hnd Hdom Hn Hmax Hlive Hdead]. split; simpl; try done.
  - intros t. by rewrite lookup_alter_is_Some.
  - intros t th Ht. rewrite lookup_alter_Some. intros [(<- & th' & H & ->)|[_ H]]; [|eauto].
    destruct (Hf th') as (_ & Hs & Hp), (Hlive c th') as [Hmag Hpcb]; [done|done|].
    split; [|by rewrite Hp]. unfold check_magic in *. by rewrite Hs.
  - intros t th Ht. rewrite lookup_alter_Some. intros [(<- & th' & H & ->)|[_ H]]; [|eauto].
    apply NoDup_app in Hnd as (_ & Hdis & _). destruct (Hdis c); [|done].
    unfold k_live; simpl. rewrite Hc. set_solver.
Qed.

(** Every step keeps every thread on exactly one list, and the space that is
    reserved in [sleepers]. *)
Lemma kstep_inv s s' : kstep s s' -> k_running s ->
  k_running s' /\ (k_reserved s -> k_reserved s').
Proof.
  intros Hstep Hrun. pose proof Hrun as ([c Hc] & rq & sl & zs & Hinv).
  destruct Hstep as [ok irqs s s' _ H|ok irqs addr s s' Hall H|ok irqs s s' Hall H
    |ok addr s s' H|ok addr s s' H|p oks s r nt s' Hfresh Hroom H|n s|e s|c' f s Hc' Hf].
  - destruct (yield_inv _ _ _ _ _ _ _ _ Hinv Hc H) as (? & Hn & Hs & _ & ?).
    split; [done|]. unfold k_reserved. by rewrite Hn, Hs.
  - destruct (sleep_inv anything _ _ _ _ _ _ _ _ _ Hall Hinv Hc I H) as (? & ? & _ & ?). done.
  - destruct (exit_inv anything ok irqs s c rq sl zs s' Hall Hinv Hc) as (? & Hn & Hs & _ & ?); [done..|].
    split; [done|]. unfold k_reserved. rewrite Hn, Hs. lia.
  - destruct (wakeup_inv _ _ _ _ _ _ _ Hinv H) as (Hc' & _ & Hn & _ & Hm & _ & _ & _ & ?).
    unfold k_running, k_reserved. rewrite Hc', Hc, Hn, Hm. naive_solver.
  - destruct (wake_one_inv _ _ _ _ _ _ _ Hinv H) as (Hc' & _ & Hn & _ & Hm & _ & _ & ?).
    unfold k_running, k_reserved. rewrite Hc', Hc, Hn, Hm. naive_solver.
  - destruct p as [t|]; [|unfold thread_fork in H; simpl in H; by inv_ok].
    destruct (thread_fork_inv t oks s r nt s' rq sl zs Hinv) as (Hc' & Hcase); [by apply Hfresh| |done|].
    { destruct Hinv as (_ & _ & _ & Hac). by rewrite <- (acct_size _ _ _ _ Hac). }
    unfold k_running. rewrite Hc', Hc.
    destruct Hcase as [(_ & _ & ? & ? & _)|(_ & _ & ? & _ & _ & ?)]; eauto 8.
  - done.
  - done.
  - by split; [apply own_inv|].
Qed.

Lemma ksteps_inv s s' : rtc kstep s s' -> k_running s ->
  k_running s' /\ (k_reserved s -> k_reserved s').
Proof.
  induction 1 as [|s s1 s2 Hstep _ IH]; [done|]. intros Hrun.
  destruct (kstep_inv s s1 Hstep Hrun) as [Hrun1 ?]. destruct (IH Hrun1). auto.
Qed.

Lemma thread_bootstrap_inv me oks (e : E) s :
  thread_bootstrap (Some me) oks e = Ok s -> k_curthread s = Some me /\ k_inv s [] [] [].
Proof.
  unfold thread_bootstrap, scheduler_bootstrap. intros H.
  destruct (q_create (oks 0%nat) (oks 1%nat) 32) as [q|] eqn:Hq; [|done].
  destruct (oks 0%nat), (oks 1%nat); try done.
  destruct (q_create_rep (A := Z) 32) as (q' & Hq' & Hrep & Hsz); [unfold q_limit; lia|].
  rewrite Hq in Hq'. injection Hq' as <-.
  destruct (array_create (oks 2%nat)) as [sl|] eqn:Hsl; [|done].
  destruct (array_create (oks 3%nat)) as [zo|] eqn:Hzo; [|done].
  apply array_create_holds in Hsl, Hzo. rewrite bind_Ok in H.
  unfold thread_create in H. destruct (oks 4%nat); [|done].
  apply bind_Ok_inv in H as ([[r pid] e'] & _ & H). destruct (pid =? 0); inv_ok.
  split; [done|]. split; [by split; [|simpl; rewrite Hsz]|]. split; [done|]. split; [done|].
  simpl. rewrite insert_empty. unfold k_live; simpl. split; simpl.
  - apply NoDup_singleton.
  - intros t. rewrite lookup_alter_is_Some, list_elem_of_singleton.
    unfold is_Some. setoid_rewrite lookup_singleton_Some. naive_solver.
  - done.
  - unfold max_threads. lia.
  - intros t th _. rewrite lookup_alter_Some.
    intros [(<- & th' & H & ->)|[? H]]; apply lookup_singleton_Some in H as [? <-]; by split.
  - intros t th Ht. by apply not_elem_of_nil in Ht.
Qed.

(** C3. Threads are neither lost nor duplicated.  In every state the kernel
    reaches from [thread_bootstrap] by calls of the thread system in any
    order, by any threads and interrupt handlers, with any answers of
    [kmalloc], a thread is running, and every thread structure is exactly one
    of: the running thread, an entry of the run queue, of [sleepers] or of
    [zombies]; [numthreads] counts the ones that are not zombies; what is on
    [zombies] has given up its address space and directory; and the arrays
    and the ring are well formed. *)
Theorem threads_conserved me oks (e : E) s0 s :
  thread_bootstrap (Some me) oks e = Ok s0 -> rtc kstep s0 s ->
  is_Some (k_curthread s) /\ exists rq sl zs, k_inv s rq sl zs.
Proof.
  intros Hboot Hsteps. destruct (thread_bootstrap_inv me oks e s0 Hboot) as [Hc Hinv].
  apply (ksteps_inv s0 s Hsteps). split; [by rewrite Hc|]. eauto.
Qed.

(** Going to sleep never fails.  From the first [thread_fork] that
    succeeds on, whatever happened since and even if [kmalloc] always fails,
    [thread_sleep] with interrupts off and another thread ready parks the
    caller at the end of [sleepers] and runs the head of the run queue: the
    space reserved in [thread_fork] is enough. *)
Theorem thread_sleep_never_fails t oks s s1 s2 ok irqs addr c next rq sl zs :
  k_running s -> k_threads s !! t = None -> Z.of_nat (size (k_threads s)) < max_threads ->
  thread_fork (Some t) oks s = Ok (0, Some t, s1) -> rtc kstep s1 s2 ->
  k_inv s2 (next :: rq) sl zs -> k_curthread s2 = Some c ->
  k_in_interrupt s2 = 0 -> 0 < k_curspl s2 ->
  exists s3, thread_sleep ok irqs addr s2 = Ok s3 /\ k_curthread s3 = Some next /\
    exists zs', k_inv s3 rq (sl ++ [c]) zs'.
Proof.
  intros ([c0 Hc0] & rq0 & sl0 & zs0 & Hinv0) Hfresh Hroom Hfork Hsteps Hinv Hc Hint Hspl.
  destruct (thread_fork_inv t oks s 0 (Some t) s1 rq0 sl0 zs0 Hinv0) as (Hc1 & Hcase);
    [done| |done|].
  { destruct Hinv0 as (_ & _ & _ & Hac). by rewrite <- (acct_size _ _ _ _ Hac). }
  destruct Hcase as [(_ & _ & Hinv1 & Hres & _)|(? & _)]; [|done].
  destruct (ksteps_inv s1 s2 Hsteps) as [_ Hres2].
  { split; [by rewrite Hc1, Hc0|]. eauto. }
  destruct (thread_sleep_spec ok irqs addr s2 c next rq sl zs Hinv Hc (Hres2 Hres) Hint Hspl)
    as (s3 & ? & ? & _ & _ & zs' & ? & _). eauto.
Qed.

(** Waking up is exact and, for a running thread, cannot fail.  A thread
    that calls [thread_wakeup] with interrupts off, when the run queue has
    the size [scheduler_preallocate] gave it, moves exactly the threads that
    sleep on [addr], in the order they went to sleep, to the end of the run
    queue, leaves the others asleep in their order, touches nothing else, and
    needs no memory. *)
Theorem thread_wakeup_exact ok addr s c rq sl zs :
  k_inv s rq sl zs -> k_curthread s = Some c -> 0 < k_curspl s ->
  k_numthreads s <= q_size (k_runqueue s) ->
  exists a q, thread_wakeup ok addr s = Ok (with_runqueue q (with_sleepers a s)) /\
    k_inv (with_runqueue q (with_sleepers a s))
      (rq ++ filter (sleeps_on (k_threads s) addr) sl)
      (filter (fun t => ~ sleeps_on (k_threads s) addr t) sl) zs.
Proof.
  intros Hinv Hc Hspl Hsize. pose proof (k_inv_lengths _ _ _ _ Hinv) as [Hn _].
  rewrite Hc in Hn; simpl in Hn.
  destruct (thread_wakeup_spec ok addr s rq sl zs Hinv Hspl)
    as [(a & q & ? & _ & _ & ?)|(_ & _ & Hfull)]; [by eauto|].
  pose proof (length_filter (sleeps_on (k_threads s) addr) sl). lia.
Qed.

(** [n] calls of [thread_yield], each by the thread that runs then. *)
Fixpoint yield_n (n : nat) (ok : nat -> nat -> bool) (s : ksys E) : res (ksys E) :=
  match n with
  | O => Ok s
  | S n => s ← yield_n n ok s; thread_yield (ok n) [] s
  end.

(** There is a cell for the thread that yields, or memory for a larger ring. *)
Lemma yield_room ok s c rq sl zs :
  k_inv s rq sl zs -> k_curthread s = Some c ->
  Z.of_nat (length rq) + 1 < q_size (k_runqueue s) \/ ok 1%nat = true ->
  exists s' next rest zs', thread_yield ok [] s = Ok s' /\ rq ++ [c] = next :: rest /\
    k_curthread s' = Some next /\ k_inv s' rest sl zs' /\
    q_size (k_runqueue s) <= q_size (k_runqueue s').
Proof.
  intros Hinv Hc Hroom. destruct (thread_yield_spec ok [] s c rq sl zs Hinv Hc)
    as [(s' & next & rest & ? & ? & ? & _ & _ & _ & _ & ? & zs' & ? & _)|(Hok & ? & _)]; [eauto 10|].
  rewrite Hok in Hroom. destruct Hroom; [lia|done].
Qed.

(** One more step of a rotation. *)
Lemma rotate_step {A} (l : list A) n x l' : rotate n l = x :: l' -> l' ++ [x] = rotate (S n) l.
Proof.
  unfold rotate. destruct (decide (l = [])) as [->|Hne]; [by destruct n|].
  assert (length l <> 0%nat) as Hl by (intros ?%nil_length_inv; done).
  pose proof (Nat.mod_upper_bound n (length l) Hl) as Hm. pose proof (Nat.div_mod n (length l) Hl) as Hdm. set (m := (n mod length l)%nat) in *.
  destruct (lookup_lt_is_Some_2 l m Hm) as [y Hy]. rewrite (drop_S _ y) by done. intros [= -> <-].
  rewrite <-app_assoc, <-(take_S_r _ _ x) by done. destruct (decide (S m = length l)) as [Em|].
  - assert ((S n mod length l)%nat = 0%nat) as ->.
    { symmetry. apply (Nat.mod_unique _ _ (S (n / length l))); lia. }
    by rewrite Em, drop_all, firstn_all, drop_0, take_0, app_nil_r.
  - assert ((S n mod length l)%nat = S m) as ->; [|done].
    symmetry. apply (Nat.mod_unique _ _ (n / length l)%nat); lia.
Qed.

(** C24. Round robin.  When only [thread_yield] is called, every ready thread
    gets its turn in the order of the run queue: after [n] yields the running
    thread followed by the run queue is the initial one rotated by [n].  The
    condition is that the ring of the run queue has a cell to spare, or that
    [kmalloc] succeeds when [make_runnable] makes it larger. *)
Theorem yield_round_robin n ok s c rq sl zs :
  k_inv s rq sl zs -> k_curthread s = Some c ->
  Z.of_nat (length rq) + 1 < q_size (k_runqueue s) \/ (forall i, (i < n)%nat -> ok i 1%nat = true) ->
  exists s' next rest zs', yield_n n ok s = Ok s' /\ k_curthread s' = Some next /\
    next :: rest = rotate n (c :: rq) /\ k_inv s' rest sl zs'.
Proof.
  intros Hinv Hc Hroom.
  enough (exists s' next rest zs', yield_n n ok s = Ok s' /\ k_curthread s' = Some next /\
      next :: rest = rotate n (c :: rq) /\ k_inv s' rest sl zs' /\
      q_size (k_runqueue s) <= q_size (k_runqueue s')) as Hall.
  { destruct Hall as (s' & next & rest & zs' & ? & ? & ? & ? & _). eauto 8. }
  induction n as [|n IH].
  - exists s, c, rq, zs. split; [done|]. split; [done|]. split; [|done]. unfold rotate. by rewrite Nat.Div0.mod_0_l, drop_0, take_0, app_nil_r.
  - destruct IH as (s1 & next & rest & zs1 & Hy & Hc1 & Hrot & Hinv1 & Hsz).
    { destruct Hroom as [?|Hok]; [by left|right]. intros i Hi. apply Hok. lia. }
    assert (length rest = length rq) as Hlen.
    { apply (f_equal length) in Hrot. unfold rotate in Hrot. rewrite length_app, length_drop, length_take in Hrot. cbn [length] in Hrot. lia. }
    destruct (yield_room (ok n) s1 next rest sl zs1 Hinv1 Hc1) as (s2 & next2 & rest2 & zs2 & Hy2 & Hq & ? & ? & ?).
    { destruct Hroom as [?|Hok]; [left; lia|right]. apply Hok. lia. }
    exists s2, next2, rest2, zs2. cbn [yield_n]. rewrite Hy, bind_Ok. split_and!; try done; [|lia].
    rewrite <- Hq. by apply rotate_step.
Qed.
End inter.

(** ** Concrete runs

    An environment without a state: every call succeeds. *)
Definition null_env : SchedEnv unit := {|
  env_pid_add := fun _ _ => Ok (0, 1, tt);
  env_pid_exit := fun _ _ _ => Ok (0, tt);
  env_incref := fun _ _ => Ok tt;
  env_decref := fun _ _ => Ok tt;
  env_as_destroy := fun _ _ => Ok tt;
|}.

Section runs.
Local Existing Instance null_env.

Definition all_ok : nat -> bool := fun _ => true.
Definition no_mem : nat -> bool := fun _ => false.

Definition boot : res (ksys unit) := thread_bootstrap (Some 1) all_ok tt.

(** The boot thread forks [n] threads, at addresses 2, 3, ... *)
Fixpoint fork_n (n : nat) (t : Z) (s : ksys unit) : res (ksys unit) :=
  match n with
  | O => Ok s
  | S n => '(r, _, s) ← thread_fork (Some t) all_ok s;
           _ ← assert (r =? 0); fork_n n (t + 1) s
  end.

Definition boot_fork (n : nat) : res (ksys unit) := s ← boot; fork_n n 2 s.

Definition get {A} (d : A) (r : res A) : A := match r with Ok a => a | _ => d end.

Definition null_sys : ksys unit :=
  mk_ksys ∅ None (mk_array 0 0 None) (mk_array 0 0 None) 0 (mk_queue 1 0 0 [None]) 0 0 tt.

(** The space reserved for the run queue is one cell short.
    [scheduler_preallocate(n)] makes a ring of [n] cells, which holds [n-1]
    threads; after 31 forks from boot all 32 threads are ready or running and
    the ring of 32 is full, so a yield has to allocate, and without memory
    [mi_switch] hits its assertion, although "because we preallocate during
    thread_fork, this should not fail". *)
Theorem yield_may_run_out_of_memory :
  exists s, boot_fork 31 = Ok s /\ k_numthreads s = 32 /\
    q_size (k_runqueue s) = 32 /\ thread_yield no_mem [] s = Panic.
Proof.
  exists (get null_sys (boot_fork 31)). vm_compute. split_and!; reflexivity.
Qed.

(** The space reserved for the zombies does not survive a context
    switch.  With 16 forked threads [zombies] has more than 16 cells;
    [exorcise], run by a thread that comes back from a yield, shrinks the
    array to nothing and gives the cells back, so that the next
    [thread_exit] has to allocate, and without memory the assertion of
    [mi_switch] fails. *)
Theorem exit_may_run_out_of_memory :
  exists s s', boot_fork 16 = Ok s /\ 17 <= arr_max (k_zombies s) /\
    yield_n 17 (fun _ => all_ok) s = Ok s' /\
    k_curthread s' = Some 1 /\ arr_max (k_zombies s') = 0 /\
    thread_exit no_mem [] s' = Panic.
Proof.
  exists (get null_sys (boot_fork 16)),
    (get null_sys (yield_n 17 (fun _ => all_ok) (get null_sys (boot_fork 16)))).
  vm_compute. split_and!; (reflexivity || discriminate).
Qed.

Definition s_boot : ksys unit := get null_sys boot.
Definition s_fork : ksys unit := get null_sys (boot_fork 1).

Lemma s_boot_inv : k_curthread s_boot = Some 1 /\ k_inv s_boot [] [] [].
Proof. apply (thread_bootstrap_inv 1 all_ok tt). vm_compute. reflexivity. Qed.

Lemma s_fork_inv : k_inv s_fork [2] [] [].
Proof.
  destruct s_boot_inv as [_ Hinv].
  destruct (thread_fork_inv 2 all_ok s_boot 0 (Some 2) s_fork [] [] [] Hinv)
    as (_ & [(_ & _ & Hinv' & _)|(Hne & _)]).
  - vm_compute. reflexivity.
  - vm_compute. reflexivity.
  - vm_compute. reflexivity.
  - exact Hinv'.
  - by destruct Hne.
Qed.

(** The boot thread with interrupts off, after one fork. *)
Lemma s_fork_spl_inv : k_inv (with_spl SPL_HIGH s_fork) [2] [] [].
Proof. exact s_fork_inv. Qed.

Lemma threads_conserved_witness :
  is_Some (k_curthread s_fork) /\ exists rq sl zs, k_inv s_fork rq sl zs.
Proof.
  apply (threads_conserved 1 all_ok tt s_boot s_fork).
  - vm_compute. reflexivity.
  - apply rtc_once, (kstep_fork (Some 2) all_ok s_boot 0 (Some 2)).
    + intros t [= <-]. vm_compute. reflexivity.
    + vm_compute. reflexivity.
    + vm_compute. reflexivity.
Defined.

Lemma thread_sleep_never_fails_witness :
  exists s3, thread_sleep no_mem [] 77 (with_spl SPL_HIGH s_fork) = Ok s3 /\
    k_curthread s3 = Some 2 /\ exists zs', k_inv s3 [] [1] zs'.
Proof.
  apply (thread_sleep_never_fails 2 all_ok s_boot s_fork (with_spl SPL_HIGH s_fork)
           no_mem [] 77 1 2 [] [] []).
  - destruct s_boot_inv as [Hc Hinv]. split; [rewrite Hc; by eexists|eauto].
  - vm_compute. reflexivity.
  - vm_compute. reflexivity.
  - vm_compute. reflexivity.
  - apply rtc_once, kstep_spl.
  - apply s_fork_spl_inv.
  - vm_compute. reflexivity.
  - vm_compute. reflexivity.
  - vm_compute. reflexivity.
Defined.

Lemma thread_wakeup_exact_witness :
  exists a q, thread_wakeup (fun _ => no_mem) 77 (with_spl SPL_HIGH s_fork) =
      Ok (with_runqueue q (with_sleepers a (with_spl SPL_HIGH s_fork))) /\
    k_inv (with_runqueue q (with_sleepers a (with_spl SPL_HIGH s_fork)))
      ([2] ++ filter (sleeps_on (k_threads (with_spl SPL_HIGH s_fork)) 77) [])
      (filter (fun t => ~ sleeps_on (k_threads (with_spl SPL_HIGH s_fork)) 77 t) []) [].
Proof.
  apply (thread_wakeup_exact (fun _ => no_mem) 77 (with_spl SPL_HIGH s_fork) 1 [2] [] []).
  - apply s_fork_spl_inv.
  - vm_compute. reflexivity.
  - vm_compute. reflexivity.
  - vm_compute. discriminate.
Defined.

Lemma yield_round_robin_witness :
  exists s' next rest zs', yield_n 2 (fun _ => no_mem) s_fork = Ok s' /\
    k_curthread s' = Some next /\ next :: rest = rotate 2 [1; 2] /\
    k_inv s' rest [] zs'.
Proof.
  apply (yield_round_robin 2 (fun _ => no_mem) s_fork 1 [2] [] []).
  - apply s_fork_inv.
  - vm_compute. reflexivity.
  - left. vm_compute. reflexivity.
Defined.

(** Thread 1 sleeps, thread 2 wakes it and exits, thread 1 disposes of it. *)
Example sleep_wakeup_exit :
  (s ← thread_sleep no_mem [] 77 (with_spl SPL_HIGH s_fork);
   s ← thread_wakeup (fun _ => no_mem) 77 (with_spl SPL_HIGH s);
   s ← thread_exit no_mem [] s;
   Ok (k_curthread s, k_numthreads s, map_to_list (t_sleepaddr <$> k_threads s))) =
  Ok (Some 1, 1, [(1, 0)]).
Proof. vm_compute. reflexivity. Qed.
End runs.
