(* ===== verification/Synch.v ===== *)
(** * kern/thread/synch.c

    Semaphores, locks and condition variables on top of the thread system.
    The objects live in the environment [senv] of the thread system, keyed by
    their addresses, so that interrupt handlers that run while the processor
    idles can use them too.

    A function of synch.c that sleeps is cut where the thread switches away:
    [se_pc] records, for each thread in the middle of such a function, which
    one and its locals, and [continue] is the rest of it, which runs when the
    thread is switched to again.  [se_trace] records, newest first, the
    completed operations; it is not part of the code. *)
From stdpp Require Import base numbers list option gmap.
From S2P Require Import Prelude KArray Queue Sched SchedInv.
Local Open Scope Z_scope.

(** [count] of a semaphore, [owner] of a lock; a condition variable has no
    state. *)
Inductive obj : Type :=
| Sem (count : Z)
| Lock (owner : option Z)
| Cv.

(** Inside [P], with its [spl]; inside [lock_acquire] with its [spl] and,
    when [cv_wait] called it, that of [cv_wait]; inside the [thread_sleep] of
    [cv_wait]. *)
Inductive pc : Type :=
| PC_P (sem spl : Z)
| PC_acquire (lock spl : Z) (outer : option Z)
| PC_cv (lock spl : Z).

Inductive event : Type :=
| EvSem (sem count : Z)
| EvP (sem : Z)
| EvV (sem : Z)
| EvLock (lock : Z)
| EvAcquire (t : option Z) (lock : Z)
| EvRelease (t : option Z) (lock : Z).

Global Instance event_eq_dec : EqDecision event.
Proof. solve_decision. Defined.

Record senv (E : Type) : Type := mk_senv {
  se_objs : gmap Z obj;
  se_pc : gmap Z pc;
  se_trace : list event;
  se_rest : E;
}.
Arguments mk_senv {E}.
Arguments se_objs {E}.
Arguments se_pc {E}.
Arguments se_trace {E}.
Arguments se_rest {E}.

Section synch.
Context {E : Type} {HE : SchedEnv E}.

Definition lift_env (e : senv E) (r : res E) : res (senv E) :=
  x ← r; Ok (mk_senv (se_objs e) (se_pc e) (se_trace e) x).

Global Instance senv_env : SchedEnv (senv E) := {|
  env_pid_add := fun e parent =>
    '(r, pid, x) ← env_pid_add (se_rest e) parent;
    Ok (r, pid, mk_senv (se_objs e) (se_pc e) (se_trace e) x);
  env_pid_exit := fun e pid status =>
    '(r, x) ← env_pid_exit (se_rest e) pid status;
    Ok (r, mk_senv (se_objs e) (se_pc e) (se_trace e) x);
  env_incref := fun e v => lift_env e (env_incref (se_rest e) v);
  env_decref := fun e v => lift_env e (env_decref (se_rest e) v);
  env_as_destroy := fun e a => lift_env e (env_as_destroy (se_rest e) a);
|}.

Abbreviation sys := (ksys (senv E)).
Implicit Types (s : sys).

Definition get_sem s (sem : Z) : res Z :=
  match se_objs (k_env s) !! sem with Some (Sem n) => Ok n | _ => Undef end.
Definition get_lock s (lock : Z) : res (option Z) :=
  match se_objs (k_env s) !! lock with Some (Lock o) => Ok o | _ => Undef end.

Definition set_obj (a : Z) (o : obj) s : sys :=
  let e := k_env s in
  with_env (mk_senv (<[a := o]> (se_objs e)) (se_pc e) (se_trace e) (se_rest e)) s.
Definition log (ev : event) s : sys :=
  let e := k_env s in
  with_env (mk_senv (se_objs e) (se_pc e) (ev :: se_trace e) (se_rest e)) s.

(** The current thread is now at [p] of synch.c, or outside it. *)
Definition set_pc (p : option pc) s : sys :=
  let e := k_env s in
  match k_curthread s with
  | None => s
  | Some c =>
      with_env (mk_senv (se_objs e) (partial_alter (fun _ => p) c (se_pc e))
                  (se_trace e) (se_rest e)) s
  end.

(** ** Semaphores *)

Definition sem_create (p : option Z) (okname : bool) (initial_count : Z) s
    : option Z * sys :=
  match p with
  | None => (None, s)
  | Some sem =>
      if okname then (Some sem, log (EvSem sem initial_count) (set_obj sem (Sem initial_count) s))
      else (None, s)
  end.

Definition sem_destroy (sem : Z) s : res sys :=
  _ ← assert (negb (sem =? 0));
  let '(spl, s) := splhigh s in
  b ← thread_hassleepers sem s;
  _ ← assert (negb b);
  let s := snd (splx spl s) in
  _ ← get_sem s sem;
  let e := k_env s in
  Ok (with_env (mk_senv (delete sem (se_objs e)) (se_pc e) (se_trace e) (se_rest e)) s).

(** From the head of the loop of [P]. *)
Definition P_loop (ok : nat -> bool) (irqs : list (sys -> res sys)) (sem spl : Z) s
    : res sys :=
  count ← get_sem s sem;
  if count =? 0 then
    thread_sleep ok irqs sem (set_pc (Some (PC_P sem spl)) s)
  else
    _ ← assert (count >? 0);
    let s := set_pc None (log (EvP sem) (set_obj sem (Sem (i32 (count - 1))) s)) in
    Ok (snd (splx spl s)).

Definition P (ok : nat -> bool) (irqs : list (sys -> res sys)) (sem : Z) s : res sys :=
  _ ← assert (negb (sem =? 0));
  _ ← assert (k_in_interrupt s =? 0);
  let '(spl, s) := splhigh s in
  P_loop ok irqs sem spl s.

Definition V (ok : nat -> nat -> bool) (sem : Z) s : res sys :=
  _ ← assert (negb (sem =? 0));
  let '(spl, s) := splhigh s in
  count ← get_sem s sem;
  let count := i32 (count + 1) in
  let s := log (EvV sem) (set_obj sem (Sem count) s) in
  _ ← assert (count >? 0);
  s ← thread_wakeup ok sem s;
  Ok (snd (splx spl s)).

(** ** Locks *)

Definition lock_create (p : option Z) (okname : bool) s : option Z * sys :=
  match p with
  | None => (None, s)
  | Some lock =>
      if okname then (Some lock, log (EvLock lock) (set_obj lock (Lock None) s))
      else (None, s)
  end.

Definition lock_do_i_hold (lock : Z) s : res bool :=
  _ ← assert (negb (lock =? 0));
  _ ← assert (k_in_interrupt s =? 0);
  owner ← get_lock s lock;
  Ok (bool_decide (owner = k_curthread s)).

(** From the head of the loop of [lock_acquire] to its end, and to the end of
    [cv_wait] if that called it. *)
Definition acquire_loop (ok : nat -> bool) (irqs : list (sys -> res sys))
    (lock spl : Z) (outer : option Z) s : res sys :=
  owner ← get_lock s lock;
  match owner with
  | Some _ => thread_sleep ok irqs lock (set_pc (Some (PC_acquire lock spl outer)) s)
  | None =>
      let s := set_obj lock (Lock (k_curthread s)) s in
      let s := set_pc None (log (EvAcquire (k_curthread s) lock) s) in
      let s := snd (splx spl s) in
      Ok (match outer with Some spl => snd (splx spl s) | None => s end)
  end.

Definition lock_acquire_in (ok : nat -> bool) (irqs : list (sys -> res sys))
    (lock : Z) (outer : option Z) s : res sys :=
  _ ← assert (negb (lock =? 0));
  _ ← assert (k_in_interrupt s =? 0);
  b ← lock_do_i_hold lock s;
  if (b : bool) then Panic
  else
    let '(spl, s) := splhigh s in
    acquire_loop ok irqs lock spl outer s.

Definition lock_acquire (ok : nat -> bool) (irqs : list (sys -> res sys)) (lock : Z) s
    : res sys := lock_acquire_in ok irqs lock None s.

Definition lock_release (ok : nat -> nat -> bool) (lock : Z) s : res sys :=
  _ ← assert (k_in_interrupt s =? 0);
  _ ← assert (negb (lock =? 0));
  b ← lock_do_i_hold lock s;
  _ ← assert b;
  let '(spl, s) := splhigh s in
  let s := log (EvRelease (k_curthread s) lock) (set_obj lock (Lock None) s) in
  s ← thread_wakeup ok lock s;
  Ok (snd (splx spl s)).

(** ** Condition variables *)

Definition cv_create (p : option Z) (okname : bool) s : option Z * sys :=
  match p with
  | None => (None, s)
  | Some cv => if okname then (Some cv, set_obj cv Cv s) else (None, s)
  end.

Definition cv_wait (ok : nat -> nat -> bool) (ok' : nat -> bool)
    (irqs : list (sys -> res sys)) (cv lock : Z) s : res sys :=
  _ ← assert (negb (cv =? 0) && negb (lock =? 0));
  _ ← assert (k_in_interrupt s =? 0);
  let '(spl, s) := splhigh s in
  s ← lock_release ok lock s;
  thread_sleep ok' irqs cv (set_pc (Some (PC_cv lock spl)) s).

Definition cv_signal (ok : nat -> nat -> bool) (cv lock : Z) s : res sys :=
  _ ← assert (negb (cv =? 0) && negb (lock =? 0));
  _ ← assert (k_in_interrupt s =? 0);
  let '(spl, s) := splhigh s in
  b ← lock_do_i_hold lock s;
  _ ← assert b;
  s ← thread_wake_one ok cv s;
  Ok (snd (splx spl s)).

Definition cv_broadcast (ok : nat -> nat -> bool) (cv lock : Z) s : res sys :=
  _ ← assert (negb (cv =? 0) && negb (lock =? 0));
  _ ← assert (k_in_interrupt s =? 0);
  let '(spl, s) := splhigh s in
  b ← lock_do_i_hold lock s;
  _ ← assert b;
  s ← thread_wakeup ok cv s;
  Ok (snd (splx spl s)).

(** The current thread goes on inside the function it slept in. *)
Definition continue (ok : nat -> bool) (irqs : list (sys -> res sys)) s : res sys :=
  cur ← get_cur s;
  match se_pc (k_env s) !! cur with
  | None => Ok s
  | Some (PC_P sem spl) => P_loop ok irqs sem spl s
  | Some (PC_acquire lock spl outer) => acquire_loop ok irqs lock spl outer s
  | Some (PC_cv lock spl) => lock_acquire_in ok irqs lock (Some spl) s
  end.


(** ** Interleavings

    One step of a system of threads that use synch.c.  A thread in the middle
    of a function of synch.c can only go on with it; one that is not may call
    any of the functions, the thread system with addresses that are not
    objects of synch.c, or do something that does not concern synch.c. *)

Definition outside s : Prop :=
  exists c, k_curthread s = Some c /\ se_pc (k_env s) !! c = None.

(** ** What the trace says *)

(** The value of a semaphore after a trace. *)
Fixpoint sem_value (a : Z) (tr : list event) : option Z :=
  match tr with
  | [] => None
  | ev :: tr =>
      match ev with
      | EvSem b n => if a =? b then Some n else sem_value a tr
      | EvP b => if a =? b then (fun n => n - 1) <$> sem_value a tr else sem_value a tr
      | EvV b => if a =? b then (fun n => n + 1) <$> sem_value a tr else sem_value a tr
      | _ => sem_value a tr
      end
  end.

(** The state of a lock after a trace that respects the protocol: acquired
    only when free, released only by its holder. *)
Inductive lock_state : Type := LkNone | LkFree | LkHeld (t : option Z) | LkBroken.

Definition lock_next (st : lock_state) (a : Z) (ev : event) : lock_state :=
  match ev with
  | EvLock b =>
      if a =? b then match st with LkNone => LkFree | _ => LkBroken end else st
  | EvAcquire t b =>
      if a =? b then match st with LkFree => LkHeld t | _ => LkBroken end else st
  | EvRelease t b =>
      if a =? b then
        match st with LkHeld u => if decide (u = t) then LkFree else LkBroken | _ => LkBroken end
      else st
  | _ => st
  end.

Definition lock_after (a : Z) (tr : list event) : lock_state :=
  foldr (fun ev st => lock_next st a ev) LkNone tr.

Definition obj_ok (o : option obj) (a : Z) (tr : list event) : Prop :=
  match o with
  | Some (Sem n) => 0 <= n < 2147483648 /\ sem_value a tr = Some n /\ lock_after a tr = LkNone
  | Some (Lock None) => lock_after a tr = LkFree
  | Some (Lock (Some t)) => lock_after a tr = LkHeld (Some t)
  | Some Cv | None => lock_after a tr = LkNone
  end.

(** A thread may be asleep on a semaphore only while its count is zero, on a
    lock only while it is held. *)
Definition may_sleep (o : option obj) : Prop :=
  match o with
  | Some (Sem n) => n = 0
  | Some (Lock t) => t <> None
  | _ => True
  end.

(** The invariant of synch.c, a relation between who is asleep where and the
    objects. *)
Definition sync_inv (A : Z -> Z -> Prop) (e : senv E) : Prop :=
  (forall a, obj_ok (se_objs e !! a) a (se_trace e)) /\
  (forall t a, A t a -> may_sleep (se_objs e !! a)).

Inductive sstep : sys -> sys -> Prop :=
| sstep_continue ok irqs s s' :
    ~ outside s -> Forall (irq_ok sync_inv) irqs -> continue ok irqs s = Ok s' -> sstep s s'
| sstep_P ok irqs sem s s' :
    outside s -> Forall (irq_ok sync_inv) irqs -> P ok irqs sem s = Ok s' -> sstep s s'
| sstep_V ok sem s s' : outside s -> V ok sem s = Ok s' -> sstep s s'
| sstep_acquire ok irqs lock s s' :
    outside s -> Forall (irq_ok sync_inv) irqs -> lock_acquire ok irqs lock s = Ok s' ->
    sstep s s'
| sstep_release ok lock s s' : outside s -> lock_release ok lock s = Ok s' -> sstep s s'
| sstep_wait ok ok' irqs cv lock s s' :
    outside s -> Forall (irq_ok sync_inv) irqs -> se_objs (k_env s) !! cv = Some Cv ->
    cv_wait ok ok' irqs cv lock s = Ok s' -> sstep s s'
| sstep_signal ok cv lock s s' : outside s -> cv_signal ok cv lock s = Ok s' -> sstep s s'
| sstep_broadcast ok cv lock s s' : outside s -> cv_broadcast ok cv lock s = Ok s' -> sstep s s'
| sstep_sem_create p okname n s s' r :
    outside s -> 0 <= n < 2147483648 ->
    (forall a, p = Some a -> se_objs (k_env s) !! a = None /\ forall t, ~ asleep s t a) ->
    sem_create p okname n s = (r, s') -> sstep s s'
| sstep_lock_create p okname s s' r :
    outside s ->
    (forall a, p = Some a -> se_objs (k_env s) !! a = None /\ forall t, ~ asleep s t a) ->
    lock_create p okname s = (r, s') -> sstep s s'
| sstep_cv_create p okname s s' r :
    outside s -> (forall a, p = Some a -> se_objs (k_env s) !! a = None) ->
    cv_create p okname s = (r, s') -> sstep s s'
| sstep_yield ok irqs s s' : outside s -> thread_yield ok irqs s = Ok s' -> sstep s s'
| sstep_sleep ok irqs addr s s' :
    outside s -> Forall (irq_ok sync_inv) irqs -> se_objs (k_env s) !! addr = None ->
    thread_sleep ok irqs addr s = Ok s' -> sstep s s'
| sstep_wakeup ok addr s s' : outside s -> thread_wakeup ok addr s = Ok s' -> sstep s s'
| sstep_exit ok irqs s s' :
    outside s -> Forall (irq_ok sync_inv) irqs -> thread_exit ok irqs s = Ok s' -> sstep s s'
| sstep_fork p oks s r nt s' :
    outside s -> (forall t, p = Some t -> k_threads s !! t = None) ->
    Z.of_nat (size (k_threads s)) < max_threads ->
    thread_fork p oks s = Ok (r, nt, s') -> sstep s s'
| sstep_spl n s : outside s -> sstep s (with_spl n s).

(** ** Preservation *)

Global Instance sync_client : Client sync_inv.
Proof. intros A A' e Hsub [Hok Hsl]. split; eauto. Qed.

Definition event_addr (ev : event) : Z :=
  match ev with
  | EvSem a _ | EvP a | EvV a | EvLock a | EvAcquire _ a | EvRelease _ a => a
  end.

Lemma obj_ok_other o a ev tr :
  event_addr ev <> a -> obj_ok o a tr -> obj_ok o a (ev :: tr).
Proof.
  intros Hne. unfold obj_ok, lock_after. cbn [foldr sem_value lock_next].
  assert (lock_next (foldr (fun ev st => lock_next st a ev) LkNone tr) a ev =
    foldr (fun ev st => lock_next st a ev) LkNone tr) as ->.
  { destruct ev; simpl in *; try done; by rewrite (proj2 (Z.eqb_neq a _)) by done. }
  destruct ev; simpl in *; rewrite ?(proj2 (Z.eqb_neq a _)) by done; done.
Qed.

(** An operation on the object [a] that is recorded by an event about it. *)
Lemma sync_upd (A A' : Z -> Z -> Prop) (e : senv E) a o ev pcs :
  sync_inv A e -> event_addr ev = a -> obj_ok (Some o) a (ev :: se_trace e) ->
  (forall t b, A' t b -> A t b \/ b = a) -> (forall t, A' t a -> may_sleep (Some o)) ->
  sync_inv A' (mk_senv (<[a := o]> (se_objs e)) pcs (ev :: se_trace e) (se_rest e)).
Proof.
  intros [Hok Hsl] <- Ho HA Hmay. split; simpl.
  - intros b. rewrite lookup_insert. case_decide as Heq; [by subst|].
    by apply obj_ok_other.
  - intros t b Hb. rewrite lookup_insert. case_decide as Heq; [subst; eauto|].
    destruct (HA t b Hb) as [?| ->]; [eauto|done].
Qed.

Lemma sync_set_pc (A : Z -> Z -> Prop) p s :
  sync_inv A (k_env (set_pc p s)) <-> sync_inv A (k_env s).
Proof. unfold set_pc. by destruct (k_curthread s). Qed.

Lemma set_pc_same p s :
  k_curthread (set_pc p s) = k_curthread s /\ asleep (set_pc p s) = asleep s /\
  (forall rq sl zs, k_inv (set_pc p s) rq sl zs = k_inv s rq sl zs).
Proof. unfold set_pc. case_match; by split_and!. Qed.

(** Changing an object and waking everyone who sleeps on it. *)
Lemma update_and_wake ok a o ev s s' rq sl zs :
  k_inv s rq sl zs -> keeps sync_inv s -> event_addr ev = a ->
  obj_ok (Some o) a (ev :: se_trace (k_env s)) ->
  thread_wakeup ok a (log ev (set_obj a o s)) = Ok s' ->
  k_curthread s' = k_curthread s /\ k_curspl s' = k_curspl s /\
  k_numthreads s' = k_numthreads s /\ arr_max (k_sleepers s') = arr_max (k_sleepers s) /\
  keeps sync_inv s' /\ (forall b, b <> a -> se_objs (k_env s') !! b = se_objs (k_env s) !! b) /\
  exists rq' sl', k_inv s' rq' sl' zs.
Proof.
  intros Hinv HJ Hev Ho Hw.
  destruct (wakeup_inv ok a (log ev (set_obj a o s)) s' rq sl zs Hinv Hw)
    as (? & ? & ? & _ & ? & _ & [He Hfew] & Hnone & Hex).
  split_and!; try done.
  - unfold keeps. rewrite He.
    apply (sync_upd (asleep s) _ (k_env s) a o ev (se_pc (k_env s))); try done.
    + intros t b Hb. left. by apply Hfew.
    + intros t Ht. by destruct (Hnone t).
  - intros b Hb. rewrite He. simpl. by rewrite lookup_insert_ne.
Qed.

Lemma V_inv ok sem s s' rq sl zs :
  k_inv s rq sl zs -> keeps sync_inv s -> V ok sem s = Ok s' ->
  k_curthread s' = k_curthread s /\ k_curspl s' = k_curspl s /\
  k_numthreads s' = k_numthreads s /\ arr_max (k_sleepers s') = arr_max (k_sleepers s) /\
  keeps sync_inv s' /\ exists rq' sl', k_inv s' rq' sl' zs.
Proof.
  intros Hinv HJ H. unfold V in H. apply bind_Ok_inv in H as (_ & _ & H).
  cbn [splhigh splx] in H. apply bind_Ok_inv in H as (n & Hn & H).
  apply bind_Ok_inv in H as ([] & Hpos & H). apply bind_Ok_inv in H as (s1 & Hw & H).
  apply assert_Ok_inv, Z.gtb_lt in Hpos. injection H as <-.
  unfold get_sem in Hn. simpl in Hn.
  destruct (se_objs (k_env s) !! sem) as [[m| |]|] eqn:Hobj; inv_ok.
  pose proof (proj1 HJ sem) as Hok. rewrite Hobj in Hok. destruct Hok as (Hr & Hv & Hl).
  assert (i32 (n + 1) = n + 1) as Hi.
  { unfold i32 in Hpos |- *. destruct (decide (n + 1 < 2147483648)); [by dlia|dlia]. }
  rewrite Hi in Hw, Hpos.
  destruct (update_and_wake ok sem (Sem (n + 1)) (EvV sem) (with_spl SPL_HIGH s) s1 rq sl zs)
    as (? & ? & ? & ? & ? & _ & ?); try done.
  simpl. rewrite Z.eqb_refl, Hv. split_and!; try done; [lia|].
  pose proof (i32_range (n + 1)). lia.
Qed.

Lemma V_irq ok sem : irq_ok sync_inv (V ok sem).
Proof.
  intros s s' rq sl zs Hinv Hc Hspl HJ H.
  destruct (V_inv ok sem s s' rq sl zs Hinv HJ H) as (-> & -> & -> & -> & ? & ?).
  by split_and!.
Qed.

Definition sys_ok s : Prop := k_running s /\ keeps sync_inv s.

(** Going to sleep on an object that allows it. *)
Lemma sleep_ok ok irqs addr p s s' :
  sys_ok s -> Forall (irq_ok sync_inv) irqs -> may_sleep (se_objs (k_env s) !! addr) ->
  thread_sleep ok irqs addr (set_pc p s) = Ok s' -> sys_ok s'.
Proof.
  intros [[[c Hc] (rq & sl & zs & Hinv)] HJ] Hall Hmay H.
  destruct (set_pc_same p s) as (Hc' & Ha & Hk).
  rewrite <- Hk in Hinv. rewrite <- Hc' in Hc.
  destruct (sleep_inv sync_inv ok irqs addr (set_pc p s) c rq sl zs s' Hall Hinv Hc)
    as (? & _ & ? & ?); [|done|done].
  rewrite Ha. apply sync_set_pc. destruct HJ as [Hok Hsl]. split; [done|].
  intros t a [Hta|[-> ->]]; eauto.
Qed.

Lemma set_spl_ok n s : sys_ok s <-> sys_ok (with_spl n s).
Proof. done. Qed.

Lemma P_loop_ok ok irqs sem spl s s' :
  sys_ok s -> Forall (irq_ok sync_inv) irqs -> P_loop ok irqs sem spl s = Ok s' -> sys_ok s'.
Proof.
  intros Hs Hall H. unfold P_loop in H. apply bind_Ok_inv in H as (n & Hn & H).
  unfold get_sem in Hn. destruct (se_objs (k_env s) !! sem) as [[m| |]|] eqn:Hobj; inv_ok.
  destruct (Z.eqb_spec n 0) as [->|Hne].
  { eapply sleep_ok; [done|done| |done]. by rewrite Hobj. }
  apply bind_Ok_inv in H as ([] & Hpos & H). injection H as <-.
  destruct Hs as [[Hc (rq & sl & zs & Hinv)] HJ]. pose proof HJ as [Hok Hsl].
  specialize (Hok sem) as Hn. rewrite Hobj in Hn. destruct Hn as (Hr & Hv & Hl).
  apply set_spl_ok. set (s1 := log _ _). destruct (set_pc_same None s1) as (Hc' & Ha & Hk).
  split; [split; [by rewrite Hc'|exists rq, sl, zs; by rewrite Hk]|].
  unfold keeps. rewrite Ha. apply sync_set_pc.
  apply (sync_upd (asleep s) _ (k_env s) sem _ (EvP sem) (se_pc (k_env s)));
    try done; [|auto|].
  - simpl. rewrite Z.eqb_refl, Hv. apply assert_Ok_inv, Z.gtb_lt in Hpos.
    rewrite i32_small by lia. split_and!; [lia|lia|done|done].
  - intros t Ht. specialize (Hsl t sem Ht). rewrite Hobj in Hsl. simpl in Hsl. lia.
Qed.

Lemma acquire_loop_ok ok irqs lock spl outer s s' :
  sys_ok s -> Forall (irq_ok sync_inv) irqs ->
  acquire_loop ok irqs lock spl outer s = Ok s' -> sys_ok s'.
Proof.
  intros Hs Hall H. unfold acquire_loop in H. apply bind_Ok_inv in H as (o & Ho & H).
  unfold get_lock in Ho. destruct (se_objs (k_env s) !! lock) as [[|o'|]|] eqn:Hobj; inv_ok.
  destruct o as [u|].
  { eapply sleep_ok; [done|done| |done]. by rewrite Hobj. }
  assert (sys_ok (set_pc None (log (EvAcquire (k_curthread s) lock)
    (set_obj lock (Lock (k_curthread s)) s)))) as Hnew.
  { destruct Hs as [[[c Hc] (rq & sl & zs & Hinv)] HJ]. pose proof HJ as [Hok Hsl].
    specialize (Hok lock) as Hl. rewrite Hobj in Hl. set (s1 := log _ _).
    destruct (set_pc_same None s1) as (Hc' & Ha & Hk).
    split; [split; [rewrite Hc'; by exists c|exists rq, sl, zs; by rewrite Hk]|].
    unfold keeps. rewrite Ha. apply sync_set_pc.
    apply (sync_upd (asleep s) _ (k_env s) lock _ (EvAcquire (k_curthread s) lock)
      (se_pc (k_env s))); try done; [|auto|].
    - rewrite Hc. simpl in *. by rewrite Z.eqb_refl, Hl.
    - intros t Ht. simpl. by rewrite Hc. }
  injection H as <-. by destruct outer; repeat apply set_spl_ok.
Qed.

Lemma lock_acquire_in_ok ok irqs lock outer s s' :
  sys_ok s -> Forall (irq_ok sync_inv) irqs ->
  lock_acquire_in ok irqs lock outer s = Ok s' -> sys_ok s'.
Proof.
  intros Hs Hall H. unfold lock_acquire_in in H. inv_ok.
  destruct r1; [done|]. by eapply acquire_loop_ok; [|done|exact H]; apply set_spl_ok.
Qed.

Lemma lock_release_ok ok lock s s' :
  sys_ok s -> lock_release ok lock s = Ok s' ->
  sys_ok s' /\ k_curthread s' = k_curthread s /\
  forall b, b <> lock -> se_objs (k_env s') !! b = se_objs (k_env s) !! b.
Proof.
  intros [[[c Hc] (rq & sl & zs & Hinv)] HJ] H. unfold lock_release in H.
  apply bind_Ok_inv in H as (_ & _ & H). apply bind_Ok_inv in H as (_ & _ & H).
  apply bind_Ok_inv in H as (b & Hb & H). apply bind_Ok_inv in H as ([] & Hb' & H).
  apply assert_Ok_inv in Hb'. subst b. unfold lock_do_i_hold in Hb. inv_ok.
  cbn [splhigh splx] in H. apply bind_Ok_inv in H as (s1 & Hw & H). injection H as <-.
  match goal with Hg : get_lock _ _ = Ok ?o |- _ => unfold get_lock in Hg;
    destruct (se_objs (k_env s) !! lock) as [[|o'|]|] eqn:Hobj; inv_ok;
    rename o into own end.
  match goal with Hd : bool_decide _ = true |- _ => apply bool_decide_eq_true in Hd; subst own end.
  destruct (update_and_wake ok lock (Lock None) (EvRelease (k_curthread s) lock)
    (with_spl SPL_HIGH s) s1 rq sl zs) as (Hc1 & _ & _ & _ & HJ1 & Hoth & Hex); try done.
  - pose proof (proj1 HJ lock) as Hl. rewrite Hobj, Hc in Hl. simpl in *.
    rewrite Z.eqb_refl, Hl, Hc. by rewrite decide_True.
  - split; [|by split]. split; [|done]. split; [simpl in *; by rewrite Hc1, Hc|].
    destruct Hex as (rq' & sl' & ?). by exists rq', sl', zs.
Qed.

Definition same_sync (e e' : senv E) : Prop :=
  se_objs e' = se_objs e /\ se_trace e' = se_trace e.

Lemma sync_same (A : Z -> Z -> Prop) e e' : same_sync e e' -> sync_inv A e -> sync_inv A e'.
Proof. intros [Ho Ht] [Hok Hsl]. unfold sync_inv. by rewrite Ho, Ht. Qed.

Lemma exit_cleanup_sync c th s s' :
  exit_cleanup c th s = Ok s' -> same_sync (k_env s) (k_env s').
Proof.
  unfold exit_cleanup, same_sync. intros H.
  simpl in H. inv_ok. destruct (t_vmspace th), (t_cwd th); unfold lift_env in *; inv_ok; done.
Qed.

Lemma fork_reserve_env oks s t r s' :
  fork_reserve oks s t = Ok (r, s') -> k_env s' = k_env s.
Proof.
  unfold fork_reserve, scheduler_preallocate, make_runnable. intros H. inv_ok.
  repeat (case_match; inv_ok; try done).
Qed.

Lemma pid_add_sync (e e' : senv E) parent r pid :
  env_pid_add e parent = Ok (r, pid, e') -> same_sync e e'.
Proof. simpl. intros H. by inv_ok. Qed.

Lemma cwd_sync (e e' : senv E) (cwd : option Z) :
  match cwd with Some v => env_incref e v | None => Ok e end = Ok e' \/
  match cwd with Some v => env_decref e v | None => Ok e end = Ok e' -> same_sync e e'.
Proof. simpl. unfold lift_env. by intros [H|H]; destruct cwd; inv_ok. Qed.

Lemma fork_fail_sync t cwd spl result s r nt s' :
  fork_fail t cwd spl result s = Ok (r, nt, s') -> same_sync (k_env s) (k_env s').
Proof.
  unfold fork_fail. intros H. apply bind_Ok_inv in H as (e & He & H). inv_ok.
  apply (cwd_sync (k_env s) e cwd). by right.
Qed.

Global Instance same_sync_preorder : PreOrder same_sync.
Proof.
  split; [by intros e|]. intros e1 e2 e3 [H1 H2] [H3 H4]. split; congruence.
Qed.

Lemma thread_fork_sync p oks s r nt s' :
  thread_fork p oks s = Ok (r, nt, s') -> same_sync (k_env s) (k_env s').
Proof.
  unfold thread_fork. intros H.
  destruct (thread_create p (oks 0%nat) s) as [[t s1]|] eqn:Hcr; [|by inv_ok].
  assert (k_env s = k_env s1) as He.
  { unfold thread_create in Hcr. by repeat (case_match; simplify_eq/=). }
  rewrite He. clear He. destruct (negb (oks 1%nat)); [by inv_ok|].
  apply bind_Ok_inv in H as (c & _ & H). apply bind_Ok_inv in H as (cth & _ & H).
  apply bind_Ok_inv in H as (e1 & He1 & H). cbn [splhigh splx] in H.
  apply bind_Ok_inv in H as ([[result pid] e2] & He2 & H).
  apply pid_add_sync in He2. simpl in He2.
  etrans; [apply (cwd_sync _ e1 (t_cwd cth)); by left|]. etrans; [exact He2|].
  destruct (negb (result =? 0)); [by apply fork_fail_sync in H|].
  apply bind_Ok_inv in H as ([r2 s2] & Hres & H). apply fork_reserve_env in Hres.
  change e2 with (k_env (with_env e2 s1)). simpl in Hres. rewrite <- Hres.
  destruct (negb (r2 =? 0)); [by apply fork_fail_sync in H|]. by inv_ok.
Qed.

Lemma fork_asleep p oks s r nt s' :
  k_running s -> (forall t, p = Some t -> k_threads s !! t = None) ->
  Z.of_nat (size (k_threads s)) < max_threads -> thread_fork p oks s = Ok (r, nt, s') ->
  k_running s' /\ forall u a, asleep s' u a -> asleep s u a.
Proof.
  intros [[c Hc] (rq & sl & zs & Hinv)] Hfresh Hroom H.
  destruct p as [t|]; [|unfold thread_fork in H; simpl in H; inv_ok; split; [|done]; split; eauto].
  destruct (thread_fork_inv t oks s r nt s' rq sl zs Hinv) as (Hc' & Hcase);
    [by apply Hfresh| |done|].
  { destruct Hinv as (_ & _ & _ & Hac). by rewrite <- (acct_size _ _ _ _ Hac). }
  unfold k_running. rewrite Hc', Hc. pose proof Hinv as (_ & Hsl & _).
  destruct Hcase as [(_ & _ & Hinv' & _ & _ & Hth)|(_ & _ & Hinv' & Hth & _)];
    (split; [eauto 8|]); pose proof Hinv' as (_ & Hsl' & _); intros u a [Hin Hon];
    apply (holds_elem _ _ _ Hsl') in Hin; (split; [by apply (holds_elem _ _ _ Hsl)|]).
  - unfold sleeps_on in *. rewrite Hth in Hon; [done|]. intros ->.
    destruct (k_inv_dom _ _ _ _ _ Hinv Hin) as [th Hx]. by rewrite Hfresh in Hx.
  - by rewrite Hth in Hon.
Qed.

(** Making a new object. *)
Lemma create_ok a o ev s :
  sys_ok s -> event_addr ev = a -> obj_ok (Some o) a (ev :: se_trace (k_env s)) ->
  (forall t, ~ asleep s t a) -> sys_ok (log ev (set_obj a o s)).
Proof.
  intros [Hrun HJ] Hev Ho Hnone. split; [done|].
  apply (sync_upd (asleep s) _ (k_env s) a o ev (se_pc (k_env s))); try done; [auto|].
  intros t Ht. by destruct (Hnone t).
Qed.

Lemma wakeup_ok ok addr s s' : sys_ok s -> thread_wakeup ok addr s = Ok s' -> sys_ok s'.
Proof.
  intros [[[c Hc] (rq & sl & zs & Hinv)] HJ] H.
  destruct (wakeup_inv ok addr s s' rq sl zs Hinv H)
    as (Hc' & _ & _ & _ & _ & _ & Hfew & _ & rq' & sl' & ?).
  split; [split; [by rewrite Hc', Hc|by exists rq', sl', zs]|]. by eapply keeps_fewer; [apply _|..].
Qed.

Lemma wake_one_ok ok addr s s' : sys_ok s -> thread_wake_one ok addr s = Ok s' -> sys_ok s'.
Proof.
  intros [[[c Hc] (rq & sl & zs & Hinv)] HJ] H.
  destruct (wake_one_inv ok addr s s' rq sl zs Hinv H)
    as (Hc' & _ & _ & _ & _ & _ & Hfew & rq' & sl' & ?).
  split; [split; [by rewrite Hc', Hc|by exists rq', sl', zs]|]. by eapply keeps_fewer; [apply _|..].
Qed.

Lemma continue_ok ok irqs s s' :
  sys_ok s -> Forall (irq_ok sync_inv) irqs -> continue ok irqs s = Ok s' -> sys_ok s'.
Proof.
  intros Hs Hall H. unfold continue in H. apply bind_Ok_inv in H as (c & _ & H).
  destruct (se_pc (k_env s) !! c) as [[sem spl|lock spl outer|lock spl]|];
    [by eapply P_loop_ok|by eapply acquire_loop_ok|by eapply lock_acquire_in_ok|by inv_ok].
Qed.

Lemma cv_wait_ok ok ok' irqs cv lock s s' :
  sys_ok s -> Forall (irq_ok sync_inv) irqs -> se_objs (k_env s) !! cv = Some Cv ->
  cv_wait ok ok' irqs cv lock s = Ok s' -> sys_ok s'.
Proof.
  intros Hs Hall Hcv H. unfold cv_wait in H. apply bind_Ok_inv in H as (_ & _ & H).
  apply bind_Ok_inv in H as (_ & _ & H). cbn [splhigh splx] in H.
  apply bind_Ok_inv in H as (s1 & Hr & H).
  assert (cv <> lock) as Hne.
  { intros ->. unfold lock_release, lock_do_i_hold, get_lock in Hr. simpl in Hr.
    rewrite Hcv in Hr. by inv_ok. }
  apply lock_release_ok in Hr as (Hs1 & Hc1 & Hoth); [|done].
  eapply sleep_ok; [done|done| |done]. rewrite Hoth by done. simpl. by rewrite Hcv.
Qed.

Lemma obj_created p okname s a o ev s' r :
  sys_ok s -> obj_ok (Some o) a (ev :: se_trace (k_env s)) -> event_addr ev = a ->
  p = Some a -> (forall t, ~ asleep s t a) ->
  (if (okname : bool) then (Some a, log ev (set_obj a o s)) else (None, s)) = (r, s') ->
  sys_ok s'.
Proof. intros ????? H. destruct okname; simplify_eq; [by apply create_ok|done]. Qed.

Lemma create_step_ok s s' p okname r n :
  sys_ok s -> 0 <= n < 2147483648 ->
  (forall a, p = Some a -> se_objs (k_env s) !! a = None /\ forall t, ~ asleep s t a) ->
  sem_create p okname n s = (r, s') \/ lock_create p okname s = (r, s') -> sys_ok s'.
Proof.
  intros Hs Hn Hp H. destruct p as [a|]; [|by destruct H; simplify_eq/=].
  destruct (Hp a eq_refl) as [Hnew Hnone]. pose proof (proj1 (proj2 Hs) a) as Hl.
  rewrite Hnew in Hl. unfold obj_ok, lock_after in Hl.
  destruct H as [H|H]; (eapply obj_created; [exact Hs| | | |exact Hnone|exact H]; try done);
    unfold obj_ok, lock_after; simpl; rewrite Z.eqb_refl, ?Hl; done.
Qed.

Lemma cv_create_ok p okname s r s' :
  sys_ok s -> (forall a, p = Some a -> se_objs (k_env s) !! a = None) ->
  cv_create p okname s = (r, s') -> sys_ok s'.
Proof.
  intros [Hrun [Hok Hsl]] Hp H. destruct p as [a|]; [|by simplify_eq/=].
  unfold cv_create in H. destruct okname; simplify_eq; [|done]. split; [done|].
  specialize (Hp a eq_refl). split; simpl.
  - intros b. rewrite lookup_insert. case_decide; [subst b|done].
    specialize (Hok a). by rewrite Hp in Hok.
  - intros t b Hb. rewrite lookup_insert. case_decide; [done|]. by apply (Hsl t).
Qed.

(** Every step of every thread keeps the invariant of synch.c. *)
Lemma sstep_ok s s' : sstep s s' -> sys_ok s -> sys_ok s'.
Proof.
  intros Hstep Hs. pose proof Hs as [Hrun HJ]. pose proof Hrun as [[c Hc] (rq & sl & zs & Hinv)].
  destruct Hstep as [ok irqs s s' _ Hall H|ok irqs sem s s' _ Hall H|ok sem s s' _ H
    |ok irqs lock s s' _ Hall H|ok lock s s' _ H|ok ok' irqs cv lock s s' _ Hall Hcv H
    |ok cv lock s s' _ H|ok cv lock s s' _ H|p okname n s s' r _ Hn Hp H
    |p okname s s' r _ Hp H|p okname s s' r _ Hp H|ok irqs s s' _ H
    |ok irqs addr s s' _ Hall Haddr H|ok addr s s' _ H|ok irqs s s' _ Hall H
    |p oks s r nt s' _ Hfresh Hroom H|n s _].
  - by eapply continue_ok.
  - unfold P in H. inv_ok. by eapply P_loop_ok; [|done|exact H]; apply set_spl_ok.
  - destruct (V_inv ok sem s s' rq sl zs Hinv HJ H) as (Hc' & _ & _ & _ & ? & rq' & sl' & ?).
    split; [split; [by rewrite Hc', Hc|by exists rq', sl', zs]|done].
  - by eapply lock_acquire_in_ok.
  - by apply lock_release_ok in H as [? _].
  - by eapply cv_wait_ok.
  - unfold cv_signal in H. inv_ok. apply -> set_spl_ok.
    eapply wake_one_ok; [|done]. by apply set_spl_ok.
  - unfold cv_broadcast in H. inv_ok. apply -> set_spl_ok.
    eapply wakeup_ok; [|done]. by apply set_spl_ok.
  - by eapply create_step_ok; eauto.
  - by eapply (create_step_ok s s' p okname r 0); eauto.
  - by eapply cv_create_ok.
  - destruct (yield_inv _ _ _ _ _ _ _ _ Hinv Hc H) as (? & _ & _ & ? & ?).
    split; [done|]. by eapply keeps_fewer; [apply _|..].
  - destruct (sleep_inv sync_inv ok irqs addr s c rq sl zs s' Hall Hinv Hc)
      as (? & _ & ? & ?); [|done|done].
    destruct HJ as [Hok Hsl]. split; [done|].
    intros t a [Hta|[-> ->]]; [eauto|by rewrite Haddr].
  - by eapply wakeup_ok.
  - destruct (exit_inv sync_inv ok irqs s c rq sl zs s' Hall Hinv Hc)
      as (? & _ & _ & ? & ?); [|done|done].
    intros th s1 Hx%exit_cleanup_sync. by eapply sync_same.
  - destruct (fork_asleep p oks s r nt s' Hrun Hfresh Hroom H) as [? Hfew].
    split; [done|]. apply thread_fork_sync in H. unfold keeps.
    eapply sync_same; [exact H|]. by eapply client_mono.
  - done.
Qed.

Lemma ssteps_ok s s' : rtc sstep s s' -> sys_ok s -> sys_ok s'.
Proof. induction 1; eauto using sstep_ok. Qed.

(** The system boots without objects. *)
Lemma boot_ok me oks (e : E) s0 :
  thread_bootstrap (Some me) oks (mk_senv ∅ ∅ [] e) = Ok s0 -> sys_ok s0.
Proof.
  intros H. destruct (thread_bootstrap_inv me oks _ s0 H) as [Hc Hinv].
  split; [split; [by rewrite Hc|by eauto]|].
  assert (same_sync (mk_senv ∅ ∅ [] e) (k_env s0)) as Hs.
  { unfold thread_bootstrap in H. apply bind_Ok_inv in H as (q & _ & H).
    repeat case_match; simplify_eq. apply bind_Ok_inv in H as ([[r pid] e1] & Hp & H).
    case_match; inv_ok. apply pid_add_sync in Hp. simpl.
    match goal with Ht : thread_create _ _ _ = Some _ |- _ => unfold thread_create in Ht end.
    by repeat (case_match; simplify_eq/=). }
  eapply sync_same; [exact Hs|]. split; simpl.
  - intros a. by rewrite lookup_empty.
  - intros t a _. by rewrite lookup_empty.
Qed.

(** ** Theorems *)

Lemma lock_after_app a tr1 tr2 :
  lock_after a (tr1 ++ tr2) = foldr (fun ev st => lock_next st a ev) (lock_after a tr2) tr1.
Proof. unfold lock_after. by rewrite foldr_app. Qed.

Lemma broken_forever a tr :
  foldr (fun ev st => lock_next st a ev) LkBroken tr = LkBroken.
Proof.
  induction tr as [|ev tr IH]; [done|]. simpl. rewrite IH. by destruct ev; simpl; try case_match.
Qed.

(** Without a release by its holder, a held lock stays held. *)
Lemma held_until_release a t tr :
  EvRelease t a ∉ tr ->
  foldr (fun ev st => lock_next st a ev) (LkHeld t) tr = LkHeld t \/
  foldr (fun ev st => lock_next st a ev) (LkHeld t) tr = LkBroken.
Proof.
  induction tr as [|ev tr IH]; intros Hn; [by left|].
  apply not_elem_of_cons in Hn as [Hne Hn]. simpl.
  destruct (IH Hn) as [-> | ->]; destruct ev; simpl; auto;
    destruct (Z.eqb_spec a lock); auto; case_decide; subst; auto.
  by destruct Hne.
Qed.

Lemma not_broken s a : keeps sync_inv s -> lock_after a (se_trace (k_env s)) <> LkBroken.
Proof.
  intros [Hok _]. specialize (Hok a).
  destruct (se_objs (k_env s) !! a) as [[n|[t|]|]|]; simpl in Hok; [destruct Hok as (_ & _ & ->)|..];
    by rewrite ?Hok.
Qed.

(** C4. No wakeup is lost.  In every state that threads using semaphores,
    locks, condition variables and the thread system in any order can reach
    from boot, with interrupt handlers that call [V] and [thread_wakeup], a
    thread is asleep on a semaphore only while its count is zero, and on a
    lock only while somebody holds it. *)
Theorem no_lost_wakeup me oks (e : E) s0 s t a :
  thread_bootstrap (Some me) oks (mk_senv ∅ ∅ [] e) = Ok s0 -> rtc sstep s0 s ->
  asleep s t a ->
  match se_objs (k_env s) !! a with
  | Some (Sem count) => count = 0
  | Some (Lock owner) => owner <> None
  | _ => True
  end.
Proof.
  intros Hboot Hsteps Ha. destruct (ssteps_ok s0 s Hsteps) as [_ [_ Hsl]]; [by eapply boot_ok|].
  by apply (Hsl t).
Qed.

(** C13. Locks exclude.  In every trace of completed operations, between an
    acquisition of a lock by one thread and the next acquisition of the same
    lock, by whatever thread, the first thread released it. *)
Theorem lock_mutual_exclusion me oks (e : E) s0 s lock t1 t2 tr1 tr2 tr3 :
  thread_bootstrap (Some me) oks (mk_senv ∅ ∅ [] e) = Ok s0 -> rtc sstep s0 s ->
  se_trace (k_env s) = tr1 ++ EvAcquire t2 lock :: tr2 ++ EvAcquire t1 lock :: tr3 ->
  EvRelease t1 lock ∈ tr2.
Proof.
  intros Hboot Hsteps Htr. destruct (ssteps_ok s0 s Hsteps) as [_ HJ]; [by eapply boot_ok|].
  apply (not_broken s lock) in HJ. rewrite Htr, lock_after_app in HJ.
  destruct (decide (EvRelease t1 lock ∈ tr2)) as [|Hno]; [done|exfalso]. apply HJ. clear HJ.
  change (EvAcquire t2 lock :: tr2 ++ EvAcquire t1 lock :: tr3)
    with ([EvAcquire t2 lock] ++ tr2 ++ EvAcquire t1 lock :: tr3).
  rewrite !lock_after_app. simpl. rewrite !Z.eqb_refl.
  destruct (lock_after lock tr3) eqn:Hl;
    try (rewrite broken_forever; simpl; by apply broken_forever).
  destruct (held_until_release lock t1 tr2 Hno) as [-> | ->]; apply broken_forever.
Qed.

(** The number of events of a trace that are [ev]. *)
Definition count_ev (f : event -> bool) (tr : list event) : Z := Z.of_nat (length (filter f tr)).
Definition is_P (a : Z) (ev : event) : bool := match ev with EvP b => a =? b | _ => false end.
Definition is_V (a : Z) (ev : event) : bool := match ev with EvV b => a =? b | _ => false end.

Lemma sem_value_count a n tr tr' :
  Forall (fun ev => forall m, ev <> EvSem a m) tr -> sem_value a tr' = Some n ->
  sem_value a (tr ++ tr') = Some (n + count_ev (is_V a) tr - count_ev (is_P a) tr).
Proof.
  unfold count_ev. intros Hall Hn. induction Hall as [|ev tr Hev _ IH]; simpl; [rewrite Hn; f_equal; lia|].
  rewrite IH. rewrite !filter_cons.
  destruct ev as [b m|b|b|b|u b|u b]; simpl; try (f_equal; lia);
    destruct (Z.eqb_spec a b); subst; simpl; try (f_equal; lia).
  by destruct (Hev m).
Qed.

(** C14. Semaphores count.  In every reachable state the count of a semaphore
    is its initial count plus the number of completed [V]s minus the number
    of completed [P]s, and it is not negative: [P]s never overtake. *)
Theorem semaphore_counts me oks (e : E) s0 s sem n n0 tr tr' :
  thread_bootstrap (Some me) oks (mk_senv ∅ ∅ [] e) = Ok s0 -> rtc sstep s0 s ->
  se_objs (k_env s) !! sem = Some (Sem n) ->
  se_trace (k_env s) = tr ++ EvSem sem n0 :: tr' ->
  Forall (fun ev => forall m, ev <> EvSem sem m) tr ->
  n = n0 + count_ev (is_V sem) tr - count_ev (is_P sem) tr /\ 0 <= n.
Proof.
  intros Hboot Hsteps Hobj Htr Hall.
  destruct (ssteps_ok s0 s Hsteps) as [_ [Hok _]]; [by eapply boot_ok|].
  specialize (Hok sem). rewrite Hobj in Hok. destruct Hok as (Hn & Hv & _).
  rewrite Htr, (sem_value_count sem n0) in Hv; [|done|by simpl; rewrite Z.eqb_refl].
  injection Hv as <-. lia.
Qed.
End synch.

(** ** Concrete runs *)

Section runs.
Local Existing Instance null_env.
Abbreviation sys := (ksys (senv unit)).

Definition no_sys : sys :=
  mk_ksys ∅ None (mk_array 0 0 None) (mk_array 0 0 None) 0 (mk_queue 1 0 0 [None]) 0 0
    (mk_senv ∅ ∅ [] tt).

Definition w_boot : sys := get no_sys (thread_bootstrap (Some 1) all_ok (mk_senv ∅ ∅ [] tt)).

(** A lock, acquired, released, acquired. *)
Definition w_lock : sys := snd (lock_create (Some 100) true w_boot).
Definition w_acq : sys := get no_sys (lock_acquire all_ok [] 100 w_lock).
Definition w_rel : sys := get no_sys (lock_release (fun _ => all_ok) 100 w_acq).
Definition w_acq2 : sys := get no_sys (lock_acquire all_ok [] 100 w_rel).

(** A semaphore with count 0, on which thread 1 sleeps while thread 2 runs,
    calls [V] and yields to thread 1, whose [P] completes. *)
Definition w_sem : sys := snd (sem_create (Some 200) true 0 w_boot).
Definition w_fork : sys :=
  get no_sys ('(_, _, s) ← thread_fork (Some 2) all_ok w_sem; Ok s).
Definition w_P : sys := get no_sys (P all_ok [] 200 w_fork).
Definition w_V : sys := get no_sys (V (fun _ => all_ok) 200 w_P).
Definition w_yield : sys := get no_sys (thread_yield all_ok [] w_V).
Definition w_done : sys := get no_sys (continue all_ok [] w_yield).

Lemma boot_outside : outside w_boot.
Proof. exists 1. by split; vm_compute. Qed.

Lemma w_acq2_reached : rtc sstep w_boot w_acq2.
Proof.
  apply (rtc_l _ _ w_lock).
  { apply (sstep_lock_create (Some 100) true _ _ (Some 100)); [apply boot_outside| |done].
    intros a [= <-]. split; [by vm_compute|]. intros t [Hin _]. vm_compute in Hin.
    by apply not_elem_of_nil in Hin. }
  apply (rtc_l _ _ w_acq).
  { apply (sstep_acquire all_ok [] 100); [exists 1; by split; vm_compute|done|].
    vm_compute. reflexivity. }
  apply (rtc_l _ _ w_rel).
  { apply (sstep_release (fun _ => all_ok) 100); [exists 1; by split; vm_compute|].
    vm_compute. reflexivity. }
  apply rtc_once, (sstep_acquire all_ok [] 100); [exists 1; by split; vm_compute|done|].
  vm_compute. reflexivity.
Qed.

Lemma w_P_reached : rtc sstep w_boot w_P.
Proof.
  apply (rtc_l _ _ w_sem).
  { apply (sstep_sem_create (Some 200) true 0 _ _ (Some 200)); [apply boot_outside|lia| |done].
    intros a [= <-]. split; [by vm_compute|]. intros t [Hin _]. vm_compute in Hin.
    by apply not_elem_of_nil in Hin. }
  apply (rtc_l _ _ w_fork).
  { apply (sstep_fork (Some 2) all_ok w_sem 0 (Some 2)).
    - exists 1. by split; vm_compute.
    - intros t [= <-]. by vm_compute.
    - by vm_compute.
    - vm_compute. reflexivity. }
  apply rtc_once, (sstep_P all_ok [] 200); [exists 1; by split; vm_compute|done|].
  vm_compute. reflexivity.
Qed.

Lemma w_done_reached : rtc sstep w_boot w_done.
Proof.
  etrans; [apply w_P_reached|]. apply (rtc_l _ _ w_V).
  { apply (sstep_V (fun _ => all_ok) 200); [exists 2; by split; vm_compute|].
    vm_compute. reflexivity. }
  apply (rtc_l _ _ w_yield).
  { apply (sstep_yield all_ok []); [exists 2; by split; vm_compute|]. vm_compute. reflexivity. }
  apply rtc_once, (sstep_continue all_ok []); [|done|vm_compute; reflexivity].
  intros (c & Hc & Hpc). vm_compute in Hc. injection Hc as <-. by vm_compute in Hpc.
Qed.

Lemma no_lost_wakeup_witness :
  match se_objs (k_env w_P) !! 200 with
  | Some (Sem count) => count = 0
  | Some (Lock owner) => owner <> None
  | _ => True
  end.
Proof.
  apply (no_lost_wakeup 1 all_ok tt w_boot w_P 1 200).
  - vm_compute. reflexivity.
  - apply w_P_reached.
  - split; [vm_compute; by left|]. vm_compute. reflexivity.
Defined.

Lemma lock_mutual_exclusion_witness :
  EvRelease (Some 1) 100 ∈ [EvRelease (Some 1) 100].
Proof.
  apply (lock_mutual_exclusion 1 all_ok tt w_boot w_acq2 100 (Some 1) (Some 1) []
           [EvRelease (Some 1) 100] [EvLock 100]).
  - vm_compute. reflexivity.
  - apply w_acq2_reached.
  - vm_compute. reflexivity.
Defined.

Lemma semaphore_counts_witness :
  0 = 0 + count_ev (is_V 200) [EvP 200; EvV 200] - count_ev (is_P 200) [EvP 200; EvV 200] /\
  0 <= 0.
Proof.
  apply (semaphore_counts 1 all_ok tt w_boot w_done 200 0 0 [EvP 200; EvV 200] []).
  - vm_compute. reflexivity.
  - apply w_done_reached.
  - vm_compute. reflexivity.
  - vm_compute. reflexivity.
  - by repeat constructor.
Defined.
End runs.
