(* ===== verification/CatLock.v ===== *)
(** * kern/asst1/catlock.c: cats and mice at two dishes, with a lock

    The shared variables are only used by the thread that holds the lock, so
    that what a thread does from acquiring it to releasing it, or to waiting
    on a condition variable, is one step: [Hold] is a thread that has the
    lock and is about to take this step, [Want] one that needs the lock to go
    on, [Sleep] one that sleeps on a condition variable.  Which thread takes
    the next step is up to the schedule.

    A condition variable wakes its sleepers in the order in which they went
    to sleep (thread_wake_one and thread_wakeup of thread.c); a thread that
    is woken competes for the lock with all others. *)
From stdpp Require Import base numbers list option.
From S2P Require Import Prelude.
Local Open Scope Z_scope.

Definition NFOODBOWLS : nat := 2.
Definition NCATS : nat := 6.
Definition NMICE : nat := 2.
Definition TURN_COUNT : Z := 2.

(** [CAT_CODE] and [MOUSE_CODE]; 0 is [None]. *)
Inductive kind : Type := Cat | Mouse.
Global Instance kind_eq_dec : EqDecision kind.
Proof. solve_decision. Defined.
Definition other (a : kind) : kind := match a with Cat => Mouse | Mouse => Cat end.

(** The condition variables; [TurnCv Cat] is [cat_turn]. *)
Inductive cv : Type := TurnCv (a : kind) | EmptyDish | AllDone.
Global Instance cv_eq_dec : EqDecision cv.
Proof. solve_decision. Defined.

(** Where a thread goes on with the lock: at the start of
    [petition_guardian], after the [cv_wait] in the loop for the turn, after
    the one for a dish, at the start of [return_dish_to_guardian]; the main
    thread at its [cv_wait] and after it. *)
Inductive point : Type := Petition | TurnLoop | DishLoop | ReturnDish (my_dish : nat) | MainWait | MainFree.

(** [Fork n]: the main thread, before starting thread [n]. *)
Inductive pc : Type := Fork (n : nat) | Want (k : point) | Hold (k : point) | Sleep (c : cv) (k : point) | Eating (my_dish : nat) | Done.

(** The variables of one kind of animals: [cats_done], [cats_waiting],
    [cats_admitted_this_turn], [cats_left_this_turn], or those of mice. *)
Record side : Type := mk_side { done : Z; waiting : Z; admitted : Z; left : Z }.

Record thread : Type := mk_thread { th_kind : option kind; th_pc : pc }.

(** Thread 0 is the main thread.  [sleepers] is the sleeping threads in the
    order in which they went to sleep. *)
Record world : Type := mk_world {
  dishes : list (option kind);
  whos_turn : option kind;
  cats : side;
  mice : side;
  owner : option nat;
  sleepers : list nat;
  threads : list thread;
  freed : bool;
}.

Definition side_of (a : kind) (w : world) : side := match a with Cat => cats w | Mouse => mice w end.
Definition set_side (a : kind) (x : side) (w : world) : world :=
  mk_world (dishes w) (whos_turn w) (match a with Cat => x | Mouse => cats w end) (match a with Cat => mice w | Mouse => x end)
    (owner w) (sleepers w) (threads w) (freed w).
Definition set_dishes (d : list (option kind)) (w : world) : world :=
  mk_world d (whos_turn w) (cats w) (mice w) (owner w) (sleepers w) (threads w) (freed w).
Definition set_turn (t : option kind) (w : world) : world :=
  mk_world (dishes w) t (cats w) (mice w) (owner w) (sleepers w) (threads w) (freed w).
Definition set_owner (o : option nat) (w : world) : world :=
  mk_world (dishes w) (whos_turn w) (cats w) (mice w) o (sleepers w) (threads w) (freed w).
Definition set_threads (l : list nat) (ts : list thread) (w : world) : world :=
  mk_world (dishes w) (whos_turn w) (cats w) (mice w) (owner w) l ts (freed w).

(** ** Threads *)

Definition set_pc (t : nat) (p : pc) (w : world) : world :=
  set_threads (sleepers w) (alter (fun th => mk_thread (th_kind th) p) t (threads w)) w.

Definition sleeps_on (c : cv) (ts : list thread) (t : nat) : bool :=
  match th_pc <$> ts !! t with Some (Sleep c' _) => bool_decide (c' = c) | _ => false end.

(** A sleeper goes on where it waited. *)
Definition wake (th : thread) : thread := match th_pc th with Sleep _ k => mk_thread (th_kind th) (Want k) | _ => th end.
Definition wake_on (c : cv) (th : thread) : thread := match th_pc th with Sleep c' _ => if decide (c' = c) then wake th else th | _ => th end.

Definition lock_do_i_hold (me : nat) (w : world) : bool := bool_decide (owner w = Some me).

Definition cv_signal (me : nat) (c : cv) (w : world) : res world :=
  _ ← assert (lock_do_i_hold me w);
  match list_find (fun t => sleeps_on c (threads w) t = true) (sleepers w) with
  | Some (i, t) => Ok (set_threads (delete i (sleepers w)) (alter wake t (threads w)) w)
  | None => Ok w
  end.

Definition cv_broadcast (me : nat) (c : cv) (w : world) : res world :=
  _ ← assert (lock_do_i_hold me w);
  Ok (set_threads (filter (fun t => sleeps_on c (threads w) t = false) (sleepers w)) (wake_on c <$> threads w) w).

(** The thread sleeps, and goes on at [k]; the lock is free. *)
Definition cv_wait (me : nat) (c : cv) (k : point) (w : world) : res world :=
  _ ← assert (lock_do_i_hold me w);
  let w := set_owner None (set_pc me (Sleep c k) w) in
  Ok (set_threads (sleepers w ++ [me]) (threads w) w).

(** The lock is free, and the thread goes on at [p]. *)
Definition lock_release (me : nat) (p : pc) (w : world) : res world :=
  _ ← assert (lock_do_i_hold me w);
  Ok (set_owner None (set_pc me p w)).

(** ** catlock.c *)

Definition clear (x : side) : side := mk_side (done x) (waiting x) 0 0.
Definition clear_turn_counters (w : world) : world := set_side Mouse (clear (mice w)) (set_side Cat (clear (cats w)) w).

Definition check_finished (me : nat) (my_type : kind) (w : world) : res world :=
  _ ← assert (lock_do_i_hold me w);
  let x := side_of my_type w in
  let w := set_side my_type (mk_side (done x + 1) (waiting x) (admitted x) (left x)) w in
  if (done (cats w) =? Z.of_nat NCATS) && (done (mice w) =? Z.of_nat NMICE) then cv_signal me AllDone w else Ok w.

(** The first empty dish; [None] is -1. *)
Definition get_empty_dish (me : nat) (w : world) : res (option nat) :=
  _ ← assert (lock_do_i_hold me w);
  Ok (fst <$> list_find (fun d => d = None) (dishes w)).

(** From the loop for a dish in [petition_guardian] on. *)
Definition dish_loop (me : nat) (my_type : kind) (w : world) : res world :=
  my_bowl ← get_empty_dish me w;
  match my_bowl with
  | None => cv_wait me EmptyDish DishLoop w
  | Some d => lock_release me (Eating d) (set_dishes (<[d := Some my_type]> (dishes w)) w)
  end.

(** The loop of [cat_turn_logic] and [mouse_turn_logic], and the rest of
    [petition_guardian]. *)
Definition turn_loop (me : nat) (my_type : kind) (w : world) : res world :=
  let x := side_of my_type w in
  if bool_decide (whos_turn w <> Some my_type) || (admitted x >=? TURN_COUNT) then cv_wait me (TurnCv my_type) TurnLoop w
  else
    let x := mk_side (done x) (waiting x - 1) (admitted x + 1) (left x) in
    _ ← assert (admitted x <=? TURN_COUNT);
    _ ← assert (waiting x >=? 0);
    dish_loop me my_type (set_side my_type x w).

Definition turn_logic (me : nat) (my_type : kind) (w : world) : res world :=
  let x := side_of my_type w in
  turn_loop me my_type (set_side my_type (mk_side (done x) (waiting x + 1) (admitted x) (left x)) w).

Definition petition_guardian (me : nat) (my_type : kind) (w : world) : res world :=
  let w := match whos_turn w with None => set_turn (Some my_type) w | Some _ => w end in
  turn_logic me my_type w.

(** [cat_end_turn_logic] and [mouse_end_turn_logic]. *)
Definition end_turn_logic (me : nat) (my_type : kind) (w : world) : res world :=
  let x := side_of my_type w in
  let x := mk_side (done x) (waiting x) (admitted x) (left x + 1) in
  let w := set_side my_type x w in
  if left x <? admitted x then Ok w
  else if (left x <? TURN_COUNT) && (waiting x >? 0) then Ok w
  else
    w ← (if negb (waiting (side_of (other my_type) w) =? 0) then cv_broadcast me (TurnCv (other my_type)) (set_turn (Some (other my_type)) w)
         else if negb (waiting x =? 0) then cv_broadcast me (TurnCv my_type) w
         else Ok (set_turn None w));
    Ok (clear_turn_counters w).

Definition return_dish_to_guardian (me : nat) (my_type : kind) (my_dish : nat) (w : world) : res world :=
  ds ← store (dishes w) (Z.of_nat my_dish) None;
  w ← end_turn_logic me my_type (set_dishes ds w);
  w ← cv_signal me EmptyDish w;
  w ← check_finished me my_type w;
  lock_release me Done w.

Definition catmouse_global_free (w : world) : world :=
  mk_world [] (whos_turn w) (cats w) (mice w) (owner w) (sleepers w) (threads w) true.

(** ** Steps *)

(** What thread [me] does while it has the lock.  Nothing may be used once it
    is freed. *)
Definition critical (me : nat) (a : option kind) (k : point) (w : world) : res world :=
  if freed w then Undef
  else
    match k, a with
    | Petition, Some a => petition_guardian me a w
    | TurnLoop, Some a => turn_loop me a w
    | DishLoop, Some a => dish_loop me a w
    | ReturnDish d, Some a => return_dish_to_guardian me a d w
    | MainWait, None => cv_wait me AllDone MainFree w
    | MainFree, None => Ok (set_pc me Done (catmouse_global_free w))
    | _, _ => Undef
    end.

(** [catlock] for the first threads, then [mouselock]. *)
Definition forked (n : nat) : thread := mk_thread (Some (if (n <? NCATS)%nat then Cat else Mouse)) (Want Petition).

Definition enabled (t : nat) (w : world) : bool :=
  match th_pc <$> threads w !! t with
  | Some (Fork _) | Some (Hold _) | Some (Eating _) => true
  | Some (Want _) => bool_decide (owner w = None)
  | _ => false
  end.

(** [thread_fork] succeeds. *)
Definition step (t : nat) (w : world) : res world :=
  match threads w !! t with
  | None => Ok w
  | Some th =>
      match th_pc th with
      | Fork n =>
          let p := if (S n =? NCATS + NMICE)%nat then Want MainWait else Fork (S n) in
          let w := set_pc t p w in
          Ok (set_threads (sleepers w) (threads w ++ [forked n]) w)
      | Want k => if bool_decide (owner w = None) then if freed w then Undef else Ok (set_owner (Some t) (set_pc t (Hold k) w)) else Ok w
      | Hold k => critical t (th_kind th) k w
      | Eating d => Ok (set_pc t (Want (ReturnDish d)) w)
      | Sleep _ _ | Done => Ok w
      end
  end.

(** [catmouse_global_init], and the main thread. *)
Definition catmouse_global_init : world :=
  mk_world (replicate NFOODBOWLS None) None (mk_side 0 0 0 0) (mk_side 0 0 0 0) None [] [mk_thread None (Fork 0)] false.

(** A schedule is which thread runs next; a thread that cannot run is
    skipped. *)
Fixpoint exec (sched : list nat) (w : world) : res world :=
  match sched with
  | [] => Ok w
  | t :: sched => w ← (if enabled t w then step t w else Ok w); exec sched w
  end.
