(* ===== verification/CatLockSpec.v ===== *)
(** * What catlock.c guarantees

    Under every schedule no assertion fails, cats and mice never eat at the
    same time, no two animals eat from one dish, and all animals get to eat.
    The proof is an invariant that relates the counters to the number of
    threads at each place, and a weight that decreases with every step. *)
From stdpp Require Import base numbers list option.
From S2P Require Import Prelude CatLock.
Local Open Scope Z_scope.

(** ** Places *)

Definition is_kind (a : kind) (th : thread) : bool := bool_decide (th_kind th = Some a).

Definition waits (a : kind) (th : thread) : Z :=
  match th_pc th with Want TurnLoop | Hold TurnLoop | Sleep _ TurnLoop => Z.b2z (is_kind a th) | _ => 0 end.
Definition asleep (a : kind) (th : thread) : Z := match th_pc th with Sleep _ _ => Z.b2z (is_kind a th) | _ => 0 end.
Definition at_dish (a : kind) (d : nat) (th : thread) : Z :=
  match th_pc th with Eating e | Want (ReturnDish e) | Hold (ReturnDish e) => Z.b2z (is_kind a th && (e =? d)%nat) | _ => 0 end.
Definition inside (a : kind) (th : thread) : Z :=
  match th_pc th with Eating _ | Want (ReturnDish _) | Hold (ReturnDish _) => Z.b2z (is_kind a th) | _ => 0 end.
Definition finished (a : kind) (th : thread) : Z := match th_pc th with Done => Z.b2z (is_kind a th) | _ => 0 end.

Definition animal_ok (a : kind) (p : pc) : Prop :=
  match p with
  | Want Petition | Hold Petition | Want TurnLoop | Hold TurnLoop | Done => True
  | Eating d | Want (ReturnDish d) | Hold (ReturnDish d) => (d < 2)%nat
  | Sleep c k => c = TurnCv a /\ k = TurnLoop
  | _ => False
  end.

Definition main_ok (n : nat) (p : pc) : Prop :=
  match p with
  | Fork i => (i < 8)%nat /\ n = S i
  | Want MainWait | Hold MainWait | Sleep AllDone MainFree | Want MainFree | Hold MainFree | Done => n = 9%nat
  | _ => False
  end.

(** Thread [t] of [n]. *)
Definition thread_ok (n t : nat) (th : thread) : Prop :=
  match t with
  | O => th_kind th = None /\ main_ok n (th_pc th)
  | S i => th_kind th = th_kind (forked i) /\ exists a, th_kind th = Some a /\ animal_ok a (th_pc th)
  end.

(** The main thread has been told that all animals are done. *)
Definition told (p : pc) : Prop := match p with Want MainFree | Hold MainFree | Done => True | _ => False end.

Definition turn_ok (w : world) : Prop :=
  match whos_turn w with
  | None => forall a, waiting (side_of a w) = 0 /\ admitted (side_of a w) = 0 /\ left (side_of a w) = 0 /\ tsum (inside a) (threads w) = 0
  | Some a =>
      let x := side_of a w in
      0 <= left x /\ left x + tsum (inside a) (threads w) = admitted x /\ admitted x <= 2 /\
      (0 < tsum (inside a) (threads w) \/ 0 < waiting x /\ admitted x < 2) /\
      (admitted x < 2 -> tsum (asleep a) (threads w) = 0) /\
      admitted (side_of (other a) w) = 0 /\ left (side_of (other a) w) = 0 /\ tsum (inside (other a)) (threads w) = 0
  end.

Record inv (w : world) : Prop := {
  iv_threads t th : threads w !! t = Some th -> thread_ok (length (threads w)) t th;
  iv_some : (0 < length (threads w))%nat;
  iv_dishes : freed w = false -> length (dishes w) = 2%nat;
  iv_dish a d : (d < 2)%nat -> tsum (at_dish a d) (threads w) = Z.b2z (bool_decide (dishes w !! d = Some (Some a)));
  iv_waiting a : waiting (side_of a w) = tsum (waits a) (threads w);
  iv_done a : done (side_of a w) = tsum (finished a) (threads w);
  iv_turn : turn_ok w;
  iv_hold t th k : threads w !! t = Some th -> th_pc th = Hold k -> owner w = Some t;
  iv_owner t : owner w = Some t -> exists th k, threads w !! t = Some th /\ (th_pc th = Hold k \/ th_pc th = Done /\ freed w = true);
  iv_told th : threads w !! 0%nat = Some th -> told (th_pc th) -> forall t th', (0 < t)%nat -> threads w !! t = Some th' -> th_pc th' = Done;
  iv_freed : freed w = true -> (th_pc <$> threads w !! 0%nat) = Some Done;
}.

(** ** Waking *)

(** Some sleepers of [l] are awake in [l']. *)
Definition woken (l l' : list thread) : Prop := Forall2 (fun x y => y = x \/ (exists c k, th_pc x = Sleep c k) /\ y = wake x) l l'.

(** A quantity that waking does not change. *)
Definition stable (f : thread -> Z) : Prop := forall th c k, th_pc th = Sleep c k -> f (wake th) = f th.

Lemma stable_waits a : stable (waits a).
Proof. intros [x p] c k; cbn; intros ->. unfold waits, wake, is_kind. cbn. by destruct k. Qed.

Lemma stable_at a d : forall th c k, th_pc th = Sleep c k -> (forall e, k <> ReturnDish e) -> at_dish a d (wake th) = at_dish a d th.
Proof. intros [x p] c k; cbn; intros -> Hk. unfold at_dish, wake, is_kind. cbn. destruct k; done || by destruct (Hk my_dish). Qed.

Lemma stable_inside a : forall th c k, th_pc th = Sleep c k -> (forall e, k <> ReturnDish e) -> inside a (wake th) = inside a th.
Proof. intros [x p] c k; cbn; intros -> Hk. unfold inside, wake, is_kind. cbn. destruct k; done || by destruct (Hk my_dish). Qed.

Lemma stable_finished a : stable (finished a).
Proof. intros [x p] c k; cbn; intros ->. done. Qed.

Lemma woken_refl l : woken l l.
Proof. induction l; constructor; [by left|done]. Qed.

Lemma woken_trans l1 l2 l3 : woken l1 l2 -> woken l2 l3 -> woken l1 l3.
Proof.
  intros H12. revert l3. induction H12 as [|x y l1 l2 Hxy H12 IH]; intros l3 H23; inversion H23 as [|? z ? l3' Hyz H23']; subst; constructor; [|by apply IH].
  destruct Hxy as [->|[Hx ->]]; [done|]. destruct Hyz as [->|[(c & k & Hy) ->]]; [by right|]. destruct Hx as (c' & k' & Hx). exfalso.
  unfold wake in Hy. rewrite Hx in Hy. done.
Qed.

Lemma woken_map c l : woken l (wake_on c <$> l).
Proof.
  induction l as [|th l IH]; constructor; [|done]. unfold wake_on. destruct (th_pc th) eqn:E; try by left.
  case_decide; [right; split; [by do 2 eexists|done]|by left].
Qed.

Lemma woken_alter t l th c k : l !! t = Some th -> th_pc th = Sleep c k -> woken l (alter wake t l).
Proof.
  revert t. induction l as [|th' l IH]; intros t Ht Hp; [done|]. destruct t as [|t]; cbn in *.
  - injection Ht as ->. constructor; [right; split; [by do 2 eexists|done]|apply woken_refl].
  - constructor; [by left|]. by apply (IH t).
Qed.

Lemma woken_lookup l l' t th' : woken l l' -> l' !! t = Some th' ->
  exists th, l !! t = Some th /\ (th' = th \/ (exists c k, th_pc th = Sleep c k) /\ th' = wake th).
Proof. intros Hw Ht. destruct (Forall2_lookup_r _ _ _ _ _ Hw Ht) as (th & ? & ?). by exists th. Qed.

Lemma woken_keeps l l' t th : woken l l' -> l !! t = Some th -> (forall c k, th_pc th <> Sleep c k) -> l' !! t = Some th.
Proof.
  intros Hw Ht Hn. destruct (Forall2_lookup_l _ _ _ _ _ Hw Ht) as (th' & Ht' & [->|[(c & k & Hs) _]]); [done|]. by destruct (Hn c k).
Qed.

Lemma woken_tsum f l l' : woken l l' -> (forall th c k, th ∈ l -> th_pc th = Sleep c k -> f (wake th) = f th) -> tsum f l' = tsum f l.
Proof.
  intros Hw. induction Hw as [|x y l l' Hxy Hw IH]; intros Hf; [done|]. unfold tsum in *. cbn [foldr]. rewrite IH by (intros; eapply Hf; [by right|done]).
  destruct Hxy as [->|[(c & k & Hs) ->]]; [done|]. by rewrite (Hf x c k) by (done || left).
Qed.

Lemma woken_tsum_le f l l' : woken l l' -> (forall th c k, th_pc th = Sleep c k -> f (wake th) <= f th) -> tsum f l' <= tsum f l.
Proof.
  intros Hw Hf. induction Hw as [|x y l l' Hxy Hw IH]; [done|]. unfold tsum in *. cbn [foldr].
  destruct Hxy as [->|[(c & k & Hs) ->]]; [lia|]. specialize (Hf x c k Hs). lia.
Qed.

Lemma woken_asleep a l l' : woken l l' -> tsum (asleep a) l' <= tsum (asleep a) l.
Proof.
  intros Hw. apply (woken_tsum_le _ _ _ Hw). intros th c k E. unfold asleep, wake. rewrite E. cbn. by destruct (is_kind a th).
Qed.

(** ** The end of a critical section

    Thread [t] of kind [a] had the lock, has woken some threads, and is now
    at [p]. *)
Definition at_pc (p : pc) (th : thread) : thread := mk_thread (th_kind th) p.
Definition all_ok (l : list thread) : Prop := forall t th, l !! t = Some th -> thread_ok (length l) t th.

Lemma ok_sleep n t th c k : thread_ok n t th -> th_pc th = Sleep c k -> k = TurnLoop /\ (exists a, c = TurnCv a /\ th_kind th = Some a) \/ t = 0%nat /\ k = MainFree /\ c = AllDone.
Proof.
  destruct t as [|t]; cbn.
  - intros [_ Hm] E. rewrite E in Hm. destruct c, k; try done. by right.
  - intros (_ & a & Ha & Hp) E. rewrite E in Hp. destruct Hp as [-> ->]. left. split; [done|]. by exists a.
Qed.

Lemma woken_counts l l' a : all_ok l -> woken l l' ->
  tsum (waits a) l' = tsum (waits a) l /\ (forall d, tsum (at_dish a d) l' = tsum (at_dish a d) l) /\
  tsum (inside a) l' = tsum (inside a) l /\ tsum (finished a) l' = tsum (finished a) l.
Proof.
  intros Hok Hw. assert (forall th c k, th ∈ l -> th_pc th = Sleep c k -> forall e, k <> ReturnDish e) as Hk.
  { intros th c k [t Ht]%list_elem_of_lookup E e. destruct (ok_sleep _ _ _ c k (Hok t th Ht) E) as [[-> _]|(_ & -> & _)]; done. }
  repeat split; intros; apply woken_tsum; try done; intros th c k Hin E.
  - by eapply stable_waits.
  - eapply stable_at; [done|by eapply Hk].
  - eapply stable_inside; [done|by eapply Hk].
  - by eapply stable_finished.
Qed.

Lemma counts_after l l1 t th p a : all_ok l -> woken l l1 -> l !! t = Some th -> (forall c k, th_pc th <> Sleep c k) ->
  let l' := alter (at_pc p) t l1 in
  tsum (waits a) l' = tsum (waits a) l - waits a th + waits a (at_pc p th) /\
  (forall d, tsum (at_dish a d) l' = tsum (at_dish a d) l - at_dish a d th + at_dish a d (at_pc p th)) /\
  tsum (inside a) l' = tsum (inside a) l - inside a th + inside a (at_pc p th) /\
  tsum (finished a) l' = tsum (finished a) l - finished a th + finished a (at_pc p th) /\
  tsum (asleep a) l' = tsum (asleep a) l1 + asleep a (at_pc p th).
Proof.
  intros Hok Hw Ht Hn l'. destruct (woken_counts l l1 a Hok Hw) as (E1 & E2 & E3 & E4). pose proof (woken_keeps _ _ _ _ Hw Ht Hn) as Ht1.
  unfold l'. rewrite !(tsum_alter _ _ _ _ _ Ht1), E1, E3, E4. repeat split; try lia.
  - intros d. rewrite (tsum_alter _ _ _ _ _ Ht1), E2. lia.
  - replace (asleep a th) with 0; [lia|]. unfold asleep. destruct (th_pc th) eqn:E; try done. by destruct (Hn c k).
Qed.

Lemma thread_ok_wake n t th c k : thread_ok n t th -> th_pc th = Sleep c k -> thread_ok n t (wake th).
Proof.
  intros Hok E. unfold wake. rewrite E. destruct (ok_sleep n t th c k Hok E) as [[-> (a & -> & Ha)]|(-> & -> & ->)]; cbn in *.
  - destruct t as [|t]; cbn in *; [destruct Hok as [Hk _]; congruence|]. destruct Hok as (Hk & b & Hb & _). split; [done|]. by exists b.
  - by rewrite E in Hok.
Qed.

Lemma woken_ok l l' : all_ok l -> woken l l' -> all_ok l'.
Proof.
  intros Hok Hw t th' Ht. rewrite <- (Forall2_length Hw). destruct (woken_lookup _ _ _ _ Hw Ht) as (th & Hth & [->|[(c & k & Hs) ->]]); [by apply Hok|].
  by eapply thread_ok_wake; [apply Hok|].
Qed.

Lemma all_ok_alter l t th a p : all_ok l -> l !! t = Some th -> th_kind th = Some a -> animal_ok a p -> all_ok (alter (at_pc p) t l).
Proof.
  intros Hok Ht Ha Hp j th'. rewrite length_alter. destruct (decide (j = t)) as [->|Hne]; [|rewrite list_lookup_alter_ne by done; apply Hok].
  rewrite list_lookup_alter_eq, Ht. intros [= <-]. specialize (Hok _ _ Ht). destruct t as [|t]; cbn in *; destruct Hok as [Hk Hok]; [congruence|].
  split; [done|]. by exists a.
Qed.

Lemma inv_after w w' t th a l1 p : inv w -> threads w !! t = Some th -> th_kind th = Some a -> owner w = Some t -> freed w = false ->
  (exists k, th_pc th = Hold k) -> woken (threads w) l1 -> threads w' = alter (at_pc p) t l1 -> owner w' = None -> freed w' = false ->
  animal_ok a p -> (forall k, p <> Hold k) ->
  length (dishes w') = 2%nat ->
  (forall b d, (d < 2)%nat -> tsum (at_dish b d) (threads w') = Z.b2z (bool_decide (dishes w' !! d = Some (Some b)))) ->
  (forall b, waiting (side_of b w') = tsum (waits b) (threads w')) ->
  (forall b, done (side_of b w') = tsum (finished b) (threads w')) ->
  turn_ok w' ->
  (forall th0, l1 !! 0%nat = Some th0 -> told (th_pc th0) -> forall t' th', (0 < t')%nat -> threads w' !! t' = Some th' -> th_pc th' = Done) ->
  inv w'.
Proof.
  intros Hi Ht Ha Ho Hfr (k & Hk) Hw Et Eo Ef Hp Hnh Hd Hdish Hwait Hdone Hturn Htold.
  assert (forall c k, th_pc th <> Sleep c k) as Hns by (intros; congruence). pose proof (woken_keeps _ _ _ _ Hw Ht Hns) as Ht1.
  pose proof (Forall2_length Hw) as Hlen. assert (t <> 0%nat) as Ht0.
  { intros ->. pose proof (iv_threads _ Hi _ _ Ht) as [Hkd _]. congruence. }
  assert (length (threads w') = length (threads w)) as Hl' by (by rewrite Et, length_alter).
  assert (forall j th', threads w' !! j = Some th' -> j = t /\ th' = at_pc p th \/ j <> t /\ l1 !! j = Some th') as Hlook.
  { intros j th'. rewrite Et. destruct (decide (j = t)) as [->|Hne]; [rewrite list_lookup_alter_eq, Ht1; intros [= <-]; by left|].
    rewrite list_lookup_alter_ne by done. by right. }
  split; try done.
  - rewrite Et. by eapply all_ok_alter; [eapply woken_ok, Hw; exact (iv_threads _ Hi)|..].
  - rewrite Hl'. apply Hi.
  - intros j th' k' [[-> ->]|[Hne Hj]]%Hlook E; [by destruct (Hnh k')|]. exfalso.
    destruct (woken_lookup _ _ _ _ Hw Hj) as (x & Hx & [->|[(c & k2 & Hs) ->]]).
    + pose proof (iv_hold _ Hi _ _ _ Hx E). congruence.
    + unfold wake in E. by rewrite Hs in E.
  - intros j Hj. congruence.
  - intros th0 [[? _]|[_ H0]]%Hlook Htl; [done|]. by eapply Htold.
  - intros Hf. congruence.
Qed.

(** ** Asking for a dish *)

Lemma other_ne a : other a <> a.
Proof. by destruct a. Qed.
Lemma kind_cases (a b : kind) : b = a \/ b = other a.
Proof. destruct a, b; auto. Qed.
Lemma other_other a : other (other a) = a.
Proof. by destruct a. Qed.

Lemma asleep_le_waits l a : all_ok l -> tsum (asleep a) l <= tsum (waits a) l.
Proof.
  intros Hok. apply tsum_mono. intros th [t Ht]%list_elem_of_lookup. unfold asleep, waits. destruct (th_pc th) as [| | |c k| |] eqn:E; try (repeat case_match; destruct (is_kind a th); cbn; lia).
  destruct (ok_sleep _ _ _ c k (Hok t th Ht) E) as [[-> _]|(-> & -> & ->)]; [done|]. destruct (Hok 0%nat th Ht) as [Hk _]. unfold is_kind. rewrite Hk, bool_decide_false by done. done.
Qed.

Lemma waits_nonneg a th : 0 <= waits a th.
Proof. unfold waits. repeat case_match; destruct (is_kind a th); cbn; lia. Qed.
Lemma asleep_nonneg a th : 0 <= asleep a th.
Proof. unfold asleep. repeat case_match; destruct (is_kind a th); cbn; lia. Qed.
Lemma inside_nonneg a th : 0 <= inside a th.
Proof. unfold inside. repeat case_match; destruct (is_kind a th); cbn; lia. Qed.
Lemma at_dish_nonneg a d th : 0 <= at_dish a d th.
Proof. unfold at_dish. destruct (th_pc th) as [| [] | [] | | |]; try done; by destruct (_ && _). Qed.

(** Whoever is inside is at one of the two dishes. *)
Lemma inside_dishes l a : all_ok l -> tsum (inside a) l = tsum (at_dish a 0) l + tsum (at_dish a 1) l.
Proof.
  intros Hok. rewrite <- tsum_plus. apply Z.le_antisymm; apply tsum_mono; intros th [t Ht]%list_elem_of_lookup; specialize (Hok t th Ht);
    unfold inside, at_dish; (destruct t as [|t]; [destruct Hok as [Hk Hm]|destruct Hok as (_ & b & Hk & Hm)]);
    destruct (th_pc th) as [| [] | [] | | d |] eqn:E; try done; cbn in Hm;
    unfold is_kind; rewrite Hk; (destruct (bool_decide _); cbn [andb Z.b2z]; [|done]);
    match goal with H : (?d < 2)%nat |- _ => destruct d as [|[|]]; cbn; lia end.
Qed.

Lemma is_kind_same a th : th_kind th = Some a -> is_kind a th = true /\ is_kind (other a) th = false.
Proof. intros H. unfold is_kind. rewrite H. destruct a; split; (by apply bool_decide_true) || by apply bool_decide_false. Qed.

(** The variables of a side after an update. *)
Lemma side_set_same a x w : side_of a (set_side a x w) = x.
Proof. by destruct a. Qed.
Lemma side_set_other a x w : side_of (other a) (set_side a x w) = side_of (other a) w.
Proof. by destruct a. Qed.
Lemma side_threads a l ts w : side_of a (set_threads l ts w) = side_of a w.
Proof. by destruct a. Qed.
Lemma side_owner a o w : side_of a (set_owner o w) = side_of a w.
Proof. by destruct a. Qed.
Lemma side_dishes a d w : side_of a (set_dishes d w) = side_of a w.
Proof. by destruct a. Qed.
Lemma side_turn a o w : side_of a (set_turn o w) = side_of a w.
Proof. by destruct a. Qed.
Lemma side_pc a t p w : side_of a (set_pc t p w) = side_of a w.
Proof. by destruct a. Qed.

Create Rewrite HintDb sides.
#[export] Hint Rewrite side_set_same side_set_other side_threads side_owner side_dishes side_turn side_pc other_other : sides.

(** A dish is free if at most one animal is inside. *)
Lemma dish_free w : inv w -> freed w = false -> tsum (inside Cat) (threads w) + tsum (inside Mouse) (threads w) <= 1 ->
  exists d, list_find (fun x => x = None) (dishes w) = Some (d, None) /\ (d < 2)%nat /\ dishes w !! d = Some None.
Proof.
  intros Hi Hfr Hle. pose proof (iv_dishes _ Hi Hfr) as Hl. rewrite !(inside_dishes _ _ (iv_threads _ Hi)), !(iv_dish _ Hi) in Hle by lia.
  destruct (dishes w) as [|x [|y [|]]]; try done. cbn in Hle.
  destruct x as [x|]; [|exists 0%nat; split_and!; done || lia]. destruct y as [y|]; [|exists 1%nat; split_and!; done || lia]. exfalso.
  destruct x, y; vm_compute in Hle; done.
Qed.

Section petition.
Variables (w wx : world) (t : nat) (th : thread) (a : kind).
Hypotheses (Hi : inv w) (Ht : threads w !! t = Some th) (Ha : th_kind th = Some a) (Ho : owner w = Some t) (Hfr : freed w = false).
Hypothesis Hpc : th_pc th = Hold Petition \/ th_pc th = Hold TurnLoop.
Hypotheses (Et : threads wx = threads w) (Eo : owner wx = owner w) (Ef : freed wx = freed w) (Ed : dishes wx = dishes w).
Hypothesis Eother : side_of (other a) wx = side_of (other a) w.
Hypothesis Ea : side_of a wx = mk_side (done (side_of a w)) (tsum (waits a) (threads w) - waits a th + 1) (admitted (side_of a w)) (left (side_of a w)).
Hypothesis Eturn : whos_turn wx = Some a /\ whos_turn w = None \/ whos_turn wx = whos_turn w /\ whos_turn w <> None.

Lemma petition_counts b : waits (other a) th = 0 /\ (forall d, at_dish b d th = 0) /\ inside b th = 0 /\ finished b th = 0.
Proof. destruct (is_kind_same a th Ha) as [E1 E2]. unfold waits, at_dish, inside, finished. rewrite E2. destruct Hpc as [-> | ->]; done. Qed.

Lemma not_told : forall th0, threads w !! 0%nat = Some th0 -> ~ told (th_pc th0).
Proof.
  intros th0 H0 Htl. assert (0 < t)%nat as Hpos.
  { destruct t; [|lia]. pose proof (iv_threads _ Hi _ _ Ht) as [Hk _]. congruence. }
  pose proof (iv_told _ Hi th0 H0 Htl t th Hpos Ht). destruct Hpc; congruence.
Qed.

(** The turn when the thread asks, apart from its own waiting. *)
Lemma petition_turn : exists b, whos_turn wx = Some b /\
  let x := side_of b w in
  0 <= left x /\ left x + tsum (inside b) (threads w) = admitted x /\ admitted x <= 2 /\
  (admitted x < 2 -> tsum (asleep b) (threads w) = 0) /\
  (b = a \/ 0 < waiting x \/ 0 < tsum (inside b) (threads w)) /\
  (0 < tsum (inside b) (threads w) \/ admitted x < 2) /\
  admitted (side_of (other b) w) = 0 /\ left (side_of (other b) w) = 0 /\ tsum (inside (other b)) (threads w) = 0.
Proof.
  pose proof (iv_turn _ Hi) as Htn. unfold turn_ok in Htn. destruct Eturn as [[-> En]|[-> En]].
  - rewrite En in Htn. exists a. split; [done|]. destruct (Htn a) as (H1 & H2 & H3 & H4), (Htn (other a)) as (H5 & H6 & H7 & H8).
    pose proof (asleep_le_waits (threads w) a (iv_threads _ Hi)). rewrite (iv_waiting _ Hi a) in H1.
    pose proof (tsum_nonneg (asleep a) (threads w) (asleep_nonneg a)). cbv zeta. repeat split; try lia; auto; lia.
  - destruct (whos_turn w) as [b|]; [|done]. exists b. split; [done|]. destruct Htn as (H1 & H2 & H3 & H4 & H5 & H6 & H7 & H8). cbv zeta. repeat split; try done; tauto.
Qed.

Lemma petition_sleeps : whos_turn wx <> Some a \/ 2 <= admitted (side_of a w) ->
  exists w', cv_wait t (TurnCv a) TurnLoop wx = Ok w' /\ threads w' = alter (at_pc (Sleep (TurnCv a) TurnLoop)) t (threads w) /\ inv w'.
Proof.
  intros Hno. unfold cv_wait, lock_do_i_hold. rewrite Eo, bool_decide_true by done. cbn [assert]. rewrite bind_Ok. eexists. split; [done|].
  match goal with |- _ /\ inv ?x => set (w' := x) end. set (p := Sleep (TurnCv a) TurnLoop).
  assert (threads w' = alter (at_pc p) t (threads w)) as Et' by (rewrite <- Et; done). split; [done|].
  assert (dishes w' = dishes w) as Ed' by done. assert (whos_turn w' = whos_turn wx) as Ew' by done.
  assert (forall b, side_of b w' = side_of b wx) as Es' by (intros b; by destruct b).
  assert (owner w' = None /\ freed w' = false) as [Eo' Ef'] by (split; [done|transitivity (freed wx); [done|congruence]]). clearbody w'.
  assert (forall c k, th_pc th <> Sleep c k) as Hns by (intros; destruct Hpc; congruence). destruct (is_kind_same a th Ha) as [K1 K2].
  pose proof (fun b => counts_after _ _ t th p b (iv_threads _ Hi) (woken_refl _) Ht Hns) as C. rewrite <- Et' in C.
  assert (forall b, asleep b (at_pc p th) = Z.b2z (is_kind b th) /\ waits b (at_pc p th) = Z.b2z (is_kind b th)) as Kp by done.
  eapply (inv_after w w' t th a (threads w) p); try done.
  - by destruct Hpc; eexists.
  - apply woken_refl.
  - rewrite Ed'. by apply Hi.
  - intros b d Hd. destruct (C b) as (_ & -> & _). destruct (petition_counts b) as (_ & -> & _). rewrite Ed', (iv_dish _ Hi) by done. unfold at_dish. cbn. lia.
  - intros b. rewrite Es'. destruct (C b) as (-> & _), (Kp b) as [_ ->]. destruct (kind_cases a b) as [-> | ->].
    + rewrite Ea, K1. cbn. lia.
    + rewrite Eother, K2, (iv_waiting _ Hi). destruct (petition_counts a) as (-> & _). cbn. lia.
  - intros b. rewrite Es'. destruct (C b) as (_ & _ & _ & -> & _). destruct (petition_counts b) as (_ & _ & _ & ->). unfold finished at 2. cbn [th_pc at_pc p].
    destruct (kind_cases a b) as [-> | ->]; [rewrite Ea|rewrite Eother]; cbn [done]; rewrite (iv_done _ Hi); lia.
  - destruct petition_turn as (b & Eb & H1 & H2 & H3 & H4 & H5 & H6 & H7 & H8 & H9). unfold turn_ok. rewrite Ew', Eb. cbv zeta. rewrite !Es'.
    destruct (C b) as (_ & _ & -> & _ & ->), (C (other b)) as (_ & _ & -> & _ & _).
    destruct (petition_counts b) as (_ & _ & -> & _), (petition_counts (other b)) as (_ & _ & -> & _), (Kp b) as [-> _].
    assert (inside b (at_pc p th) = 0 /\ inside (other b) (at_pc p th) = 0) as [-> ->] by done.
    destruct (kind_cases a b) as [-> | ->].
    + rewrite Ea, Eother, K1. cbn [left admitted waiting]. destruct Hno as [?|?]; [congruence|]. split_and!; lia.
    + rewrite other_other in *. rewrite Eother, Ea, K2. cbn [left admitted waiting Z.b2z]. destruct H5 as [H5|H5]; [by destruct (other_ne a)|]. split_and!; lia.
  - intros th0 H0 Htl. by destruct (not_told th0 H0).
Qed.

Lemma petition_eats : whos_turn wx = Some a -> admitted (side_of a w) < 2 ->
  exists d w', dish_loop t a (set_side a (mk_side (done (side_of a w)) (waiting (side_of a wx) - 1) (admitted (side_of a w) + 1) (left (side_of a w))) wx) = Ok w' /\
    threads w' = alter (at_pc (Eating d)) t (threads w) /\ inv w'.
Proof.
  intros Etn Hlt. destruct petition_turn as (b & Eb & H1 & H2 & H3 & H4 & H5 & H6 & H7 & H8 & H9). assert (b = a) as -> by congruence.
  destruct (dish_free w Hi Hfr) as (d & Hf & Hd & Hnd).
  { destruct a; cbn [other] in *; lia. }
  exists d. unfold dish_loop, get_empty_dish, lock_do_i_hold. cbn [owner set_side dishes]. rewrite Eo, Ed, bool_decide_true by done. cbn [assert]. rewrite !bind_Ok, Hf. cbn [fmap option_fmap option_map fst].
  unfold lock_release, lock_do_i_hold. cbn [owner set_side set_dishes]. rewrite Eo, bool_decide_true by done. cbn [assert]. rewrite bind_Ok. eexists. split; [done|].
  match goal with |- _ /\ inv ?x => set (w' := x) end. set (p := Eating d).
  assert (threads w' = alter (at_pc p) t (threads w)) as Et' by (rewrite <- Et; done). split; [done|].
  assert (dishes w' = <[d := Some a]> (dishes w)) as Ed' by done. assert (whos_turn w' = Some a) as Ew' by exact Etn.
  assert (side_of a w' = mk_side (done (side_of a w)) (waiting (side_of a wx) - 1) (admitted (side_of a w) + 1) (left (side_of a w))) as Ea' by (by destruct a).
  assert (side_of (other a) w' = side_of (other a) w) as Eother' by (rewrite <- Eother; by destruct a).
  assert (owner w' = None /\ freed w' = false) as [Eo' Ef'] by (split; [done|transitivity (freed wx); [done|congruence]]). clearbody w'.
  assert (forall c k, th_pc th <> Sleep c k) as Hns by (intros; destruct Hpc; congruence). destruct (is_kind_same a th Ha) as [K1 K2].
  pose proof (fun b => counts_after _ _ t th p b (iv_threads _ Hi) (woken_refl _) Ht Hns) as C. rewrite <- Et' in C.
  assert (forall b, inside b (at_pc p th) = Z.b2z (is_kind b th) /\ waits b (at_pc p th) = 0) as Kp by done.
  assert (forall b e, at_dish b e (at_pc p th) = Z.b2z (is_kind b th && (d =? e)%nat)) as Kd by done.
  pose proof (iv_dishes _ Hi Hfr) as Hdl.
  eapply (inv_after w w' t th a (threads w) p); try done.
  - by destruct Hpc; eexists.
  - apply woken_refl.
  - by rewrite Ed', length_insert.
  - intros b e He. destruct (C b) as (_ & -> & _). destruct (petition_counts b) as (_ & -> & _). rewrite Ed', Kd, (iv_dish _ Hi) by done.
    destruct (Nat.eqb_spec d e) as [<-|Hne]; [|rewrite list_lookup_insert_ne, andb_false_r by done; cbn; lia].
    rewrite list_lookup_insert_eq, Hnd, andb_true_r by lia. rewrite (bool_decide_false (Some None = _)) by done.
    destruct (kind_cases a b) as [-> | ->]; [by rewrite K1, bool_decide_true by done|].
    rewrite K2, (bool_decide_false (Some (Some a) = _)); [done|]. pose proof (other_ne a). congruence.
  - intros b. destruct (C b) as (-> & _), (Kp b) as [_ ->]. destruct (kind_cases a b) as [-> | ->].
    + rewrite Ea', Ea. cbn. lia.
    + rewrite Eother', (iv_waiting _ Hi). destruct (petition_counts a) as (-> & _). lia.
  - intros b. destruct (C b) as (_ & _ & _ & -> & _). destruct (petition_counts b) as (_ & _ & _ & ->). unfold finished at 2. cbn [th_pc at_pc p].
    destruct (kind_cases a b) as [-> | ->]; [rewrite Ea'|rewrite Eother']; cbn [done]; rewrite (iv_done _ Hi); lia.
  - unfold turn_ok. rewrite Ew'. cbv zeta. rewrite Ea', Eother'. destruct (C a) as (_ & _ & -> & _ & ->), (C (other a)) as (_ & _ & -> & _ & _).
    destruct (petition_counts a) as (_ & _ & -> & _), (petition_counts (other a)) as (_ & _ & -> & _), (Kp a) as [-> _], (Kp (other a)) as [-> _].
    rewrite K1, K2. change (asleep a (at_pc p th)) with 0. cbn [left admitted waiting Z.b2z].
    pose proof (tsum_nonneg (inside a) (threads w) (inside_nonneg a)). split_and!; lia.
  - intros th0 H0 Htl. by destruct (not_told th0 H0).
Qed.

Lemma turn_loop_inv : exists p w', turn_loop t a wx = Ok w' /\ threads w' = alter (at_pc p) t (threads w) /\ inv w' /\
  (p = Sleep (TurnCv a) TurnLoop \/ exists d, p = Eating d).
Proof.
  unfold turn_loop. cbv zeta. destruct (bool_decide_reflect (whos_turn wx <> Some a)) as [Hn|Hn]; cbn [orb].
  - destruct petition_sleeps as (w' & ? & ? & ?); [by left|]. do 2 eexists. eauto.
  - rewrite Ea. cbn [admitted]. unfold TURN_COUNT. destruct (Z.geb_spec (admitted (side_of a w)) 2) as [Hg|Hg].
    + destruct petition_sleeps as (w' & ? & ? & ?); [by right|]. do 2 eexists. eauto.
    + cbn [done waiting left admitted]. destruct (petition_eats (dec_stable Hn) Hg) as (d & w' & Hr & ? & ?). rewrite Ea in Hr. cbn [waiting] in Hr.
      pose proof (tsum_nonneg (waits a) (threads w) (waits_nonneg a)).
      assert (waits a th <= tsum (waits a) (threads w)) by (apply tsum_elem; [apply waits_nonneg|by eapply list_elem_of_lookup_2]).
      rewrite (proj2 (Z.leb_le _ _)), (proj2 (Z.geb_ge _ _)) by lia. cbn [assert]. rewrite !bind_Ok. exists (Eating d), w'. eauto 6.
Qed.
End petition.

(** ** Returning a dish *)

(** A broadcast leaves nobody of that kind asleep. *)
Lemma broadcast_asleep l b : all_ok l -> tsum (asleep b) (wake_on (TurnCv b) <$> l) = 0.
Proof.
  intros Hok. apply tsum_zero. intros x (th & -> & [t Ht]%list_elem_of_lookup)%list_elem_of_fmap. specialize (Hok t th Ht).
  unfold asleep, wake_on. destruct (th_pc th) as [| | |c k| |] eqn:E; rewrite ?E; try done.
  destruct (ok_sleep _ _ _ _ _ Hok E) as [[-> (a & -> & Ha)]|(-> & -> & ->)].
  - case_decide; [unfold wake; rewrite E; done|]. rewrite E. unfold is_kind. rewrite Ha, bool_decide_false by congruence. done.
  - rewrite decide_False, E by done. destruct Hok as [Hk _]. unfold is_kind. rewrite Hk, bool_decide_false by done. done.
Qed.

Lemma broadcast_main l b th0 : all_ok l -> (wake_on (TurnCv b) <$> l) !! 0%nat = Some th0 -> l !! 0%nat = Some th0.
Proof.
  intros Hok. rewrite list_lookup_fmap. destruct (l !! 0%nat) as [th|] eqn:E; [|done]. cbn. intros [= <-]. f_equal. unfold wake_on.
  destruct (th_pc th) as [| | |c k| |] eqn:Ep; try done. destruct (Hok _ _ E) as [_ Hm]. rewrite Ep in Hm. by destruct c.
Qed.

(** Nobody waits for a dish. *)
Lemma signal_dish me w : all_ok (threads w) -> owner w = Some me -> cv_signal me EmptyDish w = Ok w.
Proof.
  intros Hok Ho. unfold cv_signal, lock_do_i_hold. rewrite bool_decide_true by done. cbn [assert]. rewrite bind_Ok.
  destruct (list_find _ _) as [[i t]|] eqn:E; [|done]. apply list_find_Some in E as (_ & Hs & _). unfold sleeps_on in Hs. exfalso.
  destruct (threads w !! t) as [th|] eqn:Et; [|done]. cbn in Hs. destruct (th_pc th) as [| | |c k| |] eqn:Ep; try done. apply bool_decide_eq_true in Hs as ->.
  by destruct (ok_sleep _ _ _ _ _ (Hok t th Et) Ep) as [[_ (b & Hb & _)]|(_ & _ & Hb)].
Qed.

(** Only the main thread waits for all animals. *)
Lemma signal_done me w : all_ok (threads w) -> owner w = Some me ->
  cv_signal me AllDone w = Ok w \/
  exists l th0, cv_signal me AllDone w = Ok (set_threads l (alter wake 0%nat (threads w)) w) /\ threads w !! 0%nat = Some th0 /\ th_pc th0 = Sleep AllDone MainFree.
Proof.
  intros Hok Ho. unfold cv_signal, lock_do_i_hold. rewrite bool_decide_true by done. cbn [assert]. rewrite bind_Ok.
  destruct (list_find _ _) as [[i t]|] eqn:E; [|by left]. apply list_find_Some in E as (_ & Hs & _). unfold sleeps_on in Hs. right.
  destruct (threads w !! t) as [th|] eqn:Et; [|done]. cbn in Hs. destruct (th_pc th) as [| | |c k| |] eqn:Ep; try done. apply bool_decide_eq_true in Hs as ->.
  destruct (ok_sleep _ _ _ _ _ (Hok t th Et) Ep) as [[_ (b & Hb & _)]|(-> & -> & _)]; [done|]. by do 2 eexists.
Qed.

Section return_dish.
Variables (w : world) (t : nat) (th : thread) (a : kind) (d : nat).
Hypotheses (Hi : inv w) (Ht : threads w !! t = Some th) (Ha : th_kind th = Some a) (Ho : owner w = Some t) (Hfr : freed w = false).
Hypothesis Hpc : th_pc th = Hold (ReturnDish d).

Lemma return_counts b : waits b th = 0 /\ (forall e, at_dish b e th = Z.b2z (is_kind b th && (d =? e)%nat)) /\ inside b th = Z.b2z (is_kind b th) /\ finished b th = 0.
Proof. unfold waits, at_dish, inside, finished. by rewrite Hpc. Qed.

Lemma return_dish_held : (d < 2)%nat /\ dishes w !! d = Some (Some a).
Proof.
  pose proof (iv_threads _ Hi _ _ Ht) as Hok. assert (d < 2)%nat as Hd.
  { destruct t; destruct Hok as [Hk Hok]; [congruence|]. destruct Hok as (b & _ & Hb). by rewrite Hpc in Hb. }
  split; [done|]. assert (at_dish a d th <= tsum (at_dish a d) (threads w)) as Hle by (apply tsum_elem; [apply at_dish_nonneg|by eapply list_elem_of_lookup_2]).
  destruct (return_counts a) as (_ & E & _). destruct (is_kind_same a th Ha) as [K1 _]. rewrite E, K1, Nat.eqb_refl, (iv_dish _ Hi) in Hle by done.
  case_bool_decide; [done|]. by cbn in Hle.
Qed.

Lemma clear_counters w1 : let w2 := clear_turn_counters w1 in
  threads w2 = threads w1 /\ owner w2 = owner w1 /\ freed w2 = freed w1 /\ dishes w2 = dishes w1 /\ whos_turn w2 = whos_turn w1 /\
  (forall b, side_of b w2 = clear (side_of b w1)).
Proof. split_and!; try done; by intros []. Qed.

(** The turn when the thread has left. *)
Definition turn_left (w2 : world) : Prop :=
  let rest b := tsum (inside b) (threads w) - inside b th in
  match whos_turn w2 with
  | None => forall b, waiting (side_of b w2) = 0 /\ admitted (side_of b w2) = 0 /\ left (side_of b w2) = 0 /\ rest b = 0
  | Some b =>
      let x := side_of b w2 in
      0 <= left x /\ left x + rest b = admitted x /\ admitted x <= 2 /\ (0 < rest b \/ 0 < waiting x /\ admitted x < 2) /\
      (admitted x < 2 -> tsum (asleep b) (threads w2) = 0) /\
      admitted (side_of (other b) w2) = 0 /\ left (side_of (other b) w2) = 0 /\ rest (other b) = 0
  end.

Lemma return_turn : whos_turn w = Some a /\ inside a th = 1 /\ inside (other a) th = 0 /\
  let x := side_of a w in
  0 <= left x /\ left x + tsum (inside a) (threads w) = admitted x /\ admitted x <= 2 /\ 1 <= tsum (inside a) (threads w) /\
  (admitted x < 2 -> tsum (asleep a) (threads w) = 0) /\
  admitted (side_of (other a) w) = 0 /\ left (side_of (other a) w) = 0 /\ tsum (inside (other a)) (threads w) = 0.
Proof.
  destruct (return_counts a) as (_ & _ & E1 & _), (return_counts (other a)) as (_ & _ & E2 & _). destruct (is_kind_same a th Ha) as [K1 K2]. rewrite K1 in E1. rewrite K2 in E2.
  assert (inside a th <= tsum (inside a) (threads w)) as Hle by (apply tsum_elem; [apply inside_nonneg|by eapply list_elem_of_lookup_2]). rewrite E1 in Hle. cbn in *.
  pose proof (iv_turn _ Hi) as Htn. unfold turn_ok in Htn. destruct (whos_turn w) as [b|]; [|destruct (Htn a) as (_ & _ & _ & ?); lia].
  destruct Htn as (H1 & H2 & H3 & H4 & H5 & H6 & H7 & H8). destruct (kind_cases a b) as [-> | ->]; [|rewrite other_other in H8; lia]. split_and!; try done; lia.
Qed.

(** The world [w2] after [end_turn_logic], with dishes [ds]. *)
Definition turn_ended (ds : list (option kind)) (w2 : world) : Prop :=
  woken (threads w) (threads w2) /\ (forall th0, threads w2 !! 0%nat = Some th0 -> threads w !! 0%nat = Some th0) /\
  owner w2 = owner w /\ freed w2 = freed w /\ dishes w2 = ds /\
  (forall b, done (side_of b w2) = done (side_of b w) /\ waiting (side_of b w2) = waiting (side_of b w)) /\ turn_left w2.

Section end_turn.
Variables (ds : list (option kind)) (w1 : world).
Hypothesis Ew1 : w1 = set_side a (mk_side (done (side_of a w)) (waiting (side_of a w)) (admitted (side_of a w)) (left (side_of a w) + 1)) (set_dishes ds w).

Lemma end_turn_same b : done (side_of b w1) = done (side_of b w) /\ waiting (side_of b w1) = waiting (side_of b w).
Proof. rewrite Ew1. by destruct a, b. Qed.

Lemma turn_stays : left (side_of a w1) < admitted (side_of a w1) \/ left (side_of a w1) < 2 /\ 0 < waiting (side_of a w1) -> turn_ended ds w1.
Proof.
  destruct return_turn as (Ew & I1 & I2 & H1 & H2 & H3 & H4 & H5 & H6 & H7 & H8). intros Hc. unfold turn_ended. split_and!; try (by rewrite Ew1).
  - rewrite Ew1. apply woken_refl.
  - apply end_turn_same.
  - unfold turn_left. assert (whos_turn w1 = Some a) as -> by (by rewrite Ew1). assert (threads w1 = threads w) as -> by (by rewrite Ew1). cbv zeta. rewrite I1, I2. revert Hc.
    assert (side_of (other a) w1 = side_of (other a) w) as -> by (rewrite Ew1; by destruct a).
    rewrite Ew1, side_set_same. cbn [left admitted waiting]. intros Hc. split_and!; lia.
Qed.

(** The turn goes to kind [b]. *)
Lemma turn_passes b : tsum (inside a) (threads w) = 1 -> 0 < waiting (side_of b w) ->
  exists w2, (wb ← cv_broadcast t (TurnCv b) (set_turn (Some b) w1); Ok (clear_turn_counters wb)) = Ok w2 /\ turn_ended ds w2.
Proof.
  destruct return_turn as (Ew & I1 & I2 & H1 & H2 & H3 & H4 & H5 & H6 & H7 & H8). intros Hone Hb. unfold cv_broadcast, lock_do_i_hold.
  assert (owner w1 = owner w /\ freed w1 = freed w /\ threads w1 = threads w /\ dishes w1 = ds) as (E1 & E2 & E3 & E4) by (by rewrite Ew1).
  cbn [owner set_turn]. rewrite E1, bool_decide_true by done. cbn [assert]. rewrite !bind_Ok. eexists. split; [done|].
  set (wb := set_threads _ _ _). destruct (clear_counters wb) as (C1 & C2 & C3 & C4 & C5 & C6).
  assert (threads wb = wake_on (TurnCv b) <$> threads w) as Et by (rewrite <- E3; done).
  assert (forall c, side_of c wb = side_of c w1) as Es by (by intros []). unfold turn_ended. rewrite C1, C2, C3, C4, Et. split_and!; try done.
  - apply woken_map.
  - intros th0. exact (broadcast_main _ _ _ (iv_threads _ Hi)).
  - intros c. rewrite C6, Es. apply end_turn_same.
  - unfold turn_left. rewrite C5, C1, Et. cbn [whos_turn set_threads set_turn wb]. cbv zeta. rewrite !C6, !Es. cbn [clear left admitted waiting].
    rewrite (proj2 (end_turn_same b)), (broadcast_asleep _ _ (iv_threads _ Hi)). destruct (kind_cases a b) as [-> | ->]; rewrite ?other_other; split_and!; lia.
Qed.

Lemma turn_to_nobody : tsum (inside a) (threads w) = 1 -> (forall b, waiting (side_of b w) = 0) -> turn_ended ds (clear_turn_counters (set_turn None w1)).
Proof.
  destruct return_turn as (Ew & I1 & I2 & H1 & H2 & H3 & H4 & H5 & H6 & H7 & H8). intros Hone Hz. destruct (clear_counters (set_turn None w1)) as (C1 & C2 & C3 & C4 & C5 & C6).
  unfold turn_ended. rewrite C1, C2, C3, C4. cbn [threads owner freed dishes set_turn]. split_and!; try (by rewrite Ew1).
  - rewrite Ew1. apply woken_refl.
  - intros c. rewrite C6, side_turn. apply end_turn_same.
  - unfold turn_left. rewrite C5. cbn [whos_turn set_turn]. cbv zeta. intros b. rewrite C6, side_turn. cbn [clear left admitted waiting]. rewrite (proj2 (end_turn_same b)).
    destruct (kind_cases a b) as [-> | ->]; split_and!; done || lia.
Qed.
End end_turn.

Lemma end_turn_spec ds : exists w2, end_turn_logic t a (set_dishes ds w) = Ok w2 /\ turn_ended ds w2.
Proof.
  destruct return_turn as (Ew & I1 & I2 & H1 & H2 & H3 & H4 & H5 & H6 & H7 & H8).
  assert (forall b, 0 <= waiting (side_of b w)) as Hwn by (intros b; rewrite (iv_waiting _ Hi); apply tsum_nonneg, waits_nonneg).
  unfold end_turn_logic. cbv zeta. rewrite side_dishes. cbn [done waiting admitted left]. set (w1 := set_side a _ _). assert (side_of a w1 = mk_side (done (side_of a w)) (waiting (side_of a w)) (admitted (side_of a w)) (left (side_of a w) + 1)) as X1 by apply side_set_same.
  assert (side_of (other a) w1 = side_of (other a) w) as -> by (by destruct a). pose proof (turn_stays ds w1 eq_refl) as Hstay. rewrite X1 in Hstay. cbn [left admitted waiting] in Hstay.
  unfold TURN_COUNT. destruct (Z.ltb_spec (left (side_of a w) + 1) (admitted (side_of a w))) as [Hl|Hl]; [eauto|].
  destruct ((left (side_of a w) + 1 <? 2) && (waiting (side_of a w) >? 0)) eqn:Eb; [exists w1; split; [done|apply Hstay; lia]|].
  assert (tsum (inside a) (threads w) = 1) as Hone by lia. pose proof (fun b => turn_passes ds w1 eq_refl b Hone) as Hpass.
  destruct (Z.eqb_spec (waiting (side_of (other a) w)) 0) as [Ez|Ez]; cbn [negb].
  - destruct (Z.eqb_spec (waiting (side_of a w)) 0) as [Ez'|Ez']; cbn [negb].
    + rewrite bind_Ok. eexists. split; [done|]. apply turn_to_nobody; [done..|]. intros b. by destruct (kind_cases a b) as [-> | ->].
    + assert (set_turn (Some a) w1 = w1) as E by (unfold set_turn; rewrite <- Ew; done). specialize (Hpass a ltac:(specialize (Hwn a); lia)). by rewrite E in Hpass.
  - apply Hpass. specialize (Hwn (other a)). lia.
Qed.

Lemma return_not_told : forall th0, threads w !! 0%nat = Some th0 -> ~ told (th_pc th0).
Proof.
  intros th0 H0 Htl. assert (0 < t)%nat as Hpos.
  { destruct t; [|lia]. pose proof (iv_threads _ Hi _ _ Ht) as [Hk _]. congruence. }
  pose proof (iv_told _ Hi th0 H0 Htl t th Hpos Ht). congruence.
Qed.

Lemma finish_spec ds w2 : turn_ended ds w2 -> exists w3, check_finished t a w2 = Ok w3 /\ woken (threads w2) (threads w3) /\
  owner w3 = owner w2 /\ freed w3 = freed w2 /\ dishes w3 = dishes w2 /\ whos_turn w3 = whos_turn w2 /\
  (forall b, side_of b w3 = mk_side (done (side_of b w2) + finished b (at_pc Done th)) (waiting (side_of b w2)) (admitted (side_of b w2)) (left (side_of b w2))) /\
  (forall th0, threads w3 !! 0%nat = Some th0 -> told (th_pc th0) -> length (threads w) = 9%nat /\ done (cats w3) = 6 /\ done (mice w3) = 2).
Proof.
  intros (Hwk & H0 & E1 & E2 & E3 & E4 & Htl). pose proof (woken_ok _ _ (iv_threads _ Hi) Hwk) as Hok. unfold check_finished, lock_do_i_hold.
  rewrite (bool_decide_true (owner w2 = Some t)) by congruence. cbn [assert]. rewrite bind_Ok. cbv zeta. set (x := mk_side _ _ _ _). set (w3 := set_side a x w2).
  assert (forall b, side_of b w3 = mk_side (done (side_of b w2) + finished b (at_pc Done th)) (waiting (side_of b w2)) (admitted (side_of b w2)) (left (side_of b w2))) as Hs.
  { intros b. unfold finished. cbn [th_pc at_pc]. change (is_kind b (at_pc Done th)) with (is_kind b th). destruct (is_kind_same a th Ha) as [K1 K2].
    destruct (kind_cases a b) as [-> | ->]; [rewrite K1; by destruct a|]. rewrite K2. unfold w3. rewrite side_set_other. cbn [Z.b2z]. rewrite Z.add_0_r. by destruct (side_of (other a) w2). }
  assert (owner w3 = owner w2 /\ threads w3 = threads w2 /\ freed w3 = freed w2 /\ dishes w3 = dishes w2 /\ whos_turn w3 = whos_turn w2) as (F1 & F2 & F3 & F4 & F5) by done.
  clearbody w3. assert (forall th0, threads w3 !! 0%nat = Some th0 -> ~ told (th_pc th0)) as Hnt by (intros th0; rewrite F2; intros ?%H0; by apply return_not_told).
  assert (exists w4, Ok w3 = Ok w4 /\ woken (threads w2) (threads w4) /\ owner w4 = owner w2 /\ freed w4 = freed w2 /\ dishes w4 = dishes w2 /\ whos_turn w4 = whos_turn w2 /\
    (forall b, side_of b w4 = side_of b w3) /\ (forall th0, threads w4 !! 0%nat = Some th0 -> told (th_pc th0) -> length (threads w) = 9%nat /\ done (cats w4) = 6 /\ done (mice w4) = 2)) as Hquiet.
  { exists w3. rewrite F2. split_and!; try done; [apply woken_refl|]. rewrite <- F2. intros th0 ? ?. by destruct (Hnt th0). }
  setoid_rewrite <- Hs. destruct ((done (cats w3) =? Z.of_nat NCATS) && (done (mice w3) =? Z.of_nat NMICE)) eqn:Ed; [|exact Hquiet].
  apply andb_true_iff in Ed as [D1%Z.eqb_eq D2%Z.eqb_eq]. rewrite <- F2 in Hok. destruct (signal_done t w3 Hok ltac:(congruence)) as [->|(l & th0 & -> & Hth0 & Hp0)]; [exact Hquiet|].
  eexists. split; [done|]. cbn [threads owner freed dishes whos_turn set_threads cats mice]. split_and!; try done.
  - rewrite <- F2. by eapply woken_alter.
  - intros _ _ _. split; [|done]. rewrite F2 in Hth0. destruct (iv_threads _ Hi _ _ (H0 _ Hth0)) as [_ Hm]. by rewrite Hp0 in Hm.
Qed.

Lemma turn_left_ok w2 w' : turn_left w2 -> whos_turn w' = whos_turn w2 ->
  (forall b, waiting (side_of b w') = waiting (side_of b w2) /\ admitted (side_of b w') = admitted (side_of b w2) /\ left (side_of b w') = left (side_of b w2)) ->
  (forall b, tsum (inside b) (threads w') = tsum (inside b) (threads w) - inside b th) ->
  (forall b, tsum (asleep b) (threads w') <= tsum (asleep b) (threads w2)) -> turn_ok w'.
Proof.
  intros Hl Ew Es Ei Eas. unfold turn_left in Hl. unfold turn_ok. rewrite Ew. destruct (whos_turn w2) as [b|].
  - cbv zeta. rewrite !Ei. destruct (Es b) as (-> & -> & ->), (Es (other b)) as (_ & -> & ->). destruct Hl as (H1 & H2 & H3 & H4 & H5 & H6 & H7 & H8). split_and!; try done.
    intros Hlt. specialize (H5 Hlt). specialize (Eas b). pose proof (tsum_nonneg (asleep b) (threads w') (asleep_nonneg b)). lia.
  - intros b. rewrite Ei. destruct (Es b) as (-> & -> & ->). apply Hl.
Qed.

(** When all are counted, all are done. *)
Lemma all_counted l : all_ok l -> length l = 9%nat -> tsum (finished Cat) l = 6 -> tsum (finished Mouse) l = 2 ->
  forall t' th', (0 < t')%nat -> l !! t' = Some th' -> th_pc th' = Done.
Proof.
  intros Hok Hl Hc Hm t' th' Hpos Ht'. destruct l as [|m l]; [done|]. destruct t' as [|t']; [lia|]. cbn in Ht'.
  destruct (Hok 0%nat m eq_refl) as [Hk _]. set (f x := finished Cat x + finished Mouse x).
  assert (forall x, f x <= 1) as Hf by (intros x; unfold f, finished, is_kind; destruct (th_pc x); try lia; destruct (th_kind x) as [[]|]; vm_compute; congruence).
  assert (tsum f l = 8) as Hs.
  { unfold f. rewrite tsum_plus. assert (forall b, finished b m = 0) as Hz.
    { intros b. unfold finished, is_kind. rewrite Hk, bool_decide_false by done. by destruct (th_pc m). }
    unfold tsum in *. cbn [foldr] in Hc, Hm. rewrite Hz in Hc, Hm. lia. }
  cbn in Hl. pose proof (tsum_full f l Hf ltac:(lia) th' ltac:(by eapply list_elem_of_lookup_2)) as Hone. unfold f, finished in Hone. by destruct (th_pc th').
Qed.

Lemma return_dish_inv : exists l1 w', return_dish_to_guardian t a d w = Ok w' /\ woken (threads w) l1 /\ threads w' = alter (at_pc Done) t l1 /\ inv w'.
Proof.
  destruct return_dish_held as [Hd Hdish]. pose proof (iv_dishes _ Hi Hfr) as Hdl. unfold return_dish_to_guardian.
  rewrite (store_in_range (dishes w) (Z.of_nat d) None) by lia. rewrite bind_Ok, Nat2Z.id. destruct (end_turn_spec (<[d := None]> (dishes w))) as (w2 & -> & Hend). rewrite bind_Ok.
  destruct (finish_spec _ _ Hend) as (w3 & Hfin & Hwk3 & F1 & F2 & F3 & F4 & F5 & F6). destruct Hend as (Hwk & H0 & E1 & E2 & E3 & E4 & Htl).
  rewrite signal_dish, bind_Ok, Hfin, bind_Ok by (exact (woken_ok _ _ (iv_threads _ Hi) Hwk) || congruence).
  unfold lock_release, lock_do_i_hold. rewrite (bool_decide_true (owner w3 = _)) by congruence. cbn [assert]. rewrite bind_Ok. exists (threads w3). eexists. split; [done|].
  pose proof (woken_trans _ _ _ Hwk Hwk3) as Hw13. split; [done|]. split; [done|].
  match goal with |- inv ?x => set (w' := x) end. assert (threads w' = alter (at_pc Done) t (threads w3)) as Et' by done.
  assert (forall b, side_of b w' = side_of b w3) as Es by (by intros []). assert (dishes w' = <[d := None]> (dishes w)) as Ed' by (transitivity (dishes w3); [done|congruence]).
  assert (owner w' = None /\ freed w' = false) as [Eo' Ef'] by (split; [done|transitivity (freed w3); [done|congruence]]).
  assert (whos_turn w' = whos_turn w2) as Ew' by exact F4. clearbody w'.
  assert (forall c k, th_pc th <> Sleep c k) as Hns by (intros; congruence). pose proof (woken_keeps _ _ _ _ Hw13 Ht Hns) as Ht3.
  pose proof (fun b => counts_after _ _ t th Done b (iv_threads _ Hi) Hw13 Ht Hns) as C. rewrite <- Et' in C.
  assert (forall b, done (side_of b w') = tsum (finished b) (threads w')) as Hdone.
  { intros b. destruct (C b) as (_ & _ & _ & -> & _). rewrite Es, F5. cbn [done]. rewrite (proj1 (E4 b)), (iv_done _ Hi). destruct (return_counts b) as (_ & _ & _ & ->). lia. }
  eapply (inv_after w w' t th a (threads w3) Done); try done.
  - by eexists.
  - by rewrite Ed', length_insert.
  - intros b e He. destruct (C b) as (_ & -> & _). destruct (return_counts b) as (_ & -> & _). rewrite Ed', (iv_dish _ Hi) by done. change (at_dish b e (at_pc Done th)) with 0.
    destruct (Nat.eqb_spec d e) as [<-|Hne]; [|rewrite list_lookup_insert_ne, andb_false_r by done; cbn; lia].
    rewrite list_lookup_insert_eq, Hdish, andb_true_r by lia. rewrite (bool_decide_false (Some None = _)) by done.
    destruct (is_kind_same a th Ha) as [K1 K2]. destruct (kind_cases a b) as [-> | ->]; [by rewrite K1, bool_decide_true by done|].
    rewrite K2, bool_decide_false; [done|]. pose proof (other_ne a). congruence.
  - intros b. destruct (C b) as (-> & _). rewrite Es, F5. cbn [waiting]. rewrite (proj2 (E4 b)), (iv_waiting _ Hi). destruct (return_counts b) as (-> & _). change (waits b (at_pc Done th)) with 0. lia.
  - apply (turn_left_ok w2 w' Htl); [done|..]; intros b; [by rewrite Es, F5|by destruct (C b) as (_ & _ & -> & _ & _); change (inside b (at_pc Done th)) with 0; lia|].
    destruct (C b) as (_ & _ & _ & _ & ->). change (asleep b (at_pc Done th)) with 0. rewrite Z.add_0_r. by apply woken_asleep.
  - intros th0 Hth0 Htold. destruct (F6 th0 Hth0 Htold) as (Hl & D1 & D2). apply all_counted.
    + rewrite Et'. by eapply all_ok_alter; [eapply woken_ok, Hw13; exact (iv_threads _ Hi)|..].
    + rewrite Et', length_alter. by rewrite <- (Forall2_length Hw13).
    + rewrite <- Hdone, Es. done.
    + rewrite <- Hdone, Es. done.
Qed.
End return_dish.

(** ** The other steps *)

Lemma not_freed w t th : inv w -> threads w !! t = Some th -> th_pc th <> Done -> freed w = false.
Proof.
  intros Hi Ht Hp. destruct (freed w) eqn:E; [|done]. destruct Hp. pose proof (iv_freed _ Hi E) as H0.
  destruct (threads w !! 0%nat) as [th0|] eqn:E0; [|done]. injection H0 as H0. destruct t as [|t]; [congruence|].
  eapply (iv_told _ Hi th0 E0); [by rewrite H0| |done]. lia.
Qed.

(** A thread moves to another place at which it counts the same. *)
Definition same_counts (x y : thread) : Prop :=
  forall b, waits b x = waits b y /\ (forall d, at_dish b d x = at_dish b d y) /\ inside b x = inside b y /\ finished b x = finished b y /\ asleep b x = asleep b y.

Lemma inv_move w t th p o : inv w -> threads w !! t = Some th -> th_pc th <> Done -> thread_ok (length (threads w)) t (at_pc p th) -> same_counts th (at_pc p th) ->
  (told p -> told (th_pc th)) -> (forall k, p = Hold k -> o = Some t) ->
  (forall t', o = Some t' -> t' = t /\ (exists k, p = Hold k) \/ t' <> t /\ owner w = Some t') -> (forall t', t' <> t -> owner w = Some t' -> o = Some t') ->
  inv (set_owner o (set_pc t p w)).
Proof.
  intros Hi Ht Hnd Hok Hs Htl Ho1 Ho2 Ho3. pose proof (not_freed w t th Hi Ht Hnd) as Hfr. set (w' := set_owner o (set_pc t p w)).
  assert (threads w' = alter (at_pc p) t (threads w)) as Et by done. assert (forall b, side_of b w' = side_of b w) as Es by (by intros []).
  assert (forall j th', threads w' !! j = Some th' -> j = t /\ th' = at_pc p th \/ j <> t /\ threads w !! j = Some th') as Hlook.
  { intros j th'. rewrite Et. destruct (decide (j = t)) as [->|Hne]; [rewrite list_lookup_alter_eq, Ht; intros [= <-]; by left|].
    rewrite list_lookup_alter_ne by done. by right. }
  assert (forall f, f th = f (at_pc p th) -> tsum f (threads w') = tsum f (threads w)) as Hsum by (intros f Hf; rewrite Et, (tsum_alter _ _ _ _ _ Ht); lia).
  assert (dishes w' = dishes w /\ whos_turn w' = whos_turn w /\ owner w' = o /\ freed w' = freed w) as (E1 & E2 & E3 & E4) by done. clearbody w'. split; rewrite ?E1, ?E3, ?E4.
  - intros j th'. rewrite Et, length_alter, <- Et. intros [[-> ->]|[Hne Hj]]%Hlook; [done|by apply (iv_threads _ Hi)].
  - rewrite Et, length_alter. apply Hi.
  - apply Hi.
  - intros b d Hd. destruct (Hs b) as (_ & H & _). rewrite (Hsum _ (H d)). by apply Hi.
  - intros b. destruct (Hs b) as (H & _). rewrite Es, (Hsum _ H). apply Hi.
  - intros b. destruct (Hs b) as (_ & _ & _ & H & _). rewrite Es, (Hsum _ H). apply Hi.
  - pose proof (iv_turn _ Hi) as Htn. unfold turn_ok in *. rewrite E2. destruct (whos_turn w) as [b|].
    + rewrite !Es. destruct (Hs b) as (_ & _ & H1 & _ & H2), (Hs (other b)) as (_ & _ & H3 & _). by rewrite (Hsum _ H1), (Hsum _ H2), (Hsum _ H3).
    + intros b. destruct (Hs b) as (_ & _ & H1 & _). rewrite Es, (Hsum _ H1). apply Htn.
  - intros j th' k [[-> ->]|[Hne Hj]]%Hlook E; [by apply (Ho1 k)|]. apply Ho3; [done|]. by eapply (iv_hold _ Hi).
  - intros j [[-> [k Hk]]|[Hne Hj]]%Ho2.
    + exists (at_pc p th), k. rewrite Et, list_lookup_alter_eq, Ht. split; [done|]. by left.
    + destruct (iv_owner _ Hi j Hj) as (th' & k & Hth' & Hk). exists th', k. by rewrite Et, list_lookup_alter_ne.
  - intros th0 [[<- ->]|[Hne H0]]%Hlook Hth0 j th' Hj [[-> ->]|[Hne' Hj']]%Hlook; try lia.
    + by eapply (iv_told _ Hi th); [|apply Htl|..].
    + destruct Hnd. by eapply (iv_told _ Hi th0).
    + by eapply (iv_told _ Hi th0).
  - intros. congruence.
Qed.

Lemma main_counts th : th_kind th = None -> forall b, waits b th = 0 /\ (forall d, at_dish b d th = 0) /\ inside b th = 0 /\ finished b th = 0 /\ asleep b th = 0.
Proof.
  intros Hk b. unfold waits, at_dish, inside, finished, asleep, is_kind. rewrite Hk, (bool_decide_false (None = _)) by done. cbn [andb]. by destruct (th_pc th) as [|[]|[]|? []| |].
Qed.

Ltac main_zero := first [by apply main_counts | done].

Lemma main_same x y : th_kind x = None -> th_kind y = None -> same_counts x y.
Proof.
  intros Hx Hy b. destruct (main_counts x Hx b) as (-> & H1 & -> & -> & ->), (main_counts y Hy b) as (-> & H2 & -> & -> & ->). split_and!; try done. intros d. by rewrite H1, H2.
Qed.

Lemma fork_inv w th n : inv w -> threads w !! 0%nat = Some th -> th_pc th = Fork n -> exists p w', step 0 w = Ok w' /\ inv w' /\
  threads w' = alter (at_pc p) 0%nat (threads w) ++ [forked n] /\ p = (if (S n =? 8)%nat then Want MainWait else Fork (S n)) /\ (n < 8)%nat.
Proof.
  intros Hi Ht Hp. pose proof (iv_threads _ Hi _ _ Ht) as [Hk Hm]. rewrite Hp in Hm. destruct Hm as [Hn Hlen].
  pose proof (not_freed w 0%nat th Hi Ht ltac:(congruence)) as Hfr. unfold step. rewrite Ht, Hp. cbv zeta. do 2 eexists. split; [done|]. split; [|done].
  match goal with |- inv ?x => set (w' := x) end. set (p := if (S n =? 8)%nat then Want MainWait else Fork (S n)).
  assert (threads w' = alter (at_pc p) 0%nat (threads w) ++ [forked n]) as Et by done. assert (forall b, side_of b w' = side_of b w) as Es by (by intros []).
  assert (dishes w' = dishes w /\ whos_turn w' = whos_turn w /\ owner w' = owner w /\ freed w' = freed w) as (E1 & E2 & E3 & E4) by done. clearbody w'.
  assert (th_kind (at_pc p th) = None) as Hkp by done. assert (main_ok (S (S n)) p) as Hmp by (unfold p; destruct (Nat.eqb_spec (S n) 8); cbn; lia).
  assert (~ told p /\ forall k, p <> Hold k) as [Hnt Hnh] by (unfold p; destruct (S n =? 8)%nat; (split; [intros []|done])).
  assert (forall f, f th = 0 -> f (at_pc p th) = 0 -> f (forked n) = 0 -> tsum f (threads w') = tsum f (threads w)) as Hsum.
  { intros f F1 F2 F3. rewrite Et, tsum_app, (tsum_alter _ _ _ _ _ Ht). cbn [tsum foldr]. lia. }
  assert (forall b, tsum (inside b) (threads w') = tsum (inside b) (threads w) /\ tsum (asleep b) (threads w') = tsum (asleep b) (threads w)) as Hsum2.
  { intros b. split; apply Hsum; main_zero. }
  assert (forall j th', threads w' !! j = Some th' -> j = 0%nat /\ th' = at_pc p th \/ j = S n /\ th' = forked n \/ j <> 0%nat /\ threads w !! j = Some th') as Hlook.
  { intros j th'. rewrite Et. intros [Hj|[Hj Hj']]%lookup_app_Some.
    - destruct (decide (j = 0%nat)) as [->|Hne]; [rewrite list_lookup_alter_eq, Ht in Hj; injection Hj as <-; by left|]. rewrite list_lookup_alter_ne in Hj by done. auto.
    - rewrite length_alter in *. apply list_lookup_singleton_Some in Hj' as [? <-]. right; left. split; [lia|done]. }
  split; rewrite ?E1, ?E3, ?E4.
  - intros j th' Hj. rewrite Et, length_app, length_alter, Hlen, Nat.add_1_r. destruct (Hlook _ _ Hj) as [[-> ->]|[[-> ->]|[Hne Hj']]]; [done|split; [done|by eexists]|].
    pose proof (iv_threads _ Hi _ _ Hj') as Hok. by destruct j.
  - rewrite Et, length_app. cbn. lia.
  - apply Hi.
  - intros b d Hd. rewrite Hsum by main_zero. by apply Hi.
  - intros b. rewrite Es, Hsum by main_zero. apply Hi.
  - intros b. rewrite Es, Hsum by main_zero. apply Hi.
  - pose proof (iv_turn _ Hi) as Htn. unfold turn_ok in *. rewrite E2. destruct (whos_turn w) as [b|].
    + rewrite !Es. by rewrite !(proj1 (Hsum2 _)), !(proj2 (Hsum2 _)).
    + intros b. rewrite Es, (proj1 (Hsum2 b)). apply Htn.
  - intros j th' k [[-> ->]|[[-> ->]|[Hne Hj']]]%Hlook E; [by destruct (Hnh k)|done|]. by eapply (iv_hold _ Hi).
  - intros j Hj. destruct (iv_owner _ Hi j Hj) as (th' & k & Hth' & Hk'). exists th', k. split; [|done]. rewrite Et. apply lookup_app_l_Some.
    rewrite list_lookup_alter_ne; [done|]. intros <-. destruct Hk' as [?|[? ?]]; congruence.
  - intros th0 [[_ ->]|[[? _]|[? _]]]%Hlook Htl; [by destruct Hnt|done|done].
  - intros. congruence.
Qed.

Lemma free_inv w th : inv w -> threads w !! 0%nat = Some th -> th_pc th = Hold MainFree -> exists w', step 0 w = Ok w' /\ inv w' /\ threads w' = alter (at_pc Done) 0%nat (threads w).
Proof.
  intros Hi Ht Hp. pose proof (iv_threads _ Hi _ _ Ht) as [Hk Hm]. rewrite Hp in Hm.
  pose proof (not_freed w 0%nat th Hi Ht ltac:(congruence)) as Hfr. unfold step, critical. rewrite Ht, Hp, Hk, Hfr. eexists. split; [done|]. split; [|done].
  match goal with |- inv ?x => set (w' := x) end. assert (threads w' = alter (at_pc Done) 0%nat (threads w)) as Et by done. assert (forall b, side_of b w' = side_of b w) as Es by (by intros []).
  assert (dishes w' = [] /\ whos_turn w' = whos_turn w /\ owner w' = owner w /\ freed w' = true) as (E1 & E2 & E3 & E4) by done. clearbody w'.
  assert (forall f, f th = 0 -> f (at_pc Done th) = 0 -> tsum f (threads w') = tsum f (threads w)) as Hsum.
  { intros f F1 F2. rewrite Et, (tsum_alter _ _ _ _ _ Ht). lia. }
  assert (forall b, tsum (inside b) (threads w') = tsum (inside b) (threads w) /\ tsum (asleep b) (threads w') = tsum (asleep b) (threads w)) as Hsum2.
  { intros b. split; apply Hsum; main_zero. }
  pose proof (iv_told _ Hi th Ht ltac:(by rewrite Hp)) as Hall.
  assert (forall j th', threads w' !! j = Some th' -> th_pc th' = Done /\ (j = 0%nat /\ th' = at_pc Done th \/ j <> 0%nat /\ threads w !! j = Some th')) as Hlook.
  { intros j th'. rewrite Et. destruct (decide (j = 0%nat)) as [->|Hne]; [rewrite list_lookup_alter_eq, Ht; intros [= <-]; auto|].
    rewrite list_lookup_alter_ne by done. intros Hj. split; [apply (Hall j th'); [lia|done]|auto]. }
  split; rewrite ?E1, ?E3, ?E4.
  - intros j th'. rewrite Et, length_alter, <- Et. intros [_ [[-> ->]|[_ Hj]]]%Hlook; [done|by apply (iv_threads _ Hi)].
  - rewrite Et, length_alter. apply Hi.
  - done.
  - intros b d _. cbn. rewrite tsum_zero; [done|]. intros th' [j [Hd _]%Hlook]%list_elem_of_lookup. unfold at_dish. by rewrite Hd.
  - intros b. rewrite Es, Hsum by main_zero. apply Hi.
  - intros b. rewrite Es, Hsum by main_zero. apply Hi.
  - pose proof (iv_turn _ Hi) as Htn. unfold turn_ok in *. rewrite E2. destruct (whos_turn w) as [b|].
    + rewrite !Es. by rewrite !(proj1 (Hsum2 _)), !(proj2 (Hsum2 _)).
    + intros b. rewrite Es, (proj1 (Hsum2 b)). apply Htn.
  - intros j th' k [Hd _]%Hlook E. congruence.
  - intros j Hj. rewrite (iv_hold _ Hi _ _ _ Ht Hp) in Hj. injection Hj as <-. exists (at_pc Done th), Petition. rewrite Et, list_lookup_alter_eq, Ht. auto.
  - intros th0 _ _ j th' _ [Hd _]%Hlook. done.
  - intros _. by rewrite Et, list_lookup_alter_eq, Ht.
Qed.

Lemma inv_sleepers w l : inv w -> inv (set_threads l (threads w) w).
Proof. intros Hi. destruct Hi. by split. Qed.

(** ** Weight *)

Definition weight_pc (p : pc) : Z :=
  match p with
  | Fork n => (8 - Z.of_nat n) * 46 + 5
  | Want MainWait => 5 | Hold MainWait => 4 | Want MainFree => 3 | Hold MainFree => 2 | Sleep _ MainFree => 1
  | Want (ReturnDish _) => 41 | Hold (ReturnDish _) => 40
  | Want _ => 45 | Hold _ => 44 | Sleep _ _ => 43 | Eating _ => 42
  | Done => 0
  end.
Definition weight (w : world) : Z := tsum (fun th => weight_pc (th_pc th)) (threads w).

Lemma weight_alter l t th p : l !! t = Some th -> tsum (fun th => weight_pc (th_pc th)) (alter (at_pc p) t l) = tsum (fun th => weight_pc (th_pc th)) l - weight_pc (th_pc th) + weight_pc p.
Proof. intros Ht. by rewrite (tsum_alter _ _ _ _ _ Ht). Qed.

Lemma weight_to w w' t th p : threads w !! t = Some th -> threads w' = alter (at_pc p) t (threads w) -> weight w' = weight w - weight_pc (th_pc th) + weight_pc p.
Proof. intros Ht Et. unfold weight. rewrite Et. by apply weight_alter. Qed.

Lemma weight_woken l l' : woken l l' -> tsum (fun th => weight_pc (th_pc th)) l' <= tsum (fun th => weight_pc (th_pc th)) l + 2 * Z.of_nat (length l).
Proof.
  intros Hw. induction Hw as [|x y l l' Hxy Hw IH]; [done|]. unfold tsum in *. cbn [foldr length].
  assert (weight_pc (th_pc y) <= weight_pc (th_pc x) + 2); [|lia]. destruct Hxy as [->|[(c & k & Hs) ->]]; [lia|]. unfold wake. rewrite Hs. by destruct k.
Qed.

Lemma inv_length w : inv w -> (length (threads w) <= 9)%nat.
Proof.
  intros Hi. destruct (lookup_lt_is_Some_2 _ _ (iv_some _ Hi)) as [th Ht]. pose proof (iv_threads _ Hi _ _ Ht) as [_ Hm].
  unfold main_ok in Hm. destruct (th_pc th) as [n| []|[]|[] []| |]; try done; lia.
Qed.

(** ** Every step *)

Lemma animal_critical w t th a k : inv w -> threads w !! t = Some th -> th_kind th = Some a -> th_pc th = Hold k ->
  exists w', step t w = Ok w' /\ inv w' /\ weight w' < weight w.
Proof.
  intros Hi Ht Ha Hp. pose proof (iv_hold _ Hi _ _ _ Ht Hp) as Ho. pose proof (not_freed w t th Hi Ht ltac:(congruence)) as Hfr.
  pose proof (iv_threads _ Hi _ _ Ht) as Hok. destruct t as [|t]; [destruct Hok; congruence|]. destruct Hok as (_ & b & Hb & Hok). rewrite Hp in Hok.
  unfold step, critical. rewrite Ht, Hp, Ha, Hfr. unfold weight. destruct k; try done.
  - unfold petition_guardian, turn_logic. cbv zeta. set (wt := match whos_turn w with None => _ | _ => _ end).
    assert (forall c, side_of c wt = side_of c w) as Es by (intros c; unfold wt; destruct (whos_turn w), c; done).
    destruct (turn_loop_inv w (set_side a (mk_side (done (side_of a wt)) (waiting (side_of a wt) + 1) (admitted (side_of a wt)) (left (side_of a wt))) wt) (S t) th a)
      as (p & w' & -> & Et & Hi' & Hc); try done; try (by left); try (unfold wt; by destruct (whos_turn w)).
    + by rewrite side_set_other, Es.
    + rewrite side_set_same, Es, (iv_waiting _ Hi). assert (waits a th = 0) as -> by (unfold waits; by rewrite Hp). by rewrite Z.sub_0_r.
    + unfold wt. cbn [whos_turn set_side]. destruct (whos_turn w) eqn:E; [right; by rewrite E|by left].
    + exists w'. split_and!; [done..|]. rewrite Et, (weight_alter _ _ _ _ Ht), Hp. destruct Hc as [->|[d ->]]; cbn; lia.
  - destruct (turn_loop_inv w w (S t) th a) as (p & w' & -> & Et & Hi' & Hc); try done; try (by right).
    + destruct (side_of a w) eqn:E. cbn. f_equal. pose proof (iv_waiting _ Hi a) as Hw. rewrite E in Hw. cbn in Hw. unfold waits at 2. rewrite Hp, (proj1 (is_kind_same a th Ha)). cbn. lia.
    + right. split; [done|]. intros En. pose proof (iv_turn _ Hi) as Htn. unfold turn_ok in Htn. rewrite En in Htn. destruct (Htn a) as (Hz & _). rewrite (iv_waiting _ Hi) in Hz.
      assert (waits a th <= tsum (waits a) (threads w)) as Hle by (apply tsum_elem; [apply waits_nonneg|by eapply list_elem_of_lookup_2]).
      unfold waits at 1 in Hle. rewrite Hp, (proj1 (is_kind_same a th Ha)) in Hle. cbn in Hle. lia.
    + exists w'. split_and!; [done..|]. rewrite Et, (weight_alter _ _ _ _ Ht), Hp. destruct Hc as [->|[d ->]]; cbn; lia.
  - destruct (return_dish_inv w (S t) th a my_dish) as (l1 & w' & -> & Hw & Et & Hi'); try done. exists w'. split_and!; [done..|].
    assert (l1 !! S t = Some th) as Ht1 by (eapply woken_keeps; [done..|intros; congruence]).
    rewrite Et, (weight_alter _ _ _ _ Ht1), Hp. pose proof (weight_woken _ _ Hw). pose proof (inv_length w Hi). cbn. lia.
Qed.

Lemma main_critical w th k : inv w -> threads w !! 0%nat = Some th -> th_pc th = Hold k -> exists w', step 0 w = Ok w' /\ inv w' /\ weight w' < weight w.
Proof.
  intros Hi Ht Hp. pose proof (iv_hold _ Hi _ _ _ Ht Hp) as Ho. pose proof (not_freed w 0%nat th Hi Ht ltac:(congruence)) as Hfr.
  pose proof (iv_threads _ Hi _ _ Ht) as [Hk Hm]. rewrite Hp in Hm. destruct k; try done.
  - unfold step, critical, cv_wait, lock_do_i_hold. rewrite Ht, Hp, Hk, Hfr, bool_decide_true by done. cbn [assert]. rewrite bind_Ok. cbv zeta. eexists. split; [done|]. split.
    + apply inv_sleepers, (inv_move w 0%nat th); try done.
      * congruence.
      * by apply main_same.
      * intros t' Hne Ho'. congruence.
    + erewrite (weight_to w _ _ th _ Ht) by reflexivity. rewrite Hp. cbn. lia.
  - destruct (free_inv w th Hi Ht Hp) as (w' & Hs & Hi' & Et). exists w'. split_and!; [done..|]. rewrite (weight_to w w' _ _ _ Ht Et), Hp. cbn. lia.
Qed.

Lemma step_ok w t : inv w -> enabled t w = true -> exists w', step t w = Ok w' /\ inv w' /\ weight w' < weight w.
Proof.
  intros Hi He. unfold enabled in He. destruct (threads w !! t) as [th|] eqn:Ht; [|done]. cbn in He. pose proof (iv_threads _ Hi _ _ Ht) as Hok.
  destruct (th_pc th) as [n|k|k|c k|d|] eqn:Hp; try done.
  - assert (t = 0%nat) as ->. { destruct t; [done|]. destruct Hok as (_ & a & _ & H). by rewrite Hp in H. }
    destruct (fork_inv w th n Hi Ht Hp) as (p & w' & Hs & Hi' & Et & -> & Hn). exists w'. split_and!; [done..|].
    unfold weight. rewrite Et, tsum_app, (weight_alter _ _ _ _ Ht), Hp. cbn [tsum foldr]. destruct (Nat.eqb_spec (S n) 8) as [E|E]; cbn; lia.
  - pose proof He as He'. apply bool_decide_eq_true in He'. unfold step. rewrite Ht, Hp, He, (not_freed w t th Hi Ht) by congruence. eexists. split; [done|]. split.
    + apply (inv_move w t th); try done.
      * congruence.
      * destruct t as [|t]; [|destruct Hok as (? & a & ? & Hok); split; [done|]; exists a; split; [done|]]; [destruct Hok as [? Hok]; split; [done|]|]; rewrite Hp in Hok; cbn [at_pc th_pc]; by destruct k.
      * intros b. unfold waits, at_dish, inside, finished, asleep. rewrite Hp. cbn [at_pc th_pc]. by destruct k.
      * rewrite Hp. by destruct k.
      * intros t' [= <-]. left. eauto.
      * intros t' Hne Ho. congruence.
    + erewrite (weight_to w _ _ th _ Ht) by reflexivity. rewrite Hp. by destruct k; cbn; lia.
  - destruct t as [|t]; [by eapply main_critical|]. destruct Hok as (_ & a & Ha & _). by eapply animal_critical.
  - unfold step. rewrite Ht, Hp. eexists. split; [done|]. split.
    + replace (set_pc t (Want (ReturnDish d)) w) with (set_owner (owner w) (set_pc t (Want (ReturnDish d)) w)) by done. apply (inv_move w t th); try done.
      * congruence.
      * destruct t as [|t]; [destruct Hok as [? Hok]; by rewrite Hp in Hok|]. destruct Hok as (? & a & ? & Hok). split; [done|]. exists a. split; [done|]. by rewrite Hp in Hok.
      * intros b. unfold waits, at_dish, inside, finished, asleep. by rewrite Hp.
      * intros t' Ho. right. split; [|done]. intros ->. destruct (iv_owner _ Hi _ Ho) as (? & ? & ? & [?|[? _]]); congruence.
    + erewrite (weight_to w _ _ th _ Ht) by reflexivity. rewrite Hp. cbn. lia.
Qed.

(** ** Schedules *)

Lemma init_inv : inv catmouse_global_init.
Proof.
  split; try done.
  - intros t th [-> <-]%list_lookup_singleton_Some. cbn. split; [done|lia].
  - cbn. lia.
  - intros a d Hd. by destruct d as [|[|]], a; [..|lia|lia].
  - by intros [].
  - by intros [].
  - cbn. by intros [].
  - intros t th k [-> <-]%list_lookup_singleton_Some. done.
  - intros th [_ <-]%list_lookup_singleton_Some. done.
Qed.

Lemma exec_ok sched : forall w, inv w -> exists w', exec sched w = Ok w' /\ inv w' /\
  (weight w' < weight w \/ w' = w /\ forall t, t ∈ sched -> enabled t w = false).
Proof.
  induction sched as [|t sched IH]; intros w Hi; cbn [exec].
  - exists w. split_and!; [done..|]. right. split; [done|]. by intros t ?%not_elem_of_nil.
  - destruct (enabled t w) eqn:E.
    + destruct (step_ok w t Hi E) as (w1 & -> & Hi1 & Hw1). rewrite bind_Ok. destruct (IH w1 Hi1) as (w' & -> & Hi' & Hc).
      exists w'. split_and!; [done..|]. left. destruct Hc as [?|[-> _]]; lia.
    + rewrite bind_Ok. destruct (IH w Hi) as (w' & -> & Hi' & Hc). exists w'. split_and!; [done..|].
      destruct Hc as [?|[-> Hq]]; [by left|]. right. split; [done|]. intros t' [->|?]%elem_of_cons; auto.
Qed.

Lemma exec_app s1 s2 w : exec (s1 ++ s2) w = (w1 ← exec s1 w; exec s2 w1).
Proof.
  revert w. induction s1 as [|t s1 IH]; intros w; [done|]. cbn [app exec]. destruct (if enabled t w then _ else _) as [w1| | |]; try done.
  rewrite !bind_Ok. apply IH.
Qed.

(** Two eating animals are of the same kind, and have different dishes. *)
Lemma eating_apart w i j x y d e : inv w -> threads w !! i = Some x -> threads w !! j = Some y -> th_pc x = Eating d -> th_pc y = Eating e ->
  th_kind x = th_kind y /\ (d < 2)%nat /\ (d = e -> i = j).
Proof.
  intros Hi Hx Hy Px Py. pose proof (iv_threads _ Hi _ _ Hx) as Ox. pose proof (iv_threads _ Hi _ _ Hy) as Oy.
  destruct i as [|i]; [destruct Ox as [_ Ox]; by rewrite Px in Ox|]. destruct j as [|j]; [destruct Oy as [_ Oy]; by rewrite Py in Oy|].
  destruct Ox as (_ & a & Ka & Ox), Oy as (_ & b & Kb & Oy). rewrite Px in Ox. rewrite Py in Oy. cbn in Ox, Oy.
  assert (b = a) as ->.
  { destruct (kind_cases a b) as [|Hb]; [done|]. exfalso. pose proof (tsum_elem _ _ _ (inside_nonneg a) (list_elem_of_lookup_2 _ _ _ Hx)) as Ha.
    pose proof (tsum_elem _ _ _ (inside_nonneg b) (list_elem_of_lookup_2 _ _ _ Hy)) as Hb'. unfold inside at 1 in Ha. unfold inside at 1 in Hb'.
    rewrite Px, (proj1 (is_kind_same a x Ka)) in Ha. rewrite Py, (proj1 (is_kind_same b y Kb)) in Hb'. cbn [Z.b2z] in *. subst b.
    pose proof (iv_turn _ Hi) as Htn. unfold turn_ok in Htn. destruct (whos_turn w) as [c|]; [|destruct (Htn a) as (_ & _ & _ & ?); lia].
    destruct Htn as (_ & _ & _ & _ & _ & _ & _ & Hz). destruct (kind_cases a c) as [-> | ->]; rewrite ?other_other in Hz; lia. }
  split; [congruence|]. split; [done|]. intros <-. destruct (decide (i = j)) as [->|Hne]; [done|]. exfalso.
  pose proof (tsum_two _ _ (S i) (S j) x y (at_dish_nonneg a d) ltac:(congruence) Hx Hy) as Hs. rewrite (iv_dish _ Hi) in Hs by done.
  unfold at_dish in Hs. rewrite Px, Py, (proj1 (is_kind_same a x Ka)), (proj1 (is_kind_same a y Kb)), Nat.eqb_refl in Hs. case_bool_decide; cbn in Hs; lia.
Qed.

(** C11. Under every schedule no assertion of catlock.c fails and nothing is
    used after it is freed, cats and mice never eat at the same time, and two
    animals that eat have different dishes, so that at most two eat. *)
Theorem catlock_safe sched : exists w, exec sched catmouse_global_init = Ok w /\
  forall i j x y d e, threads w !! i = Some x -> threads w !! j = Some y -> th_pc x = Eating d -> th_pc y = Eating e ->
    th_kind x = th_kind y /\ (d < 2)%nat /\ (d = e -> i = j).
Proof.
  destruct (exec_ok sched _ init_inv) as (w & He & Hi & _). exists w. split; [done|]. intros. by eapply eating_apart.
Qed.

(** ** All animals eat *)

Definition animals_done (w : world) : Prop := length (threads w) = 9%nat /\ forall t th, (0 < t)%nat -> threads w !! t = Some th -> th_pc th = Done.

Lemma main_in_place w th : inv w -> threads w !! 0%nat = Some th -> (forall n, th_pc th <> Fork n) -> length (threads w) = 9%nat.
Proof.
  intros Hi Ht Hnf. pose proof (iv_threads _ Hi _ _ Ht) as [_ Hm]. destruct (th_pc th) as [n|[]|[]|[] []| |] eqn:Hp; try done. by destruct (Hnf n).
Qed.

Section stuck.
Variable w : world.
Hypothesis Hi : inv w.
Hypothesis Hstuck : forall t, (t < 9)%nat -> enabled t w = false.

Lemma stuck_pc t th : threads w !! t = Some th -> th_pc th = Done \/ exists c k, th_pc th = Sleep c k.
Proof.
  intros Ht. pose proof (lookup_lt_Some _ _ _ Ht). pose proof (inv_length _ Hi). assert (t < 9)%nat as Hlt by lia. pose proof (Hstuck t Hlt) as He. unfold enabled in He. rewrite Ht in He. cbn in He.
  destruct (th_pc th) as [n|k|k|c k|d|] eqn:Hp; try done; [|eauto..]. apply bool_decide_eq_false in He. destruct (owner w) as [t'|] eqn:Ho; [|done].
  destruct (iv_owner _ Hi t' Ho) as (th' & k' & Ht' & [Hp'|[Hp' Hf]]).
  - pose proof (lookup_lt_Some _ _ _ Ht'). pose proof (Hstuck t' ltac:(lia)) as He'. unfold enabled in He'. rewrite Ht' in He'. cbn in He'. by rewrite Hp' in He'.
  - rewrite (not_freed w t th Hi Ht) in Hf by congruence. done.
Qed.

Lemma stuck_none f : (forall th, (th_pc th = Done \/ exists c k, th_pc th = Sleep c k) -> f th = 0) -> tsum f (threads w) = 0.
Proof. intros Hf. apply tsum_zero. intros th [t Ht]%list_elem_of_lookup. by eapply Hf, stuck_pc. Qed.

Lemma stuck_waits a : tsum (waits a) (threads w) = tsum (asleep a) (threads w).
Proof.
  apply Z.le_antisymm; [|exact (asleep_le_waits _ _ (iv_threads _ Hi))]. apply tsum_mono. intros th [t Ht]%list_elem_of_lookup. unfold waits, asleep.
  destruct (stuck_pc t th Ht) as [->|(c & k & ->)]; [done|]. destruct k; destruct (is_kind a th); cbn; lia.
Qed.

Lemma stuck_asleep b : tsum (asleep b) (threads w) = 0.
Proof.
  assert (forall c, tsum (inside c) (threads w) = 0) as Hin by (intros c; apply stuck_none; unfold inside; by intros th [->|(? & ? & ->)]).
  pose proof (tsum_nonneg _ (threads w) (asleep_nonneg b)). pose proof (iv_turn _ Hi) as Htn. unfold turn_ok in Htn. destruct (whos_turn w) as [c|].
  - destruct Htn as (H1 & H2 & H3 & H4 & H5 & _). rewrite Hin, (iv_waiting _ Hi), stuck_waits in *. lia.
  - destruct (Htn b) as (Hz & _). by rewrite (iv_waiting _ Hi), stuck_waits in Hz.
Qed.

Lemma stuck_done : animals_done w.
Proof.
  split.
  - destruct (lookup_lt_is_Some_2 _ _ (iv_some _ Hi)) as [th Ht]. apply (main_in_place w th Hi Ht). intros n. destruct (stuck_pc _ _ Ht) as [->|(? & ? & ->)]; done.
  - intros t th Hpos Ht. destruct (stuck_pc _ _ Ht) as [?|(c & k & Hp)]; [done|]. exfalso.
    pose proof (iv_threads _ Hi _ _ Ht) as Hok. destruct t as [|t]; [lia|]. destruct Hok as (_ & a & Ka & _).
    pose proof (tsum_elem _ _ _ (asleep_nonneg a) (list_elem_of_lookup_2 _ _ _ Ht)) as Hle. rewrite stuck_asleep in Hle. unfold asleep in Hle.
    rewrite Hp, (proj1 (is_kind_same a th Ka)) in Hle. by cbn in Hle.
Qed.
End stuck.

Lemma weight_nonneg w : inv w -> 0 <= weight w.
Proof.
  intros Hi. unfold weight. transitivity (tsum (fun _ => 0) (threads w)); [by rewrite tsum_zero|]. apply tsum_mono. intros th [t Ht]%list_elem_of_lookup.
  pose proof (iv_threads _ Hi _ _ Ht) as Hok. destruct (th_pc th) as [n|[]|[]|? []| |] eqn:Hp; cbn; try lia.
  destruct t as [|t]; [destruct Hok as [_ Hm]; rewrite Hp in Hm; destruct Hm; lia|]. destruct Hok as (_ & a & _ & Hm). by rewrite Hp in Hm.
Qed.

(** A round lets every thread run at least once. *)
Definition fair_round (r : list nat) : Prop := forall t, (t < 9)%nat -> t ∈ r.

Lemma rounds_finish rounds : forall w, inv w -> Forall fair_round rounds -> weight w < Z.of_nat (length rounds) ->
  exists w', exec (concat rounds) w = Ok w' /\ inv w' /\ forall t, (t < 9)%nat -> enabled t w' = false.
Proof.
  induction rounds as [|r rounds IH]; intros w Hi Hf Hw; [pose proof (weight_nonneg w Hi); cbn in Hw; lia|]. apply Forall_cons_iff in Hf as [Hr Hf].
  cbn [concat]. rewrite exec_app. destruct (exec_ok r w Hi) as (w1 & -> & Hi1 & [Hlt|[-> Hq]]); rewrite bind_Ok.
  - apply IH; [done..|]. cbn [length] in Hw. lia.
  - assert (forall t, (t < 9)%nat -> enabled t w = false) as Hst by auto. assert (forall s, Forall (fun t => enabled t w = false) s -> exec s w = Ok w) as Hquiet.
    { induction s as [|t s IHs]; [done|]. intros [Ht Hs]%Forall_cons_iff. cbn [exec]. rewrite Ht, bind_Ok. by apply IHs. }
    exists w. split_and!; [|done..]. apply Hquiet, Forall_true. intros t. unfold enabled. destruct (decide (t < 9)%nat) as [Hlt|Hge]; [by apply Hst|].
    rewrite lookup_ge_None_2; [done|]. pose proof (inv_length w Hi). lia.
Qed.

(** C10. If every one of 374 rounds lets each thread run at least once, in
    any order, then no animal starves: the six cats and two mice have eaten
    and are done. *)
Theorem catlock_all_eat rounds : Forall fair_round rounds -> (374 <= length rounds)%nat ->
  exists w, exec (concat rounds) catmouse_global_init = Ok w /\ length (threads w) = 9%nat /\ forall t th, (0 < t)%nat -> threads w !! t = Some th -> th_pc th = Done.
Proof.
  intros Hf Hl. assert (weight catmouse_global_init = 373) as Hw by done. destruct (rounds_finish rounds _ init_inv Hf) as (w & He & Hi & Hs); [lia|].
  exists w. split; [done|]. by apply stuck_done.
Qed.

Lemma catlock_all_eat_witness : exists w, exec (concat (replicate 374 (seq 0 9))) catmouse_global_init = Ok w /\ length (threads w) = 9%nat /\
  forall t th, (0 < t)%nat -> threads w !! t = Some th -> th_pc th = Done.
Proof.
  apply catlock_all_eat; [|rewrite length_replicate; lia]. apply Forall_replicate. intros t Ht. apply elem_of_seq. lia.
Defined.

(** The main thread waits without a condition: if the animals are done before
    it waits, nobody wakes it. *)
Definition late_main : list nat := replicate 8 0%nat ++ concat (replicate 60 (seq 1 8)) ++ replicate 5 0%nat.

(** The main thread can miss the signal that all animals are done: under
    this schedule all animals are done, the main thread sleeps on all_done,
    and nobody can run any more, so that catmouselock never returns. *)
Theorem catlock_main_may_hang : exists w, exec late_main catmouse_global_init = Ok w /\ (forall t, enabled t w = false) /\
  (th_pc <$> threads w !! 0%nat) = Some (Sleep AllDone MainFree) /\ Forall (fun th => th_pc th = Done) (tail (threads w)).
Proof.
  eexists. split; [vm_compute; reflexivity|]. split; [|by repeat constructor]. intros t. do 9 (destruct t as [|t]; [done|]). done.
Qed.
