(* ===== verification/CatSem.v ===== *)
(** * kern/asst1/catsem.c: cats and mice at two dishes, with semaphores

    The shared variables are only used between [P(vars_mutex)] and
    [V(vars_mutex)], and nothing in between waits, so that such a section is
    one step.  [P] of another semaphore is a step that is possible when its
    count is positive.  Which thread takes the next step is up to the
    schedule.

    Under every schedule each dish has at most one animal and nothing is used
    after it is freed.  There are schedules, however, under which a cat and a
    mouse eat at the same time, and schedules under which an assertion
    fails. *)
From stdpp Require Import base numbers list option.
From S2P Require Import Prelude.
Local Open Scope Z_scope.

Definition NCATS : nat := 6.
Definition NMICE : nat := 2.
Definition DISH1 : Z := 1.
Definition DISH2 : Z := 2.
Definition CAT_CODE : Z := 1.
Definition MOUSE_CODE : Z := 2.

(** Where a thread goes on: an animal at [P] of its semaphore, at the test of
    its loop, at the two parts of [wait_turn], at [claim_dish], with a dish at
    [release_dish], at [try_release_turn], at [V] of its semaphore, at
    [check_finished], at its [V(all_done)]; the main thread before starting
    thread [n], and at [P(all_done)]. *)
Inductive pc : Type :=
| Enter | Test | WaitTurn | TakeTurn | Claim | Eating (my_dish : Z) | TryRelease | Leave | Finish | Announce | Done
| Fork (n : nat) | WaitAll.
Global Instance pc_eq_dec : EqDecision pc.
Proof. solve_decision. Defined.

(** The main thread has code 0. *)
Record thread : Type := mk_thread { th_code : Z; th_pc : pc }.

Record world : Type := mk_world {
  turn : Z;
  dishes_in_use : Z;
  cats_done : Z;
  mice_done : Z;
  cats_gone : Z;
  mice_gone : Z;
  turn_mutex : Z;
  all_done : Z;
  cat_sem : Z;
  mouse_sem : Z;
  freed : bool;
  threads : list thread;
}.

Definition set_turn (x : Z) (w : world) : world :=
  mk_world x (dishes_in_use w) (cats_done w) (mice_done w) (cats_gone w) (mice_gone w) (turn_mutex w) (all_done w) (cat_sem w) (mouse_sem w) (freed w) (threads w).
Definition set_dishes (x : Z) (w : world) : world :=
  mk_world (turn w) x (cats_done w) (mice_done w) (cats_gone w) (mice_gone w) (turn_mutex w) (all_done w) (cat_sem w) (mouse_sem w) (freed w) (threads w).
Definition set_done (c m : Z) (w : world) : world :=
  mk_world (turn w) (dishes_in_use w) c m (cats_gone w) (mice_gone w) (turn_mutex w) (all_done w) (cat_sem w) (mouse_sem w) (freed w) (threads w).
Definition set_gone (c m : Z) (w : world) : world :=
  mk_world (turn w) (dishes_in_use w) (cats_done w) (mice_done w) c m (turn_mutex w) (all_done w) (cat_sem w) (mouse_sem w) (freed w) (threads w).
Definition set_turn_mutex (x : Z) (w : world) : world :=
  mk_world (turn w) (dishes_in_use w) (cats_done w) (mice_done w) (cats_gone w) (mice_gone w) x (all_done w) (cat_sem w) (mouse_sem w) (freed w) (threads w).
Definition set_all_done (x : Z) (w : world) : world :=
  mk_world (turn w) (dishes_in_use w) (cats_done w) (mice_done w) (cats_gone w) (mice_gone w) (turn_mutex w) x (cat_sem w) (mouse_sem w) (freed w) (threads w).
Definition set_sems (c m : Z) (w : world) : world :=
  mk_world (turn w) (dishes_in_use w) (cats_done w) (mice_done w) (cats_gone w) (mice_gone w) (turn_mutex w) (all_done w) c m (freed w) (threads w).
Definition set_threads (l : list thread) (w : world) : world :=
  mk_world (turn w) (dishes_in_use w) (cats_done w) (mice_done w) (cats_gone w) (mice_gone w) (turn_mutex w) (all_done w) (cat_sem w) (mouse_sem w) (freed w) l.

Definition at_pc (p : pc) (th : thread) : thread := mk_thread (th_code th) p.
Definition goto (me : nat) (p : pc) (w : world) : world := set_threads (alter (at_pc p) me (threads w)) w.

(** ** Helper functions *)

Definition catmouse_global_free (w : world) : world :=
  mk_world (turn w) (dishes_in_use w) (cats_done w) (mice_done w) (cats_gone w) (mice_gone w) (turn_mutex w) (all_done w) (cat_sem w) (mouse_sem w) true (threads w).

Definition release_dish (my_dish : Z) (w : world) : world := set_dishes (Z.land (dishes_in_use w) (Z.lnot my_dish)) w.

Definition count_gone (animal_code : Z) (w : world) : world :=
  set_gone (if animal_code =? CAT_CODE then cats_gone w + 1 else cats_gone w) (if animal_code =? MOUSE_CODE then mice_gone w + 1 else mice_gone w) w.

(** Every third animal, and the last one of its kind, gives the turn to the
    other kind; [|] binds stronger than [&&]. *)
Definition pass_turn (animal_code : Z) (w : world) : world :=
  if (animal_code =? CAT_CODE) && ((Z.rem (cats_gone w) 3 =? 0) || (cats_gone w =? Z.of_nat NCATS)) then set_turn 2 w
  else if (animal_code =? MOUSE_CODE) && ((Z.rem (mice_gone w) 3 =? 0) || (mice_gone w =? Z.of_nat NMICE)) then set_turn 1 w
  else w.

Definition claim_dish (animal_code : Z) (w : world) : res (Z * world) :=
  _ ← assert (negb (dishes_in_use w =? Z.lor DISH1 DISH2));
  if Z.land (dishes_in_use w) DISH1 =? 0 then Ok (DISH1, pass_turn animal_code (set_dishes (Z.lor (dishes_in_use w) DISH1) (count_gone animal_code w)))
  else Ok (DISH2, pass_turn animal_code (set_dishes (Z.lor (dishes_in_use w) DISH2) (count_gone animal_code w))).

Definition is_my_turn (animal_code : Z) (w : world) : bool := animal_code =? turn w.

(** [wait_turn] after [P(turn_mutex)]. *)
Definition take_turn (animal_code : Z) (w : world) : res world := _ ← assert (turn w =? 0); Ok (set_turn animal_code w).

Definition try_release_turn (w : world) : world :=
  if dishes_in_use w =? 0 then set_turn_mutex (turn_mutex w + 1) (set_turn 0 w) else w.

(** Whether all are finished, and the world. *)
Definition check_finished (cat_or_mouse : Z) (w : world) : res (bool * world) :=
  w ← (if cat_or_mouse =? CAT_CODE then Ok (set_done (cats_done w + 1) (mice_done w) w)
       else if cat_or_mouse =? MOUSE_CODE then Ok (set_done (cats_done w) (mice_done w + 1) w)
       else Panic);
  Ok ((cats_done w =? Z.of_nat NCATS) && (mice_done w =? Z.of_nat NMICE), w).

(** ** Threads *)

Definition own_sem (code : Z) (w : world) : Z := if code =? CAT_CODE then cat_sem w else mouse_sem w.
Definition add_sem (code d : Z) (w : world) : world :=
  if code =? CAT_CODE then set_sems (cat_sem w + d) (mouse_sem w) w else set_sems (cat_sem w) (mouse_sem w + d) w.

(** The steps of [catsem] with [CAT_CODE], and of [mousesem] with
    [MOUSE_CODE]. *)
Definition animal (me : nat) (code : Z) (p : pc) (w : world) : res world :=
  match p with
  | Enter => Ok (goto me Test (add_sem code (-1) w))
  | Test => Ok (goto me (if is_my_turn code w then Claim else WaitTurn) w)
  | WaitTurn => Ok (goto me TakeTurn (set_turn_mutex (turn_mutex w - 1) w))
  | TakeTurn => w ← take_turn code w; Ok (goto me Test w)
  | Claim => '(my_dish, w) ← claim_dish code w; Ok (goto me (Eating my_dish) w)
  | Eating my_dish => Ok (goto me TryRelease (release_dish my_dish w))
  | TryRelease => Ok (goto me Leave (try_release_turn w))
  | Leave => Ok (goto me Finish (add_sem code 1 w))
  | Finish => '(is_finished, w) ← check_finished code w; Ok (goto me (if is_finished : bool then Announce else Done) w)
  | Announce => Ok (goto me Done (set_all_done (all_done w + 1) w))
  | Done | Fork _ | WaitAll => Ok w
  end.

Definition forked (n : nat) : thread := mk_thread (if (n <? NCATS)%nat then CAT_CODE else MOUSE_CODE) Enter.

(** [catmousesem]; [thread_fork] succeeds. *)
Definition catmousesem (me : nat) (p : pc) (w : world) : res world :=
  match p with
  | Fork n =>
      let w := goto me (if (S n =? NCATS + NMICE)%nat then WaitAll else Fork (S n)) w in
      Ok (set_threads (threads w ++ [forked n]) w)
  | WaitAll => Ok (goto me Done (catmouse_global_free (set_all_done (all_done w - 1) w)))
  | _ => Ok w
  end.

(** Whether a thread can take its next step: [P] waits for its semaphore. *)
Definition ready (th : thread) (w : world) : bool :=
  match th_pc th with
  | Enter => own_sem (th_code th) w >? 0
  | WaitTurn => turn_mutex w >? 0
  | WaitAll => all_done w >? 0
  | Done => false
  | _ => true
  end.

(** The semaphores may not be used once they are freed. *)
Definition step (t : nat) (w : world) : res world :=
  match threads w !! t with
  | None => Ok w
  | Some th =>
      match th_pc th with
      | Done => Ok w
      | p => if freed w then Undef else if ready th w then if th_code th =? 0 then catmousesem t p w else animal t (th_code th) p w else Ok w
      end
  end.

Definition catmouse_global_init : world := mk_world 0 0 0 0 0 0 1 0 2 2 false [mk_thread 0 (Fork 0)].

Fixpoint exec (sched : list nat) (w : world) : res world :=
  match sched with
  | [] => Ok w
  | t :: sched => w ← step t w; exec sched w
  end.

(** ** Each dish has one animal *)

Definition at_dish (d : Z) (th : thread) : Z := match th_pc th with Eating e => Z.b2z (e =? d) | _ => 0 end.
Definition past (code : Z) (th : thread) : Z := match th_pc th with Announce | Done => Z.b2z (th_code th =? code) | _ => 0 end.
Definition announcing (th : thread) : Z := match th_pc th with Announce => 1 | _ => 0 end.
Definition in_use (d : Z) (w : world) : bool := negb (Z.land (dishes_in_use w) d =? 0).
Definition finished (w : world) : bool := (cats_done w =? 6) && (mice_done w =? 2).
Definition main_done (w : world) : bool := match th_pc <$> threads w !! 0%nat with Some Done => true | _ => false end.

Definition thread_ok (n t : nat) (th : thread) : Prop :=
  match t with
  | O => th_code th = 0 /\ match th_pc th with Fork i => (i < 8)%nat /\ n = S i | WaitAll | Done => n = 9%nat | _ => False end
  | S i => th_code th = th_code (forked i) /\ match th_pc th with Fork _ | WaitAll => False | Eating d => d = 1 \/ d = 2 | _ => True end
  end.

Record inv (w : world) : Prop := {
  iv_threads t th : threads w !! t = Some th -> thread_ok (length (threads w)) t th;
  iv_some : (0 < length (threads w))%nat;
  iv_range : 0 <= dishes_in_use w <= 3;
  iv_dish d : d = 1 \/ d = 2 -> tsum (at_dish d) (threads w) = Z.b2z (in_use d w);
  iv_cats : cats_done w = tsum (past CAT_CODE) (threads w);
  iv_mice : mice_done w = tsum (past MOUSE_CODE) (threads w);
  iv_count : 0 <= all_done w;
  iv_announce : tsum announcing (threads w) + all_done w + Z.b2z (main_done w) = Z.b2z (finished w);
  iv_freed : freed w = true -> main_done w = true;
}.

Lemma sem_at_dish_nonneg d th : 0 <= at_dish d th.
Proof. unfold at_dish. destruct (th_pc th); try done. by destruct (_ =? _). Qed.
Lemma announcing_nonneg th : 0 <= announcing th.
Proof. unfold announcing. by destruct (th_pc th). Qed.

(** When all are counted, all animals are past [check_finished]. *)
Lemma all_past w t th : inv w -> finished w = true -> (0 < t)%nat -> threads w !! t = Some th -> th_pc th = Announce \/ th_pc th = Done.
Proof.
  intros Hi Hf Hpos Ht. unfold finished in Hf. apply andb_true_iff in Hf as [Hc%Z.eqb_eq Hm%Z.eqb_eq]. rewrite (iv_cats _ Hi) in Hc. rewrite (iv_mice _ Hi) in Hm.
  destruct (threads w) as [|m l] eqn:El; [done|]. destruct t as [|t]; [lia|]. cbn in Ht. set (f x := past CAT_CODE x + past MOUSE_CODE x).
  assert (threads w !! 0%nat = Some m) as H0 by (by rewrite El). destruct (iv_threads _ Hi _ _ H0) as [Hk Hmain]. rewrite El in Hmain.
  assert (forall x, f x <= 1) as Hf1.
  { intros x. unfold f, past, CAT_CODE, MOUSE_CODE. destruct (th_pc x); try lia; destruct (Z.eqb_spec (th_code x) 1), (Z.eqb_spec (th_code x) 2); cbn; lia. }
  assert (tsum f l = 8) as Hs.
  { unfold f. rewrite tsum_plus. assert (past CAT_CODE m = 0 /\ past MOUSE_CODE m = 0) as [Z1 Z2] by (unfold past; rewrite Hk; by destruct (th_pc m)).
    unfold tsum in *. cbn [foldr] in Hc, Hm. lia. }
  assert (length l <= 8)%nat as Hl by (cbn in Hmain; destruct (th_pc m); try done; lia).
  pose proof (tsum_full f l Hf1 ltac:(lia) th ltac:(by eapply list_elem_of_lookup_2)) as Hone. unfold f, past in Hone. destruct (th_pc th); auto; lia.
Qed.

Lemma freed_done w t th : inv w -> freed w = true -> threads w !! t = Some th -> th_pc th = Done.
Proof.
  intros Hi Hf Ht. pose proof (iv_freed _ Hi Hf) as Hm. pose proof (iv_announce _ Hi) as Ha. pose proof (iv_count _ Hi) as Hc. rewrite Hm in Ha.
  pose proof (tsum_nonneg announcing (threads w) announcing_nonneg) as Hn. destruct (finished w) eqn:Ef; cbn in Ha; [|lia]. destruct t as [|t].
  - unfold main_done in Hm. rewrite Ht in Hm. cbn in Hm. by destruct (th_pc th).
  - destruct (all_past w (S t) th Hi Ef ltac:(lia) Ht) as [Hp|]; [|done]. exfalso.
    pose proof (tsum_elem announcing _ _ announcing_nonneg (list_elem_of_lookup_2 _ _ _ Ht)) as Hle. unfold announcing at 1 in Hle. rewrite Hp in Hle. lia.
Qed.

(** An animal moves to [p]. *)
Lemma inv_animal w w' t th p : inv w -> threads w !! S t = Some th -> freed w' = freed w -> threads w' = alter (at_pc p) (S t) (threads w) ->
  match p with Fork _ | WaitAll => False | Eating d => d = 1 \/ d = 2 | _ => True end ->
  0 <= dishes_in_use w' <= 3 ->
  (forall d, d = 1 \/ d = 2 -> Z.b2z (in_use d w') = Z.b2z (in_use d w) - at_dish d th + at_dish d (at_pc p th)) ->
  cats_done w' = cats_done w - past CAT_CODE th + past CAT_CODE (at_pc p th) -> mice_done w' = mice_done w - past MOUSE_CODE th + past MOUSE_CODE (at_pc p th) ->
  0 <= all_done w' -> announcing (at_pc p th) - announcing th + (all_done w' - all_done w) = Z.b2z (finished w') - Z.b2z (finished w) ->
  inv w'.
Proof.
  intros Hi Ht Ef Et Hp Hr Hd Hc Hm Hn Ha. pose proof (iv_threads _ Hi _ _ Ht) as [Hk _].
  assert (main_done w' = main_done w) as Hmain by (unfold main_done; by rewrite Et, list_lookup_alter_ne by done).
  split; rewrite ?Et, ?length_alter, ?(tsum_alter _ _ _ _ _ Ht), ?Hmain, ?Ef; try done.
  - intros j th'. destruct (decide (j = S t)) as [->|Hne]; [|rewrite list_lookup_alter_ne by done; apply (iv_threads _ Hi)].
    rewrite list_lookup_alter_eq, Ht. by intros [= <-].
  - apply Hi.
  - intros d Hd'. rewrite (tsum_alter _ _ _ _ _ Ht), (iv_dish _ Hi) by done. rewrite Hd by done. lia.
  - rewrite <- (iv_cats _ Hi). lia.
  - rewrite <- (iv_mice _ Hi). lia.
  - pose proof (iv_announce _ Hi). lia.
  - apply Hi.
Qed.

(** A step that leaves the dishes and the counts of finished animals alone. *)
Lemma inv_quiet w w' t th p : inv w -> threads w !! S t = Some th -> freed w' = freed w -> threads w' = alter (at_pc p) (S t) (threads w) ->
  match p with Enter | Test | WaitTurn | TakeTurn | Claim | TryRelease | Leave | Finish => True | _ => False end ->
  match th_pc th with Enter | Test | WaitTurn | TakeTurn | Claim | TryRelease | Leave | Finish => True | _ => False end ->
  dishes_in_use w' = dishes_in_use w -> cats_done w' = cats_done w -> mice_done w' = mice_done w -> all_done w' = all_done w -> inv w'.
Proof.
  intros Hi Ht Ef Et Hp Hp0 Ed Ec Em Ea. eapply (inv_animal w w' t th p); try done; unfold in_use, finished, at_dish, past, announcing; rewrite ?Ed, ?Ec, ?Em, ?Ea.
  - by destruct p.
  - apply Hi.
  - intros d _. destruct (th_pc th), p; done || (cbn; lia).
  - destruct (th_pc th), p; done || (cbn; lia).
  - destruct (th_pc th), p; done || (cbn; lia).
  - apply Hi.
  - destruct (th_pc th), p; done || (cbn; lia).
Qed.

Lemma claim_spec code w : inv w -> claim_dish code w = Panic \/
  exists d w', claim_dish code w = Ok (d, w') /\ (d = 1 \/ d = 2) /\ 0 <= dishes_in_use w' <= 3 /\ (forall e, e = 1 \/ e = 2 -> Z.b2z (in_use e w') = Z.b2z (in_use e w) + Z.b2z (d =? e)) /\
    threads w' = threads w /\ freed w' = freed w /\ cats_done w' = cats_done w /\ mice_done w' = mice_done w /\ all_done w' = all_done w.
Proof.
  intros Hi. pose proof (iv_range _ Hi) as Hr. unfold claim_dish.
  assert (forall w1, threads (pass_turn code w1) = threads w1 /\ dishes_in_use (pass_turn code w1) = dishes_in_use w1 /\ freed (pass_turn code w1) = freed w1 /\
    cats_done (pass_turn code w1) = cats_done w1 /\ mice_done (pass_turn code w1) = mice_done w1 /\ all_done (pass_turn code w1) = all_done w1) as Hl
    by (intros w1; unfold pass_turn; repeat case_match; done).
  unfold in_use. assert (dishes_in_use w = 0 \/ dishes_in_use w = 1 \/ dishes_in_use w = 2 \/ dishes_in_use w = 3) as [E|[E|[E|E]]] by lia; rewrite E;
    [right..|by left];
    match goal with |- context [assert ?b] => let v := eval vm_compute in b in change b with v end; cbn [assert]; rewrite bind_Ok;
    match goal with |- context [if ?b then _ else _] => let v := eval vm_compute in b in change b with v end; cbv iota; do 2 eexists; (split; [reflexivity|]);
    match goal with |- context [pass_turn code ?x] => destruct (Hl x) as (-> & -> & -> & -> & -> & ->) end; cbn [dishes_in_use set_dishes];
    split_and!; try done; auto; by intros e [-> | ->].
Qed.

Lemma animal_ok w t th : inv w -> threads w !! S t = Some th -> freed w = false -> ready th w = true ->
  animal (S t) (th_code th) (th_pc th) w = Panic \/ exists w', animal (S t) (th_code th) (th_pc th) w = Ok w' /\ inv w'.
Proof.
  intros Hi Ht Hfr Hr. pose proof (iv_threads _ Hi _ _ Ht) as [Hk Hpc]. unfold animal, ready in *.
  assert (forall d, threads (add_sem (th_code th) d w) = threads w /\ freed (add_sem (th_code th) d w) = freed w /\ dishes_in_use (add_sem (th_code th) d w) = dishes_in_use w /\
    cats_done (add_sem (th_code th) d w) = cats_done w /\ mice_done (add_sem (th_code th) d w) = mice_done w /\ all_done (add_sem (th_code th) d w) = all_done w) as Hadd
    by (intros d; unfold add_sem; by destruct (_ =? _)).
  destruct (th_pc th) as [| | | | |d| | | | | |n|] eqn:Hp; try done.
  - right. eexists. split; [done|]. destruct (Hadd (-1)) as (E1 & E2 & E3 & E4 & E5 & E6). apply (inv_quiet w _ t th Test); try done; [by rewrite <- E1|by rewrite Hp].
  - right. eexists. split; [done|]. eapply (inv_quiet w _ t th); try done; [by destruct (is_my_turn _ _)|by rewrite Hp].
  - right. eexists. split; [done|]. by apply (inv_quiet w _ t th TakeTurn); try done; rewrite Hp.
  - unfold take_turn. destruct (turn w =? 0); [|by left]. right. cbn [assert]. rewrite !bind_Ok. eexists. split; [done|]. by apply (inv_quiet w _ t th Test); try done; rewrite Hp.
  - destruct (claim_spec (th_code th) w Hi) as [->|(d & w1 & -> & Hd & Hr1 & Hu & E1 & E2 & E3 & E4 & E5)]; [by left|]. right. rewrite bind_Ok. eexists. split; [done|].
    eapply (inv_animal w _ t th (Eating d)); unfold past, announcing, at_dish, finished; rewrite ?Hp; try done.
    + by rewrite <- E1.
    + intros e He. specialize (Hu e He). cbn [th_pc at_pc]. unfold in_use in *. cbn [dishes_in_use set_threads goto]. lia.
    + cbn. lia.
    + cbn. lia.
    + cbn. rewrite E5. apply Hi.
    + cbn. rewrite E3, E4, E5. lia.
  - right. eexists. split; [done|].
    pose proof (tsum_elem (at_dish d) _ _ (sem_at_dish_nonneg d) (list_elem_of_lookup_2 _ _ _ Ht)) as Hle. rewrite (iv_dish _ Hi d Hpc) in Hle. unfold at_dish in Hle. rewrite Hp, Z.eqb_refl in Hle.
    pose proof (iv_range _ Hi) as Hrange.
    eapply (inv_animal w _ t th TryRelease); unfold past, announcing, at_dish, finished; rewrite ?Hp; try done; try (cbn; lia); try apply Hi; unfold in_use in *; cbn [dishes_in_use release_dish set_dishes goto set_threads];
      assert (dishes_in_use w = 0 \/ dishes_in_use w = 1 \/ dishes_in_use w = 2 \/ dishes_in_use w = 3) as [E|[E|[E|E]]] by lia; rewrite E in *; destruct Hpc as [-> | ->]; try (exfalso; vm_compute in Hle; lia);
      try done; by intros e [-> | ->].
  - right. eexists. split; [done|]. unfold try_release_turn. by destruct (dishes_in_use w =? 0); apply (inv_quiet w _ t th Leave); try done; rewrite Hp.
  - right. eexists. split; [done|]. destruct (Hadd 1) as (E1 & E2 & E3 & E4 & E5 & E6). apply (inv_quiet w _ t th Finish); try done; [by rewrite <- E1|by rewrite Hp].
  - right. assert (finished w = false) as Hnf.
    { destruct (finished w) eqn:E; [|done]. destruct (all_past w (S t) th Hi E ltac:(lia) Ht); congruence. }
    assert (th_code th = CAT_CODE \/ th_code th = MOUSE_CODE) as Hcode by (rewrite Hk; unfold forked; cbn [th_code]; destruct (t <? NCATS)%nat; auto).
    unfold check_finished. destruct Hcode as [Hc|Hc]; rewrite Hc; cbn [Z.eqb Pos.eqb CAT_CODE MOUSE_CODE]; rewrite !bind_Ok; cbn [cats_done mice_done set_done];
      (eexists; split; [reflexivity|]); match goal with |- context [if ?b then Announce else Done] => set (b0 := b) end;
      (eapply (inv_animal w _ t th (if b0 then Announce else Done)); unfold past, announcing, at_dish; rewrite ?Hp, ?Hnf; cbn [at_pc th_code th_pc]; rewrite ?Hc;
        [done..|by destruct b0|apply Hi|intros e He; destruct b0; cbn; unfold in_use; cbn; lia|destruct b0; cbn; lia|destruct b0; cbn; lia|apply Hi|]);
      unfold finished; cbn [cats_done mice_done goto set_threads set_done all_done]; change 6 with (Z.of_nat NCATS); change 2 with (Z.of_nat NMICE); fold b0; destruct b0; cbn; lia.
  - right. eexists. split; [done|]. eapply (inv_animal w _ t th Done); unfold past, announcing, at_dish, finished; rewrite ?Hp; try done; try (cbn; lia); try apply Hi.
    + intros e He. unfold in_use. cbn. lia.
    + pose proof (iv_count _ Hi). cbn. lia.
Qed.

Lemma main_move w w' th p tl : inv w -> threads w !! 0%nat = Some th -> th_pc th <> Done -> threads w' = alter (at_pc p) 0%nat (threads w) ++ tl ->
  (tl = [] \/ exists n, th_pc th = Fork n /\ tl = [forked n]) ->
  match p with Fork i => (i < 8)%nat /\ length (threads w') = S i | WaitAll | Done => length (threads w') = 9%nat | _ => False end ->
  dishes_in_use w' = dishes_in_use w -> cats_done w' = cats_done w -> mice_done w' = mice_done w -> 0 <= all_done w' ->
  all_done w' + Z.b2z (match p with Done => true | _ => false end) = all_done w -> (freed w' = true -> p = Done) -> inv w'.
Proof.
  intros Hi Ht Hnd Et Htl Hp Ed Ec Em Hn Ha Hf. pose proof (iv_threads _ Hi _ _ Ht) as [Hk Hpc].
  assert (forall f, f th = 0 -> f (at_pc p th) = 0 -> (forall n, f (forked n) = 0) -> tsum f (threads w') = tsum f (threads w)) as Hsum.
  { intros f F1 F2 F3. rewrite Et, tsum_app, (tsum_alter _ _ _ _ _ Ht). destruct Htl as [->|(n & _ & ->)]; cbn [tsum foldr]; rewrite ?F3; lia. }
  assert (forall code, code <> 0 -> past code th = 0 /\ past code (at_pc p th) = 0) as Hpast.
  { intros code Hc. unfold past, at_pc. cbn [th_code th_pc]. rewrite Hk. destruct (Z.eqb_spec 0 code); [congruence|]. split; [by destruct (th_pc th)|by destruct p]. }
  assert (threads w' !! 0%nat = Some (at_pc p th)) as H0 by (rewrite Et, lookup_app_l, list_lookup_alter_eq, Ht by (rewrite length_alter; by eapply lookup_lt_Some); done).
  assert (main_done w' = match p with Done => true | _ => false end) as Hmd by (unfold main_done; by rewrite H0).
  assert (main_done w = false) as Hmd0 by (unfold main_done; rewrite Ht; cbn; by destruct (th_pc th)).
  split.
  - intros j th'. rewrite Et. intros [Hj|[Hj Hj']]%lookup_app_Some; rewrite <- Et.
    + destruct (decide (j = 0%nat)) as [->|Hne]; [rewrite list_lookup_alter_eq, Ht in Hj; by injection Hj as <-|]. rewrite list_lookup_alter_ne in Hj by done.
      pose proof (iv_threads _ Hi _ _ Hj) as Hok. by destruct j.
    + destruct Htl as [->|(n & Hfk & ->)]; [done|]. rewrite length_alter in *. apply list_lookup_singleton_Some in Hj' as [Hz <-]. rewrite Hfk in Hpc.
      replace j with (S n) by lia. done.
  - rewrite Et, length_app, length_alter. pose proof (iv_some _ Hi). lia.
  - rewrite Ed. apply Hi.
  - intros d Hd. unfold in_use. rewrite Ed. rewrite Hsum; [by apply Hi|unfold at_dish..|done]; [by destruct (th_pc th)|by destruct p].
  - rewrite Ec, Hsum; [apply Hi|by apply Hpast..|done].
  - rewrite Em, Hsum; [apply Hi|by apply Hpast..|done].
  - done.
  - pose proof (iv_announce _ Hi) as Hann. unfold finished in *. rewrite Ec, Em, Hmd. rewrite Hmd0 in Hann.
    rewrite Hsum; [cbn in Hann; lia|unfold announcing..|done]; [by destruct (th_pc th)|by destruct p].
  - intros ?%Hf. rewrite Hmd. by subst p.
Qed.

Lemma sem_step_ok w t : inv w -> step t w = Panic \/ exists w', step t w = Ok w' /\ inv w'.
Proof.
  intros Hi. unfold step. destruct (threads w !! t) as [th|] eqn:Ht; [|by right; exists w]. destruct (decide (th_pc th = Done)) as [->|Hnd]; [by right; exists w|].
  assert (freed w = false) as Hfr by (destruct (freed w) eqn:E; [|done]; by rewrite (freed_done w t th Hi E Ht) in Hnd). rewrite Hfr.
  destruct (ready th w) eqn:Hr; [|right; exists w; split; [|done]; by destruct (th_pc th)].
  destruct t as [|t].
  - pose proof (iv_threads _ Hi _ _ Ht) as [Hk Hpc]. rewrite Hk. right. unfold catmousesem. unfold ready in Hr. destruct (th_pc th) as [| | | | |d| | | | | |n|] eqn:Hp; try done; eexists; (split; [reflexivity|]).
    + destruct Hpc as [Hn Hl]. eapply (main_move w _ th (if (S n =? 8)%nat then WaitAll else Fork (S n)) [forked n]); try done.
      * congruence.
      * right. by exists n.
      * cbn [threads set_threads goto]. rewrite length_app, length_alter, Hl. destruct (Nat.eqb_spec (S n) 8); cbn; lia.
      * apply Hi.
      * cbn. destruct (_ =? _)%nat; cbn; lia.
      * cbn. congruence.
    + eapply (main_move w _ th Done []); try done.
      * congruence.
      * by rewrite app_nil_r.
      * by left.
      * cbn [threads set_threads goto catmouse_global_free set_all_done]. by rewrite length_alter.
      * cbn. lia.
      * cbn. lia.
  - pose proof (iv_threads _ Hi _ _ Ht) as [Hk _]. assert ((th_code th =? 0) = false) as -> by (rewrite Hk; unfold forked; cbn [th_code]; by destruct (t <? NCATS)%nat).
    destruct (animal_ok w t th Hi Ht Hfr Hr) as [E|(w' & E & Hi')]; [left|right; exists w'; split; [|done]]; by destruct (th_pc th).
Qed.

Lemma sem_init_inv : inv catmouse_global_init.
Proof.
  split; try done.
  - intros t th [-> <-]%list_lookup_singleton_Some. cbn. split; [done|lia].
  - cbn. lia.
Qed.

Lemma sem_exec_ok sched : forall w, inv w -> exec sched w = Panic \/ exists w', exec sched w = Ok w' /\ inv w'.
Proof.
  induction sched as [|t sched IH]; intros w Hi; cbn [exec]; [right; by exists w|].
  destruct (sem_step_ok w t Hi) as [->|(w1 & -> & Hi1)]; [by left|]. rewrite bind_Ok. by apply IH.
Qed.

(** Under every schedule catsem.c keeps two animals from eating from one
    dish, and uses no semaphore after it is freed: the run stops with a
    failed assertion, or two threads that eat have different dishes, one of
    [DISH1] and [DISH2]. *)
Theorem catsem_dishes sched : exec sched catmouse_global_init = Panic \/
  exists w, exec sched catmouse_global_init = Ok w /\ forall i j x y d e, threads w !! i = Some x -> threads w !! j = Some y -> th_pc x = Eating d -> th_pc y = Eating e ->
    (d = DISH1 \/ d = DISH2) /\ (d = e -> i = j).
Proof.
  destruct (sem_exec_ok sched _ sem_init_inv) as [?|(w & He & Hi)]; [by left|]. right. exists w. split; [done|]. intros i j x y d e Hx Hy Px Py.
  assert (d = 1 \/ d = 2) as Hd. { pose proof (iv_threads _ Hi _ _ Hx) as Hok. destruct i; destruct Hok as [_ Hok]; by rewrite Px in Hok. }
  split; [done|]. intros <-. destruct (decide (i = j)) as [|Hne]; [done|]. exfalso.
  pose proof (tsum_two _ _ i j x y (sem_at_dish_nonneg d) Hne Hx Hy) as Hs. rewrite (iv_dish _ Hi) in Hs by done.
  unfold at_dish in Hs. rewrite Px, Py, Z.eqb_refl in Hs. destruct (in_use d w); cbn in Hs; lia.
Qed.

(** The threads are started, two cats eat, one leaves, and the third cat, which
    passes the turn, takes its dish. *)
Definition third_cat : list nat := replicate 8 0%nat ++ replicate 6 1%nat ++ replicate 3 2%nat ++ replicate 3 1%nat ++ replicate 3 3%nat.

(** Two cats eat and both return their dish before either looks whether the
    dishes are free. *)
Definition two_releases : list nat := replicate 8 0%nat ++ replicate 6 1%nat ++ replicate 3 2%nat ++ [1; 2; 1; 2]%nat.

(** Three races of catsem.c.  claim_dish gives the turn away while the
    claimer and another animal still eat: a mouse that comes then finds both
    dishes in use, which its assertion excludes; or, if one cat leaves first,
    it eats together with the other cat.  And two animals that return their
    dishes together both release the turn, after which turn_mutex admits two,
    and the second one to take the turn fails its assertion. *)
Theorem catsem_races : exec (third_cat ++ [7; 7; 7]%nat) catmouse_global_init = Panic /\
  (exists w, exec (third_cat ++ [2; 7; 7; 7]%nat) catmouse_global_init = Ok w /\
    threads w !! 3%nat = Some (mk_thread CAT_CODE (Eating DISH1)) /\ threads w !! 7%nat = Some (mk_thread MOUSE_CODE (Eating DISH2))) /\
  (exists w, exec two_releases catmouse_global_init = Ok w /\ turn_mutex w = 2) /\
  exec (two_releases ++ [7; 7; 7; 8; 8; 8; 7; 8]%nat) catmouse_global_init = Panic.
Proof.
  split; [by vm_compute|]. split; [eexists; split; [vm_compute; reflexivity|done]|]. split; [eexists; split; [vm_compute; reflexivity|done]|by vm_compute].
Qed.
