(* ===== verification/PidManager.v ===== *)
(** * kern/thread/pid_manager.c and kern/userprog/syscall_delegation.c

    Process ids.  The blocks that [create_pid_block] allocates live in a heap
    keyed by address, because the code keeps pointers to a block in the table
    and in its parent's array of children, and frees blocks that are still
    pointed to: a dereference of a freed block is [Undef].

    [validate_pid] accepts 0, so [get_pid_block 0] reads the word in front of
    the table; that word is [pm_below].  [number_of_procs] is not initialised
    by [pid_manager_bootstrap]; its first value is an argument.  The lock is
    represented by whether the caller holds it ([held]); waiting for it and
    on the condition variable is Synch.v's subject, and [wait_pid] is cut in
    two where it may wait. *)
From stdpp Require Import base numbers list option gmap.
From S2P Require Import Prelude KArray Queue Sched SchedInv.
Local Open Scope Z_scope.

Definition MAX_PIDS : Z := 100.

Record pid_info_block : Type := mk_block {
  my_pid : Z;
  my_parent : Z;
  children : array Z;
  is_exited : Z;
  exit_status : Z;
}.

Record pid_manager : Type := mk_pm {
  pm_heap : gmap Z pid_info_block;
  pm_blocks : list (option Z);
  pm_below : option Z;
  pm_procs : Z;
  pm_next : Z;
}.

Definition with_heap (h : gmap Z pid_info_block) (pm : pid_manager) : pid_manager :=
  mk_pm h (pm_blocks pm) (pm_below pm) (pm_procs pm) (pm_next pm).
Definition with_blocks (t : list (option Z)) (pm : pid_manager) : pid_manager :=
  mk_pm (pm_heap pm) t (pm_below pm) (pm_procs pm) (pm_next pm).
Definition with_procs (n : Z) (pm : pid_manager) : pid_manager :=
  mk_pm (pm_heap pm) (pm_blocks pm) (pm_below pm) n (pm_next pm).
Definition with_next (n : Z) (pm : pid_manager) : pid_manager :=
  mk_pm (pm_heap pm) (pm_blocks pm) (pm_below pm) (pm_procs pm) n.

Definition deref (pm : pid_manager) (b : Z) : res pid_info_block :=
  match pm_heap pm !! b with Some x => Ok x | None => Undef end.

(** ** Private functions *)

Definition validate_pid (pid : Z) : bool := negb ((pid <? 0) || (pid >? MAX_PIDS)).

Definition get_pid_block (pm : pid_manager) (pid : Z) : res (option Z) :=
  if negb (validate_pid pid) then Ok None
  else if pid - 1 =? -1 then Ok (pm_below pm)
  else load (pm_blocks pm) (pid - 1).

Definition set_pid_block (pm : pid_manager) (pid : Z) (b : option Z) : res pid_manager :=
  if negb (validate_pid pid) then Ok pm
  else if pid - 1 =? -1 then
    Ok (mk_pm (pm_heap pm) (pm_blocks pm) b (pm_procs pm) (pm_next pm))
  else t ← store (pm_blocks pm) (pid - 1) b; Ok (with_blocks t pm).

Definition is_pid_free (pm : pid_manager) (pid : Z) : res bool :=
  b ← get_pid_block pm pid;
  Ok (match b with None => true | Some _ => false end).

Definition should_free_pid (pm : pid_manager) (b : Z) : res bool :=
  blk ← deref pm b;
  if is_exited blk =? 0 then Ok false
  else
    free ← (if my_parent blk <? 2 then Ok true else is_pid_free pm (my_parent blk));
    if (free : bool) then Ok true
    else
      p ← get_pid_block pm (my_parent blk);
      match p with
      | None => Undef
      | Some p => pblk ← deref pm p; Ok (is_exited pblk =? 1)
      end.

(** The loop of [scan_free]; the result is the final [i] and
    [considered_start]. *)
Fixpoint scan_loop (fuel : nat) (pm : pid_manager) (start i : Z) (considered : bool)
    : res (Z * bool) :=
  match fuel with
  | O => Fuel
  | S fuel =>
      free ← is_pid_free pm i;
      if negb free && negb ((i =? start) && considered) then
        scan_loop fuel pm start (Z.rem i MAX_PIDS + 1) (considered || (i =? start))
      else Ok (i, considered)
  end.

Definition scan_free (pm : pid_manager) : res Z :=
  if pm_procs pm =? MAX_PIDS then Ok (-1)
  else
    '(i, considered) ← scan_loop 102 pm (pm_next pm) (pm_next pm) false;
    if (i =? pm_next pm) && considered then Ok (-1)
    else _ ← assert ((i >? 0) && (i <=? MAX_PIDS)); Ok i.

(** The answers of [kmalloc] for a new block: its address, the array of its
    children, its condition variable. *)
Definition create_pid_block (p : option Z) (okarr okcv : bool) (pm : pid_manager)
    (pid parent : Z) : option Z * pid_manager :=
  match p, array_create okarr with
  | Some b, Some a =>
      if okcv then (Some b, with_heap (<[b := mk_block pid parent a 0 0]> (pm_heap pm)) pm)
      else (None, pm)
  | _, _ => (None, pm)
  end.

Definition destroy_pid_block (pm : pid_manager) (b : option Z) : res pid_manager :=
  match b with
  | None => Panic
  | Some b => _ ← deref pm b; Ok (with_heap (delete b (pm_heap pm)) pm)
  end.

(** ** Public functions *)

Definition get_parent (pm : pid_manager) (pid : Z) : res Z :=
  b ← get_pid_block pm pid;
  match b with
  | None => Ok (-1)
  | Some b => blk ← deref pm b; Ok (my_parent blk)
  end.

Definition get_pid (pm : pid_manager) (thread_pid : Z) : res Z :=
  b ← get_pid_block pm thread_pid;
  match b with
  | None => Undef
  | Some b => blk ← deref pm b; _ ← assert (thread_pid =? my_pid blk); Ok thread_pid
  end.

Definition is_pid_exited (pm : pid_manager) (pid : Z) : res Z :=
  b ← get_pid_block pm pid;
  match b with None => Undef | Some b => blk ← deref pm b; Ok (is_exited blk) end.

Definition get_exit_status (pm : pid_manager) (pid : Z) : res Z :=
  b ← get_pid_block pm pid;
  match b with
  | None => Ok (-1)
  | Some b => blk ← deref pm b; Ok (exit_status blk)
  end.

Definition set_children (a : array Z) (blk : pid_info_block) : pid_info_block :=
  mk_block (my_pid blk) (my_parent blk) a (is_exited blk) (exit_status blk).
Definition set_exited (status : Z) (blk : pid_info_block) : pid_info_block :=
  mk_block (my_pid blk) (my_parent blk) (children blk) 1 status.

(** The part of [inform_process_add] after a block was made. *)
Definition add_enter (okadd : bool) (pm : pid_manager) (i b parent_id : Z)
    : res (Z * Z * pid_manager) :=
  parent ← get_pid_block pm parent_id;
  '(err, pm) ←
    match parent with
    | None => Ok (0, pm)
    | Some pb =>
        pblk ← deref pm pb;
        '(e, a) ← array_add okadd (children pblk) b;
        Ok (e, with_heap (<[pb := set_children a pblk]> (pm_heap pm)) pm)
    end;
  if negb (err =? 0) then pm ← destroy_pid_block pm (Some b); Ok (ENOMEM, 0, pm)
  else
    pm ← set_pid_block pm i (Some b);
    Ok (0, i, with_procs (pm_procs pm + 1) (with_next (Z.rem i MAX_PIDS + 1) pm)).

(** Result code, the pid stored in the thread, the manager.  [held] tells
    whether the caller holds the lock. *)
Definition inform_process_add (held : bool) (p : option Z) (okarr okcv okadd : bool)
    (pm : pid_manager) (parent_id : Z) : res (Z * Z * pid_manager) :=
  if pm_procs pm =? MAX_PIDS then Ok (EAGAIN, 0, pm)
  else
    i ← scan_free pm;
    if i =? -1 then Panic
    else
      let '(block, pm) := create_pid_block p okarr okcv pm i parent_id in
      match block with
      | None => _ ← assert held; Ok (ENOMEM, 0, pm)
      | Some b => add_enter okadd pm i b parent_id
      end.

(** The loop over the children, with [n] of them left. *)
Fixpoint exit_children (n : nat) (pm : pid_manager) (kids : array Z) (i : Z)
    : res pid_manager :=
  match n with
  | O => Ok pm
  | S n =>
      x ← array_getguy kids i;
      c ← cell x;
      free ← should_free_pid pm c;
      pm ← (if (free : bool) then
              blk ← deref pm c;
              pm ← set_pid_block pm (my_pid blk) None;
              pm ← destroy_pid_block pm (Some c);
              Ok (with_procs (pm_procs pm - 1) pm)
            else Ok pm);
      exit_children n pm kids (i + 1)
  end.

Definition inform_process_exit (held : bool) (pm : pid_manager) (pid status : Z)
    : res (Z * pid_manager) :=
  block ← get_pid_block pm pid;
  match block with
  | None => Ok (EINVAL, pm)
  | Some b =>
      _ ← assert (negb held);
      blk ← deref pm b;
      let pm := with_heap (<[b := set_exited status blk]> (pm_heap pm)) pm in
      pm ← exit_children (Z.to_nat (array_getnum (children blk))) pm (children blk) 0;
      free ← should_free_pid pm b;
      pm ← (if (free : bool) then
              pm ← set_pid_block (with_procs (pm_procs pm - 1) pm) pid None;
              destroy_pid_block pm (Some b)
            else Ok pm);
      _ ← assert (pm_procs pm >=? 0);
      Ok (0, pm)
  end.

(** [wait_pid] up to the point where it may wait: an error code, or whether
    it has to wait on the condition variable of the block. *)
Inductive wait_result : Type := WaitError (e : Z) | WaitDone (status : Z) | WaitBlocked.

(** From the end of the [cv_wait] on. *)
Definition wait_pid_resume (pm : pid_manager) (pid : Z) : res Z :=
  b ← get_pid_block pm pid;
  match b with None => Undef | Some b => blk ← deref pm b; Ok (exit_status blk) end.

Definition wait_pid (held : bool) (pm : pid_manager) (pid caller : Z) : res wait_result :=
  if negb (validate_pid pid) then Ok (WaitError EINVAL)
  else
    parent ← get_parent pm pid;
    if negb (parent =? caller) then Ok (WaitError EINVAL)
    else
      _ ← assert (negb held);
      b ← get_pid_block pm pid;
      match b with
      | None => Undef
      | Some b =>
          blk ← deref pm b;
          if is_exited blk =? 0 then Ok WaitBlocked
          else st ← wait_pid_resume pm pid; Ok (WaitDone st)
      end.

(** [procs] and [below] are what the memory happens to contain. *)
Definition pid_manager_bootstrap (ok oklock : bool) (procs : Z) (below : option Z)
    : res pid_manager :=
  _ ← assert ok;
  _ ← assert oklock;
  Ok (mk_pm ∅ (replicate (Z.to_nat MAX_PIDS) None) below procs 1).

Fixpoint destroy_loop (n : nat) (i : Z) (pm : pid_manager) : res pid_manager :=
  match n with
  | O => Ok pm
  | S n =>
      b ← get_pid_block pm i;
      pm ← match b with
           | None => Ok pm
           | Some b => destroy_pid_block pm (Some b)
           end;
      destroy_loop n (i + 1) pm
  end.

Definition destroy_pid_manager (pm : pid_manager) : res pid_manager :=
  destroy_loop (Z.to_nat MAX_PIDS) 0 pm.

(** ** syscall_delegation.c *)

Inductive waitpid_result : Type := WpReturn (ret err : Z) (retval : option Z) | WpBlocked.

(** The return value, [errno] and [*retval]; [args] is the third argument as
    a pointer. *)
Definition sys_waitpid (held : bool) (pm : pid_manager) (cur_pid target args : Z)
    : res waitpid_result :=
  if negb (args =? 0) then Ok (WpReturn EINVAL 0 None)
  else
    r ← wait_pid held pm target cur_pid;
    Ok (match r with
        | WaitError e => WpReturn (-1) e None
        | WaitDone _ => WpReturn 0 0 (Some target)
        | WaitBlocked => WpBlocked
        end).

(** [retval] is where the caller points. *)
Definition sys_getpid (pm : pid_manager) (cur_pid : Z) (retval : Z) : res (Z * Z) :=
  pid ← get_pid pm cur_pid;
  if retval =? 0 then Undef else Ok (0, pid).

(** ** Invariant *)

(** The number of entries of the table in use. *)
Definition used (t : list (option Z)) : Z :=
  Z.of_nat (length (filter (fun x => is_Some x) t)).

(** The block of [pid] in the table. *)
Definition entry (pm : pid_manager) (pid : Z) : option Z :=
  if (1 <=? pid) && (pid <=? MAX_PIDS) then mjoin (pm_blocks pm !! Z.to_nat (pid - 1)) else None.

Definition lookup_pid (pm : pid_manager) (pid : Z) : option pid_info_block :=
  b ← entry pm pid; pm_heap pm !! b.

(** The array of a process's children is in order; that of a living process
    other than pid 1 points to blocks of processes whose parent it is. *)
Definition kids_ok (pm : pid_manager) (blk : pid_info_block) : Prop :=
  arr_wf (children blk) /\
  (is_exited blk = 0 -> 2 <= my_pid blk ->
   exists l, holds (children blk) l /\ NoDup l /\
     forall c, c ∈ l -> exists cb, pm_heap pm !! c = Some cb /\ my_parent cb = my_pid blk /\
       my_pid cb <> my_pid blk).

Record pm_inv (pm : pid_manager) : Prop := {
  pi_len : length (pm_blocks pm) = Z.to_nat MAX_PIDS;
  pi_next : 1 <= pm_next pm <= MAX_PIDS;
  pi_below : pm_below pm = None;
  pi_entry : forall pid b, entry pm pid = Some b ->
    exists blk, pm_heap pm !! b = Some blk /\ my_pid blk = pid;
  pi_heap : forall b blk, pm_heap pm !! b = Some blk -> entry pm (my_pid blk) = Some b;
  pi_procs : pm_procs pm = used (pm_blocks pm);
  pi_flag : forall b blk, pm_heap pm !! b = Some blk -> is_exited blk = 0 \/ is_exited blk = 1;
  pi_kids : forall b blk, pm_heap pm !! b = Some blk -> kids_ok pm blk;
}.

(** ** The table *)

Lemma valid_true pid : 0 <= pid <= MAX_PIDS -> validate_pid pid = true.
Proof. intros. unfold validate_pid, MAX_PIDS in *. zbool. Qed.

Lemma get_pid_block_entry pm pid : pm_inv pm -> get_pid_block pm pid = Ok (entry pm pid).
Proof.
  intros [Hlen _ Hbelow _ _ _ _ _]. unfold get_pid_block, entry, validate_pid, MAX_PIDS in *.
  destruct (Z.ltb_spec pid 0); simpl.
  { by destruct (Z.leb_spec 1 pid); [lia|]. }
  rewrite Z.gtb_ltb. destruct (Z.ltb_spec 100 pid); simpl.
  { destruct (Z.leb_spec 1 pid), (Z.leb_spec pid 100); (done || lia). }
  destruct (Z.eqb_spec (pid - 1) (-1)).
  { destruct (Z.leb_spec 1 pid); [lia|]. by rewrite Hbelow. }
  destruct (Z.leb_spec 1 pid), (Z.leb_spec pid 100); try lia. simpl.
  destruct (load_in_range (pm_blocks pm) (pid - 1)) as (x & -> & ->); [lia|]. done.
Qed.

Lemma entry_range pm pid b : entry pm pid = Some b -> 1 <= pid <= MAX_PIDS.
Proof.
  unfold entry. destruct (Z.leb_spec 1 pid), (Z.leb_spec pid MAX_PIDS); simpl; (lia || done).
Qed.

Lemma set_pid_block_ok pm pid x :
  length (pm_blocks pm) = Z.to_nat MAX_PIDS -> 1 <= pid <= MAX_PIDS ->
  set_pid_block pm pid x = Ok (with_blocks (<[Z.to_nat (pid - 1) := x]> (pm_blocks pm)) pm).
Proof.
  intros Hlen Hp. unfold set_pid_block. rewrite valid_true by lia. simpl.
  destruct (Z.eqb_spec (pid - 1) (-1)); [lia|]. unfold MAX_PIDS in *.
  by rewrite store_in_range by lia.
Qed.

Lemma entry_set pm pid x q :
  length (pm_blocks pm) = Z.to_nat MAX_PIDS -> 1 <= pid <= MAX_PIDS ->
  entry (with_blocks (<[Z.to_nat (pid - 1) := x]> (pm_blocks pm)) pm) q =
    if decide (q = pid) then x else entry pm q.
Proof.
  intros Hlen Hp. unfold entry, MAX_PIDS in *. simpl.
  destruct (Z.leb_spec 1 q), (Z.leb_spec q 100); simpl;
    case_decide; subst; try lia; try done.
  - by rewrite list_lookup_insert_eq by lia.
  - by rewrite list_lookup_insert_ne by lia.
Qed.

Lemma used_app l1 l2 : used (l1 ++ l2) = used l1 + used l2.
Proof. unfold used. rewrite filter_app, length_app. lia. Qed.

Lemma used_cons (x : option Z) l : used (x :: l) = (if x is Some _ then 1 else 0) + used l.
Proof.
  unfold used. rewrite filter_cons. destruct x as [z|].
  - rewrite decide_True by done. simpl. lia.
  - rewrite decide_False by (by intros []). lia.
Qed.

Lemma used_set t i (x y : option Z) :
  t !! i = Some y -> used (<[i := x]> t) = used t - (if y is Some _ then 1 else 0) + (if x is Some _ then 1 else 0).
Proof.
  intros Hi. rewrite insert_take_drop by (by eapply lookup_lt_Some).
  rewrite <- (take_drop_middle t i y Hi) at 3. rewrite !used_app, !used_cons. lia.
Qed.

Lemma entry_lookup pm pid :
  pm_inv pm -> 1 <= pid <= MAX_PIDS -> pm_blocks pm !! Z.to_nat (pid - 1) = Some (entry pm pid).
Proof.
  intros [Hlen _ _ _ _ _ _ _] Hp. unfold entry, MAX_PIDS in *.
  destruct (Z.leb_spec 1 pid), (Z.leb_spec pid 100); try lia. simpl.
  destruct (lookup_lt_is_Some_2 (pm_blocks pm) (Z.to_nat (pid - 1))) as [x Hx]; [lia|].
  by rewrite Hx.
Qed.

(** ** scan_free *)

(** The pids in the order [scan_free] looks at them. *)
Definition nth_pid (start : Z) (k : nat) : Z := (start - 1 + Z.of_nat k) `mod` MAX_PIDS + 1.

Lemma nth_pid_range start k : 1 <= nth_pid start k <= MAX_PIDS.
Proof. unfold nth_pid, MAX_PIDS. dlia. Qed.

Lemma nth_pid_succ start k : 1 <= start <= MAX_PIDS ->
  Z.rem (nth_pid start k) MAX_PIDS + 1 = nth_pid start (S k).
Proof.
  intros. pose proof (nth_pid_range start k). unfold nth_pid, MAX_PIDS in *.
  rewrite Z.rem_mod_nonneg by lia. dlia.
Qed.

Lemma nth_pid_start start k : 1 <= start <= MAX_PIDS -> (k <= 100)%nat ->
  nth_pid start k = start <-> (k = 0%nat \/ k = 100%nat).
Proof. intros. unfold nth_pid, MAX_PIDS in *. split; [dlia|]. intros [-> | ->]; dlia. Qed.

(** From the [k]-th pid on, everything before being in use. *)
Lemma scan_loop_spec pm fuel k :
  pm_inv pm -> (k <= 100)%nat -> (100 - k < fuel)%nat ->
  (exists j, (k <= j < 100)%nat /\ entry pm (nth_pid (pm_next pm) j) = None /\
     (forall i, (k <= i < j)%nat -> entry pm (nth_pid (pm_next pm) i) <> None) /\
     scan_loop fuel pm (pm_next pm) (nth_pid (pm_next pm) k) (negb (Nat.eqb k 0)) =
       Ok (nth_pid (pm_next pm) j, negb (Nat.eqb j 0))) \/
  ((forall i, (k <= i < 100)%nat -> entry pm (nth_pid (pm_next pm) i) <> None) /\
     (entry pm (pm_next pm) <> None ->
     scan_loop fuel pm (pm_next pm) (nth_pid (pm_next pm) k) (negb (Nat.eqb k 0)) =
       Ok (pm_next pm, true))).
Proof.
  intros Hinv. pose proof (pi_next _ Hinv) as Hnext. revert k.
  induction fuel as [|fuel IH]; intros k Hk Hf; [lia|]. cbn [scan_loop].
  unfold is_pid_free. rewrite get_pid_block_entry by done. rewrite !bind_Ok.
  destruct (decide (k = 100%nat)) as [->|Hne].
  - right. split; [lia|]. intros Hst.
    assert (nth_pid (pm_next pm) 100 = pm_next pm) as -> by (apply nth_pid_start; [done|lia|auto]).
    destruct (entry pm (pm_next pm)); [|done]. by rewrite Z.eqb_refl.
  - destruct (entry pm (nth_pid (pm_next pm) k)) as [b|] eqn:He.
    + assert (negb ((nth_pid (pm_next pm) k =? pm_next pm) && negb (Nat.eqb k 0)) = true) as ->.
      { destruct (Z.eqb_spec (nth_pid (pm_next pm) k) (pm_next pm)) as [Heq|]; [|done].
        apply nth_pid_start in Heq as [-> | ->]; done. }
      simpl. rewrite nth_pid_succ by done.
      assert (negb (Nat.eqb k 0) || (nth_pid (pm_next pm) k =? pm_next pm) =
        negb (Nat.eqb (S k) 0)) as ->.
      { destruct k; [|done]. simpl. apply Z.eqb_eq. apply nth_pid_start; [done|lia|auto]. }
      destruct (IH (S k)) as [(j & Hj & Hfree & Hall & ->)|[Hall Hfull]]; [lia|lia| |].
      * left. exists j. split; [lia|]. split; [done|]. split; [|done].
        intros i Hi. destruct (decide (i = k)) as [->|]; [by rewrite He|]. apply Hall. lia.
      * right. split; [|done]. intros i Hi.
        destruct (decide (i = k)) as [->|]; [by rewrite He|]. apply Hall. lia.
    + left. exists k. split; [lia|]. split; [done|]. split; [lia|]. done.
Qed.

Lemma nth_pid_onto start pid : 1 <= start <= MAX_PIDS -> 1 <= pid <= MAX_PIDS ->
  exists k, (k < 100)%nat /\ nth_pid start k = pid.
Proof.
  intros. exists (Z.to_nat ((pid - start) `mod` MAX_PIDS)). unfold nth_pid, MAX_PIDS in *.
  split; dlia.
Qed.

Lemma used_full t : used t = Z.of_nat (length t) -> forall i x, t !! i = Some x -> is_Some x.
Proof.
  unfold used. induction t as [|y t IH]; intros Hu i x Hi; [done|].
  rewrite filter_cons in Hu. pose proof (length_filter (fun x => is_Some x) t).
  case_decide; simpl in *; [|lia]. destruct i; simplify_eq/=; [done|]. eapply IH; [lia|done].
Qed.

Lemma used_all t : (forall i x, t !! i = Some x -> is_Some x) -> used t = Z.of_nat (length t).
Proof.
  induction t as [|y t IH]; intros H; [done|]. rewrite used_cons, IH.
  - destruct (H 0%nat y eq_refl) as [z ->]. simpl. lia.
  - intros i x Hi. by apply (H (S i)).
Qed.

(** [scan_free] finds the first free pid at or cyclically after [next_pid],
    and fails only if all are taken. *)
Lemma scan_free_spec pm :
  pm_inv pm ->
  (exists j, (j < 100)%nat /\ scan_free pm = Ok (nth_pid (pm_next pm) j) /\
     entry pm (nth_pid (pm_next pm) j) = None /\ pm_procs pm <> MAX_PIDS /\
     forall i, (i < j)%nat -> entry pm (nth_pid (pm_next pm) i) <> None) \/
  (scan_free pm = Ok (-1) /\ forall pid, 1 <= pid <= MAX_PIDS -> entry pm pid <> None).
Proof.
  intros Hinv. pose proof (pi_next _ Hinv) as Hnext. pose proof (pi_len _ Hinv) as Hlen.
  unfold scan_free. destruct (Z.eqb_spec (pm_procs pm) MAX_PIDS) as [Hfull|Hne].
  { right. split; [done|]. intros pid Hp Hn. rewrite (pi_procs _ Hinv) in Hfull.
    destruct (used_full (pm_blocks pm)) with (i := Z.to_nat (pid - 1)) (x := entry pm pid)
      as [b Hb]; [by rewrite Hfull, Hlen|by apply entry_lookup|]. congruence. }
  assert (nth_pid (pm_next pm) 0 = pm_next pm) as H0 by (apply nth_pid_start; [done|lia|auto]).
  pose proof (scan_loop_spec pm 102 0 Hinv) as Hscan. rewrite H0 in Hscan.
  destruct Hscan as [(j & Hj & Hfree & Hall & Hs)|[Hall Hs]]; [lia|lia| |]; cbn [Nat.eqb negb] in Hs.
  - left. exists j. rewrite Hs, bind_Ok.
    assert ((nth_pid (pm_next pm) j =? pm_next pm) && negb (Nat.eqb j 0) = false) as ->.
    { destruct (Z.eqb_spec (nth_pid (pm_next pm) j) (pm_next pm)) as [Heq|]; [|done].
      apply nth_pid_start in Heq as [-> | ->]; [done|lia|done|lia]. }
    pose proof (nth_pid_range (pm_next pm) j). pass_assert. split_and!; try done; [lia|].
    intros i Hi. apply Hall. lia.
  - assert (entry pm (pm_next pm) <> None) as Hst by (rewrite <- H0; apply Hall; lia).
    right. rewrite (Hs Hst), bind_Ok, Z.eqb_refl. split; [done|]. intros pid Hp.
    destruct (nth_pid_onto (pm_next pm) pid) as (k & Hk & <-); [done|done|]. apply Hall. lia.
Qed.

(** ** inform_process_add *)

Lemma lookup_pid_inv pm pid blk :
  pm_inv pm -> lookup_pid pm pid = Some blk ->
  exists b, entry pm pid = Some b /\ pm_heap pm !! b = Some blk /\ my_pid blk = pid.
Proof.
  intros Hinv H. unfold lookup_pid in H. apply bind_Some in H as (b & Hb & Hblk).
  destruct (pi_entry _ Hinv pid b Hb) as (blk' & ? & ?). exists b. by simplify_eq.
Qed.

(** A change of one block that keeps its identity. *)
Lemma pm_inv_upd_block pm b blk blk' :
  pm_inv pm -> pm_heap pm !! b = Some blk -> my_pid blk' = my_pid blk ->
  my_parent blk' = my_parent blk -> is_exited blk' = 0 \/ is_exited blk' = 1 ->
  kids_ok (with_heap (<[b := blk']> (pm_heap pm)) pm) blk' ->
  pm_inv (with_heap (<[b := blk']> (pm_heap pm)) pm).
Proof.
  intros [Hlen Hnext Hbelow Hentry Hheap Hprocs Hflag Hkids] Hb Hpid Hpar Hfl Hk.
  split; simpl; try done.
  - intros pid c Hc. destruct (Hentry pid c Hc) as (x & Hx & Hp). rewrite lookup_insert.
    case_decide; [subst c; simplify_eq; eauto|eauto].
  - intros c x. rewrite lookup_insert. case_decide; [intros [= <-]|by apply Hheap].
    subst c. rewrite Hpid. by apply Hheap.
  - intros c x. rewrite lookup_insert. case_decide; [by intros [= <-]|by apply Hflag].
  - intros c x. rewrite lookup_insert. case_decide; [by intros [= <-]|].
    intros Hx. destruct (Hkids c x Hx) as [Hwf Hl]. split; [done|].
    intros Hex Hp2. destruct (Hl Hex Hp2) as (l & Hh & Hnd & Hall). exists l.
    split; [done|]. split; [done|]. intros d Hd. destruct (Hall d Hd) as (cb & Hcb & ? & ?).
    simpl. rewrite lookup_insert. case_decide; [|eauto].
    subst d. simplify_eq. exists blk'. by rewrite Hpar, Hpid.
Qed.

(** A new block, entered in the table at a free pid. *)
Lemma pm_inv_new pm b pid parent a :
  pm_inv pm -> pm_heap pm !! b = None -> 1 <= pid <= MAX_PIDS -> entry pm pid = None ->
  holds a [] ->
  pm_inv (mk_pm (<[b := mk_block pid parent a 0 0]> (pm_heap pm))
            (<[Z.to_nat (pid - 1) := Some b]> (pm_blocks pm)) (pm_below pm)
            (pm_procs pm + 1) (Z.rem pid MAX_PIDS + 1)).
Proof.
  intros Hinv Hb Hp Hfree Ha. pose proof Hinv as [Hlen Hnext Hbelow Hentry Hheap Hprocs Hflag Hkids].
  assert (forall q, entry (mk_pm (<[b := mk_block pid parent a 0 0]> (pm_heap pm))
    (<[Z.to_nat (pid - 1) := Some b]> (pm_blocks pm)) (pm_below pm)
    (pm_procs pm + 1) (Z.rem pid MAX_PIDS + 1)) q = if decide (q = pid) then Some b else entry pm q)
    as Hent by (intros q; by apply (entry_set pm)).
  split; rewrite ?Hent; simpl.
  - by rewrite length_insert.
  - unfold MAX_PIDS in *. rewrite Z.rem_mod_nonneg by lia. dlia.
  - done.
  - intros q c. rewrite Hent. case_decide; [intros [= <-]|].
    + rewrite lookup_insert_eq. eauto.
    + intros Hc. destruct (Hentry q c Hc) as (x & Hx & ?). rewrite lookup_insert_ne; [eauto|congruence].
  - intros c x. rewrite Hent, lookup_insert. case_decide.
    + subst c. intros [= <-]. simpl. by rewrite decide_True.
    + intros Hx. case_decide as Heq; [|by apply Hheap].
      apply Hheap in Hx. congruence.
  - rewrite (used_set _ _ _ (entry pm pid)) by (by apply entry_lookup).
    rewrite Hfree, Hprocs. lia.
  - intros c x. rewrite lookup_insert. case_decide; [intros [= <-]; by left|by apply Hflag].
  - intros c x. rewrite lookup_insert. case_decide.
    + intros [= <-]. split; [apply Ha|]. intros _ _. exists []. simpl.
      split; [done|]. split; [apply NoDup_nil_2|]. intros d Hd. by apply not_elem_of_nil in Hd.
    + intros Hx. destruct (Hkids c x Hx) as [Hwf Hl]. split; [done|].
      intros Hex Hp2. destruct (Hl Hex Hp2) as (l & Hh & Hnd & Hall). exists l.
      split; [done|]. split; [done|]. intros d Hd. destruct (Hall d Hd) as (cb & Hcb & ? & ?).
      simpl. rewrite lookup_insert_ne; [eauto|congruence].
Qed.

Lemma with_heap_same pm : with_heap (pm_heap pm) pm = pm.
Proof. by destruct pm. Qed.

(** The parent, if it has a block, gets one more child. *)
Lemma add_child_inv pm b pb pblk a new l :
  pm_inv pm -> pm_heap pm !! b = Some new -> my_parent new = my_pid pblk ->
  my_pid new <> my_pid pblk -> pm_heap pm !! pb = Some pblk -> b ∉ l ->
  (is_exited pblk = 0 -> 2 <= my_pid pblk -> NoDup l /\ forall c, c ∈ l ->
     exists cb, pm_heap pm !! c = Some cb /\ my_parent cb = my_pid pblk /\
       my_pid cb <> my_pid pblk) ->
  arr_wf a -> (is_exited pblk = 0 -> 2 <= my_pid pblk -> holds a (l ++ [b])) ->
  pm_inv (with_heap (<[pb := set_children a pblk]> (pm_heap pm)) pm).
Proof.
  intros Hinv Hb Hpar Hne Hpb Hbl Hl Hwf Ha.
  apply (pm_inv_upd_block pm pb pblk); try done; [exact (pi_flag _ Hinv pb pblk Hpb)|].
  split; [done|]. simpl. intros Hex Hp2. exists (l ++ [b]). split; [by apply Ha|].
  destruct (Hl Hex Hp2) as [Hnd Hall].
  split.
  { apply NoDup_app. split; [done|]. split; [|apply NoDup_singleton].
    intros x Hx Hxb. apply list_elem_of_singleton in Hxb. congruence. }
  intros c [Hc| ->%list_elem_of_singleton]%elem_of_app.
  - destruct (Hall c Hc) as (cb & Hcb & ? & ?). rewrite lookup_insert_ne; [eauto|congruence].
  - rewrite lookup_insert_ne; [eauto|congruence].
Qed.

Lemma procs_full pm :
  pm_inv pm -> (forall pid, 1 <= pid <= MAX_PIDS -> entry pm pid <> None) ->
  pm_procs pm = MAX_PIDS.
Proof.
  intros Hinv Hall. rewrite (pi_procs _ Hinv), used_all, (pi_len _ Hinv); [done|].
  intros i x Hi. pose proof (lookup_lt_Some _ _ _ Hi) as Hlt. rewrite (pi_len _ Hinv) in Hlt.
  unfold MAX_PIDS in *. pose proof (entry_lookup pm (Z.of_nat i + 1) Hinv) as He.
  replace (Z.to_nat (Z.of_nat i + 1 - 1)) with i in He by lia. unfold MAX_PIDS in He.
  rewrite He in Hi by lia. injection Hi as <-.
  destruct (entry pm (Z.of_nat i + 1)) eqn:Hx; [done|]. by destruct (Hall (Z.of_nat i + 1)); [lia|].
Qed.

(** The children of a process that may add one, as a list without [b]. *)
Lemma kids_list pm pb pblk b :
  pm_inv pm -> pm_heap pm !! pb = Some pblk -> pm_heap pm !! b = None ->
  exists l, (b ∉ l) /\ (is_exited pblk = 0 -> 2 <= my_pid pblk ->
    NoDup l /\ holds (children pblk) l /\
    forall c, c ∈ l -> exists cb, pm_heap pm !! c = Some cb /\
      my_parent cb = my_pid pblk /\ my_pid cb <> my_pid pblk).
Proof.
  intros Hinv Hpb Hb. destruct (pi_kids _ Hinv pb pblk Hpb) as [_ Hl].
  destruct (decide (is_exited pblk = 0 /\ 2 <= my_pid pblk)) as [[Hex Hp2]|Hno].
  - destruct (Hl Hex Hp2) as (l & ? & ? & Hall). exists l. split; [|done].
    intros Hin. destruct (Hall b Hin) as (cb & Hcb & _). congruence.
  - exists []. split; [apply not_elem_of_nil|]. intros ? ?. by destruct Hno.
Qed.

Section enter.
Variables (pm : pid_manager) (pid b parent_id : Z).
Hypotheses (Hinv : pm_inv pm) (Hb : pm_heap pm !! b = None) (Hp : 1 <= pid <= MAX_PIDS) (Hfree : entry pm pid = None).

(** With the new block in the heap, and also in the table. *)
Let new := mk_block pid parent_id (mk_array 0 0 None) 0 0.
Let pm1 := with_heap (<[b := new]> (pm_heap pm)) pm.
Let pm2 := mk_pm (<[b := new]> (pm_heap pm)) (<[Z.to_nat (pid - 1) := Some b]> (pm_blocks pm)) (pm_below pm)
  (pm_procs pm + 1) (Z.rem pid MAX_PIDS + 1).

Lemma entered_inv : pm_inv pm2.
Proof. exact (pm_inv_new pm b pid parent_id (mk_array 0 0 None) Hinv Hb Hp Hfree (array_create_holds true _ eq_refl)). Qed.

Lemma entered_entry q : entry pm2 q = if decide (q = pid) then Some b else entry pm q.
Proof. apply (entry_set pm); [apply Hinv|done]. Qed.

Lemma entered_lookup (h : gmap Z pid_info_block) : (forall c, c <> b -> entry pm parent_id <> Some c -> h !! c = pm_heap pm !! c) -> h !! b = Some new ->
  (exists a, lookup_pid (with_heap h pm2) pid = Some (mk_block pid parent_id a 0 0)) /\
  forall q, q <> pid -> q <> parent_id -> lookup_pid (with_heap h pm2) q = lookup_pid pm q.
Proof.
  intros Hh Hhb. unfold lookup_pid. split.
  - exists (mk_array 0 0 None). change (entry (with_heap h pm2) pid) with (entry pm2 pid). by rewrite entered_entry, decide_True by done.
  - intros q Hq Hqp. change (entry (with_heap h pm2) q) with (entry pm2 q). rewrite entered_entry, decide_False by done.
    destruct (entry pm q) as [c|] eqn:Hc; [|done]. simpl. destruct (pi_entry _ Hinv q c Hc) as (x & Hx & Hxq). apply Hh; [congruence|].
    intros Hpar. destruct (pi_entry _ Hinv parent_id c Hpar) as (y & Hy & Hyq). congruence.
Qed.

(** The parent's list cannot grow: nothing has happened. *)
Lemma add_enter_undone okadd pb pblk : entry pm parent_id = Some pb -> pm_heap pm !! pb = Some pblk ->
  array_add okadd (children pblk) b = Ok (ENOMEM, children pblk) -> add_enter okadd pm1 pid b parent_id = Ok (ENOMEM, 0, pm).
Proof.
  intros Hpar Hpb Ha. assert (pb <> b) as Hne by congruence.
  assert (deref pm1 pb = Ok pblk) as Hder by (unfold deref; simpl; by rewrite lookup_insert_ne, Hpb).
  assert (get_pid_block pm1 parent_id = Ok (Some pb)) as Hget by (rewrite <-Hpar; exact (get_pid_block_entry pm parent_id Hinv)).
  unfold add_enter. rewrite Hget, bind_Ok, Hder, bind_Ok, Ha. simpl.
  unfold destroy_pid_block, deref. simpl. rewrite lookup_insert_ne by done.
  rewrite lookup_insert_eq. unfold with_heap; simpl. replace (delete b _) with (pm_heap pm); [by destruct pm|].
  apply map_eq. intros x. rewrite lookup_delete, !lookup_insert. repeat case_decide; subst; try done. rewrite Hpb. by destruct pblk.
Qed.

(** The child is in the table and in the list of its parent. *)
Lemma add_enter_linked okadd pb pblk a : entry pm parent_id = Some pb -> pm_heap pm !! pb = Some pblk -> my_pid pblk = parent_id ->
  array_add okadd (children pblk) b = Ok (0, a) -> arr_wf a -> arr_list a = arr_list (children pblk) ++ [Some b] ->
  add_enter okadd pm1 pid b parent_id = Ok (0, pid, with_heap (<[pb := set_children a pblk]> (pm_heap pm2)) pm2) /\
  pm_inv (with_heap (<[pb := set_children a pblk]> (pm_heap pm2)) pm2).
Proof.
  intros Hpar Hpb Hpid Ha Hwf' Hla. assert (pb <> b) as Hne by congruence. assert (pid <> parent_id) as Hpne by congruence.
  assert (deref pm1 pb = Ok pblk) as Hder by (unfold deref; simpl; by rewrite lookup_insert_ne, Hpb).
  assert (get_pid_block pm1 parent_id = Ok (Some pb)) as Hget by (rewrite <-Hpar; exact (get_pid_block_entry pm parent_id Hinv)).
  split.
  - unfold add_enter. rewrite Hget, bind_Ok, Hder, bind_Ok, Ha. simpl. by rewrite set_pid_block_ok by (done || apply Hinv).
  - destruct (kids_list pm pb pblk b Hinv Hpb Hb) as (l & Hbl & Hlx).
    apply (add_child_inv pm2 b pb pblk a new l entered_inv); simpl; try done.
    + by rewrite lookup_insert_eq.
    + by rewrite Hpid.
    + by rewrite lookup_insert_ne.
    + intros Hex Hp2. destruct (Hlx Hex Hp2) as (? & _ & Hall). split; [done|].
      intros c Hc. destruct (Hall c Hc) as (cb & ? & ?). rewrite lookup_insert_ne; [eauto|congruence].
    + intros Hex Hp2. destruct (Hlx Hex Hp2) as (_ & [_ Hh] & _). split; [done|]. by rewrite Hla, Hh, fmap_app.
Qed.

Lemma add_enter_spec okadd : (forall blk, lookup_pid pm parent_id = Some blk -> arr_num (children blk) < arr_limit) ->
  (exists pm', add_enter okadd pm1 pid b parent_id = Ok (0, pid, pm') /\ pm_inv pm' /\
     (exists a, lookup_pid pm' pid = Some (mk_block pid parent_id a 0 0)) /\
     forall q, q <> pid -> q <> parent_id -> lookup_pid pm' q = lookup_pid pm q) \/
  (okadd = false /\ add_enter okadd pm1 pid b parent_id = Ok (ENOMEM, 0, pm)).
Proof.
  intros Hkids. destruct (entry pm parent_id) as [pb|] eqn:Hpar.
  - destruct (pi_entry _ Hinv parent_id pb Hpar) as (pblk & Hpb & Hpid). destruct (pi_kids _ Hinv pb pblk Hpb) as [Hwf Hl].
    destruct (array_add_spec okadd (children pblk) b Hwf) as [(Hok & _ & Ha)|(a & Ha & Hwf' & Hla & _)].
    + apply Hkids. unfold lookup_pid. by rewrite Hpar.
    + right. split; [done|]. by eapply add_enter_undone.
    + left. destruct (add_enter_linked okadd pb pblk a Hpar Hpb Hpid Ha Hwf' Hla) as [E Hi]. eexists. split; [exact E|]. split; [exact Hi|].
      apply entered_lookup; simpl.
      * intros c Hc Hcp. rewrite !lookup_insert_ne by congruence. done.
      * rewrite lookup_insert_ne by congruence. by rewrite lookup_insert_eq.
  - left. assert (get_pid_block pm1 parent_id = Ok None) as Hget by (rewrite <-Hpar; exact (get_pid_block_entry pm parent_id Hinv)).
    unfold add_enter. rewrite Hget, bind_Ok, bind_Ok. cbn [Z.eqb negb]. rewrite set_pid_block_ok by (done || apply Hinv). rewrite bind_Ok.
    exists pm2. split; [done|]. split; [exact entered_inv|]. apply (entered_lookup (pm_heap pm2)); simpl; [|by rewrite lookup_insert_eq].
    intros c Hc _. by rewrite lookup_insert_ne.
Qed.
End enter.

(** What [inform_process_add] does, on every path. *)
Lemma add_spec held p okarr okcv okadd pm parent_id :
  pm_inv pm -> (forall b, p = Some b -> pm_heap pm !! b = None) ->
  (forall blk, lookup_pid pm parent_id = Some blk -> arr_num (children blk) < arr_limit) ->
  (inform_process_add held p okarr okcv okadd pm parent_id = Ok (EAGAIN, 0, pm) /\
     forall pid, 1 <= pid <= MAX_PIDS -> entry pm pid <> None) \/
  (exists pid pm', inform_process_add held p okarr okcv okadd pm parent_id = Ok (0, pid, pm') /\
     entry pm pid = None /\ pm_inv pm' /\
     (exists a, lookup_pid pm' pid = Some (mk_block pid parent_id a 0 0)) /\
     forall q, q <> pid -> q <> parent_id -> lookup_pid pm' q = lookup_pid pm q) \/
  (p <> None /\ okarr && okcv = true /\ okadd = false /\
     inform_process_add held p okarr okcv okadd pm parent_id = Ok (ENOMEM, 0, pm)) \/
  ((p = None \/ okarr && okcv = false) /\
     inform_process_add held p okarr okcv okadd pm parent_id =
       if held then Ok (ENOMEM, 0, pm) else Panic).
Proof.
  intros Hinv Hfresh Hkids. unfold inform_process_add.
  destruct (Z.eqb_spec (pm_procs pm) MAX_PIDS) as [Hfull|Hproc].
  { left. split; [done|]. by destruct (scan_free_spec pm Hinv) as [(j & _ & _ & _ & ? & _)|[_ ?]]. }
  destruct (scan_free_spec pm Hinv) as [(j & Hj & Hscan & Hfree & _ & _)|[_ Hall]];
    [|by destruct Hproc; apply procs_full].
  right. rewrite Hscan, bind_Ok. set (pid := nth_pid (pm_next pm) j) in *.
  pose proof (nth_pid_range (pm_next pm) j) as Hp. fold pid in Hp.
  destruct (Z.eqb_spec pid (-1)); [lia|]. unfold create_pid_block.
  destruct p as [b|]; [|right; right; destruct held; eauto].
  destruct okarr; simpl; [|right; right; destruct held; eauto].
  destruct okcv; simpl; [|right; right; destruct held; eauto].
  destruct (add_enter_spec pm pid b parent_id Hinv (Hfresh b eq_refl) Hp Hfree okadd Hkids)
    as [(pm' & -> & ? & ? & ?)|[? ->]]; [left|right; left; done].
  exists pid, pm'. done.
Qed.

(** ** inform_process_exit *)

(** The manager without the block [c]. *)
Definition reap (pm : pid_manager) (c : Z) (cb : pid_info_block) : pid_manager :=
  mk_pm (delete c (pm_heap pm)) (<[Z.to_nat (my_pid cb - 1) := None]> (pm_blocks pm))
    (pm_below pm) (pm_procs pm - 1) (pm_next pm).

Lemma reap_entry pm c cb q :
  pm_inv pm -> pm_heap pm !! c = Some cb ->
  entry (reap pm c cb) q = if decide (q = my_pid cb) then None else entry pm q.
Proof.
  intros Hinv Hc. apply (entry_set pm); [apply Hinv|].
  eapply entry_range, pi_heap; done.
Qed.

Lemma entry_inj pm p q b :
  pm_inv pm -> entry pm p = Some b -> entry pm q = Some b -> p = q.
Proof.
  intros Hinv Hp Hq. destruct (pi_entry _ Hinv p b Hp) as (x & Hx & <-).
  destruct (pi_entry _ Hinv q b Hq) as (y & Hy & <-). congruence.
Qed.

Lemma reap_lookup pm c cb q :
  pm_inv pm -> pm_heap pm !! c = Some cb ->
  lookup_pid (reap pm c cb) q = if decide (q = my_pid cb) then None else lookup_pid pm q.
Proof.
  intros Hinv Hc. unfold lookup_pid. rewrite reap_entry by done. case_decide as Hq; [done|].
  destruct (entry pm q) as [d|] eqn:Hd; [|done]. simpl. rewrite lookup_delete_ne; [done|].
  intros ->. apply Hq. eapply entry_inj; [done|done|]. by eapply pi_heap.
Qed.

(** A block can go when no living process other than pid 1 is its parent. *)
Lemma reap_inv pm c cb :
  pm_inv pm -> pm_heap pm !! c = Some cb ->
  (forall d x, pm_heap pm !! d = Some x -> is_exited x = 0 -> 2 <= my_pid x ->
     my_parent cb <> my_pid x) ->
  pm_inv (reap pm c cb).
Proof.
  intros Hinv Hc Horph. pose proof Hinv as [Hlen Hnext Hbelow Hentry Hheap Hprocs Hflag Hkids].
  pose proof (Hheap c cb Hc) as Hent. pose proof (entry_range _ _ _ Hent) as Hr.
  split; try (intros *; rewrite ?reap_entry by done); simpl.
  - by rewrite length_insert.
  - done.
  - done.
  - case_decide as Hq; [done|]. intros Hb. destruct (Hentry _ _ Hb) as (x & Hx & ?).
    rewrite lookup_delete_ne; [eauto|]. intros ->. by simplify_eq.
  - rewrite lookup_delete_Some. intros [Hne Hx]. case_decide as Hq; [|by apply Hheap].
    apply Hheap in Hx. rewrite Hq in Hx. congruence.
  - rewrite (used_set _ _ _ (entry pm (my_pid cb))) by (by apply entry_lookup).
    rewrite Hent, Hprocs. lia.
  - rewrite lookup_delete_Some. intros [_ Hx]. by eapply Hflag.
  - rewrite lookup_delete_Some. intros [_ Hx]. destruct (Hkids _ _ Hx) as [Hwf Hl].
    split; [done|]. intros Hex Hp2. destruct (Hl Hex Hp2) as (l & Hh & Hnd & Hall).
    exists l. split; [done|]. split; [done|]. intros d Hd.
    destruct (Hall d Hd) as (y & Hy & Hpar & ?). exists y. split; [|done]. simpl.
    rewrite lookup_delete_ne; [done|]. intros ->. simplify_eq. by eapply Horph.
Qed.

(** The exited processes among the blocks [l]. *)
Definition reaped (pm : pid_manager) (l : list Z) (q : Z) : bool :=
  match entry pm q with
  | Some c =>
      bool_decide (c ∈ l) &&
      match pm_heap pm !! c with Some x => negb (is_exited x =? 0) | None => false end
  | None => false
  end.

(** Destroying a block and clearing its entry is [reap]. *)
Lemma destroy_reap pm c cb :
  pm_inv pm -> pm_heap pm !! c = Some cb ->
  (pm ← set_pid_block pm (my_pid cb) None; pm ← destroy_pid_block pm (Some c);
   Ok (with_procs (pm_procs pm - 1) pm)) = Ok (reap pm c cb).
Proof.
  intros Hinv Hc. rewrite set_pid_block_ok; [|apply Hinv|].
  - rewrite bind_Ok. unfold destroy_pid_block, deref. simpl. by rewrite Hc.
  - eapply entry_range, pi_heap; done.
Qed.

Lemma deref_Ok pm b blk : pm_heap pm !! b = Some blk -> deref pm b = Ok blk.
Proof. unfold deref. by intros ->. Qed.

Lemma heap_lookup pm b blk :
  pm_inv pm -> pm_heap pm !! b = Some blk -> lookup_pid pm (my_pid blk) = Some blk.
Proof. intros Hinv Hb. unfold lookup_pid. by rewrite (pi_heap _ Hinv b blk Hb). Qed.

(** A process can be freed when it has exited and no living process other
    than pid 1 may still wait for it. *)
Definition nobody_waits (pm : pid_manager) (parent : Z) : bool :=
  (parent <? 2) ||
  match lookup_pid pm parent with Some x => negb (is_exited x =? 0) | None => true end.

Lemma should_free_spec pm c cb :
  pm_inv pm -> pm_heap pm !! c = Some cb ->
  should_free_pid pm c = Ok (negb (is_exited cb =? 0) && nobody_waits pm (my_parent cb)).
Proof.
  intros Hinv Hc. unfold should_free_pid, nobody_waits, is_pid_free.
  rewrite (deref_Ok _ _ _ Hc), bind_Ok. destruct (Z.eqb_spec (is_exited cb) 0); [done|].
  destruct (Z.ltb_spec (my_parent cb) 2); [done|]. rewrite get_pid_block_entry by done.
  unfold lookup_pid. destruct (entry pm (my_parent cb)) as [p|] eqn:Hp; [|done].
  destruct (pi_entry _ Hinv _ p Hp) as (x & Hx & _). simpl. rewrite (deref_Ok _ _ _ Hx), Hx.
  simpl. by destruct (pi_flag _ Hinv p x Hx) as [-> | ->].
Qed.

Lemma reaped_step pm c cb rest q :
  pm_inv pm -> pm_heap pm !! c = Some cb -> is_exited cb <> 0 ->
  reaped pm (c :: rest) q =
    if decide (q = my_pid cb) then true else reaped (reap pm c cb) rest q.
Proof.
  intros Hinv Hc Hdead. unfold reaped.
  rewrite reap_entry by done. pose proof (pi_heap _ Hinv c cb Hc) as Hent.
  case_decide as Hq.
  - subst q. rewrite Hent, Hc, bool_decide_true by (by left).
    by destruct (Z.eqb_spec (is_exited cb) 0).
  - destruct (entry pm q) as [d|] eqn:Hd; [|done].
    assert (d <> c) as Hne by (intros ->; apply Hq; by eapply entry_inj). simpl.
    rewrite lookup_delete_ne by done.
    by rewrite (bool_decide_ext (d ∈ c :: rest) (d ∈ rest)) by set_solver.
Qed.

Lemma reaped_gone pm c cb rest :
  pm_inv pm -> pm_heap pm !! c = Some cb -> reaped (reap pm c cb) rest (my_pid cb) = false.
Proof. intros Hinv Hc. unfold reaped. by rewrite reap_entry, decide_True. Qed.

Lemma exit_children_spec pid x rest : forall pre pm kids,
  pm_inv pm -> holds kids (pre ++ rest) -> NoDup rest -> 2 <= pid ->
  lookup_pid pm pid = Some x -> is_exited x = 1 ->
  (forall c, c ∈ rest -> exists cb, pm_heap pm !! c = Some cb /\ my_parent cb = pid /\
     my_pid cb <> pid) ->
  exists pm', exit_children (length rest) pm kids (Z.of_nat (length pre)) = Ok pm' /\
    pm_inv pm' /\
    (forall q, lookup_pid pm' q = if reaped pm rest q then None else lookup_pid pm q) /\
    (forall q, entry pm' q = if reaped pm rest q then None else entry pm q).
Proof.
  induction rest as [|c rest IH]; intros pre pm kids Hinv Hk Hnd Hp2 Hx Hex Hall;
    cbn [length exit_children].
  - assert (forall q, reaped pm [] q = false) as Hr.
    { intros q. unfold reaped. destruct (entry pm q); [|done].
      by rewrite bool_decide_false by apply not_elem_of_nil. }
    exists pm. split; [done|]. split; [done|]. by split; intros q; rewrite Hr.
  - apply NoDup_cons in Hnd as [Hcr Hnd]. destruct (Hall c) as (cb & Hc & Hpar & Hpid); [by left|].
    rewrite (holds_get _ _ _ _ Hk), bind_Ok. cbn [cell].
    assert (nobody_waits pm (my_parent cb) = true) as Hnw.
    { unfold nobody_waits. rewrite Hpar, Hx, Hex. apply orb_true_r. }
    rewrite bind_Ok, (should_free_spec pm c cb), Hnw, andb_true_r, bind_Ok by done.
    replace (Z.of_nat (length pre) + 1) with (Z.of_nat (length (pre ++ [c])))
      by (rewrite length_app; simpl; lia).
    destruct (Z.eqb_spec (is_exited cb) 0) as [Halive|Hdead]; cbn [negb]; rewrite ?bind_Ok.
    + destruct (IH (pre ++ [c]) pm kids) as (pm' & -> & Hinv' & Hlk & Hen); try done.
      { by rewrite <- app_assoc. }
      { intros d Hd. apply Hall. by right. }
      assert (forall q, reaped pm (c :: rest) q = reaped pm rest q) as Hr.
      { intros q. unfold reaped. destruct (entry pm q) as [d|]; [|done].
        destruct (decide (d = c)) as [->|].
        - rewrite Hc, Halive. simpl. by rewrite !andb_false_r.
        - by rewrite (bool_decide_ext (d ∈ c :: rest) (d ∈ rest)) by set_solver. }
      exists pm'. split; [done|]. split; [done|]. by split; intros q; rewrite Hr.
    + rewrite (deref_Ok _ _ _ Hc), bind_Ok, destroy_reap by done. rewrite bind_Ok.
      destruct (IH (pre ++ [c]) (reap pm c cb) kids) as (pm' & Hpm' & Hinv' & Hlk & Hen);
        try done.
      { apply reap_inv; [done|done|]. intros d y Hy Hya Hyp Heq.
        pose proof (pi_heap _ Hinv d y Hy) as Hd. rewrite <- Heq, Hpar in Hd.
        unfold lookup_pid in Hx. rewrite Hd in Hx. simpl in Hx. simplify_eq. lia. }
      { by rewrite <- app_assoc. }
      { by rewrite reap_lookup, decide_False. }
      { intros d Hd. destruct (Hall d) as (y & Hy & ?); [by right|]. exists y. split; [|done].
        simpl. rewrite lookup_delete_ne; [done|]. intros ->. done. }
      exists pm'. rewrite Hpm'. split; [done|]. split; [done|].
      split; intros q; rewrite (reaped_step pm c cb) by done;
        [rewrite Hlk, reap_lookup by done|rewrite Hen, reap_entry by done];
        (case_decide; [subst q; by rewrite reaped_gone|done]).
Qed.

(** Marking a process as exited. *)
Lemma set_exited_inv pm b blk status :
  pm_inv pm -> pm_heap pm !! b = Some blk ->
  let pm1 := with_heap (<[b := set_exited status blk]> (pm_heap pm)) pm in
  pm_inv pm1 /\
  forall q, lookup_pid pm1 q =
    if decide (q = my_pid blk) then Some (set_exited status blk) else lookup_pid pm q.
Proof.
  intros Hinv Hb pm1. split.
  - apply (pm_inv_upd_block pm b blk); try done; [by right|].
    split; [apply (pi_kids _ Hinv b blk Hb)|done].
  - intros q. unfold lookup_pid. change (entry pm1 q) with (entry pm q).
    pose proof (pi_heap _ Hinv b blk Hb) as Hent. case_decide as Hq.
    + subst q. rewrite Hent. simpl. by rewrite lookup_insert_eq.
    + destruct (entry pm q) as [c|] eqn:Hc; [|done]. simpl. rewrite lookup_insert_ne; [done|].
      intros <-. apply Hq. by eapply entry_inj.
Qed.

Lemma used_nonneg t : 0 <= used t.
Proof. unfold used. lia. Qed.

(** The end of [inform_process_exit]: the exited process itself. *)
Lemma exit_self pm b blk :
  pm_inv pm -> pm_heap pm !! b = Some blk -> is_exited blk = 1 -> 2 <= my_pid blk ->
  exists pm',
    (free ← should_free_pid pm b;
     pm ← (if (free : bool) then
             pm ← set_pid_block (with_procs (pm_procs pm - 1) pm) (my_pid blk) None;
             destroy_pid_block pm (Some b)
           else Ok pm);
     _ ← assert (pm_procs pm >=? 0); Ok (0, pm)) = Ok (0, pm') /\ pm_inv pm' /\
    (forall q, lookup_pid pm' q =
       if decide (q = my_pid blk) then
         if nobody_waits pm (my_parent blk) then None else Some blk
       else lookup_pid pm q).
Proof.
  intros Hinv Hb Hex Hp2. rewrite (should_free_spec pm b blk), bind_Ok by done.
  rewrite Hex. cbn [Z.eqb negb andb].
  destruct (nobody_waits pm (my_parent blk)) eqn:Hnw.
  - exists (reap pm b blk).
    assert (pm_inv (reap pm b blk)) as Hinv'.
    { apply reap_inv; [done|done|]. intros d x Hd Halive Hxp Heq. unfold nobody_waits in Hnw.
      rewrite Heq, (heap_lookup pm d x Hinv Hd), Halive in Hnw.
      destruct (Z.ltb_spec (my_pid x) 2); [lia|done]. }
    rewrite set_pid_block_ok by (apply Hinv || exact (entry_range _ _ _ (pi_heap _ Hinv b blk Hb))).
    rewrite bind_Ok. unfold destroy_pid_block, deref. simpl. rewrite Hb. simpl.
    split; [|split; [done|]].
    + rewrite assert_true; [done|]. apply Z.geb_le. pose proof (pi_procs _ Hinv') as Hpr.
      simpl in Hpr. rewrite Hpr. apply used_nonneg.
    + intros q. rewrite reap_lookup by done. done.
  - exists pm. rewrite bind_Ok, assert_true.
    + split; [done|]. split; [done|]. intros q. case_decide; [subst q|done].
      by eapply heap_lookup.
    + apply Z.geb_le. rewrite (pi_procs _ Hinv). apply used_nonneg.
Qed.

(** The whole of [inform_process_exit] for a living process but pid 1. *)
Lemma exit_spec pm pid status blk :
  pm_inv pm -> 2 <= pid -> lookup_pid pm pid = Some blk -> is_exited blk = 0 ->
  exists l pm', holds (children blk) l /\
    inform_process_exit false pm pid status = Ok (0, pm') /\ pm_inv pm' /\
    (forall q, q <> pid ->
       lookup_pid pm' q = if reaped pm l q then None else lookup_pid pm q) /\
    lookup_pid pm' pid =
      if nobody_waits pm' (my_parent blk) || (my_parent blk =? pid) then None
      else Some (set_exited status blk).
Proof.
  intros Hinv Hp2 Hlk Halive. destruct (lookup_pid_inv _ _ _ Hinv Hlk) as (b & Hent & Hb & Hpid).
  destruct (pi_kids _ Hinv b blk Hb) as [_ Hk]. rewrite Hpid in Hk.
  destruct (Hk Halive Hp2) as (l & Hh & Hnd & Hall). exists l.
  destruct (set_exited_inv pm b blk status Hinv Hb) as [Hinv1 Hlk1].
  set (pm1 := with_heap _ pm) in *. rewrite Hpid in Hlk1.
  assert (b ∉ l) as Hbl.
  { intros Hin. destruct (Hall b Hin) as (cb & Hcb & _ & Hne). congruence. }
  destruct (exit_children_spec pid (set_exited status blk) l [] pm1 (children blk))
    as (pm2 & Hloop & Hinv2 & Hlk2 & Hen2); try done.
  { by rewrite Hlk1, decide_True. }
  { intros c Hc. destruct (Hall c Hc) as (cb & Hcb & ? & ?). exists cb. simpl.
    rewrite lookup_insert_ne; [done|]. intros <-. done. }
  assert (forall q, reaped pm1 l q = reaped pm l q) as Hreap.
  { intros q. unfold reaped. change (entry pm1 q) with (entry pm q).
    destruct (entry pm q) as [c|]; [|done]. simpl. destruct (decide (c = b)) as [->|].
    - by rewrite bool_decide_false.
    - by rewrite lookup_insert_ne. }
  assert (reaped pm l pid = false) as Hself.
  { unfold reaped. rewrite Hent. by rewrite bool_decide_false. }
  assert (lookup_pid pm2 pid = Some (set_exited status blk)) as Hme.
  { rewrite Hlk2, Hreap, Hself, Hlk1. by rewrite decide_True. }
  assert (entry pm2 pid = Some b) as Hent2 by (by rewrite Hen2, Hreap, Hself).
  assert (pm_heap pm2 !! b = Some (set_exited status blk)) as Hb2.
  { unfold lookup_pid in Hme. by rewrite Hent2 in Hme. }
  destruct (exit_self pm2 b (set_exited status blk) Hinv2 Hb2) as (pm' & Hend & Hinv' & Hlk');
    [done|by simpl; rewrite Hpid|]. simpl in Hend, Hlk'. rewrite Hpid in Hend, Hlk'.
  exists pm'. split; [done|]. split; [|split; [done|split]].
  - unfold inform_process_exit. rewrite get_pid_block_entry, bind_Ok, Hent by done.
    cbn [negb assert]. rewrite bind_Ok, (deref_Ok _ _ _ Hb), bind_Ok. fold pm1.
    unfold array_getnum. rewrite (holds_num _ _ Hh), Nat2Z.id.
    change (Z.of_nat (length (@nil Z))) with 0 in Hloop. by rewrite Hloop, bind_Ok.
  - intros q Hq. by rewrite Hlk', decide_False, Hlk2, Hreap, Hlk1, decide_False.
  - rewrite Hlk', decide_True by done. unfold nobody_waits. rewrite Hlk'.
    destruct (my_parent blk <? 2); [done|]. simpl.
    destruct (Z.eqb_spec (my_parent blk) pid) as [Heq|Hne].
    + rewrite Heq, Hme, decide_True by done. simpl. by rewrite orb_true_r.
    + rewrite decide_False by done. by rewrite orb_false_r.
Qed.

(** ** Theorems *)

Definition alive (pm : pid_manager) (pid : Z) : Prop :=
  exists blk, lookup_pid pm pid = Some blk /\ is_exited blk = 0.

(** The life of the manager: processes are added by the boot code (parent 0)
    or by a living process, with any answers of [kmalloc], and living
    processes other than pid 1 exit. *)
Inductive pstep : pid_manager -> pid_manager -> Prop :=
| pstep_add p okarr okcv okadd parent pm r pid pm' :
    parent = 0 \/ alive pm parent -> (forall b, p = Some b -> pm_heap pm !! b = None) ->
    (forall blk, lookup_pid pm parent = Some blk -> arr_num (children blk) < arr_limit) ->
    inform_process_add false p okarr okcv okadd pm parent = Ok (r, pid, pm') -> pstep pm pm'
| pstep_exit pid status pm r pm' :
    2 <= pid -> alive pm pid -> inform_process_exit false pm pid status = Ok (r, pm') ->
    pstep pm pm'.

Lemma boot_inv : pm_inv (mk_pm ∅ (replicate (Z.to_nat MAX_PIDS) None) None 0 1).
Proof.
  assert (forall pid, entry (mk_pm ∅ (replicate (Z.to_nat MAX_PIDS) None) None 0 1) pid = None)
    as Hent.
  { intros pid. unfold entry. destruct (_ && _); [|done]. unfold pm_blocks.
    destruct (replicate _ _ !! _) as [x|] eqn:Hx; [|done].
    by apply lookup_replicate in Hx as [-> _]. }
  split; try done.
  - intros pid b. by rewrite Hent.
Qed.

Lemma pstep_inv pm pm' : pstep pm pm' -> pm_inv pm -> pm_inv pm'.
Proof.
  intros Hstep Hinv. destruct Hstep as [p okarr okcv okadd parent pm r pid pm' _ Hfresh Hlim H
    |pid status pm r pm' Hp2 (blk & Hlk & Hal) H].
  - destruct (add_spec false p okarr okcv okadd pm parent Hinv Hfresh Hlim)
      as [[E _]|[(pid' & pm1 & E & _ & ? & _)|[(_ & _ & _ & E)|[_ E]]]];
      rewrite E in H; by inv_ok.
  - destruct (exit_spec pm pid status blk Hinv Hp2 Hlk Hal) as (l & pm1 & _ & E & ? & _).
    rewrite E in H. by inv_ok.
Qed.

Lemma psteps_inv pm pm' : rtc pstep pm pm' -> pm_inv pm -> pm_inv pm'.
Proof. induction 1; eauto using pstep_inv. Qed.

(** C15. The process table stays consistent and processes can always exit.
    From a bootstrap that found [number_of_procs] zero and nothing in front
    of the table, after any additions, and exits of processes other than pid
    1: every entry points to a live
    block that carries its own pid, every block is entered once,
    [number_of_procs] counts the entries, and the children of a living
    process other than pid 1 are blocks whose parent it is; and any such
    process can exit without touching freed memory. *)
Theorem pid_table_consistent pm0 pm :
  pid_manager_bootstrap true true 0 None = Ok pm0 -> rtc pstep pm0 pm ->
  pm_inv pm /\
  forall pid status, 2 <= pid -> alive pm pid ->
    exists pm', inform_process_exit false pm pid status = Ok (0, pm').
Proof.
  intros [= <-] Hsteps. assert (pm_inv pm) as Hinv by (eapply psteps_inv, boot_inv; done).
  split; [done|]. intros pid status Hp2 (blk & Hlk & Hal).
  destruct (exit_spec pm pid status blk Hinv Hp2 Hlk Hal) as (l & pm' & _ & ? & _). eauto.
Qed.

(** Adding a process, on every path.  If a pid is free, the new process
    gets the first free one at or cyclically after [next_pid], with its
    parent recorded, and no other process but the parent changes; if all are
    in use the answer is EAGAIN; if the parent's array cannot grow it is
    ENOMEM; in both cases nothing changes.  If the block itself cannot be
    allocated the code releases a lock that its caller does not hold, and
    panics. *)
Theorem process_add_outcome p okarr okcv okadd pm parent_id :
  pm_inv pm -> (forall b, p = Some b -> pm_heap pm !! b = None) ->
  (forall blk, lookup_pid pm parent_id = Some blk -> arr_num (children blk) < arr_limit) ->
  (inform_process_add false p okarr okcv okadd pm parent_id = Ok (EAGAIN, 0, pm) /\
     forall pid, 1 <= pid <= MAX_PIDS -> entry pm pid <> None) \/
  (exists j pm', (j < 100)%nat /\
     inform_process_add false p okarr okcv okadd pm parent_id =
       Ok (0, nth_pid (pm_next pm) j, pm') /\
     (forall i, (i < j)%nat -> entry pm (nth_pid (pm_next pm) i) <> None) /\
     entry pm (nth_pid (pm_next pm) j) = None /\ pm_inv pm' /\
     (exists a, lookup_pid pm' (nth_pid (pm_next pm) j) =
        Some (mk_block (nth_pid (pm_next pm) j) parent_id a 0 0)) /\
     forall q, q <> nth_pid (pm_next pm) j -> q <> parent_id ->
       lookup_pid pm' q = lookup_pid pm q) \/
  (okadd = false /\ inform_process_add false p okarr okcv okadd pm parent_id = Ok (ENOMEM, 0, pm)) \/
  ((p = None \/ okarr && okcv = false) /\
     inform_process_add false p okarr okcv okadd pm parent_id = Panic).
Proof.
  intros Hinv Hfresh Hlim.
  destruct (add_spec false p okarr okcv okadd pm parent_id Hinv Hfresh Hlim)
    as [?|[(pid & pm' & E & Hfree & ?)|[(_ & _ & ? & ?)|?]]]; [by left| |by auto|by auto].
  right; left. destruct (scan_free_spec pm Hinv) as [(j & Hj & Hs & Hf & Hne & Hall)|[Hs Hall]].
  - exists j, pm'. assert (pid = nth_pid (pm_next pm) j) as ->.
    { unfold inform_process_add in E. rewrite (proj2 (Z.eqb_neq _ _) Hne), Hs, bind_Ok in E.
      destruct (_ =? -1); [done|]. destruct (create_pid_block _ _ _ _ _ _) as [[b|] pm1]; [|by inv_ok].
      unfold add_enter in E. apply bind_Ok_inv in E as (par & _ & E).
      apply bind_Ok_inv in E as ([err pm2] & _ & E). destruct (negb (err =? 0)); inv_ok; done. }
    done.
  - unfold inform_process_add in E. by rewrite (procs_full pm Hinv Hall) in E.
Qed.


(** ** The pid manager as the environment of the thread system

    [pe_mem] are the addresses [kmalloc] gives for the blocks to come; when
    there are none left it fails. *)
Record pid_env : Type := mk_pid_env {
  pe_pm : pid_manager;
  pe_mem : list Z;
}.

Global Instance pid_sched_env : SchedEnv pid_env := {|
  env_pid_add := fun e parent =>
    '(r, pid, pm) ← inform_process_add false (head (pe_mem e)) true true true (pe_pm e) parent;
    Ok (r, pid, mk_pid_env pm (tail (pe_mem e)));
  env_pid_exit := fun e pid status =>
    '(r, pm) ← inform_process_exit false (pe_pm e) pid status;
    Ok (r, mk_pid_env pm (pe_mem e));
  env_incref := fun e _ => Ok e;
  env_decref := fun e _ => Ok e;
  env_as_destroy := fun e _ => Ok e;
|}.

(** ** Concrete runs *)

Definition pm_first : pid_manager := get (mk_pm ∅ [] None 0 1) (pid_manager_bootstrap true true 0 None).

(** Adds a process for each of the parents, at addresses from [b] on. *)
Fixpoint add_all (pm : pid_manager) (b : Z) (parents : list Z) : res pid_manager :=
  match parents with
  | [] => Ok pm
  | p :: ps => '(_, _, pm) ← inform_process_add false (Some b) true true true pm p;
               add_all pm (b + 1) ps
  end.

(** Pid 1, its child 2, and 2's child 3. *)
Definition pm_one : pid_manager := get pm_first (add_all pm_first 1000 [0]).
Definition pm_two : pid_manager := get pm_first (add_all pm_one 1001 [1]).
Definition pm_three : pid_manager := get pm_first (add_all pm_two 1002 [2]).

Lemma three_reached : rtc pstep pm_first pm_three.
Proof.
  apply (rtc_l _ _ pm_one).
  { apply (pstep_add (Some 1000) true true true 0 _ 0 1); [by left| | |].
    - intros b [= <-]. vm_compute. reflexivity.
    - intros blk Hblk. vm_compute in Hblk. discriminate.
    - vm_compute. reflexivity. }
  apply (rtc_l _ _ pm_two).
  { apply (pstep_add (Some 1001) true true true 1 _ 0 2); [right| | |].
    - eexists. split; vm_compute; reflexivity.
    - intros b [= <-]. vm_compute. reflexivity.
    - intros blk Hblk. vm_compute in Hblk. injection Hblk as <-. vm_compute. reflexivity.
    - vm_compute. reflexivity. }
  apply rtc_once, (pstep_add (Some 1002) true true true 2 _ 0 3); [right| | |].
  - eexists. split; vm_compute; reflexivity.
  - intros b [= <-]. vm_compute. reflexivity.
  - intros blk Hblk. vm_compute in Hblk. injection Hblk as <-. vm_compute. reflexivity.
  - vm_compute. reflexivity.
Qed.

Lemma pid_table_consistent_witness :
  pm_inv pm_three /\
  forall pid status, 2 <= pid -> alive pm_three pid ->
    exists pm', inform_process_exit false pm_three pid status = Ok (0, pm').
Proof.
  apply (pid_table_consistent pm_first pm_three).
  - reflexivity.
  - apply three_reached.
Defined.

Lemma three_inv : pm_inv pm_three.
Proof. exact (psteps_inv _ _ three_reached boot_inv). Qed.

Lemma process_add_outcome_witness :
  (inform_process_add false (Some 5) true true true pm_three 3 = Ok (EAGAIN, 0, pm_three) /\
     forall pid, 1 <= pid <= MAX_PIDS -> entry pm_three pid <> None) \/
  (exists j pm', (j < 100)%nat /\
     inform_process_add false (Some 5) true true true pm_three 3 =
       Ok (0, nth_pid (pm_next pm_three) j, pm') /\
     (forall i, (i < j)%nat -> entry pm_three (nth_pid (pm_next pm_three) i) <> None) /\
     entry pm_three (nth_pid (pm_next pm_three) j) = None /\ pm_inv pm' /\
     (exists a, lookup_pid pm' (nth_pid (pm_next pm_three) j) =
        Some (mk_block (nth_pid (pm_next pm_three) j) 3 a 0 0)) /\
     forall q, q <> nth_pid (pm_next pm_three) j -> q <> 3 ->
       lookup_pid pm' q = lookup_pid pm_three q) \/
  (true = false /\ inform_process_add false (Some 5) true true true pm_three 3 = Ok (ENOMEM, 0, pm_three)) \/
  ((Some 5 = None \/ true && true = false) /\
     inform_process_add false (Some 5) true true true pm_three 3 = Panic).
Proof.
  apply (process_add_outcome (Some 5) true true true pm_three 3).
  - apply three_inv.
  - intros b [= <-]. vm_compute. reflexivity.
  - intros blk Hblk. vm_compute in Hblk. injection Hblk as <-. vm_compute. reflexivity.
Defined.


(** Pid 1 cannot wait for its children, and cannot exit after one of
    them.  The block of a child of pid 1 is freed as soon as the child exits:
    if pid 1 was waiting for it, [wait_pid] goes on with a null pointer; and
    the array of pid 1's children keeps pointing to the freed block, which
    [inform_process_exit] of pid 1 reads. *)
Theorem pid1_uses_freed_blocks :
  wait_pid false pm_three 2 1 = Ok WaitBlocked /\
  exists pm', inform_process_exit false pm_three 2 0 = Ok (0, pm') /\
    wait_pid_resume pm' 2 = Undef /\ inform_process_exit false pm' 1 0 = Undef.
Proof.
  split; [vm_compute; reflexivity|].
  exists (get pm_first ('(_, pm) ← inform_process_exit false pm_three 2 0; Ok pm)).
  vm_compute. split_and!; reflexivity.
Qed.

(** Booting depends on uninitialised memory.  If the memory that
    [kmalloc] gave for the manager happened to hold 100 where
    [number_of_procs] is, no process can ever be added; and whatever the word
    in front of the table holds is taken for the block of the parent 0 that
    [thread_bootstrap] passes. *)
Theorem bootstrap_reads_garbage :
  (exists pm, pid_manager_bootstrap true true 100 None = Ok pm /\
     inform_process_add false (Some 1000) true true true pm 0 = Ok (EAGAIN, 0, pm)) /\
  (exists pm, pid_manager_bootstrap true true 0 (Some 77) = Ok pm /\
     inform_process_add false (Some 1000) true true true pm 0 = Undef).
Proof.
  split; eexists; (split; [reflexivity|vm_compute; reflexivity]).
Qed.

(** Process 2 exits; 97 processes later its pid is given to a new child of
    pid 1. *)
Definition pm_reused : pid_manager :=
  get pm_first ('(_, pm) ← inform_process_exit false pm_three 2 0;
                add_all pm 2000 (replicate 98 1)).

(** A reused pid inherits the orphans of its predecessor.  Process 3 is
    the child of a process 2 that is gone; once pid 2 is given out again the
    new process 2, which is no relative of 3, may wait for it; and when 3
    exits, its block is kept for this stranger and is not freed when the
    stranger exits either: the pid is lost. *)
Theorem reused_pid_keeps_orphan :
  entry pm_reused 2 = Some 2097 /\ wait_pid false pm_reused 3 2 = Ok WaitBlocked /\
  exists pm1 pm2, inform_process_exit false pm_reused 3 7 = Ok (0, pm1) /\
    inform_process_exit false pm1 2 0 = Ok (0, pm2) /\
    entry pm2 2 = None /\ is_exited <$> lookup_pid pm2 3 = Some 1.
Proof.
  split; [vm_compute; reflexivity|]. split; [vm_compute; reflexivity|].
  exists (get pm_first ('(_, pm) ← inform_process_exit false pm_reused 3 7; Ok pm)),
    (get pm_first ('(_, pm) ← inform_process_exit false pm_reused 3 7;
                   '(_, pm) ← inform_process_exit false pm 2 0; Ok pm)).
  vm_compute. split_and!; reflexivity.
Qed.

(** A fork that fails late leaks its pid.  When the pid has been given
    out and then an array cannot grow, [thread_fork] frees the thread and
    reports ENOMEM, but the pid manager keeps the process for ever. *)
Theorem failed_fork_leaks_pid :
  exists s s' : ksys pid_env,
    thread_bootstrap (Some 1) all_ok (mk_pid_env pm_first [1000; 1001]) = Ok s /\
    thread_fork (Some 2) (fun n => negb (n =? 2)%nat) s = Ok (ENOMEM, None, s') /\
    k_threads s' = k_threads s /\
    entry (pe_pm (k_env s)) 2 = None /\ entry (pe_pm (k_env s')) 2 = Some 1001.
Proof.
  set (s := thread_bootstrap (Some 1) all_ok (mk_pid_env pm_first [1000; 1001])).
  set (d := mk_ksys (E := pid_env) ∅ None (mk_array 0 0 None) (mk_array 0 0 None) 0
              (mk_queue 1 0 0 [None]) 0 0 (mk_pid_env pm_first [])).
  exists (get d s), (get d (s ← s; '(_, _, s) ← thread_fork (Some 2) (fun n => negb (n =? 2)%nat) s; Ok s)).
  vm_compute. split_and!; reflexivity.
Qed.
