(* ===== verification/Lamebus.v ===== *)
(** * kern/dev/lamebus/lamebus.c: the bus

    The table of slots, probing, and the dispatch of interrupts to the
    drivers.  Registers are memory at [LB_BASEADDR] (lamebus_mips.c); what is
    behind them and what an interrupt handler does is the class [BusHw].  The
    functions that raise [curspl] lower it again before they return.
    [lamebus_interrupt] also gives the slots whose handlers it called, which
    is not part of the code. *)
From stdpp Require Import base numbers list option gmap sorting.
From S2P Require Import Prelude.
Local Open Scope Z_scope.

Definition LB_NSLOTS : Z := 32.
Definition LB_CONTROLLER_SLOT : Z := 31.
Definition LB_CONFIG_SIZE : Z := 1024.
Definition LB_SLOT_SIZE : Z := 65536.
Definition LB_BASEADDR : Z := 0xbfe00000.
Definition CFGREG_VID : Z := 0.
Definition CFGREG_DID : Z := 4.
Definition CFGREG_DRL : Z := 8.
Definition CTLREG_RAMSZ : Z := 0x200.
Definition CTLREG_IRQS : Z := 0x204.
Definition CTLREG_PWR : Z := 0x208.

(** Reading and writing a register at an address, and calling the interrupt
    function at an address with its argument. *)
Class BusHw (W : Type) : Type := {
  reg_read : Z -> W -> Z;
  reg_write : Z -> Z -> W -> W;
  irq_call : Z -> option Z -> W -> res W;
}.

Record lamebus_softc : Type := mk_lb {
  ls_slotsinuse : Z;
  ls_devdata : list (option Z);
  ls_irqfuncs : list (option Z);
}.

Section bus.
Context {W : Type} `{!BusHw W}.
Implicit Types (sc : lamebus_softc) (w : W) (slot : Z).

Definition lamebus_map_area slot (offset : Z) : res Z :=
  _ ← assert ((slot >=? 0) && (slot <? LB_NSLOTS));
  Ok (u32 (LB_BASEADDR + slot * LB_SLOT_SIZE + offset)).

Definition lamebus_read_register slot (offset : Z) w : res Z :=
  ptr ← lamebus_map_area slot offset;
  Ok (reg_read ptr w).

Definition lamebus_write_register slot (offset val : Z) w : res W :=
  ptr ← lamebus_map_area slot offset;
  Ok (reg_write ptr val w).

Definition read_cfg_register slot (offset : Z) w : res Z :=
  lamebus_read_register LB_CONTROLLER_SLOT (u32 (offset + LB_CONFIG_SIZE * slot)) w.
Definition write_cfg_register slot (offset val : Z) w : res W :=
  lamebus_write_register LB_CONTROLLER_SLOT (u32 (offset + LB_CONFIG_SIZE * slot)) val w.
Definition read_ctl_register (offset : Z) w : res Z := read_cfg_register LB_CONTROLLER_SLOT offset w.
Definition write_ctl_register (offset val : Z) w : res W := write_cfg_register LB_CONTROLLER_SLOT offset val w.

(** ** Slots *)

Fixpoint probe_loop (rounds : nat) slot sc (vendorid deviceid lowver highver : Z) w : res Z :=
  match rounds with
  | O => Ok (-1)
  | S rounds =>
      let next := probe_loop rounds (slot + 1) sc vendorid deviceid lowver highver w in
      if negb (Z.land (ls_slotsinuse sc) (u32 (Z.shiftl 1 slot)) =? 0) then next
      else
        val ← read_cfg_register slot CFGREG_VID w;
        if negb (val =? vendorid) then next
        else
          val ← read_cfg_register slot CFGREG_DID w;
          if negb (val =? deviceid) then next
          else
            val ← read_cfg_register slot CFGREG_DRL w;
            if (val <? lowver) || (val >? highver) then next
            else Ok slot
  end.

Definition lamebus_probe sc (vendorid deviceid lowver highver : Z) w : res Z :=
  probe_loop (Z.to_nat LB_NSLOTS) 0 sc vendorid deviceid lowver highver w.

Definition slot_ok slot : bool := (slot >=? 0) && (slot <? LB_NSLOTS).

Definition lamebus_mark sc slot : res lamebus_softc :=
  let mask := u32 (Z.shiftl 1 slot) in
  _ ← assert (slot_ok slot);
  if negb (Z.land (ls_slotsinuse sc) mask =? 0) then Panic
  else Ok (mk_lb (Z.lor (ls_slotsinuse sc) mask) (ls_devdata sc) (ls_irqfuncs sc)).

Definition lamebus_unmark sc slot : res lamebus_softc :=
  let mask := u32 (Z.shiftl 1 slot) in
  _ ← assert (slot_ok slot);
  if Z.land (ls_slotsinuse sc) mask =? 0 then Panic
  else Ok (mk_lb (Z.land (ls_slotsinuse sc) (u32 (Z.lnot mask))) (ls_devdata sc) (ls_irqfuncs sc)).

Definition lamebus_attach_interrupt sc slot (devdata irqfunc : option Z) : res lamebus_softc :=
  let mask := u32 (Z.shiftl 1 slot) in
  _ ← assert (slot_ok slot);
  if Z.land (ls_slotsinuse sc) mask =? 0 then Panic
  else
    d ← load (ls_devdata sc) slot;
    _ ← assert (bool_decide (d = None));
    f ← load (ls_irqfuncs sc) slot;
    _ ← assert (bool_decide (f = None));
    ds ← store (ls_devdata sc) slot devdata;
    fs ← store (ls_irqfuncs sc) slot irqfunc;
    Ok (mk_lb (ls_slotsinuse sc) ds fs).

Definition lamebus_detach_interrupt sc slot : res lamebus_softc :=
  let mask := u32 (Z.shiftl 1 slot) in
  _ ← assert (slot_ok slot);
  if Z.land (ls_slotsinuse sc) mask =? 0 then Panic
  else
    f ← load (ls_irqfuncs sc) slot;
    _ ← assert (bool_decide (f <> None));
    ds ← store (ls_devdata sc) slot None;
    fs ← store (ls_irqfuncs sc) slot None;
    Ok (mk_lb (ls_slotsinuse sc) ds fs).

(** ** Interrupts *)

(** [for (mask=1, slot=0; slot<LB_NSLOTS; mask<<=1, slot++)], with [duds] and
    [duds_this_time]. *)
Fixpoint interrupt_loop (rounds : nat) slot (mask irqs duds this : Z) sc w : res (Z * Z * W * list Z) :=
  match rounds with
  | O => Ok (duds, this, w, [])
  | S rounds =>
      if Z.land irqs mask =? 0 then interrupt_loop rounds (slot + 1) (u32 (Z.shiftl mask 1)) irqs duds this sc w
      else if Z.land (ls_slotsinuse sc) mask =? 0 then
        interrupt_loop rounds (slot + 1) (u32 (Z.shiftl mask 1)) irqs (i32 (duds + 1)) (this + 1) sc w
      else
        f ← load (ls_irqfuncs sc) slot;
        match f with
        | None => interrupt_loop rounds (slot + 1) (u32 (Z.shiftl mask 1)) irqs (i32 (duds + 1)) (this + 1) sc w
        | Some f =>
            d ← load (ls_devdata sc) slot;
            w ← irq_call f d w;
            irqs ← read_ctl_register CTLREG_IRQS w;
            '(duds, this, w, calls) ← interrupt_loop rounds (slot + 1) (u32 (Z.shiftl mask 1)) irqs duds this sc w;
            Ok (duds, this, w, slot :: calls)
        end
  end.

Definition lamebus_interrupt (curspl : Z) sc (duds : Z) w : res (Z * W * list Z) :=
  _ ← assert (curspl >? 0);
  irqs ← read_ctl_register CTLREG_IRQS w;
  if irqs =? 0 then Ok (i32 (duds + 1), w, [])
  else
    '(duds, this, w, calls) ← interrupt_loop (Z.to_nat LB_NSLOTS) 0 1 irqs duds 0 sc w;
    let duds := if (this =? 0) && (duds >? 0) then 0 else duds in
    if duds >? 10000 then Panic else Ok (duds, w, calls).

Definition lamebus_ramsize w : res Z := read_ctl_register CTLREG_RAMSZ w.

(** [cpu_halt] does not return: the registers at the end. *)
Definition lamebus_poweroff w : res W := write_ctl_register CTLREG_PWR 0 w.

(** [ok] says whether [kmalloc] succeeds. *)
Definition lamebus_init (ok : bool) : res lamebus_softc :=
  if ok then Ok (mk_lb (u32 (Z.shiftl 1 LB_CONTROLLER_SLOT)) (replicate (Z.to_nat LB_NSLOTS) None) (replicate (Z.to_nat LB_NSLOTS) None))
  else Panic.

(** ** The attach functions of the drivers *)

Definition LB_VENDOR_CS161 : Z := 1.
Definition LBCS161_TIMER : Z := 2.
Definition LBCS161_DISK : Z := 3.
Definition LBCS161_SERIAL : Z := 4.
Definition LBCS161_SCREEN : Z := 5.
Definition LBCS161_NET : Z := 6.
Definition LBCS161_EMUFS : Z := 7.
Definition LBCS161_TRACE : Z := 8.
Definition LBCS161_RANDOM : Z := 9.

(** They all have this form: the address of the driver's structure and its
    slot, if there is one.  [p] is what [kmalloc] returns, [irq] the interrupt
    function if the driver has one. *)
Definition attach_to_lamebus (deviceid lowver highver : Z) (irq : option Z) (p : option Z) sc w : res (option (Z * Z) * lamebus_softc) :=
  slot ← lamebus_probe sc LB_VENDOR_CS161 deviceid lowver highver w;
  if slot <? 0 then Ok (None, sc)
  else
    match p with
    | None => Ok (None, sc)
    | Some p =>
        sc ← lamebus_mark sc slot;
        sc ← match irq with Some f => lamebus_attach_interrupt sc slot (Some p) (Some f) | None => Ok sc end;
        Ok (Some (p, slot), sc)
    end.

Definition attach_ltimer_to_lamebus (ltimer_irq : Z) := attach_to_lamebus LBCS161_TIMER 1 1 (Some ltimer_irq).
Definition attach_lhd_to_lamebus (lhd_irq : Z) := attach_to_lamebus LBCS161_DISK 2 2 (Some lhd_irq).
Definition attach_lser_to_lamebus (lser_irq : Z) := attach_to_lamebus LBCS161_SERIAL 1 1 (Some lser_irq).
Definition attach_lscreen_to_lamebus (lscreen_irq : Z) := attach_to_lamebus LBCS161_SCREEN 1 1 (Some lscreen_irq).
Definition attach_emu_to_lamebus (emu_irq : Z) := attach_to_lamebus LBCS161_EMUFS 1 1 (Some emu_irq).
Definition attach_ltrace_to_lamebus := attach_to_lamebus LBCS161_TRACE 1 1 None.
Definition attach_lrandom_to_lamebus := attach_to_lamebus LBCS161_RANDOM 1 1 None.

(** There is no network support. *)
Definition attach_lnet_to_lamebus sc w : res (option (Z * Z) * lamebus_softc) :=
  slot ← lamebus_probe sc LB_VENDOR_CS161 LBCS161_NET 1 1 w;
  Ok (None, sc).
End bus.

(** ** Bits *)

Lemma mask_bit s : 0 <= s < 32 -> u32 (Z.shiftl 1 s) = 2 ^ s.
Proof.
  intros Hs. rewrite Z.shiftl_1_l. apply u32_small. split; [apply Z.pow_nonneg; lia|]. change 4294967296 with (2 ^ 32). apply Z.pow_lt_mono_r; lia.
Qed.

Lemma land_bit_value x s : 0 <= s -> Z.land x (2 ^ s) = if Z.testbit x s then 2 ^ s else 0.
Proof.
  intros Hs. apply Z.bits_inj'. intros n Hn. rewrite Z.land_spec, Z.pow2_bits_eqb by lia.
  destruct (Z.eqb_spec s n) as [->|]; [destruct (Z.testbit x n) eqn:E|destruct (Z.testbit x s)];
    rewrite ?Z.pow2_bits_true, ?Z.pow2_bits_false, ?Z.bits_0 by lia; rewrite ?andb_false_r; done.
Qed.

Lemma test_mask x s : 0 <= s < 32 -> (Z.land x (2 ^ s) =? 0) = negb (Z.testbit x s).
Proof.
  intros Hs. rewrite land_bit_value by lia. destruct (Z.testbit x s); [|done]. apply Z.eqb_neq. pose proof (Z.pow_pos_nonneg 2 s). lia.
Qed.

Lemma next_mask s : 0 <= s < 31 -> u32 (Z.shiftl (2 ^ s) 1) = 2 ^ (s + 1).
Proof.
  intros Hs. rewrite Z.shiftl_mul_pow2, <- Z.pow_add_r by lia. apply u32_small. split; [apply Z.pow_nonneg; lia|].
  change 4294967296 with (2 ^ 32). apply Z.pow_lt_mono_r; lia.
Qed.

Section spec.
Context {W : Type} `{!BusHw W}.
Implicit Types (sc : lamebus_softc) (w : W) (slot : Z).

(** ** Probing *)

(** A configuration register of a slot, and the register of pending
    interrupts. *)
Definition cfg slot (offset : Z) w : Z := reg_read (LB_BASEADDR + 31 * LB_SLOT_SIZE + offset + LB_CONFIG_SIZE * slot) w.
Definition pending w : Z := cfg LB_CONTROLLER_SLOT CTLREG_IRQS w.

Lemma read_cfg_spec slot offset w : 0 <= slot < 32 -> 0 <= offset < 1024 -> read_cfg_register slot offset w = Ok (cfg slot offset w).
Proof.
  intros Hs Ho. unfold read_cfg_register, lamebus_read_register, lamebus_map_area, cfg. change (assert _) with (Ok tt). rewrite bind_Ok. cbn [mbind res_bind]. unfold LB_CONFIG_SIZE, LB_BASEADDR, LB_CONTROLLER_SLOT, LB_SLOT_SIZE. rewrite (u32_small (offset + _)) by lia. rewrite u32_small by lia. do 2 f_equal. lia.
Qed.

Definition fits sc (vendorid deviceid lowver highver : Z) w slot : Prop :=
  Z.testbit (ls_slotsinuse sc) slot = false /\ cfg slot CFGREG_VID w = vendorid /\ cfg slot CFGREG_DID w = deviceid /\
  lowver <= cfg slot CFGREG_DRL w <= highver.

(** [s] is the first slot from [slot] on that satisfies [P], or -1. *)
Definition first_slot (P : Z -> Prop) slot (s : Z) : Prop :=
  s = -1 /\ (forall i, slot <= i < 32 -> ~ P i) \/ slot <= s < 32 /\ P s /\ forall i, slot <= i < s -> ~ P i.

Lemma first_slot_skip P slot s : first_slot P (slot + 1) s -> ~ P slot -> first_slot P slot s.
Proof.
  intros [[-> Hall]|(Hr & Hf & Hall)] Hno; [left; split; [done|]|right; split; [lia|split; [done|]]]; intros i Hi;
    (destruct (decide (i = slot)) as [->|]; [done|apply Hall; lia]).
Qed.

Lemma probe_loop_spec sc vid did lo hi w n : forall slot, 0 <= slot -> slot + Z.of_nat n = 32 ->
  exists s, probe_loop n slot sc vid did lo hi w = Ok s /\ first_slot (fits sc vid did lo hi w) slot s.
Proof.
  induction n as [|n IH]; intros slot Hs Hn.
  { exists (-1). split; [done|]. left. split; [done|]. intros i Hi. lia. }
  cbn [probe_loop]. cbv zeta. rewrite mask_bit, test_mask, negb_involutive by lia.
  destruct (IH (slot + 1)) as (s & -> & Hcase); [lia..|].
  assert (~ fits sc vid did lo hi w slot -> exists s', Ok s = Ok s' /\ first_slot (fits sc vid did lo hi w) slot s') as Hskip.
  { intros Hno. exists s. split; [done|]. by apply first_slot_skip. }
  unfold fits at 1 in Hskip. rewrite !read_cfg_spec by (done || lia).
  destruct (Z.testbit (ls_slotsinuse sc) slot) eqn:Eb; [apply Hskip; naive_solver|]. rewrite !bind_Ok.
  destruct (Z.eqb_spec (cfg slot CFGREG_VID w) vid); cbn [negb]; [|apply Hskip; naive_solver].
  destruct (Z.eqb_spec (cfg slot CFGREG_DID w) did); cbn [negb]; [|apply Hskip; naive_solver].
  rewrite Z.gtb_ltb. destruct (Z.ltb_spec (cfg slot CFGREG_DRL w) lo), (Z.ltb_spec hi (cfg slot CFGREG_DRL w)); cbn [orb]; try (apply Hskip; naive_solver lia).
  exists slot. split; [done|]. right. split; [lia|]. split; [by repeat split|]. intros i Hi. lia.
Qed.

Lemma lamebus_probe_spec sc vid did lo hi w :
  exists s, lamebus_probe sc vid did lo hi w = Ok s /\ first_slot (fits sc vid did lo hi w) 0 s.
Proof. by apply probe_loop_spec. Qed.

(** ** Attaching *)

(** The table as a finite map: a slot in use has the data and the function
    that its driver has registered, if any.  The controller is not in it. *)
Abbreviation table := (gmap Z (option Z * option Z)).

Record bus_has sc (D : table) : Prop := {
  bh_range s : is_Some (D !! s) -> 0 <= s < 31;
  bh_used s : 0 <= s < 32 -> Z.testbit (ls_slotsinuse sc) s = true <-> s = 31 \/ is_Some (D !! s);
  bh_len : length (ls_devdata sc) = 32%nat /\ length (ls_irqfuncs sc) = 32%nat;
  bh_data s : 0 <= s < 32 -> ls_devdata sc !! Z.to_nat s = Some (e ← D !! s; fst e);
  bh_irq s : 0 <= s < 32 -> ls_irqfuncs sc !! Z.to_nat s = Some (e ← D !! s; snd e);
}.

Lemma lamebus_init_has : ok_with (lamebus_init true) (fun sc => bus_has sc ∅).
Proof.
  eexists. split; [done|]. split; cbn [ls_slotsinuse ls_devdata ls_irqfuncs].
  - intros s [x Hx]. by rewrite lookup_empty in Hx.
  - intros s Hs. rewrite lookup_empty. rewrite mask_bit by done. unfold LB_CONTROLLER_SLOT. rewrite Z.pow2_bits_eqb by lia.
    unfold is_Some. destruct (Z.eqb_spec 31 s); naive_solver.
  - done.
  - intros s Hs. rewrite lookup_empty. apply lookup_replicate. split; [done|unfold LB_NSLOTS; lia].
  - intros s Hs. rewrite lookup_empty. apply lookup_replicate. split; [done|unfold LB_NSLOTS; lia].
Qed.

Lemma lamebus_mark_has sc D s : bus_has sc D -> 0 <= s < 32 -> Z.testbit (ls_slotsinuse sc) s = false ->
  ok_with (lamebus_mark sc s) (fun sc' => bus_has sc' (<[s := (None, None)]> D)).
Proof.
  intros Hb Hs Hf. unfold lamebus_mark, slot_ok, LB_NSLOTS. rewrite mask_bit, test_mask, Hf by lia. pass_assert. cbn [negb]. eexists. split; [done|].
  assert (s <> 31) as Hne by (intros ->; assert (Z.testbit (ls_slotsinuse sc) 31 = true) by (apply (bh_used _ _ Hb); [lia|by left]); congruence).
  assert (D !! s = None) as Hno.
  { apply eq_None_not_Some. intros Hin. assert (Z.testbit (ls_slotsinuse sc) s = true) by (apply (bh_used _ _ Hb); [lia|by right]). congruence. }
  split; cbn [ls_slotsinuse ls_devdata ls_irqfuncs].
  - intros j [x [[<- _]|[_ Hj]]%lookup_insert_Some]; [lia|]. apply (bh_range _ _ Hb). by exists x.
  - intros j Hj. rewrite Z.lor_spec, Z.pow2_bits_eqb, orb_true_iff, (bh_used _ _ Hb j Hj), Z.eqb_eq by lia.
    rewrite lookup_insert_is_Some. destruct (decide (s = j)); naive_solver.
  - apply Hb.
  - intros j Hj. rewrite (bh_data _ _ Hb j Hj), lookup_insert. case_decide as Hsj; [|done]. subst j. by rewrite Hno.
  - intros j Hj. rewrite (bh_irq _ _ Hb j Hj), lookup_insert. case_decide as Hsj; [|done]. subst j. by rewrite Hno.
Qed.

Lemma lamebus_attach_interrupt_has sc D s d f : bus_has sc D -> D !! s = Some (None, None) ->
  ok_with (lamebus_attach_interrupt sc s d (Some f)) (fun sc' => bus_has sc' (<[s := (d, Some f)]> D)).
Proof.
  intros Hb Hs. pose proof (bh_range _ _ Hb s ltac:(by eexists)) as Hr. destruct (bh_len _ _ Hb) as [Hl1 Hl2].
  unfold lamebus_attach_interrupt, slot_ok, LB_NSLOTS. rewrite mask_bit, test_mask by lia. pass_assert.
  rewrite (proj2 (bh_used _ _ Hb s ltac:(lia))) by (right; by eexists). cbn [negb].
  pose proof (bh_data _ _ Hb s ltac:(lia)) as Ed. pose proof (bh_irq _ _ Hb s ltac:(lia)) as Ef. rewrite Hs in Ed, Ef.
  rewrite (load_Ok _ s _ ltac:(lia) Ed), (load_Ok _ s _ ltac:(lia) Ef). rewrite !bind_Ok. cbn [mbind option_bind fst snd]. rewrite !bool_decide_true by done. cbn [assert]. rewrite !bind_Ok.
  rewrite !store_in_range by lia. rewrite !bind_Ok. eexists. split; [done|]. split; cbn [ls_slotsinuse ls_devdata ls_irqfuncs].
  - intros j [x [[<- _]|[_ Hj]]%lookup_insert_Some]; [lia|]. apply (bh_range _ _ Hb). by exists x.
  - intros j Hj. rewrite (bh_used _ _ Hb j Hj), lookup_insert_is_Some. destruct (decide (s = j)) as [->|]; [rewrite Hs|]; naive_solver.
  - by rewrite !length_insert.
  - intros j Hj. rewrite lookup_insert. case_decide as Hsj; [subst j; by rewrite list_lookup_insert_eq by lia|].
    rewrite list_lookup_insert_ne by lia. by apply (bh_data _ _ Hb).
  - intros j Hj. rewrite lookup_insert. case_decide as Hsj; [subst j; by rewrite list_lookup_insert_eq by lia|].
    rewrite list_lookup_insert_ne by lia. by apply (bh_irq _ _ Hb).
Qed.

Record request : Type := mk_req { rq_dev : Z; rq_low : Z; rq_high : Z; rq_irq : option Z; rq_ptr : option Z }.

(** A device that has been attached: for whom, its structure, its slot. *)
Record attached : Type := mk_at { at_req : request; at_ptr : Z; at_slot : Z }.

Definition entry (a : attached) : option Z * option Z :=
  (match rq_irq (at_req a) with Some _ => Some (at_ptr a) | None => None end, rq_irq (at_req a)).

(** The slot holds the device that was asked for. *)
Definition right_device w (a : attached) : Prop :=
  cfg (at_slot a) CFGREG_VID w = LB_VENDOR_CS161 /\ cfg (at_slot a) CFGREG_DID w = rq_dev (at_req a) /\
  rq_low (at_req a) <= cfg (at_slot a) CFGREG_DRL w <= rq_high (at_req a).

Fixpoint attach_all (reqs : list request) sc w : res (list attached * lamebus_softc) :=
  match reqs with
  | [] => Ok ([], sc)
  | q :: reqs =>
      '(r, sc) ← attach_to_lamebus (rq_dev q) (rq_low q) (rq_high q) (rq_irq q) (rq_ptr q) sc w;
      '(l, sc) ← attach_all reqs sc w;
      Ok (match r with Some (p, slot) => mk_at q p slot :: l | None => l end, sc)
  end.

Lemma attach_spec q sc D w : bus_has sc D ->
  exists r sc', attach_to_lamebus (rq_dev q) (rq_low q) (rq_high q) (rq_irq q) (rq_ptr q) sc w = Ok (r, sc') /\
    match r with
    | None => sc' = sc
    | Some (p, s) => D !! s = None /\ right_device w (mk_at q p s) /\ bus_has sc' (<[s := entry (mk_at q p s)]> D)
    end.
Proof.
  intros Hb. unfold attach_to_lamebus. destruct (lamebus_probe_spec sc LB_VENDOR_CS161 (rq_dev q) (rq_low q) (rq_high q) w) as (s & -> & Hs). rewrite bind_Ok.
  destruct Hs as [[-> _]|(Hr & (Hfree & Hv & Hd & Hl) & _)]; [by do 2 eexists|]. destruct (Z.ltb_spec s 0); [lia|].
  destruct (rq_ptr q) as [p|]; [|by do 2 eexists]. destruct (lamebus_mark_has sc D s Hb Hr Hfree) as (sc1 & -> & Hb1). rewrite bind_Ok.
  assert (D !! s = None) as Hno.
  { apply eq_None_not_Some. intros Hin. assert (Z.testbit (ls_slotsinuse sc) s = true) by (apply (bh_used _ _ Hb); [lia|by right]). congruence. }
  unfold entry, right_device. cbn. destruct (rq_irq q) as [f|] eqn:Ef.
  - destruct (lamebus_attach_interrupt_has sc1 _ s (Some p) f Hb1) as (sc2 & -> & Hb2); [apply lookup_insert_eq|]. rewrite bind_Ok.
    do 2 eexists. split; [done|]. split; [done|]. split; [done|]. by rewrite insert_insert_eq in Hb2.
  - rewrite bind_Ok. do 2 eexists. done.
Qed.

Definition table_of (l : list attached) (D : table) : table := foldl (fun D a => <[at_slot a := entry a]> D) D l.

Lemma attach_all_spec reqs w : forall sc D, bus_has sc D ->
  exists l sc', attach_all reqs sc w = Ok (l, sc') /\ NoDup (at_slot <$> l) /\ Forall (fun a => D !! at_slot a = None) l /\
    Forall (right_device w) l /\ bus_has sc' (table_of l D).
Proof.
  induction reqs as [|q reqs IH]; intros sc D Hb; cbn [attach_all].
  { exists [], sc. split; [done|]. split; [constructor|]. split; [constructor|]. split; [constructor|done]. }
  destruct (attach_spec q sc D w Hb) as (r & sc1 & -> & Hr). rewrite bind_Ok. destruct r as [[p s]|].
  - destruct Hr as (Hno & Hd & Hb1). destruct (IH sc1 _ Hb1) as (l & sc2 & -> & Hn & Hf & Hr & Hb2). rewrite bind_Ok.
    assert (Forall (fun a => at_slot a <> s /\ D !! at_slot a = None) l) as Hf'.
    { eapply Forall_impl; [exact Hf|]. cbn. intros a Ha. apply lookup_insert_None in Ha. naive_solver. }
    do 2 eexists. split; [done|]. split; [|split; [|split; [by constructor|done]]].
    + rewrite fmap_cons. apply NoDup_cons_2; [|done]. cbn. intros (a & Ea & Hin)%list_elem_of_fmap. apply list_elem_of_In in Hin.
      pose proof (proj1 (List.Forall_forall _ _) Hf' a Hin). naive_solver.
    + constructor; [done|]. eapply Forall_impl; [exact Hf'|]. naive_solver.
  - subst sc1. destruct (IH sc D Hb) as (l & sc2 & -> & H1). rewrite bind_Ok. by do 2 eexists.
Qed.

(** ** Dispatch

    A trace of the handlers that were called: the slot, and the hardware after
    the call. *)
Abbreviation trace := (list (Z * W)).

(** The hardware when it is the turn of slot [s]. *)
Fixpoint before w (tr : trace) (s : Z) : W :=
  match tr with
  | [] => w
  | (j, w') :: tr => if j <? s then before w' tr s else w
  end.

Definition has_handler (D : table) (s : Z) : bool := match D !! s with Some (_, Some _) => true | _ => false end.

(** The slot interrupts when it is its turn. *)
Definition signals w (tr : trace) (s : Z) : bool := Z.testbit (pending (before w tr s)) s.

(** The slots from [lo] on have been served, in order: exactly those that
    interrupt when it is their turn and have a handler, each by its handler
    with its driver's data. *)
Record served_from (D : table) (lo : Z) w (tr : trace) : Prop := {
  sv_sorted : StronglySorted Z.lt tr.*1;
  sv_called s : lo <= s < 32 -> s ∈ tr.*1 <-> signals w tr s = true /\ has_handler D s = true;
  sv_call s w' : (s, w') ∈ tr -> lo <= s < 32 /\ exists d f, D !! s = Some (d, Some f) /\ irq_call f d (before w tr s) = Ok w';
}.

(** The slots from [lo] on that interrupt and have no handler. *)
Definition duds_from (D : table) (lo n : Z) w (tr : trace) : list Z :=
  filter (fun s => signals w tr s && negb (has_handler D s) = true) (seqZ lo n).

Lemma filter_seqZ_ext (P Q : Z -> Prop) `{!forall s, Decision (P s), !forall s, Decision (Q s)} lo n :
  (forall s, lo <= s -> P s <-> Q s) -> filter P (seqZ lo n) = filter Q (seqZ lo n).
Proof.
  intros HPQ. assert (forall s, s ∈ seqZ lo n -> P s <-> Q s) as Hin by (intros s Hs%elem_of_seqZ; apply HPQ; lia).
  revert Hin. generalize (seqZ lo n). induction l as [|x l IH]; intros Hin; [done|]. rewrite !filter_cons, IH by (intros; apply Hin; by right).
  pose proof (Hin x ltac:(left)). repeat case_decide; tauto || done.
Qed.

Lemma before_later D lo w tr s : served_from D lo w tr -> s <= lo -> before w tr s = w.
Proof.
  intros [_ _ Hc] Hs. destruct tr as [|[j w'] tr]; [done|]. destruct (Hc j w') as [Hj _]; [left|]. cbn. by destruct (Z.ltb_spec j s); [lia|].
Qed.

(** A slot that is skipped. *)
Lemma served_skip D lo w tr : served_from D (lo + 1) w tr -> Z.testbit (pending w) lo && has_handler D lo = false -> served_from D lo w tr.
Proof.
  intros Hsv Hno. pose proof (before_later _ _ _ _ lo Hsv ltac:(lia)) as Eb. destruct Hsv as [Hs Hc Hf]. split; [done| |].
  - intros s Hr. destruct (decide (s = lo)) as [->|]; [|apply Hc; lia]. unfold signals. rewrite Eb. split.
    + intros ([j w'] & -> & Hin)%list_elem_of_fmap. apply Hf in Hin. cbn in *. lia.
    + intros [H1 H2]. by rewrite H1, H2 in Hno.
  - intros s w' [? ?]%Hf. split; [lia|done].
Qed.

(** A slot whose handler is called. *)
Lemma served_cons D lo w w1 tr d f : served_from D (lo + 1) w1 tr -> 0 <= lo < 32 -> Z.testbit (pending w) lo = true -> D !! lo = Some (d, Some f) -> irq_call f d w = Ok w1 ->
  served_from D lo w ((lo, w1) :: tr).
Proof.
  intros Hsv Hlo Hp Hd Hcall. assert (before w ((lo, w1) :: tr) lo = w) as E0 by (cbn; by destruct (Z.ltb_spec lo lo); [lia|]).
  assert (forall s, lo < s -> before w ((lo, w1) :: tr) s = before w1 tr s) as Es by (intros s Hs; cbn; by destruct (Z.ltb_spec lo s); [|lia]).
  destruct Hsv as [Hs Hc Hf]. split.
  - cbn. constructor; [done|]. apply Forall_fmap, Forall_forall. intros [j w'] Hin%Hf. cbn. lia.
  - intros s Hr. cbn [fmap list_fmap fst]. rewrite elem_of_cons. unfold signals. destruct (decide (s = lo)) as [->|].
    + rewrite E0. unfold has_handler. rewrite Hd. naive_solver.
    + rewrite Es by lia. specialize (Hc s ltac:(lia)). unfold signals in Hc. naive_solver.
  - intros s w' [[= -> ->]|Hin]%elem_of_cons; [split; [lia|]; exists d, f; by rewrite E0|]. destruct (Hf s w' Hin) as [Hr (d' & f' & H1 & H2)].
    split; [lia|]. exists d', f'. by rewrite Es by lia.
Qed.

Section dispatch.
Variables (sc : lamebus_softc) (D : table).
Hypothesis Hbus : bus_has sc D.
(** Handlers return. *)
Hypothesis Hcall : forall s d f w, D !! s = Some (d, Some f) -> exists w', irq_call f d w = Ok w'.

(** What the code finds in its table for a slot that interrupts. *)
Lemma slot_lookup slot : 0 <= slot < 32 ->
  if has_handler D slot
  then exists d f, D !! slot = Some (d, Some f) /\ Z.testbit (ls_slotsinuse sc) slot = true /\ load (ls_irqfuncs sc) slot = Ok (Some f) /\ load (ls_devdata sc) slot = Ok d
  else Z.testbit (ls_slotsinuse sc) slot = false \/ load (ls_irqfuncs sc) slot = Ok None.
Proof.
  intros Hs. pose proof (bh_data _ _ Hbus slot Hs) as Ed. pose proof (bh_irq _ _ Hbus slot Hs) as Ef. pose proof (bh_used _ _ Hbus slot Hs) as Hu.
  unfold has_handler. destruct (D !! slot) as [[d [f|]]|] eqn:E; cbn [mbind option_bind fst snd] in *.
  - exists d, f. split; [done|]. split; [apply Hu; right; by eexists|]. split; (apply load_Ok; [lia|done]).
  - right. apply load_Ok; [lia|done].
  - right. apply load_Ok; [lia|done].
Qed.

Lemma interrupt_loop_spec n : forall slot mask duds this w, 0 <= slot -> slot + Z.of_nat n = 32 -> (slot < 32 -> mask = 2 ^ slot) -> 0 <= duds <= 10000 + slot ->
  exists tr, served_from D slot w tr /\
    let k := Z.of_nat (length (duds_from D slot (Z.of_nat n) w tr)) in
    interrupt_loop n slot mask (pending w) duds this sc w = Ok (duds + k, this + k, before w tr 32, tr.*1).
Proof.
  induction n as [|n IH]; intros slot mask duds this w Hs Hn Hm Hd.
  { exists []. split; [split; [constructor| |]|cbn; by rewrite !Z.add_0_r]. - intros s Hr. lia. - intros s w' Hin. by apply not_elem_of_nil in Hin. }
  cbn [interrupt_loop]. rewrite Hm, !test_mask by lia. assert (slot + 1 < 32 -> u32 (Z.shiftl (2 ^ slot) 1) = 2 ^ (slot + 1)) as Hm' by (intros; apply next_mask; lia).
  assert (forall w tr, duds_from D slot (Z.of_nat (S n)) w tr =
    (if signals w tr slot && negb (has_handler D slot) then [slot] else []) ++ duds_from D (slot + 1) (Z.of_nat n) w tr) as Eduds.
  { intros w0 tr. unfold duds_from. rewrite seqZ_cons by lia. replace (Z.pred (Z.of_nat (S n))) with (Z.of_nat n) by lia. rewrite filter_cons.
    by destruct (signals w0 tr slot && negb (has_handler D slot)). }
  pose proof (slot_lookup slot ltac:(lia)) as Hlook. destruct (Z.testbit (pending w) slot) eqn:Et; cbn [negb].
  2:{ destruct (IH (slot + 1) _ duds this w ltac:(lia) ltac:(lia) Hm' ltac:(lia)) as (tr & Hsv & E). exists tr. split; [by apply served_skip; [|rewrite Et]|].
      rewrite Eduds. unfold signals. rewrite (before_later _ _ _ _ slot Hsv) by lia. rewrite Et. exact E. }
  destruct (has_handler D slot) eqn:Eh; cbn [negb] in *.
  - destruct Hlook as (d & f & Hdf & -> & -> & ->). rewrite !bind_Ok. destruct (Hcall slot d f w Hdf) as (w1 & Ew). rewrite Ew, bind_Ok.
    unfold read_ctl_register. rewrite read_cfg_spec by done. fold (pending w1). rewrite bind_Ok.
    destruct (IH (slot + 1) _ duds this w1 ltac:(lia) ltac:(lia) Hm' ltac:(lia)) as (tr & Hsv & E). cbv zeta in E. rewrite E, bind_Ok.
    exists ((slot, w1) :: tr). split; [apply (served_cons D slot w w1 tr d f); done || lia|]. cbv zeta. rewrite Eduds, andb_false_r. cbn [app before]. destruct (Z.ltb_spec slot 32); [|lia].
    assert (duds_from D (slot + 1) (Z.of_nat n) w ((slot, w1) :: tr) = duds_from D (slot + 1) (Z.of_nat n) w1 tr) as ->; [|done].
    apply filter_seqZ_ext. intros s Hr. unfold signals. cbn [before]. by destruct (Z.ltb_spec slot s); [|lia].
  - destruct (IH (slot + 1) _ (i32 (duds + 1)) (this + 1) w ltac:(lia) ltac:(lia) Hm') as (tr & Hsv & E); [rewrite i32_small; lia|].
    exists tr. split; [by apply served_skip; [|rewrite Eh, andb_false_r]|]. rewrite Eduds. unfold signals. rewrite (before_later _ _ _ _ slot Hsv) by lia. rewrite Et.
    cbn [andb app length]. cbv zeta in *. rewrite i32_small in E by lia. rewrite Nat2Z.inj_succ.
    assert (interrupt_loop n (slot + 1) (u32 (Z.shiftl (2 ^ slot) 1)) (pending w) (i32 (duds + 1)) (this + 1) sc w =
      Ok (duds + Z.succ (Z.of_nat (length (duds_from D (slot + 1) (Z.of_nat n) w tr))), this + Z.succ (Z.of_nat (length (duds_from D (slot + 1) (Z.of_nat n) w tr))), before w tr 32, tr.*1)) as E'.
    { rewrite i32_small by lia. rewrite E. do 4 f_equal; lia. }
    destruct Hlook as [-> | ->]; cbn [negb]; rewrite ?bind_Ok; [exact E'|]. by destruct (negb (Z.testbit (ls_slotsinuse sc) slot)).
Qed.

Lemma lamebus_interrupt_spec spl duds w : 0 < spl -> 0 <= duds <= 10000 -> pending w <> 0 ->
  exists tr, served_from D 0 w tr /\
    let k := Z.of_nat (length (duds_from D 0 32 w tr)) in
    let total := if k =? 0 then 0 else duds + k in
    lamebus_interrupt spl sc duds w = if 10000 <? total then Panic else Ok (total, before w tr 32, tr.*1).
Proof.
  intros Hspl Hd Hp. unfold lamebus_interrupt. pass_assert. unfold read_ctl_register. rewrite read_cfg_spec by done. fold (pending w). rewrite bind_Ok.
  destruct (Z.eqb_spec (pending w) 0); [done|]. destruct (interrupt_loop_spec (Z.to_nat LB_NSLOTS) 0 1 duds 0 w) as (tr & Hsv & E); [done..|].
  exists tr. split; [done|]. cbv zeta in *. rewrite E, bind_Ok. change (Z.of_nat (Z.to_nat LB_NSLOTS)) with 32.
  set (k := Z.of_nat (length _)). rewrite Z.add_0_l, !Z.gtb_ltb. destruct (Z.eqb_spec k 0) as [->|]; cbn [andb]; [|done].
  rewrite Z.add_0_r. destruct (Z.ltb_spec 0 duds); [done|]. by replace duds with 0 by lia.
Qed.
End dispatch.

Lemma table_of_lookup l : forall D s e, NoDup (at_slot <$> l) -> table_of l D !! s = Some e ->
  D !! s = Some e \/ exists a, a ∈ l /\ at_slot a = s /\ e = entry a.
Proof.
  induction l as [|a l IH]; intros D s e Hn; [by left|]. rewrite fmap_cons in Hn. apply NoDup_cons_1_2 in Hn as Hn'. intros [Hin|(b & Hb & ?)]%IH; [| |done].
  - apply lookup_insert_Some in Hin as [[<- <-]|[_ ?]]; [|by left]. right. exists a. split; [left|done].
  - right. exists b. split; [by right|done].
Qed.

Lemma table_of_in l : forall D a, NoDup (at_slot <$> l) -> a ∈ l -> table_of l D !! at_slot a = Some (entry a).
Proof.
  assert (forall l D s, s ∉ at_slot <$> l -> table_of l D !! s = D !! s) as Hout.
  { clear. induction l as [|b l IH]; intros D s Hs; [done|]. rewrite fmap_cons, not_elem_of_cons in Hs. cbn. unfold table_of in *. rewrite IH by tauto.
    apply lookup_insert_ne. naive_solver. }
  induction l as [|b l IH]; intros D a Hn Hin; [by apply not_elem_of_nil in Hin|]. rewrite fmap_cons in Hn.
  apply elem_of_cons in Hin as [->|Hin].
  - cbn. unfold table_of in Hout. rewrite Hout; [apply lookup_insert_eq|by apply NoDup_cons_1_1 in Hn].
  - cbn. apply IH; [by apply NoDup_cons_1_2 in Hn|done].
Qed.

Lemma table_of_entry l s d f : NoDup (at_slot <$> l) ->
  table_of l ∅ !! s = Some (d, Some f) <-> exists a, a ∈ l /\ at_slot a = s /\ rq_irq (at_req a) = Some f /\ d = Some (at_ptr a).
Proof.
  intros Hn. split.
  - intros [Hl|(a & Hin & <- & Ea)]%table_of_lookup; [by rewrite lookup_empty in Hl| |done]. exists a. unfold entry in Ea.
    destruct (rq_irq (at_req a)) as [g|]; [|done]. injection Ea as -> ->. done.
  - intros (a & Hin & <- & Hf & ->). rewrite (table_of_in l ∅ a Hn Hin). unfold entry. by rewrite Hf.
Qed.

(** C18. Devices are found and their interrupts reach their drivers.
    Whatever drivers probe the bus in whatever order, no attach function
    panics, no slot is given away twice, and each driver gets a device with
    the identity and the version it asked for.  Provided that the handlers
    return, an interrupt that some slot signals then serves the slots in
    order, each once: it calls the handler of exactly those slots that have
    one and signal when it is their turn, that is after what the handlers of
    earlier slots have done to the hardware, with the data of the slot's
    driver.  The slots that signal and have no handler are added to the count
    of dud interrupts; the count goes back to 0 when there was none, and more
    than 10000 of them are a panic. *)
Theorem interrupts_reach_drivers reqs w :
  exists l sc, (sc ← lamebus_init true; attach_all reqs sc w) = Ok (l, sc) /\
    NoDup (at_slot <$> l) /\ Forall (right_device w) l /\
    let D := table_of l ∅ in
    (forall s d f, D !! s = Some (d, Some f) <-> exists a, a ∈ l /\ at_slot a = s /\ rq_irq (at_req a) = Some f /\ d = Some (at_ptr a)) /\
    ((forall a f w, a ∈ l -> rq_irq (at_req a) = Some f -> exists w', irq_call f (Some (at_ptr a)) w = Ok w') ->
     forall spl duds w, 0 < spl -> 0 <= duds <= 10000 -> pending w <> 0 ->
     exists tr, served_from D 0 w tr /\
       let k := Z.of_nat (length (duds_from D 0 32 w tr)) in
       let total := if k =? 0 then 0 else duds + k in
       lamebus_interrupt spl sc duds w = if 10000 <? total then Panic else Ok (total, before w tr 32, tr.*1)).
Proof.
  destruct lamebus_init_has as (sc0 & -> & Hb0). rewrite bind_Ok. destruct (attach_all_spec reqs w sc0 ∅ Hb0) as (l & sc & -> & Hn & _ & Hr & Hb).
  exists l, sc. do 3 (split; [done|]). split; [intros s d f; by apply table_of_entry|]. intros Hcall spl duds w1 Hspl Hd Hp.
  apply lamebus_interrupt_spec; try done. intros s d f w2 (a & Hin & _ & Hf & ->)%table_of_entry; [|done]. by apply Hcall.
Qed.

(** Interrupts that no slot signals are only counted: the check for too many
    of them is not reached. *)
Theorem stray_interrupts_unchecked spl sc duds w : 0 < spl -> pending w = 0 -> lamebus_interrupt spl sc duds w = Ok (i32 (duds + 1), w, []).
Proof.
  intros Hspl Hp. unfold lamebus_interrupt. pass_assert. unfold read_ctl_register. rewrite read_cfg_spec by done. fold (pending w). by rewrite bind_Ok, Hp.
Qed.
End spec.

(** ** A timer in slot 0 and a disk in slot 2

    The hardware is which of the two interrupt; the handlers 7 and 8 turn
    their device's interrupt off. *)
Definition two_reg (addr : Z) (w : bool * bool) : Z :=
  let off := addr - (LB_BASEADDR + 31 * LB_SLOT_SIZE) in
  if off =? CTLREG_IRQS + LB_CONFIG_SIZE * 31 then (if fst w then 1 else 0) + (if snd w then 4 else 0)
  else if (off =? 0) || (off =? 2048) then LB_VENDOR_CS161
  else if off =? 4 then LBCS161_TIMER
  else if off =? 8 then 1
  else if off =? 2052 then LBCS161_DISK
  else if off =? 2056 then 2
  else 0.

#[export] Instance two_hw : BusHw (bool * bool) := {|
  reg_read := two_reg;
  reg_write _ _ w := w;
  irq_call f _ w := if f =? 7 then Ok (false, snd w) else if f =? 8 then Ok (fst w, false) else Panic;
|}.

Definition two_reqs : list request :=
  [mk_req LBCS161_DISK 2 2 (Some 8) (Some 100); mk_req LBCS161_DISK 2 2 (Some 8) (Some 200); mk_req LBCS161_TIMER 1 1 (Some 7) (Some 300)].

Lemma interrupts_reach_drivers_witness :
  exists sc, (sc ← lamebus_init true; attach_all two_reqs sc (true, true)) =
      Ok ([mk_at (mk_req LBCS161_DISK 2 2 (Some 8) (Some 100)) 100 2; mk_at (mk_req LBCS161_TIMER 1 1 (Some 7) (Some 300)) 300 0], sc) /\
    exists tr, served_from (<[0 := (Some 300, Some 7)]> (<[2 := (Some 100, Some 8)]> ∅)) 0 (true, true) tr /\ 0 ∈ tr.*1.
Proof.
  destruct (interrupts_reach_drivers two_reqs (true, true)) as (l & sc & E & _ & _ & _ & H). exists sc.
  assert (l = [mk_at (mk_req LBCS161_DISK 2 2 (Some 8) (Some 100)) 100 2; mk_at (mk_req LBCS161_TIMER 1 1 (Some 7) (Some 300)) 300 0]) as ->.
  { vm_compute in E. by injection E as <- _. }
  split; [exact E|]. clear E. destruct H with (spl := 15) (duds := 3) (w := (true, true)) as (tr & Hsv & _); try done.
  - intros a f w Hin Hf. apply elem_of_cons in Hin as [->|Hin]; [|apply list_elem_of_singleton in Hin as ->]; injection Hf as <-; by eexists.
  - exists tr. split; [exact Hsv|]. apply (sv_called _ _ _ _ Hsv 0); [lia|]. split; [|done]. unfold signals.
    rewrite (before_later _ _ _ _ 0 Hsv) by done. done.
Defined.
