(* ===== verification/Console.v ===== *)
(** * kern/dev/generic/console.c and kern/dev/lamebus/lser.c

    The console driver on the serial card.  The card is hardware: the class
    [SerialHw], with what the driver relies on in [SerialLaws].

    Any number of threads print and read at the same time, interrupts happen
    in between, and code that runs with interrupts off prints by polling.
    What is done with interrupts off is one step; a schedule is a list of
    steps, and [exec] follows it.  A step that cannot be taken (a thread that
    waits at a semaphore whose count is 0) does nothing. *)
From stdpp Require Import base numbers list option.
From S2P Require Import Prelude Libc.
Local Open Scope Z_scope.

Definition LSER_REG_CHAR : Z := 0.
Definition LSER_REG_WIRQ : Z := 4.
Definition LSER_REG_RIRQ : Z := 8.
Definition LSER_IRQ_ENABLE : Z := 1.
Definition LSER_IRQ_ACTIVE : Z := 2.
Definition DELAYBUFSIZE : Z := 1024.

(** The registers of the card, and [ser_run]: time passes, and somebody may
    press a key.  Reading a register may take time, too. *)
Class SerialHw (H : Type) : Type := {
  ser_read (reg : Z) (h : H) : Z * H;
  ser_write (reg val : Z) (h : H) : H;
  ser_run (k : option Z) (h : H) : H;
}.

Section console.
Context {H : Type} `{!SerialHw H}.

(** [struct lser_softc], with the card, and [struct con_softc], with the
    counts of its semaphores; [ls_attached] says that [ls_start] and
    [ls_input] are set, [the_console] that it is not NULL. *)
Record con : Type := mk_con {
  ls_wbusy : bool;
  ls_attached : bool;
  card : H;
  cs_rsem : Z;
  cs_wsem : Z;
  cs_gotchar : Z;
  the_console : bool;
  delayed_outbuf : list Z;
  delayed_outbuf_pos : Z;
}.

Definition set_lser (b : bool) (h : H) (c : con) : con :=
  mk_con b (ls_attached c) h (cs_rsem c) (cs_wsem c) (cs_gotchar c) (the_console c) (delayed_outbuf c) (delayed_outbuf_pos c).
Definition set_cs (rsem wsem gotchar : Z) (c : con) : con :=
  mk_con (ls_wbusy c) (ls_attached c) (card c) rsem wsem gotchar (the_console c) (delayed_outbuf c) (delayed_outbuf_pos c).
Definition set_delayed (buf : list Z) (pos : Z) (c : con) : con :=
  mk_con (ls_wbusy c) (ls_attached c) (card c) (cs_rsem c) (cs_wsem c) (cs_gotchar c) (the_console c) buf pos.

(** ** Called by the serial driver *)

Definition con_input (ch : Z) (c : con) : con := set_cs (cs_rsem c + 1) (cs_wsem c) ch c.
Definition con_start (c : con) : con := set_cs (cs_rsem c) (cs_wsem c + 1) (cs_gotchar c) c.

(** ** lser.c *)

Definition lser_irq (curspl : Z) (c : con) : res con :=
  _ ← assert (curspl >? 0);
  let '(x, h) := ser_read LSER_REG_WIRQ (card c) in
  let clear_to_write := negb (Z.land x LSER_IRQ_ACTIVE =? 0) in
  let c := if clear_to_write then set_lser false (ser_write LSER_REG_WIRQ LSER_IRQ_ENABLE h) c else set_lser (ls_wbusy c) h c in
  let '(x, h) := ser_read LSER_REG_RIRQ (card c) in
  let got_a_read := negb (Z.land x LSER_IRQ_ACTIVE =? 0) in
  let '(ch, h) :=
    if got_a_read then
      let '(ch, h) := ser_read LSER_REG_CHAR h in
      (ch, ser_write LSER_REG_RIRQ LSER_IRQ_ENABLE h)
    else (0, h) in
  let c := set_lser (ls_wbusy c) h c in
  let c := if clear_to_write && ls_attached c then con_start c else c in
  Ok (if got_a_read && ls_attached c then con_input (i32 ch) c else c).

Definition lser_write (ch : Z) (c : con) : res con :=
  if ls_wbusy c then Panic
  else Ok (set_lser true (ser_write LSER_REG_CHAR (u32 ch) (card c)) c).

Fixpoint lser_spin_until_write (fuel : nat) (h : H) : res H :=
  match fuel with
  | O => Fuel
  | S fuel =>
      let '(val, h) := ser_read LSER_REG_WIRQ h in
      if Z.land val LSER_IRQ_ACTIVE =? 0 then lser_spin_until_write fuel h else Ok h
  end.

Definition lser_writepolled (fuel : nat) (ch : Z) (c : con) : res con :=
  let irqpending := ls_wbusy c in
  h ← (if irqpending then
         h ← lser_spin_until_write fuel (card c);
         Ok (ser_write LSER_REG_WIRQ LSER_IRQ_ENABLE h)
       else Ok (card c));
  let h := ser_write LSER_REG_CHAR (u32 ch) h in
  h ← lser_spin_until_write fuel h;
  let h := if negb irqpending then ser_write LSER_REG_WIRQ LSER_IRQ_ENABLE h else h in
  Ok (set_lser (ls_wbusy c) h c).

Definition config_lser (c : con) : con :=
  set_lser false (ser_write LSER_REG_WIRQ LSER_IRQ_ENABLE (ser_write LSER_REG_RIRQ LSER_IRQ_ENABLE (card c))) c.

(** ** console.c *)

Definition putch_delayed (ch : Z) (c : con) : res con :=
  _ ← assert (delayed_outbuf_pos c <? DELAYBUFSIZE);
  buf ← store (delayed_outbuf c) (delayed_outbuf_pos c) (u8 ch);
  Ok (set_delayed buf (delayed_outbuf_pos c + 1) c).

(** putch() before there is a console, in an interrupt handler or with
    interrupts off; the third case, [putch_intr], is in the steps below. *)
Definition putch_off (fuel : nat) (ch : Z) (c : con) : res con :=
  if negb (the_console c) then putch_delayed ch c else lser_writepolled fuel ch c.

(** The loop of [flush_delay_buf], with [n] characters to go. *)
Fixpoint flush_loop (n : nat) (fuel : nat) (i : Z) (c : con) : res con :=
  match n with
  | O => Ok c
  | S n =>
      ch ← load (delayed_outbuf c) i;
      c ← putch_off fuel (schar ch) c;
      flush_loop n fuel (i + 1) c
  end.

Definition flush_delay_buf (fuel : nat) (c : con) : res con :=
  c ← flush_loop (Z.to_nat (delayed_outbuf_pos c)) fuel 0 c;
  Ok (set_delayed (delayed_outbuf c) 0 c).

(** [attach_con_to_lser]. *)
Definition attach_con_to_lser (c : con) : con :=
  mk_con (ls_wbusy c) true (card c) (cs_rsem c) (cs_wsem c) (cs_gotchar c) (the_console c) (delayed_outbuf c) (delayed_outbuf_pos c).

(** [ok] says which of the two semaphores and the two locks can be allocated;
    [adddev] is the result of [attach_console_to_vfs].  Interrupts are off. *)
Definition config_con (fuel : nat) (unit : Z) (ok : nat -> bool) (adddev : Z) (c : con) : res (Z * con) :=
  if unit >? 0 then
    _ ← assert (the_console c);
    Ok (ENODEV, c)
  else
    _ ← assert (negb (the_console c));
    if negb (ok 0%nat && ok 1%nat && ok 2%nat && ok 3%nat) then Ok (ENOMEM, c)
    else
      let c := mk_con (ls_wbusy c) (ls_attached c) (card c) 0 1 0 true (delayed_outbuf c) (delayed_outbuf_pos c) in
      c ← flush_delay_buf fuel c;
      Ok (adddev, c).

(** ** Threads that print and read *)

(** Outside; in [putch_intr], before and after P(cs_wsem); in [getch_intr],
    before and after P(cs_rsem). *)
Inductive user : Type := Outside | Wants (ch : Z) | Sending (ch : Z) | Waits | Got.

(** [asked] is the characters putch() was called with and [sent] those the
    card was given, each with the thread, [None] for code that runs with
    interrupts off; [got] is the characters getch() returned.  All are in
    order. *)
Record sys : Type := mk_sys { s_con : con; users : list user; asked : list (option nat * Z); sent : list (option nat * Z); got : list Z }.

(** A thread calls putch() or getch(), gets past the semaphore, and goes on;
    an interrupt handler prints; the card interrupts; time passes. *)
Inductive event : Type :=
  | Putch (t : nat) (ch : Z) | TakeW (t : nat) | Send (t : nat)
  | Getch (t : nat) | TakeR (t : nat) | Read (t : nat)
  | Polled (ch : Z) | Irq | Run (k : option Z).

Definition set_user (t : nat) (u : user) (c : con) (s : sys) : sys := mk_sys c (<[t := u]> (users s)) (asked s) (sent s) (got s).

Definition perform (fuel : nat) (ev : event) (s : sys) : res sys :=
  let c := s_con s in
  match ev with
  | Putch t ch =>
      match users s !! t with
      | Some Outside => Ok (mk_sys c (<[t := Wants ch]> (users s)) (asked s ++ [(Some t, ch)]) (sent s) (got s))
      | _ => Ok s
      end
  | TakeW t =>
      match users s !! t with
      | Some (Wants ch) => if cs_wsem c >? 0 then Ok (set_user t (Sending ch) (set_cs (cs_rsem c) (cs_wsem c - 1) (cs_gotchar c) c) s) else Ok s
      | _ => Ok s
      end
  | Send t =>
      match users s !! t with
      | Some (Sending ch) => c ← lser_write ch c; Ok (mk_sys c (<[t := Outside]> (users s)) (asked s) (sent s ++ [(Some t, ch)]) (got s))
      | _ => Ok s
      end
  | Getch t => match users s !! t with Some Outside => Ok (set_user t Waits c s) | _ => Ok s end
  | TakeR t =>
      match users s !! t with
      | Some Waits => if cs_rsem c >? 0 then Ok (set_user t Got (set_cs (cs_rsem c - 1) (cs_wsem c) (cs_gotchar c) c) s) else Ok s
      | _ => Ok s
      end
  | Read t =>
      match users s !! t with
      | Some Got => Ok (mk_sys c (<[t := Outside]> (users s)) (asked s) (sent s) (got s ++ [cs_gotchar c]))
      | _ => Ok s
      end
  | Polled ch => c ← putch_off fuel ch c; Ok (mk_sys c (users s) (asked s ++ [(None, ch)]) (sent s ++ [(None, ch)]) (got s))
  | Irq => c ← lser_irq 1 c; Ok (mk_sys c (users s) (asked s) (sent s) (got s))
  | Run k => Ok (mk_sys (set_lser (ls_wbusy c) (ser_run k (card c)) c) (users s) (asked s) (sent s) (got s))
  end.

Fixpoint exec (fuel : nat) (evs : list event) (s : sys) : res sys :=
  match evs with
  | [] => Ok s
  | ev :: evs => s ← perform fuel ev s; exec fuel evs s
  end.
End console.
Arguments con H : clear implicits.
Arguments sys H : clear implicits.

(** ** What the driver relies on *)

(** What can be seen of the card: the characters it has been given, whether
    one of them is still on its way, whether it reports that it is ready
    again, the character that is to be read, and all that were typed. *)
Class SerialView (H : Type) : Type := {
  line : H -> list Z;
  sending : H -> bool;
  wirq : H -> bool;
  key : H -> option Z;
  typed : H -> list Z;
}.

(** Time has passed: a character may have gone out. *)
Definition elapsed {H} `{!SerialView H} (h h' : H) : Prop :=
  line h' = line h /\ key h' = key h /\ typed h' = typed h /\
  (sending h' = sending h /\ wirq h' = wirq h \/ sending h = true /\ sending h' = false /\ wirq h' = true).

Class SerialLaws (H : Type) `{!SerialHw H} `{!SerialView H} : Type := {
  latency : nat;
  read_wirq h : elapsed h (ser_read LSER_REG_WIRQ h).2 /\ (Z.land (ser_read LSER_REG_WIRQ h).1 LSER_IRQ_ACTIVE =? 0) = negb (wirq (ser_read LSER_REG_WIRQ h).2);
  read_rirq h : elapsed h (ser_read LSER_REG_RIRQ h).2 /\ (Z.land (ser_read LSER_REG_RIRQ h).1 LSER_IRQ_ACTIVE =? 0) = negb (bool_decide (is_Some (key h)));
  read_char h k : key h = Some k -> elapsed h (ser_read LSER_REG_CHAR h).2 /\ (ser_read LSER_REG_CHAR h).1 = k;
  key_range h k : key h = Some k -> 0 <= k < 256;
  write_char val h : sending h = false ->
    let h' := ser_write LSER_REG_CHAR val h in
    line h' = line h ++ [u8 val] /\ sending h' = true /\ wirq h' = wirq h /\ key h' = key h /\ typed h' = typed h;
  write_wirq h : let h' := ser_write LSER_REG_WIRQ LSER_IRQ_ENABLE h in
    line h' = line h /\ sending h' = sending h /\ wirq h' = false /\ key h' = key h /\ typed h' = typed h;
  write_rirq h : let h' := ser_write LSER_REG_RIRQ LSER_IRQ_ENABLE h in
    line h' = line h /\ sending h' = sending h /\ wirq h' = wirq h /\ key h' = None /\ typed h' = typed h;
  run_idle h : elapsed h (ser_run None h);
  run_key k h : line (ser_run (Some k) h) = line h /\ sending (ser_run (Some k) h) = sending h /\ wirq (ser_run (Some k) h) = wirq h /\
    (key h = None -> key (ser_run (Some k) h) = Some (u8 k) /\ typed (ser_run (Some k) h) = typed h ++ [u8 k]) /\
    (key h <> None -> key (ser_run (Some k) h) = key h /\ typed (ser_run (Some k) h) = typed h);
  run_done n h : (latency <= n)%nat -> sending h = true \/ wirq h = true -> wirq (Nat.iter n (ser_run None) h) = true;
  spin_done h : sending h = true \/ wirq h = true -> lser_spin_until_write latency h <> Fuel;
}.

Section facts.
Context {H : Type} {HW : SerialHw H} {HV : SerialView H} {HL : SerialLaws H}.
Implicit Types (c : con H) (s : sys H) (h : H) (u : user).

(** ** The state of the driver *)

(** The driver is busy exactly while a character is on its way or has arrived
    and nobody was told. *)
Definition card_ok (b : bool) h : Prop := b = sending h || wirq h /\ sending h && wirq h = false.

Definition is_sending u : Z := match u with Sending _ => 1 | _ => 0 end.
(** The characters that a thread has not yet given to the card. *)
Definition waiting u : list Z := match u with Wants ch | Sending ch => [ch] | _ => [] end.
Definition waiting_of (q : option nat) (l : list user) : list Z := match q with Some t => from_option waiting [] (l !! t) | None => [] end.
(** The characters of one thread. *)
Definition from (q : option nat) (l : list (option nat * Z)) : list Z := (filter (fun p => p.1 = q) l).*2.

(** The semaphore, the threads that are past it and the busy card add up to
    one; the line has the characters that were sent, and those of every
    thread were sent in the order of its calls. *)
Definition output_inv s : Prop :=
  let c := s_con s in
  ls_attached c = true /\ the_console c = true /\ card_ok (ls_wbusy c) (card c) /\
  0 <= cs_wsem c /\ cs_wsem c + tsum is_sending (users s) + Z.b2z (ls_wbusy c) = 1 /\
  line (card c) = u8 <$> (sent s).*2 /\
  forall q, from q (asked s) = from q (sent s) ++ waiting_of q (users s).

Lemma u8_u32 z : u8 (u32 z) = u8 z.
Proof. unfold u8, u32. apply Z.mod_mod_divide. by exists 16777216. Qed.

Lemma from_snoc q l q' ch : from q (l ++ [(q', ch)]) = from q l ++ (if decide (q' = q) then [ch] else []).
Proof. unfold from. rewrite list.filter_app, fmap_app. f_equal. rewrite filter_cons. cbn. by case_decide. Qed.

Lemma waiting_insert t u l q : (t < length l)%nat -> waiting_of q (<[t := u]> l) = if decide (Some t = q) then waiting u else waiting_of q l.
Proof.
  intros Ht. destruct q as [t'|]; [|by case_decide]. cbn. case_decide as Hd.
  - injection Hd as ->. by rewrite list_lookup_insert_eq.
  - by rewrite list_lookup_insert_ne by congruence.
Qed.

(** ** The operations of the serial driver *)

Lemma card_elapsed b h h' : card_ok b h -> elapsed h h' -> card_ok b h'.
Proof.
  unfold card_ok. intros [-> Hx] (_ & _ & _ & [[-> ->]|(Hs & -> & ->)]); [done|]. rewrite Hs in *. by destruct (wirq h).
Qed.

Lemma spin_spec fuel : forall h, lser_spin_until_write fuel h <> Fuel ->
  exists h', lser_spin_until_write fuel h = Ok h' /\ wirq h' = true /\ line h' = line h /\ key h' = key h /\ typed h' = typed h /\
    (sending h && wirq h = false -> sending h' = false).
Proof.
  induction fuel as [|fuel IH]; intros h Hf; [done|]. cbn [lser_spin_until_write] in *. destruct (read_wirq h) as [He Hx].
  destruct (ser_read LSER_REG_WIRQ h) as [x h1]. cbn [fst snd] in *. rewrite Hx in *. pose proof He as (Hl & Hk & Ht & Hsw). destruct (wirq h1) eqn:Hw; cbn [negb] in *.
  - exists h1. do 5 (split; [done|]). intros Hb. destruct Hsw as [[-> Hw']|(_ & -> & _)]; [|done]. rewrite <- Hw' in Hb. by destruct (sending h).
  - destruct (IH h1 Hf) as (h2 & E & Hw2 & Hl2 & Hk2 & Ht2 & Hs2). exists h2. split; [done|]. split; [done|]. rewrite Hl2, Hk2, Ht2. do 3 (split; [done|]).
    intros _. apply Hs2. rewrite Hw. apply andb_false_r.
Qed.

Lemma writepolled_spec fuel ch c : (latency <= fuel)%nat -> card_ok (ls_wbusy c) (card c) ->
  exists h, lser_writepolled fuel ch c = Ok (set_lser (ls_wbusy c) h c) /\ card_ok (ls_wbusy c) h /\ line h = line (card c) ++ [u8 ch] /\
    key h = key (card c) /\ typed h = typed (card c).
Proof.
  intros Hf [Hb Hx]. assert (forall h, sending h = true \/ wirq h = true -> lser_spin_until_write fuel h <> Fuel) as Hspin.
  { intros h Hh. pose proof (spin_done h Hh) as Hn. clear -Hf Hn. revert h Hn. revert Hf. generalize latency as n. induction fuel as [|fuel IH]; intros n Hf h Hn.
    - by assert (n = 0%nat) as -> by lia.
    - destruct n as [|n]; [done|]. cbn [lser_spin_until_write] in *. destruct (ser_read LSER_REG_WIRQ h) as [x h1]. case_match; [|done]. apply (IH n); [lia|done]. }
  unfold lser_writepolled. destruct (ls_wbusy c) eqn:Hbusy.
  - destruct (spin_spec fuel (card c)) as (h1 & -> & Hw1 & Hl1 & Hk1 & Ht1 & Hs1).
    { apply Hspin. destruct (sending (card c)); [by left|by right]. }
    rewrite !bind_Ok. destruct (write_wirq h1) as (Hl2 & Hs2 & Hw2 & Hk2 & Ht2). set (h2 := ser_write _ _ h1) in *.
    destruct (write_char (u32 ch) h2) as (Hl3 & Hs3 & Hw3 & Hk3 & Ht3); [by rewrite Hs2, Hs1|]. set (h3 := ser_write _ _ h2) in *.
    destruct (spin_spec fuel h3) as (h4 & -> & Hw4 & Hl4 & Hk4 & Ht4 & Hs4); [apply Hspin; by left|]. rewrite bind_Ok. cbn [negb]. exists h4. split; [done|].
    unfold card_ok. rewrite Hw4, Hs4 by (rewrite Hw3, Hw2; apply andb_false_r). split; [done|]. rewrite Hl4, Hl3, Hl2, Hl1, u8_u32. split; [done|]. split; congruence.
  - symmetry in Hb. apply orb_false_iff in Hb as [Hs0 Hw0]. rewrite bind_Ok.
    destruct (write_char (u32 ch) (card c) Hs0) as (Hl3 & Hs3 & Hw3 & Hk3 & Ht3). set (h3 := ser_write _ _ (card c)) in *.
    destruct (spin_spec fuel h3) as (h4 & -> & Hw4 & Hl4 & Hk4 & Ht4 & Hs4); [apply Hspin; by left|]. rewrite bind_Ok. cbn [negb].
    destruct (write_wirq h4) as (Hl5 & Hs5 & Hw5 & Hk5 & Ht5). eexists. split; [reflexivity|].
    unfold card_ok. rewrite Hw5, Hs5, Hs4 by (rewrite Hw3, Hw0; apply andb_false_r). split; [done|]. rewrite Hl5, Hl4, Hl3, u8_u32. split; [done|]. split; congruence.
Qed.

Lemma write_spec ch c : ls_wbusy c = false -> card_ok false (card c) ->
  exists h, lser_write ch c = Ok (set_lser true h c) /\ card_ok true h /\ line h = line (card c) ++ [u8 ch] /\ key h = key (card c) /\ typed h = typed (card c).
Proof.
  intros Hb [Hsw _]. symmetry in Hsw. apply orb_false_iff in Hsw as [Hs Hw]. unfold lser_write. rewrite Hb.
  destruct (write_char (u32 ch) (card c) Hs) as (Hl & Hs1 & Hw1 & Hk & Ht). eexists. split; [reflexivity|]. unfold card_ok. rewrite Hs1, Hw1, Hw, Hl, u8_u32. done.
Qed.

(** The handler tells the console that the card is ready when it is, and
    passes on the character that was typed. *)
Lemma irq_spec c : card_ok (ls_wbusy c) (card c) -> ls_attached c = true ->
  exists (done : bool) h,
    lser_irq 1 c = Ok (mk_con (if done then false else ls_wbusy c) true h (cs_rsem c + Z.b2z (bool_decide (is_Some (key (card c))))) (cs_wsem c + Z.b2z done)
      (default (cs_gotchar c) (key (card c))) (the_console c) (delayed_outbuf c) (delayed_outbuf_pos c)) /\
    card_ok (if done then false else ls_wbusy c) h /\ (done = true -> ls_wbusy c = true) /\ (wirq (card c) = true -> done = true) /\
    line h = line (card c) /\ key h = None /\ typed h = typed (card c).
Proof.
  intros Hok Ha. unfold lser_irq. change (assert (1 >? 0)) with (Ok tt). rewrite bind_Ok. destruct (read_wirq (card c)) as [He Hx]. pose proof (card_elapsed _ _ _ Hok He) as Hok1.
  destruct (ser_read LSER_REG_WIRQ (card c)) as [x h1]. cbn [fst snd] in *. rewrite Hx, negb_involutive. destruct He as (Hl1 & Hk1 & Ht1 & Hsw1).
  exists (wirq h1).
  assert (exists h2, card (if wirq h1 then set_lser false (ser_write LSER_REG_WIRQ LSER_IRQ_ENABLE h1) c else set_lser (ls_wbusy c) h1 c) = h2 /\
     card_ok (if wirq h1 then false else ls_wbusy c) h2 /\ line h2 = line (card c) /\ key h2 = key (card c) /\ typed h2 = typed (card c)) as (h2 & Hc2 & Hok2 & Hl2 & Hk2 & Ht2).
  { destruct (wirq h1) eqn:Hw1; eexists; (split; [reflexivity|]); cbn [card set_lser]; [|done]. destruct (write_wirq h1) as (Hl2 & Hs2 & Hw2 & Hk2 & Ht2).
    unfold card_ok. rewrite Hs2, Hw2, Hl2, Hk2, Ht2, orb_false_r, andb_false_r. split; [|done]. split; [|done]. destruct Hok1 as [_ Hb]. rewrite Hw1 in Hb. by destruct (sending h1). }
  rewrite Hc2. destruct (read_rirq h2) as [He2 Hx2]. pose proof (card_elapsed _ _ _ Hok2 He2) as Hok3. destruct (ser_read LSER_REG_RIRQ h2) as [x2 h3]. cbn [fst snd] in *.
  rewrite Hx2, negb_involutive, Hk2. destruct He2 as (Hl3 & Hk3 & Ht3 & _). clear Hc2 x Hx x2 Hx2.
  assert ((wirq h1 = true -> ls_wbusy c = true) /\ (wirq (card c) = true -> wirq h1 = true)) as [Hd1 Hd2].
  { split; [|by destruct Hsw1 as [[_ ->]|(_ & _ & ->)]]. intros Hw. destruct Hok1 as [-> _]. rewrite Hw. apply orb_true_r. }
  destruct (key (card c)) as [k|] eqn:Hk.
  - rewrite bool_decide_true by done. destruct (read_char h3 k) as [He4 Hch]; [congruence|]. pose proof (card_elapsed _ _ _ Hok3 He4) as Hok4.
    destruct (ser_read LSER_REG_CHAR h3) as [ch h4]. cbn [fst snd] in *. subst ch. destruct He4 as (Hl4 & Hk4 & Ht4 & _).
    destruct (write_rirq h4) as (Hl5 & Hs5 & Hw5 & Hk5 & Ht5). exists (ser_write LSER_REG_RIRQ LSER_IRQ_ENABLE h4). split.
    { rewrite i32_small by (pose proof (key_range (card c) k Hk); lia). destruct (wirq h1); unfold con_input, con_start, set_cs, set_lser; cbn; rewrite ?Ha; cbn; rewrite ?Ha, ?Z.add_0_r; done. }
    split; [by unfold card_ok; rewrite Hs5, Hw5|]. do 2 (split; [done|]). rewrite Hl5, Hl4, Hl3, Hl2, Ht5, Ht4, Ht3, Ht2. done.
  - rewrite bool_decide_false by (intros [? ?]; done). exists h3. split.
    { destruct (wirq h1); unfold con_input, con_start, set_cs, set_lser; cbn; rewrite ?Ha; cbn; rewrite ?Ha, ?Z.add_0_r; done. }
    split; [done|]. do 2 (split; [done|]). rewrite Hl3, Hl2, Hk3, Hk2, Ht3, Ht2. done.
Qed.

(** ** Schedules *)

Ltac sys_simpl := cbn [s_con users asked sent got set_user set_cs set_lser ls_wbusy ls_attached card cs_rsem cs_wsem cs_gotchar the_console] in *.

Lemma is_sending_nonneg u : 0 <= is_sending u.
Proof. by destruct u. Qed.

(** A step of thread [t] that changes neither what it has to print nor
    whether it is past the semaphore. *)
Lemma quiet_step t u u' c l a n g g' :
  l !! t = Some u -> waiting u = waiting u' -> is_sending u = is_sending u' ->
  output_inv (mk_sys c l a n g) -> output_inv (mk_sys c (<[t := u']> l) a n g').
Proof.
  intros Ht Hw Hs (Ha & Hc & Hk & H0 & H1 & Hl & Hp). unfold output_inv in *. sys_simpl. do 4 (split; [done|]). rewrite (tsum_insert is_sending l t u u' Ht), Hs. split; [lia|].
  split; [done|]. intros q. rewrite waiting_insert by (by eapply lookup_lt_Some). rewrite (Hp q). case_decide as Hq; [|done]. subst q. cbn. by rewrite Ht, <- Hw.
Qed.

Lemma inv_free t ch s : output_inv s -> users s !! t = Some (Sending ch) -> ls_wbusy (s_con s) = false.
Proof.
  intros (_ & _ & _ & H0 & H1 & _) Ht. destruct (ls_wbusy (s_con s)); [|done]. cbn in H1.
  pose proof (tsum_elem is_sending (users s) (Sending ch) is_sending_nonneg ltac:(by eapply list_elem_of_lookup_2)) as He. cbn in He. lia.
Qed.

Lemma perform_inv fuel ev s : (latency <= fuel)%nat -> output_inv s -> exists s', perform fuel ev s = Ok s' /\ output_inv s'.
Proof.
  intros Hf Hi. pose proof Hi as (Ha & Hc & Hk & H0 & H1 & Hl & Hp). destruct s as [c l a n g]. sys_simpl. destruct ev as [t ch|t|t|t|t|t|ch| |k]; cbn [perform]; sys_simpl.
  - destruct (l !! t) as [[]|] eqn:Ht; eexists; (split; [reflexivity|]); try done. do 4 (split; [done|]). sys_simpl. rewrite (tsum_insert is_sending l t _ _ Ht). split; [cbn; lia|].
    split; [done|]. intros q. rewrite from_snoc, Hp, waiting_insert, <- app_assoc by (by eapply lookup_lt_Some). f_equal. case_decide; [|apply app_nil_r]. subst q. cbn. by rewrite Ht.
  - destruct (l !! t) as [[|ch| | |]|] eqn:Ht; try (eexists; by split). rewrite Z.gtb_ltb. destruct (Z.ltb_spec 0 (cs_wsem c)); eexists; (split; [reflexivity|]); try done.
    do 3 (split; [done|]). sys_simpl. rewrite (tsum_insert is_sending l t _ _ Ht). do 2 (split; [cbn; lia|]). split; [done|]. intros q.
    rewrite Hp, waiting_insert by (by eapply lookup_lt_Some). case_decide; [|done]. subst q. cbn. by rewrite Ht.
  - destruct (l !! t) as [[| |ch| |]|] eqn:Ht; try (eexists; by split). pose proof (inv_free t ch _ Hi Ht) as Hb. cbn in Hb. rewrite Hb in *.
    destruct (write_spec ch c Hb Hk) as (h & -> & Hk' & Hl' & _). rewrite bind_Ok. eexists. split; [reflexivity|]. do 4 (split; [done|]). sys_simpl.
    rewrite (tsum_insert is_sending l t _ _ Ht). split; [cbn in *; lia|]. rewrite Hl', Hl, !fmap_app. split; [done|]. intros q.
    rewrite from_snoc, Hp, waiting_insert, <- app_assoc by (by eapply lookup_lt_Some). f_equal. case_decide; [|done]. subst q. cbn. by rewrite Ht.
  - destruct (l !! t) as [[]|] eqn:Ht; eexists; (split; [reflexivity|]); try done. by apply (quiet_step t Outside Waits c l a n g g).
  - destruct (l !! t) as [[]|] eqn:Ht; try (eexists; by split). rewrite Z.gtb_ltb. destruct (Z.ltb_spec 0 (cs_rsem c)); eexists; (split; [reflexivity|]); try done.
    by apply (quiet_step t Waits Got _ l a n g g).
  - destruct (l !! t) as [[]|] eqn:Ht; eexists; (split; [reflexivity|]); try done. by apply (quiet_step t Got Outside c l a n g).
  - unfold putch_off. rewrite Hc. cbn [negb]. destruct (writepolled_spec fuel ch c Hf Hk) as (h & -> & Hk' & Hl' & _). rewrite bind_Ok. eexists. split; [reflexivity|].
    do 5 (split; [done|]). sys_simpl. rewrite Hl', Hl, !fmap_app. split; [done|]. intros q. rewrite !from_snoc, Hp. case_decide; [subst q; cbn; by rewrite !app_nil_r|by rewrite !app_nil_r].
  - destruct (irq_spec c Hk Ha) as (d & h & -> & Hk' & Hd & _ & Hl' & _). rewrite bind_Ok. eexists. split; [reflexivity|]. do 3 (split; [done|]). sys_simpl.
    rewrite Hl'. split; [destruct d; cbn; lia|]. split; [|done]. destruct d; cbn; [rewrite (Hd eq_refl) in H1; cbn in H1|]; lia.
  - eexists. split; [reflexivity|]. do 2 (split; [done|]). sys_simpl. assert (card_ok (ls_wbusy c) (ser_run k (card c)) /\ line (ser_run k (card c)) = line (card c)) as [Hk' Hl'].
    { destruct k as [k|]; [|pose proof (run_idle (card c)) as He; split; [by eapply card_elapsed|apply He]].
      destruct (run_key k (card c)) as (Hl' & Hs & Hw & _). unfold card_ok in *. by rewrite Hs, Hw. }
    rewrite Hl'. done.
Qed.

Lemma exec_inv fuel evs : forall s, (latency <= fuel)%nat -> output_inv s -> exists s', exec fuel evs s = Ok s' /\ output_inv s'.
Proof.
  induction evs as [|ev evs IH]; intros s Hf Hi; [by exists s|]. destruct (perform_inv fuel ev s Hf Hi) as (s1 & E & Hi1). cbn. rewrite E, bind_Ok. by apply IH.
Qed.

(** ** Every character gets out *)

Lemma exec_events_app fuel evs evs' : forall s s', exec fuel evs s = Ok s' -> exec fuel (evs ++ evs') s = exec fuel evs' s'.
Proof.
  induction evs as [|ev evs IH]; intros s s' E; [by injection E as ->|]. cbn in *. destruct (perform fuel ev s) as [s1| | |]; try done. by apply IH.
Qed.

Lemma exec_run fuel n : forall s, exec fuel (replicate n (Run None)) s =
  Ok (mk_sys (set_lser (ls_wbusy (s_con s)) (Nat.iter n (ser_run None) (card (s_con s))) (s_con s)) (users s) (asked s) (sent s) (got s)).
Proof.
  induction n as [|n IH]; intros s; [by destruct s as [[] ? ? ? ?]|]. cbn [replicate exec perform]. rewrite bind_Ok, IH. sys_simpl. by rewrite Nat.iter_succ_r.
Qed.

Lemma run_elapsed n h : line (Nat.iter n (ser_run None) h) = line h /\ key (Nat.iter n (ser_run None) h) = key h /\ typed (Nat.iter n (ser_run None) h) = typed h.
Proof.
  induction n as [|n IH]; [done|]. rewrite Nat.iter_succ. destruct (run_idle (Nat.iter n (ser_run None) h)) as (H1 & H2 & H3 & _). by rewrite H1, H2, H3.
Qed.

(** After the next interrupt the card can be written to. *)
Lemma free_up fuel s : (latency <= fuel)%nat -> output_inv s ->
  exists c, exec fuel (replicate fuel (Run None) ++ [Irq]) s = Ok (mk_sys c (users s) (asked s) (sent s) (got s)) /\ ls_wbusy c = false /\
    line (card c) = line (card (s_con s)) /\ key (card c) = None /\ typed (card c) = typed (card (s_con s)) /\
    cs_rsem c = cs_rsem (s_con s) + Z.b2z (bool_decide (is_Some (key (card (s_con s))))).
Proof.
  intros Hf Hi. pose proof (exec_run fuel fuel s) as E. destruct (exec_inv fuel (replicate fuel (Run None)) s Hf Hi) as (s1 & E1 & Hi1). rewrite E in E1. injection E1 as <-.
  destruct (run_elapsed fuel (card (s_con s))) as (Hl & Hk' & Ht). pose proof Hi as (Ha & _ & [Hb _] & _). destruct Hi1 as (_ & _ & Hk1 & _). rewrite (exec_events_app _ _ _ _ _ E). cbn [exec perform s_con users asked sent got].
  destruct (irq_spec (set_lser (ls_wbusy (s_con s)) (Nat.iter fuel (ser_run None) (card (s_con s))) (s_con s)) Hk1 Ha) as (d & h & -> & Hk2 & _ & Hd & Hl2 & Hkey2 & Ht2). sys_simpl. rewrite Hk', bind_Ok, bind_Ok. eexists. split; [reflexivity|]. sys_simpl.
  rewrite Hl2, Hl, Ht2, Ht. split; [|done]. destruct d; [done|]. destruct (ls_wbusy (s_con s)); [|done].
  exfalso. assert (false = true); [|done]. apply Hd, run_done; [done|]. destruct (sending (card (s_con s))); [by left|by right].
Qed.

Definition is_waiting u : Z := match u with Wants _ | Sending _ => 1 | _ => 0 end.
(** The threads that have a character to send. *)
Definition pending s : Z := tsum is_waiting (users s).

Lemma is_waiting_nonneg u : 0 <= is_waiting u.
Proof. by destruct u. Qed.

(** A thread that is past the semaphore can send. *)
Lemma send_one fuel t ch s : output_inv s -> users s !! t = Some (Sending ch) ->
  exists s', exec fuel [Send t] s = Ok s' /\ asked s' = asked s /\ pending s' = pending s - 1.
Proof.
  intros Hi Ht. pose proof (inv_free t ch s Hi Ht) as Hb. destruct Hi as (_ & _ & Hk & _). rewrite Hb in Hk. destruct (write_spec ch (s_con s) Hb Hk) as (h & E & _).
  cbn [exec perform]. rewrite Ht, E. eexists. split; [reflexivity|]. split; [done|]. unfold pending. sys_simpl. rewrite (tsum_insert _ _ _ _ _ Ht). cbn. lia.
Qed.

Lemma drain_one fuel s : (latency <= fuel)%nat -> output_inv s -> 0 < pending s ->
  exists evs s', exec fuel evs s = Ok s' /\ output_inv s' /\ asked s' = asked s /\ pending s' = pending s - 1.
Proof.
  intros Hf Hi Hp. assert ((exists t ch, users s !! t = Some (Sending ch)) \/ tsum is_sending (users s) = 0) as [(t & ch & Ht)|Hz].
  { destruct (Z.lt_decidable 0 (tsum is_sending (users s))) as [Hpos|Hn].
    - apply tsum_pos in Hpos as (t & u & Ht & Hu); [|apply is_sending_nonneg]. left. destruct u; try done. by exists t, ch.
    - right. pose proof (tsum_nonneg is_sending (users s) is_sending_nonneg). lia. }
  - destruct (send_one fuel t ch s Hi Ht) as (s' & E & Ha & Hn). destruct (exec_inv fuel [Send t] s Hf Hi) as (s2 & E2 & Hi2). rewrite E in E2. injection E2 as <-.
    by exists [Send t], s'.
  - destruct (free_up fuel s Hf Hi) as (c & E1 & Hb & _). destruct (exec_inv fuel (replicate fuel (Run None) ++ [Irq]) s Hf Hi) as (s1 & E1' & Hi1). rewrite E1 in E1'. injection E1' as E1'.
    assert (users s1 = users s /\ asked s1 = asked s /\ ls_wbusy (s_con s1) = false) as (Hu & Ha & Hb1) by (by rewrite <- E1'). rewrite E1' in E1. clear E1' Hb. rename Hb1 into Hb. destruct (tsum_pos is_waiting (users s) is_waiting_nonneg Hp) as (t & u & Ht & Hw).
    assert (exists ch, users s1 !! t = Some (Wants ch)) as [ch Ht1].
    { rewrite Hu, Ht. destruct u; try done; [by exists ch|]. pose proof (tsum_elem is_sending (users s) _ is_sending_nonneg (list_elem_of_lookup_2 _ _ _ Ht)) as He. cbn in He. lia. }
    pose proof Hi1 as (_ & _ & _ & H0 & H1 & _). rewrite Hb, Hu, Hz in H1. cbn in H1.
    destruct (perform_inv fuel (TakeW t) s1 Hf Hi1) as (s2 & E2 & Hi2). assert (users s2 !! t = Some (Sending ch) /\ asked s2 = asked s1 /\ pending s2 = pending s1) as (Ht2 & Ha2 & Hp2).
    { cbn [perform] in E2. rewrite Ht1, Z.gtb_ltb in E2. destruct (Z.ltb_spec 0 (cs_wsem (s_con s1))); [|lia]. injection E2 as <-. sys_simpl. unfold pending. sys_simpl.
      rewrite list_lookup_insert_eq by (by eapply lookup_lt_Some). split; [done|]. split; [done|]. rewrite (tsum_insert _ _ _ _ _ Ht1). cbn. lia. }
    destruct (send_one fuel t ch s2 Hi2 Ht2) as (s3 & E3 & Ha3 & Hp3). destruct (exec_inv fuel [Send t] s2 Hf Hi2) as (s4 & E4 & Hi4). rewrite E3 in E4. injection E4 as <-.
    exists ((replicate fuel (Run None) ++ [Irq]) ++ [TakeW t; Send t]), s3. split.
    { rewrite (exec_events_app _ _ _ _ _ E1). change (exec fuel [TakeW t; Send t] s1) with (perform fuel (TakeW t) s1 ≫= exec fuel [Send t]). by rewrite E2, bind_Ok. }
    split; [done|]. split; [congruence|]. unfold pending in *. rewrite Hu in Hp2. lia.
Qed.

Lemma drain fuel n : forall s, (latency <= fuel)%nat -> output_inv s -> pending s = Z.of_nat n ->
  exists evs s', exec fuel evs s = Ok s' /\ output_inv s' /\ asked s' = asked s /\ pending s' = 0.
Proof.
  induction n as [|n IH]; intros s Hf Hi Hn; [by exists [], s|]. destruct (drain_one fuel s Hf Hi) as (evs & s1 & E1 & Hi1 & Ha1 & Hp1); [lia|].
  destruct (IH s1 Hf Hi1) as (evs' & s2 & E2 & Hi2 & Ha2 & Hp2); [lia|]. exists (evs ++ evs'), s2. rewrite (exec_events_app _ _ _ _ _ E1). by rewrite Ha2.
Qed.

(** ** Input *)

Definition is_got u : Z := match u with Got => 1 | _ => 0 end.
(** The characters that were typed and that no thread has returned yet: in
    the card, in [cs_gotchar], or with a thread about to read [cs_gotchar]. *)
Definition unread s : Z := Z.b2z (bool_decide (is_Some (key (card (s_con s))))) + cs_rsem (s_con s) + tsum is_got (users s).

(** Nobody types before the last character was returned. *)
Fixpoint slow (fuel : nat) (evs : list event) s : Prop :=
  match evs with
  | [] => True
  | ev :: evs =>
      match ev with Run (Some _) => unread s = 0 | _ => True end /\
      match perform fuel ev s with Ok s => slow fuel evs s | _ => False end
  end.

Definition input_inv s : Prop :=
  let c := s_con s in
  0 <= cs_rsem c /\ unread s <= 1 /\
  typed (card c) = got s ++ match key (card c) with Some k => [k] | None => if cs_rsem c + tsum is_got (users s) =? 0 then [] else [cs_gotchar c] end.

Lemma is_got_nonneg u : 0 <= is_got u.
Proof. by destruct u. Qed.

(** A step of a thread that has nothing to do with input. *)
Lemma input_other t u u' c c' l a a' n n' g :
  l !! t = Some u -> is_got u = 0 -> is_got u' = 0 -> cs_rsem c' = cs_rsem c -> cs_gotchar c' = cs_gotchar c ->
  key (card c') = key (card c) -> typed (card c') = typed (card c) ->
  input_inv (mk_sys c l a n g) -> input_inv (mk_sys c' (<[t := u']> l) a' n' g).
Proof.
  intros Ht Hu Hu' Hr Hg Hk Hty. unfold input_inv, unread. sys_simpl. rewrite (tsum_insert is_got l t u u' Ht), Hr, Hg, Hk, Hty, Hu, Hu', Z.sub_0_r, Z.add_0_r. done.
Qed.

Lemma input_take t c l a n g :
  l !! t = Some Waits -> 0 < cs_rsem c -> input_inv (mk_sys c l a n g) -> input_inv (set_user t Got (set_cs (cs_rsem c - 1) (cs_wsem c) (cs_gotchar c) c) (mk_sys c l a n g)).
Proof.
  intros Ht Hr. unfold input_inv, unread. sys_simpl. rewrite (tsum_insert is_got l t Waits Got Ht). cbn [is_got]. intros (H0 & H1 & Hty).
  split; [lia|]. split; [lia|]. rewrite Hty. replace (cs_rsem c - 1 + (tsum is_got l - 0 + 1)) with (cs_rsem c + tsum is_got l) by lia. done.
Qed.

Lemma input_read t c l a n g :
  l !! t = Some Got -> input_inv (mk_sys c l a n g) -> input_inv (mk_sys c (<[t := Outside]> l) a n (g ++ [cs_gotchar c])).
Proof.
  intros Ht. unfold input_inv, unread. sys_simpl. rewrite (tsum_insert is_got l t Got Outside Ht). cbn [is_got]. intros (H0 & H1 & Hty).
  pose proof (tsum_elem is_got l Got is_got_nonneg (list_elem_of_lookup_2 _ _ _ Ht)) as He. cbn in He.
  destruct (key (card c)) as [k|] eqn:Hk; [rewrite bool_decide_true in H1 by done; cbn in H1; lia|]. rewrite bool_decide_false in * by (intros [? ?]; done). cbn in H1 |- *.
  split; [done|]. split; [lia|]. rewrite Hty. destruct (Z.eqb_spec (cs_rsem c + tsum is_got l) 0); [lia|]. destruct (Z.eqb_spec (cs_rsem c + (tsum is_got l - 1 + 0)) 0); [|lia].
  by rewrite app_nil_r.
Qed.

Lemma input_card h b c l a a' n n' g : key h = key (card c) -> typed h = typed (card c) -> input_inv (mk_sys c l a n g) -> input_inv (mk_sys (set_lser b h c) l a' n' g).
Proof. intros Hk Ht. unfold input_inv, unread. sys_simpl. by rewrite Hk, Ht. Qed.

Lemma perform_input fuel ev s s' : (latency <= fuel)%nat -> output_inv s -> input_inv s ->
  match ev with Run (Some _) => unread s = 0 | _ => True end -> perform fuel ev s = Ok s' -> input_inv s'.
Proof.
  intros Hf Ho Hi Hs E. destruct s as [c l a n g]. pose proof Ho as (Ha & Hc & Hk & _). sys_simpl. destruct ev as [t ch|t|t|t|t|t|ch| |k]; cbn [perform] in E; sys_simpl.
  - destruct (l !! t) as [[]|] eqn:Ht; injection E as <-; try done. by apply (input_other t Outside (Wants ch) c c l a _ n n g).
  - destruct (l !! t) as [[|ch| | |]|] eqn:Ht; try (by injection E as <-). destruct (cs_wsem c >? 0); injection E as <-; [|done]. by apply (input_other t (Wants ch) (Sending ch) c _ l a a n _ g).
  - destruct (l !! t) as [[| |ch| |]|] eqn:Ht; try (by injection E as <-). pose proof (inv_free t ch _ Ho Ht) as Hb. sys_simpl. rewrite Hb in Hk.
    destruct (write_spec ch c Hb Hk) as (h & E1 & _ & _ & Hk1 & Ht1). rewrite E1 in E. injection E as <-. by apply (input_other t (Sending ch) Outside c _ l a a n _ g).
  - destruct (l !! t) as [[]|] eqn:Ht; injection E as <-; try done. by apply (input_other t Outside Waits c c l a a n n g).
  - destruct (l !! t) as [[]|] eqn:Ht; try (by injection E as <-). rewrite Z.gtb_ltb in E. destruct (Z.ltb_spec 0 (cs_rsem c)); injection E as <-; [|done]. by apply input_take.
  - destruct (l !! t) as [[]|] eqn:Ht; injection E as <-; try done. by apply input_read.
  - unfold putch_off in E. rewrite Hc in E. cbn [negb] in E. destruct (writepolled_spec fuel ch c Hf Hk) as (h & E1 & _ & _ & Hk1 & Ht1). rewrite E1 in E. injection E as <-. by apply (input_card h _ c l a _ n).
  - destruct (irq_spec c Hk Ha) as (d & h & E1 & _ & _ & _ & _ & Hk1 & Ht1). rewrite E1 in E. injection E as <-. destruct Hi as (H0 & H1 & Hty). unfold input_inv, unread in *. sys_simpl.
    rewrite Hk1, Ht1, Hty. pose proof (tsum_nonneg is_got l is_got_nonneg). destruct (key (card c)) as [k|] eqn:Hkey.
    + rewrite bool_decide_true in * by done. rewrite bool_decide_false by (intros [? ?]; done). cbn in *. do 2 (split; [lia|]). destruct (Z.eqb_spec (cs_rsem c + 1 + tsum is_got l) 0); [lia|done].
    + rewrite !bool_decide_false in * by (intros [? ?]; done). cbn in *. rewrite Z.add_0_r. done.
  - injection E as <-. destruct k as [k|]; [|destruct (run_idle (card c)) as (_ & Hk1 & Ht1 & _); by apply (input_card _ _ c l a _ n)].
    destruct (run_key k (card c)) as (_ & _ & _ & Hn & _). destruct Hi as (H0 & H1 & Hty). unfold input_inv, unread in *. sys_simpl. pose proof (tsum_nonneg is_got l is_got_nonneg).
    destruct (key (card c)) as [k'|]; [rewrite bool_decide_true in Hs by done; cbn in Hs; lia|]. destruct (Hn eq_refl) as [-> ->]. rewrite bool_decide_true by done.
    rewrite !bool_decide_false in * by (intros [? ?]; done). cbn in *. do 2 (split; [lia|]). rewrite Hty. destruct (Z.eqb_spec (cs_rsem c + tsum is_got l) 0); [|lia]. by rewrite app_nil_r.
Qed.

Lemma exec_input fuel evs : forall s s', (latency <= fuel)%nat -> output_inv s -> input_inv s -> slow fuel evs s -> exec fuel evs s = Ok s' -> input_inv s'.
Proof.
  induction evs as [|ev evs IH]; intros s s' Hf Ho Hi Hs E; [by injection E as <-|]. destruct (perform_inv fuel ev s Hf Ho) as (s1 & E1 & Ho1). destruct Hs as [Hev Hs].
  cbn in E. rewrite E1 in E, Hs. apply (IH s1 s'); try done. by apply (perform_input fuel ev s s1).
Qed.

(** ** Before there is a console *)

(** putch() of a list of characters, with interrupts off. *)
Fixpoint puts (fuel : nat) (l : list Z) c : res (con H) :=
  match l with
  | [] => Ok c
  | ch :: l => c ← putch_off fuel ch c; puts fuel l c
  end.

Lemma puts_delayed fuel l : forall pre c rest,
  the_console c = false -> delayed_outbuf c = pre ++ rest -> delayed_outbuf_pos c = Z.of_nat (length pre) ->
  length (pre ++ rest) = 1024%nat -> (length l <= length rest)%nat ->
  puts fuel l c = Ok (set_delayed (pre ++ (u8 <$> l) ++ drop (length l) rest) (Z.of_nat (length pre + length l)) c).
Proof.
  induction l as [|ch l IH]; intros pre c rest Hn Hb Hp Hlen Hl.
  { cbn. destruct c. cbn in *. subst. by rewrite Nat.add_0_r. }
  destruct rest as [|x rest]; [cbn in Hl; lia|]. cbn [puts]. unfold putch_off. rewrite Hn. cbn [negb]. unfold putch_delayed. rewrite Hp, Hb. rewrite length_app in Hlen. cbn in Hlen, Hl.
  rewrite (assert_true (_ <? _)) by (apply Z.ltb_lt; unfold DELAYBUFSIZE; lia). rewrite bind_Ok, store_in_range by (rewrite length_app; cbn; lia). rewrite !bind_Ok, Nat2Z.id.
  rewrite (insert_app_r_alt pre), Nat.sub_diag by lia. cbn [insert list_insert]. rewrite (IH (pre ++ [u8 ch]) _ rest); cbn; rewrite ?length_app; cbn; [|done| | |lia|lia].
  - unfold set_delayed. cbn. do 2 f_equal; [|lia]. by rewrite <- app_assoc.
  - by rewrite <- app_assoc.
  - lia.
Qed.

Lemma u8_schar x : 0 <= x < 256 -> u8 (schar x) = x.
Proof.
  intros Hx. unfold schar, u8. destruct (Z.ltb_spec x 128); [apply Z.mod_small; lia|]. rewrite <- (Z_mod_plus_full _ 1), Z.mod_small; lia.
Qed.

Lemma flush_spec fuel n : forall i c, (latency <= fuel)%nat -> the_console c = true -> card_ok (ls_wbusy c) (card c) ->
  (i + n <= length (delayed_outbuf c))%nat -> Forall (fun x => 0 <= x < 256) (delayed_outbuf c) ->
  exists h, flush_loop n fuel (Z.of_nat i) c = Ok (set_lser (ls_wbusy c) h c) /\ card_ok (ls_wbusy c) h /\
    line h = line (card c) ++ slice (delayed_outbuf c) i n /\ key h = key (card c) /\ typed h = typed (card c).
Proof.
  induction n as [|n IH]; intros i c Hf Ht Hk Hi Hr.
  { exists (card c). destruct c. unfold slice. cbn. by rewrite app_nil_r. }
  cbn [flush_loop]. destruct (load_in_range (delayed_outbuf c) (Z.of_nat i)) as (x & -> & Hx); [lia|]. rewrite Nat2Z.id in Hx. rewrite bind_Ok. unfold putch_off. rewrite Ht. cbn [negb].
  destruct (writepolled_spec fuel (schar x) c Hf Hk) as (h & -> & Hk1 & Hl1 & Hkey1 & Hty1). rewrite bind_Ok. replace (Z.of_nat i + 1) with (Z.of_nat (S i)) by lia.
  destruct (IH (S i) (set_lser (ls_wbusy c) h c) Hf Ht Hk1 ltac:(cbn; lia) Hr) as (h2 & -> & Hk2 & Hl2 & Hkey2 & Hty2). exists h2. cbn [card set_lser delayed_outbuf ls_wbusy] in *.
  split; [done|]. split; [done|]. split; [|split; congruence]. rewrite Hl2, Hl1, <- app_assoc. f_equal. unfold slice. rewrite u8_schar by (by eapply Forall_lookup_1 in Hr).
  by rewrite (drop_S _ _ _ Hx).
Qed.

(** The state of the driver when the kernel starts. *)
Definition fresh c : Prop :=
  the_console c = false /\ length (delayed_outbuf c) = 1024%nat /\ Forall (fun x => 0 <= x < 256) (delayed_outbuf c) /\ delayed_outbuf_pos c = 0 /\
  sending (card c) = false /\ line (card c) = [] /\ typed (card c) = [].

(** What was printed before the console is found is printed then. *)
Lemma boot_spec fuel l c : (latency <= fuel)%nat -> fresh c -> (length l <= 1024)%nat ->
  exists c1 c2, puts fuel l c = Ok c1 /\ config_con fuel 0 (fun _ => true) 0 (attach_con_to_lser (config_lser c1)) = Ok (0, c2) /\
    forall n, output_inv (mk_sys c2 (replicate n Outside) (pair None <$> l) (pair None <$> l) []) /\ input_inv (mk_sys c2 (replicate n Outside) (pair None <$> l) (pair None <$> l) []).
Proof.
  intros Hf (Hn & Hlen & Hr & Hp & Hs & Hl & Ht) Hle. set (buf := (u8 <$> l) ++ drop (length l) (delayed_outbuf c)). exists (set_delayed buf (Z.of_nat (length l)) c).
  pose proof (puts_delayed fuel l [] c (delayed_outbuf c) Hn eq_refl Hp Hlen ltac:(lia)) as E. rewrite E. cbn [app length Nat.add].
  unfold config_con. cbn [Z.gtb Z.compare the_console attach_con_to_lser config_lser set_lser set_delayed ls_wbusy ls_attached card delayed_outbuf delayed_outbuf_pos]. rewrite Hn. cbn [negb assert andb].
  destruct (write_rirq (card c)) as (Hl1 & Hs1 & _ & Hk1 & Ht1). set (h1 := ser_write _ _ (card c)) in *. destruct (write_wirq h1) as (Hl2 & Hs2 & Hw2 & Hk2 & Ht2). set (h2 := ser_write _ _ h1) in *.
  assert (length buf = 1024%nat) as Hbuf by (unfold buf; rewrite length_app, length_fmap, length_drop; lia).
  rewrite bind_Ok. cbn [negb]. unfold flush_delay_buf. cbn [delayed_outbuf_pos]. rewrite Nat2Z.id.
  destruct (flush_spec fuel (length l) 0 (mk_con false true h2 0 1 0 true buf (Z.of_nat (length l))) Hf eq_refl) as (h3 & E3 & Hk3 & Hl3 & Hkey3 & Hty3).
  { cbn. unfold card_ok. by rewrite Hs2, Hs1, Hs, Hw2. }
  { cbn. lia. }
  { cbn. unfold buf. apply Forall_app. split; [|by apply Forall_drop]. apply Forall_fmap, Forall_true. intros x. apply u8_range. }
  change (Z.of_nat 0) with 0 in E3. rewrite E3, !bind_Ok. eexists. split; [done|]. split; [reflexivity|]. cbn [card delayed_outbuf ls_wbusy set_lser] in *. intros n.
  assert (forall f : user -> Z, f Outside = 0 -> tsum f (replicate n Outside) = 0) as Hz by (intros f Hf0; apply tsum_zero; intros u Hu; apply elem_of_replicate in Hu as [-> _]; done).
  split.
  - do 3 (split; [done|]). sys_simpl. cbn [set_delayed set_lser cs_wsem ls_wbusy card]. rewrite Hz by done. do 2 (split; [done|]). split.
    + rewrite Hl3, Hl2, Hl1, Hl. unfold slice, buf. rewrite drop_0, take_app_length' by (by rewrite length_fmap). cbn. rewrite <- !list_fmap_compose. by apply list_fmap_ext.
    + intros [t|]; cbn [waiting_of]; [|by rewrite app_nil_r]. destruct (replicate n Outside !! t) eqn:Hu; cbn; [|by rewrite app_nil_r].
      apply lookup_replicate in Hu as [-> _]. cbn. by rewrite app_nil_r.
  - unfold input_inv, unread. sys_simpl. cbn [set_delayed set_lser card cs_rsem cs_gotchar]. rewrite Hz, Hkey3, Hk2, Hk1, Hty3, Ht2, Ht1, Ht by done. cbn. done.
Qed.
End facts.

Lemma pending_none {H : Type} `{!SerialHw H} (s : sys H) q : pending s = 0 -> waiting_of q (users s) = [].
Proof.
  intros Hp. destruct q as [t|]; [|done]. cbn. destruct (users s !! t) as [u|] eqn:Ht; [|done]. cbn.
  pose proof (tsum_elem is_waiting (users s) u is_waiting_nonneg (list_elem_of_lookup_2 _ _ _ Ht)) as He. unfold pending in Hp. destruct u; cbn in *; (done || lia).
Qed.

(** C19. The console loses no output and, from a patient typist, no input.
    What is printed before the console is configured comes out when it is.
    From then on, whatever any number of threads print and read, whatever
    interrupt handlers print by polling and whenever the card interrupts: the
    serial driver never panics with the card busy, the line carries exactly
    the characters sent, those of each thread in the order of its calls, and
    from every state all that was asked for can still get out.  If nobody
    types before the last character was read, getch() returns the typed
    characters in order. *)
Theorem console_exact {H : Type} {HW : SerialHw H} {HV : SerialView H} {HL : SerialLaws H} fuel l (c : con H) :
  (latency <= fuel)%nat -> fresh c -> (length l <= 1024)%nat ->
  exists c1 c2, puts fuel l c = Ok c1 /\ config_con fuel 0 (fun _ => true) 0 (attach_con_to_lser (config_lser c1)) = Ok (0, c2) /\
    forall n evs, let s0 := mk_sys c2 (replicate n Outside) (pair None <$> l) (pair None <$> l) [] in
      exists s, exec fuel evs s0 = Ok s /\
        line (card (s_con s)) = u8 <$> (sent s).*2 /\ (forall q, from q (sent s) `prefix_of` from q (asked s)) /\
        (slow fuel evs s0 -> got s `prefix_of` typed (card (s_con s))) /\
        exists evs' s', exec fuel evs' s = Ok s' /\ asked s' = asked s /\ line (card (s_con s')) = u8 <$> (sent s').*2 /\ forall q, from q (sent s') = from q (asked s).
Proof.
  intros Hf Hc Hl. destruct (boot_spec fuel l c Hf Hc Hl) as (c1 & c2 & E1 & E2 & Hi). exists c1, c2. do 2 (split; [done|]). intros n evs s0. destruct (Hi n) as [Ho Hin].
  destruct (exec_inv fuel evs s0 Hf Ho) as (s & E & Hos). exists s. split; [done|]. pose proof Hos as (_ & _ & _ & _ & _ & Hline & Hq). split; [done|].
  split; [intros q; rewrite Hq; by eexists|]. split.
  { intros Hs. destruct (exec_input fuel evs s0 s Hf Ho Hin Hs E) as (_ & _ & ->). by eexists. }
  destruct (drain fuel (Z.to_nat (pending s)) s Hf Hos) as (evs' & s' & E' & (_ & _ & _ & _ & _ & Hline' & Hq') & Ha & Hp).
  { rewrite Z2Nat.id; [done|apply tsum_nonneg, is_waiting_nonneg]. }
  exists evs', s'. do 3 (split; [done|]). intros q. by rewrite <- Ha, Hq', (pending_none s' q Hp), app_nil_r.
Qed.

(** ** A card *)

(** A character takes two units of time; so does every look at a register
    take one. *)
Inductive phase : Type := Ready | First | Second.
Record uart : Type := mk_uart { u_line : list Z; u_phase : phase; u_wirq : bool; u_key : option Z; u_typed : list Z }.

Definition tick (h : uart) : uart :=
  match u_phase h with
  | Ready => h
  | First => mk_uart (u_line h) Second (u_wirq h) (u_key h) (u_typed h)
  | Second => mk_uart (u_line h) Ready true (u_key h) (u_typed h)
  end.

Global Instance uart_hw : SerialHw uart := {
  ser_read reg h :=
    let h := tick h in
    (if reg =? LSER_REG_WIRQ then if u_wirq h then 3 else 1
     else if reg =? LSER_REG_RIRQ then if u_key h is Some _ then 3 else 1 else u8 (default 0 (u_key h)), h);
  ser_write reg val h :=
    if reg =? LSER_REG_WIRQ then mk_uart (u_line h) (u_phase h) false (u_key h) (u_typed h)
    else if reg =? LSER_REG_RIRQ then mk_uart (u_line h) (u_phase h) (u_wirq h) None (u_typed h)
    else mk_uart (u_line h ++ [u8 val]) First (u_wirq h) (u_key h) (u_typed h);
  ser_run k h :=
    match k, u_key h with
    | None, _ => tick h
    | Some k, None => mk_uart (u_line h) (u_phase h) (u_wirq h) (Some k) (u_typed h ++ [u8 k])
    | Some _, Some _ => h
    end;
}.

Global Instance uart_view : SerialView uart := {
  line := u_line;
  sending h := match u_phase h with Ready => false | _ => true end;
  wirq := u_wirq;
  key h := u8 <$> u_key h;
  typed := u_typed;
}.

Lemma tick_elapsed h : elapsed h (tick h).
Proof. destruct h as [l [] w k t]; unfold elapsed; cbn; auto 10. Qed.

Global Program Instance uart_laws : SerialLaws uart := { latency := 3 }.
Next Obligation. intros h. split; [apply tick_elapsed|]. cbn. by destruct (u_wirq (tick h)). Qed.
Next Obligation. intros h. split; [apply tick_elapsed|]. destruct h as [l [] w [k|] t]; done. Qed.
Next Obligation. intros [l p w k' t] k Hk. split; [apply tick_elapsed|]. destruct k'; [|done]. cbn in Hk. injection Hk as <-. by destruct p. Qed.
Next Obligation. intros h k Hk. cbn in Hk. destruct (u_key h); [|done]. injection Hk as <-. apply u8_range. Qed.
Next Obligation. done. Qed.
Next Obligation. done. Qed.
Next Obligation. done. Qed.
Next Obligation. apply tick_elapsed. Qed.
Next Obligation. intros k [l p w [k'|] t]; cbn; repeat split; done. Qed.
Next Obligation.
  intros n h Hn Hs. assert (n = (n - 3) + 3)%nat as -> by lia. rewrite Nat.iter_add. assert (exists l k t, Nat.iter 3 (ser_run None) h = mk_uart l Ready true k t) as (l & k & t & ->).
  { destruct h as [l [] [] k t]; cbn in *; try (by eexists _, _, _); by destruct Hs. }
  assert (forall m, Nat.iter m (ser_run None) (mk_uart l Ready true k t) = mk_uart l Ready true k t) as ->; [|done].
  intros m. induction m as [|m IH]; [done|]. by rewrite Nat.iter_succ, IH.
Qed.
Next Obligation. intros [l [] [] k t] [Hs|Hs]; done. Qed.

Definition uart_off : con uart := mk_con false false (mk_uart [] Ready false None []) 0 0 0 false (replicate 1024 0) 0.

Lemma console_exact_witness :
  exists c1 c2, puts 3 [72; 105] uart_off = Ok c1 /\ config_con 3 0 (fun _ => true) 0 (attach_con_to_lser (config_lser c1)) = Ok (0, c2) /\
    forall n evs, let s0 := mk_sys c2 (replicate n Outside) (pair None <$> [72; 105]) (pair None <$> [72; 105]) [] in
      exists s, exec 3 evs s0 = Ok s /\
        line (card (s_con s)) = u8 <$> (sent s).*2 /\ (forall q, from q (sent s) `prefix_of` from q (asked s)) /\
        (slow 3 evs s0 -> got s `prefix_of` typed (card (s_con s))) /\
        exists evs' s', exec 3 evs' s = Ok s' /\ asked s' = asked s /\ line (card (s_con s')) = u8 <$> (sent s').*2 /\ forall q, from q (sent s') = from q (asked s).
Proof.
  apply (console_exact 3 [72; 105] uart_off); [done| |cbn; lia]. do 2 (split; [done|]). split; [|done]. apply Forall_replicate. lia.
Defined.

(** The comment of console.c says that characters typed too rapidly are lost.
    The semaphore counts them all the same: when two characters are typed
    before the first is read, getch() returns the second one twice. *)
Lemma fast_typing_duplicates :
  exists c1 c2 s, puts 3 [] uart_off = Ok c1 /\ config_con 3 0 (fun _ => true) 0 (attach_con_to_lser (config_lser c1)) = Ok (0, c2) /\
    exec 3 [Run (Some 97); Irq; Run (Some 98); Irq; Getch 0; TakeR 0; Read 0; Getch 0; TakeR 0; Read 0] (mk_sys c2 [Outside] [] [] []) = Ok s /\
    typed (card (s_con s)) = [97; 98] /\ got s = [98; 98].
Proof. do 3 eexists. split; [reflexivity|]. split; [vm_compute; reflexivity|]. split; [vm_compute; reflexivity|]. by vm_compute. Qed.
