(* ===== verification/Trap.v ===== *)
(** * Exceptions and system calls

    kern/arch/mips/mips/trap.c, interrupt.c and syscall.c: what happens
    between the assembly code that saves the registers and the one that
    restores them.  [sys_reboot] is of kern/main/main.c and [sys_exit] of
    kern/userprog/syscall_delegation.c. *)
From stdpp Require Import base numbers list option gmap.
From S2P Require Import Prelude Ram DumbVm DumbVmSpec PidManager Lamebus.
Local Open Scope Z_scope.

(** ** trapframe.h

    The frame is its 37 words. *)
Definition trapframe : Type := list Z.
Definition TF_VADDR : nat := 0.
Definition TF_STATUS : nat := 1.
Definition TF_CAUSE : nat := 2.
Definition TF_V0 : nat := 7.
Definition TF_A0 : nat := 9.
Definition TF_A1 : nat := 10.
Definition TF_A3 : nat := 12.
Definition TF_SP : nat := 34.
Definition TF_EPC : nat := 36.
Definition tf_get (tf : trapframe) (r : nat) : Z := default 0 ((tf : list Z) !! r).
Definition tf_set (r : nat) (v : Z) (tf : trapframe) : trapframe := <[r := v]> (tf : list Z).

Definition EX_IRQ : Z := 0.
Definition EX_MOD : Z := 1.
Definition EX_TLBL : Z := 2.
Definition EX_TLBS : Z := 3.
Definition EX_IBE : Z := 6.
Definition EX_DBE : Z := 7.
Definition EX_SYS : Z := 8.
Definition NTRAPCODES : Z := 13.
Definition CST_IEp : Z := 0x4.
Definition CST_KUp : Z := 0x8.
Definition CST_IRQMASK : Z := 0xff00.
Definition CCA_CODE : Z := 0x3c.
Definition CCA_CODESHIFT : Z := 2.
Definition LAMEBUS_IRQ_BIT : Z := 0x400.
Definition STACK_SIZE : Z := 4096.
Definition STACK_MASK : Z := 0xfffff000.
Definition SAME_STACK (p1 p2 : Z) : bool := Z.land p1 STACK_MASK =? Z.land p2 STACK_MASK.

Definition SYS__exit : Z := 0.
Definition SYS_reboot : Z := 8.
Definition SYS_getpid : Z := 11.
Definition RB_REBOOT : Z := 0.
Definition RB_HALT : Z := 1.
Definition RB_POWEROFF : Z := 2.

Section trap.
Context {W : Type} `{!BusHw W}.

(** [k_as], [k_bad], [k_stack] and [k_pid] are fields of the current thread:
    [t_vmspace], [t_pcb.pcb_badfaultfunc], [t_stack] and [pid]. *)
Record kern : Type := mk_kern {
  k_m : machine;
  k_as : option addrspace;
  k_bad : Z;
  k_stack : Z;
  curkstack : Z;
  in_interrupt : Z;
  k_pm : pid_manager;
  k_pid : Z;
  k_bus : lamebus_softc;
  k_duds : Z;
  k_w : W;
}.
Implicit Types (k : kern) (tf : trapframe).

Definition set_m (m : machine) k : kern :=
  mk_kern m (k_as k) (k_bad k) (k_stack k) (curkstack k) (in_interrupt k) (k_pm k) (k_pid k) (k_bus k) (k_duds k) (k_w k).
Definition set_in (n : Z) k : kern :=
  mk_kern (k_m k) (k_as k) (k_bad k) (k_stack k) (curkstack k) n (k_pm k) (k_pid k) (k_bus k) (k_duds k) (k_w k).
Definition set_bus (duds : Z) (w : W) k : kern :=
  mk_kern (k_m k) (k_as k) (k_bad k) (k_stack k) (curkstack k) (in_interrupt k) (k_pm k) (k_pid k) (k_bus k) duds w.
Definition set_curspl (spl : Z) k : kern := set_m (set_spl spl (k_m k)) k.

(** [shutdown] of main.c. *)
Variable shutdown : kern -> res kern.

(** How a call from the trap handler ends: it returns a value, or the thread
    or the machine is gone. *)
Inductive ending : Type := Returns (err : Z) | ThreadExit | MachineOff.

(** ** Calls *)

Definition sys_reboot (code : Z) k : res (kern * ending) :=
  if negb ((code =? RB_REBOOT) || (code =? RB_HALT) || (code =? RB_POWEROFF)) then Ok (k, Returns EINVAL)
  else
    k ← shutdown k;
    if code =? RB_HALT then Ok (k, MachineOff)
    else w ← lamebus_poweroff (k_w k); Ok (set_bus (k_duds k) w k, MachineOff).

(** [_exit] is [thread_exit], which does not return. *)
Definition sys_exit (code : Z) k : res (kern * ending) := Ok (k, ThreadExit).

(** What becomes of the trapped context. *)
Inductive after : Type := Resume (tf : trapframe) | Exited | Off.

(** The argument of [sys_getpid] is [retval], which is 0. *)
Definition mips_syscall tf k : res (kern * after) :=
  _ ← assert (curspl (k_m k) =? 0);
  let callno := i32 (tf_get tf TF_V0) in
  let retval := 0 in
  '(k, e) ←
    (if callno =? SYS_reboot then sys_reboot (i32 (tf_get tf TF_A0)) k
     else if callno =? SYS_getpid then '(err, _) ← sys_getpid (k_pm k) (k_pid k) retval; Ok (k, Returns err)
     else if callno =? SYS__exit then sys_exit (i32 (tf_get tf TF_A0)) k
     else Ok (k, Returns ENOSYS));
  match e with
  | ThreadExit => Ok (k, Exited)
  | MachineOff => Ok (k, Off)
  | Returns err =>
      let tf := if negb (err =? 0) then tf_set TF_A3 1 (tf_set TF_V0 (u32 err) tf) else tf_set TF_A3 0 (tf_set TF_V0 (u32 retval) tf) in
      let tf := tf_set TF_EPC (u32 (tf_get tf TF_EPC + 4)) tf in
      _ ← assert (curspl (k_m k) =? 0);
      Ok (k, Resume tf)
  end.

Definition mips_interrupt (cause : Z) k : res kern :=
  let old_in := in_interrupt k in
  let k := set_in 1 k in
  _ ← assert (curspl (k_m k) >? 0);
  if negb (Z.land cause LAMEBUS_IRQ_BIT =? 0) then
    '(duds, w, _) ← lamebus_interrupt (curspl (k_m k)) (k_bus k) (k_duds k) (k_w k);
    Ok (set_in old_in (set_bus duds w k))
  else Panic.

(** ** Traps *)

Definition kill_curthread {A : Type} (code : Z) : res A := _ ← assert (code <? NTRAPCODES); Panic.

(** [vm_fault] for the exception, if it is one of the TLB's: whether it was
    resolved. *)
Definition tlb_exception (code vaddr : Z) k : res (kern * bool) :=
  let fault ft := '(m, e) ← vm_fault (k_as k) (k_m k) ft vaddr; Ok (set_m m k, e =? 0) in
  if code =? EX_MOD then fault VM_FAULT_READONLY
  else if code =? EX_TLBL then fault VM_FAULT_READ
  else if code =? EX_TLBS then fault VM_FAULT_WRITE
  else if (code =? EX_IBE) || (code =? EX_DBE) then Panic
  else Ok (k, false).

(** [done:] *)
Definition trap_done (tfaddr savespl : Z) tf k : res (kern * after) :=
  let k := set_curspl SPL_HIGH k in
  let k := set_curspl savespl k in
  _ ← assert (SAME_STACK (u32 (curkstack k - 1)) tfaddr);
  Ok (k, Resume tf).

(** [tfaddr] is the address of the frame. *)
Definition mips_trap (tfaddr : Z) tf k : res (kern * after) :=
  let savespl := curspl (k_m k) in
  let k := set_curspl SPL_HIGH k in
  let code := Z.shiftr (Z.land (tf_get tf TF_CAUSE) CCA_CODE) CCA_CODESHIFT in
  let iskern := Z.land (tf_get tf TF_STATUS) CST_KUp =? 0 in
  _ ← assert (code <? NTRAPCODES);
  _ ← (if negb (k_stack k =? 0) then
         _ ← assert (tfaddr >? k_stack k);
         assert (tfaddr <? u32 (k_stack k + STACK_SIZE))
       else Ok tt);
  if code =? EX_IRQ then
    k ← mips_interrupt (tf_get tf TF_CAUSE) k;
    trap_done tfaddr savespl tf k
  else
    let k := set_curspl savespl k in
    if code =? EX_SYS then
      _ ← assert (curspl (k_m k) =? 0);
      '(k, a) ← mips_syscall tf k;
      match a with Resume tf => trap_done tfaddr savespl tf k | a => Ok (k, a) end
    else
      '(k, resolved) ← tlb_exception code (tf_get tf TF_VADDR) k;
      if (resolved : bool) then trap_done tfaddr savespl tf k
      else if negb iskern then kill_curthread code
      else if negb (k_bad k =? 0) then trap_done tfaddr savespl (tf_set TF_EPC (k_bad k) tf) k
      else Panic.

(** ** Entering user mode *)

Definition mips_usermode (tfaddr : Z) tf k : res (kern * after) :=
  let k := set_curspl SPL_HIGH k in
  let k := set_curspl 0 k in
  _ ← assert (SAME_STACK (u32 (curkstack k - 1)) tfaddr);
  Ok (k, Resume tf).

Definition md_usermode (tfaddr argc argv stack entry : Z) k : res (kern * after) :=
  let tf := replicate 37 0 in
  let tf := tf_set TF_STATUS (Z.lor (Z.lor CST_IRQMASK CST_IEp) CST_KUp) tf in
  let tf := tf_set TF_EPC entry tf in
  let tf := tf_set TF_A0 argc tf in
  let tf := tf_set TF_A1 argv tf in
  let tf := tf_set TF_SP stack tf in
  mips_usermode tfaddr tf k.
End trap.
Arguments kern W : clear implicits.

Section spec.
Context {W : Type} `{!BusHw W} (shutdown : kern W -> res (kern W)).
Implicit Types (k : kern W) (tf : trapframe).

(** The frame is on the kernel stack of the current thread. *)
Definition frame_ok (tfaddr : Z) k : Prop :=
  (k_stack k <> 0 -> k_stack k < tfaddr < u32 (k_stack k + STACK_SIZE)) /\ SAME_STACK (u32 (curkstack k - 1)) tfaddr = true.

Definition trap_code tf : Z := Z.shiftr (Z.land (tf_get tf TF_CAUSE) CCA_CODE) CCA_CODESHIFT.
Definition from_kernel tf : bool := Z.land (tf_get tf TF_STATUS) CST_KUp =? 0.

Lemma set_curspl_same k : set_curspl (curspl (k_m k)) k = k.
Proof. by destruct k as [[] ? ? ? ? ? ? ? ? ? ?]. Qed.

Lemma set_curspl_set n n' k : set_curspl n (set_curspl n' k) = set_curspl n k.
Proof. done. Qed.

Lemma frame_asserts tfaddr k : frame_ok tfaddr k ->
  (if negb (k_stack k =? 0) then _ ← assert (tfaddr >? k_stack k); assert (tfaddr <? u32 (k_stack k + STACK_SIZE)) else Ok tt) = Ok tt.
Proof.
  intros [Hs _]. destruct (Z.eqb_spec (k_stack k) 0); cbn [negb]; [done|]. specialize (Hs ltac:(done)). rewrite Z.gtb_ltb.
  destruct (Z.ltb_spec (k_stack k) tfaddr); [|lia]. cbn [assert]. rewrite bind_Ok. destruct (Z.ltb_spec tfaddr (u32 (k_stack k + STACK_SIZE))); [done|lia].
Qed.

Lemma trap_done_spec tfaddr savespl tf k : frame_ok tfaddr k -> trap_done tfaddr savespl tf k = Ok (set_curspl savespl k, Resume tf).
Proof. intros [_ Hs]. unfold trap_done. change (curkstack (set_curspl _ _)) with (curkstack k). by rewrite Hs. Qed.

(** An exception other than an interrupt or a system call. *)
Lemma mips_trap_other tfaddr tf k : frame_ok tfaddr k -> trap_code tf < NTRAPCODES -> trap_code tf <> EX_IRQ -> trap_code tf <> EX_SYS ->
  mips_trap shutdown tfaddr tf k =
    ('(k', resolved) ← tlb_exception (trap_code tf) (tf_get tf TF_VADDR) k;
     if (resolved : bool) then trap_done tfaddr (curspl (k_m k)) tf k'
     else if negb (from_kernel tf) then kill_curthread (trap_code tf)
     else if negb (k_bad k' =? 0) then trap_done tfaddr (curspl (k_m k)) (tf_set TF_EPC (k_bad k') tf) k'
     else Panic).
Proof.
  intros Hf Hc Hi Hsys. unfold mips_trap. fold (trap_code tf) (from_kernel tf). destruct (Z.ltb_spec (trap_code tf) NTRAPCODES); [|lia]. cbn [assert]. rewrite bind_Ok.
  change (k_stack (set_curspl SPL_HIGH k)) with (k_stack k). rewrite (frame_asserts tfaddr k Hf), bind_Ok.
  destruct (Z.eqb_spec (trap_code tf) EX_IRQ); [done|]. destruct (Z.eqb_spec (trap_code tf) EX_SYS); [done|].
  by rewrite set_curspl_set, set_curspl_same.
Qed.

(** What a miss on a user address does, in an address space that is set up. *)
Lemma fault_cases tfaddr tf k last a :
  frame_ok tfaddr k -> trap_code tf = EX_TLBL \/ trap_code tf = EX_TLBS -> k_as k = Some a -> as_ok last a -> last <= 508 * 1024 * 1024 ->
  0 <= tf_get tf TF_VADDR < USERSTACK -> length (m_tlb (k_m k)) = 64%nat -> Forall (sound a) (m_tlb (k_m k)) ->
  (exists p tlb, translate a (tf_get tf TF_VADDR) = Some p /\ mips_trap shutdown tfaddr tf k = Ok (set_m (set_tlb tlb (k_m k)) k, Resume tf) /\
     tlb_lookup tlb (tf_get tf TF_VADDR) = Some p /\ Forall (sound a) tlb /\
     forall w q, 0 <= w < USERSTACK -> tlb_lookup (m_tlb (k_m k)) w = Some q -> tlb_lookup tlb w = Some q) \/
  ((translate a (tf_get tf TF_VADDR) = None \/ Forall (fun e => valid (snd e) = true) (m_tlb (k_m k))) /\
   mips_trap shutdown tfaddr tf k =
     if from_kernel tf && negb (k_bad k =? 0) then Ok (k, Resume (tf_set TF_EPC (k_bad k) tf)) else Panic).
Proof.
  intros Hf Hc Ha Hok Hlast Hv Hl Hs. assert (trap_code tf < NTRAPCODES /\ trap_code tf <> EX_IRQ /\ trap_code tf <> EX_SYS) as (Hn & Hi & Hsy).
  { unfold NTRAPCODES, EX_IRQ, EX_SYS, EX_TLBL, EX_TLBS in *. lia. }
  rewrite mips_trap_other by done. set (v := tf_get tf TF_VADDR) in *.
  assert (exists ft, (ft = VM_FAULT_READ \/ ft = VM_FAULT_WRITE) /\
    tlb_exception (trap_code tf) v k = ('(m, e) ← vm_fault (Some a) (k_m k) ft v; Ok (set_m m k, e =? 0))) as (ft & Hft & ->).
  { unfold tlb_exception. rewrite Ha. destruct Hc as [-> | ->]; [exists VM_FAULT_READ|exists VM_FAULT_WRITE]; split; try done; tauto. }
  destruct (vm_fault_result last a (k_m k) ft v Hok Hlast Hv Hft Hl Hs) as (tlb & e & -> & Hl' & Hs' & Hcase & Hkeep). rewrite !bind_Ok.
  destruct Hcase as [(-> & p & Hp & Hlk)|(-> & -> & Hwhy)]; cbn [Z.eqb].
  - left. exists p, tlb. split; [done|]. rewrite trap_done_spec by apply Hf. split; [|done]. by destruct k as [[] ? ? ? ? ? ? ? ? ? ?].
  - right. split; [done|]. change (k_bad (set_m _ k)) with (k_bad k). cbn [EFAULT Z.eqb]. destruct (from_kernel tf); cbn [negb andb].
    + destruct (k_bad k =? 0); [done|]. cbn [negb]. rewrite trap_done_spec by apply Hf. by destruct k as [[] ? ? ? ? ? ? ? ? ? ?].
    + unfold kill_curthread. by destruct (trap_code tf <? NTRAPCODES).
Qed.

(** C17. Page faults that the code handles.  For a miss on a user address in
    an address space that is set up: if the address is in a region and the
    TLB has a free entry, the trapped code, of the program or of the kernel,
    resumes where it was and its access now goes to the right byte, while
    every translation that was there stays; if the address is in no region
    and the access is the kernel's own while [pcb_badfaultfunc] is set, as
    [copyin] and its relatives do, the kernel resumes there and nothing else
    has changed.  The interrupt level is what it was. *)
Theorem page_fault_exact tfaddr tf k last a :
  frame_ok tfaddr k -> trap_code tf = EX_TLBL \/ trap_code tf = EX_TLBS -> k_as k = Some a -> as_ok last a -> last <= 508 * 1024 * 1024 ->
  0 <= tf_get tf TF_VADDR < USERSTACK -> length (m_tlb (k_m k)) = 64%nat -> Forall (sound a) (m_tlb (k_m k)) ->
  (forall p, translate a (tf_get tf TF_VADDR) = Some p -> Exists (fun e => valid (snd e) = false) (m_tlb (k_m k)) ->
   exists tlb, mips_trap shutdown tfaddr tf k = Ok (set_m (set_tlb tlb (k_m k)) k, Resume tf) /\
     tlb_lookup tlb (tf_get tf TF_VADDR) = Some p /\ Forall (sound a) tlb /\
     forall w q, 0 <= w < USERSTACK -> tlb_lookup (m_tlb (k_m k)) w = Some q -> tlb_lookup tlb w = Some q) /\
  (translate a (tf_get tf TF_VADDR) = None -> from_kernel tf = true -> k_bad k <> 0 ->
   mips_trap shutdown tfaddr tf k = Ok (k, Resume (tf_set TF_EPC (k_bad k) tf))).
Proof.
  intros Hf Hc Ha Hok Hlast Hv Hl Hs. destruct (fault_cases tfaddr tf k last a Hf Hc Ha Hok Hlast Hv Hl Hs) as [(p & tlb & Hp & E & Hrest)|[Hwhy E]].
  - split; [|intros Hn; by rewrite Hn in Hp]. intros p' Hp' _. exists tlb. assert (p' = p) as -> by congruence. done.
  - split; [intros p Hp Hex|intros _ Hk Hb].
    + destruct Hwhy as [Hn|Hall]; [by rewrite Hn in Hp|]. exfalso. apply Exists_exists in Hex as (e & Hin & He).
      apply list_elem_of_In in Hin. pose proof (proj1 (List.Forall_forall _ _) Hall e Hin). congruence.
    + rewrite E, Hk. by destruct (Z.eqb_spec (k_bad k) 0).
Qed.

(** A user program's access outside its regions is a panic of the kernel,
    where the comment in [kill_curthread] asks for the program to be killed. *)
Theorem user_fault_panics tfaddr tf k last a :
  frame_ok tfaddr k -> trap_code tf = EX_TLBL \/ trap_code tf = EX_TLBS -> k_as k = Some a -> as_ok last a -> last <= 508 * 1024 * 1024 ->
  0 <= tf_get tf TF_VADDR < USERSTACK -> length (m_tlb (k_m k)) = 64%nat -> Forall (sound a) (m_tlb (k_m k)) ->
  translate a (tf_get tf TF_VADDR) = None -> from_kernel tf = false -> mips_trap shutdown tfaddr tf k = Panic.
Proof.
  intros Hf Hc Ha Hok Hlast Hv Hl Hs Hn Hk. destruct (fault_cases tfaddr tf k last a Hf Hc Ha Hok Hlast Hv Hl Hs) as [(p & tlb & Hp & _)|[_ E]]; [congruence|].
  by rewrite E, Hk.
Qed.

(** The registers of a system call that fails with [err]. *)
Definition failed_call (err : Z) tf : trapframe :=
  tf_set TF_EPC (u32 (tf_get tf TF_EPC + 4)) (tf_set TF_A3 1 (tf_set TF_V0 err tf)).

(** A system call that is not known, or a [reboot] with a wrong code, is
    refused with its error: the error code is in v0, a3 is 1, execution goes
    on after the call, no other register and nothing in the kernel changes.
    Every number but those of [_exit], [reboot] and [getpid] is not known. *)
Theorem bad_syscall_refused tfaddr tf k :
  frame_ok tfaddr k -> trap_code tf = EX_SYS -> curspl (k_m k) = 0 ->
  let callno := i32 (tf_get tf TF_V0) in
  let code := i32 (tf_get tf TF_A0) in
  (callno <> SYS__exit -> callno <> SYS_reboot -> callno <> SYS_getpid ->
   mips_trap shutdown tfaddr tf k = Ok (k, Resume (failed_call ENOSYS tf))) /\
  (callno = SYS_reboot -> code < 0 \/ 2 < code -> mips_trap shutdown tfaddr tf k = Ok (k, Resume (failed_call EINVAL tf))).
Proof.
  intros Hf Hc Hspl callno code.
  assert (mips_trap shutdown tfaddr tf k = ('(k, a) ← mips_syscall shutdown tf k;
    match a with Resume tf => trap_done tfaddr 0 tf k | a => Ok (k, a) end)) as ->.
  { unfold mips_trap. fold (trap_code tf). rewrite Hc. cbn [NTRAPCODES EX_SYS EX_IRQ Z.ltb Z.eqb Z.compare Pos.compare Pos.compare_cont Pos.eqb assert]. rewrite bind_Ok.
    change (k_stack (set_curspl SPL_HIGH k)) with (k_stack k). rewrite (frame_asserts tfaddr k Hf), bind_Ok, set_curspl_set, set_curspl_same, Hspl. done. }
  assert (forall err, err <> 0 -> 0 <= err < 4294967296 -> tf_get (tf_set TF_A3 1 (tf_set TF_V0 (u32 err) tf)) TF_EPC = tf_get tf TF_EPC) as Hepc.
  { intros err _ _. unfold tf_get, tf_set, TF_A3, TF_V0, TF_EPC. by rewrite !list_lookup_insert_ne. }
  unfold mips_syscall, sys_reboot. fold callno code. rewrite Hspl. cbn [Z.eqb assert]. rewrite bind_Ok. split.
  - intros H0 H8 H11. destruct (Z.eqb_spec callno SYS_reboot); [done|]. destruct (Z.eqb_spec callno SYS_getpid); [done|]. destruct (Z.eqb_spec callno SYS__exit); [done|].
    rewrite bind_Ok, Hspl. change (assert (0 =? 0)) with (Ok tt). change (negb (ENOSYS =? 0)) with true. cbv zeta iota. rewrite !bind_Ok, trap_done_spec by done.
    rewrite Hepc by done. replace (set_curspl 0 k) with k by (rewrite <- Hspl; by rewrite set_curspl_same). done.
  - intros -> Hcode. change (SYS_reboot =? SYS_reboot) with true. cbv iota. unfold RB_REBOOT, RB_HALT, RB_POWEROFF.
    destruct (Z.eqb_spec code 0), (Z.eqb_spec code 1), (Z.eqb_spec code 2); try lia. cbn [orb negb].
    rewrite bind_Ok, Hspl. change (assert (0 =? 0)) with (Ok tt). change (negb (EINVAL =? 0)) with true. cbv zeta iota. rewrite !bind_Ok, trap_done_spec by done.
    rewrite Hepc by done. replace (set_curspl 0 k) with k by (rewrite <- Hspl; by rewrite set_curspl_same). done.
Qed.

(** [getpid] stores the process id at address 0. *)
Theorem getpid_writes_to_null tf k pid : curspl (k_m k) = 0 -> i32 (tf_get tf TF_V0) = SYS_getpid -> get_pid (k_pm k) (k_pid k) = Ok pid ->
  mips_syscall shutdown tf k = Undef.
Proof. intros Hspl Hc Hp. unfold mips_syscall, sys_getpid. by rewrite Hspl, Hc, Hp. Qed.
End spec.

(** ** A concrete kernel *)

(** A thread with the address space [small_as] whose stack is the page at
    0x80010000; a frame on it, with the given cause and bad address. *)
Definition small_kern (bad : Z) : kern (bool * bool) :=
  mk_kern (mk_machine (mk_ram (16 * 4096) (64 * 4096)) small_mem no_tlb 0) (Some small_as) bad 0x80010000 0x80011000 0
    (mk_pm ∅ [] None 0 0) 2 (mk_lb 0x80000000 [] []) 0 (false, false).

Definition small_frame (cause vaddr v0 : Z) : trapframe := tf_set TF_V0 v0 (tf_set TF_VADDR vaddr (tf_set TF_CAUSE cause (replicate 37 0))).

Lemma small_frame_ok bad : frame_ok 0x80010f00 (small_kern bad).
Proof. split; [intros _; vm_compute; done|done]. Qed.

(** A miss in a region, and one of the kernel outside every region. *)
Lemma page_fault_exact_witness :
  (exists tlb, mips_trap (fun k => Ok k) 0x80010f00 (small_frame 8 0x400004 0) (small_kern 0) =
       Ok (set_m (set_tlb tlb (k_m (small_kern 0))) (small_kern 0), Resume (small_frame 8 0x400004 0)) /\
     exists p, tlb_lookup tlb 0x400004 = Some p) /\
  mips_trap (fun k => Ok k) 0x80010f00 (small_frame 8 16 0) (small_kern 0x80000400) =
    Ok (small_kern 0x80000400, Resume (tf_set TF_EPC 0x80000400 (small_frame 8 16 0))).
Proof.
  split.
  - destruct (page_fault_exact (fun k => Ok k) 0x80010f00 (small_frame 8 0x400004 0) (small_kern 0) (16 * 4096) small_as (small_frame_ok 0))
      as [H _]; [by left|done|exact small_as_ok|done|by vm_compute|done|apply invalid_sound; by apply Forall_replicate|].
    edestruct H as (tlb & E & Hp & _); [vm_compute; reflexivity|by left|]. exists tlb. split; [exact E|]. by eexists.
  - apply (page_fault_exact (fun k => Ok k) 0x80010f00 (small_frame 8 16 0) (small_kern 0x80000400) (16 * 4096) small_as (small_frame_ok 0x80000400));
      [by left|done|exact small_as_ok|done|by vm_compute|done|apply invalid_sound; by apply Forall_replicate|by vm_compute|done|done].
Defined.

Lemma bad_syscall_refused_witness :
  mips_trap (fun k => Ok k) 0x80010f00 (small_frame 32 0 5) (small_kern 0) = Ok (small_kern 0, Resume (failed_call ENOSYS (small_frame 32 0 5))).
Proof. apply (bad_syscall_refused (fun k => Ok k) 0x80010f00 (small_frame 32 0 5) (small_kern 0) (small_frame_ok 0)); done. Defined.
