(* ===== verification/Uio.v ===== *)
(** * kern/userprog/uio.c and kern/lib/copyinout.c

    Moving data between kernel buffers and the region a [struct uio]
    describes, which may be in user space.

    A region is represented by its contents rather than by an address into a
    byte array: in a write [iov_data] is what the region still holds, in a
    read it is what has been stored in it so far, in order.  The addresses
    that matter, those of user regions, are [iov_base].  Which user addresses
    can be touched without a fatal fault is the parameter [valid]. *)
From stdpp Require Import base numbers list option gmap.
From S2P Require Import Prelude.
Local Open Scope Z_scope.

Definition USERTOP : Z := 2147483648.

(** ** copyinout.c *)

(** The error code and [*stoplen]. *)
Definition copycheck (userptr len : Z) : Z * Z :=
  let bot := userptr in
  let top := u32 (u32 (bot + len) - 1) in
  if top <? bot then (EFAULT, len)
  else if bot >=? USERTOP then (EFAULT, len)
  else if top >=? USERTOP then (0, USERTOP - bot)
  else (0, len).

Section copy.
Variable valid : Z -> bool.

(** [memcpy] of [len] bytes to or from [addr] copies until the first byte
    that faults: how many are copied. *)
Fixpoint reach (addr : Z) (len : nat) : nat :=
  match len with
  | O => O
  | S len => if valid addr then S (reach (addr + 1) len) else O
  end.

(** Error code and the bytes that arrived; [data] is what is at the source. *)
Definition copyblock (useraddr : Z) (data : list Z) (len : Z) : Z * list Z :=
  let '(result, stoplen) := copycheck useraddr len in
  if negb (result =? 0) then (result, [])
  else if negb (stoplen =? len) then (EFAULT, [])
  else
    let k := reach useraddr (Z.to_nat len) in
    if (k =? Z.to_nat len)%nat then (0, take (Z.to_nat len) data) else (EFAULT, take k data).

Definition copyin (usersrc : Z) (data : list Z) (len : Z) : Z * list Z :=
  copyblock usersrc data len.
Definition copyout (src : list Z) (userdest len : Z) : Z * list Z :=
  copyblock userdest src len.

(** [copystr] from character [i] on: error code, the characters copied and
    [*gotlen].  [addr] is the user address of character [i]; a fault makes
    the calling function return EFAULT. *)
Fixpoint copystr (n : nat) (addr : Z) (src : list Z) (i maxlen stoplen : Z)
    : res (Z * list Z * Z) :=
  match n with
  | O => Ok (if stoplen <? maxlen then EFAULT else ENAMETOOLONG, [], 0)
  | S n =>
      if negb (valid addr) then Ok (EFAULT, [], 0)
      else
        match src with
        | [] => Undef
        | c :: src =>
            if c =? 0 then Ok (0, [c], i + 1)
            else '(e, l, g) ← copystr n (addr + 1) src (i + 1) maxlen stoplen;
                 Ok (e, c :: l, g)
        end
  end.

(** [copyinstr] and [copyoutstr] do the same with the roles of the two sides
    exchanged; [src] is the source string and [useraddr] the user side. *)
Definition copyinstr (useraddr : Z) (src : list Z) (len : Z) : res (Z * list Z * Z) :=
  let '(result, stoplen) := copycheck useraddr len in
  if negb (result =? 0) then Ok (result, [], 0)
  else copystr (Z.to_nat (Z.min len stoplen)) useraddr src 0 len stoplen.

Definition copyoutstr (src : list Z) (useraddr : Z) (len : Z) : res (Z * list Z * Z) :=
  let '(result, stoplen) := copycheck useraddr len in
  if negb (result =? 0) then Ok (result, [], 0)
  else copystr (Z.to_nat (Z.min len stoplen)) useraddr src 0 len stoplen.
End copy.

(** ** uio.c *)

Inductive uio_rw : Type := UIO_READ | UIO_WRITE.
Inductive uio_seg : Type := UIO_USERSPACE | UIO_SYSSPACE | UIO_USERISPACE.
Global Instance uio_rw_eq_dec : EqDecision uio_rw.
Proof. solve_decision. Defined.

Record uio : Type := mk_uio {
  iov_base : Z;
  iov_len : Z;
  iov_data : list Z;
  uio_offset : Z;
  uio_resid : Z;
  uio_segflg : uio_seg;
  uio_dir : uio_rw;
  uio_space : option Z;
}.

Definition is_write (u : uio) : bool := match uio_dir u with UIO_WRITE => true | _ => false end.

Definition with_offset (n : Z) (u : uio) : uio :=
  mk_uio (iov_base u) (iov_len u) (iov_data u) n (uio_resid u) (uio_segflg u) (uio_dir u)
    (uio_space u).
Definition with_resid (n : Z) (u : uio) : uio :=
  mk_uio (iov_base u) (iov_len u) (iov_data u) (uio_offset u) n (uio_segflg u) (uio_dir u)
    (uio_space u).

Section move.
(** The user addresses that can be touched, and [curthread->t_vmspace]. *)
Variables (valid : Z -> bool) (curspace : option Z).

(** The loop of [uiomove], at byte [pos] of the kernel buffer [buf]; gives
    the error code, the buffer and the uio. *)
Fixpoint move_loop (fuel : nat) (buf : list Z) (pos : nat) (n : Z) (u : uio)
    : res (Z * list Z * uio) :=
  match fuel with
  | O => Fuel
  | S fuel =>
      if (n >? 0) && (uio_resid u >? 0) then
        let size := if iov_len u >? n then n else iov_len u in
        if size =? 0 then Panic
        else
          let k := Z.to_nat size in
          let src := if is_write u then iov_data u else drop pos buf in
          if (length src <? k)%nat then Undef
          else
            let '(result, moved) :=
              match uio_segflg u with
              | UIO_SYSSPACE => (0, take k src)
              | _ => if is_write u then copyin valid (iov_base u) src size
                     else copyout valid src (iov_base u) size
              end in
            let buf := if is_write u then splice buf pos moved else buf in
            let data := if is_write u then drop (length moved) (iov_data u)
                        else iov_data u ++ moved in
            if negb (result =? 0) then
              Ok (result, buf,
                  mk_uio (iov_base u) (iov_len u)
                    (if is_write u then iov_data u else data)
                    (uio_offset u) (uio_resid u) (uio_segflg u) (uio_dir u) (uio_space u))
            else
              move_loop fuel buf (pos + k) (u32 (n - size))
                (mk_uio (u32 (iov_base u + size)) (u32 (iov_len u - size)) data
                   (i32 (uio_offset u + size)) (u32 (uio_resid u - size))
                   (uio_segflg u) (uio_dir u) (uio_space u))
      else Ok (0, buf, u)
  end.

Definition uiomove (buf : list Z) (n : Z) (u : uio) : res (Z * list Z * uio) :=
  _ ← assert (match uio_segflg u with
              | UIO_SYSSPACE => bool_decide (uio_space u = None)
              | _ => bool_decide (uio_space u = curspace)
              end);
  move_loop 3 buf 0 n u.

Fixpoint zeros_loop (fuel : nat) (n : Z) (u : uio) : res (Z * uio) :=
  match fuel with
  | O => Fuel
  | S fuel =>
      if n >? 0 then
        let amt := if 16 >? n then n else 16 in
        '(result, _, u) ← uiomove (replicate 16 0) amt u;
        if negb (result =? 0) then Ok (result, u) else zeros_loop fuel (u32 (n - amt)) u
      else Ok (0, u)
  end.

Definition uiomovezeros (n : Z) (u : uio) : res (Z * uio) :=
  _ ← assert (negb (is_write u));
  zeros_loop (S (Z.to_nat n)) n u.
End move.

(** [data] is the contents of [kbuf]: what is to be written, or nothing read
    yet. *)
Definition mk_kuio (data : list Z) (len pos : Z) (rw : uio_rw) : uio :=
  mk_uio 0 len data pos len UIO_SYSSPACE rw None.

(** ** Copying blocks *)

Lemma reach_all valid n : forall a,
  (forall i, a <= i < a + Z.of_nat n -> valid i = true) -> reach valid a n = n.
Proof.
  induction n as [|n IH]; intros a H; [done|]. simpl. rewrite H by lia.
  f_equal. apply IH. intros i Hi. apply H. lia.
Qed.

Lemma reach_full valid n : forall a,
  reach valid a n = n -> forall i, a <= i < a + Z.of_nat n -> valid i = true.
Proof.
  induction n as [|n IH]; intros a H i Hi; [lia|]. simpl in H.
  destruct (valid a) eqn:Ha; [|done]. injection H as H.
  destruct (decide (i = a)) as [->|]; [done|]. apply (IH (a + 1)); [done|lia].
Qed.

(** A block that is in user space. *)
Definition in_user (a len : Z) : Prop := 1 <= len /\ a + len <= USERTOP.

Lemma copycheck_ok a len : 0 <= a -> in_user a len -> copycheck a len = (0, len).
Proof.
  unfold in_user, copycheck, USERTOP. intros. nowrap.
  zbool.
Qed.

Lemma copycheck_bad a len :
  0 <= a < 4294967296 -> 0 <= len < 4294967296 -> ~ in_user a len ->
  fst (copycheck a len) = EFAULT \/ (fst (copycheck a len) = 0 /\ snd (copycheck a len) <> len).
Proof.
  unfold in_user, copycheck, USERTOP. intros Ha Hl Hn.
  destruct (Z.ltb_spec (u32 (u32 (a + len) - 1)) a); [by left|].
  rewrite Z.geb_leb. destruct (Z.leb_spec 2147483648 a); [by left|].
  rewrite Z.geb_leb. destruct (Z.leb_spec 2147483648 (u32 (u32 (a + len) - 1))); simpl.
  - right. split; [done|]. intros Heq. apply Hn. lia.
  - exfalso. apply Hn. unfold u32 in *. destruct (decide (len = 0)); dlia.
Qed.

Definition all_valid (valid : Z -> bool) (a len : Z) : Prop :=
  forall i, a <= i < a + len -> valid i = true.

Lemma copyblock_ok valid a data len :
  0 <= a -> in_user a len -> all_valid valid a len ->
  copyblock valid a data len = (0, take (Z.to_nat len) data).
Proof.
  intros Ha Hin Hv. unfold copyblock. rewrite copycheck_ok by done. cbn [Z.eqb negb].
  rewrite Z.eqb_refl. cbn [negb]. rewrite reach_all, Nat.eqb_refl; [done|].
  intros i Hi. apply Hv. destruct Hin. lia.
Qed.

Lemma copyblock_bad valid a data len :
  0 <= a < 4294967296 -> 0 <= len < 4294967296 ->
  ~ (in_user a len /\ all_valid valid a len) ->
  fst (copyblock valid a data len) = EFAULT.
Proof.
  intros Ha Hl Hn. unfold copyblock. destruct (copycheck a len) as [r st] eqn:Hc.
  assert (in_user a len \/ ~ in_user a len) as [Hin|Hout].
  { unfold in_user. lia. }
  - rewrite copycheck_ok in Hc by (done || lia). injection Hc as <- <-. cbn [Z.eqb negb].
    rewrite Z.eqb_refl. cbn [negb].
    destruct (Nat.eqb_spec (reach valid a (Z.to_nat len)) (Z.to_nat len)) as [Hr|]; [|done].
    destruct Hn. split; [done|]. intros i Hi. apply (reach_full valid _ a Hr). lia.
  - pose proof (copycheck_bad a len Ha Hl Hout) as Hb. rewrite Hc in Hb. simpl in Hb.
    destruct Hb as [->|[-> Hne]]; [done|]. cbn [Z.eqb negb].
    by destruct (Z.eqb_spec st len).
Qed.

(** C26. Block copies across the user/kernel boundary.  [copyin] succeeds
    exactly when the block has at least one byte, lies wholly below
    [USERTOP], without wrapping around, and can be touched, and then delivers
    exactly its bytes; in every other case it returns EFAULT, in particular
    for every empty block.  [copyout] is the same in the other direction. *)
Theorem copyin_copyout_exact valid a data len :
  0 <= a < 4294967296 -> 0 <= len < 4294967296 ->
  (in_user a len /\ all_valid valid a len ->
     copyin valid a data len = (0, take (Z.to_nat len) data) /\
     copyout valid data a len = (0, take (Z.to_nat len) data)) /\
  (~ (in_user a len /\ all_valid valid a len) ->
     fst (copyin valid a data len) = EFAULT /\ fst (copyout valid data a len) = EFAULT).
Proof.
  intros Ha Hl. unfold copyin, copyout. split.
  - intros [Hin Hv]. rewrite copyblock_ok by (done || lia). done.
  - intros Hn. rewrite copyblock_bad by done. done.
Qed.

Lemma copyin_copyout_exact_witness :
  (in_user 4096 2 /\ all_valid (fun a => a <? 8192) 4096 2 ->
     copyin (fun a => a <? 8192) 4096 [7; 8] 2 = (0, take (Z.to_nat 2) [7; 8]) /\
     copyout (fun a => a <? 8192) [7; 8] 4096 2 = (0, take (Z.to_nat 2) [7; 8])) /\
  (~ (in_user 4096 2 /\ all_valid (fun a => a <? 8192) 4096 2) ->
     fst (copyin (fun a => a <? 8192) 4096 [7; 8] 2) = EFAULT /\
     fst (copyout (fun a => a <? 8192) [7; 8] 4096 2) = EFAULT).
Proof. apply (copyin_copyout_exact (fun a => a <? 8192) 4096 [7; 8] 2); lia. Defined.

(** ** Copying strings *)

(** [s] starts with the string [l] and its terminator. *)
Definition is_str (l s : list Z) : Prop :=
  exists rest, s = l ++ 0 :: rest /\ Forall (fun c => c <> 0) l.

Lemma copystr_spec valid maxlen stoplen l : forall n a src i,
  is_str l src -> all_valid valid a (Z.of_nat (Nat.min n (S (length l)))) ->
  copystr valid n a src i maxlen stoplen =
    if (length l <? n)%nat then Ok (0, l ++ [0], i + Z.of_nat (length l) + 1)
    else Ok (if stoplen <? maxlen then EFAULT else ENAMETOOLONG, take n l, 0).
Proof.
  induction l as [|c l IH]; intros n a src i (rest & -> & Hnz) Hv.
  - destruct n as [|n]; [done|]. simpl. rewrite Hv by lia. simpl. do 2 f_equal. lia.
  - apply Forall_cons in Hnz as [Hc Hnz]. destruct n as [|n]; [done|]. simpl.
    rewrite Hv by lia. cbn [negb].
    destruct (Z.eqb_spec c 0); [done|]. rewrite (IH n (a + 1) _ (i + 1)).
    + change (S (length l) <? S n)%nat with (length l <? n)%nat.
      destruct (length l <? n)%nat; simpl; [|done]. do 2 f_equal. lia.
    + by exists rest.
    + intros x Hx. apply Hv. simpl in *. lia.
Qed.

(** String copies across the boundary.  For a string of [k] characters
    at a readable user address [a], [copyinstr] with room for [len]
    characters delivers the string with its terminator and the length [k+1]
    if that fits; it returns ENAMETOOLONG if the buffer is too small, and
    EFAULT if the string runs into the kernel's part of the address space
    first. *)
Theorem copyinstr_exact valid a src l len :
  0 <= a < USERTOP -> 1 <= len < USERTOP -> is_str l src ->
  all_valid valid a (Z.min (USERTOP - a) (Z.of_nat (length l) + 1)) ->
  copyinstr valid a src len =
    Ok (if Z.of_nat (length l) + 1 <=? Z.min len (USERTOP - a)
        then (0, l ++ [0], Z.of_nat (length l) + 1)
        else (if USERTOP - a <? len then EFAULT else ENAMETOOLONG,
              take (Z.to_nat (Z.min len (USERTOP - a))) l, 0)).
Proof.
  intros Ha Hlen Hstr Hv. unfold copyinstr. unfold copycheck.
  unfold USERTOP in *. nowrap.
  destruct (Z.ltb_spec (a + len - 1) a); [lia|]. rewrite Z.geb_leb.
  destruct (Z.leb_spec 2147483648 a); [lia|]. rewrite Z.geb_leb.
  set (stop := if 2147483648 <=? a + len - 1 then 2147483648 - a else len).
  assert ((if 2147483648 <=? a + len - 1 then (0, 2147483648 - a) else (0, len)) = (0, stop)) as ->
    by (unfold stop; by destruct (_ <=? _)).
  cbn [Z.eqb negb].
  assert (Z.min len stop = Z.min len (2147483648 - a)) as Hmin.
  { unfold stop. destruct (Z.leb_spec 2147483648 (a + len - 1)); lia. }
  assert ((stop <? len) = (2147483648 - a <? len)) as Hst.
  { unfold stop. destruct (Z.leb_spec 2147483648 (a + len - 1)), (Z.ltb_spec (2147483648 - a) len);
      (lia || by rewrite Z.ltb_irrefl || by apply Z.ltb_lt). }
  rewrite Hmin, (copystr_spec valid len stop l), Hst; [|done|].
  - destruct (Nat.ltb_spec (length l) (Z.to_nat (Z.min len (2147483648 - a)))),
      (Z.leb_spec (Z.of_nat (length l) + 1) (Z.min len (2147483648 - a))); (lia || done).
  - intros i Hi. apply Hv. lia.
Qed.

Lemma copyinstr_exact_witness :
  copyinstr (fun a => a <? 8192) 4096 [104; 105; 0; 9] 10 =
    Ok (if Z.of_nat (length [104; 105]) + 1 <=? Z.min 10 (USERTOP - 4096)
        then (0, [104; 105] ++ [0], Z.of_nat (length [104; 105]) + 1)
        else (if USERTOP - 4096 <? 10 then EFAULT else ENAMETOOLONG,
              take (Z.to_nat (Z.min 10 (USERTOP - 4096))) [104; 105], 0)).
Proof.
  apply (copyinstr_exact (fun a => a <? 8192) 4096 [104; 105; 0; 9] [104; 105] 10).
  - unfold USERTOP; lia.
  - unfold USERTOP; lia.
  - exists [9]. split; [done|]. by repeat constructor.
  - intros i Hi. unfold USERTOP in Hi. simpl in Hi. apply Z.ltb_lt. lia.
Defined.

(** ** uiomove *)

(** A uio whose fields agree with each other: the residue does not exceed the
    region, and a region to be read from has contents. *)
Definition uio_wf (u : uio) : Prop :=
  0 <= iov_base u < 4294967296 /\ 0 <= uio_resid u <= iov_len u /\ iov_len u < 4294967296 /\
  (is_write u = true -> Z.of_nat (length (iov_data u)) = iov_len u) /\
  -2147483648 <= uio_offset u /\ uio_offset u + uio_resid u < 2147483648.

(** [n] bytes of the region can be reached. *)
Definition reachable (valid : Z -> bool) (curspace : option Z) (u : uio) (n : Z) : Prop :=
  match uio_segflg u with
  | UIO_SYSSPACE => uio_space u = None
  | _ => uio_space u = curspace /\
         (0 < n -> in_user (iov_base u) n /\ all_valid valid (iov_base u) n)
  end.

(** The uio after [k] bytes; the region now holds [data]. *)
Definition advance (k : Z) (data : list Z) (u : uio) : uio :=
  mk_uio (u32 (iov_base u + k)) (iov_len u - k) data (uio_offset u + k) (uio_resid u - k)
    (uio_segflg u) (uio_dir u) (uio_space u).

Lemma advance_0 u : 0 <= iov_base u < 4294967296 -> advance 0 (iov_data u) u = u.
Proof.
  intros. unfold advance. rewrite !Z.add_0_r, !Z.sub_0_r, u32_small by done. by destruct u.
Qed.

Lemma advance_advance j k d d' u :
  advance j d (advance k d' u) = advance (k + j) d u.
Proof.
  unfold advance; simpl. f_equal; try lia. unfold u32. rewrite Zplus_mod_idemp_l. f_equal. lia.
Qed.

Lemma advance_wf k d u :
  uio_wf u -> 0 <= k <= uio_resid u ->
  (is_write u = true -> d = drop (Z.to_nat k) (iov_data u)) -> uio_wf (advance k d u).
Proof.
  intros (Hb & Hr & Hl & Hd & Ho & Ho') Hk Hdat. unfold uio_wf, advance; simpl.
  split; [apply u32_range|]. split; [lia|]. split; [lia|].
  split; [|lia]. intros Hw. change (is_write u = true) in Hw.
  rewrite (Hdat Hw), length_drop. specialize (Hd Hw). lia.
Qed.

Section exact.
Context (valid : Z -> bool) (curspace : option Z).

Lemma transfer_ok u n src :
  uio_wf u -> reachable valid curspace u n -> 0 < n ->
  match uio_segflg u with
  | UIO_SYSSPACE => (0, take (Z.to_nat n) src)
  | _ => if is_write u then copyin valid (iov_base u) src n
         else copyout valid src (iov_base u) n
  end = (0, take (Z.to_nat n) src).
Proof.
  intros (Hb & _) Hr Hn. unfold reachable, copyin, copyout in *.
  destruct (uio_segflg u); [|done|]; destruct Hr as [_ Hr], (Hr Hn) as [Hin Hv];
    destruct (is_write u); apply copyblock_ok; (done || lia).
Qed.

Lemma uiomove_assert u n :
  reachable valid curspace u n ->
  match uio_segflg u with
  | UIO_SYSSPACE => bool_decide (uio_space u = None)
  | _ => bool_decide (uio_space u = curspace)
  end = true.
Proof.
  unfold reachable. intros H. destruct (uio_segflg u); apply bool_decide_eq_true; naive_solver.
Qed.

(** [uiomove] of [n] bytes that fit moves exactly [n] bytes. *)
Lemma uiomove_spec buf n u :
  uio_wf u -> reachable valid curspace u n -> 0 <= n <= uio_resid u ->
  n <= Z.of_nat (length buf) ->
  uiomove valid curspace buf n u =
    Ok (0, if is_write u then take (Z.to_nat n) (iov_data u) ++ drop (Z.to_nat n) buf else buf,
        advance n (if is_write u then drop (Z.to_nat n) (iov_data u)
                   else iov_data u ++ take (Z.to_nat n) buf) u).
Proof.
  intros Hwf Hr Hn Hbuf. pose proof Hwf as (Hb & Hres & Hlen & Hdat & Ho & Ho').
  unfold uiomove. rewrite (uiomove_assert u n Hr). cbn [assert]. rewrite bind_Ok.
  destruct (decide (n = 0)) as [->|Hne].
  { simpl. rewrite take_0, !drop_0, app_nil_r.
    destruct (is_write u); simpl; by rewrite advance_0. }
  remember 2%nat as f eqn:Hf. cbn [move_loop].
  rewrite !Z.gtb_ltb. destruct (Z.ltb_spec 0 n); [|lia]. destruct (Z.ltb_spec 0 (uio_resid u)); [|lia].
  cbn [andb]. assert ((if n <? iov_len u then n else iov_len u) = n) as -> by zbool.
  destruct (Z.eqb_spec n 0); [lia|]. rewrite drop_0.
  set (src := if is_write u then iov_data u else buf).
  assert ((length src <? Z.to_nat n)%nat = false) as ->.
  { apply Nat.ltb_ge. unfold src. destruct (is_write u); [specialize (Hdat eq_refl)|]; lia. }
  rewrite (transfer_ok u n src) by (done || lia). cbn [Z.eqb negb]. subst f.
  cbn [move_loop]. rewrite Z.sub_diag. change (u32 0 >? 0) with false. cbn [andb].
  assert (length (take (Z.to_nat n) src) = Z.to_nat n) as Hl.
  { rewrite length_take. unfold src. destruct (is_write u); [specialize (Hdat eq_refl)|]; lia. }
  do 2 f_equal.
  - f_equal. unfold splice. rewrite Hl. unfold src. by destruct (is_write u).
  - unfold advance. rewrite Hl. nowrap. unfold src. by destruct (is_write u).
Qed.

(** A read that asks for more than the region has left stores what fits. *)
Lemma uiomove_short buf n u :
  uio_wf u -> is_write u = false -> iov_len u = uio_resid u -> reachable valid curspace u (uio_resid u) ->
  0 < uio_resid u < n -> uio_resid u <= Z.of_nat (length buf) ->
  uiomove valid curspace buf n u = Ok (0, buf, advance (uio_resid u) (iov_data u ++ take (Z.to_nat (uio_resid u)) buf) u).
Proof.
  intros Hwf Hw Hlen Hr Hn Hbuf. pose proof Hwf as (Hb & Hres & Hl & _ & Ho & Ho').
  unfold uiomove. rewrite (uiomove_assert u _ Hr). cbn [assert]. rewrite bind_Ok. remember 2%nat as f eqn:Hf. cbn [move_loop].
  rewrite !Z.gtb_ltb, Hlen, Hw. destruct (Z.ltb_spec 0 n), (Z.ltb_spec 0 (uio_resid u)), (Z.ltb_spec n (uio_resid u)); try lia. cbn [andb].
  destruct (Z.eqb_spec (uio_resid u) 0); [lia|]. rewrite drop_0. destruct (Nat.ltb_spec (length buf) (Z.to_nat (uio_resid u))); [lia|].
  pose proof (transfer_ok u (uio_resid u) buf Hwf Hr ltac:(lia)) as Ht. rewrite Hw in Ht. rewrite Ht. cbn [Z.eqb negb]. subst f.
  cbn [move_loop uio_resid]. rewrite !Z.sub_diag. change (u32 0 >? 0) with false. rewrite andb_false_r. unfold advance. rewrite Hlen. nowrap.
  rewrite !Z.sub_diag. done.
Qed.

(** A read into a kernel buffer whose space is all that is left of it. *)
Definition kernel_read (u : uio) : Prop :=
  uio_wf u /\ is_write u = false /\ iov_len u = uio_resid u /\ uio_segflg u = UIO_SYSSPACE /\ uio_space u = None.

(** Such a read always succeeds, and stores what fits. *)
Lemma uiomove_kernel buf n u :
  kernel_read u -> 0 <= n <= Z.of_nat (length buf) -> exists u', uiomove valid curspace buf n u = Ok (0, buf, u') /\ kernel_read u'.
Proof.
  intros (Hwf & Hw & Hlen & Hs & Hn) Hbuf. pose proof Hwf as (Hb & Hres & Hl & Hd & Ho & Ho').
  assert (forall k, reachable valid curspace u k) as Hr by (intros k; unfold reachable; by rewrite Hs).
  assert (forall k d, 0 <= k <= uio_resid u -> kernel_read (advance k d u)) as Hadv.
  { intros k d Hk. pose proof (u32_range (iov_base u + k)). split; [|split; [done|]; cbn; split; [lia|done]].
    unfold uio_wf. cbn. do 3 (split; [lia|]). split; [|lia]. unfold is_write in *. cbn. by rewrite Hw. }
  destruct (decide (n <= uio_resid u)) as [Hle|Hgt].
  { eexists. rewrite uiomove_spec, Hw by (done || lia). split; [done|]. apply Hadv. lia. }
  destruct (decide (uio_resid u = 0)) as [E0|Hne].
  - exists u. unfold uiomove. rewrite (uiomove_assert u n (Hr n)). cbn [assert]. rewrite bind_Ok. cbn [move_loop]. rewrite E0, andb_false_r. done.
  - eexists. rewrite uiomove_short by (done || lia). split; [done|]. apply Hadv. lia.
Qed.

Lemma reachable_advance u n k d :
  0 <= iov_base u < 4294967296 ->
  reachable valid curspace u n -> 0 <= k <= n -> reachable valid curspace (advance k d u) (n - k).
Proof.
  intros Hb. unfold reachable; simpl. intros H Hk. destruct (uio_segflg u); [|done|];
    destruct H as [Hs H]; (split; [done|]); intros Hpos;
    (destruct H as [[H1 H2] Hv]; [lia|]); unfold in_user, USERTOP in *;
    (rewrite u32_small by lia); (split; [lia|]); intros i Hi; apply Hv; lia.
Qed.

Lemma reachable_le u n k :
  reachable valid curspace u n -> k <= n -> reachable valid curspace u k.
Proof.
  unfold reachable. intros Hr Hk. destruct (uio_segflg u); [|done|]; destruct Hr as [Hs Hr];
    (split; [done|]); intros Hpos; (destruct Hr as [[H1 H2] Hv]; [lia|]);
    unfold in_user in *; (split; [lia|]); intros i Hi; apply Hv; lia.
Qed.

(** [uiomovezeros] stores [n] zeros. *)
Lemma zeros_spec fuel : forall n u,
  uio_wf u -> reachable valid curspace u n -> is_write u = false -> 0 <= n <= uio_resid u ->
  (Z.to_nat n < fuel)%nat ->
  zeros_loop valid curspace fuel n u =
    Ok (0, advance n (iov_data u ++ replicate (Z.to_nat n) 0) u).
Proof.
  induction fuel as [|fuel IH]; intros n u Hwf Hr Hw Hn Hf; [lia|]. cbn [zeros_loop].
  rewrite Z.gtb_ltb. destruct (Z.ltb_spec 0 n).
  2:{ assert (n = 0) as -> by lia. simpl. rewrite app_nil_r, advance_0; [done|apply Hwf]. }
  set (amt := if 16 >? n then n else 16).
  assert (0 < amt <= 16 /\ amt <= n) as Ha by (unfold amt; rewrite Z.gtb_ltb; zbool).
  rewrite uiomove_spec; [|done| |lia|rewrite length_replicate; lia].
  2:{ apply (reachable_le u n); [done|lia]. }
  rewrite bind_Ok, Hw. cbn [Z.eqb negb]. rewrite take_replicate.
  pose proof Hwf as (_ & Hres & Hlen & _). rewrite u32_small by lia.
  replace (Z.to_nat amt `min` 16)%nat with (Z.to_nat amt) by lia.
  destruct (decide (amt = n)) as [Heq|Hlt].
  - rewrite Heq, Z.sub_diag. destruct fuel; [lia|]. done.
  - rewrite IH; [|apply advance_wf; [done|lia|by rewrite Hw]| |done|simpl; lia|lia].
    + rewrite advance_advance. simpl. rewrite <- app_assoc, <- replicate_add.
      do 4 f_equal; [|f_equal]; lia.
    + apply (reachable_advance u n amt); [apply Hwf|done|lia].
Qed.
End exact.

(** [uiomove] and [uiomovezeros] are exact.  When the uio's fields agree
    (residue at most the region, a user region of the current address space
    that can be touched), moving [n] bytes that fit the residue and the
    buffer transfers exactly the next [n] bytes, in the uio's direction,
    leaves the rest of the buffer as it was, and updates offset, residue and
    region by [n]; two moves in a row are one move of the sum. *)
Theorem uiomove_exact valid curspace buf n u :
  uio_wf u -> reachable valid curspace u n -> 0 <= n <= uio_resid u ->
  n <= Z.of_nat (length buf) ->
  uiomove valid curspace buf n u =
    Ok (0, if is_write u then take (Z.to_nat n) (iov_data u) ++ drop (Z.to_nat n) buf else buf,
        advance n (if is_write u then drop (Z.to_nat n) (iov_data u)
                   else iov_data u ++ take (Z.to_nat n) buf) u) /\
  (is_write u = false ->
     uiomovezeros valid curspace n u =
       Ok (0, advance n (iov_data u ++ replicate (Z.to_nat n) 0) u)).
Proof.
  intros Hwf Hr Hn Hbuf. split; [by apply uiomove_spec|]. intros Hw.
  unfold uiomovezeros. rewrite Hw. cbn [negb assert]. rewrite bind_Ok. apply zeros_spec; (done || lia).
Qed.

Lemma uiomove_exact_witness :
  uiomove (fun _ => true) None [1; 2; 3] 2 (mk_kuio [9] 4 100 UIO_READ) =
    Ok (0, [1; 2; 3], advance 2 [9; 1; 2] (mk_kuio [9] 4 100 UIO_READ)) /\
  (is_write (mk_kuio [9] 4 100 UIO_READ) = false ->
     uiomovezeros (fun _ => true) None 2 (mk_kuio [9] 4 100 UIO_READ) =
       Ok (0, advance 2 ([9] ++ replicate (Z.to_nat 2) 0) (mk_kuio [9] 4 100 UIO_READ))).
Proof.
  apply (uiomove_exact (fun _ => true) None [1; 2; 3] 2 (mk_kuio [9] 4 100 UIO_READ)).
  - unfold uio_wf; simpl. split; [lia|]. split; [lia|]. split; [lia|]. split; [done|lia].
  - done.
  - simpl; lia.
  - simpl; lia.
Defined.

(** [uiomove] bounds a transfer by the region, not by the residue: with a
    residue of 1 in a region of 4 it moves all 4 bytes it is asked for, and
    the residue wraps around. *)
Example uiomove_overruns_resid :
  uiomove (fun _ => true) None [1; 2; 3; 4] 4 (mk_uio 0 4 [] 0 1 UIO_SYSSPACE UIO_READ None) =
    Ok (0, [1; 2; 3; 4], mk_uio 4 0 [1; 2; 3; 4] 4 4294967293 UIO_SYSSPACE UIO_READ None).
Proof. vm_compute. reflexivity. Qed.
