(* ===== verification/Random.v ===== *)
(** * lib/libc/random.c and kern/dev/generic/pseudorand.c

    The two pseudo-random generators: the additive feedback generator that
    user programs get from the C library, and the Park-Miller generator
    behind the kernel's random device.

    The state arrays of random.c are arrays of longs that the caller provides
    and that the generator keeps pointers into: [memory] holds them by
    address, and a pointer is the address of its array and an index.  Signed
    arithmetic wraps around, as on the machine. *)
From stdpp Require Import base numbers list option gmap.
From S2P Require Import Prelude Uio.
Local Open Scope Z_scope.

(** ** random.c *)

Definition MAX_TYPES : Z := 5.
(** The degree and the separation of each type of generator. *)
Definition degrees : list Z := [0; 7; 15; 31; 63].
Definition seps : list Z := [0; 3; 1; 3; 1].

Record rand : Type := mk_rand {
  memory : gmap Z (list Z);
  fptr : Z * Z;
  rptr : Z * Z;
  state : Z * Z;
  end_ptr : Z * Z;
  rand_type : Z;
  rand_deg : Z;
  rand_sep : Z;
}.

Definition offset (p : Z * Z) (k : Z) : Z * Z := (p.1, p.2 + k).
(** [p >= q] and [p - q], of two pointers into one array. *)
Definition ptr_geb (p q : Z * Z) : res bool := if p.1 =? q.1 then Ok (p.2 >=? q.2) else Undef.
Definition ptr_sub (p q : Z * Z) : res Z := if p.1 =? q.1 then Ok (p.2 - q.2) else Undef.

Definition with_memory (m : gmap Z (list Z)) (st : rand) : rand :=
  mk_rand m (fptr st) (rptr st) (state st) (end_ptr st) (rand_type st) (rand_deg st) (rand_sep st).
Definition set_ptrs (f r : Z * Z) (st : rand) : rand :=
  mk_rand (memory st) f r (state st) (end_ptr st) (rand_type st) (rand_deg st) (rand_sep st).

Definition deref (st : rand) (p : Z * Z) : res Z :=
  match memory st !! p.1 with Some l => load l p.2 | None => Undef end.
Definition assign (st : rand) (p : Z * Z) (x : Z) : res rand :=
  match memory st !! p.1 with
  | Some l =>
      l ← store l p.2 x;
      Ok (with_memory (<[p.1 := l]> (memory st)) st)
  | None => Undef
  end.

Definition random_unlocked (st : rand) : res (Z * rand) :=
  if rand_type st =? 0 then
    i ← deref st (state st);
    let i := Z.land (i32 (i32 (i * 1103515245) + 12345)) 0x7fffffff in
    st ← assign st (state st) i;
    Ok (i, st)
  else
    let f := fptr st in
    let r := rptr st in
    x ← deref st f;
    y ← deref st r;
    st ← assign st f (i32 (x + y));
    x ← deref st f;
    let i := Z.land (Z.shiftr (u32 x) 1) 0x7fffffff in
    let f := offset f 1 in
    wrapped ← ptr_geb f (end_ptr st);
    if wrapped : bool then Ok (i, set_ptrs (state st) (offset r 1) st)
    else
      let r := offset r 1 in
      wrapped ← ptr_geb r (end_ptr st);
      Ok (i, set_ptrs f (if wrapped : bool then state st else r) st).

(** [random_unlocked], [n] times: the values and the state. *)
Fixpoint randoms (n : nat) (st : rand) : res (list Z * rand) :=
  match n with
  | O => Ok ([], st)
  | S n =>
      '(x, st) ← random_unlocked st;
      '(xs, st) ← randoms n st;
      Ok (x :: xs, st)
  end.

(** The loop that fills [state[i]], with [n] rounds to go. *)
Fixpoint seed_loop (n : nat) (i : Z) (st : rand) : res rand :=
  match n with
  | O => Ok st
  | S n =>
      x ← deref st (offset (state st) (i - 1));
      st ← assign st (offset (state st) i) (i32 (i32 (1103515245 * x) + 12345));
      seed_loop n (i + 1) st
  end.

Definition srandom_unlocked (x : Z) (st : rand) : res rand :=
  st ← assign st (state st) (i32 x);
  if rand_type st =? 0 then Ok st
  else
    st ← seed_loop (Z.to_nat (rand_deg st - 1)) 1 st;
    let st := set_ptrs (offset (state st) (rand_sep st)) (state st) st in
    '(_, st) ← randoms (Z.to_nat (10 * rand_deg st)) st;
    Ok st.

(** What [state[-1]] is set to: the type and the position of the rear
    pointer. *)
Definition packed (st : rand) : res Z :=
  if rand_type st =? 0 then Ok (rand_type st)
  else
    d ← ptr_sub (rptr st) (state st);
    Ok (MAX_TYPES * d + rand_type st).

Definition save (st : rand) : res rand :=
  x ← packed st;
  assign st (offset (state st) (-1)) x.

(** The generator of a type, on the array at [a]. *)
Definition switch_to (a type : Z) (st : rand) : res rand :=
  deg ← load degrees type;
  sep ← load seps type;
  Ok (mk_rand (memory st) (fptr st) (rptr st) (a, 1) (a, 1 + deg) type deg sep).

(** The result is the old state array; [None] is NULL. *)
Definition initstate (seed : Z) (arg_state : option Z) (n : Z) (st : rand) : res (option Z * rand) :=
  let ostate := (state st).1 in
  match arg_state with
  | None => Panic
  | Some a =>
      st ← save st;
      if n <? 8 then Ok (None, st)
      else
        let type := if n <? 32 then 0 else if n <? 64 then 1 else if n <? 128 then 2 else if n <? 256 then 3 else 4 in
        st ← switch_to a type st;
        st ← srandom_unlocked seed st;
        st ← save st;
        Ok (Some ostate, st)
  end.

Definition setstate (arg_state : option Z) (st : rand) : res (option Z * rand) :=
  let ostate := (state st).1 in
  match arg_state with
  | None => Panic
  | Some a =>
      x ← deref st (a, 0);
      let type := Z.rem x MAX_TYPES in
      let rear := Z.quot x MAX_TYPES in
      st ← save st;
      if (type <? 0) || (type >? 4) then Ok (None, st)
      else
        st ← switch_to a type st;
        let st := if negb (type =? 0) then set_ptrs (offset (state st) (Z.rem (rear + rand_sep st) (rand_deg st))) (offset (state st) rear) st else st in
        Ok (Some ostate, st)
  end.

(** The state a program starts with; the table is at address 0. *)
Definition randtbl : list Z :=
  3 :: (i32 <$>
    [0x9a319039; 0x32d9c024; 0x9b663182; 0x5da1f342; 0xde3b81e0; 0xdf0a6fb5; 0xf103bc02; 0x48f340fb;
     0x7449e56b; 0xbeb1dbb0; 0xab5c5918; 0x946554fd; 0x8c2e680f; 0xeb3d799f; 0xb11ee0b7; 0x2d436b86;
     0xda672e2a; 0x1588ca88; 0xe369735d; 0x904f35f7; 0xd7158fd6; 0x6fa6f051; 0x616e6b96; 0xac94efdc;
     0x36413f93; 0xc622c298; 0xf5a42ab8; 0x8a88d77b; 0xf5ad9d0e; 0x8999220b; 0x27fb47b9]).
Definition start (m : gmap Z (list Z)) : rand := mk_rand (<[0 := randtbl]> m) (0, 4) (0, 1) (0, 1) (0, 32) 3 31 3.

(** ** pseudorand.c *)

Definition MULTIPLIER : Z := 16807.
Definition MODULUS : Z := 0x7fffffff.

(** The value returned and the new seed. *)
Definition pseudorand_random (ps_seed : Z) : Z * Z :=
  let hi := i32 (ps_seed / 127773) in
  let lo := i32 (ps_seed mod 127773) in
  let tmp := i32 (i32 (MULTIPLIER * lo) - i32 (2836 * hi)) in
  let tmp := if tmp <=? 0 then i32 (tmp + MODULUS) else tmp in
  let ps_seed := u32 tmp in
  (u32 (ps_seed - 1), ps_seed).

(** The bytes of one round of [pseudorand_read]. *)
Definition pseudorand_bytes (val : Z) : list Z :=
  [u8 (Z.shiftr (Z.land val 0x00000ff0) 4); u8 (Z.shiftr (Z.land val 0x000ff000) 12); u8 (Z.shiftr (Z.land val 0x0ff00000) 20)].

Fixpoint pseudorand_read (fuel : nat) (valid : Z -> bool) (curspace : option Z) (ps_seed : Z) (u : uio) : res (Z * Z * uio) :=
  match fuel with
  | O => Fuel
  | S fuel =>
      if uio_resid u >? 0 then
        let '(val, ps_seed) := pseudorand_random ps_seed in
        '(result, _, u) ← uiomove valid curspace (pseudorand_bytes val) 3 u;
        if negb (result =? 0) then Ok (result, ps_seed, u) else pseudorand_read fuel valid curspace ps_seed u
      else Ok (0, ps_seed, u)
  end.

(** ** The generator as a recurrence *)

(** A type and the words of the state, the oldest first: the next word is the
    sum of the oldest one and of the one [sep] places from the end.  The
    generator of type 0 has one word. *)
Definition generator : Type := Z * list Z.
Implicit Types (g : generator) (st : rand).

Definition sep_of (type : Z) : nat := Z.to_nat (default 0 (seps !! Z.to_nat type)).
Definition deg_of (type : Z) : nat := Z.to_nat (default 0 (degrees !! Z.to_nat type)).

Definition lcg (x : Z) : Z := i32 (i32 (1103515245 * x) + 12345).

Definition next g : Z * generator :=
  match g with
  | (0, [x]) => let i := Z.land (lcg x) 0x7fffffff in (i, (0, [i]))
  | (type, x :: q) =>
      let s := i32 (x + default 0 ((x :: q) !! (length (x :: q) - sep_of type)%nat)) in
      (Z.land (Z.shiftr (u32 s) 1) 0x7fffffff, (type, q ++ [s]))
  | (type, []) => (0, (type, []))
  end.

Fixpoint stream (n : nat) g : list Z :=
  match n with O => [] | S n => (next g).1 :: stream n (next g).2 end.
Fixpoint after (n : nat) g : generator :=
  match n with O => g | S n => after n (next g).2 end.

(** The words of a generator of a type in its array, when the front pointer
    is at word [f]. *)
Definition words_at (type : Z) (f : nat) (q l : list Z) : Prop :=
  if type =? 0 then exists h x rest, l = h :: x :: rest /\ q = [x]
  else exists h u v rest, l = h :: u ++ v ++ rest /\ q = v ++ u /\ v <> [] /\ length u = f /\ (length u + length v)%nat = deg_of type.

(** The position of the rear pointer when the front one is at word [f]. *)
Definition rear (type : Z) (f : nat) : Z := (Z.of_nat f - Z.of_nat (sep_of type)) mod Z.of_nat (deg_of type).

(** The generator [g] is the current one, and its array is at [a]. *)
Definition runs (a : Z) g st : Prop :=
  0 <= g.1 <= 4 /\ state st = (a, 1) /\ rand_type st = g.1 /\
  rand_deg st = Z.of_nat (deg_of g.1) /\ rand_sep st = Z.of_nat (sep_of g.1) /\ end_ptr st = (a, 1 + Z.of_nat (deg_of g.1)) /\
  exists l f, memory st !! a = Some l /\ words_at g.1 f g.2 l /\
    (g.1 <> 0 -> fptr st = (a, 1 + Z.of_nat f) /\ rptr st = (a, 1 + rear g.1 f)).

(** The generator [g] can be resumed from the array at [a]. *)
Definition saved (a : Z) g st : Prop :=
  0 <= g.1 <= 4 /\
  exists l f, memory st !! a = Some (MAX_TYPES * (if g.1 =? 0 then 0 else rear g.1 f) + g.1 :: l) /\ words_at g.1 f g.2 (0 :: l).

(** ** Cells of the arrays *)

Lemma deref_at st a l i x : memory st !! a = Some l -> l !! i = Some x -> deref st (a, Z.of_nat i) = Ok x.
Proof. intros Hm Hl. unfold deref. cbn. rewrite Hm. apply load_Ok; [lia|]. by rewrite Nat2Z.id. Qed.

Lemma assign_at st a l i x : memory st !! a = Some l -> (i < length l)%nat ->
  assign st (a, Z.of_nat i) x = Ok (with_memory (<[a := <[i := x]> l]> (memory st)) st).
Proof. intros Hm Hi. unfold assign. cbn. rewrite Hm, store_in_range by lia. by rewrite Nat2Z.id. Qed.

(** The types that have a table of words. *)
Lemma tables type : 0 <= type <= 4 ->
  load degrees type = Ok (Z.of_nat (deg_of type)) /\ load seps type = Ok (Z.of_nat (sep_of type)) /\
  (type <> 0 -> (0 < sep_of type < deg_of type)%nat) /\ (type = 0 -> deg_of type = 0%nat).
Proof.
  intros H. assert (type = 0 \/ type = 1 \/ type = 2 \/ type = 3 \/ type = 4) as Hc by lia.
  destruct Hc as [->|[->|[->|[->| ->]]]]; vm_compute; repeat split; (done || lia).
Qed.

Lemma rear_front type f : 0 <= type <= 4 -> type <> 0 -> (f < deg_of type)%nat ->
  rear type f = if (sep_of type <=? f)%nat then Z.of_nat (f - sep_of type) else Z.of_nat (f + deg_of type - sep_of type).
Proof.
  intros Ht Hn Hf. destruct (tables type Ht) as (_ & _ & Hs & _). specialize (Hs Hn). unfold rear.
  destruct (Nat.leb_spec (sep_of type) f).
  - rewrite Z.mod_small; lia.
  - rewrite <- (Z_mod_plus_full _ 1), Z.mod_small; lia.
Qed.

(** The word at the rear pointer is the one [sep] places from the end. *)
Lemma rear_word type (h : Z) (u v rest : list Z) : 0 <= type <= 4 -> type <> 0 -> v <> [] -> (length u + length v)%nat = deg_of type ->
  exists y, (h :: u ++ v ++ rest) !! S (Z.to_nat (rear type (length u))) = Some y /\ (v ++ u) !! (length (v ++ u) - sep_of type)%nat = Some y.
Proof.
  intros Ht Hn Hv Hl. destruct (tables type Ht) as (_ & _ & Hs & _). specialize (Hs Hn).
  assert (0 < length v)%nat by (destruct v; [done|cbn; lia]).
  rewrite rear_front by (done || lia). rewrite length_app. cbn [lookup list_lookup].
  destruct (Nat.leb_spec (sep_of type) (length u)) as [Hle|Hgt]; rewrite Nat2Z.id.
  - destruct (lookup_lt_is_Some_2 u (length u - sep_of type)) as [y Hy]; [lia|]. exists y.
    rewrite (lookup_app_l u), (lookup_app_r v) by lia. split; [done|]. rewrite <- Hy. f_equal. lia.
  - destruct (lookup_lt_is_Some_2 v (deg_of type - sep_of type)) as [y Hy]; [lia|]. exists y.
    rewrite (lookup_app_r u), !(lookup_app_l v) by lia. rewrite <- Hy. split; f_equal; lia.
Qed.

(** Advancing the front pointer: the words after a step, and where the rear
    pointer goes. *)
Lemma words_advance type (h : Z) u x v rest s : type <> 0 -> (length u + S (length v))%nat = deg_of type ->
  words_at type (if decide (v = []) then 0%nat else S (length u)) (v ++ u ++ [s]) (<[S (length u) := s]> (h :: u ++ (x :: v) ++ rest)).
Proof.
  intros Hn Hl. unfold words_at. destruct (Z.eqb_spec type 0); [done|].
  assert (<[S (length u) := s]> (h :: u ++ (x :: v) ++ rest) = h :: (u ++ [s]) ++ v ++ rest) as ->.
  { change (h :: <[length u := s]> (u ++ (x :: v) ++ rest) = h :: (u ++ [s]) ++ v ++ rest).
    rewrite insert_app_r_alt, Nat.sub_diag, <- app_assoc by lia. done. }
  exists h. case_decide as Hv.
  - subst v. exists [], (u ++ [s]), rest. rewrite app_nil_r. cbn in *. repeat split; [by destruct u|]. rewrite length_app. cbn. lia.
  - exists (u ++ [s]), v, rest. rewrite length_app. cbn. repeat split; [done|lia..].
Qed.

Lemma rear_advance type f : 0 <= type <= 4 -> type <> 0 -> (f < deg_of type)%nat ->
  if decide (S f = deg_of type) then rear type 0 = rear type f + 1
  else rear type (S f) = if decide (rear type f + 1 = Z.of_nat (deg_of type)) then 0 else rear type f + 1.
Proof.
  intros Ht Hn Hf. destruct (tables type Ht) as (_ & _ & Hs & _). specialize (Hs Hn). case_decide as Hd.
  - rewrite !rear_front by (done || lia). destruct (Nat.leb_spec (sep_of type) 0), (Nat.leb_spec (sep_of type) f); lia.
  - rewrite !rear_front by (done || lia). case_decide; destruct (Nat.leb_spec (sep_of type) (S f)), (Nat.leb_spec (sep_of type) f); lia.
Qed.

(** ** random() *)

(** The arrays other than the one at [a] are as they were. *)
Definition only (a : Z) st st' : Prop := forall b, b <> a -> memory st' !! b = memory st !! b.

Lemma only_refl a st : only a st st.
Proof. done. Qed.
Lemma only_trans a st st1 st2 : only a st st1 -> only a st1 st2 -> only a st st2.
Proof. intros H H' b Hb. by rewrite H', H. Qed.
Lemma only_insert a l st : only a st (with_memory (<[a := l]> (memory st)) st).
Proof. intros b Hb. cbn. by rewrite lookup_insert_ne. Qed.

Lemma random_linear a x st : runs a (0, [x]) st ->
  exists st', random_unlocked st = Ok ((next (0, [x])).1, st') /\ runs a (next (0, [x])).2 st' /\ only a st st'.
Proof.
  intros (Ht & Hs & Hty & Hd & Hsep & He & l & f & Hm & Hw & _). cbn in *. destruct Hw as (h & x' & rest & -> & [= <-]).
  unfold random_unlocked. rewrite Hty, Hs. cbn [Z.eqb]. change (a, 1) with (a, Z.of_nat 1). rewrite (deref_at st a _ 1 x Hm eq_refl), bind_Ok. cbv zeta.
  rewrite (assign_at st a _ 1 _ Hm) by (cbn; lia). rewrite bind_Ok, (Z.mul_comm x). eexists. split; [reflexivity|].
  split; [|apply only_insert]. unfold runs. cbn [fst snd next state rand_type rand_deg rand_sep end_ptr with_memory]. repeat split; try done. eexists _, f. cbn. rewrite lookup_insert_eq.
  repeat split; [|done..]. by eexists _, _, _.
Qed.

Lemma ptr_geb_same a i j : ptr_geb (a, i) (a, j) = Ok (i >=? j).
Proof. unfold ptr_geb. cbn. by rewrite Z.eqb_refl. Qed.

Lemma random_additive a type q st : type <> 0 -> runs a (type, q) st ->
  exists st', random_unlocked st = Ok ((next (type, q)).1, st') /\ runs a (next (type, q)).2 st' /\ only a st st'.
Proof.
  intros Hn (Ht & Hs & Hty & Hd & Hsep & He & l & f & Hm & Hw & Hp). cbn [fst snd] in *. destruct (Hp Hn) as [Hf Hr]. clear Hp.
  unfold words_at in Hw. destruct (Z.eqb_spec type 0) as [|_]; [done|]. destruct Hw as (h & u & v & rest & -> & -> & Hv & <- & Hl).
  destruct (rear_word type h u v rest Ht Hn Hv Hl) as (y & Hy & Hy'). destruct v as [|x v]; [done|]. cbn [length] in Hl.
  assert ((h :: u ++ (x :: v) ++ rest) !! S (length u) = Some x) as Hx by (change ((u ++ x :: v ++ rest) !! length u = Some x); by apply list_lookup_middle).
  assert (0 <= rear type (length u)) as Hr0 by (apply Z.mod_pos_bound; lia).
  unfold random_unlocked. rewrite Hty, Hf, Hr. destruct (Z.eqb_spec type 0) as [|_]; [done|]. cbv zeta.
  replace (1 + Z.of_nat (length u)) with (Z.of_nat (S (length u))) by lia.
  replace (1 + rear type (length u)) with (Z.of_nat (S (Z.to_nat (rear type (length u))))) by lia.
  rewrite (deref_at st a _ _ x Hm Hx), bind_Ok, (deref_at st a _ _ y Hm Hy), bind_Ok.
  rewrite (assign_at st a _ _ _ Hm) by exact (lookup_lt_Some _ _ _ Hx). rewrite bind_Ok.
  erewrite deref_at; [|apply lookup_insert_eq|apply list_lookup_insert_eq; exact (lookup_lt_Some _ _ _ Hx)]. rewrite bind_Ok.
  unfold offset. cbn [end_ptr state with_memory fst snd]. rewrite He, Hs, !ptr_geb_same, !bind_Ok.
  pose proof (words_advance type h u x v rest (i32 (x + y)) Hn Hl) as Hw'. pose proof (rear_advance type (length u) Ht Hn ltac:(lia)) as Ha.
  assert (next (type, (x :: v) ++ u) = (Z.land (Z.shiftr (u32 (i32 (x + y))) 1) 0x7fffffff, (type, (v ++ u) ++ [i32 (x + y)]))) as ->.
  { unfold next. destruct type as [|p|p]; [done| |]; by rewrite <- app_comm_cons in *; rewrite Hy'. }
  cbn [fst snd]. rewrite <- (app_assoc v) in *. rewrite !Z.geb_leb.
  destruct (decide (v = [])) as [->|Hv'].
  - rewrite decide_True in Ha by (cbn in Hl; lia). destruct (Z.leb_spec (1 + Z.of_nat (deg_of type)) (Z.of_nat (S (length u)) + 1)); [|cbn in Hl; lia].
    eexists. split; [reflexivity|]. split; [|intros b Hb; cbn; by rewrite lookup_insert_ne].
    do 6 (split; [done|]). eexists _, 0%nat. cbn [memory with_memory set_ptrs]. rewrite lookup_insert_eq. split; [done|]. split; [apply Hw'|]. intros _. split; [done|].
    cbn [rptr set_ptrs with_memory fst]. rewrite Ha. f_equal. lia.
  - assert (0 < length v)%nat by (destruct v; [done|cbn; lia]). rewrite decide_False in Ha by lia.
    destruct (Z.leb_spec (1 + Z.of_nat (deg_of type)) (Z.of_nat (S (length u)) + 1)); [lia|].
    eexists. split; [reflexivity|]. split; [|intros b Hb; cbn; by rewrite lookup_insert_ne].
    do 6 (split; [done|]). eexists _, (S (length u)). cbn [memory with_memory set_ptrs]. rewrite lookup_insert_eq. split; [done|]. split; [apply Hw'|]. intros _. split.
    + cbn. f_equal. lia.
    + cbn [rptr set_ptrs with_memory fst]. rewrite Ha. assert (rear type (length u) < Z.of_nat (deg_of type)) by (apply Z.mod_pos_bound; lia).
      case_decide; destruct (Z.leb_spec (1 + Z.of_nat (deg_of type)) (Z.of_nat (S (Z.to_nat (rear type (length u)))) + 1)); try lia; f_equal; lia.
Qed.

Lemma random_spec a g st : runs a g st ->
  exists st', random_unlocked st = Ok ((next g).1, st') /\ runs a (next g).2 st' /\ only a st st'.
Proof.
  intros H. destruct g as [type q]. destruct (decide (type = 0)) as [->|Hn]; [|by apply random_additive].
  destruct H as (H0 & H1 & H2 & H3 & H4 & H5 & l & f & H6 & Hw & H7). destruct Hw as (h & x & rest & -> & Hq). cbn in Hq. subst q.
  apply random_linear. repeat split; try done. exists (h :: x :: rest), f. repeat split; try done. by exists h, x, rest.
Qed.

Lemma randoms_spec n a : forall g st, runs a g st ->
  exists st', randoms n st = Ok (stream n g, st') /\ runs a (after n g) st' /\ only a st st'.
Proof.
  induction n as [|n IH]; intros g st H; [by exists st|]. destruct (random_spec a g st H) as (st1 & E1 & H1 & Ho1).
  destruct (IH _ _ H1) as (st2 & E2 & H2 & Ho2). exists st2. cbn. rewrite E1, bind_Ok, E2, bind_Ok. split; [done|]. split; [done|]. by eapply only_trans.
Qed.

Lemma next_range g : 0 <= (next g).1 < 2147483648.
Proof.
  assert (forall z, 0 <= Z.land z 0x7fffffff < 2147483648) as H.
  { intros z. change 0x7fffffff with (Z.ones 31). rewrite Z.land_ones by lia. apply Z.mod_pos_bound. lia. }
  destruct g as [[|p|p] [|x [|y q]]]; cbn [next fst]; (apply H || lia).
Qed.

Lemma length_stream n : forall g, length (stream n g) = n.
Proof. induction n as [|n IH]; intros g; [done|]. cbn [stream length]. by rewrite IH. Qed.

Lemma stream_range n : forall g, Forall (fun x => 0 <= x < 2147483648) (stream n g).
Proof. induction n as [|n IH]; intros g; [done|]. cbn. constructor; [apply next_range|apply IH]. Qed.

(** ** srandom() *)

Fixpoint lcgs (n : nat) (x : Z) : list Z :=
  match n with O => [] | S n => lcg x :: lcgs n (lcg x) end.

(** The generator that a seed gives: the words of a linear congruential
    generator, of which the first [sep] are the last ones written, after
    [10 * deg] values that are thrown away. *)
Definition seeded (type x : Z) : generator :=
  if type =? 0 then (0, [i32 x])
  else
    let ws := i32 x :: lcgs (deg_of type - 1) (i32 x) in
    after (10 * deg_of type) (type, drop (sep_of type) ws ++ take (sep_of type) ws).

(** A generator of a type is current, on an array that is large enough. *)
Definition switched (a type : Z) st : Prop :=
  0 <= type <= 4 /\ state st = (a, 1) /\ rand_type st = type /\
  rand_deg st = Z.of_nat (deg_of type) /\ rand_sep st = Z.of_nat (sep_of type) /\ end_ptr st = (a, 1 + Z.of_nat (deg_of type)) /\
  exists l, memory st !! a = Some l /\ (S (Nat.max 1 (deg_of type)) <= length l)%nat.

Lemma length_lcgs n : forall x, length (lcgs n x) = n.
Proof. induction n as [|n IH]; intros x; [done|]. cbn. by rewrite IH. Qed.

Lemma with_memory_insert a l l' st :
  with_memory (<[a := l']> (memory (with_memory (<[a := l]> (memory st)) st))) (with_memory (<[a := l]> (memory st)) st) = with_memory (<[a := l']> (memory st)) st.
Proof. unfold with_memory. cbn. by rewrite insert_insert_eq. Qed.

Lemma seed_loop_spec n a h : forall pre x rest st,
  state st = (a, 1) -> memory st !! a = Some (h :: pre ++ x :: rest) -> (n <= length rest)%nat ->
  seed_loop n (Z.of_nat (S (length pre))) st = Ok (with_memory (<[a := h :: pre ++ x :: lcgs n x ++ drop n rest]> (memory st)) st).
Proof.
  induction n as [|n IH]; intros pre x rest st Hs Hm Hn.
  { cbn. rewrite insert_id by done. by destruct st. }
  cbn [seed_loop]. rewrite Hs. unfold offset. cbn [fst snd].
  replace (1 + (Z.of_nat (S (length pre)) - 1)) with (Z.of_nat (S (length pre))) by lia.
  replace (1 + Z.of_nat (S (length pre))) with (Z.of_nat (S (S (length pre)))) by lia.
  rewrite (deref_at st a _ _ x Hm) by (change ((pre ++ x :: rest) !! length pre = Some x); by apply list_lookup_middle). rewrite bind_Ok.
  destruct rest as [|y rest]; [cbn in Hn; lia|].
  rewrite (assign_at st a _ _ _ Hm) by (cbn; rewrite length_app; cbn; lia). rewrite bind_Ok.
  assert (<[S (S (length pre)) := lcg x]> (h :: pre ++ x :: y :: rest) = h :: (pre ++ [x]) ++ lcg x :: rest) as Hi.
  { change (h :: <[S (length pre) := lcg x]> (pre ++ x :: y :: rest) = h :: (pre ++ [x]) ++ lcg x :: rest).
    rewrite insert_app_r_alt, <- app_assoc by lia. by replace (S (length pre) - length pre)%nat with 1%nat by lia. }
  fold (lcg x). rewrite Hi. replace (Z.of_nat (S (length pre)) + 1) with (Z.of_nat (S (length (pre ++ [x])))) by (rewrite length_app; cbn; lia).
  rewrite (IH _ (lcg x) rest); [|done|apply lookup_insert_eq|cbn in Hn; lia]. rewrite with_memory_insert. cbn. by rewrite <- app_assoc.
Qed.

Lemma seeded_words type x h rest : 0 <= type <= 4 -> type <> 0 ->
  let ws := i32 x :: lcgs (deg_of type - 1) (i32 x) in
  words_at type (sep_of type) (drop (sep_of type) ws ++ take (sep_of type) ws) (h :: ws ++ rest).
Proof.
  intros Ht Hn ws. destruct (tables type Ht) as (_ & _ & Hs & _). specialize (Hs Hn).
  assert (length ws = deg_of type) as Hl by (cbn; rewrite length_lcgs; lia).
  unfold words_at. destruct (Z.eqb_spec type 0); [done|]. exists h, (take (sep_of type) ws), (drop (sep_of type) ws), rest.
  rewrite app_assoc, take_drop, length_take, length_drop. repeat split; try lia. intros H. apply (f_equal length) in H. rewrite length_drop in H. change (length (@nil Z)) with 0%nat in H. lia.
Qed.

Lemma srandom_spec a type x st : switched a type st ->
  exists st', srandom_unlocked x st = Ok st' /\ runs a (seeded type x) st' /\ only a st st'.
Proof.
  intros (Ht & Hs & Hty & Hd & Hsep & He & l & Hm & Hl). unfold srandom_unlocked, seeded. rewrite Hs. change (a, 1) with (a, Z.of_nat 1).
  rewrite (assign_at st a _ _ _ Hm) by lia. rewrite bind_Ok. cbn [rand_type with_memory]. rewrite Hty.
  destruct l as [|h [|y rest]]; [cbn in Hl; lia..|]. cbn [insert list_insert]. destruct (Z.eqb_spec type 0) as [->|Hn].
  { eexists. split; [reflexivity|]. split; [|apply only_insert]. do 6 (split; [done|]). eexists _, 0%nat. cbn. rewrite lookup_insert_eq. split; [done|].
    split; [|done]. by eexists _, _, _. }
  destruct (tables type Ht) as (_ & _ & Hse & _). specialize (Hse Hn). cbn [rand_deg with_memory]. rewrite Hd. change 1 with (Z.of_nat (S (@length Z []))) at 2.
  replace (Z.to_nat (Z.of_nat (deg_of type) - 1)) with (deg_of type - 1)%nat by lia.
  rewrite (seed_loop_spec _ a h [] (i32 x) rest); [|done|apply lookup_insert_eq|cbn in Hl; lia]. rewrite bind_Ok, with_memory_insert. cbv zeta.
  cbn [state rand_sep rand_deg set_ptrs with_memory]. rewrite Hs, Hsep, Hd. replace (Z.to_nat (10 * Z.of_nat (deg_of type))) with (10 * deg_of type)%nat by lia.
  set (ws := i32 x :: lcgs (deg_of type - 1) (i32 x)). set (rest' := drop _ rest).
  edestruct (randoms_spec (10 * deg_of type) a (type, drop (sep_of type) ws ++ take (sep_of type) ws)) as (st' & E & Hr & Ho); [|rewrite E; eexists; split; [reflexivity|]; split; [exact Hr|]].
  - do 6 (split; [done|]). exists (h :: ws ++ rest'), (sep_of type). cbn. rewrite lookup_insert_eq. split; [done|].
    split; [by apply seeded_words|]. intros _. split; [done|]. rewrite rear_front by (done || lia). rewrite Nat.leb_refl, Nat.sub_diag. done.
  - eapply only_trans; [|exact Ho]. intros b Hb. cbn. by rewrite lookup_insert_ne.
Qed.

(** ** initstate() and setstate() *)

Lemma save_spec a g st : runs a g st -> exists st', save st = Ok st' /\ runs a g st' /\ saved a g st' /\ only a st st'.
Proof.
  intros (Ht & Hs & Hty & Hd & Hsep & He & l & f & Hm & Hw & Hp).
  assert (packed st = Ok (MAX_TYPES * (if g.1 =? 0 then 0 else rear g.1 f) + g.1)) as Hpk.
  { unfold packed. rewrite Hty. destruct (Z.eqb_spec g.1 0) as [->|Hn]; [done|]. destruct (Hp Hn) as [_ ->]. rewrite Hs. unfold ptr_sub. cbn [fst snd].
    rewrite Z.eqb_refl, bind_Ok. do 2 f_equal. lia. }
  assert (exists h l', l = h :: l' /\ forall x, words_at g.1 f g.2 (x :: l')) as (h & l' & -> & Hw').
  { unfold words_at in *. destruct (g.1 =? 0); [destruct Hw as (h & x & rest & -> & ->); eexists _, _; split; [done|]; intros y; by eexists _, _, _|].
    destruct Hw as (h & u & v & rest & -> & ?). eexists _, _. split; [done|]. intros y. by exists y, u, v, rest. }
  unfold save. rewrite Hpk, bind_Ok, Hs. unfold offset. cbn [fst snd]. change (1 + -1) with (Z.of_nat 0). rewrite (assign_at st a _ _ _ Hm) by (cbn; lia).
  eexists. split; [reflexivity|]. split; [|split; [|apply only_insert]].
  - do 6 (split; [done|]). eexists _, f. cbn. rewrite lookup_insert_eq. split; [done|]. split; [apply Hw'|done].
  - split; [done|]. exists l', f. cbn. rewrite lookup_insert_eq. split; [done|apply Hw'].
Qed.

Lemma saved_only a b g st st' : a <> b -> only b st st' -> saved a g st -> saved a g st'.
Proof. intros Hab Ho (Ht & l & f & Hm & Hw). split; [done|]. exists l, f. by rewrite Ho. Qed.

(** The front pointer is found again from the rear one. *)
Lemma front_rear type f : 0 <= type <= 4 -> type <> 0 -> (f < deg_of type)%nat ->
  Z.rem (rear type f + Z.of_nat (sep_of type)) (Z.of_nat (deg_of type)) = Z.of_nat f.
Proof.
  intros Ht Hn Hf. destruct (tables type Ht) as (_ & _ & Hs & _). specialize (Hs Hn). rewrite rear_front by done.
  destruct (Nat.leb_spec (sep_of type) f).
  - rewrite Z.rem_small; lia.
  - rewrite Z.rem_mod_nonneg by lia. replace (_ + _) with (Z.of_nat f + 1 * Z.of_nat (deg_of type)) by lia. rewrite Z_mod_plus_full, Z.mod_small; lia.
Qed.

Lemma words_front type f q l : type <> 0 -> words_at type f q l -> (f < deg_of type)%nat.
Proof.
  intros Hn Hw. unfold words_at in Hw. destruct (Z.eqb_spec type 0); [done|]. destruct Hw as (h & u & v & rest & _ & _ & Hv & <- & Hl).
  destruct v; [done|]. cbn in Hl. lia.
Qed.

Lemma unpack type k : 0 <= type <= 4 -> 0 <= k -> Z.rem (MAX_TYPES * k + type) MAX_TYPES = type /\ Z.quot (MAX_TYPES * k + type) MAX_TYPES = k.
Proof. intros Ht Hk. unfold MAX_TYPES. rewrite Z.rem_mod_nonneg, Z.quot_div_nonneg by lia. split; dlia. Qed.

Lemma setstate_spec a b g g' st : a <> b -> runs a g st -> saved b g' st ->
  exists st', setstate (Some b) st = Ok (Some a, st') /\ runs b g' st' /\ saved a g st' /\ only a st st'.
Proof.
  intros Hab Hr Hsv. destruct (save_spec a g st Hr) as (st1 & E1 & Hr1 & Hsv1 & Ho1).
  pose proof (saved_only b a g' st st1 ltac:(done) Ho1 Hsv) as (Ht & l & f & Hm & Hw). destruct Hsv as (_ & l0 & f0 & Hm0 & _).
  rewrite Ho1, Hm0 in Hm by done. injection Hm as Hf ->.
  assert (g'.1 <> 0 -> rear g'.1 f0 = rear g'.1 f) as Hff by (intros Hn; rewrite (proj2 (Z.eqb_neq _ _) Hn) in Hf; unfold MAX_TYPES in Hf; lia).
  assert (0 <= (if g'.1 =? 0 then 0 else rear g'.1 f0)) as Hk.
  { destruct (Z.eqb_spec g'.1 0); [done|]. apply Z.mod_pos_bound. destruct (tables _ Ht) as (_ & _ & Hs & _). specialize (Hs ltac:(done)). lia. }
  destruct (unpack g'.1 _ Ht Hk) as [Hty Hrear]. destruct (tables _ Ht) as (Hd & Hs & Hse & _).
  unfold setstate. destruct Hr as (_ & Hst & _). rewrite Hst. change (b, 0) with (b, Z.of_nat 0). erewrite deref_at; [|exact Hm0|reflexivity].
  rewrite bind_Ok, E1, bind_Ok. cbv zeta. rewrite Hty, Hrear. destruct (Z.ltb_spec g'.1 0); [lia|]. rewrite Z.gtb_ltb. destruct (Z.ltb_spec 4 g'.1); [lia|].
  cbn [orb]. unfold switch_to. rewrite Hd, bind_Ok, Hs, bind_Ok, bind_Ok. cbn [state rand_sep rand_deg fst snd offset]. eexists. split; [reflexivity|].
  assert (only a st1 st1) by done. destruct (Z.eqb_spec g'.1 0) as [Hz|Hn]; cbn [negb].
  - split; [|split; [exact Hsv1|exact Ho1]]. do 6 (split; [done|]). eexists _, f. cbn. rewrite Ho1, Hm0 by done. split; [done|].
    split; [|done]. revert Hw. unfold words_at. rewrite Hz. cbn. intros (h & x & rest & [= <- ->] & ->). by eexists _, _, _.
  - split; [|split; [exact Hsv1|exact Ho1]]. pose proof (words_front _ _ _ _ Hn Hw) as Hlt. do 6 (split; [done|]). eexists _, f. cbn. rewrite Ho1, Hm0 by done. split; [done|].
    split; [|intros _; split]; [| |f_equal; by rewrite Hff].
    + revert Hw. unfold words_at. destruct (Z.eqb_spec g'.1 0); [done|]. intros (h & u & v & rest & [= <- ->] & ?). by eexists _, u, v, rest.
    + f_equal. by rewrite Hff, front_rear.
Qed.

(** The generator that [n] bytes of state are used for. *)
Definition type_for (n : Z) : Z := if n <? 32 then 0 else if n <? 64 then 1 else if n <? 128 then 2 else if n <? 256 then 3 else 4.

Lemma initstate_spec seed a b n l g st : a <> b -> runs a g st -> memory st !! b = Some l -> 8 <= n <= 4 * Z.of_nat (length l) ->
  exists st', initstate seed (Some b) n st = Ok (Some a, st') /\ runs b (seeded (type_for n) seed) st' /\ saved a g st' /\
    forall c, c <> a -> c <> b -> memory st' !! c = memory st !! c.
Proof.
  intros Hab Hr Hb Hn. destruct (save_spec a g st Hr) as (st1 & E1 & _ & Hsv & Ho1).
  unfold initstate. destruct Hr as (_ & Hst & _). rewrite Hst, E1, bind_Ok. destruct (Z.ltb_spec n 8); [lia|]. cbv zeta. fold (type_for n). cbn [fst].
  assert (0 <= type_for n <= 4 /\ (S (Nat.max 1 (deg_of (type_for n))) <= length l)%nat) as [Ht Hl].
  { unfold type_for. zbool; vm_compute deg_of; split; lia. }
  destruct (tables _ Ht) as (Hd & Hs & _). unfold switch_to. rewrite Hd, bind_Ok, Hs, bind_Ok, bind_Ok.
  edestruct (srandom_spec b (type_for n) seed) as (st2 & E2 & Hr2 & Ho2); [|rewrite E2, bind_Ok].
  { do 6 (split; [done|]). exists l. cbn. by rewrite Ho1. }
  destruct (save_spec _ _ _ Hr2) as (st3 & E3 & Hr3 & _ & Ho3). rewrite E3, bind_Ok. exists st3. split; [done|]. split; [done|]. split.
  - apply (saved_only a b g st2); [done..|]. by apply (saved_only a b g st1).
  - intros c Hca Hcb. by rewrite Ho3, Ho2, <- Ho1.
Qed.

(** ** The generators of random.c *)

Lemma start_runs m : runs 0 (3, drop 4 randtbl ++ take 3 (drop 1 randtbl)) (start m).
Proof.
  do 6 (split; [done || lia|]). exists randtbl, 3%nat. cbn [memory start]. rewrite lookup_insert_eq. split; [done|]. split; [|done].
  exists 3, (take 3 (drop 1 randtbl)), (drop 4 randtbl), []. by vm_compute.
Qed.

(** C38. random() is the linear recurrence that random.c describes, and its
    states can be switched.  From any state of the generator, n calls give
    the next n values of the recurrence (the sum, modulo 2^32, of the word
    written deg calls ago and the one written sep calls ago, without its
    lowest bit), all between 0 and 2^31 - 1.  initstate() with another array
    of at least 8 bytes leaves a generator that depends on the seed and the
    size alone; setstate() with the old array afterwards resumes the old
    sequence where it was, whatever was drawn in between. *)
Theorem random_states seed n k m a b l g st :
  a <> b -> runs a g st -> memory st !! b = Some l -> 8 <= n <= 4 * Z.of_nat (length l) ->
  exists st0 st1 st2 st3 st4,
    randoms m st = Ok (stream m g, st0) /\ Forall (fun x => 0 <= x < 2147483648) (stream m g) /\
    initstate seed (Some b) n st = Ok (Some a, st1) /\
    randoms k st1 = Ok (stream k (seeded (type_for n) seed), st2) /\
    setstate (Some a) st2 = Ok (Some b, st3) /\ runs a g st3 /\ saved b (after k (seeded (type_for n) seed)) st3 /\
    randoms m st3 = Ok (stream m g, st4).
Proof.
  intros Hab Hr Hb Hn. destruct (randoms_spec m a g st Hr) as (st0 & E0 & _).
  destruct (initstate_spec seed a b n l g st Hab Hr Hb Hn) as (st1 & E1 & Hr1 & Hs1 & _).
  destruct (randoms_spec k b _ st1 Hr1) as (st2 & E2 & Hr2 & Ho2). apply (saved_only a b g st1 st2 Hab Ho2) in Hs1.
  destruct (setstate_spec b a _ g st2 ltac:(done) Hr2 Hs1) as (st3 & E3 & Hr3 & Hs3 & _). destruct (randoms_spec m a g st3 Hr3) as (st4 & E4 & _).
  exists st0, st1, st2, st3, st4. do 7 (split; [done || apply stream_range|]). done.
Qed.

Lemma random_states_witness :
  let st := start {[1 := replicate 8 0]} in
  let g := (3, drop 4 randtbl ++ take 3 (drop 1 randtbl)) in
  exists st0 st1 st2 st3 st4,
    randoms 2 st = Ok (stream 2 g, st0) /\ Forall (fun x => 0 <= x < 2147483648) (stream 2 g) /\
    initstate 42 (Some 1) 32 st = Ok (Some 0, st1) /\ randoms 3 st1 = Ok (stream 3 (seeded (type_for 32) 42), st2) /\
    setstate (Some 0) st2 = Ok (Some 1, st3) /\ runs 0 g st3 /\ saved 1 (after 3 (seeded (type_for 32) 42)) st3 /\ randoms 2 st3 = Ok (stream 2 g, st4).
Proof.
  intros st g. apply (random_states 42 32 3 2 0 1 (replicate 8 0) g st); [lia|apply start_runs|by vm_compute|cbn; lia].
Defined.

(** The table that random.c starts with is what initstate(1, randtbl, 128)
    leaves, as its comment says. *)
Lemma default_table : initstate 1 (Some 0) 128 (start ∅) = Ok (Some 0, start ∅).
Proof. vm_compute. reflexivity. Qed.

(** The comment of setstate() says that it may be called with the current
    state.  It reads the position of the rear pointer before it saves it: the
    pointers go back to where they were at the last initstate() or
    setstate(), and the sequence is another one. *)
Lemma setstate_current_state_jumps :
  ('(_, st) ← randoms 5 (start ∅); '(x, _) ← random_unlocked st; Ok x) = Ok 2002600785 /\
  ('(_, st) ← randoms 5 (start ∅); '(_, st) ← setstate (Some 0) st; '(x, _) ← random_unlocked st; Ok x) = Ok 1224903130.
Proof. split; vm_compute; reflexivity. Qed.

(** ** pseudorand.c *)

(** The Park-Miller generator. *)
Definition park_miller (x : Z) : Z := (MULTIPLIER * x) mod MODULUS.

Lemma park_miller_range x : 1 <= x < MODULUS -> 1 <= park_miller x < MODULUS.
Proof.
  intros Hx. unfold park_miller, MULTIPLIER, MODULUS in *. pose proof (Z.mod_pos_bound (16807 * x) 0x7fffffff ltac:(lia)).
  enough ((16807 * x) mod 0x7fffffff <> 0) by lia. intros H0. apply Z.mod_divide in H0; [|lia].
  apply Z.gauss in H0; [|by vm_compute]. apply Z.divide_pos_le in H0; lia.
Qed.

(** The 32-bit computation does not overflow and gives the product. *)
Lemma pseudorand_spec x : 1 <= x < MODULUS -> pseudorand_random x = (park_miller x - 1, park_miller x).
Proof.
  intros Hx. pose proof (park_miller_range x Hx) as Hr. unfold pseudorand_random. unfold MODULUS, MULTIPLIER in *.
  assert (0 <= x / 127773 <= 16807 /\ 0 <= x mod 127773 < 127773) as [Hq Hm] by dlia.
  assert (x = 127773 * (x / 127773) + x mod 127773) as Hd by dlia.
  rewrite !(i32_small (x / 127773)), !(i32_small (x mod 127773)), (i32_small (16807 * _)), (i32_small (2836 * _)), (i32_small (_ - _)) by lia.
  set (hi := x / 127773) in *. set (lo := x mod 127773) in *. cbv zeta.
  assert (park_miller x = if 16807 * lo - 2836 * hi <=? 0 then 16807 * lo - 2836 * hi + 0x7fffffff else 16807 * lo - 2836 * hi) as Heq.
  { unfold park_miller, MULTIPLIER, MODULUS in *. symmetry. destruct (Z.leb_spec (16807 * lo - 2836 * hi) 0).
    - apply (Z.mod_unique _ _ (hi - 1)); [|lia]. left. enough (16807 * lo - 2836 * hi <> -0x7fffffff /\ 16807 * lo - 2836 * hi <> 0) by lia.
      split; [lia|]. intros H0. assert ((16807 * x) mod 0x7fffffff = 0) as Hz; [|lia].
      replace (16807 * x) with (hi * 0x7fffffff) by lia. apply Z.mod_mul. lia.
    - apply (Z.mod_unique _ _ hi); [left; lia|lia]. }
  rewrite Heq in Hr. rewrite Heq. destruct (Z.leb_spec (16807 * lo - 2836 * hi) 0); nowrap; done.
Qed.

(** [n] bytes of the output of [pseudorand_read], three per number drawn. *)
Fixpoint rand_bytes (rounds : nat) (seed : Z) : list Z :=
  match rounds with
  | O => []
  | S rounds => pseudorand_bytes (park_miller seed - 1) ++ rand_bytes rounds (park_miller seed)
  end.

Lemma length_rand_bytes rounds : forall seed, length (rand_bytes rounds seed) = (3 * rounds)%nat.
Proof. induction rounds as [|r IH]; intros seed; [done|]. cbn [rand_bytes]. rewrite length_app, IH. cbn. lia. Qed.

(** The seed after [rounds] numbers. *)
Definition seed_after (rounds : nat) (seed : Z) : Z := Nat.iter rounds park_miller seed.

Lemma seed_after_S r seed : seed_after (S r) seed = seed_after r (park_miller seed).
Proof. unfold seed_after. induction r as [|r IH]; [done|]. cbn in *. by rewrite IH. Qed.

Section read.
Context (valid : Z -> bool) (curspace : option Z).

(** A read of the random device ends with a uio of which nothing is left. *)
Lemma pseudorand_read_spec rounds : forall fuel seed u,
  uio_wf u -> is_write u = false -> iov_len u = uio_resid u -> reachable valid curspace u (uio_resid u) ->
  1 <= seed < MODULUS -> 0 <= Z.of_nat rounds * 3 - uio_resid u < 3 -> (rounds < fuel)%nat ->
  pseudorand_read fuel valid curspace seed u =
    Ok (0, seed_after rounds seed, advance (uio_resid u) (iov_data u ++ take (Z.to_nat (uio_resid u)) (rand_bytes rounds seed)) u).
Proof.
  induction rounds as [|rounds IH]; intros fuel seed u Hwf Hw Hlen Hr Hs Hn Hf; pose proof Hwf as (_ & Hres & _); (destruct fuel as [|fuel]; [lia|]); cbn [pseudorand_read]; rewrite Z.gtb_ltb.
  { assert (uio_resid u = 0) as Hz by lia. destruct (Z.ltb_spec 0 (uio_resid u)); [lia|]. rewrite Hz. cbn. rewrite app_nil_r, advance_0; [done|apply Hwf]. }
  destruct (Z.ltb_spec 0 (uio_resid u)); [|lia]. rewrite pseudorand_spec by done. set (k := Z.min 3 (uio_resid u)).
  assert (uiomove valid curspace (pseudorand_bytes (park_miller seed - 1)) 3 u =
          Ok (0, pseudorand_bytes (park_miller seed - 1), advance k (iov_data u ++ take (Z.to_nat k) (pseudorand_bytes (park_miller seed - 1))) u)) as ->.
  { destruct (Z.le_gt_cases 3 (uio_resid u)) as [Hge|Hlt].
    - unfold k. rewrite Z.min_l by done. rewrite uiomove_spec by (done || lia || (apply (reachable_le _ _ u (uio_resid u)); [done|lia])). by rewrite Hw.
    - unfold k. rewrite Z.min_r by lia. apply uiomove_short; (done || (cbn; lia)). }
  rewrite bind_Ok. cbn [Z.eqb negb]. pose proof (park_miller_range seed Hs) as Hs'.
  rewrite IH; try done; [| | | |cbn; lia|lia].
  - rewrite advance_advance. cbn [uio_resid iov_data advance]. rewrite seed_after_S. f_equal. f_equal. f_equal; [lia|].
    rewrite <- app_assoc. f_equal. cbn [rand_bytes]. rewrite take_app. f_equal; [|f_equal; cbn; lia].
    unfold k. destruct (Z.min_spec 3 (uio_resid u)) as [[? ->]|[? ->]]; [|done]. by rewrite !take_ge by (cbn; lia).
  - apply advance_wf; [done|lia|by rewrite Hw].
  - cbn. lia.
  - cbn. apply reachable_advance; [apply Hwf|done|lia].
Qed.
End read.

(** The kernel's random device is the Park-Miller generator.  The 32-bit
    computation of pseudorand.c never overflows and gives 16807 times the
    seed modulo 2^31 - 1, which is again a seed; a read fills the whole
    region with the middle 24 bits of successive numbers, three bytes each,
    whatever the size of the region, and ends. *)
Theorem random_device_exact valid curspace seed u :
  1 <= seed < MODULUS ->
  uio_wf u -> is_write u = false -> iov_len u = uio_resid u -> reachable valid curspace u (uio_resid u) ->
  let rounds := Z.to_nat ((uio_resid u + 2) / 3) in
  pseudorand_random seed = (park_miller seed - 1, park_miller seed) /\ 1 <= park_miller seed < MODULUS /\
  forall fuel, (rounds < fuel)%nat ->
    pseudorand_read fuel valid curspace seed u =
      Ok (0, seed_after rounds seed, advance (uio_resid u) (iov_data u ++ take (Z.to_nat (uio_resid u)) (rand_bytes rounds seed)) u).
Proof.
  intros Hs Hwf Hw Hlen Hr rounds. split; [by apply pseudorand_spec|]. split; [by apply park_miller_range|]. intros fuel Hf.
  pose proof Hwf as (_ & Hres & _). apply pseudorand_read_spec; try done. unfold rounds. rewrite Z2Nat.id by dlia. dlia.
Qed.

Lemma random_device_exact_witness :
  pseudorand_random 305824 = (park_miller 305824 - 1, park_miller 305824) /\ 1 <= park_miller 305824 < MODULUS /\
  forall fuel, (Z.to_nat ((4 + 2) / 3) < fuel)%nat ->
    pseudorand_read fuel (fun _ => true) None 305824 (mk_kuio [] 4 0 UIO_READ) =
      Ok (0, seed_after (Z.to_nat ((4 + 2) / 3)) 305824,
          advance 4 ([] ++ take (Z.to_nat 4) (rand_bytes (Z.to_nat ((4 + 2) / 3)) 305824)) (mk_kuio [] 4 0 UIO_READ)).
Proof.
  apply (random_device_exact (fun _ => true) None 305824 (mk_kuio [] 4 0 UIO_READ)); done.
Defined.
