(* ===== verification/SortProg.v ===== *)
(** * testbin/sort/sort.c: a merge sort of random numbers

    The arrays of ints are lists; [sort] works on the part of [A] that starts
    at [arr].  All calls share the static array [tmp]. *)
From Stdlib Require Import Sorting.Sorted Permutation.
From stdpp Require Import base numbers list sorting gmap.
From S2P Require Import Prelude Random.
Local Open Scope Z_scope.

Definition SIZE : Z := 144 * 1024.

(** The loop that takes the smaller one of the next two. *)
Fixpoint merge_loop (fuel : nat) (A : list Z) (arr pivot size i j k : Z) (tmp : list Z) : res (Z * Z * Z * list Z) :=
  match fuel with
  | O => Fuel
  | S fuel =>
      if (i <? pivot) && (j <? size) then
        x ← load A (arr + i);
        y ← load A (arr + j);
        if x <? y then
          tmp ← store tmp k x;
          merge_loop fuel A arr pivot size (i + 1) j (k + 1) tmp
        else
          tmp ← store tmp k y;
          merge_loop fuel A arr pivot size i (j + 1) (k + 1) tmp
      else Ok (i, j, k, tmp)
  end.

(** [while (i<limit) { tmp[k++] = arr[i++]; }] *)
Fixpoint rest_loop (fuel : nat) (A : list Z) (arr limit i k : Z) (tmp : list Z) : res (Z * list Z) :=
  match fuel with
  | O => Fuel
  | S fuel =>
      if i <? limit then
        x ← load A (arr + i);
        tmp ← store tmp k x;
        rest_loop fuel A arr limit (i + 1) (k + 1) tmp
      else Ok (k, tmp)
  end.

(** [memcpy(arr, tmp, size*sizeof(int))] *)
Definition copy_back (A : list Z) (arr : Z) (tmp : list Z) (size : Z) : res (list Z) :=
  if (0 <=? arr) && (arr + size <=? Z.of_nat (length A)) && (size <=? Z.of_nat (length tmp)) then
    Ok (take (Z.to_nat arr) A ++ take (Z.to_nat size) tmp ++ drop (Z.to_nat (arr + size)) A)
  else Undef.

Fixpoint sort (fuel : nat) (A tmp : list Z) (arr size : Z) : res (list Z * list Z) :=
  match fuel with
  | O => Fuel
  | S fuel =>
      if size <? 2 then Ok (A, tmp)
      else
        let pivot := size / 2 in
        '(A, tmp) ← sort fuel A tmp arr pivot;
        '(A, tmp) ← sort fuel A tmp (arr + pivot) (size - pivot);
        let loops := S (Z.to_nat size) in
        '(i, j, k, tmp) ← merge_loop loops A arr pivot size 0 pivot 0 tmp;
        '(k, tmp) ← rest_loop loops A arr pivot i k tmp;
        '(_, tmp) ← rest_loop loops A arr size j k tmp;
        A ← copy_back A arr tmp size;
        Ok (A, tmp)
  end.

Fixpoint init_loop (n : nat) (i : Z) (A : list Z) (st : rand) : res (list Z * rand) :=
  match n with
  | O => Ok (A, st)
  | S n =>
      '(x, st) ← random_unlocked st;
      A ← store A i x;
      init_loop n (i + 1) A st
  end.

Definition initarray (A : list Z) (st : rand) : res (list Z * rand) :=
  st ← srandom_unlocked 533 st;
  init_loop (Z.to_nat SIZE) 0 A st.

(** [n] pairs from [i] on: [false] when one of them is not in order. *)
Fixpoint check_loop (n : nat) (i : Z) (A : list Z) : res bool :=
  match n with
  | O => Ok true
  | S n =>
      x ← load A i;
      y ← load A (i + 1);
      if x >? y then Ok false else check_loop n (i + 1) A
  end.

Definition check (A : list Z) : res bool := check_loop (Z.to_nat (SIZE - 1)) 0 A.

(** Whether the program passes, and the array it leaves. *)
Definition main (A tmp : list Z) (st : rand) : res (bool * list Z) :=
  '(A, st) ← initarray A st;
  '(A, tmp) ← sort (S (Z.to_nat SIZE)) A tmp 0 SIZE;
  b ← check A;
  Ok (b, A).

(** ** Merging *)

Lemma take_drop_split {B} (l : list B) n : (n <= length l)%nat -> exists l1 l2, l = l1 ++ l2 /\ length l1 = n.
Proof. intros Hn. exists (take n l), (drop n l). by rewrite take_drop, length_take_le. Qed.


(** [l] is in [A] from [p] on. *)
Definition seg (A : list Z) (p : Z) (l : list Z) : Prop := 0 <= p /\ exists rest, drop (Z.to_nat p) A = l ++ rest.

Lemma seg_load A p x l : seg A p (x :: l) -> load A p = Ok x /\ seg A (p + 1) l.
Proof.
  intros (Hp & rest & E). split.
  - apply load_Ok; [done|]. rewrite <- (Nat.add_0_r (Z.to_nat p)), <- lookup_drop, E. done.
  - split; [lia|]. exists rest. rewrite Z2Nat.inj_add, <- drop_drop, E by lia. done.
Qed.

Lemma store_mid (pre suf : list Z) y x : store (pre ++ y :: suf) (Z.of_nat (length pre)) x = Ok ((pre ++ [x]) ++ suf).
Proof.
  rewrite store_in_range by (rewrite length_app; cbn; lia). rewrite Nat2Z.id, insert_app_r_alt, Nat.sub_diag, <- app_assoc by lia. done.
Qed.

Lemma rest_loop_spec A arr l : forall fuel i k pre suf,
  seg A (arr + i) l -> k = Z.of_nat (length pre) -> (length l <= length suf)%nat -> (length l < fuel)%nat ->
  rest_loop fuel A arr (i + Z.of_nat (length l)) i k (pre ++ suf) = Ok (k + Z.of_nat (length l), (pre ++ l) ++ drop (length l) suf).
Proof.
  induction l as [|x l IH]; intros fuel i k pre suf Hs -> Hl Hf; (destruct fuel as [|fuel]; [cbn in Hf; lia|]); cbn [rest_loop length].
  - destruct (Z.ltb_spec i (i + Z.of_nat 0)); [lia|]. by rewrite Z.add_0_r, app_nil_r, drop_0.
  - destruct (Z.ltb_spec i (i + Z.of_nat (S (length l)))); [|lia]. destruct (seg_load _ _ _ _ Hs) as [-> Hs']. rewrite bind_Ok.
    destruct suf as [|y suf]; [cbn in Hl; lia|]. rewrite store_mid, bind_Ok. replace (i + Z.of_nat (S (length l))) with (i + 1 + Z.of_nat (length l)) by lia.
    rewrite (IH fuel (i + 1) _ (pre ++ [x]) suf); [|by replace (arr + (i + 1)) with (arr + i + 1) by lia|rewrite length_app; cbn; lia|cbn in Hl; lia|cbn in Hf; lia].
    cbn [drop]. rewrite <- (app_assoc pre [x] l). do 2 f_equal. lia.
Qed.

(** The loop has put the beginning [m] of the merged parts into [tmp]; of one
    part nothing is left, and [r1] and [r2] are left of both. *)
Definition merged A arr (l1 l2 : list Z) (i j k : Z) (pre suf : list Z) (r : res (Z * Z * Z * list Z)) : Prop :=
  exists m r1 r2 suf' i' j', r = Ok (i', j', k + Z.of_nat (length m), (pre ++ m) ++ suf') /\
    list_merge Z.le l2 l1 = m ++ r1 ++ r2 /\ seg A (arr + i') r1 /\ seg A (arr + j') r2 /\
    i' + Z.of_nat (length r1) = i + Z.of_nat (length l1) /\ j' + Z.of_nat (length r2) = j + Z.of_nat (length l2) /\
    (length suf' + length m = length suf)%nat.

Lemma merged_done A arr l1 l2 i j k pre suf : seg A (arr + i) l1 -> seg A (arr + j) l2 -> l1 = [] \/ l2 = [] ->
  merged A arr l1 l2 i j k pre suf (Ok (i, j, k, pre ++ suf)).
Proof.
  intros H1 H2 Hn. exists [], l1, l2, suf, i, j. rewrite app_nil_r, Z.add_0_r. split; [done|]. split; [|done].
  destruct Hn as [->| ->]; [by destruct l2|by destruct l1; rewrite ?app_nil_r].
Qed.

Lemma merge_loop_spec A arr fuel : forall l1 l2 i j k pre suf,
  seg A (arr + i) l1 -> seg A (arr + j) l2 -> k = Z.of_nat (length pre) -> (length l1 + length l2 <= length suf)%nat -> (length l1 + length l2 < fuel)%nat ->
  merged A arr l1 l2 i j k pre suf (merge_loop fuel A arr (i + Z.of_nat (length l1)) (j + Z.of_nat (length l2)) i j k (pre ++ suf)).
Proof.
  induction fuel as [|fuel IH]; intros l1 l2 i j k pre suf H1 H2 -> Hl Hf; [lia|]. cbn [merge_loop].
  destruct l1 as [|x l1]; [cbn [length]; rewrite Z.add_0_r, Z.ltb_irrefl; apply merged_done; [done|done|by left]|].
  destruct l2 as [|y l2]; [cbn [length]; rewrite Z.add_0_r, (Z.ltb_irrefl j), andb_false_r; apply merged_done; [done|done|by right]|].
  cbn [length] in *. destruct (Z.ltb_spec i (i + Z.of_nat (S (length l1)))), (Z.ltb_spec j (j + Z.of_nat (S (length l2)))); try lia. cbn [andb].
  destruct (seg_load _ _ _ _ H1) as [-> H1']. destruct (seg_load _ _ _ _ H2) as [-> H2']. rewrite !bind_Ok. destruct suf as [|z suf]; [cbn in Hl; lia|]. cbn [length] in *.
  destruct (Z.ltb_spec x y); rewrite store_mid, bind_Ok.
  - replace (i + Z.of_nat (S (length l1))) with (i + 1 + Z.of_nat (length l1)) by lia. change (S (length l2)) with (length (y :: l2)).
    destruct (IH l1 (y :: l2) (i + 1) j (Z.of_nat (length pre) + 1) (pre ++ [x]) suf) as (m & r1 & r2 & suf' & i' & j' & -> & Em & ? & ? & ? & ? & ?);
      [by replace (arr + (i + 1)) with (arr + i + 1) by lia|done|rewrite length_app; cbn; lia|cbn; lia|cbn; lia|].
    exists (x :: m), r1, r2, suf', i', j'. cbn [length]. split; [replace (Z.of_nat (length pre) + Z.of_nat (S (length m))) with (Z.of_nat (length pre) + 1 + Z.of_nat (length m)) by lia; by rewrite <- !app_assoc|].
    split; [cbn; rewrite decide_False by lia; by f_equal|]. do 2 (split; [done|]). cbn [length] in *. lia.
  - replace (j + Z.of_nat (S (length l2))) with (j + 1 + Z.of_nat (length l2)) by lia. change (S (length l1)) with (length (x :: l1)).
    destruct (IH (x :: l1) l2 i (j + 1) (Z.of_nat (length pre) + 1) (pre ++ [y]) suf) as (m & r1 & r2 & suf' & i' & j' & -> & Em & ? & ? & ? & ? & ?);
      [done|by replace (arr + (j + 1)) with (arr + j + 1) by lia|rewrite length_app; cbn; lia|cbn; lia|cbn; lia|].
    exists (y :: m), r1, r2, suf', i', j'. cbn [length]. split; [replace (Z.of_nat (length pre) + Z.of_nat (S (length m))) with (Z.of_nat (length pre) + 1 + Z.of_nat (length m)) by lia; by rewrite <- !app_assoc|].
    split; [cbn; rewrite decide_True by lia; by f_equal|]. do 2 (split; [done|]). cbn [length] in *. lia.
Qed.

(** ** Sorting *)

Lemma seg_app A X l Y p : A = X ++ l ++ Y -> p = Z.of_nat (length X) -> seg A p l.
Proof. intros -> ->. split; [lia|]. exists Y. by rewrite Nat2Z.id, drop_app_length. Qed.

(** The part of [A] after [X] is sorted in place. *)
Definition sorts (X l Y : list Z) (n : nat) (r : res (list Z * list Z)) : Prop :=
  exists l' tmp', r = Ok (X ++ l' ++ Y, tmp') /\ Sorted Z.le l' /\ l' ≡ₚ l /\ length tmp' = n.

Lemma copy_back_spec X l Y new suf size : size = Z.of_nat (length new) -> length new = length l ->
  copy_back (X ++ l ++ Y) (Z.of_nat (length X)) (new ++ suf) size = Ok (X ++ new ++ Y).
Proof.
  intros -> Hl. unfold copy_back. rewrite !length_app. destruct (Z.leb_spec 0 (Z.of_nat (length X))), (Z.leb_spec (Z.of_nat (length X) + Z.of_nat (length new)) (Z.of_nat (length X + (length l + length Y)))),
    (Z.leb_spec (Z.of_nat (length new)) (Z.of_nat (length new + length suf))); try lia. cbn [andb].
  replace (Z.to_nat (Z.of_nat (length X) + Z.of_nat (length new))) with (length X + length l)%nat by lia.
  by rewrite !Nat2Z.id, !take_app_length, drop_app_add, drop_app_length.
Qed.

(** The two sorted halves are merged. *)
Lemma merge_halves X l1 l2 Y tmp arr pivot size : arr = Z.of_nat (length X) -> pivot = Z.of_nat (length l1) -> size = Z.of_nat (length l1 + length l2) ->
  Sorted Z.le l1 -> Sorted Z.le l2 -> (length l1 + length l2 <= length tmp)%nat ->
  let A := X ++ (l1 ++ l2) ++ Y in
  let loops := S (Z.to_nat size) in
  sorts X (l1 ++ l2) Y (length tmp)
    ('(i, j, k, tmp) ← merge_loop loops A arr pivot size 0 pivot 0 tmp;
     '(k, tmp) ← rest_loop loops A arr pivot i k tmp;
     '(_, tmp) ← rest_loop loops A arr size j k tmp;
     A ← copy_back A arr tmp size;
     Ok (A, tmp)).
Proof.
  intros -> -> -> S1 S2 Ht A loops. set (n1 := Z.of_nat (length l1)).
  assert (seg A (Z.of_nat (length X) + 0) l1) as H1 by (apply (seg_app A X l1 (l2 ++ Y)); [unfold A; by rewrite <- !app_assoc|lia]).
  assert (seg A (Z.of_nat (length X) + n1) l2) as H2.
  { apply (seg_app A (X ++ l1) l2 Y); [unfold A; by rewrite <- !app_assoc|rewrite length_app; unfold n1; lia]. }
  pose proof (merge_loop_spec A (Z.of_nat (length X)) loops l1 l2 0 n1 0 [] tmp H1 H2 eq_refl) as (m & r1 & r2 & suf & i & j & E & Em & G1 & G2 & Ei & Ej & Hs); [lia|unfold loops; lia|].
  replace (0 + Z.of_nat (length l1)) with n1 in E by (unfold n1; lia). replace (n1 + Z.of_nat (length l2)) with (Z.of_nat (length l1 + length l2)) in E by (unfold n1; lia).
  change ([] ++ tmp) with tmp in E. rewrite E, bind_Ok. cbn [app].
  assert (length m + length r1 + length r2 = length l1 + length l2)%nat as Hlen.
  { pose proof (Permutation_length (merge_Permutation Z.le l2 l1)) as Hp. rewrite Em, !length_app in Hp. lia. }
  replace n1 with (i + Z.of_nat (length r1)) by (unfold n1; lia).
  rewrite rest_loop_spec by (done || lia || (unfold loops; lia)). rewrite bind_Ok.
  replace (Z.of_nat (length l1 + length l2)) with (j + Z.of_nat (length r2)) at 1 by (unfold n1 in *; lia).
  rewrite rest_loop_spec; [|done|rewrite length_app; lia|rewrite length_drop; lia|unfold loops; lia]. rewrite bind_Ok.
  set (new := (m ++ r1) ++ r2). assert (length new = (length l1 + length l2)%nat) as Hn by (unfold new; rewrite !length_app; lia).
  unfold A. rewrite copy_back_spec by (rewrite ?Hn, ?length_app; done). rewrite bind_Ok. eexists _, _. split; [done|].
  unfold new in *. rewrite <- app_assoc, <- Em in *. split; [by apply Sorted_list_merge; [intros ? ?; lia| |]|]. split; [by rewrite merge_Permutation, Permutation_app_comm|].
  rewrite length_app, Hn, !length_drop. lia.
Qed.

Lemma sort_spec fuel : forall X l Y tmp arr size, arr = Z.of_nat (length X) -> size = Z.of_nat (length l) -> (length l < fuel)%nat -> (length l <= length tmp)%nat ->
  sorts X l Y (length tmp) (sort fuel (X ++ l ++ Y) tmp arr size).
Proof.
  induction fuel as [|fuel IH]; intros X l Y tmp arr size -> -> Hf Ht; [lia|]. cbn [sort]. destruct (Z.ltb_spec (Z.of_nat (length l)) 2) as [Hs|Hs].
  { exists l, tmp. split; [done|]. split; [|done]. destruct l as [|x [|y l]]; [constructor|by repeat constructor|cbn in Hs; lia]. }
  set (pivot := Z.of_nat (length l) / 2). assert (1 <= pivot < Z.of_nat (length l)) as Hp.
  { unfold pivot. split; [apply Z.div_le_lower_bound; lia|apply Z.div_lt; lia]. }
  destruct (take_drop_split l (Z.to_nat pivot)) as (l1 & l2 & -> & Hl1); [lia|]. rewrite !length_app in *. assert (pivot = Z.of_nat (length l1)) as Ep by lia. clearbody pivot.
  rewrite <- !(app_assoc _ l2). destruct (IH X l1 (l2 ++ Y) tmp (Z.of_nat (length X)) pivot) as (k1 & t1 & -> & Hs1 & Hp1 & Ht1); [done|done|lia|lia|]. rewrite bind_Ok.
  rewrite (app_assoc X). destruct (IH (X ++ k1) l2 Y t1 (Z.of_nat (length X) + pivot) (Z.of_nat (length l1 + length l2) - pivot)) as (k2 & t2 & -> & Hs2 & Hp2 & Ht2);
    [rewrite length_app, Hp1; lia|lia|lia|lia|]. rewrite bind_Ok.
  rewrite <- (app_assoc X), (app_assoc k1). assert (pivot = Z.of_nat (length k1)) as Ek by (by rewrite Hp1).
  destruct (merge_halves X k1 k2 Y t2 (Z.of_nat (length X)) pivot (Z.of_nat (length l1 + length l2))) as (l' & t' & E & Hsort & Hperm & Hlen); [done|done|by rewrite Hp1, Hp2|done|done|rewrite Hp1, Hp2; lia|].
  rewrite E. exists l', t'. split; [done|]. split; [done|]. split; [by rewrite Hperm, Hp1, Hp2|lia].
Qed.

(** ** The program *)

Lemma init_loop_spec n a : forall g st pre suf, runs a g st -> length suf = n ->
  exists st', init_loop n (Z.of_nat (length pre)) (pre ++ suf) st = Ok (pre ++ stream n g, st') /\ runs a (after n g) st'.
Proof.
  induction n as [|n IH]; intros g st pre suf Hr Hl; [apply nil_length_inv in Hl as ->; by exists st|]. destruct suf as [|y suf]; [done|]. injection Hl as Hl. cbn [init_loop].
  destruct (random_spec a g st Hr) as (st1 & -> & H1 & _). rewrite bind_Ok, store_mid, bind_Ok.
  destruct (IH _ st1 (pre ++ [(next g).1]) suf H1 Hl) as (st2 & E & H2). rewrite length_app in E. cbn [length] in E.
  replace (Z.of_nat (length pre) + 1) with (Z.of_nat (length pre + 1)) by lia. rewrite E. exists st2. split; [|done]. cbn [stream]. by rewrite <- app_assoc.
Qed.

Lemma check_loop_spec n : forall A i l, seg A i l -> length l = S n -> Sorted Z.le l -> check_loop n i A = Ok true.
Proof.
  induction n as [|n IH]; intros A i l Hs Hl Hsort; [done|]. destruct l as [|x [|y l]]; [done|done|]. cbn [check_loop].
  destruct (seg_load _ _ _ _ Hs) as [-> Hs1]. destruct (seg_load _ _ _ _ Hs1) as [-> _]. rewrite !bind_Ok.
  apply Sorted_inv in Hsort as [Hsort Hd]. inversion Hd; subst. rewrite Z.gtb_ltb. destruct (Z.ltb_spec y x); [lia|]. apply (IH _ _ (y :: l)); [done|cbn in *; lia|done].
Qed.

Lemma start_switched m : switched 0 3 (start m).
Proof. split; [lia|]. do 5 (split; [done|]). exists randtbl. split; [cbn; by rewrite lookup_insert_eq|]. by apply (bool_decide_unpack _); vm_compute. Qed.

Lemma program_spec m n : 0 < Z.of_nat n -> exists A,
  ('(A, st) ← (st ← srandom_unlocked 533 (start m); init_loop n 0 (replicate n 0) st);
   '(A, tmp) ← sort (S n) A (replicate n 0) 0 (Z.of_nat n);
   b ← check_loop (n - 1) 0 A;
   Ok (b, A)) = Ok (true, A) /\ Sorted Z.le A /\ A ≡ₚ stream n (seeded 3 533).
Proof.
  intros Hn. destruct (srandom_spec 0 3 533 (start m) (start_switched m)) as (st1 & -> & Hr & _). rewrite bind_Ok.
  destruct (init_loop_spec n 0 (seeded 3 533) st1 [] (replicate n 0) Hr) as (st2 & E & _); [by rewrite length_replicate|]. change (init_loop n 0 (replicate n 0) st1 = Ok (stream n (seeded 3 533), st2)) in E.
  rewrite E, bind_Ok. assert (length (stream n (seeded 3 533)) = n) as Hl by apply length_stream.
  destruct (sort_spec (S n) [] (stream n (seeded 3 533)) [] (replicate n 0) 0 (Z.of_nat n)) as (A & tmp & Es & Hs & Hp & _); [done|by rewrite Hl|by rewrite Hl; lia|by rewrite Hl, length_replicate|].
  cbn [app] in Es. rewrite !app_nil_r in Es. rewrite Es, bind_Ok. exists A. split; [|done]. assert (length A = n) as HA by (by rewrite Hp).
  rewrite (check_loop_spec (n - 1) A 0 A); [done|by apply (seg_app A [] A [] 0); [rewrite app_nil_r|]|lia|done].
Qed.

(** C39. The sort program passes.  From the zeroed arrays and the generator it
    starts with, the program returns; it says that it passes, and rightly so:
    what it leaves in the array is in order, and is a permutation of the SIZE
    numbers that random() gives for the seed 533. *)
Theorem sort_passes m :
  exists A, main (replicate (Z.to_nat SIZE) 0) (replicate (Z.to_nat SIZE) 0) (start m) = Ok (true, A) /\
    Sorted Z.le A /\ A ≡ₚ stream (Z.to_nat SIZE) (seeded 3 533).
Proof.
  unfold main, initarray, check. assert (0 < SIZE) as Hs by done. rewrite Z2Nat.inj_sub by done. change (Z.to_nat 1) with 1%nat. revert Hs. generalize SIZE as size. intros size Hs.
  destruct (program_spec m (Z.to_nat size)) as (A & E & HA); [lia|]. exists A. split; [|done]. rewrite Z2Nat.id in E by lia. exact E.
Qed.
