(* ===== verification/Tty.v ===== *)
(** * kern/lib/kgets.c and [con_io] of kern/dev/generic/console.c

    Reading and writing lines on the console.  The console is the interface
    [Terminal]: the characters that getch() will return and what putch() has
    been given.  A call of getch() that no key ends gives [Fuel]. *)
From stdpp Require Import base numbers list option.
From S2P Require Import Prelude Libc Uio Console.
Local Open Scope Z_scope.

Class Terminal (W : Type) : Type := {
  getch (w : W) : res (Z * W);
  putch (ch : Z) (w : W) : res W;
  beep (w : W) : res W;
}.

Section tty.
Context {W : Type} `{!Terminal W}.

(** ** kgets.c *)

Definition backsp (w : W) : res W :=
  w ← putch 8 w;
  w ← putch 32 w;
  putch 8 w.

Fixpoint putchs (l : list Z) (w : W) : res W :=
  match l with
  | [] => Ok w
  | ch :: l => w ← putch ch w; putchs l w
  end.

(** [while (pos > 0 && cond) { backsp(); pos--; }] *)
Fixpoint erase_while (fuel : nat) (cond : Z -> res bool) (pos : Z) (w : W) : res (Z * W) :=
  match fuel with
  | O => Fuel
  | S fuel =>
      if pos >? 0 then
        b ← cond pos;
        if b : bool then
          w ← backsp w;
          erase_while fuel cond (pos - 1) w
        else Ok (pos, w)
      else Ok (pos, w)
  end.

(** The loop, after [pos] characters. *)
Fixpoint kgets_loop (fuel : nat) (buf : list Z) (maxlen pos : Z) (w : W) : res (Z * list Z * W) :=
  match fuel with
  | O => Fuel
  | S fuel =>
      '(ch, w) ← getch w;
      if (ch =? 10) || (ch =? 13) then
        w ← putch 10 w;
        Ok (pos, buf, w)
      else if (ch >=? 32) && (ch <? 127) && (pos <? u32 (maxlen - 1)) then
        w ← putch ch w;
        buf ← store buf pos ch;
        kgets_loop fuel buf maxlen (pos + 1) w
      else if ((ch =? 8) || (ch =? 127)) && (pos >? 0) then
        w ← backsp w;
        kgets_loop fuel buf maxlen (pos - 1) w
      else if ch =? 3 then
        w ← putch 94 w;
        w ← putch 67 w;
        w ← putch 10 w;
        Ok (0, buf, w)
      else if ch =? 18 then
        buf ← store buf pos 0;
        w ← putchs ([94; 82; 10] ++ cstring buf) w;
        kgets_loop fuel buf maxlen pos w
      else if ch =? 21 then
        '(pos, w) ← erase_while (S (Z.to_nat pos)) (fun _ => Ok true) pos w;
        kgets_loop fuel buf maxlen pos w
      else if ch =? 23 then
        '(pos, w) ← erase_while (S (Z.to_nat pos)) (fun pos => c ← load buf (pos - 1); Ok (c =? 32)) pos w;
        '(pos, w) ← erase_while (S (Z.to_nat pos)) (fun pos => c ← load buf (pos - 1); Ok (negb (c =? 32))) pos w;
        kgets_loop fuel buf maxlen pos w
      else
        w ← beep w;
        kgets_loop fuel buf maxlen pos w
  end.

Definition kgets (fuel : nat) (buf : list Z) (maxlen : Z) (w : W) : res (list Z * W) :=
  '(pos, buf, w) ← kgets_loop fuel buf maxlen 0 w;
  buf ← store buf pos 0;
  Ok (buf, w).

(** ** console.c: [con_io] *)

Variables (valid : Z -> bool) (curspace : option Z).

(** The loop, with the lock of the direction held.  [ch] is a char. *)
Fixpoint con_io_loop (fuel : nat) (u : uio) (w : W) : res (Z * uio * W) :=
  match fuel with
  | O => Fuel
  | S fuel =>
      if uio_resid u >? 0 then
        if negb (is_write u) then
          '(ch, w) ← getch w;
          let ch := if u8 ch =? 13 then 10 else u8 ch in
          '(result, _, u) ← uiomove valid curspace [ch] 1 u;
          if negb (result =? 0) then Ok (result, u, w)
          else if ch =? 10 then Ok (0, u, w) else con_io_loop fuel u w
        else
          '(result, buf, u) ← uiomove valid curspace [0] 1 u;
          if negb (result =? 0) then Ok (result, u, w)
          else
            ch ← load buf 0;
            w ← (if ch =? 10 then putch 13 w else Ok w);
            w ← putch (schar ch) w;
            con_io_loop fuel u w
      else Ok (0, u, w)
  end.

(** [have_lock]: [con_userlock_read] or [con_userlock_write] is not NULL. *)
Definition con_io (fuel : nat) (have_lock : bool) (u : uio) (w : W) : res (Z * uio * W) :=
  _ ← assert have_lock;
  con_io_loop fuel u w.
End tty.

(** What a terminal promises: getch() gives the keys in order, putch() puts
    one more character on the line. *)
Class TerminalLaws (W : Type) `{!Terminal W} : Type := {
  tty_ok : W -> Prop;
  keys : W -> list Z;
  shown : W -> list Z;
  getch_key w k ks : tty_ok w -> keys w = k :: ks -> exists w', getch w = Ok (k, w') /\ tty_ok w' /\ keys w' = ks /\ shown w' = shown w;
  putch_shown ch w : tty_ok w -> exists w', putch ch w = Ok w' /\ tty_ok w' /\ keys w' = keys w /\ shown w' = shown w ++ [u8 ch];
  beep_shown w : tty_ok w -> exists w', beep w = Ok w' /\ tty_ok w' /\ keys w' = keys w /\ shown w' = shown w;
}.

(** ** The line that is typed *)

Fixpoint drop_while (p : Z -> bool) (l : list Z) : list Z :=
  match l with [] => [] | x :: l' => if p x then drop_while p l' else l end.

(** The line without its last word and the blanks after it. *)
Definition erase_word (l : list Z) : list Z :=
  reverse (drop_while (fun c => negb (c =? 32)) (drop_while (fun c => c =? 32) (reverse l))).

(** What a key does to the line. *)
Definition edit (maxlen : Z) (l : list Z) (k : Z) : list Z :=
  if (32 <=? k) && (k <? 127) && (Z.of_nat (length l) <? maxlen - 1) then l ++ [k]
  else if ((k =? 8) || (k =? 127)) then take (length l - 1) l
  else if k =? 21 then []
  else if k =? 23 then erase_word l
  else l.

(** What is seen of the line, the line, and the keys that are left; [None]
    while it has no end.  ^C cancels it. *)
Fixpoint typed_line (maxlen : Z) (l ks : list Z) : option (list Z * list Z * list Z) :=
  match ks with
  | [] => None
  | k :: ks =>
      if (k =? 10) || (k =? 13) then Some (l, l, ks)
      else if k =? 3 then Some (l ++ [94; 67], [], ks)
      else typed_line maxlen (edit maxlen l k) ks
  end.

(** ** A screen *)

(** The lines that were ended, and the current one with the position of the
    cursor. *)
Record screen : Type := mk_screen { sc_above : list (list Z); sc_line : list Z; sc_col : nat }.

Definition show (s : screen) (ch : Z) : screen :=
  if ch =? 10 then mk_screen (sc_above s ++ [sc_line s]) [] 0
  else if ch =? 8 then mk_screen (sc_above s) (sc_line s) (sc_col s - 1)
  else mk_screen (sc_above s) (take (sc_col s) (sc_line s) ++ [ch] ++ drop (S (sc_col s)) (sc_line s)) (S (sc_col s)).

(** The line [l] is at the end of the current line, behind [pre], with
    nothing but blanks after it, and the cursor behind it. *)
Definition shows (pre l : list Z) (s : screen) : Prop :=
  exists n, sc_line s = pre ++ l ++ replicate n 32 /\ sc_col s = (length pre + length l)%nat.

Section screen.
Implicit Types (pre l : list Z) (s : screen).

Lemma show_char pre l s ch : ch <> 8 -> ch <> 10 -> shows pre l s -> shows pre (l ++ [ch]) (show s ch).
Proof.
  intros H8 H10 (n & Hl & Hc). unfold show. destruct (Z.eqb_spec ch 10), (Z.eqb_spec ch 8); try done. exists (pred n). cbn. rewrite Hl, Hc, length_app. cbn.
  rewrite (app_assoc pre), take_app_length' by (by rewrite length_app). split; [|lia]. rewrite <- (Nat.add_1_r (_ + _)), drop_app_add' by (by rewrite length_app). rewrite <- !app_assoc. cbn.
  do 3 f_equal. by destruct n.
Qed.

Lemma show_chars l' : forall pre l s, Forall (fun c => 32 <= c < 127) l' -> shows pre l s -> shows pre (l ++ l') (foldl show s l').
Proof.
  induction l' as [|c l' IH]; intros pre l s Hf Hs; [by rewrite app_nil_r|]. apply Forall_cons_1 in Hf as [Hc Hf]. cbn. replace (l ++ c :: l') with ((l ++ [c]) ++ l') by (by rewrite <- app_assoc).
  apply IH; [done|]. apply show_char; (done || lia).
Qed.

Lemma show_backsp pre l x s : shows pre (l ++ [x]) s -> shows pre l (foldl show s [8; 32; 8]).
Proof.
  intros (n & Hl & Hc). exists (S n). rewrite length_app in Hc. cbn in *. rewrite Hl, Hc. replace (length pre + (length l + 1) - 1)%nat with (length pre + length l)%nat by lia.
  rewrite <- (app_assoc l), (app_assoc pre), take_app_length' by (by rewrite length_app). rewrite <- (Nat.add_1_r (_ + _)), drop_app_add' by (by rewrite length_app).
  rewrite <- !app_assoc. cbn. split; [by rewrite drop_0|lia].
Qed.

Lemma show_newline pre l s : shows pre l s ->
  exists n, sc_above (show s 10) = sc_above s ++ [pre ++ l ++ replicate n 32] /\ shows [] [] (show s 10).
Proof. intros (n & Hl & _). exists n. cbn. rewrite Hl. split; [done|]. by exists 0%nat. Qed.
End screen.

Section facts.
Context {W : Type} {TW : Terminal W} {TL : TerminalLaws W}.
(** The screen before anything was printed. *)
Variable s0 : screen.
Implicit Types (w : W) (l ks : list Z).

Definition display w : screen := foldl show s0 (shown w).
(** [w'] is [w] after [l] was printed. *)
Definition prints l w w' : Prop := tty_ok w' /\ keys w' = keys w /\ shown w' = shown w ++ (u8 <$> l).

Lemma prints_nil w : tty_ok w -> prints [] w w.
Proof. intros H. do 2 (split; [done|]). cbn. by rewrite app_nil_r. Qed.
Lemma prints_trans l l' w w' w'' : prints l w w' -> prints l' w' w'' -> prints (l ++ l') w w''.
Proof. intros (_ & H1 & H2) (H0 & H3 & H4). split; [done|]. split; [congruence|]. by rewrite H4, H2, fmap_app, app_assoc. Qed.
Lemma prints_display l w w' : prints l w w' -> display w' = foldl show (display w) (u8 <$> l).
Proof. intros (_ & _ & H). unfold display. by rewrite H, foldl_app. Qed.

Lemma putchs_spec l : forall w, tty_ok w -> exists w', putchs l w = Ok w' /\ prints l w w'.
Proof.
  induction l as [|ch l IH]; intros w Hw; [exists w; split; [done|by apply prints_nil]|]. cbn [putchs]. destruct (putch_shown ch w Hw) as (w1 & -> & Hw1 & Hk & Hs). rewrite bind_Ok.
  destruct (IH w1 Hw1) as (w2 & -> & Hp). exists w2. split; [done|]. by apply (prints_trans [ch] l w w1 w2).
Qed.

Lemma backsp_spec w : tty_ok w -> exists w', backsp w = Ok w' /\ prints [8; 32; 8] w w'.
Proof.
  intros Hw. unfold backsp. destruct (putchs_spec [8; 32; 8] w Hw) as (w3 & E & Hp). cbn [putchs] in E. inv_ok. rewrite E0, bind_Ok, E1, bind_Ok, E2. by exists w3.
Qed.

(** Characters are taken off the end of the line while [p] holds of the last
    one. *)
Lemma erase_spec p cond pre l : forall fuel w, tty_ok w -> (length l < fuel)%nat ->
  (forall l' x rest, l = l' ++ x :: rest -> cond (Z.of_nat (S (length l'))) = Ok (p x)) ->
  exists w', erase_while fuel cond (Z.of_nat (length l)) w = Ok (Z.of_nat (length (reverse (drop_while p (reverse l)))), w') /\ tty_ok w' /\ keys w' = keys w /\
    (shows pre l (display w) -> shows pre (reverse (drop_while p (reverse l))) (display w') /\ sc_above (display w') = sc_above (display w)).
Proof.
  induction l as [|x l IH] using rev_ind; intros fuel w Hw Hf Hc; (destruct fuel as [|fuel]; [lia|]); cbn [erase_while].
  { exists w. cbn. done. }
  rewrite length_app in *. cbn in Hf |- *. rewrite Z.gtb_ltb. destruct (Z.ltb_spec 0 (Z.of_nat (length l + 1))); [|lia].
  replace (length l + 1)%nat with (S (length l)) by lia. rewrite (Hc l x []) by done. rewrite bind_Ok, reverse_snoc. cbn [drop_while]. destruct (p x) eqn:Hp.
  - destruct (backsp_spec w Hw) as (w1 & -> & Hpr). rewrite bind_Ok. replace (Z.of_nat (S (length l)) - 1) with (Z.of_nat (length l)) by lia.
    destruct (IH fuel w1) as (w2 & -> & Hw2 & Hk2 & Hs2); [apply Hpr|lia| |].
    { intros l' y rest ->. apply (Hc l' y (rest ++ [x])). by rewrite <- app_assoc. }
    exists w2. do 2 (split; [done|]). split; [rewrite Hk2; apply Hpr|]. intros Hsh. pose proof (prints_display _ _ _ Hpr) as Hd. change (u8 <$> [8; 32; 8]) with [8; 32; 8] in Hd.
    rewrite Hd in Hs2. destruct Hs2 as [Hs2 Ha2]; [by eapply show_backsp|]. split; [done|]. by rewrite Ha2.
  - exists w. rewrite reverse_cons, reverse_involutive, length_app. cbn. split; [do 3 f_equal; lia|done].
Qed.

(** ** kgets() *)

(** The first characters of the buffer are the line, and there is room for
    the 0 at its end. *)
Definition holds (maxlen : Z) (buf l : list Z) : Prop :=
  1 <= maxlen <= Z.of_nat (length buf) /\ maxlen < 4294967296 /\ Z.of_nat (length l) <= maxlen - 1 /\
  take (length l) buf = l /\ Forall (fun c => 32 <= c < 127) l.

Lemma holds_prefix maxlen buf l l' : holds maxlen buf l -> l' `prefix_of` l -> holds maxlen buf l'.
Proof.
  intros (H1 & H2 & H3 & H4 & H5) [k ->]. rewrite length_app in *. apply Forall_app in H5 as [H5 _]. do 2 (split; [done|]). split; [lia|]. split; [|done].
  apply (f_equal (take (length l'))) in H4. by rewrite take_take, take_app_length, Nat.min_l in H4 by lia.
Qed.

Lemma erase_prefix p l : reverse (drop_while p (reverse l)) `prefix_of` l.
Proof.
  induction l as [|x l IH] using rev_ind; [done|]. rewrite reverse_snoc. cbn [drop_while]. destruct (p x).
  - by apply prefix_app_r.
  - by rewrite reverse_cons, reverse_involutive.
Qed.

Lemma holds_load maxlen buf l l' x rest : holds maxlen buf l -> l = l' ++ x :: rest -> load buf (Z.of_nat (S (length l')) - 1) = Ok x.
Proof.
  intros (_ & _ & _ & H & _) ->. apply load_Ok; [lia|]. replace (Z.to_nat (Z.of_nat (S (length l')) - 1)) with (length l') by lia.
  rewrite <- (lookup_take_lt buf (length (l' ++ x :: rest))) by (rewrite length_app; cbn; lia). rewrite H. by apply list_lookup_middle.
Qed.

Lemma holds_snoc maxlen buf l k : holds maxlen buf l -> 32 <= k < 127 -> Z.of_nat (length l) < maxlen - 1 ->
  store buf (Z.of_nat (length l)) k = Ok (<[length l := k]> buf) /\ holds maxlen (<[length l := k]> buf) (l ++ [k]).
Proof.
  intros (H1 & H2 & H3 & H4 & H5) Hk Hl. rewrite store_in_range, Nat2Z.id by lia. split; [done|]. unfold holds. rewrite length_insert, length_app. cbn.
  do 2 (split; [done|]). split; [lia|]. split; [|apply Forall_app; split; [done|by constructor]].
  rewrite Nat.add_1_r. rewrite (take_S_r _ _ k) by (apply list_lookup_insert_eq; lia). by rewrite take_insert_ge, H4 by lia.
Qed.

Lemma holds_end maxlen buf l : holds maxlen buf l ->
  store buf (Z.of_nat (length l)) 0 = Ok (<[length l := 0]> buf) /\ holds maxlen (<[length l := 0]> buf) l /\ cstring (<[length l := 0]> buf) = l.
Proof.
  intros (H1 & H2 & H3 & H4 & H5). rewrite store_in_range, Nat2Z.id by lia. split; [done|]. split.
  - unfold holds. rewrite length_insert, take_insert_ge by lia. done.
  - rewrite <- (take_drop (length l) (<[_ := _]> _)), take_insert_ge, H4 by lia. rewrite (drop_S _ 0) by (apply list_lookup_insert_eq; lia).
    generalize (drop (S (length l)) (<[length l := 0]> buf)) as tl. clear -H5. intros tl. induction H5 as [|c l Hc Hl IH]; [done|]. cbn. destruct (Z.eqb_spec c 0); [lia|]. by rewrite IH.
Qed.

Lemma u8_printable l : Forall (fun c => 32 <= c < 127) l -> u8 <$> l = l.
Proof. intros Hl. induction Hl as [|c l Hc _ IH]; [done|]. cbn. rewrite IH, u8_small by lia. done. Qed.

(** What one more key comes to: the loop goes on with the line [l'], which is
    what the screen shows. *)
Definition keyed (maxlen : Z) (pre buf l l' : list Z) w (ks : list Z) (fuel : nat) (r : res (Z * list Z * W)) : Prop :=
  exists w' buf', r = kgets_loop fuel buf' maxlen (Z.of_nat (length l')) w' /\
    holds maxlen buf' l' /\ length buf' = length buf /\ tty_ok w' /\ keys w' = ks /\
    (shows pre l (display w) -> exists pre', (pre' = pre \/ pre' = []) /\ shows pre' l' (display w')).

Section keys.
Variables (maxlen : Z) (pre buf l ks : list Z) (fuel : nat) (w w1 : W).
Hypotheses (Hh : holds maxlen buf l) (Hw1 : tty_ok w1) (Hk1 : keys w1 = ks) (Hd1 : display w1 = display w).

Lemma key_print k : 32 <= k < 127 -> Z.of_nat (length l) < maxlen - 1 ->
  keyed maxlen pre buf l (l ++ [k]) w ks fuel (w ← putch k w1; buf ← store buf (Z.of_nat (length l)) k; kgets_loop fuel buf maxlen (Z.of_nat (length l) + 1) w).
Proof.
  intros Hk Hlt. destruct (putch_shown k w1 Hw1) as (w2 & -> & Hw2 & Hk2 & Hs2). rewrite bind_Ok. destruct (holds_snoc maxlen buf l k Hh Hk Hlt) as [-> Hh']. rewrite bind_Ok.
  exists w2, (<[length l := k]> buf). rewrite length_app, length_insert, Nat2Z.inj_add. do 4 (split; [done|]). split; [congruence|].
  intros Hsh. exists pre. split; [by left|]. rewrite (prints_display [k] w1 w2) by done. rewrite Hd1. cbn. rewrite u8_small by lia. apply show_char; (done || lia).
Qed.

Lemma key_backsp : 0 < Z.of_nat (length l) ->
  keyed maxlen pre buf l (take (length l - 1) l) w ks fuel (w ← backsp w1; kgets_loop fuel buf maxlen (Z.of_nat (length l) - 1) w).
Proof.
  intros Hpos. destruct l as [|x l' _] using rev_ind; [cbn in Hpos; lia|]. rewrite length_app, take_app_length' by (cbn; lia). destruct (backsp_spec w1 Hw1) as (w2 & -> & Hp2). rewrite bind_Ok.
  exists w2, buf. split; [f_equal; cbn; lia|]. split; [by apply (holds_prefix maxlen buf (l' ++ [x])), prefix_app_r|]. split; [done|]. destruct Hp2 as (Hw2 & Hk2 & Hs2). split; [done|]. split; [congruence|].
  intros Hsh. exists pre. split; [by left|]. rewrite (prints_display [8; 32; 8] w1 w2) by done. rewrite Hd1. by eapply show_backsp.
Qed.

Lemma key_reprint :
  keyed maxlen pre buf l l w ks fuel (buf ← store buf (Z.of_nat (length l)) 0; w ← putchs ([94; 82; 10] ++ cstring buf) w1; kgets_loop fuel buf maxlen (Z.of_nat (length l)) w).
Proof.
  destruct (holds_end maxlen buf l Hh) as (-> & Hh' & Hcs). rewrite bind_Ok, Hcs. destruct (putchs_spec ([94; 82; 10] ++ l) w1 Hw1) as (w2 & -> & Hp2). rewrite bind_Ok.
  exists w2, (<[length l := 0]> buf). split; [done|]. split; [done|]. split; [apply length_insert|]. split; [apply Hp2|]. split; [rewrite (proj1 (proj2 Hp2)); done|]. intros Hsh. exists []. split; [by right|].
  destruct Hh as (_ & _ & _ & _ & Hp). rewrite (prints_display _ _ _ Hp2), Hd1, fmap_app, foldl_app, (u8_printable l Hp). apply (show_chars l [] []); [done|]. by exists 0%nat.
Qed.

Lemma key_erase_line :
  keyed maxlen pre buf l [] w ks fuel ('(pos, w) ← erase_while (S (Z.to_nat (Z.of_nat (length l)))) (fun _ => Ok true) (Z.of_nat (length l)) w1; kgets_loop fuel buf maxlen pos w).
Proof.
  destruct (erase_spec (fun _ => true) (fun _ => Ok true) pre l (S (Z.to_nat (Z.of_nat (length l)))) w1) as (w2 & -> & Hw2 & Hk2 & Hs2); [done|lia|done|].
  assert (reverse (drop_while (fun _ => true) (reverse l)) = []) as Hr by (generalize (reverse l) as k; intros k; induction k as [|x k IH]; [done|exact IH]). rewrite Hr, bind_Ok in *.
  exists w2, buf. split; [done|]. split; [by apply (holds_prefix _ _ l); [|apply prefix_nil]|]. do 2 (split; [done|]). split; [congruence|]. intros Hsh. rewrite Hd1 in Hs2. exists pre. split; [by left|by apply Hs2].
Qed.

Lemma key_erase_word :
  keyed maxlen pre buf l (erase_word l) w ks fuel
    ('(pos, w) ← erase_while (S (Z.to_nat (Z.of_nat (length l)))) (fun pos => c ← load buf (pos - 1); Ok (c =? 32)) (Z.of_nat (length l)) w1;
     '(pos, w) ← erase_while (S (Z.to_nat pos)) (fun pos => c ← load buf (pos - 1); Ok (negb (c =? 32))) pos w;
     kgets_loop fuel buf maxlen pos w).
Proof.
  destruct (erase_spec (fun c => c =? 32) (fun pos => c ← load buf (pos - 1); Ok (c =? 32)) pre l (S (Z.to_nat (Z.of_nat (length l)))) w1) as (w2 & -> & Hw2 & Hk2 & Hs2); [done|lia| |].
  { intros l' x rest Hl. by rewrite (holds_load maxlen buf l l' x rest Hh Hl). }
  rewrite bind_Ok. set (l1 := reverse (drop_while (fun c => c =? 32) (reverse l))) in *. assert (holds maxlen buf l1) as Hh1 by (by apply (holds_prefix _ _ l), erase_prefix).
  destruct (erase_spec (fun c => negb (c =? 32)) (fun pos => c ← load buf (pos - 1); Ok (negb (c =? 32))) pre l1 (S (Z.to_nat (Z.of_nat (length l1)))) w2) as (w3 & -> & Hw3 & Hk3 & Hs3); [done|lia| |].
  { intros l' x rest Hl. by rewrite (holds_load maxlen buf l1 l' x rest Hh1 Hl). }
  rewrite bind_Ok. replace (reverse (drop_while (fun c => negb (c =? 32)) (reverse l1))) with (erase_word l) in * by (unfold erase_word, l1; by rewrite reverse_involutive).
  exists w3, buf. split; [done|]. split; [|split; [done|split; [done|split; [congruence|]]]].
  - replace (erase_word l) with (reverse (drop_while (fun c => negb (c =? 32)) (reverse l1))) by (unfold erase_word, l1; by rewrite reverse_involutive). by apply (holds_prefix _ _ l1), erase_prefix.
  - intros Hsh. rewrite Hd1 in Hs2. exists pre. split; [by left|]. by apply Hs3, Hs2.
Qed.

Lemma key_beep : keyed maxlen pre buf l l w ks fuel (w ← beep w1; kgets_loop fuel buf maxlen (Z.of_nat (length l)) w).
Proof.
  destruct (beep_shown w1 Hw1) as (w2 & -> & Hw2 & Hk2 & Hs2). rewrite bind_Ok. exists w2, buf. do 4 (split; [done|]). split; [congruence|]. intros Hsh. exists pre. split; [by left|].
  unfold display in *. by rewrite Hs2, Hd1.
Qed.
End keys.

(** One key that does not end the line. *)
Lemma kgets_key maxlen pre buf l k ks fuel w :
  holds maxlen buf l -> tty_ok w -> keys w = k :: ks -> k <> 10 -> k <> 13 -> k <> 3 ->
  keyed maxlen pre buf l (edit maxlen l k) w ks fuel (kgets_loop (S fuel) buf maxlen (Z.of_nat (length l)) w).
Proof.
  intros Hh Hw Hk H10 H13 H3. destruct (getch_key w k ks Hw Hk) as (w1 & Eg & Hw1 & Hk1 & Hs1). assert (display w1 = display w) as Hd1 by (unfold display; by rewrite Hs1).
  pose proof Hh as (Hm & Hm2 & _). cbn [kgets_loop]. rewrite Eg, bind_Ok, Z.geb_leb, u32_small by lia. unfold edit.
  rewrite (proj2 (Z.eqb_neq k 10) H10), (proj2 (Z.eqb_neq k 13) H13), (proj2 (Z.eqb_neq k 3) H3). cbn [orb].
  destruct ((32 <=? k) && (k <? 127) && (Z.of_nat (length l) <? maxlen - 1)) eqn:Hc.
  { apply andb_true_iff in Hc as [Hc Hlt]. apply andb_true_iff in Hc as [Hc1 Hc2]. apply Z.leb_le in Hc1. apply Z.ltb_lt in Hc2, Hlt. apply key_print; (done || lia). }
  clear Hc. rewrite Z.gtb_ltb. destruct ((k =? 8) || (k =? 127)) eqn:Hb; cbn [andb].
  { destruct (Z.ltb_spec 0 (Z.of_nat (length l))); [by apply key_backsp|]. assert (l = []) as -> by (destruct l; [done|cbn in *; lia]).
    assert (k = 8 \/ k = 127) as [-> | ->] by (apply orb_true_iff in Hb as [Hb|Hb]; apply Z.eqb_eq in Hb; lia); by apply key_beep. }
  destruct (Z.eqb_spec k 18) as [->|H18]; [by apply key_reprint|]. destruct (Z.eqb_spec k 21); [by apply key_erase_line|]. destruct (Z.eqb_spec k 23); [by apply key_erase_word|]. by apply key_beep.
Qed.

Lemma kgets_loop_spec maxlen seen out rest : forall ks fuel pre buf l w,
  holds maxlen buf l -> tty_ok w -> keys w = ks -> typed_line maxlen l ks = Some (seen, out, rest) -> (length ks <= fuel)%nat ->
  exists w' buf', kgets_loop fuel buf maxlen (Z.of_nat (length l)) w = Ok (Z.of_nat (length out), buf', w') /\
    holds maxlen buf' out /\ length buf' = length buf /\ tty_ok w' /\ keys w' = rest /\
    (shows pre l (display w) -> exists pre' n above, (pre' = pre \/ pre' = []) /\ sc_above (display w') = above ++ [pre' ++ seen ++ replicate n 32]).
Proof.
  induction ks as [|k ks IH]; intros fuel pre buf l w Hh Hw Hk Ht Hf; [done|]. destruct fuel as [|fuel]; [cbn in Hf; lia|]. cbn [typed_line] in Ht.
  destruct ((k =? 10) || (k =? 13)) eqn:Hnl; [|destruct (Z.eqb_spec k 3) as [->|H3]].
  - injection Ht as <- <- <-. destruct (getch_key w k ks Hw Hk) as (w1 & Eg & Hw1 & Hk1 & Hs1). cbn [kgets_loop]. rewrite Eg, bind_Ok, Hnl.
    destruct (putch_shown 10 w1 Hw1) as (w2 & -> & Hw2 & Hk2 & Hs2). rewrite bind_Ok. exists w2, buf. do 4 (split; [done|]). split; [congruence|]. intros Hsh. destruct (show_newline pre l _ Hsh) as (n & Ha & _).
    exists pre, n. eexists. split; [by left|]. rewrite (prints_display [10] w1 w2) by done. unfold display at 1. rewrite Hs1. exact Ha.
  - injection Ht as <- <- <-. destruct (getch_key w 3 ks Hw Hk) as (w1 & Eg & Hw1 & Hk1 & Hs1). cbn [kgets_loop]. rewrite Eg, bind_Ok. cbn [Z.eqb orb Z.geb Z.compare andb Pos.compare Pos.compare_cont Pos.eqb].
    destruct (putchs_spec [94; 67; 10] w1 Hw1) as (w2 & E & Hp). cbn [putchs] in E. inv_ok. rewrite E0, bind_Ok, E1, bind_Ok, E2, bind_Ok. exists w2, buf. split; [done|].
    split; [by apply (holds_prefix _ _ l), prefix_nil|]. split; [done|]. split; [apply Hp|]. split; [rewrite (proj1 (proj2 Hp)); done|]. intros Hsh. rewrite (prints_display _ _ _ Hp). unfold display at 1. rewrite Hs1.
    destruct (show_newline pre (l ++ [94; 67]) (foldl show (display w) [94; 67])) as (n & Ha & _); [by apply show_chars; [repeat constructor|]|]. exists pre, n. eexists. split; [by left|]. exact Ha.
  - apply orb_false_iff in Hnl as [H10 H13]. apply Z.eqb_neq in H10, H13. destruct (kgets_key maxlen pre buf l k ks fuel w Hh Hw Hk H10 H13 H3) as (w1 & buf1 & -> & Hh1 & Hl1 & Hw1 & Hk1 & Hs1).
    destruct (IH fuel pre buf1 (edit maxlen l k) w1 Hh1 Hw1 Hk1 Ht ltac:(cbn in Hf; lia)) as (w2 & buf2 & E2 & Hh2 & Hl2 & Hw2 & Hk2 & Hs2).
    exists w2, buf2. split; [done|]. split; [done|]. split; [congruence|]. do 2 (split; [done|]). intros Hsh. destruct (Hs1 Hsh) as (pre1 & Hp1 & Hsh1).
    destruct (IH fuel pre1 buf1 (edit maxlen l k) w1 Hh1 Hw1 Hk1 Ht ltac:(cbn in Hf; lia)) as (w3 & buf3 & E3 & _ & _ & _ & _ & Hs3). rewrite E2 in E3. injection E3 as -> ->.
    destruct (Hs3 Hsh1) as (pre' & n & above & Hp & Ha). exists pre', n, above. split; [|done]. destruct Hp as [->| ->]; [done|by right].
Qed.
End facts.

(** ** [con_io] *)

(** What a write sends: a carriage return before every newline. *)
Definition crlf (data : list Z) : list Z := data ≫= fun c => if c =? 10 then [13; 10] else [c].

(** What a read of [n] bytes gets: up to the end of the line, and the keys
    that are left. *)
Fixpoint line_read (n : nat) (ks : list Z) : option (list Z * list Z) :=
  match n, ks with
  | O, _ => Some ([], ks)
  | S _, [] => None
  | S n, k :: ks =>
      let c := if u8 k =? 13 then 10 else u8 k in
      if c =? 10 then Some ([c], ks)
      else '(l, ks) ← line_read n ks; Some (c :: l, ks)
  end%stdpp.

Section io.
Context {W : Type} {TW : Terminal W} {TL : TerminalLaws W}.
Context (valid : Z -> bool) (curspace : option Z).
Implicit Types (w : W) (u : uio).

Lemma con_write_spec n : forall fuel u w,
  uio_wf u -> tty_ok w -> reachable valid curspace u (uio_resid u) -> is_write u = true -> uio_resid u = Z.of_nat n -> Forall (fun c => 0 <= c < 256) (iov_data u) -> (n < fuel)%nat ->
  exists w', con_io_loop valid curspace fuel u w = Ok (0, advance (Z.of_nat n) (drop n (iov_data u)) u, w') /\
    tty_ok w' /\ keys w' = keys w /\ shown w' = shown w ++ crlf (take n (iov_data u)).
Proof.
  induction n as [|n IH]; intros fuel u w Hwf Hok Hr Hw Hn Hb Hf; (destruct fuel as [|fuel]; [lia|]); cbn [con_io_loop]; rewrite Hn, Z.gtb_ltb.
  { exists w. cbn. rewrite drop_0, app_nil_r, advance_0 by apply Hwf. done. }
  destruct (Z.ltb_spec 0 (Z.of_nat (S n))); [|lia]. rewrite Hw. cbn [negb]. pose proof Hwf as (Hbase & Hres & Hlen & Hdat & _). specialize (Hdat Hw).
  rewrite uiomove_spec; [|done|apply (reachable_le _ _ u (uio_resid u)); [done|lia]|lia|done]. rewrite bind_Ok, Hw. cbn [Z.eqb negb]. change (Z.to_nat 1) with 1%nat.
  destruct (iov_data u) as [|c data] eqn:Hd; [cbn in Hdat; lia|]. apply Forall_cons_1 in Hb as [Hc Hb]. change (load (take 1 (c :: data) ++ drop 1 [0]) 0) with (Ok c). change (drop 1 (c :: data)) with data. rewrite bind_Ok.
  assert (exists w1, (if c =? 10 then putch 13 w else Ok w) = Ok w1 /\ tty_ok w1 /\ keys w1 = keys w /\ shown w1 = shown w ++ (if c =? 10 then [13] else [])) as (w1 & -> & Hok1 & Hk1 & Hs1).
  { destruct (c =? 10); [by apply (putch_shown 13)|exists w; by rewrite app_nil_r]. }
  rewrite bind_Ok. destruct (putch_shown (schar c) w1 Hok1) as (w2 & -> & Hok2 & Hk2 & Hs2). rewrite bind_Ok. rewrite u8_schar in Hs2 by done.
  destruct (IH fuel (advance 1 data u) w2) as (w3 & -> & Hok3 & Hk3 & Hs3); try done.
  - apply advance_wf; [done|lia|]. by rewrite Hd.
  - apply reachable_advance; [done|done|lia].
  - cbn. lia.
  - lia.
  - exists w3. cbn [iov_data advance] in *. rewrite advance_advance. replace (1 + Z.of_nat n) with (Z.of_nat (S n)) by lia. do 2 (split; [done|]). split; [congruence|]. rewrite Hs3, Hs2, Hs1. unfold crlf. cbn. rewrite <- !app_assoc. f_equal.
    by destruct (Z.eqb_spec c 10) as [->|].
Qed.

Lemma con_read_spec n : forall fuel u w data rest,
  uio_wf u -> tty_ok w -> reachable valid curspace u (uio_resid u) -> is_write u = false -> uio_resid u = Z.of_nat n -> line_read n (keys w) = Some (data, rest) -> (n < fuel)%nat ->
  exists w', con_io_loop valid curspace fuel u w = Ok (0, advance (Z.of_nat (length data)) (iov_data u ++ data) u, w') /\ tty_ok w' /\ keys w' = rest /\ shown w' = shown w.
Proof.
  induction n as [|n IH]; intros fuel u w data rest Hwf Hok Hr Hw Hn Hl Hf; (destruct fuel as [|fuel]; [lia|]); cbn [con_io_loop]; rewrite Hn, Z.gtb_ltb.
  { injection Hl as <- <-. exists w. cbn. rewrite app_nil_r, advance_0 by apply Hwf. done. }
  destruct (Z.ltb_spec 0 (Z.of_nat (S n))); [|lia]. rewrite Hw. cbn [negb]. cbn [line_read] in Hl. destruct (keys w) as [|k ks] eqn:Hk; [done|].
  destruct (getch_key w k ks Hok Hk) as (w1 & -> & Hok1 & Hk1 & Hs1). rewrite bind_Ok. cbv zeta in *. set (c := if u8 k =? 13 then 10 else u8 k) in *.
  rewrite uiomove_spec; [|done|apply (reachable_le _ _ u (uio_resid u)); [done|lia]|lia|done]. rewrite bind_Ok, Hw. cbn [Z.eqb negb]. change (take (Z.to_nat 1) [c]) with [c].
  destruct (c =? 10); [injection Hl as <- <-; exists w1; done|]. destruct (line_read n ks) as [[l ks']|] eqn:Hl'; [|done]. injection Hl as <- <-.
  destruct (IH fuel (advance 1 (iov_data u ++ [c]) u) w1 l ks') as (w2 & -> & Hok2 & Hk2 & Hs2); try done.
  - apply advance_wf; [done|lia|by rewrite Hw].
  - apply reachable_advance; [apply Hwf|done|lia].
  - cbn. lia.
  - by rewrite Hk1.
  - lia.
  - exists w2. cbn [iov_data advance]. rewrite advance_advance, <- app_assoc. replace (1 + Z.of_nat (length l)) with (Z.of_nat (length (c :: l))) by (cbn; lia). do 2 (split; [done|]). split; congruence.
Qed.
End io.

(** The buffer that kgets() leaves begins with the line. *)
Lemma kgets_line {W : Type} {TW : Terminal W} {TL : TerminalLaws W} maxlen buf (w : W) seen out rest fuel :
  tty_ok w -> 1 <= maxlen <= Z.of_nat (length buf) -> maxlen < 4294967296 ->
  typed_line maxlen [] (keys w) = Some (seen, out, rest) -> (length (keys w) <= fuel)%nat ->
  exists w' buf', kgets fuel buf maxlen w = Ok (buf', w') /\ (exists r, buf' = out ++ 0 :: r) /\ (0 ∉ out) /\ tty_ok w' /\ keys w' = rest.
Proof.
  intros Hok Hm Hm2 Ht Hf. destruct (kgets_loop_spec (mk_screen [] [] 0) maxlen seen out rest (keys w) fuel [] buf [] w) as (w' & buf' & E & Hh & Hl & Hw & Hk & _); try done.
  { do 2 (split; [done|]). split; [cbn; lia|]. split; [done|constructor]. }
  destruct (holds_end maxlen buf' out Hh) as (Es & Hh' & _). exists w', (<[length out := 0]> buf'). unfold kgets. change (Z.of_nat (length (@nil Z))) with 0 in E. rewrite E, bind_Ok, Es, bind_Ok.
  split; [done|]. destruct Hh as (Hm' & _ & Hlt & _ & Hp). destruct Hh' as (_ & _ & _ & Hout & _). split; [|split; [|done]].
  - exists (drop (S (length out)) (<[length out := 0]> buf')). rewrite <- (take_drop (length out) (<[length out := 0]> buf')) at 1. rewrite Hout. f_equal. apply drop_S. apply list_lookup_insert_eq. lia.
  - intros H0. apply list_elem_of_lookup_1 in H0 as [i Hi]. eapply Forall_lookup_1 in Hp; [|exact Hi]. lia.
Qed.

(** C37. kgets() is a line editor.  For any keys that end a line, it returns,
    with a buffer that holds exactly the line that the keys make (printable
    characters that fit, backspace, ^U, ^W, ^C) with its final 0, never
    writes outside the buffer, and takes no key of the next line.  The screen
    shows that line behind the prompt, or alone after ^R, with nothing but
    blanks where characters were erased. *)
Theorem kgets_exact {W : Type} {TW : Terminal W} {TL : TerminalLaws W} s0 pre maxlen buf (w : W) seen out rest fuel :
  tty_ok w -> 1 <= maxlen <= Z.of_nat (length buf) -> maxlen < 4294967296 ->
  typed_line maxlen [] (keys w) = Some (seen, out, rest) -> (length (keys w) <= fuel)%nat ->
  exists w' buf', kgets fuel buf maxlen w = Ok (buf', w') /\ cstring buf' = out /\ length buf' = length buf /\ tty_ok w' /\ keys w' = rest /\
    Z.of_nat (length out) < maxlen /\ Forall (fun c => 32 <= c < 127) out /\
    (shows pre [] (display s0 w) -> exists pre' n above, (pre' = pre \/ pre' = []) /\ sc_above (display s0 w') = above ++ [pre' ++ seen ++ replicate n 32]).
Proof.
  intros Hok Hm Hm2 Ht Hf. destruct (kgets_loop_spec s0 maxlen seen out rest (keys w) fuel pre buf [] w) as (w' & buf' & E & Hh & Hl & Hw & Hk & Hs); try done.
  { do 2 (split; [done|]). split; [cbn; lia|]. split; [done|constructor]. }
  destruct (holds_end maxlen buf' out Hh) as (Es & _ & Hc). exists w', (<[length out := 0]> buf'). unfold kgets. change (Z.of_nat (length (@nil Z))) with 0 in E.
  rewrite E, bind_Ok, Es, bind_Ok, length_insert. do 5 (split; [done|]). destruct Hh as (_ & _ & Hlt & _ & Hp). split; [lia|]. done.
Qed.

(** C35. Reads and writes of the console device.  A write sends all bytes,
    with a carriage return before each newline, and uses up the region; a
    read ends with the first end of a line or when the region is full, and
    stores the characters typed, newline for carriage return. *)
Theorem con_io_exact {W : Type} {TW : Terminal W} {TL : TerminalLaws W} valid curspace u (w : W) fuel :
  uio_wf u -> tty_ok w -> reachable valid curspace u (uio_resid u) -> (Z.to_nat (uio_resid u) < fuel)%nat ->
  (is_write u = true -> Forall (fun c => 0 <= c < 256) (iov_data u) ->
     exists w', con_io valid curspace fuel true u w = Ok (0, advance (uio_resid u) (drop (Z.to_nat (uio_resid u)) (iov_data u)) u, w') /\
       tty_ok w' /\ keys w' = keys w /\ shown w' = shown w ++ crlf (take (Z.to_nat (uio_resid u)) (iov_data u))) /\
  (is_write u = false -> forall data rest, line_read (Z.to_nat (uio_resid u)) (keys w) = Some (data, rest) ->
     exists w', con_io valid curspace fuel true u w = Ok (0, advance (Z.of_nat (length data)) (iov_data u ++ data) u, w') /\ tty_ok w' /\ keys w' = rest /\ shown w' = shown w).
Proof.
  intros Hwf Hok Hr Hf. pose proof Hwf as (_ & Hres & _). unfold con_io. cbn [assert]. rewrite bind_Ok. split.
  - intros Hw Hb. destruct (con_write_spec valid curspace (Z.to_nat (uio_resid u)) fuel u w) as (w' & E & ?); try done; [lia|]. rewrite Z2Nat.id in E by lia. by exists w'.
  - intros Hw data rest Hl. by apply (con_read_spec valid curspace (Z.to_nat (uio_resid u)) fuel u w data rest); try done; lia.
Qed.

(** ** The console driver as a terminal *)

(** One thread prints and reads, and every key is pressed after the thread
    has begun to wait for it.  Both calls are schedules of the driver: the
    wait at a semaphore is time passing until the card interrupts. *)
Section driver.
Context {H : Type} {HW : SerialHw H}.
Variable fuel : nat.

Record tty : Type := mk_tty { t_sys : sys H; t_keys : list Z }.

Definition tty_getch (w : tty) : res (Z * tty) :=
  match t_keys w with
  | [] => Fuel
  | k :: ks =>
      s ← exec fuel [Getch 0; Run (Some k); Irq; TakeR 0; Read 0] (t_sys w);
      match list.last (got s) with Some ch => Ok (ch, mk_tty s ks) | None => Undef end
  end.

Definition tty_putch (ch : Z) (w : tty) : res tty :=
  s ← exec fuel ([Putch 0 ch] ++ (replicate fuel (Run None) ++ [Irq]) ++ [TakeW 0; Send 0]) (t_sys w);
  Ok (mk_tty s (t_keys w)).

(** There is a device that beeps. *)
Definition tty_terminal : Terminal tty := {| getch := tty_getch; putch := tty_putch; beep := fun w => Ok w |}.
End driver.

Section driver_laws.
Context {H : Type} {HW : SerialHw H} {HV : SerialView H} {HL : SerialLaws H}.
Variable fuel : nat.
Hypothesis Hf : (latency <= fuel)%nat.

Definition driver_ok (w : tty) : Prop :=
  output_inv (t_sys w) /\ users (t_sys w) = [Outside] /\ cs_rsem (s_con (t_sys w)) = 0 /\ key (card (s_con (t_sys w))) = None /\ Forall (fun k => 0 <= k < 256) (t_keys w).

Lemma exec_next ev evs s : output_inv s -> exists s', perform fuel ev s = Ok s' /\ output_inv s' /\ exec fuel (ev :: evs) s = exec fuel evs s'.
Proof. intros Hi. destruct (perform_inv fuel ev s Hf Hi) as (s' & E & Hi'). exists s'. split; [done|]. split; [done|]. cbn [exec]. by rewrite E, bind_Ok. Qed.

Lemma driver_getch w k ks : driver_ok w -> t_keys w = k :: ks ->
  exists w', tty_getch fuel w = Ok (k, w') /\ driver_ok w' /\ t_keys w' = ks /\ line (card (s_con (t_sys w'))) = line (card (s_con (t_sys w))).
Proof.
  destruct w as [s ks0]. intros (Hi & Hu & Hr & Hk & Hks) Hkeys. cbn [t_sys t_keys] in *. subst ks0. apply Forall_cons_1 in Hks as [Hk0 Hks]. unfold tty_getch. cbn [t_sys t_keys].
  destruct (exec_next (Getch 0) [Run (Some k); Irq; TakeR 0; Read 0] s Hi) as (s1 & E1 & Hi1 & ->). cbn [perform] in E1. rewrite Hu in E1. injection E1 as E1.
  destruct (exec_next (Run (Some k)) [Irq; TakeR 0; Read 0] s1 Hi1) as (s2 & E2 & Hi2 & ->). cbn [perform] in E2. injection E2 as E2.
  destruct (run_key k (card (s_con s))) as (Hl2 & _ & _ & Hkey & _). destruct (Hkey Hk) as [Hkey2 _]. rewrite u8_small in Hkey2 by lia.
  assert (card (s_con s2) = ser_run (Some k) (card (s_con s)) /\ cs_rsem (s_con s2) = 0 /\ users s2 = [Waits]) as (Hc2 & Hr2 & Hu2) by (subst s2 s1; cbn; by rewrite Hu).
  destruct (exec_next Irq [TakeR 0; Read 0] s2 Hi2) as (s3 & E3 & Hi3 & ->). cbn [perform] in E3. pose proof Hi2 as (Ha2 & _ & Hok2 & _).
  destruct (irq_spec (s_con s2) Hok2 Ha2) as (d & h & Eirq & _ & _ & _ & Hl3 & Hkey3 & _). rewrite Eirq in E3. injection E3 as E3. rewrite Hc2, Hkey2, Hr2 in *.
  assert (cs_rsem (s_con s3) = 1 /\ cs_gotchar (s_con s3) = k /\ users s3 = [Waits] /\ card (s_con s3) = h) as (Hr3 & Hg3 & Hu3 & Hc3).
  { by subst s3. }
  destruct (exec_next (TakeR 0) [Read 0] s3 Hi3) as (s4 & E4 & Hi4 & ->). cbn [perform] in E4. rewrite Hu3, Hr3 in E4. injection E4 as E4.
  destruct (exec_next (Read 0) [] s4 Hi4) as (s5 & E5 & Hi5 & ->). cbn [perform] in E5. rewrite <- E4 in E5. cbn in E5. rewrite Hu3, Hg3 in E5. injection E5 as E5.
  cbn [exec]. rewrite bind_Ok. rewrite <- E5. cbn [got]. rewrite last_snoc. eexists. split; [reflexivity|]. cbn [t_sys t_keys]. rewrite E5. split; [|split; [done|]].
  - split; [done|]. subst s5. cbn. rewrite Hc3. done.
  - subst s5. cbn. by rewrite Hc3, Hl3.
Qed.

Lemma driver_putch ch w : driver_ok w ->
  exists w', tty_putch fuel ch w = Ok w' /\ driver_ok w' /\ t_keys w' = t_keys w /\ line (card (s_con (t_sys w'))) = line (card (s_con (t_sys w))) ++ [u8 ch].
Proof.
  destruct w as [s ks]. intros (Hi & Hu & Hr & Hk & Hks). cbn [t_sys t_keys] in *. unfold tty_putch. cbn [t_sys t_keys].
  destruct (exec_next (Putch 0 ch) ((replicate fuel (Run None) ++ [Irq]) ++ [TakeW 0; Send 0]) s Hi) as (s1 & E1 & Hi1 & Hx1). cbn [app]. rewrite Hx1. clear Hx1. cbn [perform] in E1. rewrite Hu in E1. injection E1 as E1.
  assert (users s1 = [Wants ch] /\ s_con s1 = s_con s) as (Hu1 & Hc1) by (by subst s1).
  destruct (free_up fuel s1 Hf Hi1) as (c & Ef & Hb & Hl & Hkey & _ & Hrs). destruct (exec_inv fuel (replicate fuel (Run None) ++ [Irq]) s1 Hf Hi1) as (s2 & Ef' & Hi2). rewrite Ef in Ef'. injection Ef' as Es2.
  rewrite (exec_events_app _ _ _ _ _ Ef), Es2. rewrite Hc1 in *. rewrite Hk, bool_decide_false, Hr in Hrs by (intros [? ?]; done). cbn in Hrs.
  assert (users s2 = [Wants ch] /\ s_con s2 = c) as (Hu2 & Hc2) by (subst s2; cbn; by rewrite Hu1).
  pose proof Hi2 as (_ & _ & _ & H0 & H1 & _). rewrite Hu2, Hc2, Hb in H1. cbn in H1.
  destruct (exec_next (TakeW 0) [Send 0] s2 Hi2) as (s3 & E3 & Hi3 & ->). cbn [perform] in E3. rewrite Hu2, Hc2, Z.gtb_ltb in E3. destruct (Z.ltb_spec 0 (cs_wsem c)); [|lia]. injection E3 as E3.
  assert (users s3 = [Sending ch] /\ ls_wbusy (s_con s3) = false /\ card (s_con s3) = card c /\ cs_rsem (s_con s3) = 0) as (Hu3 & Hb3 & Hc3 & Hr3) by (subst s3; cbn; by rewrite Hu2).
  destruct (exec_next (Send 0) [] s3 Hi3) as (s4 & E4 & Hi4 & ->). cbn [perform] in E4. rewrite Hu3 in E4. cbn in E4. pose proof Hi3 as (_ & _ & Hok3 & _). rewrite Hb3 in Hok3.
  destruct (write_spec ch (s_con s3) Hb3 Hok3) as (h & Ew & _ & Hl4 & Hkey4 & _). rewrite Ew in E4. injection E4 as E4. cbn [exec]. rewrite bind_Ok. eexists. split; [reflexivity|]. cbn [t_sys t_keys].
  rewrite Hc3 in *. split; [|split; [done|]].
  - split; [done|]. rewrite <- E4. cbn [t_sys t_keys users set_user s_con cs_rsem set_lser card]. rewrite Hkey4. done.
  - subst s4. cbn. by rewrite Hl4, Hl.
Qed.

(** The driver keeps what a terminal promises. *)
Definition tty_laws : @TerminalLaws (@tty H) (tty_terminal fuel).
Proof.
  refine (@Build_TerminalLaws (@tty H) (tty_terminal fuel) driver_ok t_keys (fun w => line (card (s_con (t_sys w)))) driver_getch driver_putch _).
  intros w Hw. by exists w.
Defined.
End driver_laws.

(** ** A line typed on the serial card *)

Definition uart_on : con uart := mk_con false true (mk_uart [] Ready false None []) 0 1 0 true (replicate 1024 0) 0.
Definition uart_tty (ks : list Z) : @tty uart := mk_tty (mk_sys uart_on [Outside] [] [] []) ks.

Lemma uart_ready ks : Forall (fun k => 0 <= k < 256) ks -> driver_ok (uart_tty ks).
Proof.
  intros Hks. split; [|done]. do 6 (split; [done|]). intros [[|t]|]; done.
Qed.

Global Instance uart_terminal : Terminal (@tty uart) := tty_terminal 3.
Global Instance uart_tlaws : TerminalLaws (@tty uart) := tty_laws (H := uart) 3 (le_n 3).

(** "lx", backspace, "s a", ^W, return: the line is "ls ". *)
Lemma kgets_exact_witness :
  exists w' buf', kgets 9 (replicate 64 0) 64 (uart_tty [108; 120; 8; 115; 32; 97; 23; 13; 113]) = Ok (buf', w') /\
    cstring buf' = [108; 115; 32] /\ length buf' = length (replicate 64 0) /\ tty_ok w' /\
    keys w' = [113] /\ Z.of_nat (length [108; 115; 32]) < 64 /\ Forall (fun c => 32 <= c < 127) [108; 115; 32] /\
    (shows [] [] (display (mk_screen [] [] 0) (uart_tty [108; 120; 8; 115; 32; 97; 23; 13; 113])) ->
     exists pre' n above, (pre' = [] \/ pre' = []) /\
       sc_above (display (mk_screen [] [] 0) w') = above ++ [pre' ++ [108; 115; 32] ++ replicate n 32]).
Proof.
  apply (kgets_exact (mk_screen [] [] 0) [] 64 (replicate 64 0) (uart_tty [108; 120; 8; 115; 32; 97; 23; 13; 113]) [108; 115; 32] [108; 115; 32] [113] 9).
  - apply uart_ready. repeat constructor; done.
  - cbn. lia.
  - lia.
  - reflexivity.
  - cbn. lia.
Defined.

Lemma con_io_exact_witness :
  let u := mk_kuio [104; 105; 10] 3 0 UIO_WRITE in
  (is_write u = true -> Forall (fun c => 0 <= c < 256) (iov_data u) ->
     exists w', con_io (fun _ => true) None 9 true u (uart_tty []) = Ok (0, advance (uio_resid u) (drop (Z.to_nat (uio_resid u)) (iov_data u)) u, w') /\
       tty_ok w' /\ keys w' = keys (uart_tty []) /\
       shown w' = shown (uart_tty []) ++ crlf (take (Z.to_nat (uio_resid u)) (iov_data u))) /\
  (is_write u = false -> forall data rest, line_read (Z.to_nat (uio_resid u)) (keys (uart_tty [])) = Some (data, rest) ->
     exists w', con_io (fun _ => true) None 9 true u (uart_tty []) = Ok (0, advance (Z.of_nat (length data)) (iov_data u ++ data) u, w') /\
       tty_ok w' /\ keys w' = rest /\ shown w' = shown (uart_tty [])).
Proof.
  intros u. apply (con_io_exact (fun _ => true) None u (uart_tty []) 9).
  - unfold uio_wf. cbn. repeat split; (done || lia).
  - by apply uart_ready.
  - done.
  - cbn. lia.
Defined.
