(* ===== verification/LoadElf.v ===== *)
(** * kern/userprog/loadelf.c: loading executables

    [load_elf] reads the headers of an executable, lays out the address space
    and copies the segments into it.  The file is behind the parameter
    [vop_read], which is [VOP_READ] on the executable's vnode.

    A user region is written through the TLB: an address that the TLB does not
    translate faults, and [vm_fault] fills the TLB or fails, which ends the
    copy with EFAULT.  What [uiomove] puts into the region is [iov_data]
    (Uio.v); it goes to memory byte by byte. *)
From stdpp Require Import base numbers list option gmap.
From S2P Require Import Prelude Ram DumbVm DumbVmSpec Uio.
Local Open Scope Z_scope.

(** ** elf.h: the structures, big-endian in the file *)

Definition byte_at (l : list Z) (i : nat) : Z := default 0 (l !! i).
Definition be16 (l : list Z) (i : nat) : Z := byte_at l i * 256 + byte_at l (i + 1).
Definition be32 (l : list Z) (i : nat) : Z := be16 l i * 65536 + be16 l (i + 2).

Record Elf_Ehdr : Type := mk_ehdr {
  e_ident : list Z;
  e_type : Z; e_machine : Z; e_version : Z; e_entry : Z; e_phoff : Z; e_phentsize : Z; e_phnum : Z;
}.

Definition sizeof_ehdr : Z := 52.
Definition ehdr_of (l : list Z) : Elf_Ehdr :=
  mk_ehdr (take 16 l) (be16 l 16) (be16 l 18) (be32 l 20) (be32 l 24) (be32 l 28) (be16 l 42) (be16 l 44).

Record Elf_Phdr : Type := mk_phdr {
  p_type : Z; p_offset : Z; p_vaddr : Z; p_filesz : Z; p_memsz : Z; p_flags : Z;
}.

Definition sizeof_phdr : Z := 32.
Definition phdr_of (l : list Z) : Elf_Phdr :=
  mk_phdr (be32 l 0) (be32 l 4) (be32 l 8) (be32 l 16) (be32 l 20) (be32 l 24).

Definition PT_NULL : Z := 0.
Definition PT_LOAD : Z := 1.
Definition PT_PHDR : Z := 6.
Definition PT_MIPS_REGINFO : Z := 0x70000000.
Definition PF_X : Z := 1.

(** ** Writing user memory *)

(** A store to a user address, up to the physical address: [None] when the
    fault is not resolved. *)
Definition access (a : addrspace) (m : machine) (v : Z) : res (machine * option Z) :=
  match tlb_lookup (m_tlb m) v with
  | Some p => Ok (m, Some p)
  | None =>
      '(m, e) ← vm_fault (Some a) m VM_FAULT_WRITE v;
      if e =? 0 then Ok (m, tlb_lookup (m_tlb m) v) else Ok (m, None)
  end.

(** Stores from [v] on; how many could be made. *)
Fixpoint user_store (a : addrspace) (m : machine) (v : Z) (data : list Z) : res (machine * nat) :=
  match data with
  | [] => Ok (m, 0%nat)
  | b :: data =>
      '(m, p) ← access a m v;
      match p with
      | None => Ok (m, 0%nat)
      | Some p =>
          mem ← store (m_mem m) p b;
          '(m, n) ← user_store a (set_mem mem m) (v + 1) data;
          Ok (m, S n)
      end
  end.

Section load.
Context {F : Type}.
Variable vop_read : (Z -> bool) -> option Z -> uio -> F -> res (Z * uio * F).
(** [curthread->t_vmspace], the address of the address space. *)
Variable vmspace : Z.
Implicit Types (a : addrspace) (m : machine) (f : F).

(** ** loadelf.c *)

(** [n] is how many bytes of the segment can be stored before a fault that is
    not resolved; storing stops there with EFAULT. *)
Definition load_segment a (offset vaddr memsize filesize : Z) (is_executable : bool) m f : res (Z * machine * F) :=
  let filesize := if filesize >? memsize then memsize else filesize in
  let u := mk_uio vaddr memsize [] offset filesize (if is_executable then UIO_USERISPACE else UIO_USERSPACE) UIO_READ (Some vmspace) in
  let n := match user_store a m vaddr (replicate (Z.to_nat memsize) 0) with Ok (_, n) => Z.of_nat n | _ => memsize end in
  let valid v := (vaddr <=? v) && (v <? vaddr + n) in
  '(result, u, f) ← vop_read valid (Some vmspace) u f;
  '(result, u) ←
    (if negb (result =? 0) then Ok (result, u)
     else if negb (uio_resid u =? 0) then Ok (ENOEXEC, u)
     else
       let fillamt := u32 (memsize - filesize) in
       if fillamt >? 0 then uiomovezeros valid (Some vmspace) fillamt (with_resid (u32 (uio_resid u + fillamt)) u)
       else Ok (0, u));
  '(m, _) ← user_store a m vaddr (iov_data u);
  Ok (result, m, f).

(** A structure of [len] bytes at [offset]: an error, ENOEXEC when the file
    is too short. *)
Definition read_struct (len offset : Z) f : res (Z * list Z * F) :=
  '(result, ku, f) ← vop_read (fun _ => false) (Some vmspace) (mk_kuio [] len offset UIO_READ) f;
  if negb (result =? 0) then Ok (result, iov_data ku, f)
  else if negb (uio_resid ku =? 0) then Ok (ENOEXEC, iov_data ku, f)
  else Ok (0, iov_data ku, f).

Definition header_ok (eh : Elf_Ehdr) : bool :=
  bool_decide (take 7 (e_ident eh) = [0x7f; 69; 76; 70; 1; 2; 1]) &&
  (e_version eh =? 1) && (e_type eh =? 2) && (e_machine eh =? 8).

Definition phdr_offset (eh : Elf_Ehdr) (i : Z) : Z := i32 (u32 (e_phoff eh + i * e_phentsize eh)).

(** [switch (ph.p_type)]: whether to load, or ENOEXEC. *)
Definition segment_type (ph : Elf_Phdr) : option bool :=
  if (p_type ph =? PT_NULL) || (p_type ph =? PT_PHDR) || (p_type ph =? PT_MIPS_REGINFO) then Some false
  else if p_type ph =? PT_LOAD then Some true
  else None.

(** The loop that defines the regions. *)
Fixpoint define_loop (rounds : nat) (eh : Elf_Ehdr) (i : Z) a f : res (Z * addrspace * F) :=
  match rounds with
  | O => Ok (0, a, f)
  | S rounds =>
      '(result, b, f) ← read_struct sizeof_phdr (phdr_offset eh i) f;
      if negb (result =? 0) then Ok (result, a, f)
      else
        let ph := phdr_of b in
        match segment_type ph with
        | None => Ok (ENOEXEC, a, f)
        | Some false => define_loop rounds eh (i + 1) a f
        | Some true =>
            let '(a, result) := as_define_region a (p_vaddr ph) (p_memsz ph) in
            if negb (result =? 0) then Ok (result, a, f) else define_loop rounds eh (i + 1) a f
        end
  end.

(** The loop that loads the segments. *)
Fixpoint load_loop (rounds : nat) (eh : Elf_Ehdr) (i : Z) a m f : res (Z * machine * F) :=
  match rounds with
  | O => Ok (0, m, f)
  | S rounds =>
      '(result, b, f) ← read_struct sizeof_phdr (phdr_offset eh i) f;
      if negb (result =? 0) then Ok (result, m, f)
      else
        let ph := phdr_of b in
        match segment_type ph with
        | None => Ok (ENOEXEC, m, f)
        | Some false => load_loop rounds eh (i + 1) a m f
        | Some true =>
            '(result, m, f) ←
              load_segment a (i32 (p_offset ph)) (p_vaddr ph) (p_memsz ph) (p_filesz ph) (negb (Z.land (p_flags ph) PF_X =? 0)) m f;
            if negb (result =? 0) then Ok (result, m, f) else load_loop rounds eh (i + 1) a m f
        end
  end.

(** The error, [*entrypoint], and the machine, address space and file. *)
Definition load_elf m a f : res (Z * Z * machine * addrspace * F) :=
  '(result, b, f) ← read_struct sizeof_ehdr 0 f;
  if negb (result =? 0) then Ok (result, 0, m, a, f)
  else
    let eh := ehdr_of b in
    if negb (header_ok eh) then Ok (ENOEXEC, 0, m, a, f)
    else
      '(result, a, f) ← define_loop (Z.to_nat (e_phnum eh)) eh 0 a f;
      if negb (result =? 0) then Ok (result, 0, m, a, f)
      else
        '(m, a, result) ← as_prepare_load m a;
        if negb (result =? 0) then Ok (result, 0, m, a, f)
        else
          '(result, m, f) ← load_loop (Z.to_nat (e_phnum eh)) eh 0 a m f;
          if negb (result =? 0) then Ok (result, 0, m, a, f)
          else
            let result := as_complete_load a in
            if negb (result =? 0) then Ok (result, 0, m, a, f) else Ok (0, e_entry eh, m, a, f).
End load.
