(* ===== verification/LoadElfSpec.v ===== *)
(** * What a loaded executable looks like

    The bytes of the segments are in the address space, the rest of them is
    zero, and nothing else in memory has changed.  [refusal] is the error for
    a file that [load_elf] refuses for its headers. *)
From stdpp Require Import base numbers list option gmap.
From S2P Require Import Prelude Ram DumbVm DumbVmSpec Uio LoadElf.
Local Open Scope Z_scope.

(** ** The room in the TLB

    [X] is the pages that are translated; every valid entry is for one of
    them. *)
Definition valid_entries (tlb : list (Z * Z)) : nat := length (filter (fun e => valid (snd e) = true) tlb).

Definition page (v : Z) : Z := v / PAGE_SIZE.

Record tlb_inv (a : addrspace) (X : gset Z) (tlb : list (Z * Z)) : Prop := {
  ti_len : length tlb = 64%nat;
  ti_sound : Forall (sound a) tlb;
  ti_count : (valid_entries tlb <= size X)%nat;
  ti_there v : 0 <= v < USERSTACK -> page v ∈ X -> exists p, tlb_lookup tlb v = Some p;
}.

Lemma valid_entries_insert tlb k e en : tlb !! k = Some e -> valid (snd e) = false ->
  (valid_entries (<[k := en]> tlb) <= 1 + valid_entries tlb)%nat.
Proof.
  intros Hk He. unfold valid_entries. pose proof (lookup_lt_Some _ _ _ Hk). rewrite insert_take_drop by done.
  rewrite <-(take_drop_middle tlb k e Hk) at 3. rewrite !filter_app, !filter_cons, !length_app.
  rewrite (decide_False (P := valid (snd e) = true)) by congruence. case_decide; cbn [length]; lia.
Qed.

Lemma all_valid_entries tlb : Forall (fun e => valid (snd e) = true) tlb -> valid_entries tlb = length tlb.
Proof.
  intros Ha. unfold valid_entries. induction Ha as [|e tlb He Ha IH]; [done|]. rewrite filter_cons, decide_True by done. cbn [length]. by rewrite IH.
Qed.

(** A hit is a hit for the whole page. *)
Lemma tlb_lookup_page tlb v w p : 0 <= v < USERSTACK -> 0 <= w < USERSTACK -> page v = page w -> tlb_lookup tlb v = Some p ->
  exists q, tlb_lookup tlb w = Some q.
Proof.
  intros Hv Hw Hp (e & Hin & He)%tlb_lookup_entry. unfold USERSTACK, MIPS_KSEG0 in *.
  assert (exists q, entry_trans e w = Some q) as [q Hq].
  { unfold entry_trans in *. rewrite (land_frame v) in He by lia. destruct (valid (snd e)); [|done]. cbn [andb] in *.
    destruct (Z.land (fst e) PAGE_FRAME =? _) eqn:E; [|done]. apply Z.eqb_eq in E. rewrite E, (land_frame w) by lia.
    replace (w - w `mod` PAGE_SIZE) with (v - v `mod` PAGE_SIZE) by (unfold page, PAGE_SIZE in *; dlia). rewrite Z.eqb_refl. by eexists. }
  by eapply tlb_lookup_elem.
Qed.

(** The pages of [Y] can all be in the TLB, and no others are. *)
Definition ready (a : addrspace) (Y : gset Z) (m : machine) : Prop := exists X, X ⊆ Y /\ tlb_inv a X (m_tlb m).

(** [m'] is [m] with [data] stored from [v] on: seen through the address space
    only that changes, and of memory only what the address space owns. *)
Record stored (a : addrspace) (m : machine) (v : Z) (data : list Z) (m' : machine) : Prop := {
  st_ram : m_ram m' = m_ram m;
  st_spl : curspl m' = curspl m;
  st_len : length (m_mem m') = length (m_mem m);
  st_view w : view a (m_mem m') w =
    if (v <=? w) && (w <? v + Z.of_nat (length data)) then data !! Z.to_nat (w - v) else view a (m_mem m) w;
  st_rest q : 0 <= q -> ~ owns a q -> m_mem m' !! Z.to_nat q = m_mem m !! Z.to_nat q;
}.

Section space.
Variables (last : Z) (a : addrspace).
Hypotheses (Hok : as_ok last a) (Hlast : last <= 508 * 1024 * 1024).
(** No two addresses are the same byte. *)
Hypothesis Hinj : forall v w p, translate a v = Some p -> translate a w = Some p -> v = w.

Lemma access_spec m X v p : tlb_inv a X (m_tlb m) -> 0 <= v < USERSTACK -> translate a v = Some p -> (size (X ∪ {[page v]}) <= 64)%nat ->
  exists tlb, access a m v = Ok (set_tlb tlb m, Some p) /\ tlb_inv a (X ∪ {[page v]}) tlb.
Proof.
  intros [Hl Hs Hc Ht] Hv Hp Hsz. unfold access. destruct (tlb_lookup (m_tlb m) v) as [q|] eqn:Eq.
  - exists (m_tlb m). split; [|split; try done].
    + rewrite (tlb_lookup_sound a _ v q Hs Hv Eq) in Hp. injection Hp as ->. by destruct m.
    + pose proof (subseteq_size X (X ∪ {[page v]}) ltac:(set_solver)). lia.
    + intros w Hw [Hw'|Hw'%elem_of_singleton]%elem_of_union; [by apply Ht|]. by apply (tlb_lookup_page _ v w q).
  - assert (page v ∉ X) as Hni by (intros Hin; destruct (Ht v Hv Hin); congruence). rewrite size_union, size_singleton in Hsz by set_solver.
    destruct (vm_fault_spec last a m v Hok Hlast Hv VM_FAULT_WRITE (or_intror eq_refl) Hl) as [[_ [Hn|Hfull]]|(p' & k & e & Ep & Ek & He & ->)].
    + congruence.
    + apply all_valid_entries in Hfull. lia.
    + rewrite bind_Ok. cbn [Z.eqb]. assert (p' = p) as -> by congruence. destruct (new_entry_sound last a v p Hok Hlast Hv Hp) as [Hse Hte].
      set (en := (_, _)) in *. cbn [m_tlb set_tlb]. exists (<[k := en]> (m_tlb m)). pose proof (lookup_lt_Some _ _ _ Ek).
      assert (Forall (sound a) (<[k := en]> (m_tlb m))) as Hs' by (by apply Forall_insert).
      assert (tlb_lookup (<[k := en]> (m_tlb m)) v = Some p) as Hv'.
      { apply (tlb_find a _ en v p p); try done. eapply list_elem_of_lookup_2, list_lookup_insert_eq. done. }
      rewrite Hv'. split; [done|]. split; [by rewrite length_insert|done| |].
      * rewrite size_union, size_singleton by set_solver. pose proof (valid_entries_insert _ _ _ en Ek He). lia.
      * intros w Hw [Hw'|Hw'%elem_of_singleton]%elem_of_union; [|by apply (tlb_lookup_page _ v w p)].
        destruct (Ht w Hw Hw') as [q Hq]. exists q. by apply (tlb_insert_keeps a _ k e).
Qed.

Lemma view_insert mem v w p b : last <= Z.of_nat (length mem) -> translate a v = Some p ->
  view a (<[Z.to_nat p := b]> mem) w = if decide (w = v) then Some b else view a mem w.
Proof.
  intros Hl Hp. pose proof (owns_range last a p Hok (translate_owns _ _ _ Hp)) as Hr. unfold view. case_decide as Hw.
  - subst w. rewrite Hp. cbn. rewrite list_lookup_insert_eq by lia. done.
  - destruct (translate a w) as [q|] eqn:Eq; [|done]. cbn. rewrite list_lookup_insert_ne; [done|].
    pose proof (owns_range last a q Hok (translate_owns _ _ _ Eq)). intros Ep. assert (p = q) as <- by lia. by rewrite (Hinj v w p Hp Eq) in Hw.
Qed.

Lemma stored_cons m tlb v b p data m' : last <= Z.of_nat (length (m_mem m)) -> translate a v = Some p ->
  stored a (set_mem (<[Z.to_nat p := b]> (m_mem m)) (set_tlb tlb m)) (v + 1) data m' -> stored a m v (b :: data) m'.
Proof.
  intros Hl Hp [Hr Hs Hn Hv Hq]. cbn [m_ram m_mem curspl set_mem set_tlb] in *. split; [done|done| | |].
  - by rewrite Hn, length_insert.
  - intros w. rewrite Hv, (view_insert (m_mem m) v w p) by done. cbn [length]. rewrite Nat2Z.inj_succ.
    case_decide as Hw; [subst w|]; repeat match goal with |- context [?x <=? ?y] => destruct (Z.leb_spec x y) | |- context [?x <? ?y] => destruct (Z.ltb_spec x y) end;
      cbn [andb]; try lia; try done.
    + by rewrite Z.sub_diag.
    + by replace (Z.to_nat (w - v)) with (S (Z.to_nat (w - (v + 1)))) by lia.
  - intros q Hq0 Hno. rewrite Hq by done. apply list_lookup_insert_ne. pose proof (owns_range last a p Hok (translate_owns _ _ _ Hp)).
    intros Ep. apply Hno. replace q with p by lia. by eapply translate_owns.
Qed.

(** The addresses from [v] on are in the address space and on pages of [Y]. *)
Definition writable (Y : gset Z) (v : Z) (n : nat) : Prop :=
  forall w, v <= w < v + Z.of_nat n -> 0 <= w < USERSTACK /\ page w ∈ Y /\ exists p, translate a w = Some p.

Lemma user_store_spec Y data : (size Y <= 64)%nat -> forall m v, ready a Y m -> last <= Z.of_nat (length (m_mem m)) -> writable Y v (length data) ->
  exists m', user_store a m v data = Ok (m', length data) /\ ready a Y m' /\ stored a m v data m'.
Proof.
  intros HY. induction data as [|b data IH]; intros m v Hrd Hl Hw.
  { exists m. split; [done|]. split; [done|]. split; try done. intros w. cbn [length]. destruct (Z.leb_spec v w), (Z.ltb_spec w (v + Z.of_nat 0)); cbn [andb]; done || lia. }
  destruct (Hw v) as (Hv & Hpg & p & Hp); [cbn; lia|]. destruct Hrd as (X & HX & Hti). cbn [user_store].
  assert (X ∪ {[page v]} ⊆ Y) as HXY by set_solver. pose proof (subseteq_size _ _ HXY).
  destruct (access_spec m X v p Hti Hv Hp) as (tlb & -> & Hti'); [lia|]. rewrite bind_Ok.
  pose proof (owns_range last a p Hok (translate_owns _ _ _ Hp)) as Hpr. cbn [m_mem set_tlb]. rewrite (store_in_range _ p) by lia. rewrite bind_Ok.
  destruct (IH (set_mem (<[Z.to_nat p := b]> (m_mem m)) (set_tlb tlb m)) (v + 1)) as (m' & -> & Hrd' & Hst).
  - by exists (X ∪ {[page v]}).
  - cbn. by rewrite length_insert.
  - intros w Hw'. apply Hw. cbn [length]. lia.
  - rewrite bind_Ok. exists m'. split; [done|]. split; [done|]. by eapply stored_cons.
Qed.
End space.

(** ** The executable

    What [VOP_READ] promises of a file: the bytes from the offset on, as many
    as there are, and the file stays as it is. *)
Class ExecFile {F : Type} (vop_read : (Z -> bool) -> option Z -> uio -> F -> res (Z * uio * F)) : Type := {
  ef_bytes : F -> list Z;
  ef_ok : F -> Prop;
  ef_read valid cs u f : ef_ok f -> uio_wf u -> reachable valid cs u (uio_resid u) -> 0 <= uio_offset u -> is_write u = false ->
    let n := Z.max 0 (Z.min (uio_resid u) (Z.of_nat (length (ef_bytes f)) - uio_offset u)) in
    exists f', vop_read valid cs u f =
        Ok (0, advance n (iov_data u ++ take (Z.to_nat n) (drop (Z.to_nat (uio_offset u)) (ef_bytes f))) u, f') /\
      ef_ok f' /\ ef_bytes f' = ef_bytes f;
}.

Definition ehdr (bytes : list Z) : Elf_Ehdr := ehdr_of (take 52 bytes).
Definition phdr_pos (bytes : list Z) (i : Z) : Z := e_phoff (ehdr bytes) + i * e_phentsize (ehdr bytes).
Definition phdr (bytes : list Z) (i : Z) : Elf_Phdr := phdr_of (take 32 (drop (Z.to_nat (phdr_pos bytes i)) bytes)).

(** The segments from header [i] on, in order. *)
Fixpoint segments (bytes : list Z) (i : Z) (n : nat) : list Elf_Phdr :=
  match n with
  | O => []
  | S n => (if p_type (phdr bytes i) =? PT_LOAD then [phdr bytes i] else []) ++ segments bytes (i + 1) n
  end.

(** What the segment is to hold. *)
Definition segment_data (bytes : list Z) (ph : Elf_Phdr) : list Z :=
  take (Z.to_nat (p_filesz ph)) (drop (Z.to_nat (p_offset ph)) bytes) ++ replicate (Z.to_nat (p_memsz ph - p_filesz ph)) 0.

Record segment_wf (bytes : list Z) (ph : Elf_Phdr) : Prop := {
  sw_place : segment_ok (p_vaddr ph) (p_memsz ph);
  sw_size : p_filesz ph <= p_memsz ph;
  sw_there : p_offset ph + p_filesz ph <= Z.of_nat (length bytes);
}.

(** The header and the program headers can be read, there is nothing unknown
    among them. *)
Record exec_wf (bytes : list Z) : Prop := {
  ew_bytes : Forall (fun b => 0 <= b < 256) bytes;
  ew_len : sizeof_ehdr <= Z.of_nat (length bytes) <= 2 ^ 30;
  ew_header : header_ok (ehdr bytes) = true;
  ew_phdrs i : 0 <= i < e_phnum (ehdr bytes) -> phdr_pos bytes i + sizeof_phdr <= Z.of_nat (length bytes);
  ew_types i : 0 <= i < e_phnum (ehdr bytes) -> segment_type (phdr bytes i) <> None;
  ew_segments : Forall (segment_wf bytes) (segments bytes 0 (Z.to_nat (e_phnum (ehdr bytes))));
}.

Lemma be16_range l i : Forall (fun b => 0 <= b < 256) l -> 0 <= be16 l i < 65536.
Proof.
  intros Hl. assert (forall i, 0 <= byte_at l i < 256) as Hb.
  { intros j. unfold byte_at. destruct (l !! j) eqn:E; cbn; [|lia]. by apply (Forall_lookup_1 _ _ _ _ Hl E). }
  unfold be16. pose proof (Hb i). pose proof (Hb (i + 1)%nat). lia.
Qed.

Lemma be32_range l i : Forall (fun b => 0 <= b < 256) l -> 0 <= be32 l i < 2 ^ 32.
Proof. intros Hl. unfold be32. pose proof (be16_range l i Hl). pose proof (be16_range l (i + 2) Hl). lia. Qed.

Lemma phdr_range bytes i : Forall (fun b => 0 <= b < 256) bytes -> 0 <= p_offset (phdr bytes i) /\ 0 <= p_filesz (phdr bytes i).
Proof. intros Hb. unfold phdr, phdr_of. cbn. split; apply be32_range; by apply Forall_take, Forall_drop. Qed.

Lemma phdr_pos_range bytes i : Forall (fun b => 0 <= b < 256) bytes -> 0 <= i -> 0 <= phdr_pos bytes i.
Proof.
  intros Hb Hi. apply (Forall_take _ 52) in Hb. unfold phdr_pos, ehdr, ehdr_of. cbn [e_phoff e_phentsize].
  pose proof (be32_range _ 28 Hb). pose proof (be16_range _ 42 Hb). nia.
Qed.

Lemma segment_type_load ph b : segment_type ph = Some b -> (p_type ph =? PT_LOAD) = b.
Proof.
  unfold segment_type, PT_NULL, PT_PHDR, PT_MIPS_REGINFO, PT_LOAD.
  destruct (Z.eqb_spec (p_type ph) 0), (Z.eqb_spec (p_type ph) 6), (Z.eqb_spec (p_type ph) 0x70000000), (Z.eqb_spec (p_type ph) 1);
    cbn [orb]; intros [= <-]; done || lia.
Qed.

(** The regions of the segments, until one cannot be defined. *)
Fixpoint define_all (segs : list Elf_Phdr) (a : addrspace) : addrspace * Z :=
  match segs with
  | [] => (a, 0)
  | ph :: segs =>
      let '(a, r) := as_define_region a (p_vaddr ph) (p_memsz ph) in
      if negb (r =? 0) then (a, r) else define_all segs a
  end.

(** What the program headers from number [i] on call for: the error, if one is
    past the end of the file, of a type that is not known, or a segment that
    cannot be defined; and the regions up to there. *)
Fixpoint scan (bytes : list Z) (n : nat) (i : Z) (a : addrspace) : Z * addrspace :=
  match n with
  | O => (0, a)
  | S n =>
      if phdr_pos bytes i + sizeof_phdr <=? Z.of_nat (length bytes) then
        match segment_type (phdr bytes i) with
        | None => (ENOEXEC, a)
        | Some false => scan bytes n (i + 1) a
        | Some true =>
            let '(a, r) := as_define_region a (p_vaddr (phdr bytes i)) (p_memsz (phdr bytes i)) in
            if negb (r =? 0) then (r, a) else scan bytes n (i + 1) a
        end
      else (ENOEXEC, a)
  end.

(** The error with which a file is refused for its headers, or 0. *)
Definition refusal (bytes : list Z) : Z :=
  if (sizeof_ehdr <=? Z.of_nat (length bytes)) && header_ok (ehdr bytes) then fst (scan bytes (Z.to_nat (e_phnum (ehdr bytes))) 0 (mk_as 0 0 0 0 0 0 0))
  else ENOEXEC.

(** The segments stored one after the other. *)
Fixpoint stored_all (a : addrspace) (bytes : list Z) (segs : list Elf_Phdr) (m m' : machine) : Prop :=
  match segs with
  | [] => m' = m
  | ph :: segs => exists m1, stored a m (p_vaddr ph) (segment_data bytes ph) m1 /\ stored_all a bytes segs m1 m'
  end.

(** ** Reading it *)
Section read.
Context {F : Type} (vop_read : (Z -> bool) -> option Z -> uio -> F -> res (Z * uio * F)) `{!ExecFile vop_read} (vmspace : Z).

Lemma read_struct_spec len off f : ef_ok f -> 0 <= off -> 0 <= len -> off + len < 2 ^ 31 ->
  exists f', ef_ok f' /\ ef_bytes f' = ef_bytes f /\
    read_struct vop_read vmspace len off f =
      Ok (if off + len <=? Z.of_nat (length (ef_bytes f)) then 0 else if len =? 0 then 0 else ENOEXEC,
          take (Z.to_nat len) (drop (Z.to_nat off) (ef_bytes f)), f').
Proof.
  intros Hf Ho Hl Hol. unfold read_struct.
  destruct (ef_read (fun _ => false) (Some vmspace) (mk_kuio [] len off UIO_READ) f Hf) as (f' & -> & Hf' & Eb); [|done|done|done|].
  { unfold uio_wf. cbn. repeat split; lia || done. }
  exists f'. split; [done|]. split; [done|]. rewrite bind_Ok. cbn [Z.eqb negb uio_resid uio_offset iov_data advance mk_kuio app].
  set (L := Z.of_nat (length (ef_bytes f))). assert (take (Z.to_nat (Z.max 0 (Z.min len (L - off)))) (drop (Z.to_nat off) (ef_bytes f)) =
    take (Z.to_nat len) (drop (Z.to_nat off) (ef_bytes f))) as Et.
  { destruct (Z.le_gt_cases len (L - off)); [do 2 f_equal; lia|].
    rewrite !take_ge; [done|rewrite length_drop; unfold L in *; lia..]. }
  rewrite Et. destruct (Z.leb_spec (off + len) L), (Z.eqb_spec len 0), (Z.eqb_spec (len - Z.max 0 (Z.min len (L - off))) 0); cbn [negb]; done || lia.
Qed.

Section exec.
Variable bytes : list Z.
Hypothesis Hexec : exec_wf bytes.

Lemma read_phdr i f : ef_ok f -> ef_bytes f = bytes -> 0 <= i < e_phnum (ehdr bytes) ->
  exists b f', ef_ok f' /\ ef_bytes f' = bytes /\ phdr_of b = phdr bytes i /\
    read_struct vop_read vmspace sizeof_phdr (phdr_offset (ehdr bytes) i) f = Ok (0, b, f').
Proof.
  intros Hf Eb Hi. pose proof (ew_phdrs _ Hexec i Hi) as Hin. pose proof (ew_len _ Hexec) as Hlen. pose proof (phdr_pos_range bytes i (ew_bytes _ Hexec)) as Hpos.
  unfold sizeof_phdr in *. assert (phdr_offset (ehdr bytes) i = phdr_pos bytes i) as ->.
  { unfold phdr_offset. fold (phdr_pos bytes i). rewrite u32_small, i32_small by lia. done. }
  destruct (read_struct_spec 32 (phdr_pos bytes i) f Hf) as (f' & Hf' & Eb' & E); [lia..|]. rewrite Eb in *.
  do 2 eexists. split; [exact Hf'|]. split; [done|]. split; [|rewrite E]; [|destruct (Z.leb_spec (phdr_pos bytes i + 32) (Z.of_nat (length bytes))); [done|lia]].
  done.
Qed.

Lemma define_loop_spec n : forall i a f, ef_ok f -> ef_bytes f = bytes -> 0 <= i -> i + Z.of_nat n <= e_phnum (ehdr bytes) ->
  exists f', ef_ok f' /\ ef_bytes f' = bytes /\
    define_loop vop_read vmspace n (ehdr bytes) i a f = Ok (snd (define_all (segments bytes i n) a), fst (define_all (segments bytes i n) a), f').
Proof.
  induction n as [|n IH]; intros i a f Hf Eb Hi Hn; [by exists f|]. cbn [define_loop segments].
  destruct (read_phdr i f Hf Eb ltac:(lia)) as (b & f1 & Hf1 & Eb1 & Eph & ->). rewrite bind_Ok. cbn [Z.eqb negb]. rewrite Eph.
  destruct (segment_type (phdr bytes i)) as [k|] eqn:Et; [|by destruct (ew_types _ Hexec i ltac:(lia))].
  rewrite (segment_type_load _ _ Et). destruct k; cbn [app define_all]; [|apply IH; done || lia].
  destruct (as_define_region _ _ _) as [a1 r]. destruct (r =? 0) eqn:Er; cbn [negb]; [apply IH; done || lia|]. by exists f1.
Qed.

(** ** Loading it *)

Lemma length_segment_data ph : segment_wf bytes ph -> 0 <= p_offset ph -> 0 <= p_filesz ph ->
  Z.of_nat (length (segment_data bytes ph)) = p_memsz ph.
Proof.
  intros [[_ [Hm _]] Hs Ht] Ho Hz. unfold segment_data. rewrite length_app, length_take, length_drop, length_replicate. lia.
Qed.

Section load.
Variables (last : Z) (a : addrspace) (Y : gset Z).
Hypotheses (Hok : as_ok last a) (Hlast : last <= 508 * 1024 * 1024) (HY : (size Y <= 64)%nat).
Hypothesis Hinj : forall v w p, translate a v = Some p -> translate a w = Some p -> v = w.

(** The file is read and the rest is cleared in the uio. *)
Lemma segment_uio valid off v memsz filesz seg f : ef_ok f -> ef_bytes f = bytes -> seg <> UIO_SYSSPACE ->
  0 <= off -> 0 <= filesz <= memsz -> off + filesz <= Z.of_nat (length bytes) -> 0 < v -> 0 < memsz < 2 ^ 30 -> v + memsz <= USERSTACK ->
  (forall w, v <= w < v + memsz -> valid w = true) ->
  exists u f', ef_ok f' /\ ef_bytes f' = bytes /\ uio_resid u = 0 /\
    vop_read valid (Some vmspace) (mk_uio v memsz [] off filesz seg UIO_READ (Some vmspace)) f = Ok (0, u, f') /\
    exists u', (if u32 (memsz - filesz) >? 0 then uiomovezeros valid (Some vmspace) (u32 (memsz - filesz)) (with_resid (u32 (uio_resid u + u32 (memsz - filesz))) u)
      else Ok (0, u)) = Ok (0, u') /\
      iov_data u' = take (Z.to_nat filesz) (drop (Z.to_nat off) bytes) ++ replicate (Z.to_nat (memsz - filesz)) 0.
Proof.
  intros Hf Eb Hseg Ho Hz Hoz Hv Hm Htop Hval. pose proof (ew_len _ Hexec) as Hlen. unfold USERSTACK, MIPS_KSEG0 in Htop.
  set (u0 := mk_uio _ _ _ _ _ _ _ _). assert (uio_wf u0) as Hwf by (unfold uio_wf; cbn; repeat split; done || lia).
  assert (reachable valid (Some vmspace) u0 memsz) as Hr.
  { unfold reachable. cbn. destruct seg; try done; (split; [done|]); intros _; (split; [unfold in_user, USERTOP; lia|]); intros k Hk; apply Hval; lia. }
  destruct (ef_read valid (Some vmspace) u0 f Hf Hwf) as (f' & Er & Hf' & Eb'); [by apply (reachable_le _ _ _ memsz); [|cbn; lia]|done|done|].
  rewrite Eb in *. cbn [uio_resid uio_offset u0 iov_data app] in Er. replace (Z.max 0 (Z.min filesz (Z.of_nat (length bytes) - off))) with filesz in Er by lia.
  set (d := take _ _) in *. exists (advance filesz d u0), f'. split; [done|]. split; [done|]. split; [cbn; lia|]. split; [done|].
  rewrite u32_small by lia. rewrite Z.gtb_ltb. destruct (Z.ltb_spec 0 (memsz - filesz)).
  2:{ eexists. split; [done|]. cbn. by replace (Z.to_nat (memsz - filesz)) with 0%nat by lia; rewrite app_nil_r. }
  set (n := memsz - filesz) in *. cbn [uio_resid advance u0]. rewrite Z.sub_diag, (u32_small (0 + n)) by lia. unfold uiomovezeros. cbn [is_write uio_dir with_resid advance u0 negb assert].
  rewrite bind_Ok, zeros_spec; [eexists; split; [done|done]| | |done|cbn; lia|lia].
  - unfold uio_wf. cbn [iov_base iov_len iov_data uio_resid uio_offset is_write uio_dir with_resid advance u0]. rewrite (u32_small (v + filesz)) by lia. repeat split; done || lia.
  - pose proof (reachable_advance valid (Some vmspace) u0 memsz filesz d ltac:(cbn; lia) Hr ltac:(lia)) as Hr'. exact Hr'.
Qed.

Lemma load_segment_spec ph m f : ef_ok f -> ef_bytes f = bytes -> segment_wf bytes ph -> 0 <= p_offset ph -> 0 <= p_filesz ph -> p_memsz ph < 2 ^ 30 ->
  ready a Y m -> last <= Z.of_nat (length (m_mem m)) -> writable a Y (p_vaddr ph) (Z.to_nat (p_memsz ph)) ->
  exists m' f', ef_ok f' /\ ef_bytes f' = bytes /\ ready a Y m' /\ stored a m (p_vaddr ph) (segment_data bytes ph) m' /\
    load_segment vop_read vmspace a (i32 (p_offset ph)) (p_vaddr ph) (p_memsz ph) (p_filesz ph) (negb (Z.land (p_flags ph) PF_X =? 0)) m f = Ok (0, m', f').
Proof.
  intros Hf Eb Hseg Ho Hz Hmz Hrd Hmem Hw. pose proof (ew_len _ Hexec) as Hlen. pose proof (length_segment_data ph Hseg Ho Hz) as Hld.
  destruct Hseg as [(Hv & Hm & Htop) Hs Ht]. unfold PAGE_SIZE in Hv. unfold load_segment. rewrite i32_small by lia.
  assert ((if p_filesz ph >? p_memsz ph then p_memsz ph else p_filesz ph) = p_filesz ph) as -> by (rewrite Z.gtb_ltb; zbool).
  destruct (user_store_spec last a Hok Hlast Hinj Y (replicate (Z.to_nat (p_memsz ph)) 0) HY m (p_vaddr ph) Hrd Hmem) as (m0 & -> & _); [by rewrite length_replicate|].
  rewrite length_replicate, Z2Nat.id by lia. cbv zeta. set (valid := fun v => (p_vaddr ph <=? v) && (v <? p_vaddr ph + p_memsz ph)).
  destruct (segment_uio valid (p_offset ph) (p_vaddr ph) (p_memsz ph) (p_filesz ph)
    (if negb (Z.land (p_flags ph) PF_X =? 0) then UIO_USERISPACE else UIO_USERSPACE) f Hf Eb) as (u & f' & Hf' & Eb' & Er & -> & u' & Eu & Ed); try lia.
  { by destruct (negb _). }
  { intros w Hw'. unfold valid. zbool. }
  rewrite bind_Ok. cbn [Z.eqb negb]. rewrite Er. cbn [Z.eqb negb]. rewrite Er in Eu. rewrite Eu. rewrite bind_Ok, Ed. fold (segment_data bytes ph).
  destruct (user_store_spec last a Hok Hlast Hinj Y (segment_data bytes ph) HY m (p_vaddr ph) Hrd Hmem) as (m' & -> & Hrd' & Hst).
  { by replace (length (segment_data bytes ph)) with (Z.to_nat (p_memsz ph)) by lia. }
  rewrite bind_Ok. by exists m', f'.
Qed.

(** What the loop needs of a segment. *)
Definition loadable (ph : Elf_Phdr) : Prop := p_memsz ph < 2 ^ 30 /\ writable a Y (p_vaddr ph) (Z.to_nat (p_memsz ph)).

Lemma load_loop_spec n : forall i m f, ef_ok f -> ef_bytes f = bytes -> 0 <= i -> i + Z.of_nat n <= e_phnum (ehdr bytes) ->
  ready a Y m -> last <= Z.of_nat (length (m_mem m)) -> Forall (segment_wf bytes) (segments bytes i n) -> Forall loadable (segments bytes i n) ->
  exists m' f', ef_ok f' /\ ef_bytes f' = bytes /\ ready a Y m' /\ stored_all a bytes (segments bytes i n) m m' /\
    load_loop vop_read vmspace n (ehdr bytes) i a m f = Ok (0, m', f').
Proof.
  induction n as [|n IH]; intros i m f Hf Eb Hi Hn Hrd Hmem Hwf Hld; [by exists m, f|]. cbn [load_loop segments] in *.
  destruct (read_phdr i f Hf Eb ltac:(lia)) as (b & f1 & Hf1 & Eb1 & Eph & ->). rewrite bind_Ok. cbn [Z.eqb negb]. rewrite Eph.
  destruct (segment_type (phdr bytes i)) as [k|] eqn:Et; [|by destruct (ew_types _ Hexec i ltac:(lia))].
  rewrite (segment_type_load _ _ Et) in *. destruct k; cbn [app stored_all] in *; [|apply IH; done || lia].
  apply Forall_cons_iff in Hwf as [Hwf1 Hwf], Hld as [[Hs Hw] Hld]. destruct (phdr_range bytes i (ew_bytes _ Hexec)) as [Ho Hz].
  destruct (load_segment_spec _ m f1 Hf1 Eb1 Hwf1 Ho Hz Hs Hrd Hmem Hw) as (m1 & f2 & Hf2 & Eb2 & Hrd1 & Hst & ->).
  rewrite bind_Ok. cbn [Z.eqb negb].
  destruct (IH (i + 1) m1 f2 Hf2 Eb2 ltac:(lia) ltac:(lia) Hrd1) as (m' & f' & Hf' & Eb' & Hrd' & Hall & ->); try done.
  { by rewrite (st_len _ _ _ _ _ Hst). }
  exists m', f'. repeat (split; [done|]). split; [|done]. by exists m1.
Qed.
End load.
End exec.
End read.

(** ** Two segments

    The address space of an executable with two segments. *)
Definition segment_pages (ph : Elf_Phdr) : Z := page (p_vaddr ph + p_memsz ph - 1) - page (p_vaddr ph) + 1.
Definition layout (ph1 ph2 : Elf_Phdr) : addrspace :=
  mk_as (page (p_vaddr ph1) * PAGE_SIZE) 0 (segment_pages ph1) (page (p_vaddr ph2) * PAGE_SIZE) 0 (segment_pages ph2) 0.

(** Base and number of pages as [as_define_region] computes them. *)
Lemma region_rounding ph : segment_ok (p_vaddr ph) (p_memsz ph) ->
  Z.land (p_vaddr ph) PAGE_FRAME = page (p_vaddr ph) * PAGE_SIZE /\
  Z.land (u32 (u32 (p_memsz ph + Z.land (p_vaddr ph) (u32 (Z.lnot PAGE_FRAME))) + PAGE_SIZE - 1)) PAGE_FRAME / PAGE_SIZE = segment_pages ph.
Proof.
  unfold segment_ok, segment_pages, page, USERSTACK, MIPS_KSEG0, PAGE_SIZE. intros (Hv & Hs & Hl).
  change (u32 (Z.lnot PAGE_FRAME)) with 4095. rewrite land_offset, (land_frame (p_vaddr ph)) by lia. unfold PAGE_SIZE.
  rewrite (u32_small (p_memsz ph + _)) by dlia. rewrite u32_small by dlia. rewrite land_frame by dlia. unfold PAGE_SIZE. dlia.
Qed.

Lemma layout_wf ph1 ph2 : segment_ok (p_vaddr ph1) (p_memsz ph1) -> segment_ok (p_vaddr ph2) (p_memsz ph2) -> layout_ok (layout ph1 ph2).
Proof.
  unfold segment_ok, layout_ok, layout, segment_pages, page, USERSTACK, MIPS_KSEG0, PAGE_SIZE.
  cbn [as_vbase1 as_pbase1 as_npages1 as_vbase2 as_pbase2 as_npages2 as_stackpbase]. intros H1 H2. repeat split; dlia.
Qed.

Lemma define_two ph1 ph2 : segment_ok (p_vaddr ph1) (p_memsz ph1) -> segment_ok (p_vaddr ph2) (p_memsz ph2) ->
  define_all [ph1; ph2] (mk_as 0 0 0 0 0 0 0) = (layout ph1 ph2, 0).
Proof.
  intros H1 H2. pose proof (layout_wf ph1 ph2 H1 H2) as (_ & _ & _ & Hv1 & _). cbn [as_vbase1 layout] in Hv1.
  destruct (region_rounding ph1 H1) as [B1 N1], (region_rounding ph2 H2) as [B2 N2].
  unfold define_all, as_define_region. rewrite B1, N1. cbn [as_vbase1 as_pbase1 as_npages1 as_vbase2 as_pbase2 as_npages2 as_stackpbase Z.eqb negb].
  rewrite B2, N2. destruct (Z.eqb_spec (page (p_vaddr ph1) * PAGE_SIZE) 0); [lia|]. done.
Qed.

Lemma place_inj p a v w x : layout_ok a -> translate (place p a) v = Some x -> translate (place p a) w = Some x -> v = w.
Proof.
  unfold layout_ok, translate, regions, place. intros (_ & _ & _ & ? & _ & ? & _ & ? & _ & ? & _) Hv%trans_range Hw%trans_range.
  rewrite !Exists_cons, Exists_nil in Hv, Hw. unfold rg_len, DUMBVM_STACKPAGES, PAGE_SIZE in *. cbn in Hv, Hw. lia.
Qed.

Lemma size_list_to_set_le (l : list Z) : (size (list_to_set l : gset Z) <= length l)%nat.
Proof.
  induction l as [|x l IH]; cbn [list_to_set length]; [by rewrite size_empty|]. rewrite size_union_alt, size_singleton.
  pose proof (subseteq_size (list_to_set l ∖ {[x]} : gset Z) (list_to_set l) ltac:(set_solver)). lia.
Qed.

(** The pages of the segments. *)
Definition pages_of (ph : Elf_Phdr) : list Z := seqZ (page (p_vaddr ph)) (segment_pages ph).

Lemma segment_writable p ph1 ph2 ph : segment_ok (p_vaddr ph1) (p_memsz ph1) -> segment_ok (p_vaddr ph2) (p_memsz ph2) ->
  ph = ph1 \/ ph = ph2 -> writable (place p (layout ph1 ph2)) (list_to_set (pages_of ph1 ++ pages_of ph2)) (p_vaddr ph) (Z.to_nat (p_memsz ph)).
Proof.
  intros H1 H2 Hph w Hw. assert (segment_ok (p_vaddr ph) (p_memsz ph)) as (H3 & H4 & H5) by (by destruct Hph as [->| ->]).
  unfold USERSTACK, MIPS_KSEG0, PAGE_SIZE in H3, H5. split; [unfold USERSTACK, MIPS_KSEG0; lia|].
  assert (page w ∈ pages_of ph) as Hin.
  { unfold pages_of, segment_pages, page, PAGE_SIZE. apply elem_of_seqZ. dlia. }
  split; [apply elem_of_list_to_set, elem_of_app; destruct Hph as [->| ->]; tauto|].
  assert (page (p_vaddr ph) * PAGE_SIZE <= w < page (p_vaddr ph) * PAGE_SIZE + segment_pages ph * PAGE_SIZE) as Hr.
  { unfold segment_pages, page, PAGE_SIZE. dlia. }
  unfold translate, regions, place, layout. cbn [trans rg_v rg_p as_vbase1 as_pbase1 as_npages1 as_vbase2 as_pbase2 as_npages2]. unfold rg_len. cbn [rg_n].
  destruct ((page (p_vaddr ph1) * PAGE_SIZE <=? w) && _) eqn:E1; [by eexists|].
  destruct ((page (p_vaddr ph2) * PAGE_SIZE <=? w) && _) eqn:E2; [by eexists|].
  exfalso. destruct Hph as [->| ->]; [clear E2|clear E1]; zbool.
Qed.

Lemma invalid_ready a Y m : length (m_tlb m) = 64%nat -> Forall (fun e => valid (snd e) = false) (m_tlb m) -> ready a Y m.
Proof.
  intros Hl Hi. exists ∅. split; [set_solver|]. split; [done|by apply invalid_sound| |set_solver].
  rewrite size_empty. unfold valid_entries. clear Hl. induction Hi as [|e l He Hi IH]; [done|]. rewrite filter_cons, decide_False by congruence. done.
Qed.

(** What address [w] shows once the segment is loaded over [o]. *)
Definition overlay (bytes : list Z) (ph : Elf_Phdr) (w : Z) (o : option Z) : option Z :=
  if (p_vaddr ph <=? w) && (w <? p_vaddr ph + p_memsz ph) then segment_data bytes ph !! Z.to_nat (w - p_vaddr ph) else o.

Lemma segments_range bytes : Forall (fun b => 0 <= b < 256) bytes -> forall n i,
  Forall (fun ph => 0 <= p_offset ph /\ 0 <= p_filesz ph) (segments bytes i n).
Proof.
  intros Hb n. induction n as [|n IH]; intros i; cbn [segments]; [constructor|]. apply Forall_app. split; [|apply IH].
  destruct (_ =? _); [|constructor]. constructor; [by apply phdr_range|constructor].
Qed.

Section two.
Context {F : Type} (vop_read : (Z -> bool) -> option Z -> uio -> F -> res (Z * uio * F)) `{!ExecFile vop_read} (vmspace : Z).
Variables (bytes : list Z) (ph1 ph2 : Elf_Phdr).
Hypotheses (Hexec : exec_wf bytes) (Hsegs : segments bytes 0 (Z.to_nat (e_phnum (ehdr bytes))) = [ph1; ph2]).

Lemma two_wf : (segment_wf bytes ph1 /\ segment_wf bytes ph2) /\ (0 <= p_offset ph1 /\ 0 <= p_filesz ph1) /\ (0 <= p_offset ph2 /\ 0 <= p_filesz ph2).
Proof.
  pose proof (ew_segments _ Hexec) as Hw. pose proof (segments_range bytes (ew_bytes _ Hexec) (Z.to_nat (e_phnum (ehdr bytes))) 0) as Hr.
  rewrite Hsegs in Hw, Hr. apply Forall_cons_iff in Hw as [? [? _]%Forall_cons_iff], Hr as [? [? _]%Forall_cons_iff]. done.
Qed.

Lemma overlay_stored a m ph m' w : segment_wf bytes ph -> 0 <= p_offset ph -> 0 <= p_filesz ph -> stored a m (p_vaddr ph) (segment_data bytes ph) m' ->
  view a (m_mem m') w = overlay bytes ph w (view a (m_mem m) w).
Proof. intros Hw Ho Hz Hst. rewrite (st_view _ _ _ _ _ Hst), length_segment_data by done. done. Qed.

(** The second half of [load_elf], with the memory there. *)
Lemma load_two p m f : ef_ok f -> ef_bytes f = bytes -> 0 < p -> p `mod` PAGE_SIZE = 0 ->
  let a := place p (layout ph1 ph2) in
  p + as_pages a * PAGE_SIZE <= 508 * 1024 * 1024 -> p + as_pages a * PAGE_SIZE <= Z.of_nat (length (m_mem m)) ->
  segment_pages ph1 + segment_pages ph2 <= 64 -> length (m_tlb m) = 64%nat -> Forall (fun e => valid (snd e) = false) (m_tlb m) ->
  exists m' f', load_loop vop_read vmspace (Z.to_nat (e_phnum (ehdr bytes))) (ehdr bytes) 0 a m f = Ok (0, m', f') /\
    ef_ok f' /\ ef_bytes f' = bytes /\ length (m_tlb m') = 64%nat /\ Forall (sound a) (m_tlb m') /\
    curspl m' = curspl m /\ length (m_mem m') = length (m_mem m) /\
    (forall w, view a (m_mem m') w = overlay bytes ph2 w (overlay bytes ph1 w (view a (m_mem m) w))) /\
    (forall q, 0 <= q -> ~ owns a q -> m_mem m' !! Z.to_nat q = m_mem m !! Z.to_nat q).
Proof.
  intros Hf Eb Hp Hpm a Hlast Hmem Hpg Ht Hinv. destruct two_wf as ([W1 W2] & [O1 Z1] & [O2 Z2]).
  pose proof (layout_wf ph1 ph2 (sw_place _ _ W1) (sw_place _ _ W2)) as Hlay. set (Y := list_to_set (pages_of ph1 ++ pages_of ph2) : gset Z).
  assert (forall ph, segment_ok (p_vaddr ph) (p_memsz ph) -> 0 < segment_pages ph /\ (segment_pages ph <= 64 -> p_memsz ph < 2 ^ 30)) as Hsp.
  { unfold segment_ok, segment_pages, page, PAGE_SIZE. intros ph Hs. split; dlia. }
  destruct (Hsp ph1 (sw_place _ _ W1)) as [S1 M1], (Hsp ph2 (sw_place _ _ W2)) as [S2 M2].
  destruct (load_loop_spec vop_read vmspace bytes Hexec (p + as_pages a * PAGE_SIZE) a Y) with (n := Z.to_nat (e_phnum (ehdr bytes))) (i := 0) (m := m) (f := f)
    as (m' & f' & Hf' & Eb' & (X & _ & Hti) & Hall & E); try done.
  - by apply place_ok.
  - pose proof (size_list_to_set_le (pages_of ph1 ++ pages_of ph2)) as Hs. rewrite length_app in Hs. unfold pages_of in Hs at 3 4. rewrite !length_seqZ in Hs. unfold Y. lia.
  - intros v w x. by apply place_inj.
  - destruct (Z.le_gt_cases 0 (e_phnum (ehdr bytes))); [lia|]. by replace (Z.to_nat (e_phnum (ehdr bytes))) with 0%nat in Hsegs by lia.
  - by apply invalid_ready.
  - apply Hexec.
  - rewrite Hsegs. pose proof (segment_writable p ph1 ph2) as Hsw. apply Forall_cons_iff. split; [|apply Forall_singleton].
    + split; [lia|]. apply Hsw; [apply W1|apply W2|by left].
    + split; [lia|]. apply Hsw; [apply W1|apply W2|by right].
  - rewrite Hsegs in Hall. destruct Hall as (m1 & St1 & m2 & St2 & <-). exists m', f'. do 3 (split; [done|]). split; [apply Hti|]. split; [apply Hti|].
    split; [by rewrite (st_spl _ _ _ _ _ St2), (st_spl _ _ _ _ _ St1)|]. split; [by rewrite (st_len _ _ _ _ _ St2), (st_len _ _ _ _ _ St1)|]. split.
    + intros w. by rewrite (overlay_stored a m1 ph2), (overlay_stored a m ph1).
    + intros q Hq Hno. by rewrite (st_rest _ _ _ _ _ St2), (st_rest _ _ _ _ _ St1).
Qed.
End two.

Section exact.
Context {F : Type} (vop_read : (Z -> bool) -> option Z -> uio -> F -> res (Z * uio * F)) `{!ExecFile vop_read} (vmspace : Z).

(** [load_elf] on an executable with two segments. *)
Lemma load_elf_two m f ph1 ph2 :
  ram_ok (m_ram m) -> lastpaddr (m_ram m) <= Z.of_nat (length (m_mem m)) ->
  length (m_tlb m) = 64%nat -> Forall (fun e => valid (snd e) = false) (m_tlb m) ->
  ef_ok f -> exec_wf (ef_bytes f) ->
  segments (ef_bytes f) 0 (Z.to_nat (e_phnum (ehdr (ef_bytes f)))) = [ph1; ph2] -> segment_pages ph1 + segment_pages ph2 <= 64 ->
  exists r entry m' a f', load_elf vop_read vmspace m (mk_as 0 0 0 0 0 0 0) f = Ok (r, entry, m', a, f') /\
    ef_ok f' /\ ef_bytes f' = ef_bytes f /\ length (m_tlb m') = 64%nat /\ curspl m' = curspl m /\ length (m_mem m') = length (m_mem m) /\
    (forall q, 0 <= q < firstpaddr (m_ram m) -> m_mem m' !! Z.to_nat q = m_mem m !! Z.to_nat q) /\
    if firstpaddr (m_ram m) + as_pages (layout ph1 ph2) * PAGE_SIZE <=? lastpaddr (m_ram m)
    then r = 0 /\ entry = e_entry (ehdr (ef_bytes f)) /\ a = place (firstpaddr (m_ram m)) (layout ph1 ph2) /\
      Forall (sound a) (m_tlb m') /\
      forall w, view a (m_mem m') w = overlay (ef_bytes f) ph2 w (overlay (ef_bytes f) ph1 w (view a (m_mem m) w))
    else r = ENOMEM /\ m_mem m' = m_mem m.
Proof.
  intros Hr Hmem Ht Hinv Hf Hexec Hsegs Hpg. destruct (two_wf _ ph1 ph2 Hexec Hsegs) as ([W1 W2] & _).
  pose proof (layout_wf ph1 ph2 (sw_place _ _ W1) (sw_place _ _ W2)) as Hlay. pose proof (ew_len _ Hexec) as Hlen. unfold load_elf.
  destruct (read_struct_spec vop_read vmspace sizeof_ehdr 0 f Hf) as (f1 & Hf1 & Eb1 & ->); [done..|]. rewrite bind_Ok.
  destruct (Z.leb_spec (0 + sizeof_ehdr) (Z.of_nat (length (ef_bytes f)))); [|unfold sizeof_ehdr in *; lia]. cbn [Z.eqb negb].
  change (ehdr_of (take _ (drop _ (ef_bytes f)))) with (ehdr (ef_bytes f)). rewrite (ew_header _ Hexec). cbn [negb].
  set (bytes := ef_bytes f) in *. assert (0 <= e_phnum (ehdr bytes)) as Hnum.
  { destruct (Z.le_gt_cases 0 (e_phnum (ehdr bytes))); [lia|]. by replace (Z.to_nat (e_phnum (ehdr bytes))) with 0%nat in Hsegs by lia. }
  destruct (define_loop_spec vop_read vmspace bytes Hexec (Z.to_nat (e_phnum (ehdr bytes))) 0 (mk_as 0 0 0 0 0 0 0) f1 Hf1 Eb1) as (f2 & Hf2 & Eb2 & ->); [lia..|].
  rewrite bind_Ok, Hsegs, define_two by (apply W1 || apply W2). cbn [fst snd Z.eqb negb].
  destruct (as_prepare_load_spec m (layout ph1 ph2) Hr Hlay) as (r' & b & e & -> & Hr' & El & Hfl & Hcase). rewrite bind_Ok.
  destruct (Z.leb_spec (firstpaddr (m_ram m) + as_pages (layout ph1 ph2) * PAGE_SIZE) (lastpaddr (m_ram m))) as [Hfit|Hno].
  2:{ subst e. cbn [Z.eqb negb ENOMEM]. do 5 eexists. split; [done|]. done. }
  destruct Hcase as (-> & -> & Ef). cbn [Z.eqb negb]. destruct Hr as (Hp & Hpl & Hpm).
  destruct (load_two vop_read vmspace bytes ph1 ph2 Hexec Hsegs (firstpaddr (m_ram m)) (set_ram r' m) f2 Hf2 Eb2) as (m' & f3 & -> & Hf3 & Eb3 & Hl3 & Hs & Hspl & Hlm & Hview & Hrest);
    [lia|done|cbn [m_mem set_ram]; unfold as_pages in *; cbn in *; lia..|done|done|done|].
  rewrite bind_Ok. cbn [Z.eqb negb as_complete_load]. do 5 eexists. do 6 (split; [done|]). split; [|done].
  intros q Hq. apply Hrest; [lia|]. rewrite place_owns by done. lia.
Qed.

(** [load_elf] puts an executable into memory exactly.  For a file with
    good headers and two segments of at most 64 pages, in a fresh and
    activated address space, it returns 0 and the entry point; every address
    of a segment then shows the file's bytes and zeros after them, every
    other address what was there, all of the TLB is right, and memory that
    was in use before is unchanged.  Only if there is not enough memory for
    the two regions and the stack it returns ENOMEM and changes no byte. *)
Theorem load_elf_exact m f ph1 ph2 :
  ram_ok (m_ram m) -> lastpaddr (m_ram m) <= Z.of_nat (length (m_mem m)) ->
  length (m_tlb m) = 64%nat -> Forall (fun e => valid (snd e) = false) (m_tlb m) ->
  ef_ok f -> exec_wf (ef_bytes f) ->
  segments (ef_bytes f) 0 (Z.to_nat (e_phnum (ehdr (ef_bytes f)))) = [ph1; ph2] -> segment_pages ph1 + segment_pages ph2 <= 64 ->
  exists r entry m' a f', load_elf vop_read vmspace m (mk_as 0 0 0 0 0 0 0) f = Ok (r, entry, m', a, f') /\
    ef_bytes f' = ef_bytes f /\
    (forall q, 0 <= q < firstpaddr (m_ram m) -> m_mem m' !! Z.to_nat q = m_mem m !! Z.to_nat q) /\
    if firstpaddr (m_ram m) + as_pages (layout ph1 ph2) * PAGE_SIZE <=? lastpaddr (m_ram m)
    then r = 0 /\ entry = e_entry (ehdr (ef_bytes f)) /\ a = place (firstpaddr (m_ram m)) (layout ph1 ph2) /\
      Forall (sound a) (m_tlb m') /\
      forall w, view a (m_mem m') w = overlay (ef_bytes f) ph2 w (overlay (ef_bytes f) ph1 w (view a (m_mem m) w))
    else r = ENOMEM /\ m_mem m' = m_mem m.
Proof.
  intros Hr Hmem Ht Hinv Hf Hexec Hsegs Hpg.
  destruct (load_elf_two m f ph1 ph2 Hr Hmem Ht Hinv Hf Hexec Hsegs Hpg) as (r & entry & m' & a & f' & E & _ & Eb & _ & _ & _ & Hrest).
  by exists r, entry, m', a, f'.
Qed.

(** A file whose headers are not good is refused before a segment is loaded,
    with the error that its headers call for. *)
Lemma define_loop_scan bytes n : (forall i, 0 <= i < e_phnum (ehdr bytes) -> phdr_pos bytes i + sizeof_phdr < 2 ^ 31) -> Forall (fun b => 0 <= b < 256) bytes ->
  forall i a f, ef_ok f -> ef_bytes f = bytes -> 0 <= i -> i + Z.of_nat n <= e_phnum (ehdr bytes) ->
  exists f', ef_ok f' /\ ef_bytes f' = bytes /\ define_loop vop_read vmspace n (ehdr bytes) i a f = Ok (scan bytes n i a, f').
Proof.
  intros Hpos Hb. induction n as [|n IH]; intros i a f Hf Eb Hi Hn; [by exists f|]. cbn [define_loop scan].
  pose proof (Hpos i ltac:(lia)) as Hp. pose proof (phdr_pos_range bytes i Hb Hi) as Hp0. unfold sizeof_phdr in *.
  assert (phdr_offset (ehdr bytes) i = phdr_pos bytes i) as ->. { unfold phdr_offset. fold (phdr_pos bytes i). rewrite u32_small, i32_small by lia. done. }
  destruct (read_struct_spec vop_read vmspace 32 (phdr_pos bytes i) f Hf) as (f1 & Hf1 & Eb1 & ->); [lia..|]. rewrite bind_Ok, Eb in *.
  destruct (Z.leb_spec (phdr_pos bytes i + 32) (Z.of_nat (length bytes))); cbn [Z.eqb negb]; [|by exists f1].
  change (phdr_of (take _ (drop _ bytes))) with (phdr bytes i). destruct (segment_type (phdr bytes i)) as [[|]|]; [|apply IH; done || lia|by exists f1].
  destruct (as_define_region _ _ _) as [a1 r]. destruct (r =? 0) eqn:Er; cbn [negb]; [apply IH; done || lia|]. by exists f1.
Qed.

Lemma load_elf_refused m f : ef_ok f -> Forall (fun b => 0 <= b < 256) (ef_bytes f) ->
  (forall i, 0 <= i < e_phnum (ehdr (ef_bytes f)) -> phdr_pos (ef_bytes f) i + sizeof_phdr < 2 ^ 31) -> refusal (ef_bytes f) <> 0 ->
  exists a f', ef_ok f' /\ load_elf vop_read vmspace m (mk_as 0 0 0 0 0 0 0) f = Ok (refusal (ef_bytes f), 0, m, a, f').
Proof.
  intros Hf Hb Hpos Hr. unfold load_elf. destruct (read_struct_spec vop_read vmspace sizeof_ehdr 0 f Hf) as (f1 & Hf1 & Eb1 & ->); [done..|]. rewrite bind_Ok.
  unfold refusal in *. rewrite Z.add_0_l in *. destruct (Z.leb_spec sizeof_ehdr (Z.of_nat (length (ef_bytes f)))); cbn [andb Z.eqb negb] in *; [|by eexists _, f1].
  change (ehdr_of (take _ (drop _ (ef_bytes f)))) with (ehdr (ef_bytes f)). destruct (header_ok (ehdr (ef_bytes f))); cbn [negb] in *; [|by eexists _, f1].
  pose proof (be16_range _ 44 (Forall_take _ 52 _ Hb)) as Hn. change (0 <= e_phnum (ehdr (ef_bytes f)) < 65536) in Hn.
  destruct (define_loop_scan (ef_bytes f) (Z.to_nat (e_phnum (ehdr (ef_bytes f)))) Hpos Hb 0 (mk_as 0 0 0 0 0 0 0) f1) as (f2 & Hf2 & _ & ->); [done|done|lia|lia|].
  destruct (scan _ _ _ _) as [r a]. cbn [fst] in *. rewrite bind_Ok. destruct (Z.eqb_spec r 0); [done|]. cbn [negb]. by exists a, f2.
Qed.
End exact.

(** ** An executable

    A file that is its bytes, with two segments: four bytes of code and two
    bytes of data with three bytes after them. *)
Definition bytes_read (valid : Z -> bool) (cs : option Z) (u : uio) (f : list Z) : res (Z * uio * list Z) :=
  let n := Z.max 0 (Z.min (uio_resid u) (Z.of_nat (length f) - uio_offset u)) in
  '(r, _, u) ← uiomove valid cs (drop (Z.to_nat (uio_offset u)) f) n u;
  Ok (r, u, f).

Lemma bytes_read_spec valid cs u f : uio_wf u -> reachable valid cs u (uio_resid u) -> 0 <= uio_offset u -> is_write u = false ->
  let n := Z.max 0 (Z.min (uio_resid u) (Z.of_nat (length f) - uio_offset u)) in
  exists f', bytes_read valid cs u f = Ok (0, advance n (iov_data u ++ take (Z.to_nat n) (drop (Z.to_nat (uio_offset u)) f)) u, f') /\ True /\ f' = f.
Proof.
  intros Hwf Hr Ho Hw n. exists f. split; [|done]. unfold bytes_read. pose proof Hwf as (_ & ? & _). rewrite uiomove_spec; [by rewrite bind_Ok, Hw|done| |lia|].
  - apply (reachable_le _ _ _ (uio_resid u)); [done|lia].
  - rewrite length_drop. lia.
Qed.

#[export] Instance bytes_file : ExecFile bytes_read := {| ef_bytes := fun f => f; ef_ok := fun _ => True; ef_read valid cs u f _ := bytes_read_spec valid cs u f |}.

Definition tiny_exec : list Z :=
  [0x7f; 69; 76; 70; 1; 2; 1; 0; 0; 0; 0; 0; 0; 0; 0; 0] ++ [0; 2; 0; 8; 0; 0; 0; 1; 0; 0x40; 0; 4; 0; 0; 0; 52] ++
  [0; 0; 0; 0; 0; 0; 0; 0; 0; 52; 0; 32; 0; 2; 0; 0; 0; 0; 0; 0] ++
  [0; 0; 0; 1; 0; 0; 0; 116; 0; 0x40; 0; 4; 0; 0; 0; 0; 0; 0; 0; 4; 0; 0; 0; 4; 0; 0; 0; 5; 0; 0; 0x10; 0] ++
  [0; 0; 0; 1; 0; 0; 0; 120; 0x10; 0; 0; 0; 0; 0; 0; 0; 0; 0; 0; 2; 0; 0; 0; 5; 0; 0; 0; 6; 0; 0; 0x10; 0] ++
  [11; 12; 13; 14; 21; 22].

Lemma tiny_exec_wf : exec_wf tiny_exec.
Proof.
  assert (forall i, 0 <= i < e_phnum (ehdr tiny_exec) -> i = 0 \/ i = 1) as Hi.
  { intros i. change (e_phnum (ehdr tiny_exec)) with 2. lia. }
  split.
  - unfold tiny_exec. cbn [app]. repeat (constructor; [lia|]). constructor.
  - done.
  - by vm_compute.
  - intros i [->| ->]%Hi; by vm_compute.
  - intros i [->| ->]%Hi; by vm_compute.
  - change (segments _ _ _) with [phdr tiny_exec 0; phdr tiny_exec 1]. repeat constructor; by vm_compute.
Qed.

Lemma load_elf_exact_witness : exists r entry m' a f',
  load_elf bytes_read 1 (mk_machine small_ram small_mem no_tlb 0) (mk_as 0 0 0 0 0 0 0) tiny_exec = Ok (r, entry, m', a, f') /\
  r = 0 /\ entry = 0x400004 /\ view a (m_mem m') 0x400005 = Some 12 /\ view a (m_mem m') 0x10000001 = Some 22 /\ view a (m_mem m') 0x10000003 = Some 0.
Proof.
  destruct (load_elf_exact bytes_read 1 (mk_machine small_ram small_mem no_tlb 0) tiny_exec (phdr tiny_exec 0) (phdr tiny_exec 1)
    small_ram_ok small_mem_length) as (r & entry & m' & a & f' & E & _ & _ & H).
  - done.
  - apply Forall_replicate. done.
  - done.
  - exact tiny_exec_wf.
  - by vm_compute.
  - by vm_compute.
  - change (_ <=? _) with true in H. cbv iota in H. destruct H as (-> & -> & _ & _ & Hv). exists 0, 0x400004, m', a, f'. split; [done|].
    rewrite !Hv. repeat match goal with |- context [view ?x ?y ?w] => generalize (view x y w); intros ? end. repeat split; by vm_compute.
Defined.
