(* ===== verification/Device.v ===== *)
(** * struct device: the block-device interface

    What the file system asks of the device it is mounted on (kern/include/dev.h
    and the calls of [d_io] in kern/fs/sfs/sfs_io.c).  [BlockDev] is the
    operations; [ReliableDev] is what a device that does not fail promises,
    and what the file system's theorems are proved against.  Lhd.v gives both
    for the lhd driver. *)
From stdpp Require Import base numbers list option.
From S2P Require Import Prelude Uio.
Local Open Scope Z_scope.

Class BlockDev (D : Type) : Type := {
  d_blocks : D -> Z;
  d_blocksize : D -> Z;
  (** [d_io valid curspace u d]: the error code, the uio and the device. *)
  d_io : (Z -> bool) -> option Z -> uio -> D -> res (Z * uio * D);
}.

(** One block, at the block number of the uio's offset. *)
Definition block_uio (valid : Z -> bool) (curspace : option Z) (u : uio) (b : Z) : Prop :=
  uio_wf u /\ reachable valid curspace u 512 /\ uio_resid u = 512 /\ uio_offset u = b * 512.

Class ReliableDev (D : Type) `{BlockDev D} : Type := {
  dev_ok : D -> Prop;
  dev_sectors : D -> list (list Z);
  dev_sector_size d : dev_ok d -> Forall (fun b => length b = 512%nat) (dev_sectors d);
  dev_size d : dev_ok d -> Z.of_nat (length (dev_sectors d)) = d_blocks d;
  dev_blocksize d : dev_ok d -> d_blocksize d = 512;
  (** Every byte has an [off_t]. *)
  dev_small d : dev_ok d -> d_blocks d * 512 < 2147483648;
  dev_read valid curspace u b blk d :
    dev_ok d -> block_uio valid curspace u b -> is_write u = false -> 0 <= b ->
    dev_sectors d !! Z.to_nat b = Some blk ->
    exists d', d_io valid curspace u d = Ok (0, advance 512 (iov_data u ++ blk) u, d') /\
      dev_ok d' /\ dev_sectors d' = dev_sectors d /\ d_blocks d' = d_blocks d;
  dev_write valid curspace u b d :
    dev_ok d -> block_uio valid curspace u b -> is_write u = true -> 0 <= b < d_blocks d ->
    exists d', d_io valid curspace u d = Ok (0, advance 512 (drop 512 (iov_data u)) u, d') /\
      dev_ok d' /\ dev_sectors d' = <[Z.to_nat b := take 512 (iov_data u)]> (dev_sectors d) /\
      d_blocks d' = d_blocks d;
}.
