(* ===== verification/Lhd.v ===== *)
(** * kern/dev/lamebus/lhd.c: the LAMEbus hard disk driver

    The driver's state is [lhd_softc] with the card's registers and on-card
    buffer.  The disk itself is hardware: it is a parameter, the class
    [DiskHw], with what the driver relies on in [DiskLaws].  A request is
    followed from the caller's side: the wait for the completion interrupt
    is the run of [lhd_irq] on the status the disk leaves.  A wait that
    nothing ends gives [Fuel]. *)
From stdpp Require Import base numbers list option.
From S2P Require Import Prelude Uio Device.
Local Open Scope Z_scope.

Definition LHD_REG_STAT : Z := 4.
Definition LHD_REG_SECT : Z := 8.
Definition LHD_IDLE : Z := 0.
Definition LHD_WORKING : Z := 1.
Definition LHD_OK : Z := 4.
Definition LHD_INVSECT : Z := 12.
Definition LHD_MEDIA : Z := 20.
Definition LHD_ISWRITE : Z := 2.
Definition LHD_STATEMASK : Z := 29.
Definition LHD_SECTSIZE : Z := 512.

(** The disk: the number of sectors it has, and what an operation started by
    writing [stat] into the status register does with sector [sect] and the
    on-card buffer: the status it ends with, the buffer and the disk. *)
Class DiskHw (H : Type) : Type := {
  hw_nsect : H -> Z;
  hw_start (sect stat : Z) (buf : list Z) (h : H) : Z * list Z * H;
}.

Section lhd.
Context {H : Type} `{!DiskHw H}.
Variables (valid : Z -> bool) (curspace : option Z).

(** [lh_clear] and [lh_done] are the counts of the two semaphores. *)
Record lhd_softc : Type := mk_lhd {
  lh_buf : list Z;
  lh_result : Z;
  lh_clear : Z;
  lh_done : Z;
  lh_blocks : Z;
  reg_stat : Z;
  reg_sect : Z;
  lh_hw : H;
}.

Definition set_buf (b : list Z) (lh : lhd_softc) : lhd_softc :=
  mk_lhd b (lh_result lh) (lh_clear lh) (lh_done lh) (lh_blocks lh) (reg_stat lh) (reg_sect lh)
    (lh_hw lh).
Definition set_clear (n : Z) (lh : lhd_softc) : lhd_softc :=
  mk_lhd (lh_buf lh) (lh_result lh) n (lh_done lh) (lh_blocks lh) (reg_stat lh) (reg_sect lh)
    (lh_hw lh).
Definition set_done (n : Z) (lh : lhd_softc) : lhd_softc :=
  mk_lhd (lh_buf lh) (lh_result lh) (lh_clear lh) n (lh_blocks lh) (reg_stat lh) (reg_sect lh)
    (lh_hw lh).

(** P() and V() on a count, for a caller nobody races with. *)
Definition sem_P (count : Z) : res Z := if count >? 0 then Ok (count - 1) else Fuel.
Definition sem_V (count : Z) : Z := count + 1.

Definition lhd_rdreg (lh : lhd_softc) (reg : Z) : Z :=
  if reg =? LHD_REG_STAT then reg_stat lh
  else if reg =? LHD_REG_SECT then reg_sect lh else hw_nsect (lh_hw lh).

(** A nonzero write to the status register starts the disk. *)
Definition lhd_wreg (lh : lhd_softc) (reg val : Z) : lhd_softc :=
  if reg =? LHD_REG_SECT then
    mk_lhd (lh_buf lh) (lh_result lh) (lh_clear lh) (lh_done lh) (lh_blocks lh) (reg_stat lh) val
      (lh_hw lh)
  else if (reg =? LHD_REG_STAT) && (val =? 0) then
    mk_lhd (lh_buf lh) (lh_result lh) (lh_clear lh) (lh_done lh) (lh_blocks lh) 0 (reg_sect lh)
      (lh_hw lh)
  else if reg =? LHD_REG_STAT then
    let '(st, buf, h) := hw_start (reg_sect lh) val (lh_buf lh) (lh_hw lh) in
    mk_lhd buf (lh_result lh) (lh_clear lh) (lh_done lh) (lh_blocks lh) st (reg_sect lh) h
  else lh.

Definition lhd_code_to_errno (code : Z) : Z :=
  let st := Z.land code LHD_STATEMASK in
  if st =? LHD_OK then 0
  else if st =? LHD_INVSECT then EINVAL
  else if st =? LHD_MEDIA then EIO
  else EAGAIN.

Definition lhd_iodone (lh : lhd_softc) (err : Z) : lhd_softc :=
  mk_lhd (lh_buf lh) err (lh_clear lh) (sem_V (lh_done lh)) (lh_blocks lh) (reg_stat lh)
    (reg_sect lh) (lh_hw lh).

Definition lhd_irq (lh : lhd_softc) : lhd_softc :=
  let val := lhd_rdreg lh LHD_REG_STAT in
  let st := Z.land val LHD_STATEMASK in
  if (st =? LHD_OK) || (st =? LHD_INVSECT) || (st =? LHD_MEDIA) then
    lhd_iodone (lhd_wreg lh LHD_REG_STAT 0) (lhd_code_to_errno val)
  else lh.

(** The loop of [lhd_io], with [n] sectors left. *)
Fixpoint lhd_loop (n : nat) (i sector statval : Z) (u : uio) (lh : lhd_softc)
    : res (Z * uio * lhd_softc) :=
  match n with
  | O => Ok (0, u, lh)
  | S n =>
      clear ← sem_P (lh_clear lh);
      let lh := set_clear clear lh in
      '(result, u, lh) ←
        (if is_write u then
           '(result, buf, u) ← uiomove valid curspace (lh_buf lh) LHD_SECTSIZE u;
           Ok (result, u, set_buf buf lh)
         else Ok (0, u, lh));
      if negb (result =? 0) then Ok (result, u, set_clear (sem_V (lh_clear lh)) lh)
      else
        let lh := lhd_wreg lh LHD_REG_SECT (u32 (sector + i)) in
        let lh := lhd_wreg lh LHD_REG_STAT statval in
        let lh := lhd_irq lh in
        done ← sem_P (lh_done lh);
        let lh := set_done done lh in
        '(result, u, lh) ←
          (if (lh_result lh =? 0) && negb (is_write u) then
             '(result, buf, u) ← uiomove valid curspace (lh_buf lh) LHD_SECTSIZE u;
             Ok (result, u, set_buf buf lh)
           else Ok (lh_result lh, u, lh));
        let lh := set_clear (sem_V (lh_clear lh)) lh in
        if negb (result =? 0) then Ok (result, u, lh)
        else lhd_loop n (i + 1) sector statval u lh
  end.

Definition lhd_io (u : uio) (lh : lhd_softc) : res (Z * uio * lhd_softc) :=
  let sector := u32 (Z.quot (uio_offset u) LHD_SECTSIZE) in
  let sectoff := u32 (Z.rem (uio_offset u) LHD_SECTSIZE) in
  let len := uio_resid u / LHD_SECTSIZE in
  let lenoff := uio_resid u mod LHD_SECTSIZE in
  if negb (sectoff =? 0) || negb (lenoff =? 0) then Ok (EINVAL, u, lh)
  else if u32 (sector + len) >? lh_blocks lh then Ok (EINVAL, u, lh)
  else
    let statval := if is_write u then Z.lor LHD_WORKING LHD_ISWRITE else LHD_WORKING in
    lhd_loop (Z.to_nat len) 0 sector statval u lh.
End lhd.
Arguments lhd_softc H : clear implicits.

Global Instance lhd_dev {H} `{!DiskHw H} : BlockDev (lhd_softc H) := {
  d_blocks := lh_blocks;
  d_blocksize := fun _ => LHD_SECTSIZE;
  d_io := lhd_io;
}.

(** ** What the driver relies on *)

(** An operation ends with one of the three codes.  [LHD_OK] means that the
    sector exists and that it was read into, or written from, the buffer; a
    failed operation leaves the other sectors alone. *)
Class DiskLaws (H : Type) `{!DiskHw H} : Type := {
  hw_sectors : H -> list (list Z);
  hw_ok : H -> Prop;
  hw_sector_size h : hw_ok h -> Forall (fun b => length b = 512%nat) (hw_sectors h);
  hw_size h : hw_ok h -> Z.of_nat (length (hw_sectors h)) = hw_nsect h;
  hw_small h : hw_ok h -> hw_nsect h * 512 < 2147483648;
  hw_run sect (w : bool) buf h st buf' h' :
    hw_ok h -> length buf = 512%nat -> 0 <= sect < hw_nsect h ->
    hw_start sect (if w then Z.lor LHD_WORKING LHD_ISWRITE else LHD_WORKING) buf h = (st, buf', h') ->
    hw_ok h' /\ length buf' = 512%nat /\ hw_nsect h' = hw_nsect h /\
    (Z.land st LHD_STATEMASK = LHD_OK /\
       (if w then hw_sectors h' = <[Z.to_nat sect := buf]> (hw_sectors h)
        else hw_sectors h' = hw_sectors h /\ hw_sectors h !! Z.to_nat sect = Some buf') \/
     Z.land st LHD_STATEMASK = LHD_MEDIA /\
       forall j, j <> Z.to_nat sect -> hw_sectors h' !! j = hw_sectors h !! j);
}.

(** A disk without media errors. *)
Class DiskSound (H : Type) `{DiskLaws H} : Prop :=
  hw_sound : forall sect w buf h st buf' h',
    hw_ok h -> length buf = 512%nat -> 0 <= sect < hw_nsect h ->
    hw_start sect (if w : bool then Z.lor LHD_WORKING LHD_ISWRITE else LHD_WORKING) buf h =
      (st, buf', h') -> Z.land st LHD_STATEMASK = LHD_OK.

Section facts.
Context {H : Type} `{!DiskHw H} `{!DiskLaws H}.
Context (valid : Z -> bool) (curspace : option Z).
Implicit Types (lh : lhd_softc H) (u : uio).

(** Nobody is using the device. *)
Definition lhd_idle lh : Prop :=
  lh_clear lh = 1 /\ lh_done lh = 0 /\ length (lh_buf lh) = 512%nat /\ hw_ok (lh_hw lh) /\
  lh_blocks lh = hw_nsect (lh_hw lh).

Abbreviation disk lh := (hw_sectors (lh_hw lh)).
Abbreviation statval w := (if w : bool then Z.lor LHD_WORKING LHD_ISWRITE else LHD_WORKING).

(** The first [n] sectors' worth of [data]. *)
Fixpoint chunks (n : nat) (data : list Z) : list (list Z) :=
  match n with
  | O => []
  | S n => take 512 data :: chunks n (drop 512 data)
  end.

(** One operation of the disk, up to the completion interrupt. *)
Lemma lhd_op_spec w sect lh :
  hw_ok (lh_hw lh) -> length (lh_buf lh) = 512%nat -> lh_done lh = 0 ->
  0 <= sect < hw_nsect (lh_hw lh) ->
  exists code st buf h,
    hw_start sect (statval w) (lh_buf lh) (lh_hw lh) = (st, buf, h) /\
    lhd_irq (lhd_wreg (lhd_wreg lh LHD_REG_SECT sect) LHD_REG_STAT (statval w)) =
      mk_lhd buf code (lh_clear lh) 1 (lh_blocks lh) 0 sect h /\
    hw_ok h /\ length buf = 512%nat /\ hw_nsect h = hw_nsect (lh_hw lh) /\
    (Z.land st LHD_STATEMASK = LHD_OK /\ code = 0 /\
       (if w then hw_sectors h = <[Z.to_nat sect := lh_buf lh]> (disk lh)
        else hw_sectors h = disk lh /\ disk lh !! Z.to_nat sect = Some buf) \/
     Z.land st LHD_STATEMASK = LHD_MEDIA /\ code = EIO /\
       forall j, j <> Z.to_nat sect -> hw_sectors h !! j = disk lh !! j).
Proof.
  intros Hok Hlen Hd Hs. unfold lhd_wreg at 1. cbn [lh_buf lh_hw reg_sect lh_result lh_clear lh_done lh_blocks].
  destruct (hw_start sect (statval w) (lh_buf lh) (lh_hw lh)) as [[st buf] h] eqn:Hrun.
  destruct (hw_run _ _ _ _ _ _ _ Hok Hlen Hs Hrun) as (Hok' & Hlen' & Hn & Hcase).
  exists (if Z.land st LHD_STATEMASK =? LHD_OK then 0 else EIO), st, buf, h.
  split; [done|].
  split; [|do 3 (split; [done|]); destruct Hcase as [[E ?]|[E ?]]; rewrite E; [by left|by right]].
  replace (statval w =? 0) with false by (by destruct w). simpl. rewrite Hrun. unfold lhd_irq; simpl.
  unfold lhd_rdreg. change (LHD_REG_STAT =? LHD_REG_STAT) with true. cbn [reg_stat].
  unfold lhd_code_to_errno. rewrite Hd.
  destruct Hcase as [[-> _]|[-> _]]; reflexivity.
Qed.

(** A request that passes the checks of [lhd_io] is the loop. *)
Lemma lhd_io_loop u (lh : lhd_softc H) s n :
  uio_wf u -> uio_offset u = 512 * s -> uio_resid u = 512 * Z.of_nat n -> 0 <= s ->
  s + Z.of_nat n <= lh_blocks lh ->
  lhd_io valid curspace u lh =
    lhd_loop valid curspace n 0 s (statval (is_write u)) u lh.
Proof.
  intros (_ & Hr & Hl & _ & _ & Ho) Hoff Hres Hs Hend. unfold lhd_io, LHD_SECTSIZE.
  rewrite Hoff, Hres, Z.quot_div_nonneg, Z.rem_mod_nonneg by lia.
  replace (512 * s) with (s * 512) by lia. replace (512 * Z.of_nat n) with (Z.of_nat n * 512) by lia.
  rewrite !Z.div_mul, !Z.mod_mul by lia. cbn [Z.eqb negb orb]. change (u32 0 =? 0) with true. cbn [negb orb].
  nowrap. rewrite Z.gtb_ltb. destruct (Z.ltb_spec (lh_blocks lh) (s + Z.of_nat n)); [lia|].
  by rewrite Nat2Z.id.
Qed.

Section sound.
Context `{!DiskSound H}.

Lemma lhd_op_ok w sect lh :
  hw_ok (lh_hw lh) -> length (lh_buf lh) = 512%nat -> lh_done lh = 0 ->
  0 <= sect < hw_nsect (lh_hw lh) ->
  exists buf h,
    lhd_irq (lhd_wreg (lhd_wreg lh LHD_REG_SECT sect) LHD_REG_STAT (statval w)) =
      mk_lhd buf 0 (lh_clear lh) 1 (lh_blocks lh) 0 sect h /\
    hw_ok h /\ length buf = 512%nat /\ hw_nsect h = hw_nsect (lh_hw lh) /\
    (if w then hw_sectors h = <[Z.to_nat sect := lh_buf lh]> (disk lh)
     else hw_sectors h = disk lh /\ disk lh !! Z.to_nat sect = Some buf).
Proof.
  intros Hok Hlen Hd Hs.
  destruct (lhd_op_spec w sect lh)
    as (code & st & buf & h & Hrun & E & Hok' & Hl & Hn & [(_ & -> & ?)|(Hst & -> & _)]); [done..| |].
  - by exists buf, h.
  - apply hw_sound in Hrun; [rewrite Hst in Hrun; discriminate|done..].
Qed.

Lemma lhd_read_loop n : forall i sector u lh,
  lhd_idle lh -> uio_wf u -> is_write u = false -> reachable valid curspace u (512 * Z.of_nat n) ->
  512 * Z.of_nat n <= uio_resid u -> 0 <= sector + i ->
  sector + i + Z.of_nat n <= hw_nsect (lh_hw lh) ->
  exists lh',
    lhd_loop valid curspace n i sector (statval false) u lh =
      Ok (0, advance (512 * Z.of_nat n)
               (iov_data u ++ concat (take n (drop (Z.to_nat (sector + i)) (disk lh)))) u, lh') /\
    lhd_idle lh' /\ disk lh' = disk lh /\ lh_blocks lh' = lh_blocks lh.
Proof.
  induction n as [|n IH]; intros i sector u lh Hi Hwf Hw Hr Hres Hpos Hend.
  { exists lh. rewrite take_0. cbn [concat]. rewrite app_nil_r, advance_0 by apply Hwf. done. }
  destruct Hi as (Hc & Hd & Hl & Hok & Hb). cbn [lhd_loop]. rewrite Hc.
  change (sem_P 1) with (Ok 0). rewrite bind_Ok, Hw, bind_Ok. cbn [Z.eqb negb].
  pose proof (hw_small _ Hok). rewrite u32_small by lia.
  destruct (lhd_op_ok false (sector + i) (set_clear 0 lh)) as (buf & h & -> & Hok' & Hl' & Hn' & Hs & Hlk);
    [done..|simpl; lia|]. cbn [lh_clear set_clear lh_done lh_blocks lh_hw] in *.
  change (sem_P 1) with (Ok 0). rewrite bind_Ok.
  cbn [lh_result set_done Z.eqb negb andb lh_buf]. rewrite Hw. cbn [negb].
  rewrite uiomove_spec; [|done|apply (reachable_le valid curspace u _ _ Hr); unfold LHD_SECTSIZE; lia
    |unfold LHD_SECTSIZE; lia|rewrite Hl'; done].
  rewrite Hw, !bind_Ok. cbn [Z.eqb negb].
  replace (take (Z.to_nat LHD_SECTSIZE) buf) with buf by (symmetry; apply take_ge; rewrite Hl'; done).
  unfold LHD_SECTSIZE.
  edestruct (IH (i + 1) sector (advance 512 (iov_data u ++ buf) u)) as (lh' & -> & Hi' & Hs' & Hb').
  8:{ exists lh'. split; [|split; [done|]; split; [by rewrite Hs'|done]].
      rewrite advance_advance. do 3 f_equal. f_equal; [lia|].
      cbn [iov_data advance]. rewrite <- app_assoc. f_equal.
      cbn [lh_hw set_clear set_buf set_done]. rewrite Hs.
      erewrite (drop_S _ buf (Z.to_nat (sector + i))) by done. cbn [take concat].
      do 4 f_equal. lia. }
  - unfold lhd_idle; simpl. rewrite Hn'. done.
  - apply advance_wf; [done|lia|by rewrite Hw].
  - done.
  - replace (512 * Z.of_nat n) with (512 * Z.of_nat (S n) - 512) by lia.
    apply reachable_advance; [apply Hwf|done|lia].
  - simpl. lia.
  - lia.
  - simpl. lia.
Qed.

Lemma lhd_write_loop n : forall i sector u lh,
  lhd_idle lh -> uio_wf u -> is_write u = true -> reachable valid curspace u (512 * Z.of_nat n) ->
  512 * Z.of_nat n <= uio_resid u -> 0 <= sector + i ->
  sector + i + Z.of_nat n <= hw_nsect (lh_hw lh) ->
  exists lh',
    lhd_loop valid curspace n i sector (statval true) u lh =
      Ok (0, advance (512 * Z.of_nat n) (drop (512 * n) (iov_data u)) u, lh') /\
    lhd_idle lh' /\ lh_blocks lh' = lh_blocks lh /\
    disk lh' = list_inserts (Z.to_nat (sector + i)) (chunks n (iov_data u)) (disk lh).
Proof.
  induction n as [|n IH]; intros i sector u lh Hi Hwf Hw Hr Hres Hpos Hend.
  { exists lh. rewrite drop_0, advance_0 by apply Hwf. done. }
  destruct Hi as (Hc & Hd & Hl & Hok & Hb). cbn [lhd_loop]. rewrite Hc.
  change (sem_P 1) with (Ok 0). rewrite bind_Ok, Hw.
  rewrite uiomove_spec; [|done|apply (reachable_le valid curspace u _ _ Hr); unfold LHD_SECTSIZE; lia
    |unfold LHD_SECTSIZE; lia|cbn [lh_buf set_clear]; rewrite Hl; done].
  rewrite Hw, !bind_Ok. cbn [Z.eqb negb]. cbn [lh_buf set_clear].
  change (Z.to_nat LHD_SECTSIZE) with 512%nat. unfold LHD_SECTSIZE.
  rewrite (drop_ge (lh_buf lh) 512), app_nil_r by lia.
  pose proof Hwf as (_ & Hr1 & Hr2 & Hlen & _). specialize (Hlen Hw).
  assert (length (take 512 (iov_data u)) = 512%nat) as Hl0 by (rewrite length_take; lia).
  pose proof (hw_small _ Hok). rewrite u32_small by lia.
  destruct (lhd_op_ok true (sector + i) (set_buf (take 512 (iov_data u)) (set_clear 0 lh)))
    as (buf & h & -> & Hok' & Hl' & Hn' & Hs); [done..|simpl; lia|].
  cbn [lh_clear set_clear lh_done lh_blocks lh_hw set_buf lh_buf] in *.
  change (sem_P 1) with (Ok 0). rewrite bind_Ok.
  cbn [lh_result set_done Z.eqb negb andb lh_buf].
  rewrite (Hw : is_write (advance _ _ u) = true). cbn [negb]. rewrite bind_Ok. cbn [negb Z.eqb].
  edestruct (IH (i + 1) sector (advance 512 (drop 512 (iov_data u)) u)) as (lh' & -> & Hi' & Hb' & Hs').
  8:{ exists lh'. split; [|split; [done|]; split; [done|]].
      - rewrite advance_advance. cbn [iov_data advance]. rewrite drop_drop.
        do 3 f_equal. f_equal; [lia|f_equal; lia].
      - rewrite Hs'. cbn [lh_hw set_clear set_buf set_done iov_data advance chunks list_inserts].
        rewrite Hs, list_insert_inserts_lt by lia. f_equal. lia. }
  - unfold lhd_idle; simpl. rewrite Hn'. done.
  - apply advance_wf; [done|lia|done].
  - done.
  - replace (512 * Z.of_nat n) with (512 * Z.of_nat (S n) - 512) by lia.
    apply reachable_advance; [apply Hwf|done|lia].
  - simpl. lia.
  - lia.
  - simpl. lia.
Qed.

Lemma lhd_io_read u lh s n :
  lhd_idle lh -> uio_wf u -> reachable valid curspace u (uio_resid u) -> is_write u = false ->
  uio_offset u = 512 * s -> uio_resid u = 512 * Z.of_nat n -> 0 <= s ->
  s + Z.of_nat n <= lh_blocks lh ->
  exists lh', lhd_io valid curspace u lh =
      Ok (0, advance (uio_resid u) (iov_data u ++ concat (take n (drop (Z.to_nat s) (disk lh)))) u, lh') /\
    lhd_idle lh' /\ disk lh' = disk lh /\ lh_blocks lh' = lh_blocks lh.
Proof.
  intros Hi Hwf Hr Hw Hoff Hres Hs Hend. rewrite (lhd_io_loop u lh s n), Hw by done.
  rewrite Hres in *. pose proof Hi as (_ & _ & _ & _ & Hb).
  destruct (lhd_read_loop n 0 s u lh) as (lh' & -> & ?); rewrite ?Z.add_0_r in *; try (done || lia).
  by exists lh'.
Qed.

Lemma lhd_io_write u lh s n :
  lhd_idle lh -> uio_wf u -> reachable valid curspace u (uio_resid u) -> is_write u = true ->
  uio_offset u = 512 * s -> uio_resid u = 512 * Z.of_nat n -> 0 <= s ->
  s + Z.of_nat n <= lh_blocks lh ->
  exists lh', lhd_io valid curspace u lh =
      Ok (0, advance (uio_resid u) (drop (512 * n) (iov_data u)) u, lh') /\
    lhd_idle lh' /\ lh_blocks lh' = lh_blocks lh /\
    disk lh' = list_inserts (Z.to_nat s) (chunks n (iov_data u)) (disk lh).
Proof.
  intros Hi Hwf Hr Hw Hoff Hres Hs Hend. rewrite (lhd_io_loop u lh s n), Hw by done.
  rewrite Hres in *. pose proof Hi as (_ & _ & _ & _ & Hb).
  destruct (lhd_write_loop n 0 s u lh) as (lh' & -> & ?); rewrite ?Z.add_0_r in *; try (done || lia).
  by exists lh'.
Qed.
End sound.

(** A write the disk fails gives EIO, but its data is used up. *)
Lemma lhd_write_error u lh s st buf h :
  lhd_idle lh -> uio_wf u -> reachable valid curspace u 512 -> is_write u = true ->
  uio_offset u = 512 * s -> uio_resid u = 512 -> 0 <= s < lh_blocks lh ->
  hw_start s (statval true) (take 512 (iov_data u)) (lh_hw lh) = (st, buf, h) ->
  Z.land st LHD_STATEMASK = LHD_MEDIA ->
  exists lh', lhd_io valid curspace u lh = Ok (EIO, advance 512 (drop 512 (iov_data u)) u, lh') /\
    lhd_idle lh' /\ lh_hw lh' = h /\ lh_blocks lh' = lh_blocks lh.
Proof.
  intros (Hc & Hd & Hl & Hok & Hb) Hwf Hr Hw Hoff Hres Hs Hrun Hst.
  rewrite (lhd_io_loop u lh s 1), Hw by (done || lia). cbn [lhd_loop]. rewrite Hc.
  change (sem_P 1) with (Ok 0). rewrite bind_Ok, Hw.
  rewrite uiomove_spec; [|done|done|unfold LHD_SECTSIZE; lia|cbn [lh_buf set_clear]; rewrite Hl; done].
  rewrite Hw, !bind_Ok. cbn [Z.eqb negb]. cbn [lh_buf set_clear].
  change (Z.to_nat LHD_SECTSIZE) with 512%nat. unfold LHD_SECTSIZE.
  rewrite (drop_ge (lh_buf lh) 512), app_nil_r by lia.
  pose proof Hwf as (_ & Hr1 & Hr2 & Hlen & _). specialize (Hlen Hw).
  pose proof (hw_small _ Hok). rewrite Z.add_0_r, u32_small by lia.
  destruct (lhd_op_spec true s (set_buf (take 512 (iov_data u)) (set_clear 0 lh)))
    as (code & st' & buf' & h' & Hrun' & -> & Hok' & Hl' & Hn' & Hcase);
    [done|simpl; rewrite length_take; lia|done|simpl; lia|].
  cbn [lh_hw lh_buf set_buf set_clear] in Hrun'. rewrite Hrun in Hrun'. injection Hrun' as <- <- <-.
  destruct Hcase as [[Hst' _]|(_ & -> & _)]; [rewrite Hst in Hst'; discriminate|].
  cbn [lh_clear set_clear lh_done lh_blocks lh_hw set_buf lh_buf] in *.
  change (sem_P 1) with (Ok 0). rewrite bind_Ok. cbn [lh_result set_done].
  change (EIO =? 0) with false. cbn [andb]. rewrite bind_Ok.
  change (negb (EIO =? 0)) with true. eexists. split; [reflexivity|]. simpl.
  split; [|done]. unfold lhd_idle; simpl. by rewrite Hn'.
Qed.

(** Requests [lhd_io] refuses. *)
Lemma lhd_io_einval u lh :
  0 <= uio_offset u < 2147483648 -> 0 <= uio_resid u < 4294967296 ->
  lh_blocks lh * 512 < 2147483648 ->
  (uio_offset u `mod` 512 <> 0 \/ uio_resid u `mod` 512 <> 0 \/
   lh_blocks lh < uio_offset u / 512 + uio_resid u / 512) ->
  lhd_io valid curspace u lh = Ok (EINVAL, u, lh).
Proof.
  intros Ho Hr Hb Hbad. unfold lhd_io, LHD_SECTSIZE.
  rewrite Z.quot_div_nonneg, Z.rem_mod_nonneg by lia.
  assert (0 <= uio_offset u `mod` 512 < 512) by (apply Z.mod_pos_bound; lia).
  assert (0 <= uio_offset u / 512 < 4194304) by dlia.
  assert (0 <= uio_resid u / 512 < 8388608) by dlia.
  nowrap. destruct (Z.eqb_spec (uio_offset u `mod` 512) 0); [|done].
  destruct (Z.eqb_spec (uio_resid u `mod` 512) 0); [|done]. cbn [negb orb].
  rewrite Z.gtb_ltb. destruct (Z.ltb_spec (lh_blocks lh) (uio_offset u / 512 + uio_resid u / 512)); [done|lia].
Qed.
End facts.

Section reliable.
Context {H : Type} `{DiskSound H}.
Implicit Types (lh : lhd_softc H).

Lemma lhd_dev_read valid cur u b blk lh :
  lhd_idle lh -> block_uio valid cur u b -> is_write u = false -> 0 <= b ->
  hw_sectors (lh_hw lh) !! Z.to_nat b = Some blk ->
  exists lh', d_io valid cur u lh = Ok (0, advance 512 (iov_data u ++ blk) u, lh') /\
    lhd_idle lh' /\ hw_sectors (lh_hw lh') = hw_sectors (lh_hw lh) /\ d_blocks lh' = d_blocks lh.
Proof.
  intros Hi (Hwf & Hr & Hres & Hoff) Hw Hb Hlk.
  assert (b < lh_blocks lh).
  { pose proof Hi as (_ & _ & _ & Hok & ->). rewrite <- (hw_size _ Hok).
    apply lookup_lt_Some in Hlk. lia. }
  destruct (lhd_io_read valid cur u lh b 1) as (lh' & E & Hi' & Hs & Hb'); try (done || lia).
  { by rewrite Hres. }
  exists lh'. simpl. rewrite E, Hres. erewrite drop_S by done. simpl. by rewrite app_nil_r.
Qed.

Lemma lhd_dev_write valid cur u b lh :
  lhd_idle lh -> block_uio valid cur u b -> is_write u = true -> 0 <= b < d_blocks lh ->
  exists lh', d_io valid cur u lh = Ok (0, advance 512 (drop 512 (iov_data u)) u, lh') /\
    lhd_idle lh' /\
    hw_sectors (lh_hw lh') = <[Z.to_nat b := take 512 (iov_data u)]> (hw_sectors (lh_hw lh)) /\
    d_blocks lh' = d_blocks lh.
Proof.
  intros Hi (Hwf & Hr & Hres & Hoff) Hw Hb. simpl in Hb.
  destruct (lhd_io_write valid cur u lh b 1) as (lh' & E & Hi' & Hb' & Hs); try (done || lia).
  { by rewrite Hres. }
  exists lh'. simpl. rewrite E, Hres. done.
Qed.

Lemma lhd_dev_sizes lh :
  lhd_idle lh ->
  Forall (fun b => length b = 512%nat) (hw_sectors (lh_hw lh)) /\
  Z.of_nat (length (hw_sectors (lh_hw lh))) = d_blocks lh /\ d_blocks lh * 512 < 2147483648.
Proof.
  intros (_ & _ & _ & Hok & Hb). simpl. rewrite Hb.
  split; [by apply hw_sector_size|]. split; [by apply hw_size|by apply hw_small].
Qed.

(** The driver of a sound disk is a reliable device. *)
Global Instance lhd_reliable : ReliableDev (lhd_softc H) := {
  dev_ok := lhd_idle;
  dev_sectors := fun lh => hw_sectors (lh_hw lh);
  dev_sector_size := fun lh Hi => proj1 (lhd_dev_sizes lh Hi);
  dev_size := fun lh Hi => proj1 (proj2 (lhd_dev_sizes lh Hi));
  dev_blocksize := fun lh Hi => eq_refl;
  dev_small := fun lh Hi => proj2 (proj2 (lhd_dev_sizes lh Hi));
  dev_read := lhd_dev_read;
  dev_write := lhd_dev_write;
}.
End reliable.

(** ** Disks *)

(** A disk in memory: its sectors, and for each operation to come whether it
    fails with a media error (none does when the list is used up). *)
Record ramdisk : Type := mk_ramdisk { rd_sectors : list (list Z); rd_fail : list bool }.

Global Instance ramdisk_hw : DiskHw ramdisk := {
  hw_nsect := fun h => Z.of_nat (length (rd_sectors h));
  hw_start := fun sect stat buf h =>
    let h' := mk_ramdisk (rd_sectors h) (tail (rd_fail h)) in
    match rd_sectors h !! Z.to_nat sect with
    | None => (LHD_INVSECT, buf, h')
    | Some blk =>
        if default false (head (rd_fail h)) then (LHD_MEDIA, buf, h')
        else if Z.testbit stat 1
        then (LHD_OK, buf, mk_ramdisk (<[Z.to_nat sect := buf]> (rd_sectors h)) (tail (rd_fail h)))
        else (LHD_OK, blk, h')
    end;
}.

Definition ramdisk_ok (h : ramdisk) : Prop :=
  Forall (fun b => length b = 512%nat) (rd_sectors h) /\
  Z.of_nat (length (rd_sectors h)) * 512 < 2147483648.

(** The disk meets the laws; it is sound when no failure is to come. *)
Section ramdisk_laws.
Context (may_fail : bool).

Definition ramdisk_state (h : ramdisk) : Prop :=
  ramdisk_ok h /\ (may_fail = false -> rd_fail h = []).

Lemma ramdisk_run sect (w : bool) buf h st buf' h' :
  ramdisk_state h -> length buf = 512%nat -> 0 <= sect < hw_nsect h ->
  hw_start sect (if w then Z.lor LHD_WORKING LHD_ISWRITE else LHD_WORKING) buf h = (st, buf', h') ->
  ramdisk_state h' /\ length buf' = 512%nat /\ hw_nsect h' = hw_nsect h /\
  (Z.land st LHD_STATEMASK = LHD_OK /\
     (if w then rd_sectors h' = <[Z.to_nat sect := buf]> (rd_sectors h)
      else rd_sectors h' = rd_sectors h /\ rd_sectors h !! Z.to_nat sect = Some buf') \/
   Z.land st LHD_STATEMASK = LHD_MEDIA /\
     forall j, j <> Z.to_nat sect -> rd_sectors h' !! j = rd_sectors h !! j).
Proof.
  destruct h as [S F]. unfold ramdisk_state, ramdisk_ok; simpl. intros [[HS Hsm] HF] Hb Hs.
  destruct (lookup_lt_is_Some_2 S (Z.to_nat sect)) as [blk Hblk]; [lia|].
  assert (length blk = 512%nat) by (by eapply Forall_lookup_1 in HS).
  assert (may_fail = false -> tail F = []) by (intros E; by rewrite HF).
  rewrite Hblk. destruct (default false (head F)); [intros [= <- <- <-]; simpl; naive_solver|].
  destruct w; simpl; intros [= <- <- <-]; simpl; [|naive_solver].
  rewrite length_insert. split; [|by eauto]. split; [|done]. split; [|done].
  by apply Forall_insert.
Qed.

#[local] Instance ramdisk_laws : DiskLaws ramdisk := {
  hw_sectors := rd_sectors;
  hw_ok := ramdisk_state;
  hw_sector_size := fun h Hok => proj1 (proj1 Hok);
  hw_size := fun h _ => eq_refl;
  hw_small := fun h Hok => proj2 (proj1 Hok);
  hw_run := ramdisk_run;
}.
End ramdisk_laws.

Lemma ramdisk_sound : @DiskSound ramdisk _ (ramdisk_laws false).
Proof.
  intros sect w buf [S F] st buf' h' [Hok HF] Hb Hs. simpl in *. rewrite (HF eq_refl). simpl.
  destruct (lookup_lt_is_Some_2 S (Z.to_nat sect)) as [blk ->]; [lia|].
  destruct w; simpl; by intros [= <- <- <-].
Qed.

(** C27. [lhd_io] transfers whole sectors exactly.  On an idle driver of a
    disk without media errors, a well-formed request for [n] sectors from
    sector [s] on returns 0; a read appends the contents of those sectors to
    the uio's region and leaves the disk as it was; a write makes the [n]
    sectors the uio's next [n] * 512 bytes and leaves the other sectors as
    they were; the driver is idle again.  A request that is not
    sector-aligned or that goes past the end of the disk gives EINVAL and
    changes nothing. *)
Theorem lhd_io_exact {H} `{DiskSound H} valid curspace u (lh : lhd_softc H) s n :
  lhd_idle lh -> uio_wf u -> reachable valid curspace u (uio_resid u) -> 0 <= uio_offset u ->
  (uio_offset u = 512 * s -> uio_resid u = 512 * Z.of_nat n -> s + Z.of_nat n <= lh_blocks lh ->
   exists lh' data',
     lhd_io valid curspace u lh = Ok (0, advance (uio_resid u) data' u, lh') /\ lhd_idle lh' /\
     if is_write u then
       data' = drop (512 * n) (iov_data u) /\
       hw_sectors (lh_hw lh') =
         list_inserts (Z.to_nat s) (chunks n (iov_data u)) (hw_sectors (lh_hw lh))
     else
       data' = iov_data u ++ concat (take n (drop (Z.to_nat s) (hw_sectors (lh_hw lh)))) /\
       hw_sectors (lh_hw lh') = hw_sectors (lh_hw lh)) /\
  (uio_offset u `mod` 512 <> 0 \/ uio_resid u `mod` 512 <> 0 \/
   lh_blocks lh < uio_offset u / 512 + uio_resid u / 512 ->
   lhd_io valid curspace u lh = Ok (EINVAL, u, lh)).
Proof.
  intros Hi Hwf Hr Ho. split.
  - intros Hoff Hres Hend. destruct (is_write u) eqn:Hw.
    + destruct (lhd_io_write valid curspace u lh s n) as (lh' & E & Hi' & _ & Hs); try (done || lia).
      by exists lh', (drop (512 * n) (iov_data u)).
    + destruct (lhd_io_read valid curspace u lh s n) as (lh' & E & Hi' & Hs & _); try (done || lia).
      by exists lh', (iov_data u ++ concat (take n (drop (Z.to_nat s) (hw_sectors (lh_hw lh))))).
  - destruct (lhd_dev_sizes lh Hi) as (_ & _ & Hsm). destruct Hwf as (_ & ? & ? & _ & _ & ?).
    apply lhd_io_einval; [lia..|done].
Qed.

(** Three sectors of ones, twos and threes. *)
Definition rd3 : ramdisk := mk_ramdisk [replicate 512 1; replicate 512 2; replicate 512 3] [].
Definition lh3 : lhd_softc ramdisk := mk_lhd (replicate 512 0) 0 1 0 3 0 0 rd3.

Lemma rd3_ok : ramdisk_ok rd3.
Proof. split; [|done]. unfold rd3; simpl. repeat constructor. Qed.

Lemma lhd_io_exact_witness :
  exists lh' data',
    lhd_io (fun _ => true) None (mk_kuio [] 1024 512 UIO_READ) lh3 =
      Ok (0, advance 1024 data' (mk_kuio [] 1024 512 UIO_READ), lh') /\
    data' = replicate 512 2 ++ replicate 512 3.
Proof.
  destruct (@lhd_io_exact ramdisk _ (ramdisk_laws false) ramdisk_sound (fun _ => true) None
              (mk_kuio [] 1024 512 UIO_READ) lh3 1 2) as [Hgo _].
  - split; [done|]. split; [done|]. split; [done|]. split; [|done]. split; [exact rd3_ok|done].
  - unfold uio_wf; simpl. split; [lia|]. split; [lia|]. split; [lia|]. split; [done|lia].
  - done.
  - simpl; lia.
  - destruct Hgo as (lh' & data' & E & _ & Hd & _); [done..|].
    exists lh', data'. split; [exact E|]. rewrite Hd. vm_compute. reflexivity.
Defined.
