(* ===== verification/SfsDisk.v ===== *)
(** * kern/include/kern/sfs.h: the on-disk structures of SFS

    The kernel reads and writes these structures by passing their addresses
    to the block I/O routines, so the encoding is the memory layout on the
    big-endian MIPS: [*_bytes] is the memory of a structure, [*_of] the
    structure found in a block. *)
From stdpp Require Import base numbers list option.
From S2P Require Import Prelude.
Local Open Scope Z_scope.

Definition SFS_MAGIC : Z := 2880303105. (* 0xabadf001 *)
Definition SFS_BLOCKSIZE : Z := 512.
Definition SFS_VOLNAME_SIZE : Z := 32.
Definition SFS_NDIRECT : Z := 15.
Definition SFS_DBPERIDB : Z := 128.
Definition SFS_NAMELEN : Z := 60.
Definition SFS_SB_LOCATION : Z := 0.
Definition SFS_ROOT_LOCATION : Z := 1.
Definition SFS_MAP_LOCATION : Z := 2.
Definition SFS_NOINO : Z := 0.
Definition SFS_BLOCKBITS : Z := SFS_BLOCKSIZE * 8.
Definition SFS_ROUNDUP (a b : Z) : Z := u32 (u32 (u32 (a + b) - 1) / b * b).
Definition SFS_BITMAPSIZE (nblocks : Z) : Z := SFS_ROUNDUP nblocks SFS_BLOCKBITS.
Definition SFS_BITBLOCKS (nblocks : Z) : Z := SFS_BITMAPSIZE nblocks / SFS_BLOCKBITS.
Definition SFS_TYPE_INVAL : Z := 0.
Definition SFS_TYPE_FILE : Z := 1.
Definition SFS_TYPE_DIR : Z := 2.
(** sizeof(struct sfs_dir) *)
Definition SFS_DIRSIZE : Z := 64.

Record sfs_super : Type := mk_super {
  sp_magic : Z;
  sp_nblocks : Z;
  sp_volname : list Z;
  sp_reserved : list Z;
}.

Record sfs_inode : Type := mk_inode {
  sfi_size : Z;
  sfi_type : Z;
  sfi_linkcount : Z;
  sfi_direct : list Z;
  sfi_indirect : Z;
  sfi_waste : list Z;
}.

Record sfs_dir : Type := mk_dir {
  sfd_ino : Z;
  sfd_name : list Z;
}.

(** ** Words *)

Definition be32 (w : Z) : list Z :=
  [u8 (w / 16777216); u8 (w / 65536); u8 (w / 256); u8 w].

Definition word_bytes (ws : list Z) : list Z := concat (be32 <$> ws).

Fixpoint words_of (l : list Z) : list Z :=
  match l with
  | a :: b :: c :: d :: l => a * 16777216 + b * 65536 + c * 256 + d :: words_of l
  | _ => []
  end.

Definition is_u32 (z : Z) : Prop := 0 <= z < 4294967296.
Definition is_u16 (z : Z) : Prop := 0 <= z < 65536.
Definition is_u8 (z : Z) : Prop := 0 <= z < 256.

Lemma be32_word w :
  is_u32 w -> u8 (w / 16777216) * 16777216 + u8 (w / 65536) * 65536 + u8 (w / 256) * 256 + u8 w = w.
Proof.
  intros Hw. unfold is_u32, u8 in *. change 16777216 with (256 * 256 * 256). change 65536 with (256 * 256).
  rewrite <- !Z.div_div by lia.
  pose proof (Z.div_mod w 256). pose proof (Z.div_mod (w / 256) 256).
  pose proof (Z.div_mod (w / 256 / 256) 256).
  rewrite (Z.mod_small (w / 256 / 256 / 256)); [lia|]. rewrite !Z.div_div by lia. split.
  - apply Z.div_pos; lia.
  - apply Z.div_lt_upper_bound; lia.
Qed.

Lemma words_of_bytes ws : Forall is_u32 ws -> words_of (word_bytes ws) = ws.
Proof.
  induction 1 as [|w ws Hw _ IH]; [done|]. unfold word_bytes in *. cbn [fmap list_fmap concat be32 app words_of].
  f_equal; [|done]. by apply be32_word.
Qed.

Lemma length_word_bytes ws : length (word_bytes ws) = (4 * length ws)%nat.
Proof.
  unfold word_bytes. induction ws as [|w ws IH]; [done|].
  rewrite fmap_cons. cbn [concat]. rewrite length_app, IH. simpl. lia.
Qed.

Lemma word_bytes_app ws ws' : word_bytes (ws ++ ws') = word_bytes ws ++ word_bytes ws'.
Proof. unfold word_bytes. by rewrite fmap_app, concat_app. Qed.

Lemma length_words_of n : forall l, length l = (4 * n)%nat -> length (words_of l) = n.
Proof.
  induction n as [|n IH]; intros l Hl.
  - by destruct l.
  - destruct l as [|a [|b [|c [|d l]]]]; simpl in Hl; try lia. simpl. f_equal. apply IH. lia.
Qed.

Lemma words_of_app l l' n :
  length l = (4 * n)%nat -> words_of (l ++ l') = words_of l ++ words_of l'.
Proof.
  revert l. induction n as [|n IH]; intros l Hl.
  - by destruct l.
  - destruct l as [|a [|b [|c [|d l]]]]; simpl in Hl; try lia. simpl. f_equal. apply IH. lia.
Qed.

Lemma words_of_u32 l : Forall is_u8 l -> Forall is_u32 (words_of l).
Proof.
  remember (length l) as n eqn:Hn. revert l Hn. induction n as [n IH] using lt_wf_ind.
  intros l -> Hl. destruct l as [|a [|b [|c [|d l]]]]; simpl; try constructor.
  - do 4 (apply Forall_cons_1 in Hl as [? Hl]). unfold is_u32, is_u8 in *. lia.
  - apply (IH (length l)); [simpl; lia|done|]. by do 4 (apply Forall_cons_1 in Hl as [_ Hl]).
Qed.

Lemma words_of_zeros n : words_of (replicate (4 * n) 0) = replicate n 0.
Proof.
  induction n as [|n IH]; [done|]. replace (4 * S n)%nat with (S (S (S (S (4 * n))))) by lia.
  cbn [replicate words_of]. by rewrite IH.
Qed.

(** ** Structures *)

Definition inode_words (i : sfs_inode) : list Z :=
  sfi_size i :: sfi_type i * 65536 + sfi_linkcount i :: sfi_direct i ++ sfi_indirect i :: sfi_waste i.

Definition inode_bytes (i : sfs_inode) : list Z := word_bytes (inode_words i).

Definition inode_of (blk : list Z) : sfs_inode :=
  let ws := words_of blk in
  mk_inode (ws !!! 0%nat) (ws !!! 1%nat / 65536) (ws !!! 1%nat `mod` 65536)
    (take 15 (drop 2 ws)) (ws !!! 17%nat) (drop 18 ws).

Definition super_bytes (s : sfs_super) : list Z :=
  be32 (sp_magic s) ++ be32 (sp_nblocks s) ++ sp_volname s ++ word_bytes (sp_reserved s).

Definition super_of (blk : list Z) : sfs_super :=
  let ws := words_of (take 8 blk) in
  mk_super (ws !!! 0%nat) (ws !!! 1%nat) (take 32 (drop 8 blk)) (words_of (drop 40 blk)).

Definition dir_bytes (d : sfs_dir) : list Z := be32 (sfd_ino d) ++ sfd_name d.

Definition dir_of (bytes : list Z) : sfs_dir :=
  mk_dir (words_of (take 4 bytes) !!! 0%nat) (drop 4 bytes).

(** Values of the C types. *)
Definition inode_typed (i : sfs_inode) : Prop :=
  is_u32 (sfi_size i) /\ is_u16 (sfi_type i) /\ is_u16 (sfi_linkcount i) /\
  length (sfi_direct i) = 15%nat /\ Forall is_u32 (sfi_direct i) /\ is_u32 (sfi_indirect i) /\
  length (sfi_waste i) = 110%nat /\ Forall is_u32 (sfi_waste i).

Definition super_typed (s : sfs_super) : Prop :=
  is_u32 (sp_magic s) /\ is_u32 (sp_nblocks s) /\ length (sp_volname s) = 32%nat /\
  length (sp_reserved s) = 118%nat /\ Forall is_u32 (sp_reserved s).

Definition dir_typed (d : sfs_dir) : Prop :=
  is_u32 (sfd_ino d) /\ length (sfd_name d) = 60%nat.

Lemma length_inode_bytes i : inode_typed i -> length (inode_bytes i) = 512%nat.
Proof.
  intros (_ & _ & _ & Hd & _ & _ & Hw & _). unfold inode_bytes, inode_words.
  rewrite length_word_bytes. simpl. rewrite length_app. simpl. lia.
Qed.

Lemma length_super_bytes s : super_typed s -> length (super_bytes s) = 512%nat.
Proof.
  intros (_ & _ & Hv & Hr & _). unfold super_bytes. rewrite !length_app, length_word_bytes. simpl. lia.
Qed.

Lemma length_dir_bytes d : dir_typed d -> length (dir_bytes d) = 64%nat.
Proof. intros [_ Hn]. unfold dir_bytes. rewrite length_app. simpl. lia. Qed.

Lemma inode_roundtrip i : inode_typed i -> inode_of (inode_bytes i) = i.
Proof.
  intros (Hs & Ht & Hl & Hd & Hd' & Hi & Hw & Hw'). unfold inode_of, inode_bytes.
  rewrite words_of_bytes.
  - unfold inode_words. destruct i as [sz ty lc dir ind wst]; simpl in *.
    unfold is_u16 in *. f_equal.
    + dlia.
    + dlia.
    + rewrite <- Hd. rewrite drop_0. by rewrite take_app_length.
    + rewrite list_lookup_total_middle by done. done.
    + rewrite drop_app_ge by lia. by rewrite Hd.
  - unfold inode_words, is_u32, is_u16 in *. constructor; [done|]. constructor; [lia|].
    apply Forall_app. split; [done|]. by constructor.
Qed.

Lemma super_roundtrip s : super_typed s -> super_of (super_bytes s) = s.
Proof.
  intros (Hm & Hn & Hv & Hr & Hr'). destruct s as [m n v r]; simpl in *.
  unfold super_of, super_bytes; simpl.
  rewrite drop_0, take_app_length' by done. rewrite drop_app_length' by done.
  rewrite words_of_bytes by done. f_equal; by apply be32_word.
Qed.

Lemma dir_roundtrip d : dir_typed d -> dir_of (dir_bytes d) = d.
Proof.
  intros [Hi _]. destruct d as [i n]; unfold dir_of, dir_bytes; simpl in *. rewrite drop_0.
  f_equal. by apply be32_word.
Qed.

(** The on-disk structures survive the disk: an inode, a superblock and a
    directory entry whose fields have their C types are 512, 512 and 64
    bytes, and decoding the bytes gives the structure back. *)
Theorem ondisk_roundtrip i s d :
  inode_typed i -> super_typed s -> dir_typed d ->
  (length (inode_bytes i) = 512%nat /\ inode_of (inode_bytes i) = i) /\
  (length (super_bytes s) = 512%nat /\ super_of (super_bytes s) = s) /\
  (length (dir_bytes d) = 64%nat /\ dir_of (dir_bytes d) = d).
Proof.
  intros. rewrite length_inode_bytes, length_super_bytes, length_dir_bytes by done.
  by rewrite inode_roundtrip, super_roundtrip, dir_roundtrip.
Qed.

Definition inode1 : sfs_inode := mk_inode 700 1 2 (7 :: 9 :: replicate 13 0) 70000 (replicate 110 0).
Definition super1 : sfs_super :=
  mk_super SFS_MAGIC 5000 ([118; 111; 108] ++ replicate 29 0) (replicate 118 0).
Definition dir1 : sfs_dir := mk_dir 70000 (97 :: replicate 59 0).

Lemma ondisk_roundtrip_witness :
  (length (inode_bytes inode1) = 512%nat /\ inode_of (inode_bytes inode1) = inode1) /\
  (length (super_bytes super1) = 512%nat /\ super_of (super_bytes super1) = super1) /\
  (length (dir_bytes dir1) = 64%nat /\ dir_of (dir_bytes dir1) = dir1).
Proof.
  apply (ondisk_roundtrip inode1 super1 dir1);
    unfold inode_typed, super_typed, dir_typed, is_u32, is_u16; cbn [sfi_size sfi_type sfi_linkcount
      sfi_direct sfi_indirect sfi_waste inode1 sp_magic sp_nblocks sp_volname sp_reserved super1
      sfd_ino sfd_name dir1].
  - repeat split; try done; repeat constructor; lia.
  - repeat split; try done; repeat constructor; lia.
  - repeat split; done.
Defined.
