(* ===== verification/Vnode.v ===== *)
(** * kern/fs/vfs/vnode.c: abstract vnodes

    The counts, the count lock and the operation table of a vnode, and the
    operations on them.  What [VOP_RECLAIM] and [VOP_CLOSE] do is up to the
    file system the vnode belongs to: the class [VnodeOps] is the dispatch
    through [vn_ops].  The count lock is taken and released around every
    access of the counts, so an operation on them is one step. *)
From stdpp Require Import base numbers list option.
From S2P Require Import Prelude.
Local Open Scope Z_scope.

(** ** kern/unistd.h and kern/stat.h *)

Definition O_RDONLY : Z := 0.
Definition O_WRONLY : Z := 1.
Definition O_RDWR : Z := 2.
Definition O_CREAT : Z := 4.
Definition O_EXCL : Z := 8.
Definition O_TRUNC : Z := 16.
Definition O_APPEND : Z := 32.
Definition O_ACCMODE : Z := 3.
Definition S_IFMT : Z := 0x7000.
Definition S_IFREG : Z := 4096. (* 010000 *)
Definition S_IFDIR : Z := 0x2000.
Definition S_IFCHR : Z := 0x4000.
Definition S_IFBLK : Z := 0x5000.
Definition S_ISDIR (mode : Z) : bool := Z.land mode S_IFMT =? S_IFDIR.

(** ** vnode.h *)

(** The operation tables of the kernel. *)
Inductive vnode_ops : Type := sfs_fileops | sfs_dirops | dev_vnode_ops | emufs_fileops | emufs_dirops.
Global Instance vnode_ops_eq_dec : EqDecision vnode_ops.
Proof. solve_decision. Defined.

(** Pointers are [None] when NULL; [vn_countlock] says whether there is a
    lock. *)
Record vnode : Type := mk_vnode {
  vn_refcount : Z;
  vn_opencount : Z;
  vn_countlock : bool;
  vn_fs : option Z;
  vn_data : option Z;
  vn_ops : option vnode_ops;
}.

Definition set_refcount (n : Z) (vn : vnode) : vnode :=
  mk_vnode n (vn_opencount vn) (vn_countlock vn) (vn_fs vn) (vn_data vn) (vn_ops vn).
Definition set_opencount (n : Z) (vn : vnode) : vnode :=
  mk_vnode (vn_refcount vn) n (vn_countlock vn) (vn_fs vn) (vn_data vn) (vn_ops vn).

(** [ok] is the answer of [lock_create]; [vn] the uninitialised memory. *)
Definition vnode_init (ok : bool) (vn : vnode) (ops : vnode_ops) (fs data : option Z) : Z * vnode :=
  if ok then (0, mk_vnode 1 0 true fs data (Some ops))
  else (ENOMEM, mk_vnode 1 0 false (vn_fs vn) (vn_data vn) (Some ops)).

Definition vnode_kill (vn : vnode) : res vnode :=
  _ ← assert (vn_refcount vn =? 1);
  _ ← assert (vn_opencount vn =? 0);
  _ ← assert (vn_countlock vn);
  Ok (mk_vnode 0 0 false None None None).

(** The locked parts of the operations; [lock_acquire] asserts that there is
    a lock. *)
Definition vnode_incref_v (vn : vnode) : res vnode :=
  _ ← assert (vn_countlock vn);
  Ok (set_refcount (i32 (vn_refcount vn + 1)) vn).

Definition vnode_incopen_v (vn : vnode) : res vnode :=
  _ ← assert (vn_countlock vn);
  Ok (set_opencount (i32 (vn_opencount vn + 1)) vn).

(** [reclaim] says whether the operation is "reclaim". *)
Definition vnode_check (reclaim : bool) (vn : vnode) : res unit :=
  _ ← assert (bool_decide (is_Some (vn_ops vn)));
  _ ← assert (vn_countlock vn);
  if vn_refcount vn <? 0 then Panic
  else if (vn_refcount vn =? 0) && negb reclaim then Panic
  else if vn_opencount vn <? 0 then Panic
  else Ok tt.

Class VnodeOps (S : Type) : Type := {
  vn_lookup : Z -> S -> option vnode;
  vn_store : Z -> vnode -> S -> S;
  vop_reclaim : Z -> S -> res (Z * S);
  vop_close : Z -> S -> res (Z * S);
}.

Section ops.
Context {S : Type} `{!VnodeOps S}.

Definition vn_deref (p : Z) (s : S) : res vnode :=
  match vn_lookup p s with Some vn => Ok vn | None => Undef end.

Definition vnode_incref (p : Z) (s : S) : res S :=
  vn ← vn_deref p s;
  vn ← vnode_incref_v vn;
  Ok (vn_store p vn s).

Definition vnode_decref (p : Z) (s : S) : res S :=
  vn ← vn_deref p s;
  _ ← assert (vn_countlock vn);
  _ ← assert (vn_refcount vn >? 0);
  if vn_refcount vn >? 1 then Ok (vn_store p (set_refcount (vn_refcount vn - 1) vn) s)
  else
    _ ← vnode_check true vn;
    '(_, s) ← vop_reclaim p s;
    Ok s.

Definition vnode_incopen (p : Z) (s : S) : res S :=
  vn ← vn_deref p s;
  vn ← vnode_incopen_v vn;
  Ok (vn_store p vn s).

Definition vnode_decopen (p : Z) (s : S) : res S :=
  vn ← vn_deref p s;
  _ ← assert (vn_countlock vn);
  _ ← assert (vn_opencount vn >? 0);
  let opencount := vn_opencount vn - 1 in
  let vn := set_opencount opencount vn in
  let s := vn_store p vn s in
  if opencount >? 0 then Ok s
  else
    _ ← vnode_check false vn;
    '(_, s) ← vop_close p s;
    Ok s.
End ops.
