(* ===== verification/SfsIo.v ===== *)
(** * kern/fs/sfs/sfs_io.c and sfs_vnode.c: block allocation, block mapping
      and file I/O

    The state of a mounted SFS is [sfs_fs], with the device it is mounted on
    and the memory that holds the loaded vnodes.  Functions that take a
    [struct sfs_vnode *] take its contents and give them back; the error
    code comes first.  File-system calls are sequences of steps of one
    thread: the kernel has no lock of its own around them. *)
From stdpp Require Import base numbers list option gmap.
From S2P Require Import Prelude KArray Bitmap Uio Device Lhd SfsDisk Vnode.
Local Open Scope Z_scope.

Record sfs_vnode : Type := mk_sv {
  sv_v : vnode;
  sv_i : sfs_inode;
  sv_ino : Z;
  sv_dirty : bool;
}.

Record sfs_fs (D : Type) : Type := mk_sfs {
  sfs_sb : sfs_super;
  sfs_superdirty : bool;
  sfs_device : D;
  sfs_vnodes : array Z;
  sfs_freemap : bitmap;
  sfs_freemapdirty : bool;
  sfs_mem : gmap Z sfs_vnode;
}.
Arguments mk_sfs {D}.
Arguments sfs_sb {D}.
Arguments sfs_superdirty {D}.
Arguments sfs_device {D}.
Arguments sfs_vnodes {D}.
Arguments sfs_freemap {D}.
Arguments sfs_freemapdirty {D}.
Arguments sfs_mem {D}.

Definition set_size (n : Z) (i : sfs_inode) : sfs_inode :=
  mk_inode n (sfi_type i) (sfi_linkcount i) (sfi_direct i) (sfi_indirect i) (sfi_waste i).
Definition set_type (n : Z) (i : sfs_inode) : sfs_inode :=
  mk_inode (sfi_size i) n (sfi_linkcount i) (sfi_direct i) (sfi_indirect i) (sfi_waste i).
Definition set_linkcount (n : Z) (i : sfs_inode) : sfs_inode :=
  mk_inode (sfi_size i) (sfi_type i) n (sfi_direct i) (sfi_indirect i) (sfi_waste i).
Definition set_direct (l : list Z) (i : sfs_inode) : sfs_inode :=
  mk_inode (sfi_size i) (sfi_type i) (sfi_linkcount i) l (sfi_indirect i) (sfi_waste i).
Definition set_indirect (n : Z) (i : sfs_inode) : sfs_inode :=
  mk_inode (sfi_size i) (sfi_type i) (sfi_linkcount i) (sfi_direct i) n (sfi_waste i).

Definition set_i (i : sfs_inode) (sv : sfs_vnode) : sfs_vnode :=
  mk_sv (sv_v sv) i (sv_ino sv) (sv_dirty sv).
Definition set_dirty (b : bool) (sv : sfs_vnode) : sfs_vnode :=
  mk_sv (sv_v sv) (sv_i sv) (sv_ino sv) b.

Section setters.
Context {D : Type}.
Implicit Types (fs : sfs_fs D).

Definition set_dev (d : D) fs : sfs_fs D :=
  mk_sfs (sfs_sb fs) (sfs_superdirty fs) d (sfs_vnodes fs) (sfs_freemap fs)
    (sfs_freemapdirty fs) (sfs_mem fs).
Definition set_map (b : bitmap) (dirty : bool) fs : sfs_fs D :=
  mk_sfs (sfs_sb fs) (sfs_superdirty fs) (sfs_device fs) (sfs_vnodes fs) b dirty (sfs_mem fs).
Definition set_vnodes (a : array Z) fs : sfs_fs D :=
  mk_sfs (sfs_sb fs) (sfs_superdirty fs) (sfs_device fs) a (sfs_freemap fs)
    (sfs_freemapdirty fs) (sfs_mem fs).
Definition set_mem (m : gmap Z sfs_vnode) fs : sfs_fs D :=
  mk_sfs (sfs_sb fs) (sfs_superdirty fs) (sfs_device fs) (sfs_vnodes fs) (sfs_freemap fs)
    (sfs_freemapdirty fs) m.
End setters.

Section sfs.
Context {D : Type} `{!BlockDev D}.
Variables (valid : Z -> bool) (curspace : option Z).
Implicit Types (fs : sfs_fs D) (sv : sfs_vnode) (u : uio).

(** ** Block I/O *)

(** The body of [sfs_rwblock] from [retry] on, with [more] = 10 - [tries]. *)
Fixpoint rwblock_try (more : nat) u fs : res (Z * uio * sfs_fs D) :=
  '(result, u, d) ← d_io valid curspace u (sfs_device fs);
  let fs := set_dev d fs in
  if result =? EINVAL then Panic
  else if result =? EIO then
    match more with
    | O => Ok (result, u, fs)
    | S more => rwblock_try more u fs
    end
  else Ok (result, u, fs).

Definition sfs_rwblock u fs : res (Z * uio * sfs_fs D) := rwblock_try 10 u fs.

(** Gives the error code and the contents of the buffer. *)
Definition sfs_rblock fs (block : Z) : res (Z * list Z * sfs_fs D) :=
  '(result, u, fs) ← sfs_rwblock (mk_kuio [] SFS_BLOCKSIZE (i32 (block * SFS_BLOCKSIZE)) UIO_READ) fs;
  Ok (result, iov_data u, fs).

Definition sfs_wblock fs (data : list Z) (block : Z) : res (Z * sfs_fs D) :=
  '(result, _, fs) ← sfs_rwblock (mk_kuio data SFS_BLOCKSIZE (i32 (block * SFS_BLOCKSIZE)) UIO_WRITE) fs;
  Ok (result, fs).

Definition zeros : list Z := replicate 512 0.

Definition sfs_clearblock fs (block : Z) : res (Z * sfs_fs D) := sfs_wblock fs zeros block.

Definition sfs_sync_inode sv fs : res (Z * sfs_vnode * sfs_fs D) :=
  if sv_dirty sv then
    '(result, fs) ← sfs_wblock fs (inode_bytes (sv_i sv)) (sv_ino sv);
    if negb (result =? 0) then Ok (result, sv, fs) else Ok (0, set_dirty false sv, fs)
  else Ok (0, sv, fs).

(** ** Space allocation *)

(** The error code and [*diskblock], which held [diskblock]. *)
Definition sfs_balloc fs (diskblock : Z) : res (Z * Z * sfs_fs D) :=
  '(result, diskblock, b) ← bitmap_alloc (sfs_freemap fs) diskblock;
  if negb (result =? 0) then Ok (result, diskblock, set_map b (sfs_freemapdirty fs) fs)
  else
    let fs := set_map b true fs in
    if diskblock >=? sp_nblocks (sfs_sb fs) then Panic
    else
      '(result, fs) ← sfs_clearblock fs diskblock;
      Ok (result, diskblock, fs).

Definition sfs_bfree fs (diskblock : Z) : res (sfs_fs D) :=
  b ← bitmap_unmark (sfs_freemap fs) diskblock;
  Ok (set_map b true fs).

Definition sfs_bused fs (diskblock : Z) : res bool :=
  if diskblock >=? sp_nblocks (sfs_sb fs) then Panic
  else
    r ← bitmap_isset (sfs_freemap fs) diskblock;
    Ok (negb (r =? 0)).

(** ** Block mapping *)

(** The last lines of both branches of [sfs_bmap]: a block that is handed
    back must be marked in use. *)
Definition bmap_return fs (block : Z) sv : res (Z * Z * sfs_vnode * sfs_fs D) :=
  if block =? 0 then Ok (0, block, sv, fs)
  else
    used ← sfs_bused fs block;
    if negb used then Panic else Ok (0, block, sv, fs).

(** The indirect block: found, or allocated, and its contents. *)
Definition bmap_indirect sv fs : res (Z * list Z * sfs_vnode * sfs_fs D) :=
  let idblock := sfi_indirect (sv_i sv) in
  if idblock =? 0 then
    '(result, idblock, fs) ← sfs_balloc fs idblock;
    if negb (result =? 0) then Ok (result, [], sv, fs)
    else
      let sv := set_dirty true (set_i (set_indirect idblock (sv_i sv)) sv) in
      Ok (0, replicate 128 0, sv, fs)
  else
    '(result, data, fs) ← sfs_rblock fs idblock;
    Ok (result, words_of data, sv, fs).

(** The error code and [*diskblock] (0 when an error is returned). *)
Definition sfs_bmap sv (fileblock : Z) (doalloc : bool) fs : res (Z * Z * sfs_vnode * sfs_fs D) :=
  if fileblock <? SFS_NDIRECT then
    block ← load (sfi_direct (sv_i sv)) fileblock;
    if (block =? 0) && doalloc then
      '(result, block, fs) ← sfs_balloc fs block;
      if negb (result =? 0) then Ok (result, 0, sv, fs)
      else
        direct ← store (sfi_direct (sv_i sv)) fileblock block;
        bmap_return fs block (set_dirty true (set_i (set_direct direct (sv_i sv)) sv))
    else bmap_return fs block sv
  else
    let fileblock := u32 (fileblock - SFS_NDIRECT) in
    let idnum := fileblock / SFS_DBPERIDB in
    let idoff := fileblock `mod` SFS_DBPERIDB in
    if idnum >? 0 then Ok (EINVAL, 0, sv, fs)
    else if (sfi_indirect (sv_i sv) =? 0) && negb doalloc then Ok (0, 0, sv, fs)
    else
      '(result, idbuf, sv, fs) ← bmap_indirect sv fs;
      if negb (result =? 0) then Ok (result, 0, sv, fs)
      else
        block ← load idbuf idoff;
        if (block =? 0) && doalloc then
          '(result, block, fs) ← sfs_balloc fs block;
          if negb (result =? 0) then Ok (result, 0, sv, fs)
          else
            idbuf ← store idbuf idoff block;
            '(result, fs) ← sfs_wblock fs (word_bytes idbuf) (sfi_indirect (sv_i sv));
            if negb (result =? 0) then Ok (result, 0, sv, fs) else bmap_return fs block sv
        else bmap_return fs block sv.

(** ** File I/O *)

Definition sfs_partialio sv u (skipstart len : Z) fs : res (Z * uio * sfs_vnode * sfs_fs D) :=
  let doalloc := is_write u in
  _ ← assert (u32 (skipstart + len) <=? SFS_BLOCKSIZE);
  let fileblock := u32 (Z.quot (uio_offset u) SFS_BLOCKSIZE) in
  '(result, diskblock, sv, fs) ← sfs_bmap sv fileblock doalloc fs;
  if negb (result =? 0) then Ok (result, u, sv, fs)
  else
    '(result, iobuf, fs) ←
      (if diskblock =? 0 then
         _ ← assert (negb (is_write u));
         Ok (0, zeros, fs)
       else sfs_rblock fs diskblock);
    if negb (result =? 0) then Ok (result, u, sv, fs)
    else
      '(result, part, u) ← uiomove valid curspace (drop (Z.to_nat skipstart) iobuf) len u;
      let iobuf := take (Z.to_nat skipstart) iobuf ++ part in
      if negb (result =? 0) then Ok (result, u, sv, fs)
      else if is_write u then
        '(result, fs) ← sfs_wblock fs iobuf diskblock;
        Ok (result, u, sv, fs)
      else Ok (0, u, sv, fs).

Definition sfs_blockio sv u fs : res (Z * uio * sfs_vnode * sfs_fs D) :=
  let doalloc := is_write u in
  let fileblock := u32 (Z.quot (uio_offset u) SFS_BLOCKSIZE) in
  '(result, diskblock, sv, fs) ← sfs_bmap sv fileblock doalloc fs;
  if negb (result =? 0) then Ok (result, u, sv, fs)
  else if diskblock =? 0 then
    _ ← assert (negb (is_write u));
    '(result, u) ← uiomovezeros valid curspace SFS_BLOCKSIZE u;
    Ok (result, u, sv, fs)
  else
    let saveoff := uio_offset u in
    let diskoff := i32 (diskblock * SFS_BLOCKSIZE) in
    let u := with_offset diskoff u in
    _ ← assert (uio_resid u >=? SFS_BLOCKSIZE);
    let saveres := i32 (uio_resid u) in
    let diskres := SFS_BLOCKSIZE in
    let u := with_resid diskres u in
    '(result, u, fs) ← sfs_rwblock u fs;
    let u := with_offset (i32 (i32 (uio_offset u - diskoff) + saveoff)) u in
    let u := with_resid (u32 (u32 (uio_resid u - diskres) + saveres)) u in
    Ok (result, u, sv, fs).

(** The whole blocks in the middle, [n] of them. *)
Fixpoint blockio_loop (n : nat) sv u fs : res (Z * uio * sfs_vnode * sfs_fs D) :=
  match n with
  | O => Ok (0, u, sv, fs)
  | S n =>
      '(result, u, sv, fs) ← sfs_blockio sv u fs;
      if negb (result =? 0) then Ok (result, u, sv, fs) else blockio_loop n sv u fs
  end.

(** [sfs_io] between the check for EOF and the label [out]. *)
Definition sfs_io_blocks sv u fs : res (Z * uio * sfs_vnode * sfs_fs D) :=
  let blkoff := u32 (Z.rem (uio_offset u) SFS_BLOCKSIZE) in
  '(result, u, sv, fs) ←
    (if negb (blkoff =? 0) then
       let len := u32 (SFS_BLOCKSIZE - blkoff) in
       let len := if len >? uio_resid u then uio_resid u else len in
       sfs_partialio sv u blkoff len fs
     else Ok (0, u, sv, fs));
  if negb (result =? 0) then Ok (result, u, sv, fs)
  else if uio_resid u =? 0 then Ok (0, u, sv, fs)
  else
    _ ← assert (Z.rem (uio_offset u) SFS_BLOCKSIZE =? 0);
    '(result, u, sv, fs) ← blockio_loop (Z.to_nat (uio_resid u / SFS_BLOCKSIZE)) sv u fs;
    if negb (result =? 0) then Ok (result, u, sv, fs)
    else
      _ ← assert (uio_resid u <? SFS_BLOCKSIZE);
      if uio_resid u >? 0 then sfs_partialio sv u 0 (uio_resid u) fs
      else Ok (0, u, sv, fs).

(** From [out] on. *)
Definition sfs_io_out (result extraresid : Z) u sv fs : res (Z * uio * sfs_vnode * sfs_fs D) :=
  let sv :=
    if is_write u && (uio_offset u >? i32 (sfi_size (sv_i sv)))
    then set_dirty true (set_i (set_size (u32 (uio_offset u)) (sv_i sv)) sv) else sv in
  let u := with_resid (u32 (uio_resid u + extraresid)) u in
  Ok (result, u, sv, fs).

Definition sfs_io sv u fs : res (Z * uio * sfs_vnode * sfs_fs D) :=
  let size := i32 (sfi_size (sv_i sv)) in
  let endpos := i32 (uio_offset u + uio_resid u) in
  if negb (is_write u) && (uio_offset u >=? size) then Ok (0, u, sv, fs)
  else
    let extraresid := if negb (is_write u) && (endpos >? size) then u32 (endpos - size) else 0 in
    _ ← (if negb (is_write u) && (endpos >? size) then assert (uio_resid u >? extraresid) else Ok tt);
    let u := with_resid (u32 (uio_resid u - extraresid)) u in
    '(result, u, sv, fs) ← sfs_io_blocks sv u fs;
    sfs_io_out result extraresid u sv fs.
End sfs.

(** ** A write the disk fails *)

Lemma kuio_block data b rw :
  0 <= b -> (b + 1) * 512 < 2147483648 -> (rw = UIO_WRITE -> length data = 512%nat) ->
  forall valid curspace, block_uio valid curspace (mk_kuio data SFS_BLOCKSIZE (i32 (b * SFS_BLOCKSIZE)) rw) b.
Proof.
  intros Hb Hs Hd valid curspace. unfold block_uio, uio_wf, SFS_BLOCKSIZE; simpl. nowrap.
  split; [|done]. split; [lia|]. split; [lia|]. split; [lia|]. split; [|lia].
  intros Hw. unfold is_write in Hw; simpl in Hw. destruct rw; [done|]. rewrite Hd; done.
Qed.

(** A failed write is reported as done.  When the disk answers the first
    attempt to write a block with a media error, [sfs_wblock] returns 0, and
    the disk is left as that failed attempt left it: [lhd_io] has used up the
    uio before the disk fails, so the retry of [sfs_rwblock] asks for no
    sectors at all and succeeds. *)
Theorem sfs_wblock_loses_failed_write {H} `{DiskLaws H} valid curspace (fs : sfs_fs (lhd_softc H))
    data block st buf h :
  lhd_idle (sfs_device fs) -> length data = 512%nat -> 0 <= block < lh_blocks (sfs_device fs) ->
  hw_start block (Z.lor LHD_WORKING LHD_ISWRITE) data (lh_hw (sfs_device fs)) = (st, buf, h) ->
  Z.land st LHD_STATEMASK = LHD_MEDIA ->
  exists fs', sfs_wblock valid curspace fs data block = Ok (0, fs') /\ lh_hw (sfs_device fs') = h.
Proof.
  intros Hi Hlen Hb Hrun Hst. unfold sfs_wblock, sfs_rwblock.
  assert (lh_blocks (sfs_device fs) * 512 < 2147483648) as Hsm.
  { pose proof Hi as (_ & _ & _ & Hok & ->). by apply hw_small. }
  destruct (kuio_block data block UIO_WRITE ltac:(lia) ltac:(lia) (fun _ => Hlen) valid curspace)
    as (Hwf & Hr & Hres & Hoff).
  set (u := mk_kuio data SFS_BLOCKSIZE (i32 (block * SFS_BLOCKSIZE)) UIO_WRITE) in *.
  assert (take 512 (iov_data u) = data) as Htk by (apply take_ge; simpl; lia).
  edestruct (lhd_write_error valid curspace u (sfs_device fs) block) as (lh' & E & Hi' & Hh & Hbl);
    [done..|lia|done|lia|by rewrite Htk|done|].
  cbn [rwblock_try]. change (@d_io _ lhd_dev) with (@lhd_io H _). rewrite E, bind_Ok.
  change (EIO =? EINVAL) with false. change (EIO =? EIO) with true. cbn iota.
  cbn [rwblock_try]. change (@d_io _ lhd_dev) with (@lhd_io H _).
  rewrite (lhd_io_loop valid curspace _ _ (block + 1) 0).
  - cbn [lhd_loop]. rewrite !bind_Ok. change (0 =? EINVAL) with false. change (0 =? EIO) with false.
    cbn iota. rewrite bind_Ok. eexists. split; [reflexivity|]. done.
  - apply advance_wf; [done|rewrite Hres; lia|done].
  - simpl in *. lia.
  - simpl in *. lia.
  - lia.
  - simpl. lia.
Qed.

(** ** Files on a reliable device *)

(** Block [b] of the device, and what file offsets that map to block number
    [b] hold. *)
Definition blk (S : list (list Z)) (b : Z) : list Z := S !!! Z.to_nat b.
Definition cell (S : list (list Z)) (b : Z) : list Z := if b =? 0 then zeros else blk S b.

(** The block map of a file: the direct blocks, then those of the indirect
    block. *)
Definition mapping (sv : sfs_vnode) (S : list (list Z)) : list Z :=
  sfi_direct (sv_i sv) ++
  (if sfi_indirect (sv_i sv) =? 0 then replicate 128 0
   else words_of (blk S (sfi_indirect (sv_i sv)))).

(** Every block number the file has, the indirect block first. *)
Definition ptrs (sv : sfs_vnode) (S : list (list Z)) : list Z :=
  sfi_indirect (sv_i sv) :: mapping sv S.

(** The contents of the blocks of the file, and all its bytes. *)
Definition content (sv : sfs_vnode) (S : list (list Z)) : list (list Z) := cell S <$> mapping sv S.
Definition flat (sv : sfs_vnode) (S : list (list Z)) : list Z := concat (content sv S).

(** Nonzero elements appear once. *)
Definition distinct (l : list Z) : Prop :=
  forall i j b, b <> 0 -> l !! i = Some b -> l !! j = Some b -> i = j.

Lemma distinct_insert l k b :
  distinct l -> b ∉ l -> distinct (<[k := b]> l).
Proof.
  intros Hd Hb i j c Hc Hi Hj.
  apply list_lookup_insert_Some in Hi as [(-> & <- & _)|[Hik Hi]];
    apply list_lookup_insert_Some in Hj as [(-> & E & _)|[Hjk Hj]]; subst; try done.
  - by apply list_elem_of_lookup_2 in Hj.
  - by apply list_elem_of_lookup_2 in Hi.
  - by eapply Hd.
Qed.

Section view.
Context {D : Type} `{!BlockDev D} `{!ReliableDev D}.
Context (valid : Z -> bool) (curspace : option Z).
Implicit Types (fs : sfs_fs D) (sv : sfs_vnode) (u : uio) (S : list (list Z)).

Abbreviation sectors fs := (dev_sectors (sfs_device fs)).
Abbreviation bit fs := (bm_bit (sfs_freemap fs)).
Abbreviation nblocks fs := (sp_nblocks (sfs_sb fs)).

(** The free map covers the device, blocks past the end of the file system
    and the superblock are in use. *)
Definition fs_ok fs : Prop :=
  dev_ok (sfs_device fs) /\ 0 < nblocks fs <= d_blocks (sfs_device fs) /\
  bm_wf (sfs_freemap fs) /\ nblocks fs <= bm_nbits (sfs_freemap fs) /\
  (forall i, nblocks fs <= i < bm_nbits (sfs_freemap fs) -> bit fs i = true) /\
  bit fs 0 = true.

(** The blocks of a file exist, are in use, and are all different. *)
Definition file_ok sv fs : Prop :=
  length (sfi_direct (sv_i sv)) = 15%nat /\ 0 <= sfi_size (sv_i sv) < 2147483648 /\
  Forall (fun b => 0 <= b < nblocks fs /\ bit fs b = true) (ptrs sv (sectors fs)) /\
  distinct (ptrs sv (sectors fs)).

Lemma fs_small fs b : fs_ok fs -> 0 <= b < nblocks fs -> (b + 1) * 512 < 2147483648.
Proof. intros (Hd & Hn & _) Hb. pose proof (dev_small _ Hd). lia. Qed.

Lemma fs_sector fs b : fs_ok fs -> 0 <= b < nblocks fs ->
  sectors fs !! Z.to_nat b = Some (blk (sectors fs) b) /\ length (blk (sectors fs) b) = 512%nat.
Proof.
  intros (Hd & Hn & _) Hb. pose proof (dev_size _ Hd).
  destruct (lookup_lt_is_Some_2 (sectors fs) (Z.to_nat b)) as [x Hx]; [lia|].
  unfold blk. rewrite (list_lookup_total_correct _ _ _ Hx). split; [done|].
  pose proof (dev_sector_size _ Hd) as Hf. by eapply Forall_lookup_1 in Hf.
Qed.

Lemma length_mapping sv fs : fs_ok fs -> file_ok sv fs -> length (mapping sv (sectors fs)) = 143%nat.
Proof.
  intros Hfs (Hl & _ & Hp & _). unfold mapping. rewrite length_app, Hl.
  destruct (Z.eqb_spec (sfi_indirect (sv_i sv)) 0); [done|].
  apply Forall_cons_1 in Hp as [[Hb _] _]. destruct (fs_sector fs _ Hfs Hb) as [_ Hlen].
  by rewrite (length_words_of 128).
Qed.

Lemma ptrs_ok sv fs b :
  file_ok sv fs -> b ∈ ptrs sv (sectors fs) -> 0 <= b < nblocks fs /\ bit fs b = true.
Proof. intros (_ & _ & Hp & _) Hb. rewrite Forall_forall in Hp. by apply Hp. Qed.

Lemma fs_ok_dev fs d :
  fs_ok fs -> dev_ok d -> d_blocks d = d_blocks (sfs_device fs) -> fs_ok (set_dev d fs).
Proof.
  intros (Hd & Hn & Hrest) Hd' Hb. unfold fs_ok; simpl. rewrite Hb. split; [done|]. by split.
Qed.

(** *** Block I/O *)

Lemma rwblock_ok u fs u' d :
  d_io valid curspace u (sfs_device fs) = Ok (0, u', d) ->
  sfs_rwblock valid curspace u fs = Ok (0, u', set_dev d fs).
Proof. intros E. unfold sfs_rwblock. cbn [rwblock_try]. rewrite E, bind_Ok. done. Qed.

Lemma sfs_rblock_dev fs b x :
  dev_ok (sfs_device fs) -> 0 <= b -> sectors fs !! Z.to_nat b = Some x ->
  exists d, sfs_rblock valid curspace fs b = Ok (0, x, set_dev d fs) /\
    dev_ok d /\ dev_sectors d = sectors fs /\ d_blocks d = d_blocks (sfs_device fs).
Proof.
  intros Hd Hb Hx. apply lookup_lt_Some in Hx as Hlt. pose proof (dev_size _ Hd). pose proof (dev_small _ Hd).
  pose proof (kuio_block [] b UIO_READ Hb ltac:(lia) ltac:(done) valid curspace) as Hu.
  destruct (dev_read _ _ _ b _ _ Hd Hu eq_refl Hb Hx) as (d & E & Hd' & Hs & Hbl).
  exists d. unfold sfs_rblock. by rewrite (rwblock_ok _ _ _ _ E), bind_Ok.
Qed.

Lemma sfs_rblock_spec fs b :
  fs_ok fs -> 0 <= b < nblocks fs ->
  exists d, sfs_rblock valid curspace fs b = Ok (0, blk (sectors fs) b, set_dev d fs) /\
    fs_ok (set_dev d fs) /\ dev_sectors d = sectors fs.
Proof.
  intros Hfs Hb. destruct (fs_sector fs b Hfs Hb) as [Hlk _]. pose proof Hfs as (Hd & _).
  destruct (sfs_rblock_dev fs b _ Hd ltac:(lia) Hlk) as (d & E & Hd' & Hs & Hbl).
  exists d. split; [done|]. split; [by apply fs_ok_dev|done].
Qed.

Lemma sfs_wblock_spec fs data b :
  fs_ok fs -> 0 <= b < nblocks fs -> length data = 512%nat ->
  exists d, sfs_wblock valid curspace fs data b = Ok (0, set_dev d fs) /\
    fs_ok (set_dev d fs) /\ dev_sectors d = <[Z.to_nat b := data]> (sectors fs).
Proof.
  intros Hfs Hb Hl. pose proof (fs_small fs b Hfs Hb) as Hsm.
  pose proof (kuio_block data b UIO_WRITE ltac:(lia) Hsm ltac:(done) valid curspace) as Hu.
  pose proof Hfs as (Hd & Hn & Hrest).
  destruct (dev_write _ _ _ b _ Hd Hu eq_refl ltac:(lia)) as (d & E & Hd' & Hs & Hbl).
  exists d. unfold sfs_wblock. rewrite (rwblock_ok _ _ _ _ E), bind_Ok. split; [done|].
  split; [by apply fs_ok_dev|]. rewrite Hs. simpl. by rewrite take_ge by lia.
Qed.

(** *** Allocation *)

(** [fs'] is [fs] with other contents of the device, the free map and the
    map's dirty flag. *)
Definition same_fs fs fs' : Prop :=
  sfs_sb fs' = sfs_sb fs /\ sfs_superdirty fs' = sfs_superdirty fs /\
  sfs_vnodes fs' = sfs_vnodes fs /\ sfs_mem fs' = sfs_mem fs /\
  (sfs_freemap fs' = sfs_freemap fs /\ sfs_freemapdirty fs' = sfs_freemapdirty fs \/
   sfs_freemapdirty fs' = true).

Lemma same_fs_refl fs : same_fs fs fs.
Proof. do 4 (split; [done|]). by left. Qed.
Lemma same_fs_dev fs d : same_fs fs (set_dev d fs).
Proof. do 4 (split; [done|]). by left. Qed.
Lemma same_fs_map fs b : same_fs fs (set_map b true fs).
Proof. do 4 (split; [done|]). by right. Qed.
Lemma same_fs_trans fs1 fs2 fs3 : same_fs fs1 fs2 -> same_fs fs2 fs3 -> same_fs fs1 fs3.
Proof.
  intros (?&?&?&?&Hm) (?&?&?&?&Hm'). do 4 (split; [congruence|]).
  destruct Hm as [[]|], Hm' as [[]|]; first [left; split; congruence | right; congruence].
Qed.

(** No block is free. *)
Definition disk_full fs : Prop := forall i, 0 <= i < nblocks fs -> bit fs i = true.

Lemma sfs_balloc_spec fs x :
  fs_ok fs ->
  (sfs_balloc valid curspace fs x = Ok (ENOSPC, x, fs) /\ disk_full fs) \/
  (exists b fs', sfs_balloc valid curspace fs x = Ok (0, b, fs') /\
     0 < b < nblocks fs /\ bit fs b = false /\ fs_ok fs' /\ same_fs fs fs' /\
     (forall j, 0 <= j -> bit fs' j = if j =? b then true else bit fs j) /\
     sectors fs' = <[Z.to_nat b := zeros]> (sectors fs)).
Proof.
  intros Hfs. pose proof Hfs as (Hd & Hn & Hwf & Hnb & Hover & H0). unfold sfs_balloc.
  destruct (bitmap_alloc_spec (sfs_freemap fs) x Hwf)
    as [[-> Hfull]|(b & bm & -> & ((Hb0 & Hb1) & Hclear & _) & Hwf' & Hn' & Hup)]; rewrite bind_Ok.
  - left. split; [|intros i Hi; apply Hfull; lia]. change (negb (ENOSPC =? 0)) with true. by destruct fs.
  - right. cbn [Z.eqb negb].
    assert (b <> 0) by (intros ->; congruence).
    assert (b < nblocks fs) by (destruct (Z.lt_ge_cases b (nblocks fs)); [done|]; rewrite Hover in Hclear; [done|lia]).
    cbn [sfs_sb set_map]. rewrite Z.geb_leb. destruct (Z.leb_spec (nblocks fs) b); [lia|].
    assert (fs_ok (set_map bm true fs)) as Hfs1.
    { unfold fs_ok; simpl. rewrite Hn'. split; [done|]. split; [done|]. split; [done|]. split; [done|].
      split; [|rewrite Hup by lia; by destruct (0 =? b)].
      intros i Hi. rewrite Hup by lia. rewrite Hover by lia. by destruct (i =? b). }
    destruct (sfs_wblock_spec (set_map bm true fs) zeros b) as (d & E & Hfs2 & Hs); [done|simpl; lia|done|].
    exists b, (set_dev d (set_map bm true fs)). unfold sfs_clearblock. rewrite E, bind_Ok.
    split; [done|]. split; [lia|]. split; [done|]. split; [done|].
    split; [eapply same_fs_trans; [apply same_fs_map|apply same_fs_dev]|]. done.
Qed.

Lemma sfs_bused_spec fs b :
  fs_ok fs -> 0 <= b < nblocks fs -> sfs_bused fs b = Ok (bit fs b).
Proof.
  intros (_ & Hn & Hwf & Hnb & _) Hb. unfold sfs_bused. rewrite Z.geb_leb.
  destruct (Z.leb_spec (nblocks fs) b); [lia|].
  destruct (bitmap_isset_spec (sfs_freemap fs) b) as (z & -> & Hz); [done|lia|].
  rewrite bind_Ok, Hz. by destruct (bit fs b).
Qed.

Lemma sfs_bfree_spec fs b :
  fs_ok fs -> 0 < b < nblocks fs -> bit fs b = true ->
  exists fs', sfs_bfree fs b = Ok fs' /\ fs_ok fs' /\ same_fs fs fs' /\
    sfs_device fs' = sfs_device fs /\
    (forall j, 0 <= j -> bit fs' j = if j =? b then false else bit fs j).
Proof.
  intros Hfs Hb Hset. pose proof Hfs as (Hd & Hn & Hwf & Hnb & Hover & H0). unfold sfs_bfree.
  destruct (bitmap_unmark_spec (sfs_freemap fs) b) as (bm & -> & Hwf' & Hn' & Hup); [done|lia|done|].
  rewrite bind_Ok. exists (set_map bm true fs). split; [done|].
  split; [|split; [apply same_fs_map|done]].
  unfold fs_ok; simpl. rewrite Hn'. do 4 (split; [done|]).
  split; [|rewrite Hup by lia; destruct (Z.eqb_spec 0 b); [lia|done]].
  intros i Hi. rewrite Hup by lia. destruct (Z.eqb_spec i b); [lia|by apply Hover].
Qed.

(** *** Growth *)

(** [sv'] is [sv] with other blocks or another size. *)
Definition same_file sv sv' : Prop :=
  sv_v sv' = sv_v sv /\ sv_ino sv' = sv_ino sv /\
  sfi_type (sv_i sv') = sfi_type (sv_i sv) /\
  sfi_linkcount (sv_i sv') = sfi_linkcount (sv_i sv) /\
  sfi_waste (sv_i sv') = sfi_waste (sv_i sv) /\
  (sv' = sv \/ sv_dirty sv' = true).

Lemma same_file_refl sv : same_file sv sv.
Proof. do 5 (split; [done|]). by left. Qed.
Lemma same_file_trans sv1 sv2 sv3 : same_file sv1 sv2 -> same_file sv2 sv3 -> same_file sv1 sv3.
Proof.
  intros (?&?&?&?&?&Hd) (?&?&?&?&?&Hd'). do 5 (split; [congruence|]).
  destruct Hd' as [->|]; [done|by right].
Qed.

(** The file system after an operation that works on the file [sv] only:
    the blocks the file gained were free, no block was given back, and no
    block in use outside the file was written. *)
Record grows sv fs sv' fs' : Prop := {
  gr_fs : fs_ok fs';
  gr_file : file_ok sv' fs';
  gr_same : same_fs fs fs';
  gr_sv : same_file sv sv';
  gr_bits : forall j, 0 <= j -> bit fs j = true -> bit fs' j = true;
  gr_ptrs : forall j, 0 < j ->
    j ∈ ptrs sv' (sectors fs') <-> j ∈ ptrs sv (sectors fs) \/ bit fs j = false /\ bit fs' j = true;
  gr_frame : forall j, 0 <= j -> bit fs j = true -> (j ∈ ptrs sv (sectors fs) -> j = 0) ->
    sectors fs' !! Z.to_nat j = sectors fs !! Z.to_nat j;
}.

Lemma grows_refl sv fs : fs_ok fs -> file_ok sv fs -> grows sv fs sv fs.
Proof.
  intros. constructor; auto using same_fs_refl, same_file_refl.
  intros j _. split; [auto|]. intros [?|[]]; [done|congruence].
Qed.

Lemma grows_trans sv1 fs1 sv2 fs2 sv3 fs3 :
  grows sv1 fs1 sv2 fs2 -> grows sv2 fs2 sv3 fs3 -> grows sv1 fs1 sv3 fs3.
Proof.
  clear valid curspace. intros [A1 A2 A3 A4 A5 A6 A7] [B1 B2 B3 B4 B5 B6 B7].
  constructor; eauto using same_fs_trans, same_file_trans.
  - intros j Hj. rewrite B6, A6 by done. specialize (A5 j). specialize (B5 j).
    destruct (bit fs1 j), (bit fs2 j), (bit fs3 j); naive_solver lia.
  - intros j Hj Hb Hn. rewrite B7, A7; auto. intros Hin.
    destruct (decide (j = 0)) as [|Hj0]; [done|].
    apply A6 in Hin as [?|[]]; [auto|congruence|lia].
Qed.

Lemma mapping_ext sv S S' :
  (sfi_indirect (sv_i sv) <> 0 ->
   S' !! Z.to_nat (sfi_indirect (sv_i sv)) = S !! Z.to_nat (sfi_indirect (sv_i sv))) ->
  mapping sv S' = mapping sv S.
Proof.
  intros HS. unfold mapping. destruct (Z.eqb_spec (sfi_indirect (sv_i sv)) 0); [done|].
  unfold blk. by rewrite !list_lookup_total_alt, HS.
Qed.

Lemma cell_ext S S' b :
  (b <> 0 -> S' !! Z.to_nat b = S !! Z.to_nat b) -> cell S' b = cell S b.
Proof.
  intros HS. unfold cell, blk. destruct (Z.eqb_spec b 0); [done|]. by rewrite !list_lookup_total_alt, HS.
Qed.

Lemma cell_lookup S b x : b <> 0 -> S !! Z.to_nat b = Some x -> cell S b = x.
Proof.
  intros Hb Hx. unfold cell, blk. destruct (Z.eqb_spec b 0); [done|]. by apply list_lookup_total_correct.
Qed.

Lemma ptrs_data sv fs i b :
  file_ok sv fs -> mapping sv (sectors fs) !! i = Some b -> b <> 0 ->
  b <> sfi_indirect (sv_i sv) /\ (forall j, mapping sv (sectors fs) !! j = Some b -> j = i).
Proof.
  intros (_ & _ & _ & Hd) Hi Hb. split.
  - intros ->. by specialize (Hd (Datatypes.S i) 0%nat _ Hb Hi eq_refl).
  - intros j Hj. specialize (Hd (Datatypes.S j) (Datatypes.S i) b Hb Hj Hi). lia.
Qed.

(** Where a hole of the block map is filled with a zeroed, formerly free
    block, the file grows and its contents stay. *)
Lemma grows_alloc sv fs sv' fs' k b :
  fs_ok fs -> file_ok sv fs -> fs_ok fs' -> same_fs fs fs' -> same_file sv sv' ->
  0 < b < nblocks fs -> bit fs b = false ->
  (forall j, 0 <= j -> bit fs' j = if j =? b then true else bit fs j) ->
  ptrs sv (sectors fs) !! k = Some 0 -> ptrs sv' (sectors fs') = <[k := b]> (ptrs sv (sectors fs)) ->
  sectors fs' !! Z.to_nat b = Some zeros ->
  (forall j, 0 <= j -> j <> b -> (j = sfi_indirect (sv_i sv) -> j = 0) ->
     sectors fs' !! Z.to_nat j = sectors fs !! Z.to_nat j) ->
  length (sfi_direct (sv_i sv')) = 15%nat -> sfi_size (sv_i sv') = sfi_size (sv_i sv) ->
  grows sv fs sv' fs' /\ content sv' (sectors fs') = content sv (sectors fs).
Proof.
  intros Hfs Hf Hfs' Hsame Hsv Hb Hclear Hup Hk Hptrs Hzero HS Hlen Hsize.
  assert (b ∉ ptrs sv (sectors fs)) as Hfresh.
  { intros Hin. apply (ptrs_ok _ _ _ Hf) in Hin as [_ ?]. congruence. }
  assert (nblocks fs' = nblocks fs) as Hnb by (by destruct Hsame as (-> & _)).
  split; [|].
  - constructor; try done.
    + pose proof Hf as (_ & Hsz & Hp & Hdist). split; [done|]. split; [by rewrite Hsize|].
      rewrite Hptrs, Hnb. split; [|by apply distinct_insert].
      apply Forall_insert.
      * eapply Forall_impl; [done|]. intros x [Hx Hbit]. split; [done|].
        rewrite Hup, Hbit by lia. by destruct (x =? b).
      * rewrite Hup, Z.eqb_refl by lia. split; [lia|done].
    + intros j Hj Hbit. rewrite Hup, Hbit by done. by destruct (j =? b).
    + intros j Hj. rewrite Hptrs, Hup by lia. destruct (Z.eqb_spec j b) as [->|Hne].
      * split; [auto|]. intros _. apply list_elem_of_lookup. exists k.
        apply list_lookup_insert_eq. by eapply lookup_lt_Some.
      * rewrite !list_elem_of_lookup. split.
        -- intros [i Hi]. apply list_lookup_insert_Some in Hi as [(_ & ? & _)|[_ Hi]]; [done|eauto].
        -- intros [[i Hi]|[]]; [|congruence]. exists i. rewrite list_lookup_insert_ne; [done|].
           intros ->. rewrite Hk in Hi. injection Hi. lia.
    + intros j Hj Hbit Hnin. apply HS; [done|congruence|].
      intros ->. apply Hnin. left.
  - unfold content. apply list_eq. intros i. rewrite !list_lookup_fmap.
    assert (mapping sv' (sectors fs') !! i = <[k := b]> (ptrs sv (sectors fs)) !! Datatypes.S i) as ->
      by (by rewrite <- Hptrs).
    destruct (decide (k = Datatypes.S i)) as [->|Hne].
    + rewrite list_lookup_insert_eq by (by eapply lookup_lt_Some).
      change (mapping sv (sectors fs) !! i = Some 0) in Hk. rewrite Hk. simpl. f_equal.
      apply cell_lookup; [lia|done].
    + rewrite list_lookup_insert_ne by done. unfold ptrs. simpl.
      destruct (mapping sv (sectors fs) !! i) as [x|] eqn:Hi; [|done]. simpl. f_equal.
      apply cell_ext. intros Hx. destruct (ptrs_data _ _ _ _ Hf Hi Hx) as [Hxi _].
      destruct (ptrs_ok _ _ x Hf) as [Hx0 Hxb]; [right; by eapply list_elem_of_lookup_2|].
      apply HS; [lia|congruence|done].
Qed.
End view.

(** A disk of three sectors that fails its next operation. *)
Definition bad3 : lhd_softc ramdisk :=
  mk_lhd (replicate 512 0) 0 1 0 3 0 0 (mk_ramdisk (rd_sectors rd3) [true]).
Definition fs3 : sfs_fs (lhd_softc ramdisk) :=
  mk_sfs (mk_super SFS_MAGIC 3 (replicate 32 0) (replicate 118 0)) false bad3 (mk_array 0 0 None)
    (mk_bitmap 3 [255]) false ∅.

Lemma sfs_wblock_loses_failed_write_witness :
  exists fs', sfs_wblock (fun _ => true) None fs3 (replicate 512 9) 1 = Ok (0, fs') /\
    lh_hw (sfs_device fs') = mk_ramdisk (rd_sectors rd3) [].
Proof.
  apply (@sfs_wblock_loses_failed_write ramdisk _ (ramdisk_laws true) (fun _ => true) None fs3
           (replicate 512 9) 1 LHD_MEDIA (replicate 512 9) (mk_ramdisk (rd_sectors rd3) [])).
  - split; [reflexivity|]. split; [reflexivity|]. split; [reflexivity|].
    split; [|reflexivity]. split; [exact rd3_ok|discriminate].
  - reflexivity.
  - simpl. lia.
  - vm_compute. reflexivity.
  - reflexivity.
Defined.
