(* ===== verification/SfsFile.v ===== *)
(** * SFS files: what block mapping and file I/O do

    The functions of SfsIo.v on a reliable device, in terms of the abstract
    view of a file: its block map, the contents of its 143 blocks, and the
    bytes they make up. *)
From stdpp Require Import base numbers list option gmap.
From S2P Require Import Prelude KArray Bitmap Uio Device Lhd SfsDisk Vnode SfsIo.
Local Open Scope Z_scope.

(** ** Bytes of a list of blocks *)

Lemma take_drop_mid {A} (a b c : list A) k n :
  (k + n <= length b)%nat -> take n (drop (length a + k) (a ++ b ++ c)) = take n (drop k b).
Proof.
  intros Hn. rewrite <- drop_drop, drop_app_length, drop_app_le, take_app_le; [done|..];
    rewrite ?length_drop; lia.
Qed.

Lemma splice_mid (a b c d : list Z) k :
  (k + length d <= length b)%nat -> splice (a ++ b ++ c) (length a + k) d = a ++ splice b k d ++ c.
Proof.
  intros Hn. unfold splice. rewrite take_app_add, take_app_le by lia.
  replace (length a + k + length d)%nat with (length a + (k + length d))%nat by lia.
  rewrite drop_app_add, drop_app_le by lia. by rewrite <- !app_assoc.
Qed.

Lemma length_concat_blocks (L : list (list Z)) :
  Forall (fun b => length b = 512%nat) L -> length (concat L) = (512 * length L)%nat.
Proof. induction 1 as [|b L Hb _ IH]; [done|]. simpl. rewrite length_app, IH, Hb. lia. Qed.

Lemma concat_block_read (L : list (list Z)) k b s n :
  Forall (fun b => length b = 512%nat) L -> L !! k = Some b -> (s + n <= 512)%nat ->
  take n (drop (512 * k + s) (concat L)) = take n (drop s b).
Proof.
  intros HL Hk Hn. pose proof Hk as Hb. eapply Forall_lookup_1 in Hb; [|exact HL].
  rewrite <- (take_drop_middle _ _ _ Hk), concat_app. cbn [concat].
  replace (512 * k)%nat with (length (concat (take k L))).
  - apply take_drop_mid. rewrite Hb. lia.
  - rewrite length_concat_blocks by (by apply Forall_take). rewrite length_take_le; [done|].
    apply lookup_lt_Some in Hk. lia.
Qed.

Lemma concat_block_write (L : list (list Z)) k b s d :
  Forall (fun b => length b = 512%nat) L -> L !! k = Some b -> (s + length d <= 512)%nat ->
  concat (<[k := splice b s d]> L) = splice (concat L) (512 * k + s) d.
Proof.
  intros HL Hk Hn. pose proof Hk as Hb. eapply Forall_lookup_1 in Hb; [|exact HL].
  rewrite insert_take_drop by (by eapply lookup_lt_Some).
  rewrite <- (take_drop_middle _ _ _ Hk) at 3. rewrite !concat_app. cbn [concat].
  replace (512 * k)%nat with (length (concat (take k L))).
  - rewrite splice_mid; [done|]. rewrite Hb. lia.
  - rewrite length_concat_blocks by (by apply Forall_take). rewrite length_take_le; [done|].
    apply lookup_lt_Some in Hk. lia.
Qed.

Section file.
Context {D : Type} `{!BlockDev D} `{!ReliableDev D}.
Context (valid : Z -> bool) (curspace : option Z).
Implicit Types (fs : sfs_fs D) (sv : sfs_vnode) (u : uio) (S : list (list Z)).

Abbreviation sectors fs := (dev_sectors (sfs_device fs)).
Abbreviation bit fs := (bm_bit (sfs_freemap fs)).
Abbreviation nblocks fs := (sp_nblocks (sfs_sb fs)).

(** ** sfs_bmap *)

Lemma bmap_return_spec sv fs b :
  fs_ok fs -> file_ok sv fs -> b ∈ ptrs sv (sectors fs) ->
  bmap_return fs b sv = Ok (0, b, sv, fs).
Proof.
  intros Hfs Hf Hb. unfold bmap_return. destruct (Z.eqb_spec b 0) as [->|]; [done|].
  destruct (ptrs_ok _ _ _ Hf Hb) as [Hr Hbit]. by rewrite sfs_bused_spec, bind_Ok, Hbit.
Qed.

(** A read changes nothing of the file. *)
Lemma grows_read sv fs d :
  fs_ok fs -> file_ok sv fs -> fs_ok (set_dev d fs) -> dev_sectors d = sectors fs ->
  grows sv fs sv (set_dev d fs).
Proof.
  intros Hfs Hf Hfs' Hs. unfold file_ok in *. constructor; simpl; rewrite ?Hs; try done.
  - unfold file_ok; simpl. by rewrite Hs.
  - apply same_fs_dev.
  - apply same_file_refl.
  - intros j _. split; [auto|]. intros [?|[]]; [done|congruence].
Qed.

(** The block map of a file with an indirect block. *)
Lemma mapping_indirect sv S :
  sfi_indirect (sv_i sv) <> 0 ->
  mapping sv S = sfi_direct (sv_i sv) ++ words_of (blk S (sfi_indirect (sv_i sv))).
Proof. intros Hi. unfold mapping. by destruct (Z.eqb_spec (sfi_indirect (sv_i sv)) 0). Qed.

Lemma bmap_indirect_spec sv fs :
  fs_ok fs -> file_ok sv fs ->
  exists r idbuf sv' fs', bmap_indirect valid curspace sv fs = Ok (r, idbuf, sv', fs') /\
    grows sv fs sv' fs' /\ content sv' (sectors fs') = content sv (sectors fs) /\
    mapping sv' (sectors fs') = mapping sv (sectors fs) /\
    sfi_size (sv_i sv') = sfi_size (sv_i sv) /\
    (r = 0 /\ sfi_indirect (sv_i sv') <> 0 /\ idbuf = words_of (blk (sectors fs') (sfi_indirect (sv_i sv'))) /\
       (sfi_indirect (sv_i sv) <> 0 -> sv' = sv /\ sectors fs' = sectors fs) \/
     r = ENOSPC /\ disk_full fs' /\ sfi_indirect (sv_i sv) = 0).
Proof.
  intros Hfs Hf. unfold bmap_indirect. destruct (Z.eqb_spec (sfi_indirect (sv_i sv)) 0) as [E0|Hne].
  - destruct (sfs_balloc_spec valid curspace fs (sfi_indirect (sv_i sv)) Hfs)
      as [[-> Hfull]|(b & fs' & -> & Hb & Hclear & Hfs' & Hsame & Hup & Hs)]; rewrite bind_Ok.
    + change (negb (ENOSPC =? 0)) with true. do 4 eexists. split; [reflexivity|].
      split; [by apply grows_refl|]. eauto 10.
    + cbn [Z.eqb negb].
      set (sv' := set_dirty true (set_i (set_indirect b (sv_i sv)) sv)).
      destruct (fs_sector fs b Hfs) as [Hlk _]; [lia|].
      assert (sectors fs' !! Z.to_nat b = Some zeros) as Hz.
      { rewrite Hs. apply list_lookup_insert_eq. by eapply lookup_lt_Some. }
      assert (blk (sectors fs') b = zeros) as Hbz by (unfold blk; by apply list_lookup_total_correct).
      assert (mapping sv' (sectors fs') = mapping sv (sectors fs)) as Hmap.
      { rewrite mapping_indirect by (simpl; lia). unfold sv'; simpl. rewrite Hbz.
        unfold mapping. rewrite E0. simpl. done. }
      destruct (grows_alloc sv fs sv' fs' 0 b) as [Hg Hc]; try done.
      * do 5 (split; [done|]). by right.
      * unfold ptrs. by rewrite E0.
      * unfold ptrs at 1. by rewrite Hmap.
      * intros j Hj Hjb _. rewrite Hs. apply list_lookup_insert_ne. lia.
      * by destruct Hf.
      * do 4 eexists. split; [reflexivity|]. split; [exact Hg|]. split; [exact Hc|].
        split; [exact Hmap|]. split; [done|]. left. split; [done|]. split; [simpl; lia|].
        split; [|done]. cbn [sfi_indirect sv_i sv' set_dirty set_i set_indirect]. by rewrite Hbz.
  - destruct (ptrs_ok sv fs (sfi_indirect (sv_i sv)) Hf) as [Hr _]; [left|].
    destruct (sfs_rblock_spec valid curspace fs _ Hfs Hr) as (d & -> & Hfs' & Hs).
    rewrite bind_Ok. do 4 eexists. split; [reflexivity|].
    split; [by apply grows_read|]. simpl. rewrite Hs. do 3 (split; [done|]). by left.
Qed.

(** What [sfs_bmap] promises for a file block that can exist. *)
Definition bmap_post sv fs (fb : Z) (doalloc : bool) (out : res (Z * Z * sfs_vnode * sfs_fs D)) : Prop :=
  exists r b sv' fs', out = Ok (r, b, sv', fs') /\
    grows sv fs sv' fs' /\ content sv' (sectors fs') = content sv (sectors fs) /\
    sfi_size (sv_i sv') = sfi_size (sv_i sv) /\
    (doalloc = false -> r = 0 /\ sv' = sv /\ sectors fs' = sectors fs) /\
    (r = 0 /\ mapping sv' (sectors fs') !! Z.to_nat fb = Some b /\ (doalloc = true -> b <> 0) \/
     r = ENOSPC /\ disk_full fs').

Lemma bmap_found sv fs fb doalloc b :
  fs_ok fs -> file_ok sv fs -> mapping sv (sectors fs) !! Z.to_nat fb = Some b ->
  (doalloc = true -> b <> 0) -> bmap_post sv fs fb doalloc (bmap_return fs b sv).
Proof.
  intros Hfs Hf Hb Hd. rewrite bmap_return_spec; [|done..|right; by eapply list_elem_of_lookup_2].
  do 4 eexists. split; [reflexivity|]. split; [by apply grows_refl|]. eauto 10.
Qed.

Lemma sfs_bmap_direct sv fs fb doalloc :
  fs_ok fs -> file_ok sv fs -> 0 <= fb < 15 ->
  bmap_post sv fs fb doalloc (sfs_bmap valid curspace sv fb doalloc fs).
Proof.
  intros Hfs Hf Hfb. pose proof Hf as (Hlen & _). unfold sfs_bmap, SFS_NDIRECT.
  destruct (Z.ltb_spec fb 15); [|lia].
  destruct (load_in_range (sfi_direct (sv_i sv)) fb) as (b0 & -> & Hb0); [lia|]. rewrite bind_Ok.
  assert (mapping sv (sectors fs) !! Z.to_nat fb = Some b0) as Hm by (unfold mapping; by rewrite lookup_app, Hb0).
  destruct (Z.eqb_spec b0 0) as [->|]; [|by apply bmap_found]. destruct doalloc; [|by apply bmap_found].
  cbn [andb].
  destruct (sfs_balloc_spec valid curspace fs 0 Hfs)
    as [[-> Hfull]|(b & fs' & -> & Hb & Hclear & Hfs' & Hsame & Hup & Hs)]; rewrite bind_Ok.
  { change (negb (ENOSPC =? 0)) with true. do 4 eexists. split; [reflexivity|].
    split; [by apply grows_refl|]. do 3 (split; [done|]). by right. }
  cbn [Z.eqb negb]. rewrite store_in_range, bind_Ok by lia.
  set (sv' := set_dirty true (set_i (set_direct (<[Z.to_nat fb := b]> (sfi_direct (sv_i sv))) (sv_i sv)) sv)).
  destruct (fs_sector fs b Hfs) as [Hlk _]; [lia|].
  assert (mapping sv' (sectors fs') = <[Z.to_nat fb := b]> (mapping sv (sectors fs))) as Hmap.
  { rewrite (mapping_ext sv' (sectors fs)).
    - unfold mapping; simpl. by rewrite insert_app_l by lia.
    - simpl. intros Hi. rewrite Hs. apply list_lookup_insert_ne.
      destruct (ptrs_ok sv fs (sfi_indirect (sv_i sv)) Hf) as [? ?]; [left|].
      intros ?. assert (b = sfi_indirect (sv_i sv)) by lia. congruence. }
  destruct (grows_alloc sv fs sv' fs' (Datatypes.S (Z.to_nat fb)) b) as [Hg Hc]; try done.
  - do 5 (split; [done|]). by right.
  - unfold ptrs at 1. by rewrite Hmap.
  - rewrite Hs. apply list_lookup_insert_eq. by eapply lookup_lt_Some.
  - intros j Hj Hjb _. rewrite Hs. apply list_lookup_insert_ne. lia.
  - simpl. by rewrite length_insert.
  - assert (mapping sv' (sectors fs') !! Z.to_nat fb = Some b) as Hm'.
    { rewrite Hmap. apply list_lookup_insert_eq. by eapply lookup_lt_Some. }
    rewrite bmap_return_spec; [|apply Hg..|right; by eapply list_elem_of_lookup_2].
    do 4 eexists. split; [reflexivity|]. split; [done|]. split; [done|]. split; [done|].
    split; [done|]. left. split; [done|]. split; [done|lia].
Qed.

Lemma bmap_post_trans sv fs sv1 fs1 fb doalloc out :
  grows sv fs sv1 fs1 -> content sv1 (sectors fs1) = content sv (sectors fs) ->
  sfi_size (sv_i sv1) = sfi_size (sv_i sv) ->
  (doalloc = false -> sv1 = sv /\ sectors fs1 = sectors fs) ->
  bmap_post sv1 fs1 fb doalloc out -> bmap_post sv fs fb doalloc out.
Proof.
  intros Hg Hc Hsz Hno (r & b & sv' & fs' & -> & Hg' & Hc' & Hsz' & Hno' & Hcase).
  do 4 eexists. split; [reflexivity|]. split; [by eapply grows_trans|]. split; [congruence|].
  split; [congruence|]. split; [|done]. intros E.
  destruct (Hno E) as [-> HS], (Hno' E) as (? & ? & HS'). split; [done|]. split; [done|]. by rewrite HS'.
Qed.

Lemma entries_u32 sv fs :
  fs_ok fs -> file_ok sv fs -> sfi_indirect (sv_i sv) <> 0 ->
  let ws := words_of (blk (sectors fs) (sfi_indirect (sv_i sv))) in
  Forall is_u32 ws /\ length ws = 128%nat.
Proof.
  intros Hfs Hf Hi. pose proof (length_mapping sv fs Hfs Hf) as Hl.
  pose proof Hf as (Hd & _ & Hp & _). unfold ptrs in Hp. rewrite mapping_indirect, length_app in * by done.
  split; [|simpl; lia]. apply Forall_cons_1 in Hp as [_ Hp]. apply Forall_app in Hp as [_ Hp].
  eapply Forall_impl; [done|]. intros x [Hx _]. pose proof (fs_small fs x Hfs Hx). unfold is_u32. lia.
Qed.

(** A hole of the indirect block is filled. *)
Lemma bmap_fill sv fs j :
  fs_ok fs -> file_ok sv fs -> sfi_indirect (sv_i sv) <> 0 ->
  0 <= j -> words_of (blk (sectors fs) (sfi_indirect (sv_i sv))) !! Z.to_nat j = Some 0 ->
  bmap_post sv fs (15 + j) true
    ('(result, block, fs1) ← sfs_balloc valid curspace fs 0;
     if negb (result =? 0) then Ok (result, 0, sv, fs1)
     else
       idbuf ← store (words_of (blk (sectors fs) (sfi_indirect (sv_i sv)))) j block;
       '(result, fs1) ← sfs_wblock valid curspace fs1 (word_bytes idbuf) (sfi_indirect (sv_i sv));
       if negb (result =? 0) then Ok (result, 0, sv, fs1) else bmap_return fs1 block sv).
Proof.
  intros Hfs Hf Hi Hj0 Hj. set (id := sfi_indirect (sv_i sv)) in *.
  set (ws := words_of (blk (sectors fs) id)) in *.
  destruct (entries_u32 sv fs Hfs Hf Hi) as [Hws Hlen]. fold id ws in Hws, Hlen.
  pose proof (lookup_lt_Some _ _ _ Hj) as Hlt.
  destruct (ptrs_ok sv fs id Hf) as [Hidr Hidb]; [left|].
  destruct (sfs_balloc_spec valid curspace fs 0 Hfs)
    as [[-> Hfull]|(b & fs1 & -> & Hb & Hclear & Hfs1 & Hsame & Hup & Hs)]; rewrite bind_Ok.
  { change (negb (ENOSPC =? 0)) with true. do 4 eexists. split; [reflexivity|].
    split; [by apply grows_refl|]. do 3 (split; [done|]). by right. }
  cbn [Z.eqb negb]. rewrite store_in_range, bind_Ok by lia.
  assert (nblocks fs1 = nblocks fs) as Hnb by (by destruct Hsame as (-> & _)).
  assert (b <> id) by congruence.
  pose proof (fs_small fs b Hfs ltac:(lia)).
  destruct (sfs_wblock_spec valid curspace fs1 (word_bytes (<[Z.to_nat j := b]> ws)) id)
    as (d & -> & Hfs2 & Hs2); [done|lia|rewrite length_word_bytes, length_insert; lia|].
  rewrite bind_Ok. cbn [Z.eqb negb]. set (fs2 := set_dev d fs1) in *.
  destruct (fs_sector fs b Hfs) as [Hlk _]; [lia|]. destruct (fs_sector fs id Hfs Hidr) as [Hlki _].
  assert (sectors fs2 !! Z.to_nat id = Some (word_bytes (<[Z.to_nat j := b]> ws))) as Hid2.
  { simpl. rewrite Hs2. apply list_lookup_insert_eq. rewrite Hs, length_insert. by eapply lookup_lt_Some. }
  assert (mapping sv (sectors fs2) = <[Z.to_nat (15 + j) := b]> (mapping sv (sectors fs))) as Hmap.
  { rewrite !mapping_indirect by done. unfold blk at 1. fold id.
    rewrite (list_lookup_total_correct _ _ _ Hid2), words_of_bytes.
    - pose proof Hf as (Hd & _). rewrite insert_app_r_alt by lia. fold ws. do 2 f_equal. lia.
    - apply Forall_insert; [done|]. unfold is_u32. lia. }
  assert (mapping sv (sectors fs) !! Z.to_nat (15 + j) = Some 0) as Hm0.
  { rewrite mapping_indirect by done. pose proof Hf as (Hd & _). rewrite lookup_app_r by lia.
    fold id ws. rewrite <- Hj. f_equal. lia. }
  destruct (grows_alloc sv fs sv fs2 (Datatypes.S (Z.to_nat (15 + j))) b) as [Hg Hc]; try done.
  - apply same_file_refl.
  - unfold ptrs at 1. by rewrite Hmap.
  - simpl. rewrite Hs2, list_lookup_insert_ne, Hs by lia. apply list_lookup_insert_eq.
    by eapply lookup_lt_Some.
  - intros i Hi0 Hib Hii. simpl. rewrite Hs2, list_lookup_insert_ne by lia.
    rewrite Hs. apply list_lookup_insert_ne. lia.
  - apply Hf.
  - assert (mapping sv (sectors fs2) !! Z.to_nat (15 + j) = Some b) as Hm'.
    { rewrite Hmap. apply list_lookup_insert_eq. by eapply lookup_lt_Some. }
    rewrite bmap_return_spec; [|apply Hg..|right; by eapply list_elem_of_lookup_2].
    do 4 eexists. split; [reflexivity|]. do 4 (split; [done|]). left. split; [done|]. split; [done|lia].
Qed.

Lemma bmap_entry sv fs j doalloc :
  fs_ok fs -> file_ok sv fs -> sfi_indirect (sv_i sv) <> 0 -> 0 <= j < 128 ->
  bmap_post sv fs (15 + j) doalloc
    (block ← load (words_of (blk (sectors fs) (sfi_indirect (sv_i sv)))) j;
     if (block =? 0) && doalloc then
       '(result, block, fs1) ← sfs_balloc valid curspace fs block;
       if negb (result =? 0) then Ok (result, 0, sv, fs1)
       else
         idbuf ← store (words_of (blk (sectors fs) (sfi_indirect (sv_i sv)))) j block;
         '(result, fs1) ← sfs_wblock valid curspace fs1 (word_bytes idbuf) (sfi_indirect (sv_i sv));
         if negb (result =? 0) then Ok (result, 0, sv, fs1) else bmap_return fs1 block sv
     else bmap_return fs block sv).
Proof.
  intros Hfs Hf Hi Hj. destruct (entries_u32 sv fs Hfs Hf Hi) as [_ Hlen].
  destruct (load_in_range (words_of (blk (sectors fs) (sfi_indirect (sv_i sv)))) j) as (b & -> & Hb); [lia|].
  rewrite bind_Ok.
  assert (mapping sv (sectors fs) !! Z.to_nat (15 + j) = Some b) as Hm.
  { rewrite mapping_indirect by done. pose proof Hf as (Hd & _). rewrite lookup_app_r by lia.
    rewrite <- Hb. f_equal. lia. }
  destruct (Z.eqb_spec b 0) as [->|]; [|by apply bmap_found].
  destruct doalloc; [|by apply bmap_found]. cbn [andb]. apply bmap_fill; (done || lia).
Qed.

Lemma sfs_bmap_indirect sv fs fb doalloc :
  fs_ok fs -> file_ok sv fs -> 15 <= fb < 143 ->
  bmap_post sv fs fb doalloc (sfs_bmap valid curspace sv fb doalloc fs).
Proof.
  intros Hfs Hf Hfb. unfold sfs_bmap, SFS_NDIRECT, SFS_DBPERIDB.
  destruct (Z.ltb_spec fb 15); [lia|]. nowrap.
  rewrite Z.div_small, Z.mod_small by lia. cbn [Z.gtb Z.compare].
  destruct ((sfi_indirect (sv_i sv) =? 0) && negb doalloc) eqn:Ehole.
  { apply andb_true_iff in Ehole as [E0%Z.eqb_eq Ed]. do 4 eexists. split; [reflexivity|].
    split; [by apply grows_refl|]. do 3 (split; [done|]).
    left. split; [done|]. split; [|by destruct doalloc]. unfold mapping. rewrite E0.
    pose proof Hf as (Hd & _). cbn [Z.eqb]. rewrite lookup_app_r by lia.
    apply lookup_replicate_2. lia. }
  destruct (bmap_indirect_spec sv fs Hfs Hf)
    as (r & idbuf & sv1 & fs1 & -> & Hg & Hc & Hm & Hsz & [(-> & Hi & -> & Hno)|(-> & Hfull & E0)]);
    rewrite bind_Ok.
  - cbn [Z.eqb negb]. apply (bmap_post_trans sv fs sv1 fs1); try done.
    + intros ->. apply Hno. intros E0. by rewrite E0 in Ehole.
    + replace fb with (15 + (fb - 15)) at 1 by lia. apply bmap_entry; [apply Hg..|done|lia].
  - change (negb (ENOSPC =? 0)) with true. do 4 eexists. split; [reflexivity|].
    do 3 (split; [done|]). split; [|by right]. intros ->. by rewrite E0 in Ehole.
Qed.

Lemma sfs_bmap_spec sv fs fb doalloc :
  fs_ok fs -> file_ok sv fs -> 0 <= fb < 143 ->
  bmap_post sv fs fb doalloc (sfs_bmap valid curspace sv fb doalloc fs).
Proof.
  intros Hfs Hf Hfb. destruct (Z.lt_ge_cases fb 15).
  - apply sfs_bmap_direct; (done || lia).
  - apply sfs_bmap_indirect; (done || lia).
Qed.

Lemma sfs_bmap_too_far sv fs fb doalloc :
  143 <= fb < 4294967296 -> sfs_bmap valid curspace sv fb doalloc fs = Ok (EINVAL, 0, sv, fs).
Proof.
  intros Hfb. unfold sfs_bmap, SFS_NDIRECT, SFS_DBPERIDB.
  destruct (Z.ltb_spec fb 15); [lia|]. nowrap. rewrite Z.gtb_ltb.
  destruct (Z.ltb_spec 0 ((fb - 15) / 128)) as [|Hle]; [done|]. exfalso. dlia.
Qed.

(** ** Contents *)

Lemma content_blocks sv fs :
  fs_ok fs -> file_ok sv fs ->
  length (content sv (sectors fs)) = 143%nat /\
  Forall (fun b => length b = 512%nat) (content sv (sectors fs)).
Proof.
  intros Hfs Hf. unfold content. rewrite length_fmap. split; [by apply length_mapping|].
  apply Forall_fmap. pose proof Hf as (_ & _ & Hp & _). apply Forall_cons_1 in Hp as [_ Hp].
  eapply Forall_impl; [done|]. intros b [Hb _]. simpl. unfold cell.
  destruct (b =? 0); [done|]. by apply fs_sector.
Qed.

Lemma length_flat sv fs : fs_ok fs -> file_ok sv fs -> length (flat sv (sectors fs)) = Z.to_nat 73216.
Proof.
  intros Hfs Hf. destruct (content_blocks sv fs Hfs Hf) as [Hl HL]. unfold flat.
  rewrite length_concat_blocks, Hl by done. lia.
Qed.

Lemma cell_length sv fs b :
  fs_ok fs -> file_ok sv fs -> b ∈ ptrs sv (sectors fs) -> length (cell (sectors fs) b) = 512%nat.
Proof.
  intros Hfs Hf Hb. destruct (ptrs_ok _ _ _ Hf Hb) as [Hr _]. unfold cell.
  destruct (b =? 0); [done|]. by apply fs_sector.
Qed.

(** A block of the file is written. *)
Lemma grows_write sv fs d k b data :
  fs_ok fs -> file_ok sv fs -> mapping sv (sectors fs) !! k = Some b -> b <> 0 ->
  fs_ok (set_dev d fs) -> dev_sectors d = <[Z.to_nat b := data]> (sectors fs) ->
  grows sv fs sv (set_dev d fs) /\
  content sv (dev_sectors d) = <[k := data]> (content sv (sectors fs)).
Proof.
  intros Hfs Hf Hk Hb Hfs' Hs. destruct (ptrs_data _ _ _ _ Hf Hk Hb) as [Hbi Huniq].
  assert (b ∈ ptrs sv (sectors fs)) as Hin by (right; by eapply list_elem_of_lookup_2).
  destruct (ptrs_ok _ _ _ Hf Hin) as [Hbr _].
  assert (mapping sv (dev_sectors d) = mapping sv (sectors fs)) as Hm.
  { apply mapping_ext. intros Hi. rewrite Hs. apply list_lookup_insert_ne.
    destruct (ptrs_ok sv fs (sfi_indirect (sv_i sv)) Hf) as [? _]; [left|]. lia. }
  assert (ptrs sv (dev_sectors d) = ptrs sv (sectors fs)) as Hp by (unfold ptrs; by rewrite Hm).
  split.
  - constructor; simpl; rewrite ?Hp; try done.
    + unfold file_ok; simpl. by rewrite Hp.
    + apply same_fs_dev.
    + apply same_file_refl.
    + intros j _. split; [auto|]. intros [?|[]]; [done|congruence].
    + intros j Hj _ Hnin. rewrite Hs. apply list_lookup_insert_ne. intros ?.
      assert (b = j) as -> by lia. by apply Hb, Hnin.
  - unfold content. rewrite Hm. apply list_eq. intros i.
    destruct (decide (i = k)) as [->|Hne].
    + rewrite list_lookup_fmap, Hk, list_lookup_insert_eq; [|rewrite length_fmap; by eapply lookup_lt_Some].
      simpl. f_equal. apply cell_lookup; [done|]. rewrite Hs. apply list_lookup_insert_eq.
      destruct (fs_sector fs b Hfs Hbr) as [Hlk _]. by eapply lookup_lt_Some.
    + rewrite list_lookup_insert_ne, !list_lookup_fmap by done.
      destruct (mapping sv (sectors fs) !! i) as [x|] eqn:Hi; [|done]. simpl. f_equal.
      apply cell_ext. intros Hx. rewrite Hs. apply list_lookup_insert_ne.
      destruct (ptrs_ok sv fs x Hf) as [Hxr _]; [right; by eapply list_elem_of_lookup_2|].
      intros ?. assert (x = b) as -> by lia. by apply Hne, Huniq.
Qed.

(** ** Transfers between a uio and a file *)

(** The uio, and the bytes of the file, after [m] bytes. *)
Definition moved u (m : Z) (F : list Z) : uio :=
  advance m (if is_write u then drop (Z.to_nat m) (iov_data u)
             else iov_data u ++ take (Z.to_nat m) (drop (Z.to_nat (uio_offset u)) F)) u.
Definition written u (m : Z) (F : list Z) : list Z :=
  if is_write u then splice F (Z.to_nat (uio_offset u)) (take (Z.to_nat m) (iov_data u)) else F.

(** How a transfer of [n] bytes at the uio's offset ends after [m] bytes: all
    are moved, or it stops at the start of a block, past the last possible
    one or, in a write, when no block is free. *)
Definition io_result fs u (r m n : Z) : Prop :=
  r = 0 /\ m = n \/
  (m < n \/ n = 0) /\ (m = 0 \/ (uio_offset u + m) `mod` 512 = 0) /\
  (r = EINVAL /\ 73216 <= uio_offset u + m \/ r = ENOSPC /\ is_write u = true /\ disk_full fs).

Definition io_post sv fs u (n : Z) (out : res (Z * uio * sfs_vnode * sfs_fs D)) : Prop :=
  exists r m sv' fs',
    out = Ok (r, moved u m (flat sv (sectors fs)), sv', fs') /\
    0 <= m <= n /\ (m = 0 \/ uio_offset u + m <= 73216) /\
    grows sv fs sv' fs' /\ sfi_size (sv_i sv') = sfi_size (sv_i sv) /\
    (is_write u = false -> sv' = sv /\ sectors fs' = sectors fs) /\
    flat sv' (sectors fs') = written u m (flat sv (sectors fs)) /\
    io_result fs' u r m n.

Lemma io_result_ok fs u n : io_result fs u 0 n n.
Proof. by left. Qed.

Lemma io_result_0 fs u m n : io_result fs u 0 m n -> m = n.
Proof. by intros [[_ ?]|(_ & _ & [[? _]|[? _]])]. Qed.

Lemma moved_0 u F : uio_wf u -> moved u 0 F = u.
Proof.
  intros Hwf. unfold moved. change (Z.to_nat 0) with 0%nat. rewrite drop_0, take_0, app_nil_r.
  destruct (is_write u); apply advance_0, Hwf.
Qed.

Lemma written_0 u F : written u 0 F = F.
Proof. unfold written. change (Z.to_nat 0) with 0%nat. rewrite take_0, splice_nil. by destruct (is_write u). Qed.

Lemma is_write_moved u m F : is_write (moved u m F) = is_write u.
Proof. done. Qed.

Lemma is_write_advance k data u : is_write (advance k data u) = is_write u.
Proof. done. Qed.

(** Nothing moved. *)
Lemma io_post_none sv fs u n r sv' fs' :
  uio_wf u -> 0 <= n -> grows sv fs sv' fs' -> sfi_size (sv_i sv') = sfi_size (sv_i sv) ->
  (is_write u = false -> sv' = sv /\ sectors fs' = sectors fs) -> content sv' (sectors fs') = content sv (sectors fs) ->
  (r = 0 /\ n = 0 \/ r = EINVAL /\ 73216 <= uio_offset u \/
   r = ENOSPC /\ is_write u = true /\ disk_full fs') ->
  io_post sv fs u n (Ok (r, u, sv', fs')).
Proof.
  intros Hwf Hn Hg Hsz Hro Hc Hr. exists r, 0, sv', fs'. rewrite moved_0, written_0 by done.
  split; [done|]. split; [lia|]. split; [by left|]. split; [done|]. split; [done|]. split; [done|].
  split; [unfold flat; by rewrite Hc|].
  destruct Hr as [[? ?]|Hr]; [left; split; [done|lia]|right].
  split; [lia|]. split; [by left|]. by rewrite Z.add_0_r.
Qed.

Lemma file_block o : 0 <= o < 2147483648 -> u32 (Z.quot o SFS_BLOCKSIZE) = o / 512.
Proof. intros Ho. unfold SFS_BLOCKSIZE. rewrite Z.quot_div_nonneg by lia. apply u32_small. dlia. Qed.

Lemma load_cell sv fs b (w : bool) :
  fs_ok fs -> file_ok sv fs -> b ∈ ptrs sv (sectors fs) -> (w = true -> b <> 0) ->
  exists fs', (if b =? 0 then _ ← assert (negb w); Ok (0, zeros, fs)
               else sfs_rblock valid curspace fs b) = Ok (0, cell (sectors fs) b, fs') /\
    grows sv fs sv fs' /\ sectors fs' = sectors fs.
Proof.
  intros Hfs Hf Hb Hw. unfold cell. destruct (Z.eqb_spec b 0) as [->|Hne].
  - destruct w; [by specialize (Hw eq_refl)|]. exists fs. split; [done|]. split; [by apply grows_refl|done].
  - destruct (ptrs_ok _ _ _ Hf Hb) as [Hr _].
    destruct (sfs_rblock_spec valid curspace fs b Hfs Hr) as (d & -> & Hfs' & Hs).
    exists (set_dev d fs). split; [done|]. split; [by apply grows_read|done].
Qed.

(** The first half of a transfer in one block: the block is mapped. *)
Lemma bmap_for_io sv fs u n :
  fs_ok fs -> file_ok sv fs -> uio_wf u -> 0 <= uio_offset u -> 0 <= n ->
  (exists r b sv' fs',
     sfs_bmap valid curspace sv (u32 (Z.quot (uio_offset u) SFS_BLOCKSIZE)) (is_write u) fs =
       Ok (r, b, sv', fs') /\ r <> 0 /\ io_post sv fs u n (Ok (r, u, sv', fs'))) \/
  (exists b sv' fs',
     sfs_bmap valid curspace sv (u32 (Z.quot (uio_offset u) SFS_BLOCKSIZE)) (is_write u) fs =
       Ok (0, b, sv', fs') /\ uio_offset u / 512 < 143 /\ grows sv fs sv' fs' /\
     sfi_size (sv_i sv') = sfi_size (sv_i sv) /\ (is_write u = false -> sv' = sv /\ sectors fs' = sectors fs) /\
     content sv' (sectors fs') = content sv (sectors fs) /\
     mapping sv' (sectors fs') !! Z.to_nat (uio_offset u / 512) = Some b /\ (is_write u = true -> b <> 0)).
Proof.
  intros Hfs Hf Hwf Ho Hn. pose proof Hwf as (_ & ? & _ & _ & _ & Ho'). rewrite file_block by lia.
  destruct (Z.lt_ge_cases (uio_offset u / 512) 143) as [Hlt|Hge].
  - destruct (sfs_bmap_spec sv fs (uio_offset u / 512) (is_write u)) as
      (r & b & sv' & fs' & -> & Hg & Hc & Hsz & Hro & Hcase); [done..|split; [dlia|done]|].
    destruct Hcase as [(-> & Hm & Hnz)|[-> Hfull]].
    + right. exists b, sv', fs'. split; [done|]. split; [done|]. split; [done|]. split; [done|].
      split; [|done]. intros E. by apply Hro.
    + left. exists ENOSPC, b, sv', fs'. split; [done|]. split; [done|].
      destruct (is_write u) eqn:Hw; [|by destruct (Hro eq_refl)].
      apply io_post_none; try done; [by rewrite Hw|]. auto.
  - left. exists EINVAL, 0, sv, fs. rewrite sfs_bmap_too_far by dlia. split; [done|]. split; [done|].
    apply io_post_none; try done; [by apply grows_refl|]. right; left. split; [done|dlia].
Qed.

Lemma sfs_partialio_spec sv fs u skip len :
  fs_ok fs -> file_ok sv fs -> uio_wf u -> reachable valid curspace u len -> 0 <= uio_offset u ->
  skip = uio_offset u `mod` 512 -> 0 <= len <= 512 - skip -> len <= uio_resid u ->
  io_post sv fs u len (sfs_partialio valid curspace sv u skip len fs).
Proof.
  intros Hfs Hf Hwf Hr Ho Hskip Hlen Hres. unfold sfs_partialio.
  assert (0 <= skip < 512) by dlia. nowrap. rewrite (assert_true (skip + len <=? SFS_BLOCKSIZE)).
  2:{ apply Z.leb_le. unfold SFS_BLOCKSIZE. lia. }
  rewrite bind_Ok.
  destruct (bmap_for_io sv fs u len) as
    [(r & b & sv1 & fs1 & -> & Hne & Hpost)|(b & sv1 & fs1 & -> & Hlt & Hg & Hsz & Hro & Hc & Hm & Hnz)];
    [done..|lia| |]; rewrite bind_Ok.
  { destruct (Z.eqb_spec r 0); [done|]. exact Hpost. }
  cbn [Z.eqb negb].
  assert (b ∈ ptrs sv1 (sectors fs1)) as Hin by (right; by eapply list_elem_of_lookup_2).
  destruct (load_cell sv1 fs1 b (is_write u)) as (fs2 & -> & Hg2 & Hs2); [apply Hg..|done|done|].
  rewrite bind_Ok. cbn [Z.eqb negb].
  set (iobuf := cell (sectors fs1) b).
  assert (length iobuf = 512%nat) as Hl by (apply (cell_length sv1 fs1); [apply Hg..|done]).
  assert (content sv (sectors fs) !! Z.to_nat (uio_offset u / 512) = Some iobuf) as Hk.
  { rewrite <- Hc. unfold content. by rewrite list_lookup_fmap, Hm. }
  destruct (content_blocks sv fs Hfs Hf) as [_ HL].
  assert (Z.to_nat (uio_offset u) = 512 * Z.to_nat (uio_offset u / 512) + Z.to_nat skip)%nat as Hoff by dlia.
  rewrite uiomove_spec; [|done|done|lia|rewrite length_drop; lia]. rewrite bind_Ok. cbn [Z.eqb negb].
  rewrite (eq_refl : is_write (advance _ _ u) = is_write u).
  destruct (is_write u) eqn:Hw.
  - pose proof Hwf as (_ & Hrl & _ & Hdl & _). specialize (Hdl Hw).
    set (d := take (Z.to_nat len) (iov_data u)).
    assert (length d = Z.to_nat len) as Hdlen by (unfold d; rewrite length_take; lia).
    assert (take (Z.to_nat skip) iobuf ++ d ++ drop (Z.to_nat len) (drop (Z.to_nat skip) iobuf) =
            splice iobuf (Z.to_nat skip) d) as -> by (unfold splice; by rewrite drop_drop, Hdlen).
    destruct (sfs_wblock_spec valid curspace fs2 (splice iobuf (Z.to_nat skip) d) b)
      as (dv & -> & Hfs3 & Hs3).
    { apply Hg2. }
    { destruct (ptrs_ok sv1 fs2 b) as [? _]; [apply Hg2|by rewrite Hs2|done]. }
    { rewrite length_splice; lia. }
    rewrite bind_Ok. rewrite Hs2 in *.
    destruct (grows_write sv1 fs2 dv (Z.to_nat (uio_offset u / 512)) b (splice iobuf (Z.to_nat skip) d))
      as [Hg3 Hc3]; [apply Hg2..|by rewrite Hs2|by apply Hnz|done|by rewrite Hs2|].
    exists 0, len, sv1, (set_dev dv fs2). unfold moved, written. rewrite Hw.
    split; [done|]. split; [lia|]. split; [right; dlia|].
    split; [exact (grows_trans _ _ _ _ _ _ Hg (grows_trans _ _ _ _ _ _ Hg2 Hg3))|]. split; [done|]. split; [done|].
    split; [|by left]. unfold flat. simpl. rewrite Hc3, Hs2, Hc, Hoff.
    apply concat_block_write; [done..|]. unfold d in Hdlen. rewrite Hdlen. lia.
  - exists 0, len, sv1, fs2. unfold moved, written. rewrite Hw.
    split. { do 3 f_equal. unfold flat. rewrite Hoff, (concat_block_read _ _ iobuf) by (done || lia). done. }
    split; [lia|]. split; [right; dlia|]. split; [by eapply grows_trans|]. split; [done|].
    split; [by rewrite Hs2|]. split; [unfold flat; by rewrite Hs2, Hc|]. by left.
Qed.

(** *** Whole blocks *)

Lemma moved_moved u n m F :
  0 <= n -> 0 <= m -> 0 <= uio_offset u -> 
  moved (moved u n F) m (written u n F) = moved u (n + m) F.
Proof.
  intros Hn Hm Ho. unfold moved at 1 3. rewrite is_write_moved. unfold moved, written.
  rewrite advance_advance. f_equal. simpl.
  destruct (is_write u); [rewrite drop_drop; f_equal; lia|].
  rewrite <- app_assoc. f_equal.
  rewrite Z2Nat.inj_add, <- drop_drop, take_take_drop by lia. f_equal. lia.
Qed.

Lemma written_written u n m F :
  uio_wf u -> 0 <= n <= uio_resid u -> 0 <= m -> 0 <= uio_offset u ->
  n = 0 \/ uio_offset u + n <= Z.of_nat (length F) ->
  written (moved u n F) m (written u n F) = written u (n + m) F.
Proof.
  intros Hwf Hn Hm Ho HF. unfold written at 1 3. rewrite is_write_moved.
  destruct (is_write u) eqn:Hw; [|unfold written; by rewrite Hw].
  destruct HF as [->|HF]; [by rewrite moved_0, written_0|].
  pose proof Hwf as (_ & Hr & _ & Hl & _). specialize (Hl Hw).
  unfold written, moved. rewrite Hw. simpl.
  assert (length (take (Z.to_nat n) (iov_data u)) = Z.to_nat n) as Hd by (rewrite length_take; lia).
  replace (Z.to_nat (uio_offset u + n)) with (Z.to_nat (uio_offset u) + length (take (Z.to_nat n) (iov_data u)))%nat by lia.
  rewrite splice_splice by lia. rewrite take_take_drop. do 2 f_equal. lia.
Qed.

Lemma io_post_trans sv fs u n1 n2 sv1 fs1 out :
  fs_ok fs -> file_ok sv fs -> uio_wf u -> 0 <= uio_offset u -> 0 <= n1 <= uio_resid u -> 0 < n2 ->
  n1 = 0 \/ (uio_offset u + n1) `mod` 512 = 0 ->
  io_post sv fs u n1 (Ok (0, moved u n1 (flat sv (sectors fs)), sv1, fs1)) ->
  io_post sv1 fs1 (moved u n1 (flat sv (sectors fs))) n2 out ->
  io_post sv fs u (n1 + n2) out.
Proof.
  intros Hfs Hf Hwf Ho Hn1 Hn2 Hal (r & m & sv1' & fs1' & E & Hm & Hend & Hg & Hsz & Hro & Hfl & Hr)
    (r2 & m2 & sv2 & fs2 & -> & Hm2 & Hend2 & Hg2 & Hsz2 & Hro2 & Hfl2 & Hr2).
  assert (m = n1) as ->.
  { apply (f_equal (fun o => if o is Ok (_, v, _, _) then uio_resid v else 0)) in E. simpl in E. lia. }
  injection E as <- <- <-.
  exists r2, (n1 + m2), sv2, fs2. rewrite Hfl, moved_moved, Hfl2, Hfl, written_written by
    (done || lia || (rewrite length_flat by done; lia)).
  split; [done|]. split; [lia|]. simpl in *. split; [lia|]. split; [by eapply grows_trans|].
  split; [congruence|].
  split. { intros E. destruct (Hro2 E) as [-> ->]. by apply Hro. }
  split; [done|]. unfold io_result in *. rewrite is_write_moved in Hr2. simpl in Hr2. rewrite Z.add_assoc.
  destruct Hr2 as [[? ?]|(? & Hal2 & ?)]; [left; split; [done|lia]|right].
  split; [lia|]. split; [|done]. destruct Hal2 as [->|?]; [rewrite !Z.add_0_r; destruct Hal; [left; lia|by right]|by right].
Qed.

Lemma io_post_0 sv fs u :
  fs_ok fs -> file_ok sv fs -> uio_wf u -> io_post sv fs u 0 (Ok (0, u, sv, fs)).
Proof. intros. apply io_post_none; try done; [by apply grows_refl|]. by left. Qed.

(** The uio [sfs_blockio] hands to the device, and what is left of it. *)
Lemma disk_uio u b :
  uio_wf u -> reachable valid curspace u 512 -> 512 <= uio_resid u -> 0 <= b ->
  (b + 1) * 512 < 2147483648 ->
  block_uio valid curspace (with_resid SFS_BLOCKSIZE (with_offset (i32 (b * SFS_BLOCKSIZE)) u)) b.
Proof.
  intros (Hb & Hr & Hl & Hd & _) Hrc H512 Hb0 Hsm. unfold block_uio, uio_wf, SFS_BLOCKSIZE; simpl. nowrap.
  split; [|done]. split; [done|]. split; [lia|]. split; [lia|]. split; [exact Hd|lia].
Qed.

Lemma undisk_uio u b data :
  uio_wf u -> 0 <= uio_offset u -> 512 <= uio_resid u -> 0 <= b -> (b + 1) * 512 < 2147483648 ->
  let v := advance 512 data (with_resid SFS_BLOCKSIZE (with_offset (i32 (b * SFS_BLOCKSIZE)) u)) in
  let w := with_offset (i32 (i32 (uio_offset v - i32 (b * SFS_BLOCKSIZE)) + uio_offset u)) v in
  with_resid (u32 (u32 (uio_resid w - SFS_BLOCKSIZE) + i32 (uio_resid u))) w = advance 512 data u.
Proof.
  intros (Hb & Hr & Hl & _ & _ & Ho') Ho H512 Hb0 Hsm v w. subst v w.
  unfold with_resid, with_offset, advance, SFS_BLOCKSIZE; simpl. nowrap. f_equal; [lia|]. unfold u32. rewrite Zplus_mod_idemp_l. rewrite Z.mod_small; lia.
Qed.

Lemma rwblock_cell sv fs u k b :
  fs_ok fs -> file_ok sv fs -> mapping sv (sectors fs) !! k = Some b -> b <> 0 ->
  uio_wf u -> reachable valid curspace u 512 -> 512 <= uio_resid u ->
  let v := with_resid SFS_BLOCKSIZE (with_offset (i32 (b * SFS_BLOCKSIZE)) u) in
  exists fs', sfs_rwblock valid curspace v fs =
      Ok (0, advance 512 (if is_write u then drop 512 (iov_data u)
                          else iov_data u ++ cell (sectors fs) b) v, fs') /\
    grows sv fs sv fs' /\
    if is_write u
    then content sv (sectors fs') = <[k := take 512 (iov_data u)]> (content sv (sectors fs))
    else sectors fs' = sectors fs.
Proof.
  intros Hfs Hf Hk Hb Hwf Hr Hres v.
  assert (b ∈ ptrs sv (sectors fs)) as Hin by (right; by eapply list_elem_of_lookup_2).
  destruct (ptrs_ok _ _ _ Hf Hin) as [Hbr _]. pose proof (fs_small fs b Hfs Hbr) as Hsm.
  assert (block_uio valid curspace v b) as Hv by (apply disk_uio; (done || lia)).
  pose proof Hfs as (Hd & Hn & _). destruct (is_write u) eqn:Hw.
  - destruct (dev_write valid curspace v b _ Hd Hv Hw) as (d & E & Hd' & Hs & Hbl); [lia|].
    assert (fs_ok (set_dev d fs)) as Hfs' by (by apply fs_ok_dev).
    destruct (grows_write sv fs d k b (take 512 (iov_data u))) as [Hg Hc]; [done..|].
    exists (set_dev d fs). rewrite (rwblock_ok _ _ _ _ _ _ E). by split.
  - destruct (fs_sector fs b Hfs Hbr) as [Hlk _].
    destruct (dev_read valid curspace v b _ _ Hd Hv Hw ltac:(lia) Hlk) as (d & E & Hd' & Hs & Hbl).
    exists (set_dev d fs). rewrite (rwblock_ok _ _ _ _ _ _ E).
    replace (cell (sectors fs) b) with (blk (sectors fs) b)
      by (unfold cell; by destruct (Z.eqb_spec b 0)).
    split; [done|]. split; [apply grows_read; try done; by apply fs_ok_dev|done].
Qed.

Lemma sfs_blockio_spec sv fs u :
  fs_ok fs -> file_ok sv fs -> uio_wf u -> reachable valid curspace u 512 -> 0 <= uio_offset u ->
  uio_offset u `mod` 512 = 0 -> 512 <= uio_resid u ->
  io_post sv fs u 512 (sfs_blockio valid curspace sv u fs).
Proof.
  intros Hfs Hf Hwf Hr Ho Hmod Hres. unfold sfs_blockio.
  destruct (bmap_for_io sv fs u 512) as
    [(r & b & sv1 & fs1 & -> & Hne & Hpost)|(b & sv1 & fs1 & -> & Hlt & Hg & Hsz & Hro & Hc & Hm & Hnz)];
    [done..|lia| |]; rewrite bind_Ok.
  { destruct (Z.eqb_spec r 0); [done|]. exact Hpost. }
  cbn [Z.eqb negb].
  assert (b ∈ ptrs sv1 (sectors fs1)) as Hin by (right; by eapply list_elem_of_lookup_2).
  destruct (ptrs_ok sv1 fs1 b) as [Hbr _]; [apply Hg|done|].
  assert (content sv (sectors fs) !! Z.to_nat (uio_offset u / 512) = Some (cell (sectors fs1) b)) as Hk.
  { rewrite <- Hc. unfold content. by rewrite list_lookup_fmap, Hm. }
  destruct (content_blocks sv fs Hfs Hf) as [_ HL].
  assert (Z.to_nat (uio_offset u) = 512 * Z.to_nat (uio_offset u / 512) + 0)%nat as Hoff by dlia.
  assert (length (cell (sectors fs1) b) = 512%nat) as Hl by (apply (cell_length sv1 fs1); [apply Hg..|done]).
  assert (take (Z.to_nat 512) (drop (Z.to_nat (uio_offset u)) (flat sv (sectors fs))) = cell (sectors fs1) b) as Hread.
  { unfold flat. rewrite Hoff, (concat_block_read _ _ (cell (sectors fs1) b)) by (done || lia).
    rewrite drop_0. apply take_ge. lia. }
  destruct (Z.eqb_spec b 0) as [->|Hb0].
  - destruct (is_write u) eqn:Hw; [by specialize (Hnz eq_refl)|]. cbn [negb assert]. rewrite bind_Ok.
    unfold uiomovezeros, SFS_BLOCKSIZE. rewrite Hw. cbn [negb assert]. rewrite bind_Ok.
    rewrite zeros_spec by (done || lia). rewrite bind_Ok.
    exists 0, 512, sv1, fs1. unfold moved, written. rewrite Hw.
    split; [by rewrite Hread|]. split; [lia|]. split; [right; dlia|]. split; [done|]. split; [done|].
    split; [exact Hro|]. split; [unfold flat; by rewrite Hc|by left].
  - cbv zeta. rewrite (assert_true (_ >=? _)), bind_Ok.
    2:{ rewrite Z.geb_leb. apply Z.leb_le. simpl. unfold SFS_BLOCKSIZE. lia. }
    destruct (rwblock_cell sv1 fs1 u (Z.to_nat (uio_offset u / 512)) b) as (fs2 & E & Hg2 & Hc2);
      [apply Hg..|done|done|done|done|done|].
    change (uio_resid (with_offset (i32 (b * SFS_BLOCKSIZE)) u)) with (uio_resid u).
    rewrite E, bind_Ok. cbv zeta.
    pose proof (fs_small fs1 b (gr_fs _ _ _ _ Hg) Hbr) as Hsm.
    rewrite undisk_uio by (done || lia).
    exists 0, 512, sv1, fs2. unfold moved, written. rewrite Hread.
    split; [done|]. split; [lia|]. split; [right; dlia|]. split; [by eapply grows_trans|].
    split; [done|]. destruct (is_write u) eqn:Hw.
    2:{ split; [by rewrite Hc2|]. split; [unfold flat; by rewrite Hc2, Hc|by left]. }
    split; [done|]. split; [|by left]. unfold flat. rewrite Hc2, Hc.
    pose proof Hwf as (_ & Hrl & _ & Hdl & _). specialize (Hdl Hw).
    assert (length (take (Z.to_nat 512) (iov_data u)) = 512%nat) as Hd by (rewrite length_take; lia).
    rewrite Hoff, <- (concat_block_write _ _ (cell (sectors fs1) b)); [|done..|rewrite Hd; lia].
    do 2 f_equal. unfold splice. rewrite Hd, drop_ge, app_nil_r by lia. done.
Qed.

(** Transfers in sequence, stopping at the first error. *)
Lemma io_post_bind sv fs u n1 n2 out k :
  fs_ok fs -> file_ok sv fs -> uio_wf u -> 0 <= uio_offset u -> 0 <= n1 <= uio_resid u -> 0 <= n2 ->
  (n2 = 0 \/ n1 = 0 \/ (uio_offset u + n1) `mod` 512 = 0) ->
  reachable valid curspace u (n1 + n2) -> io_post sv fs u n1 out ->
  (forall v sv1 fs1, fs_ok fs1 -> file_ok sv1 fs1 -> uio_wf v -> reachable valid curspace v n2 ->
     uio_offset v = uio_offset u + n1 -> uio_resid v = uio_resid u - n1 ->
     io_post sv1 fs1 v n2 (k v sv1 fs1)) ->
  (n2 = 0 -> forall v sv1 fs1, uio_resid v = uio_resid u - n1 -> k v sv1 fs1 = Ok (0, v, sv1, fs1)) ->
  io_post sv fs u (n1 + n2)
    ('(result, u, sv, fs) ← out;
     if negb (result =? 0) then Ok (result, u, sv, fs) else k u sv fs).
Proof.
  intros Hfs Hf Hwf Ho Hn1 Hn2 Hal Hr Hp Hk Hk0.
  pose proof Hp as (r & m & sv1 & fs1 & E & Hm & Hend & Hg & Hsz & Hro & Hfl & Hcase).
  rewrite E in Hp |- *. rewrite bind_Ok.
  destruct (Z.eqb_spec r 0) as [->|Hne]; cbn [negb].
  - apply io_result_0 in Hcase as ->.
    destruct (Z.eq_dec n2 0) as [E0|Hpos].
    { rewrite Hk0 by done. by rewrite E0, Z.add_0_r. }
    apply (io_post_trans sv fs u n1 _ sv1 fs1); try (done || lia).
    apply Hk; try apply Hg; try done.
    + apply advance_wf; [done|lia|]. by intros ->.
    + replace n2 with (n1 + n2 - n1) by lia. apply reachable_advance; [apply Hwf|done|lia].
  - exists r, m, sv1, fs1. split; [done|]. split; [lia|]. do 5 (split; [done|]).
    destruct Hcase as [[? _]|(? & ? & ?)]; [done|right]. split; [lia|by split].
Qed.

Lemma blockio_loop_spec n : forall sv fs u,
  fs_ok fs -> file_ok sv fs -> uio_wf u -> reachable valid curspace u (512 * Z.of_nat n) ->
  0 <= uio_offset u -> uio_offset u `mod` 512 = 0 -> 512 * Z.of_nat n <= uio_resid u ->
  io_post sv fs u (512 * Z.of_nat n) (blockio_loop valid curspace n sv u fs).
Proof.
  induction n as [|n IH]; intros sv fs u Hfs Hf Hwf Hr Ho Hmod Hres.
  { by apply io_post_0. }
  cbn [blockio_loop].
  replace (512 * Z.of_nat (Datatypes.S n)) with (512 + 512 * Z.of_nat n) in * by lia.
  apply io_post_bind; try (done || lia).
  - right; right. dlia.
  - apply sfs_blockio_spec; try (done || lia). eapply reachable_le; [done|lia].
  - intros v sv1 fs1 Hfs1 Hf1 Hwf1 Hr1 Ho1 Hres1. apply IH; try (done || lia). rewrite Ho1. dlia.
  - intros E v sv1 fs1 _. by assert (n = 0%nat) as -> by lia.
Qed.

(** The first partial block. *)
Lemma io_head sv fs u :
  fs_ok fs -> file_ok sv fs -> uio_wf u -> reachable valid curspace u (uio_resid u) ->
  0 <= uio_offset u ->
  let blkoff := u32 (Z.rem (uio_offset u) SFS_BLOCKSIZE) in
  exists n, 0 <= n <= uio_resid u /\ (n = uio_resid u \/ (uio_offset u + n) `mod` 512 = 0) /\
  io_post sv fs u n
    (if negb (blkoff =? 0) then
       sfs_partialio valid curspace sv u blkoff
         (if u32 (SFS_BLOCKSIZE - blkoff) >? uio_resid u then uio_resid u else u32 (SFS_BLOCKSIZE - blkoff)) fs
     else Ok (0, u, sv, fs)).
Proof.
  intros Hfs Hf Hwf Hr Ho blkoff. subst blkoff. unfold SFS_BLOCKSIZE.
  pose proof Hwf as (_ & ? & _ & _ & _ & Ho'). rewrite Z.rem_mod_nonneg by lia.
  assert (0 <= uio_offset u `mod` 512 < 512) by (apply Z.mod_pos_bound; lia). nowrap.
  destruct (Z.eqb_spec (uio_offset u `mod` 512) 0) as [E|Hne]; cbn [negb].
  - exists 0. split; [lia|]. split; [right; by rewrite Z.add_0_r|]. by apply io_post_0.
  - rewrite Z.gtb_ltb. destruct (Z.ltb_spec (uio_resid u) (512 - uio_offset u `mod` 512)).
    + exists (uio_resid u). split; [lia|]. split; [by left|]. apply sfs_partialio_spec; (done || lia).
    + exists (512 - uio_offset u `mod` 512). split; [lia|]. split; [right; dlia|].
      apply sfs_partialio_spec; try (done || lia). eapply reachable_le; [done|lia].
Qed.

Lemma sfs_io_blocks_spec sv fs u :
  fs_ok fs -> file_ok sv fs -> uio_wf u -> reachable valid curspace u (uio_resid u) ->
  0 <= uio_offset u -> io_post sv fs u (uio_resid u) (sfs_io_blocks valid curspace sv u fs).
Proof.
  intros Hfs Hf Hwf Hr Ho. unfold sfs_io_blocks.
  destruct (io_head sv fs u) as (n & Hn & Hend & Hp); [done..|].
  replace (uio_resid u) with (n + (uio_resid u - n)) at 1 by lia.
  apply io_post_bind; try (done || lia).
  { by replace (n + (uio_resid u - n)) with (uio_resid u) by lia. }
  2:{ intros E v sv1 fs1 Hv. by assert (uio_resid v = 0) as -> by lia. }
  intros v sv1 fs1 Hfs1 Hf1 Hwf1 Hr1 Ho1 Hres1. rewrite <- Hres1.
  pose proof Hwf1 as (_ & Hv & _ & _ & _ & Hvo).
  destruct (Z.eqb_spec (uio_resid v) 0) as [E0|Hne]; [rewrite E0; by apply io_post_0|].
  assert (uio_offset v `mod` 512 = 0) as Hmod by (destruct Hend; [lia|congruence]).
  unfold SFS_BLOCKSIZE. rewrite Z.rem_mod_nonneg, Hmod by lia. cbn [Z.eqb assert]. rewrite bind_Ok.
  replace (uio_resid v) with (512 * Z.of_nat (Z.to_nat (uio_resid v / 512)) + uio_resid v `mod` 512) at 1 by dlia.
  apply io_post_bind; try (done || lia || dlia).
  - rewrite <- Hres1 in Hr1. by replace (512 * Z.of_nat (Z.to_nat (uio_resid v / 512)) + uio_resid v `mod` 512)
      with (uio_resid v) by dlia.
  - apply blockio_loop_spec; try (done || lia || dlia). eapply reachable_le; [done|dlia].
  - intros w sv2 fs2 Hfs2 Hf2 Hwf2 Hr2 Ho2 Hres2.
    assert (uio_resid w = uio_resid v `mod` 512) as Hw by dlia.
    rewrite (assert_true (uio_resid w <? 512)), bind_Ok by (apply Z.ltb_lt; dlia).
    rewrite Z.gtb_ltb, <- Hw. rewrite <- Hw in Hr2. destruct (Z.ltb_spec 0 (uio_resid w)).
    + apply sfs_partialio_spec; (done || lia || dlia).
    + replace (uio_resid w) with 0 by dlia. by apply io_post_0.
  - intros E w sv2 fs2 Hw. by assert (uio_resid w = 0) as -> by dlia.
Qed.

(** ** sfs_io *)

Lemma with_resid_id u : with_resid (uio_resid u) u = u.
Proof. by destruct u. Qed.

Lemma sfs_io_write_spec sv fs u :
  fs_ok fs -> file_ok sv fs -> uio_wf u -> reachable valid curspace u (uio_resid u) ->
  0 <= uio_offset u -> is_write u = true ->
  exists r m sv' fs',
    sfs_io valid curspace sv u fs = Ok (r, advance m (drop (Z.to_nat m) (iov_data u)) u, sv', fs') /\
    0 <= m <= uio_resid u /\ io_result fs' u r m (uio_resid u) /\ grows sv fs sv' fs' /\
    flat sv' (sectors fs') =
      splice (flat sv (sectors fs)) (Z.to_nat (uio_offset u)) (take (Z.to_nat m) (iov_data u)) /\
    sfi_size (sv_i sv') = Z.max (sfi_size (sv_i sv)) (uio_offset u + m).
Proof.
  intros Hfs Hf Hwf Hr Ho Hw. pose proof Hwf as (_ & Hres & Hl & _ & _ & Hend).
  pose proof Hf as (_ & Hsz & _). unfold sfs_io. rewrite Hw. cbn [negb andb]. rewrite bind_Ok.
  rewrite Z.sub_0_r, u32_small, with_resid_id by lia.
  destruct (sfs_io_blocks_spec sv fs u) as (r & m & sv1 & fs1 & -> & Hm & _ & Hg & Hs1 & _ & Hfl & Hcase);
    [done..|]. rewrite bind_Ok.
  unfold moved, written in *. rewrite Hw in *.
  unfold sfs_io_out. rewrite (Hw : is_write (advance _ _ u) = true). cbn [andb].
  rewrite Z.add_0_r, u32_small, with_resid_id by (simpl; lia).
  rewrite Hs1, i32_small by lia. rewrite Z.gtb_ltb. simpl uio_offset.
  destruct (Z.ltb_spec (sfi_size (sv_i sv)) (uio_offset u + m)).
  - rewrite u32_small by lia.
    set (sv2 := set_dirty true (set_i (set_size (uio_offset u + m) (sv_i sv1)) sv1)).
    exists r, m, sv2, fs1. split; [done|]. split; [done|].
    split; [done|]. split; [|split; [exact Hfl|simpl; lia]].
    destruct Hg as [A1 (B1 & B2 & B3) A3 (C1&C2&C3&C4&C5&C6) A5 A6 A7].
    constructor; try done. 
    + split; [done|]. split; [simpl; lia|done].
    + unfold same_file; simpl. do 5 (split; [done|]). by right.
  - exists r, m, sv1, fs1. split; [done|]. split; [done|].
    split; [done|]. split; [done|]. split; [done|]. rewrite Hs1. lia.
Qed.

(** The bytes a read of [n] bytes at [o] can have. *)
Definition readable (size o n : Z) : Z := Z.max 0 (Z.min n (size - o)).

Lemma sfs_io_read_spec sv fs u :
  fs_ok fs -> file_ok sv fs -> uio_wf u -> reachable valid curspace u (uio_resid u) ->
  0 <= uio_offset u -> is_write u = false ->
  exists r m fs',
    sfs_io valid curspace sv u fs =
      Ok (r, advance m (iov_data u ++ take (Z.to_nat m) (drop (Z.to_nat (uio_offset u)) (flat sv (sectors fs)))) u,
          sv, fs') /\
    0 <= m <= readable (sfi_size (sv_i sv)) (uio_offset u) (uio_resid u) /\
    io_result fs' u r m (readable (sfi_size (sv_i sv)) (uio_offset u) (uio_resid u)) /\
    grows sv fs sv fs' /\ sectors fs' = sectors fs.
Proof.
  intros Hfs Hf Hwf Hr Ho Hw. pose proof Hwf as (Hb & Hres & Hl & Hd & Ho2 & Hend).
  pose proof Hf as (_ & Hsz & _). unfold sfs_io. rewrite Hw. cbn [negb andb]. nowrap.
  rewrite Z.geb_leb. set (size := sfi_size (sv_i sv)) in *.
  destruct (Z.leb_spec size (uio_offset u)).
  { exists 0, 0, fs. change (Z.to_nat 0) with 0%nat. rewrite take_0, app_nil_r, advance_0 by done.
    split; [done|]. split; [unfold readable; lia|]. split; [left; unfold readable; lia|].
    split; [by apply grows_refl|done]. }
  rewrite Z.gtb_ltb. set (n := readable size (uio_offset u) (uio_resid u)).
  set (extra := if size <? uio_offset u + uio_resid u then u32 (uio_offset u + uio_resid u - size) else 0).
  assert (0 <= n <= uio_resid u /\ uio_resid u - extra = n /\
          (size < uio_offset u + uio_resid u -> extra < uio_resid u)) as (Hn & Hex & Hgt).
  { unfold extra, n, readable. destruct (Z.ltb_spec size (uio_offset u + uio_resid u)); nowrap; lia. }
  assert ((if size <? uio_offset u + uio_resid u then assert (uio_resid u >? extra) else Ok tt) = Ok tt) as ->.
  { destruct (Z.ltb_spec size (uio_offset u + uio_resid u)); [|done].
    apply assert_true. rewrite Z.gtb_ltb. apply Z.ltb_lt. auto. }
  rewrite bind_Ok, Hex, u32_small by lia. fold n. clearbody n extra.
  destruct (sfs_io_blocks_spec sv fs (with_resid n u))
    as (r & m & sv1 & fs1 & -> & Hm & _ & Hg & Hs1 & Hro & _ & Hcase); try done.
  - unfold uio_wf; simpl. split; [done|]. split; [lia|]. split; [done|]. split; [done|lia].
  - eapply reachable_le; [exact Hr|]. simpl. lia.
  - rewrite bind_Ok. unfold sfs_io_out, moved. change (is_write (with_resid n u)) with (is_write u).
    rewrite Hw, is_write_advance. change (is_write (with_resid n u)) with (is_write u). rewrite Hw. cbn [andb].
    destruct (Hro Hw) as [-> Hsec]. exists r, m, fs1.
    split. { do 4 f_equal. unfold advance, with_resid; simpl in *. f_equal. rewrite u32_small; lia. }
    split; [simpl in Hm; lia|]. split; [exact Hcase|done].
Qed.

(** ** Other files *)

Definition apart sv sv2 S : Prop := forall b, b <> 0 -> b ∈ ptrs sv S -> b ∈ ptrs sv2 S -> False.

Lemma grows_other sv fs sv' fs' sv2 :
  fs_ok fs -> file_ok sv2 fs -> apart sv sv2 (sectors fs) -> grows sv fs sv' fs' ->
  file_ok sv2 fs' /\ apart sv' sv2 (sectors fs') /\ content sv2 (sectors fs') = content sv2 (sectors fs).
Proof.
  clear valid curspace. intros Hfs Hf2 Hap [G1 _ G3 _ G5 G6 G7].
  assert (nblocks fs' = nblocks fs) as Hnb by (by destruct G3 as (-> & _)).
  assert (forall b, b ∈ ptrs sv2 (sectors fs) -> b <> 0 ->
            sectors fs' !! Z.to_nat b = sectors fs !! Z.to_nat b) as HS.
  { intros b Hb Hb0. destruct (ptrs_ok _ _ _ Hf2 Hb) as [Hr Hbit]. apply G7; [lia|done|].
    intros Hb'. by destruct (Hap b). }
  assert (mapping sv2 (sectors fs') = mapping sv2 (sectors fs)) as Hm.
  { apply mapping_ext. intros Hi. apply HS; [left|done]. }
  assert (ptrs sv2 (sectors fs') = ptrs sv2 (sectors fs)) as Hp by (unfold ptrs; by rewrite Hm).
  pose proof Hf2 as (E1 & E2 & E3 & E4). split; [|split].
  - unfold file_ok. rewrite Hp, Hnb. do 2 (split; [done|]). split; [|done].
    eapply Forall_impl; [done|]. intros b [Hr Hb]. split; [done|]. apply G5; [lia|done].
  - intros b Hb0 Hb Hb2. rewrite Hp in Hb2. destruct (ptrs_ok _ _ _ Hf2 Hb2) as [Hr Hbit].
    apply G6 in Hb as [Hb|[? _]]; [by apply (Hap b)|congruence|lia].
  - unfold content. rewrite Hm. apply list_eq. intros i. rewrite !list_lookup_fmap.
    destruct (mapping sv2 (sectors fs) !! i) as [b|] eqn:Hb; [|done]. simpl. f_equal.
    apply cell_ext. apply HS. right. by eapply list_elem_of_lookup_2.
Qed.

(** Block mapping.  A file has 143 blocks: beyond them [sfs_bmap] gives
    EINVAL and does nothing.  For the others, without [doalloc] it gives the
    number in the file's block map, 0 for a hole, and changes nothing.  With
    [doalloc] it fills a hole with a block that was free, marks it in use,
    and the file reads as before; it gives ENOSPC only when no block is free.
    No block in use outside the file is written, and the block map stays
    well-formed: its blocks exist, are marked in use and are all different. *)
Theorem sfs_bmap_correct sv fs fb doalloc :
  fs_ok fs -> file_ok sv fs -> 0 <= fb < 4294967296 ->
  (143 <= fb -> sfs_bmap valid curspace sv fb doalloc fs = Ok (EINVAL, 0, sv, fs)) /\
  (fb < 143 -> exists r b sv' fs',
     sfs_bmap valid curspace sv fb doalloc fs = Ok (r, b, sv', fs') /\ grows sv fs sv' fs' /\
     content sv' (sectors fs') = content sv (sectors fs) /\
     (doalloc = false -> r = 0 /\ sv' = sv /\ sectors fs' = sectors fs) /\
     (r = 0 /\ mapping sv' (sectors fs') !! Z.to_nat fb = Some b /\ (doalloc = true -> b <> 0) \/
      r = ENOSPC /\ disk_full fs')).
Proof.
  intros Hfs Hf Hfb. split; intros Hlt.
  - apply sfs_bmap_too_far. lia.
  - destruct (sfs_bmap_spec sv fs fb doalloc) as (r & b & sv' & fs' & E & Hg & Hc & _ & H);
      [done..|lia|]. by exists r, b, sv', fs'.
Qed.

(** C1. Writing a file.  [sfs_io] with a write of [n] bytes at offset [o]
    writes the first [m] of them, exactly there: the file's bytes are the old
    ones with [m] bytes replaced, its size is at least [o] + [m], the uio has
    moved by [m].  [m] is [n] and the result 0 unless the disk has no free
    block left (ENOSPC) or the largest possible file is reached (EINVAL). *)
Theorem sfs_write_exact sv fs u :
  fs_ok fs -> file_ok sv fs -> uio_wf u -> reachable valid curspace u (uio_resid u) ->
  0 <= uio_offset u -> is_write u = true ->
  exists r m sv' fs',
    sfs_io valid curspace sv u fs = Ok (r, advance m (drop (Z.to_nat m) (iov_data u)) u, sv', fs') /\
    0 <= m <= uio_resid u /\ io_result fs' u r m (uio_resid u) /\ grows sv fs sv' fs' /\
    flat sv' (sectors fs') =
      splice (flat sv (sectors fs)) (Z.to_nat (uio_offset u)) (take (Z.to_nat m) (iov_data u)) /\
    sfi_size (sv_i sv') = Z.max (sfi_size (sv_i sv)) (uio_offset u + m).
Proof. apply sfs_io_write_spec. Qed.

(** C2. Reading a file.  [sfs_io] with a read of [n] bytes at offset [o] gives
    the file's bytes from [o] on, up to the end of the file, and changes
    neither the file nor the disk; at or past the end it gives none.  It
    returns 0 unless it has to read past the largest possible file. *)
Theorem sfs_read_exact sv fs u :
  fs_ok fs -> file_ok sv fs -> uio_wf u -> reachable valid curspace u (uio_resid u) ->
  0 <= uio_offset u -> is_write u = false ->
  exists r m fs',
    sfs_io valid curspace sv u fs =
      Ok (r, advance m (iov_data u ++
            take (Z.to_nat m) (drop (Z.to_nat (uio_offset u)) (flat sv (sectors fs)))) u, sv, fs') /\
    0 <= m <= readable (sfi_size (sv_i sv)) (uio_offset u) (uio_resid u) /\
    io_result fs' u r m (readable (sfi_size (sv_i sv)) (uio_offset u) (uio_resid u)) /\
    grows sv fs sv fs' /\ sectors fs' = sectors fs.
Proof. apply sfs_io_read_spec. Qed.

(** C28. Files do not disturb each other.  I/O on one file, whatever its
    outcome, leaves every other well-formed file that shares no block with it
    well-formed, with the same contents, and still sharing no block. *)
Theorem sfs_io_isolated sv fs u sv2 r v sv' fs' :
  fs_ok fs -> file_ok sv fs -> uio_wf u -> reachable valid curspace u (uio_resid u) ->
  0 <= uio_offset u -> file_ok sv2 fs -> apart sv sv2 (sectors fs) ->
  sfs_io valid curspace sv u fs = Ok (r, v, sv', fs') ->
  fs_ok fs' /\ file_ok sv' fs' /\ file_ok sv2 fs' /\ apart sv' sv2 (sectors fs') /\
  content sv2 (sectors fs') = content sv2 (sectors fs).
Proof.
  intros Hfs Hf Hwf Hr Ho Hf2 Hap E.
  assert (grows sv fs sv' fs') as Hg.
  { destruct (is_write u) eqn:Hw.
    - destruct (sfs_io_write_spec sv fs u) as (?&?&?&?& E' & _ & _ & Hg & _); [done..|]. congruence.
    - destruct (sfs_io_read_spec sv fs u) as (?&?&?& E' & _ & _ & Hg & _); [done..|]. congruence. }
  split; [apply Hg|]. split; [apply Hg|]. by eapply grows_other.
Qed.

Lemma kuio_wf data n o rw :
  0 <= n < 4294967296 -> 0 <= o -> o + n < 2147483648 ->
  (rw = UIO_WRITE -> Z.of_nat (length data) = n) -> uio_wf (mk_kuio data n o rw).
Proof.
  intros Hn Ho Hs Hd. unfold uio_wf; simpl. split; [lia|]. split; [lia|]. split; [lia|].
  split; [|lia]. intros Hw. apply Hd. by destruct rw.
Qed.

(** What is written is read back.  Writing [data] to a file at an offset
    where it fits either fails with ENOSPC, no block being free, or returns 0,
    and then reading as many bytes at the same offset gives [data]. *)
Theorem sfs_write_then_read sv fs data o :
  fs_ok fs -> file_ok sv fs -> 0 <= o < 73216 -> o + Z.of_nat (length data) <= 73216 ->
  exists r v sv' fs',
    sfs_io valid curspace sv (mk_kuio data (Z.of_nat (length data)) o UIO_WRITE) fs =
      Ok (r, v, sv', fs') /\
    (r = ENOSPC /\ disk_full fs' \/
     r = 0 /\ exists v' fs'',
       sfs_io valid curspace sv' (mk_kuio [] (Z.of_nat (length data)) o UIO_READ) fs' =
         Ok (0, v', sv', fs'') /\ iov_data v' = data /\ uio_resid v' = 0).
Proof.
  intros Hfs Hf Ho Hfit. set (n := Z.of_nat (length data)) in *.
  destruct (sfs_io_write_spec sv fs (mk_kuio data n o UIO_WRITE))
    as (r & m & sv' & fs' & E & Hm & Hr & Hg & Hfl & Hsz); try done.
  { apply kuio_wf; (done || lia). }
  { simpl. lia. }
  simpl in Hm, Hfl, Hsz. do 4 eexists. split; [exact E|]. unfold io_result in Hr; simpl in Hr.
  destruct Hr as [[-> ->]|(? & _ & [[-> ?]|(-> & _ & ?)])]; [right|lia|by left]. split; [done|].
  rewrite take_ge in Hfl by lia. pose proof (length_flat sv fs Hfs Hf) as Hlen.
  destruct (sfs_io_read_spec sv' fs' (mk_kuio [] n o UIO_READ)) as (r & m & fs'' & E2 & Hm2 & Hr2 & _);
    [apply Hg..|apply kuio_wf; (done || lia)|done|simpl; lia|done|].
  unfold io_result, readable in Hr2; simpl in Hr2. rewrite Hsz in Hr2.
  assert (r = 0 /\ m = n) as [-> ->].
  { unfold readable in Hm2; simpl in Hm2.
    destruct Hr2 as [[-> ->]|(? & _ & [[-> ?]|(_ & ? & _)])]; [split; [done|lia]|lia|done]. }
  do 2 eexists. split; [exact E2|]. simpl. split; [|lia].
  rewrite Hfl. unfold n. rewrite Nat2Z.id. apply splice_read. lia.
Qed.
End file.

(** ** A small file system *)

#[local] Instance good_disk : DiskLaws ramdisk := ramdisk_laws false.
#[local] Existing Instance ramdisk_sound.

(** Eight blocks; the superblock, the root inode and the map are in use. *)
Definition sb8 : sfs_super := mk_super SFS_MAGIC 8 (replicate 32 0) (replicate 118 0).
Definition lh8 : lhd_softc ramdisk :=
  mk_lhd (replicate 512 0) 0 1 0 8 0 0 (mk_ramdisk (replicate 8 zeros) []).
Definition fs8 : sfs_fs (lhd_softc ramdisk) :=
  mk_sfs sb8 false lh8 (mk_array 0 0 None) (mk_bitmap 8 [7]) false ∅.

(** A file with the blocks [l], and its size. *)
Definition file8 (l : list Z) (size : Z) : sfs_vnode :=
  mk_sv (mk_vnode 1 0 true None None (Some sfs_fileops))
    (mk_inode size SFS_TYPE_FILE 1 (l ++ replicate (15 - length l) 0) 0 (replicate 110 0)) 1 false.

Lemma fs8_ok : fs_ok fs8.
Proof.
  unfold fs_ok; simpl. split.
  { split; [done|]. split; [done|]. split; [done|]. split; [|done]. split; [|done].
    split; [|done]. simpl. by repeat constructor. }
  split; [lia|]. split; [|split; [lia|split; [intros; lia|done]]].
  split; [simpl; lia|]. split; [done|]. split; [repeat constructor; lia|].
  simpl. intros i Hi. change (bm_words 8) with 1 in Hi. lia.
Qed.

Lemma holes_distinct l : (forall i b, l !! i = Some b -> b = 0) -> distinct l.
Proof. intros Hl i j b Hb Hi _. by apply Hl in Hi. Qed.

Lemma one_distinct b0 n : distinct (0 :: b0 :: replicate n 0).
Proof.
  intros i j b Hb Hi Hj.
  assert (forall i, (0 :: b0 :: replicate n 0) !! i = Some b -> i = 1%nat) as H1.
  { intros [|[|k]] E; cbn in E; [congruence|done|]. by apply lookup_replicate in E as [-> _]. }
  by rewrite (H1 i Hi), (H1 j Hj).
Qed.

Lemma file8_ok : file_ok (file8 [] 0) fs8.
Proof.
  split; [done|]. split; [simpl; lia|].
  change (ptrs (file8 [] 0) (dev_sectors (sfs_device fs8))) with (replicate 144 0).
  split; [apply Forall_replicate; split; [simpl; lia|done]|].
  apply holes_distinct. intros i b Hi. by apply lookup_replicate in Hi as [-> _].
Qed.

Lemma file8_ok2 : file_ok (file8 [2] 9) fs8.
Proof.
  split; [done|]. split; [simpl; lia|].
  change (ptrs (file8 [2] 9) (dev_sectors (sfs_device fs8))) with (0 :: 2 :: replicate 142 0).
  split; [|apply one_distinct].
  do 2 (apply Forall_cons_2; [split; [simpl; lia|done]|]).
  apply Forall_replicate; split; [simpl; lia|done].
Qed.

Lemma sfs_bmap_correct_witness :
  fs_ok fs8 /\ file_ok (file8 [] 0) fs8 /\
  exists r b sv' fs', sfs_bmap (fun _ => true) None (file8 [] 0) 20 true fs8 = Ok (r, b, sv', fs') /\
    content sv' (dev_sectors (sfs_device fs')) = content (file8 [] 0) (dev_sectors lh8).
Proof.
  split; [exact fs8_ok|]. split; [exact file8_ok|].
  destruct (sfs_bmap_correct (fun _ => true) None (file8 [] 0) fs8 20 true fs8_ok file8_ok) as [_ H]; [lia|].
  destruct H as (r & b & sv' & fs' & E & _ & Hc & _); [lia|].
  exists r, b, sv', fs'. split; [exact E|exact Hc].
Defined.

Definition w3 : uio := mk_kuio [1; 2; 3] 3 510 UIO_WRITE.

Lemma w3_wf : uio_wf w3.
Proof. apply kuio_wf; (done || lia). Qed.

Lemma sfs_write_exact_witness :
  exists r m sv' fs', sfs_io (fun _ => true) None (file8 [] 0) w3 fs8 =
      Ok (r, advance m (drop (Z.to_nat m) [1; 2; 3]) w3, sv', fs') /\
    flat sv' (dev_sectors (sfs_device fs')) =
      splice (flat (file8 [] 0) (dev_sectors lh8)) 510 (take (Z.to_nat m) [1; 2; 3]).
Proof.
  destruct (sfs_write_exact (fun _ => true) None (file8 [] 0) fs8 w3 fs8_ok file8_ok w3_wf)
    as (r & m & sv' & fs' & E & _ & _ & _ & Hfl & _); [done|simpl; lia|done|].
  exists r, m, sv', fs'. split; [exact E|exact Hfl].
Defined.

Lemma sfs_read_exact_witness :
  exists r m fs', sfs_io (fun _ => true) None (file8 [2] 9) (mk_kuio [] 20 4 UIO_READ) fs8 =
      Ok (r, advance m (take (Z.to_nat m) (drop 4 (flat (file8 [2] 9) (dev_sectors lh8))))
               (mk_kuio [] 20 4 UIO_READ), file8 [2] 9, fs').
Proof.
  destruct (sfs_read_exact (fun _ => true) None (file8 [2] 9) fs8 (mk_kuio [] 20 4 UIO_READ) fs8_ok file8_ok2)
    as (r & m & fs' & E & _); [apply kuio_wf; (done || lia)|done|simpl; lia|done|].
  exists r, m, fs'. exact E.
Defined.

Lemma file8_apart : apart (file8 [] 0) (file8 [2] 9) (dev_sectors lh8).
Proof.
  intros b Hb Hin _. change (b ∈ replicate 144 0) in Hin. by apply elem_of_replicate in Hin as [-> _].
Qed.

Lemma sfs_io_isolated_witness :
  exists r v sv' fs', sfs_io (fun _ => true) None (file8 [] 0) w3 fs8 = Ok (r, v, sv', fs') /\
    content (file8 [2] 9) (dev_sectors (sfs_device fs')) = content (file8 [2] 9) (dev_sectors lh8).
Proof.
  destruct (sfs_io (fun _ => true) None (file8 [] 0) w3 fs8) as [[[[r v] sv'] fs']| | |] eqn:E;
    [|vm_compute in E; discriminate E..].
  exists r, v, sv', fs'. split; [reflexivity|].
  apply (sfs_io_isolated (fun _ => true) None (file8 [] 0) fs8 w3 (file8 [2] 9) r v sv' fs' fs8_ok
           file8_ok w3_wf); [done|simpl; lia|exact file8_ok2|exact file8_apart|exact E].
Defined.

Lemma sfs_write_then_read_witness :
  exists r v sv' fs',
    sfs_io (fun _ => true) None (file8 [] 0) (mk_kuio [1; 2; 3] 3 510 UIO_WRITE) fs8 =
      Ok (r, v, sv', fs') /\
    (r = ENOSPC /\ disk_full fs' \/
     r = 0 /\ exists v' fs'',
       sfs_io (fun _ => true) None sv' (mk_kuio [] 3 510 UIO_READ) fs' = Ok (0, v', sv', fs'') /\
       iov_data v' = [1; 2; 3] /\ uio_resid v' = 0).
Proof.
  apply (sfs_write_then_read (fun _ => true) None (file8 [] 0) fs8 [1; 2; 3] 510 fs8_ok file8_ok);
    simpl; lia.
Defined.
