(* ===== verification/SfsTrunc.v ===== *)
(** * kern/fs/sfs/sfs_vnode.c: sfs_truncate

    Blocks past the new length are given back to the free map.  The loops
    over the direct blocks and over the indirect block are shown equal to
    freeing the list of the blocks cut off, in order. *)
From stdpp Require Import base numbers list option gmap.
From S2P Require Import Prelude KArray Bitmap Uio Device Lhd SfsDisk Vnode SfsIo SfsFile.
Local Open Scope Z_scope.

Section truncate.
Context {D : Type} `{!BlockDev D}.
Variables (valid : Z -> bool) (curspace : option Z).
Implicit Types (fs : sfs_fs D) (sv : sfs_vnode).

(** The loop over the direct blocks, from [i] with [n] left. *)
Fixpoint trunc_direct (n : nat) (i blocklen : Z) sv fs : res (sfs_vnode * sfs_fs D) :=
  match n with
  | O => Ok (sv, fs)
  | S n =>
      block ← load (sfi_direct (sv_i sv)) i;
      '(sv, fs) ←
        (if (i >=? blocklen) && negb (block =? 0) then
           fs ← sfs_bfree fs block;
           direct ← store (sfi_direct (sv_i sv)) i 0;
           Ok (set_dirty true (set_i (set_direct direct (sv_i sv)) sv), fs)
         else Ok (sv, fs));
      trunc_direct n (i + 1) blocklen sv fs
  end.

(** The loop over the indirect block, from [j] with [n] left: the buffer,
    [hasnonzero], [iddirty]. *)
Fixpoint trunc_idbuf (n : nat) (j blocklen : Z) (idbuf : list Z) (hasnonzero iddirty : bool) fs
    : res (list Z * bool * bool * sfs_fs D) :=
  match n with
  | O => Ok (idbuf, hasnonzero, iddirty, fs)
  | S n =>
      block ← load idbuf j;
      '(idbuf, iddirty, fs) ←
        (if (blocklen <? u32 (SFS_NDIRECT + j)) && negb (block =? 0) then
           fs ← sfs_bfree fs block;
           idbuf ← store idbuf j 0;
           Ok (idbuf, true, fs)
         else Ok (idbuf, iddirty, fs));
      block ← load idbuf j;
      let hasnonzero := if negb (block =? 0) then true else hasnonzero in
      trunc_idbuf n (j + 1) blocklen idbuf hasnonzero iddirty fs
  end.

(** The part of [sfs_truncate] that handles the indirect block. *)
Definition trunc_indirect (blocklen : Z) sv fs : res (Z * sfs_vnode * sfs_fs D) :=
  let idblock := sfi_indirect (sv_i sv) in
  let highblock := SFS_NDIRECT + SFS_DBPERIDB - 1 in
  if (blocklen <? highblock) && negb (idblock =? 0) then
    '(result, data, fs) ← sfs_rblock valid curspace fs idblock;
    if negb (result =? 0) then Ok (result, sv, fs)
    else
      '(idbuf, hasnonzero, iddirty, fs) ←
        trunc_idbuf (Z.to_nat SFS_DBPERIDB) 0 blocklen (words_of data) false false fs;
      if negb hasnonzero then
        fs ← sfs_bfree fs idblock;
        Ok (0, set_dirty true (set_i (set_indirect 0 (sv_i sv)) sv), fs)
      else if iddirty : bool then
        '(result, fs) ← sfs_wblock valid curspace fs (word_bytes idbuf) idblock;
        Ok (result, sv, fs)
      else Ok (0, sv, fs)
  else Ok (0, sv, fs).

Definition sfs_truncate sv (len : Z) fs : res (Z * sfs_vnode * sfs_fs D) :=
  (* DIVROUNDUP on off_t *)
  let blocklen := u32 (Z.quot (i32 (i32 (len + SFS_BLOCKSIZE) - 1)) SFS_BLOCKSIZE) in
  '(sv, fs) ← trunc_direct (Z.to_nat SFS_NDIRECT) 0 blocklen sv fs;
  '(result, sv, fs) ← trunc_indirect blocklen sv fs;
  if negb (result =? 0) then Ok (result, sv, fs)
  else Ok (0, set_dirty true (set_i (set_size (u32 len) (sv_i sv)) sv), fs).
End truncate.

(** ** Cutting a list of block numbers *)

Definition nonzero (b : Z) : bool := negb (b =? 0).

(** The block numbers of [l], the first at index [i], that [keep] leaves; the
    others are 0. *)
Fixpoint cut (keep : Z -> bool) (i : Z) (l : list Z) : list Z :=
  match l with
  | [] => []
  | b :: l => (if keep i then b else 0) :: cut keep (i + 1) l
  end.

(** The blocks cut off. *)
Fixpoint removed (keep : Z -> bool) (i : Z) (l : list Z) : list Z :=
  match l with
  | [] => []
  | b :: l => if keep i || (b =? 0) then removed keep (i + 1) l else b :: removed keep (i + 1) l
  end.

Lemma removed_nil_cut keep l : forall i, removed keep i l = [] -> cut keep i l = l.
Proof.
  induction l as [|b l IH]; intros i H; [done|]. simpl in *.
  destruct (keep i) eqn:Hk; simpl in *; [by rewrite IH|].
  destruct (Z.eqb_spec b 0) as [->|]; [by rewrite IH|done].
Qed.

Lemma cut_lookup keep l : forall i k,
  cut keep i l !! k = (fun b => if keep (i + Z.of_nat k) then b else 0) <$> l !! k.
Proof.
  induction l as [|b l IH]; intros i [|k]; simpl; [done|done|by rewrite Z.add_0_r|].
  rewrite IH. by replace (i + 1 + Z.of_nat k) with (i + Z.of_nat (S k)) by lia.
Qed.

Lemma length_cut keep l : forall i, length (cut keep i l) = length l.
Proof. induction l as [|b l IH]; intros i; simpl; [done|by rewrite IH]. Qed.

Lemma cut_app keep l l' : forall i,
  cut keep i (l ++ l') = cut keep i l ++ cut keep (i + Z.of_nat (length l)) l'.
Proof.
  induction l as [|b l IH]; intros i; simpl; [by rewrite Z.add_0_r|]. rewrite IH.
  do 3 f_equal. lia.
Qed.

Lemma removed_app keep l l' : forall i,
  removed keep i (l ++ l') = removed keep i l ++ removed keep (i + Z.of_nat (length l)) l'.
Proof.
  induction l as [|b l IH]; intros i; simpl; [by rewrite Z.add_0_r|]. rewrite IH.
  replace (i + 1 + Z.of_nat (length l)) with (i + Z.of_nat (S (length l))) by lia.
  by destruct (keep i || (b =? 0)).
Qed.

(** Only the answers of [keep] on the indices of [l] matter. *)
Lemma cut_ext keep keep' l : forall i i',
  (forall k, 0 <= k < Z.of_nat (length l) -> keep (i + k) = keep' (i' + k)) ->
  cut keep i l = cut keep' i' l /\ removed keep i l = removed keep' i' l.
Proof.
  induction l as [|b l IH]; intros i i' H; simpl in *; [done|].
  pose proof (H 0 ltac:(lia)) as H0. rewrite !Z.add_0_r in H0.
  destruct (IH (i + 1) (i' + 1)) as [-> ->].
  { intros k Hk. rewrite <- !Z.add_assoc. apply H. lia. }
  by rewrite H0.
Qed.

Lemma cut_all keep l i : (forall k, keep k = true) -> cut keep i l = l /\ removed keep i l = [].
Proof.
  intros H. assert (forall i, removed keep i l = []) as Hr.
  { induction l as [|b l IH]; intros j; simpl; [done|]. rewrite H. apply IH. }
  split; [by apply removed_nil_cut|done].
Qed.

Lemma elem_removed keep l i x :
  x ∈ removed keep i l <-> exists k, l !! k = Some x /\ keep (i + Z.of_nat k) = false /\ x <> 0.
Proof.
  revert i. induction l as [|b l IH]; intros i; simpl.
  { split; [by intros ?%elem_of_nil|]. by intros (k & ? & _). }
  assert ((exists k, l !! k = Some x /\ keep (i + 1 + Z.of_nat k) = false /\ x <> 0) <->
          exists k, (b :: l) !! S k = Some x /\ keep (i + Z.of_nat (S k)) = false /\ x <> 0) as Hs.
  { split; intros (k & ? & E & ?); exists k; (split; [done|]); (split; [|done]); rewrite <- E; f_equal; lia. }
  destruct (keep i) eqn:Hk; cbn [orb].
  - rewrite IH, Hs. split; [naive_solver|]. intros ([|k] & ? & E & ?); [|naive_solver].
    simpl in E. rewrite Z.add_0_r in E. congruence.
  - destruct (Z.eqb_spec b 0) as [->|Hb].
    + rewrite IH, Hs. split; [naive_solver|]. intros ([|k] & ? & E & ?); [|naive_solver].
      simpl in *. congruence.
    + rewrite elem_of_cons, IH, Hs. split.
      * intros [->|(k & ?)]; [exists 0%nat; simpl; by rewrite Z.add_0_r|naive_solver].
      * intros ([|k] & E & ?); [left; simpl in E; congruence|naive_solver].
Qed.

Lemma removed_NoDup keep l i : distinct l -> NoDup (removed keep i l).
Proof.
  revert i. induction l as [|b l IH]; intros i Hd; simpl; [constructor|].
  assert (distinct l) as Hd'.
  { intros k1 k2 x Hx H1 H2. specialize (Hd (S k1) (S k2) x Hx H1 H2). lia. }
  destruct (keep i || (b =? 0)) eqn:E; [by apply IH|].
  apply orb_false_iff in E as [_ Hb%Z.eqb_neq]. constructor; [|by apply IH].
  intros (k & Hk & _)%elem_removed. by specialize (Hd 0%nat (S k) b Hb eq_refl Hk).
Qed.

Lemma cut_none keep l :
  (forall k, 0 <= k -> keep k = false) ->
  existsb nonzero (cut keep 0 l) = false /\ (forall b, b ∈ cut keep 0 l -> b = 0).
Proof.
  intros Hk. assert (cut keep 0 l = replicate (length l) 0) as ->.
  { apply list_eq. intros k. rewrite cut_lookup, Hk by lia. destruct (l !! k) as [x|] eqn:Hx; simpl.
    - symmetry. apply lookup_replicate_2. by eapply lookup_lt_Some.
    - symmetry. apply lookup_replicate_None. by apply lookup_ge_None in Hx. }
  split; [by induction l|]. intros b Hb. by apply elem_of_replicate in Hb as [-> _].
Qed.

(** Block numbers after a cut: those that are left are those not removed. *)
Lemma cut_elem keep l x :
  distinct l -> x <> 0 -> x ∈ l -> (x ∈ cut keep 0 l <-> x ∉ removed keep 0 l).
Proof.
  intros Hd Hx Hin. rewrite elem_removed. split.
  - intros Hc (k & Hk & Hk2 & _). apply list_elem_of_lookup in Hc as [j Hj].
    rewrite cut_lookup in Hj. destruct (l !! j) as [y|] eqn:Hy; [|done]. simpl in Hj.
    destruct (keep (0 + Z.of_nat j)) eqn:Hkj; [|congruence]. injection Hj as ->.
    assert (j = k) as -> by (by eapply Hd). congruence.
  - intros Hn. apply list_elem_of_lookup in Hin as [k Hk]. apply list_elem_of_lookup. exists k.
    rewrite cut_lookup, Hk. simpl. destruct (keep (0 + Z.of_nat k)) eqn:E; [done|].
    exfalso. apply Hn. by exists k.
Qed.

Lemma cut_sub keep l x : x ∈ cut keep 0 l -> x <> 0 -> x ∈ l.
Proof.
  intros [k Hk]%list_elem_of_lookup Hx. rewrite cut_lookup in Hk.
  destruct (l !! k) as [y|] eqn:Hy; [|done]. simpl in Hk. apply list_elem_of_lookup. exists k.
  destruct (keep _); congruence.
Qed.

Lemma cut_distinct keep b b' l :
  distinct (b :: l) -> b' = b \/ b' = 0 -> distinct (b' :: cut keep 0 l).
Proof.
  intros Hd Hb i j x Hx Hi Hj.
  assert (forall k, (b' :: cut keep 0 l) !! k = Some x -> (b :: l) !! k = Some x) as Hsub.
  { intros [|k] E; simpl in *; [destruct Hb; congruence|]. rewrite cut_lookup in E.
    destruct (l !! k) as [y|]; [|done]. simpl in E. destruct (keep _); [done|congruence]. }
  by eapply Hd; [|apply Hsub..].
Qed.

(** ** The loops *)

Section loops.
Context {D : Type} `{!BlockDev D}.
Implicit Types (fs : sfs_fs D) (sv : sfs_vnode).

Fixpoint free_all (l : list Z) fs : res (sfs_fs D) :=
  match l with
  | [] => Ok fs
  | b :: l => fs ← sfs_bfree fs b; free_all l fs
  end.

(** [sv] after [l'] has been cut off its direct blocks, leaving [l]. *)
Definition cut_direct (l l' : list Z) sv : sfs_vnode :=
  set_dirty (sv_dirty sv || negb (bool_decide (l' = []))) (set_i (set_direct l (sv_i sv)) sv).

Lemma bind_ext {A B} (m : res A) (f g : A -> res B) : (forall a, f a = g a) -> (m ≫= f) = (m ≫= g).
Proof. intros H. by destruct m; simpl. Qed.

Lemma bind_assoc {A B C} (m : res A) (f : A -> res B) (g : B -> res C) :
  ((m ≫= f) ≫= g) = (m ≫= fun x => f x ≫= g).
Proof. by destruct m. Qed.

Lemma trunc_direct_eq blocklen n : forall i sv fs,
  0 <= i -> i + Z.of_nat n = Z.of_nat (length (sfi_direct (sv_i sv))) ->
  let keep := fun k => k <? blocklen in
  let l := drop (Z.to_nat i) (sfi_direct (sv_i sv)) in
  trunc_direct n i blocklen sv fs =
    (fs' ← free_all (removed keep i l) fs;
     Ok (cut_direct (take (Z.to_nat i) (sfi_direct (sv_i sv)) ++ cut keep i l) (removed keep i l) sv, fs')).
Proof.
  induction n as [|n IH]; intros i sv fs Hi Hn keep l; subst keep l.
  { rewrite drop_ge by lia. simpl. rewrite app_nil_r, take_ge by lia. unfold cut_direct; simpl.
    rewrite orb_false_r. by destruct sv as [? [] ? ?]. }
  cbn [trunc_direct]. set (l := sfi_direct (sv_i sv)) in *.
  destruct (load_in_range l i) as (b & -> & Hb); [lia|]. rewrite bind_Ok.
  rewrite (drop_S _ _ _ Hb). cbn [removed cut]. rewrite Z.geb_leb.
  assert (Z.to_nat (i + 1) = S (Z.to_nat i)) as Hi1 by lia.
  destruct ((blocklen <=? i) && negb (b =? 0)) eqn:E.
  - apply andb_true_iff in E as [Hle%Z.leb_le Hne%negb_true_iff].
    destruct (Z.ltb_spec i blocklen); [lia|]. rewrite Hne. cbn [orb free_all].
    rewrite !bind_assoc. apply bind_ext. intros fs1. rewrite store_in_range by lia. rewrite !bind_Ok.
    rewrite IH; [|lia|simpl; rewrite length_insert; unfold l in *; lia]. simpl. fold l.
    rewrite Hi1, drop_insert_lt by lia. apply bind_ext. intros fs2. do 2 f_equal.
    unfold cut_direct, set_dirty, set_i; simpl. f_equal; [|by rewrite orb_true_r]. unfold set_direct; simpl. f_equal.
    rewrite (take_S_r _ _ 0), take_insert_ge by (try lia; apply list_lookup_insert_eq; lia).
    by rewrite <- app_assoc.
  - rewrite bind_Ok, IH; [|lia|unfold l in *; lia]. fold l. rewrite Hi1.
    assert ((i <? blocklen) || (b =? 0) = true) as ->.
    { lia. }
    replace (if i <? blocklen then b else 0) with b.
    2:{ destruct (Z.ltb_spec i blocklen); lia. }
    rewrite (take_S_r _ _ b), <- app_assoc by done. done.
Qed.

Lemma trunc_idbuf_eq blocklen n : forall j idbuf hn id fs,
  0 <= j -> j + Z.of_nat n = Z.of_nat (length idbuf) -> (length idbuf <= 128)%nat ->
  let keep := fun k => 15 + k <=? blocklen in
  let l := drop (Z.to_nat j) idbuf in
  trunc_idbuf n j blocklen idbuf hn id fs =
    (fs' ← free_all (removed keep j l) fs;
     Ok (take (Z.to_nat j) idbuf ++ cut keep j l, hn || existsb nonzero (cut keep j l),
         id || negb (bool_decide (removed keep j l = [])), fs')).
Proof.
  induction n as [|n IH]; intros j idbuf hn id fs Hj Hn Hlen keep l; subst keep l.
  { rewrite drop_ge by lia. simpl. rewrite app_nil_r, take_ge by lia. by rewrite !orb_false_r. }
  cbn [trunc_idbuf]. assert (Z.to_nat (j + 1) = S (Z.to_nat j)) as Hj1 by lia.
  destruct (load_in_range idbuf j) as (b & Hl & Hb); [lia|]. rewrite Hl, bind_Ok.
  rewrite (drop_S _ _ _ Hb). cbn [removed cut existsb]. unfold SFS_NDIRECT. nowrap.
  destruct ((blocklen <? 15 + j) && negb (b =? 0)) eqn:E.
  - assert ((15 + j <=? blocklen) = false) as -> by lia. assert ((b =? 0) = false) as -> by lia.
    cbn [orb free_all]. rewrite !bind_assoc. apply bind_ext. intros fs1.
    rewrite store_in_range by lia. rewrite !bind_Ok.
    rewrite (load_Ok _ _ 0), bind_Ok by (done || apply list_lookup_insert_eq; lia). cbn [Z.eqb negb].
    rewrite IH by (rewrite ?length_insert; lia).
    rewrite Hj1, drop_insert_lt by lia. apply bind_ext. intros fs2. do 3 f_equal.
    + rewrite (take_S_r _ _ 0), take_insert_ge by (try lia; apply list_lookup_insert_eq; lia).
      by rewrite <- app_assoc.
    + cbn [orb]. rewrite bool_decide_eq_false_2 by done. by rewrite orb_true_r.
  - rewrite bind_Ok, Hl, bind_Ok, IH, Hj1 by lia.
    assert ((15 + j <=? blocklen) || (b =? 0) = true) as -> by lia.
    replace (if 15 + j <=? blocklen then b else 0) with b by (destruct (Z.leb_spec (15 + j) blocklen); lia).
    apply bind_ext. intros fs1. rewrite (take_S_r _ _ b), <- app_assoc by done. do 3 f_equal.
    unfold nonzero at 2. destruct (b =? 0); simpl; [done|]. by rewrite orb_true_r.
Qed.
End loops.

(** ** On a reliable device *)

Section spec.
Context {D : Type} `{!BlockDev D} `{!ReliableDev D}.
Context (valid : Z -> bool) (curspace : option Z).
Implicit Types (fs : sfs_fs D) (sv : sfs_vnode) (S : list (list Z)).

Abbreviation sectors fs := (dev_sectors (sfs_device fs)).
Abbreviation bit fs := (bm_bit (sfs_freemap fs)).
Abbreviation nblocks fs := (sp_nblocks (sfs_sb fs)).

(** [b] is a block in use. *)
Definition in_use fs (b : Z) : Prop := 0 < b < nblocks fs /\ bit fs b = true.

Lemma free_all_spec l : forall fs,
  fs_ok fs -> NoDup l -> Forall (in_use fs) l ->
  exists fs', free_all l fs = Ok fs' /\ fs_ok fs' /\ same_fs fs fs' /\
    sfs_device fs' = sfs_device fs /\
    forall j, 0 <= j -> bit fs' j = bit fs j && negb (bool_decide (j ∈ l)).
Proof.
  induction l as [|b l IH]; intros fs Hfs Hnd Hl.
  { exists fs. split; [done|]. split; [done|]. split; [apply same_fs_refl|]. split; [done|].
    intros j _. rewrite bool_decide_eq_false_2 by (by intros ?%elem_of_nil). by rewrite andb_true_r. }
  apply NoDup_cons in Hnd as [Hb Hnd]. apply Forall_cons_1 in Hl as [[Hr Hbit] Hl]. cbn [free_all].
  destruct (sfs_bfree_spec fs b Hfs Hr Hbit) as (fs1 & -> & Hfs1 & Hs1 & Hd1 & Hb1). rewrite bind_Ok.
  destruct (IH fs1) as (fs2 & -> & Hfs2 & Hs2 & Hd2 & Hb2); [done..| |].
  { apply Forall_forall. intros x Hx. rewrite Forall_forall in Hl. destruct (Hl x Hx) as [Hxr Hxb].
    split; [by destruct Hs1 as (-> & _)|]. rewrite Hb1 by lia.
    destruct (Z.eqb_spec x b) as [->|]; [done|done]. }
  exists fs2. split; [done|]. split; [done|]. split; [by eapply same_fs_trans|]. split; [congruence|].
  intros j Hj. rewrite Hb2, Hb1 by done. destruct (Z.eqb_spec j b) as [->|Hne].
  - rewrite (bool_decide_eq_true_2 (b ∈ b :: l)) by left. by rewrite andb_false_r.
  - f_equal. f_equal. apply bool_decide_ext. rewrite elem_of_cons. naive_solver.
Qed.

(** The block numbers of the indirect block. *)
Definition entries sv S : list Z :=
  if sfi_indirect (sv_i sv) =? 0 then replicate 128 0 else words_of (blk S (sfi_indirect (sv_i sv))).

(** The conditions of the two loops, negated: when entry [j] of the indirect
    block, and block [k] of the file, is left alone.  This is what the code
    compares, for the proofs about the loops; what a truncation is to do is
    [shortened] below. *)
Definition keeps_entry (blocklen j : Z) : bool := (15 + j <=? blocklen) || (142 <=? blocklen).
Definition keeps (blocklen k : Z) : bool :=
  if k <? 15 then k <? blocklen else keeps_entry blocklen (k - 15).

(** What [trunc_indirect] needs of the indirect block and does to it. *)
Record indirect_ready (blocklen : Z) sv fs : Prop := {
  ir_range : sfi_indirect (sv_i sv) <> 0 -> in_use fs (sfi_indirect (sv_i sv));
  ir_words : Forall is_u32 (entries sv (sectors fs));
  ir_length : length (entries sv (sectors fs)) = 128%nat;
  ir_nodup : NoDup (removed (keeps_entry blocklen) 0 (entries sv (sectors fs)));
  ir_used : Forall (in_use fs) (removed (keeps_entry blocklen) 0 (entries sv (sectors fs)));
  ir_apart : sfi_indirect (sv_i sv) ∉ removed (keeps_entry blocklen) 0 (entries sv (sectors fs));
}.

Definition cut_indirect (blocklen : Z) sv fs sv' fs' : Prop :=
  fs_ok fs' /\ same_fs fs fs' /\
  (sv' = sv \/ sv' = set_dirty true (set_i (set_indirect 0 (sv_i sv)) sv)) /\
  entries sv' (sectors fs') = cut (keeps_entry blocklen) 0 (entries sv (sectors fs)) /\
  (forall j, 0 < j -> bit fs' j = true <->
     bit fs j = true /\ (j ∉ removed (keeps_entry blocklen) 0 (entries sv (sectors fs))) /\
     (j = sfi_indirect (sv_i sv) -> sfi_indirect (sv_i sv') = j)) /\
  (forall j, 0 <= j -> j <> sfi_indirect (sv_i sv) ->
     sectors fs' !! Z.to_nat j = sectors fs !! Z.to_nat j) /\
  (blocklen < 142 -> existsb nonzero (cut (keeps_entry blocklen) 0 (entries sv (sectors fs))) = false ->
     sfi_indirect (sv_i sv') = 0).

(** No block of the indirect block is past the end. *)
Lemma trunc_indirect_skip blocklen sv fs :
  fs_ok fs -> indirect_ready blocklen sv fs ->
  142 <= blocklen \/ sfi_indirect (sv_i sv) = 0 ->
  trunc_indirect valid curspace blocklen sv fs = Ok (0, sv, fs) /\
  cut_indirect blocklen sv fs sv fs.
Proof.
  intros Hfs [Hr Hw Hl _ _ _] Hskip. unfold trunc_indirect, SFS_NDIRECT, SFS_DBPERIDB.
  assert (((blocklen <? 15 + 128 - 1) && negb (sfi_indirect (sv_i sv) =? 0)) = false) as -> by lia.
  split; [done|].
  assert (cut (keeps_entry blocklen) 0 (entries sv (sectors fs)) = entries sv (sectors fs) /\
          removed (keeps_entry blocklen) 0 (entries sv (sectors fs)) = []) as [Hc Hrm].
  { destruct Hskip as [Hb|E].
    - apply cut_all. intros k. unfold keeps_entry. lia.
    - unfold entries. rewrite E. simpl Z.eqb. cbn iota.
      assert (removed (keeps_entry blocklen) 0 (replicate 128 0) = []) as H0.
      { destruct (removed _ _ _) as [|x l] eqn:Ex; [done|].
        assert (x ∈ removed (keeps_entry blocklen) 0 (replicate 128 0)) as (k & Hk & _ & Hx)%elem_removed
          by (rewrite Ex; left). by apply lookup_replicate in Hk as [-> _]. }
      split; [by apply removed_nil_cut|done]. }
  split; [done|]. split; [apply same_fs_refl|]. split; [by left|]. split; [done|].
  split; [|split; [done|intros; destruct Hskip; [lia|done]]].
  intros j _. rewrite Hrm. split; [|naive_solver]. intros ?. split; [done|]. split; [by intros ?%elem_of_nil|done].
Qed.

Lemma no_nonzero l : existsb nonzero l = false -> l = replicate (length l) 0.
Proof.
  induction l as [|b l IH]; simpl; [done|]. intros [Hb Hl]%orb_false_iff. unfold nonzero in Hb.
  rewrite <- (IH Hl). f_equal. lia.
Qed.

(** The loop over the indirect block, run on a file system where the block
    has just been read. *)
Lemma trunc_idbuf_run blocklen sv fs :
  fs_ok fs -> indirect_ready blocklen sv fs -> 0 <= blocklen < 142 -> sfi_indirect (sv_i sv) <> 0 ->
  let ws := entries sv (sectors fs) in
  let rm := removed (keeps_entry blocklen) 0 ws in
  exists d fs',
    sfs_rblock valid curspace fs (sfi_indirect (sv_i sv)) =
      Ok (0, blk (sectors fs) (sfi_indirect (sv_i sv)), set_dev d fs) /\
    trunc_idbuf (Z.to_nat SFS_DBPERIDB) 0 blocklen
      (words_of (blk (sectors fs) (sfi_indirect (sv_i sv)))) false false (set_dev d fs) =
      Ok (cut (keeps_entry blocklen) 0 ws, existsb nonzero (cut (keeps_entry blocklen) 0 ws),
          negb (bool_decide (rm = [])), fs') /\
    fs_ok fs' /\ same_fs fs fs' /\ sectors fs' = sectors fs /\
    forall j, 0 <= j -> bit fs' j = bit fs j && negb (bool_decide (j ∈ rm)).
Proof.
  intros Hfs [Hr Hw Hl Hnd Hu _] Hb Hi ws rm. destruct (Hr Hi) as [Hir _].
  destruct (sfs_rblock_spec valid curspace fs (sfi_indirect (sv_i sv)) Hfs) as (d & -> & Hfs1 & Hs1); [lia|].
  assert (ws = words_of (blk (sectors fs) (sfi_indirect (sv_i sv)))) as Hws.
  { unfold ws, entries. by destruct (Z.eqb_spec (sfi_indirect (sv_i sv)) 0). }
  destruct (free_all_spec rm (set_dev d fs)) as (fs' & Hfree & Hfs' & Hsame & Hdev & Hbits); [done|done|exact Hu|].
  exists d, fs'. split; [done|]. rewrite <- Hws.
  assert (length ws = 128%nat) as Hl' by done.
  destruct (cut_ext (fun k => 15 + k <=? blocklen) (keeps_entry blocklen) ws 0 0) as [Hc1 Hc2].
  { intros k Hk. unfold keeps_entry. lia. }
  split.
  { rewrite trunc_idbuf_eq by (unfold SFS_DBPERIDB; lia).
    change (Z.to_nat 0) with 0%nat. rewrite drop_0, take_0, Hc1, Hc2. fold rm.
    rewrite Hfree, bind_Ok. done. }
  split; [done|]. split; [|split; [by rewrite Hdev|done]].
  eapply same_fs_trans; [apply same_fs_dev|done].
Qed.

Lemma cut_u32 keep l : forall i, Forall is_u32 l -> Forall is_u32 (cut keep i l).
Proof.
  induction l as [|b l IH]; intros i Hl; simpl; [done|]. apply Forall_cons_1 in Hl as [Hb Hl].
  constructor; [|by apply IH]. destruct (keep i); [done|]. unfold is_u32; lia.
Qed.

Lemma entries_indirect sv S :
  sfi_indirect (sv_i sv) <> 0 -> entries sv S = words_of (blk S (sfi_indirect (sv_i sv))).
Proof. intros Hi. unfold entries. by destruct (Z.eqb_spec (sfi_indirect (sv_i sv)) 0). Qed.

(** The indirect block stays, and is written back if it changed. *)
Lemma trunc_indirect_keep blocklen sv fs fs1 :
  indirect_ready blocklen sv fs -> sfi_indirect (sv_i sv) <> 0 ->
  fs_ok fs1 -> same_fs fs fs1 -> sectors fs1 = sectors fs ->
  let ws := entries sv (sectors fs) in
  let rm := removed (keeps_entry blocklen) 0 ws in
  (forall j, 0 <= j -> bit fs1 j = bit fs j && negb (bool_decide (j ∈ rm))) ->
  existsb nonzero (cut (keeps_entry blocklen) 0 ws) = true ->
  exists fs',
    (if negb (bool_decide (rm = [])) then
       '(result, fs1) ← sfs_wblock valid curspace fs1 (word_bytes (cut (keeps_entry blocklen) 0 ws))
                          (sfi_indirect (sv_i sv));
       Ok (result, sv, fs1)
     else Ok (0, sv, fs1)) = Ok (0, sv, fs') /\
    cut_indirect blocklen sv fs sv fs'.
Proof.
  intros [Hr Hw Hl _ _ Hap] Hi Hfs1 Hsame1 Hs1 ws rm Hbits Hnz. destruct (Hr Hi) as [Hir Hib].
  assert (nblocks fs1 = nblocks fs) as Hnb by (by destruct Hsame1 as (-> & _)).
  assert (forall j, 0 < j -> bit fs1 j = true <->
     bit fs j = true /\ (j ∉ rm) /\ (j = sfi_indirect (sv_i sv) -> sfi_indirect (sv_i sv) = j)) as Hb.
  { intros j Hj. rewrite Hbits, andb_true_iff, negb_true_iff, bool_decide_eq_false by lia. naive_solver. }
  destruct (decide (rm = [])) as [Hrm|Hrm].
  - rewrite bool_decide_eq_true_2 by done. cbn [negb]. exists fs1. split; [done|].
    split; [done|]. split; [done|]. split; [by left|].
    split; [rewrite Hs1; symmetry; by apply removed_nil_cut|].
    split; [exact Hb|]. split; [intros j _ _; by rewrite Hs1|]. fold ws. congruence.
  - rewrite bool_decide_eq_false_2 by done. cbn [negb]. set (c := cut (keeps_entry blocklen) 0 ws).
    assert (length c = 128%nat) as Hlc by (unfold c; by rewrite length_cut).
    destruct (sfs_wblock_spec valid curspace fs1 (word_bytes c) (sfi_indirect (sv_i sv)))
      as (d2 & -> & Hfs2 & Hs2); [done|lia|rewrite length_word_bytes; lia|].
    rewrite bind_Ok. exists (set_dev d2 fs1). split; [done|]. split; [done|].
    split. { eapply same_fs_trans; [done|apply same_fs_dev]. }
    split; [by left|]. destruct (fs_sector fs1 (sfi_indirect (sv_i sv)) Hfs1) as [Hlk _]; [lia|].
    split; [|split; [exact Hb|split; [|fold ws c; unfold c; congruence]]].
    + fold ws c. rewrite entries_indirect by done. unfold blk. simpl.
      rewrite Hs2, list_lookup_total_insert_eq by (by eapply lookup_lt_Some).
      apply words_of_bytes, cut_u32, Hw.
    + intros j Hj Hne. simpl. rewrite Hs2, list_lookup_insert_ne by lia. by rewrite Hs1.
Qed.

Lemma trunc_indirect_run blocklen sv fs :
  fs_ok fs -> indirect_ready blocklen sv fs -> 0 <= blocklen < 142 -> sfi_indirect (sv_i sv) <> 0 ->
  exists sv' fs', trunc_indirect valid curspace blocklen sv fs = Ok (0, sv', fs') /\
    cut_indirect blocklen sv fs sv' fs'.
Proof.
  intros Hfs Hrdy Hb Hi. pose proof Hrdy as [Hr Hw Hl _ _ Hap]. destruct (Hr Hi) as [Hir Hib].
  destruct (trunc_idbuf_run blocklen sv fs Hfs Hrdy Hb Hi)
    as (d & fs1 & Hrd & Hloop & Hfs1 & Hsame1 & Hs1 & Hbits).
  unfold trunc_indirect. rewrite Hrd. unfold SFS_NDIRECT, SFS_DBPERIDB in *.
  assert (((blocklen <? 15 + 128 - 1) && negb (sfi_indirect (sv_i sv) =? 0)) = true) as -> by lia.
  rewrite bind_Ok. cbn [Z.eqb negb]. rewrite Hloop, bind_Ok.
  destruct (existsb nonzero _) eqn:Hnz; cbn [negb].
  { destruct (trunc_indirect_keep blocklen sv fs fs1) as (fs' & E & Hc); [done..|]. by exists sv, fs'. }
  assert (nblocks fs1 = nblocks fs) as Hnb by (by destruct Hsame1 as (-> & _)).
  destruct (sfs_bfree_spec fs1 (sfi_indirect (sv_i sv)) Hfs1) as (fs2 & -> & Hfs2 & Hsame2 & Hdev2 & Hbits2).
  { lia. }
  { rewrite Hbits, Hib by lia. by rewrite bool_decide_eq_false_2. }
  rewrite bind_Ok. do 2 eexists. split; [reflexivity|]. split; [done|].
  split; [by eapply same_fs_trans|]. split; [by right|].
  split. { apply no_nonzero in Hnz. rewrite length_cut, Hl in Hnz. by rewrite Hnz. }
  split; [|split; [intros j _ _; by rewrite Hdev2, Hs1|done]].
  intros j Hj. rewrite Hbits2 by lia. simpl. destruct (Z.eqb_spec j (sfi_indirect (sv_i sv))) as [->|Hne].
  - split; [done|]. intros (_ & _ & E). specialize (E eq_refl). lia.
  - rewrite Hbits, andb_true_iff, negb_true_iff, bool_decide_eq_false by lia. split.
    + intros [? ?]. split; [done|]. by split.
    + by intros (? & ? & _).
Qed.

Lemma mapping_entries sv S : mapping sv S = sfi_direct (sv_i sv) ++ entries sv S.
Proof. done. Qed.

(** The cut of the block map is the cut of the direct blocks and of the
    indirect block. *)
Lemma cut_mapping blocklen sv fs :
  length (sfi_direct (sv_i sv)) = 15%nat ->
  let M := mapping sv (sectors fs) in
  cut (keeps blocklen) 0 M =
    cut (fun k => k <? blocklen) 0 (sfi_direct (sv_i sv)) ++
    cut (keeps_entry blocklen) 0 (entries sv (sectors fs)) /\
  removed (keeps blocklen) 0 M =
    removed (fun k => k <? blocklen) 0 (sfi_direct (sv_i sv)) ++
    removed (keeps_entry blocklen) 0 (entries sv (sectors fs)).
Proof.
  intros Hl M. unfold M. rewrite mapping_entries, cut_app, removed_app, Hl.
  destruct (cut_ext (keeps blocklen) (fun k => k <? blocklen) (sfi_direct (sv_i sv)) 0 0) as [-> ->].
  { intros k Hk. unfold keeps. destruct (Z.ltb_spec (0 + k) 15); [done|lia]. }
  destruct (cut_ext (keeps blocklen) (keeps_entry blocklen) (entries sv (sectors fs)) (0 + Z.of_nat 15) 0)
    as [-> ->].
  { intros k Hk. unfold keeps. destruct (Z.ltb_spec (0 + Z.of_nat 15 + k) 15); [lia|]. f_equal. lia. }
  done.
Qed.

Lemma removed_in_use blocklen sv fs :
  file_ok sv fs -> Forall (in_use fs) (removed (keeps blocklen) 0 (mapping sv (sectors fs))).
Proof.
  intros Hf. apply Forall_forall. intros x (k & Hk & _ & Hx)%elem_removed.
  destruct (ptrs_ok sv fs x Hf) as [? ?]; [right; by eapply list_elem_of_lookup_2|].
  split; [lia|done].
Qed.

Lemma mapping_distinct sv fs : file_ok sv fs -> distinct (mapping sv (sectors fs)).
Proof.
  intros (_ & _ & _ & Hd) i j b Hb Hi Hj. specialize (Hd (Datatypes.S i) (Datatypes.S j) b Hb Hi Hj). lia.
Qed.

(** After the loop over the direct blocks. *)
Lemma trunc_direct_run blocklen sv fs :
  fs_ok fs -> file_ok sv fs ->
  let rm := removed (fun k => k <? blocklen) 0 (sfi_direct (sv_i sv)) in
  let sv1 := cut_direct (cut (fun k => k <? blocklen) 0 (sfi_direct (sv_i sv))) rm sv in
  exists fs1, trunc_direct (Z.to_nat SFS_NDIRECT) 0 blocklen sv fs = Ok (sv1, fs1) /\
    fs_ok fs1 /\ same_fs fs fs1 /\ sectors fs1 = sectors fs /\
    (forall j, 0 <= j -> bit fs1 j = bit fs j && negb (bool_decide (j ∈ rm))) /\
    indirect_ready blocklen sv1 fs1.
Proof.
  intros Hfs Hf rm sv1. pose proof Hf as (Hl & _ & Hp & Hdist).
  pose proof (removed_in_use blocklen sv fs Hf) as Hu.
  pose proof (removed_NoDup (keeps blocklen) _ 0 (mapping_distinct sv fs Hf)) as Hnd.
  destruct (cut_mapping blocklen sv fs Hl) as [_ Hrm]. rewrite Hrm in Hu, Hnd. fold rm in Hu, Hnd.
  apply Forall_app in Hu as [Hu1 Hu2]. apply NoDup_app in Hnd as (Hnd1 & Hnd12 & Hnd2).
  destruct (free_all_spec rm fs Hfs Hnd1 Hu1) as (fs1 & Hfree & Hfs1 & Hsame & Hdev & Hbits).
  exists fs1. split.
  { rewrite trunc_direct_eq by (unfold SFS_NDIRECT; lia). change (Z.to_nat 0) with 0%nat.
    rewrite drop_0, take_0. fold rm. by rewrite Hfree, bind_Ok. }
  split; [done|]. split; [done|]. split; [by rewrite Hdev|]. split; [done|].
  assert (entries sv1 (sectors fs1) = entries sv (sectors fs)) as He by (by rewrite Hdev).
  assert (nblocks fs1 = nblocks fs) as Hnb by (by destruct Hsame as (-> & _)).
  assert (forall x, in_use fs x -> x ∉ rm -> in_use fs1 x) as Hin.
  { intros x [Hx Hxb] Hxr. split; [by rewrite Hnb|]. rewrite Hbits, Hxb by lia.
    by rewrite bool_decide_eq_false_2. }
  constructor; rewrite ?He; try done.
  - intros Hi. change (sfi_indirect (sv_i sv) <> 0) in Hi.
    change (sfi_indirect (sv_i sv1)) with (sfi_indirect (sv_i sv)). apply Hin.
    + destruct (ptrs_ok sv fs (sfi_indirect (sv_i sv)) Hf) as [? ?]; [left|]. split; [lia|done].
    + intros (k & Hk & _ & _)%elem_removed.
      assert (mapping sv (sectors fs) !! k = Some (sfi_indirect (sv_i sv))) as Hk'.
      { rewrite mapping_entries. by rewrite lookup_app, Hk. }
      by destruct (ptrs_data sv fs k _ Hf Hk' Hi).
  - apply Forall_forall. intros x Hx. destruct (ptrs_ok sv fs x Hf) as [Hxr _].
    { right. rewrite mapping_entries. apply elem_of_app. by right. }
    pose proof (fs_small fs x Hfs Hxr). unfold is_u32. lia.
  - pose proof (length_mapping sv fs Hfs Hf) as Hlm. rewrite mapping_entries, length_app in Hlm. lia.
  - apply Forall_forall. intros x Hx. rewrite Forall_forall in Hu2. apply Hin; [by apply Hu2|].
    intros Hx1. by apply (Hnd12 x).
  - intros (k & Hk & _ & Hi)%elem_removed.
    change (sfi_indirect (sv_i sv1)) with (sfi_indirect (sv_i sv)) in *.
    assert (mapping sv (sectors fs) !! (15 + k)%nat = Some (sfi_indirect (sv_i sv))) as Hk'.
    { rewrite mapping_entries, lookup_app_r by lia. rewrite <- Hk. f_equal. lia. }
    by destruct (ptrs_data sv fs _ _ Hf Hk' Hi).
Qed.

(** The file and the file system after a truncation to [len] bytes. *)
Record truncated (blocklen len : Z) sv fs sv' fs' : Prop := {
  tr_fs : fs_ok fs';
  tr_file : file_ok sv' fs';
  tr_same : same_fs fs fs';
  tr_map : mapping sv' (sectors fs') = cut (keeps blocklen) 0 (mapping sv (sectors fs));
  tr_bits : forall j, 0 < j -> bit fs' j = true <->
    bit fs j = true /\ (j ∈ ptrs sv (sectors fs) -> j ∈ ptrs sv' (sectors fs'));
  tr_frame : forall j, 0 <= j -> j <> sfi_indirect (sv_i sv) ->
    sectors fs' !! Z.to_nat j = sectors fs !! Z.to_nat j;
  tr_size : sfi_size (sv_i sv') = len;
  tr_indirect : sfi_indirect (sv_i sv') = sfi_indirect (sv_i sv) \/ sfi_indirect (sv_i sv') = 0;
  tr_dirty : sv_dirty sv' = true;
  tr_rest : sv_v sv' = sv_v sv /\ sv_ino sv' = sv_ino sv /\
    sfi_type (sv_i sv') = sfi_type (sv_i sv) /\
    sfi_linkcount (sv_i sv') = sfi_linkcount (sv_i sv) /\
    sfi_waste (sv_i sv') = sfi_waste (sv_i sv);
}.

(** A block the file had is still its own exactly if it was not removed. *)
Lemma ptrs_cut sv fs keep ind' :
  file_ok sv fs -> ind' = sfi_indirect (sv_i sv) \/ ind' = 0 ->
  let M := mapping sv (sectors fs) in
  forall j, j <> 0 ->
    (j ∈ ptrs sv (sectors fs) -> j ∈ ind' :: cut keep 0 M) <->
    ((j ∉ removed keep 0 M) /\ (j = sfi_indirect (sv_i sv) -> ind' = j)).
Proof.
  intros Hf Hind M j Hj. pose proof (mapping_distinct sv fs Hf) as HdM. fold M in HdM.
  assert (j = sfi_indirect (sv_i sv) -> j ∉ M) as Hapart.
  { intros -> [k Hk]%list_elem_of_lookup. by destruct (ptrs_data sv fs k _ Hf Hk Hj). }
  unfold ptrs. fold M. rewrite !elem_of_cons. split.
  - intros Himp. split.
    + intros Hrm. assert (j ∈ M) as HM.
      { apply elem_removed in Hrm as (k & Hk & _). by eapply list_elem_of_lookup_2. }
      destruct Himp as [->|Hc]; [by right| |].
      * destruct Hind as [E|E]; [by apply Hapart|done].
      * by rewrite cut_elem in Hc by done.
    + intros E. destruct Himp as [?|Hc]; [by left|done|].
      apply cut_sub in Hc; [|done]. by destruct (Hapart E).
  - intros [Hrm Hi] [E|HM]; [left; symmetry; auto|right]. by apply cut_elem.
Qed.

Lemma truncated_intro blocklen len sv fs sv' fs' :
  fs_ok fs -> file_ok sv fs -> fs_ok fs' -> same_fs fs fs' -> 0 <= len < 2147483648 ->
  length (sfi_direct (sv_i sv')) = 15%nat ->
  let M := mapping sv (sectors fs) in
  mapping sv' (sectors fs') = cut (keeps blocklen) 0 M ->
  sfi_indirect (sv_i sv') = sfi_indirect (sv_i sv) \/ sfi_indirect (sv_i sv') = 0 ->
  (forall j, 0 < j -> bit fs' j = true <->
     bit fs j = true /\ (j ∉ removed (keeps blocklen) 0 M) /\
     (j = sfi_indirect (sv_i sv) -> sfi_indirect (sv_i sv') = j)) ->
  (forall j, 0 <= j -> j <> sfi_indirect (sv_i sv) ->
     sectors fs' !! Z.to_nat j = sectors fs !! Z.to_nat j) ->
  sfi_size (sv_i sv') = len -> sv_dirty sv' = true ->
  sv_v sv' = sv_v sv /\ sv_ino sv' = sv_ino sv /\
    sfi_type (sv_i sv') = sfi_type (sv_i sv) /\
    sfi_linkcount (sv_i sv') = sfi_linkcount (sv_i sv) /\
    sfi_waste (sv_i sv') = sfi_waste (sv_i sv) ->
  truncated blocklen len sv fs sv' fs'.
Proof.
  intros Hfs Hf Hfs' Hsame Hlen Hl M Hmap Hind Hb Hfr Hsz Hd Hrest. subst M.
  assert (forall j, 0 < j -> bit fs' j = true <->
    bit fs j = true /\ (j ∈ ptrs sv (sectors fs) -> j ∈ ptrs sv' (sectors fs'))) as Hbits.
  { intros j Hj. unfold ptrs at 2. rewrite Hmap.
    rewrite (ptrs_cut sv fs (keeps blocklen) _ Hf Hind) by lia. by apply Hb. }
  assert (nblocks fs' = nblocks fs) as Hnb by (by destruct Hsame as (-> & _)).
  constructor; try done. split; [done|]. split; [lia|]. split.
  - apply Forall_forall. intros x Hx. rewrite Hnb. destruct (decide (x = 0)) as [->|Hx0].
    { destruct Hfs' as (_ & ? & _ & _ & _ & ?). split; [lia|done]. }
    assert (x ∈ ptrs sv (sectors fs)) as Hxo.
    { unfold ptrs in Hx |- *. rewrite Hmap in Hx.
      apply elem_of_cons in Hx as [->|Hx]; [destruct Hind as [->|?]; [left|done]|right]. by eapply cut_sub. }
    destruct (ptrs_ok sv fs x Hf Hxo) as [Hxr Hxb]. split; [done|]. apply Hbits; [lia|done].
  - unfold ptrs. rewrite Hmap. apply (cut_distinct _ (sfi_indirect (sv_i sv))); [|done].
    by destruct Hf as (_ & _ & _ & ?).
Qed.

(** The block map is left with no hole filled: the indirect block is gone. *)
Definition no_blocks sv S : Prop := forall b, b ∈ ptrs sv S -> b = 0.

Lemma sfs_truncate_spec sv fs len :
  fs_ok fs -> file_ok sv fs -> 0 <= len < 2147483136 ->
  exists sv' fs', sfs_truncate valid curspace sv len fs = Ok (0, sv', fs') /\
    truncated ((len + 511) / 512) len sv fs sv' fs' /\
    (len = 0 -> no_blocks sv' (sectors fs')).
Proof.
  intros Hfs Hf Hlen. unfold sfs_truncate, SFS_BLOCKSIZE. nowrap.
  rewrite Z.quot_div_nonneg by lia. rewrite (u32_small ((len + 512 - 1) / 512)) by dlia.
  replace (len + 512 - 1) with (len + 511) by lia. set (bl := (len + 511) / 512).
  assert (0 <= bl) by (unfold bl; dlia). pose proof Hf as (Hl & Hsz & Hp & Hdist).
  destruct (trunc_direct_run bl sv fs Hfs Hf) as (fs1 & -> & Hfs1 & Hsame1 & Hs1 & Hbits1 & Hrdy).
  rewrite bind_Ok.
  set (rm1 := removed _ 0 (sfi_direct (sv_i sv))) in *. set (sv1 := cut_direct _ rm1 sv) in *.
  assert (exists sv2 fs2, trunc_indirect valid curspace bl sv1 fs1 = Ok (0, sv2, fs2) /\
            cut_indirect bl sv1 fs1 sv2 fs2) as (sv2 & fs2 & -> & Hfs2 & Hsame2 & Hsv2 & He & Hb2 & Hfr2 & Hz).
  { destruct (decide (142 <= bl \/ sfi_indirect (sv_i sv1) = 0)) as [Hskip|Hrun].
    - exists sv1, fs1. by apply trunc_indirect_skip.
    - apply trunc_indirect_run; [done|done|lia|]. intros E. apply Hrun. by right. }
  rewrite bind_Ok. cbn [Z.eqb negb]. do 2 eexists. split; [reflexivity|].
  set (sv' := set_dirty true _).
  assert (sfi_direct (sv_i sv') = cut (fun k => k <? bl) 0 (sfi_direct (sv_i sv))) as Hdir
    by (by destruct Hsv2 as [->| ->]).
  assert (entries sv1 (sectors fs1) = entries sv (sectors fs)) as He1 by (by rewrite Hs1).
  destruct (cut_mapping bl sv fs Hl) as [Hcm Hrm]. fold rm1 in Hrm.
  assert (mapping sv' (sectors fs2) = cut (keeps bl) 0 (mapping sv (sectors fs))) as Hmap.
  { rewrite Hcm, mapping_entries, Hdir. change (entries sv' (sectors fs2)) with (entries sv2 (sectors fs2)).
    by rewrite He, He1. }
  split.
  - apply truncated_intro; try done.
    + by eapply same_fs_trans.
    + lia.
    + by rewrite Hdir, length_cut.
    + change (sfi_indirect (sv_i sv')) with (sfi_indirect (sv_i sv2)). destruct Hsv2 as [->| ->]; auto.
    + intros j Hj. change (sfi_indirect (sv_i sv')) with (sfi_indirect (sv_i sv2)).
      rewrite Hb2, Hbits1, He1, Hrm, not_elem_of_app, andb_true_iff, negb_true_iff, bool_decide_eq_false by lia.
      change (sfi_indirect (sv_i sv1)) with (sfi_indirect (sv_i sv)). clear. tauto.
    + intros j Hj Hne. by rewrite Hfr2, Hs1.
    + by destruct Hsv2 as [->| ->].
  - intros E0. assert (bl = 0) as Hbl0 by (unfold bl; by rewrite E0). intros b Hb.
    unfold ptrs in Hb. rewrite Hmap in Hb. apply elem_of_cons in Hb as [->|Hb].
    + apply Hz; [lia|]. apply cut_none. intros k Hk. unfold keeps_entry. lia.
    + apply cut_none in Hb; [done|]. intros k Hk. unfold keeps, keeps_entry. destruct (Z.ltb_spec k 15); lia.
Qed.

(** What a truncation to [len] bytes, of [bl] blocks, promises: the blocks up
    to the new end are the file's as before, with their contents; the blocks
    past it are gone.  Nothing is promised of block [bl] itself when it is in
    the indirect block, but that it is gone or as before. *)
Record shortened (bl len : Z) sv fs sv' fs' : Prop := {
  sh_fs : fs_ok fs' /\ file_ok sv' fs' /\ same_fs fs fs';
  sh_kept k : Z.of_nat k < bl -> mapping sv' (sectors fs') !! k = mapping sv (sectors fs) !! k /\
    content sv' (sectors fs') !! k = content sv (sectors fs) !! k;
  sh_gone k : bl <= Z.of_nat k < 143 -> bl < Z.of_nat k \/ bl < 15 -> mapping sv' (sectors fs') !! k = Some 0;
  sh_none_new k : mapping sv' (sectors fs') !! k = mapping sv (sectors fs) !! k \/ mapping sv' (sectors fs') !! k = Some 0;
  sh_free j : 0 < j -> bit fs' j = true <-> bit fs j = true /\ (j ∈ ptrs sv (sectors fs) -> j ∈ ptrs sv' (sectors fs'));
  sh_frame j : 0 <= j -> j <> sfi_indirect (sv_i sv) -> sectors fs' !! Z.to_nat j = sectors fs !! Z.to_nat j;
  sh_size : sfi_size (sv_i sv') = len /\ sv_dirty sv' = true;
  sh_rest : sv_v sv' = sv_v sv /\ sv_ino sv' = sv_ino sv /\ sfi_type (sv_i sv') = sfi_type (sv_i sv) /\
    sfi_linkcount (sv_i sv') = sfi_linkcount (sv_i sv) /\ sfi_waste (sv_i sv') = sfi_waste (sv_i sv);
}.

(** The data of a block of the file is where it was. *)
Lemma cell_same sv fs sv' fs' bl len k b : file_ok sv fs -> truncated bl len sv fs sv' fs' -> mapping sv (sectors fs) !! k = Some b ->
  cell (sectors fs') b = cell (sectors fs) b.
Proof.
  intros Hf Ht Hb. unfold cell. destruct (Z.eqb_spec b 0) as [|Hb0]; [done|]. unfold blk. rewrite !list_lookup_total_alt. f_equal. apply (tr_frame _ _ _ _ _ _ Ht).
  - assert (b ∈ ptrs sv (sectors fs)) as Hin by (right; by eapply list_elem_of_lookup_2). by destruct (ptrs_ok sv fs b Hf Hin) as [? _]; lia.
  - intros ->. destruct Hf as (_ & _ & _ & Hd). specialize (Hd 0%nat (S k) _ Hb0 eq_refl Hb). done.
Qed.

Lemma truncated_shortened bl len sv fs sv' fs' : fs_ok fs -> file_ok sv fs -> 0 <= bl -> truncated bl len sv fs sv' fs' -> shortened bl len sv fs sv' fs'.
Proof.
  intros Hfs Hf Hbl Ht. assert (forall k, mapping sv' (sectors fs') !! k = (fun b => if keeps bl (Z.of_nat k) then b else 0) <$> mapping sv (sectors fs) !! k) as Hm.
  { intros k. by rewrite (tr_map _ _ _ _ _ _ Ht), cut_lookup. }
  assert (length (mapping sv (sectors fs)) = 143%nat) as Hlen by (by apply length_mapping).
  assert (forall k, Z.of_nat k < bl -> mapping sv' (sectors fs') !! k = mapping sv (sectors fs) !! k) as Hkept.
  { intros k Hk. rewrite Hm. assert (keeps bl (Z.of_nat k) = true) as ->; [|by destruct (_ !! k)].
    unfold keeps, keeps_entry. destruct (Z.ltb_spec (Z.of_nat k) 15); lia. }
  split; try apply Ht.
  - split; [apply Ht|]. split; apply Ht.
  - intros k Hk. split; [by apply Hkept|]. unfold content. rewrite !list_lookup_fmap, Hkept by done.
    destruct (mapping sv (sectors fs) !! k) as [b|] eqn:Hb; [|done]. cbn. f_equal. by eapply cell_same.
  - intros k Hk Hc. rewrite Hm. assert (keeps bl (Z.of_nat k) = false) as ->.
    { unfold keeps, keeps_entry. destruct (Z.ltb_spec (Z.of_nat k) 15); lia. }
    destruct (lookup_lt_is_Some_2 (mapping sv (sectors fs)) k) as [b ->]; [lia|done].
  - intros k. rewrite Hm. destruct (keeps bl (Z.of_nat k)); [left; by destruct (_ !! k)|].
    destruct (mapping sv (sectors fs) !! k); [by right|by left].
  - split; apply Ht.
Qed.

(** C29. Truncation.  [sfs_truncate] to [len] bytes succeeds, sets the size and
    marks the inode dirty.  The blocks that hold the first [len] bytes stay
    the file's, with their contents; the blocks past them are dropped from
    the block map, of which nothing is claimed for the first of them when it
    is in the indirect block (see [sfs_truncate_keeps_extra_block]).  A block
    becomes free exactly if the file had it and has it no longer, the indirect
    block included; blocks outside the file keep their contents.  Truncating
    to 0 leaves the file no block at all. *)
Theorem sfs_truncate_exact sv fs len :
  fs_ok fs -> file_ok sv fs -> 0 <= len < 2147483136 ->
  exists sv' fs', sfs_truncate valid curspace sv len fs = Ok (0, sv', fs') /\
    shortened ((len + 511) / 512) len sv fs sv' fs' /\
    (len = 0 -> no_blocks sv' (sectors fs')).
Proof.
  intros Hfs Hf Hlen. destruct (sfs_truncate_spec sv fs len Hfs Hf Hlen) as (sv' & fs' & E & Ht & Hn). exists sv', fs'. split; [done|]. split; [|done].
  apply truncated_shortened; [done|done| |done]. apply Z.div_pos; lia.
Qed.

(** Truncation keeps a block too many.  When the new length needs [bl]
    blocks, 15 or more, block [bl] of the file (counted from 0), which lies
    wholly past the new end, stays in the block map and stays in use. *)
Theorem sfs_truncate_keeps_extra_block sv fs len b :
  fs_ok fs -> file_ok sv fs -> 0 <= len < 2147483136 -> 15 <= (len + 511) / 512 ->
  mapping sv (sectors fs) !! Z.to_nat ((len + 511) / 512) = Some b -> b <> 0 ->
  exists sv' fs', sfs_truncate valid curspace sv len fs = Ok (0, sv', fs') /\
    mapping sv' (sectors fs') !! Z.to_nat ((len + 511) / 512) = Some b /\ bit fs' b = true.
Proof.
  intros Hfs Hf Hlen Hbl Hb Hb0.
  destruct (sfs_truncate_spec sv fs len Hfs Hf Hlen) as (sv' & fs' & E & Ht & _).
  exists sv', fs'. split; [done|].
  assert (mapping sv' (sectors fs') !! Z.to_nat ((len + 511) / 512) = Some b) as Hm.
  { rewrite (tr_map _ _ _ _ _ _ Ht), cut_lookup, Hb. simpl. f_equal. unfold keeps, keeps_entry.
    rewrite Z2Nat.id by lia. destruct (Z.ltb_spec (0 + (len + 511) / 512) 15); [lia|].
    by assert ((15 + (0 + (len + 511) / 512 - 15) <=? (len + 511) / 512) = true) as -> by lia. }
  split; [done|]. apply (ptrs_ok sv' fs'); [apply Ht|]. right. by eapply list_elem_of_lookup_2.
Qed.
End spec.

(** ** A file with an indirect block *)

#[local] Instance good_disk : DiskLaws ramdisk := ramdisk_laws false.
#[local] Existing Instance ramdisk_sound.

(** Block 3 is the indirect block of a file, block 4 its first entry. *)
Definition id8 : list Z := word_bytes (4 :: replicate 127 0).
Definition fs8i : sfs_fs (lhd_softc ramdisk) :=
  mk_sfs sb8 false
    (mk_lhd (replicate 512 0) 0 1 0 8 0 0
       (mk_ramdisk [zeros; zeros; zeros; id8; zeros; zeros; zeros; zeros] []))
    (mk_array 0 0 None) (mk_bitmap 8 [31]) false ∅.
Definition file8i : sfs_vnode :=
  mk_sv (mk_vnode 1 0 true None None (Some sfs_fileops))
    (mk_inode 8000 SFS_TYPE_FILE 1 (replicate 15 0) 3 (replicate 110 0)) 1 false.

Lemma fs8i_ok : fs_ok fs8i.
Proof.
  unfold fs_ok; simpl. split.
  { split; [done|]. split; [done|]. split; [done|]. split; [|done]. split; [|done].
    split; [|done]. simpl. by repeat constructor. }
  split; [lia|]. split; [|split; [lia|split; [intros; lia|done]]].
  split; [simpl; lia|]. split; [done|]. split; [repeat constructor; lia|].
  simpl. intros i Hi. change (bm_words 8) with 1 in Hi. lia.
Qed.

Lemma file8i_ptrs : ptrs file8i (dev_sectors (sfs_device fs8i)) = 3 :: replicate 15 0 ++ 4 :: replicate 127 0.
Proof. vm_compute. reflexivity. Qed.

Lemma file8i_ok : file_ok file8i fs8i.
Proof.
  split; [done|]. split; [simpl; lia|]. rewrite file8i_ptrs. split.
  - constructor; [split; [simpl; lia|done]|]. apply Forall_app. split.
    + apply Forall_replicate. split; [simpl; lia|done].
    + constructor; [split; [simpl; lia|done]|]. apply Forall_replicate. split; [simpl; lia|done].
  - intros i j b Hb Hi Hj.
    assert (forall k, (3 :: replicate 15 0 ++ 4 :: replicate 127 0) !! k = Some b ->
              k = 0%nat /\ b = 3 \/ k = 16%nat /\ b = 4) as Hone.
    { intros k Hk. destruct k as [|k]; [simpl in Hk; left; split; congruence|]. right.
      change ((replicate 15 0 ++ 4 :: replicate 127 0) !! k = Some b) in Hk.
      apply lookup_app_Some in Hk as [Hk|[Hge Hk]]; [by apply lookup_replicate in Hk as [-> _]|].
      rewrite length_replicate in *. destruct (k - 15)%nat as [|m] eqn:Em.
      - split; [lia|]. by injection Hk.
      - change (replicate 127 0 !! m = Some b) in Hk. by apply lookup_replicate in Hk as [-> _]. }
    apply Hone in Hi, Hj. lia.
Qed.

Lemma sfs_truncate_exact_witness :
  exists sv' fs', sfs_truncate (fun _ => true) None file8i 0 fs8i = Ok (0, sv', fs') /\
    no_blocks sv' (dev_sectors (sfs_device fs')).
Proof.
  destruct (sfs_truncate_exact (fun _ => true) None file8i fs8i 0 fs8i_ok file8i_ok)
    as (sv' & fs' & E & _ & Hn); [lia|].
  exists sv', fs'. split; [exact E|]. apply Hn. reflexivity.
Defined.

Lemma sfs_truncate_keeps_extra_block_witness :
  exists sv' fs', sfs_truncate (fun _ => true) None file8i 7680 fs8i = Ok (0, sv', fs') /\
    mapping sv' (dev_sectors (sfs_device fs')) !! 15%nat = Some 4 /\ bm_bit (sfs_freemap fs') 4 = true.
Proof.
  apply (sfs_truncate_keeps_extra_block (fun _ => true) None file8i fs8i 7680 4 fs8i_ok file8i_ok).
  - lia.
  - vm_compute. discriminate.
  - vm_compute. reflexivity.
  - discriminate.
Defined.
