(* ===== verification/SfsDir.v ===== *)
(** * kern/fs/sfs/sfs_vnode.c: directories

    A directory is a file of 64-byte entries.  Names are the characters of a
    C string without the terminating 0. *)
From stdpp Require Import base numbers list option gmap.
From S2P Require Import Prelude KArray Bitmap Uio Device Lhd SfsDisk Vnode SfsIo SfsFile.
Local Open Scope Z_scope.

Section dir.
Context {D : Type} `{!BlockDev D}.
Variables (valid : Z -> bool) (curspace : option Z).
Implicit Types (fs : sfs_fs D) (sv : sfs_vnode).

Definition sfs_readdir sv (slot : Z) fs : res (Z * sfs_dir * sfs_vnode * sfs_fs D) :=
  let actualpos := i32 (slot * SFS_DIRSIZE) in
  '(result, ku, sv, fs) ← sfs_io valid curspace sv (mk_kuio [] SFS_DIRSIZE actualpos UIO_READ) fs;
  let sd := dir_of (iov_data ku) in
  if negb (result =? 0) then Ok (result, sd, sv, fs)
  else if uio_resid ku >? 0 then Panic
  else Ok (0, sd, sv, fs).

Definition sfs_writedir sv (sd : sfs_dir) (slot : Z) fs : res (Z * sfs_vnode * sfs_fs D) :=
  _ ← assert (slot >=? 0);
  let actualpos := i32 (slot * SFS_DIRSIZE) in
  '(result, ku, sv, fs) ← sfs_io valid curspace sv (mk_kuio (dir_bytes sd) SFS_DIRSIZE actualpos UIO_WRITE) fs;
  if negb (result =? 0) then Ok (result, sv, fs)
  else if uio_resid ku >? 0 then Panic
  else Ok (0, sv, fs).

Definition sfs_dir_nentries sv : res Z :=
  _ ← assert (sfi_type (sv_i sv) =? SFS_TYPE_DIR);
  let size := i32 (sfi_size (sv_i sv)) in
  if negb (u32 size `mod` SFS_DIRSIZE =? 0) then Panic
  else Ok (i32 (u32 size / SFS_DIRSIZE)).

(** The loop of [sfs_dir_findname] at slot [i], with [n] slots left: the error
    code, [*ino], [*slot] and [*emptyslot]. *)
Fixpoint findname_loop (n : nat) (i : Z) (name : list Z) (found : bool) (ino slot emptyslot : Z) sv fs
    : res (Z * Z * Z * Z * sfs_vnode * sfs_fs D) :=
  match n with
  | O => Ok (if found then 0 else ENOENT, ino, slot, emptyslot, sv, fs)
  | S n =>
      '(result, tsd, sv, fs) ← sfs_readdir sv i fs;
      if negb (result =? 0) then Ok (result, ino, slot, emptyslot, sv, fs)
      else if sfd_ino tsd =? SFS_NOINO then findname_loop n (i + 1) name found ino slot i sv fs
      else
        (* tsd.sfd_name[sizeof(tsd.sfd_name)-1] = 0 *)
        let entry := cstring (<[59%nat := 0]> (sfd_name tsd)) in
        if bool_decide (entry = name) then
          _ ← assert (negb found);
          findname_loop n (i + 1) name true (sfd_ino tsd) i emptyslot sv fs
        else findname_loop n (i + 1) name found ino slot emptyslot sv fs
  end.

(** [ino], [slot] and [emptyslot] are what the caller's variables hold. *)
Definition sfs_dir_findname sv (name : list Z) (ino slot emptyslot : Z) fs
    : res (Z * Z * Z * Z * sfs_vnode * sfs_fs D) :=
  nentries ← sfs_dir_nentries sv;
  findname_loop (Z.to_nat nentries) 0 name false ino slot emptyslot sv fs.

(** The error code and [*slot]. *)
Definition sfs_dir_link sv (name : list Z) (ino slot : Z) fs : res (Z * Z * sfs_vnode * sfs_fs D) :=
  '(result, _, _, emptyslot, sv, fs) ← sfs_dir_findname sv name 0 0 (-1) fs;
  if negb (result =? 0) && negb (result =? ENOENT) then Ok (result, slot, sv, fs)
  else if result =? 0 then Ok (EEXIST, slot, sv, fs)
  else if u32 (Z.of_nat (length name) + 1) >? SFS_NAMELEN then Ok (ENAMETOOLONG, slot, sv, fs)
  else
    emptyslot ← (if emptyslot <? 0 then sfs_dir_nentries sv else Ok emptyslot);
    (* bzero, strcpy *)
    let sd := mk_dir ino (name ++ replicate (60 - length name) 0) in
    '(result, sv, fs) ← sfs_writedir sv sd emptyslot fs;
    Ok (result, emptyslot, sv, fs).

Definition sfs_dir_unlink sv (slot : Z) fs : res (Z * sfs_vnode * sfs_fs D) :=
  sfs_writedir sv (mk_dir SFS_NOINO (replicate 60 0)) slot fs.
End dir.

(** ** The entries of a directory *)

Definition dent (F : list Z) (k : nat) : sfs_dir := dir_of (take 64 (drop (64 * k) F)).
Definition nslots (sv : sfs_vnode) : nat := Z.to_nat (sfi_size (sv_i sv) / 64).
Definition dents (sv : sfs_vnode) (S : list (list Z)) : list sfs_dir := dent (flat sv S) <$> seq 0 (nslots sv).

Definition used (d : sfs_dir) : Prop := sfd_ino d <> 0.
Definition ename (d : sfs_dir) : list Z := cstring (<[59%nat := 0]> (sfd_name d)).

(** No two entries in use have the same name. *)
Definition unique_names (l : list sfs_dir) : Prop :=
  forall i j d e, l !! i = Some d -> l !! j = Some e -> used d -> used e -> ename d = ename e -> i = j.

(** The directory [l] is the map [m] from names to inode numbers. *)
Definition dir_shows (l : list sfs_dir) (m : gmap (list Z) Z) : Prop :=
  forall name ino, m !! name = Some ino <->
    exists k d, l !! k = Some d /\ used d /\ ename d = name /\ sfd_ino d = ino.

Lemma splice_lookup (f d : list Z) k i :
  (k + length d <= length f)%nat ->
  splice f k d !! i = if decide (k <= i < k + length d)%nat then d !! (i - k)%nat else f !! i.
Proof.
  intros Hk. unfold splice. assert (length (take k f) = k) as Hl by (rewrite length_take; lia).
  destruct (decide (i < k)%nat) as [Hlt|Hge].
  - rewrite lookup_app_l, lookup_take_lt by lia. by rewrite decide_False by lia.
  - rewrite lookup_app_r, Hl by lia. destruct (decide (i < k + length d)%nat) as [Hlt|Hge2].
    + rewrite lookup_app_l by lia. by rewrite decide_True by lia.
    + rewrite lookup_app_r, lookup_drop, decide_False by lia. f_equal. lia.
Qed.

Lemma dent_splice F k j b :
  length b = 64%nat -> (64 * k + 64 <= length F)%nat ->
  dent (splice F (64 * k) b) j = if decide (j = k) then dir_of b else dent F j.
Proof.
  intros Hb Hk.
  assert (take 64 (drop (64 * j) (splice F (64 * k) b)) =
          if decide (j = k) then b else take 64 (drop (64 * j) F)) as E.
  { apply list_eq. intros i. destruct (decide (i < 64)%nat) as [Hi|Hi].
    - rewrite lookup_take_lt, lookup_drop, splice_lookup by lia.
      destruct (decide (j = k)) as [->|Hne].
      + rewrite decide_True by lia. f_equal. lia.
      + rewrite decide_False by lia. by rewrite lookup_take_lt, lookup_drop.
    - rewrite lookup_take_ge by lia. destruct (decide (j = k)).
      + symmetry. apply lookup_ge_None. lia.
      + by rewrite lookup_take_ge by lia. }
  unfold dent. rewrite E. by destruct (decide (j = k)).
Qed.

Lemma dents_lookup sv S k : (k < nslots sv)%nat -> dents sv S !! k = Some (dent (flat sv S) k).
Proof. intros Hk. unfold dents. by rewrite list_lookup_fmap, lookup_seq_lt. Qed.

Lemma dents_lookup_Some sv S k d : dents sv S !! k = Some d -> (k < nslots sv)%nat /\ d = dent (flat sv S) k.
Proof.
  intros Hk. pose proof (lookup_lt_Some _ _ _ Hk) as Hl. unfold dents in Hl.
  rewrite length_fmap, length_seq in Hl. rewrite dents_lookup in Hk by done. naive_solver.
Qed.

Lemma length_dents sv S : length (dents sv S) = nslots sv.
Proof. unfold dents. by rewrite length_fmap, length_seq. Qed.

Section dirspec.
Context {D : Type} `{!BlockDev D} `{!ReliableDev D}.
Context (valid : Z -> bool) (curspace : option Z).
Implicit Types (fs : sfs_fs D) (sv : sfs_vnode) (S : list (list Z)).

Abbreviation sectors fs := (dev_sectors (sfs_device fs)).

Definition dir_ok sv fs : Prop :=
  file_ok sv fs /\ sfi_type (sv_i sv) = SFS_TYPE_DIR /\ sfi_size (sv_i sv) `mod` 64 = 0 /\
  sfi_size (sv_i sv) <= 73216 /\ unique_names (dents sv (sectors fs)).

Lemma dir_ok_read sv fs fs' :
  dir_ok sv fs -> grows sv fs sv fs' -> sectors fs' = sectors fs -> dir_ok sv fs'.
Proof. intros (_ & Hrest) Hg Hs. split; [apply Hg|]. by rewrite Hs. Qed.

Lemma nslots_size sv fs : dir_ok sv fs -> sfi_size (sv_i sv) = 64 * Z.of_nat (nslots sv).
Proof. intros ((_ & Hsz & _) & _ & Hm & _). unfold nslots. dlia. Qed.

Lemma sfs_readdir_spec sv fs slot :
  fs_ok fs -> dir_ok sv fs -> 0 <= slot < Z.of_nat (nslots sv) ->
  exists fs', sfs_readdir valid curspace sv slot fs =
      Ok (0, dent (flat sv (sectors fs)) (Z.to_nat slot), sv, fs') /\
    grows sv fs sv fs' /\ sectors fs' = sectors fs.
Proof.
  intros Hfs Hd Hs. pose proof (nslots_size sv fs Hd) as Hsz. pose proof Hd as (Hf & _ & _ & Hmax & _).
  unfold sfs_readdir, SFS_DIRSIZE. nowrap.
  destruct (sfs_io_read_spec valid curspace sv fs (mk_kuio [] 64 (slot * 64) UIO_READ))
    as (r & m & fs' & -> & Hm & Hr & Hg & Hsec); [done..|apply kuio_wf; (done || lia)|done|simpl; lia|done|].
  unfold readable in Hm, Hr; simpl in Hm, Hr.
  assert (r = 0 /\ m = 64) as [-> ->].
  { destruct Hr as [[-> ->]|(? & _ & [[-> ?]|(_ & ? & _)])]; simpl in *; [split; [done|lia]|lia|done]. }
  rewrite bind_Ok. cbn [Z.eqb negb]. simpl. exists fs'. split; [|done].
  replace (Z.to_nat (slot * 64)) with (64 * Z.to_nat slot)%nat by lia. done.
Qed.

Lemma sfs_dir_nentries_spec sv fs :
  dir_ok sv fs -> sfs_dir_nentries sv = Ok (Z.of_nat (nslots sv)).
Proof.
  intros Hd. pose proof (nslots_size sv fs Hd) as Hsz. pose proof Hd as ((_ & ? & _) & Ht & _ & Hmax & _).
  unfold sfs_dir_nentries, SFS_DIRSIZE. rewrite Ht.
  rewrite (assert_true (_ =? _)), bind_Ok by done. nowrap.
  rewrite Hsz. replace (64 * Z.of_nat (nslots sv)) with (Z.of_nat (nslots sv) * 64) by lia.
  rewrite Z.mod_mul, Z.div_mul by lia. cbn [Z.eqb negb]. by rewrite i32_small by lia.
Qed.

(** ** Finding a name *)

(** The entry in use with the name, from slot [i] on. *)
Definition named_at (l : list sfs_dir) (i : nat) (name : list Z) (k : nat) (d : sfs_dir) : Prop :=
  (i <= k)%nat /\ l !! k = Some d /\ used d /\ ename d = name.

Definition none_named (l : list sfs_dir) (i : nat) (name : list Z) : Prop :=
  forall k d, ~ named_at l i name k d.

Lemma none_named_S l i name d :
  l !! i = Some d -> (used d -> ename d <> name) -> none_named l (Datatypes.S i) name -> none_named l i name.
Proof.
  intros Hi Hd Hn k e (Hk & He & Hu & Hnm). destruct (decide (k = i)) as [->|Hne].
  - rewrite Hi in He. injection He as ->. by apply Hd.
  - apply (Hn k e). split; [lia|done].
Qed.

(** What the search from slot [i] on hands back. *)
Definition find_post (l : list sfs_dir) (i : nat) (name : list Z) (found : bool)
    (ino slot emptyslot : Z) (r ino' slot' emptyslot' : Z) : Prop :=
  ((exists k d, named_at l i name k d /\ r = 0 /\ ino' = sfd_ino d /\ slot' = Z.of_nat k) \/
   none_named l i name /\ r = (if found then 0 else ENOENT) /\ ino' = ino /\ slot' = slot) /\
  ((exists k d, (i <= k)%nat /\ l !! k = Some d /\ ~ used d /\ emptyslot' = Z.of_nat k) \/
   (forall k d, (i <= k)%nat -> l !! k = Some d -> used d) /\ emptyslot' = emptyslot).

Lemma named_at_S l i name k d : named_at l (Datatypes.S i) name k d -> named_at l i name k d.
Proof. intros (? & ?). split; [lia|done]. Qed.

Lemma find_empty l i name found ino slot emptyslot r ino' slot' emptyslot' d :
  l !! i = Some d -> ~ used d ->
  find_post l (Datatypes.S i) name found ino slot (Z.of_nat i) r ino' slot' emptyslot' ->
  find_post l i name found ino slot emptyslot r ino' slot' emptyslot'.
Proof.
  intros Hi Hd [Hn He]. split.
  - destruct Hn as [(k & e & Hk & ?)|[Hn ?]].
    + left. exists k, e. split; [by apply named_at_S|done].
    + right. split; [|done]. by eapply none_named_S.
  - left. destruct He as [(k & e & ? & ?)|[_ ->]]; [exists k, e; split; [lia|done]|by exists i, d].
Qed.

Lemma find_used l i name found ino slot emptyslot r ino' slot' emptyslot' d :
  l !! i = Some d -> used d -> ename d <> name ->
  find_post l (Datatypes.S i) name found ino slot emptyslot r ino' slot' emptyslot' ->
  find_post l i name found ino slot emptyslot r ino' slot' emptyslot'.
Proof.
  intros Hi Hd Hne [Hn He]. split.
  - destruct Hn as [(k & e & Hk & ?)|[Hn ?]].
    + left. exists k, e. split; [by apply named_at_S|done].
    + right. split; [|done]. by eapply none_named_S.
  - destruct He as [(k & e & ? & ?)|[Hall ->]]; [left; exists k, e; split; [lia|done]|right; split; [|done]].
    intros k e Hk He. destruct (decide (k = i)) as [->|]; [congruence|]. eapply (Hall k); [lia|done].
Qed.

Lemma find_match l i name ino slot emptyslot r ino' slot' emptyslot' d :
  l !! i = Some d -> used d -> ename d = name -> none_named l (Datatypes.S i) name ->
  find_post l (Datatypes.S i) name true (sfd_ino d) (Z.of_nat i) emptyslot r ino' slot' emptyslot' ->
  find_post l i name false ino slot emptyslot r ino' slot' emptyslot'.
Proof.
  intros Hi Hd Hne Hnn [Hn He]. split.
  - left. destruct Hn as [(k & e & Hk & _)|(_ & -> & -> & ->)]; [by destruct (Hnn k e)|].
    exists i, d. done.
  - destruct He as [(k & e & ? & ?)|[Hall ->]]; [left; exists k, e; split; [lia|done]|right; split; [|done]].
    intros k e Hk He. destruct (decide (k = i)) as [->|]; [congruence|]. eapply (Hall k); [lia|done].
Qed.

Lemma findname_loop_spec sv name n : forall i fs found ino slot emptyslot,
  fs_ok fs -> dir_ok sv fs -> (i + n = nslots sv)%nat ->
  (found = true -> none_named (dents sv (sectors fs)) i name) ->
  exists r ino' slot' emptyslot' fs',
    findname_loop valid curspace n (Z.of_nat i) name found ino slot emptyslot sv fs =
      Ok (r, ino', slot', emptyslot', sv, fs') /\
    grows sv fs sv fs' /\ sectors fs' = sectors fs /\
    find_post (dents sv (sectors fs)) i name found ino slot emptyslot r ino' slot' emptyslot'.
Proof.
  induction n as [|n IH]; intros i fs found ino slot emptyslot Hfs Hd Hn Hfound.
  { do 5 eexists. split; [reflexivity|]. split; [apply grows_refl; [done|apply Hd]|]. split; [done|].
    assert (forall k d, (i <= k)%nat -> dents sv (sectors fs) !! k = Some d -> False) as Hnone.
    { intros k d Hk [? _]%dents_lookup_Some. lia. }
    split; right; (split; [|done]).
    - intros k d (? & ? & _). by eapply Hnone.
    - intros k d ? ?. by destruct (Hnone k d). }
  cbn [findname_loop].
  destruct (sfs_readdir_spec sv fs (Z.of_nat i)) as (fs1 & -> & Hg1 & Hs1); [done..|lia|].
  rewrite bind_Ok, Nat2Z.id. cbn [Z.eqb negb].
  assert (dents sv (sectors fs) !! i = Some (dent (flat sv (sectors fs)) i)) as Hi by (apply dents_lookup; lia).
  set (d := dent (flat sv (sectors fs)) i) in *. replace (Z.of_nat i + 1) with (Z.of_nat (Datatypes.S i)) by lia.
  assert (fs_ok fs1) as Hfs1 by apply Hg1.
  assert (dir_ok sv fs1) as Hd1 by (by eapply dir_ok_read). clearbody d.
  assert (forall found' ino1 slot1 e1,
    (found' = true -> none_named (dents sv (sectors fs)) (Datatypes.S i) name) ->
    exists r ino' slot' emptyslot' fs',
      findname_loop valid curspace n (Z.of_nat (Datatypes.S i)) name found' ino1 slot1 e1 sv fs1 =
        Ok (r, ino', slot', emptyslot', sv, fs') /\ grows sv fs sv fs' /\ sectors fs' = sectors fs /\
      find_post (dents sv (sectors fs)) (Datatypes.S i) name found' ino1 slot1 e1 r ino' slot' emptyslot')
    as Hnext.
  { intros found' ino1 slot1 e1 Hf'.
    destruct (IH (Datatypes.S i) fs1 found' ino1 slot1 e1) as (r & ino' & slot' & e' & fs' & E & Hg & Hs & Hp);
      [done|done|lia|by rewrite Hs1|]. rewrite Hs1 in Hp, Hs.
    exists r, ino', slot', e', fs'. split; [done|]. split; [by eapply grows_trans|done]. }
  assert (found = true -> none_named (dents sv (sectors fs)) (Datatypes.S i) name) as Hfound'.
  { intros Hf' k e He. apply (Hfound Hf' k e). by apply named_at_S. }
  unfold SFS_NOINO. destruct (Z.eqb_spec (sfd_ino d) 0) as [E0|Hu].
  { destruct (Hnext found ino slot (Z.of_nat i) Hfound') as (r & ino' & slot' & e' & fs' & -> & ? & ? & Hp).
    do 5 eexists. split; [reflexivity|]. split; [done|]. split; [done|]. eapply find_empty; [done| |done].
    intros Hu. by apply Hu. }
  fold (ename d). case_bool_decide as Hnm.
  - destruct found; [by destruct (Hfound eq_refl i d)|]. cbn [negb assert]. rewrite bind_Ok.
    assert (none_named (dents sv (sectors fs)) (Datatypes.S i) name) as Hnn.
    { intros k e (Hk & He & Hue & Hne). destruct Hd as (_ & _ & _ & _ & Huniq).
      assert (k = i) by (eapply Huniq; [exact He|exact Hi|done..|congruence]). lia. }
    destruct (Hnext true (sfd_ino d) (Z.of_nat i) emptyslot) as (r & ino' & slot' & e' & fs' & -> & ? & ? & Hp); [done|].
    do 5 eexists. split; [reflexivity|]. split; [done|]. split; [done|]. by eapply find_match.
  - destruct (Hnext found ino slot emptyslot Hfound') as (r & ino' & slot' & e' & fs' & -> & ? & ? & Hp).
    do 5 eexists. split; [reflexivity|]. split; [done|]. split; [done|]. by eapply find_used.
Qed.

Lemma sfs_dir_findname_spec sv fs name ino slot emptyslot :
  fs_ok fs -> dir_ok sv fs ->
  exists r ino' slot' emptyslot' fs',
    sfs_dir_findname valid curspace sv name ino slot emptyslot fs =
      Ok (r, ino', slot', emptyslot', sv, fs') /\
    grows sv fs sv fs' /\ sectors fs' = sectors fs /\
    find_post (dents sv (sectors fs)) 0 name false ino slot emptyslot r ino' slot' emptyslot'.
Proof.
  intros Hfs Hd. unfold sfs_dir_findname. rewrite (sfs_dir_nentries_spec sv fs Hd), bind_Ok, Nat2Z.id.
  by apply (findname_loop_spec sv name (nslots sv) 0).
Qed.

(** ** Changing a slot *)

(** [l] with slot [k] set to [d], which may be one past the end. *)
Definition set_slot (l : list sfs_dir) (k : nat) (d : sfs_dir) : list sfs_dir :=
  if decide (k < length l)%nat then <[k := d]> l else l ++ [d].

Lemma set_slot_lookup l k d j :
  (k <= length l)%nat -> set_slot l k d !! j = if decide (j = k) then Some d else l !! j.
Proof.
  intros Hk. unfold set_slot. destruct (decide (k < length l)%nat) as [Hlt|Hge].
  - destruct (decide (j = k)) as [->|Hne]; [by apply list_lookup_insert_eq|by apply list_lookup_insert_ne].
  - assert (k = length l) as -> by lia. destruct (decide (j = length l)) as [->|Hne].
    + by apply list_lookup_middle.
    + destruct (decide (j < length l)%nat); [by apply lookup_app_l|].
      rewrite lookup_app_r, (lookup_ge_None_2 l) by lia. apply lookup_ge_None_2. simpl. lia.
Qed.

(** Writing a slot: done, or there is no room and nothing of the directory
    changes. *)
Lemma sfs_writedir_spec sv fs sd slot :
  fs_ok fs -> dir_ok sv fs -> dir_typed sd -> (slot <= nslots sv)%nat ->
  exists r sv' fs', sfs_writedir valid curspace sv sd (Z.of_nat slot) fs = Ok (r, sv', fs') /\
    grows sv fs sv' fs' /\
    sfi_size (sv_i sv') `mod` 64 = 0 /\ sfi_size (sv_i sv') <= 73216 /\
    (r = 0 /\ dents sv' (sectors fs') = set_slot (dents sv (sectors fs)) slot sd \/
     dents sv' (sectors fs') = dents sv (sectors fs) /\
       (r = ENOSPC /\ disk_full fs' \/ r = EINVAL /\ slot = 1144%nat)).
Proof.
  intros Hfs Hd Hty Hslot. pose proof (nslots_size sv fs Hd) as Hsz.
  pose proof Hd as (Hf & _ & Hmod & Hmax & _). pose proof (length_flat sv fs Hfs Hf) as HF.
  pose proof (length_dir_bytes sd Hty) as Hlb.
  unfold sfs_writedir, SFS_DIRSIZE. rewrite (assert_true (_ >=? 0)), bind_Ok by lia. nowrap.
  destruct (sfs_io_write_spec valid curspace sv fs (mk_kuio (dir_bytes sd) 64 (Z.of_nat slot * 64) UIO_WRITE))
    as (r & m & sv' & fs' & -> & Hm & Hr & Hg & Hfl & Hsz'); [done..|apply kuio_wf; (done || lia)|done|simpl; lia|done|].
  rewrite bind_Ok. simpl in Hm, Hfl, Hsz'. unfold io_result in Hr; simpl in Hr.
  replace (Z.to_nat (Z.of_nat slot * 64)) with (64 * slot)%nat in Hfl by lia.
  destruct Hr as [[-> ->]|(Hlt & Hal & Herr)].
  - cbn [Z.eqb negb]. simpl uio_resid. cbn [Z.gtb Z.sub Z.compare].
    exists 0, sv', fs'. split; [done|]. split; [done|].
    rewrite take_ge in Hfl by lia.
    assert (64 * slot + 64 <= length (flat sv (sectors fs)))%nat as Hfit.
    { pose proof (length_flat sv' fs' (gr_fs _ _ _ _ Hg) (gr_file _ _ _ _ Hg)) as HF'.
      rewrite Hfl in HF'. unfold splice in HF'. rewrite !length_app, length_take, length_drop in HF'. lia. }
    split; [dlia|]. split; [lia|]. left. split; [done|].
    apply list_eq. intros j. rewrite set_slot_lookup by (rewrite length_dents; lia).
    destruct (decide (j < nslots sv')%nat) as [Hj|Hj].
    + rewrite dents_lookup, Hfl, dent_splice by done. unfold nslots in *.
      destruct (decide (j = slot)) as [->|Hne]; [by rewrite dir_roundtrip|].
      rewrite dents_lookup; [done|]. unfold nslots. dlia.
    + rewrite (lookup_ge_None_2 (dents sv' _)) by (rewrite length_dents; lia).
      unfold nslots in *. rewrite decide_False by dlia. symmetry. apply lookup_ge_None_2.
      rewrite length_dents. unfold nslots. dlia.
  - assert (m = 0) as -> by dlia. change (Z.to_nat 0) with 0%nat in Hfl. rewrite take_0, splice_nil in Hfl.
    assert (negb (r =? 0) = true) as -> by (destruct Herr as [[-> _]|[-> _]]; done).
    exists r, sv', fs'. split; [done|]. split; [done|]. split; [dlia|]. split; [lia|]. right.
    assert (sfi_size (sv_i sv') = sfi_size (sv_i sv)) as Es by lia.
    split; [unfold dents, nslots; by rewrite Hfl, Es|].
    destruct Herr as [[-> ?]|(-> & _ & ?)]; [right; split; [done|lia]|by left].
Qed.

(** ** Linking and unlinking *)

Lemma cstring_app name l : Forall (fun c => c <> 0) name -> cstring (name ++ 0 :: l) = name.
Proof.
  induction 1 as [|c name Hc _ IH]; [done|]. simpl. destruct (Z.eqb_spec c 0); [done|]. by rewrite IH.
Qed.

(** The entry [sfs_dir_link] writes has the name. *)
Lemma ename_padded ino name :
  Forall (fun c => c <> 0) name -> (length name < 60)%nat ->
  ename (mk_dir ino (name ++ replicate (60 - length name) 0)) = name.
Proof.
  intros Hn Hl. unfold ename; simpl.
  replace (60 - length name)%nat with (S (59 - length name)) by lia. simpl.
  assert (<[59%nat := 0]> (name ++ 0 :: replicate (59 - length name) 0) =
          name ++ 0 :: replicate (59 - length name) 0) as ->.
  { apply list_insert_id. rewrite lookup_app_r by lia.
    change (0 :: replicate (59 - length name) 0) with (replicate (S (59 - length name)) 0).
    apply lookup_replicate_2. lia. }
  by apply cstring_app.
Qed.

Lemma unique_set l k d :
  unique_names l -> (k <= length l)%nat -> (used d -> none_named l 0 (ename d)) ->
  unique_names (set_slot l k d).
Proof.
  intros Hu Hk Hd i j e f Hi Hj Hue Huf Hnm.
  rewrite set_slot_lookup in Hi, Hj by done.
  destruct (decide (i = k)) as [->|Hik], (decide (j = k)) as [->|Hjk]; [done|..].
  - injection Hi as <-. exfalso. apply (Hd Hue j f). split; [lia|]. done.
  - injection Hj as <-. exfalso. apply (Hd Huf i e). split; [lia|]. done.
  - by eapply Hu.
Qed.

Lemma dir_ok_write sv fs sv' fs' :
  dir_ok sv fs -> grows sv fs sv' fs' -> sfi_size (sv_i sv') `mod` 64 = 0 ->
  sfi_size (sv_i sv') <= 73216 -> unique_names (dents sv' (sectors fs')) -> dir_ok sv' fs'.
Proof.
  intros (_ & Ht & _) Hg Hm Hmax Hu. split; [apply Hg|]. split; [|done].
  destruct (gr_sv _ _ _ _ Hg) as (_ & _ & E & _). congruence.
Qed.

(** The slot [sfs_dir_link] writes: a free one, or a new one. *)
Definition free_slot (l : list sfs_dir) (k : nat) : Prop :=
  (exists d, l !! k = Some d /\ ~ used d) \/ k = length l /\ forall j d, l !! j = Some d -> used d.

Lemma sfs_dir_link_spec sv fs name ino slot0 :
  fs_ok fs -> dir_ok sv fs -> Forall (fun c => c <> 0) name -> 0 < ino < 4294967296 ->
  Z.of_nat (length name) < 4294967295 ->
  let l := dents sv (sectors fs) in
  exists r slot sv' fs', sfs_dir_link valid curspace sv name ino slot0 fs = Ok (r, slot, sv', fs') /\
    grows sv fs sv' fs' /\ dir_ok sv' fs' /\
    (r = 0 /\ none_named l 0 name /\ (length name < 60)%nat /\
       (exists k, slot = Z.of_nat k /\ free_slot l k /\
          dents sv' (sectors fs') = set_slot l k (mk_dir ino (name ++ replicate (60 - length name) 0))) \/
     dents sv' (sectors fs') = l /\
       (r = EEXIST /\ (exists k d, named_at l 0 name k d) \/
        none_named l 0 name /\
          (r = ENAMETOOLONG /\ (60 <= length name)%nat \/ r = ENOSPC /\ disk_full fs' \/
           r = EINVAL /\ length l = 1144%nat /\ free_slot l 1144))).
Proof.
  intros Hfs Hd Hname Hino Hlen l. unfold sfs_dir_link.
  destruct (sfs_dir_findname_spec sv fs name 0 0 (-1) Hfs Hd)
    as (r1 & ino1 & slot1 & e1 & fs1 & -> & Hg1 & Hs1 & Hfind & Hempty). fold l in Hfind, Hempty.
  rewrite bind_Ok. assert (dir_ok sv fs1) as Hd1 by (by eapply dir_ok_read).
  assert (dents sv (sectors fs1) = l) as Hl1 by (unfold l; by rewrite Hs1).
  destruct Hfind as [(k & d & Hk & -> & _)|(Hnone & -> & _)].
  { cbn [Z.eqb negb andb]. exists EEXIST, slot0, sv, fs1. split; [done|]. split; [done|]. split; [done|].
    right. split; [done|]. left. split; [done|]. by exists k, d. }
  cbn [Z.eqb]. change (negb (ENOENT =? 0) && negb (ENOENT =? ENOENT)) with false.
  change (ENOENT =? 0) with false. cbn iota.
  unfold SFS_NAMELEN. nowrap. rewrite Z.gtb_ltb.
  destruct (Z.ltb_spec 60 (Z.of_nat (length name) + 1)).
  { exists ENAMETOOLONG, slot0, sv, fs1. split; [done|]. split; [done|]. split; [done|].
    right. split; [done|]. right. split; [done|]. left. split; [done|lia]. }
  assert (exists k, (if e1 <? 0 then sfs_dir_nentries sv else Ok e1) = Ok (Z.of_nat k) /\
            free_slot l k /\ (k <= nslots sv)%nat) as (k & -> & Hfree & Hk).
  { destruct Hempty as [(k & d & _ & Hk & Hu & ->)|[Hall ->]].
    - exists k. destruct (Z.ltb_spec (Z.of_nat k) 0); [lia|]. split; [done|]. split; [left; by exists d|].
      unfold l in Hk. apply dents_lookup_Some in Hk. lia.
    - exists (nslots sv). change (-1 <? 0) with true. split; [by apply (sfs_dir_nentries_spec sv fs)|].
      split; [|done]. right. split; [unfold l; by rewrite length_dents|]. intros j d Hj. eapply (Hall j); [lia|done]. }
  rewrite bind_Ok. set (sd := mk_dir ino _).
  assert (dir_typed sd) as Hty.
  { split; [unfold is_u32; simpl; lia|]. simpl. rewrite length_app, length_replicate. lia. }
  assert (ename sd = name) as Hnm by (apply ename_padded; [done|lia]).
  destruct (sfs_writedir_spec sv fs1 sd k) as (r & sv' & fs' & -> & Hg2 & Hm & Hmax & Hcase);
    [apply Hg1|done..|]. rewrite bind_Ok. rewrite Hl1 in Hcase.
  exists r, (Z.of_nat k), sv', fs'. split; [done|]. split; [by eapply grows_trans|].
  pose proof Hd1 as (_ & _ & _ & _ & Hu). rewrite Hl1 in Hu.
  destruct Hcase as [[-> Hdents]|[Hdents Herr]].
  - split; [|left; split; [done|]; split; [done|]; split; [lia|]; by exists k].
    apply (dir_ok_write sv fs1); try done. rewrite Hdents. apply unique_set; [done| |by rewrite Hnm].
    unfold l. rewrite length_dents. lia.
  - split; [apply (dir_ok_write sv fs1); try done; by rewrite Hdents|].
    right. split; [done|]. right. split; [done|]. right. destruct Herr as [?|[-> ->]]; [by left|right].
    split; [done|]. split; [|done]. unfold l. rewrite length_dents.
    pose proof (nslots_size sv fs Hd). destruct Hd as (_ & _ & _ & ? & _). lia.
Qed.

Lemma sfs_dir_unlink_spec sv fs k :
  fs_ok fs -> dir_ok sv fs -> (k < nslots sv)%nat ->
  let l := dents sv (sectors fs) in
  exists r sv' fs', sfs_dir_unlink valid curspace sv (Z.of_nat k) fs = Ok (r, sv', fs') /\
    grows sv fs sv' fs' /\ dir_ok sv' fs' /\
    (r = 0 /\ dents sv' (sectors fs') = set_slot l k (mk_dir 0 (replicate 60 0)) \/
     r = ENOSPC /\ disk_full fs' /\ dents sv' (sectors fs') = l).
Proof.
  intros Hfs Hd Hk l. unfold sfs_dir_unlink, SFS_NOINO.
  destruct (sfs_writedir_spec sv fs (mk_dir 0 (replicate 60 0)) k)
    as (r & sv' & fs' & -> & Hg & Hm & Hmax & Hcase); [done..|by split|lia|]. fold l in Hcase.
  exists r, sv', fs'. split; [done|]. split; [done|].
  pose proof Hd as (_ & _ & _ & ? & Hu). fold l in Hu. pose proof (nslots_size sv fs Hd).
  destruct Hcase as [[-> Hdents]|[Hdents Herr]].
  - split; [|by left]. apply (dir_ok_write sv fs); try done. rewrite Hdents.
    apply unique_set; [done| |by intros []]. unfold l. rewrite length_dents. lia.
  - split; [apply (dir_ok_write sv fs); try done; by rewrite Hdents|].
    right. destruct Herr as [[-> ?]|[_ ->]]; [done|lia].
Qed.

(** ** A directory is a map *)

Lemma shows_named l m name k d :
  dir_shows l m -> named_at l 0 name k d -> m !! name = Some (sfd_ino d).
Proof. intros Hm (_ & Hk & Hu & Hn). apply Hm. by exists k, d. Qed.

Lemma shows_none l m name : dir_shows l m -> none_named l 0 name <-> m !! name = None.
Proof.
  intros Hm. split.
  - intros Hn. destruct (m !! name) as [ino|] eqn:E; [|done].
    apply Hm in E as (k & d & Hk & Hu & Hnm & _). destruct (Hn k d). split; [lia|done].
  - intros E k d Hk. rewrite (shows_named _ _ _ _ _ Hm Hk) in E. done.
Qed.

Lemma shows_link l m k d :
  dir_shows l m -> (k <= length l)%nat -> (forall e, l !! k = Some e -> ~ used e) -> used d ->
  none_named l 0 (ename d) -> dir_shows (set_slot l k d) (<[ename d := sfd_ino d]> m).
Proof.
  intros Hm Hk Hfree Hu Hnone name ino. rewrite lookup_insert_Some. split.
  - intros [[<- <-]|[Hne E]].
    + exists k, d. rewrite set_slot_lookup, decide_True by done. done.
    + apply Hm in E as (j & e & Hj & Hue & Hnm & Hino). exists j, e.
      rewrite set_slot_lookup by done. rewrite decide_False; [done|]. intros ->. by apply (Hfree e).
  - intros (j & e & Hj & Hue & Hnm & Hino). rewrite set_slot_lookup in Hj by done.
    destruct (decide (j = k)) as [->|Hjk]; [injection Hj as <-; by left|right].
    split; [|apply Hm; by exists j, e]. intros E. apply (Hnone j e). split; [lia|]. by rewrite E.
Qed.

Lemma shows_unlink l m k d e :
  dir_shows l m -> unique_names l -> l !! k = Some d -> used d -> ~ used e ->
  dir_shows (set_slot l k e) (delete (ename d) m).
Proof.
  intros Hm Huniq Hk Hu He name ino. pose proof (lookup_lt_Some _ _ _ Hk) as Hlt.
  rewrite lookup_delete_Some, (Hm name ino). split.
  - intros (Hne & j & f & Hj & Hf & Hnm & Hino). exists j, f. rewrite set_slot_lookup by lia.
    rewrite decide_False; [done|]. intros ->. congruence.
  - intros (j & f & Hj & Hf & Hnm & Hino). rewrite set_slot_lookup in Hj by lia.
    destruct (decide (j = k)) as [->|Hjk]; [injection Hj as <-; by destruct He|]. split; [|by exists j, f].
    intros E. apply Hjk. eapply Huniq; [exact Hj|exact Hk|done|done|congruence].
Qed.

Lemma free_slot_free l k : free_slot l k -> (k <= length l)%nat /\ forall e, l !! k = Some e -> ~ used e.
Proof.
  intros [(d & Hd & Hu)|[-> _]].
  - split; [apply lookup_lt_Some in Hd; lia|]. intros e He. rewrite Hd in He. by injection He as <-.
  - split; [lia|]. intros e He%lookup_lt_Some. lia.
Qed.

(** C16. A directory implements a finite map from names to inode numbers.
    For a well-formed directory that shows the map [m]: looking a name up
    gives what [m] has for it, or ENOENT; linking a new name either shows [m]
    with the name added, or fails and leaves [m] shown, with EEXIST if the
    name is there; unlinking a slot shows [m] without the slot's name, or
    fails and leaves [m] shown.  The directory stays well-formed, and the
    rest of the file system is left alone ([grows]). *)
Theorem sfs_dir_refines_map sv fs m name ino slot0 :
  fs_ok fs -> dir_ok sv fs -> dir_shows (dents sv (sectors fs)) m ->
  Forall (fun c => c <> 0) name -> Z.of_nat (length name) < 4294967295 -> 0 < ino < 4294967296 ->
  (exists r ino' slot' e' fs',
     sfs_dir_findname valid curspace sv name 0 0 (-1) fs = Ok (r, ino', slot', e', sv, fs') /\
     sectors fs' = sectors fs /\
     (r = 0 /\ m !! name = Some ino' \/ r = ENOENT /\ m !! name = None)) /\
  (exists r slot sv' fs',
     sfs_dir_link valid curspace sv name ino slot0 fs = Ok (r, slot, sv', fs') /\
     grows sv fs sv' fs' /\ dir_ok sv' fs' /\
     (r = 0 /\ m !! name = None /\ dir_shows (dents sv' (sectors fs')) (<[name := ino]> m) \/
      r <> 0 /\ dir_shows (dents sv' (sectors fs')) m /\ (m !! name <> None <-> r = EEXIST))) /\
  (forall k d, dents sv (sectors fs) !! k = Some d -> used d ->
   exists r sv' fs', sfs_dir_unlink valid curspace sv (Z.of_nat k) fs = Ok (r, sv', fs') /\
     grows sv fs sv' fs' /\ dir_ok sv' fs' /\
     (r = 0 /\ dir_shows (dents sv' (sectors fs')) (delete (ename d) m) \/
      r = ENOSPC /\ dir_shows (dents sv' (sectors fs')) m)).
Proof.
  intros Hfs Hd Hm Hname Hlen Hino. split; [|split].
  - destruct (sfs_dir_findname_spec sv fs name 0 0 (-1) Hfs Hd)
      as (r & ino' & slot' & e' & fs' & E & _ & Hs & Hfind & _).
    exists r, ino', slot', e', fs'. split; [done|]. split; [done|].
    destruct Hfind as [(k & d & Hk & -> & -> & _)|(Hnone & -> & _)].
    + left. split; [done|]. by eapply shows_named.
    + right. split; [done|]. by apply (shows_none (dents sv (sectors fs))).
  - destruct (sfs_dir_link_spec sv fs name ino slot0 Hfs Hd Hname Hino Hlen)
      as (r & slot & sv' & fs' & E & Hg & Hd' & Hcase).
    exists r, slot, sv', fs'. split; [done|]. split; [done|]. split; [done|].
    destruct Hcase as [(-> & Hnone & Hl & k & _ & Hfree & Hdents)|[Hdents Hcase]].
    + left. split; [done|]. split; [by apply (shows_none (dents sv (sectors fs)))|]. rewrite Hdents.
      destruct (free_slot_free _ _ Hfree) as [Hk Hkf].
      assert (ename (mk_dir ino (name ++ replicate (60 - length name) 0)) = name) as Hen by (by apply ename_padded).
      pose proof (shows_link _ m k (mk_dir ino (name ++ replicate (60 - length name) 0)) Hm Hk Hkf) as Hsl.
      rewrite Hen in Hsl. apply Hsl; [unfold used; simpl; lia|done].
    + right. rewrite Hdents. destruct Hcase as [(-> & k & d & Hk)|(Hnone & Herr)].
      * split; [done|]. split; [done|]. split; [done|]. by rewrite (shows_named _ _ _ _ _ Hm Hk).
      * apply (shows_none _ _ _ Hm) in Hnone. rewrite Hnone.
        destruct Herr as [[-> _]|[[-> _]|[-> _]]]; (split; [done|]); (split; [done|]); by split.
  - intros k d Hk Hu. assert (k < nslots sv)%nat as Hlt by (by apply dents_lookup_Some in Hk as [? _]).
    destruct (sfs_dir_unlink_spec sv fs k Hfs Hd Hlt) as (r & sv' & fs' & E & Hg & Hd' & Hcase).
    exists r, sv', fs'. split; [done|]. split; [done|]. split; [done|].
    destruct Hcase as [[-> Hdents]|(-> & _ & Hdents)]; rewrite Hdents; [left|by right]. split; [done|].
    destruct Hd as (_ & _ & _ & _ & Huniq). eapply shows_unlink; [done..|by intros []].
Qed.
End dirspec.

(** ** An empty directory *)

#[local] Instance good_disk : DiskLaws ramdisk := ramdisk_laws false.
#[local] Existing Instance ramdisk_sound.

Definition dir8 : sfs_vnode :=
  mk_sv (mk_vnode 1 0 true None None (Some sfs_dirops))
    (mk_inode 0 SFS_TYPE_DIR 1 (replicate 15 0) 0 (replicate 110 0)) 1 false.

Lemma dir8_ok : dir_ok dir8 fs8.
Proof.
  split; [exact file8_ok|]. split; [done|]. split; [done|]. split; [simpl; lia|].
  intros i j d e Hi. done.
Qed.

Lemma sfs_dir_refines_map_witness :
  dir_ok dir8 fs8 /\
  exists r slot sv' fs', sfs_dir_link (fun _ => true) None dir8 [97; 98] 5 0 fs8 = Ok (r, slot, sv', fs') /\
    dir_ok sv' fs'.
Proof.
  split; [exact dir8_ok|].
  destruct (sfs_dir_refines_map (fun _ => true) None dir8 fs8 ∅ [97; 98] 5 0 fs8_ok dir8_ok) as (_ & Hlink & _).
  - intros name ino. split; [done|]. intros (k & d & Hk & _). done.
  - repeat constructor; discriminate.
  - simpl; lia.
  - lia.
  - destruct Hlink as (r & slot & sv' & fs' & E & _ & Hd & _). exists r, slot, sv', fs'.
    split; [exact E|exact Hd].
Defined.
