(* ===== verification/SfsVnode.v ===== *)
(** * kern/fs/sfs/sfs_vnode.c: the vnode table and the vnode operations

    Loaded vnodes live in [sfs_mem], at the addresses listed in the array
    [sfs_vnodes].  The operations of the two function tables take the address
    of a vnode; [allocs] is what the calls of [kmalloc] in [sfs_loadvnode]
    answer: the address of the vnode, whether its lock can be created, and
    whether the table can grow. *)
From stdpp Require Import base numbers list option gmap.
From S2P Require Import Prelude KArray Bitmap Uio Device Lhd SfsDisk Vnode SfsIo SfsFile SfsTrunc SfsDir.
Local Open Scope Z_scope.

Record allocs : Type := mk_allocs { al_vnode : option Z; al_lock : bool; al_table : bool }.

(** kern/include/kern/unistd.h and stat.h *)

(** The address of the file system's [struct fs]. *)
Definition sfs_absfs : Z := 1.

Definition set_v (v : vnode) (sv : sfs_vnode) : sfs_vnode := mk_sv v (sv_i sv) (sv_ino sv) (sv_dirty sv).

Section vnodes.
Context {D : Type} `{!BlockDev D}.
Variables (valid : Z -> bool) (curspace : option Z).
Implicit Types (fs : sfs_fs D) (sv : sfs_vnode) (u : uio).

Definition sv_deref (p : Z) fs : res sfs_vnode :=
  match sfs_mem fs !! p with Some sv => Ok sv | None => Undef end.
Definition sv_put (p : Z) sv fs : sfs_fs D := set_mem (<[p := sv]> (sfs_mem fs)) fs.

(** Entry [i] of the vnode table. *)
Definition table_entry fs (i : Z) : res Z :=
  cell ← array_getguy (sfs_vnodes fs) i;
  match cell with Some p => Ok p | None => Undef end.

(** ** sfs_loadvnode *)

(** The search of the table at [i], with [n] entries left; gives the vnode
    found, its reference count increased. *)
Fixpoint load_search (n : nat) (i ino forcetype : Z) fs : res (option Z * sfs_fs D) :=
  match n with
  | O => Ok (None, fs)
  | S n =>
      p ← table_entry fs i;
      sv ← sv_deref p fs;
      isused ← sfs_bused fs (sv_ino sv);
      if negb isused then Panic
      else if sv_ino sv =? ino then
        _ ← assert (forcetype =? SFS_TYPE_INVAL);
        v ← vnode_incref_v (sv_v sv);
        Ok (Some p, sv_put p (set_v v sv) fs)
      else load_search n (i + 1) ino forcetype fs
  end.

(** The vnode's memory before it is initialised. *)
Definition no_vnode : vnode := mk_vnode 0 0 false None None None.

(** Reading the inode into a new vnode at [p]. *)
Definition load_new (al : allocs) (p ino forcetype : Z) fs : res (Z * option Z * sfs_fs D) :=
  isused ← sfs_bused fs ino;
  if negb isused then Panic
  else
    '(result, data, fs) ← sfs_rblock valid curspace fs ino;
    if negb (result =? 0) then Ok (result, None, fs)
    else
      let i := inode_of data in
      '(i, dirty) ←
        (if negb (forcetype =? SFS_TYPE_INVAL) then
           _ ← assert (sfi_type i =? SFS_TYPE_INVAL);
           Ok (set_type (u16 forcetype) i, true)
         else Ok (i, false));
      ops ← (if sfi_type i =? SFS_TYPE_FILE then Ok sfs_fileops
             else if sfi_type i =? SFS_TYPE_DIR then Ok sfs_dirops else Panic);
      let '(result, v) := vnode_init (al_lock al) no_vnode ops (Some sfs_absfs) (Some p) in
      if negb (result =? 0) then Ok (result, None, fs)
      else
        '(result, table) ← array_add (al_table al) (sfs_vnodes fs) p;
        let fs := set_vnodes table fs in
        if negb (result =? 0) then
          _ ← vnode_kill v;
          Ok (result, None, fs)
        else Ok (0, Some p, sv_put p (mk_sv v i ino dirty) fs).

Definition sfs_loadvnode (al : allocs) (ino forcetype : Z) fs : res (Z * option Z * sfs_fs D) :=
  '(found, fs) ← load_search (Z.to_nat (array_getnum (sfs_vnodes fs))) 0 ino forcetype fs;
  match found with
  | Some p => Ok (0, Some p, fs)
  | None =>
      match al_vnode al with
      | None => Ok (ENOMEM, None, fs)
      | Some p => load_new al p ino forcetype fs
      end
  end.

Definition sfs_getroot (al : allocs) fs : res (Z * sfs_fs D) :=
  '(result, p, fs) ← sfs_loadvnode al SFS_ROOT_LOCATION SFS_TYPE_INVAL fs;
  match p with
  | Some p => if result =? 0 then Ok (p, fs) else Panic
  | None => Panic
  end.

(** ** Reclaiming *)

(** An operation on the vnode at [p]. *)
Definition on_vnode (p : Z) (op : sfs_vnode -> sfs_fs D -> res (Z * sfs_vnode * sfs_fs D)) fs
    : res (Z * sfs_fs D) :=
  sv ← sv_deref p fs;
  '(result, sv, fs) ← op sv fs;
  Ok (result, sv_put p sv fs).

Definition sfs_fsync (p : Z) fs : res (Z * sfs_fs D) := on_vnode p (sfs_sync_inode valid curspace) fs.

(** VOP_FSYNC: both tables have [sfs_fsync]. *)
Definition vop_fsync (p : Z) fs : res (Z * sfs_fs D) :=
  sv ← sv_deref p fs;
  _ ← vnode_check false (sv_v sv);
  sfs_fsync p fs.

Definition sfs_close (p : Z) fs : res (Z * sfs_fs D) := vop_fsync p fs.

(** VOP_TRUNCATE: a directory answers EISDIR. *)
Definition vop_truncate (p len : Z) fs : res (Z * sfs_fs D) :=
  sv ← sv_deref p fs;
  _ ← vnode_check false (sv_v sv);
  match vn_ops (sv_v sv) with
  | Some sfs_fileops => on_vnode p (fun sv fs => sfs_truncate valid curspace sv len fs) fs
  | _ => Ok (EISDIR, fs)
  end.

(** The index of [p] in the table, -1 if it is not there. *)
Fixpoint table_index (n : nat) (i p : Z) fs : res Z :=
  match n with
  | O => Ok (-1)
  | S n =>
      q ← table_entry fs i;
      if q =? p then Ok i else table_index n (i + 1) p fs
  end.

(** The end of [sfs_reclaim]: the vnode leaves the table and is freed. *)
Definition forget_vnode (p : Z) fs : res (Z * sfs_fs D) :=
  ix ← table_index (Z.to_nat (array_getnum (sfs_vnodes fs))) 0 p fs;
  if ix <? 0 then Panic
  else
    table ← array_remove (sfs_vnodes fs) ix;
    let fs := set_vnodes table fs in
    sv ← sv_deref p fs;
    _ ← vnode_kill (sv_v sv);
    Ok (0, set_mem (delete p (sfs_mem fs)) fs).

Definition sfs_reclaim (p : Z) fs : res (Z * sfs_fs D) :=
  sv ← sv_deref p fs;
  _ ← assert (vn_countlock (sv_v sv));
  if negb (vn_refcount (sv_v sv) =? 1) then
    _ ← assert (vn_refcount (sv_v sv) >? 1);
    Ok (EBUSY, sv_put p (set_v (set_refcount (vn_refcount (sv_v sv) - 1) (sv_v sv)) sv) fs)
  else
    '(result, fs) ←
      (if sfi_linkcount (sv_i sv) =? 0 then vop_truncate p 0 fs else Ok (0, fs));
    if negb (result =? 0) then Ok (result, fs)
    else
      '(result, fs) ← on_vnode p (sfs_sync_inode valid curspace) fs;
      if negb (result =? 0) then Ok (result, fs)
      else
        sv ← sv_deref p fs;
        fs ← (if sfi_linkcount (sv_i sv) =? 0 then sfs_bfree fs (sv_ino sv) else Ok fs);
        forget_vnode p fs.

#[local] Instance sfs_vnode_ops : VnodeOps (sfs_fs D) := {
  vn_lookup := fun p fs => sv_v <$> sfs_mem fs !! p;
  vn_store := fun p v fs =>
    match sfs_mem fs !! p with Some sv => sv_put p (set_v v sv) fs | None => fs end;
  vop_reclaim := sfs_reclaim;
  vop_close := sfs_close;
}.

(** ** Lookup and creation *)

(** The vnode for a name in the directory at [p], and its slot. *)
Definition sfs_lookonce (al : allocs) (p : Z) (name : list Z) (slot : Z) fs
    : res (Z * option Z * Z * sfs_fs D) :=
  sv ← sv_deref p fs;
  '(result, ino, slot, _, sv, fs) ← sfs_dir_findname valid curspace sv name 0 slot (-1) fs;
  let fs := sv_put p sv fs in
  if negb (result =? 0) then Ok (result, None, slot, fs)
  else
    '(result, ret, fs) ← sfs_loadvnode al ino SFS_TYPE_INVAL fs;
    match ret with
    | Some q =>
        if negb (result =? 0) then Ok (result, None, slot, fs)
        else
          f ← sv_deref q fs;
          if sfi_linkcount (sv_i f) =? 0 then Panic else Ok (0, Some q, slot, fs)
    | None => Ok (result, None, slot, fs)
    end.

Definition sfs_makeobj (al : allocs) (type : Z) fs : res (Z * option Z * sfs_fs D) :=
  '(result, ino, fs) ← sfs_balloc valid curspace fs 0;
  if negb (result =? 0) then Ok (result, None, fs) else sfs_loadvnode al ino type fs.

(** [sfs_dir_link] on the directory at [p]; the error code and the slot. *)
Definition link_in (p : Z) (name : list Z) (ino : Z) fs : res (Z * Z * sfs_fs D) :=
  sv ← sv_deref p fs;
  '(result, slot, sv, fs) ← sfs_dir_link valid curspace sv name ino 0 fs;
  Ok (result, slot, sv_put p sv fs).

Definition unlink_in (p slot : Z) fs : res (Z * sfs_fs D) :=
  on_vnode p (fun sv fs => sfs_dir_unlink valid curspace sv slot fs) fs.

(** The link count of the vnode at [p] changes, and it becomes dirty. *)
Definition add_links (p n : Z) fs : res (sfs_fs D) :=
  f ← sv_deref p fs;
  Ok (sv_put p (set_dirty true (set_i (set_linkcount (u16 (sfi_linkcount (sv_i f) + n)) (sv_i f)) f)) fs).

Definition sfs_creat (al : allocs) (p : Z) (name : list Z) (excl : bool) fs
    : res (Z * option Z * sfs_fs D) :=
  sv ← sv_deref p fs;
  '(result, ino, _, _, sv, fs) ← sfs_dir_findname valid curspace sv name 0 0 (-1) fs;
  let fs := sv_put p sv fs in
  if negb (result =? 0) && negb (result =? ENOENT) then Ok (result, None, fs)
  else if (result =? 0) && excl then Ok (EEXIST, None, fs)
  else if result =? 0 then sfs_loadvnode al ino SFS_TYPE_INVAL fs
  else
    '(result, newguy, fs) ← sfs_makeobj al SFS_TYPE_FILE fs;
    match newguy with
    | None => Ok (result, None, fs)
    | Some q =>
        if negb (result =? 0) then Ok (result, None, fs)
        else
          f ← sv_deref q fs;
          '(result, _, fs) ← link_in p name (sv_ino f) fs;
          if negb (result =? 0) then
            fs ← vnode_decref q fs;
            Ok (result, None, fs)
          else
            fs ← add_links q 1 fs;
            Ok (0, Some q, fs)
    end.

(** Both vnodes are of this file system. *)
Definition sfs_link (dir : Z) (name : list Z) (file : Z) fs : res (Z * sfs_fs D) :=
  f ← sv_deref file fs;
  '(result, _, fs) ← link_in dir name (sv_ino f) fs;
  if negb (result =? 0) then Ok (result, fs)
  else
    fs ← add_links file 1 fs;
    Ok (0, fs).

Definition sfs_remove (al : allocs) (dir : Z) (name : list Z) fs : res (Z * sfs_fs D) :=
  '(result, victim, slot, fs) ← sfs_lookonce al dir name 0 fs;
  match victim with
  | None => Ok (result, fs)
  | Some q =>
      '(result, fs) ← unlink_in dir slot fs;
      fs ← (if result =? 0 then
              f ← sv_deref q fs;
              _ ← assert (sfi_linkcount (sv_i f) >? 0);
              add_links q (-1) fs
            else Ok fs);
      fs ← vnode_decref q fs;
      Ok (result, fs)
  end.

(** The labels [puke_harder] and [puke]. *)
Definition rename_undo (p g1 slot2 result : Z) fs : res (Z * sfs_fs D) :=
  '(result2, fs) ← unlink_in p slot2 fs;
  if negb (result2 =? 0) then Panic
  else
    f ← sv_deref g1 fs;
    let f := set_i (set_linkcount (u16 (sfi_linkcount (sv_i f) - 1)) (sv_i f)) f in
    fs ← vnode_decref g1 (sv_put g1 f fs);
    Ok (result, fs).

Definition sfs_rename (al : allocs) (d1 : Z) (n1 : list Z) (d2 : Z) (n2 : list Z) fs
    : res (Z * sfs_fs D) :=
  _ ← assert (d1 =? d2);
  sv ← sv_deref d1 fs;
  _ ← assert (sv_ino sv =? SFS_ROOT_LOCATION);
  '(result, g, slot1, fs) ← sfs_lookonce al d1 n1 0 fs;
  match g with
  | None => Ok (result, fs)
  | Some g1 =>
      f ← sv_deref g1 fs;
      _ ← assert (sfi_type (sv_i f) =? SFS_TYPE_FILE);
      '(result, slot2, fs) ← link_in d1 n2 (sv_ino f) fs;
      if negb (result =? 0) then
        fs ← vnode_decref g1 fs;
        Ok (result, fs)
      else
        fs ← add_links g1 1 fs;
        '(result, fs) ← unlink_in d1 slot1 fs;
        if negb (result =? 0) then rename_undo d1 g1 slot2 result fs
        else
          f ← sv_deref g1 fs;
          _ ← assert (sfi_linkcount (sv_i f) >? 0);
          fs ← add_links g1 (-1) fs;
          fs ← vnode_decref g1 fs;
          Ok (0, fs)
  end.

(** [buf] of [buflen] bytes receives the name. *)
Definition sfs_lookparent (p : Z) (path : list Z) (buflen : Z) fs : res (Z * option (Z * list Z) * sfs_fs D) :=
  sv ← sv_deref p fs;
  if negb (sfi_type (sv_i sv) =? SFS_TYPE_DIR) then Ok (ENOTDIR, None, fs)
  else if u32 (Z.of_nat (length path) + 1) >? buflen then Ok (ENAMETOOLONG, None, fs)
  else
    fs ← vnode_incref p fs;
    Ok (0, Some (p, path), fs).

Definition sfs_lookup (al : allocs) (p : Z) (path : list Z) fs : res (Z * option Z * sfs_fs D) :=
  sv ← sv_deref p fs;
  if negb (sfi_type (sv_i sv) =? SFS_TYPE_DIR) then Ok (ENOTDIR, None, fs)
  else
    '(result, final, _, fs) ← sfs_lookonce al p path 0 fs;
    Ok (result, final, fs).

(** ** The other operations *)

Definition sfs_open (openflags : Z) : Z :=
  if negb (Z.land openflags O_APPEND =? 0) then EUNIMP else 0.

Definition sfs_opendir (openflags : Z) : Z :=
  if negb (Z.land openflags O_ACCMODE =? O_RDONLY) then EISDIR
  else if negb (Z.land openflags O_APPEND =? 0) then EISDIR else 0.

Definition sfs_read (p : Z) u fs : res (Z * uio * sfs_fs D) :=
  sv ← sv_deref p fs;
  _ ← assert (negb (is_write u));
  '(result, u, sv, fs) ← sfs_io valid curspace sv u fs;
  Ok (result, u, sv_put p sv fs).

Definition sfs_write (p : Z) u fs : res (Z * uio * sfs_fs D) :=
  sv ← sv_deref p fs;
  _ ← assert (is_write u);
  '(result, u, sv, fs) ← sfs_io valid curspace sv u fs;
  Ok (result, u, sv_put p sv fs).

Definition sfs_gettype sv : res Z :=
  if sfi_type (sv_i sv) =? SFS_TYPE_FILE then Ok S_IFREG
  else if sfi_type (sv_i sv) =? SFS_TYPE_DIR then Ok S_IFDIR
  else Panic.

(** The mode and the size; the other fields are 0. *)
Definition sfs_stat sv : res (Z * Z) :=
  _ ← vnode_check false (sv_v sv);
  mode ← sfs_gettype sv;
  Ok (mode, i32 (sfi_size (sv_i sv))).

Definition sfs_tryseek (pos : Z) : Z := if pos <? 0 then EINVAL else 0.
Definition sfs_ioctl : Z := EINVAL.
Definition sfs_mmap : Z := EUNIMP.

Definition sfs_namefile sv : res Z :=
  _ ← assert (sv_ino sv =? SFS_ROOT_LOCATION);
  Ok 0.
End vnodes.

(** ** The vnode table *)

Section table.
Context {D : Type} `{!BlockDev D} `{!ReliableDev D}.
Context (valid : Z -> bool) (curspace : option Z).
Implicit Types (fs : sfs_fs D) (sv : sfs_vnode).

Abbreviation sectors fs := (dev_sectors (sfs_device fs)).
Abbreviation bit fs := (bm_bit (sfs_freemap fs)).
Abbreviation nblocks fs := (sp_nblocks (sfs_sb fs)).

(** A loaded vnode: its inode's block is in use, and it is referenced. *)
Definition vnode_live fs sv : Prop :=
  0 < sv_ino sv < nblocks fs /\ bit fs (sv_ino sv) = true /\
  vn_countlock (sv_v sv) = true /\ 0 < vn_refcount (sv_v sv) <= 2147483647.

(** The table lists the loaded vnodes, once each, and no two of them are of
    the same inode. *)
Definition table_ok fs (l : list Z) : Prop :=
  holds (sfs_vnodes fs) l /\ NoDup l /\ Z.of_nat (length l) < arr_limit /\
  (forall p, p ∈ l <-> is_Some (sfs_mem fs !! p)) /\
  (forall p sv, sfs_mem fs !! p = Some sv -> vnode_live fs sv) /\
  (forall p q sv sv', sfs_mem fs !! p = Some sv -> sfs_mem fs !! q = Some sv' ->
     sv_ino sv = sv_ino sv' -> p = q).

Lemma table_entry_spec fs pre p post :
  holds (sfs_vnodes fs) (pre ++ p :: post) -> table_entry fs (Z.of_nat (length pre)) = Ok p.
Proof. intros H. unfold table_entry. by rewrite (holds_get _ _ _ _ H), bind_Ok. Qed.

Lemma live_bused fs sv : fs_ok fs -> vnode_live fs sv -> sfs_bused fs (sv_ino sv) = Ok true.
Proof. intros Hfs (Hr & Hb & _). rewrite sfs_bused_spec by (done || lia). by rewrite Hb. Qed.

(** The search finds the vnode of the inode if one is loaded. *)
Lemma load_search_spec ino fs l : forall post pre,
  fs_ok fs -> table_ok fs l -> l = pre ++ post ->
  (forall p sv, sfs_mem fs !! p = Some sv -> vn_refcount (sv_v sv) < 2147483647) ->
  (forall p sv, p ∈ pre -> sfs_mem fs !! p = Some sv -> sv_ino sv <> ino) ->
  (exists p sv, sfs_mem fs !! p = Some sv /\ sv_ino sv = ino /\
     load_search (length post) (Z.of_nat (length pre)) ino SFS_TYPE_INVAL fs =
       Ok (Some p, sv_put p (set_v (set_refcount (vn_refcount (sv_v sv) + 1) (sv_v sv)) sv) fs)) \/
  ((forall p sv, sfs_mem fs !! p = Some sv -> sv_ino sv <> ino) /\
     load_search (length post) (Z.of_nat (length pre)) ino SFS_TYPE_INVAL fs = Ok (None, fs)).
Proof.
  induction post as [|p post IH]; intros pre Hfs Ht Hl Hmax Hpre.
  { right. split; [|done]. intros p sv Hp. apply (Hpre p); [|done]. destruct Ht as (_ & _ & _ & Hdom & _).
    rewrite app_nil_r in Hl. rewrite <- Hl. apply Hdom. by eexists. }
  pose proof Ht as (Hh & Hnd & _ & Hdom & Hlive & _). rewrite Hl in Hh.
  cbn [length load_search]. rewrite (table_entry_spec fs pre p post Hh), bind_Ok.
  destruct (proj1 (Hdom p)) as [sv Hsv]; [rewrite Hl; apply elem_of_app; right; left|].
  unfold sv_deref. rewrite Hsv, bind_Ok. pose proof (Hlive p sv Hsv) as Hv.
  rewrite (live_bused fs sv Hfs Hv), bind_Ok. cbn [negb].
  destruct (Z.eqb_spec (sv_ino sv) ino) as [E|Hne].
  - left. exists p, sv. split; [done|]. split; [done|]. destruct Hv as (_ & _ & Hlk & Hrc). pose proof (Hmax p sv Hsv).
    change (assert (SFS_TYPE_INVAL =? SFS_TYPE_INVAL)) with (@Ok unit tt). rewrite bind_Ok.
    unfold vnode_incref_v. rewrite Hlk. cbn [assert]. rewrite !bind_Ok. by rewrite i32_small by lia.
  - replace (Z.of_nat (length pre) + 1) with (Z.of_nat (length (pre ++ [p]))) by (rewrite length_app; simpl; lia).
    apply IH; [done|done|by rewrite <- app_assoc|done|].
    intros q svq Hq Hsvq. apply elem_of_app in Hq as [Hq|Hq]; [by apply (Hpre q)|].
    apply list_elem_of_singleton in Hq as ->. congruence.
Qed.

Lemma table_ok_put fs l p sv sv' :
  table_ok fs l -> sfs_mem fs !! p = Some sv -> sv_ino sv' = sv_ino sv -> vnode_live fs sv' ->
  table_ok (sv_put p sv' fs) l.
Proof.
  intros (Hh & Hnd & Hlim & Hdom & Hlive & Hinj) Hp Hino Hv. unfold sv_put, set_mem, table_ok; simpl.
  split; [done|]. split; [done|]. split; [done|]. split; [|split].
  - intros q. rewrite Hdom. destruct (decide (q = p)) as [->|Hne].
    + rewrite lookup_insert_eq. split; [by eexists|]. by rewrite Hp.
    + by rewrite lookup_insert_ne.
  - intros q svq Hq. apply lookup_insert_Some in Hq as [[_ <-]|[_ Hq]]; [done|]. by apply (Hlive q).
  - intros q q' a b Ha Hb E.
    assert (exists a', sfs_mem fs !! q = Some a' /\ sv_ino a' = sv_ino a) as (a' & Ha' & Ea).
    { apply lookup_insert_Some in Ha as [[<- <-]|[_ Ha]]; [by exists sv|by exists a]. }
    assert (exists b', sfs_mem fs !! q' = Some b' /\ sv_ino b' = sv_ino b) as (b' & Hb' & Eb).
    { apply lookup_insert_Some in Hb as [[<- <-]|[_ Hb]]; [by exists sv|by exists b]. }
    eapply Hinj; [exact Ha'|exact Hb'|congruence].
Qed.

Lemma table_ok_add fs l p sv table :
  table_ok fs l -> holds table (l ++ [p]) -> Z.of_nat (length l) + 1 < arr_limit ->
  sfs_mem fs !! p = None -> vnode_live fs sv ->
  (forall q sv', sfs_mem fs !! q = Some sv' -> sv_ino sv' <> sv_ino sv) ->
  table_ok (sv_put p sv (set_vnodes table fs)) (l ++ [p]).
Proof.
  intros (Hh & Hnd & Hlim & Hdom & Hlive & Hinj) Hh' Hlim' Hp Hv Hino. unfold sv_put, set_mem, table_ok; simpl.
  assert (p ∉ l) as Hpl by (rewrite Hdom, Hp; by intros [? ?]).
  split; [done|]. split.
  { apply NoDup_app. split; [done|]. split; [|apply NoDup_singleton].
    intros x Hx Hx'. apply list_elem_of_singleton in Hx'. by subst. } split; [rewrite length_app; simpl; lia|].
  split; [|split].
  - intros q. rewrite elem_of_app, list_elem_of_singleton, Hdom. destruct (decide (q = p)) as [->|Hne].
    + rewrite lookup_insert_eq. split; [by eexists|by right].
    + rewrite lookup_insert_ne by done. tauto.
  - intros q svq Hq. apply lookup_insert_Some in Hq as [[_ <-]|[_ Hq]]; [done|]. by apply (Hlive q).
  - intros q q' a b Ha Hb E.
    apply lookup_insert_Some in Ha as [[<- <-]|[Hqp Ha]], Hb as [[<- <-]|[Hqp' Hb]].
    + done.
    + by destruct (Hino q' b).
    + by destruct (Hino q a).
    + by eapply Hinj.
Qed.

(** What [sfs_loadvnode] puts in memory for an inode it reads. *)
Definition fresh_vnode (p ino : Z) (i : sfs_inode) : sfs_vnode :=
  mk_sv (mk_vnode 1 0 true (Some sfs_absfs) (Some p)
           (Some (if sfi_type i =? SFS_TYPE_FILE then sfs_fileops else sfs_dirops))) i ino false.

Definition loadable (i : sfs_inode) : Prop :=
  sfi_type i = SFS_TYPE_FILE \/ sfi_type i = SFS_TYPE_DIR.

(** The vnodes in memory and the table after reading inode [ino]. *)
Definition loaded_new (al : allocs) (p ino : Z) fs (l : list Z) (out : res (Z * option Z * sfs_fs D)) : Prop :=
  exists r ret fs', out = Ok (r, ret, fs') /\ fs_ok fs' /\ sectors fs' = sectors fs /\
    sfs_freemap fs' = sfs_freemap fs /\ nblocks fs' = nblocks fs /\
    (r = 0 /\ ret = Some p /\ table_ok fs' (l ++ [p]) /\
       sfs_mem fs' = <[p := fresh_vnode p ino (inode_of (blk (sectors fs) ino))]> (sfs_mem fs) \/
     r = ENOMEM /\ al_lock al && al_table al = false /\ ret = None /\ table_ok fs' l /\
       sfs_mem fs' = sfs_mem fs).

Lemma load_new_spec al p ino fs l :
  fs_ok fs -> table_ok fs l -> Z.of_nat (length l) + 1 < arr_limit ->
  0 < ino < nblocks fs -> bit fs ino = true -> loadable (inode_of (blk (sectors fs) ino)) ->
  sfs_mem fs !! p = None -> (forall q sv, sfs_mem fs !! q = Some sv -> sv_ino sv <> ino) ->
  loaded_new al p ino fs l (load_new valid curspace al p ino SFS_TYPE_INVAL fs).
Proof.
  intros Hfs Ht Hlim Hino Hbit Hty Hp Hnone. unfold load_new.
  rewrite sfs_bused_spec by (done || lia). rewrite Hbit, bind_Ok. cbn [negb].
  destruct (sfs_rblock_spec valid curspace fs ino Hfs ltac:(lia)) as (d & -> & Hfs1 & Hd).
  rewrite bind_Ok. cbn [Z.eqb negb]. cbv zeta.
  change (negb (SFS_TYPE_INVAL =? SFS_TYPE_INVAL)) with false. cbv iota. rewrite bind_Ok.
  set (i := inode_of (blk (sectors fs) ino)) in *.
  assert ((if sfi_type i =? SFS_TYPE_FILE then Ok sfs_fileops
           else if sfi_type i =? SFS_TYPE_DIR then Ok sfs_dirops else Panic) =
          Ok (if sfi_type i =? SFS_TYPE_FILE then sfs_fileops else sfs_dirops)) as ->
    by (by destruct Hty as [->| ->]).
  rewrite bind_Ok. unfold vnode_init. destruct (al_lock al) eqn:El; cbn [Z.eqb negb].
  2:{ change (negb (ENOMEM =? 0)) with true. cbv iota.
      do 3 eexists. split; [reflexivity|]. do 4 (split; [done|]).
      right. by rewrite El. }
  pose proof Ht as (Hh & _ & Hl' & _).
  destruct (holds_add (al_table al) _ l p Hh Hl') as [(table & Ea & Hh')|[Eok Ea]].
  - change (sfs_vnodes (set_dev d fs)) with (sfs_vnodes fs). rewrite Ea, bind_Ok. cbn [Z.eqb negb].
    do 3 eexists. split; [reflexivity|]. do 4 (split; [done|]). left. split; [done|]. split; [done|].
    split; [|done]. apply (table_ok_add (set_dev d fs)); [done..| |done].
    unfold vnode_live; simpl. split; [lia|]. split; [done|]. split; [done|lia].
  - change (sfs_vnodes (set_dev d fs)) with (sfs_vnodes fs). rewrite Ea, bind_Ok. cbn [Z.eqb negb].
    change (negb (ENOMEM =? 0)) with true. unfold vnode_kill. cbn. do 3 eexists. split; [reflexivity|].
    do 4 (split; [done|]). right. by rewrite El, Eok.
Qed.

(** No reference count is at its limit. *)
Definition refs_fit fs : Prop :=
  forall p sv, sfs_mem fs !! p = Some sv -> vn_refcount (sv_v sv) < 2147483647.

Definition not_loaded fs (ino : Z) : Prop :=
  forall p sv, sfs_mem fs !! p = Some sv -> sv_ino sv <> ino.

Lemma sfs_loadvnode_run al ino fs l :
  fs_ok fs -> table_ok fs l -> refs_fit fs ->
  (exists p sv, sfs_mem fs !! p = Some sv /\ sv_ino sv = ino /\
     sfs_loadvnode valid curspace al ino SFS_TYPE_INVAL fs =
       Ok (0, Some p, sv_put p (set_v (set_refcount (vn_refcount (sv_v sv) + 1) (sv_v sv)) sv) fs)) \/
  (not_loaded fs ino /\
     sfs_loadvnode valid curspace al ino SFS_TYPE_INVAL fs =
       match al_vnode al with
       | None => Ok (ENOMEM, None, fs)
       | Some p => load_new valid curspace al p ino SFS_TYPE_INVAL fs
       end).
Proof.
  intros Hfs Ht Hmax. unfold sfs_loadvnode, array_getnum. pose proof Ht as (Hh & _).
  rewrite (holds_num _ _ Hh), Nat2Z.id.
  destruct (load_search_spec ino fs l l [] Hfs Ht eq_refl Hmax) as [(p & sv & Hp & Hi & E)|[Hn E]].
  - intros p sv Hp. by apply not_elem_of_nil in Hp.
  - left. exists p, sv. do 2 (split; [done|]). change (Z.of_nat (length [])) with 0 in E. by rewrite E, bind_Ok.
  - right. split; [done|]. change (Z.of_nat (length [])) with 0 in E. by rewrite E, bind_Ok.
Qed.

(** C30. One vnode per inode.  In a file system whose vnode table is consistent,
    [sfs_loadvnode] on an allocated inode hands back the vnode of that inode
    that is loaded already, with one more reference, when there is one;
    otherwise it hands back a new vnode, with one reference and the inode
    that is on the disk; or it answers ENOMEM and loads nothing, and then an
    allocation had failed.  In every case the table stays consistent: it
    lists every loaded vnode once, with no two vnodes of the same inode; and
    the disk and the free map are as before. *)
Theorem sfs_loadvnode_one_per_inode al ino fs l :
  fs_ok fs -> table_ok fs l -> refs_fit fs -> Z.of_nat (length l) + 1 < arr_limit ->
  0 < ino < nblocks fs -> bit fs ino = true ->
  (not_loaded fs ino -> loadable (inode_of (blk (sectors fs) ino))) ->
  (forall p, al_vnode al = Some p -> sfs_mem fs !! p = None) ->
  exists r ret fs', sfs_loadvnode valid curspace al ino SFS_TYPE_INVAL fs = Ok (r, ret, fs') /\
    fs_ok fs' /\ sectors fs' = sectors fs /\ sfs_freemap fs' = sfs_freemap fs /\
    ((exists p sv, sfs_mem fs !! p = Some sv /\ sv_ino sv = ino /\ r = 0 /\ ret = Some p /\
        table_ok fs' l /\
        sfs_mem fs' = <[p := set_v (set_refcount (vn_refcount (sv_v sv) + 1) (sv_v sv)) sv]> (sfs_mem fs)) \/
     (exists p, not_loaded fs ino /\ al_vnode al = Some p /\ r = 0 /\ ret = Some p /\
        table_ok fs' (l ++ [p]) /\
        sfs_mem fs' = <[p := fresh_vnode p ino (inode_of (blk (sectors fs) ino))]> (sfs_mem fs)) \/
     (not_loaded fs ino /\ r = ENOMEM /\ ret = None /\ table_ok fs' l /\ sfs_mem fs' = sfs_mem fs /\
        (al_vnode al = None \/ al_lock al && al_table al = false))).
Proof.
  intros Hfs Ht Hmax Hlim Hino Hbit Hty Hfresh.
  destruct (sfs_loadvnode_run al ino fs l Hfs Ht Hmax) as [(p & sv & Hp & Hi & E)|[Hn E]].
  - do 3 eexists. split; [exact E|]. do 3 (split; [done|]). left. exists p, sv. do 4 (split; [done|]).
    split; [|done]. apply (table_ok_put fs l p sv); [done..|].
    destruct Ht as (_ & _ & _ & _ & Hlive & _). destruct (Hlive p sv Hp) as (? & ? & ? & ?).
    pose proof (Hmax p sv Hp). unfold vnode_live; simpl. split; [lia|]. do 2 (split; [done|]). lia.
  - destruct (al_vnode al) as [p|] eqn:Ea.
    + rewrite E. destruct (load_new_spec al p ino fs l) as (r & ret & fs' & -> & Hfs' & Hs & Hm & Hnb & Hc); auto.
      exists r, ret, fs'. do 4 (split; [done|]). right.
      destruct Hc as [(? & ? & ? & ?)|(? & ? & ? & ? & ?)]; [left; by exists p|right]. do 5 (split; [done|]). by right.
    + rewrite E. do 3 eexists. split; [reflexivity|]. do 3 (split; [done|]). right. right.
      do 5 (split; [done|]). by left.
Qed.

(** ** Reclaiming *)

Lemma table_index_spec fs l p : forall post pre,
  holds (sfs_vnodes fs) l -> l = pre ++ post -> p ∈ post -> NoDup l ->
  exists pre' post', l = pre' ++ p :: post' /\
    table_index (length post) (Z.of_nat (length pre)) p fs = Ok (Z.of_nat (length pre')).
Proof.
  induction post as [|q post IH]; intros pre Hh Hl Hp Hnd; [by apply not_elem_of_nil in Hp|].
  cbn [length table_index]. rewrite Hl in Hh. rewrite (table_entry_spec fs pre q post Hh), bind_Ok.
  destruct (Z.eqb_spec q p) as [->|Hne]; [by exists pre, post|].
  replace (Z.of_nat (length pre) + 1) with (Z.of_nat (length (pre ++ [q]))) by (rewrite length_app; simpl; lia).
  apply IH; [by rewrite Hl|by rewrite <- app_assoc| |done].
  apply elem_of_cons in Hp as [->|?]; [congruence|done].
Qed.

(** The vnode at [p] need not be live any more. *)
Definition table_but (p : Z) fs (l : list Z) : Prop :=
  holds (sfs_vnodes fs) l /\ NoDup l /\ Z.of_nat (length l) < arr_limit /\
  (forall q, q ∈ l <-> is_Some (sfs_mem fs !! q)) /\
  (forall q sv, q <> p -> sfs_mem fs !! q = Some sv -> vnode_live fs sv) /\
  (forall q q' sv sv', sfs_mem fs !! q = Some sv -> sfs_mem fs !! q' = Some sv' ->
     sv_ino sv = sv_ino sv' -> q = q').

Lemma table_ok_but p fs l : table_ok fs l -> table_but p fs l.
Proof.
  intros (Hh & Hnd & Hlim & Hdom & Hlive & Hinj). do 4 (split; [assumption|]). split; [|assumption].
  intros q sv _. apply Hlive.
Qed.

(** The table without the vnode at [p]. *)
Lemma forget_vnode_spec fs l p sv :
  table_but p fs l -> sfs_mem fs !! p = Some sv -> vn_countlock (sv_v sv) = true ->
  vn_refcount (sv_v sv) = 1 -> vn_opencount (sv_v sv) = 0 ->
  exists fs' l', forget_vnode p fs = Ok (0, fs') /\ table_ok fs' l' /\ sfs_mem fs' = delete p (sfs_mem fs) /\
    sfs_sb fs' = sfs_sb fs /\ sfs_freemap fs' = sfs_freemap fs /\ sfs_device fs' = sfs_device fs /\
    (length l' < length l)%nat.
Proof.
  intros (Hh & Hnd & Hlim & Hdom & Hlive & Hinj) Hp Hlock Hrc Hoc. unfold forget_vnode, array_getnum.
  rewrite (holds_num _ _ Hh), Nat2Z.id.
  destruct (table_index_spec fs l p l [] Hh eq_refl) as (pre & post & -> & E); [apply Hdom; by eexists|done|].
  change (Z.of_nat (length [])) with 0 in E. rewrite E, bind_Ok. destruct (Z.ltb_spec (Z.of_nat (length pre)) 0); [lia|].
  destruct (holds_remove _ pre p post Hh) as (table & -> & Hh' & _). rewrite bind_Ok. cbv zeta.
  unfold sv_deref. cbn [sfs_mem set_vnodes]. rewrite Hp, bind_Ok. unfold vnode_kill.
  rewrite Hlock, Hrc, Hoc. cbn [Z.eqb assert]. rewrite !bind_Ok.
  eexists _, (pre ++ post). split; [reflexivity|]. split; [|do 4 (split; [reflexivity|]); rewrite !length_app; simpl; lia].
  apply NoDup_app in Hnd as (Hnd1 & Hd1 & Hnd2). apply NoDup_cons in Hnd2 as [Hpost Hnd2].
  unfold table_ok; simpl. split; [done|]. split; [|split; [|split; [|split]]].
  - apply NoDup_app. split; [done|]. split; [|done]. intros x Hx Hx'. apply (Hd1 x Hx). by right.
  - rewrite length_app in Hlim |- *. simpl in Hlim. lia.
  - intros q. destruct (decide (q = p)) as [->|Hne].
    + rewrite lookup_delete_eq. split; [|by intros []]. intros [Hq|Hq]%elem_of_app; [|done].
      destruct (Hd1 p Hq). left.
    + rewrite lookup_delete_ne, <- Hdom, !elem_of_app, elem_of_cons by done. tauto.
  - intros q svq [Hne Hq]%lookup_delete_Some. by apply (Hlive q).
  - intros q q' a b [_ Ha]%lookup_delete_Some [_ Hb]%lookup_delete_Some. by eapply Hinj.
Qed.

(** The inode on the disk is the one in memory, unless the vnode is dirty. *)
Definition in_sync sv fs : Prop :=
  sv_dirty sv = false -> inode_of (blk (sectors fs) (sv_ino sv)) = sv_i sv.

Lemma sfs_sync_inode_spec sv fs :
  fs_ok fs -> 0 < sv_ino sv < nblocks fs -> inode_typed (sv_i sv) -> in_sync sv fs ->
  exists d, sfs_sync_inode valid curspace sv fs = Ok (0, set_dirty false sv, set_dev d fs) /\
    fs_ok (set_dev d fs) /\ inode_of (blk (dev_sectors d) (sv_ino sv)) = sv_i sv /\
    (forall j, 0 <= j -> j <> sv_ino sv -> dev_sectors d !! Z.to_nat j = sectors fs !! Z.to_nat j).
Proof.
  intros Hfs Hino Hty Hsync. unfold sfs_sync_inode. destruct (sv_dirty sv) eqn:Ed.
  - destruct (sfs_wblock_spec valid curspace fs (inode_bytes (sv_i sv)) (sv_ino sv) Hfs) as (d & -> & Hfs' & Hd);
      [lia|by apply length_inode_bytes|].
    rewrite bind_Ok. cbn [Z.eqb negb]. exists d. split; [done|]. split; [done|]. split.
    + destruct (fs_sector fs (sv_ino sv) Hfs ltac:(lia)) as [Hlk _]. apply lookup_lt_Some in Hlk.
      unfold blk. rewrite Hd, list_lookup_total_insert_eq by done. by apply inode_roundtrip.
    + intros j Hj Hne. rewrite Hd, list_lookup_insert_ne; [done|lia].
  - exists (sfs_device fs). destruct sv as [v i ino dirty], fs as [? ? ? ? ? ? ?]; simpl in Ed |- *. subst dirty.
    split; [done|]. split; [done|]. split; [by apply Hsync|done].
Qed.

(** What [sfs_reclaim] needs of the vnode at [p]: the last reference is being
    dropped, and the file is not open. *)
Definition last_ref (p : Z) sv fs : Prop :=
  sfs_mem fs !! p = Some sv /\ vn_refcount (sv_v sv) = 1 /\ vn_opencount (sv_v sv) = 0 /\
  inode_typed (sv_i sv) /\ in_sync sv fs.

Lemma table_ok_dev fs l d : table_ok fs l <-> table_ok (set_dev d fs) l.
Proof. done. Qed.

Lemma reclaim_linked p sv fs l :
  fs_ok fs -> table_ok fs l -> last_ref p sv fs -> sfi_linkcount (sv_i sv) <> 0 ->
  exists fs' l', sfs_reclaim valid curspace p fs = Ok (0, fs') /\ fs_ok fs' /\ table_ok fs' l' /\
    (length l' < length l)%nat /\ sfs_mem fs' = delete p (sfs_mem fs) /\
    nblocks fs' = nblocks fs /\ sfs_freemap fs' = sfs_freemap fs /\
    inode_of (blk (sectors fs') (sv_ino sv)) = sv_i sv /\
    (forall j, 0 <= j -> j <> sv_ino sv -> sectors fs' !! Z.to_nat j = sectors fs !! Z.to_nat j).
Proof.
  intros Hfs Ht (Hp & Hrc & Hoc & Hty & Hsync) Hlinks. pose proof Ht as (_ & _ & _ & _ & Hlive & _).
  destruct (Hlive p sv Hp) as (Hino & Hbit & Hlock & _).
  unfold sfs_reclaim, sv_deref. rewrite Hp, bind_Ok, Hlock, Hrc. cbn [assert]. rewrite bind_Ok. cbn [Z.eqb Pos.eqb negb].
  destruct (Z.eqb_spec (sfi_linkcount (sv_i sv)) 0) as [?|_]; [done|]. rewrite bind_Ok. cbn [Z.eqb negb].
  unfold on_vnode at 1, sv_deref at 1. rewrite Hp, bind_Ok.
  destruct (sfs_sync_inode_spec sv fs Hfs Hino Hty Hsync) as (d & -> & Hfs1 & Hi & Hfr).
  rewrite !bind_Ok. cbn [Z.eqb negb]. set (fs1 := sv_put p _ _).
  change (sfs_mem fs1) with (<[p := set_dirty false sv]> (sfs_mem fs)).
  rewrite lookup_insert_eq, bind_Ok. change (sfi_linkcount (sv_i (set_dirty false sv))) with (sfi_linkcount (sv_i sv)).
  destruct (Z.eqb_spec (sfi_linkcount (sv_i sv)) 0) as [?|_]; [done|]. rewrite bind_Ok.
  destruct (forget_vnode_spec fs1 l p (set_dirty false sv)) as (fs' & l' & E & Ht' & Hm & Hsb & Hmap & Hd & Hl).
  - apply table_ok_but, (table_ok_put (set_dev d fs) l p sv); [done..|]. by apply (Hlive p sv).
  - apply lookup_insert_eq.
  - done.
  - done.
  - done.
  - exists fs', l'. split; [exact E|]. split.
    { unfold fs_ok. rewrite Hsb, Hmap, Hd. exact Hfs1. }
    split; [done|]. split; [done|]. split; [rewrite Hm; apply delete_insert_eq|].
    rewrite Hsb, Hmap, Hd. by do 2 (split; [reflexivity|]).
Qed.

(** Dropping the last reference to a file that has links saves it.
    [sfs_reclaim] then succeeds: the vnode leaves memory and the table, the
    free map and every block but the inode's keep their value, and the inode
    on the disk is the one that was in memory, so that the next
    [sfs_loadvnode] of this inode, given memory, hands back a vnode with
    exactly that inode. *)
Theorem sfs_reclaim_then_load p sv fs l q :
  fs_ok fs -> table_ok fs l -> refs_fit fs -> last_ref p sv fs ->
  sfi_linkcount (sv_i sv) <> 0 -> loadable (sv_i sv) -> delete p (sfs_mem fs) !! q = None ->
  exists fs', sfs_reclaim valid curspace p fs = Ok (0, fs') /\ fs_ok fs' /\
    sfs_mem fs' = delete p (sfs_mem fs) /\ sfs_freemap fs' = sfs_freemap fs /\
    (forall j, 0 <= j -> j <> sv_ino sv -> sectors fs' !! Z.to_nat j = sectors fs !! Z.to_nat j) /\
    exists fs'' l'', sfs_loadvnode valid curspace (mk_allocs (Some q) true true) (sv_ino sv) SFS_TYPE_INVAL fs' =
        Ok (0, Some q, fs'') /\ table_ok fs'' l'' /\
      sfs_mem fs'' !! q = Some (fresh_vnode q (sv_ino sv) (sv_i sv)).
Proof.
  intros Hfs Ht Hmax Hlast Hlinks Hld Hq. pose proof Ht as (_ & _ & Hlim & _ & Hlive & Hinj).
  pose proof Hlast as (Hp & _). destruct (Hlive p sv Hp) as (Hino & Hbit & _).
  destruct (reclaim_linked p sv fs l Hfs Ht Hlast Hlinks)
    as (fs' & l' & E & Hfs' & Ht' & Hl' & Hm & Hnb & Hmap & Hi & Hfr).
  exists fs'. do 5 (split; [done|]).
  assert (refs_fit fs') as Hmax'.
  { intros a b Hab. rewrite Hm in Hab. apply lookup_delete_Some in Hab as [_ Hab]. by apply (Hmax a). }
  assert (not_loaded fs' (sv_ino sv)) as Hnl.
  { intros a b Hab Ei. rewrite Hm in Hab. apply lookup_delete_Some in Hab as [Hne Hab]. apply Hne. by eapply Hinj. }
  destruct (sfs_loadvnode_run (mk_allocs (Some q) true true) (sv_ino sv) fs' l' Hfs' Ht' Hmax')
    as [(a & b & Hab & Ei & _)|[_ ->]]; [by destruct (Hnl a b Hab)|].
  destruct (load_new_spec (mk_allocs (Some q) true true) q (sv_ino sv) fs' l')
    as (r & ret & fs'' & E' & _ & _ & _ & _ & Hc);
    [done|done|lia|by rewrite Hnb|by rewrite Hmap|by rewrite Hi|by rewrite Hm|done|].
  destruct Hc as [(-> & -> & Ht'' & Hm'')|(_ & ? & _)]; [|done].
  exists fs'', (l' ++ [q]). split; [exact E'|]. split; [done|]. by rewrite Hm'', lookup_insert_eq, Hi.
Qed.

(** ** Deleting a file *)

Lemma truncated_typed bl len sv fs sv' fs' :
  truncated bl len sv fs sv' fs' -> inode_typed (sv_i sv) -> inode_typed (sv_i sv').
Proof.
  intros [Hfs' Hf' _ _ _ _ _ _ _ (_ & _ & Ety & Elc & Ew)] (_ & Hty & Hlc & _ & _ & _ & Hwl & Hw).
  pose proof Hfs' as (Hd & Hn & _). pose proof (dev_small _ Hd). pose proof Hf' as (Hl & Hsz & _).
  assert (forall b, b ∈ ptrs sv' (sectors fs') -> is_u32 b) as Hu.
  { intros b Hb. destruct (ptrs_ok sv' fs' b Hf' Hb) as [Hr _]. unfold is_u32. lia. }
  unfold inode_typed. rewrite Ety, Elc, Ew. split; [unfold is_u32; lia|]. do 2 (split; [done|]). split; [done|].
  split; [|split; [apply Hu; left|done]].
  apply Forall_forall. intros b Hb. apply Hu. right. apply elem_of_app. by left.
Qed.

(** The vnodes of other files survive a truncation of [sv]. *)
Definition inodes_apart sv fs : Prop :=
  forall q sv', sfs_mem fs !! q = Some sv' -> sv_ino sv' ∉ ptrs sv (sectors fs).

Lemma table_ok_trunc bl len p sv fs sv' fs' l :
  table_ok fs l -> sfs_mem fs !! p = Some sv -> inodes_apart sv fs ->
  truncated bl len sv fs sv' fs' -> table_ok (sv_put p sv' fs') l.
Proof.
  intros Ht Hp Hap [_ _ (Hsb & _ & Hvn & Hmem & _) _ Hbits _ _ _ _ (Hv & Hi & _)].
  assert (forall q sv2, sfs_mem fs !! q = Some sv2 -> vnode_live fs' sv2) as Hlive.
  { intros q sv2 Hq. destruct Ht as (_ & _ & _ & _ & Hlive & _). destruct (Hlive q sv2 Hq) as (Hr & Hb & Hrest).
    unfold vnode_live. rewrite Hsb. split; [done|]. split; [|done]. apply Hbits; [lia|]. split; [done|].
    intros Hin. by destruct (Hap q sv2 Hq). }
  apply (table_ok_put fs' l p sv); [|by rewrite Hmem|done|].
  - destruct Ht as (Hh & Hnd & Hlim & Hdom & _ & Hinj). unfold table_ok. rewrite Hvn, Hmem.
    by do 4 (split; [done|]).
  - unfold vnode_live. rewrite Hv, Hi. by apply (Hlive p).
Qed.

Lemma vop_truncate_0 p sv fs l :
  fs_ok fs -> table_ok fs l -> last_ref p sv fs -> vn_ops (sv_v sv) = Some sfs_fileops -> file_ok sv fs ->
  exists sv' fs', vop_truncate valid curspace p 0 fs = Ok (0, sv_put p sv' fs') /\
    truncated 0 0 sv fs sv' fs' /\ no_blocks sv' (sectors fs').
Proof.
  intros Hfs Ht (Hp & Hrc & Hoc & _) Hops Hf. destruct Ht as (_ & _ & _ & _ & Hlive & _).
  destruct (Hlive p sv Hp) as (_ & _ & Hlock & _). unfold vop_truncate, sv_deref, vnode_check.
  rewrite Hp, bind_Ok, Hops, Hlock, Hrc, Hoc. rewrite bool_decide_eq_true_2 by done. cbn [assert]. rewrite !bind_Ok.
  cbn [Z.ltb Z.compare Z.eqb andb]. rewrite bind_Ok. unfold on_vnode, sv_deref. rewrite Hp, bind_Ok.
  destruct (sfs_truncate_spec valid curspace sv fs 0 Hfs Hf ltac:(lia)) as (sv' & fs' & -> & Htr & Hz).
  rewrite bind_Ok. exists sv', fs'. split; [done|]. split; [exact Htr|by apply Hz].
Qed.

Lemma table_but_bfree p sv fs fs' l :
  table_ok fs l -> sfs_mem fs !! p = Some sv -> same_fs fs fs' ->
  (forall j, 0 <= j -> bit fs' j = if j =? sv_ino sv then false else bit fs j) -> table_but p fs' l.
Proof.
  intros (Hh & Hnd & Hlim & Hdom & Hlive & Hinj) Hp (Hsb & _ & Hvn & Hmem & _) Hb.
  unfold table_but. rewrite Hvn, Hmem. do 4 (split; [done|]). split; [|done].
  intros q svq Hne Hq. destruct (Hlive q svq Hq) as (Hr & Hbit & Hrest). unfold vnode_live. rewrite Hsb, Hb by lia.
  split; [done|]. split; [|done]. destruct (Z.eqb_spec (sv_ino svq) (sv_ino sv)) as [E|]; [|done].
  destruct Hne. by eapply Hinj.
Qed.

(** The end of [sfs_reclaim] for a file without links, once it is truncated. *)
Lemma reclaim_tail p sv fs l :
  fs_ok fs -> table_ok fs l -> last_ref p sv fs ->
  exists fs1 fs2 fs' l', on_vnode p (sfs_sync_inode valid curspace) fs = Ok (0, fs1) /\
    sfs_mem fs1 !! p = Some (set_dirty false sv) /\ sfs_bfree fs1 (sv_ino sv) = Ok fs2 /\
    forget_vnode p fs2 = Ok (0, fs') /\ fs_ok fs' /\ table_ok fs' l' /\
    sfs_mem fs' = delete p (sfs_mem fs) /\
    (forall j, 0 <= j -> bit fs' j = if j =? sv_ino sv then false else bit fs j) /\
    (forall j, 0 <= j -> j <> sv_ino sv -> sectors fs' !! Z.to_nat j = sectors fs !! Z.to_nat j).
Proof.
  intros Hfs Ht (Hp & Hrc & Hoc & Hty & Hsync). pose proof Ht as (_ & _ & _ & _ & Hlive & _).
  destruct (Hlive p sv Hp) as (Hino & Hbit & Hlock & Hrest).
  destruct (sfs_sync_inode_spec sv fs Hfs Hino Hty Hsync) as (d & E & Hfs1 & _ & Hfr).
  set (fs1 := sv_put p (set_dirty false sv) (set_dev d fs)).
  assert (sfs_mem fs1 !! p = Some (set_dirty false sv)) as Hp1 by apply lookup_insert_eq.
  assert (table_ok fs1 l) as Ht1.
  { apply (table_ok_put (set_dev d fs) l p sv); [done..|]. by apply (Hlive p sv). }
  destruct (sfs_bfree_spec fs1 (sv_ino sv) Hfs1 Hino Hbit) as (fs2 & E2 & Hfs2 & Hsame & Hdev & Hbits).
  pose proof Hsame as (_ & _ & _ & Hmem & _).
  destruct (forget_vnode_spec fs2 l p (set_dirty false sv)) as (fs' & l' & E3 & Ht' & Hm & Hsb & Hmap & Hd & _);
    [by apply (table_but_bfree p (set_dirty false sv) fs1)|by rewrite Hmem|done..|].
  exists fs1, fs2, fs', l'. split; [unfold on_vnode, sv_deref; by rewrite Hp, bind_Ok, E, bind_Ok|].
  split; [exact Hp1|]. split; [exact E2|]. split; [exact E3|].
  split; [unfold fs_ok; by rewrite Hsb, Hmap, Hd|]. split; [done|].
  split; [rewrite Hm, Hmem; apply delete_insert_eq|]. rewrite Hmap, Hd, Hdev. split; [exact Hbits|exact Hfr].
Qed.

(** C31. Dropping the last reference to a file that has no links deletes it.
    [sfs_reclaim] then succeeds; the blocks that become free are exactly the
    blocks of the file, its indirect block and the block of its inode; the
    vnode leaves memory and the table, which stays consistent; and no block
    of another file is written. *)
Theorem sfs_reclaim_deletes_file p sv fs l :
  fs_ok fs -> table_ok fs l -> last_ref p sv fs -> sfi_linkcount (sv_i sv) = 0 ->
  vn_ops (sv_v sv) = Some sfs_fileops -> file_ok sv fs -> inodes_apart sv fs ->
  exists fs' l', sfs_reclaim valid curspace p fs = Ok (0, fs') /\ fs_ok fs' /\ table_ok fs' l' /\
    sfs_mem fs' = delete p (sfs_mem fs) /\
    (forall j, 0 < j -> bit fs' j = true <->
       bit fs j = true /\ (j ∉ ptrs sv (sectors fs)) /\ j <> sv_ino sv) /\
    (forall j, 0 <= j -> (j ∉ ptrs sv (sectors fs)) -> j <> sv_ino sv ->
       sectors fs' !! Z.to_nat j = sectors fs !! Z.to_nat j).
Proof.
  intros Hfs Ht Hlast Hlinks Hops Hf Hap. pose proof Hlast as (Hp & Hrc & Hoc & Hty & _).
  pose proof Ht as (_ & _ & _ & _ & Hlive & _). destruct (Hlive p sv Hp) as (Hino & Hbit & Hlock & _).
  unfold sfs_reclaim. assert (sv_deref p fs = Ok sv) as -> by (unfold sv_deref; by rewrite Hp).
  rewrite bind_Ok, Hlock, Hrc. cbn [assert]. rewrite bind_Ok.
  cbn [Z.eqb Pos.eqb negb]. rewrite Hlinks. cbn [Z.eqb].
  destruct (vop_truncate_0 p sv fs l Hfs Ht Hlast Hops Hf) as (sv1 & fs1 & -> & Htr & Hz).
  rewrite bind_Ok. cbn [Z.eqb negb].
  pose proof Htr as [Hfs1 _ (_ & _ & _ & Hmem & _) _ Hbits Hfr _ _ Hdirty (Hv & Hi & _ & Hlc & _)].
  destruct (reclaim_tail p sv1 (sv_put p sv1 fs1) l)
    as (fs2 & fs3 & fs' & l' & E1 & Hp2 & E2 & E3 & Hfs' & Ht' & Hm' & Hb' & Hfr').
  - exact Hfs1.
  - by apply (table_ok_trunc 0 0 p sv fs).
  - split; [apply lookup_insert_eq|]. rewrite Hv. do 2 (split; [done|]).
    split; [by eapply truncated_typed|]. unfold in_sync. congruence.
  - exists fs', l'. rewrite E1, bind_Ok. cbn [Z.eqb negb]. unfold sv_deref. rewrite Hp2, bind_Ok.
    cbn [sv_i set_dirty sv_ino]. rewrite Hlc, Hlinks. cbn [Z.eqb]. rewrite E2, bind_Ok.
    split; [exact E3|]. do 2 (split; [done|]). split; [|split].
    + rewrite Hm'. cbn [sfs_mem sv_put set_mem]. by rewrite delete_insert_eq, Hmem.
    + intros j Hj. rewrite Hb', Hi by lia. destruct (Z.eqb_spec j (sv_ino sv)) as [->|Hne]; [split; [done|tauto]|].
      rewrite (Hbits j Hj). split; intros [Hb Hptr]; (split; [done|]).
      * split; [|done]. intros Hin. specialize (Hz j (Hptr Hin)). lia.
      * intros Hin. by destruct Hptr.
    + intros j Hj Hnp Hne. rewrite Hfr' by (done || congruence). apply Hfr; [done|].
      intros ->. apply Hnp. left.
Qed.
End table.

(** ** Witnesses *)

#[local] Instance good_disk : DiskLaws ramdisk := ramdisk_laws false.
#[local] Existing Instance ramdisk_sound.

(** One vnode, at address 100, of the file in block 2 whose inode is block 1;
    its inode is not on the disk yet. *)
Definition sv100 (links : Z) : sfs_vnode :=
  set_dirty true (set_i (set_linkcount links (sv_i (file8 [2] 9))) (file8 [2] 9)).
Definition fs100 (links : Z) : sfs_fs (lhd_softc ramdisk) :=
  mk_sfs sb8 false lh8 (mk_array 1 1 (Some [Some 100])) (mk_bitmap 8 [7]) false {[100 := sv100 links]}.

Lemma fs100_ok links : fs_ok (fs100 links).
Proof. exact fs8_ok. Qed.

Lemma fs100_mem links p sv : sfs_mem (fs100 links) !! p = Some sv -> p = 100 /\ sv = sv100 links.
Proof. cbn [fs100 sfs_mem]. intros [<- <-]%lookup_singleton_Some. done. Qed.

Lemma fs100_table links : table_ok (fs100 links) [100].
Proof.
  split; [|split; [apply NoDup_singleton|split; [done|split; [|split]]]].
  - split; [|done]. split; [simpl; lia|]. split; [simpl; lia|done].
  - intros p. rewrite list_elem_of_singleton. unfold fs100; simpl. split.
    + intros ->. rewrite lookup_singleton_eq. by eexists.
    + intros [x Hx]. by apply lookup_singleton_Some in Hx as [-> _].
  - intros p sv [_ ->]%fs100_mem.
    unfold vnode_live; simpl. split; [lia|]. split; [done|]. split; [done|lia].
  - intros p q sv sv' [-> _]%fs100_mem [-> _]%fs100_mem _. done.
Qed.

Lemma fs100_refs links : refs_fit (fs100 links).
Proof. intros p sv [_ ->]%fs100_mem. simpl. lia. Qed.

Lemma fs100_last links : is_u16 links -> last_ref 100 (sv100 links) (fs100 links).
Proof.
  intros Hl. split; [apply lookup_singleton_eq|]. do 2 (split; [done|]). split; [|done].
  unfold inode_typed, is_u32, is_u16; simpl. split; [lia|]. split; [unfold SFS_TYPE_FILE; lia|]. split; [exact Hl|].
  split; [done|]. split; [repeat (constructor; [unfold is_u32; lia|]); constructor|]. split; [lia|].
  split; [done|]. change (Forall is_u32 (replicate 110 0)). apply Forall_replicate. unfold is_u32; lia.
Qed.

(** The file system with the inode on the disk, and no vnode in memory. *)
Definition lh1 : lhd_softc ramdisk :=
  mk_lhd (replicate 512 0) 0 1 0 8 0 0
    (mk_ramdisk (<[1%nat := inode_bytes (sv_i (file8 [2] 9))]> (replicate 8 zeros)) []).
Definition fs1 : sfs_fs (lhd_softc ramdisk) :=
  mk_sfs sb8 false lh1 (mk_array 0 0 None) (mk_bitmap 8 [7]) false ∅.

Lemma fs1_ok : fs_ok fs1.
Proof.
  destruct fs8_ok as (_ & Hrest). split; [|exact Hrest].
  split; [done|]. split; [done|]. split; [done|]. split; [|done]. split; [|done].
  split; [|done]. simpl. by repeat constructor.
Qed.

Lemma sfs_loadvnode_one_per_inode_witness :
  exists r ret fs', sfs_loadvnode (fun _ => true) None (mk_allocs (Some 100) true true) 1 SFS_TYPE_INVAL fs1 =
      Ok (r, ret, fs') /\ fs_ok fs'.
Proof.
  destruct (sfs_loadvnode_one_per_inode (fun _ => true) None (mk_allocs (Some 100) true true) 1 fs1 [] fs1_ok)
    as (r & ret & fs' & E & Hfs' & _).
  - split; [split; [split; [simpl; lia|done]|done]|]. split; [constructor|]. split; [done|]. split; [|done].
    intros p. split; [intros Hp; by apply not_elem_of_nil in Hp|]. intros [x Hx]. discriminate Hx.
  - intros p sv Hp. discriminate Hp.
  - done.
  - simpl; lia.
  - done.
  - intros _. left. vm_compute. reflexivity.
  - done.
  - exists r, ret, fs'. split; [exact E|exact Hfs'].
Defined.

Lemma sfs_reclaim_then_load_witness :
  exists fs', sfs_reclaim (fun _ => true) None 100 (fs100 1) = Ok (0, fs') /\
    exists fs'', sfs_loadvnode (fun _ => true) None (mk_allocs (Some 104) true true) 1 SFS_TYPE_INVAL fs' =
        Ok (0, Some 104, fs'') /\
      sfs_mem fs'' !! 104 = Some (fresh_vnode 104 1 (sv_i (sv100 1))).
Proof.
  destruct (sfs_reclaim_then_load (fun _ => true) None 100 (sv100 1) (fs100 1) [100] 104 (fs100_ok 1)
              (fs100_table 1) (fs100_refs 1) (fs100_last 1 ltac:(unfold is_u16; lia)))
    as (fs' & E & _ & _ & _ & _ & fs'' & l'' & E' & _ & Hm).
  - done.
  - left. reflexivity.
  - reflexivity.
  - exists fs'. split; [exact E|]. exists fs''. split; [exact E'|exact Hm].
Defined.

Lemma sfs_reclaim_deletes_file_witness :
  exists fs', sfs_reclaim (fun _ => true) None 100 (fs100 0) = Ok (0, fs') /\
    sfs_mem fs' = delete 100 (sfs_mem (fs100 0)).
Proof.
  destruct (sfs_reclaim_deletes_file (fun _ => true) None 100 (sv100 0) (fs100 0) [100] (fs100_ok 0)
              (fs100_table 0) (fs100_last 0 ltac:(unfold is_u16; lia)))
    as (fs' & l' & E & _ & _ & Hm & _).
  - reflexivity.
  - reflexivity.
  - exact file8_ok2.
  - intros q sv [_ ->]%fs100_mem.
    change (1 ∉ 0 :: 2 :: replicate 142 0). rewrite !not_elem_of_cons, elem_of_replicate.
    split; [lia|]. split; [lia|]. intros [? _]. lia.
  - exists fs'. split; [exact E|exact Hm].
Defined.
