(* ===== verification/ExecSfs.v ===== *)
(** * Executables in files of SFS

    [VOP_READ] of a vnode of SFS is [sfs_read], which keeps the promise that
    [load_elf] relies on, for every file that is not larger than SFS can
    store. *)
From stdpp Require Import base numbers list option gmap.
From S2P Require Import Prelude Uio Device SfsDisk SfsIo SfsFile SfsVnode LoadElfSpec.
Local Open Scope Z_scope.

Section exec.
Context {D : Type} `{!BlockDev D} `{!ReliableDev D}.
Variable p : Z.
Implicit Types (fs : sfs_fs D).

Abbreviation sectors fs := (dev_sectors (sfs_device fs)).

(** The file behind the vnode at [p]. *)
Definition exec_bytes fs : list Z :=
  match sfs_mem fs !! p with Some sv => take (Z.to_nat (sfi_size (sv_i sv))) (flat sv (sectors fs)) | None => [] end.

Definition exec_ok fs : Prop :=
  fs_ok fs /\ exists sv, sfs_mem fs !! p = Some sv /\ file_ok sv fs /\ sfi_size (sv_i sv) <= 73216.

Lemma length_exec_bytes fs sv : fs_ok fs -> sfs_mem fs !! p = Some sv -> file_ok sv fs -> sfi_size (sv_i sv) <= 73216 ->
  Z.of_nat (length (exec_bytes fs)) = sfi_size (sv_i sv).
Proof.
  intros Hfs Hp Hf Hs. pose proof Hf as (_ & Hsz & _). unfold exec_bytes. rewrite Hp, length_take, length_flat by done. lia.
Qed.

(** Within the file a read cannot fail. *)
Lemma sfs_io_within valid cs sv fs u : fs_ok fs -> file_ok sv fs -> sfi_size (sv_i sv) <= 73216 ->
  uio_wf u -> reachable valid cs u (uio_resid u) -> 0 <= uio_offset u -> is_write u = false ->
  let n := readable (sfi_size (sv_i sv)) (uio_offset u) (uio_resid u) in
  exists fs', sfs_io valid cs sv u fs = Ok (0, advance n (iov_data u ++ take (Z.to_nat n) (drop (Z.to_nat (uio_offset u)) (flat sv (sectors fs)))) u, sv, fs') /\
    grows sv fs sv fs' /\ sectors fs' = sectors fs.
Proof.
  intros Hfs Hf Hs Hwf Hr Ho Hw n. pose proof Hf as (_ & Hsz & _). destruct (Z.le_gt_cases (sfi_size (sv_i sv)) (uio_offset u)) as [Hpast|Hin].
  - exists fs. unfold sfs_io. rewrite Hw. cbn [negb andb]. rewrite i32_small, Z.geb_leb by lia. destruct (Z.leb_spec (sfi_size (sv_i sv)) (uio_offset u)); [|lia].
    replace n with 0 by (unfold n, readable; lia). rewrite take_0, app_nil_r, advance_0 by apply Hwf. split; [done|]. split; [by apply grows_refl|done].
  - destruct (sfs_io_read_spec valid cs sv fs u Hfs Hf Hwf Hr Ho Hw) as (r & k & fs' & E & Hk & Hres & Hg & Hsec). exists fs'. split; [|done].
    assert (r = 0 /\ k = n) as [-> ->]; [|exact E]. unfold n, readable in *.
    destruct Hres as [[? ?]|(Hlt & _ & [[-> Hend]|(_ & Hw' & _)])]; [done|lia|congruence].
Qed.

Lemma sfs_read_file valid cs u fs : exec_ok fs -> uio_wf u -> reachable valid cs u (uio_resid u) -> 0 <= uio_offset u -> is_write u = false ->
  let n := Z.max 0 (Z.min (uio_resid u) (Z.of_nat (length (exec_bytes fs)) - uio_offset u)) in
  exists fs', sfs_read valid cs p u fs =
      Ok (0, advance n (iov_data u ++ take (Z.to_nat n) (drop (Z.to_nat (uio_offset u)) (exec_bytes fs))) u, fs') /\
    exec_ok fs' /\ exec_bytes fs' = exec_bytes fs.
Proof.
  intros (Hfs & sv & Hp & Hf & Hs) Hwf Hr Ho Hw n. destruct (sfs_io_within valid cs sv fs u Hfs Hf Hs Hwf Hr Ho Hw) as (fs' & E & Hg & Hsec).
  pose proof (length_exec_bytes fs sv Hfs Hp Hf Hs) as Hl. assert (n = readable (sfi_size (sv_i sv)) (uio_offset u) (uio_resid u)) as En by (unfold n, readable; by rewrite Hl).
  assert (sfs_mem (sv_put p sv fs') !! p = Some sv) as Hp' by (unfold sv_put; cbn; apply lookup_insert_eq).
  exists (sv_put p sv fs'). unfold sfs_read, sv_deref. rewrite Hp, bind_Ok, Hw. cbn [negb assert]. rewrite bind_Ok, E, bind_Ok. split; [|split].
  - assert (take (Z.to_nat n) (drop (Z.to_nat (uio_offset u)) (exec_bytes fs)) = take (Z.to_nat n) (drop (Z.to_nat (uio_offset u)) (flat sv (sectors fs)))) as ->.
    { unfold exec_bytes. rewrite Hp, skipn_firstn_comm, take_take. f_equal. rewrite En. unfold readable. lia. }
    by rewrite En.
  - split; [exact (gr_fs _ _ _ _ Hg)|]. exists sv. split; [done|]. split; [exact (gr_file _ _ _ _ Hg)|done].
  - unfold exec_bytes. rewrite Hp', Hp. change (sectors (sv_put p sv fs')) with (sectors fs'). by rewrite Hsec.
Qed.

#[export] Instance sfs_exec : ExecFile (fun valid cs u fs => sfs_read valid cs p u fs) :=
  {| ef_bytes := exec_bytes; ef_ok := exec_ok; ef_read := sfs_read_file |}.
End exec.
