(* ===== verification/SfsFs.v ===== *)
(** * kern/fs/sfs/sfs_fs.c: mounting, synchronising and unmounting an SFS

    The free map is kept on the disk in the blocks from [SFS_MAP_LOCATION]
    on, the superblock in block 0.  A mounted file system writes them back
    when they are dirty ([sfs_sync]); [sfs_domount] reads them.  The result
    of unmounting is the device, which the VFS layer keeps. *)
From stdpp Require Import base numbers list option gmap.
From S2P Require Import Prelude KArray Bitmap Uio Device Lhd SfsDisk Vnode SfsIo SfsFile SfsTrunc SfsDir SfsVnode.
Local Open Scope Z_scope.

Definition set_superdirty {D} (b : bool) (fs : sfs_fs D) : sfs_fs D :=
  mk_sfs (sfs_sb fs) b (sfs_device fs) (sfs_vnodes fs) (sfs_freemap fs) (sfs_freemapdirty fs) (sfs_mem fs).
Definition set_sb {D} (s : sfs_super) (fs : sfs_fs D) : sfs_fs D :=
  mk_sfs s (sfs_superdirty fs) (sfs_device fs) (sfs_vnodes fs) (sfs_freemap fs) (sfs_freemapdirty fs)
    (sfs_mem fs).

Section fs.
Context {D : Type} `{!BlockDev D}.
Variables (valid : Z -> bool) (curspace : option Z).
Implicit Types (fs : sfs_fs D).

Definition SFS_FS_BITMAPSIZE fs : Z := SFS_BITMAPSIZE (sp_nblocks (sfs_sb fs)).
Definition SFS_FS_BITBLOCKS fs : Z := SFS_BITBLOCKS (sp_nblocks (sfs_sb fs)).

(** The loop of [sfs_mapio], with [n] blocks left.  The pointer [ptr] is an
    offset into the bytes of the map. *)
Fixpoint mapio_loop (n : nat) (j : Z) (rw : uio_rw) fs : res (Z * sfs_fs D) :=
  match n with
  | O => Ok (0, fs)
  | S n =>
      let bitdata := bitmap_getdata (sfs_freemap fs) in
      let ptr := Z.to_nat (u32 (j * SFS_BLOCKSIZE)) in
      if (length bitdata <? ptr + 512)%nat then Undef
      else
        '(result, fs) ←
          match rw with
          | UIO_READ =>
              '(result, data, fs) ← sfs_rblock valid curspace fs (u32 (SFS_MAP_LOCATION + j));
              Ok (result, set_map (mk_bitmap (bm_nbits (sfs_freemap fs)) (splice bitdata ptr data))
                            (sfs_freemapdirty fs) fs)
          | UIO_WRITE =>
              sfs_wblock valid curspace fs (take 512 (drop ptr bitdata)) (u32 (SFS_MAP_LOCATION + j))
          end;
        if negb (result =? 0) then Ok (result, fs) else mapio_loop n (j + 1) rw fs
  end.

Definition sfs_mapio (rw : uio_rw) fs : res (Z * sfs_fs D) :=
  mapio_loop (Z.to_nat (SFS_FS_BITBLOCKS fs)) 0 rw fs.

(** The loop of [sfs_sync]: VOP_FSYNC on every vnode of the table, whatever
    it answers. *)
Fixpoint sync_loop (n : nat) (i : Z) fs : res (sfs_fs D) :=
  match n with
  | O => Ok fs
  | S n =>
      p ← table_entry fs i;
      '(_, fs) ← vop_fsync valid curspace p fs;
      sync_loop n (i + 1) fs
  end.

Definition sfs_sync fs : res (Z * sfs_fs D) :=
  fs ← sync_loop (Z.to_nat (array_getnum (sfs_vnodes fs))) 0 fs;
  '(result, fs) ←
    (if sfs_freemapdirty fs then
       '(result, fs) ← sfs_mapio UIO_WRITE fs;
       if negb (result =? 0) then Ok (result, fs)
       else Ok (0, set_map (sfs_freemap fs) false fs)
     else Ok (0, fs));
  if negb (result =? 0) then Ok (result, fs)
  else if sfs_superdirty fs then
    '(result, fs) ← sfs_wblock valid curspace fs (super_bytes (sfs_sb fs)) SFS_SB_LOCATION;
    if negb (result =? 0) then Ok (result, fs) else Ok (0, set_superdirty false fs)
  else Ok (0, fs).

Definition sfs_getvolname fs : list Z := cstring (sp_volname (sfs_sb fs)).

(** The file system that stays mounted, or the device that is free again. *)
Definition sfs_unmount fs : res (Z * (sfs_fs D + D)) :=
  if array_getnum (sfs_vnodes fs) >? 0 then Ok (EBUSY, inl fs)
  else
    _ ← assert (negb (sfs_superdirty fs));
    _ ← assert (negb (sfs_freemapdirty fs));
    Ok (0, inr (sfs_device fs)).

(** What the four allocations of [sfs_domount] answer: the structure, the
    array, and the two of [bitmap_create]. *)
Record mount_allocs : Type := mk_mallocs { ma_fs : bool; ma_array : bool; ma_map1 : bool; ma_map2 : bool }.

(** [sp_volname\[sizeof(sp_volname)-1\] = 0] *)
Definition end_volname (s : sfs_super) : sfs_super :=
  mk_super (sp_magic s) (sp_nblocks s) (<[31%nat := 0]> (sp_volname s)) (sp_reserved s).

(** The error code, the file system, and the device when there is none. *)
Definition sfs_domount (al : mount_allocs) (dev : D) : res (Z * (sfs_fs D + D)) :=
  if negb (d_blocksize dev =? SFS_BLOCKSIZE) then Ok (ENXIO, inr dev)
  else if negb (ma_fs al) then Ok (ENOMEM, inr dev)
  else
    match array_create (ma_array al) with
    | None => Ok (ENOMEM, inr dev)
    | Some vnodes =>
        let sfs := mk_sfs (super_of []) false dev vnodes (mk_bitmap 0 []) false ∅ in
        '(result, data, sfs) ← sfs_rblock valid curspace sfs SFS_SB_LOCATION;
        if negb (result =? 0) then Ok (result, inr (sfs_device sfs))
        else
          let sfs := set_sb (super_of data) sfs in
          if negb (sp_magic (sfs_sb sfs) =? SFS_MAGIC) then Ok (EINVAL, inr (sfs_device sfs))
          else
            let sfs := set_sb (end_volname (sfs_sb sfs)) sfs in
            map ← bitmap_create (ma_map1 al) (ma_map2 al) (SFS_FS_BITMAPSIZE sfs);
            match map with
            | None => Ok (ENOMEM, inr (sfs_device sfs))
            | Some map =>
                '(result, sfs) ← sfs_mapio UIO_READ (set_map map false sfs);
                if negb (result =? 0) then Ok (result, inr (sfs_device sfs))
                else Ok (0, inl (set_superdirty false (set_map (sfs_freemap sfs) false sfs)))
            end
    end.
End fs.

(** ** Synchronising *)

Section sync.
Context {D : Type} `{!BlockDev D} `{!ReliableDev D}.
Context (valid : Z -> bool) (curspace : option Z).
Implicit Types (fs : sfs_fs D) (sv : sfs_vnode).

Abbreviation sectors fs := (dev_sectors (sfs_device fs)).
Abbreviation nblocks fs := (sp_nblocks (sfs_sb fs)).

(** The blocks that hold the metadata: the superblock and the free map. *)
Definition meta_block fs (b : Z) : Prop :=
  b = SFS_SB_LOCATION \/ SFS_MAP_LOCATION <= b < SFS_MAP_LOCATION + SFS_FS_BITBLOCKS fs.

(** A loaded vnode that VOP_FSYNC can write back. *)
Definition vnode_sound fs sv : Prop :=
  inode_typed (sv_i sv) /\ in_sync sv fs /\ is_Some (vn_ops (sv_v sv)) /\ 0 <= vn_opencount (sv_v sv) /\
  ~ meta_block fs (sv_ino sv).

Definition vnodes_sound fs (l : list Z) : Prop :=
  table_ok fs l /\ forall p sv, sfs_mem fs !! p = Some sv -> vnode_sound fs sv.

(** Only the dirty flags of vnodes and the device differ. *)
Definition same_but_dirty fs fs' : Prop :=
  sfs_sb fs' = sfs_sb fs /\ sfs_superdirty fs' = sfs_superdirty fs /\ sfs_vnodes fs' = sfs_vnodes fs /\
  sfs_freemap fs' = sfs_freemap fs /\ sfs_freemapdirty fs' = sfs_freemapdirty fs /\
  forall p, set_dirty false <$> sfs_mem fs' !! p = set_dirty false <$> sfs_mem fs !! p.

Lemma set_dirty_twice b b' sv : set_dirty b (set_dirty b' sv) = set_dirty b sv.
Proof. done. Qed.

Lemma vop_fsync_spec p sv fs l :
  fs_ok fs -> vnodes_sound fs l -> sfs_mem fs !! p = Some sv ->
  exists fs', vop_fsync valid curspace p fs = Ok (0, fs') /\ fs_ok fs' /\ vnodes_sound fs' l /\
    sfs_mem fs' = <[p := set_dirty false sv]> (sfs_mem fs) /\ same_but_dirty fs fs' /\
    (forall j, 0 <= j -> j <> sv_ino sv -> sectors fs' !! Z.to_nat j = sectors fs !! Z.to_nat j).
Proof.
  intros Hfs [Ht Hvs] Hp. destruct (Hvs p sv Hp) as (Hty & Hsy & [ops Hops] & Hoc & Hnm).
  pose proof Ht as (_ & _ & _ & _ & Hlive & Hinj). destruct (Hlive p sv Hp) as (Hino & Hbit & Hlock & Hrc).
  unfold vop_fsync, sfs_fsync, on_vnode, sv_deref, vnode_check. rewrite Hp, !bind_Ok, Hlock, Hops.
  rewrite bool_decide_eq_true_2 by done. cbn [assert]. rewrite !bind_Ok.
  destruct (Z.ltb_spec (vn_refcount (sv_v sv)) 0); [lia|].
  destruct (Z.eqb_spec (vn_refcount (sv_v sv)) 0); [lia|]. cbn [andb].
  destruct (Z.ltb_spec (vn_opencount (sv_v sv)) 0); [lia|]. rewrite !bind_Ok.
  destruct (sfs_sync_inode_spec valid curspace sv fs Hfs Hino Hty Hsy) as (d & -> & Hfs' & Hi & Hfr).
  rewrite bind_Ok. eexists. split; [reflexivity|]. split; [exact Hfs'|]. split; [split|].
  - apply (table_ok_put (set_dev d fs) l p sv); [done..|]. by apply (Hlive p sv).
  - intros q svq Hq. cbn [sv_put set_mem sfs_mem set_dev] in Hq.
    apply lookup_insert_Some in Hq as [[<- <-]|[Hne Hq]].
    + split; [exact Hty|]. split; [intros _; exact Hi|]. split; [by exists ops|]. by split.
    + destruct (Hvs q svq Hq) as (Htq & Hsq & Hoq & Hocq & Hnq). split; [exact Htq|].
      split; [|by split]. intros Hd. rewrite <- (Hsq Hd). unfold blk. cbn [sv_put set_mem set_dev sfs_device].
      rewrite !list_lookup_total_alt, Hfr; [done| |].
      * destruct (Hlive q svq Hq) as (? & _). lia.
      * intros E. apply Hne. eapply Hinj; [exact Hp|exact Hq|done].
  - split; [done|]. split; [|exact Hfr]. do 5 (split; [done|]). intros q. cbn [sv_put set_mem sfs_mem set_dev].
    destruct (decide (q = p)) as [->|Hne]; [by rewrite lookup_insert_eq, Hp|by rewrite lookup_insert_ne].
Qed.

Lemma same_but_dirty_refl fs : same_but_dirty fs fs.
Proof. by do 5 (split; [done|]). Qed.

Lemma same_but_dirty_trans fs1 fs2 fs3 :
  same_but_dirty fs1 fs2 -> same_but_dirty fs2 fs3 -> same_but_dirty fs1 fs3.
Proof.
  intros (?&?&?&?&?&Hm) (?&?&?&?&?&Hm'). do 5 (split; [congruence|]). intros p. by rewrite Hm', Hm.
Qed.

(** A vnode of one of the two file systems is in the other, but for its
    dirty flag. *)
Lemma same_but_dirty_mem fs fs' p sv :
  same_but_dirty fs fs' -> sfs_mem fs !! p = Some sv ->
  exists sv', sfs_mem fs' !! p = Some sv' /\ set_dirty false sv' = set_dirty false sv.
Proof.
  intros (_&_&_&_&_&Hm) Hp. specialize (Hm p). rewrite Hp in Hm.
  destruct (sfs_mem fs' !! p) as [sv'|]; [|done]. exists sv'. split; [done|]. exact (inj Some _ _ Hm).
Qed.

(** The loop of [sfs_sync] writes every vnode back. *)
Lemma sync_loop_spec l : forall post pre fs,
  fs_ok fs -> vnodes_sound fs l -> l = pre ++ post ->
  (forall p sv, p ∈ pre -> sfs_mem fs !! p = Some sv -> sv_dirty sv = false) ->
  exists fs', sync_loop valid curspace (length post) (Z.of_nat (length pre)) fs = Ok fs' /\ fs_ok fs' /\
    vnodes_sound fs' l /\ same_but_dirty fs fs' /\
    (forall p sv, sfs_mem fs' !! p = Some sv -> sv_dirty sv = false) /\
    (forall j, 0 <= j -> meta_block fs j -> sectors fs' !! Z.to_nat j = sectors fs !! Z.to_nat j).
Proof.
  induction post as [|p post IH]; intros pre fs Hfs Hvs Hl Hpre.
  - exists fs. split; [done|]. do 2 (split; [done|]). split; [apply same_but_dirty_refl|]. split; [|done].
    intros p sv Hp. apply (Hpre p); [|done]. rewrite app_nil_r in Hl. rewrite <- Hl.
    destruct Hvs as [(_ & _ & _ & Hdom & _) _]. apply Hdom. by eexists.
  - pose proof Hvs as [(Hh & _ & _ & Hdom & _) Hsnd]. rewrite Hl in Hh. cbn [length sync_loop].
    rewrite (table_entry_spec fs pre p post Hh), bind_Ok.
    destruct (proj1 (Hdom p)) as [sv Hsv]; [rewrite Hl; apply elem_of_app; right; left|].
    destruct (vop_fsync_spec p sv fs l Hfs Hvs Hsv) as (fs1 & -> & Hfs1 & Hvs1 & Hm1 & Hsame1 & Hfr1).
    rewrite bind_Ok.
    replace (Z.of_nat (length pre) + 1) with (Z.of_nat (length (pre ++ [p]))) by (rewrite length_app; simpl; lia).
    destruct (IH (pre ++ [p]) fs1 Hfs1 Hvs1) as (fs' & -> & Hfs' & Hvs' & Hsame & Hd & Hfr).
    + by rewrite <- app_assoc.
    + intros q svq Hq Hsvq. rewrite Hm1 in Hsvq. apply lookup_insert_Some in Hsvq as [[<- <-]|[Hne Hsvq]]; [done|].
      apply elem_of_app in Hq as [Hq|Hq]; [by apply (Hpre q)|]. by apply list_elem_of_singleton in Hq.
    + exists fs'. split; [done|]. do 2 (split; [done|]). split; [by eapply same_but_dirty_trans|]. split; [done|].
      intros j Hj Hmeta. destruct (Hsnd p sv Hsv) as (_ & _ & _ & _ & Hnm).
      rewrite Hfr; [|done|]; [apply Hfr1; [done|]; by intros ->|].
      unfold meta_block, SFS_FS_BITBLOCKS in *. by destruct Hsame1 as (-> & _).
Qed.

(** ** The free map on the disk *)

(** Block [k] of the map. *)
Definition map_chunk (v : list Z) (k : Z) : list Z := take 512 (drop (Z.to_nat (k * 512)) v).

Lemma mapio_write_spec n : forall j fs,
  fs_ok fs -> 0 <= j -> SFS_MAP_LOCATION + j + Z.of_nat n <= nblocks fs ->
  (j + Z.of_nat n) * 512 <= Z.of_nat (length (bm_v (sfs_freemap fs))) ->
  exists d, mapio_loop valid curspace n j UIO_WRITE fs = Ok (0, set_dev d fs) /\ fs_ok (set_dev d fs) /\
    (forall k, j <= k < j + Z.of_nat n ->
       blk (dev_sectors d) (SFS_MAP_LOCATION + k) = map_chunk (bm_v (sfs_freemap fs)) k) /\
    (forall i, 0 <= i -> ~ (SFS_MAP_LOCATION + j <= i < SFS_MAP_LOCATION + j + Z.of_nat n) ->
       dev_sectors d !! Z.to_nat i = sectors fs !! Z.to_nat i).
Proof.
  unfold SFS_MAP_LOCATION. induction n as [|n IH]; intros j fs Hfs Hj Hn Hlen.
  { exists (sfs_device fs). split; [by destruct fs|]. split; [by destruct fs|]. split; [lia|done]. }
  cbn [mapio_loop]. cbv zeta. unfold bitmap_getdata, SFS_BLOCKSIZE, SFS_MAP_LOCATION.
  pose proof (fs_small fs (2 + j) Hfs ltac:(lia)). nowrap.
  destruct (Nat.ltb_spec (length (bm_v (sfs_freemap fs))) (Z.to_nat (j * 512) + 512)); [lia|].
  change (take 512 (drop (Z.to_nat (j * 512)) (bm_v (sfs_freemap fs)))) with (map_chunk (bm_v (sfs_freemap fs)) j).
  assert (length (map_chunk (bm_v (sfs_freemap fs)) j) = 512%nat) as Hc.
  { unfold map_chunk. rewrite length_take, length_drop. lia. }
  destruct (sfs_wblock_spec valid curspace fs _ (2 + j) Hfs ltac:(lia) Hc) as (d & -> & Hfs1 & Hd).
  rewrite bind_Ok. cbn [Z.eqb negb].
  destruct (IH (j + 1) (set_dev d fs) Hfs1 ltac:(lia)) as (d' & -> & Hfs' & Hch & Hfr); [simpl; lia..|].
  exists d'. split; [done|]. split; [exact Hfs'|]. split.
  - intros k Hk. destruct (decide (k = j)) as [->|Hne]; [|apply Hch; lia].
    unfold blk. rewrite list_lookup_total_alt, Hfr by lia. cbn [set_dev sfs_device].
    destruct (fs_sector fs (2 + j) Hfs ltac:(lia)) as [Hlk _]. apply lookup_lt_Some in Hlk.
    by rewrite Hd, list_lookup_insert_eq.
  - intros i Hi Hout. rewrite Hfr by lia. cbn [set_dev sfs_device]. rewrite Hd. apply list_lookup_insert_ne. lia.
Qed.

Lemma map_chunk_extend (v cur : list Z) j :
  0 <= j -> length cur = length v -> (j + 1) * 512 <= Z.of_nat (length v) ->
  take (Z.to_nat (j * 512)) cur = take (Z.to_nat (j * 512)) v ->
  let cur' := splice cur (Z.to_nat (j * 512)) (map_chunk v j) in
  length cur' = length v /\ take (Z.to_nat ((j + 1) * 512)) cur' = take (Z.to_nat ((j + 1) * 512)) v.
Proof.
  intros Hj Hl Hlen Htk cur'. unfold cur', splice, map_chunk. set (a := Z.to_nat (j * 512)) in *.
  replace (Z.to_nat ((j + 1) * 512)) with (a + 512)%nat by lia.
  assert (length (take 512 (drop a v)) = 512%nat) as Hc by (rewrite length_take, length_drop; lia).
  assert (length (take a v) = a) as Ha by (rewrite length_take; lia).
  rewrite Hc, Htk. split.
  - rewrite !length_app, Hc, Ha, length_drop. lia.
  - rewrite app_assoc, take_app_le by (rewrite length_app, Hc, Ha; lia).
    rewrite take_ge by (rewrite length_app, Hc, Ha; lia). by rewrite take_take_drop.
Qed.

(** Reading the map gives the bytes [v] that are on the disk. *)
Lemma mapio_read_spec v n : forall j fs,
  dev_ok (sfs_device fs) -> 0 <= j -> SFS_MAP_LOCATION + j + Z.of_nat n <= d_blocks (sfs_device fs) ->
  length (bm_v (sfs_freemap fs)) = length v -> (j + Z.of_nat n) * 512 <= Z.of_nat (length v) ->
  take (Z.to_nat (j * 512)) (bm_v (sfs_freemap fs)) = take (Z.to_nat (j * 512)) v ->
  (forall k, j <= k < j + Z.of_nat n -> blk (sectors fs) (SFS_MAP_LOCATION + k) = map_chunk v k) ->
  exists d cur', mapio_loop valid curspace n j UIO_READ fs =
      Ok (0, set_map (mk_bitmap (bm_nbits (sfs_freemap fs)) cur') (sfs_freemapdirty fs) (set_dev d fs)) /\
    dev_ok d /\ dev_sectors d = sectors fs /\ d_blocks d = d_blocks (sfs_device fs) /\
    length cur' = length v /\
    take (Z.to_nat ((j + Z.of_nat n) * 512)) cur' = take (Z.to_nat ((j + Z.of_nat n) * 512)) v.
Proof.
  unfold SFS_MAP_LOCATION. induction n as [|n IH]; intros j fs Hd Hj Hn Hl Hlen Htk Hch;
    set (cur := bm_v (sfs_freemap fs)) in *.
  { exists (sfs_device fs), cur. rewrite Z.add_0_r. split; [|done]. by destruct fs as [? ? ? ? [] ? ?]. }
  pose proof (dev_small _ Hd). pose proof (dev_size _ Hd).
  cbn [mapio_loop]. cbv zeta. unfold bitmap_getdata, SFS_BLOCKSIZE, SFS_MAP_LOCATION. fold cur. nowrap.
  destruct (Nat.ltb_spec (length cur) (Z.to_nat (j * 512) + 512)); [lia|].
  destruct (lookup_lt_is_Some_2 (sectors fs) (Z.to_nat (2 + j))) as [x Hx]; [lia|].
  assert (x = map_chunk v j) as Ex.
  { rewrite <- Hch by lia. unfold blk. by rewrite (list_lookup_total_correct _ _ _ Hx). }
  destruct (sfs_rblock_dev valid curspace fs (2 + j) x Hd ltac:(lia) Hx) as (d & -> & Hd1 & Hs1 & Hb1).
  rewrite !bind_Ok. cbn [Z.eqb negb set_dev sfs_freemap sfs_freemapdirty]. rewrite Ex.
  destruct (map_chunk_extend v cur j Hj Hl ltac:(lia) Htk) as [Hl1 Htk1].
  set (cur1 := splice cur _ _) in *.
  destruct (IH (j + 1) (set_map (mk_bitmap (bm_nbits (sfs_freemap fs)) cur1) (sfs_freemapdirty fs) (set_dev d fs)))
    as (d' & cur' & E & Hd' & Hs' & Hb' & Hl' & Htk'); simpl; [done|lia|lia|done|lia|done| |].
  - intros k Hk. rewrite Hs1. apply Hch. lia.
  - exists d', cur'. split; [exact E|]. simpl in Hs', Hb'. rewrite Hs', Hb', Hs1, Hb1. do 4 (split; [done|]).
    by replace (j + Z.of_nat (S n)) with (j + 1 + Z.of_nat n) by lia.
Qed.

(** ** Synchronising and mounting *)

Definition map_on_disk fs (S : list (list Z)) : Prop :=
  forall k, 0 <= k < SFS_FS_BITBLOCKS fs ->
    blk S (SFS_MAP_LOCATION + k) = map_chunk (bm_v (sfs_freemap fs)) k.
Definition super_on_disk fs (S : list (list Z)) : Prop :=
  blk S SFS_SB_LOCATION = super_bytes (sfs_sb fs).

(** The superblock and the map fit the disk, and are on it unless dirty. *)
Definition meta_sound fs : Prop :=
  super_typed (sfs_sb fs) /\ sp_magic (sfs_sb fs) = SFS_MAGIC /\ sp_volname (sfs_sb fs) !! 31%nat = Some 0 /\
  SFS_MAP_LOCATION + SFS_FS_BITBLOCKS fs <= nblocks fs /\
  bm_nbits (sfs_freemap fs) = SFS_FS_BITMAPSIZE fs /\
  (sfs_superdirty fs = false -> super_on_disk fs (sectors fs)) /\
  (sfs_freemapdirty fs = false -> map_on_disk fs (sectors fs)).

Lemma bitblocks fs : fs_ok fs ->
  SFS_FS_BITBLOCKS fs = (nblocks fs + 4095) / 4096 /\
  SFS_FS_BITMAPSIZE fs = SFS_FS_BITBLOCKS fs * 4096 /\ 0 <= SFS_FS_BITBLOCKS fs < 2000.
Proof.
  intros Hfs. pose proof Hfs as (Hd & Hn & _). pose proof (dev_small _ Hd).
  unfold SFS_FS_BITBLOCKS, SFS_FS_BITMAPSIZE, SFS_BITBLOCKS, SFS_BITMAPSIZE, SFS_ROUNDUP, SFS_BLOCKBITS, SFS_BLOCKSIZE.
  change (512 * 8) with 4096. nowrap. replace (nblocks fs + 4096 - 1) with (nblocks fs + 4095) by lia.
  rewrite u32_small by dlia. rewrite Z.div_mul by lia. dlia.
Qed.

(** The bytes of the map are just its blocks on the disk. *)
Lemma map_length fs : fs_ok fs -> meta_sound fs ->
  Z.of_nat (length (bm_v (sfs_freemap fs))) = SFS_FS_BITBLOCKS fs * 512.
Proof.
  intros Hfs (_ & _ & _ & _ & Hnb & _). destruct (bitblocks fs Hfs) as (_ & E & _).
  destruct Hfs as (_ & _ & (_ & Hl & _) & _). rewrite Hl, Hnb, E. unfold bm_words. dlia.
Qed.

Lemma vnodes_sound_frame fs fs' l :
  vnodes_sound fs l -> sfs_sb fs' = sfs_sb fs -> sfs_vnodes fs' = sfs_vnodes fs ->
  sfs_freemap fs' = sfs_freemap fs -> sfs_mem fs' = sfs_mem fs ->
  (forall j, 0 <= j -> ~ meta_block fs j -> sectors fs' !! Z.to_nat j = sectors fs !! Z.to_nat j) ->
  vnodes_sound fs' l.
Proof.
  intros [Ht Hvs] Esb Ev Ef Em Hfr. unfold vnodes_sound, table_ok, vnode_live. rewrite Esb, Ev, Ef, Em.
  split; [exact Ht|]. intros p sv Hp. destruct (Hvs p sv Hp) as (Hty & Hsy & Hops & Hoc & Hnm).
  destruct Ht as (_ & _ & _ & _ & Hlive & _). destruct (Hlive p sv Hp) as (Hino & _).
  unfold vnode_sound, meta_block, SFS_FS_BITBLOCKS. rewrite Esb. split; [done|]. split; [|done].
  intros Hd. rewrite <- (Hsy Hd). unfold blk. by rewrite !list_lookup_total_alt, Hfr by (done || lia).
Qed.

Lemma blk_frame S S' b : S' !! Z.to_nat b = S !! Z.to_nat b -> blk S' b = blk S b.
Proof. intros E. unfold blk. by rewrite !list_lookup_total_alt, E. Qed.

(** Writing the map back, if it is dirty. *)
Lemma sync_map fs l :
  fs_ok fs -> vnodes_sound fs l -> meta_sound fs ->
  exists d, (if sfs_freemapdirty fs then
       '(result, fs) ← sfs_mapio valid curspace UIO_WRITE fs;
       if negb (result =? 0) then Ok (result, fs)
       else Ok (0, set_map (sfs_freemap fs) false fs)
     else Ok (0, fs)) = Ok (0, set_map (sfs_freemap fs) false (set_dev d fs)) /\
    fs_ok (set_dev d fs) /\ map_on_disk fs (dev_sectors d) /\
    (forall i, 0 <= i -> ~ (SFS_MAP_LOCATION <= i < SFS_MAP_LOCATION + SFS_FS_BITBLOCKS fs) ->
       dev_sectors d !! Z.to_nat i = sectors fs !! Z.to_nat i).
Proof.
  intros Hfs Hvs Hms. pose proof Hms as (_ & _ & _ & Hfit & _ & _ & Hm).
  destruct (bitblocks fs Hfs) as (_ & _ & Hb). destruct (sfs_freemapdirty fs) eqn:Ed.
  - unfold sfs_mapio. destruct (mapio_write_spec (Z.to_nat (SFS_FS_BITBLOCKS fs)) 0 fs Hfs) as (d & -> & Hfs' & Hc & Hfr);
      [lia|unfold SFS_MAP_LOCATION in *; lia|rewrite (map_length fs Hfs Hms); lia|].
    rewrite bind_Ok. cbn [Z.eqb negb]. exists d. split; [done|]. split; [done|]. split.
    + intros k Hk. apply Hc. lia.
    + intros i Hi Hout. apply Hfr; [done|]. lia.
  - exists (sfs_device fs). split; [destruct fs; simpl in Ed; by subst|]. split; [by destruct fs|].
    split; [by apply Hm|done].
Qed.

Lemma meta_sound_loop fs fs' :
  fs_ok fs -> meta_sound fs -> same_but_dirty fs fs' ->
  (forall j, 0 <= j -> meta_block fs j -> sectors fs' !! Z.to_nat j = sectors fs !! Z.to_nat j) ->
  meta_sound fs'.
Proof.
  intros Hfs (Hty & Hmg & Hvol & Hfit & Hnb & Hs & Hm) (Esb & Esd & _ & Ef & Efd & _) Hfr.
  unfold meta_sound, SFS_FS_BITBLOCKS, SFS_FS_BITMAPSIZE, super_on_disk, map_on_disk, SFS_FS_BITBLOCKS.
  rewrite Esb, Esd, Ef, Efd. do 5 (split; [done|]). split.
  - intros Hd. rewrite <- (Hs Hd). apply blk_frame, Hfr; [done|]. by left.
  - intros Hd k Hk. rewrite <- (Hm Hd k Hk). apply blk_frame, Hfr; [unfold SFS_MAP_LOCATION; lia|]. right.
    unfold SFS_FS_BITBLOCKS. lia.
Qed.

(** The file system after a sync: the same, but clean and on the disk. *)
Record synced fs fs' (l : list Z) : Prop := {
  sy_fs : fs_ok fs';
  sy_vnodes : vnodes_sound fs' l;
  sy_sb : sfs_sb fs' = sfs_sb fs;
  sy_table : sfs_vnodes fs' = sfs_vnodes fs;
  sy_map : sfs_freemap fs' = sfs_freemap fs;
  sy_mem : forall p, set_dirty false <$> sfs_mem fs !! p = sfs_mem fs' !! p;
  sy_superdirty : sfs_superdirty fs' = false;
  sy_mapdirty : sfs_freemapdirty fs' = false;
  sy_super_disk : super_on_disk fs (sectors fs');
  sy_map_disk : map_on_disk fs (sectors fs');
}.

(** Writing the superblock back, if it is dirty. *)
Lemma sync_super fs :
  fs_ok fs -> super_typed (sfs_sb fs) -> (sfs_superdirty fs = false -> super_on_disk fs (sectors fs)) ->
  exists d, (if sfs_superdirty fs then
      '(result, fs) ← sfs_wblock valid curspace fs (super_bytes (sfs_sb fs)) SFS_SB_LOCATION;
      if negb (result =? 0) then Ok (result, fs) else Ok (0, set_superdirty false fs)
    else Ok (0, fs)) = Ok (0, set_superdirty false (set_dev d fs)) /\
    fs_ok (set_dev d fs) /\ super_on_disk fs (dev_sectors d) /\
    (forall i, 0 <= i -> i <> SFS_SB_LOCATION -> dev_sectors d !! Z.to_nat i = sectors fs !! Z.to_nat i).
Proof.
  intros Hfs Hty Hs. pose proof Hfs as (_ & Hn & _). destruct (sfs_superdirty fs) eqn:Ed.
  - destruct (sfs_wblock_spec valid curspace fs (super_bytes (sfs_sb fs)) SFS_SB_LOCATION Hfs) as (d & -> & Hfs' & Hd);
      [unfold SFS_SB_LOCATION; lia|by apply length_super_bytes|].
    rewrite bind_Ok. cbn [Z.eqb negb]. exists d. split; [done|]. split; [done|].
    destruct (fs_sector fs 0 Hfs ltac:(lia)) as [Hlk _]. apply lookup_lt_Some in Hlk. split.
    + unfold super_on_disk, blk. rewrite Hd. by apply list_lookup_total_insert_eq.
    + intros i Hi Hne. rewrite Hd. apply list_lookup_insert_ne. unfold SFS_SB_LOCATION in *. lia.
  - exists (sfs_device fs). split; [destruct fs; simpl in Ed; by subst|]. split; [by destruct fs|].
    split; [by apply Hs|done].
Qed.

Lemma sfs_sync_spec fs l :
  fs_ok fs -> vnodes_sound fs l -> meta_sound fs ->
  exists fs', sfs_sync valid curspace fs = Ok (0, fs') /\ synced fs fs' l.
Proof.
  intros Hfs Hvs Hms. unfold sfs_sync, array_getnum. pose proof Hvs as [(Hh & _) _].
  rewrite (holds_num _ _ Hh), Nat2Z.id.
  destruct (sync_loop_spec l l [] fs Hfs Hvs eq_refl) as (fs1 & E & Hfs1 & Hvs1 & Hsame & Hclean & Hfr1);
    [intros ? ? H; by apply not_elem_of_nil in H|].
  change (Z.of_nat (length [])) with 0 in E. rewrite E, bind_Ok. clear E.
  assert (meta_sound fs1) as Hms1 by (by apply (meta_sound_loop fs)).
  destruct (sync_map fs1 l Hfs1 Hvs1 Hms1) as (d & -> & Hfs2 & Hmd & Hfr2). rewrite bind_Ok. cbn [Z.eqb negb].
  pose proof Hms1 as (Hty & _ & _ & Hfit & _ & Hsd & _). set (fs2 := set_map _ false _).
  destruct (sync_super fs2) as (d' & -> & Hfs3 & Hsd' & Hfr3); [done|done| |].
  { intros Hd. unfold super_on_disk. etransitivity; [|apply (Hsd Hd)]. apply blk_frame, Hfr2; [done|].
    unfold SFS_SB_LOCATION, SFS_MAP_LOCATION. lia. }
  pose proof Hsame as (Esb & _ & Ev & Ef & _ & Hm).
  eexists. split; [reflexivity|]. constructor; try done.
  - apply (vnodes_sound_frame fs1); try done. intros j Hj Hnm. cbn [set_superdirty set_dev sfs_device].
    unfold meta_block in Hnm. rewrite Hfr3; [apply Hfr2; [done|]; tauto|done|tauto].
  - intros p. rewrite <- Hm. cbn [set_superdirty set_dev sfs_mem fs2 set_map].
    destruct (sfs_mem fs1 !! p) as [sv|] eqn:Hp; [|done]. specialize (Hclean p sv Hp).
    simpl. destruct sv; simpl in Hclean. by subst.
  - unfold super_on_disk in *. by rewrite <- Esb.
  - intros k Hk. unfold SFS_FS_BITBLOCKS in Hk. rewrite <- Esb in Hk. rewrite <- Ef, <- (Hmd k Hk).
    apply blk_frame, Hfr3; unfold SFS_MAP_LOCATION, SFS_SB_LOCATION; lia.
Qed.

Definition mount_ok : mount_allocs := mk_mallocs true true true true.

(** A mounted file system without vnodes. *)
Definition fresh_fs (sb : sfs_super) (map : bitmap) (d : D) : sfs_fs D :=
  mk_sfs sb false d (mk_array 0 0 None) map false ∅.

Lemma end_volname_id s : sp_volname s !! 31%nat = Some 0 -> end_volname s = s.
Proof. intros Hv. unfold end_volname. rewrite list_insert_id by done. by destruct s. Qed.

Lemma bitmap_eta b v : length v = length (bm_v b) -> take (length (bm_v b)) v = bm_v b -> mk_bitmap (bm_nbits b) v = b.
Proof. intros Hl Ht. rewrite take_ge in Ht by lia. by destruct b; simpl in *; subst. Qed.

(** The map that [bitmap_create] makes has room for the blocks on the disk. *)
Lemma mount_bitmap fs : fs_ok fs -> meta_sound fs ->
  exists b, bitmap_create true true (SFS_FS_BITMAPSIZE fs) = Ok (Some b) /\
    bm_nbits b = bm_nbits (sfs_freemap fs) /\ length (bm_v b) = length (bm_v (sfs_freemap fs)).
Proof.
  intros Hfs (_ & _ & _ & _ & Hnb & _). pose proof Hfs as (_ & _ & (Hr & Hl & _) & _).
  rewrite <- Hnb. destruct (bitmap_create_spec (bm_nbits (sfs_freemap fs)) Hr) as (b & -> & (_ & Hl' & _) & Hn & _).
  exists b. split; [done|]. split; [done|]. rewrite Hn in Hl'. lia.
Qed.

Lemma sfs_domount_spec fs dev :
  fs_ok fs -> meta_sound fs -> dev_ok dev -> nblocks fs <= d_blocks dev ->
  super_on_disk fs (dev_sectors dev) -> map_on_disk fs (dev_sectors dev) ->
  exists d, sfs_domount valid curspace mount_ok dev = Ok (0, inl (fresh_fs (sfs_sb fs) (sfs_freemap fs) d)) /\
    dev_ok d /\ dev_sectors d = dev_sectors dev /\ d_blocks d = d_blocks dev.
Proof.
  intros Hfs Hms Hd Hn Hs Hm. pose proof Hms as (Hty & Hmg & Hvol & Hfit & Hnb & _).
  destruct (bitblocks fs Hfs) as (_ & _ & Hbb). pose proof Hfs as (_ & Hpos & _). pose proof (dev_size _ Hd) as Hsz.
  unfold sfs_domount. rewrite (dev_blocksize _ Hd). change (negb (512 =? SFS_BLOCKSIZE)) with false.
  cbn [mount_ok ma_fs ma_array ma_map1 ma_map2 negb array_create].
  set (sfs0 := mk_sfs (super_of []) false dev _ _ false ∅).
  destruct (lookup_lt_is_Some_2 (sectors sfs0) (Z.to_nat SFS_SB_LOCATION)) as [x Hx];
    [unfold SFS_SB_LOCATION; simpl; lia|].
  assert (x = super_bytes (sfs_sb fs)) as Ex.
  { rewrite <- Hs. unfold blk. by rewrite (list_lookup_total_correct _ _ _ Hx). }
  destruct (sfs_rblock_dev valid curspace sfs0 SFS_SB_LOCATION x Hd ltac:(done) Hx) as (d & -> & Hd1 & Hs1 & Hb1).
  rewrite bind_Ok. cbn [Z.eqb negb]. cbv zeta. cbn [sfs_sb set_sb]. rewrite Ex, super_roundtrip, Hmg by done.
  rewrite Z.eqb_refl. cbn [negb]. rewrite end_volname_id by done.
  destruct (mount_bitmap fs Hfs Hms) as (b & Eb & Hnbits & Hlb). unfold SFS_FS_BITMAPSIZE in Eb |- *.
  cbn [sfs_sb set_sb]. rewrite Eb, bind_Ok. unfold sfs_mapio, SFS_FS_BITBLOCKS. cbn [sfs_sb set_map set_sb set_dev].
  destruct (mapio_read_spec (bm_v (sfs_freemap fs)) (Z.to_nat (SFS_FS_BITBLOCKS fs)) 0
              (set_map b false (set_sb (sfs_sb fs) (set_sb (sfs_sb fs) (set_dev d sfs0)))))
    as (d' & v & E & Hd' & Hs' & Hb' & Hl' & Ht').
  - exact Hd1.
  - done.
  - simpl. simpl in Hb1. unfold SFS_MAP_LOCATION in *. lia.
  - exact Hlb.
  - rewrite (map_length fs Hfs Hms). lia.
  - done.
  - intros k Hk. cbn [sfs_device set_map set_sb set_dev]. rewrite Hs1. apply Hm. lia.
  - unfold SFS_FS_BITBLOCKS in E. rewrite E, bind_Ok. cbn [Z.eqb negb]. exists d'.
    simpl in Hs', Hb', Hs1, Hb1. rewrite Hs', Hb', Hs1, Hb1. split; [|done].
    cbn [set_superdirty set_map set_dev set_sb sfs_freemap sfs_sb]. unfold fresh_fs. rewrite Hnbits.
    rewrite bitmap_eta; [done|done|]. etransitivity; [|etransitivity; [exact Ht'|]].
    + f_equal. pose proof (map_length fs Hfs Hms). lia.
    + apply take_ge. pose proof (map_length fs Hfs Hms). lia.
Qed.

(** C32. A file system survives unmounting.  [sfs_sync] on a sound file system
    succeeds and leaves it clean; every inode in memory is then on the disk.
    If vnodes are still loaded, [sfs_unmount] answers EBUSY and changes
    nothing; otherwise it gives the device back, and mounting that device
    again gives a file system with the same superblock, the same free map and
    the same blocks. *)
Theorem sfs_sync_unmount_mount fs l :
  fs_ok fs -> vnodes_sound fs l -> meta_sound fs ->
  exists fs', sfs_sync valid curspace fs = Ok (0, fs') /\ synced fs fs' l /\
    (forall p sv, sfs_mem fs !! p = Some sv -> inode_of (blk (sectors fs') (sv_ino sv)) = sv_i sv) /\
    (l <> [] -> sfs_unmount fs' = Ok (EBUSY, inl fs')) /\
    (l = [] -> sfs_unmount fs' = Ok (0, inr (sfs_device fs')) /\
       exists d, sfs_domount valid curspace mount_ok (sfs_device fs') =
           Ok (0, inl (fresh_fs (sfs_sb fs) (sfs_freemap fs) d)) /\
         fs_ok (fresh_fs (sfs_sb fs) (sfs_freemap fs) d) /\ dev_sectors d = sectors fs').
Proof.
  intros Hfs Hvs Hms. destruct (sfs_sync_spec fs l Hfs Hvs Hms) as (fs' & E & Hsy). exists fs'.
  split; [done|]. split; [done|]. pose proof Hsy as [Hfs' Hvs' Esb Etab Emap Hmem Hsd Hmd Hsdisk Hmdisk].
  pose proof Hvs' as [(Hh & _) Hsnd]. unfold sfs_unmount, array_getnum. rewrite (holds_num _ _ Hh). split; [|split].
  - intros p sv Hp. specialize (Hmem p). rewrite Hp in Hmem. symmetry in Hmem. cbn in Hmem.
    destruct (Hsnd p _ Hmem) as (_ & Hin & _). by apply (Hin eq_refl).
  - intros Hl. destruct l as [|x l]; [done|]. by destruct (Z.gtb_spec (Z.of_nat (length (x :: l))) 0); [|simpl in *; lia].
  - intros ->. rewrite Hsd, Hmd. split; [done|]. pose proof Hfs' as (Hd' & Hn' & Hrest).
    destruct (sfs_domount_spec fs (sfs_device fs') Hfs Hms Hd') as (d & Ed & Hd & Hs & Hb);
      [rewrite <- Esb; lia|done|done|].
    exists d. split; [exact Ed|]. split; [|exact Hs]. unfold fs_ok, fresh_fs; simpl.
    rewrite <- Esb, <- Emap, Hb. by split.
Qed.
End sync.

(** ** Witness *)

#[local] Instance good_disk : DiskLaws ramdisk := ramdisk_laws false.
#[local] Existing Instance ramdisk_sound.

(** Eight blocks with a full-size map, nothing of it on the disk yet. *)
Definition map4096 : bitmap := mk_bitmap 4096 (7 :: replicate 511 255).
Definition fs4096 : sfs_fs (lhd_softc ramdisk) :=
  mk_sfs sb8 true lh8 (mk_array 0 0 None) map4096 true ∅.

Lemma map4096_high i : 8 <= i < 4096 -> bm_bit map4096 i = true.
Proof.
  intros Hi. unfold bm_bit, map4096; cbn [bm_v].
  replace (Z.to_nat (i / 8)) with (S (Z.to_nat (i / 8 - 1))) by dlia.
  rewrite lookup_cons, lookup_replicate_2 by dlia. rewrite <- (Z.ones_spec_low 8 (i `mod` 8)); [done|dlia].
Qed.

Lemma fs4096_ok : fs_ok fs4096.
Proof.
  destruct fs8_ok as (Hd & Hn & _). split; [exact Hd|]. split; [exact Hn|]. split; [|split; [simpl; lia|]].
  - split; [simpl; lia|]. split; [done|]. split; [|intros i Hi; simpl in Hi; change (bm_words 4096 * 8) with 4096 in Hi; lia].
    apply Forall_cons_2; [lia|]. apply Forall_replicate. lia.
  - split; [intros i Hi; apply map4096_high; simpl in Hi; lia|done].
Qed.

Lemma fs4096_vnodes : vnodes_sound fs4096 [].
Proof.
  split; [|done]. split; [split; [split; [simpl; lia|done]|done]|]. split; [constructor|]. split; [done|]. split; [|done].
  intros p. split; [intros Hp; by apply not_elem_of_nil in Hp|]. intros [x Hx]. discriminate Hx.
Qed.

Lemma fs4096_meta : meta_sound fs4096.
Proof.
  unfold meta_sound. split; [|done]. unfold super_typed, is_u32; simpl.
  split; [unfold SFS_MAGIC; lia|]. split; [lia|]. split; [done|]. split; [done|].
  change (Forall is_u32 (replicate 118 0)). apply Forall_replicate. unfold is_u32. lia.
Qed.

Lemma sfs_sync_unmount_mount_witness :
  exists fs', sfs_sync (fun _ => true) None fs4096 = Ok (0, fs') /\
    sfs_unmount fs' = Ok (0, inr (sfs_device fs')) /\
    exists d, sfs_domount (fun _ => true) None mount_ok (sfs_device fs') = Ok (0, inl (fresh_fs sb8 map4096 d)).
Proof.
  destruct (sfs_sync_unmount_mount (fun _ => true) None fs4096 [] fs4096_ok fs4096_vnodes fs4096_meta)
    as (fs' & E & _ & _ & _ & H). destruct (H eq_refl) as (Eu & d & Em & _).
  exists fs'. split; [exact E|]. split; [exact Eu|]. exists d. exact Em.
Defined.
