(* ===== verification/Mksfs.v ===== *)
(** * sbin/mksfs: making a file system

    The program of mksfs.c with the block access of disk.c, as it is built
    for the machine itself, where SWAPL and SWAPS are the identity.  The disk
    is the file that is open, as its blocks.  What the system calls answer is
    an argument: [write] may write less than it is asked to, and may be
    interrupted.  A run that ends in exit(1), after a message, gives [None].

    A disk that mksfs has written can be mounted by sfs_fs.c, and holds an
    empty file system. *)
From stdpp Require Import base numbers list option gmap.
From S2P Require Import Prelude KArray Bitmap Uio Device Lhd SfsDisk Vnode SfsIo SfsFile SfsTrunc SfsDir SfsVnode SfsFs.
Local Open Scope Z_scope.

(** ** disk.c *)

Definition BLOCKSIZE : Z := 512.

(** Whether the file is open, the number of blocks found, and the blocks. *)
Record disk : Type := mk_disk { dk_fd : bool; dk_nblocks : Z; dk_sectors : list (list Z) }.

(** What [write] answers: a number of bytes, EINTR or EAGAIN, or another
    error. *)
Inductive answer : Type := Wrote (len : Z) | Interrupted | Failed.

(** [file] is the size and the blocks of the file, if it can be opened. *)
Definition opendisk (file : option (Z * list (list Z))) (d : disk) : res (option disk) :=
  _ ← assert (negb (dk_fd d));
  match file with
  | None => Ok None
  | Some (st_size, secs) => Ok (Some (mk_disk true (u32 (Z.quot st_size BLOCKSIZE)) secs))
  end.

Definition diskblocksize (d : disk) : res Z := _ ← assert (dk_fd d); Ok BLOCKSIZE.
Definition diskblocks (d : disk) : res Z := _ ← assert (dk_fd d); Ok (dk_nblocks d).

(** The file with block [block] in it: a write past the end makes it larger,
    and what was not written reads as zeros. *)
Definition reach (block : Z) (secs : list (list Z)) : list (list Z) := secs ++ replicate (S (Z.to_nat block) - length secs) (replicate 512 0).

(** The loop of [diskwrite]. *)
Fixpoint write_loop (ws : list answer) (tot : Z) (data : list Z) (block : Z) (secs : list (list Z)) : res (option (list (list Z))) :=
  if tot <? BLOCKSIZE then
    match ws with
    | [] => Fuel
    | Interrupted :: ws => write_loop ws tot data block secs
    | Failed :: _ => Ok None
    | Wrote len :: ws =>
        if len =? 0 then Ok None
        else
          let secs := reach block secs in
          let b := splice (secs !!! Z.to_nat block) (Z.to_nat tot) (take (Z.to_nat len) (drop (Z.to_nat tot) data)) in
          write_loop ws (u32 (tot + len)) data block (<[Z.to_nat block := b]> secs)
    end
  else Ok (Some secs).

(** [ans] is whether [lseek] succeeds, and the answers of [write]. *)
Definition diskwrite (ans : bool * list answer) (data : list Z) (block : Z) (d : disk) : res (option disk) :=
  _ ← assert (dk_fd d);
  if negb (fst ans) then Ok None
  else
    secs ← write_loop (snd ans) 0 data block (dk_sectors d);
    Ok (match secs with Some secs => Some (mk_disk (dk_fd d) (dk_nblocks d) secs) | None => None end).

Definition closedisk (ok : bool) (d : disk) : res (option disk) :=
  _ ← assert (dk_fd d);
  if negb ok then Ok None else Ok (Some (mk_disk false (dk_nblocks d) (dk_sectors d))).

(** ** mksfs.c *)

Definition MAXBITBLOCKS : Z := 32.

(** Unless the program has ended. *)
Definition andthen {A B} (m : res (option A)) (k : A -> res (option B)) : res (option B) :=
  r ← m; match r with None => Ok None | Some x => k x end.

Definition check : res unit := assert (SFS_BLOCKSIZE `mod` SFS_DIRSIZE =? 0).

Definition super_made (volname : list Z) (nblocks : Z) : sfs_super :=
  mk_super SFS_MAGIC nblocks (volname ++ replicate (32 - length volname) 0) (replicate 118 0).

Section mksfs.
(** What the system answers when block [b] is written. *)
Variable ans : Z -> bool * list answer.

Definition writesuper (volname : list Z) (nblocks : Z) (d : disk) : res (option disk) :=
  if Z.of_nat (length volname) >=? SFS_VOLNAME_SIZE then Ok None
  else diskwrite (ans SFS_SB_LOCATION) (super_bytes (super_made volname nblocks)) SFS_SB_LOCATION d.

Definition rootdir_made : sfs_inode := mk_inode 0 SFS_TYPE_DIR 1 (replicate 15 0) 0 (replicate 110 0).

Definition writerootdir (d : disk) : res (option disk) :=
  diskwrite (ans SFS_ROOT_LOCATION) (inode_bytes rootdir_made) SFS_ROOT_LOCATION d.

Definition doallocbit (bit : Z) (bitbuf : list Z) : res (list Z) :=
  let byte := bit / 8 in
  let mask := u8 (Z.shiftl 1 (bit `mod` 8)) in
  w ← load bitbuf byte;
  _ ← assert (Z.land w mask =? 0);
  store bitbuf byte (u8 (Z.lor w mask)).

(** [doallocbit] for [n] bits from [i] on. *)
Fixpoint alloc_loop (n : nat) (i : Z) (bitbuf : list Z) : res (list Z) :=
  match n with
  | O => Ok bitbuf
  | S n => bitbuf ← doallocbit (u32 i) bitbuf; alloc_loop n (i + 1) bitbuf
  end.

(** The loop that writes the blocks of the bitmap, with [n] left. *)
Fixpoint map_loop (n : nat) (i : Z) (bitbuf : list Z) (d : disk) : res (option disk) :=
  match n with
  | O => Ok (Some d)
  | S n =>
      let ptr := Z.to_nat (i * SFS_BLOCKSIZE) in
      if (length bitbuf <? ptr + 512)%nat then Undef
      else andthen (diskwrite (ans (u32 (SFS_MAP_LOCATION + i))) (take 512 (drop ptr bitbuf)) (u32 (SFS_MAP_LOCATION + i)) d)
             (map_loop n (i + 1) bitbuf)
  end.

(** [bitbuf] is static. *)
Definition bitbuf_init : list Z := replicate (Z.to_nat (MAXBITBLOCKS * SFS_BLOCKSIZE)) 0.

Definition writebitmap (fsblocks : Z) (d : disk) : res (option disk) :=
  let nbits := SFS_BITMAPSIZE fsblocks in
  let nblocks := SFS_BITBLOCKS fsblocks in
  if nblocks >? MAXBITBLOCKS then Ok None
  else
    bitbuf ← doallocbit SFS_SB_LOCATION bitbuf_init;
    bitbuf ← doallocbit SFS_ROOT_LOCATION bitbuf;
    bitbuf ← alloc_loop (Z.to_nat nblocks) SFS_MAP_LOCATION bitbuf;
    bitbuf ← alloc_loop (Z.to_nat (nbits - fsblocks)) fsblocks bitbuf;
    map_loop (Z.to_nat nblocks) 0 bitbuf d.

(** The position of a character, as [strchr] finds it. *)
Definition find_char (c : Z) (s : list Z) : option nat := fst <$> list_find (fun x => x = c) s.

(** One trailing colon is removed; no other colon and no slash is allowed. *)
Definition volume_name (volname : list Z) : option (list Z) :=
  match find_char 58 volname with
  | Some i =>
      if negb (length (drop i volname) =? 1)%nat then None
      else match find_char 47 (take i volname) with Some _ => None | None => Some (take i volname) end
  | None => match find_char 47 volname with Some _ => None | None => Some volname end
  end.

(** [main]: the number of arguments, the volume name, the file, and whether
    it can be closed. *)
Definition mksfs (argc : Z) (volname : list Z) (file : option (Z * list (list Z))) (close_ok : bool) : res (option disk) :=
  if negb (argc =? 3) then Ok None
  else
    _ ← check;
    match volume_name volname with
    | None => Ok None
    | Some volname =>
        andthen (opendisk file (mk_disk false 0 [])) (fun d =>
        blocksize ← diskblocksize d;
        if negb (blocksize =? SFS_BLOCKSIZE) then Ok None
        else
          size ← diskblocks d;
          andthen (writesuper volname size d) (fun d =>
          andthen (writerootdir d) (fun d =>
          andthen (writebitmap size d) (closedisk close_ok))))
    end.
End mksfs.

(** ** Writing a block *)

(** [write] answers sensible lengths until everything is written. *)
Fixpoint completes (ws : list answer) (tot : Z) : Prop :=
  512 <= tot \/
  match ws with
  | Wrote len :: ws => 0 < len <= 512 - tot /\ completes ws (tot + len)
  | Interrupted :: ws => completes ws tot
  | _ => False
  end.

Lemma write_loop_spec ws : forall tot data block secs b, completes ws tot -> 0 <= tot <= 512 -> length data = 512%nat -> secs !! Z.to_nat block = Some b -> length b = 512%nat ->
  take (Z.to_nat tot) b = take (Z.to_nat tot) data -> write_loop ws tot data block secs = Ok (Some (<[Z.to_nat block := data]> secs)).
Proof.
  induction ws as [|a ws IH]; intros tot data block secs b Hc Ht Hd Hb Hlb Heq; cbn [write_loop]; unfold BLOCKSIZE.
  - destruct Hc as [Hc|[]]. destruct (Z.ltb_spec tot 512); [lia|]. rewrite !take_ge in Heq by lia. subst b. by rewrite list_insert_id.
  - destruct (Z.ltb_spec tot 512) as [Hlt|Hge].
    2:{ rewrite !take_ge in Heq by lia. subst b. by rewrite list_insert_id. }
    destruct Hc as [Hc|Hc]; [lia|]. destruct a as [len| |]; [|by eapply IH|done]. destruct Hc as [Hlen Hc].
    destruct (Z.eqb_spec len 0); [lia|]. pose proof (lookup_lt_Some _ _ _ Hb). cbv zeta.
    assert (reach block secs = secs) as -> by (unfold reach; replace (S (Z.to_nat block) - length secs)%nat with 0%nat by lia; apply app_nil_r).
    rewrite (list_lookup_total_correct _ _ _ Hb), u32_small by lia. set (b' := splice b _ _). assert (length (take (Z.to_nat len) (drop (Z.to_nat tot) data)) = Z.to_nat len) as Hl by (rewrite length_take, length_drop; lia).
    erewrite (IH _ _ _ _ b'); [by rewrite list_insert_insert_eq|done|lia|done|by rewrite list_lookup_insert_eq|unfold b'; rewrite length_splice; lia|].
    unfold b', splice. rewrite app_assoc, take_app_length' by (rewrite length_app, length_take, Hl; lia).
    replace (Z.to_nat (tot + len)) with (Z.to_nat tot + Z.to_nat len)%nat by lia. by rewrite Heq, take_take_drop.
Qed.

Definition served (ans : bool * list answer) : Prop := fst ans = true /\ completes (snd ans) 0.
Definition whole (secs : list (list Z)) : Prop := Forall (fun b => length b = 512%nat) secs.

Lemma diskwrite_spec ans data block nb secs : served ans -> length data = 512%nat -> 0 <= block < Z.of_nat (length secs) -> whole secs ->
  diskwrite ans data block (mk_disk true nb secs) = Ok (Some (mk_disk true nb (<[Z.to_nat block := data]> secs))) /\ whole (<[Z.to_nat block := data]> secs).
Proof.
  intros [Hs Hc] Hd Hb Hw. destruct (lookup_lt_is_Some_2 secs (Z.to_nat block)) as [b Eb]; [lia|]. unfold diskwrite. cbn [dk_fd dk_nblocks dk_sectors assert]. rewrite bind_Ok, Hs. cbn [negb].
  rewrite (write_loop_spec _ 0 data block secs b); [|done|lia|done|done|exact (Forall_lookup_1 _ _ _ _ Hw Eb)|done]. split; [done|]. by apply Forall_insert.
Qed.

(** ** The bitmap *)

Lemma doallocbit_mark i v : 0 <= i < 131072 -> doallocbit i v = (b ← bitmap_mark (mk_bitmap 131072 v) i; Ok (bm_v b)).
Proof.
  intros Hi. unfold doallocbit, bitmap_mark, bitmap_translate, BITS_PER_WORD. cbn [bm_nbits bm_v]. rewrite (proj2 (Z.ltb_lt _ _)) by lia. cbn [assert]. rewrite bind_Ok.
  destruct (load v (i / 8)) as [w| | |]; [rewrite !bind_Ok|done..]. destruct (assert _) as [[]| | |]; [rewrite !bind_Ok|done..]. by destruct (store _ _ _).
Qed.

Lemma doallocbit_spec i b : bm_wf b -> bm_nbits b = 131072 -> 0 <= i < 131072 -> bm_bit b i = false ->
  exists b', doallocbit i (bm_v b) = Ok (bm_v b') /\ bm_wf b' /\ bm_update b b' i true.
Proof.
  intros Hwf Hn Hi Hb. rewrite doallocbit_mark by done. replace (mk_bitmap 131072 (bm_v b)) with b by (by destruct b; cbn in *; subst).
  destruct (bitmap_mark_spec b i Hwf) as (b' & -> & ? & ?); [lia|done|]. by exists b'.
Qed.

Lemma alloc_loop_spec n : forall i b, bm_wf b -> bm_nbits b = 131072 -> 0 <= i -> i + Z.of_nat n <= 131072 -> (forall j, i <= j < i + Z.of_nat n -> bm_bit b j = false) ->
  exists b', alloc_loop n i (bm_v b) = Ok (bm_v b') /\ bm_wf b' /\ bm_nbits b' = 131072 /\
    forall j, 0 <= j < 131072 -> bm_bit b' j = bm_bit b j || ((i <=? j) && (j <? i + Z.of_nat n)).
Proof.
  induction n as [|n IH]; intros i b Hwf Hn Hi Hle Hfree; cbn [alloc_loop].
  - exists b. split_and!; try done. intros j Hj. destruct (Z.leb_spec i j), (Z.ltb_spec j (i + Z.of_nat 0)); cbn; rewrite ?orb_false_r; lia || done.
  - rewrite u32_small by lia. destruct (doallocbit_spec i b Hwf Hn ltac:(lia) ltac:(apply Hfree; lia)) as (b1 & -> & Hwf1 & Hn1 & Hu1). rewrite bind_Ok.
    destruct (IH (i + 1) b1 Hwf1 ltac:(congruence) ltac:(lia) ltac:(lia)) as (b' & E & Hwf' & Hn' & Hb').
    { intros j Hj. rewrite Hu1 by lia. destruct (Z.eqb_spec j i); [lia|]. apply Hfree. lia. }
    exists b'. split_and!; try done. intros j Hj. rewrite Hb', Hu1 by lia.
    destruct (Z.eqb_spec j i), (Z.leb_spec i j), (Z.leb_spec (i + 1) j), (Z.ltb_spec j (i + 1 + Z.of_nat n)), (Z.ltb_spec j (i + Z.of_nat (S n)));
      cbn; rewrite ?orb_true_r; try lia; done.
Qed.

Section made.
Variable ans : Z -> bool * list answer.
Hypothesis Hans : forall b, served (ans b).

Lemma map_loop_spec v n : forall i nb secs, whole secs -> 0 <= i -> SFS_MAP_LOCATION + i + Z.of_nat n <= Z.of_nat (length secs) -> Z.of_nat (length secs) <= 131072 ->
  (i + Z.of_nat n) * 512 <= Z.of_nat (length v) ->
  exists secs', map_loop ans n i v (mk_disk true nb secs) = Ok (Some (mk_disk true nb secs')) /\ whole secs' /\ length secs' = length secs /\
    (forall k, i <= k < i + Z.of_nat n -> secs' !! Z.to_nat (SFS_MAP_LOCATION + k) = Some (map_chunk v k)) /\
    (forall j, 0 <= j -> ~ (SFS_MAP_LOCATION + i <= j < SFS_MAP_LOCATION + i + Z.of_nat n) -> secs' !! Z.to_nat j = secs !! Z.to_nat j).
Proof.
  unfold SFS_MAP_LOCATION. induction n as [|n IH]; intros i nb secs Hw Hi Hfit Hsmall Hv; cbn [map_loop].
  - exists secs. split_and!; try done; lia.
  - unfold SFS_BLOCKSIZE, SFS_MAP_LOCATION. rewrite u32_small by lia. destruct (Nat.ltb_spec (length v) (Z.to_nat (i * 512) + 512)); [lia|].
    destruct (diskwrite_spec (ans (2 + i)) (map_chunk v i) (2 + i) nb secs (Hans _)) as [E Hw1]; [unfold map_chunk; rewrite length_take, length_drop; lia|lia|done|].
    change (take 512 (drop (Z.to_nat (i * 512)) v)) with (map_chunk v i). rewrite E. unfold andthen at 1. rewrite bind_Ok.
    destruct (IH (i + 1) nb (<[Z.to_nat (2 + i) := map_chunk v i]> secs) Hw1) as (secs' & E' & Hw' & Hl' & Hin & Hout); rewrite ?length_insert in *; try lia.
    exists secs'. split_and!; [done|done|done|intros k Hk|intros j Hj Hn].
    + destruct (decide (k = i)) as [->|Hne]; [|apply Hin; lia]. rewrite Hout, list_lookup_insert_eq by lia. done.
    + rewrite Hout, list_lookup_insert_ne by lia. done.
Qed.

Lemma map_sizes n : 0 < n <= 131072 -> SFS_BITMAPSIZE n = (n + 4095) / 4096 * 4096 /\ SFS_BITBLOCKS n = (n + 4095) / 4096 /\ 1 <= (n + 4095) / 4096 <= 32 /\ n <= (n + 4095) / 4096 * 4096.
Proof.
  intros Hn. unfold SFS_BITBLOCKS, SFS_BITMAPSIZE, SFS_ROUNDUP, SFS_BLOCKBITS, SFS_BLOCKSIZE. change (512 * 8) with 4096. nowrap.
  replace (n + 4096 - 1) with (n + 4095) by lia. rewrite u32_small by dlia. rewrite Z.div_mul by lia. split_and!; try done; dlia.
Qed.

Lemma bitbuf_init_spec : exists b, bm_v b = bitbuf_init /\ bm_wf b /\ bm_nbits b = 131072 /\ forall j, bm_bit b j = false.
Proof.
  exists (mk_bitmap 131072 bitbuf_init). split; [done|]. split; [|split; [done|]].
  - split; [cbn [bm_nbits]; lia|]. cbn [bm_v]. unfold bitbuf_init. split; [by rewrite length_replicate, Z2Nat.id|]. split; [apply replicate_bytes|].
    intros j Hj. cbn [bm_nbits] in Hj. unfold bm_words in Hj. exfalso. revert Hj. dlia.
  - intros j. unfold bm_bit, bitbuf_init. cbn [bm_v]. destruct (replicate _ 0 !! Z.to_nat (j / 8)) as [w|] eqn:E; [|done]. apply lookup_replicate in E as [-> _]. apply Z.bits_0.
Qed.

(** The bits of [bitbuf]. *)
Lemma bits_made n (bb := (n + 4095) / 4096) : 0 < n <= 131072 -> 2 + bb <= n -> exists b, bm_wf b /\ bm_nbits b = 131072 /\
  (forall j, 0 <= j < bb * 4096 -> bm_bit b j = (j <? 2 + bb) || (n <=? j)) /\
  forall (A : Type) (k : list Z -> res A), (v ← doallocbit SFS_SB_LOCATION bitbuf_init; v ← doallocbit SFS_ROOT_LOCATION v;
   v ← alloc_loop (Z.to_nat bb) SFS_MAP_LOCATION v; v ← alloc_loop (Z.to_nat (bb * 4096 - n)) n v; k v) = k (bm_v b).
Proof.
  intros Hn Hfit. destruct (map_sizes n Hn) as (_ & _ & Hbb & Hle). fold bb in Hbb, Hle. unfold SFS_SB_LOCATION, SFS_ROOT_LOCATION, SFS_MAP_LOCATION.
  destruct bitbuf_init_spec as (b0 & <- & Hwf0 & Hn0 & Hb0).
  destruct (doallocbit_spec 0 b0 Hwf0 Hn0 ltac:(lia) (Hb0 0)) as (b1 & E1 & Hwf1 & Hn1 & Hb1).
  destruct (doallocbit_spec 1 b1 Hwf1 ltac:(lia) ltac:(lia)) as (b2 & E2 & Hwf2 & Hn2 & Hb2); [by rewrite Hb1, Hb0 by lia|].
  destruct (alloc_loop_spec (Z.to_nat bb) 2 b2 Hwf2 ltac:(lia) ltac:(lia) ltac:(lia)) as (b3 & E3 & Hwf3 & Hn3 & Hb3).
  { intros j Hj. rewrite Hb2, Hb1, Hb0 by lia. by destruct (Z.eqb_spec j 1), (Z.eqb_spec j 0); try lia. }
  assert (forall j, 0 <= j < bb * 4096 -> bm_bit b3 j = (j <? 2 + bb)) as Hb3'.
  { intros j Hj. rewrite Hb3, Hb2, Hb1, Hb0 by lia. destruct (Z.eqb_spec j 1), (Z.eqb_spec j 0), (Z.leb_spec 2 j), (Z.ltb_spec j (2 + Z.of_nat (Z.to_nat bb))), (Z.ltb_spec j (2 + bb)); cbn; try lia; done. }
  destruct (alloc_loop_spec (Z.to_nat (bb * 4096 - n)) n b3 Hwf3 Hn3 ltac:(lia) ltac:(lia)) as (b4 & E4 & Hwf4 & Hn4 & Hb4).
  { intros j Hj. rewrite Hb3' by lia. destruct (Z.ltb_spec j (2 + bb)); [lia|done]. }
  exists b4. split_and!; try done.
  - intros j Hj. rewrite Hb4, Hb3' by lia. f_equal. destruct (Z.leb_spec n j), (Z.ltb_spec j (n + Z.of_nat (Z.to_nat (bb * 4096 - n)))); cbn; lia || done.
  - intros A k. by rewrite E1, bind_Ok, E2, bind_Ok, E3, bind_Ok, E4, bind_Ok.
Qed.

Lemma writebitmap_spec n nb secs (bb := (n + 4095) / 4096) : whole secs -> Z.of_nat (length secs) = n -> 0 < n <= 131072 -> 2 + bb <= n ->
  exists b secs', writebitmap ans n (mk_disk true nb secs) = Ok (Some (mk_disk true nb secs')) /\ bm_wf b /\ bm_nbits b = 131072 /\
    (forall j, 0 <= j < bb * 4096 -> bm_bit b j = (j <? 2 + bb) || (n <=? j)) /\ whole secs' /\ length secs' = length secs /\
    (forall k, 0 <= k < bb -> secs' !! Z.to_nat (2 + k) = Some (map_chunk (bm_v b) k)) /\
    (forall j, 0 <= j -> ~ (2 <= j < 2 + bb) -> secs' !! Z.to_nat j = secs !! Z.to_nat j).
Proof.
  intros Hw Hl Hn Hfit. destruct (bits_made n Hn Hfit) as (b & Hwf & Hnb & Hbits & Erun). destruct (map_sizes n Hn) as (Es & Eb & Hbb & Hle).
  unfold writebitmap. rewrite Es, Eb. fold bb in Hbb, Hle, Erun |- *. unfold MAXBITBLOCKS. destruct (Z.gtb_spec bb 32); [lia|]. cbv zeta. rewrite Erun.
  destruct (map_loop_spec (bm_v b) (Z.to_nat bb) 0 nb secs Hw) as (secs' & -> & Hw' & Hl' & Hin & Hout); [lia|unfold SFS_MAP_LOCATION; lia|lia| |].
  { destruct Hwf as (_ & Hlen & _). rewrite Hlen, Hnb. change (bm_words 131072) with 16384. lia. }
  exists b, secs'. unfold SFS_MAP_LOCATION in *. split_and!; try done; [intros k Hk; apply Hin; lia|intros j Hj Hn'; apply Hout; lia].
Qed.

Lemma super_made_typed name n : (length name < 32)%nat -> 0 < n <= 131072 -> super_typed (super_made name n).
Proof.
  intros Hl Hn. unfold super_typed, super_made; cbn [sp_magic sp_nblocks sp_volname sp_reserved]. unfold is_u32, SFS_MAGIC. split; [lia|]. split; [lia|].
  rewrite length_app, length_replicate. split; [lia|]. split; [by rewrite length_replicate|]. apply Forall_replicate. lia.
Qed.

Lemma rootdir_made_typed : inode_typed rootdir_made.
Proof.
  unfold inode_typed, rootdir_made, is_u32, is_u16, SFS_TYPE_DIR; cbn [sfi_size sfi_type sfi_linkcount sfi_direct sfi_indirect sfi_waste].
  split_and!; try lia; try (by rewrite length_replicate); apply Forall_replicate; lia.
Qed.

(** A name that is allowed, with or without a colon at its end. *)
Definition good_name (name : list Z) : Prop := Forall (fun c => c <> 0 /\ c <> 58 /\ c <> 47) name /\ (length name < 32)%nat.

Lemma find_char_none c s : Forall (fun x => x <> c) s -> find_char c s = None.
Proof. intros H. unfold find_char. by rewrite (proj2 (list_find_None _ _)). Qed.

Lemma volume_name_spec name : good_name name -> volume_name name = Some name /\ volume_name (name ++ [58]) = Some name.
Proof.
  intros [Hc _]. assert (find_char 58 name = None /\ find_char 47 name = None) as [E1 E2] by (split; apply find_char_none; (eapply Forall_impl; [exact Hc|]); cbn; tauto).
  unfold volume_name. split; [by rewrite E1, E2|].
  assert (find_char 58 (name ++ [58]) = Some (length name)) as ->.
  { unfold find_char in *. destruct (list_find (fun x => x = 58) name) eqn:E; [done|]. by rewrite list_find_app_r by done. }
  rewrite drop_app_length, take_app_length, E2. done.
Qed.

(** The disk that mksfs leaves. *)
Definition made (name : list Z) (n : Z) (secs secs' : list (list Z)) (b : bitmap) : Prop :=
  let bb := (n + 4095) / 4096 in
  whole secs' /\ length secs' = length secs /\ bm_wf b /\ bm_nbits b = 131072 /\
  (forall j, 0 <= j < bb * 4096 -> bm_bit b j = (j <? 2 + bb) || (n <=? j)) /\
  secs' !! 0%nat = Some (super_bytes (super_made name n)) /\ secs' !! 1%nat = Some (inode_bytes rootdir_made) /\
  (forall k, 0 <= k < bb -> secs' !! Z.to_nat (2 + k) = Some (map_chunk (bm_v b) k)) /\
  (forall j, 2 + bb <= j -> secs' !! Z.to_nat j = secs !! Z.to_nat j).

Lemma mksfs_made name arg secs (n := Z.of_nat (length secs)) : good_name name -> arg = name \/ arg = name ++ [58] -> whole secs -> n <= 131072 -> 2 + (n + 4095) / 4096 <= n ->
  exists d b, mksfs ans 3 arg (Some (n * 512, secs)) true = Ok (Some d) /\ made name n secs (dk_sectors d) b.
Proof.
  intros Hname Harg Hw Hn Hfit. assert (0 < n) as Hpos by dlia. pose proof Hname as [_ Hlen].
  assert (volume_name arg = Some name) as Ev by (destruct (volume_name_spec name Hname); by destruct Harg as [-> | ->]).
  unfold mksfs. cbn [Z.eqb Pos.eqb negb]. rewrite Ev. unfold check. cbn [assert]. change (assert _) with (Ok tt). rewrite bind_Ok.
  unfold opendisk. cbn [dk_fd negb assert]. rewrite bind_Ok. unfold andthen at 1. rewrite bind_Ok. unfold diskblocksize, diskblocks, BLOCKSIZE. cbn [dk_fd dk_nblocks assert]. rewrite !bind_Ok.
  change (negb (512 =? SFS_BLOCKSIZE)) with false. cbv iota. rewrite Z.quot_mul, u32_small by lia.
  unfold writesuper. destruct (Z.geb_spec (Z.of_nat (length name)) SFS_VOLNAME_SIZE) as [Hge|_]; [unfold SFS_VOLNAME_SIZE in Hge; lia|].
  destruct (diskwrite_spec (ans SFS_SB_LOCATION) (super_bytes (super_made name n)) SFS_SB_LOCATION n secs (Hans _)) as [-> Hw1];
    [apply length_super_bytes, super_made_typed; [done|lia]|unfold SFS_SB_LOCATION; lia|done|].
  unfold andthen at 1. rewrite bind_Ok. unfold writerootdir.
  destruct (diskwrite_spec (ans SFS_ROOT_LOCATION) (inode_bytes rootdir_made) SFS_ROOT_LOCATION n (<[Z.to_nat SFS_SB_LOCATION:=super_bytes (super_made name n)]> secs) (Hans _)) as [-> Hw2];
    [apply length_inode_bytes, rootdir_made_typed|rewrite length_insert; unfold SFS_ROOT_LOCATION; fold n; revert Hfit; dlia|done|].
  unfold andthen at 1. rewrite bind_Ok. set (secs2 := <[Z.to_nat SFS_ROOT_LOCATION:=_]> _) in *. assert (length secs2 = length secs) as Hl2 by (unfold secs2; by rewrite !length_insert).
  destruct (writebitmap_spec n n secs2 Hw2) as (b & secs' & -> & Hwf & Hnb & Hbits & Hw' & Hl' & Hin & Hout); [by rewrite Hl2|lia|done|].
  unfold andthen. rewrite bind_Ok. unfold closedisk. cbn [dk_fd assert negb]. rewrite bind_Ok. eexists _, b. split; [reflexivity|]. cbn [dk_sectors dk_nblocks].
  destruct (map_sizes n ltac:(lia)) as (_ & _ & Hbb & _). assert (2 <= n) as H2 by lia.
  assert (secs2 !! 0%nat = Some (super_bytes (super_made name n)) /\ secs2 !! 1%nat = Some (inode_bytes rootdir_made)) as [G0 G1].
  { unfold secs2, SFS_SB_LOCATION, SFS_ROOT_LOCATION. change (Z.to_nat 0) with 0%nat. change (Z.to_nat 1) with 1%nat.
    rewrite list_lookup_insert_ne, !list_lookup_insert_eq by (rewrite ?length_insert; unfold n in H2; lia). done. }
  unfold made. cbv zeta. split_and!; try done; try lia.
  - rewrite <- G0. apply (Hout 0); lia.
  - rewrite <- G1. apply (Hout 1); lia.
  - intros j Hj. rewrite Hout by lia. unfold secs2, SFS_SB_LOCATION, SFS_ROOT_LOCATION. rewrite !list_lookup_insert_ne by lia. done.
Qed.
End made.

(** ** Mounting it *)

Section mounted.
Context {D : Type} `{!BlockDev D} `{!ReliableDev D}.
Context (valid : Z -> bool) (curspace : option Z).

Abbreviation sectors fs := (dev_sectors (sfs_device fs)).

(** The map that is on the disk. *)
Definition map_made (n : Z) (b : bitmap) : bitmap :=
  mk_bitmap ((n + 4095) / 4096 * 4096) (take (Z.to_nat ((n + 4095) / 4096 * 512)) (bm_v b)).

Lemma fresh_table sb map d : table_ok (fresh_fs sb map d : sfs_fs D) [].
Proof.
  split; [split; [split; [simpl; lia|done]|done]|]. split; [constructor|]. split; [done|]. split; [|done].
  intros p. split; [intros Hp; by apply not_elem_of_nil in Hp|]. intros [x Hx]. discriminate Hx.
Qed.

Lemma empty_dir_ok p fs : 0 < sp_nblocks (sfs_sb fs) -> bm_bit (sfs_freemap fs) 0 = true -> dir_ok (fresh_vnode p SFS_ROOT_LOCATION rootdir_made) (fs : sfs_fs D).
Proof.
  intros Hnb Hb. unfold dir_ok, file_ok. cbn [sv_i fresh_vnode rootdir_made sfi_direct sfi_size sfi_type]. split; [|split_and!; try done].
  - split; [by rewrite length_replicate|]. split; [lia|]. assert (ptrs (fresh_vnode p SFS_ROOT_LOCATION rootdir_made) (sectors fs) = replicate 144 0) as -> by done. split.
    + apply Forall_replicate. split; [lia|done].
    + intros i j c Hc Hi _. apply lookup_replicate in Hi as [-> _]. done.
Qed.

Section one.
Variables (name : list Z) (n : Z) (secs secs' : list (list Z)) (b : bitmap) (dev : D).
Hypotheses (Hname : good_name name) (Hn : 0 < n <= 131072) (Hfit : 2 + (n + 4095) / 4096 <= n) (Hlen : Z.of_nat (length secs) = n).
Hypotheses (Hmade : made name n secs secs' b) (Hdev : dev_ok dev) (Hsec : dev_sectors dev = secs').

Lemma map_made_bit j : 0 <= j < (n + 4095) / 4096 * 4096 -> bm_bit (map_made n b) j = (j <? 2 + (n + 4095) / 4096) || (n <=? j).
Proof.
  destruct Hmade as (_ & _ & _ & _ & Hbits & _). intros Hj. rewrite <- Hbits by done. unfold bm_bit, map_made. cbn [bm_v]. by rewrite lookup_take_lt by dlia.
Qed.

Lemma made_fs_ok d : dev_ok d -> d_blocks d = n -> fs_ok (fresh_fs (super_made name n) (map_made n b) d).
Proof.
  destruct Hmade as (_ & _ & (Hr & Hl & Hby & Hov) & Hnb & _). destruct (map_sizes n Hn) as (_ & _ & Hbb & Hle). intros Hd Hblk.
  unfold fs_ok, fresh_fs. cbn [sfs_device sfs_sb sfs_freemap super_made sp_nblocks bm_nbits map_made]. split; [done|]. split; [lia|]. split; [|split; [done|split]].
  - split; [cbn [bm_nbits map_made]; lia|]. split; [|split].
    + cbn [bm_v bm_nbits map_made]. rewrite length_take. rewrite Hnb in Hl. change (bm_words 131072) with 16384 in Hl. unfold bm_words. dlia.
    + by apply Forall_take.
    + cbn [bm_nbits map_made]. intros i Hi. exfalso. unfold bm_words in Hi. revert Hi. dlia.
  - intros i Hi. cbn [bm_nbits map_made] in Hi. rewrite map_made_bit by lia. destruct (Z.leb_spec n i); [by rewrite orb_true_r|lia].
  - rewrite map_made_bit by lia. destruct (Z.ltb_spec 0 (2 + (n + 4095) / 4096)); [done|lia].
Qed.

Lemma made_chunk k : 0 <= k < (n + 4095) / 4096 -> map_chunk (bm_v (map_made n b)) k = map_chunk (bm_v b) k.
Proof.
  intros Hk. unfold map_chunk, map_made. cbn [bm_v]. rewrite skipn_firstn_comm, take_take. f_equal. lia.
Qed.

Lemma made_mounts : exists d, sfs_domount valid curspace mount_ok dev = Ok (0, inl (fresh_fs (super_made name n) (map_made n b) d)) /\
  dev_ok d /\ dev_sectors d = secs' /\ d_blocks d = n.
Proof.
  pose proof Hmade as (Hw & Hl & Hwf & Hnb & Hbits & H0 & H1 & Hmap & _). destruct (map_sizes n Hn) as (Es & Eb & Hbb & Hle).
  assert (d_blocks dev = n) as Hblk by (rewrite <- (dev_size _ Hdev), Hsec, Hl; done). set (fs := fresh_fs (super_made name n) (map_made n b) dev).
  assert (super_on_disk fs (dev_sectors dev)) as Hs.
  { unfold super_on_disk, blk, SFS_SB_LOCATION. rewrite Hsec. by apply list_lookup_total_correct. }
  assert (map_on_disk fs (dev_sectors dev)) as Hm.
  { intros k Hk. unfold SFS_FS_BITBLOCKS in Hk. cbn [fs fresh_fs sfs_sb super_made sp_nblocks] in Hk. rewrite Eb in Hk. unfold blk. rewrite Hsec.
    cbn [fs fresh_fs sfs_freemap]. rewrite made_chunk by done. by apply list_lookup_total_correct, Hmap. }
  destruct (sfs_domount_spec valid curspace fs dev) as (d & E & Hd & Hs' & Hb'); try done.
  - by apply made_fs_ok.
  - pose proof Hname as [_ Hlt]. unfold meta_sound. split; [by apply super_made_typed|]. split; [done|]. split.
    { cbn [fs fresh_fs sfs_sb super_made sp_volname]. rewrite lookup_app_r, lookup_replicate_2 by lia. done. }
    unfold SFS_FS_BITBLOCKS, SFS_FS_BITMAPSIZE. cbn [fs fresh_fs sfs_sb super_made sp_nblocks sfs_freemap map_made bm_nbits]. rewrite Eb, Es. unfold SFS_MAP_LOCATION. done.
  - cbn. lia.
  - exists d. split_and!; try done; congruence.
Qed.

Lemma made_root d p : dev_ok d -> dev_sectors d = secs' -> d_blocks d = n ->
  exists fs', sfs_getroot valid curspace (mk_allocs (Some p) true true) (fresh_fs (super_made name n) (map_made n b) d) = Ok (p, fs') /\ fs_ok fs' /\
    sectors fs' = secs' /\ sfs_freemap fs' = map_made n b /\ sfs_mem fs' = {[p := fresh_vnode p SFS_ROOT_LOCATION rootdir_made]} /\ dir_ok (fresh_vnode p SFS_ROOT_LOCATION rootdir_made) fs'.
Proof.
  intros Hd Hs Hblk. pose proof (made_fs_ok d Hd Hblk) as Hfs. pose proof Hmade as (_ & _ & _ & _ & _ & _ & H1 & _). set (fs := fresh_fs _ _ _) in *. destruct (map_sizes n Hn) as (_ & _ & Hbb & Hle).
  assert (inode_of (blk (sectors fs) 1) = rootdir_made) as Hroot.
  { unfold blk. cbn [fs fresh_fs sfs_device]. rewrite Hs, (list_lookup_total_correct _ _ _ H1). apply inode_roundtrip, rootdir_made_typed. }
  assert (forall j, 0 <= j < 2 -> bm_bit (map_made n b) j = true) as Hbit.
  { intros j Hj. rewrite map_made_bit by lia. destruct (Z.ltb_spec j (2 + (n + 4095) / 4096)); [done|lia]. }
  unfold sfs_getroot, SFS_ROOT_LOCATION. destruct (sfs_loadvnode_run valid curspace (mk_allocs (Some p) true true) 1 fs [] Hfs (fresh_table _ _ _)) as [(q & sv & Hq & _)|[Hnl ->]]; [done..|].
  cbn [al_vnode]. destruct (load_new_spec valid curspace (mk_allocs (Some p) true true) p 1 fs [] Hfs (fresh_table _ _ _)) as (r & ret & fs' & -> & Hfs' & Hsec' & Hmap' & Hnb' & Hc); try done.
  - cbn. lia.
  - by apply Hbit.
  - rewrite Hroot. by right.
  - destruct Hc as [(-> & -> & _ & Hmem)|(_ & Hf & _)]; [|done]. rewrite bind_Ok. exists fs'. rewrite Hroot in Hmem. split_and!; try done.
    + rewrite Hsec'. exact Hs.
    + apply empty_dir_ok; [rewrite Hnb'; cbn; lia|rewrite Hmap'; by apply Hbit].
Qed.
End one.

(** C12. A disk that mksfs has written can be mounted.  On any disk of at most
    131072 blocks that has room for the metadata, whatever way the writes are
    split and interrupted, mksfs succeeds with a volume name of less than 32
    characters without colon and slash, and leaves the blocks after the free
    map alone.  Mounting the result succeeds and gives a consistent file
    system with that name, in which just the superblock, the root and the
    free map are in use, and whose root directory is consistent and
    empty. *)
Theorem mksfs_mounts (ans : Z -> bool * list answer) (name : list Z) (secs : list (list Z)) :
  let n := Z.of_nat (length secs) in
  let used := 2 + (n + 4095) / 4096 in
  (forall b, served (ans b)) -> good_name name -> whole secs -> n <= 131072 -> used <= n ->
  exists d, mksfs ans 3 (name ++ [58]) (Some (n * 512, secs)) true = Ok (Some d) /\
    (forall j, used <= j -> dk_sectors d !! Z.to_nat j = secs !! Z.to_nat j) /\
    forall (dev : D) (p : Z), dev_ok dev -> dev_sectors dev = dk_sectors d ->
     exists fs, sfs_domount valid curspace mount_ok dev = Ok (0, inl fs) /\ fs_ok fs /\ table_ok fs [] /\ sfs_getvolname fs = name /\
       (forall j, 0 <= j < n -> bm_bit (sfs_freemap fs) j = (j <? used)) /\
       exists fs' sv, sfs_getroot valid curspace (mk_allocs (Some p) true true) fs = Ok (p, fs') /\ fs_ok fs' /\
         sfs_mem fs' !! p = Some sv /\ dir_ok sv fs' /\ dents sv (sectors fs') = [].
Proof.
  intros n used Hans Hname Hw Hn Hfit. destruct (mksfs_made ans Hans name _ secs Hname (or_intror eq_refl) Hw Hn Hfit) as (d & b & E & Hmade).
  assert (0 < n <= 131072) as Hn' by (unfold used in Hfit; revert Hfit; dlia). destruct (map_sizes n Hn') as (_ & _ & Hbb & Hle).
  exists d. split; [done|]. split; [apply Hmade|]. intros dev p Hdev Hsec.
  destruct (made_mounts name n secs _ b dev Hname Hn' Hfit eq_refl Hmade Hdev Hsec) as (d1 & Em & Hd1 & Hs1 & Hb1). eexists. split; [exact Em|].
  split; [by eapply made_fs_ok|]. split; [apply fresh_table|]. split; [|split].
  - destruct Hname as [Hc Hl]. unfold sfs_getvolname. cbn [fresh_fs sfs_sb super_made sp_volname]. replace (32 - length name)%nat with (S (31 - length name)) by lia.
    cbn [replicate]. apply cstring_app. eapply Forall_impl; [exact Hc|]. cbn. tauto.
  - intros j Hj. cbn [fresh_fs sfs_freemap]. erewrite map_made_bit; [|done|done|lia]. destruct (Z.leb_spec n j); [lia|by rewrite orb_false_r].
  - destruct (made_root name n secs _ b Hn' Hfit Hmade d1 p Hd1 Hs1 Hb1) as (fs' & Er & Hfs' & _ & _ & Hmem & Hdir).
    exists fs', (fresh_vnode p SFS_ROOT_LOCATION rootdir_made). rewrite Hmem. split_and!; try done. apply lookup_singleton_eq.
Qed.
End mounted.

(** ** Witness *)

#[local] Instance good_disk : DiskLaws ramdisk := ramdisk_laws false.
#[local] Existing Instance ramdisk_sound.

(** The system writes 100 bytes, is interrupted, and writes the rest. *)
Definition slow (_ : Z) : bool * list answer := (true, [Wrote 100; Interrupted; Wrote 412]).
Definition disk_name : list Z := [100; 105; 115; 107].
Definition blank8 : list (list Z) := replicate 8 zeros.
Definition lh_of (secs : list (list Z)) : lhd_softc ramdisk := mk_lhd (replicate 512 0) 0 1 0 (Z.of_nat (length secs)) 0 0 (mk_ramdisk secs []).

Lemma lh_of_sectors secs : dev_sectors (lh_of secs) = secs.
Proof. reflexivity. Qed.

Lemma lh_of_ok secs : whole secs -> Z.of_nat (length secs) <= 131072 -> dev_ok (lh_of secs).
Proof.
  intros Hw Hl. split; [done|]. split; [done|]. split; [apply length_replicate|]. split; [|done]. split; [|done]. split; [done|]. cbn [lh_of lh_hw rd_sectors]. lia.
Qed.

Lemma slow_served b : served (slow b).
Proof. split; [done|]. cbn. right. split; [lia|]. right. right. split; [lia|]. left. lia. Qed.

Lemma disk_name_good : good_name disk_name.
Proof. split; [by repeat constructor|cbn; lia]. Qed.

Lemma blank8_whole : whole blank8.
Proof. by apply Forall_replicate. Qed.

Lemma mksfs_mounts_witness : exists d, mksfs slow 3 (disk_name ++ [58]) (Some (Z.of_nat (length blank8) * 512, blank8)) true = Ok (Some d) /\
  exists fs, sfs_domount (fun _ => true) None mount_ok (lh_of (dk_sectors d)) = Ok (0, inl fs) /\ sfs_getvolname fs = disk_name.
Proof.
  assert (length blank8 = 8%nat) as Hl8 by apply length_replicate.
  destruct (mksfs_made slow slow_served disk_name _ blank8 disk_name_good (or_intror eq_refl) blank8_whole) as (d' & b & E' & Hw & Hl & _); [by rewrite Hl8..|].
  destruct (mksfs_mounts (D := lhd_softc ramdisk) (fun _ => true) None slow disk_name blank8 slow_served disk_name_good blank8_whole) as (d & E & _ & H); [by rewrite Hl8..|].
  exists d. split; [exact E|]. rewrite E in E'. clear E. assert (d' = d) as -> by congruence.
  destruct (H (lh_of (dk_sectors d)) 7 (lh_of_ok _ Hw ltac:(rewrite Hl, Hl8; lia)) (lh_of_sectors _)) as (fs & Em & _ & _ & Ev & _). exists fs. split; [exact Em|exact Ev].
Defined.
