(* ===== verification/Vfs.v ===== *)
(** * kern/fs/vfs: devices, mounts, paths and the current directory

    vfslist.c, vfslookup.c, vfspath.c and vfscwd.c, for the current thread.
    What file systems and devices do is behind the class [VfsOps], the
    dispatch through [struct fs] and [vn_ops].

    A C string is the list of its characters, without the terminating 0;
    names and paths that the code cuts off in place are the parts of the list.
    Comparing strings with [strcmp] is comparing lists.  Memory that is
    allocated is an argument: whether [kmalloc] answers, or with which
    address.  The array of devices is a list.  [lock_acquire]
    panics when the thread already holds the lock. *)
From stdpp Require Import base numbers list option.
From S2P Require Import Prelude Uio Vnode.
Local Open Scope Z_scope.

Definition NAME_MAX : Z := 255.

(** Results are an error code, and the object handed back when it is 0. *)
Class VfsOps (S : Type) `{VnodeOps S} : Type := {
  fsop_sync : Z -> S -> res (Z * S);
  fsop_getvolname : Z -> S -> res (option (list Z));
  fsop_getroot : Z -> S -> res (Z * S);
  fsop_unmount : Z -> S -> res (Z * S);
  (** [kfree] of the memory of a vnode. *)
  vn_free : Z -> S -> S;
  vop_open : Z -> Z -> S -> res (Z * S);
  vop_gettype : Z -> S -> res (Z * Z);
  vop_truncate : Z -> Z -> S -> res (Z * S);
  vop_namefile : Z -> uio -> S -> res (Z * uio * S);
  vop_readlink : Z -> uio -> S -> res (Z * uio * S);
  vop_creat : Z -> list Z -> bool -> S -> res (Z * Z * S);
  vop_symlink : Z -> list Z -> list Z -> S -> res (Z * S);
  vop_mkdir : Z -> list Z -> S -> res (Z * S);
  vop_link : Z -> list Z -> Z -> S -> res (Z * S);
  vop_remove : Z -> list Z -> S -> res (Z * S);
  vop_rmdir : Z -> list Z -> S -> res (Z * S);
  vop_rename : Z -> list Z -> Z -> list Z -> S -> res (Z * S);
  vop_lookup : Z -> list Z -> S -> res (Z * Z * S);
  vop_lookparent : Z -> list Z -> Z -> S -> res (Z * Z * list Z * S);
}.

Record knowndev : Type := mk_kd {
  kd_name : list Z;
  kd_rawname : option (list Z);
  kd_device : option Z;
  kd_vnode : Z;
  kd_fs : option Z;
}.

Definition set_kd_fs (fs : option Z) (kd : knowndev) : knowndev :=
  mk_kd (kd_name kd) (kd_rawname kd) (kd_device kd) (kd_vnode kd) fs.

(** The static variables, the current directory of the thread, and the vnodes
    and file systems. *)
Record vfs (S : Type) : Type := mk_vfs {
  knowndevs : list knowndev;
  knowndevs_lock : bool;
  bootfs_vnode : option Z;
  bootfs_lock : bool;
  t_cwd : option Z;
  world : S;
}.
Arguments mk_vfs {S}.
Arguments knowndevs {S}.
Arguments knowndevs_lock {S}.
Arguments bootfs_vnode {S}.
Arguments bootfs_lock {S}.
Arguments t_cwd {S}.
Arguments world {S}.

Section vfs.
Context {S : Type} `{VfsOps S}.
Implicit Types (st : vfs S) (w : S).

Definition set_world w st : vfs S :=
  mk_vfs (knowndevs st) (knowndevs_lock st) (bootfs_vnode st) (bootfs_lock st) (t_cwd st) w.
Definition set_cwd (v : option Z) st : vfs S :=
  mk_vfs (knowndevs st) (knowndevs_lock st) (bootfs_vnode st) (bootfs_lock st) v (world st).
Definition set_bootfs (v : option Z) st : vfs S :=
  mk_vfs (knowndevs st) (knowndevs_lock st) v (bootfs_lock st) (t_cwd st) (world st).
Definition set_devs (l : list knowndev) st : vfs S :=
  mk_vfs l (knowndevs_lock st) (bootfs_vnode st) (bootfs_lock st) (t_cwd st) (world st).
Definition set_devs_lock (b : bool) st : vfs S :=
  mk_vfs (knowndevs st) b (bootfs_vnode st) (bootfs_lock st) (t_cwd st) (world st).
Definition set_bootfs_lock (b : bool) st : vfs S :=
  mk_vfs (knowndevs st) (knowndevs_lock st) (bootfs_vnode st) b (t_cwd st) (world st).

Definition acquire_devs st : res (vfs S) := if knowndevs_lock st then Panic else Ok (set_devs_lock true st).
Definition release_devs st : res (vfs S) := _ ← assert (knowndevs_lock st); Ok (set_devs_lock false st).
Definition acquire_bootfs st : res (vfs S) := if bootfs_lock st then Panic else Ok (set_bootfs_lock true st).
Definition release_bootfs st : res (vfs S) := _ ← assert (bootfs_lock st); Ok (set_bootfs_lock false st).

(** [VOP_INCREF] and the like. *)
Definition incref (v : Z) st : res (vfs S) := w ← vnode_incref v (world st); Ok (set_world w st).
Definition decref (v : Z) st : res (vfs S) := w ← vnode_decref v (world st); Ok (set_world w st).
Definition incopen (v : Z) st : res (vfs S) := w ← vnode_incopen v (world st); Ok (set_world w st).
Definition decopen (v : Z) st : res (vfs S) := w ← vnode_decopen v (world st); Ok (set_world w st).

(** [__VOP]: an operation of a vnode, after [vnode_check]. *)
Definition VOP {A : Type} (v : Z) st (op : S -> res A) : res A :=
  vn ← vn_deref v (world st);
  _ ← vnode_check false vn;
  op (world st).

Definition str_eq (a b : list Z) : bool := bool_decide (a = b).

(** ** vfslist.c *)

Fixpoint sync_loop (l : list knowndev) w : res S :=
  match l with
  | [] => Ok w
  | kd :: l =>
      match kd_fs kd with
      | Some fs => '(_, w) ← fsop_sync fs w; sync_loop l w
      | None => sync_loop l w
      end
  end.

Definition vfs_sync st : res (vfs S * Z) :=
  st ← acquire_devs st;
  w ← sync_loop (knowndevs st) (world st);
  st ← release_devs (set_world w st);
  Ok (st, 0).

(** The part of the loop of [vfs_getroot] after the tests on the file system. *)
Definition getroot_device (devname : list Z) w (kd : knowndev) : res (option (Z * Z * S)) :=
  if str_eq (kd_name kd) devname then
    _ ← assert (bool_decide (kd_fs kd = None));
    _ ← assert (bool_decide (kd_rawname kd = None));
    _ ← assert (bool_decide (kd_device kd <> None));
    w ← vnode_incref (kd_vnode kd) w;
    Ok (Some (0, kd_vnode kd, w))
  else
    match kd_rawname kd with
    | Some rawname =>
        if str_eq rawname devname then
          _ ← assert (bool_decide (kd_device kd <> None));
          w ← vnode_incref (kd_vnode kd) w;
          Ok (Some (0, kd_vnode kd, w))
        else Ok None
    | None => Ok None
    end.

Fixpoint getroot_loop (l : list knowndev) (devname : list Z) w : res (Z * Z * S) :=
  match l with
  | [] => Ok (ENODEV, 0, w)
  | kd :: l =>
      match kd_fs kd with
      | Some fs =>
          volname ← fsop_getvolname fs w;
          if str_eq (kd_name kd) devname || bool_decide (volname = Some devname) then
            '(root, w) ← fsop_getroot fs w; Ok (0, root, w)
          else
            r ← getroot_device devname w kd;
            match r with Some r => Ok r | None => getroot_loop l devname w end
      | None =>
          if bool_decide (kd_rawname kd <> None) && str_eq (kd_name kd) devname then Ok (ENXIO, 0, w)
          else
            r ← getroot_device devname w kd;
            match r with Some r => Ok r | None => getroot_loop l devname w end
      end
  end.

(** The error code and the vnode. *)
Definition vfs_getroot (devname : list Z) st : res (vfs S * Z * Z) :=
  st ← acquire_devs st;
  '(err, vn, w) ← getroot_loop (knowndevs st) devname (world st);
  st ← release_devs (set_world w st);
  Ok (st, err, vn).

Fixpoint getdevname_loop (l : list knowndev) (fs : Z) : option (list Z) :=
  match l with
  | [] => None
  | kd :: l => if bool_decide (kd_fs kd = Some fs) then Some (kd_name kd) else getdevname_loop l fs
  end.

Definition vfs_getdevname (fs : Z) st : res (vfs S * option (list Z)) :=
  _ ← assert (negb (fs =? 0));
  st ← acquire_devs st;
  let name := getdevname_loop (knowndevs st) fs in
  st ← release_devs st;
  Ok (st, name).

(** [ok] is the answer of [kmalloc]. *)
Definition mkrawname (ok : bool) (name : list Z) : option (list Z) :=
  if ok then Some (name ++ [114; 97; 119]) else None.

Definition samestring (a b : option (list Z)) : bool :=
  match a, b with Some a, Some b => str_eq a b | _, _ => false end.

Definition samestring3 (a b c d : option (list Z)) : bool := samestring a b || samestring a c || samestring a d.

Fixpoint badnames_loop (l : list knowndev) (n1 n2 n3 : option (list Z)) w : res bool :=
  match l with
  | [] => Ok false
  | kd :: l =>
      bad ← (match kd_fs kd with
             | Some fs => volname ← fsop_getvolname fs w; Ok (samestring3 volname n1 n2 n3)
             | None => Ok false
             end);
      if (bad : bool) then Ok true
      else if samestring3 (kd_rawname kd) n1 n2 n3 || samestring3 (Some (kd_name kd)) n1 n2 n3 then Ok true
      else badnames_loop l n1 n2 n3 w
  end.

Definition badnames (n1 n2 n3 : option (list Z)) st : res bool :=
  _ ← assert (knowndevs_lock st);
  badnames_loop (knowndevs st) n1 n2 n3 (world st).

(** device.c: the address of the new vnode, if [kmalloc] gives one, and
    whether its lock can be created. *)
Definition dev_create_vnode (p : option Z) (lock_ok : bool) (dev : option Z) w : res (option Z * S) :=
  match p with
  | None => Ok (None, w)
  | Some v =>
      let '(result, vn) := vnode_init lock_ok (mk_vnode 0 0 false None None None) dev_vnode_ops None dev in
      if negb (result =? 0) then Panic else Ok (Some v, vn_store v vn w)
  end.

(** The answers of the allocations of [vfs_doadd]: the two names, the vnode
    and its lock, the entry, and its place in the array. *)
Record add_allocs : Type := mk_add_allocs {
  al_name : bool; al_rawname : bool; al_vnode : option Z; al_lock : bool; al_kd : bool; al_array : bool;
}.

Definition vfs_doadd (al : add_allocs) (dname : list Z) (mountable : bool) (dev fs : option Z) st : res (vfs S * Z) :=
  if negb (al_name al) then Ok (st, ENOMEM)
  else
    let name := dname in
    let rawname := if mountable then mkrawname (al_rawname al) name else None in
    if mountable && bool_decide (rawname = None) then Ok (st, ENOMEM)
    else
      '(vnode, w) ← dev_create_vnode (al_vnode al) (al_lock al) dev (world st);
      let st := set_world w st in
      match vnode with
      | None => Ok (st, ENOMEM)
      | Some vnode =>
          if negb (al_kd al) then Ok (set_world (vn_free vnode (world st)) st, ENOMEM)
          else
            let kd := mk_kd name rawname dev vnode fs in
            volname ← (match fs with Some fs => fsop_getvolname fs (world st) | None => Ok None end);
            st ← acquire_devs st;
            bad ← badnames (Some name) rawname volname st;
            let '(st, err) :=
              if negb bad then
                if al_array al then (set_devs (knowndevs st ++ [kd]) st, 0) else (st, ENOMEM)
              else (st, EEXIST) in
            st ← release_devs st;
            Ok (st, err)
      end.

Definition vfs_adddev (al : add_allocs) (devname : list Z) (dev : Z) (mountable : bool) st : res (vfs S * Z) :=
  vfs_doadd al devname mountable (Some dev) None st.

Definition vfs_addfs (al : add_allocs) (devname : list Z) (fs : Z) st : res (vfs S * Z) :=
  vfs_doadd al devname false None (Some fs) st.

(** The index of the device in the array. *)
Fixpoint findmount_loop (l : list knowndev) (i : nat) (devname : list Z) : option nat :=
  match l with
  | [] => None
  | kd :: l =>
      if bool_decide (kd_rawname kd = None) then findmount_loop l (i + 1)%nat devname
      else if str_eq devname (kd_name kd) then Some i
      else findmount_loop l (i + 1)%nat devname
  end.

Definition findmount (devname : list Z) st : res (Z * nat) :=
  _ ← assert (knowndevs_lock st);
  match findmount_loop (knowndevs st) 0 devname with
  | Some i => Ok (0, i)
  | None => Ok (ENODEV, 0%nat)
  end.

Definition get_kd (i : nat) st : res knowndev :=
  match knowndevs st !! i with Some kd => Ok kd | None => Undef end.

(** [mountfunc] makes a file system of a device: the error and the file
    system. *)
Definition vfs_mount (devname : list Z) (mountfunc : Z -> S -> res (Z * option Z * S)) st : res (vfs S * Z) :=
  st ← acquire_devs st;
  '(result, i) ← findmount devname st;
  '(st, result) ←
    (if negb (result =? 0) then Ok (st, result)
     else
       kd ← get_kd i st;
       if bool_decide (kd_fs kd <> None) then Ok (st, EBUSY)
       else
         _ ← assert (bool_decide (kd_rawname kd <> None));
         match kd_device kd with
         | None => Panic
         | Some dev =>
             '(result, fs, w) ← mountfunc dev (world st);
             let st := set_world w st in
             if negb (result =? 0) then Ok (st, result)
             else
               match fs with
               | None => Panic
               | Some fs =>
                   let st := set_devs (<[i := set_kd_fs (Some fs) kd]> (knowndevs st)) st in
                   _ ← fsop_getvolname fs (world st);
                   Ok (st, 0)
               end
         end);
  st ← release_devs st;
  Ok (st, result).

Definition vfs_unmount (devname : list Z) st : res (vfs S * Z) :=
  st ← acquire_devs st;
  '(result, i) ← findmount devname st;
  '(st, result) ←
    (if negb (result =? 0) then Ok (st, result)
     else
       kd ← get_kd i st;
       match kd_fs kd with
       | None => Ok (st, EINVAL)
       | Some fs =>
           _ ← assert (bool_decide (kd_rawname kd <> None));
           _ ← assert (bool_decide (kd_device kd <> None));
           '(result, w) ← fsop_sync fs (world st);
           let st := set_world w st in
           if negb (result =? 0) then Ok (st, result)
           else
             '(result, w) ← fsop_unmount fs (world st);
             let st := set_world w st in
             if negb (result =? 0) then Ok (st, result)
             else Ok (set_devs (<[i := set_kd_fs None kd]> (knowndevs st)) st, 0)
       end);
  st ← release_devs st;
  Ok (st, result).

(** One device of [vfs_unmountall]. *)
Definition unmount_one (kd : knowndev) w : res (knowndev * S) :=
  match kd_rawname kd, kd_fs kd with
  | Some _, Some fs =>
      '(result, w) ← fsop_sync fs w;
      '(result, w) ← (if negb (result =? 0) then fsop_sync fs w else Ok (result, w));
      if negb (result =? 0) then Ok (kd, w)
      else
        '(result, w) ← fsop_unmount fs w;
        if result =? EBUSY then Ok (kd, w)
        else if negb (result =? 0) then Ok (kd, w)
        else Ok (set_kd_fs None kd, w)
  | _, _ => Ok (kd, w)
  end.

Fixpoint unmountall_loop (l : list knowndev) w : res (list knowndev * S) :=
  match l with
  | [] => Ok ([], w)
  | kd :: l =>
      '(kd, w) ← unmount_one kd w;
      '(l, w) ← unmountall_loop l w;
      Ok (kd :: l, w)
  end.

Definition vfs_unmountall st : res (vfs S * Z) :=
  st ← acquire_devs st;
  '(l, w) ← unmountall_loop (knowndevs st) (world st);
  st ← release_devs (set_devs l (set_world w st));
  Ok (st, 0).

(** ** vfscwd.c, first part *)

Definition vfs_getcurdir st : res (vfs S * Z * Z) :=
  match t_cwd st with
  | Some v => st ← incref v st; Ok (st, 0, v)
  | None => Ok (st, ENOENT, 0)
  end.

Definition drop_old (old : option Z) st : res (vfs S) :=
  match old with Some v => decref v st | None => Ok st end.

Definition vfs_setcurdir (dir : Z) st : res (vfs S * Z) :=
  '(result, vtype) ← VOP dir st (vop_gettype dir);
  if negb (result =? 0) then Ok (st, result)
  else if negb (S_ISDIR vtype) then Ok (st, ENOTDIR)
  else
    let old := t_cwd st in
    st ← drop_old old (set_cwd (Some dir) st);
    Ok (st, 0).

Definition vfs_clearcurdir st : res (vfs S * Z) :=
  let old := t_cwd st in
  st ← drop_old old (set_cwd None st);
  Ok (st, 0).

(** ** vfslookup.c *)

Definition change_bootfs (newguy : option Z) st : res (vfs S) :=
  st ← acquire_bootfs st;
  let oldguy := bootfs_vnode st in
  st ← release_bootfs (set_bootfs newguy st);
  drop_old oldguy st.

Definition vfs_clearbootfs st : res (vfs S) := change_bootfs None st.

(** The first colon or slash, as [(colon, slash)]. *)
Fixpoint scan (path : list Z) (i : Z) : Z * Z :=
  match path with
  | [] => (-1, -1)
  | c :: path => if c =? 58 then (i, -1) else if c =? 47 then (-1, i) else scan path (i + 1)
  end.

Fixpoint skip_slashes (path : list Z) : list Z :=
  match path with
  | c :: path' => if c =? 47 then skip_slashes path' else path
  | [] => []
  end.

(** The error, the rest of the path, and the vnode to start from. *)
Definition getdevice (path : list Z) st : res (vfs S * Z * list Z * Z) :=
  let '(colon, slash) := scan path 0 in
  if (colon <? 0) && negb (slash =? 0) then
    '(st, result, vn) ← vfs_getcurdir st;
    Ok (st, result, path, vn)
  else if colon >? 0 then
    let devname := take (Z.to_nat colon) path in
    let subpath := skip_slashes (drop (Z.to_nat (colon + 1)) path) in
    '(st, result, vn) ← vfs_getroot devname st;
    Ok (st, result, subpath, vn)
  else
    _ ← assert ((colon =? 0) || (slash =? 0));
    '(st, result, vn) ←
      (if bool_decide (head path = Some 47) then
         st ← acquire_bootfs st;
         match bootfs_vnode st with
         | None => st ← release_bootfs st; Ok (st, ENOENT, 0)
         | Some v => st ← incref v st; st ← release_bootfs st; Ok (st, 0, v)
         end
       else
         _ ← assert (bool_decide (head path = Some 58));
         '(st, result, vn) ← vfs_getcurdir st;
         if negb (result =? 0) then Ok (st, result, 0)
         else
           v ← vn_deref vn (world st);
           match vn_fs v with
           | None => Panic
           | Some fs =>
               '(root, w) ← fsop_getroot fs (world st);
               st ← decref vn (set_world w st);
               Ok (st, 0, root)
           end);
    Ok (st, result, skip_slashes (tail path), vn).

(** The vnode of the parent and the last name, in a buffer of [buflen]. *)
Definition vfs_lookparent (path : list Z) (buflen : Z) st : res (vfs S * Z * Z * list Z) :=
  '(st, result, path, startvn) ← getdevice path st;
  if negb (result =? 0) then Ok (st, result, 0, [])
  else
    '(st, result, vn, name) ←
      (if Z.of_nat (length path) =? 0 then Ok (st, EINVAL, 0, [])
       else
         '(result, vn, name, w) ← VOP startvn st (vop_lookparent startvn path buflen);
         Ok (set_world w st, result, vn, name));
    st ← decref startvn st;
    Ok (st, result, vn, name).

Definition vfs_lookup (path : list Z) st : res (vfs S * Z * Z) :=
  '(st, result, path, startvn) ← getdevice path st;
  if negb (result =? 0) then Ok (st, result, 0)
  else if Z.of_nat (length path) =? 0 then Ok (st, 0, startvn)
  else
    '(result, vn, w) ← VOP startvn st (vop_lookup startvn path);
    st ← decref startvn (set_world w st);
    Ok (st, result, vn).

(** ** vfscwd.c, second part *)

Definition vfs_chdir (path : list Z) st : res (vfs S * Z) :=
  '(st, result, vn) ← vfs_lookup path st;
  if negb (result =? 0) then Ok (st, result)
  else
    '(st, result) ← vfs_setcurdir vn st;
    if negb (result =? 0) then st ← decref vn st; Ok (st, result) else Ok (st, result).

(** The user addresses that can be touched and the current address space are
    those of [uiomove]. *)
Definition vfs_getcwd (valid : Z -> bool) (curspace : option Z) (u : uio) st : res (vfs S * Z * uio) :=
  _ ← assert (negb (is_write u));
  '(st, result, cwd) ← vfs_getcurdir st;
  if negb (result =? 0) then Ok (st, result, u)
  else
    vn ← vn_deref cwd (world st);
    match vn_fs vn with
    | None => Panic
    | Some fs =>
        name ← fsop_getvolname fs (world st);
        '(st, name) ← (match name with
                       | Some name => Ok (st, Some name)
                       | None => vfs_getdevname fs st
                       end);
        match name with
        | None => Panic
        | Some name =>
            '(result, _, u) ← uiomove valid curspace name (Z.of_nat (length name)) u;
            '(st, result, u) ←
              (if negb (result =? 0) then Ok (st, result, u)
               else
                 '(result, _, u) ← uiomove valid curspace [58] 1 u;
                 if negb (result =? 0) then Ok (st, result, u)
                 else
                   '(result, u, w) ← VOP cwd st (vop_namefile cwd u);
                   Ok (set_world w st, result, u));
            st ← decref cwd st;
            Ok (st, result, u)
        end
    end.

(** vfslookup.c: the boot file system.  The directory that [vfs_setbootfs]
    changes to; [snprintf] keeps what fits. *)
Fixpoint strchr_colon (s : list Z) : option (list Z) :=
  match s with
  | [] => None
  | c :: s' => if c =? 58 then Some s else strchr_colon s'
  end.

Definition bootfs_path (fsname : list Z) : option (list Z) :=
  let tmp := take (Z.to_nat (NAME_MAX - 1)) fsname in
  match strchr_colon tmp with
  | Some s => if Z.of_nat (length s) >? 0 then None else Some tmp
  | None => Some (tmp ++ [58])
  end.

Definition vfs_setbootfs (fsname : list Z) st : res (vfs S * Z) :=
  match bootfs_path fsname with
  | None => Ok (st, EINVAL)
  | Some tmp =>
      '(st, result) ← vfs_chdir tmp st;
      if negb (result =? 0) then Ok (st, result)
      else
        '(st, result, newguy) ← vfs_getcurdir st;
        if negb (result =? 0) then Ok (st, result)
        else
          st ← change_bootfs (Some newguy) st;
          Ok (st, 0)
  end.

(** ** vfspath.c *)

Definition flag (flags f : Z) : bool := negb (Z.land flags f =? 0).

Definition vfs_open (path : list Z) (openflags : Z) st : res (vfs S * Z * Z) :=
  let how := Z.land openflags O_ACCMODE in
  if negb ((how =? O_RDONLY) || (how =? O_WRONLY) || (how =? O_RDWR)) then Ok (st, EINVAL, 0)
  else
    let canwrite := negb (how =? O_RDONLY) in
    '(st, result, vn) ←
      (if flag openflags O_CREAT then
         let excl := flag openflags O_EXCL in
         '(st, result, dir, name) ← vfs_lookparent path (NAME_MAX + 1) st;
         if negb (result =? 0) then Ok (st, result, 0)
         else
           '(result, vn, w) ← VOP dir st (vop_creat dir name excl);
           st ← decref dir (set_world w st);
           Ok (st, result, vn)
       else vfs_lookup path st);
    if negb (result =? 0) then Ok (st, result, 0)
    else
      _ ← assert (negb (vn =? 0));
      '(result, w) ← VOP vn st (vop_open vn openflags);
      let st := set_world w st in
      if negb (result =? 0) then st ← decref vn st; Ok (st, result, 0)
      else
        st ← incopen vn st;
        '(st, result) ←
          (if flag openflags O_TRUNC then
             if negb canwrite then Ok (st, EINVAL)
             else '(result, w) ← VOP vn st (vop_truncate vn 0); Ok (set_world w st, result)
           else Ok (st, 0));
        if negb (result =? 0) then
          st ← decopen vn st;
          st ← decref vn st;
          Ok (st, result, 0)
        else Ok (st, 0, vn).

Definition vfs_close (vn : Z) st : res (vfs S) :=
  st ← decopen vn st;
  decref vn st.

(** An operation on the parent directory and the name of a path. *)
Definition at_parent (path : list Z) (op : Z -> list Z -> S -> res (Z * S)) st : res (vfs S * Z) :=
  '(st, result, dir, name) ← vfs_lookparent path (NAME_MAX + 1) st;
  if negb (result =? 0) then Ok (st, result)
  else
    '(result, w) ← VOP dir st (op dir name);
    st ← decref dir (set_world w st);
    Ok (st, result).

Definition vfs_remove (path : list Z) st : res (vfs S * Z) := at_parent path vop_remove st.
Definition vfs_mkdir (path : list Z) st : res (vfs S * Z) := at_parent path vop_mkdir st.
Definition vfs_rmdir (path : list Z) st : res (vfs S * Z) := at_parent path vop_rmdir st.
Definition vfs_symlink (contents path : list Z) st : res (vfs S * Z) :=
  at_parent path (fun dir name => vop_symlink dir name contents) st.

(** [a->vn_fs==NULL || b->vn_fs==NULL || a->vn_fs!=b->vn_fs] *)
Definition other_fs (a b : Z) st : res bool :=
  va ← vn_deref a (world st);
  vb ← vn_deref b (world st);
  Ok (bool_decide (vn_fs va = None) || bool_decide (vn_fs vb = None) || negb (bool_decide (vn_fs va = vn_fs vb))).

Definition vfs_rename (oldpath newpath : list Z) st : res (vfs S * Z) :=
  '(st, result, olddir, oldname) ← vfs_lookparent oldpath (NAME_MAX + 1) st;
  if negb (result =? 0) then Ok (st, result)
  else
    '(st, result, newdir, newname) ← vfs_lookparent newpath (NAME_MAX + 1) st;
    if negb (result =? 0) then st ← decref olddir st; Ok (st, result)
    else
      bad ← other_fs olddir newdir st;
      if (bad : bool) then
        st ← decref newdir st;
        st ← decref olddir st;
        Ok (st, EXDEV)
      else
        '(result, w) ← VOP olddir st (vop_rename olddir oldname newdir newname);
        st ← decref newdir (set_world w st);
        st ← decref olddir st;
        Ok (st, result).

Definition vfs_link (oldpath newpath : list Z) st : res (vfs S * Z) :=
  '(st, result, oldfile) ← vfs_lookup oldpath st;
  if negb (result =? 0) then Ok (st, result)
  else
    '(st, result, newdir, newname) ← vfs_lookparent newpath (NAME_MAX + 1) st;
    if negb (result =? 0) then st ← decref oldfile st; Ok (st, result)
    else
      bad ← other_fs oldfile newdir st;
      if (bad : bool) then
        st ← decref newdir st;
        st ← decref oldfile st;
        Ok (st, EXDEV)
      else
        '(result, w) ← VOP newdir st (vop_link newdir newname oldfile);
        st ← decref newdir (set_world w st);
        st ← decref oldfile st;
        Ok (st, result).

Definition vfs_readlink (path : list Z) (u : uio) st : res (vfs S * Z * uio) :=
  '(st, result, vn) ← vfs_lookup path st;
  if negb (result =? 0) then Ok (st, result, u)
  else
    '(result, u, w) ← VOP vn st (vop_readlink vn u);
    st ← decref vn (set_world w st);
    Ok (st, result, u).
End vfs.
