(* ===== verification/Menu.v ===== *)
(** * kern/main/menu.c: the kernel's command line

    The line is a buffer of characters that strtok_r() cuts up in place, once
    for the commands and once more, in the same buffer, for the words of each
    command.  What a command does with its arguments is a function of the
    words; it may write into them, which is [scribble].  The rest of the
    kernel is the interface [MenuEnv].  The kernel has SFS (OPT_SFS); what the
    commands print is left out. *)
From Stdlib Require Import Ascii String.
From stdpp Require Import base numbers list option.
From S2P Require Import Prelude Libc Uio Console Tty Device Vnode Vfs.
Local Open Scope Z_scope.

Definition chars (s : string) : list Z := (fun a => Z.of_nat (nat_of_ascii a)) <$> list_ascii_of_string s.

Definition E2BIG : Z := 25.
Definition MAXMENUARGS : nat := 16.
(** What separates words. *)
Definition blanks : list Z := [32; 9].

(** The time between two clock readings. *)
Definition getinterval (s1 ns1 s2 ns2 : Z) : Z * Z :=
  let '(s2, ns2) := if ns2 <? ns1 then (i32 (s2 - 1), u32 (ns2 + 1000000000)) else (s2, ns2) in
  (i32 (s2 - s1), u32 (ns2 - ns1)).

(** What the commands call: each gives an error code.  [m_fork] starts
    [cmd_progthread] with the address of the arguments, and is given the
    strings that are there at that time; the array is on the stack of
    [cmd_dispatch] and the strings in the line buffer, so that the thread may
    find others when it runs (the race of the comment before [common_prog]).
    [m_test] is a test of kern/test or kern/asst1, by its name in the table. *)
Class MenuEnv (W : Type) : Type := {
  m_chdir (path : list Z) (w : W) : res (Z * W);
  m_getcwd (w : W) : res (Z * W);
  m_sync (w : W) : res (Z * W);
  m_mount (device : list Z) (w : W) : res (Z * W);
  m_unmount (device : list Z) (w : W) : res (Z * W);
  m_setbootfs (device : list Z) (w : W) : res (Z * W);
  m_poweroff (w : W) : res W;
  m_fork (args : list (list Z)) (w : W) : res (Z * W);
  m_test (name : list Z) (args : list (list Z)) (w : W) : res (Z * W);
}.

(** A command returns a result, or the machine is switched off. *)
Inductive outcome : Type := Returns (result : Z) | Off.

Inductive command : Type :=
  | cmd_menu (* cmd_mainmenu, cmd_opsmenu and cmd_testmenu, which only print *)
  | cmd_shell | cmd_prog | cmd_mount | cmd_unmount | cmd_bootfs | cmd_chdir | cmd_pwd | cmd_sync | cmd_panic | cmd_quit
  | cmd_kheapstats | test (name : list Z).

Section menu.
Context {W : Type} `{!MenuEnv W}.
Implicit Types (w : W) (args : list (list Z)).

Definition returns (r : res (Z * W)) : res (outcome * W) := '(e, w) ← r; Ok (Returns e, w).

(** The device name without the colon that it may end in. *)
Definition device_name (device : list Z) : res (list Z) :=
  c ← load device (Z.of_nat (length device) - 1);
  Ok (if c =? 58 then take (length device - 1) device else device).

(** [cmd_progthread] up to the call of [runprogram]: whether it warns that
    arguments are not passed on, and the program's name. *)
Definition cmd_progthread args : res (bool * list Z) :=
  let nargs := Z.of_nat (length args) in
  match args with
  | [] => Panic
  | progname :: _ =>
      let warning := nargs >? 2 in
      _ ← assert (Z.of_nat (length progname) <? 128);
      Ok (warning, progname)
  end.

Definition common_prog args w : res (Z * W) := m_fork args w.

Definition run_command (c : command) args w : res (outcome * W) :=
  match c, args with
  | cmd_menu, _ => Ok (Returns 0, w)
  | cmd_kheapstats, _ => Ok (Returns 0, w)
  | cmd_prog, _ :: ((_ :: _) as args) => returns (common_prog args w)
  | cmd_prog, _ => Ok (Returns EINVAL, w)
  | cmd_shell, [_] => returns (common_prog [chars "/bin/sh"] w)
  | cmd_shell, _ => Ok (Returns EINVAL, w)
  | cmd_chdir, [_; dir] => returns (m_chdir dir w)
  | cmd_chdir, _ => Ok (Returns EINVAL, w)
  | cmd_pwd, _ => returns (m_getcwd w)
  | cmd_sync, _ => '(_, w) ← m_sync w; Ok (Returns 0, w)
  | cmd_panic, _ => Panic
  | cmd_quit, _ => '(_, w) ← m_sync w; w ← m_poweroff w; Ok (Off, w)
  | cmd_mount, [_; fstype; device] =>
      device ← device_name device;
      if bool_decide (fstype = chars "sfs") then returns (m_mount device w) else Ok (Returns EINVAL, w)
  | cmd_mount, _ => Ok (Returns EINVAL, w)
  | cmd_unmount, [_; device] => device ← device_name device; returns (m_unmount device w)
  | cmd_unmount, _ => Ok (Returns EINVAL, w)
  | cmd_bootfs, [_; device] => device ← device_name device; returns (m_setbootfs device w)
  | cmd_bootfs, _ => Ok (Returns EINVAL, w)
  | test name, args => returns (m_test name args w)
  end.

Variables OPT_SYNCHPROBS OPT_NET : bool.

Definition cmdtable : list (list Z * command) :=
  [(chars "?", cmd_menu); (chars "h", cmd_menu); (chars "help", cmd_menu); (chars "?o", cmd_menu); (chars "?t", cmd_menu);
   (chars "s", cmd_shell); (chars "p", cmd_prog); (chars "mount", cmd_mount); (chars "unmount", cmd_unmount); (chars "bootfs", cmd_bootfs);
   (chars "pf", test (chars "printfile")); (chars "cd", cmd_chdir); (chars "pwd", cmd_pwd); (chars "sync", cmd_sync); (chars "panic", cmd_panic);
   (chars "q", cmd_quit); (chars "exit", cmd_quit); (chars "halt", cmd_quit)] ++
  (if OPT_SYNCHPROBS then [(chars "1a", test (chars "catmousesem")); (chars "1b", test (chars "catmouselock")); (chars "1c", test (chars "createcars"))] else []) ++
  [(chars "kh", cmd_kheapstats); (chars "at", test (chars "arraytest")); (chars "bt", test (chars "bitmaptest")); (chars "qt", test (chars "queuetest"));
   (chars "km1", test (chars "malloctest")); (chars "km2", test (chars "mallocstress"))] ++
  (if OPT_NET then [(chars "net", test (chars "nettest"))] else []) ++
  [(chars "tt1", test (chars "threadtest")); (chars "tt2", test (chars "threadtest2")); (chars "tt3", test (chars "threadtest3"));
   (chars "sy1", test (chars "semtest")); (chars "sy2", test (chars "locktest")); (chars "sy3", test (chars "cvtest"));
   (chars "fs1", test (chars "fstest")); (chars "fs2", test (chars "readstress")); (chars "fs3", test (chars "writestress"));
   (chars "fs4", test (chars "writestress2")); (chars "fs5", test (chars "createstress")); (chars "pmst", test (chars "sampletest"));
   (chars "pmfb", test (chars "forkbomb")); (chars "pmpn", test (chars "procnum"))].

(** ** Splitting and dispatching *)

(** What a command leaves in the buffer [s] that its arguments, at [args],
    are in. *)
Variable scribble : list Z -> list Z -> list Z.

(** The loop that collects the words: [None] when there are too many. *)
Fixpoint split_words (fuel : nat) (s : list Z) (string context : option Z) (args : list Z) : res (option (list Z) * list Z) :=
  match fuel with
  | O => Fuel
  | S fuel =>
      '(word, context, s) ← strtok_r s string (blanks ++ [0]) context;
      match word with
      | None => Ok (Some args, s)
      | Some word => if (MAXMENUARGS <=? length args)%nat then Ok (None, s) else split_words fuel s None context (args ++ [word])
      end
  end.

(** The loop over the table. *)
Fixpoint find_command (table : list (list Z * command)) (name : list Z) : res (option command) :=
  match table with
  | [] => Ok None
  | (n, c) :: table =>
      if negb (bool_decide (n = [])) then
        r ← strcmp name (n ++ [0]);
        if r =? 0 then Ok (Some c) else find_command table name
      else find_command table name
  end.

(** The command at [cmd] in the buffer. *)
Definition cmd_dispatch (s : list Z) (cmd : Z) w : res (outcome * list Z * W) :=
  '(args, s) ← split_words (S (S (length s))) s (Some cmd) None [];
  match args with
  | None => Ok (Returns E2BIG, s, w)
  | Some [] => Ok (Returns 0, s, w)
  | Some ((name :: _) as args) =>
      c ← find_command cmdtable (drop (Z.to_nat name) s);
      match c with
      | None => Ok (Returns EINVAL, s, w)
      | Some c =>
          '(out, w) ← run_command c ((fun p => cstring (drop (Z.to_nat p) s)) <$> args) w;
          Ok (out, scribble s args, w)
      end
  end.

(** [true] when the machine is still on. *)
Fixpoint execute_loop (fuel : nat) (s : list Z) (string context : option Z) (isargs : bool) w : res (bool * W) :=
  match fuel with
  | O => Fuel
  | S fuel =>
      '(command, context, s) ← strtok_r s string [59; 0] context;
      match command with
      | None => Ok (true, w)
      | Some command =>
          '(out, s, w) ← cmd_dispatch s command w;
          match out with
          | Off => Ok (false, w)
          | Returns result => if negb (result =? 0) && isargs then Panic else execute_loop fuel s None context isargs w
          end
      end
  end.

Definition menu_execute (line : list Z) (isargs : bool) w : res (bool * W) :=
  execute_loop (S (S (length line))) line (Some 0) None isargs w.

(** One round of the loop of menu(): the prompt, a line, its commands. *)
Definition menu_round `{!Terminal W} (fuel : nat) (buf : list Z) w : res (bool * W) :=
  w ← putchs (chars "OS/161 kernel [? for menu]: ") w;
  '(buf, w) ← kgets fuel buf 64 w;
  menu_execute buf false w.
End menu.


(** ** Strings in a buffer that changes elsewhere *)

(** The buffers differ only at indices from [lo] up to [hi]. *)
Definition agree (s s' : list Z) (lo hi : Z) : Prop :=
  length s' = length s /\ forall i : nat, ~ (lo <= Z.of_nat i < hi) -> s' !! i = s !! i.

Lemma agree_refl s lo hi : agree s s lo hi.
Proof. done. Qed.
Lemma agree_trans s s1 s2 lo hi : agree s s1 lo hi -> agree s1 s2 lo hi -> agree s s2 lo hi.
Proof. intros [L1 H1] [L2 H2]. split; [congruence|]. intros i Hi. by rewrite H2, H1. Qed.
Lemma agree_wider s s' lo hi lo' hi' : agree s s' lo hi -> lo' <= lo -> hi <= hi' -> agree s s' lo' hi'.
Proof. intros [L H] ? ?. split; [done|]. intros i Hi. apply H. lia. Qed.
Lemma agree_insert s i lo hi : lo <= Z.of_nat i < hi -> agree s (<[i := 0]> s) lo hi.
Proof. intros Hi. split; [apply length_insert|]. intros j Hj. apply list_lookup_insert_ne. lia. Qed.

Lemma str_at_agree s s' lo hi p l : agree s s' lo hi -> str_at s p l -> p + Z.of_nat (length l) < lo \/ hi <= p -> str_at s' p l.
Proof.
  intros [L H] (Hp & H0 & rest & E) Hd. split; [done|]. split; [done|].
  assert (take (S (length l)) (drop (Z.to_nat p) s') = l ++ [0]) as Ht.
  { transitivity (take (S (length l)) (drop (Z.to_nat p) s)).
    - apply list_eq. intros i. destruct (decide (i < S (length l))%nat) as [Hi|Hi]; [|by rewrite !lookup_take_ge by lia].
      rewrite !lookup_take_lt, !lookup_drop by lia. apply H. lia.
    - rewrite E, <- (Nat.add_1_r (length l)), take_app_add. done. }
  exists (drop (S (length l)) (drop (Z.to_nat p) s')). rewrite <- (take_drop (S (length l)) (drop (Z.to_nat p) s')) at 1. rewrite Ht, <- app_assoc. done.
Qed.

Lemma str_at_drop s p l : str_at s p l -> str_at (drop (Z.to_nat p) s) 0 l.
Proof. intros (Hp & H0 & rest & E). split; [done|]. split; [done|]. exists rest. by rewrite drop_0, E. Qed.

(** ** What a line does *)

Section spec.
Context {W : Type} {ME : MenuEnv W}.
Variables OPT_SYNCHPROBS OPT_NET : bool.
Implicit Types (w : W).

Definition command_named (name : list Z) : option command :=
  (fun e => (e.2).2) <$> list_find (fun e => e.1 = name) (cmdtable OPT_SYNCHPROBS OPT_NET).

(** One command: its words, looked up in the table. *)
Definition dispatch (cmd : list Z) w : res (outcome * W) :=
  let ws := words blanks cmd in
  if (MAXMENUARGS <? length ws)%nat then Ok (Returns E2BIG, w)
  else
    match ws with
    | [] => Ok (Returns 0, w)
    | name :: _ => match command_named name with None => Ok (Returns EINVAL, w) | Some c => run_command c ws w end
    end.

(** The commands of a line, one after the other. *)
Fixpoint execute (cmds : list (list Z)) (isargs : bool) w : res (bool * W) :=
  match cmds with
  | [] => Ok (true, w)
  | cmd :: cmds =>
      '(out, w) ← dispatch cmd w;
      match out with
      | Off => Ok (false, w)
      | Returns result => if negb (result =? 0) && isargs then Panic else execute cmds isargs w
      end
  end.

(** A command writes only into its arguments. *)
Definition scribble_ok (scribble : list Z -> list Z -> list Z) : Prop :=
  forall s args ws lo hi, Forall2 (fun p l => str_at s p l /\ lo <= p /\ p + Z.of_nat (length l) <= hi) args ws -> agree s (scribble s args) lo hi.

Lemma split_spec fuel : forall l s p string context args,
  str_at s p l -> match string with Some q => q = p | None => context = Some p end -> (length l < fuel)%nat -> (length args <= MAXMENUARGS)%nat ->
  exists s', agree s s' p (p + Z.of_nat (length l)) /\
    if (MAXMENUARGS <? length args + length (words blanks l))%nat then split_words fuel s string context args = Ok (None, s')
    else exists args', split_words fuel s string context args = Ok (Some (args ++ args'), s') /\
      Forall2 (fun q v => str_at s' q v /\ p <= q /\ q + Z.of_nat (length v) <= p + Z.of_nat (length l)) args' (words blanks l).
Proof.
  induction fuel as [|fuel IH]; intros l s p string context args Hs Hc Hf Ha; [lia|]. cbn [split_words]. assert (str_at (blanks ++ [0]) 0 blanks) as Hsep.
  { apply (str_at_start blanks []). by apply (bool_decide_unpack _). }
  destruct (strtok_r_spec s p _ _ l string context Hsep Hs Hc) as [[-> ->]|[(h & w & Hne & -> & -> & Hw & Hh & Hl)|(h & t & w & rest & s1 & -> & Hl & -> & Hw & Hr & Hh & Ht & Hle & Hs1)]]; rewrite bind_Ok.
  - exists s. split; [done|]. rewrite Nat.add_0_r. destruct (Nat.ltb_spec MAXMENUARGS (length args)); [lia|]. exists []. by rewrite app_nil_r.
  - exists s. split; [done|]. cbn [length]. destruct (Nat.leb_spec MAXMENUARGS (length args)), (Nat.ltb_spec MAXMENUARGS (length args + 1)); try lia; [done|].
    destruct fuel as [|fuel]; [destruct l; [done|cbn in Hf; lia]|]. exists [h]. split; [done|]. constructor; [|constructor]. split; [done|lia].
  - assert (agree s s1 p (p + Z.of_nat (length l))) as Hag.
    { rewrite Hs1. apply agree_insert. destruct Hs as (Hp & _). lia. }
    cbn [length]. destruct (Nat.leb_spec MAXMENUARGS (length args)) as [Hfull|Hroom].
    { exists s1. split; [done|]. destruct (Nat.ltb_spec MAXMENUARGS (length args + S (length (words blanks rest)))); [done|lia]. }
    destruct (IH rest s1 t None (Some t) (args ++ [h])) as (s2 & Hag2 & Hres); [done|done|lia|rewrite length_app; cbn; lia|]. exists s2.
    assert (agree s s2 p (p + Z.of_nat (length l))) as Hag' by (eapply agree_trans; [done|]; eapply agree_wider; [done|lia|lia]). split; [done|].
    rewrite length_app in Hres. cbn [length] in Hres. replace (length args + S (length (words blanks rest)))%nat with (length args + 1 + length (words blanks rest))%nat by lia.
    destruct (_ <? _)%nat; [done|]. destruct Hres as (args' & -> & Hall). exists (h :: args'). split; [by rewrite <- app_assoc|]. constructor.
    + split; [apply (str_at_agree s1 s2 t (t + Z.of_nat (length rest))); [done|done|lia]|lia].
    + eapply Forall2_impl; [|exact Hall]. intros q v (H1 & H2 & H3). split; [done|lia].
Qed.


Lemma find_command_spec table s name : str_at s 0 name -> Forall (fun e => e.1 <> [] /\ (0 ∉ e.1)) table ->
  find_command table s = Ok ((fun e : nat * (list Z * command) => (e.2).2) <$> list_find (fun e => e.1 = name) table).
Proof.
  intros Hs Ht. induction Ht as [|[n c] table [Hne H0] Ht IH]; [done|]. cbn [find_command]. rewrite bool_decide_false by done. cbn [negb].
  rewrite (strcmp_spec s (n ++ [0]) name n) by (done || by apply (str_at_start n [])). rewrite bind_Ok. cbn [list_find]. destruct (Z.eqb_spec (str_compare name n) 0) as [E|E].
  - apply str_compare_eq in E. by rewrite decide_True.
  - rewrite decide_False by (intros Hn; apply E; apply str_compare_eq; by symmetry). rewrite IH. by destruct (list_find _ table) as [[]|].
Qed.

Lemma table_names : Forall (fun e => e.1 <> [] /\ (0 ∉ e.1)) (cmdtable OPT_SYNCHPROBS OPT_NET).
Proof. apply (bool_decide_unpack _). by destruct OPT_SYNCHPROBS, OPT_NET; vm_compute. Qed.

Lemma args_strings s args ws : Forall2 (str_at s) args ws -> (fun p => cstring (drop (Z.to_nat p) s)) <$> args = ws.
Proof. intros H. induction H as [|p l args ws Hp _ IH]; [done|]. cbn. by rewrite IH, (cstring_at _ _ _ Hp). Qed.

Variable scribble : list Z -> list Z -> list Z.
Hypothesis Hscribble : scribble_ok scribble.

Lemma dispatch_spec s p l w : str_at s p l ->
  exists s', agree s s' p (p + Z.of_nat (length l)) /\
    cmd_dispatch OPT_SYNCHPROBS OPT_NET scribble s p w = ('(out, w) ← dispatch l w; Ok (out, s', w)).
Proof.
  intros Hs. pose proof (str_at_length _ _ _ Hs). destruct (split_spec (S (S (length s))) l s p (Some p) None []) as (s1 & Hag & Hsp); [done|done|lia|cbn; unfold MAXMENUARGS; lia|].
  unfold cmd_dispatch, dispatch. cbn [length Nat.add app] in Hsp. destruct (MAXMENUARGS <? length (words blanks l))%nat.
  { exists s1. split; [done|]. by rewrite Hsp, !bind_Ok. }
  destruct Hsp as (args & E & Hall). rewrite E, bind_Ok.
  assert (Forall2 (str_at s1) args (words blanks l)) as Hstr by (eapply Forall2_impl; [|exact Hall]; intros q v Hq; apply Hq).
  pose proof (Hscribble s1 args _ p (p + Z.of_nat (length l)) Hall) as Hag2. destruct (words blanks l) as [|name ws] eqn:Hws.
  { apply Forall2_nil_inv_r in Hstr as ->. exists s1. by rewrite bind_Ok. }
  destruct args as [|a args]; [by apply Forall2_nil_inv_l in Hstr|]. pose proof (Forall2_cons_1 _ _ _ _ _ Hstr) as [Ha _].
  rewrite (find_command_spec _ _ name (str_at_drop _ _ _ Ha) table_names), bind_Ok. fold (command_named name). destruct (command_named name) as [c|]; [|exists s1; by rewrite bind_Ok].
  rewrite (args_strings _ _ _ Hstr). exists (scribble s1 (a :: args)). split; [by eapply agree_trans|]. done.
Qed.

Lemma execute_spec isargs fuel : forall l s p string context w,
  str_at s p l -> match string with Some q => q = p | None => context = Some p end -> (S (length l) < fuel)%nat ->
  execute_loop OPT_SYNCHPROBS OPT_NET scribble fuel s string context isargs w = execute (words [59] l) isargs w.
Proof.
  induction fuel as [|fuel IH]; intros l s p string context w Hs Hc Hf; [lia|]. cbn [execute_loop]. assert (str_at [59; 0] 0 [59]) as Hsep.
  { apply (str_at_start [59] []). by apply (bool_decide_unpack _). }
  destruct (strtok_r_spec s p _ _ l string context Hsep Hs Hc) as [[-> ->]|[(h & v & Hne & -> & -> & Hv & Hh & Hl)|(h & t & v & rest & s1 & -> & Hl & -> & Hv & Hr & Hh & Ht & Hle & _)]]; rewrite bind_Ok.
  - done.
  - destruct (dispatch_spec s h v w Hv) as (s2 & _ & ->). cbn [execute]. destruct (dispatch v w) as [[out w']| | |]; rewrite ?bind_Ok; try done. destruct out as [r|]; [|done].
    destruct (negb (r =? 0) && isargs); [done|]. by destruct fuel as [|fuel]; [lia|].
  - destruct (dispatch_spec s1 h v w Hv) as (s2 & Hag & ->). cbn [execute]. destruct (dispatch v w) as [[out w']| | |]; rewrite ?bind_Ok; try done. destruct out as [r|]; [|done].
    destruct (negb (r =? 0) && isargs); [done|]. apply (IH rest s2 t); [|done|lia]. apply (str_at_agree s1 s2 h (h + Z.of_nat (length v))); [done|done|lia].
Qed.

Lemma menu_execute_spec line rest isargs w : (0 ∉ line) ->
  menu_execute OPT_SYNCHPROBS OPT_NET scribble (line ++ 0 :: rest) isargs w = execute (words [59] line) isargs w.
Proof. intros H0. unfold menu_execute. apply (execute_spec _ _ line _ 0); [by apply str_at_start|done|]. rewrite length_app. cbn. lia. Qed.
End spec.

(** ** Details *)

(** The interval is the difference of the times, when the clock did not go
    back; the seconds are of 32 bits. *)
Lemma getinterval_exact s1 ns1 s2 ns2 :
  0 <= ns1 < 1000000000 -> 0 <= ns2 < 1000000000 -> 0 <= s1 <= s2 -> s2 < 2147483648 -> s1 * 1000000000 + ns1 <= s2 * 1000000000 + ns2 ->
  let '(rs, rns) := getinterval s1 ns1 s2 ns2 in
  rs * 1000000000 + rns = (s2 * 1000000000 + ns2) - (s1 * 1000000000 + ns1) /\ 0 <= rns < 1000000000 /\ 0 <= rs.
Proof. intros. unfold getinterval. destruct (Z.ltb_spec ns2 ns1); nowrap; lia. Qed.

(** A program that is given one argument does not get it, and there is no
    warning. *)
Lemma one_argument_no_warning prog arg : (length prog < 128)%nat -> cmd_progthread [prog; arg] = Ok (false, prog).
Proof. intros Hl. unfold cmd_progthread. cbn [length]. destruct (Z.ltb_spec (Z.of_nat (length prog)) 128); [done|lia]. Qed.

(** C21. The menu does what the line says.  A line is cut at semicolons into
    commands and each command at blanks into words, in place and in the same
    buffer, and the commands run in order, each with exactly its words, found
    in the table by name; too many words and unknown commands are errors, an
    error on the kernel's own command line is a panic, and nothing runs after
    the machine was switched off.  Typed at the prompt, the line is the one
    that kgets() returns, and the next line stays for the next round. *)
Theorem menu_exact {W : Type} {ME : MenuEnv W} {TW : Terminal W} {TL : TerminalLaws W} synchprobs net scribble :
  scribble_ok scribble ->
  (forall line rest isargs (w : W), (0 ∉ line) ->
     menu_execute synchprobs net scribble (line ++ 0 :: rest) isargs w = execute synchprobs net (words [59] line) isargs w) /\
  (forall buf (w : W) seen out rest fuel, tty_ok w -> length buf = 64%nat -> typed_line 64 [] (keys w) = Some (seen, out, rest) -> (length (keys w) <= fuel)%nat ->
     exists w', tty_ok w' /\ keys w' = rest /\ menu_round synchprobs net scribble fuel buf w = execute synchprobs net (words [59] out) false w').
Proof.
  intros Hsc. split; [by apply menu_execute_spec|].
  intros buf w seen out rest fuel Hok Hb Ht Hf. unfold menu_round. destruct (putchs_spec (chars "OS/161 kernel [? for menu]: ") w Hok) as (w1 & -> & Hok1 & Hk1 & _). rewrite bind_Ok.
  destruct (kgets_line 64 buf w1 seen out rest fuel) as (w2 & buf2 & -> & (r & ->) & H0 & Hok2 & Hk2); [done|lia|lia|by rewrite Hk1|by rewrite Hk1|]. rewrite bind_Ok.
  exists w2. split; [done|]. split; [done|]. by apply menu_execute_spec.
Qed.
