(* ===== verification/VfsSpec.v ===== *)
(** * The reference counts of the VFS

    Every vnode that the VFS hands out, keeps as the current directory, boot
    file system or device, or uses on the way is counted in the vnode's
    reference count.  The counts balance: on every path of every operation,
    failures included, the references left are those the caller was given. *)
From stdpp Require Import base numbers list option gmap gmultiset.
From S2P Require Import Prelude Uio Vnode Vfs.
Local Open Scope Z_scope.

(** A reference: the vnode and the file system it belongs to. *)
Abbreviation ref := (Z * option Z)%type.

(** The vnodes of references, each as often as it is referenced. *)
Definition vnodes (T : gmultiset ref) : gmultiset Z := gmultiset_map fst T.

Lemma vnodes_add T v f : vnodes (T ⊎ {[+ (v, f) +]}) = vnodes T ⊎ {[+ v +]}.
Proof. unfold vnodes. by rewrite gmultiset_map_disj_union, gmultiset_map_singleton. Qed.

Lemma elem_of_vnodes T v : v ∈ vnodes T <-> exists f, (v, f) ∈ T.
Proof.
  unfold vnodes. rewrite elem_of_gmultiset_map. split; [intros ([v' f] & -> & Hv); by exists f|intros [f Hv]; by exists (v, f)].
Qed.

Lemma vnodes_mono T U : T ⊆ U -> vnodes T ⊆ vnodes U.
Proof.
  intros HTU. rewrite (gmultiset_disj_union_difference T U) by done. unfold vnodes. rewrite gmultiset_map_disj_union. multiset_solver.
Qed.

Lemma vnodes_size T v : (multiplicity v (vnodes T) <= size T)%nat.
Proof.
  induction T as [|[x f] T IH] using gmultiset_ind; [unfold vnodes; rewrite gmultiset_map_empty, multiplicity_empty; lia|].
  rewrite gmultiset_disj_union_comm, vnodes_add, multiplicity_disj_union, gmultiset_size_disj_union, gmultiset_size_singleton.
  rewrite multiplicity_singleton. case_decide; lia.
Qed.

Lemma in_vnodes T v f : (v, f) ∈ T -> (0 < multiplicity v (vnodes T))%nat.
Proof. intros Hv. apply (elem_of_multiplicity v (vnodes T)). apply elem_of_vnodes. by exists f. Qed.

(** One more of a vnode. *)
Lemma mult_add T v f x : multiplicity x (vnodes (T ⊎ {[+ (v, f) +]})) = (multiplicity x (vnodes T) + if decide (x = v) then 1 else 0)%nat.
Proof. by rewrite vnodes_add, multiplicity_disj_union, multiplicity_singleton. Qed.

Lemma in_add (T : gmultiset ref) (t : ref) v f : t ∈ T ⊎ {[+ (v, f) +]} -> t = (v, f) \/ t ∈ T.
Proof. rewrite gmultiset_elem_of_disj_union, gmultiset_elem_of_singleton. tauto. Qed.

(** Reference counts are of 32 bits: there is room for one more reference,
    besides one that a file system keeps. *)
Definition max_refs : Z := 2147483646.
Definition room (T : gmultiset ref) : Prop := Z.of_nat (size T) < max_refs.

(** ** What file systems and devices promise

    [refs w T O F]: in the world [w], the references [T] and the opens [O] are
    outstanding and the file systems [F] are mounted.  An operation that hands
    back a vnode hands back a reference to it, and no other operation changes
    the references; a reference can be dropped unless it is one that an open
    file needs.  An operation that takes references finds room for one.
    [own] are the vnodes to which a file system keeps a reference, not more
    than one for each; it is not in [T].  [dev_known] are the devices that a
    driver has set up. *)
Class VfsLaws (S : Type) `{VfsOps S} := {
  refs : S -> gmultiset ref -> gmultiset ref -> gset Z -> Prop;
  own : S -> gset Z;
  refs_own w T O F : refs w T O F -> (size (own w) <= size F)%nat;
  refs_vnode w T O F v f : refs w T O F -> (v, f) ∈ T -> v <> 0 /\
    exists vn, vn_lookup v w = Some vn /\ vnode_check false vn = Ok tt /\ vn_fs vn = f /\ (forall x, f = Some x -> x ∈ F) /\
      vn_refcount vn = Z.of_nat (multiplicity v (vnodes T) + if decide (v ∈ own w) then 1 else 0) /\ vn_opencount vn = Z.of_nat (multiplicity v (vnodes O));
  refs_incref w T O F v f : refs w T O F -> room T -> (v, f) ∈ T -> ok_with (vnode_incref v w) (fun w' => refs w' (T ⊎ {[+ (v, f) +]}) O F);
  refs_decref w T O F v f : refs w (T ⊎ {[+ (v, f) +]}) O F -> O ⊆ T -> ok_with (vnode_decref v w) (fun w' => refs w' T O F);
  refs_incopen w T O F v f : refs w T O F -> O ⊎ {[+ (v, f) +]} ⊆ T -> ok_with (vnode_incopen v w) (fun w' => refs w' T (O ⊎ {[+ (v, f) +]}) F);
  refs_decopen w T O F v f : refs w T (O ⊎ {[+ (v, f) +]}) F -> ok_with (vnode_decopen v w) (fun w' => refs w' T O F);
  dev_known : Z -> Prop;
  refs_device w T O F p dev : refs w T O F -> room T -> dev_known dev -> p <> 0 -> vn_lookup p w = None ->
    refs (vn_store p (mk_vnode 1 0 true None (Some dev) (Some dev_vnode_ops)) w) (T ⊎ {[+ (p, None) +]}) O F;
  refs_nodevice w T O F p : refs w T O F -> p <> 0 -> vn_lookup p w = None ->
    refs (vn_store p (mk_vnode 1 0 true None None (Some dev_vnode_ops)) w) T O F;
  refs_unused w T O F p vn : refs w T O F -> vn_lookup p w = None -> refs (vn_free p (vn_store p vn w)) T O F;
  free_gone w p : vn_lookup p (vn_free p w) = None;
  refs_fs w T O F x : refs w T O F -> x ∈ F -> x <> 0;
  refs_getvolname w T O F x : refs w T O F -> x ∈ F -> ok_with (fsop_getvolname x w) (fun _ => True);
  refs_getroot w T O F x : refs w T O F -> room T -> x ∈ F -> ok_with (fsop_getroot x w) (fun '(v, w') => exists f, refs w' (T ⊎ {[+ (v, f) +]}) O F);
  refs_sync w T O F x : refs w T O F -> x ∈ F -> ok_with (fsop_sync x w) (fun '(_, w') => refs w' T O F);
  refs_unmount w T O F x : refs w T O F -> x ∈ F ->
    ok_with (fsop_unmount x w) (fun '(e, w') => refs w' T O (if e =? 0 then F ∖ {[x]} else F));
  refs_gettype w T O F v f : refs w T O F -> room T -> (v, f) ∈ T -> ok_with (vop_gettype v w) (fun '(e, t) => e = 0 -> S_ISDIR t = true -> f <> None);
  refs_open w T O F v f fl : refs w T O F -> room T -> (v, f) ∈ T -> ok_with (vop_open v fl w) (fun '(_, w') => refs w' T O F);
  refs_truncate w T O F v f n : refs w T O F -> room T -> (v, f) ∈ T -> ok_with (vop_truncate v n w) (fun '(_, w') => refs w' T O F);
  refs_readlink w T O F v f u : refs w T O F -> room T -> (v, f) ∈ T -> ok_with (vop_readlink v u w) (fun '(_, _, w') => refs w' T O F);
  refs_namefile w T O F v f u : refs w T O F -> room T -> (v, f) ∈ T -> ok_with (vop_namefile v u w) (fun '(_, _, w') => refs w' T O F);
  refs_creat w T O F v f n x : refs w T O F -> room T -> (v, f) ∈ T ->
    ok_with (vop_creat v n x w) (fun '(e, v', w') => if e =? 0 then exists f', refs w' (T ⊎ {[+ (v', f') +]}) O F else refs w' T O F);
  refs_symlink w T O F v f n c : refs w T O F -> room T -> (v, f) ∈ T -> ok_with (vop_symlink v n c w) (fun '(_, w') => refs w' T O F);
  refs_mkdir w T O F v f n : refs w T O F -> room T -> (v, f) ∈ T -> ok_with (vop_mkdir v n w) (fun '(_, w') => refs w' T O F);
  refs_remove w T O F v f n : refs w T O F -> room T -> (v, f) ∈ T -> ok_with (vop_remove v n w) (fun '(_, w') => refs w' T O F);
  refs_rmdir w T O F v f n : refs w T O F -> room T -> (v, f) ∈ T -> ok_with (vop_rmdir v n w) (fun '(_, w') => refs w' T O F);
  refs_link w T O F v f n v' f' : refs w T O F -> room T -> (v, f) ∈ T -> (v', f') ∈ T -> ok_with (vop_link v n v' w) (fun '(_, w') => refs w' T O F);
  refs_rename w T O F v f n v' f' n' : refs w T O F -> room T -> (v, f) ∈ T -> (v', f') ∈ T ->
    ok_with (vop_rename v n v' n' w) (fun '(_, w') => refs w' T O F);
  refs_lookup w T O F v f p : refs w T O F -> room T -> (v, f) ∈ T ->
    ok_with (vop_lookup v p w) (fun '(e, v', w') => if e =? 0 then exists f', refs w' (T ⊎ {[+ (v', f') +]}) O F else refs w' T O F);
  refs_lookparent w T O F v f p l : refs w T O F -> room T -> (v, f) ∈ T ->
    ok_with (vop_lookparent v p l w) (fun '(e, v', _, w') => if e =? 0 then exists f', refs w' (T ⊎ {[+ (v', f') +]}) O F else refs w' T O F);
}.

Section refs.
Context {S : Type} `{VfsLaws S}.
Implicit Types (st : vfs S) (w : S) (R T O : gmultiset ref) (F : gset Z).

(** ** The invariant *)

(** The vnode of a device that can be named without a file system exists. *)
Definition kd_ok F (kd : knowndev) : Prop :=
  (forall x, kd_fs kd = Some x -> x ∈ F) /\ (kd_rawname kd <> None \/ kd_fs kd = None -> kd_device kd <> None).

Definition opt_refs (g : option ref) : gmultiset ref := match g with Some t => {[+ t +]} | None => ∅ end.
Definition dev_refs (l : list knowndev) : gmultiset ref := list_to_set_disj ((fun kd => (kd_vnode kd, None)) <$> filter (fun kd => kd_device kd <> None) l).

(** What the VFS itself holds: the current directory, the boot directory and
    the vnodes of the devices.  An entry for a file system without a device
    has a vnode that nobody can reach. *)
Record ghost : Type := mk_ghost { g_cwd : option ref; g_boot : option ref }.
Definition kernel_refs (g : ghost) st : gmultiset ref := opt_refs (g_cwd g) ⊎ opt_refs (g_boot g) ⊎ dev_refs (knowndevs st).

(** [R] is what the callers hold.  There is room for the current directory,
    the boot directory and [k] more references. *)
Record inv (k : nat) (g : ghost) st R O F : Prop := {
  inv_refs : refs (world st) (R ⊎ kernel_refs g st) O F;
  inv_open : O ⊆ R;
  inv_cwd : t_cwd st = fst <$> g_cwd g;
  inv_boot : bootfs_vnode st = fst <$> g_boot g;
  inv_dir t : g_cwd g = Some t -> snd t <> None;
  inv_devs : Forall (kd_ok F) (knowndevs st);
  inv_mounts : NoDup (omap kd_fs (knowndevs st)) /\ F = list_to_set (omap kd_fs (knowndevs st));
  inv_room : Z.of_nat (size R + 2 + length (knowndevs st) + k) <= max_refs;
  inv_unlocked : knowndevs_lock st = false /\ bootfs_lock st = false;
}.

Global Arguments inv_refs {k g st R O F}.
Global Arguments inv_open {k g st R O F}.
Global Arguments inv_cwd {k g st R O F}.
Global Arguments inv_boot {k g st R O F}.
Global Arguments inv_dir {k g st R O F}.
Global Arguments inv_devs {k g st R O F}.
Global Arguments inv_mounts {k g st R O F}.
Global Arguments inv_room {k g st R O F}.
Global Arguments inv_unlocked {k g st R O F}.

(** The number of references, for [lia]. *)
Ltac sizes := rewrite ?gmultiset_size_disj_union, ?gmultiset_size_singleton in *; lia.

(** Everything but the world is as it was. *)
Lemma inv_world k k' g st R O F R' O' w : inv k g st R O F -> O' ⊆ R' -> (size R' + k' <= size R + k)%nat ->
  refs w (R' ⊎ kernel_refs g st) O' F -> inv k' g (set_world w st) R' O' F.
Proof.
  intros Hi Ho Hs Hr. split; try apply Hi; try done. pose proof (inv_room Hi). cbn [knowndevs set_world]. lia.
Qed.

Lemma dev_refs_cons kd l : dev_refs (kd :: l) = if decide (kd_device kd <> None) then {[+ (kd_vnode kd, None) +]} ⊎ dev_refs l else dev_refs l.
Proof. unfold dev_refs. rewrite filter_cons. by case_decide. Qed.

Lemma dev_refs_size l : (size (dev_refs l) <= length l)%nat.
Proof.
  induction l as [|kd l IH]; [done|]. rewrite dev_refs_cons. cbn [length]. case_decide; [|lia].
  rewrite gmultiset_size_disj_union, gmultiset_size_singleton. lia.
Qed.

Lemma opt_refs_size t : size (opt_refs t) = match t with Some _ => 1%nat | None => 0%nat end.
Proof. destruct t; cbn [opt_refs]; [by rewrite gmultiset_size_singleton|by rewrite gmultiset_size_empty]. Qed.

Lemma kernel_size g st : (size (kernel_refs g st) <= 2 + length (knowndevs st))%nat.
Proof.
  unfold kernel_refs. rewrite !gmultiset_size_disj_union. pose proof (dev_refs_size (knowndevs st)).
  rewrite !opt_refs_size. destruct (g_cwd g), (g_boot g); lia.
Qed.

Lemma inv_spare k g st R O F : inv (1 + k) g st R O F -> room (R ⊎ kernel_refs g st).
Proof. intros Hi. pose proof (inv_room Hi). pose proof (kernel_size g st). unfold room. sizes. Qed.
Global Arguments inv_spare {k g st R O F}.

Lemma refs_eq w T T' O F : refs w T O F -> T' = T -> refs w T' O F.
Proof. by intros ? ->. Qed.

Lemma open_weaken O R t : O ⊆ R -> O ⊆ R ⊎ {[+ t +]}.
Proof. multiset_solver. Qed.

Lemma in_refs R t K : t ∈ R ⊎ {[+ t +]} ⊎ K.
Proof. multiset_solver. Qed.

Lemma refs_swap R t K : R ⊎ {[+ t +]} ⊎ K = R ⊎ K ⊎ {[+ t +]}.
Proof. multiset_solver. Qed.

Lemma incref_spec k g st R O F v f : inv (1 + k) g st R O F -> (v, f) ∈ R ⊎ kernel_refs g st ->
  exists w, incref v st = Ok (set_world w st) /\ inv k g (set_world w st) (R ⊎ {[+ (v, f) +]}) O F.
Proof.
  intros Hi Hv. destruct (refs_incref _ _ _ _ _ _ (inv_refs Hi) (inv_spare Hi) Hv) as (w & E & Hw). exists w. unfold incref. rewrite E.
  split; [done|]. apply (inv_world (1 + k) k _ _ R O); [done|apply open_weaken, Hi|sizes|]. by rewrite refs_swap.
Qed.

Lemma decref_spec k g st R O F v f : inv k g st (R ⊎ {[+ (v, f) +]}) O F -> O ⊆ R ->
  exists w, decref v st = Ok (set_world w st) /\ inv (1 + k) g (set_world w st) R O F.
Proof.
  intros Hi Ho. pose proof (inv_refs Hi) as Hr. rewrite refs_swap in Hr.
  destruct (refs_decref _ _ _ _ _ _ Hr) as (w & E & Hw); [multiset_solver|]. exists w. unfold decref. rewrite E. split; [done|].
  by apply (inv_world k (1 + k) _ _ (R ⊎ {[+ (v, f) +]}) O); [| |sizes|].
Qed.

(** An operation on a referenced vnode passes its check. *)
Lemma VOP_spec {A} k g st R O F v f (op : S -> res A) (Q : A -> Prop) : inv (1 + k) g st R O F -> (v, f) ∈ R ->
  (refs (world st) (R ⊎ kernel_refs g st) O F -> room (R ⊎ kernel_refs g st) -> (v, f) ∈ R ⊎ kernel_refs g st -> ok_with (op (world st)) Q) ->
  ok_with (VOP v st op) Q.
Proof.
  intros Hi Hv Hop. assert ((v, f) ∈ R ⊎ kernel_refs g st) as Hv' by multiset_solver. pose proof (inv_refs Hi) as Hr.
  destruct (refs_vnode _ _ _ _ _ _ Hr Hv') as (_ & vn & Ev & Ec & _). unfold VOP, vn_deref. rewrite Ev, bind_Ok, Ec, bind_Ok.
  apply Hop; [done|by eapply inv_spare|done].
Qed.

(** The outcome of an operation that hands back a vnode, or fails. *)
Definition gives k g st R O F (e v : Z) : Prop :=
  if e =? 0 then exists f, inv k g st (R ⊎ {[+ (v, f) +]}) O F else inv (1 + k) g st R O F.

(** ** Devices *)

Lemma getroot_device_spec w T O F name kd : refs w T O F -> room T -> kd_ok F kd -> (kd_device kd <> None -> (kd_vnode kd, None) ∈ T) ->
  (str_eq (kd_name kd) name = true -> kd_fs kd = None /\ kd_rawname kd = None) ->
  ok_with (getroot_device name w kd) (fun r =>
    match r with Some (e, v, w') => e = 0 /\ exists f, refs w' (T ⊎ {[+ (v, f) +]}) O F | None => True end).
Proof.
  intros Hr Hs [_ Hd] Hv Hn. unfold getroot_device.
  destruct (str_eq (kd_name kd) name) eqn:En.
  - destruct (Hn eq_refl) as [Hf Hraw]. destruct (refs_incref _ _ _ _ _ _ Hr Hs (Hv (Hd (or_intror Hf)))) as (w' & E & Hw). rewrite Hf, Hraw, !bool_decide_true by (done || (apply Hd; by right)). cbn [assert].
    rewrite !bind_Ok, E, bind_Ok. eexists. split; [done|]. split; [done|by exists None].
  - destruct (kd_rawname kd) as [raw|] eqn:Eraw; [|by eexists]. destruct (str_eq raw name); [|by eexists].
    destruct (refs_incref _ _ _ _ _ _ Hr Hs (Hv (Hd ltac:(by left)))) as (w' & E & Hw). rewrite bool_decide_true by (apply Hd; by left). cbn [assert]. rewrite bind_Ok, E, bind_Ok.
    eexists. split; [done|]. split; [done|by exists None].
Qed.

Lemma getroot_loop_spec w T O F name l : refs w T O F -> room T -> Forall (kd_ok F) l -> (forall kd, kd ∈ l -> kd_device kd <> None -> (kd_vnode kd, None) ∈ T) ->
  ok_with (getroot_loop l name w) (fun '(e, v, w') =>
    if e =? 0 then exists f, refs w' (T ⊎ {[+ (v, f) +]}) O F else refs w' T O F).
Proof.
  intros Hr Hs Hl. induction Hl as [|kd l Hkd Hl IH]; intros Hv; cbn [getroot_loop]; [by eexists|].
  assert (ok_with (getroot_loop l name w) (fun '(e, v, w') =>
    if e =? 0 then exists f, refs w' (T ⊎ {[+ (v, f) +]}) O F else refs w' T O F)) as IH'.
  { apply IH. intros k Hk. apply Hv. by right. }
  assert ((str_eq (kd_name kd) name = true -> kd_fs kd = None /\ kd_rawname kd = None) ->
    ok_with (r ← getroot_device name w kd; match r with Some r => Ok r | None => getroot_loop l name w end) (fun '(e, v, w') =>
      if e =? 0 then exists f, refs w' (T ⊎ {[+ (v, f) +]}) O F else refs w' T O F)) as Hdev.
  { intros Hn. destruct (getroot_device_spec w T O F name kd Hr Hs Hkd (Hv kd ltac:(left)) Hn) as ([[[e v] w']|] & -> & Hd); rewrite bind_Ok.
    - destruct Hd as [-> Hd]. eexists. split; [done|]. exact Hd.
    - exact IH'. }
  destruct (kd_fs kd) as [x|] eqn:Ex.
  - destruct (refs_getvolname _ _ _ _ _ Hr (proj1 Hkd x Ex)) as (vol & -> & _). rewrite bind_Ok.
    destruct (str_eq (kd_name kd) name) eqn:En; cbn [orb].
    + destruct (refs_getroot _ _ _ _ _ Hr Hs (proj1 Hkd x Ex)) as ([v w'] & -> & Hw). rewrite bind_Ok. by eexists.
    + destruct (bool_decide _); [|by apply Hdev]. destruct (refs_getroot _ _ _ _ _ Hr Hs (proj1 Hkd x Ex)) as ([v w'] & -> & Hw). rewrite bind_Ok. by eexists.
  - destruct (str_eq (kd_name kd) name) eqn:En; [|rewrite andb_false_r; by apply Hdev].
    destruct (kd_rawname kd) eqn:Eraw; [by rewrite bool_decide_true; [eexists|]|].
    rewrite bool_decide_false by (by intros Hc; apply Hc). by apply Hdev.
Qed.

Lemma dev_in_kernel g st kd : kd ∈ knowndevs st -> kd_device kd <> None -> (kd_vnode kd, None) ∈ kernel_refs g st.
Proof.
  intros Hk Hd. unfold kernel_refs. apply gmultiset_elem_of_disj_union. right. apply elem_of_list_to_set_disj.
  apply list_elem_of_fmap. exists kd. split; [done|]. by apply list_elem_of_filter.
Qed.

Lemma cwd_in_kernel g st t : g_cwd g = Some t -> t ∈ kernel_refs g st.
Proof.
  intros E. unfold kernel_refs. rewrite E. cbn [opt_refs]. rewrite !gmultiset_elem_of_disj_union, gmultiset_elem_of_singleton. tauto.
Qed.

Lemma boot_in_kernel g st t : g_boot g = Some t -> t ∈ kernel_refs g st.
Proof.
  intros E. unfold kernel_refs. rewrite E. cbn [opt_refs]. rewrite !gmultiset_elem_of_disj_union, gmultiset_elem_of_singleton. tauto.
Qed.

(** Taking and giving back the lock of the devices. *)
Lemma devs_locked st (w : S) : knowndevs_lock st = false ->
  acquire_devs st = Ok (set_devs_lock true st) /\ release_devs (set_world w (set_devs_lock true st)) = Ok (set_world w st).
Proof. intros E. unfold acquire_devs, release_devs. rewrite E. split; [done|]. cbn. unfold set_devs_lock, set_world. cbn. by rewrite E. Qed.

Lemma vfs_getroot_spec k g st R O F name : inv (1 + k) g st R O F ->
  exists w e v, vfs_getroot name st = Ok (set_world w st, e, v) /\ gives k g (set_world w st) R O F e v.
Proof.
  intros Hi. destruct (getroot_loop_spec (world st) _ O F name (knowndevs st) (inv_refs Hi) (inv_spare Hi) (inv_devs Hi))
    as ([[e v] w] & E & Hw).
  { intros kd Hk Hd. apply gmultiset_elem_of_disj_union. right. by apply dev_in_kernel. }
  destruct (devs_locked st w (proj1 (inv_unlocked Hi))) as [Ea Er].
  exists w, e, v. unfold vfs_getroot. rewrite Ea, bind_Ok. cbn [knowndevs world set_devs_lock]. rewrite E, bind_Ok, Er, bind_Ok. split; [done|].
  unfold gives. destruct (e =? 0).
  - destruct Hw as [f Hw]. exists f. apply (inv_world (1 + k) k _ _ R O); [done|apply open_weaken, Hi|sizes|by rewrite refs_swap].
  - apply (inv_world (1 + k) _ _ _ R O); [done|apply Hi|done|done].
Qed.

(** ** The current directory *)

Lemma vfs_getcurdir_spec k g st R O F : inv (1 + k) g st R O F ->
  exists w e v, vfs_getcurdir st = Ok (set_world w st, e, v) /\
    (e = 0 /\ (exists x, g_cwd g = Some (v, Some x) /\ inv k g (set_world w st) (R ⊎ {[+ (v, Some x) +]}) O F) \/
     e = ENOENT /\ inv (1 + k) g (set_world w st) R O F).
Proof.
  intros Hi. unfold vfs_getcurdir. rewrite (inv_cwd Hi). destruct (g_cwd g) as [[v f]|] eqn:Eg; cbn.
  - destruct f as [x|]; [|by destruct (inv_dir Hi _ Eg)].
    destruct (incref_spec k g st R O F v (Some x) Hi) as (w & -> & Hw).
    { apply gmultiset_elem_of_disj_union. right. by apply cwd_in_kernel. }
    rewrite bind_Ok. exists w, 0, v. split; [done|]. left. split; [done|]. by exists x.
  - exists (world st), ENOENT, 0. split; [by destruct st|]. right. split; [done|]. by destruct st.
Qed.

Lemma skip_tail {A} (l : list A) : tail l = drop 1 l.
Proof. by destruct l. Qed.

(** [scan] finds a colon or a slash where there is one. *)
Lemma scan_spec path i : 0 <= i ->
  match scan path i with
  | (c, s) => (c = -1 /\ s = -1 /\ (58 ∉ path) /\ (47 ∉ path)) \/
    (exists a b, path = a ++ 58 :: b /\ (58 ∉ a) /\ (47 ∉ a) /\ c = i + Z.of_nat (length a) /\ s = -1) \/
    (exists a b, path = a ++ 47 :: b /\ (58 ∉ a) /\ (47 ∉ a) /\ s = i + Z.of_nat (length a) /\ c = -1)
  end.
Proof.
  revert i. induction path as [|ch path IH]; intros i Hi; cbn [scan].
  { left. do 2 (split; [done|]). split; apply not_elem_of_nil. }
  destruct (Z.eqb_spec ch 58) as [->|H58].
  { right. left. exists [], path. split; [done|]. split; [apply not_elem_of_nil|]. split; [apply not_elem_of_nil|]. simpl. lia. }
  destruct (Z.eqb_spec ch 47) as [->|H47].
  { right. right. exists [], path. split; [done|]. split; [apply not_elem_of_nil|]. split; [apply not_elem_of_nil|]. simpl. lia. }
  specialize (IH (i + 1) ltac:(lia)). destruct (scan path (i + 1)) as [c s].
  destruct IH as [(-> & -> & Q1 & Q2)|[(a & b & -> & Q1 & Q2 & -> & ->)|(a & b & -> & Q1 & Q2 & -> & ->)]].
  - left. do 2 (split; [done|]). rewrite !not_elem_of_cons. by repeat split.
  - right. left. exists (ch :: a), b. rewrite !not_elem_of_cons. simpl length. repeat split; done || lia.
  - right. right. exists (ch :: a), b. rewrite !not_elem_of_cons. simpl length. repeat split; done || lia.
Qed.

(** ** Path translation *)

Lemma set_world_same st : set_world (world st) st = st.
Proof. by destruct st. Qed.

(** The vnode of a leading slash. *)
Lemma bootfs_ref_spec k g st R O F : inv (1 + k) g st R O F ->
  exists w e v,
    (st ← acquire_bootfs st;
     match bootfs_vnode st with
     | None => st ← release_bootfs st; Ok (st, ENOENT, 0)
     | Some v => st ← incref v st; st ← release_bootfs st; Ok (st, 0, v)
     end) = Ok (set_world w st, e, v) /\ gives k g (set_world w st) R O F e v.
Proof.
  intros Hi. unfold acquire_bootfs. rewrite (proj2 (inv_unlocked Hi)), bind_Ok. cbn [bootfs_vnode set_bootfs_lock].
  rewrite (inv_boot Hi). destruct (g_boot g) as [[v f]|] eqn:Eg; cbn [fmap option_fmap option_map fst].
  - destruct (incref_spec k g st R O F v f Hi) as (w & E & Hw).
    { apply gmultiset_elem_of_disj_union. right. by apply boot_in_kernel. }
    exists w, 0, v. unfold incref in *. cbn [world set_bootfs_lock]. destruct (vnode_incref v (world st)) as [w'| | |]; try done.
    rewrite bind_Ok in E. injection E as E. subst w'. rewrite !bind_Ok. unfold release_bootfs. cbn [bootfs_lock set_bootfs_lock set_world assert].
    rewrite !bind_Ok. split; [|by exists f]. unfold set_bootfs_lock, set_world. cbn. by rewrite (proj2 (inv_unlocked Hi)).
  - exists (world st), ENOENT, 0. unfold release_bootfs. cbn [bootfs_lock set_bootfs_lock assert]. rewrite !bind_Ok, set_world_same. split; [|exact Hi].
    destruct st as [? ? ? bl ? ?]. cbn in *. unfold set_bootfs_lock. cbn. pose proof (proj2 (inv_unlocked Hi)) as E. cbn in E. by subst bl.
Qed.

(** The root of the file system of the current directory. *)
Lemma current_root_spec k g st R O F : inv (2 + k) g st R O F ->
  exists w e v,
    ('(st, result, vn) ← vfs_getcurdir st;
     if negb (result =? 0) then Ok (st, result, 0)
     else
       v ← vn_deref vn (world st);
       match vn_fs v with
       | None => Panic
       | Some fs => '(root, w) ← fsop_getroot fs (world st); st ← decref vn (set_world w st); Ok (st, 0, root)
       end) = Ok (set_world w st, e, v) /\ gives (1 + k) g (set_world w st) R O F e v.
Proof.
  intros Hi. destruct (vfs_getcurdir_spec (1 + k) g st R O F Hi) as (w & e & v & -> & [(-> & x & Ex & Hi1)|(-> & Hi1)]); rewrite bind_Ok; cbn [negb Z.eqb ENOENT].
  2:{ exists w, ENOENT, 0. by split. }
  pose proof (inv_refs Hi1) as Hr. destruct (refs_vnode _ _ _ _ _ _ Hr (in_refs R (v, Some x) _)) as (_ & vn & Ev & _ & Ef & Hx & _).
  unfold vn_deref. rewrite Ev, bind_Ok, Ef. destruct (refs_getroot _ _ _ _ _ Hr (inv_spare Hi1) (Hx x eq_refl)) as ([root w2] & -> & f & Hw2). rewrite bind_Ok.
  assert (inv k g (set_world w2 st) (R ⊎ {[+ (root, f) +]} ⊎ {[+ (v, Some x) +]}) O F) as Hi2.
  { apply (inv_world (2 + k) _ _ _ R O); [done|pose proof (inv_open Hi); multiset_solver|sizes|].
    eapply refs_eq; [exact Hw2|]. change (kernel_refs g (set_world w st)) with (kernel_refs g st). multiset_solver. }
  destruct (decref_spec _ _ _ _ _ _ _ _ Hi2) as (w3 & E3 & Hi3); [apply open_weaken, Hi|].
  change (set_world w2 (set_world w st)) with (set_world w2 st). rewrite E3, bind_Ok. exists w3, 0, root. split; [done|]. by exists f.
Qed.

Lemma getdevice_spec k g st R O F path : inv (2 + k) g st R O F ->
  exists w e sub v, getdevice path st = Ok (set_world w st, e, sub, v) /\ gives (1 + k) g (set_world w st) R O F e v.
Proof.
  intros Hi. unfold getdevice. pose proof (scan_spec path 0 ltac:(lia)) as Hs. destruct (scan path 0) as [c s].
  assert (forall c s, (c = -1 /\ s <> 0) -> exists w e sub v,
    (if (c <? 0) && negb (s =? 0) then '(st, result, vn) ← vfs_getcurdir st; Ok (st, result, path, vn) else Fuel) = Ok (set_world w st, e, sub, v) /\
    gives (1 + k) g (set_world w st) R O F e v) as Hcur.
  { intros c' s' [-> Hs']. destruct (Z.eqb_spec s' 0); [done|]. cbn [Z.ltb Z.compare negb andb].
    destruct (vfs_getcurdir_spec (1 + k) g st R O F Hi) as (w & e & v & -> & [(-> & x & _ & Hi1)|(-> & Hi1)]); rewrite bind_Ok;
      eexists _, _, _, _; (split; [done|]); [by exists (Some x)|done]. }
  destruct Hs as [(-> & -> & _)|[(a & b & -> & _ & _ & -> & ->)|(a & b & -> & _ & _ & -> & ->)]].
  - by destruct (Hcur (-1) (-1)) as (w & e & sub & v & E & Hg); [|exists w, e, sub, v].
  - destruct a as [|ch a].
    + cbn [length Z.of_nat Z.add Z.ltb Z.compare andb Z.gtb]. cbn [app head tail]. rewrite Z.eqb_refl. cbn [orb assert]. rewrite bind_Ok.
      rewrite bool_decide_false by congruence. rewrite bool_decide_true by done. cbn [assert]. rewrite bind_Ok.
      destruct (current_root_spec _ g st R O F Hi) as (w & e & v & -> & Hg). rewrite bind_Ok. by eexists _, _, _, _.
    + destruct (Z.ltb_spec (0 + Z.of_nat (length (ch :: a))) 0); [lia|]. cbn [andb].
      destruct (Z.gtb_spec (0 + Z.of_nat (length (ch :: a))) 0); [|simpl length in *; lia].
      edestruct (vfs_getroot_spec (1 + k) g st R O F) as (w & e & v & -> & Hg); [done|]. rewrite bind_Ok. by eexists _, _, _, _.
  - destruct a as [|ch a].
    + cbn [length Z.of_nat Z.add Z.ltb Z.compare andb Z.gtb]. cbn [app head tail]. rewrite Z.eqb_refl. cbn [negb orb assert]. rewrite orb_true_r. cbn [assert]. rewrite bind_Ok.
      rewrite bool_decide_true by done. destruct (bootfs_ref_spec (1 + k) g st R O F Hi) as (w & e & v & -> & Hg). rewrite bind_Ok. by eexists _, _, _, _.
    + destruct (Hcur (-1) (0 + Z.of_nat (length (ch :: a)))) as (w & e & sub & v & E & Hg); [simpl length; lia|].
      destruct (Z.eqb_spec (0 + Z.of_nat (length (ch :: a))) 0); [simpl length in *; lia|]. by exists w, e, sub, v.
Qed.

(** An operation of a vnode that gives a vnode, and dropping the reference it
    was called on. *)
Lemma gives_intro k g st R O F w e v : inv (1 + k) g st R O F ->
  (if e =? 0 then exists f, refs w (R ⊎ kernel_refs g st ⊎ {[+ (v, f) +]}) O F else refs w (R ⊎ kernel_refs g st) O F) ->
  gives k g (set_world w st) R O F e v.
Proof.
  intros Hi Hw. unfold gives. destruct (e =? 0).
  - destruct Hw as [f Hw]. exists f. apply (inv_world (1 + k) k _ _ R O); [done|apply open_weaken, Hi|sizes|by rewrite refs_swap].
  - apply (inv_world (1 + k) _ _ _ R O); [done|apply Hi|done|done].
Qed.

Lemma gives_decref k g st R O F e v t f : gives k g st (R ⊎ {[+ (t, f) +]}) O F e v -> O ⊆ R ->
  exists w, decref t st = Ok (set_world w st) /\ gives (1 + k) g (set_world w st) R O F e v.
Proof.
  intros Hg Ho. unfold gives in *. destruct (e =? 0).
  - destruct Hg as [f' Hi]. assert (inv k g st (R ⊎ {[+ (v, f') +]} ⊎ {[+ (t, f) +]}) O F) as Hi' by (replace (R ⊎ {[+ (v, f') +]} ⊎ {[+ (t, f) +]}) with (R ⊎ {[+ (t, f) +]} ⊎ {[+ (v, f') +]}) by multiset_solver; done).
    destruct (decref_spec _ _ _ _ _ _ _ _ Hi') as (w & E & Hw); [by apply open_weaken|]. exists w. split; [done|]. by exists f'.
  - destruct (decref_spec _ _ _ _ _ _ _ _ Hg Ho) as (w & E & Hw). by exists w.
Qed.

Lemma in_one R t : t ∈ R ⊎ {[+ t +]}.
Proof. multiset_solver. Qed.

Lemma gives_0 k g st R O F v : gives k g st R O F 0 v -> exists f, inv k g st (R ⊎ {[+ (v, f) +]}) O F.
Proof. done. Qed.

Lemma gives_err k g st R O F e v : negb (e =? 0) = true -> gives k g st R O F e v -> inv (1 + k) g st R O F.
Proof. unfold gives. by destruct (e =? 0). Qed.

Lemma vfs_lookup_spec k g st R O F path : inv (2 + k) g st R O F ->
  exists w e v, vfs_lookup path st = Ok (set_world w st, e, v) /\ gives (1 + k) g (set_world w st) R O F e v.
Proof.
  intros Hi. unfold vfs_lookup. destruct (getdevice_spec _ g st R O F path Hi) as (w & e & sub & v & -> & Hg). rewrite bind_Ok.
  destruct (negb (e =? 0)) eqn:Ee.
  { exists w, e, 0. split; [done|]. unfold gives in *. by destruct (e =? 0). }
  apply negb_false_iff, Z.eqb_eq in Ee as ->. apply gives_0 in Hg as [f Hi1].
  destruct (_ =? 0); [by exists w, 0, v; split; [|exists f]|].
  destruct (VOP_spec _ g _ _ O F v f (vop_lookup v sub) _ Hi1 (in_one R _) (fun Hr Hs Hv => refs_lookup _ _ _ _ _ _ sub Hr Hs Hv))
    as ([[e2 v2] w2] & -> & Hw2). rewrite bind_Ok.
  apply (gives_intro _ g _ _ O F w2 e2 v2 Hi1) in Hw2. destruct (gives_decref _ _ _ _ _ _ _ _ _ _ Hw2 (inv_open Hi)) as (w3 & E3 & Hg3).
  rewrite E3, bind_Ok. by exists w3, e2, v2.
Qed.

Lemma vfs_lookparent_spec k g st R O F path len : inv (2 + k) g st R O F ->
  exists w e v name, vfs_lookparent path len st = Ok (set_world w st, e, v, name) /\ gives (1 + k) g (set_world w st) R O F e v.
Proof.
  intros Hi. unfold vfs_lookparent. destruct (getdevice_spec _ g st R O F path Hi) as (w & e & sub & v & -> & Hg). rewrite bind_Ok.
  destruct (negb (e =? 0)) eqn:Ee.
  { exists w, e, 0, []. split; [done|]. unfold gives in *. by destruct (e =? 0). }
  apply negb_false_iff, Z.eqb_eq in Ee as ->. apply gives_0 in Hg as [f Hi1]. destruct (_ =? 0).
  - rewrite bind_Ok. destruct (decref_spec _ _ _ _ _ _ _ _ Hi1 (inv_open Hi)) as (w3 & E3 & Hi3). rewrite E3, bind_Ok.
    by exists w3, EINVAL, 0, [].
  - destruct (VOP_spec _ g _ _ O F v f (vop_lookparent v sub len) _ Hi1 (in_one R _) (fun Hr Hs Hv => refs_lookparent _ _ _ _ _ _ sub len Hr Hs Hv))
      as ([[[e2 v2] name] w2] & -> & Hw2). rewrite !bind_Ok.
    apply (gives_intro _ g _ _ O F w2 e2 v2 Hi1) in Hw2. destruct (gives_decref _ _ _ _ _ _ _ _ _ _ Hw2 (inv_open Hi)) as (w3 & E3 & Hg3).
    rewrite E3, bind_Ok. by exists w3, e2, v2, name.
Qed.

(** ** Operations on paths *)

(** An operation that leaves the references as they are. *)
Definition neutral (op : vfs S -> res (vfs S * Z)) : Prop :=
  forall k g st R O F, inv (3 + k) g st R O F -> exists w e, op st = Ok (set_world w st, e) /\ inv (3 + k) g (set_world w st) R O F.

Lemma at_parent_neutral path op :
  (forall w T O F v f n, refs w T O F -> room T -> (v, f) ∈ T -> ok_with (op v n w) (fun '(_, w') => refs w' T O F)) -> neutral (at_parent path op).
Proof.
  intros Hop k g st R O F Hi. unfold at_parent. destruct (vfs_lookparent_spec _ g st R O F path (NAME_MAX + 1) Hi) as (w & e & v & name & -> & Hg). rewrite bind_Ok.
  destruct (negb (e =? 0)) eqn:Ee; [exists w, e; split; [done|]; by eapply gives_err|].
  apply negb_false_iff, Z.eqb_eq in Ee as ->. apply gives_0 in Hg as [f Hi1].
  destruct (VOP_spec _ g _ _ O F v f (op v name) _ Hi1 (in_one R _) (fun Hr Hs Hv => Hop _ _ _ _ _ _ name Hr Hs Hv)) as ([e2 w2] & -> & Hw2). rewrite bind_Ok.
  pose proof (inv_world _ _ _ _ _ _ _ _ _ w2 Hi1 (inv_open Hi1) (le_n _) Hw2) as Hi2.
  destruct (decref_spec _ _ _ _ _ _ _ _ Hi2 (inv_open Hi)) as (w3 & E3 & Hi3). rewrite E3, bind_Ok. by exists w3, e2.
Qed.

(** The vnodes of two references can be compared. *)
Lemma other_fs_spec k g st R O F a fa b fb : inv k g st R O F -> (a, fa) ∈ R -> (b, fb) ∈ R -> exists r, other_fs a b st = Ok r.
Proof.
  intros Hi Ha Hb. pose proof (inv_refs Hi) as Hr. unfold other_fs, vn_deref.
  destruct (refs_vnode _ _ _ _ _ _ Hr (proj2 (gmultiset_elem_of_disj_union _ _ _) (or_introl Ha))) as (_ & va & -> & _).
  destruct (refs_vnode _ _ _ _ _ _ Hr (proj2 (gmultiset_elem_of_disj_union _ _ _) (or_introl Hb))) as (_ & vb & -> & _).
  rewrite !bind_Ok. by eexists.
Qed.

(** Dropping two references. *)
Lemma decref2_spec k g st R O F a fa b fb (e : Z) : inv k g st (R ⊎ {[+ (a, fa) +]} ⊎ {[+ (b, fb) +]}) O F -> O ⊆ R ->
  exists w, (st ← decref b st; st ← decref a st; Ok (st, e)) = Ok (set_world w st, e) /\ inv (2 + k) g (set_world w st) R O F.
Proof.
  intros Hi Ho. destruct (decref_spec _ _ _ _ _ _ _ _ Hi) as (w & E & Hi1); [by apply open_weaken|]. rewrite E, bind_Ok.
  destruct (decref_spec _ _ _ _ _ _ _ _ Hi1 Ho) as (w2 & E2 & Hi2). rewrite E2, bind_Ok. by exists w2.
Qed.

Lemma vfs_rename_neutral oldpath newpath : neutral (vfs_rename oldpath newpath).
Proof.
  intros k g st R O F Hi. unfold vfs_rename. pose proof (inv_open Hi) as Ho.
  destruct (vfs_lookparent_spec _ g st R O F oldpath (NAME_MAX + 1) Hi) as (w & e & v & name & -> & Hg). rewrite bind_Ok.
  destruct (negb (e =? 0)) eqn:Ee; [exists w, e; split; [done|]; by eapply gives_err|].
  apply negb_false_iff, Z.eqb_eq in Ee as ->. apply gives_0 in Hg as [f Hi1].
  destruct (vfs_lookparent_spec _ g _ _ O F newpath (NAME_MAX + 1) Hi1) as (w2 & e & v2 & name2 & -> & Hg2). rewrite bind_Ok.
  destruct (negb (e =? 0)) eqn:Ee.
  { apply gives_err in Hg2; [|done]. destruct (decref_spec _ _ _ _ _ _ _ _ Hg2 Ho) as (w3 & E3 & Hi3). rewrite E3, bind_Ok. by exists w3, e. }
  apply negb_false_iff, Z.eqb_eq in Ee as ->. apply gives_0 in Hg2 as [f2 Hi2].
  destruct (other_fs_spec _ g _ _ O F v f v2 f2 Hi2) as [[|] ->]; [multiset_solver|multiset_solver| |]; rewrite bind_Ok.
  - destruct (decref2_spec _ _ _ _ _ _ _ _ _ _ EXDEV Hi2 Ho) as (w3 & E3 & Hi3). rewrite E3. by exists w3, EXDEV.
  - destruct (VOP_spec _ g _ _ O F v f (vop_rename v name v2 name2) (fun '(_, w') => refs w' (R ⊎ {[+ (v, f) +]} ⊎ {[+ (v2, f2) +]} ⊎ kernel_refs g st) O F) Hi2) as ([e3 w3] & -> & Hw3).
    { multiset_solver. } { intros Hr Hs Hv. apply (refs_rename _ _ _ _ v f _ v2 f2 _ Hr Hs Hv). multiset_solver. }
    rewrite bind_Ok. pose proof (inv_world _ _ _ _ _ _ _ _ _ w3 Hi2 (inv_open Hi2) (le_n _) Hw3) as Hi3.
    destruct (decref2_spec _ _ _ _ _ _ _ _ _ _ e3 Hi3 Ho) as (w4 & E4 & Hi4). rewrite E4. by exists w4, e3.
Qed.

Lemma vfs_link_neutral oldpath newpath : neutral (vfs_link oldpath newpath).
Proof.
  intros k g st R O F Hi. unfold vfs_link. pose proof (inv_open Hi) as Ho.
  destruct (vfs_lookup_spec _ g st R O F oldpath Hi) as (w & e & v & -> & Hg). rewrite bind_Ok.
  destruct (negb (e =? 0)) eqn:Ee; [exists w, e; split; [done|]; by eapply gives_err|].
  apply negb_false_iff, Z.eqb_eq in Ee as ->. apply gives_0 in Hg as [f Hi1].
  destruct (vfs_lookparent_spec _ g _ _ O F newpath (NAME_MAX + 1) Hi1) as (w2 & e & v2 & name2 & -> & Hg2). rewrite bind_Ok.
  destruct (negb (e =? 0)) eqn:Ee.
  { apply gives_err in Hg2; [|done]. destruct (decref_spec _ _ _ _ _ _ _ _ Hg2 Ho) as (w3 & E3 & Hi3). rewrite E3, bind_Ok. by exists w3, e. }
  apply negb_false_iff, Z.eqb_eq in Ee as ->. apply gives_0 in Hg2 as [f2 Hi2].
  destruct (other_fs_spec _ g _ _ O F v f v2 f2 Hi2) as [[|] ->]; [multiset_solver|multiset_solver| |]; rewrite bind_Ok.
  - destruct (decref2_spec _ _ _ _ _ _ _ _ _ _ EXDEV Hi2 Ho) as (w3 & E3 & Hi3). rewrite E3. by exists w3, EXDEV.
  - destruct (VOP_spec _ g _ _ O F v2 f2 (vop_link v2 name2 v) (fun '(_, w') => refs w' (R ⊎ {[+ (v, f) +]} ⊎ {[+ (v2, f2) +]} ⊎ kernel_refs g st) O F) Hi2) as ([e3 w3] & -> & Hw3).
    { multiset_solver. } { intros Hr Hs Hv. apply (refs_link _ _ _ _ v2 f2 _ v f Hr Hs Hv). multiset_solver. }
    rewrite bind_Ok. pose proof (inv_world _ _ _ _ _ _ _ _ _ w3 Hi2 (inv_open Hi2) (le_n _) Hw3) as Hi3.
    destruct (decref2_spec _ _ _ _ _ _ _ _ _ _ e3 Hi3 Ho) as (w4 & E4 & Hi4). rewrite E4. by exists w4, e3.
Qed.

Lemma vfs_readlink_spec k g st R O F path u : inv (3 + k) g st R O F ->
  exists w e u', vfs_readlink path u st = Ok (set_world w st, e, u') /\ inv (3 + k) g (set_world w st) R O F.
Proof.
  intros Hi. unfold vfs_readlink. destruct (vfs_lookup_spec _ g st R O F path Hi) as (w & e & v & -> & Hg). rewrite bind_Ok.
  destruct (negb (e =? 0)) eqn:Ee; [exists w, e, u; split; [done|]; by eapply gives_err|].
  apply negb_false_iff, Z.eqb_eq in Ee as ->. apply gives_0 in Hg as [f Hi1].
  destruct (VOP_spec _ g _ _ O F v f (vop_readlink v u) _ Hi1 (in_one R _) (fun Hr Hs Hv => refs_readlink _ _ _ _ _ _ u Hr Hs Hv)) as ([[e2 u2] w2] & -> & Hw2). rewrite bind_Ok.
  pose proof (inv_world _ _ _ _ _ _ _ _ _ w2 Hi1 (inv_open Hi1) (le_n _) Hw2) as Hi2.
  destruct (decref_spec _ _ _ _ _ _ _ _ Hi2 (inv_open Hi)) as (w3 & E3 & Hi3). rewrite E3, bind_Ok. by exists w3, e2, u2.
Qed.

Lemma incopen_spec k g st R O F v f : inv k g st (R ⊎ {[+ (v, f) +]}) O F -> O ⊆ R ->
  exists w, incopen v st = Ok (set_world w st) /\ inv k g (set_world w st) (R ⊎ {[+ (v, f) +]}) (O ⊎ {[+ (v, f) +]}) F.
Proof.
  intros Hi Ho. destruct (refs_incopen _ _ _ _ v f (inv_refs Hi)) as (w & E & Hw); [multiset_solver|]. exists w. unfold incopen. rewrite E.
  split; [done|]. by apply (inv_world k k _ _ (R ⊎ {[+ (v, f) +]}) O); [|multiset_solver| |].
Qed.

Lemma decopen_spec k g st R O F v f : inv k g st R (O ⊎ {[+ (v, f) +]}) F ->
  exists w, decopen v st = Ok (set_world w st) /\ inv k g (set_world w st) R O F.
Proof.
  intros Hi. destruct (refs_decopen _ _ _ _ v f (inv_refs Hi)) as (w & E & Hw). exists w. unfold decopen. rewrite E. split; [done|].
  pose proof (inv_open Hi). by apply (inv_world k k _ _ R (O ⊎ {[+ (v, f) +]})); [|multiset_solver| |].
Qed.

Lemma vfs_close_spec k g st R O F v f : inv k g st (R ⊎ {[+ (v, f) +]}) (O ⊎ {[+ (v, f) +]}) F ->
  exists w, vfs_close v st = Ok (set_world w st) /\ inv (1 + k) g (set_world w st) R O F.
Proof.
  intros Hi. unfold vfs_close. pose proof (inv_open Hi) as Ho. destruct (decopen_spec _ _ _ _ _ _ _ _ Hi) as (w & -> & Hi1). rewrite bind_Ok.
  destruct (decref_spec _ _ _ _ _ _ _ _ Hi1) as (w2 & E2 & Hi2); [multiset_solver|]. rewrite E2. by exists w2.
Qed.

(** The vnode that [vfs_open] is to open. *)
Lemma open_vnode_spec k g st R O F path openflags : inv (2 + k) g st R O F ->
  exists w e v,
    (if flag openflags O_CREAT then
       '(st, result, dir, name) ← vfs_lookparent path (NAME_MAX + 1) st;
       if negb (result =? 0) then Ok (st, result, 0)
       else
         '(result, vn, w) ← VOP dir st (vop_creat dir name (flag openflags O_EXCL));
         st ← decref dir (set_world w st);
         Ok (st, result, vn)
     else vfs_lookup path st) = Ok (set_world w st, e, v) /\ gives (1 + k) g (set_world w st) R O F e v.
Proof.
  intros Hi. destruct (flag openflags O_CREAT); [|by apply vfs_lookup_spec].
  destruct (vfs_lookparent_spec _ g st R O F path (NAME_MAX + 1) Hi) as (w & e & v & name & -> & Hg). rewrite bind_Ok.
  destruct (negb (e =? 0)) eqn:Ee.
  { exists w, e, 0. split; [done|]. unfold gives in *. by destruct (e =? 0). }
  apply negb_false_iff, Z.eqb_eq in Ee as ->. apply gives_0 in Hg as [f Hi1].
  destruct (VOP_spec _ g _ _ O F v f (vop_creat v name (flag openflags O_EXCL)) _ Hi1 (in_one R _) (fun Hr Hs Hv => refs_creat _ _ _ _ _ _ name _ Hr Hs Hv))
    as ([[e2 v2] w2] & -> & Hw2). rewrite bind_Ok.
  apply (gives_intro _ g _ _ O F w2 e2 v2 Hi1) in Hw2. destruct (gives_decref _ _ _ _ _ _ _ _ _ _ Hw2 (inv_open Hi)) as (w3 & E3 & Hg3).
  rewrite E3, bind_Ok. by exists w3, e2, v2.
Qed.

(** Truncating what is being opened. *)
Lemma open_truncate_spec k g st R O F v f (trunc canwrite : bool) : inv (1 + k) g st (R ⊎ {[+ (v, f) +]}) O F ->
  exists w e,
    (if trunc then
       if negb canwrite then Ok (st, EINVAL)
       else '(result, w) ← VOP v st (vop_truncate v 0); Ok (set_world w st, result)
     else Ok (st, 0)) = Ok (set_world w st, e) /\ inv (1 + k) g (set_world w st) (R ⊎ {[+ (v, f) +]}) O F.
Proof.
  intros Hi. destruct trunc; [|exists (world st), 0; by rewrite set_world_same]. destruct canwrite; [|exists (world st), EINVAL; by rewrite set_world_same]. cbn [negb].
  destruct (VOP_spec _ g _ _ _ F v f (vop_truncate v 0) _ Hi (in_one R _) (fun Hr Hs Hv => refs_truncate _ _ _ _ _ _ 0 Hr Hs Hv)) as ([e5 w5] & -> & Hw5). rewrite bind_Ok.
  exists w5, e5. split; [done|]. exact (inv_world _ _ _ _ _ _ _ _ _ w5 Hi (inv_open Hi) (le_n _) Hw5).
Qed.

Lemma vfs_open_spec k g st R O F path openflags : inv (3 + k) g st R O F ->
  exists w e v, vfs_open path openflags st = Ok (set_world w st, e, v) /\
    if e =? 0 then exists f, inv (2 + k) g (set_world w st) (R ⊎ {[+ (v, f) +]}) (O ⊎ {[+ (v, f) +]}) F else inv (3 + k) g (set_world w st) R O F.
Proof.
  intros Hi. unfold vfs_open. pose proof (inv_open Hi) as Ho.
  destruct (negb _); [exists (world st), EINVAL, 0; by rewrite set_world_same|].
  destruct (open_vnode_spec _ g st R O F path openflags Hi) as (w & e & v & -> & Hg). rewrite bind_Ok.
  destruct (negb (e =? 0)) eqn:Ee.
  { exists w, e, 0. split; [done|]. apply gives_err in Hg; [|done]. by destruct (e =? 0). }
  apply negb_false_iff, Z.eqb_eq in Ee as ->. apply gives_0 in Hg as [f Hi1].
  destruct (refs_vnode _ _ _ _ _ _ (inv_refs Hi1) (in_refs R (v, f) _)) as (Hv0 & _). destruct (Z.eqb_spec v 0); [done|]. cbn [negb assert]. rewrite bind_Ok.
  destruct (VOP_spec _ g _ _ O F v f (vop_open v openflags) _ Hi1 (in_one R _) (fun Hr Hs Hv => refs_open _ _ _ _ _ _ openflags Hr Hs Hv)) as ([e2 w2] & -> & Hw2). rewrite bind_Ok.
  pose proof (inv_world _ _ _ _ _ _ _ _ _ w2 Hi1 (inv_open Hi1) (le_n _) Hw2) as Hi2. destruct (negb (e2 =? 0)) eqn:Ee2.
  { destruct (decref_spec _ _ _ _ _ _ _ _ Hi2 Ho) as (w3 & E3 & Hi3). rewrite E3, bind_Ok. exists w3, e2, 0. split; [done|]. by destruct (e2 =? 0). }
  destruct (incopen_spec _ _ _ _ _ _ _ _ Hi2 Ho) as (w3 & E3 & Hi3). rewrite E3, bind_Ok.
  destruct (open_truncate_spec _ _ _ _ _ _ _ _ (flag openflags O_TRUNC) (negb (Z.land openflags O_ACCMODE =? O_RDONLY)) Hi3) as (w4 & e4 & E4 & Hi4). rewrite E4.
  rewrite bind_Ok. destruct (negb (e4 =? 0)) eqn:Ee4; [|exists w4, 0, v; split; [done|]; by exists f].
  destruct (vfs_close_spec _ _ _ _ _ _ _ _ Hi4) as (w5 & E5 & Hi5). unfold vfs_close in E5. exists w5, e4, 0. split; [|by destruct (e4 =? 0)].
  apply bind_Ok_inv in E5 as (s5 & E6 & E7). rewrite E6, bind_Ok, E7, bind_Ok. done.
Qed.

(** ** The current directory and the boot directory *)

Lemma drop_old_spec st T O F t : refs (world st) (T ⊎ opt_refs t) O F -> O ⊆ T ->
  exists w, drop_old (fst <$> t) st = Ok (set_world w st) /\ refs w T O F.
Proof.
  intros Hr Ho. destruct t as [[v f]|]; cbn [drop_old fmap option_fmap option_map fst opt_refs] in *.
  - destruct (refs_decref _ _ _ _ _ _ Hr Ho) as (w & E & Hw). exists w. unfold decref. by rewrite E.
  - exists (world st). rewrite set_world_same. split; [done|]. eapply refs_eq; [exact Hr|multiset_solver].
Qed.

(** The current directory becomes [c], whose reference the caller gives up. *)
Lemma change_cwd k g st R O F (c : option ref) : inv k g st (R ⊎ opt_refs c) O F -> O ⊆ R -> (forall t, c = Some t -> snd t <> None) ->
  exists w, drop_old (t_cwd st) (set_cwd (fst <$> c) st) = Ok (set_world w (set_cwd (fst <$> c) st)) /\
    inv (match c with Some _ => 1 + k | None => k end) (mk_ghost c (g_boot g)) (set_world w (set_cwd (fst <$> c) st)) R O F.
Proof.
  intros Hi Ho Hc. rewrite (inv_cwd Hi).
  destruct (drop_old_spec (set_cwd (fst <$> c) st) (R ⊎ kernel_refs (mk_ghost c (g_boot g)) st) O F (g_cwd g)) as (w & E & Hw).
  - eapply refs_eq; [apply Hi|]. unfold kernel_refs. cbn [g_cwd g_boot]. multiset_solver.
  - multiset_solver.
  - exists w. split; [done|]. destruct Hi. split; try done. cbn [knowndevs set_world set_cwd]. rewrite gmultiset_size_disj_union, opt_refs_size in *. destruct c; lia.
Qed.

Lemma change_bootfs_spec k g st R O F (c : option ref) : inv k g st (R ⊎ opt_refs c) O F -> O ⊆ R ->
  exists st', change_bootfs (fst <$> c) st = Ok st' /\ inv (match c with Some _ => 1 + k | None => k end) (mk_ghost (g_cwd g) c) st' R O F.
Proof.
  intros Hi Ho. unfold change_bootfs, acquire_bootfs, release_bootfs. rewrite (proj2 (inv_unlocked Hi)), bind_Ok.
  cbn [bootfs_vnode set_bootfs_lock bootfs_lock set_bootfs assert]. rewrite !bind_Ok, (inv_boot Hi).
  destruct (drop_old_spec (set_bootfs_lock false (set_bootfs (fst <$> c) (set_bootfs_lock true st))) (R ⊎ kernel_refs (mk_ghost (g_cwd g) c) st) O F (g_boot g)) as (w & E & Hw).
  - eapply refs_eq; [apply Hi|]. unfold kernel_refs. cbn [g_cwd g_boot]. multiset_solver.
  - multiset_solver.
  - eexists. split; [exact E|]. destruct Hi as [? ? ? ? ? ? ? ? [? ?]]. split; try done. cbn [knowndevs set_world set_bootfs_lock set_bootfs]. rewrite gmultiset_size_disj_union, opt_refs_size in *. destruct c; lia.
Qed.

Lemma vfs_setcurdir_spec k g st R O F v f : inv (1 + k) g st (R ⊎ {[+ (v, f) +]}) O F -> O ⊆ R ->
  exists st' e, vfs_setcurdir v st = Ok (st', e) /\
    if e =? 0 then inv (2 + k) (mk_ghost (Some (v, f)) (g_boot g)) st' R O F else st' = st.
Proof.
  intros Hi Ho. unfold vfs_setcurdir.
  destruct (VOP_spec _ g _ _ O F v f (vop_gettype v) _ Hi (in_one R _) (fun Hr Hs Hv => refs_gettype _ _ _ _ _ _ Hr Hs Hv)) as ([e t] & -> & Ht). rewrite bind_Ok.
  destruct (Z.eqb_spec e 0) as [->|He]; cbn [negb].
  2:{ exists st, e. split; [done|]. by destruct (Z.eqb_spec e 0). }
  destruct (S_ISDIR t); cbn [negb]; [|by exists st, ENOTDIR].
  destruct (change_cwd _ g st R O F (Some (v, f)) Hi Ho) as (w & E & Hw).
  - intros ? [= <-]. by apply Ht.
  - cbn [fmap option_fmap option_map fst] in E. rewrite E, bind_Ok. by eexists _, 0.
Qed.

Lemma vfs_clearcurdir_spec k g st R O F : inv k g st R O F -> exists st', vfs_clearcurdir st = Ok (st', 0) /\ inv k (mk_ghost None (g_boot g)) st' R O F.
Proof.
  intros Hi. unfold vfs_clearcurdir. destruct (change_cwd k g st R O F None) as (w & E & Hw); [|apply Hi|done|].
  - cbn [opt_refs]. by rewrite gmultiset_disj_union_right_id.
  - cbn [fmap option_fmap option_map] in E. rewrite E, bind_Ok. by eexists.
Qed.

Lemma vfs_chdir_spec k g st R O F path : inv (3 + k) g st R O F ->
  exists g' st' e, vfs_chdir path st = Ok (st', e) /\ inv (3 + k) g' st' R O F.
Proof.
  intros Hi. unfold vfs_chdir. pose proof (inv_open Hi) as Ho.
  destruct (vfs_lookup_spec _ g st R O F path Hi) as (w & e & v & -> & Hg). rewrite bind_Ok.
  destruct (negb (e =? 0)) eqn:Ee; [eexists g, _, e; split; [done|]; by eapply gives_err|].
  apply negb_false_iff, Z.eqb_eq in Ee as ->. apply gives_0 in Hg as [f Hi1].
  destruct (vfs_setcurdir_spec _ _ _ _ _ _ _ _ Hi1 Ho) as (st' & e & -> & Hs). rewrite bind_Ok. destruct (e =? 0) eqn:Ee; cbn [negb].
  - by eexists _, _, _.
  - subst st'. destruct (decref_spec _ _ _ _ _ _ _ _ Hi1 Ho) as (w2 & -> & Hi2). rewrite bind_Ok. by eexists _, _, _.
Qed.

Lemma vfs_clearbootfs_spec k g st R O F : inv k g st R O F -> exists g' st', vfs_clearbootfs st = Ok st' /\ inv k g' st' R O F.
Proof.
  intros Hi. destruct (change_bootfs_spec k g st R O F None) as (st' & E & Hw); [|apply Hi|by eexists _, _].
  cbn [opt_refs]. by rewrite gmultiset_disj_union_right_id.
Qed.

(** A mounted file system has a name: that of its device at least. *)
Lemma getdevname_found l x : x ∈ omap kd_fs l -> exists name, getdevname_loop l x = Some name.
Proof.
  induction l as [|kd l IH]; intros Hx; [by apply not_elem_of_nil in Hx|]. cbn [getdevname_loop]. case_bool_decide as E; [by eexists|]. apply IH.
  cbn in Hx. destruct (kd_fs kd) as [y|]; [|done]. apply elem_of_cons in Hx as [->|?]; done.
Qed.

Lemma volume_name k g st R O F x : inv k g st R O F -> x ∈ F ->
  exists vol name, fsop_getvolname x (world st) = Ok vol /\
    (match vol with Some name => Ok (st, Some name) | None => vfs_getdevname x st end) = Ok (st, Some name).
Proof.
  intros Hi Hx. destruct (refs_getvolname _ _ _ _ x (inv_refs Hi) Hx) as (vol & E & _). exists vol. destruct vol as [name|]; [by exists name|].
  destruct (getdevname_found (knowndevs st) x) as [name En]. { rewrite (proj2 (inv_mounts Hi)) in Hx. by apply elem_of_list_to_set in Hx. }
  exists name. split; [done|]. unfold vfs_getdevname. pose proof (refs_fs _ _ _ _ x (inv_refs Hi) Hx). destruct (Z.eqb_spec x 0); [done|]. cbn [negb assert]. rewrite bind_Ok.
  destruct (devs_locked st (world st) (proj1 (inv_unlocked Hi))) as [Ea Er]. rewrite Ea, bind_Ok. cbn [knowndevs set_devs_lock]. rewrite En.
  rewrite !set_world_same in Er. change (set_world (world st) (set_devs_lock true st)) with (set_devs_lock true st) in Er. rewrite Er. done.
Qed.

(** Asking for the current directory never fails an assertion. *)
Lemma vfs_getcwd_spec k g st R O F valid cs u : inv (2 + k) g st R O F -> kernel_read u ->
  exists w e u', vfs_getcwd valid cs u st = Ok (set_world w st, e, u') /\ inv (2 + k) g (set_world w st) R O F.
Proof.
  intros Hi Hu. pose proof (inv_open Hi) as Ho. unfold vfs_getcwd. rewrite (proj1 (proj2 Hu)). cbn [negb assert]. rewrite bind_Ok.
  destruct (vfs_getcurdir_spec (1 + k) g st R O F Hi) as (w & e & v & -> & [(-> & x & _ & Hi1)|(-> & Hi1)]); rewrite bind_Ok; cbn [negb Z.eqb ENOENT]; [|by eexists _, _, _].
  assert ((v, Some x) ∈ R ⊎ {[+ (v, Some x) +]} ⊎ kernel_refs g (set_world w st)) as Hv by apply in_refs.
  destruct (refs_vnode _ _ _ _ _ _ (inv_refs Hi1) Hv) as (_ & vn & Ev & _ & Ef & HF & _). unfold vn_deref. rewrite Ev, bind_Ok, Ef.
  destruct (volume_name _ _ _ _ _ _ x Hi1 (HF x eq_refl)) as (vol & name & -> & E). rewrite bind_Ok, E, bind_Ok.
  destruct (uiomove_kernel valid cs name (Z.of_nat (length name)) u Hu) as (u1 & -> & Hu1); [lia|]. rewrite bind_Ok. cbn [negb Z.eqb].
  destruct (uiomove_kernel valid cs [58] 1 u1 Hu1) as (u2 & -> & Hu2); [done|]. rewrite bind_Ok. cbn [negb Z.eqb].
  destruct (VOP_spec _ g _ _ O F v (Some x) (vop_namefile v u2) _ Hi1 (in_one R _) (fun Hr Hs Hv => refs_namefile _ _ _ _ _ _ u2 Hr Hs Hv)) as ([[e2 u3] w2] & -> & Hw2). rewrite !bind_Ok.
  pose proof (inv_world _ _ _ _ _ _ _ _ _ w2 Hi1 (inv_open Hi1) (le_n _) Hw2) as Hi2.
  destruct (decref_spec _ _ _ _ _ _ _ _ Hi2 Ho) as (w3 & E3 & Hi3). rewrite E3, bind_Ok. by exists w3, e2, u3.
Qed.

Lemma vfs_setbootfs_spec k g st R O F fsname : inv (3 + k) g st R O F ->
  exists g' st' e, vfs_setbootfs fsname st = Ok (st', e) /\ inv (3 + k) g' st' R O F.
Proof.
  intros Hi. unfold vfs_setbootfs. pose proof (inv_open Hi) as Ho. destruct (bootfs_path fsname) as [tmp|]; [|by eexists _, _, _].
  destruct (vfs_chdir_spec _ g st R O F tmp Hi) as (g' & st' & e & -> & Hi1). rewrite bind_Ok. destruct (negb (e =? 0)); [by eexists _, _, _|].
  destruct (vfs_getcurdir_spec _ g' st' R O F Hi1) as (w & e2 & v & -> & [(-> & x & _ & Hi2)|(-> & Hi2)]); rewrite bind_Ok; cbn [negb Z.eqb ENOENT].
  - destruct (change_bootfs_spec _ _ _ _ _ _ (Some (v, Some x)) Hi2 Ho) as (st2 & E2 & Hi3). cbn [fmap option_fmap option_map fst] in E2. rewrite E2, bind_Ok. by eexists _, _, _.
  - by eexists _, _, _.
Qed.

(** ** Mounting *)

Lemma vfs_sync_loop_spec w T O F l : refs w T O F -> Forall (kd_ok F) l -> ok_with (sync_loop l w) (fun w' => refs w' T O F).
Proof.
  intros Hr Hl. revert w Hr. induction Hl as [|kd l [Hf _] _ IH]; intros w Hr; cbn [sync_loop]; [by eexists|].
  destruct (kd_fs kd) as [x|]; [|by apply IH]. destruct (refs_sync _ _ _ _ _ Hr (Hf x eq_refl)) as ([e w'] & -> & Hw). rewrite bind_Ok. by apply IH.
Qed.

Lemma vfs_sync_neutral : neutral vfs_sync.
Proof.
  intros k g st R O F Hi. destruct (vfs_sync_loop_spec _ _ _ _ _ (inv_refs Hi) (inv_devs Hi)) as (w & E & Hw).
  destruct (devs_locked st w (proj1 (inv_unlocked Hi))) as [Ea Er]. exists w, 0. unfold vfs_sync.
  rewrite Ea, bind_Ok. cbn [knowndevs world set_devs_lock]. rewrite E, bind_Ok, Er, bind_Ok. split; [done|].
  exact (inv_world _ _ _ _ _ _ _ _ _ w Hi (inv_open Hi) (le_n _) Hw).
Qed.

Lemma findmount_loop_spec l i name j : findmount_loop l i name = Some j ->
  exists kd, l !! (j - i)%nat = Some kd /\ (i <= j)%nat /\ kd_rawname kd <> None /\ kd_name kd = name.
Proof.
  revert i. induction l as [|kd l IH]; intros i E; cbn [findmount_loop] in E; [done|].
  assert (findmount_loop l (i + 1) name = Some j -> exists kd', (kd :: l) !! (j - i)%nat = Some kd' /\ (i <= j)%nat /\ kd_rawname kd' <> None /\ kd_name kd' = name) as Hrec.
  { intros Ej. destruct (IH _ Ej) as (kd' & Hl & Hij & Hk). exists kd'. replace (j - i)%nat with (1 + (j - (i + 1)))%nat by lia. split; [done|]. split; [lia|done]. }
  case_bool_decide as Er; [by apply Hrec|]. unfold str_eq in E. case_bool_decide as En; [|by apply Hrec].
  injection E as <-. exists kd. rewrite Nat.sub_diag. by repeat split.
Qed.

(** The device that [findmount] gives. *)
Lemma findmount_spec st name : knowndevs_lock st = true ->
  findmount name st = Ok (ENODEV, 0%nat) \/
  exists i kd, findmount name st = Ok (0, i) /\ knowndevs st !! i = Some kd /\ kd_rawname kd <> None /\ kd_name kd = name.
Proof.
  intros Hl. unfold findmount. rewrite Hl. cbn [assert]. rewrite bind_Ok. destruct (findmount_loop _ _ _) as [j|] eqn:E; [|by left]. right.
  apply findmount_loop_spec in E as (kd & Hk & _ & Hd). rewrite Nat.sub_0_r in Hk. by exists j, kd.
Qed.

Lemma kd_ok_mounts l : Forall (fun kd => kd_rawname kd <> None \/ kd_fs kd = None -> kd_device kd <> None) l ->
  Forall (kd_ok (list_to_set (omap kd_fs l))) l.
Proof.
  intros Hl. rewrite Forall_forall in *. intros kd Hk. split; [|exact (Hl kd Hk)]. intros x Hx. apply elem_of_list_to_set.
  apply list_elem_of_omap. exists kd. split; [by apply list_elem_of_In|done].
Qed.

(** A device whose file system changes. *)
Lemma inv_remount k g st R O F F' w l : inv k g st R O F -> refs w (R ⊎ kernel_refs g st) O F' ->
  Forall2 (fun kd kd' => exists fs, kd' = set_kd_fs fs kd /\ (fs = None -> kd_fs kd <> None -> kd_rawname kd <> None)) (knowndevs st) l ->
  NoDup (omap kd_fs l) -> F' = list_to_set (omap kd_fs l) ->
  inv k g (set_world w (set_devs l st)) R O F'.
Proof.
  intros Hi Hr Hl Hnd HF. split; try apply Hi.
  - eapply refs_eq; [exact Hr|]. f_equal. unfold kernel_refs, dev_refs. cbn [knowndevs set_world set_devs]. do 2 f_equal. clear -Hl.
    induction Hl as [|kd ? ? ? [fs [-> _]] _ IH]; [done|]. rewrite !filter_cons. cbn [set_kd_fs kd_device]. case_decide; by rewrite ?fmap_cons, IH.
  - cbn [knowndevs set_world set_devs]. rewrite HF. apply kd_ok_mounts. pose proof (inv_devs Hi) as Hd. clear -Hl Hd.
    induction Hl as [|kd kd' l l' [fs [-> Hfs]] Hl IH]; [done|]. apply Forall_cons_iff in Hd as [[_ Hk] Hd]. constructor; [|by apply IH].
    cbn [set_kd_fs kd_rawname kd_fs kd_device]. intros [Hn|Hn]; [apply Hk; by left|]. apply Hk.
    destruct (kd_fs kd) eqn:Ef; [|by right]. left. by apply Hfs.
  - by split.
  - cbn [knowndevs set_world set_devs]. rewrite <-(Forall2_length Hl). apply Hi.
Qed.

(** The list of mounted file systems around one device. *)
Lemma mounts_middle l i kd : l !! i = Some kd -> omap kd_fs l = omap kd_fs (take i l) ++ (match kd_fs kd with Some x => [x] | None => [] end) ++ omap kd_fs (drop (Datatypes.S i) l).
Proof.
  intros Hk. rewrite <-(take_drop_middle l i kd Hk) at 1. rewrite omap_app. f_equal. simpl. by destruct (kd_fs kd).
Qed.

Lemma mounts_insert l i kd fs : l !! i = Some kd ->
  omap kd_fs (<[i := set_kd_fs fs kd]> l) = omap kd_fs (take i l) ++ (match fs with Some x => [x] | None => [] end) ++ omap kd_fs (drop (Datatypes.S i) l).
Proof.
  intros Hk. pose proof (lookup_lt_Some _ _ _ Hk) as Hlt. rewrite (mounts_middle _ i (set_kd_fs fs kd)); [|by apply list_lookup_insert_eq].
  rewrite take_insert_ge by lia. by rewrite drop_insert_lt by lia.
Qed.

Lemma remount_one (l : list knowndev) i kd fs : l !! i = Some kd -> (fs = None -> kd_fs kd <> None -> kd_rawname kd <> None) ->
  Forall2 (fun kd kd' => exists fs, kd' = set_kd_fs fs kd /\ (fs = None -> kd_fs kd <> None -> kd_rawname kd <> None)) l (<[i := set_kd_fs fs kd]> l).
Proof.
  intros Hk Hfs. apply Forall2_same_length_lookup. split; [by rewrite length_insert|]. intros j a b Ha Hb.
  destruct (decide (i = j)) as [<-|Hne].
  - rewrite list_lookup_insert_eq in Hb by (by eapply lookup_lt_Some). simplify_eq. by exists fs.
  - rewrite list_lookup_insert_ne in Hb by done. simplify_eq. exists (kd_fs a). split; [by destruct a|done].
Qed.

(** A mount function makes a file system that is not yet mounted. *)
Definition mount_ok (mountfunc : Z -> S -> res (Z * option Z * S)) : Prop :=
  forall w T O F dev, refs w T O F -> room T ->
    ok_with (mountfunc dev w) (fun '(e, fs, w') => if e =? 0 then exists x, fs = Some x /\ (x ∉ F) /\ refs w' T O (F ∪ {[x]}) else refs w' T O F).

(** Giving back the lock of the devices after a change of the table. *)
Lemma release_spec st l (w : S) : knowndevs_lock st = false ->
  release_devs (set_devs l (set_world w (set_devs_lock true st))) = Ok (set_world w (set_devs l st)).
Proof. intros E. unfold release_devs. cbn. unfold set_devs_lock, set_devs, set_world. cbn. by rewrite E. Qed.

Lemma set_devs_same st : set_devs (knowndevs st) st = st.
Proof. by destruct st. Qed.

(** A file system is added where there was none. *)
Lemma inv_mount k g st R O F w i kd x : inv k g st R O F -> knowndevs st !! i = Some kd -> kd_fs kd = None ->
  x ∉ F -> refs w (R ⊎ kernel_refs g st) O (F ∪ {[x]}) ->
  inv k g (set_world w (set_devs (<[i := set_kd_fs (Some x) kd]> (knowndevs st)) st)) R O (F ∪ {[x]}).
Proof.
  intros Hi Hk Hfs Hx Hr. destruct (inv_mounts Hi) as [Hnd HF]. rewrite (mounts_middle _ _ _ Hk), Hfs in Hnd, HF. cbn [app] in Hnd, HF.
  eapply inv_remount; [exact Hi|exact Hr|by apply remount_one| |]; rewrite (mounts_insert _ _ _ _ Hk); cbn [app].
  - rewrite <-Permutation_middle. apply NoDup_cons_2; [|done]. intros Hin. apply Hx. rewrite HF. by apply elem_of_list_to_set.
  - rewrite HF, !list_to_set_app_L, list_to_set_cons. set_solver.
Qed.

(** A file system is taken out. *)
Lemma inv_unmount k g st R O F w i kd x : inv k g st R O F -> knowndevs st !! i = Some kd -> kd_fs kd = Some x -> kd_rawname kd <> None ->
  refs w (R ⊎ kernel_refs g st) O (F ∖ {[x]}) ->
  inv k g (set_world w (set_devs (<[i := set_kd_fs None kd]> (knowndevs st)) st)) R O (F ∖ {[x]}).
Proof.
  intros Hi Hk Hfs Hraw Hr. destruct (inv_mounts Hi) as [Hnd HF]. rewrite (mounts_middle _ _ _ Hk), Hfs in Hnd, HF. cbn [app] in Hnd, HF.
  rewrite <-Permutation_middle in Hnd. pose proof (NoDup_cons_1_1 _ _ Hnd) as Hx. apply NoDup_cons_1_2 in Hnd.
  eapply inv_remount; [exact Hi|exact Hr|by apply remount_one| |]; rewrite (mounts_insert _ _ _ _ Hk); cbn [app]; [done|].
  rewrite <-(elem_of_list_to_set (C := gset Z)), list_to_set_app_L in Hx. rewrite HF, !list_to_set_app_L, list_to_set_cons. set_solver.
Qed.

Lemma vfs_mount_spec k g st R O F name mountfunc : inv (1 + k) g st R O F -> mount_ok mountfunc ->
  exists F' st' e, vfs_mount name mountfunc st = Ok (st', e) /\ inv (1 + k) g st' R O F'.
Proof.
  intros Hi Hm. unfold vfs_mount, acquire_devs. pose proof (proj1 (inv_unlocked Hi)) as Hl. rewrite Hl, bind_Ok.
  assert (forall e : Z, exists F' st' e', ((st ← release_devs (set_devs_lock true st); Ok (st, e)) = Ok (st', e')) /\ inv (1 + k) g st' R O F') as Hout.
  { intros e. exists F, st, e. split; [|done]. pose proof (devs_locked st (world st) Hl) as [_ Er]. rewrite set_world_same in Er.
    change (set_world (world st) (set_devs_lock true st)) with (set_devs_lock true st) in Er. by rewrite Er. }
  destruct (findmount_spec (set_devs_lock true st) name eq_refl) as [->|(i & kd & -> & Hk & Hraw & Hn)]; rewrite bind_Ok; cbn [negb Z.eqb ENODEV].
  { rewrite bind_Ok. apply Hout. }
  unfold get_kd. rewrite Hk, bind_Ok. cbn [knowndevs set_devs_lock] in Hk. destruct (kd_fs kd) as [y|] eqn:Ef.
  { rewrite bool_decide_true by done. rewrite bind_Ok. apply Hout. }
  rewrite bool_decide_false by (by intros Hc; apply Hc). rewrite bool_decide_true by done. cbn [assert]. rewrite bind_Ok.
  pose proof (inv_devs Hi) as Hd. eapply Forall_lookup_1 in Hd; [|exact Hk]. destruct Hd as [_ Hd].
  destruct (kd_device kd) as [dev|]; [|by destruct Hd; [left|]].
  destruct (Hm _ _ _ _ dev (inv_refs Hi) (inv_spare Hi)) as ([[e fs] w] & Em & Hw). cbn [world set_devs_lock]. rewrite Em, bind_Ok.
  destruct (e =? 0); cbn [negb].
  - destruct Hw as (x & -> & Hx & Hw). cbn [world set_devs set_world]. destruct (refs_getvolname _ _ _ _ x Hw) as (vol & -> & _); [set_solver|]. rewrite !bind_Ok. cbn [knowndevs set_world set_devs_lock].
    pose proof (inv_mount _ _ _ _ _ _ w i kd x Hi Hk Ef Hx Hw) as Hi2. exists (F ∪ {[x]}). eexists _, 0. split; [|exact Hi2].
    by rewrite (release_spec st _ w Hl).
  - rewrite bind_Ok, (proj2 (devs_locked st w Hl)), bind_Ok. exists F. eexists _, e. split; [done|].
    exact (inv_world _ _ _ _ _ _ _ _ _ w Hi (inv_open Hi) (le_n _) Hw).
Qed.

Lemma vfs_unmount_spec k g st R O F name : inv k g st R O F ->
  exists F' st' e, vfs_unmount name st = Ok (st', e) /\ inv k g st' R O F'.
Proof.
  intros Hi. unfold vfs_unmount, acquire_devs. pose proof (proj1 (inv_unlocked Hi)) as Hl. rewrite Hl, bind_Ok.
  pose proof (inv_refs Hi) as Hr.
  assert (forall (e : Z) w, refs w (R ⊎ kernel_refs g st) O F ->
    exists F' st' e', ((st ← release_devs (set_world w (set_devs_lock true st)); Ok (st, e)) = Ok (st', e')) /\ inv k g st' R O F') as Hout.
  { intros e w Hw. exists F, (set_world w st), e. rewrite (proj2 (devs_locked st w Hl)). split; [done|].
    exact (inv_world _ _ _ _ _ _ _ _ _ w Hi (inv_open Hi) (le_n _) Hw). }
  destruct (findmount_spec (set_devs_lock true st) name eq_refl) as [->|(i & kd & -> & Hk & Hraw & Hn)]; rewrite bind_Ok; cbn [negb Z.eqb ENODEV].
  { rewrite bind_Ok. exact (Hout ENODEV (world st) Hr). }
  unfold get_kd. rewrite Hk, bind_Ok. cbn [knowndevs set_devs_lock] in Hk.
  pose proof (inv_devs Hi) as Hd. eapply Forall_lookup_1 in Hd; [|exact Hk]. destruct Hd as [HF Hd].
  destruct (kd_fs kd) as [x|] eqn:Ef; [|rewrite bind_Ok; exact (Hout EINVAL (world st) Hr)].
  rewrite (bool_decide_true (kd_rawname kd <> None)) by done. rewrite (bool_decide_true (kd_device kd <> None)) by (apply Hd; by left). cbn [assert world set_devs_lock]. rewrite !bind_Ok.
  destruct (refs_sync _ _ _ _ _ Hr (HF x eq_refl)) as ([e w] & -> & Hw). rewrite bind_Ok.
  destruct (negb (e =? 0)); [rewrite bind_Ok; by apply Hout|]. cbn [world set_world].
  destruct (refs_unmount _ _ _ _ _ Hw (HF x eq_refl)) as ([e2 w2] & -> & Hw2). rewrite bind_Ok.
  destruct (e2 =? 0); cbn [negb]; [|rewrite bind_Ok; by apply Hout]. rewrite bind_Ok.
  exists (F ∖ {[x]}). eexists _, 0. split; [|exact (inv_unmount _ _ _ _ _ _ w2 i kd x Hi Hk Ef Hraw Hw2)].
  change (set_world w2 (set_world w (set_devs_lock true st))) with (set_world w2 (set_devs_lock true st)). cbn [knowndevs set_world set_devs_lock].
  by rewrite (release_spec st _ w2 Hl).
Qed.

Lemma unmount_one_spec w T O F kd : refs w T O F -> kd_ok F kd ->
  exists kd' w', unmount_one kd w = Ok (kd', w') /\
    (kd' = kd /\ refs w' T O F \/ exists x, kd_fs kd = Some x /\ kd' = set_kd_fs None kd /\ kd_rawname kd <> None /\ refs w' T O (F ∖ {[x]})).
Proof.
  intros Hr [Hf _]. unfold unmount_one. destruct (kd_rawname kd) as [raw|] eqn:Eraw; [|eexists _, _; split; [done|by left]].
  destruct (kd_fs kd) as [x|] eqn:Ef; [|eexists _, _; split; [done|by left]].
  destruct (refs_sync _ _ _ _ _ Hr (Hf x eq_refl)) as ([e w1] & -> & Hw1). rewrite bind_Ok.
  assert (ok_with (if negb (e =? 0) then fsop_sync x w1 else Ok (e, w1)) (fun '(_, w') => refs w' T O F)) as ([e2 w2] & -> & Hw2).
  { destruct (negb (e =? 0)); [by apply refs_sync, Hf|by eexists]. }
  rewrite bind_Ok. destruct (negb (e2 =? 0)); [eexists _, _; split; [done|by left]|].
  destruct (refs_unmount _ _ _ _ _ Hw2 (Hf x eq_refl)) as ([e3 w3] & -> & Hw3). rewrite bind_Ok.
  destruct (Z.eqb_spec e3 0) as [->|He3]; [cbn [Z.eqb EBUSY negb]; eexists _, _; split; [done|right; by exists x]|].
  destruct (e3 =? EBUSY); eexists _, _; (split; [done|by left]).
Qed.

Lemma mounts_cons kd l : omap kd_fs (kd :: l) = match kd_fs kd with Some x => x :: omap kd_fs l | None => omap kd_fs l end.
Proof. done. Qed.

(** [X] is what is mounted on the devices before. *)
Lemma unmountall_loop_spec w T O X l : refs w T O (X ∪ list_to_set (omap kd_fs l)) ->
  Forall (fun kd => kd_rawname kd <> None \/ kd_fs kd = None -> kd_device kd <> None) l ->
  NoDup (omap kd_fs l) -> X ## list_to_set (omap kd_fs l) ->
  exists l' w', unmountall_loop l w = Ok (l', w') /\ refs w' T O (X ∪ list_to_set (omap kd_fs l')) /\ NoDup (omap kd_fs l') /\
    omap kd_fs l' ⊆ omap kd_fs l /\
    Forall2 (fun kd kd' => exists fs, kd' = set_kd_fs fs kd /\ (fs = None -> kd_fs kd <> None -> kd_rawname kd <> None)) l l'.
Proof.
  revert w X. induction l as [|kd l IH]; intros w X Hr Hl Hnd HX; cbn [unmountall_loop].
  { exists [], w. by repeat split. }
  apply Forall_cons_iff in Hl as [Hkd Hl].
  assert (kd_ok (X ∪ list_to_set (omap kd_fs (kd :: l))) kd) as Hok.
  { split; [|done]. intros x Hx. rewrite mounts_cons, Hx. set_solver. }
  destruct (unmount_one_spec _ _ _ _ kd Hr Hok) as (kd' & w' & -> & [[-> Hw]|(x & Hx & -> & Hraw & Hw)]); rewrite bind_Ok.
  - destruct (kd_fs kd) as [x|] eqn:Ex; rewrite mounts_cons, Ex in Hnd, HX, Hw.
    + pose proof (NoDup_cons_1_1 _ _ Hnd) as Hx. apply NoDup_cons_1_2 in Hnd. rewrite <-(elem_of_list_to_set (C := gset Z)) in Hx.
      destruct (IH w' (X ∪ {[x]})) as (l' & w2 & -> & Hw2 & Hnd2 & Hsub & Hf2); [|done|done|set_solver|].
      * rewrite list_to_set_cons in Hw. by rewrite (assoc_L (∪)) in Hw.
      * rewrite bind_Ok. eexists _, _. split; [done|]. rewrite !mounts_cons, Ex, list_to_set_cons, (assoc_L (∪)). split; [done|].
        rewrite elem_of_list_to_set in Hx. split; [apply NoDup_cons_2; [set_solver|done]|]. split; [set_solver|].
        constructor; [|done]. exists (kd_fs kd). split; [by destruct kd|congruence].
    + destruct (IH w' X) as (l' & w2 & -> & Hw2 & Hnd2 & Hsub & Hf2); [done..|]. rewrite bind_Ok. eexists _, _. split; [done|]. rewrite !mounts_cons, Ex.
      split; [done|]. split; [done|]. split; [done|]. constructor; [|done]. exists (kd_fs kd). split; [by destruct kd|congruence].
  - rewrite mounts_cons, Hx in Hnd, HX, Hw. pose proof (NoDup_cons_1_1 _ _ Hnd) as Hx'. apply NoDup_cons_1_2 in Hnd. rewrite <-(elem_of_list_to_set (C := gset Z)) in Hx'.
    destruct (IH w' X) as (l' & w2 & -> & Hw2 & Hnd2 & Hsub & Hf2); [|done|done|set_solver|].
    + rewrite list_to_set_cons in Hw, HX. replace (_ ∪ ({[x]} ∪ _)) with (X ∪ list_to_set (omap kd_fs l) ∪ {[x]}) in Hw by set_solver.
      rewrite difference_union_distr_l_L, difference_diag_L, (right_id_L ∅ (∪)), difference_disjoint_L in Hw by set_solver. done.
    + rewrite bind_Ok. eexists _, _. split; [done|]. rewrite !mounts_cons, Hx. cbn [kd_fs set_kd_fs]. split; [done|]. split; [done|]. split; [set_solver|].
      constructor; [|done]. by exists None.
Qed.

Lemma vfs_unmountall_spec k g st R O F : inv k g st R O F ->
  exists F' st', vfs_unmountall st = Ok (st', 0) /\ inv k g st' R O F'.
Proof.
  intros Hi. unfold vfs_unmountall, acquire_devs. pose proof (proj1 (inv_unlocked Hi)) as Hl. rewrite Hl, bind_Ok. cbn [knowndevs world set_devs_lock].
  destruct (inv_mounts Hi) as [Hnd HF]. pose proof (inv_refs Hi) as Hr. rewrite HF, <-(left_id_L ∅ (∪) (list_to_set _)) in Hr.
  destruct (unmountall_loop_spec _ _ _ _ _ Hr) as (l & w & -> & Hw & Hnd2 & _ & Hf2); [|done|set_solver|].
  { eapply Forall_impl; [|apply Hi]. by intros kd [_ Hk]. }
  rewrite bind_Ok, (release_spec st l w Hl), bind_Ok. rewrite (left_id_L ∅ (∪)) in Hw. eexists _, _. split; [done|]. by eapply inv_remount.
Qed.

(** ** New devices *)

Lemma badnames_loop_spec w T O F l n1 n2 n3 : refs w T O F -> Forall (kd_ok F) l -> exists b, badnames_loop l n1 n2 n3 w = Ok b.
Proof.
  intros Hr Hl. induction Hl as [|kd l [Hf _] _ IH]; cbn [badnames_loop]; [by eexists|]. destruct (kd_fs kd) as [x|].
  - destruct (refs_getvolname _ _ _ _ _ Hr (Hf x eq_refl)) as (vol & -> & _). rewrite !bind_Ok. destruct (samestring3 vol _ _ _); [by eexists|].
    destruct (_ || _); [by eexists|]. exact IH.
  - rewrite bind_Ok. destruct (_ || _); [by eexists|]. exact IH.
Qed.

Lemma dev_refs_app l kd : dev_refs (l ++ [kd]) = dev_refs l ⊎ (if decide (kd_device kd <> None) then {[+ (kd_vnode kd, None) +]} else ∅).
Proof.
  unfold dev_refs. rewrite list.filter_app, fmap_app, list_to_set_disj_app. f_equal. rewrite filter_cons, filter_nil. case_decide; [|done].
  by rewrite fmap_cons, list_to_set_disj_cons, fmap_nil, list_to_set_disj_nil, gmultiset_disj_union_right_id.
Qed.

(** The vnode that an addition of a device has made, when it has failed and
    left the vnode in memory: nobody has it. *)
Definition lost_vnode (al : add_allocs) (e : Z) w : option Z :=
  match al_vnode al with
  | Some p => if negb (e =? 0) && bool_decide (vn_lookup p w <> None) then Some p else None
  | None => None
  end.

Definition lost_ref (o : option Z) : option ref := (fun p => (p, None)) <$> o.

(** A device gets into the table, or its vnode is accounted for. *)
Lemma vfs_adddev_spec k g st R O F al name dev mountable : inv (1 + k) g st R O F -> al_lock al = true -> dev_known dev ->
  (forall p, al_vnode al = Some p -> p <> 0 /\ vn_lookup p (world st) = None) ->
  exists st' e, vfs_adddev al name dev mountable st = Ok (st', e) /\ inv k g st' (R ⊎ opt_refs (lost_ref (lost_vnode al e (world st')))) O F.
Proof.
  intros Hi Hlock Hdev Hp. unfold vfs_adddev, vfs_doadd.
  assert (forall st' e, (forall p, al_vnode al = Some p -> vn_lookup p (world st') = None) -> lost_ref (lost_vnode al e (world st')) = None) as Hgone.
  { intros st' e Hl. unfold lost_vnode. destruct (al_vnode al) as [p|]; [|done]. rewrite bool_decide_eq_false_2 by (intros Hn; by apply Hn, Hl). by rewrite andb_false_r. }
  assert (forall e, exists st' e', Ok (st, e) = Ok (st', e') /\ inv k g st' (R ⊎ opt_refs (lost_ref (lost_vnode al e' (world st')))) O F) as Hnone.
  { intros e. exists st, e. split; [done|]. rewrite Hgone by (intros; by apply Hp). cbn [opt_refs]. rewrite gmultiset_disj_union_right_id.
    rewrite <-(set_world_same st). apply (inv_world (1 + k) k _ _ R O); [done|apply Hi|lia|apply Hi]. }
  destruct (al_name al); cbn [negb]; [|by apply Hnone]. destruct (mountable && _); [by apply Hnone|].
  unfold dev_create_vnode. destruct (al_vnode al) as [p|] eqn:Ep; [|rewrite bind_Ok, set_world_same; by apply Hnone]. destruct (Hp p eq_refl) as [Hp0 Hnew].
  unfold vnode_init. rewrite Hlock. cbn [negb Z.eqb]. rewrite bind_Ok.
  pose proof (refs_device _ _ _ _ p dev (inv_refs Hi) (inv_spare Hi) Hdev Hp0 Hnew) as Hw.
  set (w := vn_store p _ (world st)) in *. destruct (refs_vnode _ _ _ _ p None Hw) as (_ & vn & Hvn & _); [multiset_solver|]. rewrite <-refs_swap in Hw.
  assert (inv k g (set_world w st) (R ⊎ opt_refs (Some (p, None))) O F) as Hi1.
  { apply (inv_world (1 + k) k _ _ R O); [done|apply open_weaken, Hi|cbn [opt_refs]; sizes|done]. }
  destruct (al_kd al); cbn [negb].
  2:{ exists (set_world (vn_free p w) (set_world w st)), ENOMEM. split; [done|]. rewrite Hgone by (intros ? [= <-]; apply free_gone). cbn [opt_refs]. rewrite gmultiset_disj_union_right_id.
      change (set_world (vn_free p w) (set_world w st)) with (set_world (vn_free p w) st).
      apply (inv_world (1 + k) k _ _ R O); [done|apply Hi|lia|exact (refs_unused _ _ _ _ _ _ (inv_refs Hi) Hnew)]. }
  rewrite bind_Ok.
  pose proof (proj1 (inv_unlocked Hi)) as Hl. unfold acquire_devs. cbn [knowndevs_lock set_world]. rewrite Hl, bind_Ok.
  unfold badnames. cbn [knowndevs_lock set_devs_lock assert]. rewrite bind_Ok.
  destruct (badnames_loop_spec _ _ _ _ _ (Some name) (if mountable then mkrawname (al_rawname al) name else None) None Hw (inv_devs Hi)) as [b Eb].
  cbn [knowndevs world set_devs_lock set_world]. rewrite Eb, bind_Ok.
  assert (forall e, e <> 0 -> exists st' e', (st ← release_devs (set_devs_lock true (set_world w st)); Ok (st, e)) = Ok (st', e') /\
    inv k g st' (R ⊎ opt_refs (lost_ref (lost_vnode al e' (world st')))) O F) as Hlost.
  { intros e He. eexists _, e. pose proof (proj2 (devs_locked st w Hl)) as Er.
    change (set_world w (set_devs_lock true st)) with (set_devs_lock true (set_world w st)) in Er. rewrite Er, bind_Ok. split; [done|].
    unfold lost_vnode. cbn [world set_world]. rewrite Ep, Hvn, bool_decide_eq_true_2 by done. by destruct (Z.eqb_spec e 0). }
  destruct b; cbn [negb]; [by apply Hlost|]. destruct (al_array al); [|by apply Hlost].
  set (kd := mk_kd _ _ _ _ _). exists (set_world w (set_devs (knowndevs st ++ [kd]) st)), 0.
  split.
  - pose proof (release_spec st (knowndevs st ++ [kd]) w Hl) as Er. change (set_world w (set_devs_lock true st)) with (set_devs_lock true (set_world w st)) in Er. by rewrite Er.
  - unfold lost_vnode. rewrite Ep. cbn [lost_ref Z.eqb negb andb fmap option_fmap option_map opt_refs]. rewrite gmultiset_disj_union_right_id. destruct Hi as [? Ho ? ? ? Hd [Hnd HF] Hroom ?]. split; try done.
    + cbn [world set_world]. eapply refs_eq; [exact Hw|]. unfold kernel_refs. cbn [knowndevs set_world set_devs]. rewrite dev_refs_app. cbn [kd_vnode kd_device kd]. rewrite decide_True by done. multiset_solver.
    + apply Forall_app. split; [done|]. constructor; [|constructor]. by split.
    + cbn [knowndevs set_world set_devs]. rewrite omap_app. cbn. by rewrite app_nil_r.
    + cbn [knowndevs set_world set_devs]. rewrite length_app. cbn [length]. lia.
Qed.

Lemma kd_ok_more F F' kd : F ⊆ F' -> kd_ok F kd -> kd_ok F' kd.
Proof. intros HF [Hx Hd]. split; [|done]. intros x E. apply HF. by apply Hx. Qed.

(** The world after an allocation of a vnode that nobody has got. *)
Definition unnoticed w w' : Prop :=
  w' = w \/ exists p vn, vn_lookup p w = None /\ (w' = vn_store p vn w \/ w' = vn_free p (vn_store p vn w)).

(** A file system [x] that is set up in the world [w] gets into the table, or
    the table is as it was. *)
Lemma vfs_addfs_spec k g st w R O F al name x : inv (1 + k) g st R O F -> x ∉ F -> refs w (R ⊎ kernel_refs g st) O (F ∪ {[x]}) -> al_lock al = true ->
  (forall p, al_vnode al = Some p -> p <> 0 /\ vn_lookup p w = None) ->
  exists st' e, vfs_addfs al name x (set_world w st) = Ok (st', e) /\
    if e =? 0 then inv k g st' R O (F ∪ {[x]}) else exists w', st' = set_world w' st /\ unnoticed w w' /\ refs w' (R ⊎ kernel_refs g st) O (F ∪ {[x]}).
Proof.
  intros Hi HxF Hr Hlock Hp. unfold vfs_addfs, vfs_doadd. cbn [andb].
  destruct (al_name al); cbn [negb]; [|eexists _, _; split; [done|]; exists w; split; [done|]; split; [by left|done]].
  unfold dev_create_vnode. destruct (al_vnode al) as [p|]; [|rewrite bind_Ok; eexists _, _; split; [done|]; exists w; split; [done|]; split; [by left|done]].
  destruct (Hp p eq_refl) as [Hp0 Hnew].
  unfold vnode_init. rewrite Hlock. cbn [negb Z.eqb]. rewrite bind_Ok. cbn [world set_world].
  pose proof (refs_nodevice _ _ _ _ p Hr Hp0 Hnew) as Hw. set (vn := mk_vnode 1 0 true None None (Some dev_vnode_ops)) in *.
  destruct (al_kd al); cbn [negb].
  2:{ eexists _, _. split; [done|]. exists (vn_free p (vn_store p vn w)). split; [done|]. split; [|by apply refs_unused]. right. exists p, vn. by split; [|right]. }
  set (w1 := vn_store p vn w) in *. change (set_world w1 (set_world w st)) with (set_world w1 st). cbn [world set_world].
  destruct (refs_getvolname _ _ _ _ x Hw) as (vol & -> & _); [set_solver|]. rewrite bind_Ok.
  pose proof (proj1 (inv_unlocked Hi)) as Hl. unfold acquire_devs. cbn [knowndevs_lock set_world]. rewrite Hl, bind_Ok.
  assert (Forall (kd_ok (F ∪ {[x]})) (knowndevs st)) as Hdevs. { eapply Forall_impl; [|exact (inv_devs Hi)]. intros kd. apply kd_ok_more. set_solver. }
  unfold badnames. cbn [knowndevs_lock set_devs_lock assert]. rewrite bind_Ok.
  destruct (badnames_loop_spec _ _ _ _ _ (Some name) None vol Hw Hdevs) as [b Eb]. cbn [knowndevs world set_devs_lock set_world]. rewrite Eb, bind_Ok.
  assert (forall e, e <> 0 -> exists st' e', (st ← release_devs (set_devs_lock true (set_world w1 st)); Ok (st, e)) = Ok (st', e') /\
    if e' =? 0 then inv k g st' R O (F ∪ {[x]}) else exists w', st' = set_world w' st /\ unnoticed w w' /\ refs w' (R ⊎ kernel_refs g st) O (F ∪ {[x]})) as Hlost.
  { intros e He. exists (set_world w1 st), e. pose proof (proj2 (devs_locked st w1 Hl)) as Er.
    change (set_world w1 (set_devs_lock true st)) with (set_devs_lock true (set_world w1 st)) in Er. rewrite Er, bind_Ok. split; [done|].
    destruct (Z.eqb_spec e 0); [done|]. exists w1. split; [done|]. split; [|done]. right. exists p, vn. by split; [|left]. }
  destruct b; cbn [negb]; [by apply Hlost|]. destruct (al_array al); [|by apply Hlost].
  set (kd := mk_kd _ _ _ _ _). exists (set_world w1 (set_devs (knowndevs st ++ [kd]) st)), 0. split.
  - pose proof (release_spec st (knowndevs st ++ [kd]) w1 Hl) as Er. change (set_world w1 (set_devs_lock true st)) with (set_devs_lock true (set_world w1 st)) in Er. by rewrite Er.
  - destruct Hi as [? Ho ? ? ? Hd [Hnd HF] Hroom ?]. split; try done.
    + cbn [world set_world]. eapply refs_eq; [exact Hw|]. unfold kernel_refs. cbn [knowndevs set_world set_devs]. rewrite dev_refs_app. cbn [kd_vnode kd_device kd].
      rewrite decide_False by (intros Hc; by apply Hc). multiset_solver.
    + apply Forall_app. split; [done|]. constructor; [|constructor]. split; [intros y [= <-]; set_solver|]. cbn. intros [?|?]; done.
    + cbn [knowndevs set_world set_devs]. rewrite omap_app. cbn. split; [|rewrite HF, list_to_set_app_L; set_solver].
      apply list.NoDup_app. split; [done|]. split; [|apply NoDup_singleton]. intros y Hy ->%list_elem_of_singleton. apply HxF. rewrite HF. by apply elem_of_list_to_set.
    + cbn [knowndevs set_world set_devs]. rewrite length_app. cbn [length]. lia.
Qed.
End refs.
