(* ===== verification/VfsDev.v ===== *)
(** * kern/fs/vfs/device.c and devnull.c: devices as files

    The operations of the vnodes of devices, over the structures that the
    drivers fill in, and the world in which all vnodes are of devices.  The
    world keeps the promises that [VfsLaws] asks for. *)
From stdpp Require Import base numbers list option gmap gmultiset.
From S2P Require Import Prelude Uio Vnode Vfs VfsSpec.
Local Open Scope Z_scope.

(** ** dev.h *)

(** [struct device] is its functions, over the state [H] of the hardware, and
    its size. *)
Record device (H : Type) : Type := mk_device {
  d_open : Z -> H -> res (Z * H);
  d_close : H -> res (Z * H);
  d_io : uio -> H -> res (Z * uio * H);
  d_ioctl : Z -> Z -> H -> res (Z * H);
  d_blocks : Z;
  d_blocksize : Z;
}.
Arguments mk_device {H}.
Arguments d_open {H}.
Arguments d_close {H}.
Arguments d_io {H}.
Arguments d_ioctl {H}.
Arguments d_blocks {H}.
Arguments d_blocksize {H}.

Record stat : Type := mk_stat { st_mode : Z; st_nlink : Z; st_size : Z; st_blocks : Z }.

(** ** The world of devices

    [devs] is the structures that the drivers have set up, by address. *)
Record dev_world (H : Type) (devs : Z -> option (device H)) : Type := mk_dw { dw_vnodes : gmap Z vnode; dw_hw : H }.
Arguments mk_dw {H devs}.
Arguments dw_vnodes {H devs}.
Arguments dw_hw {H devs}.

Section device.
Context {H : Type} {devs : Z -> option (device H)}.
Implicit Types (w : dev_world H devs) (d : device H).

Definition set_hw (h : H) w : dev_world H devs := mk_dw (dw_vnodes w) h.

(** [struct device *d = v->vn_data] *)
Definition device_of (v : Z) w : res (device H) :=
  match dw_vnodes w !! v with
  | None => Undef
  | Some vn =>
      match vn_data vn with
      | None => Undef
      | Some p => match devs p with Some d => Ok d | None => Undef end
      end
  end.

(** ** device.c *)

Definition dev_open (v flags : Z) w : res (Z * dev_world H devs) :=
  d ← device_of v w;
  if negb (Z.land flags (Z.lor (Z.lor (Z.lor O_CREAT O_TRUNC) O_EXCL) O_APPEND) =? 0) then Ok (EINVAL, w)
  else '(e, h) ← d_open d flags (dw_hw w); Ok (e, set_hw h w).

Definition dev_close (v : Z) w : res (Z * dev_world H devs) :=
  d ← device_of v w;
  '(e, h) ← d_close d (dw_hw w);
  Ok (e, set_hw h w).

Definition dev_reclaim (v : Z) w : res (Z * dev_world H devs) := Ok (0, w).

Definition dev_read (v : Z) (u : uio) w : res (Z * uio * dev_world H devs) :=
  d ← device_of v w;
  _ ← assert (negb (is_write u));
  '(e, u, h) ← d_io d u (dw_hw w);
  Ok (e, u, set_hw h w).

Definition null_io (v : Z) (u : uio) w : res (Z * uio * dev_world H devs) := Ok (EINVAL, u, w).

Definition dev_write (v : Z) (u : uio) w : res (Z * uio * dev_world H devs) :=
  d ← device_of v w;
  _ ← assert (is_write u);
  '(e, u, h) ← d_io d u (dw_hw w);
  Ok (e, u, set_hw h w).

Definition dev_ioctl (v op data : Z) w : res (Z * dev_world H devs) :=
  d ← device_of v w;
  '(e, h) ← d_ioctl d op data (dw_hw w);
  Ok (e, set_hw h w).

Definition dev_gettype (v : Z) w : res (Z * Z) :=
  d ← device_of v w;
  if d_blocks d >? 0 then Ok (0, S_IFBLK) else Ok (0, S_IFCHR).

(** [VOP_GETTYPE] is [dev_gettype] after [vnode_check]. *)
Definition dev_stat (v : Z) w : res (Z * stat) :=
  d ← device_of v w;
  let statbuf := mk_stat 0 0 0 0 in
  vn ← (match dw_vnodes w !! v with Some vn => Ok vn | None => Undef end);
  _ ← vnode_check false vn;
  '(result, mode) ← dev_gettype v w;
  if negb (result =? 0) then Ok (result, statbuf)
  else
    let size := if d_blocks d >? 0 then i32 (u32 (d_blocks d * d_blocksize d)) else 0 in
    Ok (0, mk_stat mode 1 size (d_blocks d)).

(** [pos] is converted to unsigned where it meets [d_blocksize]. *)
Definition dev_tryseek (v pos : Z) w : res Z :=
  d ← device_of v w;
  if d_blocks d >? 0 then
    if d_blocksize d =? 0 then Undef
    else if negb (u32 pos mod d_blocksize d =? 0) then Ok EINVAL
    else if pos <? 0 then Ok EINVAL
    else if u32 pos / d_blocksize d >=? d_blocks d then Ok EINVAL
    else Ok 0
  else Ok ESPIPE.

Definition null_fsync (v : Z) w : res (Z * dev_world H devs) := Ok (0, w).
Definition dev_mmap (v : Z) w : res (Z * dev_world H devs) := Ok (EUNIMP, w).

Definition dev_truncate (v len : Z) w : res (Z * dev_world H devs) :=
  d ← device_of v w;
  if (d_blocks d >? 0) && (i32 (u32 (d_blocks d * d_blocksize d)) =? len) then Ok (0, w) else Ok (EINVAL, w).

Definition dev_namefile (v : Z) (u : uio) w : res (Z * uio * dev_world H devs) := Ok (0, u, w).
Definition null_creat (v : Z) (name : list Z) (excl : bool) w : res (Z * Z * dev_world H devs) := Ok (ENOTDIR, 0, w).
Definition null_symlink (v : Z) (contents name : list Z) w : res (Z * dev_world H devs) := Ok (ENOTDIR, w).
Definition null_nameop (v : Z) (name : list Z) w : res (Z * dev_world H devs) := Ok (ENOTDIR, w).
Definition null_link (v : Z) (name : list Z) (file : Z) w : res (Z * dev_world H devs) := Ok (ENOTDIR, w).
Definition null_rename (v : Z) (n1 : list Z) (v2 : Z) (n2 : list Z) w : res (Z * dev_world H devs) := Ok (ENOTDIR, w).

Global Instance dev_vnodeops : VnodeOps (dev_world H devs) := {|
  vn_lookup v w := dw_vnodes w !! v;
  vn_store v vn w := mk_dw (<[v := vn]> (dw_vnodes w)) (dw_hw w);
  vop_reclaim := dev_reclaim;
  vop_close := dev_close;
|}.

Definition dev_lookup (dir : Z) (pathname : list Z) w : res (Z * Z * dev_world H devs) :=
  if Z.of_nat (length pathname) >? 0 then Ok (ENOENT, 0, w)
  else w ← vnode_incref dir w; Ok (0, dir, w).

Definition dev_lookparent (dir : Z) (pathname : list Z) (buflen : Z) w : res (Z * Z * list Z * dev_world H devs) :=
  Ok (ENOTDIR, 0, [], w).

(** The table [dev_vnode_ops].  There are no file systems. *)
Global Instance dev_vfsops : VfsOps (dev_world H devs) := {|
  fsop_sync _ _ := Undef;
  fsop_getvolname _ _ := Undef;
  fsop_getroot _ _ := Undef;
  fsop_unmount _ _ := Undef;
  vn_free v w := mk_dw (delete v (dw_vnodes w)) (dw_hw w);
  vop_open := dev_open;
  vop_gettype := dev_gettype;
  vop_truncate := dev_truncate;
  vop_namefile := dev_namefile;
  vop_readlink := null_io;
  vop_creat := null_creat;
  vop_symlink := null_symlink;
  vop_mkdir := null_nameop;
  vop_link := null_link;
  vop_remove := null_nameop;
  vop_rmdir := null_nameop;
  vop_rename := null_rename;
  vop_lookup := dev_lookup;
  vop_lookparent := dev_lookparent;
|}.

(** ** devnull.c *)

Definition nullopen (openflags : Z) (h : H) : res (Z * H) := Ok (0, h).
Definition nullclose (h : H) : res (Z * H) := Ok (0, h).
Definition nullio (u : uio) (h : H) : res (Z * uio * H) := Ok (0, if is_write u then with_resid 0 u else u, h).
Definition nullioctl (op data : Z) (h : H) : res (Z * H) := Ok (EINVAL, h).

Definition null_device : device H := mk_device nullopen nullclose nullio nullioctl 0 1.

(** [dev] is the address of the structure, if [kmalloc] gives one, which is
    filled in as [null_device]. *)
Definition devnull_create (dev : option Z) (al : add_allocs) (st : vfs (dev_world H devs)) : res (vfs (dev_world H devs)) :=
  match dev with
  | None => Panic
  | Some dev =>
      '(st, result) ← vfs_adddev al [110; 117; 108; 108] dev false st;
      if negb (result =? 0) then Panic else Ok st
  end.

(** vfslookup.c and vfslist.c: the start.  The locks are free once they are
    created; [ok] is the answer of [lock_create]. *)
Definition vfs_initbootfs (ok : bool) : res bool := if ok then Ok false else Panic.

Definition vfs_bootstrap (array_ok lock_ok boot_ok : bool) (dev : option Z) (al : add_allocs) (cwd : option Z) w : res (vfs (dev_world H devs)) :=
  if negb array_ok then Panic
  else if negb lock_ok then Panic
  else
    bootlock ← vfs_initbootfs boot_ok;
    devnull_create dev al (mk_vfs [] false None bootlock cwd w).

(** ** The promises of devices *)

(** Opening and closing end. *)
Definition device_ok d : Prop :=
  (forall fl h, ok_with (d_open d fl h) (fun _ => True)) /\ (forall h, ok_with (d_close d h) (fun _ => True)).

Definition dw_known (p : Z) : Prop := exists d, devs p = Some d /\ device_ok d.

Definition dw_vnode (n m : nat) (p : Z) : vnode := mk_vnode (Z.of_nat n) (Z.of_nat m) true None (Some p) (Some dev_vnode_ops).

(** Every referenced vnode has its counts. *)
Record dw_refs w (T O : gmultiset ref) (F : gset Z) : Prop := {
  dw_nofs : F = ∅;
  dw_open : O ⊆ T;
  dw_bound : Z.of_nat (size T) <= max_refs;
  dw_counts v f : (v, f) ∈ T -> v <> 0 /\ f = None /\
    exists p, dw_known p /\ dw_vnodes w !! v = Some (dw_vnode (multiplicity v (vnodes T)) (multiplicity v (vnodes O)) p);
}.

Global Arguments dw_nofs {w T O F}.
Global Arguments dw_open {w T O F}.
Global Arguments dw_bound {w T O F}.
Global Arguments dw_counts {w T O F}.

(** The hardware does not matter. *)
Lemma dw_refs_hw w T O F h : dw_refs w T O F -> dw_refs (set_hw h w) T O F.
Proof. intros []. by split. Qed.

(** The counts of one vnode change. *)
Lemma dw_refs_store w T O F T' O' v n m p : dw_refs w T O F -> dw_known p -> O' ⊆ T' -> Z.of_nat (size T') <= max_refs -> v <> 0 ->
  multiplicity v (vnodes T') = n -> multiplicity v (vnodes O') = m ->
  (forall x f, (x, f) ∈ T' -> x = v /\ f = None \/ x <> v /\ (x, f) ∈ T) ->
  (forall x, x <> v -> multiplicity x (vnodes T') = multiplicity x (vnodes T) /\ multiplicity x (vnodes O') = multiplicity x (vnodes O)) ->
  dw_refs (vn_store v (dw_vnode n m p) w) T' O' F.
Proof.
  intros Hr Hp Ho Hs Hv Hn Hm HT Hx. destruct Hr as [HF _ _ Hc]. split; [done..|]. intros x f Hin. cbn [vn_store dev_vnodeops dw_vnodes].
  destruct (HT x f Hin) as [[-> ->]|[Hne Hin']].
  - do 2 (split; [done|]). exists p. split; [done|]. by rewrite lookup_insert_eq, Hn, Hm.
  - destruct (Hc x f Hin') as (Hx0 & Hf & q & Hq & Hl). do 2 (split; [done|]). exists q. split; [done|].
    rewrite lookup_insert_ne by done. destruct (Hx x Hne) as [-> ->]. done.
Qed.

Lemma dw_device w T O F v f : dw_refs w T O F -> (v, f) ∈ T -> exists d, device_of v w = Ok d /\ device_ok d.
Proof.
  intros Hr Hv. destruct (dw_counts Hr v f Hv) as (_ & _ & p & (d & Hd & Hok) & Hl). exists d. unfold device_of. rewrite Hl. cbn [vn_data dw_vnode].
  by rewrite Hd.
Qed.

Lemma dw_refs_vnode w T O F v f : dw_refs w T O F -> (v, f) ∈ T -> v <> 0 /\
  exists vn, vn_lookup v w = Some vn /\ vnode_check false vn = Ok tt /\ vn_fs vn = f /\ (forall x, f = Some x -> x ∈ F) /\
    vn_refcount vn = Z.of_nat (multiplicity v (vnodes T) + if decide (v ∈ (∅ : gset Z)) then 1 else 0) /\ vn_opencount vn = Z.of_nat (multiplicity v (vnodes O)).
Proof.
  intros Hr Hv. destruct (dw_counts Hr v f Hv) as (Hv0 & -> & p & Hp & Hl). split; [done|]. eexists. split; [exact Hl|].
  rewrite decide_False by set_solver. rewrite Nat.add_0_r. split; [|done]. pose proof (in_vnodes _ _ _ Hv). unfold vnode_check. cbn [dw_vnode vn_ops vn_countlock vn_refcount vn_opencount].
  rewrite bool_decide_true by done. cbn [assert]. rewrite !bind_Ok.
  destruct (Z.ltb_spec (Z.of_nat (multiplicity v (vnodes T))) 0); [lia|]. destruct (Z.eqb_spec (Z.of_nat (multiplicity v (vnodes T))) 0); [lia|].
  destruct (Z.ltb_spec (Z.of_nat (multiplicity v (vnodes O))) 0); [lia|done].
Qed.

Lemma dw_refs_incref w T O F v f : dw_refs w T O F -> room T -> (v, f) ∈ T -> ok_with (vnode_incref v w) (fun w' => dw_refs w' (T ⊎ {[+ (v, f) +]}) O F).
Proof.
  intros Hr Hs Hv. destruct (dw_counts Hr v f Hv) as (Hv0 & -> & p & Hp & Hl). unfold vnode_incref, vn_deref. cbn [vn_lookup dev_vnodeops].
  rewrite Hl, bind_Ok. unfold vnode_incref_v. cbn [vn_countlock dw_vnode assert]. rewrite !bind_Ok. eexists. split; [done|].
  pose proof (vnodes_size T v). unfold room, max_refs in Hs.
  assert (set_refcount (i32 (Z.of_nat (multiplicity v (vnodes T)) + 1)) (dw_vnode (multiplicity v (vnodes T)) (multiplicity v (vnodes O)) p) =
    dw_vnode (multiplicity v (vnodes T) + 1) (multiplicity v (vnodes O)) p) as E.
  { unfold set_refcount, dw_vnode. cbn. f_equal. rewrite i32_small by lia. lia. }
  cbn [vn_refcount dw_vnode] in *. rewrite E. apply (dw_refs_store _ _ _ _ _ _ _ _ _ _ Hr); try done.
  - pose proof (dw_open Hr). multiset_solver.
  - rewrite gmultiset_size_disj_union, gmultiset_size_singleton. unfold max_refs. lia.
  - rewrite mult_add, decide_True by done. done.
  - intros x f Hin. destruct (in_add _ _ _ _ Hin) as [[= -> ->]|Hin']; [by left|]. destruct (decide (x = v)) as [->|]; [|by right].
    left. split; [done|]. by destruct (dw_counts Hr v f Hin') as (_ & -> & _).
  - intros x Hx. split; [|done]. rewrite mult_add, decide_False by done. lia.
Qed.

Lemma dw_refs_decref w T O F v f : dw_refs w (T ⊎ {[+ (v, f) +]}) O F -> O ⊆ T -> ok_with (vnode_decref v w) (fun w' => dw_refs w' T O F).
Proof.
  intros Hr Ho. destruct (dw_counts Hr v f) as (Hv0 & -> & p & Hp & Hl); [multiset_solver|]. rewrite mult_add, decide_True in Hl by done.
  pose proof (dw_bound Hr) as Hb. rewrite gmultiset_size_disj_union, gmultiset_size_singleton in Hb.
  unfold vnode_decref, vn_deref. cbn [vn_lookup dev_vnodeops]. rewrite Hl, bind_Ok. cbn [vn_countlock dw_vnode vn_refcount assert]. rewrite bind_Ok.
  pass_assert. destruct (Z.gtb_spec (Z.of_nat (multiplicity v (vnodes T) + 1)) 1).
  - eexists. split; [done|]. assert (set_refcount (Z.of_nat (multiplicity v (vnodes T) + 1) - 1) (dw_vnode (multiplicity v (vnodes T) + 1) (multiplicity v (vnodes O)) p) =
      dw_vnode (multiplicity v (vnodes T)) (multiplicity v (vnodes O)) p) as E.
    { unfold set_refcount, dw_vnode. cbn. f_equal. lia. }
    rewrite E. apply (dw_refs_store _ _ _ _ _ _ _ _ _ _ Hr); try done; [unfold max_refs in *; lia| |].
    + intros x f Hin. destruct (decide (x = v)) as [->|]; [left|right; split; [done|multiset_solver]]. split; [done|].
      by destruct (dw_counts Hr v f) as (_ & -> & _); [multiset_solver|].
    + intros x Hx. rewrite mult_add, decide_False by done. split; [lia|done].
  - assert (multiplicity v (vnodes T) = 0%nat) as E0 by lia. assert (multiplicity v (vnodes O) = 0%nat) as Eo.
    { pose proof (vnodes_mono O T Ho v). lia. }
    rewrite E0, Eo. cbn. eexists. split; [done|]. destruct Hr as [HF _ _ Hc]. split; [done|done|lia|]. intros x f Hin.
    assert (x <> v) as Hne. { intros ->. pose proof (in_vnodes _ _ _ Hin). lia. }
    destruct (Hc x f) as (Hx0 & -> & q & Hq & Hlx); [multiset_solver|]. do 2 (split; [done|]). exists q. split; [done|].
    by rewrite mult_add, decide_False, Nat.add_0_r in Hlx by done.
Qed.

(** The opens of one vnode change. *)
Lemma dw_refs_reopen w T O O' F v p : dw_refs w T O F -> dw_known p -> O' ⊆ T -> v <> 0 -> (forall f, (v, f) ∈ T -> f = None) ->
  (forall x, x <> v -> multiplicity x (vnodes O') = multiplicity x (vnodes O)) ->
  dw_refs (vn_store v (dw_vnode (multiplicity v (vnodes T)) (multiplicity v (vnodes O')) p) w) T O' F.
Proof.
  intros Hr Hp Ho Hv Hf Hx. apply (dw_refs_store _ _ _ _ _ _ _ _ _ _ Hr); try done; [apply Hr| |by intros x Hne; split; [|apply Hx]].
  intros x f Hin. destruct (decide (x = v)) as [->|]; [left; by split; [|apply Hf]|by right].
Qed.

Lemma dw_refs_incopen w T O F v f : dw_refs w T O F -> O ⊎ {[+ (v, f) +]} ⊆ T -> ok_with (vnode_incopen v w) (fun w' => dw_refs w' T (O ⊎ {[+ (v, f) +]}) F).
Proof.
  intros Hr Ho. destruct (dw_counts Hr v f) as (Hv0 & -> & p & Hp & Hl); [multiset_solver|]. unfold vnode_incopen, vn_deref. cbn [vn_lookup dev_vnodeops].
  rewrite Hl, bind_Ok. unfold vnode_incopen_v. cbn [vn_countlock dw_vnode assert]. rewrite !bind_Ok. eexists. split; [done|].
  pose proof (vnodes_size T v). pose proof (vnodes_mono _ _ Ho v) as Hm. rewrite mult_add, decide_True in Hm by done. pose proof (dw_bound Hr) as Hb. unfold max_refs in Hb.
  assert (set_opencount (i32 (Z.of_nat (multiplicity v (vnodes O)) + 1)) (dw_vnode (multiplicity v (vnodes T)) (multiplicity v (vnodes O)) p) =
    dw_vnode (multiplicity v (vnodes T)) (multiplicity v (vnodes (O ⊎ {[+ (v, None) +]}))) p) as E.
  { unfold set_opencount, dw_vnode. cbn [vn_refcount vn_countlock vn_fs vn_data vn_ops]. f_equal. rewrite mult_add, decide_True, i32_small by (done || lia). lia. }
  cbn [vn_opencount dw_vnode] in *. rewrite E. apply (dw_refs_reopen _ _ O); try done.
  - intros f Hf. by destruct (dw_counts Hr v f Hf) as (_ & -> & _).
  - intros x Hx. rewrite mult_add, decide_False by done. lia.
Qed.

Lemma dw_refs_close w T O F v f : dw_refs w T O F -> (v, f) ∈ T -> ok_with (dev_close v w) (fun '(_, w') => dw_refs w' T O F).
Proof.
  intros Hr Hv. destruct (dw_device _ _ _ _ _ _ Hr Hv) as (d & Ed & _ & Hc). unfold dev_close. rewrite Ed, bind_Ok.
  destruct (Hc (dw_hw w)) as ([e h] & -> & _). rewrite bind_Ok. eexists. split; [done|]. by apply dw_refs_hw.
Qed.

Lemma dw_refs_decopen w T O F v f : dw_refs w T (O ⊎ {[+ (v, f) +]}) F -> ok_with (vnode_decopen v w) (fun w' => dw_refs w' T O F).
Proof.
  intros Hr. pose proof (dw_open Hr) as Ho. assert ((v, f) ∈ T) as Hv by multiset_solver.
  destruct (dw_counts Hr v f Hv) as (Hv0 & -> & p & Hp & Hl). rewrite mult_add, decide_True in Hl by done.
  assert (dw_refs (vn_store v (dw_vnode (multiplicity v (vnodes T)) (multiplicity v (vnodes O)) p) w) T O F) as Hr2.
  { apply (dw_refs_reopen _ _ (O ⊎ {[+ (v, None) +]})); try done; [multiset_solver| |].
    - intros f Hf. by destruct (dw_counts Hr v f Hf) as (_ & -> & _).
    - intros x Hx. rewrite mult_add, decide_False by done. lia. }
  unfold vnode_decopen, vn_deref. cbn [vn_lookup dev_vnodeops]. rewrite Hl, bind_Ok. cbn [vn_countlock dw_vnode vn_opencount assert]. rewrite bind_Ok. pass_assert.
  replace (set_opencount (Z.of_nat (multiplicity v (vnodes O) + 1) - 1) (dw_vnode (multiplicity v (vnodes T)) (multiplicity v (vnodes O) + 1) p))
    with (dw_vnode (multiplicity v (vnodes T)) (multiplicity v (vnodes O)) p) by (unfold set_opencount, dw_vnode; cbn; f_equal; lia).
  destruct (_ >? 0); [by eexists|]. destruct (dw_refs_vnode _ _ _ _ _ _ Hr2 Hv) as (_ & vn & El & Ec & _).
  cbn [vn_lookup dev_vnodeops vn_store dw_vnodes] in El. rewrite lookup_insert_eq in El. injection El as <-. rewrite Ec, bind_Ok.
  destruct (dw_refs_close _ _ _ _ _ _ Hr2 Hv) as ([e w2] & E2 & Hw2). cbn [vop_close dev_vnodeops]. cbn [vn_store dev_vnodeops] in E2 |- *. rewrite E2, bind_Ok. by eexists.
Qed.

Lemma dw_refs_device w T O F p dev : dw_refs w T O F -> room T -> dw_known dev -> p <> 0 -> vn_lookup p w = None ->
  dw_refs (vn_store p (mk_vnode 1 0 true None (Some dev) (Some dev_vnode_ops)) w) (T ⊎ {[+ (p, None) +]}) O F.
Proof.
  intros Hr Hs Hdev Hp Hnew. assert (forall f, (p, f) ∉ T) as Hno.
  { intros f Hf. destruct (dw_counts Hr p f Hf) as (_ & _ & q & _ & Hl). cbn [vn_lookup dev_vnodeops] in Hnew. congruence. }
  assert (multiplicity p (vnodes T) = 0%nat) as ET.
  { apply not_elem_of_multiplicity. intros [f Hf]%elem_of_vnodes. by apply (Hno f). }
  pose proof (vnodes_mono _ _ (dw_open Hr) p) as Hm.
  change (mk_vnode 1 0 true None (Some dev) (Some dev_vnode_ops)) with (dw_vnode 1 0 dev). apply (dw_refs_store _ _ _ _ _ _ _ _ _ _ Hr); try done.
  - pose proof (dw_open Hr). multiset_solver.
  - rewrite gmultiset_size_disj_union, gmultiset_size_singleton. unfold room in Hs. lia.
  - by rewrite mult_add, decide_True, ET.
  - lia.
  - intros x f Hin. destruct (in_add _ _ _ _ Hin) as [[= -> ->]|Hin']; [by left|]. right. split; [|done]. intros ->. by apply (Hno f).
  - intros x Hx. split; [|done]. rewrite mult_add, decide_False by done. lia.
Qed.

Lemma dw_refs_nodevice w T O F p : dw_refs w T O F -> p <> 0 -> vn_lookup p w = None ->
  dw_refs (vn_store p (mk_vnode 1 0 true None None (Some dev_vnode_ops)) w) T O F.
Proof.
  intros [HF Ho Hb Hc] _ Hnew. split; [done..|]. intros v f Hv. destruct (Hc v f Hv) as (Hv0 & Hf & q & Hq & Hl). do 2 (split; [done|]). exists q. split; [done|].
  cbn [vn_lookup dev_vnodeops vn_store dw_vnodes] in *. assert (p <> v) by congruence. by rewrite lookup_insert_ne.
Qed.

Lemma dw_refs_unused w T O F p vn : dw_refs w T O F -> vn_lookup p w = None -> dw_refs (vn_free p (vn_store p vn w)) T O F.
Proof.
  intros [HF Ho Hb Hc] Hnew. split; [done..|]. intros v f Hv. destruct (Hc v f Hv) as (Hv0 & Hf & q & Hq & Hl). do 2 (split; [done|]). exists q. split; [done|].
  cbn [vn_lookup dev_vnodeops vn_free dev_vfsops vn_store dw_vnodes] in *. assert (p <> v) by congruence. by rewrite lookup_delete_ne, lookup_insert_ne.
Qed.

Lemma dw_nofs_in w T O F x : dw_refs w T O F -> x ∈ F -> False.
Proof. intros [-> _ _ _]. set_solver. Qed.

Lemma dw_refs_open w T O F v f fl : dw_refs w T O F -> room T -> (v, f) ∈ T -> ok_with (dev_open v fl w) (fun '(_, w') => dw_refs w' T O F).
Proof.
  intros Hr _ Hv. destruct (dw_device _ _ _ _ _ _ Hr Hv) as (d & Ed & Ho & _). unfold dev_open. rewrite Ed, bind_Ok.
  destruct (negb _); [by eexists|]. destruct (Ho fl (dw_hw w)) as ([e h] & -> & _). rewrite bind_Ok. eexists. split; [done|]. by apply dw_refs_hw.
Qed.

(** A device is not a directory. *)
Lemma dw_refs_gettype w T O F v f : dw_refs w T O F -> room T -> (v, f) ∈ T -> ok_with (dev_gettype v w) (fun '(e, t) => e = 0 -> S_ISDIR t = true -> f <> None).
Proof.
  intros Hr _ Hv. destruct (dw_device _ _ _ _ _ _ Hr Hv) as (d & Ed & _). unfold dev_gettype. rewrite Ed, bind_Ok.
  destruct (_ >? 0); by eexists.
Qed.

Lemma dw_refs_truncate w T O F v f n : dw_refs w T O F -> room T -> (v, f) ∈ T -> ok_with (dev_truncate v n w) (fun '(_, w') => dw_refs w' T O F).
Proof.
  intros Hr _ Hv. destruct (dw_device _ _ _ _ _ _ Hr Hv) as (d & Ed & _). unfold dev_truncate. rewrite Ed, bind_Ok.
  destruct (_ && _); by eexists.
Qed.

Lemma dw_refs_lookup w T O F v f p : dw_refs w T O F -> room T -> (v, f) ∈ T ->
  ok_with (dev_lookup v p w) (fun '(e, v', w') => if e =? 0 then exists f', dw_refs w' (T ⊎ {[+ (v', f') +]}) O F else dw_refs w' T O F).
Proof.
  intros Hr Hs Hv. unfold dev_lookup. destruct (_ >? 0); [by eexists|]. destruct (dw_refs_incref _ _ _ _ _ _ Hr Hs Hv) as (w' & -> & Hw).
  rewrite bind_Ok. eexists. split; [done|]. by exists f.
Qed.

Global Instance dev_vfslaws : VfsLaws (dev_world H devs).
Proof.
  refine {| refs := dw_refs; own _ := ∅; dev_known := dw_known; refs_vnode := dw_refs_vnode; refs_incref := dw_refs_incref; refs_decref := dw_refs_decref;
            refs_incopen := dw_refs_incopen; refs_decopen := dw_refs_decopen; refs_device := dw_refs_device; refs_nodevice := dw_refs_nodevice; refs_unused := dw_refs_unused;
            refs_gettype := dw_refs_gettype; refs_open := dw_refs_open; refs_truncate := dw_refs_truncate; refs_lookup := dw_refs_lookup |};
    intros; try (by exfalso; eapply dw_nofs_in); try (by eexists); [by rewrite size_empty; lia|]. apply lookup_delete_eq.
Defined.
End device.
