(* ===== verification/VfsRefs.v ===== *)
(** * Callers of the VFS

    A caller holds the references it was handed and the files it has open.
    Whatever sequence of calls it makes, no call fails an assertion, waits for
    a lock that is never released or touches a vnode that is gone, and the
    reference count of every vnode that somebody refers to is exactly the
    number of references to it, where a vnode that [vfs_adddev] has lost on a
    failure has the reference that nobody can drop. *)
From stdpp Require Import base numbers list option gmap gmultiset.
From S2P Require Import Prelude Uio Vnode Vfs VfsSpec VfsDev.
Local Open Scope Z_scope.

Section client.
Context {S : Type} `{VfsLaws S}.

(** [c_lost] is the vnodes that failed additions of devices have left behind. *)
Record client : Type := mk_client {
  c_vfs : vfs S;
  c_held : gmultiset Z;
  c_open : gmultiset Z;
  c_lost : gmultiset Z;
}.

Inductive call : Type :=
| Lookup (path : list Z)
| Lookparent (path : list Z) (buflen : Z)
| Getroot (devname : list Z)
| Getcurdir
| Open (path : list Z) (openflags : Z)
| Close (vn : Z)
| Drop (vn : Z)
| Remove (path : list Z)
| Mkdir (path : list Z)
| Rmdir (path : list Z)
| Symlink (contents path : list Z)
| Rename (oldpath newpath : list Z)
| Link (oldpath newpath : list Z)
| Readlink (path : list Z) (u : uio)
| Chdir (path : list Z)
| Getcwd (valid : Z -> bool) (curspace : option Z) (u : uio)
| Clearcurdir
| Setbootfs (fsname : list Z)
| Clearbootfs
| Sync
| Mount (devname : list Z) (mountfunc : Z -> S -> res (Z * option Z * S))
| Unmount (devname : list Z)
| Unmountall
| Adddev (al : add_allocs) (devname : list Z) (dev : Z) (mountable : bool).

Definition same (c : client) (r : res (vfs S * Z)) : res client :=
  '(st, _) ← r; Ok (mk_client st (c_held c) (c_open c) (c_lost c)).

(** A call that hands out a vnode. *)
Definition handed (c : client) (r : res (vfs S * Z * Z)) : res client :=
  '(st, e, vn) ← r; Ok (mk_client st (if e =? 0 then c_held c ⊎ {[+ vn +]} else c_held c) (c_open c) (c_lost c)).

(** An allocation gives an address that is not in use. *)
Definition fresh (al : add_allocs) (w : S) : bool :=
  match al_vnode al with Some p => negb (p =? 0) && bool_decide (vn_lookup p w = None) | None => true end.

(** Only what is open can be closed, and only a reference that is held and
    that no open file needs can be dropped. *)
Definition exec (op : call) (c : client) : res client :=
  let st := c_vfs c in
  match op with
  | Lookup path => handed c (vfs_lookup path st)
  | Lookparent path buflen => handed c ('(st, e, vn, _) ← vfs_lookparent path buflen st; Ok (st, e, vn))
  | Getroot devname => handed c (vfs_getroot devname st)
  | Getcurdir => handed c (vfs_getcurdir st)
  | Open path openflags =>
      '(st, e, vn) ← vfs_open path openflags st;
      if e =? 0 then Ok (mk_client st (c_held c ⊎ {[+ vn +]}) (c_open c ⊎ {[+ vn +]}) (c_lost c))
      else Ok (mk_client st (c_held c) (c_open c) (c_lost c))
  | Close vn =>
      if decide (vn ∈ c_open c) then
        st ← vfs_close vn st;
        Ok (mk_client st (c_held c ∖ {[+ vn +]}) (c_open c ∖ {[+ vn +]}) (c_lost c))
      else Ok c
  | Drop vn =>
      if decide (vn ∈ c_held c ∖ c_open c) then
        st ← decref vn st;
        Ok (mk_client st (c_held c ∖ {[+ vn +]}) (c_open c) (c_lost c))
      else Ok c
  | Remove path => same c (vfs_remove path st)
  | Mkdir path => same c (vfs_mkdir path st)
  | Rmdir path => same c (vfs_rmdir path st)
  | Symlink contents path => same c (vfs_symlink contents path st)
  | Rename oldpath newpath => same c (vfs_rename oldpath newpath st)
  | Link oldpath newpath => same c (vfs_link oldpath newpath st)
  | Readlink path u => same c ('(st, e, _) ← vfs_readlink path u st; Ok (st, e))
  | Chdir path => same c (vfs_chdir path st)
  | Getcwd valid curspace u => same c ('(st, e, _) ← vfs_getcwd valid curspace u st; Ok (st, e))
  | Clearcurdir => same c (vfs_clearcurdir st)
  | Setbootfs fsname => same c (vfs_setbootfs fsname st)
  | Clearbootfs => same c (st ← vfs_clearbootfs st; Ok (st, 0))
  | Sync => same c (vfs_sync st)
  | Mount devname mountfunc => same c (vfs_mount devname mountfunc st)
  | Unmount devname => same c (vfs_unmount devname st)
  | Unmountall => same c (vfs_unmountall st)
  | Adddev al devname dev mountable =>
      if fresh al (world st) then
        '(st, e) ← vfs_adddev al devname dev mountable st;
        Ok (mk_client st (c_held c) (c_open c) (c_lost c ⊎ vnodes (opt_refs (lost_ref (lost_vnode al e (world st))))))
      else Ok c
  end.

Fixpoint run (calls : list call) (c : client) : res client :=
  match calls with
  | [] => Ok c
  | op :: calls => c ← exec op c; run calls c
  end.

(** What the drivers and file systems of a call promise; the name of the
    current directory is read into a kernel buffer. *)
Definition call_ok (c : call) : Prop :=
  match c with
  | Mount _ mountfunc => mount_ok mountfunc
  | Getcwd _ _ u => kernel_read u
  | Adddev al _ dev _ => al_lock al = true /\ dev_known dev
  | _ => True
  end.

(** ** The counts *)

(** The references are those of the caller, those of the VFS, and one to each
    vnode that was lost. *)
Definition counted (k : nat) (c : client) : Prop :=
  exists g R O F lost, inv k g (c_vfs c) (R ⊎ lost) O F /\ O ⊆ R /\ vnodes R = c_held c /\ vnodes O = c_open c /\ vnodes lost = c_lost c /\
    (forall t, t ∈ lost -> snd t = None).

Lemma inv_weaken (k : nat) (g : ghost) (st : vfs S) (R O : gmultiset ref) (F : gset Z) : inv (1 + k) g st R O F -> inv k g st R O F.
Proof. intros []. split; try done. lia. Qed.

Lemma counted_intro (k : nat) (g : ghost) (st : vfs S) (R O : gmultiset ref) (F : gset Z) (lost : gmultiset ref) : inv k g st (R ⊎ lost) O F -> O ⊆ R -> (forall t, t ∈ lost -> snd t = None) -> counted k (mk_client st (vnodes R) (vnodes O) (vnodes lost)).
Proof. intros Hi Ho Hn. by exists g, R, O, F, lost. Qed.

(** A reference to the vnode can be taken out. *)
Lemma vnodes_remove (T : gmultiset ref) t : t ∈ T -> vnodes T ∖ {[+ t.1 +]} = vnodes (T ∖ {[+ t +]}).
Proof.
  intros Ht. rewrite (gmultiset_disj_union_difference' t T) at 1 by done. destruct t as [v f]. rewrite gmultiset_disj_union_comm, vnodes_add. cbn [fst]. multiset_solver.
Qed.

Section calls.
Variables (k : nat) (g : ghost) (st : vfs S) (R O lost : gmultiset ref) (F : gset Z).
Hypotheses (Hi : inv (4 + k) g st (R ⊎ lost) O F) (Ho : O ⊆ R) (Hnone : forall t, t ∈ lost -> snd t = None).

Lemma exec_same r : (exists g' st' e F', r = Ok (st', e) /\ inv (4 + k) g' st' (R ⊎ lost) O F') ->
  ok_with (same (mk_client st (vnodes R) (vnodes O) (vnodes lost)) r) (counted (3 + k)).
Proof.
  intros (g' & st' & e & F' & -> & Hi'). unfold same. rewrite bind_Ok. eexists. split; [done|]. cbn [c_held c_open c_lost].
  eapply counted_intro; [by apply inv_weaken|done|done].
Qed.

Lemma exec_neutral op : neutral op -> ok_with (same (mk_client st (vnodes R) (vnodes O) (vnodes lost)) (op st)) (counted (3 + k)).
Proof. intros Hop. apply exec_same. destruct (Hop (1 + k)%nat g st (R ⊎ lost) O F Hi) as (w & e & E & Hi'). by eexists _, _, _, _. Qed.

Lemma exec_handed r : (exists st' e v, r = Ok (st', e, v) /\ gives (3 + k) g st' (R ⊎ lost) O F e v) ->
  ok_with (handed (mk_client st (vnodes R) (vnodes O) (vnodes lost)) r) (counted (3 + k)).
Proof.
  intros (st' & e & v & -> & Hg). unfold handed. rewrite bind_Ok. eexists. split; [done|]. cbn [c_held c_open c_lost]. unfold gives in Hg. destruct (e =? 0).
  - destruct Hg as [f Hg]. rewrite <-(vnodes_add R v f). apply (counted_intro _ g _ _ _ F lost); [|by apply open_weaken|done].
    replace (R ⊎ {[+ (v, f) +]} ⊎ lost) with (R ⊎ lost ⊎ {[+ (v, f) +]}) by multiset_solver. done.
  - eapply counted_intro; [by apply inv_weaken|done|done].
Qed.

Lemma exec_open path openflags : ok_with (exec (Open path openflags) (mk_client st (vnodes R) (vnodes O) (vnodes lost))) (counted (3 + k)).
Proof.
  destruct (vfs_open_spec (1 + k) g st (R ⊎ lost) O F path openflags Hi) as (w & e & v & E & Hw). cbn [exec c_vfs c_held c_open c_lost]. rewrite E, bind_Ok.
  destruct (e =? 0); (eexists; split; [done|]).
  - destruct Hw as [f Hw]. rewrite <-(vnodes_add R v f), <-(vnodes_add O v f). apply (counted_intro _ g _ _ _ F lost); [|multiset_solver|done].
    replace (R ⊎ {[+ (v, f) +]} ⊎ lost) with (R ⊎ lost ⊎ {[+ (v, f) +]}) by multiset_solver. done.
  - eapply counted_intro; [by apply inv_weaken|done|done].
Qed.

Lemma exec_close vn : ok_with (exec (Close vn) (mk_client st (vnodes R) (vnodes O) (vnodes lost))) (counted (3 + k)).
Proof.
  cbn [exec c_vfs c_held c_open c_lost]. case_decide as Hv; [|eexists; split; [done|]; eapply counted_intro; [by apply inv_weaken|done|done]].
  apply elem_of_vnodes in Hv as [f Hv]. assert ((vn, f) ∈ R) as HvR by multiset_solver.
  assert (inv (4 + k) g st (R ∖ {[+ (vn, f) +]} ⊎ lost ⊎ {[+ (vn, f) +]}) (O ∖ {[+ (vn, f) +]} ⊎ {[+ (vn, f) +]}) F) as Hi'.
  { replace (R ∖ {[+ (vn, f) +]} ⊎ lost ⊎ {[+ (vn, f) +]}) with (R ⊎ lost) by multiset_solver.
    replace (O ∖ {[+ (vn, f) +]} ⊎ {[+ (vn, f) +]}) with O by multiset_solver. done. }
  destruct (vfs_close_spec _ _ _ _ _ _ _ _ Hi') as (w & -> & Hw). rewrite bind_Ok. eexists. split; [done|].
  rewrite (vnodes_remove R _ HvR : vnodes R ∖ {[+ vn +]} = _), (vnodes_remove O _ Hv : vnodes O ∖ {[+ vn +]} = _).
  eapply counted_intro; [by apply inv_weaken, inv_weaken|multiset_solver|done].
Qed.

Lemma exec_drop vn : ok_with (exec (Drop vn) (mk_client st (vnodes R) (vnodes O) (vnodes lost))) (counted (3 + k)).
Proof.
  cbn [exec c_vfs c_held c_open c_lost]. case_decide as Hv; [|eexists; split; [done|]; eapply counted_intro; [by apply inv_weaken|done|done]].
  assert (vnodes R ∖ vnodes O = vnodes (R ∖ O)) as ERO.
  { rewrite (gmultiset_disj_union_difference O R) at 1 by done. unfold vnodes. rewrite gmultiset_map_disj_union. multiset_solver. }
  rewrite ERO in Hv. apply elem_of_vnodes in Hv as [f Hv]. assert ((vn, f) ∈ R) as HvR by multiset_solver.
  assert (inv (4 + k) g st (R ∖ {[+ (vn, f) +]} ⊎ lost ⊎ {[+ (vn, f) +]}) O F) as Hi'.
  { replace (R ∖ {[+ (vn, f) +]} ⊎ lost ⊎ {[+ (vn, f) +]}) with (R ⊎ lost) by multiset_solver. done. }
  destruct (decref_spec _ _ _ _ _ _ _ _ Hi') as (w & -> & Hw); [multiset_solver|]. rewrite bind_Ok. eexists. split; [done|].
  rewrite (vnodes_remove R _ HvR : vnodes R ∖ {[+ vn +]} = _). eapply counted_intro; [by apply inv_weaken, inv_weaken|multiset_solver|done].
Qed.

Lemma exec_adddev al name dev mountable : al_lock al = true -> dev_known dev ->
  ok_with (exec (Adddev al name dev mountable) (mk_client st (vnodes R) (vnodes O) (vnodes lost))) (counted (3 + k)).
Proof.
  intros Hlock Hdev. cbn [exec c_vfs c_held c_open c_lost]. destruct (fresh al (world st)) eqn:Ef; [|eexists; split; [done|]; eapply counted_intro; [by apply inv_weaken|done|done]].
  destruct (vfs_adddev_spec (3 + k) g st _ O F al name dev mountable Hi Hlock Hdev) as (st' & e & -> & Hi').
  { intros p Hp. unfold fresh in Ef. rewrite Hp in Ef. apply andb_true_iff in Ef as [E0 E1]. apply bool_decide_eq_true in E1. apply negb_true_iff, Z.eqb_neq in E0. done. }
  rewrite bind_Ok. eexists. split; [done|]. set (t := lost_ref _) in *.
  assert (vnodes lost ⊎ vnodes (opt_refs t) = vnodes (lost ⊎ opt_refs t)) as -> by (unfold vnodes; by rewrite gmultiset_map_disj_union).
  apply (counted_intro _ g _ _ _ F (lost ⊎ opt_refs t)); [by rewrite gmultiset_disj_union_assoc|done|].
  intros y [?|Hy]%gmultiset_elem_of_disj_union; [by apply Hnone|]. unfold t, lost_ref in Hy. destruct (lost_vnode al e _); cbn in Hy; [|multiset_solver].
  by apply gmultiset_elem_of_singleton in Hy as ->.
Qed.
End calls.

Lemma call_spec k c op : counted (4 + k) c -> call_ok op -> ok_with (exec op c) (counted (3 + k)).
Proof.
  intros (g & R & O & F & lost & Hi & Ho & HR & HO & HL & Hnone) Hok. destruct c as [st held opn l]. cbn [c_vfs c_held c_open c_lost] in *. subst held opn l.
  destruct op; cbn [call_ok] in Hok; cbn [exec c_vfs].
  - eapply exec_handed; try done. destruct (vfs_lookup_spec (2 + k) g st _ O F path Hi) as (w & e & v & E & Hg). by eexists _, _, _.
  - eapply exec_handed; try done. destruct (vfs_lookparent_spec (2 + k) g st _ O F path buflen Hi) as (w & e & v & name & E & Hg). rewrite E. by eexists _, _, _.
  - eapply exec_handed; try done. destruct (vfs_getroot_spec (3 + k) g st _ O F devname Hi) as (w & e & v & E & Hg). by eexists _, _, _.
  - eapply exec_handed; try done. destruct (vfs_getcurdir_spec (3 + k) g st _ O F Hi) as (w & e & v & E & [(-> & x & _ & Hg)|(-> & Hg)]); eexists _, _, _; (split; [done|]); [by exists (Some x)|done].
  - by eapply exec_open.
  - by eapply exec_close.
  - by eapply exec_drop.
  - eapply exec_neutral; try done. apply at_parent_neutral. intros; by eapply refs_remove.
  - eapply exec_neutral; try done. apply at_parent_neutral. intros; by eapply refs_mkdir.
  - eapply exec_neutral; try done. apply at_parent_neutral. intros; by eapply refs_rmdir.
  - eapply exec_neutral; try done. apply at_parent_neutral. intros; by eapply refs_symlink.
  - eapply exec_neutral; try done. apply vfs_rename_neutral.
  - eapply exec_neutral; try done. apply vfs_link_neutral.
  - eapply exec_same; try done. destruct (vfs_readlink_spec (1 + k) g st _ O F path u Hi) as (w & e & u' & E & Hi'). rewrite E. by eexists _, _, _, _.
  - eapply exec_same; try done. destruct (vfs_chdir_spec (1 + k) g st _ O F path Hi) as (g' & st' & e & E & Hi'). by eexists _, _, _, _.
  - eapply exec_same; try done. destruct (vfs_getcwd_spec (2 + k) g st _ O F valid curspace u Hi Hok) as (w & e & u' & E & Hi'). rewrite E. by eexists _, _, _, _.
  - eapply exec_same; try done. destruct (vfs_clearcurdir_spec (4 + k) g st _ O F Hi) as (st' & E & Hi'). by eexists _, _, _, _.
  - eapply exec_same; try done. destruct (vfs_setbootfs_spec (1 + k) g st _ O F fsname Hi) as (g' & st' & e & E & Hi'). by eexists _, _, _, _.
  - eapply exec_same; try done. destruct (vfs_clearbootfs_spec (4 + k) g st _ O F Hi) as (g' & st' & E & Hi'). rewrite E. by eexists _, _, _, _.
  - eapply exec_neutral; try done. apply vfs_sync_neutral.
  - eapply exec_same; try done. destruct (vfs_mount_spec (3 + k) g st _ O F devname mountfunc Hi Hok) as (F' & st' & e & E & Hi'). by eexists _, _, _, _.
  - eapply exec_same; try done. destruct (vfs_unmount_spec (4 + k) g st _ O F devname Hi) as (F' & st' & e & E & Hi'). by eexists _, _, _, _.
  - eapply exec_same; try done. destruct (vfs_unmountall_spec (4 + k) g st _ O F Hi) as (F' & st' & E & Hi'). by eexists _, _, _, _.
  - destruct Hok. by eapply exec_adddev.
Qed.

Lemma run_spec k calls c : counted (3 + length calls + k) c -> Forall call_ok calls -> ok_with (run calls c) (counted (3 + k)).
Proof.
  intros Hc Hl. revert c Hc. induction Hl as [|op calls Hop Hl IH]; intros c Hc; cbn [run]; [by eexists|].
  destruct (call_spec (length calls + k) c op Hc Hop) as (c' & -> & Hc'). rewrite bind_Ok. by apply IH.
Qed.

(** How often the VFS itself refers to a vnode. *)
Definition vfs_count (st : vfs S) (v : Z) : nat :=
  (if decide (t_cwd st = Some v) then 1 else 0) + (if decide (bootfs_vnode st = Some v) then 1 else 0) +
  length (filter (fun kd => kd_vnode kd = v) (filter (fun kd => kd_device kd <> None) (knowndevs st))).

Lemma opt_count t v : multiplicity v (vnodes (opt_refs t)) = if decide (fst <$> t = Some v) then 1%nat else 0%nat.
Proof.
  unfold vnodes. destruct t as [[x f]|]; cbn [opt_refs fmap option_fmap option_map fst].
  - rewrite gmultiset_map_singleton, multiplicity_singleton. cbn [fst]. do 2 case_decide; congruence.
  - by rewrite gmultiset_map_empty, multiplicity_empty.
Qed.

Lemma dev_count l v : multiplicity v (vnodes (dev_refs l)) = length (filter (fun kd => kd_vnode kd = v) (filter (fun kd => kd_device kd <> None) l)).
Proof.
  induction l as [|kd l IH]; [change (dev_refs []) with (∅ : gmultiset ref); unfold vnodes; by rewrite gmultiset_map_empty, multiplicity_empty|].
  rewrite dev_refs_cons, (filter_cons _ kd l). destruct (decide (kd_device kd <> None)); [|done].
  rewrite gmultiset_disj_union_comm, vnodes_add, multiplicity_disj_union, IH, multiplicity_singleton, filter_cons.
  repeat case_decide; simpl length; congruence || lia.
Qed.

Lemma kernel_count g st R O F k v : inv k g st R O F -> multiplicity v (vnodes (kernel_refs g st)) = vfs_count st v.
Proof.
  intros Hi. unfold kernel_refs, vfs_count. rewrite (inv_cwd Hi), (inv_boot Hi), <-dev_count, <-!opt_count.
  unfold vnodes. by rewrite !gmultiset_map_disj_union, !multiplicity_disj_union.
Qed.

(** Whether a file system keeps a reference to a vnode. *)
Definition kept (v : Z) (w : S) : nat := if decide (v ∈ own w) then 1 else 0.

(** The references that somebody has to a vnode: the caller, the VFS, or
    nobody any more. *)
Definition outstanding (c : client) (v : Z) : nat :=
  multiplicity v (c_held c) + vfs_count (c_vfs c) v + multiplicity v (c_lost c).

Lemma counted_refcount k c v : counted k c -> (0 < outstanding c v)%nat ->
  exists vn, vn_lookup v (world (c_vfs c)) = Some vn /\
    vn_refcount vn = Z.of_nat (outstanding c v + kept v (world (c_vfs c))) /\
    vn_opencount vn = Z.of_nat (multiplicity v (c_open c)).
Proof.
  unfold outstanding. intros (g & R & O & F & lost & Hi & Ho & <- & <- & EL & _) Hv.
  assert (multiplicity v (vnodes (R ⊎ lost ⊎ kernel_refs g (c_vfs c))) = (multiplicity v (vnodes R) + vfs_count (c_vfs c) v + multiplicity v (c_lost c))%nat) as Em.
  { rewrite <-EL, <-(kernel_count _ _ _ _ _ _ v Hi). unfold vnodes. rewrite !gmultiset_map_disj_union, !multiplicity_disj_union. lia. }
  assert (v ∈ vnodes (R ⊎ lost ⊎ kernel_refs g (c_vfs c))) as [f Hf]%elem_of_vnodes.
  { apply elem_of_multiplicity. lia. }
  destruct (refs_vnode _ _ _ _ v f (inv_refs Hi) Hf) as (_ & vn & Hl & _ & _ & _ & Hr & Hop).
  exists vn. split; [done|]. split; [|done]. rewrite Hr, Em. done.
Qed.

(** C6. The reference counts of vnodes balance.  Let a caller make any
    sequence of calls of the VFS: look up, open, close and drop vnodes, create,
    remove, link and rename files, change the current and boot directories, ask for the current one,
    mount, unmount and sync, and add devices; paths, flags and names are
    arbitrary, and any of the calls may fail.  Then every call returns: no
    assertion fails, no lock that is held is taken again, and no vnode is used
    that is gone.  At the end every vnode to which the caller or the VFS (its
    current directory, its boot directory, its device table) has a reference
    is there, and its reference count is exactly the number of these
    references, plus the one a file system may keep to a vnode of its own; its
    open count is the number of times the caller has it open.  The one
    exception is counted too: a vnode that a failed [vfs_adddev] has left in
    memory has a reference that nobody has ([c_lost]).  The promises of file
    systems and drivers are those of [VfsLaws]; a device is added with memory
    for the lock of its vnode, without which [dev_create_vnode] panics; the
    counts are of 32 bits, and there is room for the calls. *)
Theorem vfs_references_balanced calls c :
  counted (3 + length calls) c -> Forall call_ok calls ->
  exists c', run calls c = Ok c' /\
    knowndevs_lock (c_vfs c') = false /\ bootfs_lock (c_vfs c') = false /\
    forall v, (0 < outstanding c' v)%nat -> exists vn, vn_lookup v (world (c_vfs c')) = Some vn /\
      vn_refcount vn = Z.of_nat (outstanding c' v + kept v (world (c_vfs c'))) /\
      vn_opencount vn = Z.of_nat (multiplicity v (c_open c')).
Proof.
  intros Hc Hok. destruct (run_spec 0 calls c) as (c' & -> & Hc'); [by rewrite Nat.add_0_r|done|]. exists c'. split; [done|].
  pose proof Hc' as (g & R & O & F & lost & Hi & _). destruct (inv_unlocked Hi) as [? ?]. do 2 (split; [done|]).
  intros v Hv. by eapply counted_refcount.
Qed.
End client.

(** ** The null device *)

Definition null_at : Z -> option (device unit) := fun p => if p =? 100 then Some null_device else None.

Definition boot_world : vfs (dev_world unit null_at) := mk_vfs [] false None false None (mk_dw ∅ tt).
Definition boot_client : client (S := dev_world unit null_at) := mk_client boot_world ∅ ∅ ∅.

(** The vnode of the device is at [p]. *)
Definition allocs_at (p : Z) : add_allocs := mk_add_allocs true true (Some p) true true true.
Definition null_name : list Z := [110; 117; 108; 108].
Definition null_path : list Z := [110; 117; 108; 108; 58].

(** Adding the device twice, which fails the second time, and using it. *)
Definition null_calls : list (call (S := dev_world unit null_at)) :=
  [Adddev (allocs_at 16) null_name 100 false; Open null_path O_RDWR; Adddev (allocs_at 32) null_name 100 false; Lookup null_path;
   Rename null_path (null_path ++ [97]); Open null_path O_CREAT; Chdir null_path; Getcwd (fun _ => true) None (mk_kuio [] 1023 0 UIO_READ); Open null_path O_RDONLY; Close 16; Sync; Unmountall].

Lemma boot_counted : counted (3 + length null_calls) boot_client.
Proof.
  exists (mk_ghost None None), ∅, ∅, ∅, ∅. split; [|by repeat (split; [done|]); intros t Ht; multiset_solver]. split; try done.
  - split; [done|done|done|]. intros v f Hv. exfalso. change (∅ ⊎ ∅ ⊎ kernel_refs (mk_ghost None None) (c_vfs boot_client)) with (∅ : gmultiset ref) in Hv. multiset_solver.
  - split; [constructor|done].
Qed.

Lemma null_calls_ok : Forall call_ok null_calls.
Proof.
  assert (dev_known (VfsLaws := dev_vfslaws (devs := null_at)) 100) as Hn.
  { exists null_device. split; [done|]. split; intros; by eexists. }
  repeat constructor; done.
Qed.

Lemma vfs_references_balanced_witness : exists c', run null_calls boot_client = Ok c' /\
    knowndevs_lock (c_vfs c') = false /\ bootfs_lock (c_vfs c') = false /\
    forall v, (0 < outstanding c' v)%nat -> exists vn, vn_lookup v (world (c_vfs c')) = Some vn /\
      vn_refcount vn = Z.of_nat (outstanding c' v + kept v (world (c_vfs c'))) /\
      vn_opencount vn = Z.of_nat (multiplicity v (c_open c')).
Proof. exact (vfs_references_balanced null_calls boot_client boot_counted null_calls_ok). Defined.

(** What the calls leave: the device table, the caller's references and its
    open files, and the counts in the vnodes. *)
Lemma null_calls_leave :
  match run null_calls boot_client with
  | Ok c => (length (knowndevs (c_vfs c)), multiplicity 16 (c_held c), multiplicity 16 (c_open c), multiplicity 32 (c_lost c),
             vn_refcount <$> dw_vnodes (world (c_vfs c)) !! 16, vn_opencount <$> dw_vnodes (world (c_vfs c)) !! 16,
             vn_refcount <$> dw_vnodes (world (c_vfs c)) !! 32)
  | _ => (0%nat, 0%nat, 0%nat, 0%nat, None, None, None)
  end = (1%nat, 2%nat, 1%nat, 1%nat, Some 3, Some 1, Some 1).
Proof. vm_compute. reflexivity. Qed.
