(* ===== verification/VfsNames.v ===== *)
(** * Names of devices and the syntax of paths

    What a path says about where its translation starts, and that a device
    that has been added is found under its name. *)
From stdpp Require Import base numbers list option gmap.
From S2P Require Import Prelude Vnode Vfs VfsSpec VfsDev VfsRefs.
Local Open Scope Z_scope.

(** ** The syntax *)

Inductive start : Type := At_device (devname : list Z) | At_cwd | At_bootfs | At_root.

(** The characters before the first colon or slash, the colon or slash, and
    what follows. *)
Fixpoint first_special (path : list Z) : option (list Z * Z * list Z) :=
  match path with
  | [] => None
  | c :: path =>
      if bool_decide (c = 58 \/ c = 47) then Some ([], c, path)
      else match first_special path with Some (a, x, b) => Some (c :: a, x, b) | None => None end
  end.

(** device:path, device:/path, path, /path and :path. *)
Definition parse_path (path : list Z) : start * list Z :=
  match first_special path with
  | None => (At_cwd, path)
  | Some ([], x, b) => (if x =? 58 then At_root else At_bootfs, skip_slashes b)
  | Some (a, x, b) => if x =? 58 then (At_device a, skip_slashes b) else (At_cwd, path)
  end.

Section names.
Context {S : Type} `{VfsOps S}.
Implicit Types (st : vfs S) (w : S).

(** The root of the file system of the current directory. *)
Definition current_root st : res (vfs S * Z * Z) :=
  '(st, result, vn) ← vfs_getcurdir st;
  if negb (result =? 0) then Ok (st, result, 0)
  else
    v ← vn_deref vn (world st);
    match vn_fs v with
    | None => Panic
    | Some fs => '(root, w) ← fsop_getroot fs (world st); st ← decref vn (set_world w st); Ok (st, 0, root)
    end.

Definition boot_root st : res (vfs S * Z * Z) :=
  st ← acquire_bootfs st;
  match bootfs_vnode st with
  | None => st ← release_bootfs st; Ok (st, ENOENT, 0)
  | Some v => st ← incref v st; st ← release_bootfs st; Ok (st, 0, v)
  end.

Definition begin_at (s : start) st : res (vfs S * Z * Z) :=
  match s with
  | At_device devname => vfs_getroot devname st
  | At_cwd => vfs_getcurdir st
  | At_bootfs => boot_root st
  | At_root => current_root st
  end.

Lemma first_special_spec path :
  match first_special path with
  | None => (58 ∉ path) /\ (47 ∉ path)
  | Some (a, x, b) => path = a ++ x :: b /\ (x = 58 \/ x = 47) /\ (58 ∉ a) /\ (47 ∉ a)
  end.
Proof.
  induction path as [|c path IH]; cbn [first_special]; [by split; apply not_elem_of_nil|]. case_bool_decide as Hc.
  - do 2 (split; [done|]). split; apply not_elem_of_nil.
  - destruct (first_special path) as [[[a x] b]|]; rewrite !not_elem_of_cons.
    + destruct IH as (-> & Hx & ? & ?). repeat split; try done; intros <-; tauto.
    + destruct IH as (? & ?). repeat split; try done; intros <-; tauto.
Qed.

Lemma scan_app a x b i : (58 ∉ a) -> (47 ∉ a) -> x = 58 \/ x = 47 ->
  scan (a ++ x :: b) i = if x =? 58 then (i + Z.of_nat (length a), -1) else (-1, i + Z.of_nat (length a)).
Proof.
  revert i. induction a as [|c a IH]; intros i H58 H47 Hx; cbn [scan app length].
  - destruct Hx as [->| ->]; cbn; by rewrite Z.add_0_r.
  - rewrite !not_elem_of_cons in *. destruct H58 as [Hc1 H58], H47 as [Hc2 H47]. destruct (Z.eqb_spec c 58); [congruence|]. destruct (Z.eqb_spec c 47); [congruence|].
    rewrite IH by done. destruct (x =? 58); f_equal; lia.
Qed.

Lemma scan_none a i : (58 ∉ a) -> (47 ∉ a) -> scan a i = (-1, -1).
Proof.
  revert i. induction a as [|c a IH]; intros i H58 H47; cbn [scan]; [done|]. rewrite !not_elem_of_cons in *. destruct H58 as [Hc1 H58], H47 as [Hc2 H47].
  destruct (Z.eqb_spec c 58); [congruence|]. destruct (Z.eqb_spec c 47); [congruence|]. by apply IH.
Qed.

(** C34. Paths mean what the syntax of device names says: [device:path] starts
    at the root of the device or volume, [/path] at the boot file system,
    [:path] at the root of the file system of the current directory, and
    everything else, also a path with a colon after a slash, at the current
    directory; slashes after the colon or at the front are skipped.  The
    kernel's one pass with two indices and its cutting of the string in place
    compute exactly that. *)
Theorem getdevice_syntax path st :
  getdevice path st =
    ('(st, result, vn) ← begin_at (fst (parse_path path)) st; Ok (st, result, snd (parse_path path), vn)).
Proof.
  unfold getdevice, parse_path. pose proof (first_special_spec path) as Hs. destruct (first_special path) as [[[a x] b]|].
  2:{ destruct Hs as [H58 H47]. rewrite scan_none by done. done. }
  destruct Hs as (-> & Hx & H58 & H47). rewrite scan_app by done. destruct a as [|c a].
  - cbn [length]. change (0 + Z.of_nat 0) with 0.
    destruct Hx as [->| ->]; cbn [Z.eqb Pos.eqb Z.ltb Z.gtb Z.compare andb negb orb assert app head tail]; rewrite bind_Ok.
    + rewrite bool_decide_false by congruence. rewrite bool_decide_true by done. cbn [assert]. rewrite bind_Ok. done.
    + rewrite bool_decide_true by done. done.
  - assert (0 < 0 + Z.of_nat (length (c :: a))) as Hpos by (simpl length; lia). destruct Hx as [->| ->]; cbn [Z.eqb Pos.eqb].
    + destruct (Z.ltb_spec (0 + Z.of_nat (length (c :: a))) 0); [lia|]. destruct (Z.gtb_spec (0 + Z.of_nat (length (c :: a))) 0); [|lia]. cbn [andb fst snd begin_at].
      replace (Z.to_nat (0 + Z.of_nat (length (c :: a)))) with (length (c :: a)) by lia. rewrite take_app_length.
      replace (Z.to_nat (0 + Z.of_nat (length (c :: a)) + 1)) with (length ((c :: a) ++ [58])) by (rewrite length_app; simpl length; lia).
      change (58 :: b) with ([58] ++ b). by rewrite (app_assoc (c :: a) [58] b), drop_app_length.
    + destruct (Z.eqb_spec (0 + Z.of_nat (length (c :: a))) 0); [lia|]. done.
Qed.

(** ** Finding a device *)

Definition raw_name (mountable : bool) (name : list Z) : option (list Z) := if mountable then Some (name ++ [114; 97; 119]) else None.

(** What a successful [vfs_adddev] has done. *)
Lemma vfs_adddev_inv al name dev mountable st st' : vfs_adddev al name dev mountable st = Ok (st', 0) ->
  exists p w, al_vnode al = Some p /\ knowndevs_lock st = false /\ badnames_loop (knowndevs st) (Some name) (raw_name mountable name) None w = Ok false /\
    st' = set_devs (knowndevs st ++ [mk_kd name (raw_name mountable name) (Some dev) p None]) (set_world w st).
Proof.
  unfold vfs_adddev, vfs_doadd. destruct (al_name al); [|done]. cbn [negb].
  assert ((mountable && bool_decide ((if mountable then mkrawname (al_rawname al) name else None) = None) = false ->
    (if mountable then mkrawname (al_rawname al) name else None) = raw_name mountable name)) as Hraw.
  { destruct mountable; [|done]. unfold mkrawname. by destruct (al_rawname al). }
  destruct (mountable && _); [done|]. rewrite (Hraw eq_refl). intros E. apply bind_Ok_inv in E as ([v w] & E1 & E). unfold dev_create_vnode in E1.
  destruct (al_vnode al) as [p|]; [|by injection E1 as <- <-]. destruct (vnode_init _ _ _ _ _) as [r vn]. destruct (negb (r =? 0)); [done|]. injection E1 as <- <-.
  destruct (al_kd al); [|done]. cbn [negb] in E. rewrite bind_Ok in E. unfold acquire_devs in E. cbn [knowndevs_lock set_world] in E.
  destruct (knowndevs_lock st) eqn:El; [done|]. rewrite bind_Ok in E. unfold badnames in E. cbn [knowndevs_lock set_devs_lock assert knowndevs world set_world] in E.
  rewrite bind_Ok in E. apply bind_Ok_inv in E as (b & Eb & E). destruct b; cbn [negb] in E.
  { unfold release_devs in E. by cbn in E. }
  destruct (al_array al); [|by unfold release_devs in E; cbn in E]. cbn [release_devs] in E. unfold release_devs in E. cbn in E. injection E as <-.
  eexists p, _. split; [done|]. split; [done|]. split; [exact Eb|]. unfold set_devs, set_world. cbn. by rewrite El.
Qed.

Lemma samestring3_false a n1 n2 n3 n : samestring3 a n1 n2 n3 = false -> Some n = n1 \/ Some n = n2 -> a <> Some n.
Proof.
  unfold samestring3. rewrite !orb_false_iff. intros [[E1 E2] _] Hn ->. unfold samestring, str_eq in *.
  destruct Hn as [<-|<-]; by rewrite bool_decide_true in *.
Qed.

(** Devices with other names are passed over. *)
Lemma getroot_skip l rest n1 n2 n w : badnames_loop l n1 n2 None w = Ok false -> Some n = n1 \/ Some n = n2 ->
  getroot_loop (l ++ rest) n w = getroot_loop rest n w.
Proof.
  intros E Hn. induction l as [|kd l IH]; [done|]. cbn [app getroot_loop badnames_loop] in *. apply bind_Ok_inv in E as (bad & Ebad & E). destruct bad; [done|].
  destruct (samestring3 (kd_rawname kd) n1 n2 None) eqn:E1; [done|]. destruct (samestring3 (Some (kd_name kd)) n1 n2 None) eqn:E2; [done|]. cbn [orb] in E. specialize (IH E).
  pose proof (samestring3_false _ _ _ _ _ E1 Hn) as Hraw. pose proof (samestring3_false _ _ _ _ _ E2 Hn) as Hname.
  assert (str_eq (kd_name kd) n = false) as En by (apply bool_decide_eq_false; congruence).
  assert (getroot_device n w kd = Ok None) as Ed.
  { unfold getroot_device. rewrite En. destruct (kd_rawname kd) as [raw|]; [|done]. unfold str_eq. rewrite bool_decide_false by congruence. done. }
  rewrite En, Ed, !bind_Ok. destruct (kd_fs kd) as [fs|]; [|by rewrite andb_false_r].
  apply bind_Ok_inv in Ebad as (vol & -> & Ev). rewrite bind_Ok. injection Ev as Ev.
  rewrite bool_decide_false by (exact (samestring3_false _ _ _ _ _ Ev Hn)). cbn [orb]. exact IH.
Qed.

(** A path that is only a device. *)
Lemma lookup_device name st : name <> [] -> (58 ∉ name) -> (47 ∉ name) ->
  vfs_lookup (name ++ [58]) st = ('(st, e, vn) ← vfs_getroot name st; Ok (st, e, if e =? 0 then vn else 0)).
Proof.
  intros Hne H58 H47. unfold vfs_lookup, getdevice. rewrite (scan_app name 58 [] 0 H58 H47 (or_introl eq_refl)). cbn [Z.eqb Pos.eqb].
  assert (0 < Z.of_nat (length name)) by (destruct name; [done|simpl length; lia]).
  destruct (Z.ltb_spec (0 + Z.of_nat (length name)) 0); [lia|]. destruct (Z.gtb_spec (0 + Z.of_nat (length name)) 0); [|lia]. cbn [andb].
  replace (Z.to_nat (0 + Z.of_nat (length name))) with (length name) by lia. rewrite take_app_length.
  replace (Z.to_nat (0 + Z.of_nat (length name) + 1)) with (length (name ++ [58])) by (rewrite length_app; simpl length; lia). rewrite drop_all.
  destruct (vfs_getroot name st) as [[[st1 e] v]| | |]; [|done..]. rewrite !bind_Ok. by destruct (Z.eqb_spec e 0) as [->|].
Qed.

(** A device that [vfs_adddev] has added is found under its name: right
    afterwards, opening the path of its name followed by a colon gives the
    device's own vnode with one more reference, whatever devices and mounted
    volumes were there before.  A device that can be mounted is found this way
    under its name with "raw" appended, and its plain name fails with ENXIO as
    long as nothing is mounted. *)
Theorem added_device_found al name dev mountable st st' :
  vfs_adddev al name dev mountable st = Ok (st', 0) -> name <> [] -> (58 ∉ name) -> (47 ∉ name) ->
  exists p, al_vnode al = Some p /\
    vfs_lookup ((if mountable then name ++ [114; 97; 119] else name) ++ [58]) st' =
      (w ← vnode_incref p (world st'); Ok (set_world w st', 0, p)) /\
    (mountable = true -> vfs_lookup (name ++ [58]) st' = Ok (st', ENXIO, 0)).
Proof.
  intros E Hne H58 H47. apply vfs_adddev_inv in E as (p & w & Hp & Hl & Hb & ->). exists p. split; [done|].
  set (kd := mk_kd _ _ _ _ _). set (st' := set_devs _ _).
  assert (forall n, Some n = Some name \/ Some n = raw_name mountable name -> vfs_getroot n st' =
    ('(e, v, w) ← getroot_loop [kd] n (world st'); Ok (set_world w st', e, v))) as Hroot.
  { intros n Hn. unfold st', vfs_getroot, acquire_devs. cbn [knowndevs_lock set_devs set_world]. rewrite Hl, bind_Ok. cbn [knowndevs world set_devs_lock set_devs set_world].
    rewrite (getroot_skip _ [kd] _ _ n w Hb Hn). destruct (getroot_loop [kd] n w) as [[[e v] w']| | |]; [|done..]. rewrite !bind_Ok.
    unfold release_devs. cbn. unfold st', set_devs_lock, set_world, set_devs. cbn. by rewrite Hl. }
  destruct mountable; cbn [raw_name kd] in *.
  - split; [|intros _].
    + rewrite lookup_device; [|by destruct name|rewrite not_elem_of_app; split; [done|set_solver]|rewrite not_elem_of_app; split; [done|set_solver]].
      rewrite Hroot by (by right). cbn [getroot_loop kd_fs kd_rawname kd_name kd].
      assert (str_eq name (name ++ [114; 97; 119]) = false) as ->.
      { apply bool_decide_eq_false. intros Hc. apply (f_equal length) in Hc. rewrite length_app in Hc. simpl in Hc. lia. }
      rewrite andb_false_r. unfold getroot_device. cbn [kd_name kd_rawname kd_device kd_vnode kd]. unfold str_eq.
      rewrite bool_decide_false; [|intros Hc; apply (f_equal length) in Hc; rewrite length_app in Hc; simpl in Hc; lia].
      rewrite bool_decide_true by done. cbn [assert]. rewrite (bool_decide_true (Some dev <> None)) by done. cbn [assert]. rewrite bind_Ok.
      by destruct (vnode_incref p (world st')).
    + rewrite lookup_device, Hroot by (done || by left). cbn [getroot_loop kd_fs kd_rawname kd_name kd]. unfold str_eq. rewrite !bool_decide_true by done.
      cbn [andb]. rewrite !bind_Ok. cbn [Z.eqb ENXIO]. do 3 f_equal.
  - split; [|done]. rewrite lookup_device, Hroot by (done || by left). cbn [getroot_loop kd_fs kd_rawname kd_name kd].
    rewrite bool_decide_false by (by intros Hc; apply Hc). cbn [andb]. unfold getroot_device. cbn [kd_fs kd_name kd_rawname kd_device kd_vnode kd]. unfold str_eq.
    rewrite !bool_decide_true by done. cbn [assert]. rewrite !bind_Ok. by destruct (vnode_incref p (world st')).
Qed.

(** ** The boot file system *)

(** The comment in [vfs_setbootfs] allows a colon at the end of the name, but
    the string from the colon on is never empty: every colon is refused. *)
Theorem vfs_setbootfs_refuses_colon fsname st : 58 ∈ take 254 fsname -> vfs_setbootfs fsname st = Ok (st, EINVAL).
Proof.
  intros Hc. unfold vfs_setbootfs, bootfs_path. change (Z.to_nat (NAME_MAX - 1)) with 254%nat.
  assert (forall l : list Z, 58 ∈ l -> exists s, strchr_colon l = Some s /\ 0 < Z.of_nat (length s)) as Hs.
  { intros l. induction l as [|c l IH]; [by intros ?%not_elem_of_nil|]. intros Hl. cbn [strchr_colon]. destruct (Z.eqb_spec c 58).
    - exists (c :: l). split; [done|simpl length; lia].
    - apply elem_of_cons in Hl as [|Hl]; [congruence|by apply IH]. }
  destruct (Hs _ Hc) as (s & -> & Hlen). destruct (Z.gtb_spec (Z.of_nat (length s)) 0); [done|lia].
Qed.
End names.

Definition null_world : vfs (dev_world unit null_at) :=
  mk_vfs [mk_kd null_name None (Some 100) 16 None] false None false None
    (mk_dw (<[16 := mk_vnode 1 0 true None (Some 100) (Some dev_vnode_ops)]> ∅) tt).

Lemma added_device_found_witness : exists p, al_vnode (allocs_at 16) = Some p /\
    vfs_lookup ((if false then null_name ++ [114; 97; 119] else null_name) ++ [58]) null_world =
      (w ← vnode_incref p (world null_world); Ok (set_world w null_world, 0, p)) /\
    (false = true -> vfs_lookup (null_name ++ [58]) null_world = Ok (null_world, ENXIO, 0)).
Proof.
  apply (added_device_found (allocs_at 16) null_name 100 false boot_world null_world); [by vm_compute|done|by apply (bool_decide_unpack _); vm_compute|by apply (bool_decide_unpack _); vm_compute].
Defined.
