(* ===== verification/RunProgram.v ===== *)
(** * kern/userprog/runprogram.c: starting a program

    [runprogram] takes the file from the VFS, the memory from the address
    space, the bytes through [load_elf], and leaves for user mode.  The
    theorem puts together what the files on these parts show. *)
From stdpp Require Import base numbers list option gmap gmultiset.
From S2P Require Import Prelude Ram DumbVm DumbVmSpec PidManager Lamebus Trap Uio LoadElf LoadElfSpec Vnode Vfs VfsSpec VfsDev VfsRefs.
Local Open Scope Z_scope.

(** [VOP_READ] of a world, and what it promises of the vnodes that are
    regular files: their bytes, and that references stay as they are. *)
Class VopRead (S : Type) `{VfsLaws S} : Type := {
  vop_read : Z -> (Z -> bool) -> option Z -> uio -> S -> res (Z * uio * S);
  is_file : Z -> S -> Prop;
  file_bytes : Z -> S -> list Z;
  vop_read_law v f valid cs u w T O F : refs w T O F -> room T -> (v, f) ∈ T -> is_file v w ->
    uio_wf u -> reachable valid cs u (uio_resid u) -> 0 <= uio_offset u -> is_write u = false ->
    let n := Z.max 0 (Z.min (uio_resid u) (Z.of_nat (length (file_bytes v w)) - uio_offset u)) in
    exists w', vop_read v valid cs u w =
        Ok (0, advance n (iov_data u ++ take (Z.to_nat n) (drop (Z.to_nat (uio_offset u)) (file_bytes v w))) u, w') /\
      refs w' T O F /\ is_file v w' /\ file_bytes v w' = file_bytes v w;
}.

Section run.
Context {S : Type} `{VopRead S} {W : Type} `{!BusHw W}.
Implicit Types (st : vfs S) (k : kern W).

Definition read_vnode (v : Z) (valid : Z -> bool) (cs : option Z) (u : uio) st : res (Z * uio * vfs S) :=
  '(e, u, w) ← VOP v st (vop_read v valid cs u);
  Ok (e, u, set_world w st).

Definition set_as (m : machine) (a : option addrspace) k : kern W :=
  mk_kern m a (k_bad k) (k_stack k) (curkstack k) (in_interrupt k) (k_pm k) (k_pid k) (k_bus k) (k_duds k) (k_w k).

(** An error, or the registers with which the program starts. *)
Inductive outcome : Type := RunError (e : Z) | RunUser (tf : trapframe).

(** [ok] says whether [kmalloc] of the address space succeeds, which then is
    at [vmspace]; [tfaddr] is the address of the trap frame in
    [md_usermode]. *)
Definition runprogram (ok : bool) (vmspace tfaddr : Z) (progname : list Z) st k : res (vfs S * kern W * outcome) :=
  '(st, result, v) ← vfs_open progname O_RDONLY st;
  if negb (result =? 0) then Ok (st, k, RunError result)
  else
    _ ← assert (bool_decide (k_as k = None));
    match as_create ok with
    | None => st ← vfs_close v st; Ok (st, k, RunError ENOMEM)
    | Some a =>
        m ← as_activate (k_m k);
        '(result, entrypoint, m, a, st) ← load_elf (read_vnode v) vmspace m a st;
        let k := set_as m (Some a) k in
        if negb (result =? 0) then st ← vfs_close v st; Ok (st, k, RunError result)
        else
          st ← vfs_close v st;
          '(stackptr, result) ← as_define_stack a;
          if negb (result =? 0) then Ok (st, k, RunError result)
          else
            '(k, a) ← md_usermode tfaddr 0 0 stackptr entrypoint k;
            match a with Resume tf => Ok (st, k, RunUser tf) | _ => Panic end
    end.

(** ** The file as [load_elf] sees it *)

Section exec.
Variables (k : nat) (g : ghost) (R O : gmultiset ref) (F : gset Z) (v : Z) (f : option Z) (st0 : vfs S).

Definition open_ok st : Prop :=
  inv (1 + k) g st (R ⊎ {[+ (v, f) +]}) (O ⊎ {[+ (v, f) +]}) F /\ is_file v (world st) /\ exists w, st = set_world w st0.

Lemma read_vnode_spec valid cs u st : open_ok st -> uio_wf u -> reachable valid cs u (uio_resid u) -> 0 <= uio_offset u -> is_write u = false ->
  let n := Z.max 0 (Z.min (uio_resid u) (Z.of_nat (length (file_bytes v (world st))) - uio_offset u)) in
  exists st', read_vnode v valid cs u st =
      Ok (0, advance n (iov_data u ++ take (Z.to_nat n) (drop (Z.to_nat (uio_offset u)) (file_bytes v (world st)))) u, st') /\
    open_ok st' /\ file_bytes v (world st') = file_bytes v (world st).
Proof.
  intros (Hi & Hfile & w0 & ->) Hwf Hr Ho Hw n. unfold read_vnode.
  destruct (VOP_spec _ g _ _ _ F v f (vop_read v valid cs u)
    (fun '(e, u', w') => (e, u') = (0, advance n (iov_data u ++ take (Z.to_nat n) (drop (Z.to_nat (uio_offset u)) (file_bytes v (world (set_world w0 st0))))) u) /\
       refs w' (R ⊎ {[+ (v, f) +]} ⊎ kernel_refs g (set_world w0 st0)) (O ⊎ {[+ (v, f) +]}) F /\ is_file v w' /\ file_bytes v w' = file_bytes v w0) Hi)
    as ([[e u'] w'] & -> & [= -> ->] & Hrefs & Hf' & Eb').
  - multiset_solver.
  - intros Hrf Hrm Hin. destruct (vop_read_law v f valid cs u _ _ _ _ Hrf Hrm Hin Hfile Hwf Hr Ho Hw) as (w' & -> & ? & ? & ?). by eexists.
  - rewrite bind_Ok. eexists. split; [done|]. split; [|done]. split; [|split; [done|by exists w']].
    eapply inv_world; [exact Hi|apply (inv_open Hi)|done|]. exact Hrefs.
Qed.

#[local] Instance open_exec : ExecFile (read_vnode v) :=
  {| ef_bytes st := file_bytes v (world st); ef_ok := open_ok; ef_read valid cs u st := read_vnode_spec valid cs u st |}.
End exec.

(** The registers of a program that starts. *)
Definition start_frame (entry : Z) : trapframe :=
  tf_set TF_SP USERSTACK (tf_set TF_A1 0 (tf_set TF_A0 0 (tf_set TF_EPC entry (tf_set TF_STATUS 0xff0c (replicate 37 0))))).

(** What loading leaves: the program is in memory, or there was not enough. *)
Definition started (bytes : list Z) (ph1 ph2 : Elf_Phdr) k k' (out : outcome) : Prop :=
  let p := firstpaddr (m_ram (k_m k)) in
  let a := place p (layout ph1 ph2) in
  (forall q, 0 <= q < p -> m_mem (k_m k') !! Z.to_nat q = m_mem (k_m k) !! Z.to_nat q) /\
  if p + as_pages (layout ph1 ph2) * PAGE_SIZE <=? lastpaddr (m_ram (k_m k))
  then out = RunUser (start_frame (e_entry (ehdr bytes))) /\ k_as k' = Some a /\ curspl (k_m k') = 0 /\ Forall (sound a) (m_tlb (k_m k')) /\
    forall w, view a (m_mem (k_m k')) w = overlay bytes ph2 w (overlay bytes ph1 w (view a (m_mem (k_m k)) w))
  else out = RunError ENOMEM.

(** [runprogram] from the open file and the new address space on. *)
Definition with_file (v vmspace tfaddr : Z) st k : res (vfs S * kern W * outcome) :=
  m ← as_activate (k_m k);
  '(result, entrypoint, m, a, st) ← load_elf (read_vnode v) vmspace m (mk_as 0 0 0 0 0 0 0) st;
  let k := set_as m (Some a) k in
  if negb (result =? 0) then st ← vfs_close v st; Ok (st, k, RunError result)
  else
    st ← vfs_close v st;
    '(stackptr, result) ← as_define_stack a;
    if negb (result =? 0) then Ok (st, k, RunError result)
    else
      '(k, a) ← md_usermode tfaddr 0 0 stackptr entrypoint k;
      match a with Resume tf => Ok (st, k, RunUser tf) | _ => Panic end.

(** The file's bytes are bytes, and the offsets of its program headers are
    below 2^31: larger ones are negative as an [off_t]. *)
Definition readable_headers (bytes : list Z) : Prop :=
  Forall (fun b => 0 <= b < 256) bytes /\ forall i, 0 <= i < e_phnum (ehdr bytes) -> phdr_pos bytes i + sizeof_phdr < 2 ^ 31.

Lemma run_loaded (n : nat) (g : ghost) st (R O : gmultiset ref) (F : gset Z) vmspace tfaddr v f (kn : kern W) ph1 ph2 :
  inv (2 + n) g st (R ⊎ {[+ (v, f) +]}) (O ⊎ {[+ (v, f) +]}) F -> is_file v (world st) ->
  SAME_STACK (u32 (curkstack kn - 1)) tfaddr = true ->
  ram_ok (m_ram (k_m kn)) -> lastpaddr (m_ram (k_m kn)) <= Z.of_nat (length (m_mem (k_m kn))) -> length (m_tlb (k_m kn)) = 64%nat ->
  exec_wf (file_bytes v (world st)) ->
  segments (file_bytes v (world st)) 0 (Z.to_nat (e_phnum (ehdr (file_bytes v (world st))))) = [ph1; ph2] -> segment_pages ph1 + segment_pages ph2 <= 64 ->
  exists w kn' out, with_file v vmspace tfaddr st kn = Ok (set_world w st, kn', out) /\
    inv (3 + n) g (set_world w st) R O F /\ started (file_bytes v (world st)) ph1 ph2 kn kn' out.
Proof.
  intros Hi Hfile Hstk Hram Hmem Htlb Hexec Hsegs Hpg. unfold with_file. destruct (as_activate_spec (k_m kn) Htlb) as (tlb & -> & Hl & Hinv). rewrite bind_Ok.
  pose (open_exec (1 + n) g R O F v f st). assert (open_ok (1 + n) g R O F v f st st) as Hopen.
  { split; [done|]. split; [done|]. exists (world st). by rewrite set_world_same. }
  destruct (load_elf_two (read_vnode v) vmspace (set_tlb tlb (k_m kn)) st ph1 ph2) as (r & entry & m' & a & st1 & -> & Hok1 & Eb & Hl1 & Hspl & Hlm & Hrest & Hcase); try done.
  rewrite bind_Ok. destruct Hok1 as (Hi1 & _ & w1 & ->). destruct (vfs_close_spec _ _ _ _ _ _ _ _ Hi1) as (w2 & E2 & Hi2).
  unfold started. cbn [m_ram m_mem set_tlb] in Hcase, Hrest. destruct (Z.leb_spec (firstpaddr (m_ram (k_m kn)) + as_pages (layout ph1 ph2) * PAGE_SIZE) (lastpaddr (m_ram (k_m kn)))) as [Hfit|Hno].
  - destruct Hcase as (-> & -> & -> & Hs & Hview). cbn [Z.eqb negb]. rewrite E2, bind_Ok. unfold as_define_stack.
    destruct (two_wf _ _ _ Hexec Hsegs) as ([W1 W2] & _). pose proof (layout_wf ph1 ph2 (sw_place _ _ W1) (sw_place _ _ W2)) as Hlay.
    pose proof Hram as (Hp & _). assert (as_stackpbase (place (firstpaddr (m_ram (k_m kn))) (layout ph1 ph2)) <> 0) as Hsb.
    { destruct Hlay as (_ & _ & _ & _ & _ & ? & _ & _ & _ & ? & _). cbn in *. unfold PAGE_SIZE. lia. }
    destruct (Z.eqb_spec (as_stackpbase (place (firstpaddr (m_ram (k_m kn))) (layout ph1 ph2))) 0); [done|]. cbn [negb assert]. rewrite !bind_Ok. cbn [Z.eqb negb].
    unfold md_usermode, mips_usermode. change (curkstack (set_curspl _ _)) with (curkstack kn). rewrite Hstk. cbn [assert]. rewrite !bind_Ok.
    do 3 eexists. split; [done|]. split; [done|]. split; [done|]. split; [done|]. split; [done|]. split; [done|]. split; [done|]. exact Hview.
  - destruct Hcase as [-> Em]. cbn [Z.eqb negb ENOMEM]. rewrite E2, bind_Ok. do 3 eexists. split; [done|]. done.
Qed.

(** A file that [load_elf] refuses. *)
Lemma run_refused (n : nat) (g : ghost) st (R O : gmultiset ref) (F : gset Z) vmspace tfaddr v f (kn : kern W) :
  inv (2 + n) g st (R ⊎ {[+ (v, f) +]}) (O ⊎ {[+ (v, f) +]}) F -> is_file v (world st) -> length (m_tlb (k_m kn)) = 64%nat ->
  readable_headers (file_bytes v (world st)) -> refusal (file_bytes v (world st)) <> 0 ->
  exists w kn', with_file v vmspace tfaddr st kn = Ok (set_world w st, kn', RunError (refusal (file_bytes v (world st)))) /\
    inv (3 + n) g (set_world w st) R O F /\ m_mem (k_m kn') = m_mem (k_m kn).
Proof.
  intros Hi Hfile Htlb [Hb Hpos] Hr. unfold with_file. destruct (as_activate_spec (k_m kn) Htlb) as (tlb & -> & _ & _). rewrite bind_Ok.
  pose (open_exec (1 + n) g R O F v f st). assert (open_ok (1 + n) g R O F v f st st) as Hopen.
  { split; [done|]. split; [done|]. exists (world st). by rewrite set_world_same. }
  destruct (load_elf_refused (read_vnode v) vmspace (set_tlb tlb (k_m kn)) st) as (a & st1 & Hok1 & E); try done.
  destruct Hok1 as (Hi1 & _ & w1 & ->).
  change (ef_bytes st) with (file_bytes v (world st)) in E. rewrite E, bind_Ok. destruct (Z.eqb_spec (refusal (file_bytes v (world st))) 0); [done|]. cbn [negb].
  destruct (vfs_close_spec _ _ _ _ _ _ _ _ Hi1) as (w2 & -> & Hi2). rewrite bind_Ok. by do 2 eexists.
Qed.

End run.
