(* ===== verification/Emu.v ===== *)
(** * kern/dev/lamebus/emu.c: the emulator file system

    Files of the machine that runs the emulator, behind a device with five
    registers and a buffer.  What the device does when an operation is written
    to [REG_OPER] is the class [EmuHw]; the interrupt that tells the end of an
    operation comes while the driver waits for it.  There is one such device,
    so [ev_emu] and [ef_emu] need no name.

    The world of this file has the vnodes of devices, of device.c, and those
    of the emulator file system: an [emufs_vnode] starts with its vnode and
    has its address.  Answers of allocations are in the world, one [alloc]
    for each vnode that is made; an address that is in use is not one that
    [kmalloc] gives. *)
From stdpp Require Import base numbers list option gmap.
From S2P Require Import Prelude Printf Uio Vnode Vfs VfsSpec VfsDev.
Local Open Scope Z_scope.

(** ** Registers, operations and results *)

Definition REG_HANDLE : Z := 0.
Definition REG_OFFSET : Z := 4.
Definition REG_IOLEN : Z := 8.
Definition REG_OPER : Z := 12.
Definition REG_RESULT : Z := 16.

Definition EMU_OP_OPEN : Z := 1.
Definition EMU_OP_CREATE : Z := 2.
Definition EMU_OP_EXCLCREATE : Z := 3.
Definition EMU_OP_CLOSE : Z := 4.
Definition EMU_OP_READ : Z := 5.
Definition EMU_OP_READDIR : Z := 6.
Definition EMU_OP_WRITE : Z := 7.
Definition EMU_OP_GETSIZE : Z := 8.
Definition EMU_OP_TRUNC : Z := 9.

Definition EMU_RES_SUCCESS : Z := 1.
Definition EMU_RES_BADHANDLE : Z := 2.
Definition EMU_RES_BADOP : Z := 3.
Definition EMU_RES_BADPATH : Z := 4.
Definition EMU_RES_BADSIZE : Z := 5.
Definition EMU_RES_EXISTS : Z := 6.
Definition EMU_RES_ISDIR : Z := 7.
Definition EMU_RES_MEDIA : Z := 8.
Definition EMU_RES_NOHANDLES : Z := 9.
Definition EMU_RES_NOSPACE : Z := 10.
Definition EMU_RES_NOTDIR : Z := 11.
Definition EMU_RES_UNKNOWN : Z := 12.
Definition EMU_RES_UNSUPP : Z := 13.

Definition EMU_MAXIO : Z := 16384.
Definition EMU_ROOTHANDLE : Z := 0.

Record emu_regs : Type := mk_regs { r_handle : Z; r_offset : Z; r_iolen : Z; r_result : Z }.

(** The device: an operation on the registers and the buffer. *)
Class EmuHw (E : Type) : Type := { emu_oper : Z -> emu_regs -> list Z -> E -> emu_regs * list Z * E }.

(** [e_lock] says whether the thread holds the lock. *)
Record emu_softc (E : Type) : Type := mk_emu {
  e_lock : bool;
  e_sem : Z;
  e_iobuf : list Z;
  e_result : Z;
  e_regs : emu_regs;
  e_hw : E;
}.
Arguments mk_emu {E}.
Arguments e_lock {E}.
Arguments e_sem {E}.
Arguments e_iobuf {E}.
Arguments e_result {E}.
Arguments e_regs {E}.
Arguments e_hw {E}.

(** ** Hardware operations *)

Section softc.
Context {E : Type} `{!EmuHw E}.
Implicit Types (sc : emu_softc E).

Definition set_elock (b : bool) sc : emu_softc E := mk_emu b (e_sem sc) (e_iobuf sc) (e_result sc) (e_regs sc) (e_hw sc).
Definition set_esem (n : Z) sc : emu_softc E := mk_emu (e_lock sc) n (e_iobuf sc) (e_result sc) (e_regs sc) (e_hw sc).
Definition set_iobuf (b : list Z) sc : emu_softc E := mk_emu (e_lock sc) (e_sem sc) b (e_result sc) (e_regs sc) (e_hw sc).
Definition set_eresult (n : Z) sc : emu_softc E := mk_emu (e_lock sc) (e_sem sc) (e_iobuf sc) n (e_regs sc) (e_hw sc).
Definition set_regs (r : emu_regs) sc : emu_softc E := mk_emu (e_lock sc) (e_sem sc) (e_iobuf sc) (e_result sc) r (e_hw sc).

(** [REG_OPER] cannot be read. *)
Definition emu_rreg sc (reg : Z) : Z :=
  let r := e_regs sc in
  if reg =? REG_HANDLE then r_handle r
  else if reg =? REG_OFFSET then r_offset r
  else if reg =? REG_IOLEN then r_iolen r
  else if reg =? REG_RESULT then r_result r
  else 0.

Definition emu_wreg sc (reg val : Z) : emu_softc E :=
  let r := e_regs sc in
  if reg =? REG_HANDLE then set_regs (mk_regs (u32 val) (r_offset r) (r_iolen r) (r_result r)) sc
  else if reg =? REG_OFFSET then set_regs (mk_regs (r_handle r) (u32 val) (r_iolen r) (r_result r)) sc
  else if reg =? REG_IOLEN then set_regs (mk_regs (r_handle r) (r_offset r) (u32 val) (r_result r)) sc
  else if reg =? REG_RESULT then set_regs (mk_regs (r_handle r) (r_offset r) (r_iolen r) (u32 val)) sc
  else if reg =? REG_OPER then
    let '(r, b, h) := emu_oper val r (e_iobuf sc) (e_hw sc) in
    mk_emu (e_lock sc) (e_sem sc) b (e_result sc) r h
  else sc.

Definition emu_irq sc : emu_softc E :=
  let sc := set_eresult (emu_rreg sc REG_RESULT) sc in
  let sc := emu_wreg sc REG_RESULT 0 in
  set_esem (e_sem sc + 1) sc.

Definition translate_err (code : Z) : res Z :=
  if code =? EMU_RES_SUCCESS then Ok 0
  else if (code =? EMU_RES_BADHANDLE) || (code =? EMU_RES_BADOP) || (code =? EMU_RES_BADSIZE) then Panic
  else if code =? EMU_RES_BADPATH then Ok ENOENT
  else if code =? EMU_RES_EXISTS then Ok EEXIST
  else if code =? EMU_RES_ISDIR then Ok EISDIR
  else if code =? EMU_RES_MEDIA then Ok EIO
  else if code =? EMU_RES_NOHANDLES then Ok ENFILE
  else if code =? EMU_RES_NOSPACE then Ok ENOSPC
  else if code =? EMU_RES_NOTDIR then Ok ENOTDIR
  else if code =? EMU_RES_UNKNOWN then Ok EIO
  else if code =? EMU_RES_UNSUPP then Ok EUNIMP
  else Ok EAGAIN.

(** [P]: the device interrupts while there is a result that the handler has
    not taken. *)
Definition emu_P sc : res (emu_softc E) :=
  if e_sem sc >? 0 then Ok (set_esem (e_sem sc - 1) sc)
  else if emu_rreg sc REG_RESULT =? 0 then Fuel
  else let sc := emu_irq sc in Ok (set_esem (e_sem sc - 1) sc).

Definition emu_waitdone sc : res (Z * emu_softc E) :=
  sc ← emu_P sc;
  e ← translate_err (e_result sc);
  Ok (e, sc).

Definition acquire_emu sc : res (emu_softc E) := if e_lock sc then Panic else Ok (set_elock true sc).
Definition release_emu sc : res (emu_softc E) := _ ← assert (e_lock sc); Ok (set_elock false sc).

Definition emu_open sc (handle : Z) (name : list Z) (create excl : bool) : res (Z * Z * bool * emu_softc E) :=
  if Z.of_nat (length name) + 1 >? EMU_MAXIO then Ok (ENAMETOOLONG, 0, false, sc)
  else
    let op := if create && excl then EMU_OP_EXCLCREATE else if create then EMU_OP_CREATE else EMU_OP_OPEN in
    sc ← acquire_emu sc;
    let sc := set_iobuf (name ++ [0] ++ drop (length name + 1) (e_iobuf sc)) sc in
    let sc := emu_wreg sc REG_IOLEN (Z.of_nat (length name)) in
    let sc := emu_wreg sc REG_HANDLE handle in
    let sc := emu_wreg sc REG_OPER op in
    '(result, sc) ← emu_waitdone sc;
    let '(newhandle, newisdir) := if result =? 0 then (emu_rreg sc REG_HANDLE, emu_rreg sc REG_IOLEN >? 0) else (0, false) in
    sc ← release_emu sc;
    Ok (result, newhandle, newisdir, sc).

(** The loop of [emu_close], with [n] retries left. *)
Fixpoint close_loop (n : nat) sc (handle : Z) : res (Z * emu_softc E) :=
  let sc := emu_wreg sc REG_HANDLE handle in
  let sc := emu_wreg sc REG_OPER EMU_OP_CLOSE in
  '(result, sc) ← emu_waitdone sc;
  match n with
  | S n => if result =? EIO then close_loop n sc handle else Ok (result, sc)
  | O => Ok (result, sc)
  end.

Definition emu_close sc (handle : Z) : res (Z * emu_softc E) :=
  let mine := e_lock sc in
  sc ← (if mine then Ok sc else acquire_emu sc);
  '(result, sc) ← close_loop 10 sc handle;
  sc ← (if mine then Ok sc else release_emu sc);
  Ok (result, sc).

Section move.
Variables (valid : Z -> bool) (curspace : option Z).

Definition emu_doread sc (handle len op : Z) (u : uio) : res (Z * uio * emu_softc E) :=
  _ ← assert (negb (is_write u));
  sc ← acquire_emu sc;
  let sc := emu_wreg sc REG_HANDLE handle in
  let sc := emu_wreg sc REG_IOLEN len in
  let sc := emu_wreg sc REG_OFFSET (uio_offset u) in
  let sc := emu_wreg sc REG_OPER op in
  '(result, sc) ← emu_waitdone sc;
  '(result, u) ← (if negb (result =? 0) then Ok (result, u)
    else
      '(result, _, u) ← uiomove valid curspace (e_iobuf sc) (emu_rreg sc REG_IOLEN) u;
      Ok (result, with_offset (i32 (emu_rreg sc REG_OFFSET)) u));
  sc ← release_emu sc;
  Ok (result, u, sc).

Definition emu_read sc (handle len : Z) (u : uio) := emu_doread sc handle len EMU_OP_READ u.
Definition emu_readdir sc (handle len : Z) (u : uio) := emu_doread sc handle len EMU_OP_READDIR u.

Definition emu_write sc (handle len : Z) (u : uio) : res (Z * uio * emu_softc E) :=
  _ ← assert (is_write u);
  sc ← acquire_emu sc;
  let sc := emu_wreg sc REG_HANDLE handle in
  let sc := emu_wreg sc REG_IOLEN len in
  let sc := emu_wreg sc REG_OFFSET (uio_offset u) in
  '(result, b, u) ← uiomove valid curspace (e_iobuf sc) len u;
  let sc := set_iobuf b sc in
  '(result, sc) ← (if negb (result =? 0) then Ok (result, sc) else emu_waitdone (emu_wreg sc REG_OPER EMU_OP_WRITE));
  sc ← release_emu sc;
  Ok (result, u, sc).
End move.

Definition emu_getsize sc (handle : Z) : res (Z * Z * emu_softc E) :=
  sc ← acquire_emu sc;
  let sc := emu_wreg sc REG_HANDLE handle in
  let sc := emu_wreg sc REG_OPER EMU_OP_GETSIZE in
  '(result, sc) ← emu_waitdone sc;
  let retval := if result =? 0 then i32 (emu_rreg sc REG_IOLEN) else 0 in
  sc ← release_emu sc;
  Ok (result, retval, sc).

Definition emu_trunc sc (handle len : Z) : res (Z * emu_softc E) :=
  sc ← acquire_emu sc;
  let sc := emu_wreg sc REG_HANDLE handle in
  let sc := emu_wreg sc REG_IOLEN len in
  let sc := emu_wreg sc REG_OPER EMU_OP_TRUNC in
  '(result, sc) ← emu_waitdone sc;
  sc ← release_emu sc;
  Ok (result, sc).
End softc.

(** ** emufs.h and the world *)

Record emufs_vnode : Type := mk_ev { ev_v : vnode; ev_handle : Z }.

(** The table is an array of addresses, here a list. *)
Record emufs_fs : Type := mk_ef { ef_root : option Z; ef_vnodes : list Z }.

(** The answers of [kmalloc], [lock_create] and [array_add] for one vnode. *)
Record alloc : Type := mk_alloc { am_ev : option Z; am_lock : bool; am_array : bool }.

Record emu_world (E H : Type) (devs : Z -> option (device H)) : Type := mk_ew {
  ew_dev : dev_world H devs;
  ew_sc : emu_softc E;
  ew_vnodes : gmap Z emufs_vnode;
  ew_fs : gmap Z emufs_fs;
  ew_mem : list alloc;
}.
Arguments mk_ew {E H devs}.
Arguments ew_dev {E H devs}.
Arguments ew_sc {E H devs}.
Arguments ew_vnodes {E H devs}.
Arguments ew_fs {E H devs}.
Arguments ew_mem {E H devs}.

Section emufs.
Context {E : Type} `{!EmuHw E} {H : Type} {devs : Z -> option (device H)}.
Abbreviation W := (emu_world E H devs).
Implicit Types (w : W).

Definition set_dev (d : dev_world H devs) w : W := mk_ew d (ew_sc w) (ew_vnodes w) (ew_fs w) (ew_mem w).
Definition set_sc (sc : emu_softc E) w : W := mk_ew (ew_dev w) sc (ew_vnodes w) (ew_fs w) (ew_mem w).
Definition set_evs (m : gmap Z emufs_vnode) w : W := mk_ew (ew_dev w) (ew_sc w) m (ew_fs w) (ew_mem w).
Definition set_fs (m : gmap Z emufs_fs) w : W := mk_ew (ew_dev w) (ew_sc w) (ew_vnodes w) m (ew_mem w).
Definition set_mem (l : list alloc) w : W := mk_ew (ew_dev w) (ew_sc w) (ew_vnodes w) (ew_fs w) l.

Definition ew_lookup (v : Z) w : option vnode :=
  match ew_vnodes w !! v with Some ev => Some (ev_v ev) | None => dw_vnodes (ew_dev w) !! v end.
Definition ew_store (v : Z) (vn : vnode) w : W :=
  match ew_vnodes w !! v with
  | Some ev => set_evs (<[v := mk_ev vn (ev_handle ev)]> (ew_vnodes w)) w
  | None => set_dev (vn_store v vn (ew_dev w)) w
  end.
Definition ew_free (v : Z) w : W := set_evs (delete v (ew_vnodes w)) (set_dev (vn_free v (ew_dev w)) w).

Definition ew_deref (v : Z) w : res vnode := match ew_lookup v w with Some vn => Ok vn | None => Undef end.

(** [struct emufs_vnode *ev = v->vn_data], with the address. *)
Definition ev_of (v : Z) w : res (Z * emufs_vnode) :=
  vn ← ew_deref v w;
  match vn_data vn with
  | None => Undef
  | Some p => match ew_vnodes w !! p with Some ev => Ok (p, ev) | None => Undef end
  end.

Definition fs_deref (x : Z) w : res emufs_fs := match ew_fs w !! x with Some ef => Ok ef | None => Undef end.

(** [struct emufs_fs *ef = v->vn_fs->fs_data] *)
Definition ef_of (v : Z) w : res (Z * emufs_fs) :=
  vn ← ew_deref v w;
  match vn_fs vn with
  | None => Undef
  | Some x => ef ← fs_deref x w; Ok (x, ef)
  end.

(** ** vnode functions *)

Definition emufs_open (v openflags : Z) w : res (Z * W) :=
  if negb (Z.land openflags O_APPEND =? 0) then Ok (EUNIMP, w) else Ok (0, w).

Definition emufs_opendir (v openflags : Z) w : res (Z * W) :=
  if negb (Z.land openflags O_ACCMODE =? O_RDONLY) then Ok (EISDIR, w)
  else if negb (Z.land openflags O_APPEND =? 0) then Ok (EISDIR, w)
  else Ok (0, w).

Definition emufs_close (v : Z) w : res (Z * W) := Ok (0, w).

Definition emufs_reclaim (v : Z) w : res (Z * W) :=
  '(p, ev) ← ev_of v w;
  '(x, ef) ← ef_of v w;
  sc ← acquire_emu (ew_sc w);
  _ ← assert (vn_countlock (ev_v ev));
  if negb (vn_refcount (ev_v ev) =? 1) then
    sc ← release_emu sc;
    Ok (EBUSY, set_sc sc w)
  else
    '(result, sc) ← emu_close sc (ev_handle ev);
    if negb (result =? 0) then
      sc ← release_emu sc;
      Ok (result, set_sc sc w)
    else
      match list_find (fun evx => evx = p) (ef_vnodes ef) with
      | None => Panic
      | Some (ix, _) =>
          let w := set_fs (<[x := mk_ef (ef_root ef) (delete ix (ef_vnodes ef))]> (ew_fs w)) w in
          sc ← release_emu sc;
          _ ← vnode_kill (ev_v ev);
          Ok (0, set_evs (delete p (ew_vnodes w)) (set_sc sc w))
      end.

Section move.
Variables (valid : Z -> bool) (curspace : option Z).

Fixpoint read_loop (fuel : nat) sc (handle : Z) (u : uio) : res (Z * uio * emu_softc E) :=
  match fuel with
  | O => Fuel
  | S fuel =>
      if uio_resid u >? 0 then
        let amt := if uio_resid u >? EMU_MAXIO then EMU_MAXIO else uio_resid u in
        let oldresid := uio_resid u in
        '(result, u, sc) ← emu_read valid curspace sc handle amt u;
        if negb (result =? 0) then Ok (result, u, sc)
        else if uio_resid u =? oldresid then Ok (0, u, sc)
        else read_loop fuel sc handle u
      else Ok (0, u, sc)
  end.

Definition emufs_read (v : Z) (u : uio) w : res (Z * uio * W) :=
  '(_, ev) ← ev_of v w;
  _ ← assert (negb (is_write u));
  '(result, u, sc) ← read_loop (S (Z.to_nat (uio_resid u))) (ew_sc w) (ev_handle ev) u;
  Ok (result, u, set_sc sc w).

Definition emufs_getdirentry (v : Z) (u : uio) w : res (Z * uio * W) :=
  '(_, ev) ← ev_of v w;
  _ ← assert (negb (is_write u));
  let amt := if uio_resid u >? EMU_MAXIO then EMU_MAXIO else uio_resid u in
  '(result, u, sc) ← emu_readdir valid curspace (ew_sc w) (ev_handle ev) amt u;
  Ok (result, u, set_sc sc w).

Fixpoint write_loop (fuel : nat) sc (handle : Z) (u : uio) : res (Z * uio * emu_softc E) :=
  match fuel with
  | O => Fuel
  | S fuel =>
      if uio_resid u >? 0 then
        let amt := if uio_resid u >? EMU_MAXIO then EMU_MAXIO else uio_resid u in
        let oldresid := uio_resid u in
        '(result, u, sc) ← emu_write valid curspace sc handle amt u;
        if negb (result =? 0) then Ok (result, u, sc)
        else if uio_resid u =? oldresid then Ok (0, u, sc)
        else write_loop fuel sc handle u
      else Ok (0, u, sc)
  end.

Definition emufs_write (v : Z) (u : uio) w : res (Z * uio * W) :=
  '(_, ev) ← ev_of v w;
  _ ← assert (is_write u);
  '(result, u, sc) ← write_loop (S (Z.to_nat (uio_resid u))) (ew_sc w) (ev_handle ev) u;
  Ok (result, u, set_sc sc w).
End move.

Definition emufs_ioctl (v op data : Z) w : res (Z * W) := Ok (EINVAL, w).
Definition emufs_file_gettype (v : Z) w : res (Z * Z) := Ok (0, S_IFREG).
Definition emufs_dir_gettype (v : Z) w : res (Z * Z) := Ok (0, S_IFDIR).
Definition emufs_tryseek (v pos : Z) w : res Z := if pos <? 0 then Ok EINVAL else Ok 0.
Definition emufs_fsync (v : Z) w : res (Z * W) := Ok (0, w).

(** [VOP_GETTYPE] is the entry of the vnode's table after [vnode_check]. *)
Definition emufs_stat (v : Z) w : res (Z * stat * W) :=
  '(_, ev) ← ev_of v w;
  vn ← ew_deref v w;
  _ ← vnode_check false vn;
  '(result, mode) ← (match vn_ops vn with
    | Some emufs_fileops => emufs_file_gettype v w
    | Some emufs_dirops => emufs_dir_gettype v w
    | _ => Undef
    end);
  if negb (result =? 0) then Ok (result, mk_stat 0 0 0 0, w)
  else
    '(result, size, sc) ← emu_getsize (ew_sc w) (ev_handle ev);
    if negb (result =? 0) then Ok (result, mk_stat mode 1 0 0, set_sc sc w) else Ok (0, mk_stat mode 1 size 0, set_sc sc w).

Definition emufs_truncate (v len : Z) w : res (Z * W) :=
  '(_, ev) ← ev_of v w;
  '(result, sc) ← emu_trunc (ew_sc w) (ev_handle ev) len;
  Ok (result, set_sc sc w).

(** The call through the table of a vnode: of an emufs file, of an emufs
    directory, or of a device. *)
Definition dispatch {A} (v : Z) w (file dir dev : res A) : res A :=
  vn ← ew_deref v w;
  match vn_ops vn with
  | Some emufs_fileops => file
  | Some emufs_dirops => dir
  | Some dev_vnode_ops => dev
  | _ => Undef
  end.

Definition on_dev {A} (op : dev_world H devs -> res (A * dev_world H devs)) w : res (A * W) :=
  '(a, d) ← op (ew_dev w);
  Ok (a, set_dev d w).

Global Instance emu_vnodeops : VnodeOps W := {|
  vn_lookup := ew_lookup;
  vn_store := ew_store;
  vop_reclaim v w := dispatch v w (emufs_reclaim v w) (emufs_reclaim v w) (on_dev (dev_reclaim v) w);
  vop_close v w := dispatch v w (emufs_close v w) (emufs_close v w) (on_dev (dev_close v) w);
|}.

(** The loop of [emufs_loadvnode]. *)
Fixpoint find_loop (l : list Z) (handle : Z) w : res (option Z) :=
  match l with
  | [] => Ok None
  | p :: l =>
      match ew_vnodes w !! p with
      | None => Undef
      | Some ev => if ev_handle ev =? handle then Ok (Some p) else find_loop l handle w
      end
  end.

(** [kmalloc] of a vnode, with the answers for its lock and its place in the
    table. *)
Definition kmalloc_ev w : option Z * bool * bool * W :=
  match ew_mem w with
  | [] => (None, false, false, w)
  | a :: l =>
      let p := match am_ev a with
               | Some p => if negb (p =? 0) && bool_decide (ew_lookup p w = None) then Some p else None
               | None => None
               end in
      (p, am_lock a, am_array a, set_mem l w)
  end.

(** Making a vnode, once the table has none. *)
Definition newvnode (x : Z) (ef : emufs_fs) (handle : Z) (isdir : bool) w : res (Z * Z * W) :=
  let '(p, lock_ok, array_ok, w) := kmalloc_ev w in
  match p with
  | None => Ok (ENOMEM, 0, w)
  | Some p =>
      let '(result, vn) := vnode_init lock_ok (mk_vnode 0 0 false None None None) (if isdir then emufs_dirops else emufs_fileops) (Some x) (Some p) in
      if negb (result =? 0) then Ok (result, 0, w)
      else if negb array_ok then _ ← vnode_kill vn; Ok (ENOMEM, 0, w)
      else
        let w := set_evs (<[p := mk_ev vn handle]> (ew_vnodes w)) w in
        Ok (0, p, set_fs (<[x := mk_ef (ef_root ef) (ef_vnodes ef ++ [p])]> (ew_fs w)) w)
  end.

Definition emufs_loadvnode (x handle : Z) (isdir : bool) w : res (Z * Z * W) :=
  sc ← acquire_emu (ew_sc w);
  let w := set_sc sc w in
  ef ← fs_deref x w;
  found ← find_loop (ef_vnodes ef) handle w;
  '(result, v, w) ← (match found with
    | Some p => w ← vnode_incref p w; Ok (0, p, w)
    | None => newvnode x ef handle isdir w
    end);
  sc ← release_emu (ew_sc w);
  Ok (result, v, set_sc sc w).

(** The common part of [emufs_creat] and [emufs_lookup]. *)
Definition open_and_load (dir : Z) (name : list Z) (create excl : bool) w : res (Z * Z * W) :=
  '(_, ev) ← ev_of dir w;
  '(x, _) ← ef_of dir w;
  '(result, handle, isdir, sc) ← emu_open (ew_sc w) (ev_handle ev) name create excl;
  let w := set_sc sc w in
  if negb (result =? 0) then Ok (result, 0, w)
  else
    '(result, newguy, w) ← emufs_loadvnode x handle isdir w;
    if negb (result =? 0) then
      '(_, sc) ← emu_close (ew_sc w) handle;
      Ok (result, 0, set_sc sc w)
    else Ok (0, newguy, w).

Definition emufs_creat (dir : Z) (name : list Z) (excl : bool) w : res (Z * Z * W) := open_and_load dir name true excl w.
Definition emufs_lookup (dir : Z) (pathname : list Z) w : res (Z * Z * W) := open_and_load dir pathname false false w.

(** The parts before and after the last slash. *)
Definition strrchr_slash (s : list Z) : option (list Z * list Z) :=
  match list_find (fun c => c = 47) (reverse s) with
  | None => None
  | Some (i, _) => let k := (length s - 1 - i)%nat in Some (take k s, drop (k + 1) s)
  end.

Definition emufs_lookparent (dir : Z) (pathname : list Z) (len : Z) w : res (Z * Z * list Z * W) :=
  match strrchr_slash pathname with
  | None =>
      if Z.of_nat (length pathname) + 1 >? len then Ok (ENAMETOOLONG, 0, [], w)
      else w ← vnode_incref dir w; Ok (0, dir, pathname, w)
  | Some (before, s) =>
      if Z.of_nat (length s) + 1 >? len then Ok (ENAMETOOLONG, 0, [], w)
      else '(result, ret, w) ← emufs_lookup dir before w; Ok (result, ret, s, w)
  end.

Definition emufs_namefile (v : Z) (u : uio) w : res (Z * uio * W) :=
  '(p, _) ← ev_of v w;
  '(_, ef) ← ef_of v w;
  if bool_decide (ef_root ef = Some p) then Ok (0, u, w) else Ok (EUNIMP, u, w).

(** ** Filesystem functions *)

Definition emufs_sync (x : Z) w : res (Z * W) := Ok (0, w).
Definition emufs_getvolname (x : Z) w : res (option (list Z)) := Ok None.

Definition emufs_getroot (x : Z) w : res (Z * W) :=
  ef ← fs_deref x w;
  match ef_root ef with
  | None => Panic
  | Some root => w ← vnode_incref root w; Ok (root, w)
  end.

Definition emufs_unmount (x : Z) w : res (Z * W) := Ok (EBUSY, w).

(** The call through a [struct fs], all of which are of emufs. *)
Definition fs_dispatch {A} (x : Z) w (r : res A) : res A := _ ← fs_deref x w; r.

(** The tables [emufs_fileops] and [emufs_dirops], and the one of devices. *)
Global Instance emu_vfsops : VfsOps W := {|
  fsop_sync x w := fs_dispatch x w (emufs_sync x w);
  fsop_getvolname x w := fs_dispatch x w (emufs_getvolname x w);
  fsop_getroot x w := fs_dispatch x w (emufs_getroot x w);
  fsop_unmount x w := fs_dispatch x w (emufs_unmount x w);
  vn_free := ew_free;
  vop_open v fl w := dispatch v w (emufs_open v fl w) (emufs_opendir v fl w) (on_dev (dev_open v fl) w);
  vop_gettype v w := dispatch v w (emufs_file_gettype v w) (emufs_dir_gettype v w) (dev_gettype v (ew_dev w));
  vop_truncate v n w := dispatch v w (emufs_truncate v n w) (Ok (EISDIR, w)) (on_dev (dev_truncate v n) w);
  vop_namefile v u w := dispatch v w (Ok (ENOTDIR, u, w)) (emufs_namefile v u w) (on_dev (dev_namefile v u) w);
  vop_readlink v u w := dispatch v w (Ok (ENOTDIR, u, w)) (Ok (EISDIR, u, w)) (on_dev (null_io v u) w);
  vop_creat v n x w := dispatch v w (Ok (ENOTDIR, 0, w)) (emufs_creat v n x w) (on_dev (null_creat v n x) w);
  vop_symlink v n c w := dispatch v w (Ok (ENOTDIR, w)) (Ok (EUNIMP, w)) (on_dev (null_symlink v n c) w);
  vop_mkdir v n w := dispatch v w (Ok (ENOTDIR, w)) (Ok (EUNIMP, w)) (on_dev (null_nameop v n) w);
  vop_link v n f w := dispatch v w (Ok (ENOTDIR, w)) (Ok (EUNIMP, w)) (on_dev (null_link v n f) w);
  vop_remove v n w := dispatch v w (Ok (ENOTDIR, w)) (Ok (EUNIMP, w)) (on_dev (null_nameop v n) w);
  vop_rmdir v n w := dispatch v w (Ok (ENOTDIR, w)) (Ok (EUNIMP, w)) (on_dev (null_nameop v n) w);
  vop_rename v n v2 n2 w := dispatch v w (Ok (ENOTDIR, w)) (Ok (EUNIMP, w)) (on_dev (null_rename v n v2 n2) w);
  vop_lookup v p w := dispatch v w (Ok (ENOTDIR, 0, w)) (emufs_lookup v p w) (on_dev (dev_lookup v p) w);
  vop_lookparent v p l w := dispatch v w (Ok (ENOTDIR, 0, [], w)) (emufs_lookparent v p l w) (on_dev (dev_lookparent v p l) w);
|}.

(** [x] is the address of the [struct emufs_fs], if [kmalloc] gives one, and
    [array_ok] the answer of [array_create]. *)
Definition emufs_addtovfs (x : option Z) (array_ok : bool) (al : add_allocs) (devname : list Z) (st : vfs W) : res (vfs W * Z) :=
  match x with
  | None => Ok (st, ENOMEM)
  | Some x =>
      if negb array_ok then Ok (st, ENOMEM)
      else
        let w := set_fs (<[x := mk_ef None []]> (ew_fs (world st))) (world st) in
        '(result, root, w) ← emufs_loadvnode x EMU_ROOTHANDLE true w;
        if negb (result =? 0) then Ok (set_world (set_fs (delete x (ew_fs w)) w) st, result)
        else
          ef ← fs_deref x w;
          let w := set_fs (<[x := mk_ef (Some root) (ef_vnodes ef)]> (ew_fs w)) w in
          '(st, result) ← vfs_addfs al devname x (set_world w st);
          if negb (result =? 0) then
            st ← decref root st;
            Ok (set_world (set_fs (delete x (ew_fs (world st))) (world st)) st, result)
          else Ok (st, 0)
  end.

(** [namebuf] is the uninitialised array [name] and [stack] the one of
    [snprintf]; "emu%d" is the format. *)
Definition config_emu (lock_ok sem_ok : bool) (namebuf stack : list Z) (x : option Z) (array_ok : bool) (al : add_allocs) (emuno : Z) (st : vfs W) : res (vfs W * Z) :=
  if negb lock_ok then Ok (st, ENOMEM)
  else if negb sem_ok then Ok (st, ENOMEM)
  else
    let sc := set_esem 0 (set_elock false (ew_sc (world st))) in
    let st := set_world (set_sc sc (world st)) st in
    '(_, name) ← snprintf stack namebuf 32 [101; 109; 117; 37; 100] [ArgInt emuno];
    emufs_addtovfs x array_ok al (cstring name) st.
End emufs.
