(* ===== verification/EmuSpec.v ===== *)
(** * The emulator file system under the VFS

    What the device promises is the class [EmuLaws].  Over such a device the
    file system keeps the promises [VfsLaws] that the VFS relies on: the
    table has one vnode for each handle that is open at the device, and a
    vnode is given up, and its handle closed, when its last reference is. *)
From stdpp Require Import base numbers list option gmap gmultiset.
From S2P Require Import Prelude Uio Vnode Vfs VfsSpec VfsDev Emu.
Local Open Scope Z_scope.

(** ** The device *)

(** A result that is not one of the fatal ones. *)
Definition fair_code (c : Z) : Prop := c <> 0 /\ c <> EMU_RES_BADHANDLE /\ c <> EMU_RES_BADOP /\ c <> EMU_RES_BADSIZE.

(** A file after [s] is written at [off]: a gap is filled with zeros. *)
Definition write_at (d : list Z) (off : nat) (s : list Z) : list Z :=
  match s with [] => d | _ => splice (d ++ replicate (off - length d) 0) off s end.

Lemma write_at_app d off s1 s2 : write_at (write_at d off s1) (off + length s1) s2 = write_at d off (s1 ++ s2).
Proof.
  destruct s1 as [|c s1]; [cbn [length app]; by rewrite Nat.add_0_r|]. destruct s2 as [|c' s2]; [by rewrite app_nil_r|]. unfold write_at at 1 3. cbn [app].
  change (c :: s1 ++ c' :: s2) with ((c :: s1) ++ c' :: s2). cbn [write_at]. set (f := d ++ replicate (off - length d) 0).
  assert (off <= length f)%nat as Hf by (unfold f; rewrite length_app, length_replicate; lia).
  assert (length (splice f off (c :: s1)) >= off + length (c :: s1))%nat as Hl by (unfold splice; rewrite !length_app, length_take, length_drop; lia).
  replace (off + length (c :: s1) - length (splice f off (c :: s1)))%nat with 0%nat by lia. cbn [replicate]. rewrite app_nil_r. by apply splice_splice.
Qed.

(** What is written is there. *)
Lemma write_at_read d off s : take (length s) (drop off (write_at d off s)) = s.
Proof. destruct s as [|c s]; [done|]. unfold write_at. apply splice_read. rewrite length_app, length_replicate. lia. Qed.

Lemma length_write_at d off s : s <> [] -> (off + length s <= length (write_at d off s))%nat.
Proof.
  intros Hs. destruct s as [|c s]; [done|]. unfold write_at, splice. rewrite !length_app, length_take, length_app, length_replicate. lia.
Qed.

(** [emu_ok e hs]: the handles [hs] are open.  [emu_data] are the bytes of an
    open file, and [None] for a directory; [emu_faults] is how often closing
    can still fail, which [emu_close] puts up with ten times. *)
Class EmuLaws (E : Type) `{EmuHw E} : Type := {
  emu_ok : E -> gset Z -> Prop;
  emu_data : E -> Z -> option (list Z);
  emu_faults : E -> nat;
  emu_faults_few e hs : emu_ok e hs -> (emu_faults e <= 10)%nat;
  emu_handle_range e hs h : emu_ok e hs -> h ∈ hs -> 0 <= h < 4294967296;
  emu_root_dir e hs : emu_ok e hs -> EMU_ROOTHANDLE ∈ hs -> emu_data e EMU_ROOTHANDLE = None;
  emu_open_law e hs op r b : emu_ok e hs -> op = EMU_OP_OPEN \/ op = EMU_OP_CREATE \/ op = EMU_OP_EXCLCREATE ->
    r_handle r ∈ hs -> 0 <= r_iolen r < EMU_MAXIO -> length b = Z.to_nat EMU_MAXIO ->
    let '(r', b', e') := emu_oper op r b e in
    fair_code (r_result r') /\ length b' = length b /\ (forall h, h ∈ hs -> emu_data e' h = emu_data e h) /\
    (if r_result r' =? EMU_RES_SUCCESS
     then emu_ok e' ({[r_handle r']} ∪ hs) /\ (r_iolen r' >? 0) = bool_decide (emu_data e' (r_handle r') = None)
     else emu_ok e' hs);
  emu_close_law e hs r b : emu_ok e hs -> r_handle r ∈ hs -> length b = Z.to_nat EMU_MAXIO ->
    let '(r', b', e') := emu_oper EMU_OP_CLOSE r b e in
    length b' = length b /\ (forall h, h ∈ hs -> h <> r_handle r -> emu_data e' h = emu_data e h) /\
    (r_result r' = EMU_RES_SUCCESS /\ emu_ok e' (hs ∖ {[r_handle r]}) \/
     (r_result r' = EMU_RES_MEDIA \/ r_result r' = EMU_RES_UNKNOWN) /\ emu_ok e' hs /\ (emu_faults e' < emu_faults e)%nat /\
       emu_data e' (r_handle r) = emu_data e (r_handle r));
  emu_trunc_law e hs r b : emu_ok e hs -> r_handle r ∈ hs -> length b = Z.to_nat EMU_MAXIO ->
    let '(r', b', e') := emu_oper EMU_OP_TRUNC r b e in
    fair_code (r_result r') /\ length b' = length b /\ emu_ok e' hs /\ (forall h, h ∈ hs -> emu_data e' h = None <-> emu_data e h = None);
  emu_read_law e hs r b d : emu_ok e hs -> r_handle r ∈ hs -> emu_data e (r_handle r) = Some d -> 0 <= r_iolen r <= EMU_MAXIO ->
    0 <= r_offset r < 2147483648 -> length b = Z.to_nat EMU_MAXIO ->
    let n := Z.max 0 (Z.min (r_iolen r) (Z.of_nat (length d) - r_offset r)) in
    let '(r', b', e') := emu_oper EMU_OP_READ r b e in
    fair_code (r_result r') /\ length b' = length b /\ emu_ok e' hs /\ (forall h, h ∈ hs -> emu_data e' h = emu_data e h) /\
    (r_result r' = EMU_RES_SUCCESS -> r_iolen r' = n /\ r_offset r' = r_offset r + n /\
       take (Z.to_nat n) b' = take (Z.to_nat n) (drop (Z.to_nat (r_offset r)) d));
  emu_write_law e hs r b d : emu_ok e hs -> r_handle r ∈ hs -> emu_data e (r_handle r) = Some d -> 0 < r_iolen r <= EMU_MAXIO ->
    0 <= r_offset r < 2147483648 -> length b = Z.to_nat EMU_MAXIO ->
    let '(r', b', e') := emu_oper EMU_OP_WRITE r b e in
    fair_code (r_result r') /\ length b' = length b /\ emu_ok e' hs /\ (forall h, h ∈ hs -> emu_data e' h = None <-> emu_data e h = None) /\
    (r_result r' = EMU_RES_SUCCESS -> emu_data e' (r_handle r) = Some (write_at d (Z.to_nat (r_offset r)) (take (Z.to_nat (r_iolen r)) b)));
}.

(** A read or write of at most a buffer of an open file that has the bytes [d]. *)
Definition request_ok {E} `{EmuLaws E} (hs : gset Z) (handle : Z) (d : list Z) (e : E) (r : emu_regs) (b : list Z) : Prop :=
  emu_ok e hs /\ handle ∈ hs /\ emu_data e handle = Some d /\ r_handle r = handle /\ 0 <= r_iolen r <= EMU_MAXIO /\ 0 <= r_offset r < 2147483648 /\
  length b = Z.to_nat EMU_MAXIO.

(** The device, at [e], reports that such an operation has failed, which the
    driver knows as the error [err]. *)
Definition reports {E} `{EmuLaws E} (hs : gset Z) (handle : Z) (d : list Z) (op err : Z) (e e' : E) : Prop :=
  exists r b r' b', request_ok hs handle d e r b /\ emu_oper op r b e = (r', b', e') /\ r_result r' <> EMU_RES_SUCCESS /\ translate_err (r_result r') = Ok err.

(** A device whose reads do not fail. *)
Class EmuReads (E : Type) `{EmuLaws E} : Prop :=
  emu_reads hs handle d (e : E) r b : request_ok hs handle d e r b -> r_result (emu_oper EMU_OP_READ r b e).1.1 = EMU_RES_SUCCESS.

(** ** Operations of the driver *)

Section softc.
Context {E : Type} `{EmuLaws E}.
Implicit Types (sc : emu_softc E) (hs : gset Z) (e : E).

(** Between operations nothing is under way, and the lock is free unless it
    is [locked]. *)
Record idle (locked : bool) sc hs : Prop := {
  id_lock : e_lock sc = locked;
  id_sem : e_sem sc = 0;
  id_result : r_result (e_regs sc) = 0;
  id_buf : length (e_iobuf sc) = Z.to_nat EMU_MAXIO;
  id_ok : emu_ok (e_hw sc) hs;
}.
Global Arguments id_lock {locked sc hs}.
Global Arguments id_sem {locked sc hs}.
Global Arguments id_result {locked sc hs}.
Global Arguments id_buf {locked sc hs}.
Global Arguments id_ok {locked sc hs}.

(** Whether a handle is one of a file. *)
Definition file_at e (h : Z) : bool := bool_decide (emu_data e h <> None).

Lemma idle_acquire sc hs : idle false sc hs -> acquire_emu sc = Ok (set_elock true sc) /\ idle true (set_elock true sc) hs.
Proof. intros []. unfold acquire_emu. rewrite id_lock0. split; [done|]. by split. Qed.

Lemma idle_release sc hs : idle true sc hs -> release_emu sc = Ok (set_elock false sc) /\ idle false (set_elock false sc) hs.
Proof. intros []. unfold release_emu. rewrite id_lock0. split; [done|]. by split. Qed.

(** The registers of an operation. *)
Definition after (sc : emu_softc E) (r : emu_regs) (b : list Z) e : emu_softc E :=
  mk_emu (e_lock sc) 0 b (r_result r) (mk_regs (r_handle r) (r_offset r) (r_iolen r) 0) e.

(** Starting an operation and waiting for it. *)
Lemma oper_done sc op r b e : e_sem sc = 0 -> emu_oper op (e_regs sc) (e_iobuf sc) (e_hw sc) = (r, b, e) -> r_result r <> 0 ->
  emu_waitdone (emu_wreg sc REG_OPER op) = (x ← translate_err (r_result r); Ok (x, after sc r b e)).
Proof.
  intros Hs Eo Hr. unfold emu_waitdone, emu_wreg. cbn [REG_OPER REG_HANDLE REG_OFFSET REG_IOLEN REG_RESULT Z.eqb Pos.eqb]. rewrite Eo. unfold emu_P. cbn [e_sem]. rewrite Hs.
  unfold emu_rreg. cbn. destruct (Z.eqb_spec (r_result r) 0); [done|]. reflexivity.
Qed.

Lemma fair_translated c : fair_code c -> exists err, translate_err c = Ok err /\ (err = 0 <-> c = EMU_RES_SUCCESS).
Proof.
  intros (_ & H1 & H2 & H3). unfold translate_err.
  destruct (Z.eqb_spec c EMU_RES_SUCCESS); [by exists 0|]. destruct (Z.eqb_spec c EMU_RES_BADHANDLE); [done|].
  destruct (Z.eqb_spec c EMU_RES_BADOP); [done|]. destruct (Z.eqb_spec c EMU_RES_BADSIZE); [done|]. cbn [orb].
  repeat (destruct (_ =? _); [eexists; split; [done|]; split; done|]). eexists; split; [done|]; split; done.
Qed.

Lemma idle_after locked sc hs r b e hs' : idle locked sc hs -> length b = length (e_iobuf sc) -> emu_ok e hs' -> idle locked (after sc r b e) hs'.
Proof. intros [? ? ? Hb ?] Hl Hok. split; try done. cbn. congruence. Qed.

(** Data of files does not change, except that of what is closed. *)
Definition same_data hs e e' : Prop := forall h, h ∈ hs -> emu_data e' h = emu_data e h.

(** What the laws say of one operation, with the lock held. *)
Lemma oper_fair sc hs op : idle true sc hs ->
  (let '(r, b, e) := emu_oper op (e_regs sc) (e_iobuf sc) (e_hw sc) in fair_code (r_result r)) ->
  exists err r b e, emu_oper op (e_regs sc) (e_iobuf sc) (e_hw sc) = (r, b, e) /\
    emu_waitdone (emu_wreg sc REG_OPER op) = Ok (err, after sc r b e) /\ (err = 0 <-> r_result r = EMU_RES_SUCCESS) /\ translate_err (r_result r) = Ok err.
Proof.
  intros Hi Hf. destruct (emu_oper op _ _ _) as [[r b] e] eqn:Eo. destruct (fair_translated _ Hf) as (err & Et & Herr).
  exists err, r, b, e. split; [done|]. rewrite (oper_done sc op r b e (id_sem Hi) Eo) by apply Hf. by rewrite Et.
Qed.

Lemma wreg_idle locked sc hs reg val : idle locked sc hs -> reg = REG_HANDLE \/ reg = REG_OFFSET \/ reg = REG_IOLEN ->
  idle locked (emu_wreg sc reg val) hs.
Proof. intros [] [-> | [-> | ->]]; by split. Qed.

Lemma buf_idle locked sc hs b : idle locked sc hs -> length b = Z.to_nat EMU_MAXIO -> idle locked (set_iobuf b sc) hs.
Proof. intros [] ?. by split. Qed.

Lemma emu_open_spec sc hs handle name create excl : idle false sc hs -> handle ∈ hs ->
  exists err h d sc', emu_open sc handle name create excl = Ok (err, h, d, sc') /\ same_data hs (e_hw sc) (e_hw sc') /\
    if err =? 0 then idle false sc' ({[h]} ∪ hs) /\ d = negb (file_at (e_hw sc') h) else idle false sc' hs.
Proof.
  intros Hi Hh. unfold emu_open. destruct (Z.gtb_spec (Z.of_nat (length name) + 1) EMU_MAXIO) as [|Hlen].
  { eexists _, _, _, _. split; [done|]. split; [by intros ?|done]. }
  destruct (idle_acquire sc hs Hi) as [-> Hi1]. rewrite bind_Ok. cbv zeta. set (sc1 := set_elock true sc) in *.
  set (sc2 := set_iobuf _ sc1). assert (idle true sc2 hs) as Hi2.
  { apply buf_idle; [done|]. pose proof (id_buf Hi1) as Hb. rewrite !length_app, length_drop. cbn [length]. unfold EMU_MAXIO in *. lia. }
  set (sc3 := emu_wreg _ REG_HANDLE handle). assert (idle true sc3 hs) as Hi3 by (apply wreg_idle, or_introl; [|done]; apply wreg_idle; tauto).
  set (op := if create && excl then _ else _). pose proof (emu_handle_range _ _ _ (id_ok Hi) Hh) as Hr.
  pose proof (emu_open_law (e_hw sc3) hs op (e_regs sc3) (e_iobuf sc3) (id_ok Hi3)) as Hlaw.
  assert (r_handle (e_regs sc3) = handle) as Eh by (cbn; by apply u32_small). assert (r_iolen (e_regs sc3) = Z.of_nat (length name)) as El.
  { cbn. apply u32_small. unfold EMU_MAXIO in Hlen. lia. }
  specialize (Hlaw ltac:(unfold op; destruct create, excl; tauto) ltac:(by rewrite Eh) ltac:(rewrite El; lia) (id_buf Hi3)).
  destruct (oper_fair sc3 hs op Hi3) as (err & r & b & e & Eo & Ew & Herr); [destruct (emu_oper op _ _ _) as [[? ?] ?]; apply Hlaw|].
  rewrite Eo in Hlaw. destruct Hlaw as (_ & Hb & Hd & Hok). rewrite Ew, bind_Ok.
  destruct (Z.eqb_spec (r_result r) EMU_RES_SUCCESS) as [Es|Es].
  - apply Herr in Es as ->. cbn [Z.eqb]. destruct Hok as [Hok Hdir]. destruct (idle_release _ _ (idle_after true sc3 hs r b e _ Hi3 Hb Hok)) as [-> Hi4].
    rewrite bind_Ok. eexists _, _, _, _. split; [done|]. split; [exact Hd|]. cbn [Z.eqb]. split; [exact Hi4|].
    change (emu_rreg (after sc3 r b e) REG_IOLEN) with (r_iolen r). rewrite Hdir. unfold file_at. cbn. case_bool_decide; by case_bool_decide.
  - destruct (Z.eqb_spec err 0) as [E0|E0]; [by apply Herr in E0|].
    destruct (idle_release _ _ (idle_after true sc3 hs r b e _ Hi3 Hb Hok)) as [-> Hi4].
    rewrite bind_Ok. eexists _, _, _, _. split; [done|]. split; [exact Hd|]. by destruct (Z.eqb_spec err 0).
Qed.

(** Closing succeeds after the failures there can be. *)
Lemma close_loop_spec n : forall sc hs handle, idle true sc hs -> handle ∈ hs -> (emu_faults (e_hw sc) <= n)%nat ->
  exists sc', close_loop n sc handle = Ok (0, sc') /\ idle true sc' (hs ∖ {[handle]}) /\ same_data (hs ∖ {[handle]}) (e_hw sc) (e_hw sc').
Proof.
  induction n as [|n IH]; intros sc hs handle Hi Hh Hn; cbn [close_loop]; cbv zeta; set (sc1 := emu_wreg sc REG_HANDLE handle);
    assert (idle true sc1 hs) as Hi1 by (apply wreg_idle; tauto);
    pose proof (emu_close_law (e_hw sc1) hs (e_regs sc1) (e_iobuf sc1) (id_ok Hi1)) as Hlaw;
    pose proof (emu_handle_range _ _ _ (id_ok Hi) Hh) as Hr;
    assert (r_handle (e_regs sc1) = handle) as Eh by (cbn; by apply u32_small);
    rewrite Eh in Hlaw; specialize (Hlaw Hh (id_buf Hi1)); destruct (emu_oper EMU_OP_CLOSE _ _ _) as [[r b] e] eqn:Eo;
    destruct Hlaw as (Hb & Hd & [[Er Hok]|(Er & Hok & Hfew & Hdh)]).
  all: try (change (e_hw sc1) with (e_hw sc) in Hfew; lia).
  - rewrite (oper_done sc1 _ r b e (id_sem Hi1) Eo) by (by rewrite Er). rewrite Er. cbn. eexists. split; [done|].
    split; [by eapply idle_after|]. intros h Hin. apply Hd; set_solver.
  - rewrite (oper_done sc1 _ r b e (id_sem Hi1) Eo) by (by rewrite Er). rewrite Er. cbn. eexists. split; [done|].
    split; [by eapply idle_after|]. intros h Hin. apply Hd; set_solver.
  - rewrite (oper_done sc1 _ r b e (id_sem Hi1) Eo) by (destruct Er as [Er|Er]; by rewrite Er).
    destruct (IH (after sc1 r b e) hs handle) as (sc' & Ec & Hi' & Hd'); [by eapply idle_after|done|change (e_hw sc1) with (e_hw sc) in Hfew; cbn; lia|].
    assert (translate_err (r_result r) = Ok EIO) as -> by (destruct Er as [Er|Er]; by rewrite Er). rewrite !bind_Ok. cbn [Z.eqb EIO Pos.eqb]. rewrite Ec.
    exists sc'. split; [done|]. split; [done|]. intros h Hin. rewrite (Hd' h Hin). cbn. apply Hd; set_solver.
Qed.

Lemma emu_close_spec locked sc hs handle : idle locked sc hs -> handle ∈ hs ->
  exists sc', emu_close sc handle = Ok (0, sc') /\ idle locked sc' (hs ∖ {[handle]}) /\ same_data (hs ∖ {[handle]}) (e_hw sc) (e_hw sc').
Proof.
  intros Hi Hh. pose proof (emu_faults_few _ _ (id_ok Hi)) as Hf. unfold emu_close. rewrite (id_lock Hi). destruct locked.
  - rewrite bind_Ok. destruct (close_loop_spec 10 sc hs handle Hi Hh Hf) as (sc' & -> & ?). rewrite !bind_Ok. by exists sc'.
  - destruct (idle_acquire _ _ Hi) as [-> Hi1]. rewrite bind_Ok. destruct (close_loop_spec 10 _ hs handle Hi1 Hh Hf) as (sc' & -> & Hi2 & Hd).
    rewrite bind_Ok. destruct (idle_release _ _ Hi2) as [-> Hi3]. rewrite bind_Ok. eexists. by split.
Qed.

Lemma emu_trunc_spec sc hs handle len : idle false sc hs -> handle ∈ hs ->
  exists err sc', emu_trunc sc handle len = Ok (err, sc') /\ idle false sc' hs /\ forall h, h ∈ hs -> file_at (e_hw sc') h = file_at (e_hw sc) h.
Proof.
  intros Hi Hh. unfold emu_trunc. destruct (idle_acquire sc hs Hi) as [-> Hi1]. rewrite bind_Ok. cbv zeta.
  set (sc3 := emu_wreg (emu_wreg _ _ _) REG_IOLEN len). assert (idle true sc3 hs) as Hi3 by (apply wreg_idle; [|tauto]; apply wreg_idle; tauto).
  pose proof (emu_trunc_law (e_hw sc3) hs (e_regs sc3) (e_iobuf sc3) (id_ok Hi3)) as Hlaw. pose proof (emu_handle_range _ _ _ (id_ok Hi) Hh) as Hr.
  assert (r_handle (e_regs sc3) = handle) as Eh by (cbn; by apply u32_small). rewrite Eh in Hlaw. specialize (Hlaw Hh (id_buf Hi3)).
  destruct (oper_fair sc3 hs EMU_OP_TRUNC Hi3) as (err & r & b & e & Eo & -> & _ & _); [destruct (emu_oper _ _ _ _) as [[? ?] ?]; apply Hlaw|].
  rewrite Eo in Hlaw. destruct Hlaw as (_ & Hb & Hok & Hd). rewrite bind_Ok.
  destruct (idle_release _ _ (idle_after true sc3 hs r b e _ Hi3 Hb Hok)) as [-> Hi4]. rewrite bind_Ok. eexists _, _. split; [done|]. split; [done|].
  intros h Hin. unfold file_at. apply bool_decide_ext. cbn. rewrite (Hd h Hin). done.
Qed.

(** ** Reading *)

Section move.
Variables (valid : Z -> bool) (curspace : option Z).

(** What can be read of [amt] bytes at the offset of [u]. *)
Definition readable (d : list Z) (amt : Z) (u : uio) : Z := Z.max 0 (Z.min amt (Z.of_nat (length d) - uio_offset u)).
Definition read_part (d : list Z) (n : Z) (u : uio) : uio := advance n (iov_data u ++ take (Z.to_nat n) (drop (Z.to_nat (uio_offset u)) d)) u.

Lemma emu_read_spec sc hs handle amt u d : idle false sc hs -> handle ∈ hs -> emu_data (e_hw sc) handle = Some d ->
  uio_wf u -> reachable valid curspace u (uio_resid u) -> 0 <= uio_offset u -> is_write u = false -> 0 <= amt <= uio_resid u -> amt <= EMU_MAXIO ->
  exists err u' sc', emu_read valid curspace sc handle amt u = Ok (err, u', sc') /\ idle false sc' hs /\ same_data hs (e_hw sc) (e_hw sc') /\
    (err = 0 /\ u' = read_part d (readable d amt u) u \/ err <> 0 /\ u' = u /\ reports hs handle d EMU_OP_READ err (e_hw sc) (e_hw sc')).
Proof.
  intros Hi Hh Hdat Hwf Hreach Hoff Hw Hamt Hmax. unfold emu_read, emu_doread. rewrite Hw. cbn [negb assert]. rewrite bind_Ok.
  destruct (idle_acquire sc hs Hi) as [-> Hi1]. rewrite bind_Ok. cbv zeta. pose proof (emu_handle_range _ _ _ (id_ok Hi) Hh) as Hr.
  set (sc3 := emu_wreg (emu_wreg (emu_wreg _ _ _) _ _) REG_OFFSET (uio_offset u)).
  assert (idle true sc3 hs) as Hi3 by (do 3 (apply wreg_idle; [|tauto]); done).
  pose proof Hwf as (_ & Hres & Hlen & _ & _ & Hend). unfold EMU_MAXIO in Hmax.
  assert (r_handle (e_regs sc3) = handle) as Eh by (cbn; by apply u32_small).
  assert (r_iolen (e_regs sc3) = amt) as El by (cbn; apply u32_small; lia).
  assert (r_offset (e_regs sc3) = uio_offset u) as Eoff by (cbn; apply u32_small; lia).
  assert (request_ok hs handle d (e_hw sc3) (e_regs sc3) (e_iobuf sc3)) as Hreq.
  { split; [apply Hi3|]. do 2 (split; [done|]). split; [done|]. rewrite El, Eoff. unfold EMU_MAXIO. split; [lia|]. split; [lia|apply Hi3]. }
  pose proof (emu_read_law (e_hw sc3) hs (e_regs sc3) (e_iobuf sc3) d (id_ok Hi3)) as Hlaw. rewrite Eh, El, Eoff in Hlaw.
  specialize (Hlaw Hh Hdat ltac:(unfold EMU_MAXIO; lia) ltac:(lia) (id_buf Hi3)). cbv zeta in Hlaw. fold (readable d amt u) in Hlaw.
  set (n := readable d amt u) in *. assert (0 <= n <= amt) as Hn by (unfold n, readable; lia).
  destruct (oper_fair sc3 hs EMU_OP_READ Hi3) as (err & r & b & e & Eo & -> & Herr & Et); [destruct (emu_oper _ _ _ _) as [[? ?] ?]; apply Hlaw|].
  rewrite Eo in Hlaw. destruct Hlaw as (_ & Hb & Hok & Hd & Hdata). rewrite bind_Ok. pose proof (id_buf Hi3) as Hb3. unfold EMU_MAXIO in Hb3.
  destruct (Z.eqb_spec err 0) as [->|He]; cbn [negb].
  - destruct (Hdata (proj1 Herr eq_refl)) as (En & Eoff' & Htake).
    change (emu_rreg (after sc3 r b e) REG_IOLEN) with (r_iolen r). change (emu_rreg (after sc3 r b e) REG_OFFSET) with (r_offset r). change (e_iobuf (after sc3 r b e)) with b. rewrite En.
    rewrite uiomove_spec; [|done|by eapply reachable_le; [exact Hreach|lia]|lia|lia].
    rewrite Hw, !bind_Ok, Htake, Eoff'. destruct (idle_release _ _ (idle_after true sc3 hs r b e _ Hi3 Hb Hok)) as [-> Hi4]. rewrite bind_Ok.
    eexists _, _, _. split; [done|]. split; [exact Hi4|]. split; [exact Hd|]. left. split; [done|]. unfold read_part, advance, with_offset. cbn. by rewrite i32_small by lia.
  - rewrite bind_Ok. destruct (idle_release _ _ (idle_after true sc3 hs r b e _ Hi3 Hb Hok)) as [-> Hi4]. rewrite bind_Ok.
    eexists _, _, _. split; [done|]. split; [exact Hi4|]. split; [exact Hd|]. right. do 2 (split; [done|]). exists (e_regs sc3), (e_iobuf sc3), r, b. split; [exact Hreq|]. split; [exact Eo|]. split; [|done].
    intros Hc. by apply He, Herr.
Qed.

(** Reading reads all there is, or what there is up to an operation that
    fails. *)
Lemma emu_read_loop_spec fuel : forall sc hs handle u d, idle false sc hs -> handle ∈ hs -> emu_data (e_hw sc) handle = Some d ->
  uio_wf u -> reachable valid curspace u (uio_resid u) -> 0 <= uio_offset u -> is_write u = false -> (Z.to_nat (uio_resid u) < fuel)%nat ->
  exists err k sc', read_loop valid curspace fuel sc handle u = Ok (err, read_part d k u, sc') /\ idle false sc' hs /\ same_data hs (e_hw sc) (e_hw sc') /\
    0 <= k <= readable d (uio_resid u) u /\
    (err = 0 /\ k = readable d (uio_resid u) u \/ err <> 0 /\ exists e0, reports hs handle d EMU_OP_READ err e0 (e_hw sc')).
Proof.
  induction fuel as [|fuel IH]; intros sc hs handle u d Hi Hh Hd Hwf Hr Hoff Hw Hf; [lia|]. cbn [read_loop]. pose proof Hwf as (Hbase & Hres & Hlen & _ & _ & Hend).
  assert (read_part d 0 u = u) as E0. { unfold read_part. rewrite take_0, app_nil_r. by apply advance_0. }
  destruct (Z.gtb_spec (uio_resid u) 0) as [Hpos|].
  2:{ exists 0, 0, sc. rewrite E0. split; [done|]. split; [done|]. split; [by intros ?|]. split; [unfold readable; lia|]. left. split; [done|]. unfold readable. lia. }
  cbv zeta. set (amt := if uio_resid u >? EMU_MAXIO then EMU_MAXIO else uio_resid u).
  assert (0 < amt <= uio_resid u /\ amt <= EMU_MAXIO) as [Ha1 Ha2] by (unfold amt, EMU_MAXIO; destruct (Z.gtb_spec (uio_resid u) 16384); lia).
  destruct (emu_read_spec sc hs handle amt u d Hi Hh Hd Hwf Hr Hoff Hw ltac:(lia) Ha2) as (err & u1 & sc1 & -> & Hi1 & Hd1 & [[-> ->]|(He & -> & Hrep)]); rewrite bind_Ok.
  2:{ destruct (Z.eqb_spec err 0); [done|]. cbn [negb]. exists err, 0, sc1. rewrite E0. do 3 (split; [done|]). split; [unfold readable; lia|]. right. split; [done|]. by exists (e_hw sc). }
  cbn [Z.eqb negb].
  set (k := readable d amt u). assert (0 <= k <= amt) as Hk by (unfold k, readable; lia).
  change (uio_resid (read_part d k u)) with (uio_resid u - k). destruct (Z.eqb_spec (uio_resid u - k) (uio_resid u)) as [Ek|Ek].
  { exists 0, k, sc1. do 3 (split; [done|]). unfold k, readable in *. split; [lia|]. left. split; [done|lia]. }
  destruct (IH sc1 hs handle (read_part d k u) d) as (err & k2 & sc2 & E2 & Hi2 & Hd2 & Hk2 & Hcase); try done.
  - by rewrite (Hd1 handle Hh).
  - apply advance_wf; [done|lia|]. by rewrite Hw.
  - change (uio_resid (read_part d k u)) with (uio_resid u - k). apply reachable_advance; try done; lia.
  - unfold read_part. cbn. lia.
  - unfold read_part. cbn. lia.
  - change (uio_resid (read_part d k u)) with (uio_resid u - k) in *.
    assert (readable d (uio_resid u) u = k + readable d (uio_resid u - k) (read_part d k u)) as Esum. { unfold k, readable in *. unfold read_part. cbn. lia. }
    exists err, (k + k2), sc2. rewrite E2. split; [|split; [done|split; [intros h Hin; by rewrite (Hd2 h Hin), (Hd1 h Hin)|]]].
    + do 3 f_equal. unfold read_part at 1. change (iov_data (read_part d k u)) with (iov_data u ++ take (Z.to_nat k) (drop (Z.to_nat (uio_offset u)) d)).
      change (uio_offset (read_part d k u)) with (uio_offset u + k). unfold read_part. rewrite advance_advance. f_equal.
      rewrite <-app_assoc. f_equal. replace (Z.to_nat (uio_offset u + k)) with (Z.to_nat (uio_offset u) + Z.to_nat k)%nat by lia.
      replace (Z.to_nat (k + k2)) with (Z.to_nat k + Z.to_nat k2)%nat by lia. by rewrite <-drop_drop, take_take_drop.
    + split; [lia|]. destruct Hcase as [[-> ->]|?]; [left; split; [done|lia]|by right].
Qed.

(** ** Writing *)

Lemma emu_write_spec sc hs handle amt u d : idle false sc hs -> handle ∈ hs -> emu_data (e_hw sc) handle = Some d ->
  uio_wf u -> reachable valid curspace u (uio_resid u) -> 0 <= uio_offset u -> is_write u = true -> 0 < amt <= uio_resid u -> amt <= EMU_MAXIO ->
  exists err sc', emu_write valid curspace sc handle amt u = Ok (err, advance amt (drop (Z.to_nat amt) (iov_data u)) u, sc') /\ idle false sc' hs /\
    (forall h, h ∈ hs -> file_at (e_hw sc') h = file_at (e_hw sc) h) /\
    (err = 0 /\ emu_data (e_hw sc') handle = Some (write_at d (Z.to_nat (uio_offset u)) (take (Z.to_nat amt) (iov_data u))) \/
     err <> 0 /\ reports hs handle d EMU_OP_WRITE err (e_hw sc) (e_hw sc')).
Proof.
  intros Hi Hh Hdat Hwf Hreach Hoff Hw Hamt Hmax. unfold emu_write. rewrite Hw. cbn [assert]. rewrite bind_Ok.
  destruct (idle_acquire sc hs Hi) as [-> Hi1]. rewrite bind_Ok. cbv zeta. pose proof (emu_handle_range _ _ _ (id_ok Hi) Hh) as Hr.
  set (sc3 := emu_wreg (emu_wreg (emu_wreg _ _ _) _ _) REG_OFFSET (uio_offset u)).
  assert (idle true sc3 hs) as Hi3 by (do 3 (apply wreg_idle; [|tauto]); done).
  pose proof Hwf as (_ & Hres & Hlen & Hdl & _ & Hend). pose proof (id_buf Hi3) as Hb3. unfold EMU_MAXIO in Hmax, Hb3.
  rewrite uiomove_spec; [|done|by eapply reachable_le; [exact Hreach|lia]|lia|lia]. rewrite Hw, bind_Ok. cbn [Z.eqb negb].
  set (b0 := take (Z.to_nat amt) (iov_data u) ++ drop (Z.to_nat amt) (e_iobuf sc3)). specialize (Hdl Hw).
  assert (length (take (Z.to_nat amt) (iov_data u)) = Z.to_nat amt) as Ht by (rewrite length_take; lia).
  set (sc4 := set_iobuf b0 sc3). assert (idle true sc4 hs) as Hi4.
  { apply buf_idle; [done|]. unfold b0, EMU_MAXIO. rewrite length_app, Ht, length_drop. lia. }
  assert (r_handle (e_regs sc4) = handle) as Eh by (cbn; by apply u32_small).
  assert (r_iolen (e_regs sc4) = amt) as El by (cbn; apply u32_small; lia).
  assert (r_offset (e_regs sc4) = uio_offset u) as Eoff by (cbn; apply u32_small; lia).
  assert (request_ok hs handle d (e_hw sc4) (e_regs sc4) (e_iobuf sc4)) as Hreq.
  { split; [apply Hi4|]. do 2 (split; [done|]). split; [done|]. rewrite El, Eoff. unfold EMU_MAXIO. split; [lia|]. split; [lia|apply Hi4]. }
  pose proof (emu_write_law (e_hw sc4) hs (e_regs sc4) (e_iobuf sc4) d (id_ok Hi4)) as Hlaw. rewrite Eh, El, Eoff in Hlaw.
  specialize (Hlaw Hh Hdat ltac:(unfold EMU_MAXIO; lia) ltac:(lia) (id_buf Hi4)).
  destruct (oper_fair sc4 hs EMU_OP_WRITE Hi4) as (err & r & b & e & Eo & -> & Herr & Et); [destruct (emu_oper _ _ _ _) as [[? ?] ?]; apply Hlaw|].
  rewrite Eo in Hlaw. destruct Hlaw as (_ & Hb & Hok & Hd & Hdata). rewrite bind_Ok.
  destruct (idle_release _ _ (idle_after true sc4 hs r b e _ Hi4 Hb Hok)) as [-> Hi5]. rewrite bind_Ok. eexists _, _. split; [done|]. split; [done|]. split.
  - intros h Hin. unfold file_at. apply bool_decide_ext. cbn. by rewrite (Hd h Hin).
  - destruct (Z.eqb_spec err 0) as [->|He]; [left|right]; (split; [done|]).
    + cbn [e_hw after set_elock]. rewrite (Hdata (proj1 Herr eq_refl)). cbn [e_iobuf sc4 set_iobuf]. unfold b0. rewrite take_app_le by (rewrite Ht; lia).
      by rewrite take_take, Nat.min_id.
    + exists (e_regs sc4), (e_iobuf sc4), r, b. split; [exact Hreq|]. split; [exact Eo|]. split; [|done]. intros Hc. by apply He, Herr.
Qed.

(** Writing writes everything, or the first bytes up to an operation that
    fails. *)
Lemma emu_write_loop_spec fuel : forall sc hs handle u d, idle false sc hs -> handle ∈ hs -> emu_data (e_hw sc) handle = Some d ->
  uio_wf u -> reachable valid curspace u (uio_resid u) -> 0 <= uio_offset u -> is_write u = true -> (Z.to_nat (uio_resid u) < fuel)%nat ->
  exists err u' sc', write_loop valid curspace fuel sc handle u = Ok (err, u', sc') /\ idle false sc' hs /\
    (forall h, h ∈ hs -> file_at (e_hw sc') h = file_at (e_hw sc) h) /\
    (err = 0 /\ u' = advance (uio_resid u) (drop (Z.to_nat (uio_resid u)) (iov_data u)) u /\
       emu_data (e_hw sc') handle = Some (write_at d (Z.to_nat (uio_offset u)) (take (Z.to_nat (uio_resid u)) (iov_data u))) \/
     err <> 0 /\ exists m e0, 0 <= m < uio_resid u /\
       reports hs handle (write_at d (Z.to_nat (uio_offset u)) (take (Z.to_nat m) (iov_data u))) EMU_OP_WRITE err e0 (e_hw sc')).
Proof.
  induction fuel as [|fuel IH]; intros sc hs handle u d Hi Hh Hd Hwf Hr Hoff Hw Hf; [lia|]. cbn [write_loop]. pose proof Hwf as (Hbase & Hres & Hlen & Hdl & _ & Hend). specialize (Hdl Hw).
  destruct (Z.gtb_spec (uio_resid u) 0) as [Hpos|].
  2:{ exists 0, u, sc. do 2 (split; [done|]). split; [done|]. left. split; [done|]. replace (uio_resid u) with 0 by lia. cbn [Z.to_nat]. rewrite drop_0, take_0, advance_0 by done. done. }
  cbv zeta. set (amt := if uio_resid u >? EMU_MAXIO then EMU_MAXIO else uio_resid u).
  assert (0 < amt <= uio_resid u /\ amt <= EMU_MAXIO) as [Ha1 Ha2] by (unfold amt, EMU_MAXIO; destruct (Z.gtb_spec (uio_resid u) 16384); lia).
  destruct (emu_write_spec sc hs handle amt u d Hi Hh Hd Hwf Hr Hoff Hw Ha1 Ha2) as (err & sc1 & -> & Hi1 & Hf1 & Hcase). rewrite bind_Ok.
  destruct Hcase as [[-> Hd1]|[He Hrep]].
  2:{ destruct (Z.eqb_spec err 0); [done|]. cbn [negb]. eexists err, _, sc1. do 3 (split; [done|]). right. split; [done|]. exists 0, (e_hw sc). split; [lia|]. by rewrite take_0. }
  cbn [Z.eqb negb]. set (u1 := advance amt _ u). change (uio_resid u1) with (uio_resid u - amt). destruct (Z.eqb_spec (uio_resid u - amt) (uio_resid u)); [lia|].
  assert (forall k, write_at (write_at d (Z.to_nat (uio_offset u)) (take (Z.to_nat amt) (iov_data u))) (Z.to_nat (uio_offset u1)) (take k (iov_data u1)) =
    write_at d (Z.to_nat (uio_offset u)) (take (Z.to_nat amt + k) (iov_data u))) as Ewr.
  { intros k. unfold u1. cbn [advance uio_resid iov_data uio_offset].
    replace (Z.to_nat (uio_offset u + amt)) with (Z.to_nat (uio_offset u) + length (take (Z.to_nat amt) (iov_data u)))%nat by (rewrite length_take; lia).
    by rewrite write_at_app, take_take_drop. }
  destruct (IH sc1 hs handle u1 _ Hi1 Hh Hd1) as (err & u2 & sc2 & -> & Hi2 & Hf2 & Hcase).
  - by apply advance_wf; [|lia|].
  - change (uio_resid u1) with (uio_resid u - amt). apply reachable_advance; try done; lia.
  - unfold u1. cbn. lia.
  - done.
  - unfold u1. cbn. lia.
  - exists err, u2, sc2. split; [done|]. split; [done|]. split; [intros h Hin; by rewrite (Hf2 h Hin), (Hf1 h Hin)|].
    change (uio_resid u1) with (uio_resid u - amt) in *. destruct Hcase as [(-> & -> & ->)|(He & m & e0 & Hm & Hrep)].
    + left. split; [done|]. rewrite Ewr. unfold u1. cbn [advance uio_resid iov_data uio_offset]. rewrite advance_advance, drop_drop.
      replace (Z.to_nat amt + Z.to_nat (uio_resid u - amt))%nat with (Z.to_nat (uio_resid u)) by lia. by replace (amt + (uio_resid u - amt)) with (uio_resid u) by lia.
    + right. split; [done|]. exists (amt + m), e0. split; [lia|]. rewrite Ewr in Hrep. by replace (Z.to_nat (amt + m)) with (Z.to_nat amt + Z.to_nat m)%nat by lia.
Qed.
End move.
End softc.

(** ** The table of vnodes *)

(** The handles of the vnodes in memory. *)
Definition handles (m : gmap Z emufs_vnode) : gset Z := map_to_set (fun _ ev => ev_handle ev) m.

Lemma elem_of_handles m h : h ∈ handles m <-> exists p ev, m !! p = Some ev /\ ev_handle ev = h.
Proof. unfold handles. by rewrite elem_of_map_to_set. Qed.

Lemma handles_update m p ev ev' : m !! p = Some ev -> ev_handle ev' = ev_handle ev -> handles (<[p := ev']> m) = handles m.
Proof.
  intros Hp He. apply set_eq. intros h. rewrite !elem_of_handles. split; intros (q & evq & Hq & <-).
  - destruct (decide (p = q)) as [<-|Hne]; [rewrite lookup_insert_eq in Hq; injection Hq as <-; by exists p, ev|]. rewrite lookup_insert_ne in Hq by done. by exists q, evq.
  - destruct (decide (p = q)) as [<-|Hne]; [exists p, ev'; rewrite lookup_insert_eq; split; [done|congruence]|]. exists q, evq. by rewrite lookup_insert_ne.
Qed.

Lemma handles_insert m p ev : m !! p = None -> handles (<[p := ev]> m) = {[ev_handle ev]} ∪ handles m.
Proof. intros Hp. unfold handles. by rewrite map_to_set_insert_L. Qed.

Lemma handles_delete m p ev : m !! p = Some ev -> (forall q ev', m !! q = Some ev' -> ev_handle ev' = ev_handle ev -> q = p) ->
  handles (delete p m) = handles m ∖ {[ev_handle ev]}.
Proof.
  intros Hp Hinj. apply set_eq. intros h. rewrite elem_of_difference, not_elem_of_singleton, !elem_of_handles. split.
  - intros (q & evq & Hq & <-). apply lookup_delete_Some in Hq as [Hne Hq]. split; [by exists q, evq|]. intros E. by apply Hne; symmetry; eapply Hinj.
  - intros [(q & evq & Hq & <-) Hne]. exists q, evq. split; [|done]. apply lookup_delete_Some. split; [|done]. intros <-. congruence.
Qed.

(** Taking an element out of a list without duplicates. *)
Lemma elem_of_delete (l : list Z) i x y : NoDup l -> l !! i = Some x -> NoDup (delete i l) /\ (y ∈ delete i l <-> y ∈ l /\ y <> x).
Proof.
  intros Hn Hx. pose proof (delete_Permutation l i x Hx) as Hp. rewrite Hp in Hn. apply list.NoDup_cons in Hn as [Hni Hn]. split; [done|].
  assert (y ∈ l <-> y = x \/ y ∈ delete i l) as -> by (rewrite <-elem_of_cons; by rewrite <-Hp). split; [intros Hy; split; [by right|by intros ->]|]. by intros [[->|?] ?].
Qed.

Section world.
Context {E : Type} {HW : EmuHw E} {HL : EmuLaws E} {H : Type} {devs : Z -> option (device H)}.
Abbreviation W := (emu_world E H devs).
Implicit Types (w : W) (T O : gmultiset ref) (extra : gset Z).

Definition ev_vnode (x p : Z) (isfile : bool) (n m : nat) : vnode :=
  mk_vnode (Z.of_nat n) (Z.of_nat m) true (Some x) (Some p) (Some (if isfile then emufs_fileops else emufs_dirops)).

(** The file system keeps one reference to its root. *)
Definition rootref (root v : Z) : nat := if decide (v = root) then 1 else 0.

(** The file system [x] with the references [T] and the opens [O] to its
    vnodes: the table has the vnodes in memory, one for each handle that is
    open but those in [extra], and their counts are the references. *)
Record emu_state (x root : Z) (l : list Z) extra w T O : Prop := {
  es_fs : ew_fs w = {[x := mk_ef (Some root) l]};
  es_nodup : NoDup l;
  es_table p : p ∈ l <-> is_Some (ew_vnodes w !! p);
  es_root : exists ev, ew_vnodes w !! root = Some ev /\ ev_handle ev = EMU_ROOTHANDLE;
  es_vnode p ev : ew_vnodes w !! p = Some ev -> p <> 0 /\
    ev_v ev = ev_vnode x p (file_at (e_hw (ew_sc w)) (ev_handle ev)) (multiplicity p (vnodes T) + rootref root p) (multiplicity p (vnodes O)) /\
    (0 < multiplicity p (vnodes T) + rootref root p)%nat;
  es_inj p q ev ev' : ew_vnodes w !! p = Some ev -> ew_vnodes w !! q = Some ev' -> ev_handle ev = ev_handle ev' -> p = q;
  es_idle : idle false (ew_sc w) (extra ∪ handles (ew_vnodes w));
  es_tokens v f : (v, f) ∈ T -> f = Some x /\ is_Some (ew_vnodes w !! v);
  es_open : O ⊆ T;
  es_bound : Z.of_nat (size T) <= max_refs;
  es_addr : x <> 0;
}.
Global Arguments es_fs {x root l extra w T O}.
Global Arguments es_nodup {x root l extra w T O}.
Global Arguments es_table {x root l extra w T O}.
Global Arguments es_root {x root l extra w T O}.
Global Arguments es_vnode {x root l extra w T O}.
Global Arguments es_inj {x root l extra w T O}.
Global Arguments es_idle {x root l extra w T O}.
Global Arguments es_tokens {x root l extra w T O}.
Global Arguments es_open {x root l extra w T O}.
Global Arguments es_bound {x root l extra w T O}.
Global Arguments es_addr {x root l extra w T O}.

(** The devices are as they were, and vnodes are made only where none was. *)
Definition dev_same w w' : Prop :=
  ew_dev w' = ew_dev w /\ forall p, is_Some (ew_vnodes w' !! p) -> is_Some (ew_vnodes w !! p) \/ dw_vnodes (ew_dev w) !! p = None.

Lemma dev_same_refl w : dev_same w w.
Proof. split; [done|]. by left. Qed.

Lemma dev_same_trans w1 w2 w3 : dev_same w1 w2 -> dev_same w2 w3 -> dev_same w1 w3.
Proof. intros [E1 H1] [E2 H2]. split; [congruence|]. intros p Hp. destruct (H2 p Hp) as [?|?]; [by apply H1|]. right. congruence. Qed.

(** A vnode of the file system, and what it points to. *)
Lemma ev_known x root l extra w T O v ev : emu_state x root l extra w T O -> ew_vnodes w !! v = Some ev ->
  ew_lookup v w = Some (ev_v ev) /\ ev_of v w = Ok (v, ev) /\ ef_of v w = Ok (x, mk_ef (Some root) l).
Proof.
  intros Hs Hv. destruct (es_vnode Hs v ev Hv) as (_ & Ev & _). assert (ew_lookup v w = Some (ev_v ev)) as El by (unfold ew_lookup; by rewrite Hv).
  split; [done|]. unfold ev_of, ef_of, ew_deref. rewrite El, !bind_Ok, Ev. cbn [vn_data ev_vnode vn_fs]. rewrite Hv. split; [done|].
  unfold fs_deref. by rewrite (es_fs Hs), lookup_singleton_eq.
Qed.

Lemma ew_store_ev w v ev vn : ew_vnodes w !! v = Some ev -> ew_store v vn w = set_evs (<[v := mk_ev vn (ev_handle ev)]> (ew_vnodes w)) w.
Proof. intros Hv. unfold ew_store. by rewrite Hv. Qed.

Lemma dev_same_store w v ev vn : ew_vnodes w !! v = Some ev -> dev_same w (ew_store v vn w).
Proof.
  intros Hv. rewrite (ew_store_ev _ _ _ _ Hv). split; [done|]. cbn. intros p Hp. left. destruct (decide (v = p)) as [<-|]; [by rewrite Hv|by rewrite lookup_insert_ne in Hp].
Qed.

(** The counts of one vnode change. *)
Lemma es_store x root l extra w T O T' O' v ev n m : emu_state x root l extra w T O -> ew_vnodes w !! v = Some ev ->
  O' ⊆ T' -> Z.of_nat (size T') <= max_refs -> (multiplicity v (vnodes T') + rootref root v = n)%nat -> multiplicity v (vnodes O') = m -> (0 < n)%nat ->
  (forall y f, (y, f) ∈ T' -> y = v /\ f = Some x \/ (y, f) ∈ T) ->
  (forall y, y <> v -> multiplicity y (vnodes T') = multiplicity y (vnodes T) /\ multiplicity y (vnodes O') = multiplicity y (vnodes O)) ->
  emu_state x root l extra (ew_store v (ev_vnode x v (file_at (e_hw (ew_sc w)) (ev_handle ev)) n m) w) T' O'.
Proof.
  intros Hs Hv Ho Hsz Hn Hm Hpos HT Hy. rewrite (ew_store_ev _ _ _ _ Hv). set (ev' := mk_ev _ _).
  assert (forall p, is_Some (<[v := ev']> (ew_vnodes w) !! p) <-> is_Some (ew_vnodes w !! p)) as Hdom.
  { intros p. destruct (decide (v = p)) as [<-|]; [rewrite lookup_insert_eq, Hv; by split|by rewrite lookup_insert_ne]. }
  assert (forall p e, <[v := ev']> (ew_vnodes w) !! p = Some e -> exists e0, ew_vnodes w !! p = Some e0 /\ ev_handle e = ev_handle e0) as Hold.
  { intros p e. destruct (decide (v = p)) as [<-|]; [rewrite lookup_insert_eq; intros [= <-]; by exists ev|rewrite lookup_insert_ne by done; by exists e]. }
  split; cbn [ew_fs ew_vnodes ew_sc set_evs]; try done.
  - apply Hs.
  - apply Hs.
  - intros p. rewrite Hdom. apply Hs.
  - destruct (es_root Hs) as (er & Hr & Eh). destruct (decide (v = root)) as [<-|]; [|by exists er; rewrite lookup_insert_ne].
    exists ev'. rewrite lookup_insert_eq. split; [done|]. cbn. congruence.
  - intros p e Hp. destruct (decide (v = p)) as [<-|Hne].
    + rewrite lookup_insert_eq in Hp. injection Hp as <-. split; [by apply (es_vnode Hs v ev)|]. cbn. rewrite Hn, Hm. by split.
    + rewrite lookup_insert_ne in Hp by done. destruct (Hy p ltac:(done)) as [-> ->]. by apply (es_vnode Hs).
  - intros p q e e' Hp Hq Hh. apply Hold in Hp as (e0 & Hp & E0), Hq as (e1 & Hq & E1). eapply (es_inj Hs); [done|done|congruence].
  - rewrite (handles_update _ _ ev) by done. apply Hs.
  - intros y f Hin. destruct (HT y f Hin) as [[-> ->]|Hin']; [|rewrite Hdom; by apply Hs]. split; [done|]. rewrite lookup_insert_eq. done.
  - apply Hs.
Qed.

(** ** Counts of the vnodes of the file system *)

Lemma es_check x root l extra w T O v ev : emu_state x root l extra w T O -> ew_vnodes w !! v = Some ev -> forall b, vnode_check b (ev_v ev) = Ok tt.
Proof.
  intros Hs Hv b. destruct (es_vnode Hs v ev Hv) as (_ & -> & Hpos). unfold vnode_check. cbn [ev_vnode vn_ops vn_countlock vn_refcount vn_opencount].
  rewrite bool_decide_true by done. cbn [assert]. rewrite !bind_Ok.
  destruct (Z.ltb_spec (Z.of_nat (multiplicity v (vnodes T) + rootref root v)) 0); [lia|].
  destruct (Z.eqb_spec (Z.of_nat (multiplicity v (vnodes T) + rootref root v)) 0); [lia|]. cbn [andb].
  destruct (Z.ltb_spec (Z.of_nat (multiplicity v (vnodes O))) 0); [lia|done].
Qed.

Lemma rootref_le root v : (rootref root v <= 1)%nat.
Proof. unfold rootref. case_decide; lia. Qed.

Lemma es_incref x root l extra w T O v ev : emu_state x root l extra w T O -> room T -> ew_vnodes w !! v = Some ev ->
  ok_with (vnode_incref v w) (fun w' => emu_state x root l extra w' (T ⊎ {[+ (v, Some x) +]}) O /\ dev_same w w').
Proof.
  intros Hs Hr Hv. destruct (ev_known _ _ _ _ _ _ _ _ _ Hs Hv) as (El & _). destruct (es_vnode Hs v ev Hv) as (_ & Ev & Hpos).
  unfold vnode_incref, vn_deref. cbn [vn_lookup emu_vnodeops]. rewrite El, bind_Ok, Ev. unfold vnode_incref_v. cbn [vn_countlock ev_vnode assert]. rewrite !bind_Ok.
  eexists. split; [done|]. split; [|by eapply dev_same_store]. pose proof (vnodes_size T v). pose proof (rootref_le root v). unfold room, max_refs in Hr.
  assert (forall f n m, 0 <= Z.of_nat n < 2147483647 -> set_refcount (i32 (vn_refcount (ev_vnode x v f n m) + 1)) (ev_vnode x v f n m) = ev_vnode x v f (n + 1) m) as ->.
  { intros f n m Hn. unfold set_refcount, ev_vnode. cbn. f_equal. rewrite i32_small by lia. lia. }
  2: lia. apply (es_store _ _ _ _ _ T O); try done.
  - pose proof (es_open Hs). multiset_solver.
  - rewrite gmultiset_size_disj_union, gmultiset_size_singleton. unfold max_refs. lia.
  - rewrite mult_add, decide_True by done. lia.
  - lia.
  - intros y f Hin. destruct (in_add _ _ _ _ Hin) as [[= -> ->]|?]; [by left|by right].
  - intros y Hy. split; [|done]. rewrite mult_add, decide_False by done. lia.
Qed.

(** The last reference goes: the handle is closed and the vnode freed. *)
Lemma es_reclaim x root l w T O v ev : emu_state x root l ∅ w (T ⊎ {[+ (v, Some x) +]}) O -> O ⊆ T -> ew_vnodes w !! v = Some ev ->
  multiplicity v (vnodes T) = 0%nat -> v <> root ->
  exists l' w', emufs_reclaim v w = Ok (0, w') /\ emu_state x root l' ∅ w' T O /\ dev_same w w'.
Proof.
  intros Hs Ho Hv Hm Hroot. destruct (ev_known _ _ _ _ _ _ _ _ _ Hs Hv) as (_ & Ep & Ex). unfold emufs_reclaim. rewrite Ep, bind_Ok, Ex, bind_Ok.
  pose proof (es_idle Hs) as Hi. rewrite (left_id_L ∅ (∪)) in Hi. destruct (idle_acquire _ _ Hi) as [-> Hi1]. rewrite bind_Ok.
  destruct (es_vnode Hs v ev Hv) as (_ & Ev & _). assert (rootref root v = 0%nat) as Er by (unfold rootref; by rewrite decide_False).
  pose proof (vnodes_mono _ _ Ho v) as Hmo. rewrite mult_add, decide_True, Hm, Er in Ev by done. replace (multiplicity v (vnodes O)) with 0%nat in Ev by lia.
  rewrite Ev. cbn [vn_countlock ev_vnode assert vn_refcount]. rewrite bind_Ok. cbn [Nat.add Z.of_nat Pos.of_succ_nat Z.eqb Pos.eqb negb].
  assert (ev_handle ev ∈ handles (ew_vnodes w)) as Hh by (apply elem_of_handles; by exists v, ev).
  destruct (emu_close_spec true _ _ _ Hi1 Hh) as (sc' & -> & Hi2 & Hd). rewrite bind_Ok. cbn [Z.eqb negb ef_vnodes].
  destruct (list_find (fun evx => evx = v) l) as [[ix y]|] eqn:Ef.
  2:{ exfalso. apply list_find_None in Ef. rewrite Forall_forall in Ef. apply (Ef v); [|done]. apply list_elem_of_In, (es_table Hs). by rewrite Hv. }
  apply list_find_Some in Ef as (Hix & -> & _). destruct (idle_release _ _ Hi2) as [-> Hi3]. rewrite bind_Ok.
  change (vnode_kill (ev_vnode _ _ _ _ _)) with (Ok (mk_vnode 0 0 false None None None)). rewrite bind_Ok.
  pose proof (fun y => elem_of_delete l ix v y (es_nodup Hs) Hix) as Hdel.
  assert (forall p, p <> v -> multiplicity p (vnodes (T ⊎ {[+ (v, Some x) +]})) = multiplicity p (vnodes T)) as Hmp.
  { intros p Hp. rewrite mult_add, decide_False by done. lia. }
  exists (delete ix l). eexists. split; [done|]. split.
  2:{ split; [done|]. cbn. intros p [? Hp]. apply lookup_delete_Some in Hp as [_ Hp]. left. by rewrite Hp. }
  split; cbn [ew_fs ew_vnodes ew_sc set_evs set_sc set_fs ef_root]; try done.
  - by rewrite (es_fs Hs), insert_singleton_eq.
  - by apply (Hdel 0).
  - intros p. rewrite (proj2 (Hdel p)), (es_table Hs). split.
    + intros [[e Hp] Hne]. exists e. by apply lookup_delete_Some.
    + intros [e Hp]. apply lookup_delete_Some in Hp as [Hne Hp]. split; [by exists e|done].
  - destruct (es_root Hs) as (er & Hr & Eh). exists er. by rewrite lookup_delete_ne.
  - intros p e Hp. apply lookup_delete_Some in Hp as [Hne Hp]. destruct (es_vnode Hs p e Hp) as (Hp0 & Ee & Hpos). rewrite Hmp in Ee, Hpos by done.
    split; [done|]. split; [|done]. rewrite Ee. f_equal. unfold file_at. cbn [e_hw set_elock]. rewrite (Hd (ev_handle e)); [done|]. apply elem_of_difference. split.
    + apply elem_of_handles. by exists p, e.
    + intros Eh%elem_of_singleton. by apply Hne; symmetry; eapply (es_inj Hs).
  - intros p q e e' Hp Hq. apply lookup_delete_Some in Hp as [_ Hp], Hq as [_ Hq]. by apply (es_inj Hs).
  - rewrite (left_id_L ∅ (∪)), (handles_delete _ _ ev); [done|done|]. intros q e' Hq Eh. by eapply (es_inj Hs).
  - intros y f Hin. destruct (es_tokens Hs y f) as [-> Hy]; [multiset_solver|]. split; [done|]. assert (y <> v) by (intros ->; pose proof (in_vnodes _ _ _ Hin); lia).
    by rewrite lookup_delete_ne.
  - pose proof (es_bound Hs) as Hb. rewrite gmultiset_size_disj_union in Hb. lia.
  - apply Hs.
Qed.

Lemma es_dispatch {A} x root l extra w T O v ev (a b c : res A) : emu_state x root l extra w T O -> ew_vnodes w !! v = Some ev ->
  dispatch v w a b c = if file_at (e_hw (ew_sc w)) (ev_handle ev) then a else b.
Proof.
  intros Hs Hv. destruct (ev_known _ _ _ _ _ _ _ _ _ Hs Hv) as (El & _). destruct (es_vnode Hs v ev Hv) as (_ & Ev & _).
  unfold dispatch, ew_deref. rewrite El, bind_Ok, Ev. cbn [vn_ops ev_vnode]. by destruct (file_at _ _).
Qed.

Lemma es_decref x root l w T O v : emu_state x root l ∅ w (T ⊎ {[+ (v, Some x) +]}) O -> O ⊆ T ->
  ok_with (vnode_decref v w) (fun w' => exists l', emu_state x root l' ∅ w' T O /\ dev_same w w').
Proof.
  intros Hs Ho. destruct (es_tokens Hs v (Some x)) as [_ [ev Hv]]; [multiset_solver|].
  destruct (ev_known _ _ _ _ _ _ _ _ _ Hs Hv) as (El & _). destruct (es_vnode Hs v ev Hv) as (_ & Ev & _). rewrite mult_add, decide_True in Ev by done.
  pose proof (es_check _ _ _ _ _ _ _ _ _ Hs Hv true) as Hck. pose proof (es_bound Hs) as Hb. rewrite gmultiset_size_disj_union, gmultiset_size_singleton in Hb.
  unfold vnode_decref, vn_deref. cbn [vn_lookup emu_vnodeops]. rewrite El, bind_Ok, Hck, Ev. cbn [vn_countlock ev_vnode vn_refcount assert]. rewrite bind_Ok. pass_assert.
  fold (ev_vnode x v (file_at (e_hw (ew_sc w)) (ev_handle ev)) (multiplicity v (vnodes T) + 1 + rootref root v) (multiplicity v (vnodes O))).
  destruct (Z.gtb_spec (Z.of_nat (multiplicity v (vnodes T) + 1 + rootref root v)) 1).
  - eexists. split; [done|]. exists l. split; [|by eapply dev_same_store].
    replace (set_refcount _ _) with (ev_vnode x v (file_at (e_hw (ew_sc w)) (ev_handle ev)) (multiplicity v (vnodes T) + rootref root v) (multiplicity v (vnodes O)))
      by (unfold set_refcount, ev_vnode; cbn; f_equal; lia).
    apply (es_store _ _ _ _ _ (T ⊎ {[+ (v, Some x) +]}) O); try done; [lia|lia| |].
    + intros y f Hin. right. multiset_solver.
    + intros y Hy. rewrite mult_add, decide_False by done. split; [lia|done].
  - rewrite bind_Ok. cbn [vop_reclaim emu_vnodeops]. rewrite (es_dispatch _ _ _ _ _ _ _ _ _ _ _ _ Hs Hv).
    destruct (es_reclaim x root l w T O v ev Hs Ho Hv) as (l' & w' & Er & Hs' & Hd); [lia|unfold rootref in *; case_decide; [lia|done]|].
    rewrite Er. exists w'. split; [by destruct (file_at _ _)|]. by exists l'.
Qed.

(** The opens of one vnode change. *)
Lemma es_reopen x root l extra w T O O' v ev : emu_state x root l extra w T O -> ew_vnodes w !! v = Some ev -> O' ⊆ T ->
  (forall y, y <> v -> multiplicity y (vnodes O') = multiplicity y (vnodes O)) ->
  emu_state x root l extra (ew_store v (set_opencount (Z.of_nat (multiplicity v (vnodes O'))) (ev_v ev)) w) T O'.
Proof.
  intros Hs Hv Ho Hy. destruct (es_vnode Hs v ev Hv) as (_ & -> & Hpos).
  change (set_opencount _ (ev_vnode x v ?f ?n ?m)) with (ev_vnode x v f n (multiplicity v (vnodes O'))).
  apply (es_store _ _ _ _ _ T O); try done; [apply Hs| |].
  - intros y f Hin. by right.
  - intros y Hne. split; [done|by apply Hy].
Qed.

Lemma es_incopen x root l w T O v : emu_state x root l ∅ w T O -> O ⊎ {[+ (v, Some x) +]} ⊆ T ->
  ok_with (vnode_incopen v w) (fun w' => emu_state x root l ∅ w' T (O ⊎ {[+ (v, Some x) +]}) /\ dev_same w w').
Proof.
  intros Hs Ho. destruct (es_tokens Hs v (Some x)) as [_ [ev Hv]]; [multiset_solver|]. destruct (ev_known _ _ _ _ _ _ _ _ _ Hs Hv) as (El & _).
  destruct (es_vnode Hs v ev Hv) as (_ & Ev & _). unfold vnode_incopen, vn_deref. cbn [vn_lookup emu_vnodeops]. rewrite El, bind_Ok. unfold vnode_incopen_v.
  assert (vn_countlock (ev_v ev) = true) as -> by (by rewrite Ev). cbn [assert]. rewrite !bind_Ok.
  assert (vn_opencount (ev_v ev) = Z.of_nat (multiplicity v (vnodes O))) as -> by (by rewrite Ev).
  pose proof (vnodes_size T v). pose proof (vnodes_mono _ _ Ho v) as Hm. rewrite mult_add, decide_True in Hm by done. pose proof (es_bound Hs) as Hb. unfold max_refs in Hb.
  replace (i32 (Z.of_nat (multiplicity v (vnodes O)) + 1)) with (Z.of_nat (multiplicity v (vnodes (O ⊎ {[+ (v, Some x) +]})))).
  2:{ rewrite mult_add, decide_True, i32_small by (done || lia). lia. }
  eexists. split; [done|]. split; [|by eapply dev_same_store]. eapply es_reopen; try done. intros y Hy. rewrite mult_add, decide_False by done. lia.
Qed.

Lemma es_decopen x root l w T O v : emu_state x root l ∅ w T (O ⊎ {[+ (v, Some x) +]}) ->
  ok_with (vnode_decopen v w) (fun w' => emu_state x root l ∅ w' T O /\ dev_same w w').
Proof.
  intros Hs. pose proof (es_open Hs) as Ho. destruct (es_tokens Hs v (Some x)) as [_ [ev Hv]]; [multiset_solver|].
  destruct (ev_known _ _ _ _ _ _ _ _ _ Hs Hv) as (El & _). destruct (es_vnode Hs v ev Hv) as (_ & Ev & _).
  assert (emu_state x root l ∅ (ew_store v (set_opencount (Z.of_nat (multiplicity v (vnodes O))) (ev_v ev)) w) T O) as Hs2.
  { eapply es_reopen; [done|done|multiset_solver|]. intros y Hy. rewrite mult_add, decide_False by done. lia. }
  unfold vnode_decopen, vn_deref. cbn [vn_lookup emu_vnodeops]. rewrite El, bind_Ok.
  assert (vn_countlock (ev_v ev) = true) as -> by (by rewrite Ev). cbn [assert]. rewrite bind_Ok.
  rewrite mult_add, decide_True in Ev by done. assert (vn_opencount (ev_v ev) = Z.of_nat (multiplicity v (vnodes O) + 1)) as -> by (by rewrite Ev).
  pass_assert. replace (Z.of_nat (multiplicity v (vnodes O) + 1) - 1) with (Z.of_nat (multiplicity v (vnodes O))) by lia. cbn [vn_store emu_vnodeops].
  pose proof (dev_same_store w v ev (set_opencount (Z.of_nat (multiplicity v (vnodes O))) (ev_v ev)) Hv) as Hd.
  destruct (_ >? 0); [by eexists|]. assert (ew_vnodes (ew_store v (set_opencount (Z.of_nat (multiplicity v (vnodes O))) (ev_v ev)) w) !! v =
    Some (mk_ev (set_opencount (Z.of_nat (multiplicity v (vnodes O))) (ev_v ev)) (ev_handle ev))) as Hv2.
  { rewrite (ew_store_ev _ _ _ _ Hv). cbn. by rewrite lookup_insert_eq. }
  pose proof (es_check _ _ _ _ _ _ _ _ _ Hs2 Hv2 false) as Hck. cbn [ev_v] in Hck. rewrite Hck, bind_Ok. cbn [vop_close emu_vnodeops].
  rewrite (es_dispatch _ _ _ _ _ _ _ _ _ _ _ _ Hs2 Hv2). match goal with |- context [if ?b then _ else _] => destruct b end; (eexists; split; [reflexivity|done]).
Qed.

(** ** Operations on files and directories *)

(** The device has worked, and the files are files still. *)
Lemma es_sc x root l extra extra' w T O sc : emu_state x root l extra w T O -> idle false sc (extra' ∪ handles (ew_vnodes w)) ->
  (forall h, h ∈ handles (ew_vnodes w) -> file_at (e_hw sc) h = file_at (e_hw (ew_sc w)) h) -> emu_state x root l extra' (set_sc sc w) T O.
Proof.
  intros Hs Hi Hf. split; cbn [ew_fs ew_vnodes ew_sc set_sc]; try apply Hs; [|done]. intros p ev Hp. rewrite Hf by (apply elem_of_handles; by exists p, ev).
  by apply (es_vnode Hs).
Qed.

Lemma same_file hs (e e' : E) h : same_data hs e e' -> h ∈ hs -> file_at e' h = file_at e h.
Proof. intros Hd Hh. unfold file_at. by rewrite (Hd h Hh). Qed.

Lemma dev_same_sc w sc : dev_same w (set_sc sc w).
Proof. split; [done|]. by left. Qed.

Lemma es_truncate x root l w T O v ev len : emu_state x root l ∅ w T O -> ew_vnodes w !! v = Some ev ->
  ok_with (emufs_truncate v len w) (fun '(_, w') => emu_state x root l ∅ w' T O /\ dev_same w w').
Proof.
  intros Hs Hv. destruct (ev_known _ _ _ _ _ _ _ _ _ Hs Hv) as (_ & Ee & _). unfold emufs_truncate. rewrite Ee, bind_Ok.
  destruct (emu_trunc_spec _ _ (ev_handle ev) len (es_idle Hs)) as (err & sc' & -> & Hi & Hf).
  { apply elem_of_union_r, elem_of_handles. by exists v, ev. }
  rewrite bind_Ok. eexists. split; [done|]. split; [|apply dev_same_sc]. eapply es_sc; [done|done|]. intros h Hh. apply Hf. set_solver.
Qed.

(** The lock around [emufs_loadvnode] changes nothing. *)
Lemma find_loop_sc l h sc w : find_loop l h (set_sc sc w) = find_loop l h w.
Proof. induction l as [|p l IH]; [done|]. cbn. destruct (ew_vnodes w !! p); [|done]. by rewrite IH. Qed.

Lemma store_sc p vn sc w : ew_store p vn (set_sc sc w) = set_sc sc (ew_store p vn w).
Proof. unfold ew_store. cbn [ew_vnodes set_sc]. by destruct (ew_vnodes w !! p). Qed.

Lemma sc_store p vn w : ew_sc (ew_store p vn w) = ew_sc w.
Proof. unfold ew_store. by destruct (ew_vnodes w !! p). Qed.

Lemma set_sc_same w : set_sc (ew_sc w) w = w.
Proof. by destruct w. Qed.

Lemma incref_sc p sc w : vnode_incref p (set_sc sc w) = (w' ← vnode_incref p w; Ok (set_sc sc w')).
Proof.
  unfold vnode_incref, vn_deref. cbn [vn_lookup emu_vnodeops vn_store]. change (ew_lookup p (set_sc sc w)) with (ew_lookup p w).
  destruct (ew_lookup p w) as [vn|]; [|done]. rewrite !bind_Ok. destruct (vnode_incref_v vn); [|done..]. rewrite !bind_Ok. by rewrite store_sc.
Qed.

Lemma incref_keeps_sc p w w' : vnode_incref p w = Ok w' -> ew_sc w' = ew_sc w.
Proof.
  unfold vnode_incref, vn_deref. cbn [vn_lookup emu_vnodeops vn_store]. destruct (ew_lookup p w) as [vn|]; [|done]. rewrite bind_Ok.
  destruct (vnode_incref_v vn); [|done..]. rewrite bind_Ok. intros [= <-]. apply sc_store.
Qed.

(** [newvnode] under the lock. *)
Lemma newvnode_sc x ef h d sc w : newvnode x ef h d (set_sc sc w) = ('(r, v, w') ← newvnode x ef h d w; Ok (r, v, set_sc sc w')).
Proof.
  unfold newvnode, kmalloc_ev. cbn [ew_mem set_sc]. destruct (ew_mem w) as [|a mem]; [done|]. change (ew_lookup ?p (set_sc sc w)) with (ew_lookup p w).
  destruct (am_ev a) as [p|]; [|done]. destruct (_ && _); [|done]. destruct (am_lock a); [|done]. destruct (am_array a); done.
Qed.

Lemma newvnode_keeps_sc x ef h d w r v w' : newvnode x ef h d w = Ok (r, v, w') -> ew_sc w' = ew_sc w.
Proof.
  unfold newvnode, kmalloc_ev. destruct (ew_mem w) as [|a mem]; [by intros [= _ _ <-]|]. destruct (am_ev a) as [p|]; [|by intros [= _ _ <-]].
  destruct (_ && _); [|by intros [= _ _ <-]]. destruct (am_lock a); [|by intros [= _ _ <-]]. destruct (am_array a); by intros [= _ _ <-].
Qed.

Lemma loadvnode_eq x h d w : e_lock (ew_sc w) = false ->
  emufs_loadvnode x h d w =
    (ef ← fs_deref x w; found ← find_loop (ef_vnodes ef) h w;
     match found with Some p => w ← vnode_incref p w; Ok (0, p, w) | None => newvnode x ef h d w end).
Proof.
  intros Hl. unfold emufs_loadvnode, acquire_emu. rewrite Hl, bind_Ok. cbv zeta. change (fs_deref x (set_sc _ w)) with (fs_deref x w).
  destruct (fs_deref x w) as [ef| | |]; [|done..]. rewrite !bind_Ok, find_loop_sc. destruct (find_loop _ _ _) as [[p|]| | |]; [| |done..]; rewrite !bind_Ok.
  all: assert (set_elock false (set_elock true (ew_sc w)) = ew_sc w) as Esc by (destruct (ew_sc w); cbn in *; by rewrite Hl).
  - rewrite incref_sc. destruct (vnode_incref p w) as [w'| | |] eqn:Ei; [|done..]. rewrite !bind_Ok. cbn [ew_sc set_sc release_emu]. unfold release_emu. cbn [e_lock set_elock assert].
    rewrite !bind_Ok, Esc, <-(incref_keeps_sc _ _ _ Ei). by destruct w'.
  - rewrite newvnode_sc. destruct (newvnode x ef h d w) as [[[r v] w']| | |] eqn:En; [|done..]. rewrite !bind_Ok. cbn [ew_sc set_sc]. unfold release_emu. cbn [e_lock set_elock assert].
    rewrite !bind_Ok, Esc, <-(newvnode_keeps_sc _ _ _ _ _ _ _ _ En). by destruct w'.
Qed.

Lemma find_loop_spec l h w : (forall p, p ∈ l -> is_Some (ew_vnodes w !! p)) ->
  (exists p ev, find_loop l h w = Ok (Some p) /\ ew_vnodes w !! p = Some ev /\ ev_handle ev = h) \/
  find_loop l h w = Ok None /\ forall p ev, p ∈ l -> ew_vnodes w !! p = Some ev -> ev_handle ev <> h.
Proof.
  induction l as [|p l IH]; intros Hl; cbn [find_loop]; [right; split; [done|]; intros p ev Hp; by apply elem_of_nil in Hp|].
  destruct (Hl p) as [ev Hv]; [left|]. rewrite Hv. destruct (Z.eqb_spec (ev_handle ev) h) as [Eh|Eh]; [left; by exists p, ev|].
  destruct IH as [?|[-> Hno]]; [intros q Hq; apply Hl; by right|by left|]. right. split; [done|]. intros q ev' [->|Hq]%elem_of_cons Hv'; [congruence|by eapply Hno].
Qed.

(** A vnode that is made is at a fresh address, or everything is as it was. *)
Lemma newvnode_cases x ef h d w : exists mem, newvnode x ef h d w = Ok (ENOMEM, 0, set_mem mem w) \/
  exists p, p <> 0 /\ ew_lookup p w = None /\
    newvnode x ef h d w = Ok (0, p, set_fs (<[x := mk_ef (ef_root ef) (ef_vnodes ef ++ [p])]> (ew_fs w))
      (set_evs (<[p := mk_ev (ev_vnode x p (negb d) 1 0) h]> (ew_vnodes w)) (set_mem mem w))).
Proof.
  unfold newvnode, kmalloc_ev. destruct (ew_mem w) as [|a mem] eqn:Em; [exists []; left; rewrite <-Em; by destruct w|]. exists mem.
  destruct (am_ev a) as [p|]; [|by left]. destruct (Z.eqb_spec p 0) as [|Hp0]; [by left|]. cbn [negb andb]. case_bool_decide as Hp; [|by left].
  destruct (am_lock a); [|by left]. cbn [vnode_init]. destruct (am_array a); [|by left]. right. exists p. split; [done|]. split; [done|]. by destruct d.
Qed.

Lemma not_in_vnodes x root l extra w T O p : emu_state x root l extra w T O -> ew_vnodes w !! p = None ->
  multiplicity p (vnodes T) = 0%nat /\ multiplicity p (vnodes O) = 0%nat /\ p <> root.
Proof.
  intros Hs Hp. assert (multiplicity p (vnodes T) = 0%nat) as HT.
  { apply not_elem_of_multiplicity. intros [f Hf]%elem_of_vnodes. destruct (es_tokens Hs p f Hf) as [_ [? ?]]. congruence. }
  split; [done|]. pose proof (vnodes_mono _ _ (es_open Hs) p). split; [lia|]. intros ->. destruct (es_root Hs) as (ev & Hr & _). congruence.
Qed.

(** A new vnode gets into the table. *)
Lemma es_new x root l h w T O p mem : emu_state x root l {[h]} w T O -> room T -> p <> 0 -> ew_lookup p w = None -> h ∉ handles (ew_vnodes w) ->
  let w' := set_fs (<[x := mk_ef (Some root) (l ++ [p])]> (ew_fs w))
    (set_evs (<[p := mk_ev (ev_vnode x p (file_at (e_hw (ew_sc w)) h) 1 0) h]> (ew_vnodes w)) (set_mem mem w)) in
  emu_state x root (l ++ [p]) ∅ w' (T ⊎ {[+ (p, Some x) +]}) O /\ dev_same w w'.
Proof.
  intros Hs Hr Hp0 Hp Hh w'. unfold ew_lookup in Hp. destruct (ew_vnodes w !! p) as [?|] eqn:Ep; [done|]. destruct (not_in_vnodes _ _ _ _ _ _ _ _ Hs Ep) as (HT & HO & Hpr).
  assert (forall q ev, ew_vnodes w !! q = Some ev -> ev_handle ev <> h) as Hno. { intros q ev Hq Eq. apply Hh, elem_of_handles. by exists q, ev. }
  assert (forall q, q <> p -> multiplicity q (vnodes (T ⊎ {[+ (p, Some x) +]})) = multiplicity q (vnodes T)) as Hmq.
  { intros q Hq. rewrite mult_add, decide_False by done. lia. }
  split.
  2:{ split; [done|]. cbn. intros q Hq. destruct (decide (p = q)) as [<-|]; [by right|]. left. by rewrite lookup_insert_ne in Hq. }
  split; cbn [w' ew_fs ew_vnodes ew_sc set_evs set_fs set_mem].
  - by rewrite (es_fs Hs), insert_singleton_eq.
  - apply list.NoDup_app. split; [apply Hs|]. split; [|apply NoDup_singleton]. intros q Hq ->%list_elem_of_singleton. apply (es_table Hs) in Hq as [? ?]. congruence.
  - intros q. rewrite elem_of_app, list_elem_of_singleton, (es_table Hs). destruct (decide (p = q)) as [<-|Hne]; [rewrite lookup_insert_eq; naive_solver|].
    rewrite lookup_insert_ne by done. naive_solver.
  - destruct (es_root Hs) as (ev & Hrt & Eh). exists ev. by rewrite lookup_insert_ne.
  - intros q ev Hq. destruct (decide (p = q)) as [<-|Hne].
    + rewrite lookup_insert_eq in Hq. injection Hq as <-. split; [done|]. rewrite mult_add, decide_True, HT, HO by done. unfold rootref. rewrite decide_False by done.
      split; [done|lia].
    + rewrite lookup_insert_ne in Hq by done. rewrite Hmq by done. by apply (es_vnode Hs).
  - intros q q' ev ev' Hq Hq' Eq. destruct (decide (p = q)) as [<-|Hne], (decide (p = q')) as [<-|Hne']; [done| | |].
    + rewrite lookup_insert_eq in Hq. rewrite lookup_insert_ne in Hq' by done. injection Hq as <-. by destruct (Hno q' ev').
    + rewrite lookup_insert_eq in Hq'. rewrite lookup_insert_ne in Hq by done. injection Hq' as <-. by destruct (Hno q ev).
    + rewrite lookup_insert_ne in Hq, Hq' by done. by eapply (es_inj Hs).
  - rewrite handles_insert by done. cbn [ev_handle]. rewrite (left_id_L ∅ (∪)). apply Hs.
  - intros v f Hin. destruct (in_add _ _ _ _ Hin) as [[= -> ->]|Hin']; [split; [done|]; by rewrite lookup_insert_eq|].
    destruct (es_tokens Hs v f Hin') as [-> [ev Hv]]. split; [done|]. rewrite lookup_insert_ne; [by rewrite Hv|]. intros ->. congruence.
  - pose proof (es_open Hs). multiset_solver.
  - rewrite gmultiset_size_disj_union, gmultiset_size_singleton. unfold room in Hr. lia.
  - apply Hs.
Qed.

Lemma es_mem x root l extra w T O mem : emu_state x root l extra w T O -> emu_state x root l extra (set_mem mem w) T O.
Proof. intros []. by split. Qed.

Lemma es_loadvnode x root l h w T O : emu_state x root l {[h]} w T O -> room T ->
  exists e v w', emufs_loadvnode x h (negb (file_at (e_hw (ew_sc w)) h)) w = Ok (e, v, w') /\ dev_same w w' /\
    if e =? 0 then exists l', emu_state x root l' ∅ w' (T ⊎ {[+ (v, Some x) +]}) O else emu_state x root l {[h]} w' T O /\ h ∉ handles (ew_vnodes w').
Proof.
  intros Hs Hr. rewrite loadvnode_eq by apply (es_idle Hs). unfold fs_deref. rewrite (es_fs Hs), lookup_singleton_eq, bind_Ok. cbn [ef_vnodes].
  destruct (find_loop_spec l h w) as [(p & ev & -> & Hp & Eh)|[-> Hno]]; [by intros p Hp; apply (es_table Hs)| |]; rewrite bind_Ok.
  - assert (emu_state x root l ∅ w T O) as Hs0.
    { rewrite <-(set_sc_same w). eapply es_sc; [exact Hs| |done]. rewrite (left_id_L ∅ (∪)). pose proof (es_idle Hs) as Hi.
      replace ({[h]} ∪ handles (ew_vnodes w)) with (handles (ew_vnodes w)) in Hi; [done|]. assert (h ∈ handles (ew_vnodes w)) by (apply elem_of_handles; by exists p, ev). set_solver. }
    destruct (es_incref _ _ _ _ _ _ _ _ _ Hs0 Hr Hp) as (w' & -> & Hs' & Hd). rewrite bind_Ok. eexists _, _, _. split; [done|]. split; [done|]. by exists l.
  - assert (h ∉ handles (ew_vnodes w)) as Hh. { intros (q & ev & Hq & Eq)%elem_of_handles. eapply Hno; [|done|done]. apply (es_table Hs). by rewrite Hq. }
    destruct (newvnode_cases x (mk_ef (Some root) l) h (negb (file_at (e_hw (ew_sc w)) h)) w) as (mem & [->|(p & Hp0 & Hp & ->)]).
    + eexists _, _, _. split; [done|]. split; [by split; [|left]|]. split; [by apply es_mem|done].
    + eexists _, _, _. split; [done|]. rewrite negb_involutive. destruct (es_new x root l h w T O p mem Hs Hr Hp0 Hp Hh) as [Hs' Hd]. split; [done|]. by exists (l ++ [p]).
Qed.

(** The outcome of an operation that hands back a vnode, or fails. *)
Definition es_gives x root w T O (e v : Z) w' : Prop :=
  dev_same w w' /\ exists l', if e =? 0 then emu_state x root l' ∅ w' (T ⊎ {[+ (v, Some x) +]}) O else emu_state x root l' ∅ w' T O.

Lemma es_open_and_load x root l w T O v ev name create excl : emu_state x root l ∅ w T O -> room T -> ew_vnodes w !! v = Some ev ->
  exists e v' w', open_and_load v name create excl w = Ok (e, v', w') /\ es_gives x root w T O e v' w'.
Proof.
  intros Hs Hr Hv. destruct (ev_known _ _ _ _ _ _ _ _ _ Hs Hv) as (_ & Ee & Ex). unfold open_and_load. rewrite Ee, bind_Ok, Ex, bind_Ok.
  pose proof (es_idle Hs) as Hi. assert (ev_handle ev ∈ ∅ ∪ handles (ew_vnodes w)) as Hh by (apply elem_of_union_r, elem_of_handles; by exists v, ev).
  destruct (emu_open_spec _ _ _ name create excl Hi Hh) as (err & h & d & sc & -> & Hd & Hopen). rewrite bind_Ok. rewrite (left_id_L ∅ (∪)) in Hd, Hopen.
  assert (forall h, h ∈ handles (ew_vnodes w) -> file_at (e_hw sc) h = file_at (e_hw (ew_sc w)) h) as Hf by (intros; by eapply same_file).
  destruct (Z.eqb_spec err 0) as [->|He]; cbn [negb].
  2:{ eexists _, _, _. split; [done|]. split; [apply dev_same_sc|]. exists l. destruct (Z.eqb_spec err 0); [done|]. eapply es_sc; [done|by rewrite (left_id_L ∅ (∪))|done]. }
  destruct Hopen as [Hi2 ->]. assert (emu_state x root l {[h]} (set_sc sc w) T O) as Hs2 by (by eapply es_sc).
  destruct (es_loadvnode x root l h (set_sc sc w) T O Hs2 Hr) as (e & v' & w' & El & Hdev & Hload). cbn [ew_sc set_sc] in El. rewrite El, bind_Ok.
  assert (dev_same w w') as Hdev' by (eapply dev_same_trans; [apply dev_same_sc|exact Hdev]).
  destruct (Z.eqb_spec e 0) as [->|He]; cbn [negb]; [eexists _, _, _; split; [done|]; by split|]. destruct Hload as [Hs3 Hno].
  destruct (emu_close_spec false _ _ h (es_idle Hs3)) as (sc3 & -> & Hi3 & Hd3); [set_solver|]. rewrite bind_Ok.
  eexists _, _, _. split; [done|]. split; [eapply dev_same_trans; [exact Hdev'|apply dev_same_sc]|]. exists l. destruct (Z.eqb_spec e 0); [done|].
  assert (({[h]} ∪ handles (ew_vnodes w')) ∖ {[h]} = handles (ew_vnodes w')) as Eh by set_solver. rewrite Eh in Hi3, Hd3.
  eapply es_sc; [done|by rewrite (left_id_L ∅ (∪))|]. intros; by eapply same_file.
Qed.

Lemma es_lookparent x root l w T O v ev path len : emu_state x root l ∅ w T O -> room T -> ew_vnodes w !! v = Some ev ->
  exists e v' name w', emufs_lookparent v path len w = Ok (e, v', name, w') /\ es_gives x root w T O e v' w'.
Proof.
  intros Hs Hr Hv. unfold emufs_lookparent. assert (es_gives x root w T O ENAMETOOLONG 0 w) as Hlong. { split; [apply dev_same_refl|]. by exists l. }
  destruct (strrchr_slash path) as [[before s]|].
  - destruct (_ >? len); [by eexists _, _, _, _|]. destruct (es_open_and_load x root l w T O v ev before false false Hs Hr Hv) as (e & v' & w' & El & Hg).
    unfold emufs_lookup. rewrite El, bind_Ok. by eexists _, _, _, _.
  - destruct (_ >? len); [by eexists _, _, _, _|]. destruct (es_incref _ _ _ _ _ _ _ _ _ Hs Hr Hv) as (w' & -> & Hs' & Hd). rewrite bind_Ok.
    eexists _, _, _, _. split; [done|]. split; [done|]. by exists l.
Qed.

Lemma es_getroot x root l w T O : emu_state x root l ∅ w T O -> room T ->
  exists w', emufs_getroot x w = Ok (root, w') /\ dev_same w w' /\ emu_state x root l ∅ w' (T ⊎ {[+ (root, Some x) +]}) O.
Proof.
  intros Hs Hr. unfold emufs_getroot, fs_deref. rewrite (es_fs Hs), lookup_singleton_eq, bind_Ok. cbn [ef_root]. destruct (es_root Hs) as (ev & Hrt & _).
  destruct (es_incref _ _ _ _ _ _ _ _ _ Hs Hr Hrt) as (w' & -> & Hs' & Hd). rewrite bind_Ok. by exists w'.
Qed.
End world.
