(* ===== verification/EmuVfs.v ===== *)
(** * The VFS over devices and the emulator file system

    The world of Emu.v keeps the promises [VfsLaws]: its references are those
    to vnodes of devices, for which device.c keeps them (VfsDev.v), and those
    to vnodes of the emulator file system (EmuSpec.v).  So whatever is shown
    of the VFS over any world holds of the VFS over this one. *)
From stdpp Require Import base numbers list option gmap gmultiset.
From S2P Require Import Prelude Uio Vnode Vfs VfsSpec VfsDev VfsRefs Emu EmuSpec.
Local Open Scope Z_scope.

(** Multisets of references that are taken apart by whether they are to
    vnodes of devices. *)
Definition dev_tokens (T : gmultiset ref) : Prop := forall v f, (v, f) ∈ T -> f = None.
Definition fs_tokens (T : gmultiset ref) : Prop := forall v f, (v, f) ∈ T -> f <> None.

Lemma no_dev_token T v : fs_tokens T -> multiplicity (v, None) T = 0%nat.
Proof. intros Ht. apply not_elem_of_multiplicity. intros Hin. by apply (Ht v None Hin). Qed.

Lemma no_fs_token T v x : dev_tokens T -> multiplicity (v, Some x) T = 0%nat.
Proof. intros Ht. apply not_elem_of_multiplicity. intros Hin. by discriminate (Ht _ _ Hin). Qed.

(** The parts of a sub-multiset are parts. *)
Lemma split_sub (A B C D : gmultiset ref) : dev_tokens A -> fs_tokens B -> dev_tokens C -> fs_tokens D -> A ⊎ B ⊆ C ⊎ D -> A ⊆ C /\ B ⊆ D.
Proof.
  intros HA HB HC HD Hsub. split; intros [v f]; specialize (Hsub (v, f)); rewrite !multiplicity_disj_union in Hsub; destruct f as [x|].
  - rewrite (no_fs_token A) by done. lia.
  - rewrite (no_dev_token B), (no_dev_token D) in Hsub by done. lia.
  - rewrite (no_fs_token A), (no_fs_token C) in Hsub by done. lia.
  - rewrite (no_dev_token B) by done. lia.
Qed.

(** Taking a reference out of its part. *)
Lemma split_dev (T A B : gmultiset ref) v : fs_tokens B -> T ⊎ {[+ (v, None) +]} = A ⊎ B -> exists A', A = A' ⊎ {[+ (v, None) +]} /\ T = A' ⊎ B.
Proof.
  intros HB Heq. assert ((v, None) ∈ A) as Hin.
  { assert ((v, None) ∈ A ⊎ B) as Hin by (rewrite <-Heq; multiset_solver). apply gmultiset_elem_of_disj_union in Hin as [?|Hin]; [done|]. by destruct (HB v None Hin). }
  exists (A ∖ {[+ (v, None) +]}). split; multiset_solver.
Qed.

Lemma split_fs (T A B : gmultiset ref) v x : dev_tokens A -> T ⊎ {[+ (v, Some x) +]} = A ⊎ B -> exists B', B = B' ⊎ {[+ (v, Some x) +]} /\ T = A ⊎ B'.
Proof.
  intros HA Heq. assert ((v, Some x) ∈ B) as Hin.
  { assert ((v, Some x) ∈ A ⊎ B) as Hin by (rewrite <-Heq; multiset_solver). apply gmultiset_elem_of_disj_union in Hin as [Hin|?]; [|done]. by discriminate (HA _ _ Hin). }
  exists (B ∖ {[+ (v, Some x) +]}). split; multiset_solver.
Qed.

Lemma vnodes_union (A B : gmultiset ref) v : multiplicity v (vnodes (A ⊎ B)) = (multiplicity v (vnodes A) + multiplicity v (vnodes B))%nat.
Proof. unfold vnodes. by rewrite gmultiset_map_disj_union, multiplicity_disj_union. Qed.

Section laws.
Context {E : Type} {HW : EmuHw E} {HL : EmuLaws E} {H : Type} {devs : Z -> option (device H)}.
Abbreviation W := (emu_world E H devs).
Implicit Types (w : W) (T O : gmultiset ref) (F : gset Z).

(** Before the file system is set up, or after that has failed. *)
Definition no_emufs w : Prop := ew_fs w = ∅ /\ ew_vnodes w = ∅ /\ exists hs, idle false (ew_sc w) hs.

(** The part of the emulator file system. *)
Definition emu_part w T O F : Prop :=
  F = ∅ /\ T = ∅ /\ O = ∅ /\ no_emufs w \/ exists x root l, F = {[x]} /\ emu_state x root l ∅ w T O.

Record ew_parts w F (Td Od Te Oe : gmultiset ref) : Prop := {
  ep_dev : dw_refs (ew_dev w) Td Od ∅;
  ep_apart v f : (v, f) ∈ Td -> ew_vnodes w !! v = None;
  ep_emu : emu_part w Te Oe F;
  ep_size : Z.of_nat (size (Td ⊎ Te)) <= max_refs;
}.
Global Arguments ep_dev {w F Td Od Te Oe}.
Global Arguments ep_apart {w F Td Od Te Oe}.
Global Arguments ep_emu {w F Td Od Te Oe}.
Global Arguments ep_size {w F Td Od Te Oe}.

Definition ew_refs w T O F : Prop := exists Td Od Te Oe, T = Td ⊎ Te /\ O = Od ⊎ Oe /\ ew_parts w F Td Od Te Oe.

Lemma parts_tokens w F Td Od Te Oe : ew_parts w F Td Od Te Oe -> dev_tokens Td /\ dev_tokens Od /\ fs_tokens Te /\ fs_tokens Oe.
Proof.
  intros Hp. assert (dev_tokens Td) as Hd by (intros v f Hin; by apply (dw_counts (ep_dev Hp) v f)).
  assert (fs_tokens Te /\ Oe ⊆ Te) as [He Hoe].
  { destruct (ep_emu Hp) as [(_ & -> & -> & _)|(x & root & l & _ & Hs)]; [split; [intros v f Hin; multiset_solver|done]|]. split; [|apply Hs].
    intros v f Hin. by destruct (es_tokens Hs v f Hin) as [-> _]. }
  split; [done|]. split; [|split; [done|]].
  - intros v f Hin. apply (Hd v f). pose proof (dw_open (ep_dev Hp)). multiset_solver.
  - intros v f Hin. apply (He v f). multiset_solver.
Qed.

(** A reference to a vnode of a device. *)
Lemma parts_dev w F Td Od Te Oe v : ew_parts w F Td Od Te Oe -> (v, None) ∈ Td ⊎ Te -> (v, None) ∈ Td.
Proof. intros Hp [?|Hin]%gmultiset_elem_of_disj_union; [done|]. destruct (parts_tokens _ _ _ _ _ _ Hp) as (_ & _ & He & _). by destruct (He v None Hin). Qed.

(** A reference to a vnode of the file system. *)
Lemma parts_emu w F Td Od Te Oe v y : ew_parts w F Td Od Te Oe -> (v, Some y) ∈ Td ⊎ Te ->
  exists root l ev, F = {[y]} /\ emu_state y root l ∅ w Te Oe /\ ew_vnodes w !! v = Some ev.
Proof.
  intros Hp [Hin|Hin]%gmultiset_elem_of_disj_union; [by discriminate (proj1 (parts_tokens _ _ _ _ _ _ Hp) v _ Hin)|].
  destruct (ep_emu Hp) as [(_ & -> & _)|(x & root & l & -> & Hs)]; [multiset_solver|]. destruct (es_tokens Hs v _ Hin) as [[= ->] [ev Hv]]. by exists root, l, ev.
Qed.

Lemma es_dev x root l extra d w T O : emu_state x root l extra w T O -> emu_state x root l extra (set_dev d w) T O.
Proof. intros []. by split. Qed.

Lemma emu_part_dev d w T O F : emu_part w T O F -> emu_part (set_dev d w) T O F.
Proof. intros [(? & ? & ? & ?)|(x & root & l & ? & ?)]; [by left|right]. exists x, root, l. split; [done|]. by apply es_dev. Qed.

(** The part of the devices changes. *)
Lemma parts_set_dev w F Td Od Te Oe d Td' Od' : ew_parts w F Td Od Te Oe -> dw_refs d Td' Od' ∅ ->
  (forall v f, (v, f) ∈ Td' -> ew_vnodes w !! v = None) -> Z.of_nat (size (Td' ⊎ Te)) <= max_refs -> ew_parts (set_dev d w) F Td' Od' Te Oe.
Proof. intros Hp Hd Ha Hs. split; [done|done| |done]. by apply emu_part_dev, (ep_emu Hp). Qed.

(** The part of the file system changes. *)
Lemma parts_set_emu w w' x Td Od Te Oe root l Te' Oe' : ew_parts w {[x]} Td Od Te Oe -> dev_same w w' -> emu_state x root l ∅ w' Te' Oe' ->
  Z.of_nat (size (Td ⊎ Te')) <= max_refs -> ew_parts w' {[x]} Td Od Te' Oe'.
Proof.
  intros Hp [Hd Hnew] Hs Hsz. split; [rewrite Hd; apply Hp| |by right; exists x, root, l|done]. intros v f Hin. pose proof (ep_apart Hp v f Hin) as Hv.
  destruct (ew_vnodes w' !! v) eqn:Ev; [|done]. exfalso. destruct (Hnew v) as [[? ?]|Hno]; [by rewrite Ev|congruence|].
  destruct (dw_counts (ep_dev Hp) v f Hin) as (_ & _ & p & _ & Hl). congruence.
Qed.

(** ** Vnodes of devices *)

Lemma ew_store_dev w v vn : ew_vnodes w !! v = None -> ew_store v vn w = set_dev (vn_store v vn (ew_dev w)) w.
Proof. intros Hv. unfold ew_store. by rewrite Hv. Qed.

Lemma ew_lookup_dev w v : ew_vnodes w !! v = None -> ew_lookup v w = dw_vnodes (ew_dev w) !! v.
Proof. intros Hv. unfold ew_lookup. by rewrite Hv. Qed.

Lemma dispatch_dev {A} w v vn (a b c : res A) : ew_vnodes w !! v = None -> dw_vnodes (ew_dev w) !! v = Some vn -> vn_ops vn = Some dev_vnode_ops -> dispatch v w a b c = c.
Proof. intros Hv Hl Ho. unfold dispatch, ew_deref. by rewrite (ew_lookup_dev _ _ Hv), Hl, bind_Ok, Ho. Qed.

Lemma incref_dev w v : ew_vnodes w !! v = None -> vnode_incref v w = (d ← vnode_incref v (ew_dev w); Ok (set_dev d w)).
Proof.
  intros Hv. unfold vnode_incref, vn_deref. cbn [vn_lookup emu_vnodeops dev_vnodeops]. rewrite (ew_lookup_dev _ _ Hv).
  destruct (dw_vnodes (ew_dev w) !! v) as [vn|]; [|done]. rewrite !bind_Ok. destruct (vnode_incref_v vn); [|done..]. rewrite !bind_Ok.
  cbn [vn_store emu_vnodeops]. by rewrite (ew_store_dev _ _ _ Hv).
Qed.

Lemma incopen_dev w v : ew_vnodes w !! v = None -> vnode_incopen v w = (d ← vnode_incopen v (ew_dev w); Ok (set_dev d w)).
Proof.
  intros Hv. unfold vnode_incopen, vn_deref. cbn [vn_lookup emu_vnodeops dev_vnodeops]. rewrite (ew_lookup_dev _ _ Hv).
  destruct (dw_vnodes (ew_dev w) !! v) as [vn|]; [|done]. rewrite !bind_Ok. destruct (vnode_incopen_v vn); [|done..]. rewrite !bind_Ok.
  cbn [vn_store emu_vnodeops]. by rewrite (ew_store_dev _ _ _ Hv).
Qed.

Lemma decref_dev w v vn : ew_vnodes w !! v = None -> dw_vnodes (ew_dev w) !! v = Some vn -> vn_ops vn = Some dev_vnode_ops ->
  vnode_decref v w = (d ← vnode_decref v (ew_dev w); Ok (set_dev d w)).
Proof.
  intros Hv Hl Ho. unfold vnode_decref, vn_deref. cbn [vn_lookup emu_vnodeops dev_vnodeops]. rewrite (ew_lookup_dev _ _ Hv), Hl, !bind_Ok.
  destruct (vn_countlock vn); [|done]. cbn [assert]. rewrite !bind_Ok. destruct (vn_refcount vn >? 0); [|done]. cbn [assert]. rewrite !bind_Ok.
  destruct (vn_refcount vn >? 1); [cbn [vn_store emu_vnodeops]; by rewrite (ew_store_dev _ _ _ Hv)|]. destruct (vnode_check true vn); [|done..]. rewrite !bind_Ok.
  cbn [vop_reclaim emu_vnodeops]. by rewrite (dispatch_dev w v vn).
Qed.

Lemma decopen_dev w v vn : ew_vnodes w !! v = None -> dw_vnodes (ew_dev w) !! v = Some vn -> vn_ops vn = Some dev_vnode_ops ->
  vnode_decopen v w = (d ← vnode_decopen v (ew_dev w); Ok (set_dev d w)).
Proof.
  intros Hv Hl Ho. unfold vnode_decopen, vn_deref. cbn [vn_lookup emu_vnodeops dev_vnodeops]. rewrite (ew_lookup_dev _ _ Hv), Hl, !bind_Ok.
  destruct (vn_countlock vn); [|done]. cbn [assert]. rewrite !bind_Ok. destruct (vn_opencount vn >? 0); [|done]. cbn [assert]. rewrite !bind_Ok.
  cbv zeta. cbn [vn_store emu_vnodeops]. rewrite (ew_store_dev _ _ _ Hv). destruct (vn_opencount vn - 1 >? 0); [done|]. destruct (vnode_check false _); [|done..]. rewrite !bind_Ok.
  cbn [vop_close emu_vnodeops]. rewrite (dispatch_dev _ v (set_opencount (vn_opencount vn - 1) vn)); [|done|cbn; by rewrite lookup_insert_eq|done].
  unfold on_dev. cbn [ew_dev set_dev]. cbn [vop_close dev_vnodeops]. destruct (dev_close v _) as [[e d]| | |]; [|done..]. by rewrite !bind_Ok.
Qed.

(** A vnode of a device has the table of devices. *)
Lemma parts_dev_vnode w F Td Od Te Oe v : ew_parts w F Td Od Te Oe -> (v, None) ∈ Td ->
  ew_vnodes w !! v = None /\ exists vn, dw_vnodes (ew_dev w) !! v = Some vn /\ vn_ops vn = Some dev_vnode_ops.
Proof.
  intros Hp Hin. split; [by eapply (ep_apart Hp)|]. destruct (dw_counts (ep_dev Hp) v None Hin) as (_ & _ & p & _ & Hl). by eexists.
Qed.

(** An operation on a device leaves the references alone. *)
Lemma parts_on_dev {A} w F Td Od Te Oe (op : dev_world H devs -> res (A * dev_world H devs)) : ew_parts w F Td Od Te Oe ->
  ok_with (op (ew_dev w)) (fun '(_, d) => dw_refs d Td Od ∅) -> ok_with (on_dev op w) (fun '(_, w') => ew_refs w' (Td ⊎ Te) (Od ⊎ Oe) F).
Proof.
  intros Hp ([a d] & Eo & Hd). unfold on_dev. rewrite Eo, bind_Ok. eexists. split; [done|]. exists Td, Od, Te, Oe. split; [done|]. split; [done|].
  eapply parts_set_dev; [done|done|apply Hp|apply Hp].
Qed.

(** ** The laws *)

Definition ew_own w : gset Z := list_to_set (omap (fun xe => ef_root (snd xe)) (map_to_list (ew_fs w))).

Lemma own_none w : ew_fs w = ∅ -> ew_own w = ∅.
Proof. intros Ef. unfold ew_own. by rewrite Ef, map_to_list_empty. Qed.

Lemma own_root x root l extra w T O : emu_state x root l extra w T O -> ew_own w = {[root]}.
Proof. intros Hs. unfold ew_own. rewrite (es_fs Hs), map_to_list_singleton. cbn. set_solver. Qed.

Lemma ew_refs_own w T O F : ew_refs w T O F -> (size (ew_own w) <= size F)%nat.
Proof.
  intros (Td & Od & Te & Oe & _ & _ & Hp). destruct (ep_emu Hp) as [(-> & _ & _ & Hno & _)|(x & root & l & -> & Hs)].
  - by rewrite (own_none _ Hno).
  - by rewrite (own_root _ _ _ _ _ _ _ Hs), !size_singleton.
Qed.

(** Vnodes of the two kinds are apart. *)
Lemma emu_not_dev w F Td Od Te Oe v ev : ew_parts w F Td Od Te Oe -> ew_vnodes w !! v = Some ev -> multiplicity v (vnodes Td) = 0%nat /\ multiplicity v (vnodes Od) = 0%nat.
Proof.
  intros Hp Hv. assert (multiplicity v (vnodes Td) = 0%nat) as HT.
  { apply not_elem_of_multiplicity. intros [f Hf]%elem_of_vnodes. pose proof (ep_apart Hp v f Hf). congruence. }
  split; [done|]. pose proof (vnodes_mono _ _ (dw_open (ep_dev Hp)) v). lia.
Qed.

Lemma dev_not_emu w F Td Od Te Oe v : ew_parts w F Td Od Te Oe -> ew_vnodes w !! v = None ->
  multiplicity v (vnodes Te) = 0%nat /\ multiplicity v (vnodes Oe) = 0%nat /\ v ∉ ew_own w.
Proof.
  intros Hp Hv. destruct (ep_emu Hp) as [(_ & -> & -> & Hno & _)|(x & root & l & -> & Hs)].
  - unfold vnodes. rewrite gmultiset_map_empty, multiplicity_empty, (own_none _ Hno). set_solver.
  - rewrite (own_root _ _ _ _ _ _ _ Hs). destruct (not_in_vnodes _ _ _ _ _ _ _ _ Hs Hv) as (? & ? & ?). set_solver.
Qed.

Lemma ew_refs_vnode w T O F v f : ew_refs w T O F -> (v, f) ∈ T -> v <> 0 /\
  exists vn, ew_lookup v w = Some vn /\ vnode_check false vn = Ok tt /\ vn_fs vn = f /\ (forall x, f = Some x -> x ∈ F) /\
    vn_refcount vn = Z.of_nat (multiplicity v (vnodes T) + if decide (v ∈ ew_own w) then 1 else 0) /\ vn_opencount vn = Z.of_nat (multiplicity v (vnodes O)).
Proof.
  intros (Td & Od & Te & Oe & -> & -> & Hp) Hv. rewrite !vnodes_union. destruct f as [y|].
  - destruct (parts_emu _ _ _ _ _ _ _ _ Hp Hv) as (root & l & ev & -> & Hs & Hev). destruct (ev_known _ _ _ _ _ _ _ _ _ Hs Hev) as (El & _).
    destruct (emu_not_dev _ _ _ _ _ _ _ _ Hp Hev) as [-> ->]. destruct (es_vnode Hs v ev Hev) as (Hv0 & Ev & _). split; [done|]. exists (ev_v ev). split; [done|].
    split; [by eapply es_check|]. rewrite (own_root _ _ _ _ _ _ _ Hs), Ev. cbn [ev_vnode vn_fs vn_refcount vn_opencount]. split; [done|]. split; [intros x [= ->]; set_solver|].
    split; [|done]. f_equal. cbn [Nat.add]. f_equal. unfold rootref. do 2 case_decide; set_solver.
  - pose proof (parts_dev _ _ _ _ _ _ _ Hp Hv) as Hin. destruct (parts_dev_vnode _ _ _ _ _ _ _ Hp Hin) as [Hn _]. destruct (dev_not_emu _ _ _ _ _ _ _ Hp Hn) as (-> & -> & Hno).
    destruct (dw_refs_vnode _ _ _ _ _ _ (ep_dev Hp) Hin) as (Hv0 & vn & El & Hc & Hfs & _ & Hr & Ho). split; [done|]. exists vn. rewrite (ew_lookup_dev _ _ Hn).
    split; [exact El|]. split; [done|]. split; [done|]. split; [done|]. rewrite Hr, Ho, decide_False by set_solver. rewrite decide_False by done. by rewrite !Nat.add_0_r.
Qed.

Lemma room_parts (A B : gmultiset ref) : room (A ⊎ B) -> room A /\ room B.
Proof. unfold room. rewrite gmultiset_size_disj_union. lia. Qed.

Lemma room_add (A : gmultiset ref) t : room A -> Z.of_nat (size (A ⊎ {[+ t +]})) <= max_refs.
Proof. unfold room. rewrite gmultiset_size_disj_union, gmultiset_size_singleton. lia. Qed.

(** The references after one more to a vnode of each kind. *)
Lemma ew_add_emu w w' x Td Od Te Oe root l v : ew_parts w {[x]} Td Od Te Oe -> room (Td ⊎ Te) -> dev_same w w' ->
  emu_state x root l ∅ w' (Te ⊎ {[+ (v, Some x) +]}) Oe -> ew_refs w' (Td ⊎ Te ⊎ {[+ (v, Some x) +]}) (Od ⊎ Oe) {[x]}.
Proof.
  intros Hp Hr Hd Hs. exists Td, Od, (Te ⊎ {[+ (v, Some x) +]}), Oe. split; [multiset_solver|]. split; [done|].
  eapply parts_set_emu; [done|done|done|]. rewrite gmultiset_disj_union_assoc. by apply room_add.
Qed.

Lemma ew_same_emu w w' x Td Od Te Oe root l : ew_parts w {[x]} Td Od Te Oe -> dev_same w w' -> emu_state x root l ∅ w' Te Oe -> ew_refs w' (Td ⊎ Te) (Od ⊎ Oe) {[x]}.
Proof. intros Hp Hd Hs. exists Td, Od, Te, Oe. split; [done|]. split; [done|]. eapply parts_set_emu; [done|done|done|apply Hp]. Qed.

Lemma ew_refs_incref w T O F v f : ew_refs w T O F -> room T -> (v, f) ∈ T -> ok_with (vnode_incref v w) (fun w' => ew_refs w' (T ⊎ {[+ (v, f) +]}) O F).
Proof.
  intros (Td & Od & Te & Oe & -> & -> & Hp) Hr Hv. destruct (room_parts _ _ Hr) as [Hrd Hre]. destruct f as [y|].
  - destruct (parts_emu _ _ _ _ _ _ _ _ Hp Hv) as (root & l & ev & -> & Hs & Hev). destruct (es_incref _ _ _ _ _ _ _ _ _ Hs Hre Hev) as (w' & E' & Hs' & Hd).
    exists w'. split; [done|]. by eapply ew_add_emu.
  - pose proof (parts_dev _ _ _ _ _ _ _ Hp Hv) as Hin. destruct (parts_dev_vnode _ _ _ _ _ _ _ Hp Hin) as [Hn _]. rewrite (incref_dev _ _ Hn).
    destruct (dw_refs_incref _ _ _ _ _ _ (ep_dev Hp) Hrd Hin) as (d & -> & Hd). rewrite bind_Ok. eexists. split; [done|].
    exists (Td ⊎ {[+ (v, None) +]}), Od, Te, Oe. split; [multiset_solver|]. split; [done|]. eapply parts_set_dev; [done|done| |].
    + intros y f Hy. destruct (in_add _ _ _ _ Hy) as [[= -> ->]|?]; [done|by eapply (ep_apart Hp)].
    + replace (Td ⊎ {[+ (v, None) +]} ⊎ Te) with (Td ⊎ Te ⊎ {[+ (v, None) +]}) by multiset_solver. by apply room_add.
Qed.

Lemma size_less (A B : gmultiset ref) t : Z.of_nat (size (A ⊎ {[+ t +]} ⊎ B)) <= max_refs -> Z.of_nat (size (A ⊎ B)) <= max_refs.
Proof. rewrite !gmultiset_size_disj_union. lia. Qed.

Lemma ew_refs_decref w T O F v f : ew_refs w (T ⊎ {[+ (v, f) +]}) O F -> O ⊆ T -> ok_with (vnode_decref v w) (fun w' => ew_refs w' T O F).
Proof.
  intros (Td & Od & Te & Oe & ET & -> & Hp) Ho. destruct (parts_tokens _ _ _ _ _ _ Hp) as (HTd & HOd & HTe & HOe). destruct f as [y|].
  - destruct (split_fs _ _ _ _ _ HTd ET) as (Te' & -> & ->). assert (fs_tokens Te') as HTe' by (intros a b Hin; apply (HTe a b); multiset_solver).
    destruct (split_sub _ _ _ _ HOd HOe HTd HTe' Ho) as [_ Ho']. destruct (parts_emu _ _ _ _ _ _ v y Hp) as (root & l & ev & -> & Hs & Hev); [multiset_solver|].
    destruct (es_decref _ _ _ _ _ _ _ Hs Ho') as (w' & E' & l' & Hs' & Hd). exists w'. split; [done|]. exists Td, Od, Te', Oe. split; [done|]. split; [done|].
    eapply parts_set_emu; [done|done|done|]. pose proof (ep_size Hp) as Hsz. rewrite !gmultiset_size_disj_union in *. lia.
  - destruct (split_dev _ _ _ _ HTe ET) as (Td' & -> & ->). assert (dev_tokens Td') as HTd' by (intros a b Hin; apply (HTd a b); multiset_solver).
    destruct (split_sub _ _ _ _ HOd HOe HTd' HTe Ho) as [Ho' _]. destruct (parts_dev_vnode _ _ _ _ _ _ v Hp) as (Hn & vn & Hl & Hops); [multiset_solver|].
    rewrite (decref_dev _ _ _ Hn Hl Hops). destruct (dw_refs_decref _ _ _ _ _ _ (ep_dev Hp) Ho') as (d & -> & Hd). rewrite bind_Ok. eexists. split; [done|].
    exists Td', Od, Te, Oe. split; [done|]. split; [done|]. eapply parts_set_dev; [done|done| |by eapply size_less, (ep_size Hp)].
    intros a b Hin. apply (ep_apart Hp a b). multiset_solver.
Qed.

Lemma ew_refs_incopen w T O F v f : ew_refs w T O F -> O ⊎ {[+ (v, f) +]} ⊆ T -> ok_with (vnode_incopen v w) (fun w' => ew_refs w' T (O ⊎ {[+ (v, f) +]}) F).
Proof.
  intros (Td & Od & Te & Oe & -> & -> & Hp) Ho. destruct (parts_tokens _ _ _ _ _ _ Hp) as (HTd & HOd & HTe & HOe).
  assert ((v, f) ∈ Td ⊎ Te) as Hv by multiset_solver. destruct f as [y|].
  - destruct (parts_emu _ _ _ _ _ _ _ _ Hp Hv) as (root & l & ev & -> & Hs & Hev).
    assert (fs_tokens (Oe ⊎ {[+ (v, Some y) +]})) as HOe' by (intros a b Hin; destruct (in_add _ _ _ _ Hin) as [[= -> ->]|?]; [done|by apply (HOe a b)]).
    rewrite <-gmultiset_disj_union_assoc in Ho. destruct (split_sub _ _ _ _ HOd HOe' HTd HTe Ho) as [_ Ho'].
    destruct (es_incopen _ _ _ _ _ _ _ Hs Ho') as (w' & E' & Hs' & Hd). exists w'. split; [done|]. exists Td, Od, Te, (Oe ⊎ {[+ (v, Some y) +]}).
    split; [done|]. split; [multiset_solver|]. eapply parts_set_emu; [done|done|done|apply Hp].
  - pose proof (parts_dev _ _ _ _ _ _ _ Hp Hv) as Hin. destruct (parts_dev_vnode _ _ _ _ _ _ _ Hp Hin) as [Hn _].
    assert (dev_tokens (Od ⊎ {[+ (v, None) +]})) as HOd' by (intros a b Hi; destruct (in_add _ _ _ _ Hi) as [[= -> ->]|?]; [done|by apply (HOd a b)]).
    replace (Od ⊎ Oe ⊎ {[+ (v, None) +]}) with (Od ⊎ {[+ (v, None) +]} ⊎ Oe) in * by multiset_solver. destruct (split_sub _ _ _ _ HOd' HOe HTd HTe Ho) as [Ho' _].
    rewrite (incopen_dev _ _ Hn). destruct (dw_refs_incopen _ _ _ _ _ _ (ep_dev Hp) Ho') as (d & -> & Hd). rewrite bind_Ok. eexists. split; [done|].
    exists Td, (Od ⊎ {[+ (v, None) +]}), Te, Oe. split; [done|]. split; [done|]. eapply parts_set_dev; [done|done|apply Hp|apply Hp].
Qed.

Lemma ew_refs_decopen w T O F v f : ew_refs w T (O ⊎ {[+ (v, f) +]}) F -> ok_with (vnode_decopen v w) (fun w' => ew_refs w' T O F).
Proof.
  intros (Td & Od & Te & Oe & -> & EO & Hp). destruct (parts_tokens _ _ _ _ _ _ Hp) as (HTd & HOd & HTe & HOe). destruct f as [y|].
  - destruct (split_fs _ _ _ _ _ HOd EO) as (Oe' & -> & ->). destruct (parts_emu _ _ _ _ _ _ v y Hp) as (root & l & ev & -> & Hs & Hev).
    { destruct (ep_emu Hp) as [(_ & -> & ? & _)|(x & root & l & _ & Hs)]; [multiset_solver|]. pose proof (es_open Hs). multiset_solver. }
    destruct (es_decopen _ _ _ _ _ _ _ Hs) as (w' & E' & Hs' & Hd). exists w'. split; [done|]. exists Td, Od, Te, Oe'. split; [done|]. split; [done|].
    eapply parts_set_emu; [done|done|done|apply Hp].
  - destruct (split_dev _ _ _ _ HOe EO) as (Od' & -> & ->). destruct (parts_dev_vnode _ _ _ _ _ _ v Hp) as (Hn & vn & Hl & Hops); [pose proof (dw_open (ep_dev Hp)); multiset_solver|].
    rewrite (decopen_dev _ _ _ Hn Hl Hops). destruct (dw_refs_decopen _ _ _ _ _ _ (ep_dev Hp)) as (d & -> & Hd). rewrite bind_Ok. eexists. split; [done|].
    exists Td, Od', Te, Oe. split; [done|]. split; [done|]. eapply parts_set_dev; [done|done|apply Hp|apply Hp].
Qed.

(** A vnode at an address where there is none is one of a device. *)
Lemma ew_lookup_none w p : ew_lookup p w = None -> ew_vnodes w !! p = None /\ vn_lookup p (ew_dev w) = None.
Proof. unfold ew_lookup. by destruct (ew_vnodes w !! p). Qed.

Lemma ew_refs_device w T O F p dev : ew_refs w T O F -> room T -> dw_known (devs := devs) dev -> p <> 0 -> ew_lookup p w = None ->
  ew_refs (ew_store p (mk_vnode 1 0 true None (Some dev) (Some dev_vnode_ops)) w) (T ⊎ {[+ (p, None) +]}) O F.
Proof.
  intros (Td & Od & Te & Oe & -> & -> & Hp) Hr Hdev Hp0 [Hn Hl]%ew_lookup_none. rewrite (ew_store_dev _ _ _ Hn). destruct (room_parts _ _ Hr) as [Hrd _].
  exists (Td ⊎ {[+ (p, None) +]}), Od, Te, Oe. split; [multiset_solver|]. split; [done|].
  eapply parts_set_dev; [done|exact (dw_refs_device _ _ _ _ _ _ (ep_dev Hp) Hrd Hdev Hp0 Hl)| |].
  - intros y f Hy. destruct (in_add _ _ _ _ Hy) as [[= -> ->]|?]; [done|by eapply (ep_apart Hp)].
  - replace (Td ⊎ {[+ (p, None) +]} ⊎ Te) with (Td ⊎ Te ⊎ {[+ (p, None) +]}) by multiset_solver. by apply room_add.
Qed.

Lemma ew_refs_nodevice w T O F p : ew_refs w T O F -> p <> 0 -> ew_lookup p w = None ->
  ew_refs (ew_store p (mk_vnode 1 0 true None None (Some dev_vnode_ops)) w) T O F.
Proof.
  intros (Td & Od & Te & Oe & -> & -> & Hp) Hp0 [Hn Hl]%ew_lookup_none. rewrite (ew_store_dev _ _ _ Hn). exists Td, Od, Te, Oe. split; [done|]. split; [done|].
  eapply parts_set_dev; [done|exact (dw_refs_nodevice _ _ _ _ _ (ep_dev Hp) Hp0 Hl)|apply Hp|apply Hp].
Qed.

Lemma ew_refs_unused w T O F p vn : ew_refs w T O F -> ew_lookup p w = None -> ew_refs (ew_free p (ew_store p vn w)) T O F.
Proof.
  intros (Td & Od & Te & Oe & -> & -> & Hp) [Hn Hl]%ew_lookup_none. rewrite (ew_store_dev _ _ _ Hn). unfold ew_free. cbn [ew_vnodes set_dev ew_dev].
  rewrite delete_id by done. change (set_evs (ew_vnodes w) (set_dev ?d (set_dev _ w))) with (set_dev d w).
  exists Td, Od, Te, Oe. split; [done|]. split; [done|]. eapply parts_set_dev; [done|exact (dw_refs_unused _ _ _ _ _ _ (ep_dev Hp) Hl)|apply Hp|apply Hp].
Qed.

(** File systems. *)
Lemma ew_fs_case w T O F x : ew_refs w T O F -> x ∈ F -> exists Td Od Te Oe root l, T = Td ⊎ Te /\ O = Od ⊎ Oe /\ ew_parts w F Td Od Te Oe /\ F = {[x]} /\
  emu_state x root l ∅ w Te Oe /\ fs_deref x w = Ok (mk_ef (Some root) l).
Proof.
  intros (Td & Od & Te & Oe & -> & -> & Hp) Hx. destruct (ep_emu Hp) as [(-> & _)|(y & root & l & -> & Hs)]; [set_solver|]. apply elem_of_singleton in Hx as ->.
  exists Td, Od, Te, Oe, root, l. do 5 (split; [done|]). unfold fs_deref. by rewrite (es_fs Hs), lookup_singleton_eq.
Qed.

Lemma ew_refs_getroot w T O F x : ew_refs w T O F -> room T -> x ∈ F ->
  ok_with (fs_dispatch x w (emufs_getroot x w)) (fun '(v, w') => exists f, ew_refs w' (T ⊎ {[+ (v, f) +]}) O F).
Proof.
  intros Hr Hroom Hx. destruct (ew_fs_case _ _ _ _ _ Hr Hx) as (Td & Od & Te & Oe & root & l & -> & -> & Hp & -> & Hs & Ed).
  unfold fs_dispatch. rewrite Ed, bind_Ok. destruct (room_parts _ _ Hroom) as [_ Hre]. destruct (es_getroot _ _ _ _ _ _ Hs Hre) as (w' & -> & Hd & Hs').
  eexists. split; [done|]. exists (Some x). by eapply ew_add_emu.
Qed.

(** An operation through the table of a vnode that leaves the references
    alone. *)
Lemma ew_vop {A} w T O F v f (file dir : res (A * W)) (op : dev_world H devs -> res (A * dev_world H devs)) : ew_refs w T O F -> (v, f) ∈ T ->
  (forall x root l ev Te Oe, emu_state x root l ∅ w Te Oe -> ew_vnodes w !! v = Some ev -> ok_with file (fun '(_, w') => emu_state x root l ∅ w' Te Oe /\ dev_same w w')) ->
  (forall x root l ev Te Oe, emu_state x root l ∅ w Te Oe -> ew_vnodes w !! v = Some ev -> ok_with dir (fun '(_, w') => emu_state x root l ∅ w' Te Oe /\ dev_same w w')) ->
  (forall Td Od, dw_refs (ew_dev w) Td Od ∅ -> (v, None) ∈ Td -> ok_with (op (ew_dev w)) (fun '(_, d) => dw_refs d Td Od ∅)) ->
  ok_with (dispatch v w file dir (on_dev op w)) (fun '(_, w') => ew_refs w' T O F).
Proof.
  intros (Td & Od & Te & Oe & -> & -> & Hp) Hv Hfile Hdir Hdev. destruct f as [y|].
  - destruct (parts_emu _ _ _ _ _ _ _ _ Hp Hv) as (root & l & ev & -> & Hs & Hev). rewrite (es_dispatch _ _ _ _ _ _ _ _ _ _ _ _ Hs Hev). destruct (file_at _ _).
    + destruct (Hfile _ _ _ _ _ _ Hs Hev) as ([a w'] & -> & Hs' & Hd). eexists. split; [done|]. by eapply ew_same_emu.
    + destruct (Hdir _ _ _ _ _ _ Hs Hev) as ([a w'] & -> & Hs' & Hd). eexists. split; [done|]. by eapply ew_same_emu.
  - pose proof (parts_dev _ _ _ _ _ _ _ Hp Hv) as Hin. destruct (parts_dev_vnode _ _ _ _ _ _ _ Hp Hin) as (Hn & vn & Hl & Hops).
    rewrite (dispatch_dev _ _ _ _ _ _ Hn Hl Hops). eapply parts_on_dev; [done|]. apply Hdev; [apply Hp|done].
Qed.

Lemma es_nothing {A} x root l w Te Oe (a : A) : emu_state x root l ∅ w Te Oe -> ok_with (Ok (a, w)) (fun '(_, w') => emu_state x root l ∅ w' Te Oe /\ dev_same w w').
Proof. intros Hs. eexists. split; [done|]. split; [done|apply dev_same_refl]. Qed.

Lemma dw_nothing {A} (d : dev_world H devs) Td Od (a : A) : dw_refs d Td Od ∅ -> ok_with (Ok (a, d)) (fun '(_, d') => dw_refs d' Td Od ∅).
Proof. intros Hd. by eexists. Qed.

(** An operation through the table that hands back a vnode; [view] is what
    matters of its result. *)
Definition handed_back T O F (r : Z * Z * W) : Prop :=
  let '(e, v, w') := r in if e =? 0 then exists f, ew_refs w' (T ⊎ {[+ (v, f) +]}) O F else ew_refs w' T O F.

Lemma ew_vop_gives {R} (view : R -> Z * Z * W) w T O F v f (notdir : R) (dir dev : res R) : ew_refs w T O F -> room T -> (v, f) ∈ T -> view notdir = (ENOTDIR, 0, w) ->
  (forall x root l ev Te Oe, emu_state x root l ∅ w Te Oe -> room Te -> ew_vnodes w !! v = Some ev ->
    ok_with dir (fun r => let '(e, v', w') := view r in es_gives x root w Te Oe e v' w')) ->
  (forall Td Od, dw_refs (ew_dev w) Td Od ∅ -> room Td -> (v, None) ∈ Td -> ok_with dev (fun r => exists e d, view r = (e, v, set_dev d w) /\
    dw_refs d (Td ⊎ {[+ (v, None) +]}) Od ∅ /\ e = 0 \/ exists v', view r = (e, v', w) /\ e <> 0)) ->
  ok_with (dispatch v w (Ok notdir) dir dev) (fun r => handed_back T O F (view r)).
Proof.
  intros Hrefs Hr Hv Hnot Hdir Hdev. pose proof Hrefs as (Td & Od & Te & Oe & -> & -> & Hp). destruct (room_parts _ _ Hr) as [Hrd Hre]. destruct f as [y|].
  - destruct (parts_emu _ _ _ _ _ _ _ _ Hp Hv) as (root & l & ev & -> & Hs & Hev). rewrite (es_dispatch _ _ _ _ _ _ _ _ _ _ _ _ Hs Hev). destruct (file_at _ _).
    + eexists. split; [done|]. rewrite Hnot. exact Hrefs.
    + destruct (Hdir _ _ _ _ _ _ Hs Hre Hev) as (r & -> & Hg). exists r. split; [done|]. destruct (view r) as [[e v'] w']. destruct Hg as (Hd & l' & Hg). cbn. destruct (e =? 0).
      * exists (Some y). by eapply ew_add_emu.
      * by eapply ew_same_emu.
  - pose proof (parts_dev _ _ _ _ _ _ _ Hp Hv) as Hin. destruct (parts_dev_vnode _ _ _ _ _ _ _ Hp Hin) as (Hn & vn & Hl & Hops).
    rewrite (dispatch_dev _ _ _ _ _ _ Hn Hl Hops). destruct (Hdev _ _ (ep_dev Hp) Hrd Hin) as (r & -> & e & d & [(Ev & Hd & ->)|(v' & Ev & He)]); exists r; (split; [done|]); rewrite Ev; cbn.
    + exists None, (Td ⊎ {[+ (v, None) +]}), Od, Te, Oe. split; [multiset_solver|]. split; [done|]. eapply parts_set_dev; [done|done| |].
      * intros a' f Hy. destruct (in_add _ _ _ _ Hy) as [[= -> ->]|?]; [done|by eapply (ep_apart Hp)].
      * replace (Td ⊎ {[+ (v, None) +]} ⊎ Te) with (Td ⊎ Te ⊎ {[+ (v, None) +]}) by multiset_solver. by apply room_add.
    + destruct (Z.eqb_spec e 0); [done|]. exact Hrefs.
Qed.

Lemma ew_refs_lookup w T O F v f path : ew_refs w T O F -> room T -> (v, f) ∈ T ->
  ok_with (dispatch v w (Ok (ENOTDIR, 0, w)) (emufs_lookup v path w) (on_dev (dev_lookup v path) w)) (handed_back T O F).
Proof.
  intros Hr Hroom Hv. eapply (ew_vop_gives (fun r => r)); [exact Hr|done|done|done| |].
  - intros x root l ev Te Oe Hs Hre Hev. destruct (es_open_and_load x root l w Te Oe v ev path false false Hs Hre Hev) as (e & v' & w' & Eo & Hg). by eexists.
  - intros Td Od Hd Hrd Hin. unfold on_dev, dev_lookup. destruct (_ >? 0).
    + rewrite bind_Ok. eexists. split; [done|]. exists ENOENT, (ew_dev w). right. exists 0. split; [|done]. by destruct w.
    + destruct (dw_refs_incref _ _ _ _ _ _ Hd Hrd Hin) as (d & -> & Hd'). rewrite !bind_Ok. eexists. split; [done|]. exists 0, d. by left.
Qed.

Lemma ew_refs_creat w T O F v f name excl : ew_refs w T O F -> room T -> (v, f) ∈ T ->
  ok_with (dispatch v w (Ok (ENOTDIR, 0, w)) (emufs_creat v name excl w) (on_dev (null_creat v name excl) w)) (handed_back T O F).
Proof.
  intros Hr Hroom Hv. eapply (ew_vop_gives (fun r => r)); [exact Hr|done|done|done| |].
  - intros x root l ev Te Oe Hs Hre Hev. destruct (es_open_and_load x root l w Te Oe v ev name true excl Hs Hre Hev) as (e & v' & w' & Eo & Hg). by eexists.
  - intros Td Od Hd Hrd Hin. unfold on_dev, null_creat. rewrite bind_Ok. eexists. split; [done|]. exists ENOTDIR, (ew_dev w). right. exists 0. split; [|done]. by destruct w.
Qed.

Lemma ew_refs_lookparent w T O F v f path len : ew_refs w T O F -> room T -> (v, f) ∈ T ->
  ok_with (dispatch v w (Ok (ENOTDIR, 0, [], w)) (emufs_lookparent v path len w) (on_dev (dev_lookparent v path len) w))
    (fun r => handed_back T O F (let '(e, v', _, w') := r in (e, v', w'))).
Proof.
  intros Hr Hroom Hv. eapply (ew_vop_gives (fun r => let '(e, v', _, w') := r in (e, v', w'))); [exact Hr|done|done|done| |].
  - intros x root l ev Te Oe Hs Hre Hev. destruct (es_lookparent x root l w Te Oe v ev path len Hs Hre Hev) as (e & v' & nm & w' & Eo & Hg). by eexists.
  - intros Td Od Hd Hrd Hin. unfold on_dev, dev_lookparent. rewrite bind_Ok. eexists. split; [done|]. exists ENOTDIR, (ew_dev w). right. exists 0. split; [|done]. by destruct w.
Qed.

Lemma ew_refs_gettype w T O F v f : ew_refs w T O F -> room T -> (v, f) ∈ T ->
  ok_with (dispatch v w (emufs_file_gettype v w) (emufs_dir_gettype v w) (dev_gettype v (ew_dev w))) (fun '(e, t) => e = 0 -> S_ISDIR t = true -> f <> None).
Proof.
  intros (Td & Od & Te & Oe & -> & -> & Hp) Hroom Hv. destruct f as [y|].
  - destruct (parts_emu _ _ _ _ _ _ _ _ Hp Hv) as (root & l & ev & -> & Hs & Hev). rewrite (es_dispatch _ _ _ _ _ _ _ _ _ _ _ _ Hs Hev). destruct (file_at _ _); by eexists.
  - pose proof (parts_dev _ _ _ _ _ _ _ Hp Hv) as Hin. destruct (parts_dev_vnode _ _ _ _ _ _ _ Hp Hin) as (Hn & vn & Hl & Hops).
    rewrite (dispatch_dev _ _ _ _ _ _ Hn Hl Hops). apply (dw_refs_gettype _ _ _ _ _ _ (ep_dev Hp)); [|done]. by apply room_parts in Hroom as [? _].
Qed.

Lemma ew_refs_open w T O F v f fl : ew_refs w T O F -> room T -> (v, f) ∈ T ->
  ok_with (dispatch v w (emufs_open v fl w) (emufs_opendir v fl w) (on_dev (dev_open v fl) w)) (fun '(_, w') => ew_refs w' T O F).
Proof.
  intros Hr Hroom Hv. pose proof Hr as (Td0 & Od0 & Te0 & Oe0 & -> & -> & _). eapply ew_vop; [exact Hr|exact Hv| | |].
  - intros. unfold emufs_open. destruct (negb _); by apply es_nothing.
  - intros. unfold emufs_opendir. destruct (negb _); [by apply es_nothing|]. destruct (negb _); by apply es_nothing.
  - intros Td Od Hd Hin. destruct (dw_device _ _ _ _ _ _ Hd Hin) as (d & Ed & Ho & _). unfold dev_open. rewrite Ed, bind_Ok.
    destruct (negb _); [by eexists|]. destruct (Ho fl (dw_hw (ew_dev w))) as ([e h] & -> & _). rewrite bind_Ok. eexists. split; [done|]. by apply dw_refs_hw.
Qed.

Lemma ew_refs_truncate w T O F v f n : ew_refs w T O F -> room T -> (v, f) ∈ T ->
  ok_with (dispatch v w (emufs_truncate v n w) (Ok (EISDIR, w)) (on_dev (dev_truncate v n) w)) (fun '(_, w') => ew_refs w' T O F).
Proof.
  intros Hr Hroom Hv. eapply ew_vop; [exact Hr|exact Hv| | |].
  - intros. by eapply es_truncate.
  - intros. by apply es_nothing.
  - intros Td Od Hd Hin. destruct (dw_device _ _ _ _ _ _ Hd Hin) as (d & Ed & _). unfold dev_truncate. rewrite Ed, bind_Ok. destruct (_ && _); by eexists.
Qed.

(** The file system keeps the promises. *)
Global Instance emu_vfslaws : VfsLaws W.
Proof.
  refine {| refs := ew_refs; own := ew_own; refs_own := ew_refs_own; refs_vnode := ew_refs_vnode; refs_incref := ew_refs_incref; refs_decref := ew_refs_decref;
            refs_incopen := ew_refs_incopen; refs_decopen := ew_refs_decopen; dev_known := dw_known (devs := devs); refs_device := ew_refs_device;
            refs_nodevice := ew_refs_nodevice; refs_unused := ew_refs_unused; refs_getroot := ew_refs_getroot; refs_gettype := ew_refs_gettype;
            refs_open := ew_refs_open; refs_truncate := ew_refs_truncate; refs_creat := ew_refs_creat; refs_lookup := ew_refs_lookup |}.
  - intros w p. cbn. unfold ew_lookup, ew_free. cbn. by rewrite !lookup_delete_eq.
  - intros w T O F x Hr Hx. destruct (ew_fs_case _ _ _ _ _ Hr Hx) as (? & ? & ? & ? & ? & ? & _ & _ & _ & _ & Hs & _). exact (es_addr Hs).
  - intros w T O F x Hr Hx. destruct (ew_fs_case _ _ _ _ _ Hr Hx) as (? & ? & ? & ? & ? & ? & _ & _ & _ & _ & _ & Ed). cbn. unfold fs_dispatch. rewrite Ed. by eexists.
  - intros w T O F x Hr Hx. destruct (ew_fs_case _ _ _ _ _ Hr Hx) as (? & ? & ? & ? & ? & ? & _ & _ & _ & _ & _ & Ed). cbn. unfold fs_dispatch. rewrite Ed. by eexists.
  - intros w T O F x Hr Hx. destruct (ew_fs_case _ _ _ _ _ Hr Hx) as (? & ? & ? & ? & ? & ? & _ & _ & _ & _ & _ & Ed). cbn. unfold fs_dispatch. rewrite Ed. by eexists.
  - intros w T O F v f u Hr _ Hv.
    destruct (ew_vop w T O F v f (Ok (ENOTDIR, u, w)) (Ok (EISDIR, u, w)) (null_io v u)) as ([[e u'] w'] & Eo & Hh);
      [done|done|by intros; apply es_nothing..|by intros; apply dw_nothing|]. by eexists.
  - intros w T O F v f u Hr _ Hv.
    destruct (ew_vop w T O F v f (Ok (ENOTDIR, u, w)) (emufs_namefile v u w) (dev_namefile v u)) as ([[e u'] w'] & Eo & Hh);
      [done|done|by intros; apply es_nothing| |by intros; apply dw_nothing|by eexists].
    intros x root l ev Te Oe Hs Hev. destruct (ev_known _ _ _ _ _ _ _ _ _ Hs Hev) as (_ & Ev & Ef). unfold emufs_namefile. rewrite Ev, bind_Ok, Ef, bind_Ok.
    destruct (bool_decide _); by apply es_nothing.
  - intros w T O F v f n c Hr _ Hv. eapply (ew_vop w T O F v f); [done|done|by intros; apply es_nothing..|by intros; apply dw_nothing].
  - intros w T O F v f n Hr _ Hv. eapply (ew_vop w T O F v f); [done|done|by intros; apply es_nothing..|by intros; apply dw_nothing].
  - intros w T O F v f n Hr _ Hv. eapply (ew_vop w T O F v f); [done|done|by intros; apply es_nothing..|by intros; apply dw_nothing].
  - intros w T O F v f n Hr _ Hv. eapply (ew_vop w T O F v f); [done|done|by intros; apply es_nothing..|by intros; apply dw_nothing].
  - intros w T O F v f n v' f' Hr _ Hv _. eapply (ew_vop w T O F v f); [done|done|by intros; apply es_nothing..|by intros; apply dw_nothing].
  - intros w T O F v f n v' f' n' Hr _ Hv _. eapply (ew_vop w T O F v f); [done|done|by intros; apply es_nothing..|by intros; apply dw_nothing].
  - intros w T O F v f p l Hr Hroom Hv. destruct (ew_refs_lookparent w T O F v f p l Hr Hroom Hv) as ([[[e v'] nm] w'] & Eo & Hh). by eexists.
Defined.
End laws.
