(* ===== verification/EmuSystem.v ===== *)
(** * A system with the emulator file system

    [config_emu] adds the file system to the VFS at boot, and whatever callers
    of the VFS do afterwards, the handles that are open at the device are
    those of vnodes that somebody refers to.  Programs can be run from the
    file system: it is an instance of [VopRead]. *)
From stdpp Require Import base numbers list option gmap gmultiset.
From S2P Require Import Prelude Printf Uio Vnode Vfs VfsSpec VfsDev VfsRefs Emu EmuSpec EmuVfs.
Local Open Scope Z_scope.

Section boot.
Context {E : Type} {HW : EmuHw E} {HL : EmuLaws E} {H : Type} {devs : Z -> option (device H)}.
Abbreviation W := (emu_world E H devs).
Implicit Types (w : W) (T O R : gmultiset ref) (st : vfs W).

(** The device before [config_emu], with the root open. *)
Definition at_boot w : Prop := ew_fs w = ∅ /\ ew_vnodes w = ∅ /\ idle false (ew_sc w) {[EMU_ROOTHANDLE]}.

(** The root gets into the table. *)
Definition with_root (x p : Z) (mem : list alloc) w : W :=
  mk_ew (ew_dev w) (ew_sc w) {[p := mk_ev (ev_vnode x p false 1 0) EMU_ROOTHANDLE]} {[x := mk_ef (Some p) [p]]} mem.

Lemma with_root_state x p mem w : at_boot w -> x <> 0 -> p <> 0 -> emu_state x p [p] ∅ (with_root x p mem w) ∅ ∅.
Proof.
  intros (_ & _ & Hi) Hx Hp. assert (file_at (e_hw (ew_sc w)) EMU_ROOTHANDLE = false) as Hroot.
  { unfold file_at. rewrite (emu_root_dir _ _ (id_ok Hi)) by set_solver. apply bool_decide_eq_false. intros Hc. by apply Hc. }
  split; cbn [with_root ew_fs ew_vnodes ew_sc]; try done.
  - apply NoDup_singleton.
  - intros q. rewrite list_elem_of_singleton. destruct (decide (q = p)) as [->|Hne]; [by rewrite lookup_singleton_eq|]. rewrite lookup_singleton_ne by done.
    split; [done|]. by intros [? ?].
  - eexists. by rewrite lookup_singleton_eq.
  - intros q ev [<- <-]%lookup_singleton_Some. split; [done|]. cbn [ev_v ev_handle]. rewrite Hroot. unfold vnodes, rootref.
    rewrite gmultiset_map_empty, multiplicity_empty, decide_True by done. split; [done|lia].
  - by intros q q' ev ev' [<- _]%lookup_singleton_Some [<- _]%lookup_singleton_Some.
  - unfold handles. rewrite <-insert_empty, map_to_set_insert_L, map_to_set_empty by apply lookup_empty. cbn [ev_handle]. rewrite (left_id_L ∅ (∪)), (right_id_L ∅ (∪)). done.
  - intros v f Hin. multiset_solver.
Qed.

(** Loading the root at boot. *)
Lemma load_root x w : at_boot w -> let w0 := set_fs {[x := mk_ef None []]} w in
  exists mem, emufs_loadvnode x EMU_ROOTHANDLE true w0 = Ok (ENOMEM, 0, set_mem mem w0) \/
    exists p, p <> 0 /\ ew_lookup p w = None /\ (exists a, a ∈ ew_mem w /\ am_ev a = Some p) /\
      emufs_loadvnode x EMU_ROOTHANDLE true w0 =
        Ok (0, p, set_fs {[x := mk_ef None [p]]} (set_evs {[p := mk_ev (ev_vnode x p false 1 0) EMU_ROOTHANDLE]} (set_mem mem w0))).
Proof.
  intros (Hf & Hv & Hi) w0. rewrite loadvnode_eq by apply (id_lock Hi). unfold fs_deref. cbn [w0 set_fs ew_fs]. rewrite lookup_singleton_eq, !bind_Ok.
  cbn [ef_vnodes find_loop]. rewrite bind_Ok. unfold newvnode, kmalloc_ev. change (ew_mem w0) with (ew_mem w). change (ew_lookup ?p w0) with (ew_lookup p w). destruct (ew_mem w) as [|a mem] eqn:Em.
  { exists []. left. unfold w0, set_mem, set_fs. cbn. by rewrite Em. }
  exists mem. destruct (am_ev a) as [p|] eqn:Ea; [|by left]. destruct (Z.eqb_spec p 0) as [|Hp]; [by left|]. cbn [negb andb]. case_bool_decide as Hl; [|by left].
  destruct (am_lock a); [|by left]. destruct (am_array a); [|by left]. right. exists p. split; [done|]. split; [exact Hl|]. split; [exists a; split; [by left|done]|].
  cbn. rewrite insert_singleton_eq. unfold set_evs, set_fs, set_mem. cbn. by rewrite Hv, insert_empty.
Qed.

(** Giving the root up again. *)
Lemma drop_root x root l w : emu_state x root l ∅ w ∅ ∅ ->
  exists w', vnode_decref root w = Ok w' /\ ew_dev w' = ew_dev w /\ ew_vnodes w' = ∅ /\ (exists ef, ew_fs w' = {[x := ef]}) /\ idle false (ew_sc w') ∅.
Proof.
  intros Hs. destruct (es_root Hs) as (ev & Hv & Eh). destruct (ev_known _ _ _ _ _ _ _ _ _ Hs Hv) as (El & Ep & Ex).
  destruct (es_vnode Hs root ev Hv) as (_ & Ev & _). assert (forall v, multiplicity v (vnodes ∅) = 0%nat) as Hnone.
  { intros v. unfold vnodes. by rewrite gmultiset_map_empty, multiplicity_empty. }
  rewrite !Hnone in Ev. unfold rootref in Ev. rewrite decide_True in Ev by done.
  assert (ew_vnodes w = {[root := ev]}) as Evs.
  { apply map_eq. intros q. destruct (decide (q = root)) as [->|Hne]; [by rewrite lookup_singleton_eq|]. rewrite lookup_singleton_ne by done.
    destruct (ew_vnodes w !! q) as [ev'|] eqn:Eq; [|done]. destruct (es_vnode Hs q ev' Eq) as (_ & _ & Hpos). rewrite Hnone in Hpos. unfold rootref in Hpos.
    rewrite decide_False in Hpos by done. lia. }
  pose proof (es_idle Hs) as Hi. rewrite (left_id_L ∅ (∪)) in Hi. destruct (idle_acquire _ _ Hi) as [Ea Hi1].
  assert (ev_handle ev ∈ handles (ew_vnodes w)) as Hh by (apply elem_of_handles; by exists root, ev).
  destruct (emu_close_spec true _ _ _ Hi1 Hh) as (sc' & Ec & Hi2 & _). destruct (idle_release _ _ Hi2) as [Er Hi3].
  pose proof (es_check _ _ _ _ _ _ _ _ _ Hs Hv true) as Hck. rewrite Ev in Hck.
  assert (exists ix, list_find (fun evx => evx = root) l = Some (ix, root)) as [ix Ef].
  { destruct (list_find (fun evx => evx = root) l) as [[ix y]|] eqn:Ef; [apply list_find_Some in Ef as (_ & -> & _); by exists ix|].
    exfalso. apply list_find_None in Ef. rewrite Forall_forall in Ef. apply (Ef root); [|done]. apply list_elem_of_In, (es_table Hs). by rewrite Hv. }
  unfold vnode_decref, vn_deref. cbn [vn_lookup emu_vnodeops]. rewrite El, bind_Ok, Ev. cbn [ev_vnode vn_countlock vn_refcount assert]. rewrite !bind_Ok.
  change (Z.of_nat (0 + 1) >? 0) with true. change (Z.of_nat (0 + 1) >? 1) with false. cbn [assert]. rewrite bind_Ok, Hck, bind_Ok.
  cbn [vop_reclaim emu_vnodeops]. rewrite (es_dispatch _ _ _ _ _ _ _ _ _ _ _ _ Hs Hv).
  assert (emufs_reclaim root w = Ok (0, set_evs (delete root (ew_vnodes w)) (set_sc (set_elock false sc') (set_fs (<[x := mk_ef (Some root) (delete ix l)]> (ew_fs w)) w)))) as Erec.
  { unfold emufs_reclaim. rewrite Ep, bind_Ok, Ex, bind_Ok, Ea, bind_Ok, Ev. cbn [vn_countlock ev_vnode assert vn_refcount]. rewrite bind_Ok.
    cbn [Nat.add Z.of_nat Pos.of_succ_nat Z.eqb Pos.eqb negb]. rewrite Ec, bind_Ok. cbn [Z.eqb negb ef_vnodes]. rewrite Ef, Er. done. }
  rewrite Erec. eexists. split; [by destruct (file_at _ _)|]. cbn [ew_dev ew_vnodes ew_fs ew_sc set_evs set_sc set_fs]. split; [done|]. split; [rewrite Evs; apply delete_singleton_eq|].
  split; [exists (mk_ef (Some root) (delete ix l)); by rewrite (es_fs Hs), insert_singleton_eq|].
  replace (handles (ew_vnodes w) ∖ {[ev_handle ev]}) with (∅ : gset Z) in Hi3; [exact Hi3|]. rewrite Evs. unfold handles.
  rewrite <-insert_empty, map_to_set_insert_L, map_to_set_empty by apply lookup_empty. set_solver.
Qed.

(** Without a file system the references are to devices. *)
Lemma parts_none w T O : ew_refs w T O ∅ -> dev_tokens T /\ dw_refs (ew_dev w) T O ∅ /\ no_emufs w.
Proof.
  intros (Td & Od & Te & Oe & -> & -> & Hp). destruct (parts_tokens _ _ _ _ _ _ Hp) as (Hd & _). pose proof (ep_dev Hp).
  destruct (ep_emu Hp) as [(_ & -> & -> & Hno)|(x & root & l & Hf & _)]; [|set_solver]. by rewrite !gmultiset_disj_union_right_id.
Qed.

Lemma none_refs w T O : dw_refs (ew_dev w) T O ∅ -> ew_fs w = ∅ -> ew_vnodes w = ∅ -> (exists hs, idle false (ew_sc w) hs) -> ew_refs w T O ∅.
Proof.
  intros Hd Hf Hv Hi. exists T, O, ∅, ∅. rewrite !gmultiset_disj_union_right_id. split; [done|]. split; [done|]. split; [done| |by left|].
  - intros v f _. rewrite Hv. apply lookup_empty.
  - rewrite gmultiset_disj_union_right_id. apply Hd.
Qed.

(** With the root in the table and no other reference to the file system. *)
Lemma with_root_refs x p mem w T O : at_boot w -> dw_refs (ew_dev w) T O ∅ -> x <> 0 -> p <> 0 -> ew_lookup p w = None -> ew_refs (with_root x p mem w) T O {[x]}.
Proof.
  intros Hb Hd Hx Hp Hl. exists T, O, ∅, ∅. rewrite !gmultiset_disj_union_right_id. split; [done|]. split; [done|]. split; [done| | |].
  - intros v f Hin. destruct (dw_counts Hd v f Hin) as (_ & _ & q & _ & Hv). apply lookup_singleton_ne. intros <-. apply ew_lookup_none in Hl as [_ Hl].
    cbn [vn_lookup dev_vnodeops] in Hl. congruence.
  - right. exists x, p, [p]. split; [done|]. by apply with_root_state.
  - rewrite gmultiset_disj_union_right_id. apply Hd.
Qed.

(** All references are to devices still. *)
Lemma refs_root_only x w T O : dev_tokens T -> ew_refs w T O {[x]} -> dw_refs (ew_dev w) T O ∅ /\ exists root l, emu_state x root l ∅ w ∅ ∅.
Proof.
  intros HT (Td & Od & Te & Oe & -> & -> & Hp). destruct (parts_tokens _ _ _ _ _ _ Hp) as (_ & _ & HTe & _). pose proof (ep_dev Hp) as Hd.
  assert (Te = ∅) as ->.
  { apply gmultiset_eq. intros [v f]. rewrite multiplicity_empty. apply not_elem_of_multiplicity. intros Hin. apply (HTe v f Hin), (HT v f). multiset_solver. }
  destruct (ep_emu Hp) as [(? & _)|(y & root & l & Ey & Hs)]; [set_solver|]. assert (y = x) as -> by set_solver.
  assert (Oe = ∅) as -> by (pose proof (es_open Hs); multiset_solver). rewrite !gmultiset_disj_union_right_id. split; [done|]. by exists root, l.
Qed.

Lemma unnoticed_fs w w' : unnoticed w w' -> ew_fs w' = ew_fs w.
Proof.
  intros [->|(p & vn & Hp & Hw)]; [done|]. apply ew_lookup_none in Hp as [Hp _].
  destruct Hw as [->| ->]; cbn [vn_store emu_vnodeops vn_free emu_vfsops]; by rewrite (ew_store_dev _ _ _ Hp).
Qed.

Lemma emufs_addtovfs_spec k g st R O x array_ok al name : inv (1 + k) g st R O ∅ -> at_boot (world st) -> x <> 0 -> al_lock al = true ->
  (forall p, al_vnode al = Some p -> p <> 0 /\ ew_lookup p (world st) = None /\ forall a, a ∈ ew_mem (world st) -> am_ev a <> Some p) ->
  exists st' e, emufs_addtovfs (Some x) array_ok al name st = Ok (st', e) /\ inv k g st' R O (if e =? 0 then {[x]} else ∅).
Proof.
  intros Hi Hb Hx Hlock Hal. pose proof (inv_refs Hi) as Hr. destruct (parts_none _ _ _ Hr) as (HT & Hd & _). pose proof Hb as (Hf & Hv & Hidle).
  assert (forall w, ew_refs w (R ⊎ kernel_refs g st) O ∅ -> inv k g (set_world w st) R O ∅) as Hworld.
  { intros w Hw. apply (inv_world (1 + k) k _ _ R O); [done|apply Hi|lia|done]. }
  unfold emufs_addtovfs. destruct array_ok; cbn [negb]; [|exists st, ENOMEM; split; [done|]; rewrite <-(set_world_same st); by apply Hworld].
  rewrite Hf, insert_empty. destruct (load_root x (world st) Hb) as (mem & [->|(p & Hp0 & Hpl & (a & Ha & Ea) & ->)]); rewrite bind_Ok.
  { cbn [Z.eqb negb ENOMEM]. eexists _, _. split; [done|]. apply Hworld. apply none_refs; [exact Hd| |exact Hv|by eexists].
    cbn [ew_fs set_fs set_mem]. apply delete_singleton_eq. }
  cbn [Z.eqb negb]. unfold fs_deref at 1. cbn [ew_fs set_fs]. rewrite lookup_singleton_eq, bind_Ok. cbn [ef_vnodes]. rewrite insert_singleton_eq.
  change (set_fs {[x := mk_ef (Some p) [p]]} _) with (with_root x p mem (world st)).
  destruct (vfs_addfs_spec k g st (with_root x p mem (world st)) R O ∅ al name x Hi) as (st' & e & -> & He); [set_solver| |done| |].
  { rewrite (left_id_L ∅ (∪)). by apply with_root_refs. }
  { intros q Hq. destruct (Hal q Hq) as (Hq0 & Hql & Hqm). split; [done|]. cbn [vn_lookup emu_vnodeops]. unfold ew_lookup in *. cbn [with_root ew_vnodes ew_dev].
    rewrite lookup_singleton_ne by (intros <-; by apply (Hqm a Ha)). by rewrite Hv in Hql. }
  rewrite bind_Ok. rewrite (left_id_L ∅ (∪)) in He. destruct (Z.eqb_spec e 0) as [E0|Hne]; cbn [negb]; [exists st', 0; by split|].
  destruct He as (w' & -> & Hun & Hw'). destruct (refs_root_only _ _ _ _ HT Hw') as (Hd' & root & l & Hs). assert (root = p) as ->.
  { pose proof (es_fs Hs) as Efs. rewrite (unnoticed_fs _ _ Hun) in Efs. cbn [with_root ew_fs] in Efs. apply (f_equal (fun m => m !! x)) in Efs.
    rewrite !lookup_singleton_eq in Efs. by injection Efs. }
  destruct (drop_root _ _ _ _ Hs) as (w3 & E3 & Hd3 & Hv3 & (ef & Hf3) & Hi3). unfold decref. cbn [world set_world]. rewrite E3, !bind_Ok.
  eexists _, _. split; [done|]. destruct (Z.eqb_spec e 0); [done|]. cbn [world set_world]. apply Hworld. apply none_refs; [cbn; by rewrite Hd3| |exact Hv3|by exists ∅].
  cbn [ew_fs set_fs]. rewrite Hf3. apply delete_singleton_eq.
Qed.

Lemma config_emu_spec k g st R O lock_ok sem_ok namebuf stack x array_ok al emuno : inv (1 + k) g st R O ∅ -> at_boot (world st) -> x <> 0 -> al_lock al = true ->
  (forall p, al_vnode al = Some p -> p <> 0 /\ ew_lookup p (world st) = None /\ forall a, a ∈ ew_mem (world st) -> am_ev a <> Some p) ->
  length namebuf = 32%nat -> length stack = 12%nat ->
  exists st' e, config_emu lock_ok sem_ok namebuf stack (Some x) array_ok al emuno st = Ok (st', e) /\ inv k g st' R O (if e =? 0 then {[x]} else ∅).
Proof.
  intros Hi Hb Hx Hlock Hal Hn Hst. assert (exists st' e, Ok (st, ENOMEM) = Ok (st', e) /\ inv k g st' R O (if e =? 0 then {[x]} else ∅)) as Hnone.
  { exists st, ENOMEM. split; [done|]. cbn. by apply inv_weaken. }
  unfold config_emu. destruct lock_ok; [|exact Hnone]. destruct sem_ok; [|exact Hnone]. cbn [negb].
  assert (set_world (set_sc (set_esem 0 (set_elock false (ew_sc (world st)))) (world st)) st = st) as ->.
  { destruct Hb as (_ & _ & [Hl Hs _ _ _]). destruct st as [? ? ? ? ? [? sc ? ? ?]]. cbn in *. do 2 f_equal. destruct sc. cbn in *. by subst. }
  destruct (snprintf_spec stack namebuf 32 [101; 109; 117; 37; 100] [ArgInt emuno] Hst) as (out & _ & ->); [rewrite Hn; lia| |exists [], [ArgInt emuno]; split; [done|]; by repeat constructor|].
  { intros Hin. repeat (apply elem_of_cons in Hin as [Hin|Hin]; [done|]). by apply elem_of_nil in Hin. }
  rewrite bind_Ok. by apply emufs_addtovfs_spec.
Qed.

(** ** Nothing leaks *)

(** What a caller, the VFS and the file system know of a vnode in memory. *)
Lemma counted_emufs k (c : client (S := W)) p ev : counted k c -> ew_vnodes (world (c_vfs c)) !! p = Some ev ->
  let w := world (c_vfs c) in
  let n := (multiplicity p (c_held c) + vfs_count (c_vfs c) p + kept p w)%nat in
  vn_refcount (ev_v ev) = Z.of_nat n /\ (0 < n)%nat /\ vn_opencount (ev_v ev) = Z.of_nat (multiplicity p (c_open c)) /\
  (forall q ev', ew_vnodes w !! q = Some ev' -> ev_handle ev' = ev_handle ev -> q = p) /\
  e_lock (ew_sc w) = false /\ emu_ok (e_hw (ew_sc w)) (handles (ew_vnodes w)).
Proof.
  intros (g & R & O & F & lost & Hi & Ho & <- & <- & _ & Hlost) Hv w. pose proof (inv_refs Hi) as (Td & Od & Te & Oe & ET & EO & Hp).
  destruct (ep_emu Hp) as [(_ & _ & _ & _ & Hno & _)|(x & root & l & -> & Hs)]; [by rewrite Hno, lookup_empty in Hv|].
  destruct (es_vnode Hs p ev Hv) as (_ & Ev & Hpos). destruct (emu_not_dev _ _ _ _ _ _ _ _ Hp Hv) as [HTd HOd].
  assert (multiplicity p (vnodes lost) = 0%nat) as Hl.
  { apply not_elem_of_multiplicity. intros [f Hf]%elem_of_vnodes. pose proof (Hlost _ Hf) as Ef. cbn in Ef. subst f.
    assert ((p, None) ∈ Td ⊎ Te) as Hin by (rewrite <-ET; multiset_solver). pose proof (ep_apart Hp _ _ (parts_dev _ _ _ _ _ _ _ Hp Hin)) as Hn. congruence. }
  assert (multiplicity p (vnodes Te) = multiplicity p (vnodes R) + vfs_count (c_vfs c) p)%nat as ETe.
  { rewrite <-(kernel_count _ _ _ _ _ _ p Hi). apply (f_equal (fun M => multiplicity p (vnodes M))) in ET. rewrite !vnodes_union in ET. lia. }
  assert (multiplicity p (vnodes Oe) = multiplicity p (vnodes O)) as EOe by (rewrite EO, vnodes_union; lia).
  assert (kept p w = rootref root p) as Ek. { unfold kept, w. cbn [own emu_vfslaws]. rewrite (own_root _ _ _ _ _ _ _ Hs). unfold rootref. do 2 case_decide; set_solver. }
  rewrite Ek, Ev, <-ETe, <-EOe. cbn [ev_vnode vn_refcount vn_opencount]. do 3 (split; [done|]).
  split; [intros q ev' Hq Eh; by eapply (es_inj Hs)|]. pose proof (es_idle Hs) as Hid. rewrite (left_id_L ∅ (∪)) in Hid. split; [apply Hid|apply Hid].
Qed.

(** C9. From boot on, the emulator file system leaks nothing.  [config_emu]
    adds it to the VFS or fails, whatever memory there is; and if it has been
    added, any sequence of calls of the VFS returns: no assertion of emu.c or
    of the VFS fails and no lock is taken twice.  At the end, every emufs
    vnode in memory has as many references as the caller, the current and
    boot directories and the file system itself have, and somebody has one;
    it is the only one for its handle; and the handles that are open at the
    device are exactly those of the vnodes in memory, so that every file that
    nobody refers to has been closed.  The file system is at the
    address [x].  The device keeps [EmuLaws]: closing a handle may fail ten
    times in a row. *)
Theorem emufs_leaks_nothing (n : nat) g st lock_ok sem_ok namebuf stack x array_ok al emuno :
  inv (4 + n) g st ∅ ∅ ∅ -> at_boot (world st) -> x <> 0 -> al_lock al = true ->
  (forall p, al_vnode al = Some p -> p <> 0 /\ ew_lookup p (world st) = None /\ forall a, a ∈ ew_mem (world st) -> am_ev a <> Some p) ->
  length namebuf = 32%nat -> length stack = 12%nat ->
  exists st' e, config_emu lock_ok sem_ok namebuf stack (Some x) array_ok al emuno st = Ok (st', e) /\
    forall calls, (length calls <= n)%nat -> Forall call_ok calls ->
    exists c, run calls (mk_client st' ∅ ∅ ∅) = Ok c /\
      forall p ev, ew_vnodes (world (c_vfs c)) !! p = Some ev ->
        let w := world (c_vfs c) in
        let refs := (multiplicity p (c_held c) + vfs_count (c_vfs c) p + kept p w)%nat in
        vn_refcount (ev_v ev) = Z.of_nat refs /\ (0 < refs)%nat /\ vn_opencount (ev_v ev) = Z.of_nat (multiplicity p (c_open c)) /\
        (forall q ev', ew_vnodes w !! q = Some ev' -> ev_handle ev' = ev_handle ev -> q = p) /\
        e_lock (ew_sc w) = false /\ emu_ok (e_hw (ew_sc w)) (handles (ew_vnodes w)).
Proof.
  intros Hi Hb Hx Hlock Hal Hn Hst. destruct (config_emu_spec (3 + n) g st ∅ ∅ lock_ok sem_ok namebuf stack x array_ok al emuno Hi Hb Hx Hlock Hal Hn Hst) as (st' & e & -> & Hi').
  exists st', e. split; [done|]. intros calls Hl Hok. destruct (run_spec (n - length calls) calls (mk_client st' ∅ ∅ ∅)) as (c & -> & Hc); [|done|].
  - exists g, ∅, ∅, (if e =? 0 then {[x]} else ∅), ∅. replace (3 + length calls + (n - length calls))%nat with (3 + n)%nat by lia. split; [exact Hi'|].
    do 4 (split; [done|]). intros t Ht. multiset_solver.
  - exists c. split; [done|]. intros p ev Hp. by eapply counted_emufs.
Qed.
End boot.
