(* ===== verification/EmuRun.v ===== *)
(** * Programs from the emulator file system

    What is written to a file of the emulator file system is read back, or
    the device has reported an error.  Over a device whose reads do not fail
    ([EmuReads]) reading a file gives its bytes, as [VopRead] asks, so that [runprogram] (RunProgram.v) starts programs from it.  A
    small device with one file shows that the laws of the device can hold, and
    is booted, used and run from. *)
From stdpp Require Import base numbers list option gmap gmultiset.
From S2P Require Import Prelude Ram DumbVm DumbVmSpec PidManager Lamebus Trap Uio LoadElf LoadElfSpec Vnode Vfs VfsSpec VfsDev VfsRefs RunProgram Emu EmuSpec EmuVfs EmuSystem.
Local Open Scope Z_scope.

Section read.
Context {E : Type} {HW : EmuHw E} {HL : EmuLaws E} {H : Type} {devs : Z -> option (device H)}.
Abbreviation W := (emu_world E H devs).
Implicit Types (w : W) (T O : gmultiset ref).

Definition emu_vop_read (v : Z) (valid : Z -> bool) (cs : option Z) (u : uio) w : res (Z * uio * W) :=
  dispatch v w (emufs_read valid cs v u w) (Ok (EISDIR, u, w)) (on_dev (dev_read v u) w).

Definition emu_is_file (v : Z) w : Prop := exists ev d, ew_vnodes w !! v = Some ev /\ emu_data (e_hw (ew_sc w)) (ev_handle ev) = Some d.

Definition emu_file_bytes (v : Z) w : list Z :=
  match ew_vnodes w !! v with Some ev => default [] (emu_data (e_hw (ew_sc w)) (ev_handle ev)) | None => [] end.

(** The handles that are open at the device. *)
Abbreviation opened w := (∅ ∪ handles (ew_vnodes w)).

Lemma emufs_read_spec x root l w T O v ev d valid cs u : emu_state x root l ∅ w T O -> ew_vnodes w !! v = Some ev -> emu_data (e_hw (ew_sc w)) (ev_handle ev) = Some d ->
  uio_wf u -> reachable valid cs u (uio_resid u) -> 0 <= uio_offset u -> is_write u = false ->
  exists err k sc, emufs_read valid cs v u w = Ok (err, read_part d k u, set_sc sc w) /\
    emu_state x root l ∅ (set_sc sc w) T O /\ emu_data (e_hw sc) (ev_handle ev) = Some d /\
    (err = 0 /\ k = readable d (uio_resid u) u \/ err <> 0 /\ exists e0, reports (opened w) (ev_handle ev) d EMU_OP_READ err e0 (e_hw sc)).
Proof.
  intros Hs Hv Hd Hwf Hr Ho Hw. destruct (ev_known _ _ _ _ _ _ _ _ _ Hs Hv) as (_ & Ee & _). unfold emufs_read. rewrite Ee, bind_Ok, Hw. cbn [negb assert]. rewrite bind_Ok.
  assert (ev_handle ev ∈ opened w) as Hh by (apply elem_of_union_r, elem_of_handles; by exists v, ev).
  destruct (emu_read_loop_spec valid cs (S (Z.to_nat (uio_resid u))) _ _ _ u d (es_idle Hs) Hh Hd Hwf Hr Ho Hw) as (err & k & sc & -> & Hi & Hsame & _ & Hcase); [lia|].
  rewrite bind_Ok. exists err, k, sc. split; [done|]. split; [|split; [by rewrite (Hsame _ Hh)|exact Hcase]]. eapply es_sc; [done|done|]. intros h Hin. eapply same_file; [exact Hsame|]. set_solver.
Qed.

Lemma emufs_write_spec x root l w T O v ev d valid cs u : emu_state x root l ∅ w T O -> ew_vnodes w !! v = Some ev -> emu_data (e_hw (ew_sc w)) (ev_handle ev) = Some d ->
  uio_wf u -> reachable valid cs u (uio_resid u) -> 0 <= uio_offset u -> is_write u = true ->
  exists err u' sc, emufs_write valid cs v u w = Ok (err, u', set_sc sc w) /\ emu_state x root l ∅ (set_sc sc w) T O /\
    (err = 0 /\ u' = advance (uio_resid u) (drop (Z.to_nat (uio_resid u)) (iov_data u)) u /\
       emu_data (e_hw sc) (ev_handle ev) = Some (write_at d (Z.to_nat (uio_offset u)) (take (Z.to_nat (uio_resid u)) (iov_data u))) \/
     err <> 0 /\ exists m e0, 0 <= m < uio_resid u /\
       reports (opened w) (ev_handle ev) (write_at d (Z.to_nat (uio_offset u)) (take (Z.to_nat m) (iov_data u))) EMU_OP_WRITE err e0 (e_hw sc)).
Proof.
  intros Hs Hv Hd Hwf Hr Ho Hw. destruct (ev_known _ _ _ _ _ _ _ _ _ Hs Hv) as (_ & Ee & _). unfold emufs_write. rewrite Ee, bind_Ok, Hw. cbn [assert]. rewrite bind_Ok.
  assert (ev_handle ev ∈ opened w) as Hh by (apply elem_of_union_r, elem_of_handles; by exists v, ev).
  destruct (emu_write_loop_spec valid cs (S (Z.to_nat (uio_resid u))) _ _ _ u d (es_idle Hs) Hh Hd Hwf Hr Ho Hw) as (err & u' & sc & -> & Hi & Hsame & Hdata); [lia|].
  rewrite bind_Ok. exists err, u', sc. split; [done|]. split; [|done]. eapply es_sc; [done|done|]. intros h Hin. apply Hsame. set_solver.
Qed.

(** C36. Writing to a file of the emulator file system, in requests of at most
    16384 bytes, succeeds or fails exactly as the device does.  If no request
    fails, the result is 0, everything has been written, and of the file
    exactly the bytes that are written have changed, with zeros in a gap;
    reading the same range then gives the bytes back, or the error of a read
    that the device reports to have failed.  If the result is an error, it is
    the one for which the device has reported a result other than success to
    the last request, before which the file had the first [m] bytes and
    nothing else changed.  In all cases the references and the table of vnodes
    are as they were. *)
Theorem emufs_write_read x root l w T O v ev d valid cs u :
  emu_state x root l ∅ w T O -> ew_vnodes w !! v = Some ev -> emu_data (e_hw (ew_sc w)) (ev_handle ev) = Some d ->
  uio_wf u -> reachable valid cs u (uio_resid u) -> 0 <= uio_offset u -> is_write u = true ->
  exists err u' w', emufs_write valid cs v u w = Ok (err, u', w') /\ emu_state x root l ∅ w' T O /\
    (err = 0 -> uio_resid u' = 0 /\
       emu_file_bytes v w' = write_at d (Z.to_nat (uio_offset u)) (take (Z.to_nat (uio_resid u)) (iov_data u)) /\
       exists err2 r w'', emufs_read valid cs v (mk_kuio [] (uio_resid u) (uio_offset u) UIO_READ) w' = Ok (err2, r, w'') /\ emu_state x root l ∅ w'' T O /\
         (err2 = 0 -> iov_data r = take (Z.to_nat (uio_resid u)) (iov_data u)) /\
         (err2 <> 0 -> exists e0, reports (opened w) (ev_handle ev) (emu_file_bytes v w') EMU_OP_READ err2 e0 (e_hw (ew_sc w'')))) /\
    (err <> 0 -> exists m e0, 0 <= m < uio_resid u /\
       reports (opened w) (ev_handle ev) (write_at d (Z.to_nat (uio_offset u)) (take (Z.to_nat m) (iov_data u))) EMU_OP_WRITE err e0 (e_hw (ew_sc w'))).
Proof.
  intros Hs Hv Hd Hwf Hr Ho Hw. destruct (emufs_write_spec _ _ _ _ _ _ _ _ _ valid cs u Hs Hv Hd Hwf Hr Ho Hw) as (err & u' & sc & E' & Hs' & Hok).
  exists err, u', (set_sc sc w). split; [done|]. split; [done|]. destruct Hok as [(-> & -> & Hd')|[He Hrep]]; [|by split; [intros ->|intros _; exact Hrep]].
  split; [intros _|done]. split; [cbn; lia|].
  unfold emu_file_bytes. cbn [ew_vnodes ew_sc set_sc]. rewrite Hv, Hd'. cbn [default]. split; [done|]. pose proof Hwf as (_ & Hres & Hlen & Hdl & _ & Hend). specialize (Hdl Hw).
  set (s := take (Z.to_nat (uio_resid u)) (iov_data u)) in *. assert (length s = Z.to_nat (uio_resid u)) as Hls by (unfold s; rewrite length_take; lia).
  destruct (emufs_read_spec _ _ _ _ _ _ _ _ _ valid cs (mk_kuio [] (uio_resid u) (uio_offset u) UIO_READ) Hs' Hv Hd') as (err2 & k & sc2 & -> & Hs2 & _ & Hcase); try done.
  { unfold uio_wf, mk_kuio. cbn. split; [lia|]. split; [lia|]. split; [lia|]. split; [done|lia]. }
  eexists err2, _, _. split; [done|]. split; [done|]. destruct Hcase as [[-> ->]|[He Hrep]]; [|by split; [intros ->|intros _; exact Hrep]]. split; [intros _|done].
  unfold read_part. cbn [advance iov_data mk_kuio uio_offset uio_resid app].
  set (f := write_at _ _ s). assert (readable f (uio_resid u) (mk_kuio [] (uio_resid u) (uio_offset u) UIO_READ) = Z.of_nat (length s)) as ->.
  { unfold readable. cbn [mk_kuio uio_offset]. destruct (decide (s = [])) as [Es|Hne]; [rewrite Es in *; cbn [length] in *; lia|].
    pose proof (length_write_at d (Z.to_nat (uio_offset u)) s Hne) as Hl. fold f in Hl. lia. }
  rewrite Nat2Z.id. apply write_at_read.
Qed.

(** Programs can be run from a device whose reads do not fail. *)
Context {HR : EmuReads E}.

Lemma reads_reported hs h d err (e0 e1 : E) : ~ reports hs h d EMU_OP_READ err e0 e1.
Proof. intros (r & b & r' & b' & Hreq & Eo & Hne & _). pose proof (emu_reads _ _ _ _ _ _ Hreq) as Er. rewrite Eo in Er. done. Qed.

#[export] Instance emu_vopread : VopRead W.
Proof.
  refine {| vop_read := emu_vop_read; is_file := emu_is_file; file_bytes := emu_file_bytes |}.
  intros v f valid cs u w T O F (Td & Od & Te & Oe & -> & -> & Hp) _ Hin (ev & d & Hv & Hd) Hwf Hr Ho Hw. destruct f as [y|].
  2:{ pose proof (ep_apart Hp _ _ (parts_dev _ _ _ _ _ _ _ Hp Hin)). congruence. }
  destruct (parts_emu _ _ _ _ _ _ _ _ Hp Hin) as (root & l & ev' & -> & Hs & Hv'). rewrite Hv in Hv'. injection Hv' as <-.
  unfold emu_file_bytes. rewrite Hv, Hd. cbn [default]. destruct (emufs_read_spec _ _ _ _ _ _ _ _ _ valid cs u Hs Hv Hd Hwf Hr Ho Hw) as (err & k & sc & Er & Hs' & Hd' & [[-> ->]|(_ & e0 & Hrep)]); [|by apply reads_reported in Hrep].
  exists (set_sc sc w). unfold emu_vop_read. rewrite (es_dispatch _ _ _ _ _ _ _ _ _ _ _ _ Hs Hv). assert (file_at (e_hw (ew_sc w)) (ev_handle ev) = true) as ->.
  { unfold file_at. by rewrite Hd. }
  split; [exact Er|]. split; [eapply ew_same_emu; [done|apply dev_same_sc|done]|]. cbn [ew_vnodes ew_sc set_sc]. rewrite Hv, Hd'. split; [by exists ev, d|done].
Defined.
End read.

(** ** A device with one file

    The root has the file "sh", which has the handle 1.  The state is the set
    of open handles and the bytes of the file. *)
Definition sh : list Z := [115; 104].
Definition demo : Type := gset Z * list Z.

Definition demo_oper (op : Z) (r : emu_regs) (b : list Z) (e : demo) : emu_regs * list Z * demo :=
  let '(hs, d) := e in
  let done res := mk_regs (r_handle r) (r_offset r) (r_iolen r) res in
  if (op =? EMU_OP_OPEN) || (op =? EMU_OP_CREATE) || (op =? EMU_OP_EXCLCREATE) then
    if (r_handle r =? EMU_ROOTHANDLE) && bool_decide (take (Z.to_nat (r_iolen r)) b = sh) then
      if op =? EMU_OP_EXCLCREATE then (done EMU_RES_EXISTS, b, e) else (mk_regs 1 (r_offset r) 0 EMU_RES_SUCCESS, b, ({[1]} ∪ hs, d))
    else (done EMU_RES_BADPATH, b, e)
  else if op =? EMU_OP_CLOSE then (done EMU_RES_SUCCESS, b, (hs ∖ {[r_handle r]}, d))
  else if negb (r_handle r =? 1) then (done EMU_RES_ISDIR, b, e)
  else if op =? EMU_OP_READ then
    let n := Z.max 0 (Z.min (r_iolen r) (Z.of_nat (length d) - r_offset r)) in
    (mk_regs 1 (r_offset r + n) n EMU_RES_SUCCESS, take (Z.to_nat n) (drop (Z.to_nat (r_offset r)) d) ++ drop (Z.to_nat n) b, e)
  else if op =? EMU_OP_WRITE then (done EMU_RES_SUCCESS, b, (hs, write_at d (Z.to_nat (r_offset r)) (take (Z.to_nat (r_iolen r)) b)))
  else (done EMU_RES_UNSUPP, b, e).

Global Instance demo_hw : EmuHw demo := {| emu_oper := demo_oper |}.

Definition demo_data (e : demo) (h : Z) : option (list Z) := if h =? 1 then Some (snd e) else None.

Global Instance demo_laws : EmuLaws demo.
Proof.
  refine {| emu_ok e hs := fst e = hs /\ hs ⊆ {[EMU_ROOTHANDLE; 1]}; emu_data := demo_data; emu_faults _ := 0%nat |}.
  - lia.
  - intros e hs h [_ Hs] Hh. unfold EMU_ROOTHANDLE in Hs. assert (h = 0 \/ h = 1) as [-> | ->] by set_solver; lia.
  - done.
  - intros [e d] hs op r b [<- Hs] Hop Hh Hl Hb. cbn [emu_oper demo_hw]. unfold demo_oper.
    replace ((op =? EMU_OP_OPEN) || (op =? EMU_OP_CREATE) || (op =? EMU_OP_EXCLCREATE)) with true by (by destruct Hop as [-> | [-> | ->]]). cbn [fst] in *.
    destruct (_ && _); [destruct (op =? EMU_OP_EXCLCREATE)|]; (split; [done|]); (split; [done|]); (split; [done|]); cbn; set_solver.
  - intros [e d] hs r b [<- Hs] Hh Hb. cbn in *. split; [done|]. split; [done|]. left. split; [done|]. split; [done|]. set_solver.
  - intros [e d] hs r b [<- Hs] Hh Hb. cbn. destruct (negb _); done.
  - intros [e f] hs r b d [<- Hs] Hh Hd Hl Ho Hb n. unfold demo_data in Hd. destruct (Z.eqb_spec (r_handle r) 1) as [E1|]; [|done]. injection Hd as <-.
    cbn [emu_oper demo_hw snd] in *. unfold demo_oper. rewrite E1.
    cbn [EMU_OP_OPEN EMU_OP_CREATE EMU_OP_EXCLCREATE EMU_OP_CLOSE EMU_OP_READ Z.eqb Pos.eqb orb andb negb]. fold n.
    assert (length (take (Z.to_nat n) (drop (Z.to_nat (r_offset r)) f)) = Z.to_nat n) as Ht.
    { rewrite length_take, length_drop. unfold n. lia. }
    split; [done|]. split; [rewrite length_app, Ht, length_drop, Hb; unfold n; lia|]. split; [done|]. split; [done|]. intros _. split; [done|]. split; [done|].
    rewrite take_app_le by (rewrite Ht; lia). by rewrite take_take, Nat.min_id.
  - intros [e f] hs r b d [<- Hs] Hh Hd Hl Ho Hb. unfold demo_data in Hd. destruct (Z.eqb_spec (r_handle r) 1) as [E1|]; [|done]. injection Hd as <-.
    cbn [emu_oper demo_hw snd] in *. unfold demo_oper. rewrite E1.
    cbn [EMU_OP_OPEN EMU_OP_CREATE EMU_OP_EXCLCREATE EMU_OP_CLOSE EMU_OP_READ EMU_OP_WRITE Z.eqb Pos.eqb orb andb negb].
    split; [done|]. split; [done|]. split; [done|]. split; [|done]. intros h _. unfold demo_data. by destruct (h =? 1).
Defined.

Global Instance demo_reads : EmuReads demo.
Proof.
  intros hs h d [e f] r b (_ & _ & Hd & Eh & _). cbn [emu_data demo_laws] in Hd. unfold demo_data in Hd. cbn [emu_oper demo_hw]. unfold demo_oper.
  cbn [EMU_OP_OPEN EMU_OP_CREATE EMU_OP_EXCLCREATE EMU_OP_CLOSE EMU_OP_READ Z.eqb Pos.eqb orb andb negb]. rewrite Eh. by destruct (h =? 1).
Qed.

(** ** Booting it *)

Abbreviation DW := (emu_world demo unit null_at).

Definition demo_sc : emu_softc demo := mk_emu false 0 (replicate (Z.to_nat EMU_MAXIO) 0) 0 (mk_regs 0 0 0 0) ({[EMU_ROOTHANDLE]}, tiny_exec).
Definition demo_mem : list alloc := [mk_alloc (Some 1000) true true; mk_alloc None true true; mk_alloc (Some 2000) true false; mk_alloc (Some 3000) true true].
Definition demo_vfs : vfs DW := mk_vfs [] false None false None (mk_ew (mk_dw ∅ tt) demo_sc ∅ ∅ demo_mem).

Lemma demo_at_boot : at_boot (world demo_vfs).
Proof. do 2 (split; [done|]). split; try done. split; [done|set_solver]. Qed.

Lemma demo_inv n : (n <= 100)%nat -> inv n (mk_ghost None None) demo_vfs ∅ ∅ ∅.
Proof.
  intros Hn. split; try done; [|split; [constructor|done]|rewrite gmultiset_size_empty; cbn; unfold max_refs; lia].
  change (ew_refs (world demo_vfs) ∅ ∅ ∅). apply none_refs; [|done|done|exists {[EMU_ROOTHANDLE]}; apply demo_at_boot].
  split; [done|done|done|]. intros v f Hv. multiset_solver.
Qed.

Lemma demo_allocs p : al_vnode (allocs_at 16) = Some p ->
  p <> 0 /\ ew_lookup p (world demo_vfs) = None /\ forall a, a ∈ ew_mem (world demo_vfs) -> am_ev a <> Some p.
Proof.
  intros [= <-]. do 2 (split; [done|]). intros a Ha. repeat (apply elem_of_cons in Ha as [-> |Ha]; [done|]). by apply elem_of_nil in Ha.
Qed.

Definition demo_config : res (vfs DW * Z) := config_emu true true (replicate 32 7) (replicate 12 7) (Some 500) true (allocs_at 16) 0 demo_vfs.

(** "emu0" and "emu0:sh" *)
Definition emu0 : list Z := [101; 109; 117; 48].
Definition emu0_sh : list Z := emu0 ++ [58] ++ sh.

Lemma emufs_leaks_nothing_witness : exists st' e, demo_config = Ok (st', e) /\
    forall calls, (length calls <= 20)%nat -> Forall call_ok calls ->
    exists c, run calls (mk_client st' ∅ ∅ ∅) = Ok c /\
      forall p ev, ew_vnodes (world (c_vfs c)) !! p = Some ev ->
        let w := world (c_vfs c) in
        let refs := (multiplicity p (c_held c) + vfs_count (c_vfs c) p + kept p w)%nat in
        vn_refcount (ev_v ev) = Z.of_nat refs /\ (0 < refs)%nat /\ vn_opencount (ev_v ev) = Z.of_nat (multiplicity p (c_open c)) /\
        (forall q ev', ew_vnodes w !! q = Some ev' -> ev_handle ev' = ev_handle ev -> q = p) /\
        e_lock (ew_sc w) = false /\ emu_ok (e_hw (ew_sc w)) (handles (ew_vnodes w)).
Proof.
  refine (emufs_leaks_nothing 20 (mk_ghost None None) demo_vfs true true (replicate 32 7) (replicate 12 7) 500 true (allocs_at 16) 0 _ demo_at_boot _ eq_refl demo_allocs eq_refl eq_refl); [|done].
  apply demo_inv. lia.
Defined.

(** Two attempts to open "sh" fail for lack of memory, which closes the handle
    again; the third one succeeds; a second open finds the same vnode. *)
Definition demo_calls : list (call (S := DW)) :=
  [Setbootfs emu0; Open emu0_sh O_RDONLY; Open emu0_sh O_RDONLY; Open emu0_sh O_RDONLY; Chdir (emu0 ++ [58]); Open sh O_RDWR; Lookup emu0_sh; Close 3000; Drop 3000; Unmountall].

Lemma demo_calls_leave :
  match ('(st, e) ← demo_config; c ← run demo_calls (mk_client st ∅ ∅ ∅); Ok (e, c)) with
  | Ok (e, c) => let w := world (c_vfs c) in
      (e, elements (fst (e_hw (ew_sc w))), map_to_list ((fun ev => (vn_refcount (ev_v ev), vn_opencount (ev_v ev), ev_handle ev)) <$> ew_vnodes w),
       multiplicity 3000 (c_held c), multiplicity 3000 (c_open c))
  | _ => (-1, [], [], 0%nat, 0%nat)
  end = (0, [1; 0], [(3000, (1, 1, 1)); (1000, (3, 0, 0))], 1%nat, 1%nat).
Proof. vm_compute. reflexivity. Qed.

(** ** Running the program *)

Definition demo_plenty : vfs DW := set_world (set_mem [mk_alloc (Some 1000) true true; mk_alloc (Some 3000) true true] (world demo_vfs)) demo_vfs.
Definition demo_booted : vfs DW :=
  match config_emu true true (replicate 32 7) (replicate 12 7) (Some 500) true (allocs_at 16) 0 demo_plenty with Ok (st, _) => st | _ => demo_plenty end.

Lemma demo_booted_inv n : (n <= 90)%nat -> exists F, inv n (mk_ghost None None) demo_booted ∅ ∅ F.
Proof.
  intros Hn. destruct (config_emu_spec n (mk_ghost None None) demo_plenty ∅ ∅ true true (replicate 32 7) (replicate 12 7) 500 true (allocs_at 16) 0) as (st' & e & E & Hi).
  - apply (inv_world (1 + n) (1 + n) _ _ ∅ ∅); [apply demo_inv; lia|done|done|]. change (ew_refs (world demo_plenty) ∅ ∅ ∅).
    apply none_refs; [|done|done|exists {[EMU_ROOTHANDLE]}; apply demo_at_boot]. split; [done|done|done|]. intros v f Hv. multiset_solver.
  - exact demo_at_boot.
  - done.
  - done.
  - intros p [= <-]. do 2 (split; [done|]). intros a Ha. repeat (apply elem_of_cons in Ha as [-> |Ha]; [done|]). by apply elem_of_nil in Ha.
  - done.
  - done.
  - exists (if e =? 0 then {[500]} else ∅). unfold demo_booted. rewrite E. exact Hi.
Qed.

(** The result of opening the program. *)
Definition opened_sh (r : res (vfs DW * Z * Z)) : bool :=
  match r with
  | Ok (st, e, v) => (e =? 0) && match ew_vnodes (world st) !! v with Some ev => ev_handle ev =? 1 | None => false end && bool_decide (snd (e_hw (ew_sc (world st))) = tiny_exec)
  | _ => false
  end.

Lemma opened_sh_file st e v : opened_sh (Ok (st, e, v)) = true -> e = 0 /\ emu_is_file v (world st) /\ emu_file_bytes v (world st) = tiny_exec.
Proof.
  intros [[He Hv]%andb_true_iff Hd%bool_decide_eq_true]%andb_true_iff. split; [by apply Z.eqb_eq|]. unfold emu_is_file, emu_file_bytes. destruct (ew_vnodes (world st) !! v) as [ev|]; [|done].
  cbn [emu_data demo_laws]. unfold demo_data. rewrite Hv, Hd. split; [|done]. exists ev, tiny_exec. by rewrite Hv.
Qed.

Definition boot_kern : kern (bool * bool) := set_as (mk_machine small_ram small_mem no_tlb 0) None (small_kern 0).


(** ** Writing to it *)

Definition sh_result : res (Z * Z * DW) := open_and_load 1000 sh false false (with_root 500 1000 [mk_alloc (Some 3000) true true] (world demo_vfs)).
Definition sh_world : DW := match sh_result with Ok (_, _, w) => w | _ => world demo_vfs end.
Definition sh_vnode : Z := match sh_result with Ok (_, v, _) => v | _ => 0 end.

(** The vnode of "sh" in memory. *)
Definition loaded_sh (e v : Z) (w : DW) : bool :=
  (e =? 0) && match ew_vnodes w !! v with Some ev => ev_handle ev =? 1 | None => false end.

Lemma sh_state : exists l T ev, emu_state 500 1000 l ∅ sh_world T ∅ /\ ew_vnodes sh_world !! sh_vnode = Some ev /\
  exists d, emu_data (e_hw (ew_sc sh_world)) (ev_handle ev) = Some d.
Proof.
  pose proof (with_root_state 500 1000 [mk_alloc (Some 3000) true true] (world demo_vfs) demo_at_boot ltac:(done) ltac:(done)) as Hs.
  destruct (es_root Hs) as (ev & Hv & _).
  destruct (es_open_and_load 500 1000 [1000] _ ∅ ∅ 1000 ev sh false false Hs) as (e & v & w & E & _ & l & Hg); [done|done|].
  assert (match sh_result with Ok (e, v, w) => loaded_sh e v w | _ => false end = true) as Hl by (vm_compute; reflexivity).
  unfold sh_world, sh_vnode. fold sh_result in E. rewrite E in *. apply andb_true_iff in Hl as [->%Z.eqb_eq Hl]. cbn [Z.eqb] in Hg. clear E Hs Hv ev.
  destruct (ew_vnodes w !! v) as [ev|] eqn:Ev; [|done]. exists l, (∅ ⊎ {[+ (v, Some 500) +]}), ev. split; [exact Hg|]. split; [done|].
  exists (snd (e_hw (ew_sc w))). cbn [emu_data demo_laws]. unfold demo_data. by rewrite Hl.
Qed.

Lemma emufs_write_read_witness : exists v (w w' w'' : DW) u' err r, emufs_write (fun _ => true) None v (mk_kuio [9; 8; 7] 3 2 UIO_WRITE) w = Ok (0, u', w') /\
  emufs_read (fun _ => true) None v (mk_kuio [] 3 2 UIO_READ) w' = Ok (err, r, w'') /\ (err = 0 -> iov_data r = [9; 8; 7]).
Proof.
  destruct sh_state as (l & T & ev & Hs & Hv & d & Hd).
  destruct (emufs_write_read 500 1000 l sh_world T ∅ sh_vnode ev d (fun _ => true) None (mk_kuio [9; 8; 7] 3 2 UIO_WRITE) Hs Hv Hd) as (err & u' & w' & E & _ & Hok & _); try done.
  assert (match emufs_write (fun _ => true) None sh_vnode (mk_kuio [9; 8; 7] 3 2 UIO_WRITE) sh_world with Ok (e, _, _) => e =? 0 | _ => false end = true) as He
    by (vm_compute; reflexivity).
  rewrite E in He. apply Z.eqb_eq in He as ->. destruct (Hok eq_refl) as (_ & _ & err2 & r & w'' & Er & _ & Hr & _).
  exists sh_vnode, sh_world, w', w'', u', err2, r. split; [exact E|]. split; [exact Er|exact Hr].
Defined.
