(* ===== verification/MenuVfs.v ===== *)
(** * The menu on the VFS

    The menu of menu.c with the VFS under it: a command that works on files
    is a call of the VFS, a program is started in a thread that inherits the
    current directory, and the machine is switched off by shutdown() of
    kern/main/main.c.  A session is lines that are typed and threads that open
    and close their program and exit in between.  Whatever is typed, the references to
    vnodes balance. *)
From Stdlib Require Import String.
From stdpp Require Import base numbers list option gmap gmultiset.
From S2P Require Import Prelude Libc Uio Console Tty Vnode Vfs Menu VfsSpec VfsDev VfsRefs Emu EmuSpec EmuVfs EmuSystem EmuRun.
Local Open Scope Z_scope.

Section station.
Context {S : Type} `{VfsLaws S} {T : Type}.

(** shutdown() as far as the VFS goes: [Sched.scheduler_shutdown] follows. *)
Definition shutdown (st : vfs S) : res (vfs S) :=
  st ← vfs_clearbootfs st;
  '(st, _) ← vfs_clearcurdir st;
  '(st, _) ← vfs_unmountall st;
  Ok st.

(** [children] are the threads started for programs, by their current
    directories.  [answers] is what thread_fork() will find: no memory for the
    thread or its stack, or the result of what comes after the current
    directory was inherited. *)
Record station : Type := mk_station {
  on_vfs : vfs S;
  on_tty : T;
  children : list (option Z);
  answers : list (option Z);
}.
Definition with_vfs (st : vfs S) (w : station) : station := mk_station st (on_tty w) (children w) (answers w).

(** The thread gets the address of [args]; the strings it finds there are
    those of [Runs] below. *)
Definition fork_prog (args : list (list Z)) (w : station) : res (Z * station) :=
  let st := on_vfs w in
  match answers w with
  | [] | None :: _ => Ok (ENOMEM, mk_station st (on_tty w) (children w) (tail (answers w)))
  | Some result :: answers =>
      let cwd := t_cwd st in
      st ← (match cwd with Some v => incref v st | None => Ok st end);
      if negb (result =? 0) then
        st ← (match cwd with Some v => decref v st | None => Ok st end);
        Ok (result, mk_station st (on_tty w) (children w) answers)
      else Ok (0, mk_station st (on_tty w) (children w ++ [cwd]) answers)
  end.

(** Thread [i] is scheduled with the arguments it finds: [cmd_progthread], and
    of [runprogram] the calls of the VFS, which on all its paths are the open
    and, if that succeeds, the close; what [load_elf] reads in between is the
    subject of RunProgram.v and left out here.  [t_cwd] is that of the current
    thread. *)
Definition child_runs (i : nat) (args : list (list Z)) (w : station) : res station :=
  match children w !! i with
  | None => Ok w
  | Some cwd =>
      '(_, progname) ← cmd_progthread args;
      '(st, e, v) ← vfs_open progname O_RDONLY (set_cwd cwd (on_vfs w));
      st ← (if negb (e =? 0) then Ok st else vfs_close v st);
      Ok (with_vfs (set_cwd (t_cwd (on_vfs w)) st) w)
  end.

(** Thread [i] exits: thread_exit() gives up its current directory. *)
Definition child_exits (i : nat) (w : station) : res station :=
  match children w !! i with
  | None => Ok w
  | Some cwd =>
      st ← (match cwd with Some v => decref v (on_vfs w) | None => Ok (on_vfs w) end);
      Ok (mk_station st (on_tty w) (delete i (children w)) (answers w))
  end.

(** A call of the VFS that gives an error code. *)
Definition on_station (r : res (vfs S * Z)) (w : station) : res (Z * station) :=
  '(st, e) ← r; Ok (e, with_vfs st w).

(** The function that mounts an SFS, and the tests: nothing is assumed of
    them. *)
Variable sfs_domount : Z -> S -> res (Z * option Z * S).
Variable run_test : list Z -> list (list Z) -> station -> res (Z * station).

Definition station_env : MenuEnv station := {|
  m_chdir path w := on_station (vfs_chdir path (on_vfs w)) w;
  m_getcwd w := on_station ('(st, e, _) ← vfs_getcwd (fun _ => true) None (mk_kuio [] 1024 0 UIO_READ) (on_vfs w); Ok (st, e)) w;
  m_sync w := on_station (vfs_sync (on_vfs w)) w;
  m_mount device w := on_station (vfs_mount device sfs_domount (on_vfs w)) w;
  m_unmount device w := on_station (vfs_unmount device (on_vfs w)) w;
  m_setbootfs device w := on_station (vfs_setbootfs device (on_vfs w)) w;
  m_poweroff w := st ← shutdown (on_vfs w); Ok (with_vfs st w);
  m_fork := fork_prog;
  m_test := run_test;
|}.

(** ** The references *)

Definition child_dirs (w : station) : gmultiset Z := list_to_set_disj (omap id (children w)).

(** What a thread has as its directory is in a file system. *)
Definition station_ok (k : nat) (w : station) : Prop :=
  exists g R F, inv k g (on_vfs w) R ∅ F /\ vnodes R = child_dirs w /\ forall t, t ∈ R -> snd t <> None.

Lemma shutdown_spec k g st R O F : inv k g st R O F -> exists st' F', shutdown st = Ok st' /\ inv k (mk_ghost None None) st' R O F'.
Proof.
  intros Hi. unfold shutdown. destruct (change_bootfs_spec k g st R O F None) as (st1 & E1 & Hi1); [by cbn [opt_refs]; rewrite gmultiset_disj_union_right_id|apply Hi|].
  change (vfs_clearbootfs st = Ok st1) in E1. rewrite E1, bind_Ok. destruct (vfs_clearcurdir_spec _ _ _ _ _ _ Hi1) as (st2 & -> & Hi2). rewrite bind_Ok.
  destruct (vfs_unmountall_spec _ _ _ _ _ _ Hi2) as (F' & st3 & -> & Hi3). rewrite bind_Ok. by exists st3, F'.
Qed.

(** A call that gives no reference away. *)
Lemma on_station_ok k w r R : vnodes R = child_dirs w -> (forall t, t ∈ R -> snd t <> None) -> (exists g st e F, r = Ok (st, e) /\ inv (1 + k) g st R ∅ F) ->
  ok_with (on_station r w) (fun '(_, w') => station_ok k w').
Proof. intros HR Hf (g & st & e & F & -> & Hi). eexists. split; [done|]. exists g, R, F. split; [by apply inv_weaken|done]. Qed.

Lemma station_weaken k w : station_ok (1 + k) w -> station_ok k w.
Proof. intros (g & R & F & Hi & HR). exists g, R, F. split; [by apply inv_weaken|done]. Qed.

Lemma station_less (n k : nat) w : station_ok (n + k) w -> station_ok k w.
Proof. induction n as [|n IH]; [done|]. intros Hw. by apply IH, station_weaken. Qed.

Lemma fork_prog_ok k args w : station_ok (1 + k) w -> ok_with (fork_prog args w) (fun '(_, w') => station_ok k w').
Proof.
  intros Hw. pose proof Hw as (g & R & F & Hi & HR & Hf). unfold fork_prog.
  assert (forall (e : Z) ans, ok_with (Ok (e, mk_station (on_vfs w) (on_tty w) (children w) ans)) (fun '(_, w') => station_ok k w')) as Hnone.
  { intros e ans. eexists. split; [done|]. apply station_weaken. by exists g, R, F. }
  destruct (answers w) as [|[r|] ans]; [apply Hnone| |apply Hnone]. rewrite (inv_cwd Hi). destruct (g_cwd g) as [[v f]|] eqn:Eg; cbn [fmap option_fmap option_map fst].
  - destruct (incref_spec k g (on_vfs w) R ∅ F v f Hi) as (w1 & -> & Hi1); [apply gmultiset_elem_of_disj_union; right; by apply cwd_in_kernel|]. rewrite bind_Ok. destruct (negb (r =? 0)).
    + destruct (decref_spec _ _ _ _ _ _ _ _ Hi1 (inv_open Hi)) as (w2 & -> & Hi2). rewrite bind_Ok. eexists. split; [done|]. exists g, R, F. split; [by apply inv_weaken|done].
    + eexists. split; [done|]. exists g, (R ⊎ {[+ (v, f) +]}), F. split; [done|]. split.
      * unfold child_dirs. cbn [children]. rewrite vnodes_add, HR, omap_app, list_to_set_disj_app.
        change (list_to_set_disj (omap id [Some v])) with ({[+ v +]} ⊎ ∅ : gmultiset Z). by rewrite gmultiset_disj_union_right_id.
      * intros t [?| ->%gmultiset_elem_of_singleton]%gmultiset_elem_of_disj_union; [by apply Hf|exact (inv_dir Hi _ Eg)].
  - rewrite bind_Ok. destruct (negb (r =? 0)); [apply Hnone|]. eexists. split; [done|]. apply station_weaken. exists g, R, F. split; [done|]. split; [|done].
    unfold child_dirs. cbn [children]. rewrite omap_app. cbn. by rewrite app_nil_r.
Qed.

(** ** The threads *)

(** Another thread runs: its directory for that of the one that ran. *)
Lemma switch_cwd k g st R F c : inv (1 + k) g st (R ⊎ opt_refs c) ∅ F -> (forall t, c = Some t -> snd t <> None) ->
  inv k (mk_ghost c (g_boot g)) (set_cwd (fst <$> c) st) (R ⊎ opt_refs (g_cwd g)) ∅ F.
Proof.
  intros [Hr Ho Hc Hb Hd Hk Hm Hroom Hl] Hdir. split; try done.
  - cbn [world set_cwd]. eapply refs_eq; [exact Hr|]. unfold kernel_refs. cbn [g_cwd g_boot knowndevs set_cwd]. multiset_solver.
  - multiset_solver.
  - cbn [knowndevs set_cwd]. rewrite !gmultiset_size_disj_union, !opt_refs_size in *. destruct c, (g_cwd g); lia.
Qed.

(** The reference of a thread, and those of the others. *)
Lemma child_ref w i cwd R : children w !! i = Some cwd -> vnodes R = child_dirs w ->
  exists R' c, R = R' ⊎ opt_refs c /\ cwd = fst <$> c /\ vnodes R' = list_to_set_disj (omap id (delete i (children w))).
Proof.
  intros Hi HR. unfold child_dirs in HR. rewrite <-(take_drop_middle _ _ _ Hi) in HR. rewrite delete_take_drop, !omap_app, list_to_set_disj_app in *.
  cbn [omap list_omap] in HR. destruct cwd as [v|]; cbn [id] in HR.
  - rewrite list_to_set_disj_cons in HR. assert (v ∈ vnodes R) as [f Hf]%elem_of_vnodes by (rewrite HR; multiset_solver).
    exists (R ∖ {[+ (v, f) +]}), (Some (v, f)). split; [cbn [opt_refs]; multiset_solver|]. split; [done|]. rewrite <-(vnodes_remove R (v, f) Hf), HR. cbn [fst]. multiset_solver.
  - exists R, None. split; [cbn [opt_refs]; by rewrite gmultiset_disj_union_right_id|]. done.
Qed.

Lemma child_exits_ok k i w : station_ok (1 + k) w -> ok_with (child_exits i w) (station_ok k).
Proof.
  intros Hw. pose proof Hw as (g & R & F & Hi & HR & Hf). unfold child_exits. destruct (children w !! i) as [cwd|] eqn:Ec; [|eexists; split; [done|]; by apply station_weaken].
  destruct (child_ref w i cwd R Ec HR) as (R' & c & -> & -> & HR'). assert (forall t, t ∈ R' -> snd t <> None) as Hf' by (intros t Ht; apply Hf; multiset_solver).
  destruct c as [[v f]|]; cbn [fmap option_fmap option_map fst opt_refs] in *.
  - destruct (decref_spec _ _ _ _ _ _ _ _ Hi) as (w1 & -> & Hi1); [multiset_solver|]. rewrite bind_Ok. eexists. split; [done|].
    exists g, R', F. split; [|done]. by apply inv_weaken, inv_weaken.
  - rewrite bind_Ok. eexists. split; [done|]. rewrite gmultiset_disj_union_right_id in Hi. exists g, R', F. split; [by apply inv_weaken|done].
Qed.

Lemma child_runs_ok k i name args w : station_ok (5 + k) w -> Z.of_nat (length name) < 128 -> ok_with (child_runs i (name :: args) w) (station_ok (3 + k)).
Proof.
  intros Hw Hlen. pose proof Hw as (g & R & F & Hi & HR & Hf). unfold child_runs. destruct (children w !! i) as [cwd|] eqn:Ec; [|eexists; split; [done|]; by apply station_weaken, station_weaken].
  cbn [cmd_progthread]. destruct (Z.ltb_spec (Z.of_nat (length name)) 128); [|lia]. cbn [assert]. rewrite !bind_Ok.
  destruct (child_ref w i cwd R Ec HR) as (R' & c & -> & -> & _). assert (forall t, c = Some t -> snd t <> None) as Hc by (intros t ->; apply Hf; cbn [opt_refs]; multiset_solver).
  pose proof (switch_cwd _ _ _ _ _ _ Hi Hc) as Hi1. destruct (vfs_open_spec (1 + k) _ _ _ _ _ name O_RDONLY Hi1) as (w1 & e & v & -> & Hopen). rewrite bind_Ok.
  assert (exists w2, (if negb (e =? 0) then Ok (set_world w1 (set_cwd (fst <$> c) (on_vfs w))) else vfs_close v (set_world w1 (set_cwd (fst <$> c) (on_vfs w)))) =
      Ok (set_world w2 (set_cwd (fst <$> c) (on_vfs w))) /\
    inv (4 + k) (mk_ghost c (g_boot g)) (set_world w2 (set_cwd (fst <$> c) (on_vfs w))) (R' ⊎ opt_refs (g_cwd g)) ∅ F) as (w2 & -> & Hi2).
  { destruct (e =? 0); cbn [negb]; [|by exists w1]. destruct Hopen as [f Hopen].
    destruct (vfs_close_spec _ _ _ _ _ _ _ _ Hopen) as (w2 & -> & Hi2). by exists w2. }
  rewrite bind_Ok. eexists. split; [done|]. cbn [with_vfs].
  pose proof (switch_cwd (3 + k) _ _ R' F (g_cwd g) Hi2 (fun t => inv_dir Hi t)) as Hi3. cbn [g_cwd g_boot] in Hi3. rewrite <-(inv_cwd Hi) in Hi3.
  exists (mk_ghost (g_cwd g) (g_boot g)), (R' ⊎ opt_refs c), F. split; [exact Hi3|done].
Qed.

(** ** Commands *)

(** Everything but the tests, the intended panic and the mounting of an SFS. *)
Definition quiet_command (c : command) : bool := match c with cmd_panic | cmd_mount | test _ => false | _ => true end.

Definition after (k : nat) (r : outcome * station) : Prop :=
  station_ok k (snd r) /\ (fst r = Off -> t_cwd (on_vfs (snd r)) = None /\ bootfs_vnode (on_vfs (snd r)) = None).

Lemma after_returns k (r : res (Z * station)) : ok_with r (fun '(_, w') => station_ok k w') -> ok_with (returns r) (after k).
Proof. intros ([e w'] & -> & Hw). eexists. split; [done|]. by split. Qed.

Lemma nothing_done k e w : station_ok (1 + k) w -> ok_with (Ok (Returns e, w)) (after k).
Proof. intros Hw. eexists. split; [done|]. split; [by apply station_weaken|done]. Qed.

Lemma device_name_ok device : device <> [] -> exists name, device_name device = Ok name.
Proof.
  intros Hd. unfold device_name. assert (0 < length device)%nat by (destruct device; [done|cbn; lia]).
  destruct (load_in_range device (Z.of_nat (length device) - 1)) as (c & -> & _); [lia|]. by eexists.
Qed.

Local Existing Instance station_env.

Lemma quiet_command_ok k c args w : station_ok (4 + k) w -> quiet_command c = true -> Forall (fun a => a <> []) args -> ok_with (run_command c args w) (after (3 + k)).
Proof.
  intros Hw Hq Ha. pose proof Hw as (g & R & F & Hi & HR & Hf). destruct c; try done.
  - by apply nothing_done.
  - destruct args as [|? [|? ?]]; [by apply nothing_done| |by apply nothing_done]. by apply after_returns, fork_prog_ok.
  - destruct args as [|? [|? ?]]; [by apply nothing_done|by apply nothing_done|]. by apply after_returns, fork_prog_ok.
  - destruct args as [|? [|device [|? ?]]]; try by apply nothing_done. cbn [run_command]. destruct (device_name_ok device) as [name ->]; [by decompose_Forall|]. rewrite bind_Ok.
    apply after_returns, (on_station_ok _ _ _ R HR Hf). destruct (vfs_unmount_spec (4 + k) g _ R ∅ F name Hi) as (F' & st' & e & E & Hi'). by exists g, st', e, F'.
  - destruct args as [|? [|device [|? ?]]]; try by apply nothing_done. cbn [run_command]. destruct (device_name_ok device) as [name ->]; [by decompose_Forall|]. rewrite bind_Ok.
    apply after_returns, (on_station_ok _ _ _ R HR Hf). destruct (vfs_setbootfs_spec (1 + k) g _ R ∅ F name Hi) as (g' & st' & e & E & Hi'). by exists g', st', e, F.
  - destruct args as [|? [|dir [|? ?]]]; try by apply nothing_done.
    apply after_returns, (on_station_ok _ _ _ R HR Hf). destruct (vfs_chdir_spec (1 + k) g _ R ∅ F dir Hi) as (g' & st' & e & E & Hi'). by exists g', st', e, F.
  - cbn [run_command]. apply after_returns, (on_station_ok _ _ _ R HR Hf).
    destruct (vfs_getcwd_spec (2 + k) g _ R ∅ F (fun _ => true) None (mk_kuio [] 1024 0 UIO_READ) Hi) as (w' & e & u & -> & Hi'); [done|]. rewrite bind_Ok. by eexists g, _, _, F.
  - cbn [run_command m_sync station_env]. destruct (vfs_sync_neutral _ _ _ _ _ _ Hi) as (w' & e & E & Hi'). unfold on_station. rewrite E, !bind_Ok. eexists. split; [done|]. split; [|done].
    exists g, R, F. split; [by apply inv_weaken|done].
  - cbn [run_command m_sync m_poweroff station_env]. destruct (vfs_sync_neutral _ _ _ _ _ _ Hi) as (w' & e & E & Hi'). unfold on_station. rewrite E, !bind_Ok.
    destruct (shutdown_spec _ _ _ _ _ _ Hi') as (st' & F' & Es & Hi2). cbn [on_vfs with_vfs]. rewrite Es, bind_Ok. eexists. split; [done|].
    split; [exists (mk_ghost None None), R, F'; split; [by apply inv_weaken|done]|]. intros _. split; [exact (inv_cwd Hi2)|exact (inv_boot Hi2)].
  - by apply nothing_done.
Qed.

Variables OPT_SYNCHPROBS OPT_NET : bool.

(** The commands of the line are quiet, or not known. *)
Definition quiet (cmds : list (list Z)) : bool :=
  forallb (fun cmd => match words blanks cmd with
                      | [] => true
                      | name :: _ => match command_named OPT_SYNCHPROBS OPT_NET name with Some c => quiet_command c | None => true end
                      end) cmds.

Lemma dispatch_quiet k cmd w : station_ok (4 + k) w -> quiet [cmd] = true -> ok_with (Menu.dispatch OPT_SYNCHPROBS OPT_NET cmd w) (after (3 + k)).
Proof.
  intros Hw Hq. unfold quiet in Hq. cbn [forallb] in Hq. rewrite andb_true_r in Hq. unfold Menu.dispatch. destruct (_ <? _)%nat; [by apply nothing_done|].
  pose proof (words_nonempty blanks cmd) as Hne. destruct (words blanks cmd) as [|name ws]; [by apply nothing_done|].
  destruct (command_named _ _ name) as [c|]; [|by apply nothing_done]. by apply quiet_command_ok.
Qed.

(** A command fails. *)
Definition failing (cmds : list (list Z)) : Prop :=
  exists cmd e w w', cmd ∈ cmds /\ Menu.dispatch OPT_SYNCHPROBS OPT_NET cmd w = Ok (Returns e, w') /\ e <> 0.

Definition is_off (w : station) : Prop := t_cwd (on_vfs w) = None /\ bootfs_vnode (on_vfs w) = None.

Lemma execute_quiet k isargs cmds : forall w, station_ok (3 + length cmds + k) w -> quiet cmds = true ->
  ok_with (execute OPT_SYNCHPROBS OPT_NET cmds isargs w) (fun '(on, w') => station_ok (3 + k) w' /\ (on = false -> is_off w')) \/
  (isargs = true /\ failing cmds /\ execute OPT_SYNCHPROBS OPT_NET cmds isargs w = Panic).
Proof.
  induction cmds as [|cmd cmds IH]; intros w Hw Hq; [left; by eexists|]. cbn [execute]. unfold quiet in Hq. cbn [forallb] in Hq. apply andb_true_iff in Hq as [Hc Hq].
  destruct (dispatch_quiet (length cmds + k) cmd w Hw) as ([out w'] & E & Hw' & Hoff); [unfold quiet; cbn [forallb]; by rewrite andb_true_r|]. rewrite E, bind_Ok. cbn [fst snd] in *.
  destruct out as [e|].
  - destruct (Z.eqb_spec e 0) as [->|He]; [|destruct isargs].
    + destruct (IH w' Hw' Hq) as [?|(? & (c & e & w1 & w2 & Hin & Hf) & ?)]; [by left|right]. split; [done|]. split; [|done]. exists c, e, w1, w2. split; [by right|done].
    + right. split; [done|]. split; [|done]. exists cmd, e, w, w'. split; [left|done].
    + destruct (IH w' Hw' Hq) as [?|(? & _)]; [by left|done].
  - left. eexists. split; [done|]. split; [|by intros _; apply Hoff]. apply (station_less (length cmds)). by replace (length cmds + (3 + k))%nat with (3 + (length cmds + k))%nat by lia.
Qed.

(** ** Sessions *)

(** A line at the prompt, or the boot line ([isargs]), with what is behind it
    in its buffer; a thread runs, with the arguments it finds; a thread exits. *)
Inductive event : Type :=
| Typed (line rest : list Z) (isargs : bool)
| Runs (i : nat) (args : list (list Z))
| Exits (i : nat).

Definition step (scribble : list Z -> list Z -> list Z) (ev : event) (w : station) : res (bool * station) :=
  match ev with
  | Typed line rest isargs => menu_execute OPT_SYNCHPROBS OPT_NET scribble (line ++ 0 :: rest) isargs w
  | Runs i args => w ← child_runs i args w; Ok (true, w)
  | Exits i => w ← child_exits i w; Ok (true, w)
  end.

(** Until the machine is switched off. *)
Fixpoint session (scribble : list Z -> list Z -> list Z) (events : list event) (w : station) : res (bool * station) :=
  match events with
  | [] => Ok (true, w)
  | ev :: events => '(on, w) ← step scribble ev w; if (on : bool) then session scribble events w else Ok (false, w)
  end.

(** The name of a program fits into the 128 bytes of [cmd_progthread]. *)
Definition event_ok (ev : event) : Prop :=
  match ev with
  | Typed line _ _ => (0 ∉ line) /\ quiet (words [59] line) = true
  | Runs _ args => exists name rest, args = name :: rest /\ Z.of_nat (length name) < 128
  | Exits _ => True
  end.

(** How many references an event may take. *)
Definition event_cost (ev : event) : nat := match ev with Typed line _ _ => length (words [59] line) | Runs _ _ => 2 | Exits _ => 1 end.
Definition cost (events : list event) : nat := sum_list_with event_cost events.

(** A boot line has a command that fails. *)
Definition bad_boot_line (events : list event) : Prop := exists line rest, Typed line rest true ∈ events /\ failing (words [59] line).

Lemma step_spec k scribble ev w : scribble_ok scribble -> event_ok ev -> station_ok (3 + event_cost ev + k) w ->
  ok_with (step scribble ev w) (fun '(on, w') => station_ok (3 + k) w' /\ (on = false -> is_off w')) \/ (bad_boot_line [ev] /\ step scribble ev w = Panic).
Proof.
  intros Hsc Hev Hw. destruct ev as [line rest isargs|i args|i]; cbn [step event_cost event_ok] in *.
  - destruct Hev as [Hnul Hq]. rewrite menu_execute_spec by done. destruct (execute_quiet k isargs (words [59] line) w Hw Hq) as [?|(-> & Hf & E)]; [by left|right].
    split; [|done]. exists line, rest. split; [left|done].
  - destruct Hev as (name & rest & -> & Hl). left. destruct (child_runs_ok k i name rest w Hw Hl) as (w' & -> & Hw'). rewrite bind_Ok. eexists. done.
  - left. destruct (child_exits_ok (3 + k) i w Hw) as (w' & -> & Hw'). rewrite bind_Ok. eexists. done.
Qed.

Lemma session_spec k scribble events : scribble_ok scribble -> Forall event_ok events -> forall w, station_ok (3 + cost events + k) w ->
  ok_with (session scribble events w) (fun '(on, w') => station_ok (3 + k) w' /\ (on = false -> is_off w')) \/ (bad_boot_line events /\ session scribble events w = Panic).
Proof.
  intros Hsc Hev. induction Hev as [|ev events Hev _ IH]; intros w Hw; [left; by eexists|]. cbn [session]. unfold cost in Hw. cbn [sum_list_with] in Hw. fold (cost events) in Hw.
  destruct (step_spec (cost events + k) scribble ev w Hsc Hev) as [([on w'] & -> & Hw' & Hoff)|((l & r & Hin & Hf) & ->)].
  - by replace (3 + event_cost ev + (cost events + k))%nat with (3 + (event_cost ev + cost events) + k)%nat by lia.
  - rewrite bind_Ok. destruct on.
    + destruct (IH w') as [?|((l & r & Hin & Hf) & ?)]; [by replace (3 + cost events + k)%nat with (3 + (cost events + k))%nat by lia|by left|right].
      split; [|done]. exists l, r. split; [by right|done].
    + left. eexists. split; [done|]. split; [|done]. apply (station_less (cost events)). by replace (cost events + (3 + k))%nat with (3 + (cost events + k))%nat by lia.
  - right. split; [|done]. exists l, r. split; [|done]. apply list_elem_of_singleton in Hin as ->. left.
Qed.

(** What the threads and the VFS have of a vnode. *)
Lemma station_refcount k w v : station_ok k w -> (0 < multiplicity v (child_dirs w) + vfs_count (on_vfs w) v)%nat ->
  exists vn, vn_lookup v (world (on_vfs w)) = Some vn /\
    vn_refcount vn = Z.of_nat (multiplicity v (child_dirs w) + vfs_count (on_vfs w) v + kept v (world (on_vfs w))).
Proof.
  intros (g & R & F & Hi & HR & _) Hv. destruct (counted_refcount k (mk_client (on_vfs w) (child_dirs w) ∅ ∅) v) as (vn & El & Er & _).
  - exists g, R, ∅, F, ∅. rewrite gmultiset_disj_union_right_id. split; [done|]. split; [apply Hi|]. split; [done|]. split; [done|]. split; [done|]. intros t Ht. multiset_solver.
  - unfold outstanding. cbn [c_held c_vfs c_lost]. lia.
  - exists vn. split; [done|]. rewrite Er. unfold outstanding. cbn [c_held c_vfs c_lost]. rewrite multiplicity_empty. f_equal. lia.
Qed.

(** ** The terminal *)

Definition with_tty (t : T) (w : station) : station := mk_station (on_vfs w) t (children w) (answers w).
Definition station_terminal `{!Terminal T} : Terminal station := {|
  getch w := '(ch, t) ← getch (on_tty w); Ok (ch, with_tty t w);
  putch ch w := t ← putch ch (on_tty w); Ok (with_tty t w);
  beep w := t ← beep (on_tty w); Ok (with_tty t w);
|}.

Definition station_tlaws `{!Terminal T} `{!TerminalLaws T} : @TerminalLaws station station_terminal.
Proof.
  refine {| tty_ok w := tty_ok (on_tty w) : Prop; keys w := keys (on_tty w); shown w := shown (on_tty w) |}.
  - intros w k ks Hok Hk. destruct (getch_key _ _ _ Hok Hk) as (t & E & ? & ? & ?). exists (with_tty t w). cbn. by rewrite E.
  - intros ch w Hok. destruct (putch_shown ch _ Hok) as (t & E & ? & ? & ?). exists (with_tty t w). cbn. by rewrite E.
  - intros w Hok. destruct (beep_shown _ Hok) as (t & E & ? & ? & ?). exists (with_tty t w). cbn. by rewrite E.
Defined.
End station.

(** ** Sessions on the emulator file system *)

Section emufs.
Context {E : Type} {HW : EmuHw E} {HL : EmuLaws E} {H : Type} {devs : Z -> option (device H)} {T : Type}.

End emufs.

Definition no_sfs : Z -> DW -> res (Z * option Z * DW) := fun _ w => Ok (EINVAL, None, w).
Definition no_test (name : list Z) (args : list (list Z)) (w : station (S := DW) (T := @tty uart)) : res (Z * station) := Ok (0, w).
Definition ignore (s args : list Z) : list Z := s.

Lemma ignore_ok : scribble_ok ignore.
Proof. intros s args ws lo hi _. apply agree_refl. Qed.

(** Memory for two threads, and none for a third one. *)
Definition demo_station (ks : list Z) : station := mk_station demo_booted (uart_tty ks) [] [Some 0; Some 0; None].

(** Two programs are started in the root of the file system; one runs, under
    another name than it was started with, and exits. *)
Definition demo_events : list event :=
  [Typed (chars "bootfs emu0; cd emu0:;pwd;	p sh 1 2;s;p sh;cd /nowhere;what") [] false;
   Runs 0 [chars "pwd"]; Runs 1 [sh]; Exits 0; Typed (chars "sync;q;cd emu0:") [7] false; Exits 0].

Lemma demo_station_ok ks : station_ok (3 + cost demo_events) (demo_station ks).
Proof.
  destruct (demo_booted_inv (3 + cost demo_events)) as (F & Hi); [by apply (bool_decide_unpack _)|]. exists (mk_ghost None None), ∅, F.
  split; [done|]. split; [done|]. intros t Ht. multiset_solver.
Qed.

Lemma demo_events_ok : Forall (event_ok true true) demo_events.
Proof.
  repeat apply Forall_cons_2; [|by do 2 eexists|by do 2 eexists|done| |done|apply Forall_nil_2];
    (split; [by apply (bool_decide_unpack _)|by vm_compute]).
Qed.

(** What the session leaves: the machine is off, and the thread that is left
    has the root of the file system, which the file system keeps too. *)
Lemma demo_session :
  match session no_sfs no_test true true ignore demo_events (demo_station []) with
  | Ok (on, w) => (on, children w, t_cwd (on_vfs w), vn_refcount <$> vn_lookup 1000 (world (on_vfs w)))
  | _ => (true, [], None, None)
  end = (false, [Some 1000], None, Some 2).
Proof. vm_compute. reflexivity. Qed.


(** "p sh;pwd" and "q" typed with a correction. *)
Definition demo_keys : list Z := chars "p sg" ++ [8] ++ chars "h;pwd" ++ [13] ++ chars "q" ++ [13].

Lemma menu_exact_witness :
  (forall line rest isargs (w : station), (0 ∉ line) ->
     menu_execute (MenuEnv0 := station_env no_sfs no_test) true true ignore (line ++ 0 :: rest) isargs w =
       execute (ME := station_env no_sfs no_test) true true (words [59] line) isargs w) /\
  exists w', keys (on_tty w') = chars "q" ++ [13] /\
    menu_round (MenuEnv0 := station_env no_sfs no_test) (Terminal0 := station_terminal) true true ignore 20 (replicate 64 0) (demo_station demo_keys) =
      execute (ME := station_env no_sfs no_test) true true (words [59] (chars "p sh;pwd")) false w'.
Proof.
  destruct (menu_exact (ME := station_env no_sfs no_test) (TW := station_terminal) (TL := station_tlaws) true true ignore ignore_ok) as [Hx Hr]. split; [exact Hx|].
  destruct (Hr (replicate 64 0) (demo_station demo_keys) (chars "p sh;pwd") (chars "p sh;pwd") (chars "q" ++ [13]) 20%nat) as (w' & _ & Hk & E).
  - apply uart_ready. by apply (bool_decide_unpack _).
  - done.
  - by vm_compute.
  - by apply (bool_decide_unpack _); vm_compute.
  - exists w'. by split.
Defined.
